(* ===== verification/_CoqProject ===== *)
-Q . S2P
Prelude.v
Effects.v
Buffer.v
Wire.v
Sha256.v
Memory.v
Image.v
Seal.v
Provider.v
Layout.v
SlotMetadata.v
SlotLifecycle.v
MemoryProvider.v
CString.v
Signature.v
KeyPolicy.v
KeyPolicyOrder.v
KeyPolicyProperties.v
KeyPolicyFixture.v
Session.v
TransactionWire.v
Transaction.v
TransactionLogic.v
TransactionCrash.v
TransactionProperties.v
Plugin.v
Protocol.v
Registry.v
RegistryOrder.v
RegistryProperties.v
ServiceDirectory.v
ServiceProperties.v
Context.v
ProtectedWire.v
ProtectedState.v
ProtectedLogic.v
ProtectedCrash.v
ProtectedSpec.v
ProtectedProperties.v
ProtectedFixture.v
ConfirmationWire.v
ConfirmationCodec.v
JournalInterface.v
Confirmation.v
ConfirmationProperties.v
ConfirmationFixture.v
Manifest.v
ManifestCodec.v
ManifestReader.v
ManifestProperties.v
ManifestAuthorization.v
ManifestFixture.v
Installer.v
InstallerLogic.v
InstallerProperties.v
InstallerLiveness.v
TransactionInstall.v
TransactionInstallProperties.v
InstallFixture.v
PayloadImage.v
Elf64.v
LinuxImage.v
PeCoff.v
ImagePlugins.v
BootEnvironment.v
ArchOps.v
Boot.v
BootPlacement.v
BootLogic.v
BootPrepare.v
BootLifecycle.v
BootSafety.v
BootFixture.v
BlockStorage.v
Fat32.v
Fat32Volume.v
Fat32Open.v
Tftp.v
RecoveryNetwork.v
SnpTransport.v
