(* ===== verification/Prelude.v ===== *)
(** * A verification of the Ribon boot runtime

    Ribon is a freestanding boot runtime in C.  Its trusted core decides which image
    may run and how it is started: two crash-safe journals (one for the update slots,
    one for the rollback floor), a trust store, an update manifest and the installer
    that writes what it authorises, a boot-confirmation engine that ties the journals
    together, the composition of a product from plugins and services, and the boot
    transaction, which reads an image, plans where it goes and hands control to it.
    Images come from read-only disks or, for a recovery, over the network.
    This development translates that core into Rocq functions and proves what it
    promises.  Paths are relative to the repository.

    ** How the code is modelled

    An unsigned [w]-bit integer is a [Z] and every conversion is written ([u32],
    [u64]: [wrap] below); a C condition is a boolean expression in the order of the
    code; a struct is a record with prefixed fields, a status enumeration an
    inductive type.  A pointer that may be NULL is an [option]; a pointer with its
    size is an optional byte list and a number; an output parameter is a result, and
    where the code checks an output for NULL the function takes a [bool].  Byte order,
    offsets and digests are computed as the code computes them ([Buffer], [Wire],
    [Sha256]).  Code with effects is a function on an explicit state in the monad of
    [Effects] ([leave_if] is an early return).  Callbacks (storage drivers, signature
    and nonce providers, protocol hooks) are function fields: the theorems hold for
    every callback that keeps the documented contract, stated as a class
    ([StorageContract], [ProtectedContract]) with an instance for the memory-backed
    drivers.  [reliable] says that calls succeed; it is assumed only where a
    theorem promises an outcome.

    ** The files

    - [Prelude], [Effects], [Buffer]: integers, guards, tables and automation; the
      monad and its program logic [triple]; byte buffers and the accesses of the code
      to them.
    - [Wire], [Sha256], [Image], [Seal], [CString]: little-endian words, CRC-32C and
      SHA-256 of [src/security/sha256.c] with its streaming interface proved equal to
      the digest of the padded message; a layout as a list of placed fields and when
      a buffer is exactly that ([image_exact]); C strings.
    - [Memory]: [src/core/memory.c] and [src/core/arena.c].  Normalising a memory map
      is sound and complete; the blocks of an arena never overlap.
    - [Provider], [Layout], [SlotMetadata], [SlotLifecycle], [MemoryProvider],
      [Session]: [src/update/storage.c].  The storage contract with torn writes; the
      layout calculator; the codec of the slot table; its transitions, which refine
      the lifecycle contract and let an image take over only after its own trial; a
      write session that reaches nothing but its staging slot.
    - [TransactionWire], [Transaction], [TransactionLogic], [TransactionCrash],
      [TransactionProperties]: [src/update/transaction.c].  Codec, engine, program
      logic over every medium a power cut may leave, and the crash-safety, liveness
      and freshness of commit, initialisation and confirmation.
    - [ProtectedWire], [ProtectedState], [ProtectedLogic], [ProtectedCrash],
      [ProtectedSpec], [ProtectedProperties], [ProtectedFixture]:
      [src/security/protected_state.c].  The journal refines the rollback machine
      [ProtectedSpec.step]; no sequence of operations, failures and power cuts lowers
      the floor or grants more attempts than were opened; domains do not interfere.
    - [Signature], [KeyPolicy], [KeyPolicyOrder], [KeyPolicyProperties],
      [KeyPolicyFixture]: [src/security/signature.c] and [src/security/key_policy.c].
      A validated trust store is sealed and its issuer chains are well founded;
      authorisation is exact; a signature is accepted only under the authorised key.
    - [Plugin], [Registry], [RegistryOrder], [RegistryProperties],
      [ServiceDirectory], [ServiceProperties], [Context]: [src/core/plugin.c],
      [registry.c], [service_directory.c], [context.c] and [src/modes].  An accepted
      registry can be initialised in an order that meets every dependency, a reported
      cycle is one, and the validation ends.
    - [Protocol]: [src/common/protocol.c], boot-protocol descriptors.
    - [ConfirmationWire], [ConfirmationCodec], [JournalInterface], [Confirmation],
      [ConfirmationProperties], [ConfirmationFixture]: [src/update/confirmation.c].
      The envelope has one encoding and is read back as written.  [JournalInterface]
      states what the two journals promise to a client, as classes that the theorems
      about the journals discharge; against them an attempt is paid for before it is
      handed out, a confirmation needs complete evidence and commits to the protected
      journal first whatever is cut, it can be retried until it completes, and its
      envelope belongs to one attempt.
    - [Manifest], [ManifestCodec], [ManifestReader], [ManifestProperties],
      [ManifestAuthorization], [ManifestFixture]: [src/update/manifest.c].  The
      encoder and the independent reader agree byte for byte; an accepted manifest
      names its components without ambiguity; a manifest is authorised only under a
      key the trust store admits for it.
    - [Installer], [InstallerLogic], [InstallerProperties], [InstallerLiveness]:
      [src/update/installer.c].  However it ends, an installation changes nothing
      outside its slot; one that succeeds leaves every component there, read back and
      verified; on storage that works it does succeed.
    - [TransactionInstall], [TransactionInstallProperties], [InstallFixture]: the
      installation through the journal of [src/update/transaction.c].  An update is
      atomic: wherever it is cut, the journal opens, the slot that ran still runs, and
      a slot called verified or pending holds the components of its manifest; a
      request that succeeds was authorised and has armed its slot durably.
    - [PayloadImage], [Elf64], [LinuxImage], [PeCoff], [ImagePlugins]:
      [src/common/image.c] and the readers of ELF64, PE32+ and the two Linux image
      formats.  Which files the ELF64 reader accepts and the plan it then writes
      ([elf64_analyze_exact]); every format leaves only plans whose segments are backed
      by the image, do not wrap and do not overlap, and contain an executable entry
      point ([image_formats_conform]).  That promise is the class [DirectFormat], and
      the boot transaction is verified against it.
    - [BootEnvironment]: [src/common/environment.c] and [module_bundle.c], operations
      of an environment and the module bundle it may carry.
    - [ArchOps]: [src/arch/common.c], operations of an architecture and the check of
      a load plan against the machine.
    - [Boot], [BootPlacement], [BootLogic], [BootPrepare], [BootLifecycle],
      [BootSafety], [BootFixture]: [src/common/boot.c].  The transaction is a state
      with a log of the provider calls it made; [BootLogic] is a weakest-precondition
      calculus for it, [BootPlacement] the relocation of a load plan, [BootPrepare]
      the preparation of a plan, and [BootLifecycle] the step relation [attempt] of a
      caller that makes any sequence of calls.  Whatever the sequence, control is
      transferred only after the attempt was committed, the environment quiesced and
      a safe plan prepared for it, and at most once; the stages only advance; the
      limits on time, retries and bytes are kept.  The fixture boots an ELF image by
      direct entry and a PE image by a managed launch, by evaluation.
    - [BlockStorage], [Fat32], [Fat32Volume], [Fat32Open]: [src/storage] and
      [src/filesystems/fat32.c].  A partition table is accepted exactly where it meets
      [gpt_acceptable], and its partitions are returned in order.  A volume that mounts
      has a sound geometry; opening finds the file that the directory tree names, and
      reading copies exactly the bytes of its cluster chain, without a read outside
      the volume and whatever the volume holds.  The files of a volume are specified as
      functions of the blocks of the medium.
    - [Tftp], [RecoveryNetwork], [SnpTransport]: [src/common/net] and the stack of
      [src/environments/uefi-app/recovery_network.c] over a firmware driver.  A frame
      that one end builds is parsed by the other ([udp_frame_roundtrip]).  The client's
      loop refines a specification over the datagrams it sees, [snp_receive_loop]; with
      a peer that sends a file, over a network that loses, repeats and reorders, a
      recovery that succeeds has delivered the file ([recovery_end_to_end]), and over
      one that works every object of a validated product binding is delivered
      ([recovery_completes]).  The attempts of the gate are bounded in number and in the
      time they are given, and leave no residue when they fail.

    ** Bounds and fuel

    Most loops are structural recursions over the list or the count the code
    iterates.  The others take fuel.  The update loop of SHA-256 has the length of
    the message and one more, and absorbs the whole message within it
    ([update_loop_absorbed]); the insertion and merge loops of the memory map have the
    number of regions ([insert_index_spec] and the soundness theorem).  The
    dependency order of the registry is a work list that is given one visit per
    plugin and one more: out of fuel is a value of its own, and
    [registry_validate_terminates] shows that it does not occur.  The walks along a
    FAT32 chain take the number of clusters, as the code does, and report a cycle after
    it; the specification [chain] is bounded by the same number.  The polling loops of
    the network stack take the remaining ticks and one more turn, which is enough
    ([tick_fuel_enough]).  Its loops over received frames have no bound in the code
    ([flood_never_times_out]); they take a number of turns, running out of them is a
    value of its own, and [recovery_completes] shows how many are enough.

    ** Assumptions

    SHA-256 is not assumed injective: where a theorem needs it, a collision is one of
    its cases.  The theorems about the boot transaction assume of its callbacks only
    that they return values of their C types, that the image format keeps
    [DirectFormat] and that the architecture uses the common check of a load plan, as
    the ones of the repository do; callbacks may fail, lie about the platform's state
    or stall the clock.  A torn selector is assumed to be rejected ([torn_selectors_rejected],
    [torn_rejected]), which is what the checksum and digest are for; the memory
    drivers satisfy it.  A block device may fail at any time; where it reports success
    it has delivered the block ([ExactReads]), and only where a theorem promises that
    a read succeeds is it assumed to work ([serves]).  A peer of a transfer is assumed
    not to send false blocks ([HonestNetwork]), which the guard has no means to tell;
    [scripted_honest] is a network that keeps this.

    ** Not modelled

    The curve arithmetic of the Ed25519 provider is a third-party library and a
    parameter here.  Architecture, firmware and port code drives hardware registers
    and entry points.  The Ribos policy language (front end, artifact codec and
    virtual machine) is a separate subsystem.  The firmware calls of the environments
    and the product assemblies are callers of the core.
    PROJECT.json lists every part with its status. *)

From Stdlib Require Export ZArith Lia Bool.
From stdpp Require Export base tactics numbers list.

Open Scope Z_scope.

(** ** C conditions

    Guards are translated to boolean expressions; [a !=? b] is C's [a != b]. *)

Declare Scope ribon_scope.
Delimit Scope ribon_scope with ribon.
Notation "a !=? b" := (negb (Z.eqb a b)) (at level 70, no associativity) : ribon_scope.
Notation "a >? b" := (Z.ltb b a) (at level 70, no associativity) : ribon_scope.
Notation "a >=? b" := (Z.leb b a) (at level 70, no associativity) : ribon_scope.
#[global] Open Scope ribon_scope.

(** ** Machine integers

    A [w]-bit unsigned integer is a [Z]; [wrap w] is the conversion C performs
    on assignment, and [word w] says a value is representable. *)

Definition wrap (w z : Z) : Z := z mod 2 ^ w.
Definition word (w z : Z) : Prop := 0 <= z < 2 ^ w.

Abbreviation u8 := (wrap 8).
Abbreviation u16 := (wrap 16).
Abbreviation u32 := (wrap 32).
Abbreviation u64 := (wrap 64).

Definition UINT16_MAX : Z := 65535.
Definition UINT32_MAX : Z := 4294967295.
Definition UINT64_MAX : Z := 18446744073709551615.

Lemma wrap_word w z : 0 <= w -> word w (wrap w z).
Proof. intros. apply Z.mod_pos_bound. lia. Qed.

Lemma wrap_small w z : word w z -> wrap w z = z.
Proof. apply Z.mod_small. Qed.

(** [word] at the four widths, in the form [lia] consumes. *)
Lemma word8 z : word 8 z <-> 0 <= z < 256.
Proof. reflexivity. Qed.
Lemma word16 z : word 16 z <-> 0 <= z <= UINT16_MAX.
Proof. unfold word, UINT16_MAX. change (2 ^ 16) with 65536. lia. Qed.
Lemma word32 z : word 32 z <-> 0 <= z <= UINT32_MAX.
Proof. unfold word, UINT32_MAX. change (2 ^ 32) with 4294967296. lia. Qed.
Lemma word64 z : word 64 z <-> 0 <= z <= UINT64_MAX.
Proof. unfold word, UINT64_MAX. change (2 ^ 64) with 18446744073709551616. lia. Qed.

(** ** Bit operations *)

Lemma lor_shiftl_add a b k :
  0 <= k -> 0 <= a < 2 ^ k -> Z.lor a (Z.shiftl b k) = a + b * 2 ^ k.
Proof.
  intros Hk Ha.
  assert (Hl : Z.land a (Z.shiftl b k) = 0).
  { apply Z.bits_inj'. intros i Hi.
    rewrite Z.land_spec, Z.shiftl_spec, Z.bits_0 by lia.
    destruct (Z.ltb_spec i k).
    - rewrite (Z.testbit_neg_r b) by lia. apply andb_false_r.
    - rewrite <- (Z.mod_small a (2 ^ k)) by lia.
      rewrite Z.mod_pow2_bits_high by lia. reflexivity. }
  rewrite <- Z.lxor_lor, <- Z.add_nocarry_lxor, Z.shiftl_mul_pow2 by easy. reflexivity.
Qed.

Lemma lor_word w a b : 0 <= w -> word w a -> word w b -> word w (Z.lor a b).
Proof.
  unfold word. intros Hw Ha Hb. split; [apply Z.lor_nonneg; lia|].
  destruct (Z.eq_dec (Z.lor a b) 0) as [->|Hne]; [apply Z.pow_pos_nonneg; lia|].
  apply Z.log2_lt_pow2; [assert (0 <= Z.lor a b) by (apply Z.lor_nonneg; lia); lia|].
  rewrite Z.log2_lor by lia.
  assert (Hlog : forall x, 0 <= x < 2 ^ w -> x <> 0 -> Z.log2 x < w)
    by (intros; apply Z.log2_lt_pow2; lia).
  destruct (Z.eq_dec a 0) as [->|], (Z.eq_dec b 0) as [->|]; [easy| | |];
    try (change (Z.log2 0) with 0); try (rewrite Z.max_r by apply Z.log2_nonneg);
    try (rewrite Z.max_l by apply Z.log2_nonneg); auto.
  apply Z.max_lub_lt; auto.
Qed.

Lemma lxor_word w a b : 0 <= w -> word w a -> word w b -> word w (Z.lxor a b).
Proof.
  unfold word. intros Hw Ha Hb.
  assert (0 <= Z.lxor a b) by (apply Z.lxor_nonneg; lia).
  split; [lia|].
  destruct (Z.eq_dec (Z.lxor a b) 0) as [->|Hne]; [apply Z.pow_pos_nonneg; lia|].
  rewrite <- (Z.mod_small a (2 ^ w)), <- (Z.mod_small b (2 ^ w)) by lia.
  apply Z.log2_lt_pow2; rewrite ?(Z.mod_small _ (2 ^ w)) by lia; [lia|].
  destruct (Z.ltb_spec (Z.log2 (Z.lxor a b)) w) as [|Hge]; [easy|].
  pose proof (Z.bit_log2 (Z.lxor a b) ltac:(lia)) as Hbit.
  rewrite <- (Z.mod_small a (2 ^ w)), <- (Z.mod_small b (2 ^ w)) in Hbit at 1 by lia.
  rewrite Z.lxor_spec, !Z.mod_pow2_bits_high in Hbit by lia. discriminate.
Qed.

Lemma lor_eq_0 a b : Z.lor a b = 0 <-> a = 0 /\ b = 0.
Proof. split; [apply Z.lor_eq_0_iff|intros [-> ->]; reflexivity]. Qed.

(** A non-zero power of two, the test every alignment check uses. *)
Lemma land_pred_pow2 v k : 0 <= k -> Z.land v (2 ^ k - 1) = v mod 2 ^ k.
Proof. intros. rewrite <- Z.land_ones, Z.ones_equiv by lia. f_equal. Qed.

(** ** Pointers *)

(** A pointer that is NULL. *)
Definition is_null {A} (p : option A) : bool := match p with None => true | Some _ => false end.

(** ** Booleans *)

(** Split a conjunction of C guards into its conjuncts. *)
Ltac bool_to_prop :=
  repeat match goal with
  | H : (_ && _)%bool = true |- _ => apply andb_true_iff in H; destruct H
  | H : (_ || _)%bool = false |- _ => apply orb_false_iff in H; destruct H
  | H : negb _ = true |- _ => apply negb_true_iff in H
  | H : negb _ = false |- _ => apply negb_false_iff in H
  | H : Is_true _ |- _ => apply Is_true_eq_true in H
  | H : (_ =? _) = true |- _ => apply Z.eqb_eq in H
  | H : (_ =? _) = false |- _ => apply Z.eqb_neq in H
  | H : (_ <? _) = true |- _ => apply Z.ltb_lt in H
  | H : (_ <? _) = false |- _ => apply Z.ltb_ge in H
  | H : (_ <=? _) = true |- _ => apply Z.leb_le in H
  | H : (_ <=? _) = false |- _ => apply Z.leb_gt in H
  end.

(** Evaluate the sums and products of literals in the goal. *)
Ltac literals :=
  repeat match goal with
  | |- context [Zpos ?a + Zpos ?b] =>
    let c := eval vm_compute in (Zpos a + Zpos b) in change (Zpos a + Zpos b) with c
  | |- context [Zpos ?a * Zpos ?b] =>
    let c := eval vm_compute in (Zpos a * Zpos b) in change (Zpos a * Zpos b) with c
  end.

(** Evaluate the comparisons of the goal that linear arithmetic decides. *)
Ltac compare :=
  repeat match goal with
  | |- context [?a =? ?b] =>
    first [rewrite (proj2 (Z.eqb_eq a b)) by lia | rewrite (proj2 (Z.eqb_neq a b)) by lia]
  | |- context [?a <? ?b] =>
    first [rewrite (proj2 (Z.ltb_lt a b)) by lia | rewrite (proj2 (Z.ltb_ge a b)) by lia]
  | |- context [?a <=? ?b] =>
    first [rewrite (proj2 (Z.leb_le a b)) by lia | rewrite (proj2 (Z.leb_gt a b)) by lia]
  end; cbn [negb orb andb].

Lemma existsb_false {A} (f : A -> bool) l : existsb f l = false <-> forall x, x ∈ l -> f x = false.
Proof.
  induction l as [|y l IH]; simpl.
  - split; [|done]. intros _ x Hx. by apply not_elem_of_nil in Hx.
  - rewrite orb_false_iff, IH. split.
    + intros [Hy Hl] x Hx. apply elem_of_cons in Hx as [->|Hx]; auto.
    + intros H. split; [apply H; left|]. intros x Hx. apply H. by right.
Qed.

Lemma forallb_in {A} (f : A -> bool) l : forallb f l = true <-> forall x, x ∈ l -> f x = true.
Proof.
  rewrite forallb_forall. split; intros H x Hx; apply H; by apply list_elem_of_In.
Qed.

(** ** Loops that may return early

    [for (x in l) { ... return e; ... }] with the loop's variables as [a]. *)

Fixpoint foldE {E A B} (f : A -> B -> E + A) (l : list B) (a : A) : E + A :=
  match l with
  | [] => inr a
  | x :: l' => match f a x with inl e => inl e | inr a' => foldE f l' a' end
  end.

(** An invariant, indexed by the elements done, of a loop that finishes. *)
Lemma foldE_inv {E A B} (f : A -> B -> E + A) (P : list B -> A -> Prop) l a a' :
  foldE f l a = inr a' -> P [] a ->
  (forall done x rest b b', l = done ++ x :: rest -> P done b -> f b x = inr b' -> P (done ++ [x]) b') ->
  P l a'.
Proof.
  intros H0 H1 H2. cut (forall done rest b, l = done ++ rest -> P done b -> foldE f rest b = inr a' -> P l a').
  { intros H. by apply (H [] l a). }
  intros done rest. revert done. induction rest as [|x rest IH]; intros done b Hl HP H; simpl in H.
  - injection H as <-. by rewrite Hl, app_nil_r.
  - destruct (f b x) as [e|b'] eqn:Hf; [done|].
    apply (IH (done ++ [x]) b'); [by rewrite <- app_assoc|by eapply H2|done].
Qed.

(** Where a loop that returns early did so. *)
Lemma foldE_inl {E A B} (f : A -> B -> E + A) l a e :
  foldE f l a = inl e -> exists done x rest b, l = done ++ x :: rest /\ foldE f done a = inr b /\ f b x = inl e.
Proof.
  revert a. induction l as [|x l IH]; intros a H; simpl in H; [done|].
  destruct (f a x) as [e'|b] eqn:Hf.
  - injection H as ->. exists [], x, l, a. by rewrite Hf.
  - apply IH in H as (done & y & rest & c & -> & Hd & Hy). exists (x :: done), y, rest, c.
    simpl. by rewrite Hf.
Qed.

Lemma foldE_ext {E A B} (f g : A -> B -> E + A) l a :
  (forall x b, x ∈ l -> f b x = g b x) -> foldE f l a = foldE g l a.
Proof.
  revert a. induction l as [|x l IH]; intros a H; simpl; [done|].
  rewrite H by left. destruct (g a x); [done|]. apply IH. intros y b Hy. apply H. by right.
Qed.

Lemma foldE_fmap {E A B C} (f : A -> B -> E + A) (g : C -> B) l a :
  foldE f (g <$> l) a = foldE (fun b x => f b (g x)) l a.
Proof. revert a. induction l as [|x l IH]; intros a; simpl; [done|]. destruct (f a (g x)); [done|apply IH]. Qed.

(** The loops over an array index. *)
Abbreviation upto n := (seqZ 0 n).

(** A table whose neighbours are in order is in order. *)
Lemma adjacent_trans (R : Z -> Z -> Prop) n :
  (forall i j k, R i j -> R j k -> R i k) -> (forall i, 0 < i < n -> R (i - 1) i) ->
  forall i j, 0 <= i -> i < j -> j < n -> R i j.
Proof.
  intros Ht Hf i j Hi Hij Hj. replace j with (i + 1 + (j - i - 1)) in * by lia.
  assert (Hd : 0 <= j - i - 1) by lia. clear Hij. revert Hd Hj.
  generalize (j - i - 1) as d. clear j. intros d Hd. pattern d. apply natlike_ind; [..|done].
  - intros Hj. rewrite Z.add_0_r in *. specialize (Hf (i + 1) ltac:(lia)).
    by replace (i + 1 - 1) with i in Hf by lia.
  - intros k Hk IH Hj. specialize (Hf (i + 1 + Z.succ k) ltac:(lia)).
    replace (i + 1 + Z.succ k - 1) with (i + 1 + k) in Hf by lia.
    apply (Ht _ (i + 1 + k)); [|done]. apply IH. lia.
Qed.

Create HintDb ribon discriminated.

Lemma land_bit x c : 0 <= c -> (Z.land x (Z.shiftl 1 c) =? 0) = negb (Z.testbit x c).
Proof.
  intros Hc. rewrite Z.shiftl_1_l. destruct (Z.testbit x c) eqn:Hb; simpl.
  - apply Z.eqb_neq. intros H. apply (f_equal (fun z => Z.testbit z c)) in H.
    rewrite Z.land_spec, Hb, Z.pow2_bits_true, Z.bits_0 in H; done.
  - apply Z.eqb_eq, Z.bits_inj'. intros i Hi. rewrite Z.land_spec, Z.bits_0.
    destruct (decide (i = c)) as [->|]; [by rewrite Hb|].
    rewrite Z.pow2_bits_false, andb_false_r; done.
Qed.

(** ** Pairwise properties of tables

    Tables are checked entry by entry against the entries before: the result is a
    property of every pair. *)

(** Every entry is related to those after it. *)
Fixpoint pairwise {A} (R : A -> A -> Prop) (l : list A) : Prop :=
  match l with
  | [] => True
  | x :: l' => Forall (R x) l' /\ pairwise R l'
  end.

Lemma pairwise_snoc {A} (R : A -> A -> Prop) l x :
  pairwise R (l ++ [x]) <-> pairwise R l /\ Forall (fun y => R y x) l.
Proof.
  induction l as [|y l IH]; simpl; [by rewrite Forall_nil|].
  rewrite IH, Forall_app, Forall_singleton, Forall_cons. tauto.
Qed.

Lemma pairwise_app_l {A} (R : A -> A -> Prop) l k : pairwise R (l ++ k) -> pairwise R l.
Proof. induction l as [|x l IH]; simpl; [done|]. rewrite Forall_app. tauto. Qed.

Lemma pairwise_lookup {A} (R : A -> A -> Prop) l i j x y :
  pairwise R l -> (i < j)%nat -> l !! i = Some x -> l !! j = Some y -> R x y.
Proof.
  revert i j. induction l as [|z l IH]; intros i j; [done|]. intros [Hz Hl] Hij.
  destruct i as [|i], j as [|j]; try lia; simpl.
  - intros [= ->] Hy. eapply Forall_lookup_1; eauto.
  - apply IH; [done|lia].
Qed.

(** For a symmetric relation the order does not matter. *)
Lemma pairwise_all {A} (R : A -> A -> Prop) `{!Symmetric R} l :
  pairwise R l <-> forall i j x y, l !! i = Some x -> l !! j = Some y -> i <> j -> R x y.
Proof.
  split.
  - intros H i j x y Hi Hj Hne. destruct (Nat.lt_trichotomy i j) as [?|[?|?]]; [|done|].
    + by apply (pairwise_lookup R l i j).
    + symmetry. by apply (pairwise_lookup R l j i).
  - induction l as [|z l IH]; simpl; [done|]. intros H. split.
    + apply Forall_lookup. intros i y Hi. by apply (H 0%nat (S i) z y).
    + apply IH. intros i j x y Hi Hj Hne. apply (H (S i) (S j) x y); auto.
Qed.

Lemma pairwise_fmap {A B} (R : B -> B -> Prop) (f : A -> B) l :
  pairwise R (f <$> l) <-> pairwise (fun x y => R (f x) (f y)) l.
Proof. induction l as [|x l IH]; simpl; [done|]. by rewrite IH, Forall_fmap. Qed.

Lemma pairwise_impl {A} (R S : A -> A -> Prop) l :
  (forall x y, R x y -> S x y) -> pairwise R l -> pairwise S l.
Proof.
  intros H. induction l as [|x l IH]; simpl; [done|]. intros [Hx Hl]. split; [|auto].
  eapply Forall_impl; [exact Hx|]. auto.
Qed.

(** An array filled from the front. *)
Lemma take_insert_snoc {A} (l : list A) n x done :
  (n < length l)%nat -> take n l = done -> take (S n) (<[n := x]> l) = done ++ [x].
Proof.
  intros Hn <-. rewrite (take_S_r _ _ x) by (by apply list_lookup_insert_eq). by rewrite take_insert_ge.
Qed.

(** ** Loops over an index *)

Lemma foldE_app {E A B} (f : A -> B -> E + A) l k a :
  foldE f (l ++ k) a = match foldE f l a with inl e => inl e | inr b => foldE f k b end.
Proof. revert a. induction l as [|x l IH]; intros a; simpl; [done|]. destruct (f a x); [done|apply IH]. Qed.

Lemma upto_snoc (n : nat) : upto (Z.of_nat (S n)) = upto (Z.of_nat n) ++ [Z.of_nat n].
Proof.
  replace (Z.of_nat (S n)) with (Z.of_nat n + 1) by lia. rewrite seqZ_app by lia. f_equal.
Qed.

(** A loop that checks every entry against the entries before. *)
Lemma foldE_upto_iff {E T A} (f : T -> Z -> E + T) (l : list A) (s0 : T)
    (P : list A -> Prop) (state : list A -> T) :
  P [] -> state [] = s0 ->
  (forall n x, l !! n = Some x -> P (take n l) -> forall s',
     f (state (take n l)) (Z.of_nat n) = inr s' <-> P (take n l ++ [x]) /\ s' = state (take n l ++ [x])) ->
  (forall n x, l !! n = Some x -> P (take n l ++ [x]) -> P (take n l)) ->
  forall s', foldE f (upto (Z.of_nat (length l))) s0 = inr s' <-> P l /\ s' = state l.
Proof.
  intros H0 Hs Hstep Hpre.
  assert (H : forall n, (n <= length l)%nat -> forall s',
    foldE f (upto (Z.of_nat n)) s0 = inr s' <-> P (take n l) /\ s' = state (take n l)).
  { induction n as [|n IH]; intros Hn s'.
    - rewrite take_0, <- Hs. cbn. split; [by intros [= <-]|by intros [_ ->]].
    - destruct (lookup_lt_is_Some_2 l n ltac:(lia)) as [x Hx]. rewrite upto_snoc, foldE_app, (take_S_r _ _ _ Hx).
      specialize (IH ltac:(lia)). destruct (foldE f (upto (Z.of_nat n)) s0) as [e|s1].
      + split; [done|]. intros [HP _]. apply (Hpre _ _ Hx) in HP.
        pose proof (proj2 (IH (state (take n l))) (conj HP eq_refl)). done.
      + destruct (proj1 (IH s1) eq_refl) as [HP ->]. cbn [foldE]. rewrite <- (Hstep n x Hx HP).
        by destruct (f _ _). }
  intros s'. rewrite (H (length l) ltac:(lia)), firstn_all. done.
Qed.

(** The entries before index [n], as the inner loop of such a check reads them. *)
Lemma existsb_upto {A} (f : A -> bool) (d : A) l n :
  (n <= length l)%nat ->
  existsb (fun i => f (nth (Z.to_nat i) l d)) (upto (Z.of_nat n)) = false <-> Forall (fun x => f x = false) (take n l).
Proof.
  intros Hn. rewrite existsb_false, Forall_lookup. split.
  - intros H i x Hx. apply lookup_take_Some in Hx as [Hx Hi].
    specialize (H (Z.of_nat i)). rewrite Nat2Z.id, (nth_lookup_Some _ _ _ _ Hx) in H. apply H, elem_of_seqZ. lia.
  - intros H i Hi. apply elem_of_seqZ in Hi. destruct (lookup_lt_is_Some_2 l (Z.to_nat i) ltac:(lia)) as [x Hx].
    rewrite (nth_lookup_Some _ _ _ _ Hx). apply (H (Z.to_nat i)), lookup_take_Some. split; [done|lia].
Qed.

Lemma existsb_ext {A} (f g : A -> bool) l : (forall x, x ∈ l -> f x = g x) -> existsb f l = existsb g l.
Proof.
  induction l as [|x l IH]; intros H; simpl; [done|]. rewrite H by left. f_equal. apply IH. intros y Hy. apply H. by right.
Qed.

Lemma upto_split n l x r : upto n = l ++ x :: r -> x = Z.of_nat (length l) /\ (length l < Z.to_nat n)%nat.
Proof.
  intros E. pose proof (f_equal (fun k => k !! length l) E) as Hx. pose proof (f_equal length E) as Hl.
  rewrite list_lookup_middle in Hx by done. apply lookup_seqZ in Hx as [-> ?]. lia.
Qed.
