(* ===== verification/Effects.v ===== *)
(** * Effects

    The operations that reach storage run in a monad of their own: they pass the
    world on and leave with a status, or with a result.  [triple] is a program
    logic for it. *)

From S2P Require Import Prelude.

Definition M (S E A : Type) : Type := S -> S * (E + A).

#[global] Instance M_ret {S E} : MRet (M S E) := fun A a s => (s, inr a).
#[global] Instance M_bind {S E} : MBind (M S E) := fun A B f m s =>
  match m s with
  | (s', inl status) => (s', inl status)
  | (s', inr a) => f a s'
  end.

(** [return status;] with a status that is not OK *)
Definition leave {S E A} (status : E) : M S E A := fun s => (s, inl status).

(** [if (condition) { return status; }] *)
Definition leave_if {S E} (condition : bool) (status : E) : M S E unit :=
  if condition then leave status else mret tt.

(** A result computed without the world. *)
Definition lift {S E A} (r : E + A) : M S E A := fun s => (s, r).

(** From a world in [P] the operation ends in [Q] with its result, or in [F] with
    its status. *)
Definition triple {S E A} (P : S -> Prop) (m : M S E A) (Q : A -> S -> Prop) (F : E -> S -> Prop) : Prop :=
  forall s, P s -> match m s with (s', inr a) => Q a s' | (s', inl status) => F status s' end.

Lemma triple_bind {S E A B} P (m : M S E A) (f : A -> M S E B) Q R F :
  triple P m Q F -> (forall a, triple (Q a) (f a) R F) -> triple P (m ≫= f) R F.
Proof.
  intros Hm Hf s HP. specialize (Hm s HP). unfold mbind, M_bind.
  destruct (m s) as [s1 [st|a]]; [done|]. apply (Hf a s1 Hm).
Qed.

Lemma triple_ret {S E A} P (a : A) Q (F : E -> S -> Prop) :
  (forall s, P s -> Q a s) -> triple P (mret a) Q F.
Proof. intros H s HP. by apply H. Qed.

Lemma triple_lift {S E A} P (r : E + A) Q (F : E -> S -> Prop) :
  (forall s, P s -> match r with inr a => Q a s | inl st => F st s end) -> triple P (lift r) Q F.
Proof. intros H s HP. apply (H s HP). Qed.

Lemma triple_leave_if {S E} (P Q : S -> Prop) (c : bool) (st : E) F :
  (forall s, P s -> c = false -> Q s) -> (forall s, P s -> c = true -> F st s) ->
  triple P (leave_if c st) (fun _ => Q) F.
Proof. intros HQ HE s HP. destruct c; cbn; auto. Qed.

Lemma triple_pure {S E A} (R : Prop) (P : S -> Prop) (m : M S E A) Q F :
  (R -> triple P m Q F) -> triple (fun s => R /\ P s) m Q F.
Proof. intros H s [HR HP]. by apply (H HR s). Qed.

Lemma triple_pre {S E A} (P P' : S -> Prop) (m : M S E A) Q F :
  (forall s, P' s -> P s) -> triple P m Q F -> triple P' m Q F.
Proof. intros H Hm s HP. by apply Hm, H. Qed.

Lemma triple_exists {S E A X} (P : X -> S -> Prop) (m : M S E A) Q F :
  (forall x, triple (P x) m Q F) -> triple (fun s => exists x, P x s) m Q F.
Proof. intros H s [x HP]. by apply (H x s). Qed.

(** From a world in [P] the operation succeeds, in [Q] with its result. *)
Definition succeeds {S E A} (P : S -> Prop) (m : M S E A) (Q : A -> S -> Prop) : Prop :=
  forall s, P s -> exists s' a, m s = (s', inr a) /\ Q a s'.

Lemma succeeds_bind {S E A B} P (m : M S E A) (f : A -> M S E B) Q R :
  succeeds P m Q -> (forall a, succeeds (Q a) (f a) R) -> succeeds P (m ≫= f) R.
Proof.
  intros Hm Hf s HP. destruct (Hm s HP) as (s1 & a & E1 & HQ). destruct (Hf a s1 HQ) as (s2 & b & E2 & HR).
  exists s2, b. split; [|done]. unfold mbind, M_bind. by rewrite E1.
Qed.

Lemma succeeds_ret {S E A} P (a : A) (Q : A -> S -> Prop) :
  (forall s, P s -> Q a s) -> succeeds (E:=E) P (mret a) Q.
Proof. intros H s HP. exists s, a. split; [done|by apply H]. Qed.

Lemma succeeds_passes {S E} (P : S -> Prop) (c : bool) (st : E) :
  c = false -> succeeds P (leave_if c st) (fun _ => P).
Proof. intros -> s HP. by exists s, tt. Qed.

Lemma succeeds_exists {S E A X} (P : X -> S -> Prop) (m : M S E A) Q :
  (forall x, succeeds (P x) m Q) -> succeeds (fun s => exists x, P x s) m Q.
Proof. intros H s [x HP]. by apply (H x s). Qed.

Lemma succeeds_pure {S E A} (R : Prop) (P : S -> Prop) (m : M S E A) Q :
  (R -> succeeds P m Q) -> succeeds (fun s => R /\ P s) m Q.
Proof. intros H s [HR HP]. by apply (H HR s). Qed.

(** An operation whose result is known. *)
Lemma succeeds_value {S E A B} P v (m : M S E A) (f : A -> M S E B) Q R :
  succeeds P m (fun a s => a = v /\ Q s) -> succeeds Q (f v) R -> succeeds P (m ≫= f) R.
Proof. intros Hm Hf. eapply succeeds_bind; [exact Hm|]. intros a. apply succeeds_pure. by intros ->. Qed.
