(* ===== verification/Buffer.v ===== *)
(** * Byte buffers

    A C byte array is a [list Z] whose elements are octets; offsets and sizes
    are [Z], as the code's [size_t] and [uint64_t] are.  [store] is [memcpy]
    into an array (it never changes the array's length), [slice] is the
    sub-array at an offset.  The lemmas let a load at one offset ignore the
    stores at the others, which is all the codecs of the wire formats need. *)

From S2P Require Import Prelude.

Abbreviation bytes := (list Z).

Definition len {A} (b : list A) : Z := Z.of_nat (length b).

(** Every element is an octet. *)
Definition octets (b : bytes) : Prop := Forall (word 8) b.

Definition zeros (n : Z) : bytes := replicate (Z.to_nat n) 0.

(** [b[i]]; the callers' guards keep [i] in range. *)
Definition byte_at (b : bytes) (i : Z) : Z := nth (Z.to_nat i) b 0.

(** The [n] bytes at [b + off]. *)
Definition slice (off n : Z) (b : bytes) : bytes :=
  take (Z.to_nat n) (drop (Z.to_nat off) b).

(** [memcpy(b + off, src, len src)]. *)
Definition store (b : bytes) (off : Z) (src : bytes) : bytes :=
  list_inserts (Z.to_nat off) src b.

(** A pointer that is not NULL points to as many bytes as its size says. *)
Definition pointed (p : option bytes) (size : Z) : Prop := forall b, p = Some b -> len b = size.

(** ** Lengths *)

Create Rewrite HintDb len.

Lemma len_nonneg {A} (b : list A) : 0 <= len b.
Proof. unfold len. lia. Qed.

Lemma len_nil {A} : len (@nil A) = 0.
Proof. reflexivity. Qed.

Lemma len_cons {A} (x : A) b : len (x :: b) = 1 + len b.
Proof. unfold len. simpl length. lia. Qed.

Lemma len_app {A} (a b : list A) : len (a ++ b) = len a + len b.
Proof. unfold len. rewrite length_app. lia. Qed.

Lemma len_store b off src : len (store b off src) = len b.
Proof. unfold len, store. by rewrite length_inserts. Qed.

Lemma len_zeros n : 0 <= n -> len (zeros n) = n.
Proof. unfold len, zeros. rewrite length_replicate. lia. Qed.

Lemma len_slice off n b :
  0 <= off -> 0 <= n -> off + n <= len b -> len (slice off n b) = n.
Proof. unfold len, slice. rewrite length_take, length_drop. lia. Qed.

#[export] Hint Rewrite @len_nil @len_cons @len_app len_store : len.
#[export] Hint Rewrite len_zeros len_slice using lia : len.

(** Length side conditions: normalise every [len], then linear arithmetic. *)
Ltac len_lia := autorewrite with len in *; lia.

(** ** Slices of stores *)

Lemma lookup_slice off n b (i : nat) :
  (i < Z.to_nat n)%nat -> slice off n b !! i = b !! (Z.to_nat off + i)%nat.
Proof. intros. unfold slice. rewrite lookup_take_lt by lia. apply lookup_drop. Qed.

Lemma slice_ext off n b off' b' :
  0 <= off -> 0 <= n -> off + n <= len b -> 0 <= off' -> off' + n <= len b' ->
  (forall i : nat, (i < Z.to_nat n)%nat ->
     b !! (Z.to_nat off + i)%nat = b' !! (Z.to_nat off' + i)%nat) ->
  slice off n b = slice off' n b'.
Proof.
  intros ????? H. apply list_eq. intros i.
  destruct (decide (i < Z.to_nat n)%nat).
  - rewrite !lookup_slice by lia. auto.
  - rewrite !lookup_ge_None_2; [done|..];
      unfold slice; rewrite length_take, length_drop; unfold len in *; lia.
Qed.

Lemma slice_store_same b off src n :
  0 <= off -> len src = n -> off + n <= len b -> slice off n (store b off src) = src.
Proof.
  intros Ho Hn Hb. apply list_eq. intros i. unfold len in *.
  destruct (decide (i < Z.to_nat n)%nat).
  - rewrite lookup_slice by lia. unfold store.
    rewrite list_lookup_inserts by lia. f_equal. lia.
  - rewrite !lookup_ge_None_2; [done|lia|].
    unfold slice, store. rewrite length_take, length_drop, length_inserts. lia.
Qed.

Lemma slice_store_before b off src o n :
  0 <= o -> 0 <= n -> 0 <= off -> o + n <= off -> o + n <= len b ->
  slice o n (store b off src) = slice o n b.
Proof.
  intros. apply slice_ext; try rewrite len_store; try lia.
  intros i Hi. unfold store. rewrite list_lookup_inserts_lt; [done|lia].
Qed.

Lemma slice_store_after b off src o n :
  0 <= o -> 0 <= n -> 0 <= off -> off + len src <= o -> o + n <= len b ->
  slice o n (store b off src) = slice o n b.
Proof.
  intros. apply slice_ext; try rewrite len_store; try lia.
  intros i Hi. unfold store, len in *. rewrite list_lookup_inserts_ge; [done|lia].
Qed.

Lemma slice_zeros o n m :
  0 <= o -> 0 <= n -> o + n <= m -> slice o n (zeros m) = zeros n.
Proof.
  intros. unfold slice, zeros. rewrite drop_replicate, take_replicate.
  f_equal. lia.
Qed.

Lemma slice_slice o n o' n' b :
  0 <= o -> 0 <= n -> 0 <= o' -> 0 <= n' -> o' + n' <= n ->
  slice o' n' (slice o n b) = slice (o + o') n' b.
Proof.
  intros. unfold slice. apply list_eq. intros i.
  destruct (decide (i < Z.to_nat n')%nat).
  - rewrite !lookup_take_lt, !lookup_drop, !lookup_take_lt, !lookup_drop by lia.
    f_equal. lia.
  - rewrite !lookup_take_ge by lia. done.
Qed.

Lemma slice_all b n : n = len b -> slice 0 n b = b.
Proof. intros ->. unfold slice, len. rewrite Nat2Z.id. simpl. apply firstn_all. Qed.

Lemma slice_app_l o n a b :
  0 <= o -> 0 <= n -> o + n <= len a -> slice o n (a ++ b) = slice o n a.
Proof.
  intros. unfold slice, len in *.
  rewrite drop_app_le, take_app_le; [done|rewrite length_drop; lia|lia].
Qed.

Lemma slice_app_r o n a b :
  len a <= o -> slice o n (a ++ b) = slice (o - len a) n b.
Proof.
  intros. unfold slice, len in *. rewrite drop_app_ge by lia. do 2 f_equal. lia.
Qed.

Lemma slice_split o n m b :
  0 <= o -> 0 <= n -> 0 <= m -> slice o (n + m) b = slice o n b ++ slice (o + n) m b.
Proof.
  intros. unfold slice. rewrite !Z2Nat.inj_add by lia. rewrite <- drop_drop.
  symmetry. rewrite take_take_drop. done.
Qed.

(** [off + len src <= o \/ o + n <= off]: a load at one place ignores a store
    at another.  [buf] simplifies loads from a chain of stores. *)
Ltac buf_step :=
  first
    [ rewrite slice_store_same by len_lia
    | rewrite slice_store_before by len_lia
    | rewrite slice_store_after by len_lia
    | rewrite slice_zeros by lia
    | rewrite slice_slice by lia ].
Ltac buf := repeat buf_step.

(** ** Octets *)

Lemma octets_app a b : octets (a ++ b) <-> octets a /\ octets b.
Proof. apply Forall_app. Qed.

Lemma octets_zeros n : octets (zeros n).
Proof. apply Forall_replicate. rewrite word8. lia. Qed.

Lemma octets_slice off n b : octets b -> octets (slice off n b).
Proof. intros. unfold slice. by apply Forall_take, Forall_drop. Qed.

Lemma octets_store b off src : octets b -> octets src -> octets (store b off src).
Proof.
  intros Hb Hs. unfold store. revert off Hb.
  assert (H : forall (n : nat), octets b -> octets (list_inserts n src b)).
  { induction Hs as [|x src Hx Hs IH]; intros n Hb; simpl; [done|].
    apply Forall_insert; [by apply IH|done]. }
  intros; by apply H.
Qed.

Lemma byte_at_octet b i : octets b -> word 8 (byte_at b i).
Proof.
  intros H. unfold byte_at. destruct (decide (Z.to_nat i < length b)%nat).
  - eapply Forall_forall; [exact H|]. apply list_elem_of_In, nth_In. lia.
  - rewrite nth_overflow by lia. rewrite word8. lia.
Qed.

#[export] Hint Resolve octets_zeros octets_slice octets_store byte_at_octet : ribon.

(** Concrete buffers are checked by computation. *)
Definition octetsb (b : bytes) : bool := forallb (fun x => (0 <=? x) && (x <? 256)) b.

Lemma octetsb_octets b : octetsb b = true -> octets b.
Proof.
  unfold octetsb, octets. rewrite forallb_forall. intros H. apply List.Forall_forall.
  intros x Hx. specialize (H x Hx). bool_to_prop. apply word8. lia.
Qed.

Lemma default_pointed p size : pointed p size -> p <> None -> len (default [] p) = size.
Proof. intros Hp Hn. destruct p as [b|]; [|done]. by apply Hp. Qed.
