(* ===== verification/Wire.v ===== *)
(** * Wire-format helpers

    The static helpers of [src/update/storage.c] that every codec of the update
    and security layers repeats: little-endian loads and stores, the
    data-independent zero and equality tests, CRC-32C and the overflow-checked
    64-bit arithmetic.  A [(pointer, size)] argument pair is the slice it
    denotes; an out-parameter written only on success is an [option] result. *)

From S2P Require Import Prelude.
From S2P Require Import Buffer.

(** ** Little-endian words, as lists of octets *)

Fixpoint le_bytes (n : nat) (v : Z) : bytes :=
  match n with
  | O => []
  | S n' => u8 v :: le_bytes n' (Z.shiftr v 8)
  end.

Fixpoint le_value (b : bytes) : Z :=
  match b with
  | [] => 0
  | x :: b' => x + 256 * le_value b'
  end.

Lemma length_le_bytes n v : length (le_bytes n v) = n.
Proof. revert v. induction n; simpl; auto. Qed.

Lemma len_le_bytes n v : len (le_bytes n v) = Z.of_nat n.
Proof. unfold len. by rewrite length_le_bytes. Qed.

Lemma octets_le_bytes n v : octets (le_bytes n v).
Proof.
  revert v. induction n; intros; simpl; constructor; [apply wrap_word; lia|apply IHn].
Qed.

Lemma le_value_bytes n v : le_value (le_bytes n v) = v mod 2 ^ (8 * Z.of_nat n).
Proof.
  revert v. induction n as [|n IH]; intros v.
  - simpl. by rewrite Z.mod_1_r.
  - cbn [le_bytes le_value]. rewrite IH, Z.shiftr_div_pow2 by lia.
    replace (8 * Z.of_nat (S n)) with (8 + 8 * Z.of_nat n) by lia.
    rewrite Z.pow_add_r by lia. unfold wrap. change (2 ^ 8) with 256.
    assert (0 < 2 ^ (8 * Z.of_nat n)) by (apply Z.pow_pos_nonneg; lia).
    rewrite Z.rem_mul_r by lia. reflexivity.
Qed.

Lemma le_value_bound b : octets b -> 0 <= le_value b < 2 ^ (8 * len b).
Proof.
  induction 1 as [|x b Hx Hb IH]; [change (0 <= 0 < 1); lia|].
  rewrite len_cons. replace (8 * (1 + len b)) with (8 + 8 * len b) by lia.
  pose proof (len_nonneg b). rewrite Z.pow_add_r by lia. rewrite word8 in Hx.
  change (2 ^ 8) with 256. cbn [le_value]. lia.
Qed.

Lemma le_bytes_value b : octets b -> le_bytes (length b) (le_value b) = b.
Proof.
  induction 1 as [|x b Hx Hb IH]; [done|]. cbn [length le_bytes le_value].
  rewrite word8 in Hx. f_equal.
  - unfold wrap. change (2 ^ 8) with 256. rewrite Z.mul_comm, Z.mod_add by lia.
    apply Z.mod_small. lia.
  - rewrite Z.shiftr_div_pow2 by lia. change (2 ^ 8) with 256.
    rewrite Z.mul_comm, Z.div_add, Z.div_small, Z.add_0_l by lia. exact IH.
Qed.

(** ** Loads and stores, as the code writes them *)

Definition load_u16 (b : bytes) (o : Z) : Z :=
  Z.lor (byte_at b o) (u16 (Z.shiftl (byte_at b (o + 1)) 8)).

Definition load_u32 (b : bytes) (o : Z) : Z :=
  Z.lor (Z.lor (Z.lor (byte_at b o) (Z.shiftl (byte_at b (o + 1)) 8))
               (Z.shiftl (byte_at b (o + 2)) 16))
        (Z.shiftl (byte_at b (o + 3)) 24).

Definition load_u64 (b : bytes) (o : Z) : Z :=
  Z.lor (load_u32 b o) (Z.shiftl (load_u32 b (o + 4)) 32).

Definition store_u8 (b : bytes) (o v : Z) : bytes := store b o [v].

Definition store_u16 (b : bytes) (o v : Z) : bytes :=
  store_u8 (store_u8 b o (u8 v)) (o + 1) (u8 (Z.shiftr v 8)).

Definition store_u32 (b : bytes) (o v : Z) : bytes :=
  let b := store_u8 b o (u8 v) in
  let b := store_u8 b (o + 1) (u8 (Z.shiftr v 8)) in
  let b := store_u8 b (o + 2) (u8 (Z.shiftr v 16)) in
  store_u8 b (o + 3) (u8 (Z.shiftr v 24)).

Definition store_u64 (b : bytes) (o v : Z) : bytes :=
  store_u32 (store_u32 b o (u32 v)) (o + 4) (u32 (Z.shiftr v 32)).

Definition bytes_zero (b : bytes) : bool :=
  fold_left (fun value x => Z.lor value x) b 0 =? 0.

Definition bytes_equal (left right : bytes) : bool :=
  fold_left (fun difference p => Z.lor difference (Z.lxor (fst p) (snd p)))
            (zip left right) 0 =? 0.

Definition power_of_two (value : Z) : bool :=
  (value !=? 0) && (Z.land value (value - 1) =? 0).

Definition add_u64 (left right : Z) : option Z :=
  if left >? UINT64_MAX - right then None else Some (left + right).

Definition align_up_u64 (value alignment : Z) : option Z :=
  if negb (power_of_two alignment) then None
  else match add_u64 value (alignment - 1) with
       | None => None
       | Some added => Some (Z.land added (u64 (Z.lnot (alignment - 1))))
       end.

Definition crc32c_bit (crc : Z) : Z :=
  let mask := u32 (- Z.land crc 1) in
  Z.lxor (Z.shiftr crc 1) (Z.land 0x82f63b78 mask).

Definition crc32c_byte (crc x : Z) : Z := Nat.iter 8 crc32c_bit (Z.lxor crc x).

Definition crc32c (b : bytes) : Z := u32 (Z.lnot (fold_left crc32c_byte b UINT32_MAX)).

(** ** Loads and stores against the octet lists *)

Lemma byte_at_slice b o n i :
  0 <= o -> 0 <= i < n -> byte_at (slice o n b) i = byte_at b (o + i).
Proof.
  intros. unfold byte_at, slice. rewrite !nth_lookup, lookup_take_lt, lookup_drop by lia.
  do 2 f_equal. lia.
Qed.

Lemma slice4 b o :
  0 <= o -> o + 4 <= len b ->
  slice o 4 b = [byte_at b o; byte_at b (o + 1); byte_at b (o + 2); byte_at b (o + 3)].
Proof.
  intros Ho Hb. pose proof (len_slice o 4 b Ho ltac:(lia) Hb) as Hl.
  pose proof (byte_at_slice b o 4) as Hat.
  destruct (slice o 4 b) as [|a [|c [|d [|e [|f s]]]]]; try (autorewrite with len in Hl; lia);
    [|pose proof (len_nonneg s); autorewrite with len in Hl; lia].
  rewrite <- (Hat 1), <- (Hat 2), <- (Hat 3), <- (Z.add_0_r o), <- (Hat 0) by lia. done.
Qed.

Lemma slice2 b o :
  0 <= o -> o + 2 <= len b -> slice o 2 b = [byte_at b o; byte_at b (o + 1)].
Proof.
  intros Ho Hb. pose proof (len_slice o 2 b Ho ltac:(lia) Hb) as Hl.
  pose proof (byte_at_slice b o 2) as Hat.
  destruct (slice o 2 b) as [|a [|c [|d s]]]; try (autorewrite with len in Hl; lia);
    [|pose proof (len_nonneg s); autorewrite with len in Hl; lia].
  rewrite <- (Hat 1), <- (Z.add_0_r o), <- (Hat 0) by lia. done.
Qed.

Lemma load_u16_le b o :
  octets b -> 0 <= o -> o + 2 <= len b -> load_u16 b o = le_value (slice o 2 b).
Proof.
  intros Hb Ho Hl. rewrite slice2 by lia. unfold load_u16. cbn [le_value].
  pose proof (byte_at_octet b o Hb) as H0. pose proof (byte_at_octet b (o + 1) Hb) as H1.
  rewrite word8 in *. rewrite wrap_small by (unfold word; rewrite Z.shiftl_mul_pow2; lia).
  rewrite lor_shiftl_add by lia. lia.
Qed.

Lemma load_u32_le b o :
  octets b -> 0 <= o -> o + 4 <= len b -> load_u32 b o = le_value (slice o 4 b).
Proof.
  intros Hb Ho Hl. rewrite slice4 by lia. unfold load_u32. cbn [le_value].
  pose proof (byte_at_octet b o Hb) as H0. pose proof (byte_at_octet b (o + 1) Hb) as H1.
  pose proof (byte_at_octet b (o + 2) Hb) as H2. pose proof (byte_at_octet b (o + 3) Hb) as H3.
  rewrite word8 in *. rewrite (lor_shiftl_add (byte_at b o) _ 8) by lia.
  rewrite (lor_shiftl_add (_ + _) _ 16) by lia.
  rewrite (lor_shiftl_add (_ + _) _ 24) by lia. lia.
Qed.

Lemma le_value_app a b : le_value (a ++ b) = le_value a + 2 ^ (8 * len a) * le_value b.
Proof.
  induction a as [|x a IH]; [change (len (@nil Z)) with 0; simpl; lia|].
  simpl app. cbn [le_value]. rewrite IH, len_cons.
  replace (8 * (1 + len a)) with (8 + 8 * len a) by lia.
  pose proof (len_nonneg a). rewrite Z.pow_add_r by lia. lia.
Qed.

Lemma load_u64_le b o :
  octets b -> 0 <= o -> o + 8 <= len b -> load_u64 b o = le_value (slice o 8 b).
Proof.
  intros Hb Ho Hl. unfold load_u64. rewrite !load_u32_le by (try lia; done).
  rewrite (slice_split o 4 4) by lia. rewrite le_value_app.
  pose proof (le_value_bound (slice o 4 b) (octets_slice _ _ _ Hb)) as Hv.
  rewrite len_slice in * by lia. rewrite lor_shiftl_add by lia. lia.
Qed.

Lemma load_u16_word b o : octets b -> 0 <= o -> o + 2 <= len b -> word 16 (load_u16 b o).
Proof.
  intros Hb Ho Hl. rewrite load_u16_le by done.
  pose proof (le_value_bound (slice o 2 b) ltac:(auto with ribon)) as H. by rewrite len_slice in H by lia.
Qed.

Lemma load_u32_word b o : octets b -> 0 <= o -> o + 4 <= len b -> word 32 (load_u32 b o).
Proof.
  intros Hb Ho Hl. rewrite load_u32_le by done.
  pose proof (le_value_bound _ (octets_slice o 4 _ Hb)) as H. by rewrite len_slice in H by lia.
Qed.

Lemma load_u64_word b o : octets b -> 0 <= o -> o + 8 <= len b -> word 64 (load_u64 b o).
Proof.
  intros Hb Ho Hl. rewrite load_u64_le by done.
  pose proof (le_value_bound _ (octets_slice o 8 _ Hb)) as H. by rewrite len_slice in H by lia.
Qed.

Lemma store_app b o s t :
  0 <= o -> store (store b o s) (o + len s) t = store b o (s ++ t).
Proof.
  intros. unfold store, len. rewrite list_inserts_app_l. f_equal. lia.
Qed.

Lemma store_u8_cons b o x src :
  0 <= o -> store (store_u8 b o x) (o + 1) src = store b o (x :: src).
Proof. intros. apply (store_app b o [x] src). lia. Qed.

Lemma store_u16_le b o v : 0 <= o -> store_u16 b o v = store b o (le_bytes 2 v).
Proof. intros. unfold store_u16, store_u8 at 1. by rewrite store_u8_cons. Qed.

Lemma store_u32_le b o v : 0 <= o -> store_u32 b o v = store b o (le_bytes 4 v).
Proof.
  intros. unfold store_u32, store_u8 at 1.
  replace (o + 3) with (o + 2 + 1) by lia. rewrite store_u8_cons by lia.
  replace (o + 2) with (o + 1 + 1) by lia. rewrite store_u8_cons by lia.
  rewrite store_u8_cons by lia. cbn [le_bytes]. by rewrite !Z.shiftr_shiftr by lia.
Qed.

Lemma le_bytes_wrap n v w : 8 * Z.of_nat n <= w -> le_bytes n (wrap w v) = le_bytes n v.
Proof.
  revert v w. induction n as [|n IH]; intros v w Hw; [done|]. cbn [le_bytes]. f_equal.
  - unfold wrap. apply Z.bits_inj'. intros i Hi.
    destruct (Z.ltb_spec i 8).
    + rewrite !Z.mod_pow2_bits_low by lia. done.
    + rewrite !Z.mod_pow2_bits_high by lia. done.
  - rewrite <- (IH (Z.shiftr v 8) (w - 8)) by lia. f_equal. unfold wrap.
    apply Z.bits_inj'. intros i Hi. rewrite Z.shiftr_spec by lia.
    destruct (Z.ltb_spec i (w - 8)).
    + rewrite !Z.mod_pow2_bits_low, Z.shiftr_spec by lia. done.
    + rewrite !Z.mod_pow2_bits_high by lia. done.
Qed.

Lemma store_u64_le b o v : 0 <= o -> store_u64 b o v = store b o (le_bytes 8 v).
Proof.
  intros. unfold store_u64. rewrite !store_u32_le, !le_bytes_wrap by lia.
  change (o + 4) with (o + len (le_bytes 4 v)). rewrite store_app by lia.
  cbn [le_bytes app]. by rewrite !Z.shiftr_shiftr by lia.
Qed.

(** ** Zero and equality tests *)

Lemma fold_lor_eq_0 b v : fold_left Z.lor b v = 0 <-> v = 0 /\ Forall (fun x => x = 0) b.
Proof.
  revert v. induction b as [|x b IH]; intros v; simpl.
  - split; [intros ->; auto|intros []; done].
  - rewrite IH, lor_eq_0, Forall_cons. tauto.
Qed.

Lemma bytes_zero_true b : bytes_zero b = true <-> b = zeros (len b).
Proof.
  unfold bytes_zero. rewrite Z.eqb_eq, (fold_lor_eq_0 b 0).
  unfold zeros, len. rewrite Nat2Z.id. split.
  - intros [_ H]. induction H as [|x b -> H IH]; simpl; congruence.
  - intros H. split; [done|]. rewrite H. by apply Forall_replicate.
Qed.

Lemma bytes_zero_zeros n : bytes_zero (zeros n) = true.
Proof.
  apply bytes_zero_true. unfold zeros, len. by rewrite length_replicate, Nat2Z.id.
Qed.

Lemma bytes_equal_true a b : len a = len b -> bytes_equal a b = true <-> a = b.
Proof.
  intros Hl. unfold bytes_equal. rewrite Z.eqb_eq.
  assert (Hg : forall d, fold_left (fun d p => Z.lor d (Z.lxor (fst p) (snd p))) (zip a b) d = 0
                         <-> d = 0 /\ a = b); [|rewrite Hg; tauto].
  revert b Hl. induction a as [|x a IH]; intros [|y b] Hl d; unfold len in Hl;
    try discriminate; simpl; [tauto|].
  rewrite IH by (unfold len; simpl in Hl; lia).
  rewrite lor_eq_0, Z.lxor_eq_0_iff. split; [intros [[-> ->] ->]; done|].
  intros [-> [= -> ->]]. done.
Qed.

Lemma bytes_equal_refl a : bytes_equal a a = true.
Proof. by apply bytes_equal_true. Qed.

(** ** Checked arithmetic *)

Lemma power_of_two_true v :
  0 <= v -> power_of_two v = true <-> exists k, 0 <= k /\ v = 2 ^ k.
Proof.
  intros Hv. unfold power_of_two. rewrite andb_true_iff, negb_true_iff, Z.eqb_neq, Z.eqb_eq.
  split.
  - intros [Hne Hl]. exists (Z.log2 v). split; [apply Z.log2_nonneg|].
    pose proof (Z.log2_spec v ltac:(lia)) as Hs. pose proof (Z.log2_nonneg v).
    destruct (Z.eq_dec v (2 ^ Z.log2 v)) as [|Hgt]; [done|exfalso].
    assert (Hlog : Z.log2 (v - 1) = Z.log2 v) by (apply Z.log2_unique; lia).
    assert (Hbit : Z.testbit (Z.land v (v - 1)) (Z.log2 v) = true).
    { rewrite Z.land_spec, Z.bit_log2 by lia. rewrite <- Hlog. apply Z.bit_log2.
      assert (0 < 2 ^ Z.log2 v) by (apply Z.pow_pos_nonneg; lia). lia. }
    rewrite Hl, Z.bits_0 in Hbit. discriminate.
  - intros [k [Hk ->]]. assert (0 < 2 ^ k) by (apply Z.pow_pos_nonneg; lia).
    rewrite land_pred_pow2, Z_mod_same_full by lia. lia.
Qed.

Lemma land_wrap w x y : 0 <= w -> word w x -> Z.land x (wrap w y) = Z.land x y.
Proof.
  intros Hw Hx. rewrite <- (wrap_small w x Hx). unfold wrap.
  apply Z.bits_inj'. intros i Hi. rewrite !Z.land_spec.
  destruct (Z.ltb_spec i w).
  - rewrite !Z.mod_pow2_bits_low by lia. done.
  - rewrite !Z.mod_pow2_bits_high by lia. done.
Qed.

Lemma land_align_mask x k : 0 <= k -> Z.land x (Z.lnot (2 ^ k - 1)) = x - x mod 2 ^ k.
Proof.
  intros. replace (2 ^ k - 1) with (Z.ones k) by (rewrite Z.ones_equiv; lia).
  rewrite <- Z.ldiff_land, Z.ldiff_ones_r, Z.shiftl_mul_pow2, Z.shiftr_div_pow2 by lia.
  assert (0 < 2 ^ k) by (apply Z.pow_pos_nonneg; lia).
  pose proof (Z.div_mod x (2 ^ k) ltac:(lia)). lia.
Qed.

Lemma add_u64_some l r s : add_u64 l r = Some s <-> s = l + r /\ l + r <= UINT64_MAX.
Proof.
  unfold add_u64. destruct (Z.ltb_spec (UINT64_MAX - r) l).
  - split; [done|lia].
  - split; [intros [= <-]; lia|intros [-> _]; done].
Qed.

Lemma align_up_u64_some v a r :
  0 <= v -> 0 <= a ->
  align_up_u64 v a = Some r <->
  power_of_two a = true /\ v + (a - 1) <= UINT64_MAX /\ r mod a = 0 /\ v <= r < v + a.
Proof.
  intros Hv Ha. unfold align_up_u64.
  destruct (power_of_two a) eqn:Hp; simpl; [|split; [done|intros [? _]; done]].
  apply (power_of_two_true a Ha) in Hp as [k [Hk ->]].
  assert (Hpos : 0 < 2 ^ k) by (apply Z.pow_pos_nonneg; lia).
  destruct (add_u64 v (2 ^ k - 1)) as [s|] eqn:Hs.
  - apply add_u64_some in Hs as [-> Hle].
    rewrite land_wrap, land_align_mask by first [lia | apply word64; lia].
    pose proof (Z.div_mod (v + (2 ^ k - 1)) (2 ^ k) ltac:(lia)) as Hd.
    pose proof (Z.mod_pos_bound (v + (2 ^ k - 1)) (2 ^ k) Hpos) as Hm.
    set (q := (v + (2 ^ k - 1)) / 2 ^ k) in *. set (m := (v + (2 ^ k - 1)) mod 2 ^ k) in *.
    assert (Hr : v + (2 ^ k - 1) - m = 2 ^ k * q) by lia. rewrite Hr.
    split.
    + intros [= <-]. rewrite Z.mul_comm, Z.mod_mul by lia. lia.
    + intros (_ & _ & Hmod & Hb). f_equal. apply Z.mod_divide in Hmod as [p ->]; [|lia].
      destruct (Z.lt_trichotomy p q) as [Hlt|[->|Hlt]]; [|lia|];
        [assert (2 ^ k * (p + 1) <= 2 ^ k * q)|assert (2 ^ k * (q + 1) <= 2 ^ k * p)];
        try (apply Z.mul_le_mono_nonneg_l; lia); lia.
  - split; [done|]. intros (_ & Hle & _). unfold add_u64 in Hs.
    destruct (Z.ltb_spec (UINT64_MAX - (2 ^ k - 1)) v); [lia|done].
Qed.

(** ** CRC-32C *)

Lemma crc32c_bit_eq c :
  crc32c_bit c = Z.lxor (c / 2) (if Z.odd c then 0x82f63b78 else 0).
Proof.
  unfold crc32c_bit. rewrite Z.shiftr_div_pow2 by lia. change (2 ^ 1) with 2. f_equal.
  change (Z.land c 1) with (Z.land c (Z.ones 1)). rewrite Z.land_ones by lia.
  change (2 ^ 1) with 2. rewrite Zmod_odd. destruct (Z.odd c); reflexivity.
Qed.

Lemma crc32c_bit_word c : word 32 c -> word 32 (crc32c_bit c).
Proof.
  intros Hc. rewrite crc32c_bit_eq. apply lxor_word; [lia| |].
  - rewrite word32 in *. split; [apply Z.div_pos; lia|].
    apply Z.div_le_upper_bound; unfold UINT32_MAX in *; lia.
  - rewrite word32. destruct (Z.odd c); unfold UINT32_MAX; lia.
Qed.

(** The bit step is injective: the polynomial's top bit records the bit that
    was shifted out. *)
Lemma crc32c_bit_inj c d :
  word 32 c -> word 32 d -> crc32c_bit c = crc32c_bit d -> c = d.
Proof.
  intros Hc Hd. rewrite !crc32c_bit_eq. intros He.
  assert (Hhi : forall x, word 32 x -> Z.testbit (x / 2) 31 = false).
  { intros x Hx. unfold word in Hx. apply Z.testbit_false; [lia|].
    rewrite (Z.div_small (x / 2)); [done|].
    split; [apply Z.div_pos; lia|apply Z.div_lt_upper_bound; lia]. }
  pose proof (f_equal (fun z => Z.testbit z 31) He) as Hb. cbv beta in Hb.
  rewrite !Z.lxor_spec, !Hhi in Hb by done.
  assert (Hodd : Z.odd c = Z.odd d) by (destruct (Z.odd c), (Z.odd d); done).
  rewrite Hodd in He.
  assert (Hhalf : c / 2 = d / 2).
  { apply (f_equal (fun z => Z.lxor z (if Z.odd d then 0x82f63b78 else 0))) in He.
    by rewrite !Z.lxor_assoc, !Z.lxor_nilpotent, !Z.lxor_0_r in He. }
  rewrite (Z.div_mod c 2), (Z.div_mod d 2), !Zmod_odd, Hhalf, Hodd by lia. done.
Qed.

Lemma iter_crc32c_bit_word n c : word 32 c -> word 32 (Nat.iter n crc32c_bit c).
Proof. intros. induction n; simpl; auto using crc32c_bit_word. Qed.

Lemma lxor_octet_word c x : word 32 c -> word 8 x -> word 32 (Z.lxor c x).
Proof.
  intros. apply lxor_word; [lia|done|]. rewrite word32, word8 in *. unfold UINT32_MAX. lia.
Qed.

Lemma crc32c_byte_word c x : word 32 c -> word 8 x -> word 32 (crc32c_byte c x).
Proof. intros. by apply iter_crc32c_bit_word, lxor_octet_word. Qed.

Lemma crc32c_byte_inj c d x y :
  word 32 c -> word 32 d -> word 8 x -> word 8 y ->
  crc32c_byte c x = crc32c_byte d y -> Z.lxor c x = Z.lxor d y.
Proof.
  intros Hc Hd Hx Hy. unfold crc32c_byte. generalize 8%nat as n.
  induction n as [|n IH]; simpl; [done|]. intros He. apply IH.
  apply crc32c_bit_inj; auto using iter_crc32c_bit_word, lxor_octet_word.
Qed.

(** Rewriting with this equation keeps the kernel from unfolding the checksum. *)
Lemma fold_left_cons {A B} (f : A -> B -> A) x l c : fold_left f (x :: l) c = fold_left f l (f c x).
Proof. reflexivity. Qed.

Lemma fold_crc32c_word b c : word 32 c -> octets b -> word 32 (fold_left crc32c_byte b c).
Proof.
  intros Hc Hb. revert c Hc. induction Hb; intros; [done|]. rewrite fold_left_cons. auto using crc32c_byte_word.
Qed.

Lemma crc32c_word b : word 32 (crc32c b).
Proof. apply wrap_word. lia. Qed.

Lemma fold_crc32c_inj b c d :
  word 32 c -> word 32 d -> octets b ->
  fold_left crc32c_byte b c = fold_left crc32c_byte b d -> c = d.
Proof.
  intros Hc Hd Hb. revert c d Hc Hd. induction Hb as [|x b Hx Hb IH]; intros c d Hc Hd; [done|].
  rewrite !fold_left_cons. intros He. apply IH in He; auto using crc32c_byte_word.
  apply crc32c_byte_inj in He; auto.
  apply (f_equal (fun z => Z.lxor z x)) in He.
  by rewrite !Z.lxor_assoc, !Z.lxor_nilpotent, !Z.lxor_0_r in He.
Qed.

Lemma lnot_word w z : 0 <= w -> word w z -> wrap w (Z.lnot z) = 2 ^ w - 1 - z.
Proof.
  unfold wrap, word, Z.lnot. intros. symmetry. apply (Zmod_unique _ _ (-1)); lia.
Qed.

Lemma u32_max_word : word 32 UINT32_MAX.
Proof. rewrite word32. unfold UINT32_MAX. lia. Qed.

(** Any corruption confined to one byte changes the checksum. *)
Lemma crc32c_detects_byte a x y b :
  octets (a ++ x :: b) -> word 8 y -> x <> y ->
  crc32c (a ++ x :: b) <> crc32c (a ++ y :: b).
Proof.
  intros Ho Hy Hne He. apply octets_app in Ho as [Ha Hb]. inversion_clear Hb as [|? ? Hx Hb'].
  unfold crc32c in He. rewrite !fold_left_app, !fold_left_cons in He.
  pose proof (fold_crc32c_word a _ u32_max_word Ha) as Hs.
  rewrite !lnot_word in He by (try lia; auto using fold_crc32c_word, crc32c_byte_word).
  assert (He' : fold_left crc32c_byte b (crc32c_byte (fold_left crc32c_byte a UINT32_MAX) x) =
                fold_left crc32c_byte b (crc32c_byte (fold_left crc32c_byte a UINT32_MAX) y)) by lia.
  apply fold_crc32c_inj in He'; auto using crc32c_byte_word.
  apply crc32c_byte_inj in He'; auto.
  apply (f_equal (Z.lxor (fold_left crc32c_byte a UINT32_MAX))) in He'.
  rewrite <- !Z.lxor_assoc, !Z.lxor_nilpotent, !Z.lxor_0_l in He'. done.
Qed.

#[export] Hint Rewrite len_le_bytes : len.
#[export] Hint Resolve octets_le_bytes : ribon.

(** Fields stay folded: their values are symbolic in every codec proof. *)
#[global] Arguments le_bytes n v : simpl never.

(** A record whose bytes differ from the original in exactly one place never has
    the original's CRC-32C, so a single corrupted byte is always detected. *)
Theorem crc32c_single_byte a x y b :
  octets (a ++ x :: b) -> word 8 y -> x <> y ->
  crc32c (a ++ x :: b) <> crc32c (a ++ y :: b).
Proof. apply crc32c_detects_byte. Qed.

Lemma crc32c_single_byte_witness : crc32c ([1; 2] ++ 3 :: [4]) <> crc32c ([1; 2] ++ 7 :: [4]).
Proof.
  apply (crc32c_single_byte [1; 2] 3 7 [4]); [repeat constructor; simpl; lia|split; simpl; lia|lia].
Defined.
