(* ===== verification/Sha256.v ===== *)
(** * SHA-256 ([src/security/sha256.c])

    The streaming context, the block transform, the buffering loop and the
    one-shot digest, with the whole-message reference definition of FIPS 180-4
    (pad, split into 64-byte blocks, fold the compression function) that the
    streaming code is proved equal to.  The codecs above use only the digest's
    length and that it consists of octets. *)

From S2P Require Import Prelude.
From S2P Require Import Buffer.
From S2P Require Import Wire.

Record RibonSecuritySha256 := mkSha256 {
  state : list Z;
  total_bytes : Z;
  block : bytes;
  used : Z;
}.

Definition rotate_right (value count : Z) : Z :=
  Z.lor (Z.shiftr value count) (u32 (Z.shiftl value (32 - count))).

(** The source's table, in decimal. *)
Definition constants : list Z :=
  [1116352408; 1899447441; 3049323471; 3921009573; 961987163; 1508970993;
   2453635748; 2870763221; 3624381080; 310598401; 607225278; 1426881987;
   1925078388; 2162078206; 2614888103; 3248222580; 3835390401; 4022224774;
   264347078; 604807628; 770255983; 1249150122; 1555081692; 1996064986;
   2554220882; 2821834349; 2952996808; 3210313671; 3336571891; 3584528711;
   113926993; 338241895; 666307205; 773529912; 1294757372; 1396182291;
   1695183700; 1986661051; 2177026350; 2456956037; 2730485921; 2820302411;
   3259730800; 3345764771; 3516065817; 3600352804; 4094571909; 275423344;
   430227734; 506948616; 659060556; 883997877; 958139571; 1322822218;
   1537002063; 1747873779; 1955562222; 2024104815; 2227730452; 2361852424;
   2428436474; 2756734187; 3204031479; 3329325298].

(** [words[0..15]]: the block as big-endian words. *)
Definition block_word (block : bytes) (index : Z) : Z :=
  let offset := index * 4 in
  Z.lor (Z.lor (Z.lor (u32 (Z.shiftl (byte_at block offset) 24))
                      (Z.shiftl (byte_at block (offset + 1)) 16))
               (Z.shiftl (byte_at block (offset + 2)) 8))
        (byte_at block (offset + 3)).

(** [words[16..63]]: one step of the message schedule. *)
Definition schedule_step (words : list Z) (index : Z) : list Z :=
  let first := byte_at words (index - 15) in
  let second := byte_at words (index - 2) in
  words ++
    [u32 (byte_at words (index - 16) +
          Z.lxor (Z.lxor (rotate_right first 7) (rotate_right first 18)) (Z.shiftr first 3) +
          byte_at words (index - 7) +
          Z.lxor (Z.lxor (rotate_right second 17) (rotate_right second 19)) (Z.shiftr second 10))].

Definition schedule (block : bytes) : list Z :=
  fold_left schedule_step (seqZ 16 48) (block_word block <$> seqZ 0 16).

(** One of the 64 rounds on the working variables [a .. h]. *)
Definition round (words : list Z) (v : list Z) (index : Z) : list Z :=
  match v with
  | [a; b; c; d; e; f; g; h] =>
    let first := u32 (h +
      Z.lxor (Z.lxor (rotate_right e 6) (rotate_right e 11)) (rotate_right e 25) +
      Z.lxor (Z.land e f) (Z.land (u32 (Z.lnot e)) g) +
      byte_at constants index + byte_at words index) in
    let second := u32 (
      Z.lxor (Z.lxor (rotate_right a 2) (rotate_right a 13)) (rotate_right a 22) +
      Z.lxor (Z.lxor (Z.land a b) (Z.land a c)) (Z.land b c)) in
    [u32 (first + second); a; b; c; u32 (d + first); e; f; g]
  | _ => v
  end.

(** [transform]: the new eight state words from the old ones and a block. *)
Definition compress (st : list Z) (block : bytes) : list Z :=
  let words := schedule block in
  zip_with (fun s v => u32 (s + v)) st (fold_left (round words) (seqZ 0 64) st).

Definition transform (context : RibonSecuritySha256) (b : bytes) : RibonSecuritySha256 :=
  mkSha256 (compress (state context) b) (total_bytes context) (block context) (used context).

(** The [while (offset < size)] loop; each turn consumes at least one byte, so
    [len b] turns are enough ([update_absorbs] shows that all are consumed). *)
Fixpoint update_loop (fuel : nat) (context : RibonSecuritySha256) (b : bytes) (size offset : Z)
  : RibonSecuritySha256 :=
  match fuel with
  | O => context
  | S fuel' =>
    if offset <? size then
      let count := 64 - used context in
      let count := if count >? size - offset then size - offset else count in
      let blk := store (block context) (used context) (slice offset count b) in
      let context' := mkSha256 (state context) (total_bytes context) blk (used context + count) in
      let context'' :=
        if used context' =? 64 then
          let t := transform context' (block context') in
          mkSha256 (state t) (total_bytes t) (block t) 0
        else context' in
      update_loop fuel' context'' b size (offset + count)
    else context
  end.

Definition update (context : RibonSecuritySha256) (b : bytes) : RibonSecuritySha256 :=
  let context' := mkSha256 (state context) (u64 (total_bytes context + len b))
                           (block context) (used context) in
  update_loop (S (length b)) context' b (len b) 0.

Definition initial_state : list Z :=
  [0x6a09e667; 0xbb67ae85; 0x3c6ef372; 0xa54ff53a; 0x510e527f; 0x9b05688c; 0x1f83d9ab; 0x5be0cd19].

Definition word_digest (s : Z) : bytes :=
  [u8 (Z.shiftr s 24); u8 (Z.shiftr s 16); u8 (Z.shiftr s 8); u8 s].

Definition ribon_security_sha256 (b : bytes) : bytes :=
  let context := mkSha256 initial_state 0 (zeros 64) 0 in
  let bit_length := u64 (len b * 8) in
  let padding := store (zeros 128) 0 [0x80] in
  let context := update context b in
  let padding_size := if used context <? 56 then 56 - used context else 120 - used context in
  let length := (fun index => u8 (Z.shiftr bit_length ((7 - index) * 8))) <$> seqZ 0 8 in
  let context := update context (slice 0 padding_size padding) in
  let context := update context length in
  mjoin (word_digest <$> state context).

(** ** The whole-message reference *)

(** The [n] consecutive 64-byte blocks at the start of [b]. *)
Definition blocks (n : Z) (b : bytes) : list bytes := (fun i => slice (64 * i) 64 b) <$> seqZ 0 n.

Definition sha256_pad (b : bytes) : bytes :=
  b ++ 0x80 :: zeros ((55 - len b) mod 64) ++
  ((fun i => u8 (Z.shiftr (8 * len b) ((7 - i) * 8))) <$> seqZ 0 8).

Definition sha256_spec (b : bytes) : bytes :=
  let m := sha256_pad b in
  mjoin (word_digest <$> fold_left compress (blocks (len m / 64) m) initial_state).

(** FIPS 180-4 test vectors: the empty message and "abc". *)
Example sha256_empty :
  ribon_security_sha256 [] =
  [0xe3; 0xb0; 0xc4; 0x42; 0x98; 0xfc; 0x1c; 0x14; 0x9a; 0xfb; 0xf4; 0xc8; 0x99; 0x6f; 0xb9; 0x24;
   0x27; 0xae; 0x41; 0xe4; 0x64; 0x9b; 0x93; 0x4c; 0xa4; 0x95; 0x99; 0x1b; 0x78; 0x52; 0xb8; 0x55].
Proof. vm_compute. reflexivity. Qed.

Example sha256_abc :
  ribon_security_sha256 [0x61; 0x62; 0x63] =
  [0xba; 0x78; 0x16; 0xbf; 0x8f; 0x01; 0xcf; 0xea; 0x41; 0x41; 0x40; 0xde; 0x5d; 0xae; 0x22; 0x23;
   0xb0; 0x03; 0x61; 0xa3; 0x96; 0x17; 0x7a; 0x9c; 0xb4; 0x10; 0xff; 0x61; 0xf2; 0x00; 0x15; 0xad].
Proof. vm_compute. reflexivity. Qed.

(** ** The streaming context absorbs a message *)

Lemma blocks_snoc n b : 0 <= n -> blocks (n + 1) b = blocks n b ++ [slice (64 * n) 64 b].
Proof.
  intros. unfold blocks. rewrite seqZ_app by lia. rewrite fmap_app.
  rewrite (seqZ_cons (0 + n)), (seqZ_nil _ (Z.pred 1)) by lia. by rewrite Z.add_0_l.
Qed.

Lemma blocks_app n a b : 64 * n <= len a -> blocks n (a ++ b) = blocks n a.
Proof.
  intros. unfold blocks. apply list_fmap_ext. intros i x Hx.
  apply lookup_seqZ in Hx as [-> ?]. apply slice_app_l; lia.
Qed.

(** The context after absorbing [d]: the full blocks are folded into the
    state, the rest sits at the start of the block buffer. *)
Record absorbed (context : RibonSecuritySha256) (d : bytes) : Prop := {
  absorbed_block : len (block context) = 64;
  absorbed_used : used context = len d mod 64;
  absorbed_rest :
    slice 0 (len d mod 64) (block context) = slice (64 * (len d / 64)) (len d mod 64) d;
  absorbed_state :
    state context = fold_left compress (blocks (len d / 64) d) initial_state;
}.

(** One turn of the loop, without the loop. *)
Definition absorb_chunk (context : RibonSecuritySha256) (c : bytes) : RibonSecuritySha256 :=
  let blk := store (block context) (used context) c in
  if used context + len c =? 64
  then mkSha256 (compress (state context) blk) (total_bytes context) blk 0
  else mkSha256 (state context) (total_bytes context) blk (used context + len c).

Lemma store_extends blk u c d :
  len blk = 64 -> 0 <= u -> u + len c <= 64 -> u <= len d ->
  slice 0 u blk = slice (len d - u) u d ->
  slice 0 (u + len c) (store blk u c) = slice (len d - u) (u + len c) (d ++ c).
Proof.
  intros Hb Hu Hc Hd Hr. pose proof (len_nonneg c).
  rewrite !slice_split by lia. f_equal.
  - rewrite slice_store_before, slice_app_l by lia. done.
  - rewrite slice_store_same, slice_app_r by lia.
    replace (len d - u + u - len d) with 0 by lia. by rewrite slice_all.
Qed.

Lemma absorb_chunk_absorbed context d c :
  absorbed context d -> 0 < len c <= 64 - used context ->
  absorbed (absorb_chunk context c) (d ++ c).
Proof.
  intros [Hb Hu Hr Hs] Hc. pose proof (len_nonneg d).
  pose proof (Z.div_mod (len d) 64 ltac:(lia)) as Hdm.
  pose proof (Z.mod_pos_bound (len d) 64 ltac:(lia)) as Hm.
  pose proof (Z.div_pos (len d) 64 ltac:(lia) ltac:(lia)) as Hq.
  set (q := len d / 64) in *. set (u := len d mod 64) in *. rewrite Hu in Hc.
  assert (Hext : slice 0 (u + len c) (store (block context) u c) =
                 slice (64 * q) (u + len c) (d ++ c)).
  { replace (64 * q) with (len d - u) by lia. apply store_extends; try lia.
    rewrite Hr. f_equal. lia. }
  unfold absorb_chunk. rewrite Hu. destruct (Z.eqb_spec (u + len c) 64) as [He|He].
  - assert (Hq' : len (d ++ c) / 64 = q + 1)
      by (rewrite len_app; symmetry; apply (Z.div_unique _ _ _ 0); lia).
    assert (Hm' : len (d ++ c) mod 64 = 0)
      by (rewrite len_app; symmetry; apply (Z.mod_unique _ _ (q + 1)); lia).
    constructor; simpl; rewrite ?Hq', ?Hm'; [len_lia|done|done|].
    rewrite blocks_snoc, fold_left_app, blocks_app, <- Hs by lia. simpl. f_equal.
    rewrite He in Hext. rewrite <- Hext, slice_all by len_lia. done.
  - assert (Hq' : len (d ++ c) / 64 = q)
      by (rewrite len_app; symmetry; apply (Z.div_unique _ _ _ (u + len c)); lia).
    assert (Hm' : len (d ++ c) mod 64 = u + len c)
      by (rewrite len_app; symmetry; apply (Z.mod_unique _ _ q); lia).
    constructor; simpl; rewrite ?Hq', ?Hm'; [len_lia|done|done|].
    by rewrite blocks_app by lia.
Qed.

Lemma update_loop_absorbed fuel context b offset d :
  absorbed context (d ++ slice 0 offset b) ->
  0 <= offset <= len b -> len b - offset < Z.of_nat fuel ->
  absorbed (update_loop fuel context b (len b) offset) (d ++ b).
Proof.
  revert context offset. induction fuel as [|fuel IH]; intros context offset Ha Ho Hf; [lia|].
  cbn [update_loop]. destruct (Z.ltb_spec offset (len b)) as [Hlt|Hge].
  2:{ replace offset with (len b) in Ha by lia. by rewrite slice_all in Ha. }
  pose proof (absorbed_used _ _ Ha) as Hu.
  pose proof (Z.mod_pos_bound (len (d ++ slice 0 offset b)) 64 ltac:(lia)) as Hm.
  set (count := if 64 - used context >? len b - offset then len b - offset else 64 - used context).
  assert (Hc : 0 < count <= 64 - used context /\ count <= len b - offset)
    by (unfold count; destruct (Z.ltb_spec (len b - offset) (64 - used context)); lia).
  pose proof (absorb_chunk_absorbed _ _ (slice offset count b) Ha) as Hn.
  rewrite len_slice in Hn by lia. specialize (Hn ltac:(lia)).
  rewrite <- app_assoc, <- (Z.add_0_l offset), <- slice_split in Hn at 1 by lia.
  rewrite Z.add_0_l in Hn. simpl used. unfold absorb_chunk in Hn. rewrite len_slice in Hn by lia.
  destruct (used context + count =? 64); apply IH; try lia; done.
Qed.

Lemma update_absorbs context d b :
  absorbed context d -> absorbed (update context b) (d ++ b).
Proof.
  intros [Hb Hu Hr Hs]. apply update_loop_absorbed; [|pose proof (len_nonneg b); lia|unfold len; lia].
  unfold slice at 1. simpl take. rewrite app_nil_r. by constructor.
Qed.

(** ** Correctness of the one-shot digest *)

Lemma absorbed_initial : absorbed (mkSha256 initial_state 0 (zeros 64) 0) [].
Proof. by constructor. Qed.

Lemma padding_slice p :
  1 <= p <= 128 -> slice 0 p (store (zeros 128) 0 [0x80]) = 0x80 :: zeros (p - 1).
Proof.
  intros. replace p with (1 + (p - 1)) at 1 by lia. rewrite slice_split by lia.
  change (0x80 :: zeros (p - 1)) with ([0x80] ++ zeros (p - 1)). f_equal.
  rewrite slice_store_after by len_lia. apply slice_zeros; lia.
Qed.

Lemma shiftr_u64 v k : 0 <= k -> k + 8 <= 64 -> u8 (Z.shiftr (u64 v) k) = u8 (Z.shiftr v k).
Proof.
  intros. unfold wrap. apply Z.bits_inj'. intros i Hi. destruct (Z.ltb_spec i 8).
  - rewrite !Z.mod_pow2_bits_low, !Z.shiftr_spec, Z.mod_pow2_bits_low by lia. done.
  - rewrite !Z.mod_pow2_bits_high by lia. done.
Qed.

Lemma length_be_eq v :
  (fun i => u8 (Z.shiftr (u64 v) ((7 - i) * 8))) <$> seqZ 0 8 =
  (fun i => u8 (Z.shiftr v ((7 - i) * 8))) <$> seqZ 0 8.
Proof.
  apply list_fmap_ext. intros i x Hx. apply lookup_seqZ in Hx as [-> ?].
  apply shiftr_u64; lia.
Qed.

Lemma padding_size_eq n :
  0 <= n ->
  (if n mod 64 <? 56 then 56 - n mod 64 else 120 - n mod 64) = 1 + (55 - n) mod 64.
Proof.
  intros Hn. pose proof (Z.div_mod n 64 ltac:(lia)). pose proof (Z.mod_pos_bound n 64 ltac:(lia)).
  destruct (Z.ltb_spec (n mod 64) 56).
  - rewrite <- (Z.mod_unique (55 - n) 64 (- (n / 64)) (55 - n mod 64)); lia.
  - rewrite <- (Z.mod_unique (55 - n) 64 (- (n / 64) - 1) (119 - n mod 64)); lia.
Qed.

(** The streaming digest equals the FIPS 180-4 digest of the whole message. *)
Lemma ribon_security_sha256_eq b : ribon_security_sha256 b = sha256_spec b.
Proof.
  pose proof (update_absorbs _ _ b absorbed_initial) as H1. simpl app in H1.
  set (c1 := update (mkSha256 initial_state 0 (zeros 64) 0) b) in H1.
  pose proof (len_nonneg b) as Hb.
  pose proof (Z.mod_pos_bound (55 - len b) 64 ltac:(lia)) as Hp.
  unfold ribon_security_sha256. fold c1. rewrite (absorbed_used _ _ H1), padding_size_eq by lia.
  rewrite padding_slice by lia. replace (1 + (55 - len b) mod 64 - 1) with ((55 - len b) mod 64) by lia.
  rewrite length_be_eq, (Z.mul_comm (len b) 8).
  eapply update_absorbs, update_absorbs in H1. unfold sha256_spec.
  erewrite (absorbed_state _ _ H1). do 3 f_equal; unfold sha256_pad; by rewrite <- app_assoc.
Qed.

Lemma length_round words v i : length v = 8%nat -> length (round words v i) = 8%nat.
Proof.
  destruct v as [|? [|? [|? [|? [|? [|? [|? [|? [|]]]]]]]]]; try discriminate; done.
Qed.

Lemma length_compress st blk : length st = 8%nat -> length (compress st blk) = 8%nat.
Proof.
  intros H. unfold compress. rewrite length_zip_with, H.
  assert (Hr : forall l v, length v = 8%nat -> length (fold_left (round (schedule blk)) l v) = 8%nat).
  { induction l; simpl; auto using length_round. }
  by rewrite Hr.
Qed.

Lemma length_fold_compress l st : length st = 8%nat -> length (fold_left compress l st) = 8%nat.
Proof. revert st. induction l; simpl; auto using length_compress. Qed.

Lemma len_word_digests l : len (mjoin (word_digest <$> l)) = 4 * len l.
Proof.
  induction l as [|a l IH]; [done|].
  change (mjoin (word_digest <$> a :: l)) with (word_digest a ++ mjoin (word_digest <$> l)).
  rewrite len_app, IH, len_cons. change (len (word_digest a)) with 4. lia.
Qed.

Lemma octets_word_digests l : octets (mjoin (word_digest <$> l)).
Proof.
  induction l as [|a l IH]; [constructor|].
  change (mjoin (word_digest <$> a :: l)) with (word_digest a ++ mjoin (word_digest <$> l)).
  apply octets_app.
  split; [|done]. repeat constructor; apply wrap_word; lia.
Qed.

Lemma len_sha256 b : len (ribon_security_sha256 b) = 32.
Proof.
  rewrite ribon_security_sha256_eq. unfold sha256_spec. rewrite len_word_digests.
  unfold len at 1. by rewrite length_fold_compress.
Qed.

Lemma octets_sha256 b : octets (ribon_security_sha256 b).
Proof. apply octets_word_digests. Qed.

#[export] Hint Rewrite len_sha256 : len.
#[export] Hint Resolve octets_sha256 : ribon.

(** The codecs treat the digest as a black box. *)
#[global] Opaque ribon_security_sha256.

