(* ===== verification/Memory.v ===== *)
(** * Core memory: the bump arena and the memory map

    [src/core/arena.c] and [src/core/memory.c].  A pointer argument is an
    [option] ([None] is NULL); an address is a [Z] with 0 for NULL.  The memory
    map normaliser works in place on the caller's array, as the C does; it is
    related to a list-level reference (insertion sort, then one merging pass). *)

From Stdlib Require Import Sorting.Sorted.
From S2P Require Import Prelude.
From S2P Require Import Buffer.
From S2P Require Import Wire.

Inductive RibonCoreStatus :=
| RIBON_CORE_STATUS_OK
| RIBON_CORE_STATUS_BAD_ARGUMENT
| RIBON_CORE_STATUS_BAD_ABI
| RIBON_CORE_STATUS_BAD_MODE
| RIBON_CORE_STATUS_BAD_LIMIT
| RIBON_CORE_STATUS_OUT_OF_CAPACITY
| RIBON_CORE_STATUS_BAD_ALIGNMENT
| RIBON_CORE_STATUS_MISSING_CAPABILITY
| RIBON_CORE_STATUS_FORBIDDEN_CAPABILITY
| RIBON_CORE_STATUS_INVALID_DESCRIPTOR
| RIBON_CORE_STATUS_DUPLICATE_PROVIDER
| RIBON_CORE_STATUS_DEPENDENCY_CYCLE
| RIBON_CORE_STATUS_BAD_STATE
| RIBON_CORE_STATUS_PHASE_INVERSION
| RIBON_CORE_STATUS_AMBIGUOUS_SELECTION.

#[export] Instance RibonCoreStatus_eq_dec : EqDecision RibonCoreStatus.
Proof. solve_decision. Defined.

(** ** The arena *)

Module Arena.

Record RibonArena := mkArena {
  base : Z;
  capacity : Z;
  used : Z;
  high_watermark : Z;
}.

Definition ribon_arena_pointer_range_is_valid (arena : option RibonArena) : bool :=
  match arena with
  | None => false
  | Some a =>
    (base a !=? 0) && (capacity a !=? 0) && (used a <=? capacity a) &&
    (high_watermark a >=? used a) && (high_watermark a <=? capacity a) &&
    (base a <=? UINT64_MAX - capacity a)
  end.

Definition ribon_arena_init (arena : option RibonArena) (storage cap : Z) : option RibonArena :=
  match arena with
  | None => None
  | Some _ => Some (mkArena storage (if storage !=? 0 then cap else 0) 0 0)
  end.

(** Returns the status, the arena afterwards and the contents of [*out]. *)
Definition ribon_arena_allocate (arena : option RibonArena) (size alignment : Z) (out : option Z)
  : RibonCoreStatus * option RibonArena * option Z :=
  match out with
  | None => (RIBON_CORE_STATUS_BAD_ARGUMENT, arena, None)
  | Some _ =>
    match arena with
    | None => (RIBON_CORE_STATUS_BAD_ARGUMENT, arena, Some 0)
    | Some a =>
      if negb (ribon_arena_pointer_range_is_valid arena) || (size =? 0)
      then (RIBON_CORE_STATUS_BAD_ARGUMENT, arena, Some 0)
      else if (alignment =? 0) || (Z.land alignment (alignment - 1) !=? 0)
      then (RIBON_CORE_STATUS_BAD_ALIGNMENT, arena, Some 0)
      else
        let current := u64 (base a + used a) in
        if current >? UINT64_MAX - (alignment - 1)
        then (RIBON_CORE_STATUS_OUT_OF_CAPACITY, arena, Some 0)
        else
          let aligned := Z.land (u64 (current + alignment - 1)) (u64 (Z.lnot (alignment - 1))) in
          let padding := u64 (aligned - current) in
          if (padding >? capacity a - used a) || (size >? capacity a - used a - padding)
          then (RIBON_CORE_STATUS_OUT_OF_CAPACITY, arena, Some 0)
          else
            let next_used := u64 (used a + padding + size) in
            let high := if next_used >? high_watermark a then next_used else high_watermark a in
            (RIBON_CORE_STATUS_OK, Some (mkArena (base a) (capacity a) next_used high), Some aligned)
    end
  end.

Definition ribon_arena_remaining (arena : option RibonArena) : Z :=
  match arena with
  | Some a => if ribon_arena_pointer_range_is_valid arena then capacity a - used a else 0
  | None => 0
  end.

(** The fields are 64-bit and the range check of the code holds. *)
Definition wf (a : RibonArena) : Prop :=
  word 64 (base a) /\ word 64 (capacity a) /\ word 64 (used a) /\ word 64 (high_watermark a) /\
  ribon_arena_pointer_range_is_valid (Some a) = true.

(** What a successful allocation promises. *)
Record allocated (a : RibonArena) (size alignment : Z) (a' : RibonArena) (p : Z) : Prop := {
  allocated_aligned : p mod alignment = 0;
  allocated_after : base a + used a <= p;
  allocated_tight : p < base a + used a + alignment;
  allocated_end : base a' + used a' = p + size;
  allocated_room : used a' <= capacity a';
  allocated_storage : base a' = base a /\ capacity a' = capacity a;
  allocated_high : high_watermark a' = Z.max (high_watermark a) (used a');
}.

Lemma range_valid_spec a :
  ribon_arena_pointer_range_is_valid (Some a) = true <->
  base a <> 0 /\ capacity a <> 0 /\ used a <= high_watermark a <= capacity a /\
  base a + capacity a <= UINT64_MAX.
Proof.
  unfold ribon_arena_pointer_range_is_valid.
  rewrite !andb_true_iff, !negb_true_iff, !Z.eqb_neq, !Z.leb_le. lia.
Qed.

(** The C expression for the aligned address is the address rounded up. *)
Lemma aligned_address c k :
  0 <= k -> word 64 c -> c + 2 ^ k - 1 <= UINT64_MAX ->
  let p := Z.land (u64 (c + 2 ^ k - 1)) (u64 (Z.lnot (2 ^ k - 1))) in
  p mod 2 ^ k = 0 /\ c <= p < c + 2 ^ k.
Proof.
  intros Hk Hc Hle p. apply word64 in Hc.
  assert (Hpos : 0 < 2 ^ k) by (apply Z.pow_pos_nonneg; lia).
  assert (Hp2 : power_of_two (2 ^ k) = true) by (apply power_of_two_true; [lia|eauto]).
  assert (Ha : align_up_u64 c (2 ^ k) = Some p).
  { unfold align_up_u64. rewrite Hp2. simpl. unfold add_u64.
    destruct (Z.ltb_spec (UINT64_MAX - (2 ^ k - 1)) c); [lia|].
    unfold p. rewrite (wrap_small 64 (c + 2 ^ k - 1)) by (apply word64; lia).
    do 2 f_equal. apply Z.add_sub_assoc. }
  apply align_up_u64_some in Ha; [|lia..]. tauto.
Qed.

Lemma power_of_two_guard v :
  0 <= v -> (v =? 0) || (Z.land v (v - 1) !=? 0) = false -> exists k, 0 <= k /\ v = 2 ^ k.
Proof.
  intros Hv H. apply power_of_two_true; [done|]. unfold power_of_two.
  bool_to_prop. apply andb_true_iff. split; [apply negb_true_iff, Z.eqb_neq|apply Z.eqb_eq]; done.
Qed.

Lemma allocate_spec a size alignment out :
  wf a -> word 64 size -> word 64 alignment ->
  match ribon_arena_allocate (Some a) size alignment (Some out) with
  | (RIBON_CORE_STATUS_OK, Some a', Some p) => wf a' /\ allocated a size alignment a' p
  | (_, arena', p) => arena' = Some a /\ p = Some 0
  end.
Proof.
  intros (Hb & Hc & Hu & Hh & Hv) Hs Hal. unfold ribon_arena_allocate. rewrite Hv. simpl negb.
  apply range_valid_spec in Hv. rewrite word64 in Hb, Hc, Hu, Hh, Hs, Hal.
  simpl orb. destruct (Z.eqb_spec size 0); [done|].
  destruct ((alignment =? 0) || _) eqn:Hp; [done|].
  apply power_of_two_guard in Hp as [k [Hk ->]]; [|lia].
  rewrite (wrap_small 64 (base a + used a)) by (apply word64; lia).
  destruct (Z.ltb_spec (UINT64_MAX - (2 ^ k - 1)) (base a + used a)); [done|].
  destruct (aligned_address (base a + used a) k) as [Hm Hp]; [lia|apply word64; lia|lia|].
  set (p := Z.land _ _) in *. rewrite (wrap_small 64 (p - _)) by (apply word64; lia).
  destruct ((p - (base a + used a) >? capacity a - used a) || _) eqn:Hroom; [done|].
  bool_to_prop. rewrite (wrap_small 64 (used a + _ + size)) by (apply word64; lia).
  set (nu := used a + (p - (base a + used a)) + size) in *.
  assert (Hmax : (if nu >? high_watermark a then nu else high_watermark a) = Z.max (high_watermark a) nu)
    by (destruct (Z.ltb_spec (high_watermark a) nu); lia).
  rewrite Hmax. split.
  - unfold wf. rewrite range_valid_spec. simpl. rewrite !word64. lia.
  - constructor; simpl; try done; lia.
Qed.

(** A run of allocation requests; failed requests leave the arena as it was. *)
Fixpoint allocate_all (a : RibonArena) (requests : list (Z * Z)) : RibonArena * list (Z * Z) :=
  match requests with
  | [] => (a, [])
  | (size, alignment) :: rest =>
    match ribon_arena_allocate (Some a) size alignment (Some 0) with
    | (RIBON_CORE_STATUS_OK, Some a', Some p) =>
      let '(a'', blocks) := allocate_all a' rest in (a'', (p, size) :: blocks)
    | _ => allocate_all a rest
    end
  end.

(** Every block lies between the arena's old and new bump pointers, and the
    blocks follow one another. *)
Fixpoint laid_out (lo hi : Z) (blocks : list (Z * Z)) : Prop :=
  match blocks with
  | [] => lo <= hi
  | (p, size) :: rest => lo <= p /\ laid_out (p + size) hi rest
  end.

Lemma allocate_all_laid_out a requests :
  wf a -> Forall (fun r => word 64 (fst r) /\ word 64 (snd r)) requests ->
  let '(a', blocks) := allocate_all a requests in
  wf a' /\ base a' = base a /\ capacity a' = capacity a /\
  laid_out (base a + used a) (base a' + used a') blocks.
Proof.
  intros Hwf Hr. revert a Hwf. induction Hr as [|[size al] rest [Hs Ha] Hr IH]; intros a Hwf.
  { simpl. split_and!; [done|done|done|lia]. }
  pose proof (allocate_spec a size al 0 Hwf Hs Ha) as Hsp. cbn [allocate_all].
  destruct (ribon_arena_allocate (Some a) size al (Some 0)) as [[st [a'|]] [p|]];
    destruct st; try (destruct Hsp; done); try (by apply IH).
  destruct Hsp as [Hwf' Hal]. specialize (IH a' Hwf').
  destruct (allocate_all a' rest) as [a'' blocks]. simpl.
  destruct Hal as [_ Hafter _ Hend _ [Hb Hc] _], IH as (? & ? & ? & Hl).
  rewrite Hend in Hl. split_and!; [done|congruence|congruence|done|done].
Qed.

Lemma laid_out_bounds lo hi blocks p size :
  Forall (fun b => 0 <= snd b) blocks -> laid_out lo hi blocks -> In (p, size) blocks ->
  lo <= p /\ p + size <= hi.
Proof.
  intros Hpos. revert lo. induction Hpos as [|[q n] rest Hq Hpos IH]; intros lo Hl Hin; [done|].
  simpl in *. destruct Hl as [Hlo Hl].
  assert (Hrest : forall lo', laid_out lo' hi rest -> lo' <= hi).
  { clear -Hpos. induction Hpos as [|[? ?] ? ? ? IH]; simpl; [done|].
    intros lo' [? ?%IH]. simpl in *. lia. }
  destruct Hin as [[= -> ->]|Hin]; [apply Hrest in Hl; lia|].
  destruct (IH _ Hl Hin). lia.
Qed.

Lemma allocate_all_sizes a requests :
  Forall (fun r => word 64 (fst r) /\ word 64 (snd r)) requests ->
  Forall (fun b => 0 <= snd b) (snd (allocate_all a requests)).
Proof.
  intros Hr. revert a. induction Hr as [|[size al] rest [Hs _] Hr IH]; intros a; [constructor|].
  cbn [allocate_all].
  destruct (ribon_arena_allocate _ _ _ _) as [[st [a'|]] [p|]]; destruct st; try apply IH.
  specialize (IH a'). destruct (allocate_all a' rest). constructor; [apply Hs|done].
Qed.

Lemma laid_out_ordered lo hi blocks i j p n q m :
  Forall (fun b => 0 <= snd b) blocks -> laid_out lo hi blocks ->
  (i < j)%nat -> blocks !! i = Some (p, n) -> blocks !! j = Some (q, m) -> p + n <= q.
Proof.
  intros Hpos. revert lo i j. induction Hpos as [|[r k] rest Hr Hpos IH]; intros lo i j Hl Hij Hi Hj;
    [done|]. destruct j as [|j]; [lia|]. simpl in Hl, Hj. destruct Hl as [Hlo Hl].
  destruct i as [|i]; simpl in Hi.
  - injection Hi as -> ->.
    apply (laid_out_bounds _ _ _ q m Hpos Hl), list_elem_of_In, (list_elem_of_lookup_2 _ _ _ Hj).
  - apply (IH _ i j Hl); [lia|done..].
Qed.

End Arena.

(** ** The memory map *)

Module MemoryMap.

Inductive RibonMemoryStatus :=
| RIBON_MEMORY_STATUS_OK
| RIBON_MEMORY_STATUS_BAD_ARGUMENT
| RIBON_MEMORY_STATUS_OVERFLOW
| RIBON_MEMORY_STATUS_OUT_OF_CAPACITY
| RIBON_MEMORY_STATUS_OVERLAP.

#[export] Instance RibonMemoryStatus_eq_dec : EqDecision RibonMemoryStatus.
Proof. solve_decision. Defined.

Definition RIBON_MEMORY_REGION_USABLE : Z := 1.

Record RibonMemoryRegion := mkRegion {
  base : Z;
  length : Z;
  kind : Z;
  attributes : Z;
}.

(** The elements of [regions] are the whole caller-owned array. *)
Record RibonMutableMemoryMap := mkMap {
  regions : list RibonMemoryRegion;
  region_count : nat;
  capacity : nat;
}.

Definition ribon_u64_add_overflows (lhs rhs : Z) : bool := lhs >? UINT64_MAX - rhs.

Definition ribon_align_down (value alignment : Z) : Z :=
  if alignment =? 0 then value else value - value mod alignment.

Definition ribon_align_up (value alignment : Z) : RibonMemoryStatus * option Z :=
  if alignment =? 0 then (RIBON_MEMORY_STATUS_BAD_ARGUMENT, None)
  else
    let remainder := value mod alignment in
    if remainder =? 0 then (RIBON_MEMORY_STATUS_OK, Some value)
    else
      let delta := alignment - remainder in
      if ribon_u64_add_overflows value delta then (RIBON_MEMORY_STATUS_OVERFLOW, None)
      else (RIBON_MEMORY_STATUS_OK, Some (u64 (value + delta))).

Definition ribon_memory_region_end (region : RibonMemoryRegion) : RibonMemoryStatus * option Z :=
  if length region =? 0 then (RIBON_MEMORY_STATUS_BAD_ARGUMENT, None)
  else if ribon_u64_add_overflows (base region) (length region)
  then (RIBON_MEMORY_STATUS_OVERFLOW, None)
  else (RIBON_MEMORY_STATUS_OK, Some (u64 (base region + length region))).

Definition ribon_memory_region_is_valid (region : RibonMemoryRegion) : bool :=
  if length region =? 0 then false
  else match ribon_memory_region_end region with
       | (RIBON_MEMORY_STATUS_OK, _) => true
       | _ => false
       end.

Definition ribon_memory_region_same_class (lhs rhs : RibonMemoryRegion) : bool :=
  (kind lhs =? kind rhs) && (attributes lhs =? attributes rhs).

Definition zero_region : RibonMemoryRegion := mkRegion 0 0 0 0.

(** [rs[i]] *)
Definition region_at (rs : list RibonMemoryRegion) (i : nat) : RibonMemoryRegion :=
  nth i rs zero_region.

(** The first loop of the insertion: the index after every leading region
    whose base is not above the new one's. *)
Fixpoint insert_index (fuel : nat) (rs : list RibonMemoryRegion) (count index : nat) (b : Z) : nat :=
  match fuel with
  | O => index
  | S fuel =>
    if (index <? count)%nat && (base (region_at rs index) <=? b)
    then insert_index fuel rs count (S index) b
    else index
  end.

(** The second loop: shift the tail up by one, from the end. *)
Fixpoint shift_up (fuel : nat) (rs : list RibonMemoryRegion) (cursor index : nat)
  : list RibonMemoryRegion :=
  match fuel with
  | O => rs
  | S fuel =>
    if (index <? cursor)%nat
    then shift_up fuel (<[cursor := region_at rs (cursor - 1)]> rs) (cursor - 1) index
    else rs
  end.

Definition ribon_memory_region_insert_sorted (d : RibonMutableMemoryMap) (region : RibonMemoryRegion)
  : RibonMemoryStatus * RibonMutableMemoryMap :=
  if (capacity d <=? region_count d)%nat then (RIBON_MEMORY_STATUS_OUT_OF_CAPACITY, d)
  else
    let index := insert_index (region_count d) (regions d) (region_count d) 0 (base region) in
    let shifted := shift_up (region_count d) (regions d) (region_count d) index in
    (RIBON_MEMORY_STATUS_OK,
     mkMap (<[index := region]> shifted) (S (region_count d)) (capacity d)).

(** One iteration of the merging loop, on the array and [write_index]. *)
Definition merge_step (rs : list RibonMemoryRegion) (write_index read_index : nat)
  : RibonMemoryStatus * (list RibonMemoryRegion * nat) :=
  let current := region_at rs read_index in
  let previous := region_at rs (write_index - 1) in
  let has_previous := (0 <? write_index)%nat in
  match ribon_memory_region_end current with
  | (RIBON_MEMORY_STATUS_OK, _) =>
    match (if has_previous then ribon_memory_region_end previous
           else (RIBON_MEMORY_STATUS_OK, Some 0)) with
    | (RIBON_MEMORY_STATUS_OK, Some previous_end) =>
      if has_previous && (base current <? previous_end)
      then (RIBON_MEMORY_STATUS_OVERLAP, (rs, write_index))
      else if has_previous && (base current =? previous_end) &&
              ribon_memory_region_same_class previous current
      then (RIBON_MEMORY_STATUS_OK,
            (<[(write_index - 1)%nat :=
                 mkRegion (base previous) (u64 (length previous + length current))
                          (kind previous) (attributes previous)]> rs, write_index))
      else (RIBON_MEMORY_STATUS_OK, (<[write_index := current]> rs, S write_index))
    | _ => (RIBON_MEMORY_STATUS_OVERFLOW, (rs, write_index))
    end
  | _ => (RIBON_MEMORY_STATUS_OVERFLOW, (rs, write_index))
  end.

(** [fuel] is the number of iterations left, [region_count - read_index]. *)
Fixpoint merge_loop (fuel : nat) (rs : list RibonMemoryRegion) (write_index read_index : nat)
  : RibonMemoryStatus * (list RibonMemoryRegion * nat) :=
  match fuel with
  | O => (RIBON_MEMORY_STATUS_OK, (rs, write_index))
  | S fuel =>
    match merge_step rs write_index read_index with
    | (RIBON_MEMORY_STATUS_OK, (rs', w')) => merge_loop fuel rs' w' (S read_index)
    | stop => stop
    end
  end.

(** On an error the count is left as the insertion made it. *)
Definition ribon_memory_map_merge_adjacent (d : RibonMutableMemoryMap)
  : RibonMemoryStatus * RibonMutableMemoryMap :=
  match merge_loop (region_count d) (regions d) 0 0 with
  | (RIBON_MEMORY_STATUS_OK, (rs, w)) => (RIBON_MEMORY_STATUS_OK, mkMap rs w (capacity d))
  | (st, (rs, _)) => (st, mkMap rs (region_count d) (capacity d))
  end.

Fixpoint insert_all (source : list RibonMemoryRegion) (d : RibonMutableMemoryMap)
  : RibonMemoryStatus * RibonMutableMemoryMap :=
  match source with
  | [] => (RIBON_MEMORY_STATUS_OK, d)
  | region :: rest =>
    if negb (ribon_memory_region_is_valid region) then (RIBON_MEMORY_STATUS_BAD_ARGUMENT, d)
    else match ribon_memory_region_insert_sorted d region with
         | (RIBON_MEMORY_STATUS_OK, d') => insert_all rest d'
         | stop => stop
         end
  end.

(** The source map is the list of its [region_count] regions; source and
    destination arrays are distinct. *)
Definition ribon_memory_map_normalize (source : option (list RibonMemoryRegion))
    (destination : option RibonMutableMemoryMap)
  : RibonMemoryStatus * option RibonMutableMemoryMap :=
  match source, destination with
  | Some src, Some d =>
    match insert_all src (mkMap (regions d) 0 (capacity d)) with
    | (RIBON_MEMORY_STATUS_OK, d') =>
      let '(st, d'') := ribon_memory_map_merge_adjacent d' in (st, Some d'')
    | (st, d') => (st, Some d')
    end
  | _, _ => (RIBON_MEMORY_STATUS_BAD_ARGUMENT, destination)
  end.

Fixpoint usable_bytes_loop (rs : list RibonMemoryRegion) (total : Z) : Z :=
  match rs with
  | [] => total
  | region :: rest =>
    if kind region !=? RIBON_MEMORY_REGION_USABLE then usable_bytes_loop rest total
    else if ribon_u64_add_overflows total (length region) then UINT64_MAX
    else usable_bytes_loop rest (u64 (total + length region))
  end.

Definition ribon_memory_map_usable_bytes (memory_map : option (list RibonMemoryRegion)) : Z :=
  match memory_map with
  | None => 0
  | Some rs => usable_bytes_loop rs 0
  end.

(** *** Reference definitions on lists *)

(** The exclusive end, as an unbounded integer. *)
Definition rend (r : RibonMemoryRegion) : Z := base r + length r.

Definition valid (r : RibonMemoryRegion) : Prop :=
  0 <= base r /\ 0 < length r /\ rend r <= UINT64_MAX.

(** The fields have their C widths. *)
Definition typed (r : RibonMemoryRegion) : Prop := word 64 (base r) /\ word 64 (length r).

(** Address [a] is in a region of the list of that kind and attributes. *)
Definition covers (l : list RibonMemoryRegion) (a k t : Z) : Prop :=
  exists r, In r l /\ base r <= a < rend r /\ kind r = k /\ attributes r = t.

Definition separate (x y : RibonMemoryRegion) : Prop := rend x <= base y \/ rend y <= base x.
Definition before (x y : RibonMemoryRegion) : Prop := rend x <= base y.
Definition base_le (x y : RibonMemoryRegion) : Prop := base x <= base y.

Fixpoint prefix_len (b : Z) (l : list RibonMemoryRegion) : nat :=
  match l with
  | [] => 0
  | x :: l' => if base x <=? b then S (prefix_len b l') else 0
  end.

Definition insert_list (r : RibonMemoryRegion) (l : list RibonMemoryRegion)
  : list RibonMemoryRegion :=
  let i := prefix_len (base r) l in take i l ++ r :: drop i l.

(** [out] is the merged output so far, last region first. *)
Definition merge_list_step (out : list RibonMemoryRegion) (current : RibonMemoryRegion)
  : option (list RibonMemoryRegion) :=
  match out with
  | [] => Some [current]
  | previous :: out' =>
    if base current <? rend previous then None
    else if (base current =? rend previous) && ribon_memory_region_same_class previous current
    then Some (mkRegion (base previous) (length previous + length current)
                        (kind previous) (attributes previous) :: out')
    else Some (current :: out)
  end.

Fixpoint merge_list (out rest : list RibonMemoryRegion) : option (list RibonMemoryRegion) :=
  match rest with
  | [] => Some out
  | current :: rest' =>
    match merge_list_step out current with
    | Some out' => merge_list out' rest'
    | None => None
    end
  end.

Lemma add_overflows_false a b : ribon_u64_add_overflows a b = false <-> a + b <= UINT64_MAX.
Proof. unfold ribon_u64_add_overflows. rewrite Z.ltb_ge. lia. Qed.

Lemma region_end_valid r : valid r -> ribon_memory_region_end r = (RIBON_MEMORY_STATUS_OK, Some (rend r)).
Proof.
  unfold valid, ribon_memory_region_end. intros (? & ? & ?).
  destruct (Z.eqb_spec (length r) 0); [lia|]. unfold rend in *.
  rewrite (proj2 (add_overflows_false _ _)) by lia.
  rewrite wrap_small by (apply word64; lia). reflexivity.
Qed.

Lemma region_is_valid_true r : typed r -> ribon_memory_region_is_valid r = true <-> valid r.
Proof.
  intros [Hb Hl]. rewrite word64 in Hb, Hl. unfold ribon_memory_region_is_valid.
  destruct (Z.eqb_spec (length r) 0) as [E|E]; [unfold valid; split; [done|lia]|].
  split.
  - unfold ribon_memory_region_end. rewrite (proj2 (Z.eqb_neq _ _) E).
    destruct (ribon_u64_add_overflows _ _) eqn:Ho; [done|].
    apply add_overflows_false in Ho. unfold valid, rend. lia.
  - intros Hv. rewrite region_end_valid by done. reflexivity.
Qed.

(** *** The array insertion is the list insertion *)

Lemma region_at_lookup rs i : (i < List.length rs)%nat -> rs !! i = Some (region_at rs i).
Proof.
  intros Hi. unfold region_at. rewrite nth_lookup.
  destruct (lookup_lt_is_Some_2 rs i Hi) as [x ->]. reflexivity.
Qed.

Lemma insert_index_spec fuel rs count index b :
  (count <= List.length rs)%nat -> (index <= count <= index + fuel)%nat ->
  insert_index fuel rs count index b = (index + prefix_len b (drop index (take count rs)))%nat.
Proof.
  intros Hc. revert index. induction fuel as [|fuel IH]; intros index Hi; simpl.
  - rewrite drop_ge by (rewrite length_take; lia). simpl. lia.
  - destruct (Nat.ltb_spec index count); simpl.
    + rewrite (drop_S _ (region_at rs index)).
      2:{ rewrite lookup_take_lt by lia. apply region_at_lookup. lia. }
      simpl. destruct (_ <=? b); [rewrite IH by lia|]; lia.
    + rewrite drop_ge by (rewrite length_take; lia). simpl. lia.
Qed.

Lemma length_shift_up fuel rs cursor index :
  List.length (shift_up fuel rs cursor index) = List.length rs.
Proof.
  revert rs cursor. induction fuel as [|fuel IH]; intros rs cursor; simpl; [done|].
  destruct (_ <? _)%nat; [rewrite IH, length_insert|]; done.
Qed.

Lemma lookup_shift_up fuel rs cursor index k :
  (cursor < List.length rs)%nat -> (index <= cursor <= index + fuel)%nat ->
  shift_up fuel rs cursor index !! k =
  if decide (index < k <= cursor)%nat then rs !! (k - 1)%nat else rs !! k.
Proof.
  revert rs cursor. induction fuel as [|fuel IH]; intros rs cursor Hc Hi; simpl.
  { rewrite decide_False by lia. done. }
  destruct (Nat.ltb_spec index cursor); [|rewrite decide_False by lia; done].
  rewrite IH by (rewrite ?length_insert; lia).
  destruct (decide (k = cursor)) as [->|].
  - rewrite decide_False, decide_True, list_lookup_insert_eq by lia.
    symmetry. apply region_at_lookup. lia.
  - repeat case_decide; try lia; rewrite list_lookup_insert_ne by lia; done.
Qed.

Lemma prefix_len_le b l : (prefix_len b l <= List.length l)%nat.
Proof. induction l as [|x l IH]; simpl; [done|]. destruct (_ <=? _); lia. Qed.

Lemma insert_sorted_list d r :
  (region_count d < capacity d)%nat -> List.length (regions d) = capacity d ->
  exists d', ribon_memory_region_insert_sorted d r = (RIBON_MEMORY_STATUS_OK, d') /\
    region_count d' = S (region_count d) /\ capacity d' = capacity d /\
    List.length (regions d') = capacity d /\
    take (region_count d') (regions d') = insert_list r (take (region_count d) (regions d)).
Proof.
  intros Hlt Hlen. unfold ribon_memory_region_insert_sorted.
  destruct (Nat.leb_spec (capacity d) (region_count d)); [lia|].
  eexists. split; [reflexivity|]. simpl. rewrite insert_index_spec by lia. rewrite drop_0. simpl.
  unfold insert_list. set (l := take _ (regions d)). set (i := prefix_len _ _).
  assert (Hl : List.length l = region_count d) by (unfold l; rewrite length_take; lia).
  assert (Hi : (i <= region_count d)%nat) by (rewrite <- Hl; apply prefix_len_le).
  rewrite length_insert, length_shift_up. repeat split; [done|].
  apply list_eq. intros k.
  destruct (decide (k < S (region_count d))%nat).
  2:{ rewrite lookup_take_ge by lia. symmetry. apply lookup_ge_None.
      rewrite length_app, length_take. simpl. rewrite length_drop. lia. }
  rewrite lookup_take_lt by lia.
  destruct (decide (k = i)) as [->|].
  { rewrite list_lookup_insert_eq by (rewrite length_shift_up; lia).
    rewrite lookup_app_r; rewrite length_take; [|lia].
    replace (i - i `min` List.length l)%nat with 0%nat by lia. reflexivity. }
  rewrite list_lookup_insert_ne, lookup_shift_up by lia. case_decide.
  - rewrite lookup_app_r; rewrite length_take; [|lia].
    destruct (k - i `min` List.length l)%nat as [|m] eqn:Hm; [lia|]. simpl.
    rewrite lookup_drop. unfold l. rewrite lookup_take_lt by lia. f_equal. lia.
  - rewrite lookup_app_l by (rewrite length_take; lia).
    unfold l. rewrite !lookup_take_lt by lia. done.
Qed.

Lemma insert_all_list src d :
  Forall valid src -> Forall typed src -> List.length (regions d) = capacity d ->
  (region_count d + List.length src <= capacity d)%nat ->
  exists d', insert_all src d = (RIBON_MEMORY_STATUS_OK, d') /\
    region_count d' = (region_count d + List.length src)%nat /\ capacity d' = capacity d /\
    List.length (regions d') = capacity d /\
    take (region_count d') (regions d') =
    fold_left (fun l r => insert_list r l) src (take (region_count d) (regions d)).
Proof.
  intros Hv Ht. revert d. induction Hv as [|r src Hr Hv IH]; intros d Hlen Hcap; simpl in *.
  { exists d. split_and!; auto with lia. }
  inversion Ht as [|? ? Htr Htl]; subst.
  rewrite (proj2 (region_is_valid_true r Htr) Hr). simpl.
  destruct (insert_sorted_list d r) as (d1 & -> & Hc1 & Hcap1 & Hl1 & Ht1); [lia|done|].
  destruct (IH Htl d1) as (d2 & -> & Hc2 & Hcap2 & Hl2 & Ht2); [congruence|lia|].
  exists d2. rewrite Ht2, Ht1. split_and!; try done; lia.
Qed.

(** *** The array merge is the list merge *)

Lemma take_rev_head (rs : list RibonMemoryRegion) w p out :
  take w rs = rev (p :: out) -> (w <= List.length rs)%nat ->
  (0 < w)%nat /\ region_at rs (w - 1) = p /\ take (w - 1) rs = rev out.
Proof.
  simpl. intros Ht Hw.
  assert (Hlen : w = S (List.length out)).
  { apply (f_equal List.length) in Ht. rewrite length_take, length_app, length_rev in Ht.
    simpl in Ht. lia. }
  subst w. replace (S (List.length out) - 1)%nat with (List.length out) by lia.
  split; [lia|]. split.
  - assert (Hp : rs !! List.length out = Some p).
    { rewrite <- (lookup_take_lt _ (S (List.length out))) by lia. rewrite Ht.
      rewrite lookup_app_r; rewrite length_rev; [|lia]. rewrite Nat.sub_diag. done. }
    unfold region_at. rewrite nth_lookup, Hp. done.
  - apply (f_equal (take (List.length out))) in Ht.
    rewrite take_take, Nat.min_l in Ht by lia. rewrite Ht.
    rewrite take_app_le by (rewrite length_rev; lia). apply take_ge. rewrite length_rev. lia.
Qed.

Lemma take_insert_at (rs : list RibonMemoryRegion) w x :
  (w < List.length rs)%nat -> take (S w) (<[w := x]> rs) = take w rs ++ [x].
Proof.
  intros Hw. rewrite (take_S_r _ _ x) by (apply list_lookup_insert_eq; lia).
  rewrite take_insert_ge by lia. done.
Qed.

Lemma merge_step_list rs w r out :
  (w <= r < List.length rs)%nat -> take w rs = rev out -> valid (region_at rs r) ->
  Forall valid out ->
  match merge_list_step out (region_at rs r), merge_step rs w r with
  | Some out', (st, (rs', w')) =>
    st = RIBON_MEMORY_STATUS_OK /\ take w' rs' = rev out' /\ (w' <= S r)%nat /\
    Forall valid out' /\ drop (S r) rs' = drop (S r) rs /\ List.length rs' = List.length rs
  | None, (st, _) => st = RIBON_MEMORY_STATUS_OVERLAP
  end.
Proof.
  intros Hr Ht Hv Hout. unfold merge_step. rewrite (region_end_valid _ Hv).
  destruct out as [|p out]; simpl merge_list_step.
  - assert (w = 0%nat) as ->.
    { apply (f_equal List.length) in Ht. rewrite length_take in Ht. simpl in Ht. lia. }
    simpl. rewrite take_insert_at, length_insert, drop_insert_lt by lia.
    split_and!; auto. lia.
  - destruct (take_rev_head rs w p out Ht) as (Hw & Hp & Htl); [lia|].
    inversion Hout as [|? ? Hvp Hvo]; subst.
    destruct (Nat.ltb_spec 0 w); [|lia]. simpl.
    rewrite (region_end_valid _ Hvp).
    destruct (Z.ltb_spec (base (region_at rs r)) (rend (region_at rs (w - 1)))); [done|].
    destruct (Z.eqb_spec (base (region_at rs r)) (rend (region_at rs (w - 1)))) as [E|E];
      [destruct (ribon_memory_region_same_class _ _)|]; simpl.
    + unfold valid, rend in *. rewrite wrap_small by (apply word64; lia).
      rewrite length_insert, drop_insert_lt by lia.
      split_and!; try done; [|lia|constructor; [unfold valid, rend; simpl; lia|done]].
      replace w with (S (w - 1)) at 1 by lia. rewrite take_insert_at, Htl by lia. done.
    + rewrite take_insert_at, length_insert, drop_insert_lt, Ht by lia.
      split_and!; auto. lia.
    + rewrite take_insert_at, length_insert, drop_insert_lt, Ht by lia.
      split_and!; auto. lia.
Qed.

Lemma merge_loop_list fuel rs w r out :
  (w <= r)%nat -> (r + fuel <= List.length rs)%nat -> take w rs = rev out ->
  Forall valid out -> Forall valid (take fuel (drop r rs)) ->
  match merge_list out (take fuel (drop r rs)), merge_loop fuel rs w r with
  | Some out', (st, (rs', w')) =>
    st = RIBON_MEMORY_STATUS_OK /\ take w' rs' = rev out' /\ List.length rs' = List.length rs
  | None, (st, _) => st = RIBON_MEMORY_STATUS_OVERLAP
  end.
Proof.
  revert rs w r out. induction fuel as [|fuel IH]; intros rs w r out Hw Hl Ht Hout Hv; [done|].
  rewrite (drop_S rs (region_at rs r)) in Hv |- * by (apply region_at_lookup; lia).
  simpl in Hv. inversion Hv as [|? ? Hvr Hvt]; subst. simpl.
  pose proof (merge_step_list rs w r out ltac:(lia) Ht Hvr Hout) as Hs.
  destruct (merge_list_step out _) as [out'|], (merge_step rs w r) as [st [rs' w']].
  - destruct Hs as (-> & Ht' & Hw' & Hout' & Hd & Hlen).
    rewrite <- Hd in Hvt |- *. rewrite <- Hlen. apply IH; try done; lia.
  - subst. done.
Qed.

(** *** What the list-level passes compute *)

(** Neighbours of a normal map: in order, and not two halves of one region. *)
Definition apart (x y : RibonMemoryRegion) : Prop :=
  before x y /\ ~ (rend x = base y /\ ribon_memory_region_same_class x y = true).

Lemma insert_list_cons r x l :
  insert_list r (x :: l) = if base x <=? base r then x :: insert_list r l else r :: x :: l.
Proof. unfold insert_list. simpl. destruct (_ <=? _); reflexivity. Qed.

Lemma insert_list_perm r l : Permutation (insert_list r l) (r :: l).
Proof.
  unfold insert_list. rewrite <- Permutation_middle. by rewrite take_drop.
Qed.

Lemma insert_list_sorted r l :
  StronglySorted base_le l -> StronglySorted base_le (insert_list r l).
Proof.
  induction 1 as [|x l Hs IH Hx]; [repeat constructor|].
  rewrite insert_list_cons. destruct (Z.leb_spec (base x) (base r)).
  - constructor; [done|]. rewrite insert_list_perm. by constructor.
  - repeat constructor; try done; [unfold base_le; lia|].
    eapply Forall_impl; [exact Hx|]. unfold base_le. lia.
Qed.

Lemma insert_fold src l :
  Permutation (fold_left (fun l r => insert_list r l) src l) (src ++ l) /\
  (StronglySorted base_le l ->
   StronglySorted base_le (fold_left (fun l r => insert_list r l) src l)).
Proof.
  revert l. induction src as [|r src IH]; intros l; [done|]. simpl.
  destruct (IH (insert_list r l)) as [Hp Hs]. split.
  - rewrite Hp, insert_list_perm. symmetry. apply Permutation_middle.
  - intros Hl. by apply Hs, insert_list_sorted.
Qed.

Lemma covers_perm l l' a k t : Permutation l l' -> covers l a k t <-> covers l' a k t.
Proof.
  intros Hp. unfold covers. split; intros (r & Hin & H); exists r; split; auto;
    [eapply Permutation_in; eauto|eapply Permutation_in; [symmetry|]; eauto].
Qed.

Lemma covers_cons x l a k t :
  covers (x :: l) a k t <->
  (base x <= a < rend x /\ kind x = k /\ attributes x = t) \/ covers l a k t.
Proof.
  unfold covers. simpl. split.
  - intros (r & [->|Hin] & H); [by left|right; eauto].
  - intros [H|(r & Hin & H)]; [exists x; auto|exists r; auto].
Qed.

Lemma covers_app l l' a k t : covers (l ++ l') a k t <-> covers l a k t \/ covers l' a k t.
Proof.
  induction l as [|x l IH]; simpl; [|rewrite !covers_cons; tauto].
  split; [by right|]. intros [(? & [] & _)|H]. done.
Qed.

Lemma merge_list_step_covers out c out' a k t :
  Forall valid out -> valid c -> merge_list_step out c = Some out' ->
  covers out' a k t <-> covers (c :: out) a k t.
Proof.
  intros Hv Hc. destruct out as [|p out]; simpl; [by intros [= <-]|].
  inversion Hv as [|? ? Hp _]; subst. unfold valid in *.
  destruct (Z.ltb_spec (base c) (rend p)); [done|].
  destruct (_ && _) eqn:E; [|by intros [= <-]]. intros [= <-].
  unfold ribon_memory_region_same_class in E. bool_to_prop.
  rewrite !covers_cons. unfold rend in *. simpl. intuition (try lia).
Qed.

Lemma merge_list_step_apart out c out' :
  Forall valid out -> valid c -> Sorted (flip apart) out -> merge_list_step out c = Some out' ->
  Sorted (flip apart) out' /\ Forall valid out'.
Proof.
  intros Hv Hc Hs. destruct out as [|p out]; simpl.
  { intros [= <-]. split; [by repeat constructor|]. by constructor. }
  inversion Hv as [|? ? Hp Hvo]; inversion Hs as [|? ? Hso Hhd]; subst.
  destruct (Z.ltb_spec (base c) (rend p)); [done|].
  destruct (_ && _) eqn:E; intros [= <-]; [|split; [|by rewrite !Forall_cons]].
  - split; [|constructor; [unfold valid, rend in *; bool_to_prop; simpl in *; lia|done]].
    constructor; [done|]. inversion Hhd as [|q o Hq]; subst; constructor. exact Hq.
  - constructor; [done|]. constructor. unfold flip, apart, before. split; [lia|].
    intros [Heq Hcl]. rewrite Hcl, andb_true_r in E. bool_to_prop. lia.
Qed.

Lemma merge_list_spec out rest out' :
  Forall valid out -> Forall valid rest -> Sorted (flip apart) out ->
  merge_list out rest = Some out' ->
  Sorted (flip apart) out' /\ Forall valid out' /\
  (forall a k t, covers out' a k t <-> covers (rest ++ out) a k t).
Proof.
  intros Hv Hr. revert out Hv. induction Hr as [|c rest Hc Hr IH]; intros out Hv Hs; simpl.
  { by intros [= <-]. }
  destruct (merge_list_step out c) as [o|] eqn:E; [|done]. intros Hm.
  destruct (merge_list_step_apart out c o Hv Hc Hs E) as [Hso Hvo].
  destruct (IH o Hvo Hso Hm) as (? & ? & Hcov). split_and!; [done..|].
  intros a k t. rewrite Hcov.
  pose proof (merge_list_step_covers out c o a k t Hv Hc E) as Hstep.
  rewrite (covers_perm (c :: rest ++ out) (rest ++ c :: out)) by apply Permutation_middle.
  rewrite !covers_app. tauto.
Qed.

(** The regions follow one another from address [e] on. *)
Fixpoint chained (e : Z) (l : list RibonMemoryRegion) : Prop :=
  match l with
  | [] => True
  | c :: l' => e <= base c /\ chained (rend c) l'
  end.

Definition out_end (out : list RibonMemoryRegion) : Z :=
  match out with [] => 0 | p :: _ => rend p end.

Lemma merge_list_chained out rest :
  Forall valid rest -> is_Some (merge_list out rest) <-> chained (out_end out) rest.
Proof.
  intros Hr. revert out. induction Hr as [|c rest Hc Hr IH]; intros out; simpl; [by split|].
  destruct out as [|p out]; simpl.
  { rewrite IH. unfold valid in Hc. simpl. intuition lia. }
  destruct (Z.ltb_spec (base c) (rend p)).
  { split; [by intros [? ?]|lia]. }
  destruct (_ && _) eqn:E; rewrite IH; simpl; [|intuition].
  bool_to_prop. unfold rend in *. simpl in *.
  replace (base p + (length p + length c)) with (base c + length c) by lia. intuition.
Qed.

Lemma sorted_chained e l :
  Forall valid l -> StronglySorted base_le l -> Forall (fun c => e <= base c) l ->
  chained e l <-> ForallOrdPairs separate l.
Proof.
  intros Hv Hs. revert e. induction Hs as [|c l Hs IH Hc]; intros e He; simpl.
  { split; [constructor|done]. }
  inversion Hv as [|? ? Hvc Hvl]; inversion He as [|? ? Hec Hel]; subst.
  assert (Hafter : chained (rend c) l -> Forall (fun x => rend c <= base x) l).
  { destruct l as [|y l]; [constructor|]. simpl. intros [Hy _].
    inversion Hs; subst. constructor; [done|].
    eapply Forall_impl; [eassumption|]. unfold base_le. intros; lia. }
  split.
  - intros [_ Hch]. constructor.
    + eapply Forall_impl; [apply (Hafter Hch)|]. intros x Hx. by left.
    + apply (IH Hvl (rend c)); auto.
  - intros Hp. inversion Hp as [|? ? Hsep Hpl]; subst. split; [done|].
    assert (Hge : Forall (fun x => rend c <= base x) l).
    { rewrite Forall_forall in Hsep, Hc, Hvl |- *. intros x Hx.
      specialize (Hsep x Hx). specialize (Hc x Hx). specialize (Hvl x Hx).
      unfold separate, base_le, valid, rend in *. lia. }
    by apply (IH Hvl (rend c) Hge).
Qed.

Lemma separate_perm l l' :
  Permutation l l' -> ForallOrdPairs separate l -> ForallOrdPairs separate l'.
Proof.
  induction 1 as [|x l l' Hp IH|x y l|l1 l2 l3 H1 IH1 H2 IH2]; intros Hf; auto.
  - inversion Hf; subst. constructor; [by rewrite <- Hp|auto].
  - inversion Hf as [|? ? Hy Hf']; subst. inversion Hf'; inversion Hy; subst.
    constructor; [|by constructor]. constructor; [unfold separate in *; tauto|done].
Qed.

Lemma insert_all_ok src d d' :
  Forall typed src -> List.length (regions d) = capacity d ->
  insert_all src d = (RIBON_MEMORY_STATUS_OK, d') ->
  Forall valid src /\ (src = [] \/ region_count d + List.length src <= capacity d)%nat.
Proof.
  intros Ht. revert d. induction Ht as [|r src Hr Ht IH]; intros d Hlen H; [by auto|].
  simpl in H. destruct (ribon_memory_region_is_valid r) eqn:Hv; [|done]. simpl in H.
  apply region_is_valid_true in Hv; [|done].
  destruct (Nat.ltb_spec (region_count d) (capacity d)).
  - destruct (insert_sorted_list d r) as (d1 & Hd1 & Hc1 & Hcap1 & Hl1 & _); [done..|].
    rewrite Hd1 in H. destruct (IH d1 ltac:(congruence) H) as [Hvs Hroom].
    split; [by constructor|]. right. destruct Hroom as [->|]; simpl; lia.
  - unfold ribon_memory_region_insert_sorted in H.
    destruct (Nat.leb_spec (capacity d) (region_count d)); [done|lia].
Qed.

(** The normaliser computes the list-level merge of the sorted source. *)
Lemma normalize_list src d :
  Forall valid src -> Forall typed src -> List.length (regions d) = capacity d ->
  (List.length src <= capacity d)%nat ->
  exists sorted, Permutation sorted src /\ StronglySorted base_le sorted /\
  match merge_list [] sorted, ribon_memory_map_normalize (Some src) (Some d) with
  | Some out, (st, Some d') =>
    st = RIBON_MEMORY_STATUS_OK /\ take (region_count d') (regions d') = rev out
  | None, (st, _) => st = RIBON_MEMORY_STATUS_OVERLAP
  | _, _ => False
  end.
Proof.
  intros Hv Ht Hlen Hcap. unfold ribon_memory_map_normalize.
  destruct (insert_all_list src (mkMap (regions d) 0 (capacity d)))
    as (d1 & -> & Hc1 & _ & Hl1 & Ht1); [done..|].
  simpl in *. destruct (insert_fold src []) as [Hp Hs]. rewrite take_0 in Ht1.
  rewrite app_nil_r in Hp. rewrite <- Ht1 in Hp, Hs.
  exists (take (region_count d1) (regions d1)). split_and!; [done|apply Hs; constructor|].
  pose proof (merge_loop_list (region_count d1) (regions d1) 0 0 []) as Hm.
  rewrite drop_0 in Hm. specialize (Hm ltac:(lia) ltac:(lia) eq_refl ltac:(constructor)).
  rewrite Hp in Hm at 1. specialize (Hm Hv). unfold ribon_memory_map_merge_adjacent.
  destruct (merge_list [] _), (merge_loop _ _ 0 0) as [st [rs w]].
  - destruct Hm as (-> & Hm & _). simpl. done.
  - subst st. done.
Qed.

Lemma sorted_snoc {A} (R : A -> A -> Prop) l x y :
  Sorted R (l ++ [x]) -> R x y -> Sorted R ((l ++ [x]) ++ [y]).
Proof.
  intros Hs Hxy. induction l as [|z l IH]; simpl in *; [by repeat constructor|].
  inversion Hs as [|? ? Hs' Hh]; subst. constructor; [by apply IH|].
  destruct l; simpl in *; inversion Hh; by constructor.
Qed.

Lemma sorted_rev {A} (R : A -> A -> Prop) l : Sorted (flip R) l -> Sorted R (rev l).
Proof.
  induction 1 as [|y l Hs IH Hh]; [constructor|]. simpl.
  destruct l as [|x l]; [by repeat constructor|]. inversion Hh; subst. by apply sorted_snoc.
Qed.

Lemma apart_before l : Forall valid l -> Sorted apart l -> StronglySorted before l.
Proof.
  intros Hv Hs. induction Hs as [|x l Hs IH Hh]; [constructor|].
  inversion Hv as [|? ? Hx Hvl]; subst. specialize (IH Hvl). constructor; [done|].
  destruct l as [|y l]; [constructor|]. inversion Hh as [|? ? [Hxy _]]; subst.
  constructor; [done|]. inversion IH; subst. inversion Hvl as [|? ? Hy _]; subst.
  eapply Forall_impl; [eassumption|]. unfold before, valid, rend in *. intros; lia.
Qed.

Definition usable_length (r : RibonMemoryRegion) : Z :=
  if kind r =? RIBON_MEMORY_REGION_USABLE then length r else 0.

Definition usable_sum (rs : list RibonMemoryRegion) : Z :=
  fold_right (fun r n => usable_length r + n) 0 rs.

Lemma usable_sum_nonneg rs : Forall typed rs -> 0 <= usable_sum rs.
Proof.
  induction 1 as [|r rs [_ Hl] _ IH]; simpl; [done|]. rewrite word64 in Hl.
  unfold usable_length. destruct (_ =? _); lia.
Qed.

Lemma usable_bytes_loop_sum rs total :
  Forall typed rs -> word 64 total ->
  usable_bytes_loop rs total = Z.min UINT64_MAX (total + usable_sum rs).
Proof.
  intros Ht. revert total. induction Ht as [|r rs Hr Ht IH]; intros total Hw;
    pose proof (proj1 (word64 _) Hw); simpl; [lia|].
  pose proof (usable_sum_nonneg rs Ht). destruct Hr as [_ Hl]. rewrite word64 in Hl.
  unfold usable_length. destruct (Z.eqb_spec (kind r) RIBON_MEMORY_REGION_USABLE); simpl.
  - destruct (ribon_u64_add_overflows total (length r)) eqn:E.
    + unfold ribon_u64_add_overflows in E. bool_to_prop. lia.
    + apply add_overflows_false in E. rewrite wrap_small by (apply word64; lia).
      rewrite IH by (apply word64; lia). f_equal. lia.
  - by rewrite IH, Z.add_0_l.
Qed.

End MemoryMap.

(** ** Properties *)

(** The blocks of any run of requests lie inside the arena's storage, in order
    and without overlap, and the arena stays well formed; a request that fails
    leaves it as it was. *)
Theorem arena_blocks_disjoint a requests :
  Arena.wf a -> Forall (fun r => word 64 (fst r) /\ word 64 (snd r)) requests ->
  let '(a', blocks) := Arena.allocate_all a requests in
  Arena.wf a' /\
  (forall p n, In (p, n) blocks ->
     Arena.base a + Arena.used a <= p /\ p + n <= Arena.base a + Arena.capacity a) /\
  (forall i j p n q m, (i < j)%nat -> blocks !! i = Some (p, n) -> blocks !! j = Some (q, m) ->
     p + n <= q).
Proof.
  intros Hwf Hr. pose proof (Arena.allocate_all_laid_out a requests Hwf Hr) as Hl.
  pose proof (Arena.allocate_all_sizes a requests Hr) as Hpos.
  destruct (Arena.allocate_all a requests) as [a' blocks]. simpl in Hpos.
  destruct Hl as (Hwf' & Hb & Hc & Hl). split_and!; [done| |].
  - intros p n Hin. destruct (Arena.laid_out_bounds _ _ _ p n Hpos Hl Hin).
    destruct Hwf' as (_ & _ & _ & _ & Hv). apply Arena.range_valid_spec in Hv. lia.
  - intros i j p n q m. by apply Arena.laid_out_ordered with (1 := Hpos) (2 := Hl).
Qed.

Lemma arena_blocks_disjoint_witness :
  Arena.allocate_all (Arena.mkArena 4100 64 0 0) [(8, 16); (100, 1); (4, 8)] =
    (Arena.mkArena 4100 64 24 24, [(4112, 8); (4120, 4)]) /\
  Arena.wf (Arena.mkArena 4100 64 24 24).
Proof.
  assert (E : Arena.allocate_all (Arena.mkArena 4100 64 0 0) [(8, 16); (100, 1); (4, 8)] =
    (Arena.mkArena 4100 64 24 24, [(4112, 8); (4120, 4)])) by (vm_compute; reflexivity).
  split; [exact E|].
  pose proof (arena_blocks_disjoint (Arena.mkArena 4100 64 0 0) [(8, 16); (100, 1); (4, 8)]) as H.
  rewrite E in H. apply H.
  - repeat split; vm_compute; congruence.
  - repeat constructor; simpl; lia.
Defined.

Import MemoryMap.

(** C39: A successful normalisation leaves valid regions in address order, no two
    overlapping and no two neighbours that could be merged, and classifies every
    address exactly as the source map did. *)
Theorem memory_map_normalize_sound src d d' :
  Forall typed src -> List.length (regions d) = capacity d ->
  ribon_memory_map_normalize (Some src) (Some d) = (RIBON_MEMORY_STATUS_OK, Some d') ->
  let l := take (region_count d') (regions d') in
  Forall valid l /\ StronglySorted before l /\ Sorted apart l /\
  (forall a k t, covers l a k t <-> covers src a k t).
Proof.
  intros Ht Hlen Hok l.
  assert (Hin : Forall valid src /\ (List.length src <= capacity d)%nat).
  { unfold ribon_memory_map_normalize in Hok.
    destruct (insert_all src _) as [st d1] eqn:Hi. destruct st; try done.
    apply insert_all_ok in Hi as [Hv Hroom]; [|done..]. split; [done|].
    destruct Hroom as [->|]; simpl in *; lia. }
  destruct Hin as [Hv Hcap].
  destruct (normalize_list src d Hv Ht Hlen Hcap) as (sorted & Hp & _ & Hm).
  rewrite Hok in Hm. destruct (merge_list [] sorted) as [out|] eqn:Hmerge; [|done].
  destruct Hm as [_ Hm]. unfold l. rewrite Hm.
  destruct (merge_list_spec [] sorted out) as (Hs & Hvo & Hcov);
    [constructor|by rewrite Hp|constructor|done|].
  assert (Hvr : Forall valid (rev out)) by (rewrite <- Permutation_rev; done).
  split_and!; [done|apply apart_before; [done|by apply sorted_rev]|by apply sorted_rev|].
  intros a k t. rewrite <- (covers_perm _ _ _ _ _ (Permutation_rev out)), Hcov, app_nil_r.
  by apply covers_perm.
Qed.

Lemma memory_map_normalize_sound_witness :
  let src := [mkRegion 4096 4096 1 3; mkRegion 0 4096 1 3; mkRegion 8192 16 2 3] in
  let d := mkMap (replicate 3 zero_region) 0 3 in
  let d' := mkMap [mkRegion 0 8192 1 3; mkRegion 8192 16 2 3; mkRegion 8192 16 2 3] 2 3 in
  ribon_memory_map_normalize (Some src) (Some d) = (RIBON_MEMORY_STATUS_OK, Some d') /\
  Sorted apart (take 2 (regions d')).
Proof.
  intros src d d'. split; [vm_compute; reflexivity|].
  apply (memory_map_normalize_sound src d d').
  - repeat constructor; simpl; lia.
  - reflexivity.
  - vm_compute. reflexivity.
Defined.

(** With room for every region and only valid regions, normalisation succeeds
    exactly when no two source regions overlap, and reports OVERLAP otherwise. *)
Theorem memory_map_normalize_complete src d :
  Forall typed src -> Forall valid src -> List.length (regions d) = capacity d ->
  (List.length src <= capacity d)%nat ->
  let st := fst (ribon_memory_map_normalize (Some src) (Some d)) in
  (st = RIBON_MEMORY_STATUS_OK <-> ForallOrdPairs separate src) /\
  (st = RIBON_MEMORY_STATUS_OVERLAP <-> ~ ForallOrdPairs separate src).
Proof.
  intros Ht Hv Hlen Hcap st.
  destruct (normalize_list src d Hv Ht Hlen Hcap) as (sorted & Hp & Hs & Hm).
  assert (Hvs : Forall valid sorted) by (by rewrite Hp).
  assert (Hiff : is_Some (merge_list [] sorted) <-> ForallOrdPairs separate src).
  { rewrite merge_list_chained by done. simpl. rewrite sorted_chained; [|done..|].
    - split; apply separate_perm; [done|by symmetry].
    - eapply Forall_impl; [exact Hvs|]. unfold valid. tauto. }
  rewrite <- Hiff. unfold st.
  destruct (merge_list [] sorted) as [out|],
    (ribon_memory_map_normalize (Some src) (Some d)) as [st' [d'|]]; try done; simpl in *.
  - destruct Hm as [-> _]. split; split; try done; intros []; eauto.
  - subst. split; split; try done; by intros [? ?].
  - subst. split; split; try done; by intros [? ?].
Qed.

Lemma memory_map_normalize_complete_witness :
  let src := [mkRegion 4096 4096 1 3; mkRegion 0 4097 1 3] in
  let d := mkMap (replicate 3 zero_region) 0 3 in
  fst (ribon_memory_map_normalize (Some src) (Some d)) = RIBON_MEMORY_STATUS_OVERLAP /\
  ~ ForallOrdPairs separate src.
Proof.
  intros src d. split; [vm_compute; reflexivity|].
  apply (memory_map_normalize_complete src d).
  - repeat constructor; simpl; lia.
  - unfold src. rewrite !Forall_cons. unfold valid, rend, UINT64_MAX. simpl.
    split_and!; try lia. constructor.
  - reflexivity.
  - simpl. lia.
  - vm_compute. reflexivity.
Defined.

(** The usable byte count is the sum over usable regions, saturated at the
    largest 64-bit value. *)
Theorem memory_map_usable_bytes_saturates rs :
  Forall typed rs ->
  ribon_memory_map_usable_bytes (Some rs) = Z.min UINT64_MAX (usable_sum rs).
Proof.
  intros Ht. simpl. rewrite usable_bytes_loop_sum by (done || (apply word64; unfold UINT64_MAX; lia)).
  reflexivity.
Qed.

Lemma memory_map_usable_bytes_saturates_witness :
  ribon_memory_map_usable_bytes (Some [mkRegion 0 16 1 0; mkRegion 16 8 2 0; mkRegion 32 4 1 0]) = 20.
Proof.
  rewrite memory_map_usable_bytes_saturates; [vm_compute; reflexivity|].
  repeat constructor; simpl; lia.
Defined.
