(* ===== verification/Image.v ===== *)
(** * Byte images: what a sequence of stores leaves in a cleared buffer

    Every encoder of the update and security layers clears its output buffer and
    then stores fields at fixed offsets.  [image size ws] is that buffer after
    the writes [ws]; its shape (the offset and length of each write) is concrete
    for every wire format, so that which write a load sees is decided by
    computation on the shape, whatever the field values are. *)

From S2P Require Import Prelude.
From S2P Require Import Buffer.
From S2P Require Import Wire.

Abbreviation write := (Z * bytes)%type.

Definition writes (ws : list write) (b : bytes) : bytes :=
  fold_left (fun b w => store b (fst w) (snd w)) ws b.

Definition image (size : Z) (ws : list write) : bytes := writes ws (zeros size).

Definition shape (ws : list write) : list (Z * Z) := (fun w => (fst w, len (snd w))) <$> ws.

(** Every write lies inside the buffer. *)
Definition fits (size : Z) (sh : list (Z * Z)) : bool :=
  forallb (fun w => (0 <=? fst w) && (0 <=? snd w) && (fst w + snd w <=? size)) sh.

(** The writes leave [o .. o + n) alone. *)
Definition avoids (o n : Z) (sh : list (Z * Z)) : bool :=
  forallb (fun w => (fst w + snd w <=? o) || (o + n <=? fst w)) sh.

(** Write [i] of the shape is at [o], [n] bytes long, and not overwritten. *)
Definition visible (size : Z) (sh : list (Z * Z)) (i : nat) (o n : Z) : bool :=
  fits size sh &&
  match sh !! i with
  | Some (o', n') => (o =? o') && (n =? n')
  | None => false
  end && avoids o n (drop (S i) sh).

Lemma len_writes ws b : len (writes ws b) = len b.
Proof.
  revert b. induction ws as [|w ws IH]; intros b; [done|]. simpl. by rewrite IH, len_store.
Qed.

Lemma writes_app ws ws' b : writes (ws ++ ws') b = writes ws' (writes ws b).
Proof. apply fold_left_app. Qed.

Lemma len_image size ws : 0 <= size -> len (image size ws) = size.
Proof. intros. unfold image. by rewrite len_writes, len_zeros. Qed.

#[export] Hint Rewrite len_writes : len.
#[export] Hint Rewrite len_image using lia : len.

Lemma octets_writes ws b : octets b -> Forall (fun w => octets (snd w)) ws -> octets (writes ws b).
Proof.
  intros Hb Hw. revert b Hb. induction Hw as [|w ws Hw _ IH]; intros b Hb; [done|].
  simpl. apply IH. auto with ribon.
Qed.

Lemma octets_image size ws : Forall (fun w => octets (snd w)) ws -> octets (image size ws).
Proof. intros. apply octets_writes; auto with ribon. Qed.

Lemma slice_writes_avoids ws b o n :
  0 <= o -> 0 <= n -> o + n <= len b -> fits (len b) (shape ws) = true ->
  avoids o n (shape ws) = true -> slice o n (writes ws b) = slice o n b.
Proof.
  revert b. induction ws as [|[o' s] ws IH]; intros b Ho Hn Hb Hf Ha; [done|].
  simpl in Hf, Ha. apply andb_true_iff in Hf as [Hf1 Hf], Ha as [Ha1 Ha]. bool_to_prop. simpl.
  rewrite IH; rewrite ?len_store; try done.
  apply orb_true_iff in Ha1 as [Ha1|Ha1]; bool_to_prop.
  - rewrite slice_store_after by lia. done.
  - rewrite slice_store_before by lia. done.
Qed.

Lemma visible_split size ws i o n :
  visible size (shape ws) i o n = true ->
  exists pre s post, ws = pre ++ (o, s) :: post /\ length pre = i /\ len s = n /\
    0 <= o /\ 0 <= n /\ o + n <= size /\
    fits size (shape post) = true /\ avoids o n (shape post) = true.
Proof.
  unfold visible. intros H. apply andb_true_iff in H as [H Ha], H as [Hf Hi].
  destruct (shape ws !! i) as [[o' n']|] eqn:Hl; [|done]. bool_to_prop. subst o' n'.
  unfold shape in Hl. rewrite list_lookup_fmap in Hl.
  destruct (ws !! i) as [[o' s]|] eqn:Hw; [|done]. simpl in Hl. injection Hl as -> <-.
  exists (take i ws), s, (drop (S i) ws).
  assert (Hws : ws = take i ws ++ (o, s) :: drop (S i) ws)
    by (rewrite <- drop_S by done; by rewrite take_drop).
  rewrite Hws in Hf at 1. unfold shape, fits in Hf. rewrite fmap_app, forallb_app in Hf. simpl in Hf.
  apply lookup_lt_Some in Hw. bool_to_prop. rewrite length_take.
  unfold shape in *. rewrite <- fmap_drop in Ha. split_and!; try done; lia.
Qed.

(** A write that no later one overlaps is read back. *)
Lemma image_slice size ws i o n s :
  0 <= size -> ws !! i = Some (o, s) -> visible size (shape ws) i o n = true ->
  slice o n (image size ws) = s.
Proof.
  intros Hs Hi Hv. apply visible_split in Hv as (pre & s' & post & -> & Hp & Hl & ? & ? & ? & Hf & Ha).
  rewrite lookup_app_r, Hp, Nat.sub_diag in Hi by lia. injection Hi as ->.
  unfold image. rewrite writes_app. simpl.
  rewrite slice_writes_avoids; rewrite ?len_store, ?len_writes, ?len_zeros by lia; try done.
  apply slice_store_same; rewrite ?len_writes, ?len_zeros; lia.
Qed.

(** A part that no write touches is still clear. *)
Lemma image_clear size ws o n :
  0 <= o -> 0 <= n -> o + n <= size -> fits size (shape ws) = true ->
  avoids o n (shape ws) = true -> slice o n (image size ws) = zeros n.
Proof.
  intros. unfold image. rewrite slice_writes_avoids; rewrite ?len_zeros by lia; try done.
  by apply slice_zeros.
Qed.

(** Later writes elsewhere do not change what a digest covered. *)
Lemma image_prefix size ws ws' o n :
  0 <= o -> 0 <= n -> o + n <= size -> fits size (shape ws') = true ->
  avoids o n (shape ws') = true ->
  slice o n (image size (ws ++ ws')) = slice o n (image size ws).
Proof.
  intros. unfold image. rewrite writes_app.
  apply slice_writes_avoids; rewrite ?len_writes, ?len_zeros by lia; done.
Qed.

(** *** Reading the fields of an image

    [Hsh] is the image's shape, evaluated: the length of every write is known
    even where its bytes are not. *)

Section Loads.
Context (size : Z) (ws : list write) (sh : list (Z * Z)).
Context (Hsize : 0 <= size) (Hsh : shape ws = sh).
Context (Hws : Forall (fun w => octets (snd w)) ws).

Lemma image_bytes i o n s :
  ws !! i = Some (o, s) -> visible size sh i o n = true -> slice o n (image size ws) = s.
Proof. rewrite <- Hsh. by apply image_slice. Qed.

Lemma image_zeros o n :
  0 <= o -> 0 <= n -> o + n <= size -> fits size sh = true -> avoids o n sh = true ->
  slice o n (image size ws) = zeros n.
Proof. rewrite <- Hsh. apply image_clear. Qed.

Lemma image_le i o k v :
  ws !! i = Some (o, le_bytes k v) -> visible size sh i o (Z.of_nat k) = true ->
  0 <= v < 2 ^ (8 * Z.of_nat k) ->
  le_value (slice o (Z.of_nat k) (image size ws)) = v /\
  0 <= o /\ o + Z.of_nat k <= len (image size ws).
Proof.
  intros Hi Hv Hr. rewrite len_image by done. split.
  - rewrite (image_bytes i _ _ _ Hi Hv), le_value_bytes. by apply Z.mod_small.
  - rewrite <- Hsh in Hv.
    apply visible_split in Hv as (? & ? & ? & _ & _ & _ & ? & ? & ? & _). lia.
Qed.

Lemma image_u16 i o v :
  ws !! i = Some (o, le_bytes 2 v) -> visible size sh i o 2 = true -> word 16 v ->
  load_u16 (image size ws) o = v.
Proof.
  intros Hi Hv Hr. destruct (image_le i o 2 v Hi Hv Hr) as (He & ? & ?).
  rewrite load_u16_le; [exact He|by apply octets_image|done|done].
Qed.

Lemma image_u32 i o v :
  ws !! i = Some (o, le_bytes 4 v) -> visible size sh i o 4 = true -> word 32 v ->
  load_u32 (image size ws) o = v.
Proof.
  intros Hi Hv Hr. destruct (image_le i o 4 v Hi Hv Hr) as (He & ? & ?).
  rewrite load_u32_le; [exact He|by apply octets_image|done|done].
Qed.

Lemma image_u64 i o v :
  ws !! i = Some (o, le_bytes 8 v) -> visible size sh i o 8 = true -> word 64 v ->
  load_u64 (image size ws) o = v.
Proof.
  intros Hi Hv Hr. destruct (image_le i o 8 v Hi Hv Hr) as (He & ? & ?).
  rewrite load_u64_le; [exact He|by apply octets_image|done|done].
Qed.
End Loads.

(** [image_load Hsh Hws tac] rewrites one load from an image to the value that
    was stored there, found by computing on the shape; [tac] proves that the
    value is in range ([in_range], below). *)

Fixpoint index_of (o n : Z) (sh : list (Z * Z)) : nat :=
  match sh with
  | [] => 0
  | (o', n') :: rest => if (o =? o') && (n =? n') then 0 else S (index_of o n rest)
  end.

(** A field value is in range by hypothesis, or because it is a constant. *)
Ltac in_range := first [assumption | split; [vm_compute; discriminate|vm_compute; reflexivity]].

Ltac image_load_with lemma size ws Hsh Hws o n tac :=
  let sh := match type of Hsh with _ = ?sh => sh end in
  let i := eval vm_compute in (index_of o n sh) in
  let found := eval vm_compute in (visible size sh i o n) in
  lazymatch found with true => idtac end;
  rewrite (lemma size ws sh ltac:(lia) Hsh Hws i o _ eq_refl
             ltac:(vm_compute; reflexivity) ltac:(tac)).

Ltac image_load Hsh Hws tac :=
  match goal with
  | |- context [load_u16 (image ?size ?ws) ?o] => image_load_with image_u16 size ws Hsh Hws o 2 tac
  | |- context [load_u32 (image ?size ?ws) ?o] => image_load_with image_u32 size ws Hsh Hws o 4 tac
  | |- context [load_u64 (image ?size ?ws) ?o] => image_load_with image_u64 size ws Hsh Hws o 8 tac
  end.

(** The goal is [slice o n (image ..) = s] for a write [s], or [= zeros n]. *)
Ltac image_field Hsh :=
  match goal with
  | |- slice ?o ?n (image ?size ?ws) = zeros ?n =>
    apply (image_zeros size ws _ Hsh); [lia|lia|lia|vm_compute; reflexivity|vm_compute; reflexivity]
  | |- slice ?o ?n (image ?size ?ws) = _ =>
    let sh := match type of Hsh with _ = ?sh => sh end in
    let i := eval vm_compute in (index_of o n sh) in
    let found := eval vm_compute in (visible size sh i o n) in
    lazymatch found with true => idtac end;
    apply (image_bytes size ws sh ltac:(lia) Hsh i); [reflexivity|vm_compute; reflexivity]
  end.

(** *** Images written front to back

    When the writes are in ascending order and do not overlap, the image is
    determined by what a reader finds: each write at its offset, and zeros in the
    gaps between them.  The offsets need not be concrete. *)

Fixpoint ascending (o size : Z) (ws : list write) : Prop :=
  match ws with
  | [] => o <= size
  | (o', s) :: rest => o <= o' /\ ascending (o' + len s) size rest
  end.

Fixpoint gaps (o size : Z) (ws : list write) : list (Z * Z) :=
  match ws with
  | [] => [(o, size - o)]
  | (o', s) :: rest => (o, o' - o) :: gaps (o' + len s) size rest
  end.

Definition holds (b : bytes) (ws : list write) : Prop :=
  Forall (fun w => slice (fst w) (len (snd w)) b = snd w) ws.

Definition clear_at (b : bytes) (gs : list (Z * Z)) : Prop :=
  Forall (fun g => slice (fst g) (snd g) b = zeros (snd g)) gs.

Lemma ascending_le ws o size : ascending o size ws -> o <= size.
Proof.
  revert o. induction ws as [|[o' s] ws IH]; intros o; simpl; [done|]. intros [? H]. apply IH in H.
  pose proof (len_nonneg s). lia.
Qed.

Lemma ascending_in ws o size w : ascending o size ws -> w ∈ ws ->
  o <= fst w /\ fst w + len (snd w) <= size.
Proof.
  revert o. induction ws as [|[o' s] ws IH]; intros o; simpl; [by intros _ ?%not_elem_of_nil|].
  intros [Ho Ha] [->|Hw]%elem_of_cons; simpl.
  - apply ascending_le in Ha. lia.
  - destruct (IH _ Ha Hw). pose proof (len_nonneg s). lia.
Qed.

Lemma zeros_app n m : 0 <= n -> 0 <= m -> zeros (n + m) = zeros n ++ zeros m.
Proof. intros. unfold zeros. rewrite Z2Nat.inj_add by lia. by rewrite replicate_add. Qed.

Lemma store_next pre s n : len s <= n ->
  store (pre ++ zeros n) (len pre) s = (pre ++ s) ++ zeros (n - len s).
Proof.
  intros Hn. pose proof (len_nonneg s). pose proof (len_nonneg pre).
  replace n with (len s + (n - len s)) at 1 by lia. rewrite zeros_app by lia.
  set (r := zeros (n - len s)). rewrite <- !app_assoc.
  rewrite <- (slice_all (store _ _ _) (len pre + (len s + len r))) by (unfold r; len_lia).
  rewrite slice_split, (slice_split (0 + len pre)) by (unfold r; rewrite ?len_zeros; lia).
  rewrite slice_store_before, slice_store_same, slice_store_after by (unfold r; len_lia).
  rewrite slice_app_l, slice_all by len_lia.
  rewrite slice_app_r by lia. rewrite slice_app_r, len_zeros by (rewrite ?len_zeros; lia).
  replace (0 + len pre + len s - len pre - len s) with 0 by lia. by rewrite slice_all.
Qed.

Lemma app_inj_len {A} (a b c d : list A) : len a = len c -> a ++ b = c ++ d -> a = c /\ b = d.
Proof. unfold len. intros Hl. apply app_inj_1. lia. Qed.

Lemma writes_exact ws pre size b : ascending (len pre) size ws ->
  b = writes ws (pre ++ zeros (size - len pre)) <->
  len b = size /\ slice 0 (len pre) b = pre /\ holds b ws /\ clear_at b (gaps (len pre) size ws).
Proof.
  revert pre. induction ws as [|[o s] ws IH]; intros pre Ha; pose proof (len_nonneg pre).
  - simpl in *. unfold holds, clear_at. rewrite Forall_nil, Forall_cons, Forall_nil. simpl. split.
    + intros ->. split_and!; [len_lia|by rewrite slice_app_l, slice_all by len_lia|done| |done].
      by rewrite slice_app_r, Z.sub_diag, slice_all by (rewrite ?len_zeros; lia).
    + intros (Hl & H1 & _ & H2 & _). rewrite <- H1 at 1. rewrite <- H2.
      replace (len pre) with (0 + len pre) at 2 by lia. rewrite <- slice_split by lia.
      symmetry. apply slice_all. lia.
  - destruct Ha as [Ho Ha]. pose proof (ascending_le _ _ _ Ha). pose proof (len_nonneg s). simpl.
    set (gap := zeros (o - len pre)).
    assert (Hgap : len (pre ++ gap) = o) by (unfold gap; len_lia).
    replace (size - len pre) with (o - len pre + (size - o)) by lia.
    rewrite zeros_app, app_assoc by lia. fold gap. rewrite <- Hgap at 2. rewrite store_next by lia.
    assert (Hpre : len ((pre ++ gap) ++ s) = o + len s) by len_lia.
    specialize (IH ((pre ++ gap) ++ s)). rewrite Hpre in IH. specialize (IH Ha).
    replace (size - o - len s) with (size - (o + len s)) by lia. rewrite IH.
    unfold holds, clear_at. rewrite !Forall_cons. simpl. fold gap.
    enough (Hs : len b = size -> slice 0 (o + len s) b = (pre ++ gap) ++ s <->
      slice 0 (len pre) b = pre /\ slice (len pre) (o - len pre) b = gap /\ slice o (len s) b = s) by (clear IH; tauto).
    intros Hl. replace (o + len s) with (len pre + (o - len pre) + len s) by lia.
    rewrite slice_split, slice_split by lia.
    replace (0 + len pre) with (len pre) by lia. replace (0 + (len pre + (o - len pre))) with o by lia. split.
    + intros E. apply app_inj_len in E as [E E3]; [|len_lia]. apply app_inj_len in E as [E1 E2]; [done|len_lia].
    + by intros (-> & -> & ->).
Qed.

(** The image of ascending writes is the one buffer of its size that holds each
    write and is clear elsewhere. *)
Lemma image_exact size ws b : ascending 0 size ws ->
  b = image size ws <-> len b = size /\ holds b ws /\ clear_at b (gaps 0 size ws).
Proof.
  intros Ha. unfold image. pose proof (writes_exact ws [] size b Ha) as H. change (len []) with 0 in H.
  rewrite Z.sub_0_r in H. change ([] ++ zeros size) with (zeros size) in H. rewrite H.
  unfold slice at 1. simpl. tauto.
Qed.

Lemma ascending_gaps ws o size g : 0 <= o -> ascending o size ws -> g ∈ gaps o size ws ->
  0 <= fst g /\ 0 <= snd g /\ fst g + snd g <= size.
Proof.
  revert o. induction ws as [|[o' s] ws IH]; intros o Ho Ha; simpl in *.
  - intros ->%list_elem_of_singleton. simpl. lia.
  - destruct Ha as [Hle Ha]. pose proof (len_nonneg s). pose proof (ascending_le _ _ _ Ha).
    intros [->|Hg]%elem_of_cons; simpl; [lia|]. apply (IH (o' + len s)); [lia|done|done].
Qed.

(** The same of the first [size] bytes of a longer buffer. *)
Lemma image_exact_front size ws b : ascending 0 size ws -> size <= len b ->
  slice 0 size b = image size ws <-> holds b ws /\ clear_at b (gaps 0 size ws).
Proof.
  intros Ha Hb. pose proof (ascending_le _ _ _ Ha). rewrite image_exact by done.
  assert (Hin : forall o n, 0 <= o -> 0 <= n -> o + n <= size -> slice o n (slice 0 size b) = slice o n b)
    by (intros; rewrite slice_slice by lia; f_equal; lia).
  assert (H1 : holds (slice 0 size b) ws <-> holds b ws).
  { unfold holds. rewrite !Forall_forall. split; intros Hw w Hi; specialize (Hw w Hi);
      apply (ascending_in _ _ _ _ Ha) in Hi as []; pose proof (len_nonneg (snd w));
      [rewrite <- Hin by lia|rewrite Hin by lia]; exact Hw. }
  assert (H2 : clear_at (slice 0 size b) (gaps 0 size ws) <-> clear_at b (gaps 0 size ws)).
  { unfold clear_at. rewrite !Forall_forall. split; intros Hw w Hi; specialize (Hw w Hi);
      apply (ascending_gaps _ 0) in Hi as (? & ? & ?); try done;
      [rewrite <- Hin by lia|rewrite Hin by lia]; exact Hw. }
  rewrite len_slice by lia. tauto.
Qed.

Lemma held_u16 b o v : octets b -> 0 <= o -> o + 2 <= len b -> word 16 v ->
  slice o (len (le_bytes 2 v)) b = le_bytes 2 v -> load_u16 b o = v.
Proof.
  intros ???? H. rewrite len_le_bytes in H. change (Z.of_nat 2) with 2 in H. rewrite load_u16_le, H, le_value_bytes by done. by apply Z.mod_small.
Qed.

Lemma held_u32 b o v : octets b -> 0 <= o -> o + 4 <= len b -> word 32 v ->
  slice o (len (le_bytes 4 v)) b = le_bytes 4 v -> load_u32 b o = v.
Proof.
  intros ???? H. rewrite len_le_bytes in H. change (Z.of_nat 4) with 4 in H. rewrite load_u32_le, H, le_value_bytes by done. by apply Z.mod_small.
Qed.

Lemma held_u64 b o v : octets b -> 0 <= o -> o + 8 <= len b -> word 64 v ->
  slice o (len (le_bytes 8 v)) b = le_bytes 8 v -> load_u64 b o = v.
Proof.
  intros ???? H. rewrite len_le_bytes in H. change (Z.of_nat 8) with 8 in H. rewrite load_u64_le, H, le_value_bytes by done. by apply Z.mod_small.
Qed.

(** A load determines the bytes it reads. *)
Lemma loaded_le (k : nat) b o : octets b -> 0 <= o -> o + Z.of_nat k <= len b ->
  slice o (len (le_bytes k (le_value (slice o (Z.of_nat k) b)))) b =
  le_bytes k (le_value (slice o (Z.of_nat k) b)).
Proof.
  intros Hb Ho Hl. rewrite len_le_bytes. set (s := slice o (Z.of_nat k) b).
  assert (Hs : length s = k) by (apply Nat2Z.inj; apply len_slice; lia).
  rewrite <- Hs at 1. symmetry. apply le_bytes_value. unfold s. auto with ribon.
Qed.

Lemma loaded_u16 b o v : octets b -> 0 <= o -> o + 2 <= len b -> load_u16 b o = v ->
  slice o (len (le_bytes 2 v)) b = le_bytes 2 v.
Proof. intros Hb Ho Hl <-. rewrite load_u16_le by done. by apply (loaded_le 2). Qed.

Lemma loaded_u32 b o v : octets b -> 0 <= o -> o + 4 <= len b -> load_u32 b o = v ->
  slice o (len (le_bytes 4 v)) b = le_bytes 4 v.
Proof. intros Hb Ho Hl <-. rewrite load_u32_le by done. by apply (loaded_le 4). Qed.

Lemma loaded_u64 b o v : octets b -> 0 <= o -> o + 8 <= len b -> load_u64 b o = v ->
  slice o (len (le_bytes 8 v)) b = le_bytes 8 v.
Proof. intros Hb Ho Hl <-. rewrite load_u64_le by done. by apply (loaded_le 8). Qed.

(** A load of write [i] of an image, given by [L]; [W] bounds a small value. *)
Ltac held L i W :=
  first [ apply held_u16 | apply held_u32 | apply held_u64 ];
  [assumption|lia|lia|first [assumption | apply W; lia]|exact (L i _ _ eq_refl)].

(** The write of a word that a load of the buffer gives. *)
Ltac loaded :=
  lazymatch goal with
  | |- slice _ _ _ = le_bytes 2 _ => apply loaded_u16
  | |- slice _ _ _ = le_bytes 4 _ => apply loaded_u32
  | |- slice _ _ _ = le_bytes 8 _ => apply loaded_u64
  end; [assumption|lia|lia|assumption].

Lemma slice_empty o b : slice o 0 b = zeros 0.
Proof. reflexivity. Qed.
