(* ===== verification/Seal.v ===== *)
(** * Sealed images

    The durable objects end in a CRC-32C over everything before it, which
    [checked] adds to a body; those of the update layer (slot metadata, journal
    records and selectors) have the SHA-256 of the body before it, and [seal] adds
    both.  The lemmas say that a reader recomputes exactly the digest and the
    checksum the writer stored. *)

From S2P Require Import Prelude.
From S2P Require Import Buffer.
From S2P Require Import Wire.
From S2P Require Import Image.
From S2P Require Import Sha256.

Definition checked (size : Z) (body : list write) (cofs : Z) : list write :=
  body ++ [(cofs, le_bytes 4 (crc32c (slice 0 cofs (image size body))))].

Section Checked.
Context (size cofs : Z) (body : list write) (sh : list (Z * Z)).
Context (Hsh : shape body = sh) (Hfits : fits size sh = true).
Context (Hbody : Forall (fun w => octets (snd w)) body).
Context (Hc0 : 0 <= cofs) (Hc : cofs + 4 <= size).

Lemma shape_checked : shape (checked size body cofs) = sh ++ [(cofs, 4)].
Proof. unfold checked, shape in *. rewrite fmap_app, Hsh. simpl. by rewrite len_le_bytes. Qed.

Lemma octets_checked : Forall (fun w => octets (snd w)) (checked size body cofs).
Proof.
  unfold checked. rewrite Forall_app, Forall_cons, Forall_nil. split_and!; auto. apply octets_le_bytes.
Qed.

Lemma checked_checksum :
  load_u32 (image size (checked size body cofs)) cofs =
  crc32c (slice 0 cofs (image size (checked size body cofs))).
Proof.
  assert (Hp : slice 0 cofs (image size (checked size body cofs)) = slice 0 cofs (image size body)).
  { unfold checked. apply image_prefix; [lia..| |]; unfold shape, fits, avoids; simpl;
      rewrite len_le_bytes, ?andb_true_r, ?andb_true_iff, ?orb_true_iff, !Z.leb_le; lia. }
  rewrite Hp. apply (image_u32 size _ _ ltac:(lia) shape_checked octets_checked (length body));
    [| |apply crc32c_word].
  - unfold checked. by rewrite lookup_app_r, Nat.sub_diag by lia.
  - unfold visible. assert (Hl : length sh = length body) by (rewrite <- Hsh; apply length_fmap).
    rewrite lookup_app_r, Hl, Nat.sub_diag by lia. simpl lookup. cbv iota. rewrite drop_app_ge, Hl by lia.
    replace (S (length body) - length body)%nat with 1%nat by lia.
    unfold fits in *. rewrite forallb_app, Hfits. simpl.
    rewrite !andb_true_r, !Z.eqb_refl, !andb_true_iff, !Z.leb_le. lia.
Qed.
End Checked.

Definition body_digest (size : Z) (body : list write) (dofs : Z) : bytes :=
  ribon_security_sha256 (slice 0 dofs (image size body)).

Definition digested (size : Z) (body : list write) (dofs : Z) : list write :=
  body ++ [(dofs, body_digest size body dofs)].

Definition seal (size : Z) (body : list write) (dofs cofs : Z) : list write :=
  checked size (digested size body dofs) cofs.

Section Sealed.
Context (size dofs cofs : Z) (body : list write) (sh : list (Z * Z)).
Context (Hsh : shape body = sh) (Hfits : fits size sh = true).
Context (Hbody : Forall (fun w => octets (snd w)) body).
Context (Hd : 0 <= dofs) (Hdc : dofs + 32 <= cofs) (Hc : cofs + 4 <= size).

Lemma shape_digested : shape (digested size body dofs) = sh ++ [(dofs, 32)].
Proof.
  unfold digested, shape in *. rewrite fmap_app, Hsh. simpl. unfold body_digest. by rewrite len_sha256.
Qed.

Lemma octets_digested : Forall (fun w => octets (snd w)) (digested size body dofs).
Proof.
  unfold digested. rewrite Forall_app, Forall_cons, Forall_nil. split_and!; auto. apply octets_sha256.
Qed.

Lemma shape_seal : shape (seal size body dofs cofs) = sh ++ [(dofs, 32); (cofs, 4)].
Proof.
  unfold seal. rewrite (shape_checked size cofs _ _ shape_digested). by rewrite <- app_assoc.
Qed.

Lemma octets_seal : Forall (fun w => octets (snd w)) (seal size body dofs cofs).
Proof. apply octets_checked, octets_digested. Qed.

Lemma seal_body n :
  0 <= n <= dofs -> slice 0 n (image size (seal size body dofs cofs)) = slice 0 n (image size body).
Proof.
  intros Hn. unfold seal, checked, digested. rewrite <- app_assoc.
  apply image_prefix; [lia..| |]; unfold shape, fits, avoids; simpl;
    unfold body_digest; rewrite len_sha256, len_le_bytes; rewrite !andb_true_r;
    rewrite ?andb_true_iff, ?orb_true_iff, !Z.leb_le; lia.
Qed.

Lemma seal_body_digest :
  ribon_security_sha256 (slice 0 dofs (image size (seal size body dofs cofs))) =
  body_digest size body dofs.
Proof. by rewrite seal_body by lia. Qed.

Lemma seal_digest :
  slice dofs 32 (image size (seal size body dofs cofs)) = body_digest size body dofs.
Proof.
  apply (image_slice size _ (length body)); [lia| |].
  - unfold seal, checked, digested. rewrite <- app_assoc, lookup_app_r, Nat.sub_diag by lia. done.
  - rewrite shape_seal. unfold visible.
    assert (Hl : length sh = length body) by (rewrite <- Hsh; apply length_fmap).
    rewrite lookup_app_r, Hl, Nat.sub_diag by lia. simpl lookup. cbv iota.
    rewrite drop_app_ge, Hl by lia. replace (S (length body) - length body)%nat with 1%nat by lia.
    unfold fits in *. rewrite forallb_app, Hfits. simpl. unfold avoids. simpl.
    rewrite !andb_true_r, !Z.eqb_refl, !andb_true_iff, orb_true_iff, !Z.leb_le. lia.
Qed.

Lemma seal_checksum :
  load_u32 (image size (seal size body dofs cofs)) cofs =
  crc32c (slice 0 cofs (image size (seal size body dofs cofs))).
Proof.
  apply (checked_checksum size cofs _ _ shape_digested); [|apply octets_digested|lia|lia].
  unfold fits in *. rewrite forallb_app, Hfits. simpl.
  rewrite !andb_true_r, !andb_true_iff, !Z.leb_le. lia.
Qed.
End Sealed.
