(* ===== verification/Provider.v ===== *)
(** * Update-storage provider ([include/Ribon/update/storage.h])

    The provider is product code behind callbacks.  Its descriptor and the
    descriptor check are translated; the callbacks are functions on a world [W]
    the product chooses.  [StorageContract] is what the update layer relies on:
    reads do not change the media, a write touches only its range, and a
    successful flush makes the current contents the only ones a power cut can
    leave.  A write that failed, or that was not flushed, may be torn as the
    contract's [tears] relation allows. *)

From S2P Require Import Prelude.
From S2P Require Import Buffer.
From S2P Require Import Wire.

Inductive RibonUpdateStorageStatus :=
| RIBON_UPDATE_STORAGE_STATUS_OK
| RIBON_UPDATE_STORAGE_STATUS_INVALID_ARGUMENT
| RIBON_UPDATE_STORAGE_STATUS_UNSUPPORTED
| RIBON_UPDATE_STORAGE_STATUS_CAPACITY
| RIBON_UPDATE_STORAGE_STATUS_OVERFLOW
| RIBON_UPDATE_STORAGE_STATUS_ALIGNMENT
| RIBON_UPDATE_STORAGE_STATUS_OVERLAP
| RIBON_UPDATE_STORAGE_STATUS_MALFORMED
| RIBON_UPDATE_STORAGE_STATUS_SHORT_IO
| RIBON_UPDATE_STORAGE_STATUS_IO
| RIBON_UPDATE_STORAGE_STATUS_PROTECTED
| RIBON_UPDATE_STORAGE_STATUS_BAD_STATE
| RIBON_UPDATE_STORAGE_STATUS_IDENTITY_MISMATCH.

#[export] Instance RibonUpdateStorageStatus_eq_dec : EqDecision RibonUpdateStorageStatus.
Proof. solve_decision. Defined.

Definition RIBON_UPDATE_STORAGE_ABI_VERSION : Z := 1.
Definition RIBON_UPDATE_STORAGE_CAP_ALL : Z := 15.
Definition sizeof_RibonUpdateStorageProvider : Z := 160.

(** [context] is the address of the product's state; the state itself is [W].
    A read gets the caller's buffer and returns its new contents. *)
Record RibonUpdateStorageProvider (W : Type) := mkProvider {
  provider_size : Z;
  provider_abi_version : Z;
  provider_flags : Z;
  provider_capabilities : Z;
  provider_capacity_bytes : Z;
  provider_read_alignment : Z;
  provider_write_alignment : Z;
  provider_erase_alignment : Z;
  provider_maximum_transfer_bytes : Z;
  provider_media_identity_digest : bytes;
  provider_context : Z;
  (** offset, buffer, deadline; status, buffer, transferred *)
  provider_read : option (W -> Z -> bytes -> Z -> W * (Z * bytes * Z));
  (** offset, buffer, deadline; status, transferred *)
  provider_write : option (W -> Z -> bytes -> Z -> W * (Z * Z));
  (** offset, size, deadline; status *)
  provider_erase : option (W -> Z -> Z -> Z -> W * Z);
  (** deadline; status *)
  provider_flush : option (W -> Z -> W * Z);
  provider_reserved : list Z;
}.

Arguments provider_size {W} _.
Arguments provider_abi_version {W} _.
Arguments provider_flags {W} _.
Arguments provider_capabilities {W} _.
Arguments provider_capacity_bytes {W} _.
Arguments provider_read_alignment {W} _.
Arguments provider_write_alignment {W} _.
Arguments provider_erase_alignment {W} _.
Arguments provider_maximum_transfer_bytes {W} _.
Arguments provider_media_identity_digest {W} _.
Arguments provider_context {W} _.
Arguments provider_read {W} _.
Arguments provider_write {W} _.
Arguments provider_erase {W} _.
Arguments provider_flush {W} _.
Arguments provider_reserved {W} _.

(** [reserved] is an array of words; it is all zero bytes when its words are 0. *)
Definition ribon_update_storage_provider_is_valid {W}
    (provider : option (RibonUpdateStorageProvider W)) : bool :=
  match provider with
  | None => false
  | Some p =>
    negb
      ((provider_size p !=? sizeof_RibonUpdateStorageProvider) ||
       (provider_abi_version p !=? RIBON_UPDATE_STORAGE_ABI_VERSION) ||
       (provider_flags p !=? 0) ||
       (provider_capabilities p !=? RIBON_UPDATE_STORAGE_CAP_ALL) ||
       (provider_capacity_bytes p =? 0) ||
       negb (power_of_two (provider_read_alignment p)) ||
       negb (power_of_two (provider_write_alignment p)) ||
       negb (power_of_two (provider_erase_alignment p)) ||
       (provider_maximum_transfer_bytes p =? 0) ||
       (provider_maximum_transfer_bytes p <? provider_read_alignment p) ||
       (provider_maximum_transfer_bytes p <? provider_write_alignment p) ||
       (provider_maximum_transfer_bytes p <? provider_erase_alignment p) ||
       bytes_zero (provider_media_identity_digest p) ||
       (provider_context p =? 0) || is_null (provider_read p) ||
       is_null (provider_write p) || is_null (provider_erase p) ||
       is_null (provider_flush p) ||
       negb (bytes_zero (provider_reserved p)))
  end.

(** ** Calling through the descriptor

    A NULL callback is never reached: every caller has checked the descriptor. *)

Definition call_read {W} (p : RibonUpdateStorageProvider W) (w : W) (offset : Z) (buffer : bytes)
    (deadline : Z) : W * (Z * bytes * Z) :=
  match provider_read p with
  | Some f => f w offset buffer deadline
  | None => (w, (-1, buffer, 0))
  end.

Definition call_write {W} (p : RibonUpdateStorageProvider W) (w : W) (offset : Z) (buffer : bytes)
    (deadline : Z) : W * (Z * Z) :=
  match provider_write p with
  | Some f => f w offset buffer deadline
  | None => (w, (-1, 0))
  end.

Definition call_erase {W} (p : RibonUpdateStorageProvider W) (w : W) (offset size deadline : Z)
  : W * Z :=
  match provider_erase p with
  | Some f => f w offset size deadline
  | None => (w, -1)
  end.

Definition call_flush {W} (p : RibonUpdateStorageProvider W) (w : W) (deadline : Z) : W * Z :=
  match provider_flush p with
  | Some f => f w deadline
  | None => (w, -1)
  end.

(** ** What the update layer relies on

    [content w] is what reads see; [crash w d] says that a power cut in [w] may
    leave the media holding [d].  [tears old new r]: writing [new] over [old] may
    leave [r] when the write fails or is cut. *)

Class StorageContract {W} (p : RibonUpdateStorageProvider W) := {
  content : W -> bytes;
  crash : W -> bytes -> Prop;
  tears : bytes -> bytes -> bytes -> Prop;
  len_content : forall w, len (content w) = provider_capacity_bytes p;
  len_crash : forall w d, crash w d -> len d = provider_capacity_bytes p;
  octets_content : forall w, octets (content w);
  octets_crash : forall w d, crash w d -> octets d;
  len_tears : forall old new r, tears old new r -> len old = len new -> len r = len new;
  read_law : forall w offset buffer deadline w' status out transferred,
    0 <= offset -> offset + len buffer <= provider_capacity_bytes p ->
    call_read p w offset buffer deadline = (w', (status, out, transferred)) ->
    content w' = content w /\ (forall d, crash w' d -> crash w d) /\
    (status = 0 -> transferred = len buffer -> out = slice offset (len buffer) (content w));
  write_law : forall w offset buffer deadline w' status transferred,
    0 <= offset -> offset + len buffer <= provider_capacity_bytes p -> octets buffer ->
    call_write p w offset buffer deadline = (w', (status, transferred)) ->
    (status = 0 -> transferred = len buffer -> content w' = store (content w) offset buffer) /\
    (exists r, content w' = store (content w) offset r /\
       (r = buffer \/ tears (slice offset (len buffer) (content w)) buffer r)) /\
    (forall d, crash w' d -> exists d0 r, crash w d0 /\ d = store d0 offset r /\
       (r = slice offset (len buffer) d0 \/ r = buffer \/
        tears (slice offset (len buffer) d0) buffer r));
  flush_law : forall w deadline w' status,
    call_flush p w deadline = (w', status) ->
    content w' = content w /\
    (forall d, crash w' d -> crash w d \/ d = content w) /\
    (status = 0 -> forall d, crash w' d -> d = content w);
}.

(** Every call in range succeeds and transfers everything. *)
Record reliable {W} (p : RibonUpdateStorageProvider W) : Prop := {
  reliable_read : forall w offset buffer deadline, 0 <= offset ->
    offset + len buffer <= provider_capacity_bytes p ->
    exists w' out, call_read p w offset buffer deadline = (w', (0, out, len buffer));
  reliable_write : forall w offset buffer deadline, 0 <= offset ->
    offset + len buffer <= provider_capacity_bytes p -> octets buffer ->
    exists w', call_write p w offset buffer deadline = (w', (0, len buffer));
  reliable_flush : forall w deadline, exists w', call_flush p w deadline = (w', 0);
}.
