(* ===== verification/Layout.v ===== *)
(** * The A/B media layout ([src/update/storage.c])

    The layout calculator, the structural check and the canonical 512-byte
    identity (encode and open).  An output structure is a result; the pointer to
    it is taken to be non-NULL (NULL is refused first thing, before any work). *)

From S2P Require Import Prelude.
From S2P Require Import Buffer.
From S2P Require Import Wire.
From S2P Require Import Image.
From S2P Require Import Sha256.
From S2P Require Import Provider.

Definition RIBON_UPDATE_LAYOUT_IDENTITY_BYTES : Z := 512.
Definition RIBON_UPDATE_SLOT_METADATA_BYTES : Z := 512.
Definition RIBON_UPDATE_LAYOUT_REGION_COUNT : Z := 11.
Definition LAYOUT_HEADER_BYTES : Z := 128.
Definition LAYOUT_REGION_BYTES : Z := 24.
Definition LAYOUT_REGION_CAPACITY : Z := 16.
Definition RIBON_UPDATE_REGION_SLOT_A : Z := 5.
Definition RIBON_UPDATE_REGION_SLOT_B : Z := 7.
Definition RIBON_UPDATE_REGION_SLOT_METADATA : Z := 9.
Definition RIBON_UPDATE_REGION_UPDATE_JOURNAL : Z := 10.
Definition sizeof_RibonUpdateLayoutInput : Z := 120.
Definition sizeof_RibonUpdateLayout : Z := 360.

(** "RIBON-UPDATE-LAYOUT-V1", padded with NUL to 32 bytes *)
Definition ribon_update_layout_magic : bytes :=
  [82; 73; 66; 79; 78; 45; 85; 80; 68; 65; 84; 69; 45; 76; 65; 89; 79; 85; 84; 45; 86; 49;
   0; 0; 0; 0; 0; 0; 0; 0; 0; 0].

Record RibonUpdateLayoutInput := mkLayoutInput {
  input_size : Z;
  input_abi_version : Z;
  input_flags : Z;
  input_reserved0 : Z;
  input_media_capacity_bytes : Z;
  input_allocation_alignment : Z;
  input_guard_gap_bytes : Z;
  input_bootloader_bytes : Z;
  input_immutable_recovery_bytes : Z;
  input_slot_payload_bytes : Z;
  input_slot_metadata_bytes : Z;
  input_update_journal_bytes : Z;
  input_minimum_trailing_reserved_bytes : Z;
  input_reserved : list Z;
}.

Record RibonUpdateLayoutRegion := mkLayoutRegion {
  region_kind : Z;
  region_flags : Z;
  region_offset : Z;
  region_length : Z;
}.

Record RibonUpdateLayout := mkLayout {
  layout_size : Z;
  layout_abi_version : Z;
  layout_flags : Z;
  layout_region_count : Z;
  layout_media_capacity_bytes : Z;
  layout_allocation_alignment : Z;
  layout_regions : list RibonUpdateLayoutRegion;
  layout_identity_digest : bytes;
  layout_reserved : list Z;
}.

Definition zero_layout_region : RibonUpdateLayoutRegion := mkLayoutRegion 0 0 0 0.

(** [memset(layout, 0, sizeof( *layout))] *)
Definition zero_layout : RibonUpdateLayout :=
  mkLayout 0 0 0 0 0 0 (replicate 11 zero_layout_region) (zeros 32) [0; 0; 0; 0].

Definition layout_with_regions (l : RibonUpdateLayout) (rs : list RibonUpdateLayoutRegion)
  : RibonUpdateLayout :=
  mkLayout (layout_size l) (layout_abi_version l) (layout_flags l) (layout_region_count l)
    (layout_media_capacity_bytes l) (layout_allocation_alignment l) rs
    (layout_identity_digest l) (layout_reserved l).

Definition layout_with_digest (l : RibonUpdateLayout) (d : bytes) : RibonUpdateLayout :=
  mkLayout (layout_size l) (layout_abi_version l) (layout_flags l) (layout_region_count l)
    (layout_media_capacity_bytes l) (layout_allocation_alignment l) (layout_regions l)
    d (layout_reserved l).

(** [layout->regions[kind - 1]] *)
Definition layout_region_of (l : RibonUpdateLayout) (kind : Z) : RibonUpdateLayoutRegion :=
  nth (Z.to_nat (kind - 1)) (layout_regions l) zero_layout_region.

(** [None] is CAPACITY, the only error; otherwise the layout and the new cursor. *)
Definition layout_append (layout : RibonUpdateLayout) (index kind requested_length cursor : Z)
  : option (RibonUpdateLayout * Z) :=
  if (index >=? RIBON_UPDATE_LAYOUT_REGION_COUNT) || (requested_length =? 0) then None
  else
    match align_up_u64 requested_length (layout_allocation_alignment layout) with
    | None => None
    | Some length =>
      match add_u64 cursor length with
      | None => None
      | Some last =>
        if last >? layout_media_capacity_bytes layout then None
        else
          let old := nth (Z.to_nat index) (layout_regions layout) zero_layout_region in
          Some (layout_with_regions layout
                  (<[Z.to_nat index := mkLayoutRegion kind (region_flags old) cursor length]>
                     (layout_regions layout)), last)
      end
    end.

(** The loop of the structural check: [None] when a region is refused, otherwise
    the end of the last region. *)
Fixpoint layout_regions_loop (alignment capacity : Z) (rs : list RibonUpdateLayoutRegion)
    (index cursor : Z) : option Z :=
  match rs with
  | [] => Some cursor
  | region :: rest =>
    if (region_kind region !=? index + 1) || (region_flags region !=? 0) ||
       (region_length region =? 0) || (region_offset region !=? cursor) ||
       (Z.land (region_offset region) (alignment - 1) !=? 0) ||
       (Z.land (region_length region) (alignment - 1) !=? 0)
    then None
    else
      match add_u64 (region_offset region) (region_length region) with
      | None => None
      | Some last =>
        if last >? capacity then None
        else layout_regions_loop alignment capacity rest (index + 1) last
      end
  end.

Definition layout_is_structurally_valid (layout : option RibonUpdateLayout) : bool :=
  match layout with
  | None => false
  | Some l =>
    if (layout_size l !=? sizeof_RibonUpdateLayout) ||
       (layout_abi_version l !=? RIBON_UPDATE_STORAGE_ABI_VERSION) ||
       (layout_flags l !=? 0) ||
       (layout_region_count l !=? RIBON_UPDATE_LAYOUT_REGION_COUNT) ||
       (layout_media_capacity_bytes l =? 0) ||
       negb (power_of_two (layout_allocation_alignment l)) ||
       negb (bytes_zero (layout_reserved l))
    then false
    else
      match layout_regions_loop (layout_allocation_alignment l) (layout_media_capacity_bytes l)
              (take (Z.to_nat (layout_region_count l)) (layout_regions l)) 0 0 with
      | None => false
      | Some cursor =>
        (cursor =? layout_media_capacity_bytes l) &&
        (region_length (layout_region_of l RIBON_UPDATE_REGION_SLOT_METADATA) >=?
           2 * RIBON_UPDATE_SLOT_METADATA_BYTES) &&
        (region_length (layout_region_of l RIBON_UPDATE_REGION_SLOT_A) =?
           region_length (layout_region_of l RIBON_UPDATE_REGION_SLOT_B))
      end
  end.

Definition encode_region (output : bytes) (row : Z) (r : RibonUpdateLayoutRegion) : bytes :=
  let output := store_u32 output row (region_kind r) in
  let output := store_u32 output (row + 4) (region_flags r) in
  let output := store_u64 output (row + 8) (region_offset r) in
  store_u64 output (row + 16) (region_length r).

Fixpoint encode_regions (output : bytes) (index : Z) (rs : list RibonUpdateLayoutRegion) : bytes :=
  match rs with
  | [] => output
  | r :: rest =>
    encode_regions
      (encode_region output (LAYOUT_HEADER_BYTES + index * LAYOUT_REGION_BYTES) r) (index + 1) rest
  end.

Definition ribon_update_layout_identity_encode (layout : option RibonUpdateLayout)
  : RibonUpdateStorageStatus * bytes :=
  let output := zeros RIBON_UPDATE_LAYOUT_IDENTITY_BYTES in
  match layout with
  | None => (RIBON_UPDATE_STORAGE_STATUS_INVALID_ARGUMENT, output)
  | Some l =>
    if negb (layout_is_structurally_valid layout)
    then (RIBON_UPDATE_STORAGE_STATUS_INVALID_ARGUMENT, output)
    else
      let output := store output 0 ribon_update_layout_magic in
      let output := store_u16 output 32 RIBON_UPDATE_STORAGE_ABI_VERSION in
      let output := store_u16 output 34 LAYOUT_HEADER_BYTES in
      let output := store_u32 output 36 RIBON_UPDATE_LAYOUT_IDENTITY_BYTES in
      let output := store_u64 output 40 (layout_media_capacity_bytes l) in
      let output := store_u64 output 48 (layout_allocation_alignment l) in
      let output := store_u32 output 56 (layout_region_count l) in
      (RIBON_UPDATE_STORAGE_STATUS_OK,
       encode_regions output 0 (take (Z.to_nat (layout_region_count l)) (layout_regions l)))
  end.

Definition decode_region (b : bytes) (index : Z) : RibonUpdateLayoutRegion :=
  let row := LAYOUT_HEADER_BYTES + index * LAYOUT_REGION_BYTES in
  mkLayoutRegion (load_u32 b row) (load_u32 b (row + 4)) (load_u64 b (row + 8))
    (load_u64 b (row + 16)).

Definition ribon_update_layout_identity_open (input : option bytes)
  : RibonUpdateStorageStatus * RibonUpdateLayout :=
  match input with
  | None => (RIBON_UPDATE_STORAGE_STATUS_MALFORMED, zero_layout)
  | Some b =>
    if (len b !=? RIBON_UPDATE_LAYOUT_IDENTITY_BYTES) ||
       negb (bytes_equal (slice 0 32 b) ribon_update_layout_magic) ||
       (load_u16 b 32 !=? RIBON_UPDATE_STORAGE_ABI_VERSION) ||
       (load_u16 b 34 !=? LAYOUT_HEADER_BYTES) ||
       (load_u32 b 36 !=? RIBON_UPDATE_LAYOUT_IDENTITY_BYTES) ||
       (load_u32 b 56 !=? RIBON_UPDATE_LAYOUT_REGION_COUNT) ||
       negb (bytes_zero (slice 60 (LAYOUT_HEADER_BYTES - 60) b)) ||
       negb (bytes_zero
               (slice (LAYOUT_HEADER_BYTES + RIBON_UPDATE_LAYOUT_REGION_COUNT * LAYOUT_REGION_BYTES)
                  ((LAYOUT_REGION_CAPACITY - RIBON_UPDATE_LAYOUT_REGION_COUNT) *
                     LAYOUT_REGION_BYTES) b))
    then (RIBON_UPDATE_STORAGE_STATUS_MALFORMED, zero_layout)
    else
      let layout :=
        mkLayout sizeof_RibonUpdateLayout RIBON_UPDATE_STORAGE_ABI_VERSION 0
          RIBON_UPDATE_LAYOUT_REGION_COUNT (load_u64 b 40) (load_u64 b 48)
          (decode_region b <$> seqZ 0 RIBON_UPDATE_LAYOUT_REGION_COUNT) (zeros 32) [0; 0; 0; 0] in
      if negb (layout_is_structurally_valid (Some layout))
      then (RIBON_UPDATE_STORAGE_STATUS_MALFORMED, zero_layout)
      else (RIBON_UPDATE_STORAGE_STATUS_OK,
            layout_with_digest layout (ribon_security_sha256 b))
  end.

(** The loop that sums the aligned requests: the total and the last aligned
    length, or [None] on overflow. *)
Fixpoint aligned_sum (alignment : Z) (requested : list Z) (prefix last : Z) : option (Z * Z) :=
  match requested with
  | [] => Some (prefix, last)
  | r :: rest =>
    match align_up_u64 r alignment with
    | None => None
    | Some aligned =>
      match add_u64 prefix aligned with
      | None => None
      | Some prefix' => aligned_sum alignment rest prefix' aligned
      end
    end
  end.

Fixpoint append_all (layout : RibonUpdateLayout) (index : Z) (requested : list Z) (cursor : Z)
  : option RibonUpdateLayout :=
  match requested with
  | [] => Some layout
  | r :: rest =>
    match layout_append layout index (index + 1) r cursor with
    | None => None
    | Some (layout', cursor') => append_all layout' (index + 1) rest cursor'
    end
  end.

Definition ribon_update_layout_calculate (input : option RibonUpdateLayoutInput)
  : RibonUpdateStorageStatus * RibonUpdateLayout :=
  match input with
  | None => (RIBON_UPDATE_STORAGE_STATUS_INVALID_ARGUMENT, zero_layout)
  | Some i =>
    if (input_size i !=? sizeof_RibonUpdateLayoutInput) ||
       (input_abi_version i !=? RIBON_UPDATE_STORAGE_ABI_VERSION) ||
       (input_flags i !=? 0) || (input_reserved0 i !=? 0) ||
       (input_media_capacity_bytes i =? 0) ||
       negb (power_of_two (input_allocation_alignment i)) ||
       (input_guard_gap_bytes i =? 0) || (input_bootloader_bytes i =? 0) ||
       (input_immutable_recovery_bytes i =? 0) || (input_slot_payload_bytes i =? 0) ||
       (input_slot_metadata_bytes i <? 2 * RIBON_UPDATE_SLOT_METADATA_BYTES) ||
       (input_update_journal_bytes i =? 0) ||
       (input_minimum_trailing_reserved_bytes i =? 0) ||
       negb (bytes_zero (input_reserved i))
    then (RIBON_UPDATE_STORAGE_STATUS_INVALID_ARGUMENT, zero_layout)
    else
      let front :=
        [input_bootloader_bytes i; input_guard_gap_bytes i; input_immutable_recovery_bytes i;
         input_guard_gap_bytes i; input_slot_payload_bytes i; input_guard_gap_bytes i;
         input_slot_payload_bytes i; input_guard_gap_bytes i; input_slot_metadata_bytes i;
         input_update_journal_bytes i] in
      match aligned_sum (input_allocation_alignment i)
              (front ++ [input_minimum_trailing_reserved_bytes i]) 0 0 with
      | None => (RIBON_UPDATE_STORAGE_STATUS_OVERFLOW, zero_layout)
      | Some (aligned_prefix, aligned_trailing_minimum) =>
        if aligned_prefix >? input_media_capacity_bytes i
        then (RIBON_UPDATE_STORAGE_STATUS_CAPACITY, zero_layout)
        else
          let trailing :=
            input_media_capacity_bytes i - (aligned_prefix - aligned_trailing_minimum) in
          if Z.land trailing (input_allocation_alignment i - 1) !=? 0
          then (RIBON_UPDATE_STORAGE_STATUS_ALIGNMENT, zero_layout)
          else
            let layout :=
              mkLayout sizeof_RibonUpdateLayout RIBON_UPDATE_STORAGE_ABI_VERSION 0
                RIBON_UPDATE_LAYOUT_REGION_COUNT (input_media_capacity_bytes i)
                (input_allocation_alignment i) (layout_regions zero_layout) (zeros 32)
                [0; 0; 0; 0] in
            match append_all layout 0 (front ++ [trailing]) 0 with
            | None => (RIBON_UPDATE_STORAGE_STATUS_CAPACITY, zero_layout)
            | Some layout =>
              match ribon_update_layout_identity_encode (Some layout) with
              | (RIBON_UPDATE_STORAGE_STATUS_OK, wire) =>
                (RIBON_UPDATE_STORAGE_STATUS_OK,
                 layout_with_digest layout (ribon_security_sha256 wire))
              | (status, _) => (status, zero_layout)
              end
            end
      end
  end.

(** ** What the structural check means *)

(** The region ends where the next may begin. *)
Definition region_end (r : RibonUpdateLayoutRegion) : Z := region_offset r + region_length r.

(** Consecutive regions from [cursor] on, of kinds [index + 1], [index + 2], ... *)
Fixpoint tiled (alignment index cursor : Z) (rs : list RibonUpdateLayoutRegion) : Prop :=
  match rs with
  | [] => True
  | r :: rest =>
    region_kind r = index + 1 /\ region_flags r = 0 /\ region_offset r = cursor /\
    0 < region_length r /\ region_offset r mod alignment = 0 /\ region_length r mod alignment = 0 /\
    tiled alignment (index + 1) (region_end r) rest
  end.

Definition tiled_end (cursor : Z) (rs : list RibonUpdateLayoutRegion) : Z :=
  fold_left (fun _ r => region_end r) rs cursor.

Lemma land_mask_zero v k : 0 <= k -> (Z.land v (2 ^ k - 1) !=? 0) = false <-> v mod 2 ^ k = 0.
Proof. intros Hk. rewrite land_pred_pow2 by done. rewrite negb_false_iff. apply Z.eqb_eq. Qed.

Lemma tiled_end_ge alignment index cursor rs :
  tiled alignment index cursor rs -> cursor <= tiled_end cursor rs.
Proof.
  revert index cursor. induction rs as [|r rs IH]; intros index cursor; simpl; [lia|].
  intros (_ & _ & Ho & Hl & _ & _ & Ht). apply IH in Ht.
  assert (cursor <= region_end r) by (unfold region_end; lia).
  change (tiled_end cursor (r :: rs)) with (tiled_end (region_end r) rs). lia.
Qed.

Lemma layout_regions_loop_spec k capacity rs index cursor last :
  0 <= k -> capacity <= UINT64_MAX -> cursor <= capacity ->
  Forall (fun r => 0 <= region_length r) rs ->
  layout_regions_loop (2 ^ k) capacity rs index cursor = Some last <->
  tiled (2 ^ k) index cursor rs /\ last = tiled_end cursor rs /\ tiled_end cursor rs <= capacity.
Proof.
  intros Hk Hc Hle Hpos. revert index cursor Hle.
  induction Hpos as [|r rs Hr Hpos IH]; intros index cursor Hle; simpl.
  { split; [intros [= ->]; done|]. by intros (_ & -> & _). }
  change (tiled_end cursor (r :: rs)) with (tiled_end (region_end r) rs).
  destruct (Z.eqb_spec (region_kind r) (index + 1)); simpl; [|split; [done|lia]].
  destruct (Z.eqb_spec (region_flags r) 0); simpl; [|split; [done|lia]].
  destruct (Z.eqb_spec (region_length r) 0); simpl; [split; [done|lia]|].
  destruct (Z.eqb_spec (region_offset r) cursor); simpl; [|split; [done|lia]].
  destruct (Z.land (region_offset r) _ !=? 0) eqn:E1; simpl.
  { split; [done|]. intros ((_ & _ & _ & _ & H & _) & _).
    apply land_mask_zero in H; [congruence|done]. }
  destruct (Z.land (region_length r) _ !=? 0) eqn:E2; simpl.
  { split; [done|]. intros ((_ & _ & _ & _ & _ & H & _) & _).
    apply land_mask_zero in H; [congruence|done]. }
  apply land_mask_zero in E1, E2; try done.
  assert (Hend : tiled (2 ^ k) (index + 1) (region_end r) rs ->
                 region_offset r + region_length r <= tiled_end (region_end r) rs)
    by apply tiled_end_ge.
  unfold add_u64. destruct (Z.ltb_spec (UINT64_MAX - region_length r) (region_offset r)).
  { split; [done|]. intros ((? & ? & ? & ? & ? & ? & Ht) & ? & ?). apply Hend in Ht. lia. }
  destruct (Z.ltb_spec capacity (region_offset r + region_length r)).
  { split; [done|]. intros ((? & ? & ? & ? & ? & ? & Ht) & ? & ?). apply Hend in Ht. lia. }
  rewrite IH by lia. fold (region_end r). intuition lia.
Qed.

(** The fields have their C widths and the arrays their C lengths. *)
Record layout_typed (l : RibonUpdateLayout) : Prop := {
  typed_capacity : word 64 (layout_media_capacity_bytes l);
  typed_alignment : word 64 (layout_allocation_alignment l);
  typed_regions_length : length (layout_regions l) = 11%nat;
  typed_regions : Forall (fun r => word 32 (region_kind r) /\ word 32 (region_flags r) /\
    word 64 (region_offset r) /\ word 64 (region_length r)) (layout_regions l);
  typed_reserved : length (layout_reserved l) = 4%nat;
  typed_digest : len (layout_identity_digest l) = 32 /\ octets (layout_identity_digest l);
}.

(** The structural check, as a proposition. *)
Record layout_wf (l : RibonUpdateLayout) : Prop := {
  wf_header : layout_size l = sizeof_RibonUpdateLayout /\
    layout_abi_version l = RIBON_UPDATE_STORAGE_ABI_VERSION /\ layout_flags l = 0 /\
    layout_region_count l = RIBON_UPDATE_LAYOUT_REGION_COUNT /\ layout_reserved l = [0; 0; 0; 0];
  wf_alignment : exists k, 0 <= k /\ layout_allocation_alignment l = 2 ^ k;
  wf_tiled : tiled (layout_allocation_alignment l) 0 0 (layout_regions l);
  wf_end : tiled_end 0 (layout_regions l) = layout_media_capacity_bytes l;
  wf_metadata : 2 * RIBON_UPDATE_SLOT_METADATA_BYTES <=
    region_length (layout_region_of l RIBON_UPDATE_REGION_SLOT_METADATA);
  wf_slots : region_length (layout_region_of l RIBON_UPDATE_REGION_SLOT_A) =
    region_length (layout_region_of l RIBON_UPDATE_REGION_SLOT_B);
}.

Lemma reserved4 (r : list Z) :
  length r = 4%nat -> bytes_zero r = true <-> r = [0; 0; 0; 0].
Proof.
  intros Hl. rewrite bytes_zero_true. unfold len. rewrite Hl. reflexivity.
Qed.

Lemma regions_nonneg rs :
  Forall (fun r => word 32 (region_kind r) /\ word 32 (region_flags r) /\
    word 64 (region_offset r) /\ word 64 (region_length r)) rs ->
  Forall (fun r => 0 <= region_length r) rs.
Proof.
  intros Hr. eapply Forall_impl; [exact Hr|]. intros x (_ & _ & _ & Hx).
  rewrite word64 in Hx. lia.
Qed.

Lemma layout_structurally_valid_wf l :
  layout_typed l -> layout_is_structurally_valid (Some l) = true <-> layout_wf l.
Proof.
  intros [Hc Ha Hn Hr Hres _]. rewrite word64 in Hc, Ha. unfold layout_is_structurally_valid.
  split.
  - destruct (_ || _) eqn:G; [done|]. bool_to_prop.
    match goal with H : power_of_two _ = true |- _ => apply power_of_two_true in H; [|lia] end.
    assert (Hcount : layout_region_count l = RIBON_UPDATE_LAYOUT_REGION_COUNT) by done.
    rewrite Hcount, take_ge by (rewrite Hn; done).
    destruct (layout_regions_loop _ _ _ 0 0) eqn:Hloop; [|done]. intros Hfin. bool_to_prop.
    match goal with H : exists k, _ |- _ => destruct H as [k [Hk Hak]] end.
    rewrite Hak in Hloop. apply layout_regions_loop_spec in Hloop as (Ht & -> & _); try lia.
    2:{ by apply regions_nonneg. }
    constructor; rewrite ?Hak; eauto. split_and!; try done. by apply reserved4.
  - intros [(-> & -> & -> & -> & Hz) (k & Hk & Hak) Ht He Hm Hs].
    rewrite (proj2 (power_of_two_true (layout_allocation_alignment l) ltac:(lia))) by eauto.
    rewrite (proj2 (reserved4 _ Hres) Hz). rewrite take_ge by (rewrite Hn; done).
    assert (Hpos : 0 < layout_media_capacity_bytes l).
    { rewrite <- He. destruct (layout_regions l) as [|r rs]; [done|].
      simpl in Ht. destruct Ht as (_ & _ & Ho & ? & _ & _ & Ht). apply tiled_end_ge in Ht.
      change (tiled_end 0 (r :: rs)) with (tiled_end (region_end r) rs).
      assert (0 < region_end r) by (unfold region_end; lia). lia. }
    destruct (Z.eqb_spec (layout_media_capacity_bytes l) 0); [lia|]. simpl.
    rewrite Hak in Ht |- *.
    rewrite (proj2 (layout_regions_loop_spec k (layout_media_capacity_bytes l) (layout_regions l)
      0 0 (layout_media_capacity_bytes l) Hk ltac:(lia) ltac:(lia) (regions_nonneg _ Hr)))
      by (rewrite He; split_and!; [done|done|lia]).
    rewrite Z.eqb_refl, (proj2 (Z.eqb_eq _ _) Hs). simpl.
    rewrite andb_true_r. by apply Z.leb_le.
Qed.

(** ** The canonical identity *)

Definition region_writes (index : Z) (r : RibonUpdateLayoutRegion) : list write :=
  let row := LAYOUT_HEADER_BYTES + index * LAYOUT_REGION_BYTES in
  [(row, le_bytes 4 (region_kind r)); (row + 4, le_bytes 4 (region_flags r));
   (row + 8, le_bytes 8 (region_offset r)); (row + 16, le_bytes 8 (region_length r))].

Fixpoint regions_writes (index : Z) (rs : list RibonUpdateLayoutRegion) : list write :=
  match rs with
  | [] => []
  | r :: rest => region_writes index r ++ regions_writes (index + 1) rest
  end.

Definition layout_writes (capacity alignment : Z) (rs : list RibonUpdateLayoutRegion) : list write :=
  [(0, ribon_update_layout_magic); (32, le_bytes 2 1); (34, le_bytes 2 128); (36, le_bytes 4 512);
   (40, le_bytes 8 capacity); (48, le_bytes 8 alignment); (56, le_bytes 4 11)]
  ++ regions_writes 0 rs.

Lemma encode_regions_writes out index rs :
  0 <= index -> encode_regions out index rs = writes (regions_writes index rs) out.
Proof.
  revert out index. induction rs as [|r rs IH]; intros out index Hi; [done|].
  cbn [encode_regions regions_writes]. rewrite writes_app, IH by lia. f_equal.
  unfold encode_region, region_writes, LAYOUT_HEADER_BYTES, LAYOUT_REGION_BYTES. simpl writes.
  by rewrite !store_u64_le, !store_u32_le by lia.
Qed.

Lemma layout_encode_image l :
  layout_typed l -> layout_wf l ->
  ribon_update_layout_identity_encode (Some l) =
  (RIBON_UPDATE_STORAGE_STATUS_OK,
   image 512 (layout_writes (layout_media_capacity_bytes l) (layout_allocation_alignment l)
                (layout_regions l))).
Proof.
  intros Ht Hw. unfold ribon_update_layout_identity_encode.
  rewrite (proj2 (layout_structurally_valid_wf l Ht) Hw). simpl negb. cbv iota.
  destruct (wf_header l Hw) as (_ & _ & _ & -> & _).
  rewrite take_ge by (rewrite (typed_regions_length l Ht); done).
  rewrite encode_regions_writes by lia. unfold image, layout_writes. rewrite writes_app.
  rewrite !store_u64_le, !store_u32_le, !store_u16_le by lia. reflexivity.
Qed.

Lemma octets_layout_writes capacity alignment rs :
  Forall (fun w => octets (snd w)) (layout_writes capacity alignment rs).
Proof.
  unfold layout_writes. apply Forall_app. split.
  - rewrite !Forall_cons. split_and!; try apply octets_le_bytes; [|constructor].
    by apply octetsb_octets.
  - generalize 0 as index. induction rs as [|r rs IH]; intros index; [constructor|].
    cbn [regions_writes region_writes app]. rewrite !Forall_cons.
    split_and!; try apply octets_le_bytes. apply IH.
Qed.

Lemma region_eta r :
  mkLayoutRegion (region_kind r) (region_flags r) (region_offset r) (region_length r) = r.
Proof. by destruct r. Qed.

(** Every field of an identity is read back as it was written. *)
Lemma layout_image_fields capacity alignment rs :
  word 64 capacity -> word 64 alignment -> length rs = 11%nat ->
  Forall (fun r => word 32 (region_kind r) /\ word 32 (region_flags r) /\
    word 64 (region_offset r) /\ word 64 (region_length r)) rs ->
  let b := image 512 (layout_writes capacity alignment rs) in
  slice 0 32 b = ribon_update_layout_magic /\ load_u16 b 32 = 1 /\ load_u16 b 34 = 128 /\
  load_u32 b 36 = 512 /\ load_u64 b 40 = capacity /\ load_u64 b 48 = alignment /\
  load_u32 b 56 = 11 /\ slice 60 68 b = zeros 68 /\ slice 392 120 b = zeros 120 /\
  decode_region b <$> seqZ 0 11 = rs.
Proof.
  intros Hc Ha Hn Hr.
  do 11 (destruct rs as [|? rs]; [done|]). destruct rs; [|done]. clear Hn.
  repeat (apply Forall_cons in Hr as [(? & ? & ? & ?) Hr]). intros b. subst b.
  assert (Hcells : forall x y l l', x = y -> l = l' -> x :: l = y :: l' :> list RibonUpdateLayoutRegion)
    by congruence.
  pose proof (octets_layout_writes capacity alignment [r; r0; r1; r2; r3; r4; r5; r6; r7; r8; r9])
    as Hws.
  pose proof (eq_refl (shape (layout_writes capacity alignment
    [r; r0; r1; r2; r3; r4; r5; r6; r7; r8; r9]))) as Hsh.
  vm_compute shape in Hsh at 2.
  split_and!; try (image_load Hsh Hws in_range; done); try image_field Hsh.
  repeat (apply Hcells; [|try reflexivity]); unfold decode_region;
    do 4 image_load Hsh Hws in_range; apply region_eta.
Qed.

Lemma layout_valid_with_digest l d :
  layout_typed l -> layout_wf l -> len d = 32 /\ octets d ->
  layout_is_structurally_valid (Some (layout_with_digest l d)) = true.
Proof.
  intros [] [] Hd. apply layout_structurally_valid_wf; constructor; done.
Qed.

Lemma layout_open_image l :
  layout_typed l -> layout_wf l ->
  let b := image 512 (layout_writes (layout_media_capacity_bytes l) (layout_allocation_alignment l)
                        (layout_regions l)) in
  ribon_update_layout_identity_open (Some b) =
  (RIBON_UPDATE_STORAGE_STATUS_OK, layout_with_digest l (ribon_security_sha256 b)).
Proof.
  intros Ht Hw b. pose proof Ht as [Hc Ha Hn Hr Hres Hd].
  destruct (layout_image_fields _ _ _ Hc Ha Hn Hr) as (E1 & E2 & E3 & E4 & E5 & E6 & E7 & E8 & E9 & E10).
  fold b in E1, E2, E3, E4, E5, E6, E7, E8, E9, E10.
  unfold ribon_update_layout_identity_open, LAYOUT_HEADER_BYTES, RIBON_UPDATE_LAYOUT_REGION_COUNT,
    LAYOUT_REGION_BYTES, LAYOUT_REGION_CAPACITY.
  change (128 - 60) with 68. change (128 + 11 * 24) with 392. change ((16 - 11) * 24) with 120.
  rewrite E1, E2, E3, E4, E5, E6, E7, E8, E9, E10, bytes_equal_refl, !bytes_zero_zeros.
  assert (Hlen : len b = 512) by (apply len_image; lia). rewrite Hlen. simpl orb. cbv iota.
  assert (Hl : layout_with_digest l (zeros 32) =
    mkLayout sizeof_RibonUpdateLayout RIBON_UPDATE_STORAGE_ABI_VERSION 0 11
      (layout_media_capacity_bytes l) (layout_allocation_alignment l) (layout_regions l) (zeros 32)
      [0; 0; 0; 0]).
  { unfold layout_with_digest. destruct (wf_header l Hw) as (-> & -> & -> & -> & ->). done. }
  rewrite <- Hl. rewrite layout_valid_with_digest; [done|done|done|by split; auto with ribon].
Qed.

(** ** The calculator *)

(** Regions of the given lengths laid end to end. *)
Fixpoint place (index cursor : Z) (lengths : list Z) : list RibonUpdateLayoutRegion :=
  match lengths with
  | [] => []
  | n :: rest => mkLayoutRegion (index + 1) 0 cursor n :: place (index + 1) (cursor + n) rest
  end.

Definition sum (l : list Z) : Z := fold_right Z.add 0 l.

Lemma sum_cons x l : sum (x :: l) = x + sum l.
Proof. reflexivity. Qed.

Lemma last_cons_default (x d : Z) l : List.last (x :: l) d = List.last l x.
Proof.
  assert (Hd : forall y d d', List.last (y :: l) d = List.last (y :: l) d').
  { induction l as [|z l IH]; intros y e e'; [done|]. apply (IH z). }
  destruct l as [|y l]; [done|]. exact (Hd x d x).
Qed.

Lemma sum_app a b : sum (a ++ b) = sum a + sum b.
Proof. unfold sum. induction a as [|x a IH]; simpl; lia. Qed.

Lemma length_place index cursor lengths : length (place index cursor lengths) = length lengths.
Proof. revert index cursor. induction lengths; intros; simpl; auto. Qed.

Lemma place_tiled a index cursor lengths :
  0 < a -> cursor mod a = 0 -> Forall (fun n => 0 < n /\ n mod a = 0) lengths ->
  tiled a index cursor (place index cursor lengths) /\
  tiled_end cursor (place index cursor lengths) = cursor + sum lengths.
Proof.
  intros Ha Hc Hl. revert index cursor Hc. induction Hl as [|n l [Hn Hm] Hl IH]; intros index cursor Hc.
  { simpl. split; [done|]. unfold tiled_end. simpl. lia. }
  destruct (IH (index + 1) (cursor + n)) as [Ht He].
  { by rewrite Z.add_mod, Hc, Hm, Z.mod_0_l by lia. }
  cbn [place tiled region_kind region_flags region_offset region_length].
  unfold region_end at 1. cbn [region_offset region_length]. split_and!; try done.
  change (tiled_end cursor (_ :: ?t)) with (tiled_end (cursor + n) t). rewrite He, sum_cons. lia.
Qed.

Lemma aligned_sum_spec a requested prefix last total final :
  0 < a -> Forall (fun r => 0 < r) requested ->
  aligned_sum a requested prefix last = Some (total, final) <->
  exists lengths, Forall2 (fun r n => align_up_u64 r a = Some n) requested lengths /\
    total = prefix + sum lengths /\ final = List.last lengths last /\
    (requested = [] \/ total <= UINT64_MAX).
Proof.
  intros Ha Hpos. revert prefix last. induction Hpos as [|r rest Hr Hpos IH]; intros prefix last.
  { simpl. split.
    - intros [= <- <-]. exists []. split_and!; try constructor. simpl. lia. done.
    - intros (lengths & H & -> & -> & _). inversion H; subst. simpl. f_equal. f_equal. lia. }
  cbn [aligned_sum]. destruct (align_up_u64 r a) as [n|] eqn:En.
  2:{ split; [done|]. intros (lengths & H & _). inversion H; congruence. }
  assert (Hsums : forall lengths, Forall2 (fun r n => align_up_u64 r a = Some n) rest lengths ->
    0 <= sum lengths).
  { clear -Hpos Ha. intros lengths H. revert Hpos. induction H as [|x y l l' Hxy _ IH]; intros Hpos; [done|].
    inversion Hpos; subst. apply align_up_u64_some in Hxy; [|lia..].
    specialize (IH ltac:(done)). rewrite sum_cons. lia. }
  destruct (add_u64 prefix n) as [p|] eqn:Ep.
  - apply add_u64_some in Ep as [-> Hp]. rewrite IH. split.
    + intros (lengths & H & -> & -> & Hmax). exists (n :: lengths).
      split_and!; [by constructor|rewrite sum_cons; lia|symmetry; apply last_cons_default|right].
      destruct Hmax as [->|]; [inversion H; subst; unfold sum; simpl; lia|lia].
    + intros (lengths & H & -> & -> & Hmax). inversion H as [|? m ? l' Hm Hl']; subst.
      assert (m = n) as -> by congruence. exists l'.
      rewrite sum_cons in *. split_and!; [done|lia|apply last_cons_default|right].
      destruct Hmax; [done|lia].
  - split; [done|]. intros (lengths & H & -> & -> & Hmax).
    inversion H as [|? m ? l' Hm Hl']; subst. assert (m = n) as -> by congruence.
    destruct Hmax as [?|Hmax]; [done|]. specialize (Hsums l' Hl').
    rewrite sum_cons in Hmax.
    assert (add_u64 prefix n = Some (prefix + n)) by (apply add_u64_some; lia).
    congruence.
Qed.

Lemma align_up_self a v :
  power_of_two a = true -> 0 < v <= UINT64_MAX -> 0 < a -> v mod a = 0 -> align_up_u64 v a = Some v.
Proof.
  intros Hp Hv Ha Hm. apply align_up_u64_some; [lia..|]. split_and!; try done; try lia.
  apply power_of_two_true in Hp as [k [Hk ->]]; [|lia].
  destruct (Z.le_gt_cases k 63) as [Hk64|Hk64].
  - assert (H64 : 2 ^ 64 = 2 ^ k * 2 ^ (64 - k)) by (rewrite <- Z.pow_add_r by lia; f_equal; lia).
    pose proof (Z.div_mod v (2 ^ k) ltac:(lia)) as Hd. rewrite Hm, Z.add_0_r in Hd.
    assert (Hlt : 2 ^ k * (v / 2 ^ k) < 2 ^ k * 2 ^ (64 - k))
      by (rewrite <- H64, <- Hd; unfold UINT64_MAX in *; lia).
    apply Z.mul_lt_mono_pos_l in Hlt; [|lia].
    assert (2 ^ k * (v / 2 ^ k + 1) <= 2 ^ k * 2 ^ (64 - k)) by (apply Z.mul_le_mono_nonneg_l; lia).
    rewrite <- H64 in *. unfold UINT64_MAX. lia.
  - assert (2 ^ 64 <= 2 ^ k) by (apply Z.pow_le_mono_r; lia).
    rewrite Z.mod_small in Hm by (unfold UINT64_MAX in *; lia). lia.
Qed.

Lemma aligned_lengths a requested lengths :
  0 < a -> Forall (fun r => 0 < r) requested ->
  Forall2 (fun r n => align_up_u64 r a = Some n) requested lengths ->
  Forall (fun n => 0 < n /\ n mod a = 0) lengths /\ Forall2 Z.le requested lengths /\
  0 <= sum lengths.
Proof.
  intros Ha Hpos H. induction H as [|r n requested lengths Hrn _ IH].
  { split_and!; constructor || done. }
  inversion Hpos; subst. apply align_up_u64_some in Hrn as (_ & _ & Hm & Hn); [|lia..].
  destruct IH as (? & ? & ?); [done|]. rewrite sum_cons.
  split_and!; [constructor; [lia|done]|constructor; [lia|done]|lia].
Qed.

Lemma sum_mod a lengths :
  0 < a -> Forall (fun n => 0 < n /\ n mod a = 0) lengths -> sum lengths mod a = 0.
Proof.
  intros Ha Hl. induction Hl as [|n l [_ Hn] _ IH]; [by rewrite Z.mod_0_l by lia|].
  by rewrite sum_cons, Z.add_mod, Hn, IH, Z.mod_0_l by lia.
Qed.

Lemma layout_append_step L i r n cursor :
  align_up_u64 r (layout_allocation_alignment L) = Some n -> 0 < r ->
  Forall (fun r => region_flags r = 0) (layout_regions L) -> (i < 11)%nat ->
  cursor + n <= layout_media_capacity_bytes L -> layout_media_capacity_bytes L <= UINT64_MAX ->
  layout_append L (Z.of_nat i) (Z.of_nat i + 1) r cursor =
  Some (layout_with_regions L
          (<[i := mkLayoutRegion (Z.of_nat i + 1) 0 cursor n]> (layout_regions L)), cursor + n).
Proof.
  intros Hrn Hr Hf Hi Hc Hmax. unfold layout_append, RIBON_UPDATE_LAYOUT_REGION_COUNT.
  destruct (Z.leb_spec 11 (Z.of_nat i)); [lia|]. destruct (Z.eqb_spec r 0); [lia|]. simpl orb. cbv iota.
  rewrite Hrn, (proj2 (add_u64_some cursor n (cursor + n))) by lia.
  destruct (Z.ltb_spec (layout_media_capacity_bytes L) (cursor + n)); [lia|].
  rewrite Nat2Z.id. do 5 f_equal. rewrite nth_lookup.
  destruct (layout_regions L !! i) eqn:E; [|done].
  exact (proj1 (Forall_lookup _ _) Hf i _ E).
Qed.

Lemma append_all_place a requested lengths :
  Forall2 (fun r n => align_up_u64 r a = Some n) requested lengths -> 0 < a ->
  Forall (fun r => 0 < r) requested ->
  forall L i cursor, layout_allocation_alignment L = a ->
  Forall (fun r => region_flags r = 0) (layout_regions L) -> length (layout_regions L) = 11%nat ->
  (i + length lengths <= 11)%nat ->
  cursor + sum lengths <= layout_media_capacity_bytes L -> layout_media_capacity_bytes L <= UINT64_MAX ->
  append_all L (Z.of_nat i) requested cursor =
  Some (layout_with_regions L (take i (layout_regions L) ++ place (Z.of_nat i) cursor lengths ++
          drop (i + length lengths) (layout_regions L))).
Proof.
  intros H Ha Hpos. induction H as [|r n requested lengths Hrn H IH];
    intros L i cursor HL Hf Hlen Hi Hc Hmax.
  { simpl. rewrite Nat.add_0_r, take_drop. by destruct L. }
  inversion Hpos; subst. destruct (aligned_lengths _ _ _ Ha ltac:(done) H) as (_ & _ & Hs).
  rewrite sum_cons in Hc. simpl in Hi. cbn [append_all].
  rewrite (layout_append_step L i r n cursor) by (done || lia).
  replace (Z.of_nat i + 1) with (Z.of_nat (S i)) by lia.
  rewrite IH; simpl; rewrite ?length_insert; try done; try lia; [|by apply Forall_insert].
  f_equal. unfold layout_with_regions. simpl. f_equal.
  rewrite (take_S_r _ _ (mkLayoutRegion (Z.of_nat (S i)) 0 cursor n))
    by (apply list_lookup_insert_eq; lia).
  rewrite take_insert_ge, drop_insert_lt, <- app_assoc by lia. simpl.
  replace (i + S (length lengths))%nat with (S (i + length lengths)) by lia.
  by replace (Z.of_nat i + 1) with (Z.of_nat (S i)) by lia.
Qed.

(** The ten regions before the trailing reserve, in media order. *)
Definition front_requests (i : RibonUpdateLayoutInput) : list Z :=
  [input_bootloader_bytes i; input_guard_gap_bytes i; input_immutable_recovery_bytes i;
   input_guard_gap_bytes i; input_slot_payload_bytes i; input_guard_gap_bytes i;
   input_slot_payload_bytes i; input_guard_gap_bytes i; input_slot_metadata_bytes i;
   input_update_journal_bytes i].

Record input_ok (i : RibonUpdateLayoutInput) : Prop := {
  ok_header : input_size i = sizeof_RibonUpdateLayoutInput /\
    input_abi_version i = RIBON_UPDATE_STORAGE_ABI_VERSION /\ input_flags i = 0 /\
    input_reserved0 i = 0 /\ bytes_zero (input_reserved i) = true;
  ok_capacity : 0 < input_media_capacity_bytes i <= UINT64_MAX;
  ok_alignment : power_of_two (input_allocation_alignment i) = true /\
    0 < input_allocation_alignment i <= UINT64_MAX;
  ok_requests : Forall (fun r => 0 < r)
    (front_requests i ++ [input_minimum_trailing_reserved_bytes i]);
  ok_metadata : 2 * RIBON_UPDATE_SLOT_METADATA_BYTES <= input_slot_metadata_bytes i;
}.

(** The fields have their C widths. *)
Definition input_typed (i : RibonUpdateLayoutInput) : Prop :=
  word 64 (input_media_capacity_bytes i) /\ word 64 (input_allocation_alignment i) /\
  Forall (word 64) (front_requests i ++ [input_minimum_trailing_reserved_bytes i]).

(** The layout with the given region lengths. *)
Definition planned (i : RibonUpdateLayoutInput) (lengths : list Z) : RibonUpdateLayout :=
  mkLayout sizeof_RibonUpdateLayout RIBON_UPDATE_STORAGE_ABI_VERSION 0
    RIBON_UPDATE_LAYOUT_REGION_COUNT (input_media_capacity_bytes i) (input_allocation_alignment i)
    (place 0 0 lengths) (zeros 32) [0; 0; 0; 0].

Lemma place_typed index cursor lengths :
  0 <= index -> index + len lengths <= UINT32_MAX -> 0 <= cursor ->
  Forall (fun n => 0 < n) lengths -> cursor + sum lengths <= UINT64_MAX ->
  Forall (fun r => word 32 (region_kind r) /\ word 32 (region_flags r) /\
    word 64 (region_offset r) /\ word 64 (region_length r)) (place index cursor lengths).
Proof.
  intros Hi Hn Hc Hl. revert index cursor Hi Hn Hc.
  induction Hl as [|n l Hn Hl IH]; intros index cursor Hi Hlen Hc Hmax; [constructor|].
  rewrite len_cons, sum_cons in *. pose proof (len_nonneg l).
  assert (0 <= sum l) by (clear -Hl; induction Hl; rewrite ?sum_cons; unfold sum in *; simpl in *; lia).
  constructor; [|apply IH; lia]. simpl. rewrite !word32, !word64. unfold UINT32_MAX in *. lia.
Qed.

Lemma planned_wf i lengths :
  input_ok i -> length lengths = 11%nat ->
  Forall2 Z.le (front_requests i) (take 10 lengths) ->
  nth 4 lengths 0 = nth 6 lengths 0 ->
  Forall (fun n => 0 < n /\ n mod input_allocation_alignment i = 0) lengths ->
  sum lengths = input_media_capacity_bytes i ->
  layout_typed (planned i lengths) /\ layout_wf (planned i lengths).
Proof.
  intros [_ Hc [Hp Ha] _ Hm] Hn Hle Hslots Hl Hsum.
  apply power_of_two_true in Hp; [|lia].
  destruct (place_tiled (input_allocation_alignment i) 0 0 lengths) as [Ht He]; [lia|done..|].
  split; constructor; simpl; rewrite ?word64; try done; try lia.
  - by rewrite length_place.
  - apply place_typed; unfold len; rewrite ?Hn; unfold UINT32_MAX; try lia.
    eapply Forall_impl; [exact Hl|]. simpl. tauto.
  - split; [done|auto with ribon].
  - do 11 (destruct lengths as [|? lengths]; [done|]). simpl in Hle |- *.
    do 9 (apply Forall2_cons_1 in Hle as [? Hle]). lia.
  - do 11 (destruct lengths as [|? lengths]; [done|]). exact Hslots.
Qed.

Ltac guard_false :=
  repeat match goal with
  | |- (_ || _)%bool = false => apply orb_false_iff; split
  | |- negb _ = false => apply negb_false_iff
  | |- (_ =? _) = true => apply Z.eqb_eq
  | |- (_ =? _) = false => apply Z.eqb_neq
  | |- (_ <? _) = false => apply Z.ltb_ge
  end.

Lemma input_guards i :
  input_ok i ->
  (input_size i !=? sizeof_RibonUpdateLayoutInput) ||
  (input_abi_version i !=? RIBON_UPDATE_STORAGE_ABI_VERSION) ||
  (input_flags i !=? 0) || (input_reserved0 i !=? 0) ||
  (input_media_capacity_bytes i =? 0) ||
  negb (power_of_two (input_allocation_alignment i)) ||
  (input_guard_gap_bytes i =? 0) || (input_bootloader_bytes i =? 0) ||
  (input_immutable_recovery_bytes i =? 0) || (input_slot_payload_bytes i =? 0) ||
  (input_slot_metadata_bytes i <? 2 * RIBON_UPDATE_SLOT_METADATA_BYTES) ||
  (input_update_journal_bytes i =? 0) ||
  (input_minimum_trailing_reserved_bytes i =? 0) ||
  negb (bytes_zero (input_reserved i)) = false.
Proof.
  intros [(? & ? & ? & ? & ?) ? [? ?] Hr ?]. unfold front_requests in Hr. simpl in Hr.
  rewrite !Forall_cons in Hr. guard_false; try done; lia.
Qed.

Lemma calculate_planned i front trailing_minimum :
  input_ok i ->
  Forall2 (fun r n => align_up_u64 r (input_allocation_alignment i) = Some n)
    (front_requests i) front ->
  align_up_u64 (input_minimum_trailing_reserved_bytes i) (input_allocation_alignment i) =
    Some trailing_minimum ->
  sum front + trailing_minimum <= input_media_capacity_bytes i ->
  input_media_capacity_bytes i mod input_allocation_alignment i = 0 ->
  let l := planned i (front ++ [input_media_capacity_bytes i - sum front]) in
  layout_typed l /\ layout_wf l /\
  ribon_update_layout_calculate (Some i) =
  (RIBON_UPDATE_STORAGE_STATUS_OK,
   layout_with_digest l (ribon_security_sha256
     (snd (ribon_update_layout_identity_encode (Some l))))).
Proof.
  intros Hok Hf Ht Hsum Hmod. pose proof Hok as [Hh Hc [Hp Ha] Hr Hm].
  set (a := input_allocation_alignment i) in *. set (cap := input_media_capacity_bytes i) in *.
  apply Forall_app in Hr as [Hrf Hrt]. inversion Hrt as [|? ? Htpos _]; subst.
  destruct (aligned_lengths a _ _ ltac:(lia) Hrf Hf) as (Hlen & Hle & Hs).
  pose proof (Forall2_length _ _ _ Hf) as Hn. simpl in Hn.
  apply align_up_u64_some in Ht as Ht'; [|lia..]. destruct Ht' as (_ & _ & Htm & Htl).
  pose proof (sum_mod a front (proj1 Ha) Hlen) as Hsm.
  set (t := cap - sum front). assert (Htmod : t mod a = 0).
  { unfold t. by rewrite Zminus_mod, Hmod, Hsm, Z.mod_0_l by lia. }
  destruct (planned_wf i (front ++ [t])) as [Hty Hwf]; try done.
  { rewrite length_app, <- Hn. done. }
  { by rewrite take_app_le, take_ge by lia. }
  { do 10 (destruct front as [|? front]; [done|]). simpl in Hf |- *.
    do 4 (apply Forall2_cons_1 in Hf as [_ Hf]).
    apply Forall2_cons_1 in Hf as [E4 Hf], Hf as [_ Hf], Hf as [E6 Hf]. congruence. }
  { apply Forall_app. split; [done|]. constructor; [split; [unfold t; lia|done]|constructor]. }
  { rewrite sum_app. unfold sum at 2. simpl. unfold t. lia. }
  split_and!; [done..|]. unfold ribon_update_layout_calculate. rewrite input_guards by done.
  fold (front_requests i) a cap.
  rewrite (proj2 (aligned_sum_spec a _ 0 0 (sum front + trailing_minimum) trailing_minimum
    ltac:(lia) (ok_requests i Hok))).
  2:{ exists (front ++ [trailing_minimum]). split_and!.
      - apply Forall2_app; [done|by constructor].
      - rewrite sum_app. unfold sum at 3. simpl. lia.
      - by rewrite last_last.
      - right. lia. }
  destruct (Z.ltb_spec cap (sum front + trailing_minimum)); [lia|].
  replace (cap - (sum front + trailing_minimum - trailing_minimum)) with t by (unfold t; lia).
  pose proof Hp as [k [Hk Hak]]%power_of_two_true; [|lia].
  rewrite Hak, (proj2 (land_mask_zero t k Hk)) by (by rewrite <- Hak). rewrite <- Hak.
  set (L := mkLayout _ _ _ _ _ _ _ _ _).
  assert (Happ : append_all L 0 (front_requests i ++ [t]) 0 = Some (planned i (front ++ [t]))).
  { change 0 with (Z.of_nat 0) at 1.
    rewrite (append_all_place a (front_requests i ++ [t]) (front ++ [t])); try done.
    - f_equal. unfold layout_with_regions, planned, L. simpl. f_equal.
      rewrite drop_ge by (rewrite length_app; simpl; lia). by rewrite app_nil_r.
    - apply Forall2_app; [done|]. constructor; [|constructor].
      apply align_up_self; try done; unfold t; lia.
    - lia.
    - apply Forall_app. split; [done|]. constructor; [unfold t; lia|constructor].
    - repeat constructor.
    - rewrite length_app. simpl. lia.
    - rewrite sum_app. unfold sum at 2. simpl. fold cap. unfold t. lia.
    - simpl. fold cap. lia. }
  rewrite Happ, (layout_encode_image _ Hty Hwf). done.
Qed.

Lemma calculate_ok_inv i l :
  input_typed i -> ribon_update_layout_calculate (Some i) = (RIBON_UPDATE_STORAGE_STATUS_OK, l) ->
  input_ok i /\ exists front trailing_minimum,
    Forall2 (fun r n => align_up_u64 r (input_allocation_alignment i) = Some n)
      (front_requests i) front /\
    align_up_u64 (input_minimum_trailing_reserved_bytes i) (input_allocation_alignment i) =
      Some trailing_minimum /\
    sum front + trailing_minimum <= input_media_capacity_bytes i /\
    input_media_capacity_bytes i mod input_allocation_alignment i = 0.
Proof.
  intros (Hc & Ha & Hr) H. rewrite word64 in Hc, Ha. unfold ribon_update_layout_calculate in H.
  destruct (_ || _) eqn:G in H; [done|]. bool_to_prop.
  assert (Hok : input_ok i).
  { assert (Hp : exists k, 0 <= k /\ input_allocation_alignment i = 2 ^ k)
      by (apply power_of_two_true; [lia|done]).
    destruct Hp as (k & Hk & Hak). pose proof (Z.pow_pos_nonneg 2 k ltac:(lia) Hk).
    constructor; try done; try lia; [split; [done|lia]|].
    unfold front_requests in *. simpl in Hr |- *. rewrite !Forall_cons, !word64 in Hr.
    rewrite !Forall_cons, Forall_nil. unfold RIBON_UPDATE_SLOT_METADATA_BYTES in *. lia. }
  fold (front_requests i) in H. destruct (aligned_sum _ _ 0 0) as [[total last]|] eqn:Es; [|done].
  apply (aligned_sum_spec _ _ _ _ _ _ (proj1 (proj2 (ok_alignment i Hok)))
    (ok_requests i Hok)) in Es as (lengths & Hl & -> & -> & _).
  apply Forall2_app_inv_l in Hl as (front & tail & Hf & Ht & ->).
  apply Forall2_cons_inv_l in Ht as (tm & rest & Htm & Hnil & ->). inversion Hnil; subst.
  rewrite sum_app, last_last in H. change (sum [tm]) with (tm + 0) in H.
  destruct (Z.ltb_spec (input_media_capacity_bytes i) (0 + (sum front + (tm + 0)))); [done|].
  destruct (negb _) eqn:Em in H; [done|]. split; [done|]. exists front, tm. split_and!; [done..|lia|].
  destruct Hok as [_ _ [Hp Hpos] Hreq _]. pose proof Hp as [k [Hk Hak]]%power_of_two_true; [|lia].
  rewrite Hak in Em. apply land_mask_zero in Em; [|done]. rewrite <- Hak in Em.
  apply Forall_app in Hreq as [Hreq _].
  destruct (aligned_lengths _ _ _ (proj1 Hpos) Hreq Hf) as (Hlen & _ & _).
  pose proof (sum_mod _ _ (proj1 Hpos) Hlen) as Hsm.
  replace (input_media_capacity_bytes i) with
    (input_media_capacity_bytes i - (0 + (sum front + (tm + 0)) - tm) + sum front) by lia.
  by rewrite Z.add_mod, Em, Hsm, Z.mod_0_l by lia.
Qed.

Lemma tiled_offset_ge a index cursor rs j y :
  tiled a index cursor rs -> rs !! j = Some y -> cursor <= region_offset y.
Proof.
  revert index cursor j. induction rs as [|r rs IH]; intros index cursor j Ht Hj; [done|].
  simpl in Ht. destruct Ht as (_ & _ & Ho & Hl & _ & _ & Ht). destruct j; simpl in Hj.
  - injection Hj as ->. lia.
  - apply (IH _ _ _ Ht) in Hj. unfold region_end in Hj. lia.
Qed.

Lemma tiled_end_le a index cursor rs j y :
  tiled a index cursor rs -> rs !! j = Some y -> region_end y <= tiled_end cursor rs.
Proof.
  revert index cursor j. induction rs as [|r rs IH]; intros index cursor j Ht Hj; [done|].
  simpl in Ht. destruct Ht as (_ & _ & _ & _ & _ & _ & Ht). destruct j; simpl in Hj.
  - injection Hj as ->. exact (tiled_end_ge _ _ _ _ Ht).
  - exact (IH _ _ _ Ht Hj).
Qed.

(** In a tiled media every region ends before a later one begins. *)
Lemma tiled_ordered a index cursor rs i j x y :
  tiled a index cursor rs -> (i < j)%nat -> rs !! i = Some x -> rs !! j = Some y ->
  region_end x <= region_offset y.
Proof.
  revert index cursor i j. induction rs as [|r rs IH]; intros index cursor i j Ht Hij Hi Hj; [done|].
  destruct j as [|j]; [lia|]. simpl in Ht, Hj. destruct Ht as (_ & _ & _ & _ & _ & _ & Ht).
  destruct i as [|i]; simpl in Hi.
  - injection Hi as ->. exact (tiled_offset_ge _ _ _ _ _ _ Ht Hj).
  - exact (IH _ _ i j Ht ltac:(lia) Hi Hj).
Qed.

Lemma place_lengths index cursor lengths : region_length <$> place index cursor lengths = lengths.
Proof. revert index cursor. induction lengths; intros; simpl; f_equal; auto. Qed.

(** ** Properties *)

(** C37: A computed layout is structurally valid and its regions tile the media: they
    lie inside it in the canonical order, pairwise disjoint, each at least as
    long as requested, with equal image slots, and its digest is the SHA-256 of
    its canonical identity. *)
Theorem layout_calculate_sound i l :
  input_typed i -> ribon_update_layout_calculate (Some i) = (RIBON_UPDATE_STORAGE_STATUS_OK, l) ->
  layout_is_structurally_valid (Some l) = true /\
  (forall m n x y, (m < n)%nat -> layout_regions l !! m = Some x -> layout_regions l !! n = Some y ->
     region_end x <= region_offset y) /\
  (forall n y, layout_regions l !! n = Some y ->
     0 <= region_offset y /\ region_end y <= input_media_capacity_bytes i) /\
  Forall2 Z.le (front_requests i ++ [input_minimum_trailing_reserved_bytes i])
    (region_length <$> layout_regions l) /\
  region_length (layout_region_of l RIBON_UPDATE_REGION_SLOT_A) =
    region_length (layout_region_of l RIBON_UPDATE_REGION_SLOT_B) /\
  layout_identity_digest l =
    ribon_security_sha256 (snd (ribon_update_layout_identity_encode (Some l))).
Proof.
  intros Hty H. destruct (calculate_ok_inv i l Hty H) as (Hok & front & tm & Hf & Htm & Hsum & Hmod).
  destruct (calculate_planned i front tm Hok Hf Htm Hsum Hmod) as (Ht & Hw & E).
  rewrite E in H. injection H as <-. set (L := planned _ _) in *.
  pose proof Hok as [_ _ [_ Ha] Hr _]. apply Forall_app in Hr as [Hrf Hrt].
  destruct (aligned_lengths _ _ _ (proj1 Ha) Hrf Hf) as (_ & Hle & _).
  apply Forall_cons in Hrt as [Htp _].
  apply align_up_u64_some in Htm as (_ & _ & _ & Htm); [|lia..].
  assert (Hv : layout_is_structurally_valid (Some (layout_with_digest L
    (ribon_security_sha256 (snd (ribon_update_layout_identity_encode (Some L)))))) = true).
  { apply layout_valid_with_digest; [done..|split; auto with ribon; apply len_sha256]. }
  split_and!; [done| | | |by destruct Hw|].
  - intros m n x y. exact (tiled_ordered _ _ _ _ m n x y (wf_tiled _ Hw)).
  - intros n y Hy. split; [exact (tiled_offset_ge _ _ _ _ _ _ (wf_tiled _ Hw) Hy)|].
    change (input_media_capacity_bytes i) with (layout_media_capacity_bytes L).
    rewrite <- (wf_end _ Hw). exact (tiled_end_le _ _ _ _ _ _ (wf_tiled _ Hw) Hy).
  - cbn [layout_regions layout_with_digest L planned]. rewrite place_lengths. apply Forall2_app; [done|]. constructor; [lia|constructor].
  - reflexivity.
Qed.

(** A small media with 512-byte blocks. *)
Definition sample_input : RibonUpdateLayoutInput :=
  mkLayoutInput 120 1 0 0 8704 512 512 500 400 512 1024 3072 1 [0; 0; 0; 0].

Definition sample_layout : RibonUpdateLayout :=
  Eval vm_compute in snd (ribon_update_layout_calculate (Some sample_input)).

Lemma sample_input_typed : input_typed sample_input.
Proof. unfold input_typed. simpl. rewrite !Forall_cons, !word64. unfold UINT64_MAX. split_and!; try lia. constructor. Qed.

Lemma layout_calculate_sound_witness :
  fst (ribon_update_layout_calculate (Some sample_input)) = RIBON_UPDATE_STORAGE_STATUS_OK /\
  layout_is_structurally_valid (Some sample_layout) = true.
Proof.
  split; [vm_compute; reflexivity|].
  apply (layout_calculate_sound sample_input sample_layout sample_input_typed).
  vm_compute. reflexivity.
Defined.

(** On an acceptable input the calculator fails only for want of room or
    alignment: when the aligned requests fit and the capacity is aligned, it
    succeeds, and no later step can fail. *)
Theorem layout_calculate_complete i lengths :
  input_ok i ->
  Forall2 (fun r n => align_up_u64 r (input_allocation_alignment i) = Some n)
    (front_requests i ++ [input_minimum_trailing_reserved_bytes i]) lengths ->
  sum lengths <= input_media_capacity_bytes i ->
  input_media_capacity_bytes i mod input_allocation_alignment i = 0 ->
  fst (ribon_update_layout_calculate (Some i)) = RIBON_UPDATE_STORAGE_STATUS_OK.
Proof.
  intros Hok Hl Hsum Hmod. apply Forall2_app_inv_l in Hl as (front & tail & Hf & Ht & ->).
  apply Forall2_cons_inv_l in Ht as (tm & rest & Htm & Hnil & ->). inversion Hnil; subst.
  rewrite sum_app in Hsum. change (sum [tm]) with (tm + 0) in Hsum. rewrite Z.add_0_r in Hsum.
  by destruct (calculate_planned i front tm Hok Hf Htm Hsum Hmod) as (_ & _ & ->).
Qed.

Lemma layout_calculate_complete_witness :
  fst (ribon_update_layout_calculate (Some sample_input)) = RIBON_UPDATE_STORAGE_STATUS_OK.
Proof.
  apply (layout_calculate_complete sample_input
    [512; 512; 512; 512; 512; 512; 512; 512; 1024; 3072; 512]).
  - constructor; try (by vm_compute). simpl. rewrite !Forall_cons. split_and!; try lia. constructor.
  - repeat (constructor; [vm_compute; reflexivity|]). constructor.
  - vm_compute. congruence.
  - vm_compute. reflexivity.
Defined.

(** Opening the canonical identity of a layout gives the layout back, with its
    digest set to the SHA-256 of the identity. *)
Theorem layout_identity_roundtrip l :
  layout_typed l -> layout_is_structurally_valid (Some l) = true ->
  let '(status, wire) := ribon_update_layout_identity_encode (Some l) in
  status = RIBON_UPDATE_STORAGE_STATUS_OK /\ len wire = RIBON_UPDATE_LAYOUT_IDENTITY_BYTES /\
  ribon_update_layout_identity_open (Some wire) =
    (RIBON_UPDATE_STORAGE_STATUS_OK, layout_with_digest l (ribon_security_sha256 wire)).
Proof.
  intros Ht Hv. apply layout_structurally_valid_wf in Hv; [|done].
  rewrite (layout_encode_image l Ht Hv). split_and!; [done|by apply len_image|].
  by apply layout_open_image.
Qed.

Lemma sample_layout_typed : layout_typed sample_layout.
Proof.
  assert (Hr : layout_regions sample_layout =
    place 0 0 [512; 512; 512; 512; 512; 512; 512; 512; 1024; 3072; 512]) by (vm_compute; reflexivity).
  constructor.
  - split; [vm_compute; discriminate|vm_compute; reflexivity].
  - split; [vm_compute; discriminate|vm_compute; reflexivity].
  - by rewrite Hr.
  - rewrite Hr. apply place_typed; [lia|vm_compute; discriminate|lia| |vm_compute; discriminate].
    rewrite !Forall_cons, Forall_nil. lia.
  - vm_compute. reflexivity.
  - split; [vm_compute; reflexivity|apply octetsb_octets; vm_compute; reflexivity].
Qed.

Lemma layout_identity_roundtrip_witness :
  let l := sample_layout in
  layout_is_structurally_valid (Some l) = true /\
  fst (ribon_update_layout_identity_encode (Some l)) = RIBON_UPDATE_STORAGE_STATUS_OK.
Proof.
  intros l. assert (Hv : layout_is_structurally_valid (Some l) = true) by (vm_compute; reflexivity).
  split; [exact Hv|].
  pose proof (layout_identity_roundtrip l sample_layout_typed Hv) as H.
  destruct (ribon_update_layout_identity_encode (Some l)) as [status wire]. exact (proj1 H).
Defined.
