(* ===== verification/SlotMetadata.v ===== *)
(** * Slot metadata ([src/update/storage.c])

    The A/B slot table: its invariants, the canonical 512-byte wire object and
    the lifecycle transition.  The lifecycle enum is kept as the integer the wire
    holds, so that every value [open] may load is representable; a pointer to an
    output structure is taken to be non-NULL and the structure is a result. *)

From S2P Require Import Prelude.
From S2P Require Import Buffer.
From S2P Require Import Wire.
From S2P Require Import Image.
From S2P Require Import Sha256.
From S2P Require Import Seal.
From S2P Require Import Provider.
From S2P Require Import Layout.

Definition RIBON_UPDATE_SLOT_COUNT : Z := 2.
Definition RIBON_UPDATE_SLOT_NONE : Z := UINT32_MAX.
Definition RIBON_UPDATE_SLOT_EMPTY : Z := 0.
Definition RIBON_UPDATE_SLOT_STAGING : Z := 1.
Definition RIBON_UPDATE_SLOT_VERIFIED : Z := 2.
Definition RIBON_UPDATE_SLOT_PENDING : Z := 3.
Definition RIBON_UPDATE_SLOT_CONFIRMED : Z := 4.
Definition RIBON_UPDATE_SLOT_BAD : Z := 5.
Definition METADATA_HEADER_BYTES : Z := 64.
Definition METADATA_SLOT_BYTES : Z := 160.
Definition METADATA_BODY_BYTES : Z := 384.
Definition METADATA_DIGEST_OFFSET : Z := 384.
Definition METADATA_CHECKSUM_OFFSET : Z := 416.
Definition METADATA_RESERVED_OFFSET : Z := 420.
Definition METADATA_MAX_BOOT_ATTEMPTS : Z := 32.
Definition sizeof_RibonUpdateSlotMetadata : Z := 416.
Definition sizeof_RibonUpdateSlotTransition : Z := 160.

(** "RIBON-SLOT-METADATA-V1", padded with NUL to 32 bytes *)
Definition ribon_update_metadata_magic : bytes :=
  [82; 73; 66; 79; 78; 45; 83; 76; 79; 84; 45; 77; 69; 84; 65; 68; 65; 84; 65; 45; 86; 49;
   0; 0; 0; 0; 0; 0; 0; 0; 0; 0].

Record RibonUpdateSlotEntry := mkEntry {
  entry_slot_id : Z;
  entry_state : Z;
  entry_metadata_generation : Z;
  entry_image_generation : Z;
  entry_manifest_digest : bytes;
  entry_image_set_digest : bytes;
  entry_layout_digest : bytes;
  entry_boot_attempts : Z;
  entry_flags : Z;
  entry_reserved : list Z;
}.

Record RibonUpdateSlotMetadata := mkMetadata {
  metadata_size : Z;
  metadata_abi_version : Z;
  metadata_flags : Z;
  metadata_active_slot : Z;
  metadata_pending_slot : Z;
  metadata_slot_count : Z;
  metadata_generation : Z;
  metadata_slots : list RibonUpdateSlotEntry;
  metadata_wire_digest : bytes;
  metadata_reserved : list Z;
}.

Record RibonUpdateSlotTransition := mkTransition {
  transition_size : Z;
  transition_abi_version : Z;
  transition_flags : Z;
  transition_slot_id : Z;
  transition_next_state : Z;
  transition_boot_attempts : Z;
  transition_image_generation : Z;
  transition_manifest_digest : bytes;
  transition_image_set_digest : bytes;
  transition_layout_digest : bytes;
  transition_reserved : list Z;
}.

Definition zero_entry : RibonUpdateSlotEntry :=
  mkEntry 0 0 0 0 (zeros 32) (zeros 32) (zeros 32) 0 0 [0; 0; 0; 0].

(** [memset(metadata, 0, sizeof( *metadata))] *)
Definition zero_metadata : RibonUpdateSlotMetadata :=
  mkMetadata 0 0 0 0 0 0 0 [zero_entry; zero_entry] (zeros 32) [0; 0; 0; 0].

(** [metadata->slots[slot]] *)
Definition slot_at (m : RibonUpdateSlotMetadata) (slot : Z) : RibonUpdateSlotEntry :=
  nth (Z.to_nat slot) (metadata_slots m) zero_entry.

(** ** Invariants the code checks *)

Definition slot_entry_is_valid (entry : RibonUpdateSlotEntry) (expected_slot generation : Z) : bool :=
  let empty_identity :=
    bytes_zero (entry_manifest_digest entry) && bytes_zero (entry_image_set_digest entry) &&
    bytes_zero (entry_layout_digest entry) in
  if (entry_slot_id entry !=? expected_slot) || (entry_flags entry !=? 0) ||
     (entry_state entry <? RIBON_UPDATE_SLOT_EMPTY) || (entry_state entry >? RIBON_UPDATE_SLOT_BAD) ||
     (entry_boot_attempts entry >? METADATA_MAX_BOOT_ATTEMPTS) ||
     negb (bytes_zero (entry_reserved entry))
  then false
  else if entry_state entry =? RIBON_UPDATE_SLOT_EMPTY
  then (entry_metadata_generation entry =? 0) && (entry_image_generation entry =? 0) &&
       (entry_boot_attempts entry =? 0) && empty_identity
  else if (entry_metadata_generation entry =? 0) || (entry_metadata_generation entry >? generation) ||
          (entry_image_generation entry =? 0) || empty_identity ||
          bytes_zero (entry_manifest_digest entry) || bytes_zero (entry_image_set_digest entry) ||
          bytes_zero (entry_layout_digest entry)
  then false
  else if entry_state entry =? RIBON_UPDATE_SLOT_PENDING
  then entry_boot_attempts entry !=? 0
  else entry_boot_attempts entry =? 0.

(** The loop over the slots: [None] when an entry is refused, otherwise the
    number of pending entries. *)
Fixpoint pending_entries (slots : list RibonUpdateSlotEntry) (index generation count : Z) : option Z :=
  match slots with
  | [] => Some count
  | entry :: rest =>
    if negb (slot_entry_is_valid entry index generation) then None
    else pending_entries rest (index + 1) generation
           (if entry_state entry =? RIBON_UPDATE_SLOT_PENDING then count + 1 else count)
  end.

Definition metadata_is_valid (metadata : option RibonUpdateSlotMetadata) : bool :=
  match metadata with
  | None => false
  | Some m =>
    if (metadata_size m !=? sizeof_RibonUpdateSlotMetadata) ||
       (metadata_abi_version m !=? RIBON_UPDATE_STORAGE_ABI_VERSION) ||
       (metadata_flags m !=? 0) || (metadata_slot_count m !=? RIBON_UPDATE_SLOT_COUNT) ||
       (metadata_generation m =? 0) || (metadata_active_slot m >=? RIBON_UPDATE_SLOT_COUNT) ||
       ((metadata_pending_slot m !=? RIBON_UPDATE_SLOT_NONE) &&
        (metadata_pending_slot m >=? RIBON_UPDATE_SLOT_COUNT)) ||
       (entry_state (slot_at m (metadata_active_slot m)) !=? RIBON_UPDATE_SLOT_CONFIRMED) ||
       negb (bytes_zero (metadata_reserved m))
    then false
    else
      match pending_entries (take (Z.to_nat RIBON_UPDATE_SLOT_COUNT) (metadata_slots m)) 0
              (metadata_generation m) 0 with
      | None => false
      | Some pending_count =>
        if metadata_pending_slot m =? RIBON_UPDATE_SLOT_NONE then pending_count =? 0
        else (pending_count =? 1) && (metadata_pending_slot m !=? metadata_active_slot m) &&
             (entry_state (slot_at m (metadata_pending_slot m)) =? RIBON_UPDATE_SLOT_PENDING)
      end
  end.

(** ** The wire object *)

Definition encode_entry (output : bytes) (row : Z) (entry : RibonUpdateSlotEntry) : bytes :=
  let output := store_u32 output row (entry_slot_id entry) in
  let output := store_u32 output (row + 4) (entry_state entry) in
  let output := store_u64 output (row + 8) (entry_metadata_generation entry) in
  let output := store_u64 output (row + 16) (entry_image_generation entry) in
  let output := store output (row + 24) (entry_manifest_digest entry) in
  let output := store output (row + 56) (entry_image_set_digest entry) in
  let output := store output (row + 88) (entry_layout_digest entry) in
  let output := store_u32 output (row + 120) (entry_boot_attempts entry) in
  store_u32 output (row + 124) (entry_flags entry).

Definition ribon_update_slot_metadata_encode (metadata : option RibonUpdateSlotMetadata)
  : RibonUpdateStorageStatus * bytes :=
  let output := zeros RIBON_UPDATE_SLOT_METADATA_BYTES in
  match metadata with
  | None => (RIBON_UPDATE_STORAGE_STATUS_INVALID_ARGUMENT, output)
  | Some m =>
    if negb (metadata_is_valid metadata)
    then (RIBON_UPDATE_STORAGE_STATUS_INVALID_ARGUMENT, output)
    else
      let output := store output 0 ribon_update_metadata_magic in
      let output := store_u16 output 32 RIBON_UPDATE_STORAGE_ABI_VERSION in
      let output := store_u16 output 34 METADATA_HEADER_BYTES in
      let output := store_u32 output 36 RIBON_UPDATE_SLOT_METADATA_BYTES in
      let output := store_u64 output 40 (metadata_generation m) in
      let output := store_u32 output 48 (metadata_active_slot m) in
      let output := store_u32 output 52 (metadata_pending_slot m) in
      let output := store_u32 output 56 (metadata_slot_count m) in
      let output := encode_entry output METADATA_HEADER_BYTES (slot_at m 0) in
      let output := encode_entry output (METADATA_HEADER_BYTES + METADATA_SLOT_BYTES) (slot_at m 1) in
      let digest := ribon_security_sha256 (slice 0 METADATA_BODY_BYTES output) in
      let output := store output METADATA_DIGEST_OFFSET digest in
      (RIBON_UPDATE_STORAGE_STATUS_OK,
       store_u32 output METADATA_CHECKSUM_OFFSET
         (crc32c (slice 0 METADATA_CHECKSUM_OFFSET output)))
  end.

Definition decode_entry (b : bytes) (row : Z) : RibonUpdateSlotEntry :=
  mkEntry (load_u32 b row) (load_u32 b (row + 4)) (load_u64 b (row + 8)) (load_u64 b (row + 16))
    (slice (row + 24) 32 b) (slice (row + 56) 32 b) (slice (row + 88) 32 b)
    (load_u32 b (row + 120)) (load_u32 b (row + 124)) [0; 0; 0; 0].

Definition ribon_update_slot_metadata_open (input : option bytes)
  : RibonUpdateStorageStatus * RibonUpdateSlotMetadata :=
  match input with
  | None => (RIBON_UPDATE_STORAGE_STATUS_MALFORMED, zero_metadata)
  | Some b =>
    if (len b !=? RIBON_UPDATE_SLOT_METADATA_BYTES) ||
       negb (bytes_equal (slice 0 32 b) ribon_update_metadata_magic) ||
       (load_u16 b 32 !=? RIBON_UPDATE_STORAGE_ABI_VERSION) ||
       (load_u16 b 34 !=? METADATA_HEADER_BYTES) ||
       (load_u32 b 36 !=? RIBON_UPDATE_SLOT_METADATA_BYTES) ||
       (load_u32 b 60 !=? 0) ||
       negb (bytes_zero (slice METADATA_RESERVED_OFFSET
               (RIBON_UPDATE_SLOT_METADATA_BYTES - METADATA_RESERVED_OFFSET) b))
    then (RIBON_UPDATE_STORAGE_STATUS_MALFORMED, zero_metadata)
    else
      let digest := ribon_security_sha256 (slice 0 METADATA_BODY_BYTES b) in
      if negb (bytes_equal digest (slice METADATA_DIGEST_OFFSET 32 b)) ||
         (load_u32 b METADATA_CHECKSUM_OFFSET !=? crc32c (slice 0 METADATA_CHECKSUM_OFFSET b))
      then (RIBON_UPDATE_STORAGE_STATUS_MALFORMED, zero_metadata)
      else
        let row0 := METADATA_HEADER_BYTES in
        let row1 := METADATA_HEADER_BYTES + METADATA_SLOT_BYTES in
        if negb (bytes_zero (slice (row0 + 128) 32 b)) || negb (bytes_zero (slice (row1 + 128) 32 b))
        then (RIBON_UPDATE_STORAGE_STATUS_MALFORMED, zero_metadata)
        else
          let metadata :=
            mkMetadata sizeof_RibonUpdateSlotMetadata RIBON_UPDATE_STORAGE_ABI_VERSION 0
              (load_u32 b 48) (load_u32 b 52) (load_u32 b 56) (load_u64 b 40)
              [decode_entry b row0; decode_entry b row1] digest [0; 0; 0; 0] in
          if negb (metadata_is_valid (Some metadata))
          then (RIBON_UPDATE_STORAGE_STATUS_MALFORMED, zero_metadata)
          else (RIBON_UPDATE_STORAGE_STATUS_OK, metadata)
  end.

(** ** The lifecycle transition *)

Definition transition_is_allowed (current next : Z) : bool :=
  if (current =? RIBON_UPDATE_SLOT_EMPTY) || (current =? RIBON_UPDATE_SLOT_BAD) ||
     (current =? RIBON_UPDATE_SLOT_CONFIRMED)
  then next =? RIBON_UPDATE_SLOT_STAGING
  else if current =? RIBON_UPDATE_SLOT_STAGING
  then (next =? RIBON_UPDATE_SLOT_VERIFIED) || (next =? RIBON_UPDATE_SLOT_BAD)
  else if current =? RIBON_UPDATE_SLOT_VERIFIED
  then (next =? RIBON_UPDATE_SLOT_PENDING) || (next =? RIBON_UPDATE_SLOT_BAD)
  else if current =? RIBON_UPDATE_SLOT_PENDING
  then (next =? RIBON_UPDATE_SLOT_CONFIRMED) || (next =? RIBON_UPDATE_SLOT_BAD)
  else false.

Definition transition_identity_matches (entry : RibonUpdateSlotEntry) (t : RibonUpdateSlotTransition)
  : bool :=
  (entry_image_generation entry =? transition_image_generation t) &&
  bytes_equal (entry_manifest_digest entry) (transition_manifest_digest t) &&
  bytes_equal (entry_image_set_digest entry) (transition_image_set_digest t) &&
  bytes_equal (entry_layout_digest entry) (transition_layout_digest t).

(** [memcpy(m->wire_digest, d, 32)] *)
Definition metadata_with_digest (m : RibonUpdateSlotMetadata) (d : bytes) : RibonUpdateSlotMetadata :=
  mkMetadata (metadata_size m) (metadata_abi_version m) (metadata_flags m) (metadata_active_slot m)
    (metadata_pending_slot m) (metadata_slot_count m) (metadata_generation m) (metadata_slots m) d
    (metadata_reserved m).

(** The entry after the assignments of the transition. *)
Definition transition_entry (entry : RibonUpdateSlotEntry) (t : RibonUpdateSlotTransition)
    (generation : Z) : RibonUpdateSlotEntry :=
  let staging := transition_next_state t =? RIBON_UPDATE_SLOT_STAGING in
  mkEntry (entry_slot_id entry) (transition_next_state t) generation
    (if staging then transition_image_generation t else entry_image_generation entry)
    (if staging then transition_manifest_digest t else entry_manifest_digest entry)
    (if staging then transition_image_set_digest t else entry_image_set_digest entry)
    (if staging then transition_layout_digest t else entry_layout_digest entry)
    (transition_boot_attempts t) (entry_flags entry) (entry_reserved entry).

(** The metadata after the assignments of the transition. *)
Definition transition_next (m : RibonUpdateSlotMetadata) (t : RibonUpdateSlotTransition)
  : RibonUpdateSlotMetadata :=
  let generation := u64 (metadata_generation m + 1) in
  mkMetadata (metadata_size m) (metadata_abi_version m) (metadata_flags m)
    (if transition_next_state t =? RIBON_UPDATE_SLOT_CONFIRMED
     then transition_slot_id t else metadata_active_slot m)
    (if transition_next_state t =? RIBON_UPDATE_SLOT_PENDING then transition_slot_id t
     else if (transition_next_state t =? RIBON_UPDATE_SLOT_CONFIRMED) ||
             (transition_next_state t =? RIBON_UPDATE_SLOT_BAD)
     then RIBON_UPDATE_SLOT_NONE
     else metadata_pending_slot m)
    (metadata_slot_count m) generation
    (<[Z.to_nat (transition_slot_id t) :=
         transition_entry (slot_at m (transition_slot_id t)) t generation]> (metadata_slots m))
    (zeros 32) (metadata_reserved m).

Definition ribon_update_slot_metadata_transition (current : option RibonUpdateSlotMetadata)
    (transition : option RibonUpdateSlotTransition)
  : RibonUpdateStorageStatus * RibonUpdateSlotMetadata :=
  match current, transition with
  | Some m, Some t =>
    if negb (metadata_is_valid current) ||
       (transition_size t !=? sizeof_RibonUpdateSlotTransition) ||
       (transition_abi_version t !=? RIBON_UPDATE_STORAGE_ABI_VERSION) ||
       (transition_flags t !=? 0) || (transition_slot_id t >=? RIBON_UPDATE_SLOT_COUNT) ||
       (transition_slot_id t =? metadata_active_slot m) ||
       (transition_next_state t <? RIBON_UPDATE_SLOT_EMPTY) ||
       (transition_next_state t >? RIBON_UPDATE_SLOT_BAD) ||
       (transition_boot_attempts t >? METADATA_MAX_BOOT_ATTEMPTS) ||
       (transition_image_generation t =? 0) ||
       bytes_zero (transition_manifest_digest t) || bytes_zero (transition_image_set_digest t) ||
       bytes_zero (transition_layout_digest t) || negb (bytes_zero (transition_reserved t)) ||
       (metadata_generation m =? UINT64_MAX) ||
       negb (transition_is_allowed (entry_state (slot_at m (transition_slot_id t)))
               (transition_next_state t))
    then (RIBON_UPDATE_STORAGE_STATUS_BAD_STATE, zero_metadata)
    else if (if transition_next_state t =? RIBON_UPDATE_SLOT_PENDING
             then (transition_boot_attempts t =? 0) ||
                  (metadata_pending_slot m !=? RIBON_UPDATE_SLOT_NONE)
             else transition_boot_attempts t !=? 0)
    then (RIBON_UPDATE_STORAGE_STATUS_BAD_STATE, zero_metadata)
    else if (transition_next_state t !=? RIBON_UPDATE_SLOT_STAGING) &&
            negb (transition_identity_matches (slot_at m (transition_slot_id t)) t)
    then (RIBON_UPDATE_STORAGE_STATUS_IDENTITY_MISMATCH, zero_metadata)
    else
      let next := transition_next m t in
      if negb (metadata_is_valid (Some next))
      then (RIBON_UPDATE_STORAGE_STATUS_BAD_STATE, zero_metadata)
      else
        match ribon_update_slot_metadata_encode (Some next) with
        | (RIBON_UPDATE_STORAGE_STATUS_OK, wire) =>
          (RIBON_UPDATE_STORAGE_STATUS_OK,
           metadata_with_digest next (ribon_security_sha256 (slice 0 METADATA_BODY_BYTES wire)))
        | _ => (RIBON_UPDATE_STORAGE_STATUS_BAD_STATE, zero_metadata)
        end
  | _, _ => (RIBON_UPDATE_STORAGE_STATUS_BAD_STATE, zero_metadata)
  end.

(** ** The wire object reads back *)

(** The fields have their C widths and the arrays their C lengths. *)
Record entry_typed (e : RibonUpdateSlotEntry) : Prop := {
  typed_slot_id : word 32 (entry_slot_id e);
  typed_state : word 32 (entry_state e);
  typed_metadata_generation : word 64 (entry_metadata_generation e);
  typed_image_generation : word 64 (entry_image_generation e);
  typed_manifest : len (entry_manifest_digest e) = 32 /\ octets (entry_manifest_digest e);
  typed_image_set : len (entry_image_set_digest e) = 32 /\ octets (entry_image_set_digest e);
  typed_layout : len (entry_layout_digest e) = 32 /\ octets (entry_layout_digest e);
  typed_attempts : word 32 (entry_boot_attempts e);
  typed_flags : word 32 (entry_flags e);
  typed_entry_reserved : length (entry_reserved e) = 4%nat;
}.

Record metadata_typed (m : RibonUpdateSlotMetadata) : Prop := {
  typed_active : word 32 (metadata_active_slot m);
  typed_pending : word 32 (metadata_pending_slot m);
  typed_count : word 32 (metadata_slot_count m);
  typed_generation : word 64 (metadata_generation m);
  typed_slots : length (metadata_slots m) = 2%nat;
  typed_entries : Forall entry_typed (metadata_slots m);
  typed_metadata_reserved : length (metadata_reserved m) = 4%nat;
}.

Definition entry_writes (row : Z) (e : RibonUpdateSlotEntry) : list write :=
  [(row, le_bytes 4 (entry_slot_id e)); (row + 4, le_bytes 4 (entry_state e));
   (row + 8, le_bytes 8 (entry_metadata_generation e));
   (row + 16, le_bytes 8 (entry_image_generation e));
   (row + 24, entry_manifest_digest e); (row + 56, entry_image_set_digest e);
   (row + 88, entry_layout_digest e); (row + 120, le_bytes 4 (entry_boot_attempts e));
   (row + 124, le_bytes 4 (entry_flags e))].

Definition metadata_body (m : RibonUpdateSlotMetadata) : list write :=
  [(0, ribon_update_metadata_magic); (32, le_bytes 2 1); (34, le_bytes 2 64); (36, le_bytes 4 512);
   (40, le_bytes 8 (metadata_generation m)); (48, le_bytes 4 (metadata_active_slot m));
   (52, le_bytes 4 (metadata_pending_slot m)); (56, le_bytes 4 (metadata_slot_count m))]
  ++ entry_writes 64 (slot_at m 0) ++ entry_writes 224 (slot_at m 1).

(** The canonical wire object of valid metadata. *)
Definition metadata_wire (m : RibonUpdateSlotMetadata) : bytes :=
  image 512 (seal 512 (metadata_body m) 384 416).

Definition metadata_shape : list (Z * Z) :=
  [(0, 32); (32, 2); (34, 2); (36, 4); (40, 8); (48, 4); (52, 4); (56, 4);
   (64, 4); (68, 4); (72, 8); (80, 8); (88, 32); (120, 32); (152, 32); (184, 4); (188, 4);
   (224, 4); (228, 4); (232, 8); (240, 8); (248, 32); (280, 32); (312, 32); (344, 4); (348, 4)].

Lemma metadata_encode_wire m :
  metadata_is_valid (Some m) = true ->
  ribon_update_slot_metadata_encode (Some m) = (RIBON_UPDATE_STORAGE_STATUS_OK, metadata_wire m).
Proof.
  intros Hv. unfold ribon_update_slot_metadata_encode. rewrite Hv. simpl negb. cbv iota.
  unfold encode_entry, METADATA_HEADER_BYTES, METADATA_SLOT_BYTES, METADATA_CHECKSUM_OFFSET.
  rewrite !store_u64_le, !store_u32_le, !store_u16_le by lia.
  unfold metadata_wire, seal, checked, image. rewrite writes_app. reflexivity.
Qed.

Lemma slot_at_typed m i :
  metadata_typed m -> 0 <= i < 2 -> entry_typed (slot_at m i).
Proof.
  intros Ht Hi. unfold slot_at. rewrite nth_lookup.
  destruct (lookup_lt_is_Some_2 (metadata_slots m) (Z.to_nat i)) as [e He];
    [rewrite (typed_slots m Ht); lia|]. rewrite He. simpl.
  exact (proj1 (Forall_lookup _ _) (typed_entries m Ht) _ _ He).
Qed.

Lemma shape_metadata_body m : metadata_typed m -> shape (metadata_body m) = metadata_shape.
Proof.
  intros Ht. destruct (slot_at_typed m 0 Ht ltac:(lia)), (slot_at_typed m 1 Ht ltac:(lia)).
  unfold shape, metadata_body, entry_writes. cbn [fmap list_fmap app fst snd].
  rewrite !len_le_bytes.
  repeat match goal with H : len _ = 32 /\ _ |- _ => destruct H as [-> _] end. reflexivity.
Qed.

Lemma octets_metadata_body m :
  metadata_typed m -> Forall (fun w => octets (snd w)) (metadata_body m).
Proof.
  intros Ht. destruct (slot_at_typed m 0 Ht ltac:(lia)), (slot_at_typed m 1 Ht ltac:(lia)).
  unfold metadata_body, entry_writes. rewrite !Forall_app, !Forall_cons. cbn [snd].
  split_and!; try apply octets_le_bytes; try tauto; try apply Forall_nil_2.
  by apply octetsb_octets.
Qed.

Lemma len_metadata_wire m : len (metadata_wire m) = 512.
Proof. by apply len_image. Qed.

Lemma octets_metadata_wire m : metadata_typed m -> octets (metadata_wire m).
Proof.
  intros Ht. apply octets_image, octets_seal. by apply octets_metadata_body.
Qed.

#[export] Hint Rewrite len_metadata_wire : len.
#[export] Hint Resolve octets_metadata_wire : ribon.

(** ** What the validity check means *)

(** The slot that is not active. *)
Definition other_slot (m : RibonUpdateSlotMetadata) : Z := 1 - metadata_active_slot m.

(** With two slots and a confirmed active one, only the other slot can be
    pending, so the pending field is determined by that slot's state. *)
Definition expected_pending (m : RibonUpdateSlotMetadata) : Z :=
  if entry_state (slot_at m (other_slot m)) =? RIBON_UPDATE_SLOT_PENDING
  then other_slot m else RIBON_UPDATE_SLOT_NONE.

Record metadata_wf (m : RibonUpdateSlotMetadata) : Prop := {
  wf_metadata_header : metadata_size m = sizeof_RibonUpdateSlotMetadata /\
    metadata_abi_version m = RIBON_UPDATE_STORAGE_ABI_VERSION /\ metadata_flags m = 0 /\
    metadata_slot_count m = RIBON_UPDATE_SLOT_COUNT /\ metadata_reserved m = [0; 0; 0; 0];
  wf_generation : 0 < metadata_generation m;
  wf_active : metadata_active_slot m = 0 \/ metadata_active_slot m = 1;
  wf_active_state : entry_state (slot_at m (metadata_active_slot m)) = RIBON_UPDATE_SLOT_CONFIRMED;
  wf_pending : metadata_pending_slot m = expected_pending m;
  wf_entries : forall i, i = 0 \/ i = 1 ->
    slot_entry_is_valid (slot_at m i) i (metadata_generation m) = true;
}.

(** The pending checks, once the active slot is known to be confirmed. *)
Lemma pending_checks (e0 e1 : RibonUpdateSlotEntry) active pending :
  active = 0 \/ active = 1 -> 0 <= pending ->
  entry_state (nth (Z.to_nat active) [e0; e1] zero_entry) = RIBON_UPDATE_SLOT_CONFIRMED ->
  let count := if entry_state e1 =? RIBON_UPDATE_SLOT_PENDING
               then (if entry_state e0 =? RIBON_UPDATE_SLOT_PENDING then 0 + 1 else 0) + 1
               else if entry_state e0 =? RIBON_UPDATE_SLOT_PENDING then 0 + 1 else 0 in
  negb ((pending !=? RIBON_UPDATE_SLOT_NONE) && (pending >=? RIBON_UPDATE_SLOT_COUNT)) &&
  (if pending =? RIBON_UPDATE_SLOT_NONE then count =? 0
   else (count =? 1) && (pending !=? active) &&
        (entry_state (nth (Z.to_nat pending) [e0; e1] zero_entry) =? RIBON_UPDATE_SLOT_PENDING)) = true
  <->
  pending = if entry_state (nth (Z.to_nat (1 - active)) [e0; e1] zero_entry) =? RIBON_UPDATE_SLOT_PENDING
            then 1 - active else RIBON_UPDATE_SLOT_NONE.
Proof.
  unfold RIBON_UPDATE_SLOT_NONE, RIBON_UPDATE_SLOT_COUNT, UINT32_MAX, RIBON_UPDATE_SLOT_PENDING,
    RIBON_UPDATE_SLOT_CONFIRMED.
  intros [-> | ->] Hp Hs; simpl in *; rewrite Hs; simpl.
  - destruct (Z.eqb_spec pending 4294967295) as [->|Hne]; simpl.
    { destruct (Z.eqb_spec (entry_state e1) 3); split; done. }
    destruct (Z.leb_spec 2 pending); simpl.
    { split; [done|]. destruct (_ =? 3); lia. }
    destruct (Z.eqb_spec (entry_state e1) 3) as [E|E]; simpl; [|split; [done|lia]].
    destruct (Z.eqb_spec pending 0) as [->|]; simpl; [split; [done|lia]|].
    assert (pending = 1) as -> by lia. simpl. rewrite E. done.
  - destruct (Z.eqb_spec pending 4294967295) as [->|Hne]; simpl.
    { destruct (Z.eqb_spec (entry_state e0) 3); split; done. }
    destruct (Z.leb_spec 2 pending); simpl.
    { split; [done|]. destruct (_ =? 3); lia. }
    destruct (Z.eqb_spec (entry_state e0) 3) as [E|E]; simpl; [|split; [done|lia]].
    destruct (Z.eqb_spec pending 1) as [->|]; simpl; [split; [done|lia]|].
    assert (pending = 0) as -> by lia. simpl. rewrite E. done.
Qed.

Lemma metadata_valid_wf m : metadata_typed m -> metadata_is_valid (Some m) = true <-> metadata_wf m.
Proof.
  intros [Ha Hp _ Hg Hn _ Hr]. rewrite word32 in Ha, Hp. rewrite word64 in Hg.
  unfold metadata_is_valid, slot_at.
  destruct (metadata_slots m) as [|e0 [|e1 [|]]] eqn:Hslots; try done. clear Hn.
  change (take (Z.to_nat RIBON_UPDATE_SLOT_COUNT) [e0; e1]) with [e0; e1]. cbn [pending_entries].
  split.
  - destruct (_ || _) eqn:G; [done|]. bool_to_prop.
    destruct (slot_entry_is_valid e0 0 _) eqn:V0; [|done].
    destruct (slot_entry_is_valid e1 (0 + 1) _) eqn:V1; [|done]. simpl negb. cbv iota. intros Hfin.
    assert (Hact : metadata_active_slot m = 0 \/ metadata_active_slot m = 1)
      by (unfold RIBON_UPDATE_SLOT_COUNT in *; lia).
    constructor; try done; try lia.
    + split_and!; try done. by apply reserved4.
    + unfold slot_at. by rewrite Hslots.
    + unfold expected_pending, other_slot, slot_at. rewrite Hslots.
      apply (pending_checks e0 e1); try done; [lia|]. rewrite Hfin, andb_true_r.
      by apply negb_true_iff.
    + unfold slot_at. rewrite Hslots. intros i [->| ->]; done.
  - intros [(-> & -> & -> & -> & Hz) Hpos Hact Hst Hpend Hent]. unfold slot_at in *.
    unfold expected_pending, other_slot, slot_at in Hpend. rewrite Hslots in *.
    apply (pending_checks e0 e1) in Hpend; [|done|lia|done].
    apply andb_true_iff in Hpend as [Hp1 Hp2]. apply negb_true_iff in Hp1.
    rewrite Hp1, Hst, (proj2 (reserved4 _ Hr) Hz).
    rewrite (Hent 0 (or_introl eq_refl) : slot_entry_is_valid e0 0 _ = true).
    change (0 + 1) with 1. rewrite (Hent 1 (or_intror eq_refl) : slot_entry_is_valid e1 1 _ = true).
    destruct (Z.eqb_spec (metadata_generation m) 0); [lia|].
    destruct (Z.leb_spec RIBON_UPDATE_SLOT_COUNT (metadata_active_slot m));
      [unfold RIBON_UPDATE_SLOT_COUNT in *; lia|]. exact Hp2.
Qed.

Lemma entry_valid_reserved e i g :
  entry_typed e -> slot_entry_is_valid e i g = true ->
  entry_slot_id e = i /\ entry_flags e = 0 /\ entry_reserved e = [0; 0; 0; 0] /\
  0 <= entry_state e <= 5 /\ entry_boot_attempts e <= 32.
Proof.
  intros [] H. unfold slot_entry_is_valid in H. destruct (_ || _) eqn:G in H; [done|]. bool_to_prop.
  split_and!; try done. by apply reserved4.
Qed.

Definition metadata_digest (m : RibonUpdateSlotMetadata) : bytes :=
  body_digest 512 (metadata_body m) 384.

Section MetadataFields.
Context (m : RibonUpdateSlotMetadata) (Ht : metadata_typed m).

Lemma shape_metadata_wire :
  shape (seal 512 (metadata_body m) 384 416) = metadata_shape ++ [(384, 32); (416, 4)].
Proof. apply shape_seal. by apply shape_metadata_body. Qed.

Lemma octets_metadata_seal :
  Forall (fun w => octets (snd w)) (seal 512 (metadata_body m) 384 416).
Proof. apply octets_seal. by apply octets_metadata_body. Qed.

Lemma metadata_wire_header :
  let b := metadata_wire m in
  slice 0 32 b = ribon_update_metadata_magic /\ load_u16 b 32 = 1 /\ load_u16 b 34 = 64 /\
  load_u32 b 36 = 512 /\ load_u64 b 40 = metadata_generation m /\
  load_u32 b 48 = metadata_active_slot m /\ load_u32 b 52 = metadata_pending_slot m /\
  load_u32 b 56 = metadata_slot_count m /\ load_u32 b 60 = 0 /\
  slice 420 92 b = zeros 92 /\ slice 192 32 b = zeros 32 /\ slice 352 32 b = zeros 32.
Proof.
  pose proof shape_metadata_wire as Hsh. pose proof octets_metadata_seal as Hws.
  destruct Ht. unfold metadata_wire.
  assert (H60 : slice 60 4 (image 512 (seal 512 (metadata_body m) 384 416)) = zeros 4)
    by image_field Hsh.
  split_and!; try (image_load Hsh Hws in_range; done); try image_field Hsh.
  rewrite load_u32_le, H60; [done|by apply octets_image|lia|].
  by rewrite len_image.
Qed.

Lemma metadata_wire_entry row i :
  (row = 64 /\ i = 0) \/ (row = 224 /\ i = 1) ->
  entry_reserved (slot_at m i) = [0; 0; 0; 0] ->
  decode_entry (metadata_wire m) row = slot_at m i.
Proof.
  intros Hrow Hres. pose proof shape_metadata_wire as Hsh. pose proof octets_metadata_seal as Hws.
  destruct (slot_at_typed m 0 Ht ltac:(lia)), (slot_at_typed m 1 Ht ltac:(lia)).
  unfold decode_entry, metadata_wire. rewrite <- Hres.
  destruct Hrow as [[-> ->]|[-> ->]].
  - do 6 image_load Hsh Hws in_range.
    rewrite (image_bytes 512 _ _ ltac:(lia) Hsh 12 _ _ _ eq_refl) by (vm_compute; reflexivity).
    rewrite (image_bytes 512 _ _ ltac:(lia) Hsh 13 _ _ _ eq_refl) by (vm_compute; reflexivity).
    rewrite (image_bytes 512 _ _ ltac:(lia) Hsh 14 _ _ _ eq_refl) by (vm_compute; reflexivity).
    by destruct (slot_at m 0).
  - do 6 image_load Hsh Hws in_range.
    rewrite (image_bytes 512 _ _ ltac:(lia) Hsh 21 _ _ _ eq_refl) by (vm_compute; reflexivity).
    rewrite (image_bytes 512 _ _ ltac:(lia) Hsh 22 _ _ _ eq_refl) by (vm_compute; reflexivity).
    rewrite (image_bytes 512 _ _ ltac:(lia) Hsh 23 _ _ _ eq_refl) by (vm_compute; reflexivity).
    by destruct (slot_at m 1).
Qed.
End MetadataFields.

Lemma metadata_open_wire m :
  metadata_typed m -> metadata_is_valid (Some m) = true ->
  ribon_update_slot_metadata_open (Some (metadata_wire m)) =
  (RIBON_UPDATE_STORAGE_STATUS_OK, metadata_with_digest m (metadata_digest m)).
Proof.
  intros Ht Hv. pose proof Hv as Hw. apply metadata_valid_wf in Hw; [|done].
  destruct (metadata_wire_header m Ht) as (E1 & E2 & E3 & E4 & E5 & E6 & E7 & E8 & E9 & E10 & E11 & E12).
  destruct (entry_valid_reserved _ _ _ (slot_at_typed m 0 Ht ltac:(lia)) (wf_entries m Hw 0 ltac:(auto)))
    as (_ & _ & R0 & _).
  destruct (entry_valid_reserved _ _ _ (slot_at_typed m 1 Ht ltac:(lia)) (wf_entries m Hw 1 ltac:(auto)))
    as (_ & _ & R1 & _).
  unfold ribon_update_slot_metadata_open, METADATA_RESERVED_OFFSET, RIBON_UPDATE_SLOT_METADATA_BYTES,
    METADATA_HEADER_BYTES, METADATA_SLOT_BYTES, METADATA_BODY_BYTES, METADATA_DIGEST_OFFSET,
    METADATA_CHECKSUM_OFFSET.
  change (512 - 420) with 92. change (64 + 128) with 192. change (64 + 160 + 128) with 352.
  change (64 + 160) with 224.
  rewrite len_metadata_wire, E1, E2, E3, E4, E9, E10, E11, E12, bytes_equal_refl, !bytes_zero_zeros.
  rewrite (metadata_wire_entry m Ht 64 0), (metadata_wire_entry m Ht 224 1) by auto.
  rewrite E5, E6, E7, E8. simpl orb. cbv iota.
  pose proof (shape_metadata_body m Ht) as Hsh. pose proof (octets_metadata_body m Ht) as Hoct.
  unfold metadata_wire.
  rewrite (seal_checksum 512 384 416 _ _ Hsh eq_refl Hoct ltac:(lia) ltac:(lia) ltac:(lia)).
  rewrite (seal_body_digest 512 384 416 (metadata_body m) ltac:(lia) ltac:(lia) ltac:(lia)).
  rewrite (seal_digest 512 384 416 _ _ Hsh eq_refl ltac:(lia) ltac:(lia) ltac:(lia)).
  rewrite bytes_equal_refl, Z.eqb_refl. simpl orb. cbv iota. fold (metadata_digest m).
  assert (Hm : mkMetadata sizeof_RibonUpdateSlotMetadata RIBON_UPDATE_STORAGE_ABI_VERSION 0
    (metadata_active_slot m) (metadata_pending_slot m) (metadata_slot_count m) (metadata_generation m)
    [slot_at m 0; slot_at m 1] (metadata_digest m) [0; 0; 0; 0] =
    metadata_with_digest m (metadata_digest m)).
  { unfold metadata_with_digest. destruct (wf_metadata_header m Hw) as (-> & -> & -> & _ & ->).
    f_equal. unfold slot_at. pose proof (typed_slots m Ht).
    by destruct (metadata_slots m) as [|? [|? [|]]]. }
  rewrite Hm. change (metadata_is_valid (Some (metadata_with_digest m (metadata_digest m))))
    with (metadata_is_valid (Some m)). by rewrite Hv.
Qed.

(** What [open] accepts has its C types and passes the check. *)
Lemma decode_entry_typed b row :
  octets b -> 0 <= row -> row + 128 <= len b -> entry_typed (decode_entry b row).
Proof.
  intros Hb Hr Hl.
  constructor; try apply load_u32_word; try apply load_u64_word; auto; try lia;
    simpl; split; auto using octets_slice; apply len_slice; lia.
Qed.

Lemma metadata_open_typed b m :
  octets b -> ribon_update_slot_metadata_open (Some b) = (RIBON_UPDATE_STORAGE_STATUS_OK, m) ->
  metadata_typed m /\ metadata_is_valid (Some m) = true.
Proof.
  intros Hb. unfold ribon_update_slot_metadata_open, RIBON_UPDATE_SLOT_METADATA_BYTES.
  destruct (_ || _) eqn:G; [done|]. bool_to_prop. destruct (_ || _); [done|].
  destruct (_ || _); [done|]. destruct (metadata_is_valid _) eqn:Hv; [|done].
  injection 1 as <-. split; [|done].
  constructor; try apply load_u32_word; try apply load_u64_word; try done; try lia.
  repeat apply Forall_cons_2; [..|apply Forall_nil_2]; apply decode_entry_typed;
    unfold METADATA_HEADER_BYTES, METADATA_SLOT_BYTES; try lia; done.
Qed.

(** ** Properties *)

(** Opening the wire object of valid slot metadata gives the metadata back, with
    its digest set to the digest of the wire body. *)
Theorem slot_metadata_roundtrip m :
  metadata_typed m -> metadata_is_valid (Some m) = true ->
  let '(status, wire) := ribon_update_slot_metadata_encode (Some m) in
  status = RIBON_UPDATE_STORAGE_STATUS_OK /\ len wire = RIBON_UPDATE_SLOT_METADATA_BYTES /\
  ribon_update_slot_metadata_open (Some wire) =
    (RIBON_UPDATE_STORAGE_STATUS_OK,
     metadata_with_digest m (ribon_security_sha256 (slice 0 METADATA_BODY_BYTES wire))).
Proof.
  intros Ht Hv. rewrite (metadata_encode_wire m Hv). split_and!; [done|apply len_metadata_wire|].
  rewrite (metadata_open_wire m Ht Hv). do 2 f_equal. symmetry.
  apply (seal_body_digest 512 384 416); lia.
Qed.

(** Slot A runs a confirmed image, slot B is empty. *)
Definition sample_metadata : RibonUpdateSlotMetadata :=
  mkMetadata 416 1 0 0 RIBON_UPDATE_SLOT_NONE 2 1
    [mkEntry 0 RIBON_UPDATE_SLOT_CONFIRMED 1 7 (replicate 32 1) (replicate 32 2) (replicate 32 3)
       0 0 [0; 0; 0; 0];
     mkEntry 1 RIBON_UPDATE_SLOT_EMPTY 0 0 (zeros 32) (zeros 32) (zeros 32) 0 0 [0; 0; 0; 0]]
    (zeros 32) [0; 0; 0; 0].

Lemma sample_metadata_typed : metadata_typed sample_metadata.
Proof.
  assert (Hd : forall x, 0 <= x < 256 -> len (replicate 32 x) = 32 /\ octets (replicate 32 x)).
  { intros x Hx. split; [done|]. apply Forall_replicate. by apply word8. }
  constructor; try in_range; try done.
  repeat apply Forall_cons_2; [..|apply Forall_nil_2]; constructor; simpl; try in_range; try done;
    apply Hd; lia.
Qed.

Lemma slot_metadata_roundtrip_witness :
  fst (ribon_update_slot_metadata_encode (Some sample_metadata)) = RIBON_UPDATE_STORAGE_STATUS_OK.
Proof.
  assert (Hv : metadata_is_valid (Some sample_metadata) = true) by (vm_compute; reflexivity).
  pose proof (slot_metadata_roundtrip sample_metadata sample_metadata_typed Hv) as H.
  destruct (ribon_update_slot_metadata_encode (Some sample_metadata)). exact (proj1 H).
Defined.
