(* ===== verification/SlotLifecycle.v ===== *)
(** * The slot lifecycle, abstractly

    What the slot table promises its clients: one slot runs a confirmed image;
    the other goes through staging, verification and a trial, and takes over
    only when the trial is confirmed.  [lifecycle_step] is that contract; the
    metadata transition of [src/update/storage.c] is proved to implement it, in
    both directions. *)

From S2P Require Import Prelude.
From S2P Require Import Buffer.
From S2P Require Import Wire.
From S2P Require Import Image.
From S2P Require Import Sha256.
From S2P Require Import Seal.
From S2P Require Import Provider.
From S2P Require Import SlotMetadata.

(** ** The contract *)

Record image_identity := mkIdentity {
  id_generation : Z;
  id_manifest : bytes;
  id_image_set : bytes;
  id_layout : bytes;
}.

Inductive phase :=
| Empty
| Staged (id : image_identity)
| Verified (id : image_identity)
| Armed (id : image_identity) (attempts : Z)
| Confirmed (id : image_identity)
| Failed (id : image_identity).

Record lifecycle := mkLifecycle {
  lc_generation : Z;
  lc_active : Z;
  lc_running : image_identity;
  lc_other : phase;
}.

(** An identity the code accepts: no zero generation, no zero digest. *)
Definition identity_ok (id : image_identity) : Prop :=
  0 < id_generation id <= UINT64_MAX /\
  Forall (fun d => len d = 32 /\ octets d /\ bytes_zero d = false)
    [id_manifest id; id_image_set id; id_layout id].

Definition settled (p : phase) : Prop :=
  match p with Empty | Confirmed _ | Failed _ => True | _ => False end.

Definition in_flight (p : phase) (id : image_identity) : Prop :=
  p = Staged id \/ p = Verified id \/ exists n, p = Armed id n.

Inductive lifecycle_step : lifecycle -> lifecycle -> Prop :=
| step_stage g a run p id :
    settled p -> identity_ok id ->
    lifecycle_step (mkLifecycle g a run p) (mkLifecycle (g + 1) a run (Staged id))
| step_verify g a run id :
    lifecycle_step (mkLifecycle g a run (Staged id)) (mkLifecycle (g + 1) a run (Verified id))
| step_arm g a run id n :
    1 <= n <= 32 ->
    lifecycle_step (mkLifecycle g a run (Verified id)) (mkLifecycle (g + 1) a run (Armed id n))
| step_confirm g a run id n :
    lifecycle_step (mkLifecycle g a run (Armed id n))
      (mkLifecycle (g + 1) (1 - a) id (Confirmed run))
| step_fail g a run p id :
    in_flight p id ->
    lifecycle_step (mkLifecycle g a run p) (mkLifecycle (g + 1) a run (Failed id)).

(** ** The abstraction of the slot table *)

Definition entry_identity (e : RibonUpdateSlotEntry) : image_identity :=
  mkIdentity (entry_image_generation e) (entry_manifest_digest e) (entry_image_set_digest e)
    (entry_layout_digest e).

Definition entry_phase (e : RibonUpdateSlotEntry) : phase :=
  if entry_state e =? RIBON_UPDATE_SLOT_EMPTY then Empty
  else if entry_state e =? RIBON_UPDATE_SLOT_STAGING then Staged (entry_identity e)
  else if entry_state e =? RIBON_UPDATE_SLOT_VERIFIED then Verified (entry_identity e)
  else if entry_state e =? RIBON_UPDATE_SLOT_PENDING
  then Armed (entry_identity e) (entry_boot_attempts e)
  else if entry_state e =? RIBON_UPDATE_SLOT_CONFIRMED then Confirmed (entry_identity e)
  else Failed (entry_identity e).

Definition abstract (m : RibonUpdateSlotMetadata) : lifecycle :=
  mkLifecycle (metadata_generation m) (metadata_active_slot m)
    (entry_identity (slot_at m (metadata_active_slot m))) (entry_phase (slot_at m (other_slot m))).

Record transition_typed (t : RibonUpdateSlotTransition) : Prop := {
  typed_t_slot : word 32 (transition_slot_id t);
  typed_t_state : word 32 (transition_next_state t);
  typed_t_attempts : word 32 (transition_boot_attempts t);
  typed_t_generation : word 64 (transition_image_generation t);
  typed_t_manifest : len (transition_manifest_digest t) = 32 /\ octets (transition_manifest_digest t);
  typed_t_image_set : len (transition_image_set_digest t) = 32 /\ octets (transition_image_set_digest t);
  typed_t_layout : len (transition_layout_digest t) = 32 /\ octets (transition_layout_digest t);
}.

Definition transition_identity (t : RibonUpdateSlotTransition) : image_identity :=
  mkIdentity (transition_image_generation t) (transition_manifest_digest t)
    (transition_image_set_digest t) (transition_layout_digest t).

(** The conditions of the guards, for a valid table. *)
Record accepted (m : RibonUpdateSlotMetadata) (t : RibonUpdateSlotTransition) : Prop := {
  acc_header : transition_size t = sizeof_RibonUpdateSlotTransition /\
    transition_abi_version t = RIBON_UPDATE_STORAGE_ABI_VERSION /\ transition_flags t = 0 /\
    bytes_zero (transition_reserved t) = true;
  acc_slot : transition_slot_id t = other_slot m;
  acc_state : 0 <= transition_next_state t <= 5;
  acc_attempts : transition_boot_attempts t <= METADATA_MAX_BOOT_ATTEMPTS;
  acc_identity : identity_ok (transition_identity t);
  acc_generation : metadata_generation m < UINT64_MAX;
  acc_allowed : transition_is_allowed (entry_state (slot_at m (other_slot m)))
    (transition_next_state t) = true;
  acc_pending : transition_next_state t = RIBON_UPDATE_SLOT_PENDING <-> transition_boot_attempts t <> 0;
  acc_same : transition_next_state t <> RIBON_UPDATE_SLOT_STAGING ->
    entry_identity (slot_at m (other_slot m)) = transition_identity t;
}.

(** ** Accepted transitions preserve the invariant *)

Ltac states :=
  unfold RIBON_UPDATE_SLOT_EMPTY, RIBON_UPDATE_SLOT_BAD, RIBON_UPDATE_SLOT_PENDING,
    RIBON_UPDATE_SLOT_CONFIRMED, RIBON_UPDATE_SLOT_STAGING, RIBON_UPDATE_SLOT_VERIFIED in *.

Section Next.
Context (m : RibonUpdateSlotMetadata) (t : RibonUpdateSlotTransition).
Context (Hm : metadata_typed m) (Hw : metadata_wf m) (Ht : transition_typed t).
Context (Hacc : accepted m t).

Lemma next_generation : u64 (metadata_generation m + 1) = metadata_generation m + 1.
Proof.
  apply wrap_small. pose proof (typed_generation m Hm) as H. rewrite word64 in H |- *.
  pose proof (acc_generation m t Hacc). lia.
Qed.

(** The other slot is rewritten, the active one is untouched. *)
Lemma next_slot_other :
  slot_at (transition_next m t) (other_slot m) =
  transition_entry (slot_at m (other_slot m)) t (metadata_generation m + 1).
Proof.
  unfold transition_next, slot_at. simpl. rewrite next_generation, (acc_slot m t Hacc).
  rewrite !nth_lookup, list_lookup_insert_eq; [done|].
  rewrite (typed_slots m Hm). destruct (wf_active m Hw) as [E|E]; unfold other_slot; rewrite E; simpl; lia.
Qed.

Lemma next_slot_active :
  slot_at (transition_next m t) (metadata_active_slot m) = slot_at m (metadata_active_slot m).
Proof.
  unfold transition_next, slot_at. simpl. rewrite (acc_slot m t Hacc).
  rewrite !nth_lookup, list_lookup_insert_ne; [done|].
  destruct (wf_active m Hw) as [E|E]; unfold other_slot; rewrite E; simpl; lia.
Qed.

Lemma entry_valid_later e i g g' :
  g <= g' -> slot_entry_is_valid e i g = true -> slot_entry_is_valid e i g' = true.
Proof.
  intros Hg. unfold slot_entry_is_valid. destruct (_ || _); [done|]. destruct (_ =? _); [done|].
  destruct (_ || _) eqn:G1; [done|]. intros H. apply orb_false_iff in G1 as [G1 G7].
  apply orb_false_iff in G1 as [G1 G6], G1 as [G1 G5], G1 as [G1 G4], G1 as [G1 G3], G1 as [G1 G2].
  rewrite G1, G3, G4, G5, G6, G7. bool_to_prop. destruct (Z.ltb_spec g' (entry_metadata_generation e)); [lia|].
  exact H.
Qed.

Lemma other_entry_identity :
  entry_identity (transition_entry (slot_at m (other_slot m)) t (metadata_generation m + 1)) =
  transition_identity t.
Proof.
  unfold transition_entry, entry_identity, transition_identity. simpl.
  destruct (Z.eqb_spec (transition_next_state t) RIBON_UPDATE_SLOT_STAGING) as [E|E]; [done|].
  exact (acc_same m t Hacc E).
Qed.

Lemma other_slot_range : other_slot m = 0 \/ other_slot m = 1.
Proof. unfold other_slot. destruct (wf_active m Hw) as [-> | ->]; auto. Qed.

Lemma allowed_cases :
  let s := entry_state (slot_at m (other_slot m)) in
  let n := transition_next_state t in
  (n = RIBON_UPDATE_SLOT_STAGING /\ (s = 0 \/ s = 4 \/ s = 5)) \/
  (n = RIBON_UPDATE_SLOT_VERIFIED /\ s = RIBON_UPDATE_SLOT_STAGING) \/
  (n = RIBON_UPDATE_SLOT_PENDING /\ s = RIBON_UPDATE_SLOT_VERIFIED) \/
  (n = RIBON_UPDATE_SLOT_CONFIRMED /\ s = RIBON_UPDATE_SLOT_PENDING) \/
  (n = RIBON_UPDATE_SLOT_BAD /\ (s = 1 \/ s = 2 \/ s = 3)).
Proof.
  intros s n. pose proof (acc_allowed m t Hacc) as H. fold s n in H. unfold transition_is_allowed in H.
  states. destruct (Z.eqb_spec s 0), (Z.eqb_spec s 5), (Z.eqb_spec s 4), (Z.eqb_spec s 1), (Z.eqb_spec s 2),
    (Z.eqb_spec s 3); simpl in H; try lia; try done;
    try (apply orb_true_iff in H as [H|H]); apply Z.eqb_eq in H; lia.
Qed.

Lemma next_other_valid :
  slot_entry_is_valid (slot_at (transition_next m t) (other_slot m)) (other_slot m)
    (metadata_generation m + 1) = true.
Proof.
  rewrite next_slot_other.
  pose proof (wf_entries m Hw _ other_slot_range) as Hv.
  apply entry_valid_reserved in Hv as (Hid & Hf & Hres & _);
    [|apply slot_at_typed; [done|destruct other_slot_range; lia]].
  pose proof other_entry_identity as Hi. destruct (acc_identity m t Hacc) as [Hg Hd].
  rewrite !Forall_cons in Hd. destruct Hd as ((_ & _ & D1) & (_ & _ & D2) & (_ & _ & D3) & _).
  rewrite <- Hi in Hg, D1, D2, D3.
  set (e := transition_entry _ _ _) in *.
  change (0 < entry_image_generation e <= UINT64_MAX) in Hg.
  change (bytes_zero (entry_manifest_digest e) = false) in D1.
  change (bytes_zero (entry_image_set_digest e) = false) in D2.
  change (bytes_zero (entry_layout_digest e) = false) in D3.
  unfold slot_entry_is_valid. rewrite D1, D2, D3.
  change (entry_slot_id e) with (entry_slot_id (slot_at m (other_slot m))).
  change (entry_flags e) with (entry_flags (slot_at m (other_slot m))).
  change (entry_reserved e) with (entry_reserved (slot_at m (other_slot m))).
  change (entry_state e) with (transition_next_state t).
  change (entry_boot_attempts e) with (transition_boot_attempts t).
  change (entry_metadata_generation e) with (metadata_generation m + 1).
  rewrite Hid, Hf, Hres, Z.eqb_refl. cbn [negb orb andb].
  pose proof (acc_state m t Hacc). pose proof (acc_attempts m t Hacc). pose proof (wf_generation m Hw).
  pose proof (acc_allowed m t Hacc) as Hal. pose proof (acc_pending m t Hacc) as Hpen.
  states. destruct (Z.ltb_spec (transition_next_state t) 0); [lia|].
  destruct (Z.ltb_spec 5 (transition_next_state t)); [lia|].
  destruct (Z.ltb_spec METADATA_MAX_BOOT_ATTEMPTS (transition_boot_attempts t)); [lia|]. cbn [negb orb andb].
  destruct (Z.eqb_spec (transition_next_state t) 0) as [E|E].
  { pose proof allowed_cases as Hcases. simpl in Hcases.
    states. lia. }
  destruct (Z.eqb_spec (metadata_generation m + 1) 0); [lia|].
  destruct (Z.ltb_spec (metadata_generation m + 1) (metadata_generation m + 1)); [lia|].
  destruct (Z.eqb_spec (entry_image_generation e) 0); [lia|]. cbn [negb orb andb].
  destruct (Z.eqb_spec (transition_next_state t) 3), (Z.eqb_spec (transition_boot_attempts t) 0);
    simpl; tauto || lia.
Qed.

Lemma entry_typed_next : entry_typed (slot_at (transition_next m t) (other_slot m)).
Proof.
  rewrite next_slot_other. pose proof other_entry_identity as Hi.
  destruct (slot_at_typed m (other_slot m) Hm) as []; [destruct other_slot_range; lia|].
  destruct Ht. pose proof (acc_generation m t Hacc). pose proof (wf_generation m Hw).
  unfold transition_entry in *. constructor; simpl; try done.
  - apply word64. lia.
  - by destruct (_ =? _).
  - by destruct (_ =? _).
  - by destruct (_ =? _).
  - by destruct (_ =? _).
Qed.

Lemma next_typed : metadata_typed (transition_next m t).
Proof.
  pose proof entry_typed_next as He. destruct Hm, Ht.
  assert (Hnone : word 32 RIBON_UPDATE_SLOT_NONE) by (apply word32; unfold RIBON_UPDATE_SLOT_NONE, UINT32_MAX; lia).
  constructor; simpl; try done.
  - by destruct (_ =? _).
  - by repeat case_match.
  - apply wrap_word. lia.
  - by rewrite length_insert.
  - apply Forall_insert; [done|]. rewrite next_slot_other in He.
    by rewrite next_generation, (acc_slot m t Hacc).
Qed.

Lemma next_active :
  metadata_active_slot (transition_next m t) =
  (if transition_next_state t =? RIBON_UPDATE_SLOT_CONFIRMED then other_slot m
   else metadata_active_slot m).
Proof. simpl. by rewrite (acc_slot m t Hacc). Qed.

Lemma next_other :
  other_slot (transition_next m t) =
  (if transition_next_state t =? RIBON_UPDATE_SLOT_CONFIRMED then metadata_active_slot m
   else other_slot m).
Proof. unfold other_slot at 1. rewrite next_active. unfold other_slot. destruct (_ =? _); lia. Qed.

Lemma next_wf : metadata_wf (transition_next m t).
Proof.
  pose proof next_slot_other as So. pose proof next_slot_active as Sa.
  pose proof next_active as Ha. pose proof (wf_generation m Hw).
  assert (Hpend : metadata_pending_slot m =
    if entry_state (slot_at m (other_slot m)) =? RIBON_UPDATE_SLOT_PENDING
    then other_slot m else RIBON_UPDATE_SLOT_NONE) by apply (wf_pending m Hw).
  assert (Hact : entry_state (slot_at m (metadata_active_slot m)) = 4) by apply (wf_active_state m Hw).
  pose proof allowed_cases as Hcases. simpl in Hcases.
  constructor.
  - apply (wf_metadata_header m Hw).
  - simpl. rewrite next_generation. lia.
  - rewrite Ha. destruct (_ =? _); [apply other_slot_range|apply (wf_active m Hw)].
  - rewrite Ha. destruct (Z.eqb_spec (transition_next_state t) RIBON_UPDATE_SLOT_CONFIRMED) as [E|E];
      [by rewrite So|by rewrite Sa].
  - unfold expected_pending. rewrite next_other.
    destruct (Z.eqb_spec (transition_next_state t) RIBON_UPDATE_SLOT_CONFIRMED) as [E|E].
    + rewrite Sa, Hact. simpl. by rewrite E.
    + rewrite So. simpl. rewrite (acc_slot m t Hacc), Hpend. states.
      destruct (Z.eqb_spec (transition_next_state t) 3); [done|].
      destruct (Z.eqb_spec (transition_next_state t) 4); [done|]. simpl.
      destruct (Z.eqb_spec (transition_next_state t) 5); [done|].
      destruct (Z.eqb_spec (entry_state (slot_at m (other_slot m))) 3); [lia|done].
  - intros i Hi. simpl metadata_generation. rewrite next_generation.
    destruct (decide (i = other_slot m)) as [->|Hne]; [apply next_other_valid|].
    assert (i = metadata_active_slot m) as ->
      by (unfold other_slot in Hne; destruct (wf_active m Hw); lia).
    rewrite Sa. apply entry_valid_later with (g := metadata_generation m); [lia|].
    by apply (wf_entries m Hw).
Qed.

(** The phase a transition asks for. *)
Definition requested_phase : phase :=
  if transition_next_state t =? RIBON_UPDATE_SLOT_EMPTY then Empty
  else if transition_next_state t =? RIBON_UPDATE_SLOT_STAGING then Staged (transition_identity t)
  else if transition_next_state t =? RIBON_UPDATE_SLOT_VERIFIED then Verified (transition_identity t)
  else if transition_next_state t =? RIBON_UPDATE_SLOT_PENDING
  then Armed (transition_identity t) (transition_boot_attempts t)
  else if transition_next_state t =? RIBON_UPDATE_SLOT_CONFIRMED
  then Confirmed (transition_identity t)
  else Failed (transition_identity t).

Lemma abstract_next :
  abstract (transition_next m t) =
  let run := entry_identity (slot_at m (metadata_active_slot m)) in
  if transition_next_state t =? RIBON_UPDATE_SLOT_CONFIRMED
  then mkLifecycle (metadata_generation m + 1) (other_slot m) (transition_identity t) (Confirmed run)
  else mkLifecycle (metadata_generation m + 1) (metadata_active_slot m) run requested_phase.
Proof.
  pose proof other_entry_identity as Hid.
  unfold abstract. rewrite next_active, next_other.
  change (metadata_generation (transition_next m t)) with (u64 (metadata_generation m + 1)).
  rewrite next_generation. destruct (transition_next_state t =? RIBON_UPDATE_SLOT_CONFIRMED).
  - rewrite next_slot_other, next_slot_active, Hid. simpl. f_equal. unfold entry_phase.
    by rewrite (wf_active_state m Hw).
  - rewrite next_slot_other, next_slot_active. simpl. f_equal.
    unfold entry_phase. rewrite Hid. reflexivity.
Qed.

(** The transition is a step of the contract. *)
Lemma next_step : lifecycle_step (abstract m) (abstract (transition_next m t)).
Proof.
  rewrite abstract_next. pose proof allowed_cases as Hcases. simpl in Hcases.
  pose proof (acc_attempts m t Hacc). pose proof (acc_pending m t Hacc).
  pose proof (typed_t_attempts t Ht) as Hatt. rewrite word32 in Hatt.
  unfold abstract, requested_phase, entry_phase, METADATA_MAX_BOOT_ATTEMPTS in *. states.
  destruct Hcases as [[E Hs]|[[E Hs]|[[E Hs]|[[E Hs]|[E Hs]]]]]; rewrite E in *; simpl;
    try rewrite (acc_same m t Hacc) by (states; lia).
  - apply step_stage; [|apply (acc_identity m t Hacc)]. by destruct Hs as [-> |[-> | ->]].
  - rewrite Hs. apply step_verify.
  - rewrite Hs. apply step_arm. lia.
  - rewrite Hs. unfold other_slot. apply step_confirm with (n := entry_boot_attempts (slot_at m (other_slot m))).
  - apply step_fail. unfold in_flight. destruct Hs as [-> |[-> | ->]]; simpl; eauto.
Qed.
End Next.

(** ** The guards accept exactly the accepted transitions *)

Lemma identity_matches_true e t :
  entry_typed e -> transition_typed t ->
  transition_identity_matches e t = true <-> entry_identity e = transition_identity t.
Proof.
  intros [] []. unfold transition_identity_matches, entry_identity, transition_identity.
  rewrite !andb_true_iff, Z.eqb_eq, !bytes_equal_true by (intuition congruence).
  split; [intros [[[-> ->] ->] ->]; done|by intros [= -> -> -> ->]].
Qed.

Definition transition_result (m : RibonUpdateSlotMetadata) (t : RibonUpdateSlotTransition)
  : RibonUpdateSlotMetadata :=
  metadata_with_digest (transition_next m t) (metadata_digest (transition_next m t)).

Lemma transition_accepted m t :
  metadata_typed m -> metadata_wf m -> transition_typed t -> accepted m t ->
  ribon_update_slot_metadata_transition (Some m) (Some t) =
  (RIBON_UPDATE_STORAGE_STATUS_OK, transition_result m t).
Proof.
  intros Hm Hw Ht Hacc. unfold ribon_update_slot_metadata_transition.
  rewrite (proj2 (metadata_valid_wf m Hm) Hw).
  pose proof (next_wf m t Hm Hw Hacc) as Hnw. pose proof (next_typed m t Hm Hw Ht Hacc) as Hnt.
  pose proof (proj2 (metadata_valid_wf _ Hnt) Hnw) as Hnv.
  pose proof (allowed_cases m t Hacc) as Hcases. simpl in Hcases.
  pose proof Hacc as [(-> & -> & -> & ->) Hs Hst Hat (Hg & Hd) Hgen Hal Hpen Hsame].
  rewrite !Forall_cons in Hd. simpl in Hg, Hd.
  destruct Hd as ((_ & _ & ->) & (_ & _ & ->) & (_ & _ & ->) & _). rewrite Hs, Hal.
  assert (Hslot : (other_slot m >=? RIBON_UPDATE_SLOT_COUNT) = false /\
                  (other_slot m =? metadata_active_slot m) = false).
  { unfold RIBON_UPDATE_SLOT_COUNT, other_slot. destruct (wf_active m Hw) as [-> | ->]; done. }
  destruct Hslot as [-> ->].
  destruct (Z.ltb_spec (transition_next_state t) RIBON_UPDATE_SLOT_EMPTY); [states; lia|].
  destruct (Z.ltb_spec RIBON_UPDATE_SLOT_BAD (transition_next_state t)); [states; lia|].
  destruct (Z.ltb_spec METADATA_MAX_BOOT_ATTEMPTS (transition_boot_attempts t)); [lia|].
  destruct (Z.eqb_spec (transition_image_generation t) 0); [lia|].
  destruct (Z.eqb_spec (metadata_generation m) UINT64_MAX); [lia|]. cbn [negb orb].
  assert (Hpend : (if transition_next_state t =? RIBON_UPDATE_SLOT_PENDING
    then (transition_boot_attempts t =? 0) || (metadata_pending_slot m !=? RIBON_UPDATE_SLOT_NONE)
    else transition_boot_attempts t !=? 0) = false).
  { rewrite (wf_pending m Hw). unfold expected_pending. states.
    destruct (Z.eqb_spec (transition_next_state t) 3), (Z.eqb_spec (transition_boot_attempts t) 0);
      try (exfalso; lia || tauto); try done. simpl.
    destruct (Z.eqb_spec (entry_state (slot_at m (other_slot m))) 3); [lia|done]. }
  rewrite Hpend.
  assert (Hid : (transition_next_state t !=? RIBON_UPDATE_SLOT_STAGING) &&
    negb (transition_identity_matches (slot_at m (other_slot m)) t) = false).
  { destruct (Z.eqb_spec (transition_next_state t) RIBON_UPDATE_SLOT_STAGING) as [|E]; [done|]. simpl.
    apply negb_false_iff, identity_matches_true; [|done|by apply Hsame].
    apply slot_at_typed; [done|]. destruct (other_slot_range m Hw); lia. }
  rewrite Hid, Hnv, (metadata_encode_wire _ Hnv). cbn [negb]. unfold transition_result. do 2 f_equal.
  apply (seal_body_digest 512 384 416); lia.
Qed.

Lemma transition_ok_inv m t m' :
  metadata_typed m -> transition_typed t ->
  ribon_update_slot_metadata_transition (Some m) (Some t) = (RIBON_UPDATE_STORAGE_STATUS_OK, m') ->
  metadata_wf m /\ accepted m t /\ m' = transition_result m t.
Proof.
  intros Hm Ht H.
  assert (Hacc : metadata_wf m /\ accepted m t).
  { unfold ribon_update_slot_metadata_transition in H.
    destruct (_ || _) eqn:G in H; [done|]. bool_to_prop.
    match goal with V : metadata_is_valid _ = true |- _ => apply metadata_valid_wf in V; [|done]; rename V into Hw end.
    pose proof Ht as []. rewrite word32 in *. rewrite word64 in *.
    assert (Hs : transition_slot_id t = other_slot m).
    { unfold other_slot, RIBON_UPDATE_SLOT_COUNT in *. destruct (wf_active m Hw); lia. }
    rewrite Hs in *.
    destruct (if transition_next_state t =? RIBON_UPDATE_SLOT_PENDING then _ else _) eqn:P in H; [done|].
    destruct ((transition_next_state t !=? RIBON_UPDATE_SLOT_STAGING) && _) eqn:I in H; [done|].
    split; [done|]. states. unfold METADATA_MAX_BOOT_ATTEMPTS in *. constructor; try done; try lia.
    - split; simpl; [lia|]. rewrite !Forall_cons, Forall_nil. tauto.
    - pose proof (typed_generation m Hm) as Hg. rewrite word64 in Hg. lia.
    - states. destruct (Z.eqb_spec (transition_next_state t) 3); bool_to_prop; split; done || lia.
    - states. intros E. apply Z.eqb_neq in E. rewrite E in I. simpl in I. apply negb_false_iff in I.
      apply identity_matches_true in I; [done| |done].
      apply slot_at_typed; [done|]. destruct (other_slot_range m Hw); lia. }
  destruct Hacc as [Hw Hacc]. split_and!; [done..|].
  rewrite (transition_accepted m t Hm Hw Ht Hacc) in H. congruence.
Qed.

Lemma with_digest_typed m d : metadata_typed m -> metadata_typed (metadata_with_digest m d).
Proof. intros []. by constructor. Qed.

Lemma with_digest_wf m d : metadata_wf m -> metadata_wf (metadata_with_digest m d).
Proof. intros []. by constructor. Qed.

Lemma transition_result_ok m t :
  metadata_typed m -> metadata_wf m -> transition_typed t -> accepted m t ->
  metadata_typed (transition_result m t) /\ metadata_wf (transition_result m t).
Proof.
  intros Hm Hw Ht Hacc. split.
  - apply with_digest_typed. by apply next_typed.
  - apply with_digest_wf. by apply next_wf.
Qed.

(** ** Every contract step has a transition that performs it *)

Definition request (m : RibonUpdateSlotMetadata) (state attempts : Z) (id : image_identity)
  : RibonUpdateSlotTransition :=
  mkTransition sizeof_RibonUpdateSlotTransition RIBON_UPDATE_STORAGE_ABI_VERSION 0 (other_slot m)
    state attempts (id_generation id) (id_manifest id) (id_image_set id) (id_layout id) [0; 0; 0; 0].

Lemma request_identity m state attempts id : transition_identity (request m state attempts id) = id.
Proof. by destruct id. Qed.

Lemma request_typed m state attempts id :
  metadata_wf m -> 0 <= state <= 5 -> 0 <= attempts <= 32 -> identity_ok id ->
  transition_typed (request m state attempts id).
Proof.
  intros Hw Hs Ha [Hg Hd]. rewrite !Forall_cons in Hd. pose proof (other_slot_range m Hw).
  constructor; simpl; rewrite ?word32, ?word64; unfold UINT32_MAX; tauto || lia.
Qed.

(** A slot that is not empty holds an acceptable identity. *)
Lemma entry_identity_ok e i g :
  entry_typed e -> slot_entry_is_valid e i g = true -> entry_state e <> RIBON_UPDATE_SLOT_EMPTY ->
  identity_ok (entry_identity e).
Proof.
  intros [] Hv Hs. unfold slot_entry_is_valid in Hv. destruct (_ || _) in Hv; [done|].
  apply Z.eqb_neq in Hs. rewrite Hs in Hv. destruct (_ || _) eqn:G in Hv; [done|]. bool_to_prop.
  rewrite word64 in *. split; simpl; [lia|]. rewrite !Forall_cons, Forall_nil. tauto.
Qed.

Lemma request_accepted m state attempts id :
  metadata_wf m -> metadata_generation m < UINT64_MAX -> identity_ok id -> 0 <= state <= 5 ->
  attempts <= 32 -> transition_is_allowed (entry_state (slot_at m (other_slot m))) state = true ->
  (state = RIBON_UPDATE_SLOT_PENDING <-> attempts <> 0) ->
  (state <> RIBON_UPDATE_SLOT_STAGING -> entry_identity (slot_at m (other_slot m)) = id) ->
  accepted m (request m state attempts id).
Proof.
  intros Hw Hg Hid Hs Ha Hal Hpen Hsame. destruct id. constructor; simpl; done.
Qed.

Lemma step_request m l :
  metadata_typed m -> metadata_wf m -> metadata_generation m < UINT64_MAX ->
  lifecycle_step (abstract m) l ->
  exists t, transition_typed t /\ accepted m t /\ abstract (transition_result m t) = l.
Proof.
  intros Hm Hw Hg Hstep.
  pose proof (slot_at_typed m (other_slot m) Hm ltac:(destruct (other_slot_range m Hw); lia)) as Het.
  pose proof (wf_entries m Hw _ (other_slot_range m Hw)) as Hev.
  pose proof (entry_valid_reserved _ _ _ Het Hev) as (_ & _ & _ & Hrange & _).
  set (e := slot_at m (other_slot m)) in *.
  assert (Hperform : forall state attempts id, identity_ok id -> 0 <= state <= 5 -> 0 <= attempts <= 32 ->
    transition_is_allowed (entry_state e) state = true ->
    (state = RIBON_UPDATE_SLOT_PENDING <-> attempts <> 0) ->
    (state <> RIBON_UPDATE_SLOT_STAGING -> entry_identity e = id) ->
    l = (if state =? RIBON_UPDATE_SLOT_CONFIRMED
         then mkLifecycle (metadata_generation m + 1) (other_slot m) id
                (Confirmed (entry_identity (slot_at m (metadata_active_slot m))))
         else mkLifecycle (metadata_generation m + 1) (metadata_active_slot m)
                (entry_identity (slot_at m (metadata_active_slot m)))
                (requested_phase (request m state attempts id))) ->
    exists t, transition_typed t /\ accepted m t /\ abstract (transition_result m t) = l).
  { intros state attempts id ? ? ? ? ? ? ->. exists (request m state attempts id).
    assert (Hacc : accepted m (request m state attempts id)) by (apply request_accepted; done || lia).
    split_and!; [by apply request_typed|done|].
    etransitivity; [exact (abstract_next m _ Hm Hw Hacc)|]. by rewrite request_identity. }
  assert (Hids : entry_state e <> 0 -> identity_ok (entry_identity e)) by exact (entry_identity_ok e _ _ Het Hev).
  unfold abstract in Hstep. fold e in Hstep. unfold entry_phase in Hstep. states.
  assert (Hcases : entry_state e = 0 \/ entry_state e = 1 \/ entry_state e = 2 \/ entry_state e = 3 \/
    entry_state e = 4 \/ entry_state e = 5) by lia.
  destruct Hcases as [E|[E|[E|[E|[E|E]]]]]; rewrite E in *; simpl in Hstep;
    inversion Hstep as [? ? ? ? id Hset Hid|? ? ? id|? ? ? id n Hn|? ? ? id n|? ? ? ? id Hfl]; subst;
    try done; try (destruct Hfl as [Hfl|[Hfl|[? Hfl]]]; try done; injection Hfl as Hfl; subst).
  all: first
    [ apply (Hperform 1 0 id); try done; try lia;
        unfold requested_phase; simpl; by rewrite request_identity
    | apply (Hperform 2 0 (entry_identity e)); done || lia || (apply Hids; lia)
    | apply (Hperform 3 n (entry_identity e)); done || lia || (apply Hids; lia)
    | apply (Hperform 4 0 (entry_identity e)); done || lia || (apply Hids; lia)
    | apply (Hperform 5 0 (entry_identity e)); done || lia || (apply Hids; lia) ].
Qed.

(** ** Reachable tables *)

(** The tables reachable from [m0], with the transitions that led there. *)
Inductive reach (m0 : RibonUpdateSlotMetadata)
  : list RibonUpdateSlotTransition -> RibonUpdateSlotMetadata -> Prop :=
| reach_start : reach m0 [] m0
| reach_step ts m t m' :
    reach m0 ts m -> transition_typed t ->
    ribon_update_slot_metadata_transition (Some m) (Some t) = (RIBON_UPDATE_STORAGE_STATUS_OK, m') ->
    reach m0 (ts ++ [t]) m'.

(** The transition asks for [state] with identity [id]. *)
Definition asks (t : RibonUpdateSlotTransition) (state : Z) (id : image_identity) : Prop :=
  transition_next_state t = state /\ transition_identity t = id.

(** How a trace ends when the other slot is in a given phase. *)
Definition trace_ends (ts : list RibonUpdateSlotTransition) (p : phase) : Prop :=
  match p with
  | Staged id => exists ts0 t1, ts = ts0 ++ [t1] /\ asks t1 RIBON_UPDATE_SLOT_STAGING id
  | Verified id => exists ts0 t1 t2, ts = ts0 ++ [t1; t2] /\
      asks t1 RIBON_UPDATE_SLOT_STAGING id /\ asks t2 RIBON_UPDATE_SLOT_VERIFIED id
  | Armed id _ => exists ts0 t1 t2 t3, ts = ts0 ++ [t1; t2; t3] /\
      asks t1 RIBON_UPDATE_SLOT_STAGING id /\ asks t2 RIBON_UPDATE_SLOT_VERIFIED id /\
      asks t3 RIBON_UPDATE_SLOT_PENDING id
  | _ => True
  end.

Lemma trace_ends_step ts m t :
  metadata_typed m -> metadata_wf m -> transition_typed t -> accepted m t ->
  trace_ends ts (lc_other (abstract m)) ->
  trace_ends (ts ++ [t]) (lc_other (abstract (transition_next m t))).
Proof.
  intros Hm Hw Ht Hacc Hts.
  pose proof (next_slot_other m t Hm Hw Hacc) as So. pose proof (other_entry_identity m t Hacc) as Hid.
  pose proof (allowed_cases m t Hacc) as Hcases. simpl in Hcases. states.
  unfold abstract in *. simpl in Hts |- *. rewrite next_other by done.
  unfold entry_phase in Hts |- *. states.
  destruct Hcases as [[E Hs]|[[E Hs]|[[E Hs]|[[E Hs]|[E Hs]]]]]; rewrite E; simpl; rewrite ?So, ?Hid; simpl;
    rewrite ?E; simpl.
  - by exists ts, t.
  - rewrite Hs, (acc_same m t Hacc) in Hts by (states; lia). simpl in Hts.
    destruct Hts as (ts0 & t1 & -> & H1). exists ts0, t1, t. rewrite <- app_assoc. done.
  - rewrite Hs, (acc_same m t Hacc) in Hts by (states; lia). simpl in Hts.
    destruct Hts as (ts0 & t1 & t2 & -> & H1 & H2). exists ts0, t1, t2, t. rewrite <- app_assoc. done.
  - rewrite next_slot_active by done.
    replace (entry_state (slot_at m (metadata_active_slot m))) with 4
      by (symmetry; apply (wf_active_state m Hw)). done.
  - done.
Qed.

Lemma reach_invariant m0 ts m :
  metadata_typed m0 -> metadata_wf m0 -> settled (lc_other (abstract m0)) -> reach m0 ts m ->
  metadata_typed m /\ metadata_wf m /\ trace_ends ts (lc_other (abstract m)) /\
  metadata_generation m = metadata_generation m0 + Z.of_nat (length ts).
Proof.
  intros H0 Hw0 Hs Hr. induction Hr as [|ts m t m' Hr IH Ht H].
  - split_and!; [done..| |simpl; lia]. by destruct (lc_other (abstract m0)).
  - destruct IH as (Hm & Hw & Hts & Hg).
    destruct (transition_ok_inv m t m' Hm Ht H) as (_ & Hacc & ->).
    destruct (transition_result_ok m t Hm Hw Ht Hacc). split_and!; [done..| |].
    + by apply trace_ends_step.
    + unfold transition_result. cbn [metadata_with_digest metadata_generation transition_next].
      rewrite (next_generation m t Hm Hacc), length_app. simpl. lia.
Qed.

(** ** Properties *)

(** C36: Every transition the code accepts from a valid slot table yields a valid
    table and is a step of the lifecycle contract: in particular the active slot
    is never rewritten, and it changes only when an armed trial is confirmed. *)
Theorem slot_transition_refines m t m' :
  metadata_typed m -> transition_typed t ->
  ribon_update_slot_metadata_transition (Some m) (Some t) = (RIBON_UPDATE_STORAGE_STATUS_OK, m') ->
  metadata_is_valid (Some m') = true /\ lifecycle_step (abstract m) (abstract m') /\
  slot_at m' (metadata_active_slot m) = slot_at m (metadata_active_slot m).
Proof.
  intros Hm Ht H. destruct (transition_ok_inv m t m' Hm Ht H) as (Hw & Hacc & ->).
  destruct (transition_result_ok m t Hm Hw Ht Hacc) as [Ht' Hw'].
  split_and!; [by apply metadata_valid_wf|by apply next_step|by apply next_slot_active].
Qed.

Definition sample_transition (slot state attempts : Z) : RibonUpdateSlotTransition :=
  mkTransition 160 1 0 slot state attempts 8 (replicate 32 4) (replicate 32 5) (replicate 32 3)
    [0; 0; 0; 0].

Lemma sample_transition_typed slot state attempts :
  0 <= slot < 2 -> 0 <= state < 6 -> 0 <= attempts <= 32 ->
  transition_typed (sample_transition slot state attempts).
Proof.
  intros. constructor.
  - apply word32. simpl. unfold UINT32_MAX. lia.
  - apply word32. simpl. unfold UINT32_MAX. lia.
  - apply word32. simpl. unfold UINT32_MAX. lia.
  - in_range.
  - split; [done|by apply octetsb_octets].
  - split; [done|by apply octetsb_octets].
  - split; [done|by apply octetsb_octets].
Qed.

Lemma slot_transition_refines_witness :
  let t := sample_transition 1 RIBON_UPDATE_SLOT_STAGING 0 in
  let m' := snd (ribon_update_slot_metadata_transition (Some sample_metadata) (Some t)) in
  fst (ribon_update_slot_metadata_transition (Some sample_metadata) (Some t)) =
    RIBON_UPDATE_STORAGE_STATUS_OK /\ metadata_is_valid (Some m') = true.
Proof.
  intros t m'.
  assert (E : ribon_update_slot_metadata_transition (Some sample_metadata) (Some t) =
              (RIBON_UPDATE_STORAGE_STATUS_OK, m')) by (vm_compute; reflexivity).
  split; [by rewrite E|].
  apply (slot_transition_refines sample_metadata t m' sample_metadata_typed); [|exact E].
  apply sample_transition_typed; vm_compute; split; congruence.
Defined.

(** Every step of the lifecycle contract is available: from a valid table whose
    generation is not exhausted, some transition the code accepts performs it. *)
Theorem slot_transition_complete m l :
  metadata_typed m -> metadata_is_valid (Some m) = true -> metadata_generation m < UINT64_MAX ->
  lifecycle_step (abstract m) l ->
  exists t m', transition_typed t /\ abstract m' = l /\
    ribon_update_slot_metadata_transition (Some m) (Some t) = (RIBON_UPDATE_STORAGE_STATUS_OK, m').
Proof.
  intros Hm Hv Hg Hstep. apply metadata_valid_wf in Hv as Hw; [|done].
  destruct (step_request m l Hm Hw Hg Hstep) as (t & Ht & Hacc & Hl).
  exists t, (transition_result m t). split_and!; [done|done|]. by apply transition_accepted.
Qed.

Lemma slot_transition_complete_witness :
  exists t m', transition_typed t /\
    abstract m' = mkLifecycle 2 0 (mkIdentity 7 (replicate 32 1) (replicate 32 2) (replicate 32 3))
                    (Staged (mkIdentity 8 (replicate 32 4) (replicate 32 5) (replicate 32 3))) /\
    ribon_update_slot_metadata_transition (Some sample_metadata) (Some t) =
      (RIBON_UPDATE_STORAGE_STATUS_OK, m').
Proof.
  apply (slot_transition_complete sample_metadata); [apply sample_metadata_typed|vm_compute; reflexivity|done|].
  apply (step_stage 1 0 _ Empty); [done|]. split; [split; [done|vm_compute; congruence]|].
  rewrite !Forall_cons, Forall_nil.
  split_and!; try done; by apply octetsb_octets.
Defined.

(** An image takes over only after its own trial: when a reachable transition
    changes the active slot, the three transitions before it staged, verified
    and armed exactly the identity that is being confirmed. *)
Theorem slot_takeover m0 ts m t m' :
  metadata_typed m0 -> metadata_is_valid (Some m0) = true -> settled (lc_other (abstract m0)) ->
  reach m0 ts m -> transition_typed t ->
  ribon_update_slot_metadata_transition (Some m) (Some t) = (RIBON_UPDATE_STORAGE_STATUS_OK, m') ->
  metadata_active_slot m' <> metadata_active_slot m ->
  exists ts0 t1 t2 t3, ts = ts0 ++ [t1; t2; t3] /\
    asks t1 RIBON_UPDATE_SLOT_STAGING (transition_identity t) /\
    asks t2 RIBON_UPDATE_SLOT_VERIFIED (transition_identity t) /\
    asks t3 RIBON_UPDATE_SLOT_PENDING (transition_identity t) /\
    asks t RIBON_UPDATE_SLOT_CONFIRMED (transition_identity t).
Proof.
  intros H0 Hv0 Hs Hr Ht H Hne. apply metadata_valid_wf in Hv0; [|done].
  destruct (reach_invariant m0 ts m H0 Hv0 Hs Hr) as (Hm & Hw & Hts & _).
  destruct (transition_ok_inv m t m' Hm Ht H) as (_ & Hacc & ->).
  change (metadata_active_slot (transition_result m t)) with
    (metadata_active_slot (transition_next m t)) in Hne.
  rewrite (next_active m t Hacc) in Hne.
  destruct (Z.eqb_spec (transition_next_state t) RIBON_UPDATE_SLOT_CONFIRMED) as [E|]; [|done].
  pose proof (allowed_cases m t Hacc) as Hcases. simpl in Hcases. rewrite E in Hcases.
  assert (Hst : entry_state (slot_at m (other_slot m)) = RIBON_UPDATE_SLOT_PENDING)
    by (states; lia).
  unfold abstract in Hts. simpl in Hts. unfold entry_phase in Hts. rewrite Hst in Hts.
  rewrite (acc_same m t Hacc) in Hts by (rewrite E; done). simpl in Hts.
  destruct Hts as (ts0 & t1 & t2 & t3 & -> & ? & ? & ?). by exists ts0, t1, t2, t3.
Qed.

(** The sample table after staging, verifying and arming slot B. *)
Definition sample_staged : RibonUpdateSlotMetadata :=
  Eval vm_compute in transition_result sample_metadata (sample_transition 1 RIBON_UPDATE_SLOT_STAGING 0).
Definition sample_verified : RibonUpdateSlotMetadata :=
  Eval vm_compute in transition_result sample_staged (sample_transition 1 RIBON_UPDATE_SLOT_VERIFIED 0).
Definition sample_armed : RibonUpdateSlotMetadata :=
  Eval vm_compute in transition_result sample_verified (sample_transition 1 RIBON_UPDATE_SLOT_PENDING 3).

Lemma slot_takeover_witness :
  let t := sample_transition 1 RIBON_UPDATE_SLOT_CONFIRMED 0 in
  exists ts0 t1 t2 t3,
    [sample_transition 1 RIBON_UPDATE_SLOT_STAGING 0; sample_transition 1 RIBON_UPDATE_SLOT_VERIFIED 0;
     sample_transition 1 RIBON_UPDATE_SLOT_PENDING 3] = ts0 ++ [t1; t2; t3] /\
    asks t1 RIBON_UPDATE_SLOT_STAGING (transition_identity t) /\
    asks t2 RIBON_UPDATE_SLOT_VERIFIED (transition_identity t) /\
    asks t3 RIBON_UPDATE_SLOT_PENDING (transition_identity t) /\
    asks t RIBON_UPDATE_SLOT_CONFIRMED (transition_identity t).
Proof.
  intros t. assert (Hty : forall s n, 0 <= s < 6 -> 0 <= n <= 32 -> transition_typed (sample_transition 1 s n))
    by (intros; apply sample_transition_typed; lia).
  apply (slot_takeover sample_metadata _ sample_armed t (transition_result sample_armed t)).
  - apply sample_metadata_typed.
  - vm_compute. reflexivity.
  - exact I.
  - apply (reach_step _ [_; _] sample_verified); [apply (reach_step _ [_] sample_staged);
      [apply (reach_step _ [] sample_metadata); [apply reach_start|..]|..]|..];
      first [apply Hty; vm_compute; split; congruence | vm_compute; reflexivity].
  - apply Hty; vm_compute; split; congruence.
  - vm_compute. reflexivity.
  - vm_compute. congruence.
Defined.
