(* ===== verification/MemoryProvider.v ===== *)
(** * A concrete provider

    The in-memory media the host fixtures use ([tests/update]): a write changes
    the volatile bytes, a flush copies them to the durable ones, and a power cut
    leaves the durable bytes.  It satisfies the storage contract, so that the
    theorems proved against the contract apply to it. *)

From S2P Require Import Prelude.
From S2P Require Import Buffer.
From S2P Require Import Wire.
From S2P Require Import Provider.

Section Media.
Context (capacity : Z) (Hcapacity : 0 <= capacity).

(** Both copies are [capacity] octets long. *)
Record media := mkMedia {
  volatile : bytes;
  durable : bytes;
  volatile_ok : bool_decide (len volatile = capacity) && octetsb volatile = true;
  durable_ok : bool_decide (len durable = capacity) && octetsb durable = true;
}.

Lemma octets_octetsb b : octets b -> octetsb b = true.
Proof.
  unfold octets, octetsb. rewrite forallb_forall, List.Forall_forall. intros H x Hx.
  specialize (H x Hx). rewrite word8 in H. apply andb_true_iff. rewrite Z.leb_le, Z.ltb_lt. lia.
Qed.

Lemma media_ok b : bool_decide (len b = capacity) && octetsb b = true <-> len b = capacity /\ octets b.
Proof.
  rewrite andb_true_iff, bool_decide_eq_true. split; intros [? ?]; split; auto using octetsb_octets.
  by apply octets_octetsb.
Qed.

Lemma media_store_ok b off r :
  bool_decide (len b = capacity) && octetsb b = true ->
  bool_decide (len (store b off r) = capacity) && octetsb (store b off r) = octetsb (store b off r).
Proof. intros H. apply media_ok in H as [H _]. by rewrite len_store, bool_decide_true. Qed.

Definition in_range_b (off n : Z) : bool := (0 <=? off) && (off + n <=? capacity).

Definition media_read (w : media) (off : Z) (buffer : bytes) (deadline : Z) : media * (Z * bytes * Z) :=
  if in_range_b off (len buffer)
  then (w, (0, slice off (len buffer) (volatile w), len buffer))
  else (w, (-1, buffer, 0)).

(** The volatile copy with [r] stored, when that is a media. *)
Definition media_put (w : media) (off : Z) (r : bytes) : option media :=
  match decide (bool_decide (len (store (volatile w) off r) = capacity) &&
                octetsb (store (volatile w) off r) = true) with
  | left H => Some (mkMedia (store (volatile w) off r) (durable w) H (durable_ok w))
  | right _ => None
  end.

Definition media_write (w : media) (off : Z) (buffer : bytes) (deadline : Z) : media * (Z * Z) :=
  if in_range_b off (len buffer)
  then match media_put w off buffer with
       | Some w' => (w', (0, len buffer))
       | None => (w, (-1, 0))
       end
  else (w, (-1, 0)).

Definition media_erase (w : media) (off size deadline : Z) : media * Z :=
  if in_range_b off size
  then match media_put w off (zeros size) with Some w' => (w', 0) | None => (w, -1) end
  else (w, -1).

Definition media_flush (w : media) (deadline : Z) : media * Z :=
  (mkMedia (volatile w) (volatile w) (volatile_ok w) (volatile_ok w), 0).

Definition memory_provider (alignment : Z) (identity_digest : bytes) : RibonUpdateStorageProvider media :=
  mkProvider media 160 1 0 15 capacity alignment alignment alignment capacity identity_digest 1
    (Some media_read) (Some media_write) (Some media_erase) (Some media_flush) [0; 0; 0; 0].

Lemma media_put_some w off r w' :
  media_put w off r = Some w' -> volatile w' = store (volatile w) off r /\ durable w' = durable w.
Proof. unfold media_put. destruct (decide _); [|done]. by intros [= <-]. Qed.

Lemma media_put_octets w off r : octets r -> exists w', media_put w off r = Some w'.
Proof.
  intros Hr. unfold media_put. destruct (decide _) as [|Hn]; [eauto|]. exfalso. apply Hn.
  pose proof (proj1 (media_ok _) (volatile_ok w)) as [Hl Ho].
  apply media_ok. rewrite len_store. split; [done|]. auto with ribon.
Qed.

Lemma store_slice b off n :
  0 <= off -> 0 <= n -> off + n <= len b -> store b off (slice off n b) = b.
Proof.
  intros Ho Hn Hl. unfold store, slice, len in *. apply list_eq. intros i.
  destruct (decide (Z.to_nat off <= i < Z.to_nat off + Z.to_nat n)%nat) as [Hi|Hi].
  - rewrite list_lookup_inserts; rewrite ?length_take, ?length_drop; try lia.
    rewrite lookup_take_lt, lookup_drop by lia. f_equal. lia.
  - destruct (decide (i < Z.to_nat off)%nat).
    + by rewrite list_lookup_inserts_lt.
    + rewrite list_lookup_inserts_ge; [done|]. rewrite length_take, length_drop. lia.
Qed.

(** A power cut leaves the durable copy; writes are never torn. *)
#[global] Instance memory_provider_contract alignment d :
  StorageContract (memory_provider alignment d).
Proof.
  refine {| content := volatile; crash := fun w b => b = durable w; tears := fun old new r => r = old |}.
  - intros w. apply (media_ok _), volatile_ok.
  - intros w b ->. apply (media_ok _), durable_ok.
  - intros w. apply (media_ok _), volatile_ok.
  - intros w b ->. apply (media_ok _), durable_ok.
  - congruence.
  - intros w off buffer dl w' st out tr Ho Hl.
    change (call_read _ w off buffer dl) with (media_read w off buffer dl). unfold media_read.
    destruct (in_range_b off (len buffer)); intros [= <- <- <- <-]; split_and!; naive_solver.
  - intros w off buffer dl w' st tr Ho Hl Hb.
    change (call_write _ w off buffer dl) with (media_write w off buffer dl).
    change (off + len buffer <= capacity) in Hl. unfold media_write, in_range_b.
    rewrite (proj2 (Z.leb_le 0 off)), (proj2 (Z.leb_le (off + len buffer) capacity)) by done. simpl.
    destruct (media_put_octets w off buffer Hb) as [w1 E]. rewrite E. intros [= <- <- <-].
    destruct (media_put_some _ _ _ _ E) as [Hv Hd]. split_and!; [done|by exists buffer; auto|].
    intros b ->. exists (durable w), (slice off (len buffer) (durable w)). split_and!; auto.
    rewrite Hd, store_slice; try done; [apply len_nonneg|].
    by rewrite (proj1 (proj1 (media_ok _) (durable_ok w))).
  - intros w dl w' st. change (call_flush _ w dl) with (media_flush w dl). unfold media_flush. intros [= <- <-]. split_and!; naive_solver.
Defined.

Lemma memory_provider_reliable alignment d : reliable (memory_provider alignment d).
Proof.
  constructor.
  - intros w off buffer dl Ho Hl. change (off + len buffer <= capacity) in Hl. eexists w, _.
    change (call_read _ w off buffer dl) with (media_read w off buffer dl). unfold media_read, in_range_b.
    by rewrite (proj2 (Z.leb_le 0 off)), (proj2 (Z.leb_le (off + len buffer) capacity)).
  - intros w off buffer dl Ho Hl Hb. change (off + len buffer <= capacity) in Hl.
    change (call_write _ w off buffer dl) with (media_write w off buffer dl). unfold media_write, in_range_b.
    rewrite (proj2 (Z.leb_le 0 off)), (proj2 (Z.leb_le (off + len buffer) capacity)) by done. simpl.
    destruct (media_put_octets w off buffer Hb) as [w1 ->]. eauto.
  - intros w dl. eexists. reflexivity.
Qed.

End Media.
