(* ===== verification/CString.v ===== *)
(** * C strings

    A NUL-terminated string is the list of its bytes before the terminator; a
    pointer to one is an [option].  The comparison helpers are repeated in
    [src/core/registry.c], [src/core/service_directory.c] and
    [src/core/context.c] with the same bodies; each is modelled once. *)

From S2P Require Import Prelude.
From S2P Require Import Buffer.

Abbreviation cstring := (option bytes).

(** [s == NULL || s[0] == '\0'] *)
Definition cstring_empty (s : cstring) : bool :=
  match s with Some (_ :: _) => false | _ => true end.

Fixpoint registry_strcmp (lhs rhs : bytes) : Z :=
  match lhs, rhs with
  | x :: lhs', y :: rhs' => if x =? y then registry_strcmp lhs' rhs' else x - y
  | x :: _, [] => x
  | [], y :: _ => - y
  | [], [] => 0
  end.

Fixpoint streq (lhs rhs : bytes) : bool :=
  match lhs, rhs with
  | x :: lhs', y :: rhs' => if x =? y then streq lhs' rhs' else false
  | [], [] => true
  | _, _ => false
  end.

(** Two pointers, either of which may be NULL. *)
Definition core_streq (lhs rhs : cstring) : bool :=
  match lhs, rhs with Some l, Some r => streq l r | _, _ => false end.

(** The bytes of a C string are not NUL. *)
Definition string_bytes (s : bytes) : Prop := Forall (fun x => 0 < x < 256) s.

Lemma streq_true l r : streq l r = true <-> l = r.
Proof.
  revert r. induction l as [|x l IH]; intros [|y r]; simpl; [done..|].
  destruct (Z.eqb_spec x y) as [->|]; [|naive_solver]. rewrite IH. split; [by intros ->|by intros [=]].
Qed.

Lemma strcmp_zero l r : string_bytes l -> string_bytes r -> registry_strcmp l r = 0 <-> l = r.
Proof.
  intros Hl. revert r. induction Hl as [|x l Hx Hl IH]; intros r Hr;
    destruct Hr as [|y r Hy Hr]; simpl; [done|split; [lia|done]..|].
  destruct (Z.eqb_spec x y) as [->|]; [|split; [lia|congruence]].
  rewrite IH by done. split; [by intros ->|by intros [=]].
Qed.

Lemma strcmp_trans l m r :
  string_bytes l -> string_bytes m -> string_bytes r ->
  registry_strcmp l m < 0 -> registry_strcmp m r < 0 -> registry_strcmp l r < 0.
Proof.
  intros Hl. revert m r. induction Hl as [|x l Hx Hl IH]; intros m r Hm Hr;
    destruct Hm as [|y m Hy Hm], Hr as [|z r Hz Hr]; simpl; try lia.
  destruct (Z.eqb_spec x y), (Z.eqb_spec y z), (Z.eqb_spec x z); subst; try lia. eauto.
Qed.

(** A table sorted by neighbours is sorted. *)
Lemma strcmp_sorted (id : Z -> bytes) n : (forall i, string_bytes (id i)) ->
  (forall i, 0 < i < n -> registry_strcmp (id (i - 1)) (id i) < 0) ->
  forall i j, 0 <= i -> i < j -> j < n -> registry_strcmp (id i) (id j) < 0.
Proof.
  intros Ht Hf. apply (adjacent_trans (fun i j => registry_strcmp (id i) (id j) < 0)); [|done].
  intros i j k. by apply strcmp_trans.
Qed.
