(* ===== verification/Signature.v ===== *)
(** * Signature providers ([src/security/signature.c])

    The generic checks in front of a product's signature provider.  The
    verification callback is product code: a function of the request.  A workspace
    pointer is its address, 0 for NULL. *)

From S2P Require Import Prelude.
From S2P Require Import Buffer.
From S2P Require Import Wire.
From S2P Require Import CString.

Definition RIBON_SIGNATURE_PROVIDER_MAGIC : Z := 0x52425350.
Definition RIBON_SIGNATURE_PROVIDER_ABI_VERSION : Z := 1.
Definition RIBON_ED25519_PUBLIC_KEY_BYTES : Z := 32.
Definition RIBON_ED25519_SIGNATURE_BYTES : Z := 64.
Definition RIBON_SIGNATURE_ALGORITHM_ED25519 : Z := 1.
Definition RIBON_SIGNATURE_PROVIDER_CLASS_PRODUCTION : Z := 1.
Definition RIBON_SIGNATURE_PROVIDER_CLASS_FIXTURE : Z := 2.
Definition RIBON_SIGNATURE_STATUS_OK : Z := 0.
Definition RIBON_SIGNATURE_STATUS_INVALID_ARGUMENT : Z := -1.
Definition RIBON_SIGNATURE_STATUS_INVALID_PROVIDER : Z := -2.
Definition RIBON_SIGNATURE_STATUS_UNSUPPORTED_ALGORITHM : Z := -3.
Definition RIBON_SIGNATURE_STATUS_WORKSPACE_TOO_SMALL : Z := -6.
Definition sizeof_RibonSignatureProvider : Z := 104.
Definition sizeof_RibonSignatureVerification : Z := 112.

Record RibonSignatureVerification := mkVerification {
  verification_size : Z;
  verification_abi_version : Z;
  verification_algorithm : Z;
  verification_flags : Z;
  verification_public_key : option bytes;
  verification_public_key_size : Z;
  verification_message : option bytes;
  verification_message_size : Z;
  verification_signature : option bytes;
  verification_signature_size : Z;
  verification_workspace : Z;
  verification_workspace_size : Z;
  verification_reserved : list Z;
}.

Record RibonSignatureProvider := mkSignatureProvider {
  signature_magic : Z;
  signature_size : Z;
  signature_abi_version : Z;
  signature_provider_class : Z;
  signature_algorithm : Z;
  signature_flags : Z;
  signature_id : cstring;
  signature_public_key_bytes : Z;
  signature_signature_bytes : Z;
  signature_workspace_bytes : Z;
  signature_workspace_alignment : Z;
  signature_verify_fn : option (RibonSignatureVerification -> Z);
  signature_reserved : list Z;
}.

Definition ribon_signature_workspace_is_aligned (workspace alignment : Z) : bool :=
  (alignment !=? 0) && (Z.land alignment (alignment - 1) =? 0) &&
  (Z.land workspace (alignment - 1) =? 0).

Definition ribon_signature_provider_is_valid (provider : option RibonSignatureProvider) : bool :=
  match provider with
  | None => false
  | Some p =>
    negb ((signature_magic p !=? RIBON_SIGNATURE_PROVIDER_MAGIC) ||
          (signature_size p !=? sizeof_RibonSignatureProvider) ||
          (signature_abi_version p !=? RIBON_SIGNATURE_PROVIDER_ABI_VERSION) ||
          ((signature_provider_class p !=? RIBON_SIGNATURE_PROVIDER_CLASS_PRODUCTION) &&
           (signature_provider_class p !=? RIBON_SIGNATURE_PROVIDER_CLASS_FIXTURE)) ||
          (signature_algorithm p !=? RIBON_SIGNATURE_ALGORITHM_ED25519) ||
          (signature_flags p !=? 0) || cstring_empty (signature_id p) ||
          (signature_public_key_bytes p !=? RIBON_ED25519_PUBLIC_KEY_BYTES) ||
          (signature_signature_bytes p !=? RIBON_ED25519_SIGNATURE_BYTES) ||
          (signature_workspace_alignment p =? 0) ||
          (Z.land (signature_workspace_alignment p) (signature_workspace_alignment p - 1) !=? 0) ||
          is_null (signature_verify_fn p) || negb (bytes_zero (signature_reserved p)))
  end.

(** The checks of a request against the provider, and the callback. *)
Definition ribon_signature_verify (provider : option RibonSignatureProvider)
    (request : option RibonSignatureVerification) : Z :=
  match provider, request with
  | Some p, Some r =>
    if negb (ribon_signature_provider_is_valid provider) then RIBON_SIGNATURE_STATUS_INVALID_PROVIDER
    else if (verification_size r !=? sizeof_RibonSignatureVerification) ||
            (verification_abi_version r !=? RIBON_SIGNATURE_PROVIDER_ABI_VERSION) ||
            (verification_flags r !=? 0) || is_null (verification_public_key r) ||
            is_null (verification_signature r) ||
            (is_null (verification_message r) && (verification_message_size r !=? 0)) ||
            negb (bytes_zero (verification_reserved r))
    then RIBON_SIGNATURE_STATUS_INVALID_ARGUMENT
    else if verification_algorithm r !=? signature_algorithm p
    then RIBON_SIGNATURE_STATUS_UNSUPPORTED_ALGORITHM
    else if (verification_public_key_size r !=? signature_public_key_bytes p) ||
            (verification_signature_size r !=? signature_signature_bytes p)
    then RIBON_SIGNATURE_STATUS_INVALID_ARGUMENT
    else
      let verify := match signature_verify_fn p with
                    | Some f => f r
                    | None => RIBON_SIGNATURE_STATUS_INVALID_PROVIDER
                    end in
      if signature_workspace_bytes p =? 0
      then if (verification_workspace r !=? 0) || (verification_workspace_size r !=? 0)
           then RIBON_SIGNATURE_STATUS_INVALID_ARGUMENT
           else verify
      else if (verification_workspace r =? 0) ||
              (verification_workspace_size r <? signature_workspace_bytes p)
      then RIBON_SIGNATURE_STATUS_WORKSPACE_TOO_SMALL
      else if negb (ribon_signature_workspace_is_aligned (verification_workspace r)
                      (signature_workspace_alignment p))
      then RIBON_SIGNATURE_STATUS_INVALID_ARGUMENT
      else verify
  | Some p, None =>
    if negb (ribon_signature_provider_is_valid provider) then RIBON_SIGNATURE_STATUS_INVALID_PROVIDER
    else RIBON_SIGNATURE_STATUS_INVALID_ARGUMENT
  | None, _ => RIBON_SIGNATURE_STATUS_INVALID_PROVIDER
  end.

(** A verification succeeds only when the provider's callback accepted the request. *)
Lemma signature_verify_ok p r :
  ribon_signature_verify (Some p) (Some r) = RIBON_SIGNATURE_STATUS_OK ->
  ribon_signature_provider_is_valid (Some p) = true /\
  exists f, signature_verify_fn p = Some f /\ f r = RIBON_SIGNATURE_STATUS_OK.
Proof.
  unfold ribon_signature_verify.
  destruct (ribon_signature_provider_is_valid (Some p)) eqn:Hv; [|done]. cbn [negb].
  destruct (_ || _); [done|]. destruct (_ !=? _); [done|]. destruct (_ || _); [done|].
  destruct (signature_verify_fn p) as [f|].
  - intros H. split; [done|]. exists f. split; [done|].
    destruct (_ =? 0); [by destruct (_ || _)|]. destruct (_ || _); [done|]. by destruct (negb _).
  - destruct (_ =? 0); [by destruct (_ || _)|]. destruct (_ || _); [done|]. by destruct (negb _).
Qed.
