(* ===== verification/KeyPolicy.v ===== *)
(** * Product key policy ([src/security/key_policy.c])

    The immutable trust store of a product: its validation (shape, order, issuer
    graph, canonical digest), the authorisation of a signed object's tuple, and the
    verification of its signature with the selected key.  A pointer with its size
    is an optional byte list and a number; [issuer == cursor] compares indices. *)

From S2P Require Import Prelude.
From S2P Require Import Buffer.
From S2P Require Import Wire.
From S2P Require Import Sha256.
From S2P Require Import Signature.

Definition RIBON_KEY_POLICY_STORE_MAGIC : Z := 0x52424b50.
Definition RIBON_KEY_POLICY_ABI_VERSION : Z := 1.
Definition RIBON_KEY_POLICY_DIGEST_BYTES : Z := 32.
Definition RIBON_KEY_POLICY_MAX_RECORDS : Z := 32.
Definition RIBON_KEY_POLICY_MAX_DOMAINS : Z := 4.
Definition RIBON_KEY_POLICY_MAX_DELEGATION_EDGES : Z := 2.
Definition RIBON_KEY_POLICY_MAX_KEY_ID_BYTES : Z := 64.
Definition RIBON_KEY_POLICY_RECORD_ROOT : Z := 1.
Definition RIBON_KEY_POLICY_ALL_MODE_MASK : Z := 0x0f.
Definition RIBON_KEY_POLICY_ALL_USAGE_MASK : Z := 0x7f.
Definition RIBON_KEY_POLICY_MODE_NORMAL : Z := 1.
Definition RIBON_KEY_POLICY_MODE_DIAGNOSTIC : Z := 4.
Definition RIBON_KEY_POLICY_USAGE_POLICY_NORMAL : Z := 1.
Definition RIBON_KEY_POLICY_USAGE_POLICY_DIAGNOSTIC : Z := 4.
Definition RIBON_KEY_POLICY_USAGE_BOOT_CONFIRMATION : Z := 7.
Definition RIBON_KEY_POLICY_LIFECYCLE_ACTIVE : Z := 1.
Definition RIBON_KEY_POLICY_LIFECYCLE_RETIRING : Z := 2.
Definition RIBON_KEY_POLICY_LIFECYCLE_REVOKED : Z := 3.
Definition sizeof_RibonKeyPolicyRecord : Z := 224.
Definition sizeof_RibonKeyPolicyStore : Z := 120.
Definition sizeof_RibonKeyPolicyRequest : Z := 144.
Definition sizeof_RibonKeyPolicyDecision : Z := 120.
Definition sizeof_RibonKeyPolicySignatureVerification : Z := 112.

Inductive RibonKeyPolicyStatus :=
| RIBON_KEY_POLICY_STATUS_OK
| RIBON_KEY_POLICY_STATUS_INVALID_ARGUMENT
| RIBON_KEY_POLICY_STATUS_INVALID_STORE
| RIBON_KEY_POLICY_STATUS_IDENTITY_MISMATCH
| RIBON_KEY_POLICY_STATUS_MODE_USAGE_MISMATCH
| RIBON_KEY_POLICY_STATUS_DOMAIN_MISMATCH
| RIBON_KEY_POLICY_STATUS_KEY_UNKNOWN
| RIBON_KEY_POLICY_STATUS_KEY_POLICY
| RIBON_KEY_POLICY_STATUS_UNSUPPORTED_ALGORITHM
| RIBON_KEY_POLICY_STATUS_SIGNATURE_INVALID.

#[global] Instance RibonKeyPolicyStatus_eq_dec : EqDecision RibonKeyPolicyStatus.
Proof. solve_decision. Defined.

Record RibonKeyPolicyRecord := mkKeyRecord {
  key_size : Z;
  key_abi_version : Z;
  key_flags : Z;
  key_algorithm : Z;
  key_lifecycle : Z;
  key_mode_mask : Z;
  key_usage_mask : Z;
  key_id : option bytes;
  key_id_size : Z;
  key_public_key : bytes;
  key_identity_digest : bytes;
  key_product_digest : bytes;
  key_rollback_domain_digests : option (list bytes);
  key_rollback_domain_count : Z;
  key_delegation_depth : Z;
  key_issuer_key_id : option bytes;
  key_issuer_key_id_size : Z;
  key_minimum_sequence : Z;
  key_maximum_sequence : Z;
  key_reserved : list Z;
}.

Record RibonKeyPolicyStore := mkKeyStore {
  store_magic : Z;
  store_size : Z;
  store_abi_version : Z;
  store_flags : Z;
  store_id : option bytes;
  store_id_size : Z;
  store_generation : Z;
  store_records : option (list RibonKeyPolicyRecord);
  store_record_count : Z;
  store_reserved0 : Z;
  store_canonical_digest : bytes;
  store_reserved : list Z;
}.

Record RibonKeyPolicyRequest := mkKeyRequest {
  request_size : Z;
  request_abi_version : Z;
  request_mode : Z;
  request_usage : Z;
  request_flags : Z;
  request_reserved0 : Z;
  request_key_id : option bytes;
  request_key_id_size : Z;
  request_product_digest : bytes;
  request_rollback_domain_digest : bytes;
  request_sequence : Z;
  request_reserved : list Z;
}.

Record RibonKeyPolicyDecision := mkKeyDecision {
  verdict_size : Z;
  verdict_abi_version : Z;
  verdict_record_index : Z;
  verdict_delegation_depth : Z;
  verdict_trust_store_generation : Z;
  verdict_key_identity_digest : bytes;
  verdict_trust_store_digest : bytes;
  verdict_reserved : list Z;
}.

Record RibonKeyPolicySignatureVerification := mkKeyVerification {
  signed_size : Z;
  signed_abi_version : Z;
  signed_flags : Z;
  signed_reserved0 : Z;
  signed_policy : option RibonKeyPolicyRequest;
  signed_provider : option RibonSignatureProvider;
  signed_message : option bytes;
  signed_message_size : Z;
  signed_signature : option bytes;
  signed_signature_size : Z;
  signed_workspace : Z;
  signed_workspace_size : Z;
  signed_reserved : list Z;
}.

(** ** Streaming SHA-256

    The file has a copy of the context, the compression function and the update
    loop of [sha256.c], with the same bodies. *)

Definition ribon_key_policy_sha256_transform : RibonSecuritySha256 -> bytes -> RibonSecuritySha256 := transform.

Definition ribon_key_policy_sha256_initialize : RibonSecuritySha256 := mkSha256 initial_state 0 (zeros 64) 0.

Definition ribon_key_policy_sha256_update : RibonSecuritySha256 -> bytes -> RibonSecuritySha256 := update.

Definition ribon_key_policy_sha256_finish (context : RibonSecuritySha256) : bytes :=
  let bit_length := u64 (total_bytes context * 8) in
  let padding := store (zeros 128) 0 [0x80] in
  let padding_size := if used context <? 56 then 56 - used context else 120 - used context in
  let length := (fun index => u8 (Z.shiftr bit_length ((7 - index) * 8))) <$> seqZ 0 8 in
  let context := ribon_key_policy_sha256_update context (slice 0 padding_size padding) in
  let context := ribon_key_policy_sha256_update context length in
  mjoin (word_digest <$> state context).

Definition ribon_key_policy_sha256 (b : bytes) : bytes :=
  ribon_key_policy_sha256_finish (ribon_key_policy_sha256_update ribon_key_policy_sha256_initialize b).

Definition ribon_key_policy_hash_u16 (hash : RibonSecuritySha256) (value : Z) : RibonSecuritySha256 :=
  ribon_key_policy_sha256_update hash [u8 value; u8 (Z.shiftr value 8)].

Definition ribon_key_policy_hash_u32 (hash : RibonSecuritySha256) (value : Z) : RibonSecuritySha256 :=
  ribon_key_policy_sha256_update hash ((fun index => u8 (Z.shiftr value (index * 8))) <$> upto 4).

Definition ribon_key_policy_hash_u64 (hash : RibonSecuritySha256) (value : Z) : RibonSecuritySha256 :=
  ribon_key_policy_sha256_update hash ((fun index => u8 (Z.shiftr value (index * 8))) <$> upto 8).

(** ** Identifiers and lookups *)

(** The bytes a pointer and a size name. *)
Definition view (p : option bytes) (size : Z) : bytes := slice 0 size (default [] p).

Definition ribon_key_policy_id_compare (left : bytes) (left_size : Z) (right : bytes) (right_size : Z) : Z :=
  let shared := if left_size <? right_size then left_size else right_size in
  match foldE (fun (_ : unit) index =>
      if byte_at left index <? byte_at right index then inl (-1)
      else if byte_at left index >? byte_at right index then inl 1
      else inr tt) (upto shared) tt with
  | inl order => order
  | inr _ => if left_size <? right_size then -1 else if left_size >? right_size then 1 else 0
  end.

Definition ribon_key_policy_id_is_valid (id : option bytes) (size : Z) : bool :=
  match id with
  | None => false
  | Some b =>
    if (size =? 0) || (size >? RIBON_KEY_POLICY_MAX_KEY_ID_BYTES) then false
    else forallb (fun index => byte_at b index !=? 0) (upto size)
  end.

(** [record->rollback_domain_digests[index]] *)
Definition key_domain (record : RibonKeyPolicyRecord) (index : Z) : bytes :=
  nth (Z.to_nat index) (default [] (key_rollback_domain_digests record)) [].

Definition ribon_key_policy_record_has_domain (record : RibonKeyPolicyRecord) (domain : bytes) : bool :=
  match foldE (fun (_ : unit) index =>
      let order := ribon_key_policy_id_compare (key_domain record index) RIBON_KEY_POLICY_DIGEST_BYTES
                     domain RIBON_KEY_POLICY_DIGEST_BYTES in
      if order =? 0 then inl true else if order >? 0 then inl false else inr tt)
    (upto (key_rollback_domain_count record)) tt with
  | inl found => found
  | inr _ => false
  end.

(** An all-zero record, for indices out of range. *)
Definition no_record : RibonKeyPolicyRecord :=
  mkKeyRecord 0 0 0 0 0 0 0 None 0 [] [] [] None 0 0 None 0 0 0 [].

(** [store->records[index]] *)
Definition key_record (store : RibonKeyPolicyStore) (index : Z) : RibonKeyPolicyRecord :=
  nth (Z.to_nat index) (default [] (store_records store)) no_record.

Definition ribon_key_policy_find_record (store : RibonKeyPolicyStore) (id : option bytes) (id_size : Z)
  : option Z :=
  match foldE (fun (_ : unit) index =>
      let record := key_record store index in
      let order := ribon_key_policy_id_compare (default [] (key_id record)) (key_id_size record)
                     (default [] id) id_size in
      if order =? 0 then inl (Some index) else if order >? 0 then inl None else inr tt)
    (upto (store_record_count store)) tt with
  | inl found => found
  | inr _ => None
  end.

Definition ribon_key_policy_record_contains (issuer child : RibonKeyPolicyRecord) : bool :=
  if (Z.land (key_usage_mask child) (u64 (Z.lnot (key_usage_mask issuer))) !=? 0) ||
     (Z.land (key_mode_mask child) (u32 (Z.lnot (key_mode_mask issuer))) !=? 0) ||
     (key_minimum_sequence child <? key_minimum_sequence issuer) ||
     (key_maximum_sequence child >? key_maximum_sequence issuer) ||
     negb (bytes_equal (key_product_digest issuer) (key_product_digest child))
  then false
  else forallb (fun index => ribon_key_policy_record_has_domain issuer (key_domain child index))
         (upto (key_rollback_domain_count child)).

Definition is_root (record : RibonKeyPolicyRecord) : bool :=
  Z.land (key_flags record) RIBON_KEY_POLICY_RECORD_ROOT !=? 0.

(** ** The canonical digest *)

(** "RIBON-KEY-STORE-V1", padded with zeros *)
Definition key_store_magic : bytes :=
  [82; 73; 66; 79; 78; 45; 75; 69; 89; 45; 83; 84; 79; 82; 69; 45; 86; 49] ++ zeros 14.

(** What one record adds to the digest. *)
Definition hash_record (hash : RibonSecuritySha256) (record : RibonKeyPolicyRecord) : RibonSecuritySha256 :=
  let id_digest := ribon_key_policy_sha256 (view (key_id record) (key_id_size record)) in
  let hash := ribon_key_policy_sha256_update hash id_digest in
  let hash := ribon_key_policy_sha256_update hash (key_public_key record) in
  let hash := ribon_key_policy_sha256_update hash (key_identity_digest record) in
  let hash := ribon_key_policy_sha256_update hash (key_product_digest record) in
  let hash := ribon_key_policy_hash_u64 hash (key_usage_mask record) in
  let hash := ribon_key_policy_hash_u32 hash (key_mode_mask record) in
  let hash := ribon_key_policy_hash_u32 hash (u32 (key_lifecycle record)) in
  let hash := ribon_key_policy_hash_u32 hash (key_flags record) in
  let hash := ribon_key_policy_hash_u64 hash (key_minimum_sequence record) in
  let hash := ribon_key_policy_hash_u64 hash (key_maximum_sequence record) in
  let issuer_digest :=
    if is_root record then zeros 32
    else ribon_key_policy_sha256 (view (key_issuer_key_id record) (key_issuer_key_id_size record)) in
  let hash := ribon_key_policy_sha256_update hash issuer_digest in
  let hash := ribon_key_policy_hash_u32 hash (key_delegation_depth record) in
  let hash := ribon_key_policy_hash_u32 hash (key_rollback_domain_count record) in
  fold_left (fun hash index => ribon_key_policy_sha256_update hash (key_domain record index))
    (upto (key_rollback_domain_count record)) hash.

Definition ribon_key_policy_store_digest (store : RibonKeyPolicyStore) : bytes :=
  let hash := ribon_key_policy_sha256_initialize in
  let hash := ribon_key_policy_sha256_update hash key_store_magic in
  let hash := ribon_key_policy_hash_u16 hash 1 in
  let hash := ribon_key_policy_hash_u16 hash 0 in
  let hash := ribon_key_policy_hash_u32 hash (store_record_count store) in
  let hash := ribon_key_policy_hash_u64 hash (store_generation store) in
  let id_digest := ribon_key_policy_sha256 (view (store_id store) (store_id_size store)) in
  let hash := ribon_key_policy_sha256_update hash id_digest in
  let hash := fold_left (fun hash index => hash_record hash (key_record store index))
                (upto (store_record_count store)) hash in
  ribon_key_policy_sha256_finish hash.

(** ** Validation *)

Definition ribon_key_policy_record_shape_is_valid (record : RibonKeyPolicyRecord) : bool :=
  if (key_size record !=? sizeof_RibonKeyPolicyRecord) ||
     (key_abi_version record !=? RIBON_KEY_POLICY_ABI_VERSION) ||
     (Z.land (key_flags record) (u32 (Z.lnot RIBON_KEY_POLICY_RECORD_ROOT)) !=? 0) ||
     (key_algorithm record !=? RIBON_SIGNATURE_ALGORITHM_ED25519) ||
     ((key_lifecycle record !=? RIBON_KEY_POLICY_LIFECYCLE_ACTIVE) &&
      (key_lifecycle record !=? RIBON_KEY_POLICY_LIFECYCLE_RETIRING) &&
      (key_lifecycle record !=? RIBON_KEY_POLICY_LIFECYCLE_REVOKED)) ||
     (key_mode_mask record =? 0) ||
     (Z.land (key_mode_mask record) (u32 (Z.lnot RIBON_KEY_POLICY_ALL_MODE_MASK)) !=? 0) ||
     (key_usage_mask record =? 0) ||
     (Z.land (key_usage_mask record) (u64 (Z.lnot RIBON_KEY_POLICY_ALL_USAGE_MASK)) !=? 0) ||
     negb (ribon_key_policy_id_is_valid (key_id record) (key_id_size record)) ||
     bytes_zero (key_public_key record) || bytes_zero (key_identity_digest record) ||
     bytes_zero (key_product_digest record) || is_null (key_rollback_domain_digests record) ||
     (key_rollback_domain_count record =? 0) ||
     (key_rollback_domain_count record >? RIBON_KEY_POLICY_MAX_DOMAINS) ||
     (key_minimum_sequence record >? key_maximum_sequence record) ||
     negb (bytes_zero (key_reserved record))
  then false
  else if negb (bytes_equal (ribon_key_policy_sha256 (key_public_key record)) (key_identity_digest record))
  then false
  else if if is_root record
          then negb (is_null (key_issuer_key_id record)) || (key_issuer_key_id_size record !=? 0) ||
               (key_delegation_depth record !=? 0)
          else negb (ribon_key_policy_id_is_valid (key_issuer_key_id record) (key_issuer_key_id_size record)) ||
               (key_delegation_depth record =? 0) ||
               (key_delegation_depth record >? RIBON_KEY_POLICY_MAX_DELEGATION_EDGES)
  then false
  else forallb (fun index =>
      negb (bytes_zero (key_domain record index) ||
            ((index >? 0) &&
             (ribon_key_policy_id_compare (key_domain record (index - 1)) RIBON_KEY_POLICY_DIGEST_BYTES
                (key_domain record index) RIBON_KEY_POLICY_DIGEST_BYTES >=? 0))))
    (upto (key_rollback_domain_count record)).

(** The shape of a record, its place in the order and its distinct key. *)
Definition record_is_placed (store : RibonKeyPolicyStore) (index : Z) : bool :=
  let record := key_record store index in
  let before := key_record store (index - 1) in
  negb (negb (ribon_key_policy_record_shape_is_valid record) ||
        ((index >? 0) &&
         (ribon_key_policy_id_compare (default [] (key_id before)) (key_id_size before)
            (default [] (key_id record)) (key_id_size record) >=? 0))) &&
  forallb (fun other =>
      negb (bytes_equal (key_identity_digest record) (key_identity_digest (key_record store other))))
    (upto index).

(** The walk from a record to its root: the number of edges, unless an issuer is
    missing, too narrow or too far.  [left] is the number of edges [depth] may
    still grow by. *)
Fixpoint issuer_depth (left : nat) (store : RibonKeyPolicyStore) (cursor depth : Z) : option Z :=
  let record := key_record store cursor in
  if is_root record then Some depth
  else
    match left with
    | O => None
    | S left' =>
      match ribon_key_policy_find_record store (key_issuer_key_id record) (key_issuer_key_id_size record) with
      | None => None
      | Some issuer =>
        if (issuer =? cursor) || negb (ribon_key_policy_record_contains (key_record store issuer) record)
        then None
        else issuer_depth left' store issuer (u32 (depth + 1))
      end
    end.

Definition delegation_edges : nat := Z.to_nat RIBON_KEY_POLICY_MAX_DELEGATION_EDGES.

Definition ribon_key_policy_store_structure_is_valid (store : option RibonKeyPolicyStore)
  : RibonKeyPolicyStatus :=
  match store with
  | None => RIBON_KEY_POLICY_STATUS_INVALID_STORE
  | Some s =>
    if (store_magic s !=? RIBON_KEY_POLICY_STORE_MAGIC) || (store_size s !=? sizeof_RibonKeyPolicyStore) ||
       (store_abi_version s !=? RIBON_KEY_POLICY_ABI_VERSION) || (store_flags s !=? 0) ||
       negb (ribon_key_policy_id_is_valid (store_id s) (store_id_size s)) ||
       (store_generation s =? 0) || is_null (store_records s) || (store_record_count s =? 0) ||
       (store_record_count s >? RIBON_KEY_POLICY_MAX_RECORDS) || (store_reserved0 s !=? 0) ||
       negb (bytes_zero (store_reserved s))
    then RIBON_KEY_POLICY_STATUS_INVALID_STORE
    else if negb (forallb (record_is_placed s) (upto (store_record_count s)))
    then RIBON_KEY_POLICY_STATUS_INVALID_STORE
    else if negb (forallb (fun index =>
        match issuer_depth delegation_edges s index 0 with
        | Some depth => key_delegation_depth (key_record s index) =? depth
        | None => false
        end) (upto (store_record_count s)))
    then RIBON_KEY_POLICY_STATUS_INVALID_STORE
    else RIBON_KEY_POLICY_STATUS_OK
  end.

(** The digest, when [digest] is not NULL. *)
Definition ribon_key_policy_store_canonical_digest (store : option RibonKeyPolicyStore) (digest : bool)
  : RibonKeyPolicyStatus * bytes :=
  match ribon_key_policy_store_structure_is_valid store, store with
  | RIBON_KEY_POLICY_STATUS_OK, Some s =>
    if digest then (RIBON_KEY_POLICY_STATUS_OK, ribon_key_policy_store_digest s)
    else (RIBON_KEY_POLICY_STATUS_INVALID_ARGUMENT, [])
  | status, _ => (status, [])
  end.

Definition ribon_key_policy_store_validate (store : option RibonKeyPolicyStore) : RibonKeyPolicyStatus :=
  match ribon_key_policy_store_canonical_digest store true, store with
  | (RIBON_KEY_POLICY_STATUS_OK, digest), Some s =>
    if bytes_zero (store_canonical_digest s) || negb (bytes_equal digest (store_canonical_digest s))
    then RIBON_KEY_POLICY_STATUS_INVALID_STORE
    else RIBON_KEY_POLICY_STATUS_OK
  | (status, _), _ => status
  end.

(** ** Authorisation *)

Definition ribon_key_policy_request_is_valid (request : option RibonKeyPolicyRequest) : bool :=
  match request with
  | None => false
  | Some r =>
    (request_size r =? sizeof_RibonKeyPolicyRequest) &&
    (request_abi_version r =? RIBON_KEY_POLICY_ABI_VERSION) &&
    (request_mode r >=? RIBON_KEY_POLICY_MODE_NORMAL) &&
    (request_mode r <=? RIBON_KEY_POLICY_MODE_DIAGNOSTIC) &&
    (request_usage r >=? RIBON_KEY_POLICY_USAGE_POLICY_NORMAL) &&
    (request_usage r <=? RIBON_KEY_POLICY_USAGE_BOOT_CONFIRMATION) &&
    (request_flags r =? 0) && (request_reserved0 r =? 0) &&
    ribon_key_policy_id_is_valid (request_key_id r) (request_key_id_size r) &&
    negb (bytes_zero (request_product_digest r)) &&
    negb (bytes_zero (request_rollback_domain_digest r)) && bytes_zero (request_reserved r)
  end.

Definition ribon_key_policy_record_allows_request (record : RibonKeyPolicyRecord)
    (request : RibonKeyPolicyRequest) : bool :=
  let mode_bit := u32 (Z.shiftl 1 (u32 (request_mode request - 1))) in
  let usage_bit := u64 (Z.shiftl 1 (u32 (request_usage request - 1))) in
  (key_lifecycle record !=? RIBON_KEY_POLICY_LIFECYCLE_REVOKED) &&
  (Z.land (key_mode_mask record) mode_bit !=? 0) &&
  (Z.land (key_usage_mask record) usage_bit !=? 0) &&
  (request_sequence request >=? key_minimum_sequence record) &&
  (request_sequence request <=? key_maximum_sequence record) &&
  bytes_equal (key_product_digest record) (request_product_digest request) &&
  ribon_key_policy_record_has_domain record (request_rollback_domain_digest request).

(** The walk that authorises a record and its issuers. *)
Fixpoint chain_allows (left : nat) (store : RibonKeyPolicyStore) (request : RibonKeyPolicyRequest)
    (cursor depth : Z) : RibonKeyPolicyStatus + Z :=
  let record := key_record store cursor in
  if negb (ribon_key_policy_record_allows_request record request) then inl RIBON_KEY_POLICY_STATUS_KEY_POLICY
  else if is_root record then inr depth
  else
    match left with
    | O => inl RIBON_KEY_POLICY_STATUS_INVALID_STORE
    | S left' =>
      match ribon_key_policy_find_record store (key_issuer_key_id record) (key_issuer_key_id_size record) with
      | None => inl RIBON_KEY_POLICY_STATUS_INVALID_STORE
      | Some issuer => chain_allows left' store request issuer (u32 (depth + 1))
      end
    end.

(** The decision before anything is decided. *)
Definition empty_decision : RibonKeyPolicyDecision :=
  mkKeyDecision sizeof_RibonKeyPolicyDecision RIBON_KEY_POLICY_ABI_VERSION UINT32_MAX 0 0
    (zeros 32) (zeros 32) [0; 0; 0; 0].

(** The index of the selected record and the length of its chain. *)
Definition select_record (store : RibonKeyPolicyStore) (request : RibonKeyPolicyRequest)
  : RibonKeyPolicyStatus + Z * Z :=
  if (request_usage request <=? RIBON_KEY_POLICY_USAGE_POLICY_DIAGNOSTIC) &&
     (u32 (request_mode request) !=? u32 (request_usage request))
  then inl RIBON_KEY_POLICY_STATUS_MODE_USAGE_MISMATCH
  else
    match ribon_key_policy_find_record store (request_key_id request) (request_key_id_size request) with
    | None => inl RIBON_KEY_POLICY_STATUS_KEY_UNKNOWN
    | Some index =>
      let record := key_record store index in
      if negb (bytes_equal (key_product_digest record) (request_product_digest request))
      then inl RIBON_KEY_POLICY_STATUS_IDENTITY_MISMATCH
      else if negb (ribon_key_policy_record_has_domain record (request_rollback_domain_digest request))
      then inl RIBON_KEY_POLICY_STATUS_DOMAIN_MISMATCH
      else match chain_allows delegation_edges store request index 0 with
           | inl status => inl status
           | inr depth => inr (index, depth)
           end
    end.

Definition ribon_key_policy_authorize (store : option RibonKeyPolicyStore)
    (request : option RibonKeyPolicyRequest) (decision : option RibonKeyPolicyDecision)
  : RibonKeyPolicyStatus * option RibonKeyPolicyDecision :=
  match decision with
  | None => (RIBON_KEY_POLICY_STATUS_INVALID_ARGUMENT, None)
  | Some _ =>
    match ribon_key_policy_store_validate store, store, request with
    | RIBON_KEY_POLICY_STATUS_OK, Some s, Some r =>
      if negb (ribon_key_policy_request_is_valid request)
      then (RIBON_KEY_POLICY_STATUS_INVALID_ARGUMENT, Some empty_decision)
      else
        match select_record s r with
        | inl status => (status, Some empty_decision)
        | inr (index, depth) =>
          (RIBON_KEY_POLICY_STATUS_OK,
           Some (mkKeyDecision sizeof_RibonKeyPolicyDecision RIBON_KEY_POLICY_ABI_VERSION index depth
                   (store_generation s) (key_identity_digest (key_record s index))
                   (store_canonical_digest s) [0; 0; 0; 0]))
        end
    | RIBON_KEY_POLICY_STATUS_OK, _, _ => (RIBON_KEY_POLICY_STATUS_INVALID_ARGUMENT, Some empty_decision)
    | status, _, _ => (status, Some empty_decision)
    end
  end.

(** ** Signatures *)

Definition ribon_key_policy_verification_is_valid
    (verification : option RibonKeyPolicySignatureVerification) : bool :=
  match verification with
  | None => false
  | Some v =>
    (signed_size v =? sizeof_RibonKeyPolicySignatureVerification) &&
    (signed_abi_version v =? RIBON_KEY_POLICY_ABI_VERSION) && (signed_flags v =? 0) &&
    (signed_reserved0 v =? 0) && negb (is_null (signed_policy v)) && negb (is_null (signed_provider v)) &&
    (negb (is_null (signed_message v)) || (signed_message_size v =? 0)) &&
    negb (is_null (signed_signature v)) && bytes_zero (signed_reserved v)
  end.

(** The request handed to the signature provider. *)
Definition signature_request (record : RibonKeyPolicyRecord) (v : RibonKeyPolicySignatureVerification)
  : RibonSignatureVerification :=
  mkVerification sizeof_RibonSignatureVerification RIBON_SIGNATURE_PROVIDER_ABI_VERSION
    (key_algorithm record) 0 (Some (key_public_key record)) RIBON_ED25519_PUBLIC_KEY_BYTES
    (signed_message v) (signed_message_size v) (signed_signature v) (signed_signature_size v)
    (signed_workspace v) (signed_workspace_size v) [0; 0; 0; 0].

Definition ribon_key_policy_verify (store : option RibonKeyPolicyStore)
    (verification : option RibonKeyPolicySignatureVerification) (decision : option RibonKeyPolicyDecision)
  : RibonKeyPolicyStatus * option RibonKeyPolicyDecision :=
  match verification with
  | None => (RIBON_KEY_POLICY_STATUS_INVALID_ARGUMENT, decision)
  | Some v =>
    if negb (ribon_key_policy_verification_is_valid verification)
    then (RIBON_KEY_POLICY_STATUS_INVALID_ARGUMENT, decision)
    else
      match ribon_key_policy_authorize store (signed_policy v) decision, store, signed_provider v with
      | (RIBON_KEY_POLICY_STATUS_OK, Some d), Some s, Some p =>
        let record := key_record s (verdict_record_index d) in
        if signature_algorithm p !=? key_algorithm record
        then (RIBON_KEY_POLICY_STATUS_UNSUPPORTED_ALGORITHM, Some d)
        else
          let status := ribon_signature_verify (Some p) (Some (signature_request record v)) in
          if status =? RIBON_SIGNATURE_STATUS_UNSUPPORTED_ALGORITHM
          then (RIBON_KEY_POLICY_STATUS_UNSUPPORTED_ALGORITHM, Some d)
          else if status =? RIBON_SIGNATURE_STATUS_OK then (RIBON_KEY_POLICY_STATUS_OK, Some d)
          else (RIBON_KEY_POLICY_STATUS_SIGNATURE_INVALID, Some d)
      | (status, d), _, _ => (status, d)
      end
  end.
