(* ===== verification/KeyPolicyOrder.v ===== *)
(** * Ordered lookups of the key policy

    Key identifiers and rollback domains are kept in byte order, and both lookups
    stop at the first larger entry.  On an ordered table they find exactly the
    entries that are there. *)

From S2P Require Import Prelude.
From S2P Require Import Buffer.
From S2P Require Import Wire.
From S2P Require Import KeyPolicy.

(** ** The order of byte strings *)

Fixpoint lex (l r : bytes) : Z :=
  match l, r with
  | [], [] => 0
  | [], _ :: _ => -1
  | _ :: _, [] => 1
  | x :: l', y :: r' => if x <? y then -1 else if x >? y then 1 else lex l' r'
  end.

Ltac lex_cases :=
  repeat match goal with
  | |- context [if ?x <? ?y then _ else _] => destruct (Z.ltb_spec x y)
  end.

Lemma lex_zero l r : lex l r = 0 <-> l = r.
Proof.
  revert r. induction l as [|x l IH]; intros [|y r]; simpl; [done..|].
  lex_cases; [split; [done|intros [=]; lia]..|]. rewrite IH. split; [|by intros [= _ ->]].
  intros ->. f_equal. lia.
Qed.

Lemma lex_antisym l r : lex r l = - lex l r.
Proof.
  revert r. induction l as [|x l IH]; intros [|y r]; simpl; [done..|]. lex_cases; try lia. apply IH.
Qed.

Lemma lex_trans l m r : lex l m < 0 -> lex m r < 0 -> lex l r < 0.
Proof.
  revert m r. induction l as [|x l IH]; intros [|y m] [|z r]; simpl; try lia.
  lex_cases; try lia. apply IH.
Qed.

(** The comparison of two identifiers of known sizes. *)
Lemma id_compare_lex l r : ribon_key_policy_id_compare l (len l) r (len r) = lex l r.
Proof.
  unfold ribon_key_policy_id_compare. revert r.
  induction l as [|x l IH]; intros [|y r]; simpl lex.
  - reflexivity.
  - rewrite len_cons. change (len []) with 0. pose proof (len_nonneg r).
    destruct (Z.ltb_spec 0 (1 + len r)); [|lia]. by rewrite seqZ_nil by lia.
  - rewrite len_cons. change (len []) with 0. pose proof (len_nonneg l).
    destruct (Z.ltb_spec (1 + len l) 0); [lia|]. rewrite seqZ_nil by lia. simpl.
    by destruct (Z.ltb_spec 0 (1 + len l)); [|lia].
  - rewrite !len_cons. specialize (IH r). pose proof (len_nonneg r). pose proof (len_nonneg l).
    assert (Hs : (if 1 + len l <? 1 + len r then 1 + len l else 1 + len r) =
      1 + (if len l <? len r then len l else len r)).
    { destruct (Z.ltb_spec (1 + len l) (1 + len r)), (Z.ltb_spec (len l) (len r)); lia. }
    rewrite Hs. rewrite seqZ_cons by (destruct (_ <? _); lia). simpl foldE.
    change (byte_at (x :: l) 0) with x. change (byte_at (y :: r) 0) with y.
    destruct (x <? y); [done|]. destruct (y <? x); [done|]. rewrite <- IH.
    replace (Z.pred (1 + (if len l <? len r then len l else len r)))
      with (if len l <? len r then len l else len r) by lia.
    change (Z.succ 0) with (1 + 0). rewrite <- (fmap_add_seqZ 1 0), foldE_fmap.
    assert (Hb : forall z (b : bytes) i, 0 <= i -> byte_at (z :: b) (1 + i) = byte_at b i).
    { intros z b i Hi. unfold byte_at. by replace (Z.to_nat (1 + i)) with (S (Z.to_nat i)) by lia. }
    rewrite (foldE_ext _ (fun (_ : unit) index => if byte_at l index <? byte_at r index then inl (-1)
      else if byte_at l index >? byte_at r index then inl 1 else inr tt)).
    + destruct (foldE _ _ _); [done|].
      repeat match goal with |- context [if ?a <? ?b then _ else _] => destruct (Z.ltb_spec a b) end; lia.
    + intros i b Hi. apply elem_of_seqZ in Hi. by rewrite !Hb by lia.
Qed.

(** ** Searching an ordered table *)

Section Search.
Context {E : Type} (id : Z -> bytes) (n : Z) (target : bytes) (hit : Z -> E) (miss : E).
Context (Hsorted : forall i j, 0 <= i -> i < j -> j < n -> lex (id i) (id j) < 0).

Definition probe (u : unit) (i : Z) : E + unit :=
  let order := lex (id i) target in
  if order =? 0 then inl (hit i) else if order >? 0 then inl miss else inr tt.

Lemma search_past l : foldE probe l tt = inr tt -> forall i, i ∈ l -> lex (id i) target < 0.
Proof.
  induction l as [|x l IH]; intros H i Hi; [by apply not_elem_of_nil in Hi|]. simpl in H.
  unfold probe in H at 1. destruct (Z.eqb_spec (lex (id x) target) 0); [done|].
  destruct (Z.ltb_spec 0 (lex (id x) target)); [done|].
  apply elem_of_cons in Hi as [->|Hi]; [lia|auto].
Qed.

Lemma search_spec :
  match foldE probe (upto n) tt with
  | inl e => (exists i, 0 <= i < n /\ id i = target /\ e = hit i) \/
             (e = miss /\ forall i, 0 <= i < n -> id i <> target)
  | inr _ => forall i, 0 <= i < n -> id i <> target
  end.
Proof.
  assert (Hlt : forall i, lex (id i) target < 0 -> id i <> target)
    by (intros i Hi Heq; apply lex_zero in Heq; lia).
  destruct (foldE probe (upto n) tt) as [e|[]] eqn:H.
  - apply foldE_inl in H as (done & x & rest & [] & Hl & Hd & Hx).
    assert (Hix : forall i, (i ∈ done <-> 0 <= i < x) /\ 0 <= x < n).
    { intros i. assert (Hlen : upto n !! length done = Some x) by (rewrite Hl, lookup_app_r, Nat.sub_diag by lia; done).
      apply lookup_seqZ in Hlen as [-> Hlen]. rewrite Z.add_0_l. split; [|lia].
      assert (Hdone : done = take (length done) (upto n)) by (by rewrite Hl, take_app_length).
      rewrite Hdone, list_elem_of_lookup. split.
      - intros [k Hk]. apply lookup_take_Some in Hk as [Hk Hkl]. apply lookup_seqZ in Hk as [-> _].
        rewrite Hl, take_app_length. lia.
      - rewrite Hl, take_app_length. intros Hi. exists (Z.to_nat i).
        assert (Hk : (Z.to_nat i < length done)%nat) by lia.
        pose proof (lookup_lt_is_Some_2 _ _ Hk) as [y Hy]. rewrite Hy. f_equal.
        assert (Hy' : upto n !! Z.to_nat i = Some y) by (rewrite Hl; by apply lookup_app_l_Some).
        apply lookup_seqZ in Hy' as [-> _]. lia. }
    pose proof (proj2 (Hix 0)) as Hxn. unfold probe in Hx.
    destruct (Z.eqb_spec (lex (id x) target) 0) as [Hz|Hnz].
    + injection Hx as <-. left. exists x. split; [done|split; [by apply lex_zero|done]].
    + destruct (Z.ltb_spec 0 (lex (id x) target)) as [Hgt|]; [|done]. injection Hx as <-. right.
      split; [done|]. intros i Hi. destruct (Z.lt_trichotomy i x) as [Hlt'|[->|Hgt']].
      * apply Hlt. apply (search_past done Hd). apply (proj1 (Hix i)). lia.
      * intros Heq. apply lex_zero in Heq. lia.
      * intros <-. pose proof (Hsorted x i ltac:(lia) Hgt' ltac:(lia)). lia.
  - intros i Hi. apply Hlt, (search_past _ H). apply elem_of_seqZ. lia.
Qed.
End Search.
