(* ===== verification/KeyPolicyProperties.v ===== *)
(** * What the key policy guarantees

    A valid store is a forest of delegations in which nobody holds more than their
    issuer; a request is authorised exactly when the key it names has the right,
    and no key between it and its root is revoked; and a signature is accepted only
    from the authorised key. *)

From S2P Require Import Prelude.
From S2P Require Import Buffer.
From S2P Require Import Wire.
From S2P Require Import Sha256.
From S2P Require Import Signature.
From S2P Require Import KeyPolicy.
From S2P Require Import KeyPolicyOrder.

(** ** The C types *)


Record key_typed (r : RibonKeyPolicyRecord) : Prop := {
  typed_mode_mask : word 32 (key_mode_mask r);
  typed_usage_mask : word 64 (key_usage_mask r);
  typed_id : pointed (key_id r) (key_id_size r);
  typed_issuer_id : pointed (key_issuer_key_id r) (key_issuer_key_id_size r);
  typed_identity : len (key_identity_digest r) = 32;
  typed_product : len (key_product_digest r) = 32;
  typed_domain_count : word 32 (key_rollback_domain_count r);
  typed_domains : forall i, 0 <= i < key_rollback_domain_count r -> len (key_domain r i) = 32;
}.

Record store_typed (s : RibonKeyPolicyStore) : Prop := {
  typed_count : word 32 (store_record_count s);
  typed_records : forall i, 0 <= i < store_record_count s -> key_typed (key_record s i);
  typed_digest : len (store_canonical_digest s) = 32;
}.

Record request_typed (r : RibonKeyPolicyRequest) : Prop := {
  typed_request_id : pointed (request_key_id r) (request_key_id_size r);
  typed_request_product : len (request_product_digest r) = 32;
  typed_request_domain : len (request_rollback_domain_digest r) = 32;
}.

(** ** Rights *)

(** The identifier a record goes by, and the one it names as its issuer. *)
Definition name_of (r : RibonKeyPolicyRecord) : bytes := default [] (key_id r).
Definition issuer_of (r : RibonKeyPolicyRecord) : bytes := default [] (key_issuer_key_id r).

(** The domains a record may sign for. *)
Definition has_domain (r : RibonKeyPolicyRecord) (d : bytes) : Prop :=
  exists i, 0 <= i < key_rollback_domain_count r /\ key_domain r i = d.

(** The record's static authority covers the request. *)
Record covers (r : RibonKeyPolicyRecord) (q : RibonKeyPolicyRequest) : Prop := {
  covers_mode : Z.testbit (key_mode_mask r) (request_mode q - 1) = true;
  covers_usage : Z.testbit (key_usage_mask r) (request_usage q - 1) = true;
  covers_sequence : key_minimum_sequence r <= request_sequence q <= key_maximum_sequence r;
  covers_product : key_product_digest r = request_product_digest q;
  covers_domain : has_domain r (request_rollback_domain_digest q);
}.

Definition revoked (r : RibonKeyPolicyRecord) : Prop := key_lifecycle r = RIBON_KEY_POLICY_LIFECYCLE_REVOKED.

(** The records from [i] to its root. *)
Inductive chain (s : RibonKeyPolicyStore) : Z -> list Z -> Prop :=
| chain_root i : is_root (key_record s i) = true -> chain s i [i]
| chain_issued i j l :
    is_root (key_record s i) = false -> 0 <= j < store_record_count s ->
    name_of (key_record s j) = issuer_of (key_record s i) -> chain s j l -> chain s i (i :: l).

(** ** Masks *)

Lemma land_mode m k : 0 <= k -> Z.land m (Z.shiftl 1 k) = 0 <-> Z.testbit m k = false.
Proof. intros Hk. by rewrite <- Z.eqb_eq, land_bit, negb_true_iff. Qed.

(** Nothing outside the issuer's mask. *)
Lemma land_lnot_subset w c m k : 0 <= k < w -> word w c -> Z.land c (wrap w (Z.lnot m)) = 0 ->
  Z.testbit c k = true -> Z.testbit m k = true.
Proof.
  intros Hk Hc H Hb. assert (Hz : Z.testbit (Z.land c (wrap w (Z.lnot m))) k = false) by (rewrite H; apply Z.bits_0).
  unfold wrap in Hz. rewrite Z.land_spec, Hb, Z.mod_pow2_bits_low, Z.lnot_spec in Hz by lia.
  by destruct (Z.testbit m k).
Qed.

(** ** Lookups *)

(** The table of a record's domains is in order. *)
Definition domains_sorted (r : RibonKeyPolicyRecord) : Prop :=
  forall i j, 0 <= i -> i < j -> j < key_rollback_domain_count r -> lex (key_domain r i) (key_domain r j) < 0.

Lemma has_domain_spec r d : key_typed r -> domains_sorted r -> len d = 32 ->
  ribon_key_policy_record_has_domain r d = true <-> has_domain r d.
Proof.
  intros Hr Hs Hd. unfold ribon_key_policy_record_has_domain, RIBON_KEY_POLICY_DIGEST_BYTES.
  rewrite (foldE_ext _ (probe (key_domain r) d (fun _ => true) false)).
  2:{ intros i b Hi. apply elem_of_seqZ in Hi. unfold probe. pose proof (id_compare_lex (key_domain r i) d) as Hc.
      rewrite Hd, (typed_domains r Hr i ltac:(lia)) in Hc. by rewrite Hc. }
  pose proof (search_spec (key_domain r) (key_rollback_domain_count r) d (fun _ => true) false Hs) as H.
  destruct (foldE _ _ _) as [e|].
  - destruct H as [(i & Hi & Heq & ->)|[-> Hn]]; (split; [intros He|]); try done.
    + by exists i.
    + intros (i & Hi & Heq). by apply Hn in Heq.
  - split; [done|]. intros (i & Hi & Heq). by apply H in Heq.
Qed.

(** The records are in the order of their names. *)
Definition names_sorted (s : RibonKeyPolicyStore) : Prop :=
  forall i j, 0 <= i -> i < j -> j < store_record_count s ->
    lex (name_of (key_record s i)) (name_of (key_record s j)) < 0.

(** Every record names itself with an identifier. *)
Definition named (s : RibonKeyPolicyStore) : Prop :=
  forall i, 0 <= i < store_record_count s -> key_id (key_record s i) <> None.


Lemma find_record_spec s id size : store_typed s -> names_sorted s -> named s ->
  pointed id size -> id <> None ->
  match ribon_key_policy_find_record s id size with
  | Some i => 0 <= i < store_record_count s /\ name_of (key_record s i) = default [] id
  | None => forall i, 0 <= i < store_record_count s -> name_of (key_record s i) <> default [] id
  end.
Proof.
  intros Hs Hsorted Hnamed Hid Hn. unfold ribon_key_policy_find_record.
  rewrite (foldE_ext _ (probe (fun i => name_of (key_record s i)) (default [] id) Some None)).
  2:{ intros i b Hi. apply elem_of_seqZ in Hi. unfold probe.
      pose proof (id_compare_lex (name_of (key_record s i)) (default [] id)) as Hc. unfold name_of in Hc.
      rewrite (default_pointed _ _ (typed_id _ (typed_records s Hs i ltac:(lia))) (Hnamed i ltac:(lia))),
        (default_pointed _ _ Hid Hn) in Hc. by rewrite Hc. }
  pose proof (search_spec (fun i => name_of (key_record s i)) (store_record_count s) (default [] id) Some None Hsorted) as H.
  destruct (foldE _ _ _) as [e|]; [|done].
  destruct H as [(i & Hi & Heq & ->)|[-> Hnone]]; [by split|done].
Qed.

Lemma name_unique s i j : names_sorted s -> 0 <= i < store_record_count s -> 0 <= j < store_record_count s ->
  name_of (key_record s i) = name_of (key_record s j) -> i = j.
Proof.
  intros Hs Hi Hj Heq. apply lex_zero in Heq. destruct (Z.lt_trichotomy i j) as [Hlt|[->|Hlt]]; [|done|].
  - pose proof (Hs i j ltac:(lia) Hlt ltac:(lia)). lia.
  - pose proof (Hs j i ltac:(lia) Hlt ltac:(lia)). rewrite lex_antisym in H. lia.
Qed.

(** ** Valid records *)

Record key_valid (r : RibonKeyPolicyRecord) : Prop := {
  valid_named : key_id r <> None;
  valid_domains : domains_sorted r;
  valid_identity : key_identity_digest r = ribon_key_policy_sha256 (key_public_key r);
  valid_issuer : is_root r = false -> key_issuer_key_id r <> None;
}.

Lemma id_is_valid_some id size : ribon_key_policy_id_is_valid id size = true -> id <> None.
Proof. by destruct id. Qed.

Lemma shape_valid r : key_typed r -> ribon_key_policy_record_shape_is_valid r = true ->
  len (ribon_key_policy_sha256 (key_public_key r)) = 32 -> key_valid r.
Proof.
  intros Hr H Hlen. unfold ribon_key_policy_record_shape_is_valid in H.
  destruct (_ || _) eqn:G in H; [done|]. bool_to_prop.
  destruct (bytes_equal _ _) eqn:Hk in H; [|done]. cbn [negb] in H.
  destruct (if is_root r then _ else _) eqn:Hi in H; [done|].
  constructor.
  - by eapply id_is_valid_some.
  - refine (adjacent_trans (fun i j => lex (key_domain r i) (key_domain r j) < 0) _ _ _).
    { intros i j k. apply lex_trans. }
    intros i Hi'. rewrite forallb_in in H. specialize (H i). rewrite elem_of_seqZ in H.
    specialize (H ltac:(lia)). bool_to_prop. destruct (Z.ltb_spec 0 i); [|lia]. cbn [andb] in *.
    bool_to_prop. pose proof (id_compare_lex (key_domain r (i - 1)) (key_domain r i)) as Hc.
    rewrite !(typed_domains r Hr) in Hc by lia. unfold RIBON_KEY_POLICY_DIGEST_BYTES in *. lia.
  - symmetry. apply bytes_equal_true; [|done]. by rewrite Hlen, (typed_identity r Hr).
  - intros Hroot. rewrite Hroot in Hi. bool_to_prop. by eapply id_is_valid_some.
Qed.

(** What an issuer passes on is its own. *)
Lemma contains_covers issuer child q :
  key_typed issuer -> key_typed child -> key_valid issuer ->
  1 <= request_mode q <= 32 -> 1 <= request_usage q <= 64 ->
  ribon_key_policy_record_contains issuer child = true -> covers child q -> covers issuer q.
Proof.
  intros Hi Hc Hv Hm Hu H Hq. unfold ribon_key_policy_record_contains in H.
  destruct (_ || _) eqn:G in H; [done|]. bool_to_prop. destruct Hq as [Qm Qu Qs Qp (d & Hd & Qd)].
  constructor.
  - eapply (land_lnot_subset 32); [lia|apply (typed_mode_mask _ Hc)|done|done].
  - eapply (land_lnot_subset 64); [lia|apply (typed_usage_mask _ Hc)|done|done].
  - lia.
  - rewrite <- Qp. apply bytes_equal_true; [|done]. by rewrite (typed_product _ Hi), (typed_product _ Hc).
  - rewrite forallb_in in H. specialize (H d). rewrite elem_of_seqZ in H. specialize (H ltac:(lia)).
    rewrite <- Qd. apply has_domain_spec; [done|apply (valid_domains _ Hv)|by apply (typed_domains _ Hc)|done].
Qed.

Lemma allows_spec r q : key_typed r -> key_valid r -> request_typed q ->
  1 <= request_mode q <= 32 -> 1 <= request_usage q <= 64 ->
  ribon_key_policy_record_allows_request r q = true <-> covers r q /\ ~ revoked r.
Proof.
  intros Hr Hv Hq Hm Hu. unfold ribon_key_policy_record_allows_request.
  rewrite (wrap_small 32 (request_mode q - 1)) by (apply word32; unfold UINT32_MAX; lia).
  rewrite (wrap_small 32 (request_usage q - 1)) by (apply word32; unfold UINT32_MAX; lia).
  rewrite (wrap_small 32 (Z.shiftl 1 _)), (wrap_small 64 (Z.shiftl 1 _)).
  2,3: unfold word; rewrite Z.shiftl_1_l; split; [lia|apply Z.pow_lt_mono_r; lia].
  rewrite !andb_true_iff, !negb_true_iff, !Z.eqb_neq, !Z.leb_le, !land_mode, !not_false_iff_true by lia.
  rewrite bytes_equal_true by (by rewrite (typed_product _ Hr), (typed_request_product _ Hq)).
  rewrite has_domain_spec by (done || apply (valid_domains _ Hv) || apply (typed_request_domain _ Hq)).
  unfold revoked. split.
  - intros ((((((? & ?) & ?) & ?) & ?) & ?) & ?). by split; [constructor|].
  - intros [[Qm Qu [Q1 Q2] Qp Qd] Hl]. by split_and!.
Qed.

(** ** The canonical digest *)

(** The context has absorbed [d]. *)
Definition hashed (context : RibonSecuritySha256) (d : bytes) : Prop :=
  absorbed context d /\ total_bytes context = u64 (len d).

Lemma update_loop_total fuel context b size offset :
  total_bytes (update_loop fuel context b size offset) = total_bytes context.
Proof.
  revert context offset. induction fuel as [|fuel IH]; intros context offset; [done|]. cbn [update_loop].
  destruct (offset <? size); [|done]. rewrite IH. by destruct (_ =? 64).
Qed.

Lemma hashed_update context d b : hashed context d -> hashed (ribon_key_policy_sha256_update context b) (d ++ b).
Proof.
  intros [Ha Ht]. split; [by apply update_absorbs|]. unfold ribon_key_policy_sha256_update, update.
  rewrite update_loop_total. cbn [total_bytes]. rewrite Ht, len_app. unfold wrap. apply Zplus_mod_idemp_l.
Qed.

Lemma hashed_initial : hashed ribon_key_policy_sha256_initialize [].
Proof. split; [apply absorbed_initial|done]. Qed.

Lemma hashed_finish context d : hashed context d -> ribon_key_policy_sha256_finish context = sha256_spec d.
Proof.
  intros [Ha Ht]. pose proof (len_nonneg d) as Hd. pose proof (Z.mod_pos_bound (55 - len d) 64 ltac:(lia)) as Hp.
  unfold ribon_key_policy_sha256_finish, ribon_key_policy_sha256_update.
  rewrite (absorbed_used _ _ Ha), padding_size_eq by lia. rewrite padding_slice by lia.
  replace (1 + (55 - len d) mod 64 - 1) with ((55 - len d) mod 64) by lia.
  assert (Hb : u64 (total_bytes context * 8) = u64 (8 * len d)).
  { rewrite Ht, Z.mul_comm. unfold wrap. apply Zmult_mod_idemp_r. }
  rewrite Hb, length_be_eq. eapply update_absorbs, update_absorbs in Ha. unfold sha256_spec.
  erewrite (absorbed_state _ _ Ha). do 3 f_equal; unfold sha256_pad; by rewrite <- app_assoc.
Qed.

Lemma key_policy_sha256_spec b : ribon_key_policy_sha256 b = sha256_spec b.
Proof. apply hashed_finish. apply (hashed_update _ [] b hashed_initial). Qed.

Lemma len_key_policy_sha256 b : len (ribon_key_policy_sha256 b) = 32.
Proof. by rewrite key_policy_sha256_spec, <- ribon_security_sha256_eq, len_sha256. Qed.

(** The bytes of a store that its digest seals. *)
Definition canonical_record (r : RibonKeyPolicyRecord) : bytes :=
  sha256_spec (view (key_id r) (key_id_size r)) ++ key_public_key r ++ key_identity_digest r ++
  key_product_digest r ++ le_bytes 8 (key_usage_mask r) ++ le_bytes 4 (key_mode_mask r) ++
  le_bytes 4 (u32 (key_lifecycle r)) ++ le_bytes 4 (key_flags r) ++ le_bytes 8 (key_minimum_sequence r) ++
  le_bytes 8 (key_maximum_sequence r) ++
  (if is_root r then zeros 32 else sha256_spec (view (key_issuer_key_id r) (key_issuer_key_id_size r))) ++
  le_bytes 4 (key_delegation_depth r) ++ le_bytes 4 (key_rollback_domain_count r) ++
  mjoin (key_domain r <$> upto (key_rollback_domain_count r)).

Definition canonical_store (s : RibonKeyPolicyStore) : bytes :=
  key_store_magic ++ le_bytes 2 1 ++ le_bytes 2 0 ++ le_bytes 4 (store_record_count s) ++
  le_bytes 8 (store_generation s) ++ sha256_spec (view (store_id s) (store_id_size s)) ++
  mjoin ((fun i => canonical_record (key_record s i)) <$> upto (store_record_count s)).

Lemma shifts_le_bytes n v :
  (fun index => u8 (Z.shiftr v (index * 8))) <$> upto (Z.of_nat n) = le_bytes n v.
Proof.
  revert v. induction n as [|n IH]; intros v; [done|]. rewrite Nat2Z.inj_succ, seqZ_cons by lia.
  rewrite fmap_cons, Z.mul_0_l, Z.shiftr_0_r. change (le_bytes (S n) v) with (u8 v :: le_bytes n (Z.shiftr v 8)).
  f_equal. rewrite <- IH.
  replace (Z.pred (Z.succ (Z.of_nat n))) with (Z.of_nat n) by lia. change (Z.succ 0) with (1 + 0).
  rewrite <- (fmap_add_seqZ 1 0), <- list_fmap_compose. apply list_fmap_ext. intros i x Hx.
  apply lookup_seqZ in Hx as [-> ?]. cbn. rewrite Z.shiftr_shiftr by lia. do 2 f_equal. lia.
Qed.

Lemma hashed_u16 c d v : hashed c d -> hashed (ribon_key_policy_hash_u16 c v) (d ++ le_bytes 2 v).
Proof. apply hashed_update. Qed.

Lemma hashed_u32 c d v : hashed c d -> hashed (ribon_key_policy_hash_u32 c v) (d ++ le_bytes 4 v).
Proof. rewrite <- shifts_le_bytes. apply hashed_update. Qed.

Lemma hashed_u64 c d v : hashed c d -> hashed (ribon_key_policy_hash_u64 c v) (d ++ le_bytes 8 v).
Proof. rewrite <- shifts_le_bytes. apply hashed_update. Qed.

Create HintDb hashed discriminated.
#[local] Hint Resolve hashed_u16 hashed_u32 hashed_u64 hashed_update hashed_initial : hashed.

Lemma hashed_fold {A} (f : RibonSecuritySha256 -> A -> RibonSecuritySha256) (g : A -> bytes) l c d :
  (forall c d x, hashed c d -> hashed (f c x) (d ++ g x)) ->
  hashed c d -> hashed (fold_left f l c) (d ++ mjoin (g <$> l)).
Proof.
  intros Hf. revert c d. induction l as [|x l IH]; intros c d H; cbn; [by rewrite app_nil_r|].
  rewrite app_assoc. apply IH, Hf, H.
Qed.

Lemma hashed_record c d r : hashed c d -> hashed (hash_record c r) (d ++ canonical_record r).
Proof.
  intros H. unfold hash_record, canonical_record. rewrite !app_assoc.
  apply (hashed_fold _ (key_domain r)); [auto with hashed|].
  rewrite <- !key_policy_sha256_spec. destruct (is_root r); auto 20 with hashed.
Qed.

Lemma store_digest_spec s : ribon_key_policy_store_digest s = sha256_spec (canonical_store s).
Proof.
  unfold ribon_key_policy_store_digest, canonical_store. apply hashed_finish. rewrite !app_assoc.
  apply (hashed_fold _ (fun i => canonical_record (key_record s i))).
  - intros c d i. apply hashed_record.
  - rewrite <- !key_policy_sha256_spec. apply hashed_update, hashed_u64, hashed_u32, hashed_u16, hashed_u16.
    apply (hashed_update _ [] _ hashed_initial).
Qed.

(** ** Valid stores *)

Record store_valid (s : RibonKeyPolicyStore) : Prop := {
  store_names : names_sorted s;
  store_keys : forall i, 0 <= i < store_record_count s -> key_valid (key_record s i);
  store_distinct : forall i j, 0 <= i -> i < j -> j < store_record_count s ->
    key_identity_digest (key_record s i) <> key_identity_digest (key_record s j);
  store_depths : forall i, 0 <= i < store_record_count s ->
    issuer_depth delegation_edges s i 0 = Some (key_delegation_depth (key_record s i));
}.

Lemma record_placed s i : store_typed s -> 0 <= i < store_record_count s -> record_is_placed s i = true ->
  key_valid (key_record s i) /\
  (0 < i -> key_id (key_record s (i - 1)) <> None ->
     lex (name_of (key_record s (i - 1))) (name_of (key_record s i)) < 0) /\
  (forall k, 0 <= k < i -> key_identity_digest (key_record s k) <> key_identity_digest (key_record s i)).
Proof.
  intros Hs Hi H. unfold record_is_placed in H. bool_to_prop.
  assert (Hv : key_valid (key_record s i))
    by (apply shape_valid; [by apply typed_records|done|apply len_key_policy_sha256]).
  split_and!; [exact Hv| |].
  - intros Hp Hn. destruct (Z.ltb_spec 0 i); [|lia]. cbn [andb] in *. bool_to_prop.
    pose proof (id_compare_lex (name_of (key_record s (i - 1))) (name_of (key_record s i))) as Hc.
    unfold name_of in Hc at 1 2 3 4.
    rewrite (default_pointed _ _ (typed_id _ (typed_records s Hs (i - 1) ltac:(lia))) Hn),
      (default_pointed _ _ (typed_id _ (typed_records s Hs i ltac:(lia))) (valid_named _ Hv)) in Hc. lia.
  - intros k Hk Heq. rewrite forallb_in in H0. specialize (H0 k). rewrite elem_of_seqZ in H0.
    specialize (H0 ltac:(lia)). bool_to_prop. rewrite Heq, bytes_equal_refl in H0. done.
Qed.

Lemma structure_valid s : store_typed s ->
  ribon_key_policy_store_structure_is_valid (Some s) = RIBON_KEY_POLICY_STATUS_OK -> store_valid s.
Proof.
  intros Hs H. unfold ribon_key_policy_store_structure_is_valid in H.
  destruct (_ || _) eqn:G in H; [done|]. clear G.
  destruct (forallb (record_is_placed s) _) eqn:Hp in H; [|done]. cbn [negb] in H.
  destruct (forallb _ _) eqn:Hd in H; [|done]. clear H. rewrite forallb_in in Hp, Hd.
  assert (Hplaced : forall i, 0 <= i < store_record_count s -> record_is_placed s i = true)
    by (intros i Hi; apply Hp, elem_of_seqZ; lia).
  assert (Hkeys : forall i, 0 <= i < store_record_count s -> key_valid (key_record s i))
    by (intros i Hi; apply (record_placed s i Hs Hi (Hplaced i Hi))).
  constructor; [| exact Hkeys | |].
  - refine (adjacent_trans (fun i j => lex (name_of (key_record s i)) (name_of (key_record s j)) < 0) _ _ _).
    { intros i j k. apply lex_trans. }
    intros i Hi. destruct (record_placed s i Hs ltac:(lia) (Hplaced i ltac:(lia))) as (_ & Hlex & _).
    apply Hlex; [lia|]. apply valid_named, Hkeys. lia.
  - intros i j Hi Hij Hj. destruct (record_placed s j Hs ltac:(lia) (Hplaced j ltac:(lia))) as (_ & _ & Hne).
    apply Hne. lia.
  - intros i Hi. specialize (Hd i ltac:(apply elem_of_seqZ; lia)). destruct (issuer_depth _ _ _ _); [|done].
    bool_to_prop. by f_equal.
Qed.

Section Store.
Context (s : RibonKeyPolicyStore) (Hs : store_typed s) (Hv : store_valid s).
Let rec := key_record s.
Let n := store_record_count s.

Lemma store_named : named s.
Proof. intros i Hi. apply valid_named, (store_keys s Hv i Hi). Qed.

(** Finding a record by name. *)
Lemma find_found id size i : pointed id size -> id <> None ->
  ribon_key_policy_find_record s id size = Some i <-> 0 <= i < n /\ name_of (rec i) = default [] id.
Proof.
  intros Hid Hn. pose proof (find_record_spec s id size Hs (store_names s Hv) store_named Hid Hn) as H.
  destruct (ribon_key_policy_find_record s id size) as [k|].
  - split; [intros [= ->]; done|]. intros [Hi Heq]. f_equal. destruct H as [Hk Hkn].
    apply (name_unique s); [apply Hv|done|done|by rewrite Hkn].
  - split; [done|]. intros [Hi Heq]. by apply H in Heq.
Qed.

Lemma chain_unique i l l' : chain s i l -> chain s i l' -> l = l'.
Proof.
  intros H. revert l'. induction H as [i Hr|i j l Hr Hj Hn Hc IH]; intros l' H'; inversion H'; subst; [done|congruence..|].
  f_equal. assert (j0 = j) as ->; [|by apply IH].
  apply (name_unique s); [apply Hv|done|done|congruence].
Qed.

(** The validation's walk finds the chain, and each issuer has what it passes on. *)
Lemma issuer_depth_chain left i depth k : 0 <= i < n -> 0 <= depth -> depth + Z.of_nat left <= UINT32_MAX ->
  issuer_depth left s i depth = Some k ->
  exists l, chain s i l /\ k = depth + len l - 1 /\ len l <= Z.of_nat left + 1 /\
    forall q, 1 <= request_mode q <= 32 -> 1 <= request_usage q <= 64 -> covers (rec i) q ->
      Forall (fun j => 0 <= j < n /\ covers (rec j) q) l.
Proof.
  revert i depth. induction left as [|left IH]; intros i depth Hi Hd Hb H; cbn [issuer_depth] in H;
    destruct (is_root (key_record s i)) eqn:Hr.
  1,3: injection H as <-; exists [i]; split_and!;
    [by apply chain_root|change (len [i]) with 1; lia..|intros; by apply Forall_singleton].
  { done. }
  pose proof (typed_issuer_id _ (typed_records s Hs i Hi)) as Hp.
  pose proof (valid_issuer _ (store_keys s Hv i Hi) Hr) as Hn.
  destruct (ribon_key_policy_find_record s _ _) as [j|] eqn:Hf; [|done].
  apply find_found in Hf as [Hj Hname]; [|done..].
  destruct (_ || _) eqn:G in H; [done|]. bool_to_prop.
  rewrite wrap_small in H by (apply word32; lia).
  apply IH in H as (l & Hl & Hk & Hlen & Hcov); [|done|lia..].
  exists (i :: l). rewrite len_cons. split_and!; [by eapply chain_issued|lia..|].
  intros q Hm Hu Hq. constructor; [done|]. apply Hcov; [done..|].
  apply (contains_covers (key_record s j) (key_record s i));
    [exact (typed_records s Hs j Hj)|exact (typed_records s Hs i Hi)|exact (store_keys s Hv j Hj)|assumption..].
Qed.

(** The authorisation's walk checks every record of the chain. *)
Lemma chain_allows_spec left q i l depth : chain s i l -> 0 <= i < n -> 0 <= depth ->
  len l <= Z.of_nat left + 1 -> depth + Z.of_nat left <= UINT32_MAX ->
  chain_allows left s q i depth =
  if forallb (fun j => ribon_key_policy_record_allows_request (rec j) q) l
  then inr (depth + len l - 1) else inl RIBON_KEY_POLICY_STATUS_KEY_POLICY.
Proof.
  intros Hc. revert left depth. induction Hc as [i Hr|i j l Hr Hj Hn Hc IH]; intros left depth Hi Hd Hlen Hb.
  - destruct left; cbn [chain_allows forallb]; unfold rec; destruct (ribon_key_policy_record_allows_request _ q);
      cbn [negb andb]; rewrite ?Hr; (done || (f_equal; change (len [i]) with 1; lia)).
  - rewrite len_cons in Hlen. pose proof (len_nonneg l).
    assert (1 <= len l) by (destruct Hc; rewrite ?len_cons; [done|pose proof (len_nonneg l); lia]).
    destruct left as [|left]; [lia|]. cbn [chain_allows forallb]. unfold rec.
    destruct (ribon_key_policy_record_allows_request (key_record s i) q); cbn [negb andb]; [|done].
    rewrite Hr. pose proof (typed_issuer_id _ (typed_records s Hs i Hi)) as Hp.
    pose proof (valid_issuer _ (store_keys s Hv i Hi) Hr) as Hne.
    rewrite (proj2 (find_found _ _ j Hp Hne) ltac:(by split)).
    rewrite wrap_small by (apply word32; lia). rewrite IH by lia. unfold rec. rewrite len_cons.
    destruct (forallb _ _); [f_equal; lia|done].
Qed.
End Store.

(** ** What validation and authorisation mean *)

Lemma validate_facts s : store_typed s ->
  ribon_key_policy_store_validate (Some s) = RIBON_KEY_POLICY_STATUS_OK ->
  store_valid s /\ store_canonical_digest s = sha256_spec (canonical_store s).
Proof.
  intros Hs H. unfold ribon_key_policy_store_validate, ribon_key_policy_store_canonical_digest in H.
  destruct (ribon_key_policy_store_structure_is_valid (Some s)) eqn:Hst; try done.
  split; [by apply structure_valid|]. destruct (_ || _) eqn:G in H; [done|]. bool_to_prop.
  rewrite store_digest_spec in *. symmetry. apply bytes_equal_true; [|done].
  by rewrite <- ribon_security_sha256_eq, len_sha256, (typed_digest s Hs).
Qed.

(** The chain of every record of a valid store. *)
Lemma store_chain s i : store_typed s -> store_valid s -> 0 <= i < store_record_count s ->
  exists l, chain s i l /\ len l = key_delegation_depth (key_record s i) + 1 /\ len l <= 3 /\
    forall q, 1 <= request_mode q <= 32 -> 1 <= request_usage q <= 64 -> covers (key_record s i) q ->
      Forall (fun j => 0 <= j < store_record_count s /\ covers (key_record s j) q) l.
Proof.
  intros Hs Hv Hi.
  destruct (issuer_depth_chain s Hs Hv delegation_edges i 0 _ Hi ltac:(lia) ltac:(vm_compute; congruence)
    (store_depths s Hv i Hi)) as (l & Hl & Hk & Hlen & Hcov).
  change (Z.of_nat delegation_edges + 1) with 3 in Hlen.
  exists l. split_and!; [exact Hl|lia|lia|exact Hcov].
Qed.

(** The key named in the request has the right to it, and no key of its chain is
    revoked; a policy may only be signed for the mode it runs in. *)
Definition authorised (s : RibonKeyPolicyStore) (q : RibonKeyPolicyRequest) : Prop :=
  (request_usage q <= RIBON_KEY_POLICY_USAGE_POLICY_DIAGNOSTIC -> request_mode q = request_usage q) /\
  exists i l, 0 <= i < store_record_count s /\ name_of (key_record s i) = default [] (request_key_id q) /\
    chain s i l /\ covers (key_record s i) q /\ Forall (fun j => ~ revoked (key_record s j)) l.

Lemma request_facts q : ribon_key_policy_request_is_valid (Some q) = true ->
  1 <= request_mode q <= 4 /\ 1 <= request_usage q <= 7 /\ request_key_id q <> None.
Proof.
  intros H. unfold ribon_key_policy_request_is_valid, RIBON_KEY_POLICY_MODE_NORMAL, RIBON_KEY_POLICY_MODE_DIAGNOSTIC,
    RIBON_KEY_POLICY_USAGE_POLICY_NORMAL, RIBON_KEY_POLICY_USAGE_BOOT_CONFIRMATION in H. bool_to_prop.
  split_and!; [lia..|]. by eapply id_is_valid_some.
Qed.

(** The chain is allowed exactly when its key covers the request and nobody is revoked. *)
Lemma chain_allowed s q i l : store_typed s -> store_valid s -> request_typed q ->
  1 <= request_mode q <= 32 -> 1 <= request_usage q <= 64 -> 0 <= i < store_record_count s -> chain s i l ->
  forallb (fun j => ribon_key_policy_record_allows_request (key_record s j) q) l = true <->
  covers (key_record s i) q /\ Forall (fun j => ~ revoked (key_record s j)) l.
Proof.
  intros Hs Hv Hq Hm Hu Hi Hl. destruct (store_chain s i Hs Hv Hi) as (l' & Hl' & _ & _ & Hcov).
  rewrite <- (chain_unique s Hv i l l' Hl Hl') in Hcov. clear l' Hl'.
  assert (Hrange : Forall (fun j => 0 <= j < store_record_count s) l).
  { clear Hcov. induction Hl; constructor; auto. }
  rewrite forallb_in. split.
  - intros H. assert (Hall : forall j, j ∈ l -> covers (key_record s j) q /\ ~ revoked (key_record s j)).
    { intros j Hj. pose proof (proj1 (Forall_forall _ _) Hrange j Hj) as Hjr. apply allows_spec; auto.
      - by apply typed_records.
      - by apply store_keys. }
    split; [apply Hall; destruct Hl; left|]. apply Forall_forall. intros j Hj. by apply Hall.
  - intros [Hc Hn] j Hj. specialize (Hcov q Hm Hu Hc). rewrite Forall_forall in Hcov, Hn.
    destruct (Hcov j Hj) as [Hjr Hjc]. apply allows_spec; auto; [by apply typed_records|by apply store_keys].
Qed.

(** The authorised key is the record of that name. *)
Lemma authorised_at s q i : store_valid s -> 0 <= i < store_record_count s ->
  name_of (key_record s i) = default [] (request_key_id q) -> authorised s q ->
  covers (key_record s i) q /\ exists l, chain s i l /\ Forall (fun j => ~ revoked (key_record s j)) l.
Proof.
  intros Hv Hi Hname [_ (k & l & Hk & Hkn & Hl & Hc & Hrev)].
  rewrite (name_unique s i k (store_names s Hv) Hi Hk) by congruence. eauto.
Qed.

Lemma select_record_spec s q : store_typed s -> store_valid s -> request_typed q ->
  ribon_key_policy_request_is_valid (Some q) = true ->
  match select_record s q with
  | inr (i, depth) => authorised s q /\ 0 <= i < store_record_count s /\
    name_of (key_record s i) = default [] (request_key_id q) /\ depth = key_delegation_depth (key_record s i)
  | inl status => ~ authorised s q /\ status <> RIBON_KEY_POLICY_STATUS_OK /\
    status <> RIBON_KEY_POLICY_STATUS_INVALID_STORE /\ status <> RIBON_KEY_POLICY_STATUS_INVALID_ARGUMENT
  end.
Proof.
  intros Hs Hv Hq Hval. apply request_facts in Hval as (Hm & Hu & Hid). unfold select_record.
  rewrite !wrap_small by (apply word32; unfold UINT32_MAX; lia).
  destruct (_ && _) eqn:G.
  { bool_to_prop. split; [|done]. intros [Hmu _]. auto. }
  assert (Hmu : request_usage q <= RIBON_KEY_POLICY_USAGE_POLICY_DIAGNOSTIC -> request_mode q = request_usage q).
  { apply andb_false_iff in G as [G|G]; bool_to_prop; [lia|done]. }
  clear G. pose proof (find_found s Hs Hv (request_key_id q) (request_key_id_size q)) as Hfind.
  destruct (ribon_key_policy_find_record s _ _) as [i|] eqn:Hf.
  2:{ split; [|done]. intros [_ (i & l & Hi & Hn & _)].
      discriminate (proj2 (Hfind i (typed_request_id q Hq) Hid) (conj Hi Hn)). }
  destruct (proj1 (Hfind i (typed_request_id q Hq) Hid) eq_refl) as [Hi Hname]. clear Hfind Hf.
  destruct (bytes_equal _ _) eqn:Hprod; cbn [negb].
  2:{ split; [|done]. intros Ha. apply (authorised_at s q i Hv Hi Hname) in Ha as [[] _]. rewrite covers_product0, bytes_equal_refl in Hprod. done. }
  destruct (ribon_key_policy_record_has_domain _ _) eqn:Hdom; cbn [negb].
  2:{ split; [|done]. intros Ha. apply (authorised_at s q i Hv Hi Hname) in Ha as [[] _]. apply has_domain_spec in covers_domain0; [congruence|..].
      - by apply typed_records.
      - by apply valid_domains, store_keys.
      - apply (typed_request_domain q Hq). }
  destruct (store_chain s i Hs Hv Hi) as (l & Hl & Hlen & Hl3 & _).
  rewrite (chain_allows_spec s Hs Hv delegation_edges q i l 0) by
    (done || lia || (change (Z.of_nat delegation_edges) with 2; unfold UINT32_MAX; lia)).
  pose proof (chain_allowed s q i l Hs Hv Hq ltac:(lia) ltac:(lia) Hi Hl) as Hall.
  destruct (forallb _ l).
  - destruct (proj1 Hall eq_refl) as [Hc Hr]. split_and!; [by split; [|exists i, l]|lia..|exact Hname|lia].
  - split; [|done]. intros Ha. apply (authorised_at s q i Hv Hi Hname) in Ha as [Hc (l' & Hl' & Hr)].
    rewrite <- (chain_unique s Hv i l l' Hl Hl') in Hr. discriminate (proj2 Hall (conj Hc Hr)).
Qed.

(** A store that passes validation is sealed and well founded: names and keys are
    distinct, each key's identity is its digest, every record has a chain of at
    most two issuers to a root, as deep as it says, and whatever the record may
    sign everybody on its chain may sign; and the stored digest is the SHA-256 of
    the canonical bytes of the store. *)
Theorem key_policy_store_sound s : store_typed s ->
  ribon_key_policy_store_validate (Some s) = RIBON_KEY_POLICY_STATUS_OK ->
  let n := store_record_count s in
  (forall i j, 0 <= i < n -> 0 <= j < n -> name_of (key_record s i) = name_of (key_record s j) -> i = j) /\
  (forall i j, 0 <= i < n -> 0 <= j < n ->
     key_identity_digest (key_record s i) = key_identity_digest (key_record s j) -> i = j) /\
  (forall i, 0 <= i < n -> key_identity_digest (key_record s i) = sha256_spec (key_public_key (key_record s i))) /\
  (forall i, 0 <= i < n -> exists l, chain s i l /\ len l = key_delegation_depth (key_record s i) + 1 /\
     len l <= RIBON_KEY_POLICY_MAX_DELEGATION_EDGES + 1 /\
     forall q, 1 <= request_mode q <= 32 -> 1 <= request_usage q <= 64 -> covers (key_record s i) q ->
       Forall (fun j => 0 <= j < n /\ covers (key_record s j) q) l) /\
  store_canonical_digest s = sha256_spec (canonical_store s).
Proof.
  intros Hs H. apply validate_facts in H as [Hv Hd]; [|done]. split_and!.
  - intros i j. apply name_unique, Hv.
  - intros i j Hi Hj Heq. destruct (Z.lt_trichotomy i j) as [Hlt|[->|Hlt]]; [|done|].
    + by destruct (store_distinct s Hv i j ltac:(lia) Hlt ltac:(lia)).
    + by destruct (store_distinct s Hv j i ltac:(lia) Hlt ltac:(lia)).
  - intros i Hi. rewrite (valid_identity _ (store_keys s Hv i Hi)). apply key_policy_sha256_spec.
  - intros i Hi. by apply store_chain.
  - exact Hd.
Qed.

(** C34: Authorisation is exact: on a valid store a well-formed request is accepted if
    and only if the key it names has the right to it and no key of its chain is
    revoked; the decision names that key.  A store that validated is never
    reported invalid by the walk. *)
Theorem key_policy_authorize_exact s q d status out : store_typed s -> request_typed q ->
  ribon_key_policy_store_validate (Some s) = RIBON_KEY_POLICY_STATUS_OK ->
  ribon_key_policy_request_is_valid (Some q) = true ->
  ribon_key_policy_authorize (Some s) (Some q) (Some d) = (status, out) ->
  (status = RIBON_KEY_POLICY_STATUS_OK <-> authorised s q) /\
  status <> RIBON_KEY_POLICY_STATUS_INVALID_STORE /\ status <> RIBON_KEY_POLICY_STATUS_INVALID_ARGUMENT /\
  (status = RIBON_KEY_POLICY_STATUS_OK -> exists v, out = Some v /\
     0 <= verdict_record_index v < store_record_count s /\
     name_of (key_record s (verdict_record_index v)) = default [] (request_key_id q) /\
     verdict_key_identity_digest v = key_identity_digest (key_record s (verdict_record_index v)) /\
     verdict_trust_store_digest v = store_canonical_digest s).
Proof.
  intros Hs Hq Hval Hreq H. pose proof (proj1 (validate_facts s Hs Hval)) as Hv.
  unfold ribon_key_policy_authorize in H. rewrite Hval, Hreq in H. cbn [negb] in H.
  pose proof (select_record_spec s q Hs Hv Hq Hreq) as Hsel.
  destruct (select_record s q) as [st|[i depth]]; injection H as <- <-.
  - destruct Hsel as (Hna & Hok & Hst & Harg). split_and!; [by split|done..].
  - destruct Hsel as (Ha & Hi & Hname & _). split_and!; [by split|done..|]. intros _. by eexists.
Qed.

(** What an accepted signature says. *)
Lemma verify_accepts s v q p d out : store_typed s -> request_typed q ->
  signed_policy v = Some q -> signed_provider v = Some p ->
  ribon_key_policy_verify (Some s) (Some v) d = (RIBON_KEY_POLICY_STATUS_OK, out) ->
  ribon_key_policy_store_validate (Some s) = RIBON_KEY_POLICY_STATUS_OK /\ authorised s q /\
  ribon_signature_provider_is_valid (Some p) = true /\
  exists i f, 0 <= i < store_record_count s /\
    name_of (key_record s i) = default [] (request_key_id q) /\
    signature_verify_fn p = Some f /\
    f (signature_request (key_record s i) v) = RIBON_SIGNATURE_STATUS_OK.
Proof.
  intros Hs Hq Hp Hsp H. unfold ribon_key_policy_verify in H. destruct (negb _); [done|]. rewrite Hp, Hsp in H.
  unfold ribon_key_policy_authorize in H. destruct d as [d|]; [|done].
  destruct (ribon_key_policy_store_validate (Some s)) eqn:Hval; try done.
  destruct (ribon_key_policy_request_is_valid (Some q)) eqn:Hreq; [|done]. cbn [negb] in H.
  pose proof (select_record_spec s q Hs (proj1 (validate_facts s Hs Hval)) Hq Hreq) as Hsel.
  destruct (select_record s q) as [st|[i depth]]; [destruct st; by destruct Hsel as (_ & Hok & _)|].
  destruct Hsel as (Ha & Hi & Hname & _). cbn [verdict_record_index] in H.
  destruct (_ !=? _); [done|]. destruct (_ =? RIBON_SIGNATURE_STATUS_UNSUPPORTED_ALGORITHM); [done|].
  destruct (Z.eqb_spec (ribon_signature_verify (Some p) (Some (signature_request (key_record s i) v)))
    RIBON_SIGNATURE_STATUS_OK) as [Hok|]; [|done].
  apply signature_verify_ok in Hok as (Hpv & f & Hf & Hfr). split_and!; [done..|]. by exists i, f.
Qed.

(** A signature is accepted only from the authorised key: the store validated, the
    request is authorised, and the provider accepted the message and signature
    under the public key of the record the request names. *)
Theorem key_policy_verify_sound s v q p d out : store_typed s -> request_typed q ->
  signed_policy v = Some q -> signed_provider v = Some p ->
  ribon_key_policy_verify (Some s) (Some v) d = (RIBON_KEY_POLICY_STATUS_OK, out) ->
  ribon_key_policy_store_validate (Some s) = RIBON_KEY_POLICY_STATUS_OK /\ authorised s q /\
  ribon_signature_provider_is_valid (Some p) = true /\
  exists i f, 0 <= i < store_record_count s /\
    name_of (key_record s i) = default [] (request_key_id q) /\
    signature_verify_fn p = Some f /\
    f (signature_request (key_record s i) v) = RIBON_SIGNATURE_STATUS_OK.
Proof. apply verify_accepts. Qed.
