(* ===== verification/KeyPolicyFixture.v ===== *)
(** * A concrete trust store

    A root key that has delegated to a second key, and a signature provider that
    recognises the keys by their first byte: the properties of the key policy
    apply to them. *)

From S2P Require Import Prelude.
From S2P Require Import Buffer.
From S2P Require Import Wire.
From S2P Require Import Sha256.
From S2P Require Import Signature.
From S2P Require Import KeyPolicy.
From S2P Require Import KeyPolicyOrder.
From S2P Require Import KeyPolicyProperties.

Definition sample_product_digest : bytes := 7 :: zeros 31.
Definition sample_rollback_domain : bytes := 1 :: zeros 31.

(** The identities of the two public keys. *)
Definition root_identity : bytes := Eval vm_compute in ribon_key_policy_sha256 (1 :: zeros 31).
Definition signer_identity : bytes := Eval vm_compute in ribon_key_policy_sha256 (2 :: zeros 31).

(** The root key is named "a", the key it has delegated to "b". *)
Definition root_key : RibonKeyPolicyRecord :=
  mkKeyRecord sizeof_RibonKeyPolicyRecord RIBON_KEY_POLICY_ABI_VERSION RIBON_KEY_POLICY_RECORD_ROOT
    RIBON_SIGNATURE_ALGORITHM_ED25519 RIBON_KEY_POLICY_LIFECYCLE_ACTIVE 0x0f 0x7f (Some [97]) 1
    (1 :: zeros 31) root_identity sample_product_digest (Some [sample_rollback_domain]) 1 0 None 0 1 100
    [0; 0; 0; 0].
Definition signer_key : RibonKeyPolicyRecord :=
  mkKeyRecord sizeof_RibonKeyPolicyRecord RIBON_KEY_POLICY_ABI_VERSION 0
    RIBON_SIGNATURE_ALGORITHM_ED25519 RIBON_KEY_POLICY_LIFECYCLE_ACTIVE 0x01 0x40 (Some [98]) 1
    (2 :: zeros 31) signer_identity sample_product_digest (Some [sample_rollback_domain]) 1 1 (Some [97]) 1 2 50
    [0; 0; 0; 0].

Definition unsealed_store (digest : bytes) : RibonKeyPolicyStore :=
  mkKeyStore RIBON_KEY_POLICY_STORE_MAGIC sizeof_RibonKeyPolicyStore RIBON_KEY_POLICY_ABI_VERSION 0
    (Some [115]) 1 1 (Some [root_key; signer_key]) 2 0 digest [0; 0; 0; 0].
Definition sample_store_digest : bytes :=
  Eval vm_compute in ribon_key_policy_store_digest (unsealed_store []).
Definition sample_store : RibonKeyPolicyStore := unsealed_store sample_store_digest.

(** Key "b" is asked to sign a boot confirmation of sequence 6. *)
Definition sample_request : RibonKeyPolicyRequest :=
  mkKeyRequest sizeof_RibonKeyPolicyRequest RIBON_KEY_POLICY_ABI_VERSION 1
    RIBON_KEY_POLICY_USAGE_BOOT_CONFIRMATION 0 0 (Some [98]) 1 sample_product_digest sample_rollback_domain 6
    [0; 0; 0; 0].

Lemma sample_records i : 0 <= i < 2 -> key_record sample_store i = root_key \/ key_record sample_store i = signer_key.
Proof. intros Hi. assert (i = 0 \/ i = 1) as [-> | ->] by lia; [by left|by right]. Qed.

Lemma sample_key_typed r : r = root_key \/ r = signer_key -> key_typed r.
Proof.
  intros [-> | ->]; constructor;
    lazymatch goal with
    | |- word 32 _ => by apply word32
    | |- word 64 _ => by apply word64
    | |- pointed _ _ => by intros b [= <-]
    | |- forall i, _ => intros i Hi; change (0 <= i < 1) in Hi; assert (i = 0) as -> by lia; reflexivity
    | |- _ => reflexivity
    end.
Qed.

Lemma sample_store_typed : store_typed sample_store.
Proof.
  constructor; [by apply word32| |reflexivity]. intros i Hi. apply sample_key_typed, sample_records, Hi.
Qed.

Lemma sample_request_typed : request_typed sample_request.
Proof. constructor; [by intros b [= <-]|reflexivity..]. Qed.

Lemma sample_store_validates : ribon_key_policy_store_validate (Some sample_store) = RIBON_KEY_POLICY_STATUS_OK.
Proof. vm_compute. reflexivity. Qed.

Lemma key_policy_store_sound_witness :
  ribon_key_policy_store_validate (Some sample_store) = RIBON_KEY_POLICY_STATUS_OK /\
  store_canonical_digest sample_store = sha256_spec (canonical_store sample_store) /\
  exists l, chain sample_store 1 l /\ len l = 2.
Proof.
  destruct (key_policy_store_sound sample_store sample_store_typed sample_store_validates)
    as (_ & _ & _ & Hchain & Hd).
  split; [exact sample_store_validates|split; [exact Hd|]].
  destruct (Hchain 1 ltac:(cbn; lia)) as (l & Hl & Hlen & _). exists l. split; [exact Hl|exact Hlen].
Defined.

(** The decision the request gets. *)
Definition sample_decision : RibonKeyPolicyDecision :=
  mkKeyDecision sizeof_RibonKeyPolicyDecision RIBON_KEY_POLICY_ABI_VERSION 1 1 1 signer_identity
    sample_store_digest [0; 0; 0; 0].

Lemma sample_authorize :
  ribon_key_policy_authorize (Some sample_store) (Some sample_request) (Some empty_decision) =
  (RIBON_KEY_POLICY_STATUS_OK, Some sample_decision).
Proof.
  unfold ribon_key_policy_authorize. rewrite sample_store_validates. vm_compute. reflexivity.
Qed.

Lemma sample_request_valid : ribon_key_policy_request_is_valid (Some sample_request) = true.
Proof. vm_compute. reflexivity. Qed.

Lemma key_policy_authorize_exact_witness : authorised sample_store sample_request.
Proof.
  exact (proj1 (proj1 (key_policy_authorize_exact sample_store sample_request empty_decision
    RIBON_KEY_POLICY_STATUS_OK (Some sample_decision) sample_store_typed sample_request_typed
    sample_store_validates sample_request_valid sample_authorize)) eq_refl).
Defined.

(** The signature must start like the public key. *)
Definition sample_signatures : RibonSignatureProvider :=
  mkSignatureProvider RIBON_SIGNATURE_PROVIDER_MAGIC sizeof_RibonSignatureProvider
    RIBON_SIGNATURE_PROVIDER_ABI_VERSION RIBON_SIGNATURE_PROVIDER_CLASS_FIXTURE
    RIBON_SIGNATURE_ALGORITHM_ED25519 0 (Some [102]) RIBON_ED25519_PUBLIC_KEY_BYTES
    RIBON_ED25519_SIGNATURE_BYTES 0 1
    (Some (fun r => if bytes_equal (slice 0 1 (default [] (verification_public_key r)))
                         (slice 0 1 (default [] (verification_signature r))) then 0 else -5))
    [0; 0; 0; 0].

Definition sample_verification : RibonKeyPolicySignatureVerification :=
  mkKeyVerification sizeof_RibonKeyPolicySignatureVerification RIBON_KEY_POLICY_ABI_VERSION 0 0
    (Some sample_request) (Some sample_signatures) (Some [1; 2; 3]) 3 (Some (2 :: zeros 63)) 64 0 0 [0; 0; 0; 0].

Lemma sample_verify :
  ribon_key_policy_verify (Some sample_store) (Some sample_verification) (Some empty_decision) =
  (RIBON_KEY_POLICY_STATUS_OK, Some sample_decision).
Proof.
  unfold ribon_key_policy_verify. change (signed_policy sample_verification) with (Some sample_request).
  rewrite sample_authorize. vm_compute. reflexivity.
Qed.

Lemma key_policy_verify_sound_witness : exists i f, 0 <= i < 2 /\
  name_of (key_record sample_store i) = [98] /\ signature_verify_fn sample_signatures = Some f /\
  f (signature_request (key_record sample_store i) sample_verification) = RIBON_SIGNATURE_STATUS_OK.
Proof.
  exact (proj2 (proj2 (proj2 (key_policy_verify_sound sample_store sample_verification sample_request
    sample_signatures (Some empty_decision) (Some sample_decision) sample_store_typed sample_request_typed
    eq_refl eq_refl sample_verify)))).
Defined.
