(* ===== verification/Session.v ===== *)
(** * Update-storage sessions ([src/update/storage.c])

    A session binds a provider, a layout and a slot table; a handle names the
    one slot that may be written.  The operations are state passing over the
    provider's world. *)

From S2P Require Import Prelude.
From S2P Require Import Buffer.
From S2P Require Import CString.
From S2P Require Import Wire.
From S2P Require Import Sha256.
From S2P Require Import Provider.
From S2P Require Import Layout.
From S2P Require Import SlotMetadata.
From S2P Require Import MemoryProvider.

Definition sizeof_RibonUpdateStorageSession : Z := 72.
Definition sizeof_RibonUpdateSlotHandle : Z := 88.
Definition sizeof_RibonUpdateStorageProductBinding : Z := 152.

Record RibonUpdateStorageSession (W : Type) := mkSession {
  session_size : Z;
  session_abi_version : Z;
  session_flags : Z;
  session_reserved0 : Z;
  session_provider : option (RibonUpdateStorageProvider W);
  session_layout : option RibonUpdateLayout;
  session_metadata : option RibonUpdateSlotMetadata;
  session_reserved : list Z;
}.

Arguments session_size {W} _.
Arguments session_abi_version {W} _.
Arguments session_flags {W} _.
Arguments session_reserved0 {W} _.
Arguments session_provider {W} _.
Arguments session_layout {W} _.
Arguments session_metadata {W} _.
Arguments session_reserved {W} _.

Record RibonUpdateSlotHandle := mkHandle {
  handle_size : Z;
  handle_abi_version : Z;
  handle_slot_id : Z;
  handle_flags : Z;
  handle_metadata_generation : Z;
  handle_media_identity_digest : bytes;
  handle_layout_digest : bytes;
}.

Definition zero_handle : RibonUpdateSlotHandle := mkHandle 0 0 0 0 0 (zeros 32) (zeros 32).

Record RibonUpdateStorageProductBinding := mkBinding {
  binding_size : Z;
  binding_abi_version : Z;
  binding_provider_class : Z;
  binding_flags : Z;
  binding_layout_id : cstring;
  binding_layout_digest : bytes;
  binding_media_identity_digest : bytes;
  binding_read_service_id : cstring;
  binding_writer_service_id : cstring;
  binding_metadata_service_id : cstring;
  binding_flush_service_id : cstring;
  binding_reserved : list Z;
}.

Definition RIBON_UPDATE_STORAGE_PROVIDER_CLASS_FIRMWARE : Z := 1.
Definition RIBON_UPDATE_STORAGE_PROVIDER_CLASS_REFERENCE : Z := 3.

Definition ribon_update_storage_product_binding_is_valid
    (binding : option RibonUpdateStorageProductBinding) : bool :=
  match binding with
  | None => false
  | Some b =>
    (binding_size b =? sizeof_RibonUpdateStorageProductBinding) &&
    (binding_abi_version b =? RIBON_UPDATE_STORAGE_ABI_VERSION) &&
    (binding_provider_class b >=? RIBON_UPDATE_STORAGE_PROVIDER_CLASS_FIRMWARE) &&
    (binding_provider_class b <=? RIBON_UPDATE_STORAGE_PROVIDER_CLASS_REFERENCE) &&
    (binding_flags b =? 0) && negb (cstring_empty (binding_layout_id b)) &&
    negb (bytes_zero (binding_layout_digest b)) &&
    negb (bytes_zero (binding_media_identity_digest b)) &&
    negb (cstring_empty (binding_read_service_id b)) &&
    negb (cstring_empty (binding_writer_service_id b)) &&
    negb (cstring_empty (binding_metadata_service_id b)) &&
    negb (cstring_empty (binding_flush_service_id b)) &&
    bytes_zero (binding_reserved b)
  end.

Definition provider_status (status : Z) : RibonUpdateStorageStatus :=
  if status =? 0 then RIBON_UPDATE_STORAGE_STATUS_OK else RIBON_UPDATE_STORAGE_STATUS_IO.

Definition slot_region (l : RibonUpdateLayout) (slot_id : Z) : RibonUpdateLayoutRegion :=
  layout_region_of l
    (if slot_id =? 0 then RIBON_UPDATE_REGION_SLOT_A else RIBON_UPDATE_REGION_SLOT_B).

Definition status_ok (s : RibonUpdateStorageStatus) : bool :=
  match s with RIBON_UPDATE_STORAGE_STATUS_OK => true | _ => false end.

Section Session.
Context {W : Type}.

(** The checks the session makes of one slot, after the layout digest is known. *)
Definition session_slot_is_valid (p : RibonUpdateStorageProvider W) (l : RibonUpdateLayout)
    (m : RibonUpdateSlotMetadata) (digest : bytes) (index : Z) : bool :=
  let region := slot_region l index in
  if (entry_state (slot_at m index) !=? RIBON_UPDATE_SLOT_EMPTY) &&
     negb (bytes_equal (entry_layout_digest (slot_at m index)) digest)
  then false
  else
    negb ((Z.land (region_offset region) (provider_read_alignment p - 1) !=? 0) ||
          (Z.land (region_length region) (provider_read_alignment p - 1) !=? 0) ||
          (Z.land (region_offset region) (provider_write_alignment p - 1) !=? 0) ||
          (Z.land (region_length region) (provider_write_alignment p - 1) !=? 0) ||
          (Z.land (region_offset region) (provider_erase_alignment p - 1) !=? 0) ||
          (Z.land (region_length region) (provider_erase_alignment p - 1) !=? 0)).

Definition ribon_update_storage_session_is_valid (session : option (RibonUpdateStorageSession W))
  : bool :=
  match session with
  | None => false
  | Some s =>
    if (session_size s !=? sizeof_RibonUpdateStorageSession) ||
       (session_abi_version s !=? RIBON_UPDATE_STORAGE_ABI_VERSION) ||
       (session_flags s !=? 0) || (session_reserved0 s !=? 0) ||
       negb (bytes_zero (session_reserved s)) ||
       negb (ribon_update_storage_provider_is_valid (session_provider s)) ||
       negb (metadata_is_valid (session_metadata s))
    then false
    else
      match session_provider s, session_layout s, session_metadata s with
      | Some p, Some l, Some m =>
        let '(status, wire) := ribon_update_layout_identity_encode (Some l) in
        if negb (status_ok status) ||
           (layout_media_capacity_bytes l !=? provider_capacity_bytes p)
        then false
        else
          let digest := ribon_security_sha256 wire in
          if negb (bytes_equal digest (layout_identity_digest l)) then false
          else session_slot_is_valid p l m digest 0 && session_slot_is_valid p l m digest 1
      | _, _, _ => false
      end
  end.

Definition ribon_update_storage_open_inactive_slot (session : option (RibonUpdateStorageSession W))
    (slot_id : Z) : RibonUpdateStorageStatus * RibonUpdateSlotHandle :=
  if negb (ribon_update_storage_session_is_valid session) || (slot_id >=? RIBON_UPDATE_SLOT_COUNT)
  then (RIBON_UPDATE_STORAGE_STATUS_INVALID_ARGUMENT, zero_handle)
  else
    match session with
    | Some (mkSession _ _ _ _ _ (Some p) (Some l) (Some m) _) =>
      if slot_id =? metadata_active_slot m then (RIBON_UPDATE_STORAGE_STATUS_PROTECTED, zero_handle)
      else if entry_state (slot_at m slot_id) !=? RIBON_UPDATE_SLOT_STAGING
      then (RIBON_UPDATE_STORAGE_STATUS_BAD_STATE, zero_handle)
      else (RIBON_UPDATE_STORAGE_STATUS_OK,
            mkHandle sizeof_RibonUpdateSlotHandle RIBON_UPDATE_STORAGE_ABI_VERSION slot_id 0
              (metadata_generation m) (provider_media_identity_digest p) (layout_identity_digest l))
    | _ => (RIBON_UPDATE_STORAGE_STATUS_INVALID_ARGUMENT, zero_handle)
    end.

Definition handle_is_valid (session : option (RibonUpdateStorageSession W))
    (handle : option RibonUpdateSlotHandle) : bool :=
  ribon_update_storage_session_is_valid session &&
  match session, handle with
  | Some (mkSession _ _ _ _ _ (Some p) (Some l) (Some m) _), Some h =>
    (handle_size h =? sizeof_RibonUpdateSlotHandle) &&
    (handle_abi_version h =? RIBON_UPDATE_STORAGE_ABI_VERSION) &&
    (handle_flags h =? 0) && (handle_slot_id h <? RIBON_UPDATE_SLOT_COUNT) &&
    (handle_slot_id h !=? metadata_active_slot m) &&
    (entry_state (slot_at m (handle_slot_id h)) =? RIBON_UPDATE_SLOT_STAGING) &&
    (handle_metadata_generation h =? metadata_generation m) &&
    bytes_equal (handle_media_identity_digest h) (provider_media_identity_digest p) &&
    bytes_equal (handle_layout_digest h) (layout_identity_digest l)
  | _, _ => false
  end.

(** The status and [*media_offset]. *)
Definition resolve_range (session : option (RibonUpdateStorageSession W))
    (handle : option RibonUpdateSlotHandle) (slot_offset size alignment : Z)
  : RibonUpdateStorageStatus * Z :=
  if negb (handle_is_valid session handle) || (size =? 0)
  then (RIBON_UPDATE_STORAGE_STATUS_INVALID_ARGUMENT, 0)
  else if (Z.land slot_offset (alignment - 1) !=? 0) || (Z.land size (alignment - 1) !=? 0)
  then (RIBON_UPDATE_STORAGE_STATUS_ALIGNMENT, 0)
  else
    match session, handle with
    | Some (mkSession _ _ _ _ _ (Some p) (Some l) _ _), Some h =>
      if size >? provider_maximum_transfer_bytes p then (RIBON_UPDATE_STORAGE_STATUS_OVERFLOW, 0)
      else
        match add_u64 slot_offset size with
        | None => (RIBON_UPDATE_STORAGE_STATUS_OVERFLOW, 0)
        | Some last =>
          let region := slot_region l (handle_slot_id h) in
          if last >? region_length region then (RIBON_UPDATE_STORAGE_STATUS_CAPACITY, 0)
          else
            match add_u64 (region_offset region) slot_offset with
            | None => (RIBON_UPDATE_STORAGE_STATUS_CAPACITY, 0)
            | Some media_offset => (RIBON_UPDATE_STORAGE_STATUS_OK, media_offset)
            end
        end
    | _, _ => (RIBON_UPDATE_STORAGE_STATUS_INVALID_ARGUMENT, 0)
    end.

(** [session != NULL && session->provider != NULL ? f(session->provider) : 1] *)
Definition session_alignment (session : option (RibonUpdateStorageSession W))
    (f : RibonUpdateStorageProvider W -> Z) : Z :=
  match session with
  | Some (mkSession _ _ _ _ _ (Some p) _ _ _) => f p
  | _ => 1
  end.

(** The provider of a session whose range was resolved. *)
Definition with_provider {A} (session : option (RibonUpdateStorageSession W)) (w : W) (d : A)
    (f : RibonUpdateStorageProvider W -> W * A) : W * A :=
  match session with
  | Some (mkSession _ _ _ _ _ (Some p) _ _ _) => f p
  | _ => (w, d)
  end.

(** The buffer is NULL or holds [size] bytes; the result includes its contents. *)
Definition ribon_update_storage_read (session : option (RibonUpdateStorageSession W))
    (handle : option RibonUpdateSlotHandle) (slot_offset : Z) (buffer : option bytes)
    (deadline_ticks : Z) (w : W) : W * (RibonUpdateStorageStatus * option bytes) :=
  match buffer with
  | None => (w, (RIBON_UPDATE_STORAGE_STATUS_INVALID_ARGUMENT, buffer))
  | Some b =>
    match resolve_range session handle slot_offset (len b)
            (session_alignment session provider_read_alignment) with
    | (RIBON_UPDATE_STORAGE_STATUS_OK, media_offset) =>
      with_provider session w (RIBON_UPDATE_STORAGE_STATUS_INVALID_ARGUMENT, buffer) (fun p =>
        let '(w', (status, out, transferred)) := call_read p w media_offset b deadline_ticks in
        (w', (if negb (status_ok (provider_status status)) then provider_status status
              else if transferred =? len b then RIBON_UPDATE_STORAGE_STATUS_OK
              else RIBON_UPDATE_STORAGE_STATUS_SHORT_IO, Some out)))
    | (status, _) => (w, (status, buffer))
    end
  end.

Definition ribon_update_storage_write_inactive (session : option (RibonUpdateStorageSession W))
    (handle : option RibonUpdateSlotHandle) (slot_offset : Z) (buffer : option bytes)
    (deadline_ticks : Z) (w : W) : W * RibonUpdateStorageStatus :=
  match buffer with
  | None => (w, RIBON_UPDATE_STORAGE_STATUS_INVALID_ARGUMENT)
  | Some b =>
    match resolve_range session handle slot_offset (len b)
            (session_alignment session provider_write_alignment) with
    | (RIBON_UPDATE_STORAGE_STATUS_OK, media_offset) =>
      with_provider session w RIBON_UPDATE_STORAGE_STATUS_INVALID_ARGUMENT (fun p =>
        let '(w', (status, transferred)) := call_write p w media_offset b deadline_ticks in
        (w', if negb (status_ok (provider_status status)) then provider_status status
             else if transferred =? len b then RIBON_UPDATE_STORAGE_STATUS_OK
             else RIBON_UPDATE_STORAGE_STATUS_SHORT_IO))
    | (status, _) => (w, status)
    end
  end.

Definition ribon_update_storage_erase_inactive (session : option (RibonUpdateStorageSession W))
    (handle : option RibonUpdateSlotHandle) (slot_offset size deadline_ticks : Z) (w : W)
  : W * RibonUpdateStorageStatus :=
  match resolve_range session handle slot_offset size
          (session_alignment session provider_erase_alignment) with
  | (RIBON_UPDATE_STORAGE_STATUS_OK, media_offset) =>
    with_provider session w RIBON_UPDATE_STORAGE_STATUS_INVALID_ARGUMENT (fun p =>
      let '(w', status) := call_erase p w media_offset size deadline_ticks in
      (w', provider_status status))
  | (status, _) => (w, status)
  end.

Definition ribon_update_storage_flush (session : option (RibonUpdateStorageSession W))
    (deadline_ticks : Z) (w : W) : W * RibonUpdateStorageStatus :=
  if negb (ribon_update_storage_session_is_valid session)
  then (w, RIBON_UPDATE_STORAGE_STATUS_INVALID_ARGUMENT)
  else
    with_provider session w RIBON_UPDATE_STORAGE_STATUS_INVALID_ARGUMENT (fun p =>
      let '(w', status) := call_flush p w deadline_ticks in (w', provider_status status)).

End Session.

(** ** What a resolved range means *)

Section Confined.
Context {W : Type}.

Lemma encode_ok_valid l wire :
  ribon_update_layout_identity_encode (Some l) = (RIBON_UPDATE_STORAGE_STATUS_OK, wire) ->
  layout_is_structurally_valid (Some l) = true.
Proof.
  unfold ribon_update_layout_identity_encode. by destruct (layout_is_structurally_valid (Some l)).
Qed.

Lemma handle_valid_inv (s : RibonUpdateStorageSession W) h :
  handle_is_valid (Some s) (Some h) = true ->
  exists p l m, session_provider s = Some p /\ session_layout s = Some l /\
    session_metadata s = Some m /\ ribon_update_storage_provider_is_valid (Some p) = true /\
    metadata_is_valid (Some m) = true /\ layout_is_structurally_valid (Some l) = true /\
    layout_media_capacity_bytes l = provider_capacity_bytes p /\
    handle_slot_id h < RIBON_UPDATE_SLOT_COUNT /\ handle_slot_id h <> metadata_active_slot m /\
    entry_state (slot_at m (handle_slot_id h)) = RIBON_UPDATE_SLOT_STAGING.
Proof.
  unfold handle_is_valid, ribon_update_storage_session_is_valid. intros H.
  destruct s as [? ? ? ? [p|] [l|] [m|] ?];
    cbn [session_provider session_layout session_metadata] in H |- *;
    apply andb_true_iff in H as [Hs Hh]; try done.
  destruct (_ || _) eqn:G in Hs; [done|]. bool_to_prop.
  destruct (ribon_update_layout_identity_encode (Some l)) as [st wire] eqn:He.
  destruct (negb (status_ok st) || _) eqn:G1 in Hs; [done|]. bool_to_prop.
  destruct st; try done. apply encode_ok_valid in He. exists p, l, m. done.
Qed.

Lemma resolve_range_ok (s : RibonUpdateStorageSession W) h off size a mo :
  resolve_range (Some s) (Some h) off size a = (RIBON_UPDATE_STORAGE_STATUS_OK, mo) ->
  exists p l, session_provider s = Some p /\ session_layout s = Some l /\
    handle_is_valid (Some s) (Some h) = true /\ size <> 0 /\
    mo = region_offset (slot_region l (handle_slot_id h)) + off /\
    off + size <= region_length (slot_region l (handle_slot_id h)) /\
    size <= provider_maximum_transfer_bytes p.
Proof.
  unfold resolve_range. intros H. destruct (_ || _) eqn:G1 in H; [done|].
  destruct (_ || _) eqn:G2 in H; [done|]. bool_to_prop.
  destruct s as [? ? ? ? [p|] [l|] m ?]; try done.
  destruct (Z.ltb_spec (provider_maximum_transfer_bytes p) size); [done|].
  destruct (add_u64 off size) eqn:E1; [|done]. apply add_u64_some in E1 as [-> _].
  destruct (Z.ltb_spec (region_length (slot_region l (handle_slot_id h))) (off + size)); [done|].
  destruct (add_u64 (region_offset _) off) eqn:E2; [|done]. apply add_u64_some in E2 as [-> _].
  injection H as <-. by exists p, l.
Qed.

(** The place of a slot's region in the layout. *)
Definition slot_region_index (slot : Z) : nat := if slot =? 0 then 4 else 6.

Lemma slot_region_lookup l slot :
  layout_typed l -> layout_regions l !! slot_region_index slot = Some (slot_region l slot).
Proof.
  intros Ht. pose proof (typed_regions_length l Ht) as Hn.
  assert (Hnth : forall k, (k < 11)%nat ->
    layout_regions l !! k = Some (nth k (layout_regions l) zero_layout_region)).
  { intros k Hk. rewrite nth_lookup. destruct (lookup_lt_is_Some_2 (layout_regions l) k) as [r ->];
      [lia|done]. }
  unfold slot_region, layout_region_of, slot_region_index. destruct (slot =? 0);
    [exact (Hnth 4%nat ltac:(lia))|exact (Hnth 6%nat ltac:(lia))].
Qed.

Lemma slice_store_outside b off r o n :
  0 <= o -> 0 <= n -> 0 <= off -> o + n <= len b -> off + len r <= o \/ o + n <= off ->
  slice o n (store b off r) = slice o n b.
Proof.
  intros ? ? ? ? [H|H]; [by apply slice_store_after|by apply slice_store_before].
Qed.

(** Two regions of a layout do not overlap, so a write inside one leaves the
    other alone. *)
Lemma region_untouched l i j x y b off r :
  layout_typed l -> layout_wf l -> layout_regions l !! i = Some x -> layout_regions l !! j = Some y ->
  i <> j -> region_offset x <= off -> off + len r <= region_end x ->
  len b = layout_media_capacity_bytes l ->
  slice (region_offset y) (region_length y) (store b off r) = slice (region_offset y) (region_length y) b.
Proof.
  intros Ht Hw Hx Hy Hij Hlo Hhi Hb. pose proof (wf_tiled l Hw) as Htl.
  pose proof (tiled_offset_ge _ _ _ _ _ _ Htl Hx). pose proof (tiled_offset_ge _ _ _ _ _ _ Htl Hy).
  pose proof (tiled_end_le _ _ _ _ _ _ Htl Hy) as He. rewrite (wf_end l Hw), <- Hb in He.
  assert (Hn : 0 <= region_length y).
  { pose proof (proj1 (Forall_lookup _ _) (typed_regions l Ht) _ _ Hy) as (_ & _ & _ & Hl).
    rewrite word64 in Hl. lia. }
  apply slice_store_outside; try done; [lia|].
  destruct (Nat.lt_total i j) as [Hlt|[->|Hlt]]; [|done|].
  - left. pose proof (tiled_ordered _ _ _ _ _ _ _ _ Htl Hlt Hx Hy). lia.
  - right. pose proof (tiled_ordered _ _ _ _ _ _ _ _ Htl Hlt Hy Hx). unfold region_end in *. lia.
Qed.

Lemma provider_write_confined (p : RibonUpdateStorageProvider W) `{!StorageContract p} w mo b dl w' st tr :
  0 <= mo -> mo + len b <= provider_capacity_bytes p -> octets b ->
  call_write p w mo b dl = (w', (st, tr)) ->
  (exists r, len r = len b /\ content w' = store (content w) mo r) /\
  (forall d, crash w' d -> exists d0 r, crash w d0 /\ len r = len b /\ d = store d0 mo r).
Proof.
  intros Hmo Hend Hb Hcall. destruct (write_law _ _ _ _ _ _ _ Hmo Hend Hb Hcall) as (_ & Hc & Hd).
  pose proof (len_nonneg b). split.
  - destruct Hc as (r & -> & Hr). exists r. split; [|done].
    destruct Hr as [->|Hr]; [done|]. apply len_tears in Hr; [done|].
    rewrite len_slice; rewrite ?len_content; lia.
  - intros d Hcr. destruct (Hd d Hcr) as (d0 & r & H0 & -> & Hr). exists d0, r. split_and!; try done.
    pose proof (len_crash _ _ H0) as Hl.
    destruct Hr as [->|[->|Hr]]; [rewrite len_slice; lia|done|].
    apply len_tears in Hr; [done|]. rewrite len_slice; lia.
Qed.

End Confined.

(** ** Properties *)

(** Whatever the outcome, writing through a handle changes nothing outside the
    staging slot it names: every other region of the media (the active slot, the
    bootloader, the metadata and the journal among them) reads as before, and so
    does it in every state a power cut can leave. *)
Theorem storage_write_confined {W} (p : RibonUpdateStorageProvider W) `{!StorageContract p}
    (s : RibonUpdateStorageSession W) l h off b dl w w' st :
  session_provider s = Some p -> session_layout s = Some l -> layout_typed l ->
  octets b -> 0 <= off ->
  ribon_update_storage_write_inactive (Some s) (Some h) off (Some b) dl w = (w', st) ->
  forall j y, layout_regions l !! j = Some y -> j <> slot_region_index (handle_slot_id h) ->
  slice (region_offset y) (region_length y) (content w') =
    slice (region_offset y) (region_length y) (content w) /\
  (forall d, crash w' d -> exists d0, crash w d0 /\
     slice (region_offset y) (region_length y) d = slice (region_offset y) (region_length y) d0).
Proof.
  intros Hp Hl Ht Hb Hoff H j y Hy Hj. unfold ribon_update_storage_write_inactive in H.
  destruct (resolve_range _ _ _ _ _) as [rst mo] eqn:Hr.
  destruct (decide (rst = RIBON_UPDATE_STORAGE_STATUS_OK)) as [->|Hne].
  2:{ assert (w' = w) as -> by (destruct rst; congruence). eauto. }
  destruct (resolve_range_ok _ _ _ _ _ _ Hr) as (p' & l' & Hp' & Hl' & Hv & _ & -> & Hend & _).
  assert (p' = p) as -> by congruence. assert (l' = l) as -> by congruence.
  destruct (handle_valid_inv s h Hv) as (p' & l' & m & E1 & E2 & E3 & _ & _ & Hlv & Hcap & _).
  assert (p' = p) as -> by congruence. assert (l' = l) as -> by congruence.
  apply layout_structurally_valid_wf in Hlv as Hw; [|done].
  destruct s as [? ? ? ? ? ? ? ?]. simpl in Hp, Hl. subst. simpl in H.
  destruct (call_write p w _ b dl) as [w1 [cst tr]] eqn:Hcall. injection H as <- _.
  pose proof (slot_region_lookup l (handle_slot_id h) Ht) as Hx. set (x := slot_region l _) in *.
  pose proof (tiled_offset_ge _ _ _ _ _ _ (wf_tiled l Hw) Hx).
  pose proof (tiled_end_le _ _ _ _ _ _ (wf_tiled l Hw) Hx) as He. rewrite (wf_end l Hw) in He.
  assert (Hin : region_offset x + off + len b <= region_end x) by (unfold region_end; lia).
  destruct (provider_write_confined p w (region_offset x + off) b dl w1 cst tr ltac:(lia) ltac:(lia)
    Hb Hcall) as [(r & Hlr & Hc) Hd].
  split.
  - rewrite Hc. apply (region_untouched l (slot_region_index (handle_slot_id h)) j x);
      try done; try lia; rewrite ?len_content; congruence.
  - intros d Hcr. destruct (Hd d Hcr) as (d0 & r' & H0 & Hlr' & ->). exists d0. split; [done|].
    apply (region_untouched l (slot_region_index (handle_slot_id h)) j x);
      try done; try lia; rewrite ?(len_crash _ _ H0); congruence.
Qed.

(** The sample layout on the in-memory media, with slot B being staged. *)
Definition sample_table : RibonUpdateSlotMetadata :=
  mkMetadata 416 1 0 0 RIBON_UPDATE_SLOT_NONE 2 2
    [mkEntry 0 RIBON_UPDATE_SLOT_CONFIRMED 1 7 (replicate 32 1) (replicate 32 2)
       (layout_identity_digest sample_layout) 0 0 [0; 0; 0; 0];
     mkEntry 1 RIBON_UPDATE_SLOT_STAGING 2 8 (replicate 32 4) (replicate 32 5)
       (layout_identity_digest sample_layout) 0 0 [0; 0; 0; 0]]
    (zeros 32) [0; 0; 0; 0].

Definition sample_provider : RibonUpdateStorageProvider (media 8704) :=
  memory_provider 8704 512 (replicate 32 9).

Lemma blank_media_ok : bool_decide (len (zeros 8704) = 8704) && octetsb (zeros 8704) = true.
Proof. vm_compute. reflexivity. Qed.

Definition blank_media : media 8704 :=
  mkMedia 8704 (zeros 8704) (zeros 8704) blank_media_ok blank_media_ok.

Definition sample_session : RibonUpdateStorageSession (media 8704) :=
  mkSession _ 72 1 0 0 (Some sample_provider) (Some sample_layout) (Some sample_table) [0; 0; 0; 0].

Definition sample_handle : RibonUpdateSlotHandle :=
  Eval vm_compute in snd (ribon_update_storage_open_inactive_slot (Some sample_session) 1).

Definition sample_written : media 8704 * RibonUpdateStorageStatus :=
  ribon_update_storage_write_inactive (Some sample_session) (Some sample_handle) 0
    (Some (replicate 512 170)) 1 blank_media.

Lemma storage_write_confined_witness :
  snd sample_written = RIBON_UPDATE_STORAGE_STATUS_OK /\
  slice 2048 512 (volatile _ (fst sample_written)) = slice 2048 512 (volatile _ blank_media) /\
  slice 3072 512 (volatile _ (fst sample_written)) = replicate 512 170.
Proof.
  split; [vm_compute; reflexivity|]. split; [|vm_compute; reflexivity].
  apply (storage_write_confined sample_provider sample_session sample_layout sample_handle 0
    (replicate 512 170) 1 blank_media (fst sample_written) (snd sample_written)
    eq_refl eq_refl sample_layout_typed ltac:(apply octetsb_octets; vm_compute; reflexivity)
    ltac:(lia) ltac:(unfold sample_written; by destruct (ribon_update_storage_write_inactive _ _ _ _ _ _))
    4%nat (mkLayoutRegion 5 0 2048 512)).
  - vm_compute. reflexivity.
  - vm_compute. discriminate.
Defined.
