(* ===== verification/TransactionWire.v ===== *)
(** * Journal records and selectors ([src/update/transaction.c])

    The two durable objects of the transaction journal: a 1024-byte record that
    embeds a slot table, and the 512-byte selector that commits it.  A function
    that returns 0 for failure is [None]; the arrays it is called with are never
    NULL. *)

From S2P Require Import Prelude.
From S2P Require Import Buffer.
From S2P Require Import Wire.
From S2P Require Import Image.
From S2P Require Import Sha256.
From S2P Require Import Seal.
From S2P Require Import Provider.
From S2P Require Import Layout.
From S2P Require Import SlotMetadata.

Definition RIBON_UPDATE_TRANSACTION_ABI_VERSION : Z := 1.
Definition RIBON_UPDATE_TRANSACTION_RECORD_SLOTS : Z := 2.
Definition RIBON_UPDATE_TRANSACTION_RECORD_BYTES : Z := 1024.
Definition RIBON_UPDATE_TRANSACTION_SELECTOR_BYTES : Z := 512.
Definition RIBON_UPDATE_TRANSACTION_MINIMUM_JOURNAL_BYTES : Z := 3072.
Definition RECORD_HEADER_BYTES : Z := 240.
Definition RECORD_METADATA_OFFSET : Z := 240.
Definition RECORD_DIGEST_OFFSET : Z := 752.
Definition RECORD_CHECKSUM_OFFSET : Z := 784.
Definition SELECTOR_DIGEST_OFFSET : Z := 128.
Definition SELECTOR_CHECKSUM_OFFSET : Z := 160.
Definition RECORD_PHASE_COMPLETE : Z := 1.

(** "RIBON-UPDATE-TXN-RECORD-V1", padded with NUL to 32 bytes *)
Definition record_magic : bytes :=
  [82; 73; 66; 79; 78; 45; 85; 80; 68; 65; 84; 69; 45; 84; 88; 78; 45; 82; 69; 67; 79; 82; 68; 45;
   86; 49; 0; 0; 0; 0; 0; 0].

(** "RIBON-UPDATE-TXN-SELECT-V1", padded with NUL to 32 bytes *)
Definition selector_magic : bytes :=
  [82; 73; 66; 79; 78; 45; 85; 80; 68; 65; 84; 69; 45; 84; 88; 78; 45; 83; 69; 76; 69; 67; 84; 45;
   86; 49; 0; 0; 0; 0; 0; 0].

Record TransactionRecordView := mkRecordView {
  record_target_slot : Z;
  record_target_state : Z;
  record_generation : Z;
  record_predecessor_generation : Z;
  record_predecessor_digest : bytes;
  record_record_digest : bytes;
  record_metadata : RibonUpdateSlotMetadata;
}.

Record TransactionSelectorView := mkSelectorView {
  selector_record_slot : Z;
  selector_generation : Z;
  selector_predecessor_generation : Z;
  selector_record_digest : bytes;
  selector_predecessor_digest : bytes;
}.

(** The link to the predecessor is refused: generation 1 has none, a later one
    names the generation just before it. *)
Definition bad_predecessor (generation predecessor_generation : Z) (predecessor_digest : bytes) : bool :=
  ((generation =? 1) &&
   ((predecessor_generation !=? 0) || negb (bytes_zero predecessor_digest))) ||
  ((generation >? 1) &&
   ((predecessor_generation !=? generation - 1) || bytes_zero predecessor_digest)).

Definition record_encode (metadata : RibonUpdateSlotMetadata) (target_slot generation : Z)
    (predecessor_generation : Z) (predecessor_digest : bytes) : option bytes :=
  if (target_slot >=? RIBON_UPDATE_SLOT_COUNT) || (generation =? 0) ||
     (generation !=? metadata_generation metadata)
  then None
  else
    match ribon_update_slot_metadata_encode (Some metadata) with
    | (RIBON_UPDATE_STORAGE_STATUS_OK, metadata_wire) =>
      if bad_predecessor generation predecessor_generation predecessor_digest then None
      else
        let entry := slot_at metadata target_slot in
        let output := zeros RIBON_UPDATE_TRANSACTION_RECORD_BYTES in
        let output := store output 0 record_magic in
        let output := store_u16 output 32 RIBON_UPDATE_TRANSACTION_ABI_VERSION in
        let output := store_u16 output 34 RECORD_HEADER_BYTES in
        let output := store_u32 output 36 RIBON_UPDATE_TRANSACTION_RECORD_BYTES in
        let output := store_u32 output 40 RECORD_PHASE_COMPLETE in
        let output := store_u32 output 44 target_slot in
        let output := store_u32 output 48 (entry_state entry) in
        let output := store_u32 output 52 0 in
        let output := store_u64 output 56 generation in
        let output := store_u64 output 64 predecessor_generation in
        let output := store output 72 predecessor_digest in
        let output := store output 104 (ribon_security_sha256 metadata_wire) in
        let output := store output 136 (entry_manifest_digest entry) in
        let output := store output 168 (entry_image_set_digest entry) in
        let output := store output 200 (entry_layout_digest entry) in
        let output := store output RECORD_METADATA_OFFSET metadata_wire in
        let digest := ribon_security_sha256 (slice 0 RECORD_DIGEST_OFFSET output) in
        let output := store output RECORD_DIGEST_OFFSET digest in
        Some (store_u32 output RECORD_CHECKSUM_OFFSET
                (crc32c (slice 0 RECORD_CHECKSUM_OFFSET output)))
    | _ => None
    end.

Definition record_decode (b : bytes) : option TransactionRecordView :=
  if negb (bytes_equal (slice 0 32 b) record_magic) ||
     (load_u16 b 32 !=? RIBON_UPDATE_TRANSACTION_ABI_VERSION) ||
     (load_u16 b 34 !=? RECORD_HEADER_BYTES) ||
     (load_u32 b 36 !=? RIBON_UPDATE_TRANSACTION_RECORD_BYTES) ||
     (load_u32 b 40 !=? RECORD_PHASE_COMPLETE) ||
     (load_u32 b 44 >=? RIBON_UPDATE_SLOT_COUNT) ||
     (load_u32 b 48 >? RIBON_UPDATE_SLOT_BAD) ||
     (load_u32 b 52 !=? 0) || (load_u64 b 56 =? 0) ||
     negb (bytes_zero (slice 232 (RECORD_HEADER_BYTES - 232) b)) ||
     negb (bytes_zero (slice (RECORD_CHECKSUM_OFFSET + 4)
             (RIBON_UPDATE_TRANSACTION_RECORD_BYTES - RECORD_CHECKSUM_OFFSET - 4) b)) ||
     (load_u32 b RECORD_CHECKSUM_OFFSET !=? crc32c (slice 0 RECORD_CHECKSUM_OFFSET b))
  then None
  else if negb (bytes_equal (ribon_security_sha256 (slice 0 RECORD_DIGEST_OFFSET b))
                  (slice RECORD_DIGEST_OFFSET 32 b))
  then None
  else
    let wire := slice RECORD_METADATA_OFFSET RIBON_UPDATE_SLOT_METADATA_BYTES b in
    match ribon_update_slot_metadata_open (Some wire) with
    | (RIBON_UPDATE_STORAGE_STATUS_OK, metadata) =>
      if negb (bytes_equal (ribon_security_sha256 wire) (slice 104 32 b)) then None
      else
        let record :=
          mkRecordView (load_u32 b 44) (load_u32 b 48) (load_u64 b 56) (load_u64 b 64)
            (slice 72 32 b) (slice RECORD_DIGEST_OFFSET 32 b) metadata in
        let entry := slot_at metadata (record_target_slot record) in
        if (metadata_generation metadata !=? record_generation record) ||
           (entry_state entry !=? record_target_state record) ||
           negb (bytes_equal (entry_manifest_digest entry) (slice 136 32 b)) ||
           negb (bytes_equal (entry_image_set_digest entry) (slice 168 32 b)) ||
           negb (bytes_equal (entry_layout_digest entry) (slice 200 32 b)) ||
           bad_predecessor (record_generation record) (record_predecessor_generation record)
             (record_predecessor_digest record)
        then None
        else Some record
    | _ => None
    end.

Definition selector_encode (record_slot generation predecessor_generation : Z)
    (record_digest predecessor_digest : bytes) : option bytes :=
  if (record_slot >=? RIBON_UPDATE_TRANSACTION_RECORD_SLOTS) || (generation =? 0) ||
     bytes_zero record_digest
  then None
  else
    let output := zeros RIBON_UPDATE_TRANSACTION_SELECTOR_BYTES in
    let output := store output 0 selector_magic in
    let output := store_u16 output 32 RIBON_UPDATE_TRANSACTION_ABI_VERSION in
    let output := store_u16 output 34 128 in
    let output := store_u32 output 36 RIBON_UPDATE_TRANSACTION_SELECTOR_BYTES in
    let output := store_u32 output 40 record_slot in
    let output := store_u32 output 44 0 in
    let output := store_u64 output 48 generation in
    let output := store output 56 record_digest in
    let output := store_u64 output 88 predecessor_generation in
    let output := store output 96 predecessor_digest in
    let digest := ribon_security_sha256 (slice 0 SELECTOR_DIGEST_OFFSET output) in
    let output := store output SELECTOR_DIGEST_OFFSET digest in
    Some (store_u32 output SELECTOR_CHECKSUM_OFFSET
            (crc32c (slice 0 SELECTOR_CHECKSUM_OFFSET output))).

Definition selector_decode (b : bytes) : option TransactionSelectorView :=
  if negb (bytes_equal (slice 0 32 b) selector_magic) ||
     (load_u16 b 32 !=? RIBON_UPDATE_TRANSACTION_ABI_VERSION) ||
     (load_u16 b 34 !=? 128) ||
     (load_u32 b 36 !=? RIBON_UPDATE_TRANSACTION_SELECTOR_BYTES) ||
     (load_u32 b 40 >=? RIBON_UPDATE_TRANSACTION_RECORD_SLOTS) ||
     (load_u32 b 44 !=? 0) || (load_u64 b 48 =? 0) ||
     bytes_zero (slice 56 32 b) ||
     negb (bytes_zero (slice (SELECTOR_CHECKSUM_OFFSET + 4)
             (RIBON_UPDATE_TRANSACTION_SELECTOR_BYTES - SELECTOR_CHECKSUM_OFFSET - 4) b)) ||
     (load_u32 b SELECTOR_CHECKSUM_OFFSET !=? crc32c (slice 0 SELECTOR_CHECKSUM_OFFSET b))
  then None
  else if negb (bytes_equal (ribon_security_sha256 (slice 0 SELECTOR_DIGEST_OFFSET b))
                  (slice SELECTOR_DIGEST_OFFSET 32 b))
  then None
  else Some (mkSelectorView (load_u32 b 40) (load_u64 b 48) (load_u64 b 88) (slice 56 32 b)
               (slice 96 32 b)).

(** ** The selector reads back *)

Definition selector_body (slot generation pgeneration : Z) (digest pdigest : bytes) : list write :=
  [(0, selector_magic); (32, le_bytes 2 1); (34, le_bytes 2 128); (36, le_bytes 4 512);
   (40, le_bytes 4 slot); (44, le_bytes 4 0); (48, le_bytes 8 generation); (56, digest);
   (88, le_bytes 8 pgeneration); (96, pdigest)].

Definition selector_shape : list (Z * Z) :=
  [(0, 32); (32, 2); (34, 2); (36, 4); (40, 4); (44, 4); (48, 8); (56, 32); (88, 8); (96, 32)].

Section Selector.
Context (slot generation pgeneration : Z) (digest pdigest : bytes).
Context (Hs : 0 <= slot < 2) (Hg : 0 < generation) (Hg' : word 64 generation).
Context (Hpg : word 64 pgeneration) (Hd : len digest = 32 /\ octets digest).
Context (Hz : bytes_zero digest = false) (Hpd : len pdigest = 32 /\ octets pdigest).
Let body := selector_body slot generation pgeneration digest pdigest.

Definition selector_wire : bytes := image 512 (seal 512 body 128 160).

Lemma selector_encode_wire :
  selector_encode slot generation pgeneration digest pdigest = Some selector_wire.
Proof.
  unfold selector_encode, RIBON_UPDATE_TRANSACTION_RECORD_SLOTS. rewrite Hz.
  destruct (Z.leb_spec 2 slot); [lia|]. destruct (Z.eqb_spec generation 0); [lia|]. cbn [orb].
  unfold SELECTOR_CHECKSUM_OFFSET. rewrite !store_u64_le, !store_u32_le, !store_u16_le by lia.
  unfold selector_wire, seal, checked, image. rewrite writes_app. reflexivity.
Qed.

Lemma shape_selector_body : shape body = selector_shape.
Proof.
  unfold shape, body, selector_body. cbn [fmap list_fmap fst snd].
  rewrite !len_le_bytes, (proj1 Hd), (proj1 Hpd). reflexivity.
Qed.

Lemma octets_selector_body : Forall (fun w => octets (snd w)) body.
Proof.
  unfold body, selector_body. rewrite !Forall_cons, Forall_nil. cbn [snd].
  split_and!; try apply octets_le_bytes; try tauto. by apply octetsb_octets.
Qed.

Lemma selector_decode_wire :
  selector_decode selector_wire =
  Some (mkSelectorView slot generation pgeneration digest pdigest).
Proof.
  pose proof shape_selector_body as Hb. pose proof octets_selector_body as Ho.
  pose proof (shape_seal 512 128 160 body _ Hb) as Hsh. pose proof (octets_seal 512 128 160 body Ho) as Hws.
  assert (Hslot : word 32 slot) by (apply word32; unfold UINT32_MAX; lia).
  assert (E1 : slice 0 32 selector_wire = selector_magic) by (unfold selector_wire; image_field Hsh).
  assert (E2 : slice 56 32 selector_wire = digest) by (unfold selector_wire; image_field Hsh).
  assert (E3 : slice 96 32 selector_wire = pdigest) by (unfold selector_wire; image_field Hsh).
  assert (E4 : slice 164 348 selector_wire = zeros 348) by (unfold selector_wire; image_field Hsh).
  unfold selector_decode, SELECTOR_CHECKSUM_OFFSET, RIBON_UPDATE_TRANSACTION_SELECTOR_BYTES,
    SELECTOR_DIGEST_OFFSET, RIBON_UPDATE_TRANSACTION_RECORD_SLOTS.
  change (160 + 4) with 164. change (512 - 160 - 4) with 348.
  rewrite E1, E2, E3, E4, Hz, bytes_equal_refl, bytes_zero_zeros. unfold selector_wire.
  rewrite (seal_checksum 512 128 160 _ _ Hb eq_refl Ho ltac:(lia) ltac:(lia) ltac:(lia)).
  rewrite (seal_body_digest 512 128 160 body ltac:(lia) ltac:(lia) ltac:(lia)).
  rewrite (seal_digest 512 128 160 _ _ Hb eq_refl ltac:(lia) ltac:(lia) ltac:(lia)).
  rewrite bytes_equal_refl, Z.eqb_refl.
  repeat image_load Hsh Hws in_range.
  destruct (Z.leb_spec 2 slot); [lia|]. destruct (Z.eqb_spec generation 0); [lia|]. reflexivity.
Qed.

Lemma len_selector_wire : len selector_wire = 512.
Proof. by apply len_image. Qed.

Lemma octets_selector_wire : octets selector_wire.
Proof. apply octets_image, octets_seal, octets_selector_body. Qed.
End Selector.

(** ** The record reads back *)

Definition record_body (m : RibonUpdateSlotMetadata) (target pgeneration : Z) (pdigest : bytes)
  : list write :=
  let entry := slot_at m target in
  [(0, record_magic); (32, le_bytes 2 1); (34, le_bytes 2 240); (36, le_bytes 4 1024);
   (40, le_bytes 4 1); (44, le_bytes 4 target); (48, le_bytes 4 (entry_state entry));
   (52, le_bytes 4 0); (56, le_bytes 8 (metadata_generation m)); (64, le_bytes 8 pgeneration);
   (72, pdigest); (104, ribon_security_sha256 (metadata_wire m));
   (136, entry_manifest_digest entry); (168, entry_image_set_digest entry);
   (200, entry_layout_digest entry); (240, metadata_wire m)].

Definition record_shape : list (Z * Z) :=
  [(0, 32); (32, 2); (34, 2); (36, 4); (40, 4); (44, 4); (48, 4); (52, 4); (56, 8); (64, 8);
   (72, 32); (104, 32); (136, 32); (168, 32); (200, 32); (240, 512)].

Section Record.
Context (m : RibonUpdateSlotMetadata) (target pgeneration : Z) (pdigest : bytes).
Context (Hm : metadata_typed m) (Hv : metadata_is_valid (Some m) = true).
Context (Htarget : 0 <= target < 2) (Hpg : word 64 pgeneration).
Context (Hpd : len pdigest = 32 /\ octets pdigest).
Context (Hlink : bad_predecessor (metadata_generation m) pgeneration pdigest = false).
Let body := record_body m target pgeneration pdigest.

Definition record_wire : bytes := image 1024 (seal 1024 body 752 784).

(** The digest the selector names. *)
Definition record_digest : bytes := body_digest 1024 body 752.

Lemma record_entry : entry_typed (slot_at m target) /\ 0 <= entry_state (slot_at m target) <= 5.
Proof.
  pose proof (slot_at_typed m target Hm Htarget) as He. split; [done|].
  pose proof (proj1 (metadata_valid_wf m Hm) Hv) as Hw.
  pose proof (wf_entries m Hw target ltac:(lia)) as Hev.
  by apply entry_valid_reserved in Hev as (_ & _ & _ & ? & _).
Qed.

Lemma record_encode_wire :
  record_encode m target (metadata_generation m) pgeneration pdigest = Some record_wire.
Proof.
  unfold record_encode, RIBON_UPDATE_SLOT_COUNT.
  pose proof (wf_generation m (proj1 (metadata_valid_wf m Hm) Hv)).
  destruct (Z.leb_spec 2 target); [lia|]. destruct (Z.eqb_spec (metadata_generation m) 0); [lia|].
  rewrite Z.eqb_refl, (metadata_encode_wire m Hv), Hlink. cbn [negb orb].
  unfold RECORD_CHECKSUM_OFFSET. rewrite !store_u64_le, !store_u32_le, !store_u16_le by lia.
  unfold record_wire, seal, checked, image. rewrite writes_app. reflexivity.
Qed.

Lemma shape_record_body : shape body = record_shape.
Proof.
  destruct record_entry as [[] _].
  unfold shape, body, record_body. cbn [fmap list_fmap fst snd].
  rewrite !len_le_bytes, (proj1 Hpd), len_sha256, len_metadata_wire.
  repeat match goal with H : len _ = 32 /\ _ |- _ => destruct H as [-> _] end. reflexivity.
Qed.

Lemma octets_record_body : Forall (fun w => octets (snd w)) body.
Proof.
  destruct record_entry as [[] _].
  unfold body, record_body. rewrite !Forall_cons, Forall_nil. cbn [snd].
  split_and!; try apply octets_le_bytes; try tauto; try apply octets_sha256.
  - by apply octetsb_octets.
  - by apply octets_metadata_wire.
Qed.

Lemma record_wire_slices :
  slice 0 32 record_wire = record_magic /\ slice 72 32 record_wire = pdigest /\
  slice 104 32 record_wire = ribon_security_sha256 (metadata_wire m) /\
  slice 136 32 record_wire = entry_manifest_digest (slot_at m target) /\
  slice 168 32 record_wire = entry_image_set_digest (slot_at m target) /\
  slice 200 32 record_wire = entry_layout_digest (slot_at m target) /\
  slice 240 512 record_wire = metadata_wire m /\ slice 752 32 record_wire = record_digest /\
  slice 232 8 record_wire = zeros 8 /\ slice 788 236 record_wire = zeros 236.
Proof.
  pose proof (shape_seal 1024 752 784 body _ shape_record_body) as Hsh.
  split_and!; unfold record_wire; try image_field Hsh.
Qed.

Lemma record_decode_wire :
  record_decode record_wire =
  Some (mkRecordView target (entry_state (slot_at m target)) (metadata_generation m) pgeneration
          pdigest record_digest (metadata_with_digest m (metadata_digest m))).
Proof.
  pose proof shape_record_body as Hb. pose proof octets_record_body as Ho.
  pose proof (shape_seal 1024 752 784 body _ Hb) as Hsh.
  pose proof (octets_seal 1024 752 784 body Ho) as Hws.
  destruct record_entry as [He Hst]. pose proof (typed_state _ He) as Hst32.
  pose proof (typed_generation m Hm) as Hg64.
  pose proof (wf_generation m (proj1 (metadata_valid_wf m Hm) Hv)).
  assert (Ht32 : word 32 target) by (apply word32; unfold UINT32_MAX; lia).
  destruct record_wire_slices as (E1 & E2 & E3 & E4 & E5 & E6 & E7 & E8 & E9 & E10).
  unfold record_decode, RECORD_CHECKSUM_OFFSET, RECORD_HEADER_BYTES, RECORD_DIGEST_OFFSET,
    RIBON_UPDATE_TRANSACTION_RECORD_BYTES, RECORD_METADATA_OFFSET, RIBON_UPDATE_SLOT_METADATA_BYTES,
    RIBON_UPDATE_SLOT_COUNT, RIBON_UPDATE_SLOT_BAD.
  change (240 - 232) with 8. change (784 + 4) with 788. change (1024 - 784 - 4) with 236.
  cbn [record_target_slot record_target_state record_generation record_predecessor_generation
       record_predecessor_digest].
  rewrite E1, E2, E3, E4, E5, E6, E7, E8, E9, E10, (metadata_open_wire m Hm Hv).
  rewrite !bytes_equal_refl, !bytes_zero_zeros. unfold record_wire.
  rewrite (seal_checksum 1024 752 784 _ _ Hb eq_refl Ho ltac:(lia) ltac:(lia) ltac:(lia)).
  rewrite (seal_body_digest 1024 752 784 body ltac:(lia) ltac:(lia) ltac:(lia)). fold record_digest.
  rewrite bytes_equal_refl, Z.eqb_refl.
  repeat image_load Hsh Hws in_range.
  destruct (Z.leb_spec 2 target); [lia|]. destruct (Z.ltb_spec 5 (entry_state (slot_at m target))); [lia|].
  destruct (Z.eqb_spec (metadata_generation m) 0); [lia|].
  change (slot_at (metadata_with_digest m (metadata_digest m)) target) with (slot_at m target).
  change (metadata_generation (metadata_with_digest m (metadata_digest m))) with (metadata_generation m).
  rewrite !bytes_equal_refl, !Z.eqb_refl, Hlink. reflexivity.
Qed.

Lemma len_record_wire : len record_wire = 1024.
Proof. by apply len_image. Qed.

Lemma octets_record_wire : octets record_wire.
Proof. apply octets_image, octets_seal, octets_record_body. Qed.
End Record.

Lemma record_digest_typed m target pgeneration pdigest :
  len (record_digest m target pgeneration pdigest) = 32 /\
  octets (record_digest m target pgeneration pdigest).
Proof. split; [apply len_sha256|apply octets_sha256]. Qed.

(** ** What the decoders accept *)

Lemma selector_decode_typed b v :
  octets b -> len b = 512 -> selector_decode b = Some v ->
  0 <= selector_record_slot v < 2 /\ 0 < selector_generation v <= UINT64_MAX.
Proof.
  intros Hb Hl. unfold selector_decode, RIBON_UPDATE_TRANSACTION_RECORD_SLOTS.
  destruct (_ || _) eqn:G; [done|]. case_match; [done|]. injection 1 as <-. bool_to_prop.
  pose proof (load_u32_word b 40 Hb ltac:(lia) ltac:(lia)) as H32.
  pose proof (load_u64_word b 48 Hb ltac:(lia) ltac:(lia)) as H64.
  rewrite word32 in H32. rewrite word64 in H64. cbn [selector_record_slot selector_generation]. lia.
Qed.

Lemma record_decode_typed b v :
  octets b -> len b = 1024 -> record_decode b = Some v ->
  0 <= record_target_slot v < 2 /\ 0 < record_generation v <= UINT64_MAX /\
  (len (record_record_digest v) = 32 /\ octets (record_record_digest v)) /\
  metadata_typed (record_metadata v) /\ metadata_is_valid (Some (record_metadata v)) = true /\
  metadata_generation (record_metadata v) = record_generation v /\
  entry_state (slot_at (record_metadata v) (record_target_slot v)) = record_target_state v.
Proof.
  intros Hb Hl. unfold record_decode, RIBON_UPDATE_SLOT_COUNT.
  destruct (_ || _) eqn:G; [done|]. case_match; [done|].
  destruct (ribon_update_slot_metadata_open _) as [st m] eqn:Ho. destruct st; try done.
  apply metadata_open_typed in Ho as [Hm Hv]; [|by apply octets_slice].
  case_match; [done|]. cbn [record_target_slot record_target_state record_generation].
  match goal with |- (if ?c then _ else _) = _ -> _ => destruct c eqn:G2 end; [done|]. injection 1 as <-. bool_to_prop.
  pose proof (load_u32_word b 44 Hb ltac:(lia) ltac:(lia)) as H32.
  pose proof (load_u64_word b 56 Hb ltac:(lia) ltac:(lia)) as H64.
  rewrite word32 in H32. rewrite word64 in H64.
  cbn [record_target_slot record_target_state record_generation record_record_digest record_metadata].
  unfold RECORD_DIGEST_OFFSET.
  split_and!; try done; try lia; [apply len_slice; lia|by apply octets_slice].
Qed.
