(* ===== verification/Transaction.v ===== *)
(** * The update transaction journal ([src/update/transaction.c])

    The observer, the journal check, [open], the ordered commit, provisioning
    and confirmation.  The code threads two pieces of state, the provider's world
    and the caller's observer, and leaves at the first status that is not OK: both
    are in the monad [tx].  An output structure is the result of a call that
    returns OK; what it holds after an error is not modelled.

    A read gets a cleared buffer: its contents matter only after a complete
    read, which defines all of them. *)

From S2P Require Import Prelude.
From S2P Require Import Effects.
From S2P Require Import Buffer.
From S2P Require Import Wire.
From S2P Require Import Sha256.
From S2P Require Import Provider.
From S2P Require Import Layout.
From S2P Require Import SlotMetadata.
From S2P Require Import TransactionWire.

Inductive RibonUpdateTransactionStatus :=
| RIBON_UPDATE_TRANSACTION_STATUS_OK
| RIBON_UPDATE_TRANSACTION_STATUS_INVALID_ARGUMENT
| RIBON_UPDATE_TRANSACTION_STATUS_UNINITIALIZED
| RIBON_UPDATE_TRANSACTION_STATUS_IO
| RIBON_UPDATE_TRANSACTION_STATUS_SHORT_IO
| RIBON_UPDATE_TRANSACTION_STATUS_CORRUPT
| RIBON_UPDATE_TRANSACTION_STATUS_CONFLICT
| RIBON_UPDATE_TRANSACTION_STATUS_REPLAY
| RIBON_UPDATE_TRANSACTION_STATUS_OVERFLOW
| RIBON_UPDATE_TRANSACTION_STATUS_STATE
| RIBON_UPDATE_TRANSACTION_STATUS_IDENTITY
| RIBON_UPDATE_TRANSACTION_STATUS_AUTHORIZATION
| RIBON_UPDATE_TRANSACTION_STATUS_INSTALL
| RIBON_UPDATE_TRANSACTION_STATUS_INTERRUPTED.

#[export] Instance RibonUpdateTransactionStatus_eq_dec : EqDecision RibonUpdateTransactionStatus.
Proof. solve_decision. Defined.

Definition RIBON_UPDATE_TRANSACTION_BOUNDARY_BEFORE : Z := 1.
Definition RIBON_UPDATE_TRANSACTION_BOUNDARY_AFTER : Z := 2.
Definition RIBON_UPDATE_TRANSACTION_OPERATION_JOURNAL_RECORD_WRITE : Z := 1.
Definition RIBON_UPDATE_TRANSACTION_OPERATION_JOURNAL_RECORD_FLUSH : Z := 2.
Definition RIBON_UPDATE_TRANSACTION_OPERATION_JOURNAL_RECORD_READBACK : Z := 3.
Definition RIBON_UPDATE_TRANSACTION_OPERATION_JOURNAL_SELECTOR_WRITE : Z := 4.
Definition RIBON_UPDATE_TRANSACTION_OPERATION_JOURNAL_SELECTOR_FLUSH : Z := 5.
Definition RIBON_UPDATE_TRANSACTION_OPERATION_JOURNAL_REOPEN : Z := 6.
Definition RIBON_UPDATE_TRANSACTION_OPERATION_PAYLOAD_FLUSH : Z := 11.
Definition NO_COMPONENT : Z := UINT32_MAX.
Definition sizeof_RibonUpdateTransactionObserver : Z := 64.
Definition sizeof_RibonUpdateTransactionEvent : Z := 72.
Definition sizeof_RibonUpdateTransactionJournal : Z := 80.
Definition sizeof_RibonUpdateTransactionSnapshot : Z := 552.
Definition sizeof_RibonUpdateConfirmPendingRequest : Z := 104.
Definition sizeof_RibonUpdateConfirmPendingResult : Z := 600.

Record RibonUpdateTransactionEvent := mkEvent {
  event_size : Z;
  event_abi_version : Z;
  event_operation : Z;
  event_boundary : Z;
  event_durable_state : Z;
  event_component_index : Z;
  event_sequence : Z;
  event_flags : Z;
  event_journal_generation : Z;
  event_reserved : list Z;
}.

(** The observer's private state is its context; it has no access to storage. *)
Record RibonUpdateTransactionObserver (O : Type) := mkObserver {
  observer_size : Z;
  observer_abi_version : Z;
  observer_flags : Z;
  observer_next_sequence : Z;
  observer_context : O;
  observer_observe : option (O -> RibonUpdateTransactionEvent -> O * Z);
  observer_reserved : list Z;
}.

Arguments mkObserver {O}.
Arguments observer_size {O} _.
Arguments observer_abi_version {O} _.
Arguments observer_flags {O} _.
Arguments observer_next_sequence {O} _.
Arguments observer_context {O} _.
Arguments observer_observe {O} _.
Arguments observer_reserved {O} _.

Record RibonUpdateTransactionJournal (W : Type) := mkJournal {
  journal_size : Z;
  journal_abi_version : Z;
  journal_flags : Z;
  journal_reserved0 : Z;
  journal_provider : option (RibonUpdateStorageProvider W);
  journal_layout : option RibonUpdateLayout;
  journal_minimum_generation : Z;
  journal_deadline_ticks : Z;
  journal_reserved : list Z;
}.

Arguments mkJournal {W}.
Arguments journal_size {W} _.
Arguments journal_abi_version {W} _.
Arguments journal_flags {W} _.
Arguments journal_reserved0 {W} _.
Arguments journal_provider {W} _.
Arguments journal_layout {W} _.
Arguments journal_minimum_generation {W} _.
Arguments journal_deadline_ticks {W} _.
Arguments journal_reserved {W} _.

Record RibonUpdateTransactionSnapshot := mkSnapshot {
  snapshot_size : Z;
  snapshot_abi_version : Z;
  snapshot_selected_record_slot : Z;
  snapshot_selected_selector_slot : Z;
  snapshot_target_slot : Z;
  snapshot_target_state : Z;
  snapshot_journal_generation : Z;
  snapshot_predecessor_generation : Z;
  snapshot_record_digest : bytes;
  snapshot_predecessor_digest : bytes;
  snapshot_metadata : RibonUpdateSlotMetadata;
  snapshot_reserved : list Z;
}.

Record RibonUpdateConfirmPendingRequest (W O : Type) := mkConfirmRequest {
  confirm_size : Z;
  confirm_abi_version : Z;
  confirm_flags : Z;
  confirm_target_slot : Z;
  confirm_image_generation : Z;
  confirm_manifest_digest : bytes;
  confirm_journal : option (RibonUpdateTransactionJournal W);
  confirm_observer : option (RibonUpdateTransactionObserver O);
  confirm_reserved : list Z;
}.

Arguments mkConfirmRequest {W O}.
Arguments confirm_size {W O} _.
Arguments confirm_abi_version {W O} _.
Arguments confirm_flags {W O} _.
Arguments confirm_target_slot {W O} _.
Arguments confirm_image_generation {W O} _.
Arguments confirm_manifest_digest {W O} _.
Arguments confirm_journal {W O} _.
Arguments confirm_observer {W O} _.
Arguments confirm_reserved {W O} _.

Record RibonUpdateConfirmPendingResult := mkConfirmResult {
  result_size : Z;
  result_abi_version : Z;
  result_duplicate : Z;
  result_reserved0 : Z;
  result_snapshot : RibonUpdateTransactionSnapshot;
  result_reserved : list Z;
}.

(** ** The observer ([src/update/installer.c]) *)

Definition ribon_update_transaction_observer_is_valid {O}
    (observer : option (RibonUpdateTransactionObserver O)) : bool :=
  match observer with
  | None => false
  | Some o =>
    (observer_size o =? sizeof_RibonUpdateTransactionObserver) &&
    (observer_abi_version o =? RIBON_UPDATE_TRANSACTION_ABI_VERSION) &&
    (observer_flags o =? 0) && negb (is_null (observer_observe o)) &&
    bytes_zero (observer_reserved o)
  end.

Definition ribon_update_transaction_observe {O}
    (observer : option (RibonUpdateTransactionObserver O))
    (operation boundary durable_state component_index journal_generation : Z)
  : option (RibonUpdateTransactionObserver O) * Z :=
  match observer with
  | None => (observer, 0)
  | Some o =>
    if negb (ribon_update_transaction_observer_is_valid observer) ||
       (operation <=? 0) || (operation >? RIBON_UPDATE_TRANSACTION_OPERATION_PAYLOAD_FLUSH) ||
       (boundary <=? 0) || (boundary >? RIBON_UPDATE_TRANSACTION_BOUNDARY_AFTER) ||
       (durable_state <? RIBON_UPDATE_SLOT_EMPTY) || (durable_state >? RIBON_UPDATE_SLOT_BAD) ||
       (observer_next_sequence o =? UINT32_MAX)
    then (observer, -1)
    else
      match observer_observe o with
      | None => (observer, -1)
      | Some observe =>
        let event :=
          mkEvent sizeof_RibonUpdateTransactionEvent RIBON_UPDATE_TRANSACTION_ABI_VERSION operation
            boundary durable_state component_index (observer_next_sequence o) 0 journal_generation
            [0; 0; 0; 0] in
        let '(context, status) := observe (observer_context o) event in
        (Some (mkObserver (observer_size o) (observer_abi_version o) (observer_flags o)
                 (u32 (observer_next_sequence o + 1)) context (observer_observe o)
                 (observer_reserved o)), status)
      end
  end.

(** ** The monad *)

Section Transaction.
Context {W O : Type}.

Abbreviation state := (W * option (RibonUpdateTransactionObserver O))%type.

Abbreviation tx := (M state RibonUpdateTransactionStatus).

(** ** The journal *)

Definition journal_region (layout : RibonUpdateLayout) : RibonUpdateLayoutRegion :=
  layout_region_of layout RIBON_UPDATE_REGION_UPDATE_JOURNAL.

Definition journal_is_valid (journal : option (RibonUpdateTransactionJournal W)) : bool :=
  match journal with
  | None => false
  | Some j =>
    if (journal_size j !=? sizeof_RibonUpdateTransactionJournal) ||
       (journal_abi_version j !=? RIBON_UPDATE_TRANSACTION_ABI_VERSION) ||
       (journal_flags j !=? 0) || (journal_reserved0 j !=? 0)
    then false
    else
      match journal_provider j, journal_layout j with
      | Some p, Some l =>
        if (journal_minimum_generation j =? 0) || (journal_deadline_ticks j =? 0) ||
           negb (bytes_zero (journal_reserved j)) ||
           negb (ribon_update_storage_provider_is_valid (Some p))
        then false
        else
          match fst (ribon_update_layout_identity_encode (Some l)) with
          | RIBON_UPDATE_STORAGE_STATUS_OK =>
            let region := journal_region l in
            (layout_media_capacity_bytes l =? provider_capacity_bytes p) &&
            (region_kind region =? RIBON_UPDATE_REGION_UPDATE_JOURNAL) &&
            (region_length region >=? RIBON_UPDATE_TRANSACTION_MINIMUM_JOURNAL_BYTES) &&
            match add_u64 (region_offset region) (region_length region) with
            | None => false
            | Some last =>
              (last <=? provider_capacity_bytes p) &&
              (Z.land (region_offset region) (provider_read_alignment p - 1) =? 0) &&
              (Z.land (region_offset region) (provider_write_alignment p - 1) =? 0) &&
              (Z.land RIBON_UPDATE_TRANSACTION_RECORD_BYTES (provider_read_alignment p - 1) =? 0) &&
              (Z.land RIBON_UPDATE_TRANSACTION_RECORD_BYTES (provider_write_alignment p - 1) =? 0) &&
              (Z.land RIBON_UPDATE_TRANSACTION_SELECTOR_BYTES (provider_read_alignment p - 1) =? 0) &&
              (Z.land RIBON_UPDATE_TRANSACTION_SELECTOR_BYTES (provider_write_alignment p - 1) =? 0) &&
              (provider_maximum_transfer_bytes p >=? RIBON_UPDATE_TRANSACTION_RECORD_BYTES)
            end
          | _ => false
          end
      | _, _ => false
      end
  end.

(** The functions below run on a journal that passed the check; a NULL provider
    or layout is not reached. *)

Definition record_offset (journal : RibonUpdateTransactionJournal W) (slot : Z) : Z :=
  match journal_layout journal with
  | None => 0
  | Some l => u64 (region_offset (journal_region l) + slot * RIBON_UPDATE_TRANSACTION_RECORD_BYTES)
  end.

Definition selector_offset (journal : RibonUpdateTransactionJournal W) (slot : Z) : Z :=
  match journal_layout journal with
  | None => 0
  | Some l =>
    u64 (region_offset (journal_region l) +
         RIBON_UPDATE_TRANSACTION_RECORD_SLOTS * RIBON_UPDATE_TRANSACTION_RECORD_BYTES +
         slot * RIBON_UPDATE_TRANSACTION_SELECTOR_BYTES)
  end.

Definition provider_read_exact (journal : RibonUpdateTransactionJournal W) (offset size : Z)
  : tx bytes := fun s =>
  match journal_provider journal with
  | None => (s, inl RIBON_UPDATE_TRANSACTION_STATUS_IO)
  | Some p =>
    let '(w, (status, b, transferred)) :=
      call_read p s.1 offset (zeros size) (journal_deadline_ticks journal) in
    ((w, s.2),
     if status !=? 0 then inl RIBON_UPDATE_TRANSACTION_STATUS_IO
     else if transferred =? size then inr b
     else inl RIBON_UPDATE_TRANSACTION_STATUS_SHORT_IO)
  end.

Definition provider_write_exact (journal : RibonUpdateTransactionJournal W) (offset : Z) (b : bytes)
  : tx unit := fun s =>
  match journal_provider journal with
  | None => (s, inl RIBON_UPDATE_TRANSACTION_STATUS_IO)
  | Some p =>
    let '(w, (status, transferred)) := call_write p s.1 offset b (journal_deadline_ticks journal) in
    ((w, s.2),
     if status !=? 0 then inl RIBON_UPDATE_TRANSACTION_STATUS_IO
     else if transferred =? len b then inr tt
     else inl RIBON_UPDATE_TRANSACTION_STATUS_SHORT_IO)
  end.

Definition provider_flush (journal : RibonUpdateTransactionJournal W) : tx unit := fun s =>
  match journal_provider journal with
  | None => (s, inl RIBON_UPDATE_TRANSACTION_STATUS_IO)
  | Some p =>
    let '(w, status) := call_flush p s.1 (journal_deadline_ticks journal) in
    ((w, s.2), if status =? 0 then inr tt else inl RIBON_UPDATE_TRANSACTION_STATUS_IO)
  end.

(** [OBSERVE(operation, boundary)] of [commit_record] *)
Definition OBSERVE (state generation operation boundary : Z) : tx unit := fun s =>
  let '(o, status) :=
    ribon_update_transaction_observe s.2 operation boundary state NO_COMPONENT generation in
  ((s.1, o), if status =? 0 then inr tt else inl RIBON_UPDATE_TRANSACTION_STATUS_INTERRUPTED).

(** ** Open *)

(** Which selector [open] follows, from the bytes of both. *)
Definition select_selector (minimum_generation : Z) (bytes0 bytes1 : bytes)
  : RibonUpdateTransactionStatus + Z * TransactionSelectorView :=
  let choose selected selector :=
    if selector_generation selector <? minimum_generation
    then inl RIBON_UPDATE_TRANSACTION_STATUS_REPLAY
    else inr (selected, selector) in
  match selector_decode bytes0, selector_decode bytes1 with
  | None, None =>
    inl (if bytes_zero (bytes0 ++ bytes1) then RIBON_UPDATE_TRANSACTION_STATUS_UNINITIALIZED
         else RIBON_UPDATE_TRANSACTION_STATUS_CORRUPT)
  | None, Some selector1 => choose 1 selector1
  | Some selector0, None => choose 0 selector0
  | Some selector0, Some selector1 =>
    if selector_generation selector0 =? selector_generation selector1
    then inl RIBON_UPDATE_TRANSACTION_STATUS_CONFLICT
    else if selector_generation selector1 >? selector_generation selector0
    then choose 1 selector1
    else choose 0 selector0
  end.

(** The record the selector names, checked against it. *)
Definition check_record (selected : Z) (selector : TransactionSelectorView) (record_bytes : bytes)
  : RibonUpdateTransactionStatus + RibonUpdateTransactionSnapshot :=
  match record_decode record_bytes with
  | None => inl RIBON_UPDATE_TRANSACTION_STATUS_CORRUPT
  | Some record =>
    if (record_generation record !=? selector_generation selector) ||
       (record_predecessor_generation record !=? selector_predecessor_generation selector) ||
       negb (bytes_equal (record_record_digest record) (selector_record_digest selector)) ||
       negb (bytes_equal (record_predecessor_digest record) (selector_predecessor_digest selector))
    then inl RIBON_UPDATE_TRANSACTION_STATUS_CORRUPT
    else
      inr (mkSnapshot sizeof_RibonUpdateTransactionSnapshot RIBON_UPDATE_TRANSACTION_ABI_VERSION
             (selector_record_slot selector) selected (record_target_slot record)
             (record_target_state record) (record_generation record)
             (record_predecessor_generation record) (record_record_digest record)
             (record_predecessor_digest record) (record_metadata record) [0; 0; 0; 0])
  end.

Definition ribon_update_transaction_open (journal : option (RibonUpdateTransactionJournal W))
  : tx RibonUpdateTransactionSnapshot :=
  match journal with
  | None => leave RIBON_UPDATE_TRANSACTION_STATUS_INVALID_ARGUMENT
  | Some j =>
    leave_if (negb (journal_is_valid journal)) RIBON_UPDATE_TRANSACTION_STATUS_INVALID_ARGUMENT;;
    bytes0 ← provider_read_exact j (selector_offset j 0) RIBON_UPDATE_TRANSACTION_SELECTOR_BYTES;
    bytes1 ← provider_read_exact j (selector_offset j 1) RIBON_UPDATE_TRANSACTION_SELECTOR_BYTES;
    selection ← lift (select_selector (journal_minimum_generation j) bytes0 bytes1);
    record_bytes ← provider_read_exact j (record_offset j (selector_record_slot selection.2))
                     RIBON_UPDATE_TRANSACTION_RECORD_BYTES;
    lift (check_record selection.1 selection.2 record_bytes)
  end.

(** ** Commit *)

(** What the commit writes, and where: record slot, selector slot, generation,
    record and selector; or the status of a refused commit. *)
Definition commit_plan (current : option RibonUpdateTransactionSnapshot)
    (metadata : RibonUpdateSlotMetadata) (target_slot : Z)
  : RibonUpdateTransactionStatus + Z * Z * Z * bytes * bytes :=
  let encode generation predecessor_generation predecessor_digest record_slot selector_slot :=
    match record_encode metadata target_slot generation predecessor_generation predecessor_digest with
    | None => inl RIBON_UPDATE_TRANSACTION_STATUS_STATE
    | Some record =>
      match selector_encode record_slot generation predecessor_generation
              (slice RECORD_DIGEST_OFFSET 32 record) predecessor_digest with
      | None => inl RIBON_UPDATE_TRANSACTION_STATUS_STATE
      | Some selector => inr (record_slot, selector_slot, generation, record, selector)
      end
    end in
  match current with
  | Some c =>
    if (snapshot_journal_generation c =? UINT64_MAX) ||
       (metadata_generation metadata !=? u64 (snapshot_journal_generation c + 1))
    then inl RIBON_UPDATE_TRANSACTION_STATUS_OVERFLOW
    else
      encode (u64 (snapshot_journal_generation c + 1)) (snapshot_journal_generation c)
        (snapshot_record_digest c) (u32 (1 - snapshot_selected_record_slot c))
        (u32 (1 - snapshot_selected_selector_slot c))
  | None =>
    if metadata_generation metadata !=? 1 then inl RIBON_UPDATE_TRANSACTION_STATUS_STATE
    else encode 1 0 (zeros 32) 0 0
  end.

Definition commit_record (journal : RibonUpdateTransactionJournal W)
    (current : option RibonUpdateTransactionSnapshot) (metadata : RibonUpdateSlotMetadata)
    (target_slot : Z) : tx RibonUpdateTransactionSnapshot :=
  plan ← lift (commit_plan current metadata target_slot);
  let '(record_slot, selector_slot, generation, record, selector) := plan in
  let state := entry_state (slot_at metadata target_slot) in
  let before operation := OBSERVE state generation operation RIBON_UPDATE_TRANSACTION_BOUNDARY_BEFORE in
  let after operation := OBSERVE state generation operation RIBON_UPDATE_TRANSACTION_BOUNDARY_AFTER in
  before RIBON_UPDATE_TRANSACTION_OPERATION_JOURNAL_RECORD_WRITE;;
  provider_write_exact journal (record_offset journal record_slot) record;;
  after RIBON_UPDATE_TRANSACTION_OPERATION_JOURNAL_RECORD_WRITE;;
  before RIBON_UPDATE_TRANSACTION_OPERATION_JOURNAL_RECORD_FLUSH;;
  provider_flush journal;;
  after RIBON_UPDATE_TRANSACTION_OPERATION_JOURNAL_RECORD_FLUSH;;
  before RIBON_UPDATE_TRANSACTION_OPERATION_JOURNAL_RECORD_READBACK;;
  readback ← provider_read_exact journal (record_offset journal record_slot)
               RIBON_UPDATE_TRANSACTION_RECORD_BYTES;
  leave_if (negb (bytes_equal record readback)) RIBON_UPDATE_TRANSACTION_STATUS_CORRUPT;;
  after RIBON_UPDATE_TRANSACTION_OPERATION_JOURNAL_RECORD_READBACK;;
  before RIBON_UPDATE_TRANSACTION_OPERATION_JOURNAL_SELECTOR_WRITE;;
  provider_write_exact journal (selector_offset journal selector_slot) selector;;
  after RIBON_UPDATE_TRANSACTION_OPERATION_JOURNAL_SELECTOR_WRITE;;
  before RIBON_UPDATE_TRANSACTION_OPERATION_JOURNAL_SELECTOR_FLUSH;;
  provider_flush journal;;
  after RIBON_UPDATE_TRANSACTION_OPERATION_JOURNAL_SELECTOR_FLUSH;;
  before RIBON_UPDATE_TRANSACTION_OPERATION_JOURNAL_REOPEN;;
  snapshot ← ribon_update_transaction_open (Some journal);
  leave_if ((snapshot_journal_generation snapshot !=? generation) ||
            (snapshot_target_slot snapshot !=? target_slot) ||
            (snapshot_target_state snapshot !=? state) ||
            negb (bytes_equal (snapshot_record_digest snapshot) (slice RECORD_DIGEST_OFFSET 32 record)))
    RIBON_UPDATE_TRANSACTION_STATUS_CORRUPT;;
  after RIBON_UPDATE_TRANSACTION_OPERATION_JOURNAL_REOPEN;;
  mret snapshot.

(** An optional observer is checked only when there is one. *)
Definition observer_is_refused (observer : option (RibonUpdateTransactionObserver O)) : bool :=
  negb (is_null observer) && negb (ribon_update_transaction_observer_is_valid observer).

Definition ribon_update_transaction_initialize (journal : option (RibonUpdateTransactionJournal W))
    (initial_metadata : option RibonUpdateSlotMetadata) : tx RibonUpdateTransactionSnapshot := fun s =>
  match journal, initial_metadata with
  | Some j, Some m =>
    if negb (journal_is_valid journal) ||
       (metadata_active_slot m >=? RIBON_UPDATE_SLOT_COUNT) ||
       (metadata_pending_slot m !=? RIBON_UPDATE_SLOT_NONE) ||
       (metadata_generation m !=? 1) || observer_is_refused s.2
    then leave RIBON_UPDATE_TRANSACTION_STATUS_INVALID_ARGUMENT s
    else
      match ribon_update_transaction_open journal s with
      | (s', inr existing) => (s', inl RIBON_UPDATE_TRANSACTION_STATUS_STATE)
      | (s', inl RIBON_UPDATE_TRANSACTION_STATUS_UNINITIALIZED) =>
        commit_record j None m (metadata_active_slot m) s'
      | (s', inl status) => (s', inl status)
      end
  | _, _ => leave RIBON_UPDATE_TRANSACTION_STATUS_INVALID_ARGUMENT s
  end.

(** ** Transitions of the selected slot *)

(** A request that keeps the entry's identity. *)
Definition entry_transition (entry : RibonUpdateSlotEntry) (target_slot next_state attempts : Z)
  : RibonUpdateSlotTransition :=
  mkTransition sizeof_RibonUpdateSlotTransition RIBON_UPDATE_STORAGE_ABI_VERSION 0 target_slot
    next_state attempts (entry_image_generation entry) (entry_manifest_digest entry)
    (entry_image_set_digest entry) (entry_layout_digest entry) [0; 0; 0; 0].

Definition transition_pending (verified : RibonUpdateTransactionSnapshot) (target_slot attempts : Z)
  : option RibonUpdateSlotMetadata :=
  let entry := slot_at (snapshot_metadata verified) target_slot in
  match ribon_update_slot_metadata_transition (Some (snapshot_metadata verified))
          (Some (entry_transition entry target_slot RIBON_UPDATE_SLOT_PENDING attempts)) with
  | (RIBON_UPDATE_STORAGE_STATUS_OK, pending) => Some pending
  | _ => None
  end.

(** The confirmation of a request that passed the argument check. *)
Definition confirm_checked (r : RibonUpdateConfirmPendingRequest W O)
    (j : RibonUpdateTransactionJournal W) : tx RibonUpdateConfirmPendingResult :=
  current ← ribon_update_transaction_open (Some j);
  let metadata := snapshot_metadata current in
  let target := confirm_target_slot r in
  let entry := slot_at metadata target in
  let result duplicate snapshot :=
    mkConfirmResult sizeof_RibonUpdateConfirmPendingResult RIBON_UPDATE_TRANSACTION_ABI_VERSION
      duplicate 0 snapshot [0; 0; 0; 0] in
  if (metadata_active_slot metadata =? target) &&
     (metadata_pending_slot metadata =? RIBON_UPDATE_SLOT_NONE) &&
     (entry_state entry =? RIBON_UPDATE_SLOT_CONFIRMED) &&
     (entry_image_generation entry =? confirm_image_generation r) &&
     bytes_equal (entry_manifest_digest entry) (confirm_manifest_digest r)
  then mret (result 1 current)
  else if (snapshot_target_slot current !=? target) ||
          (snapshot_target_state current !=? RIBON_UPDATE_SLOT_PENDING) ||
          (metadata_pending_slot metadata !=? target) ||
          (entry_state entry !=? RIBON_UPDATE_SLOT_PENDING) ||
          (entry_image_generation entry !=? confirm_image_generation r) ||
          negb (bytes_equal (entry_manifest_digest entry) (confirm_manifest_digest r))
  then leave RIBON_UPDATE_TRANSACTION_STATUS_IDENTITY
  else
    match ribon_update_slot_metadata_transition (Some metadata)
            (Some (entry_transition entry target RIBON_UPDATE_SLOT_CONFIRMED 0)) with
    | (RIBON_UPDATE_STORAGE_STATUS_OK, next) =>
      confirmed ← commit_record j (Some current) next target;
      mret (result 0 confirmed)
    | _ => leave RIBON_UPDATE_TRANSACTION_STATUS_STATE
    end.

Definition ribon_update_transaction_confirm_pending
    (request : option (RibonUpdateConfirmPendingRequest W O)) (w : W)
  : state * (RibonUpdateTransactionStatus + RibonUpdateConfirmPendingResult) :=
  match request with
  | None => ((w, None), inl RIBON_UPDATE_TRANSACTION_STATUS_INVALID_ARGUMENT)
  | Some r =>
    let s := (w, confirm_observer r) in
    match confirm_journal r with
    | None => leave RIBON_UPDATE_TRANSACTION_STATUS_INVALID_ARGUMENT s
    | Some j =>
      if (confirm_size r !=? sizeof_RibonUpdateConfirmPendingRequest) ||
         (confirm_abi_version r !=? RIBON_UPDATE_TRANSACTION_ABI_VERSION) ||
         (confirm_flags r !=? 0) ||
         (confirm_target_slot r >=? RIBON_UPDATE_SLOT_COUNT) ||
         (confirm_image_generation r =? 0) || bytes_zero (confirm_manifest_digest r) ||
         negb (bytes_zero (confirm_reserved r)) ||
         observer_is_refused (confirm_observer r)
      then leave RIBON_UPDATE_TRANSACTION_STATUS_INVALID_ARGUMENT s
      else confirm_checked r j s
    end
  end.
End Transaction.
