(* ===== verification/TransactionLogic.v ===== *)
(** * Reasoning about journal operations

    The media bytes a journal operation can leave behind, what [open] makes of
    them ([open_bytes]), and a small program logic for [tx]: [otriple] follows an
    operation through the provider's contract, so that a commit is verified one
    call at a time.  The theorems about the operations are in TransactionCrash. *)

From S2P Require Import Prelude.
From S2P Require Import Effects.
From S2P Require Import Buffer.
From S2P Require Import Wire.
From S2P Require Import Provider.
From S2P Require Import Layout.
From S2P Require Import SlotMetadata.
From S2P Require Import Session.
From S2P Require Import TransactionWire.
From S2P Require Import Transaction.

(** The journal's pointers are set, the code's check accepts it, and the layout
    has its C types. *)
Record journal_ready {W} (j : RibonUpdateTransactionJournal W)
    (p : RibonUpdateStorageProvider W) (l : RibonUpdateLayout) : Prop := {
  ready_provider : journal_provider j = Some p;
  ready_layout : journal_layout j = Some l;
  ready_valid : journal_is_valid (Some j) = true;
  ready_typed : layout_typed l;
}.

(** What [open] returns when the media holds [d]. *)
Definition open_bytes {W} (j : RibonUpdateTransactionJournal W) (d : bytes)
  : RibonUpdateTransactionStatus + RibonUpdateTransactionSnapshot :=
  match select_selector (journal_minimum_generation j)
          (slice (selector_offset j 0) 512 d) (slice (selector_offset j 1) 512 d) with
  | inl status => inl status
  | inr (selected, selector) =>
    check_record selected selector (slice (record_offset j (selector_record_slot selector)) 1024 d)
  end.

(** The bytes the media may hold: what reads see now, or what a power cut leaves. *)
Definition media_state {W} (p : RibonUpdateStorageProvider W) `{!StorageContract p} (w : W) (d : bytes)
  : Prop := d = content w \/ crash w d.

(** ** Where the journal's four objects are *)

Section Geometry.
Context {W : Type} (j : RibonUpdateTransactionJournal W).
Context (p : RibonUpdateStorageProvider W) (l : RibonUpdateLayout) (Hj : journal_ready j p l).

Definition journal_base : Z := region_offset (journal_region l).

Lemma journal_geometry :
  0 <= journal_base /\ journal_base + 3072 <= provider_capacity_bytes p /\
  provider_capacity_bytes p <= UINT64_MAX.
Proof.
  destruct Hj as [Hp Hl Hv Ht]. unfold journal_is_valid in Hv. rewrite Hp, Hl in Hv.
  destruct (_ || _) in Hv; [done|]. destruct (_ || _) in Hv; [done|].
  destruct (fst _) in Hv; try done. bool_to_prop.
  destruct (add_u64 _ _) as [last|] eqn:Ha in *; [|done]. apply add_u64_some in Ha as [-> _]. bool_to_prop.
  pose proof (typed_capacity l Ht) as Hc. rewrite word64 in Hc.
  assert (Hr : word 64 (region_offset (journal_region l))).
  { unfold journal_region, layout_region_of. pose proof (typed_regions l Ht) as Hf.
    rewrite List.Forall_forall in Hf. apply Hf, nth_In. rewrite (typed_regions_length l Ht).
    unfold RIBON_UPDATE_REGION_UPDATE_JOURNAL. lia. }
  rewrite word64 in Hr. unfold journal_base, RIBON_UPDATE_TRANSACTION_MINIMUM_JOURNAL_BYTES in *. lia.
Qed.

Lemma record_offset_eq k : 0 <= k < 2 -> record_offset j k = journal_base + 1024 * k.
Proof.
  intros Hk. pose proof journal_geometry. unfold record_offset. rewrite (ready_layout _ _ _ Hj).
  fold journal_base. unfold RIBON_UPDATE_TRANSACTION_RECORD_BYTES.
  rewrite wrap_small; [lia|]. apply word64. lia.
Qed.

Lemma selector_offset_eq k : 0 <= k < 2 -> selector_offset j k = journal_base + 2048 + 512 * k.
Proof.
  intros Hk. pose proof journal_geometry. unfold selector_offset. rewrite (ready_layout _ _ _ Hj).
  fold journal_base.
  unfold RIBON_UPDATE_TRANSACTION_RECORD_SLOTS, RIBON_UPDATE_TRANSACTION_RECORD_BYTES,
    RIBON_UPDATE_TRANSACTION_SELECTOR_BYTES.
  rewrite wrap_small; [lia|]. apply word64. lia.
Qed.
End Geometry.

(** The selector [open] follows is the valid one of the highest generation. *)
Lemma select_selector_spec minimum b0 b1 s v :
  select_selector minimum b0 b1 = inr (s, v) <->
  (s = 0 \/ s = 1) /\ selector_decode (if s =? 0 then b0 else b1) = Some v /\
  minimum <= selector_generation v /\
  (forall u, selector_decode (if s =? 0 then b1 else b0) = Some u ->
     selector_generation u < selector_generation v).
Proof.
  unfold select_selector. split.
  - destruct (selector_decode b0) as [v0|] eqn:E0, (selector_decode b1) as [v1|] eqn:E1; [..|done].
    + destruct (Z.eqb_spec (selector_generation v0) (selector_generation v1)); [done|].
      destruct (Z.ltb_spec (selector_generation v0) (selector_generation v1));
        case_match eqn:Hmin; try done; bool_to_prop; injection 1 as <- <-; simpl;
        split_and!; auto; try lia; rewrite ?E0, ?E1; intros u [= <-]; lia.
    + case_match eqn:Hmin; [done|]. bool_to_prop. injection 1 as <- <-. simpl.
      split_and!; auto; try lia. rewrite E1. done.
    + case_match eqn:Hmin; [done|]. bool_to_prop. injection 1 as <- <-. simpl.
      split_and!; auto; try lia. rewrite E0. done.
  - intros (Hs & Hd & Hmin & Hlt). destruct Hs as [-> | ->]; cbn [Z.eqb] in Hd, Hlt; rewrite Hd.
    + destruct (selector_decode b1) as [u|]; [specialize (Hlt u eq_refl)|];
        rewrite ?(proj2 (Z.eqb_neq _ _)), ?(proj2 (Z.ltb_ge _ _)) by lia; done.
    + destruct (selector_decode b0) as [u|]; [specialize (Hlt u eq_refl)|];
        rewrite ?(proj2 (Z.eqb_neq _ _)) by lia; rewrite ?(proj2 (Z.ltb_lt _ _)) by lia;
        rewrite ?(proj2 (Z.ltb_ge _ _)) by lia; done.
Qed.

(** ** A program logic for [tx] *)

Section Logic.
Context {W O : Type} (p : RibonUpdateStorageProvider W) `{!StorageContract p}.
Context (j : RibonUpdateTransactionJournal W) (l : RibonUpdateLayout) (Hj : journal_ready j p l).

#[local] Abbreviation tx := (M (W * option (RibonUpdateTransactionObserver O)) RibonUpdateTransactionStatus).

(** From a world in [P] the operation ends in [Q] with its result, or in [E] with
    its status; [E] is told whether there is an observer to blame. *)
Definition otriple {A} (P : W -> Prop) (m : tx A) (Q : A -> W -> Prop)
    (E : bool -> RibonUpdateTransactionStatus -> W -> Prop) : Prop :=
  forall w (o : option (RibonUpdateTransactionObserver O)), P w ->
  match m (w, o) with
  | ((w', o'), r) => is_null o' = is_null o /\
    match r with inr a => Q a w' | inl status => E (is_null o) status w' end
  end.

Lemma otriple_bind {A B} P (m : tx A) (f : A -> tx B) Q R E :
  otriple P m Q E -> (forall a, otriple (Q a) (f a) R E) -> otriple P (m ≫= f) R E.
Proof.
  intros Hm Hf w o HP. specialize (Hm w o HP). unfold mbind, M_bind.
  destruct (m (w, o)) as [[w1 o1] [st|a]]; destruct Hm as [Ho Hm]; [done|].
  specialize (Hf a w1 o1 Hm). destruct (f a (w1, o1)) as [[w2 o2] [st|b]];
    destruct Hf as [Ho' Hf]; rewrite <- ?Ho; (split; [congruence|done]).
Qed.

Lemma otriple_ret {A} P (a : A) Q E : (forall w, P w -> Q a w) -> otriple P (mret a) Q E.
Proof. intros H w o HP. split; auto. Qed.

Lemma otriple_lift {A} P (r : RibonUpdateTransactionStatus + A) Q E :
  (forall w, P w -> match r with inr a => Q a w | inl st => forall b, E b st w end) ->
  otriple P (lift r) Q E.
Proof. intros H w o HP. specialize (H w HP). split; [done|]. destruct r; auto. Qed.

Lemma otriple_leave_if (P Q : W -> Prop) (c : bool) st E :
  (forall w, P w -> c = false /\ Q w) -> otriple P (leave_if c st) (fun _ => Q) E.
Proof. intros H w o HP. destruct (H w HP) as [-> HQ]. by split. Qed.

Lemma otriple_assume {A} (P : W -> Prop) (R : Prop) (Q : W -> Prop) (m : tx A) S E :
  (R -> otriple (fun w => P w /\ Q w) m S E) -> otriple (fun w => P w /\ R /\ Q w) m S E.
Proof. intros H w o (HP & HR & HQ). apply (H HR w o). by split. Qed.

Lemma otriple_pure {A} (R : Prop) (P : W -> Prop) (m : tx A) S E :
  (R -> otriple P m S E) -> otriple (fun w => R /\ P w) m S E.
Proof. intros H w o [HR HP]. by apply (H HR w o). Qed.

(** An observer sees no storage; it can only stop the operation. *)
Lemma otriple_observe P state generation operation boundary E :
  (forall w, P w -> E false RIBON_UPDATE_TRANSACTION_STATUS_INTERRUPTED w) ->
  otriple P (OBSERVE state generation operation boundary) (fun _ => P) E.
Proof.
  intros HE w o HP. unfold OBSERVE, ribon_update_transaction_observe. simpl.
  destruct o as [o|]; [|by split]. destruct (_ || _); [by split; [|apply HE]|].
  destruct (observer_observe o) as [f|]; [|by split; [|apply HE]].
  destruct (f _ _) as [c st]. split; [done|]. destruct (st =? 0); auto.
Qed.

(** Reading changes neither the media nor what a power cut can leave. *)
Definition steady (P : W -> Prop) : Prop :=
  forall w w', content w' = content w -> (forall d, crash w' d -> crash w d) -> P w -> P w'.

(** An I/O status is the provider's doing. *)
Definition io_error (status : RibonUpdateTransactionStatus) : Prop :=
  (status = RIBON_UPDATE_TRANSACTION_STATUS_IO \/ status = RIBON_UPDATE_TRANSACTION_STATUS_SHORT_IO) /\
  ~ reliable p.

Lemma otriple_read P offset size E :
  steady P -> 0 <= offset -> 0 <= size -> offset + size <= provider_capacity_bytes p ->
  (forall b st w, io_error st -> P w -> E b st w) ->
  otriple P (provider_read_exact j offset size) (fun b w => P w /\ b = slice offset size (content w)) E.
Proof.
  intros HP Ho Hn Hr HE w o Hw. unfold provider_read_exact. rewrite (ready_provider _ _ _ Hj). simpl.
  pose proof (len_zeros size Hn) as Hz.
  destruct (call_read p w offset (zeros size) _) as [w' [[st out] tr]] eqn:Hc.
  assert (Hfail : (st = 0 /\ tr = size) \/ ~ reliable p).
  { destruct (decide (st = 0 /\ tr = size)) as [|Hne]; [by left|]. right. intros [Hrel _ _].
    destruct (Hrel w offset (zeros size) (journal_deadline_ticks j)) as (w2 & out2 & E2); [lia..|].
    rewrite Hc in E2. injection E2 as <- -> <- ->. lia. }
  apply read_law in Hc as (Hcw & Hcr & Hout); [|lia..]. pose proof (HP w w' Hcw Hcr Hw) as HP'.
  split; [done|]. unfold io_error in HE.
  destruct (Z.eqb_spec st 0) as [->|]; simpl; [|apply HE; [split; [auto|lia || tauto]|done]].
  destruct (Z.eqb_spec tr size) as [->|]; [|apply HE; [split; [auto|tauto]|done]].
  rewrite Hcw, Hout, Hz by lia. auto.
Qed.

(** Every media a write can leave is an earlier one with the old bytes, the new
    ones or a torn mixture at the offset. *)
Lemma otriple_write P Q offset b E :
  0 <= offset -> offset + len b <= provider_capacity_bytes p -> octets b ->
  (forall w w', P w ->
     (forall d, media_state p w' d -> exists d0 r, media_state p w d0 /\ d = store d0 offset r /\
        (r = slice offset (len b) d0 \/ r = b \/ tears (slice offset (len b) d0) b r)) ->
     (content w' = store (content w) offset b -> Q w') /\
     (forall x st, io_error st -> E x st w')) ->
  otriple P (provider_write_exact j offset b) (fun _ => Q) E.
Proof.
  intros Ho Hr Hb H w o Hw. unfold provider_write_exact. rewrite (ready_provider _ _ _ Hj). simpl.
  destruct (call_write p w offset b _) as [w' [st tr]] eqn:Hc.
  assert (Hfail : (st = 0 /\ tr = len b) \/ ~ reliable p).
  { destruct (decide (st = 0 /\ tr = len b)) as [|Hne]; [by left|]. right. intros [_ Hrel _].
    destruct (Hrel w offset b (journal_deadline_ticks j)) as (w2 & E2); [lia..|done|].
    rewrite Hc in E2. injection E2 as <- -> ->. lia. }
  apply write_law in Hc as (Hok & (r & Hcw & Hr') & Hcr); [|done..].
  destruct (H w w' Hw) as [HQ HE].
  { intros d [-> | Hd]; [exists (content w), r; split_and!; [by left|done|tauto]|].
    destruct (Hcr d Hd) as (d0 & r0 & ? & ? & ?). exists d0, r0. split_and!; [by right|done..]. }
  split; [done|]. unfold io_error in HE.
  destruct (Z.eqb_spec st 0) as [->|]; simpl; [|apply HE; split; [auto|lia || tauto]].
  destruct (Z.eqb_spec tr (len b)) as [->|]; [auto|apply HE; split; [auto|tauto]].
Qed.

(** A flush adds no media; one that succeeds leaves what reads see. *)
Lemma otriple_flush P Q E :
  (forall w w', P w -> content w' = content w -> (forall d, media_state p w' d -> media_state p w d) ->
     ((forall d, media_state p w' d -> d = content w) -> Q w') /\ (forall x st, io_error st -> E x st w')) ->
  otriple P (provider_flush j) (fun _ => Q) E.
Proof.
  intros H w o Hw. unfold provider_flush. rewrite (ready_provider _ _ _ Hj). simpl.
  destruct (call_flush p w _) as [w' st] eqn:Hc.
  assert (Hfail : st = 0 \/ ~ reliable p).
  { destruct (decide (st = 0)) as [|Hne]; [by left|]. right. intros [_ _ Hrel].
    destruct (Hrel w (journal_deadline_ticks j)) as (w2 & E2).
    rewrite Hc in E2. injection E2 as <- ->. lia. }
  apply flush_law in Hc as (Hcw & Hcr & Hok). destruct (H w w' Hw Hcw) as [HQ HE].
  { intros d [-> | Hd]; [by left|]. destruct (Hcr d Hd) as [|]; [by right|by left]. }
  split; [done|]. destruct (Z.eqb_spec st 0) as [->|].
  - apply HQ. intros d [-> | Hd]; auto.
  - apply HE. split; [auto|tauto].
Qed.

(** [open] is [open_bytes] of what reads see, unless the provider fails. *)
Lemma otriple_open P E :
  steady P -> (forall b st w, io_error st -> P w -> E b st w) ->
  (forall b st w, P w -> open_bytes j (content w) = inl st -> E b st w) ->
  otriple P (ribon_update_transaction_open (Some j))
    (fun c w => P w /\ open_bytes j (content w) = inr c) E.
Proof.
  intros HP Hio HE. pose proof (journal_geometry j p l Hj) as Hg.
  pose proof (selector_offset_eq j p l Hj 0 ltac:(lia)) as H0.
  pose proof (selector_offset_eq j p l Hj 1 ltac:(lia)) as H1.
  unfold ribon_update_transaction_open.
  unfold RIBON_UPDATE_TRANSACTION_SELECTOR_BYTES, RIBON_UPDATE_TRANSACTION_RECORD_BYTES.
  eapply otriple_bind; [apply (otriple_leave_if P P); rewrite (ready_valid _ _ _ Hj); done|cbn beta; intros []].
  eapply otriple_bind; [apply otriple_read; auto; lia|intros b0].
  eapply otriple_bind; [apply otriple_read; try lia|intros b1].
  { intros w w' Hc Hcr [Hw ->]. rewrite Hc. split; [by eapply HP|done]. }
  { intros b st w Hst [Hw _]. auto. }
  eapply (otriple_bind _ _ _ (fun a w => P w /\ 0 <= selector_record_slot a.2 < 2 /\
    select_selector (journal_minimum_generation j) (slice (selector_offset j 0) 512 (content w))
      (slice (selector_offset j 1) 512 (content w)) = inr a)).
  { apply otriple_lift. intros w [[Hw ->] ->].
    destruct (select_selector _ _ _) as [st|[s v]] eqn:Hs.
    - intros b. apply HE; [done|]. unfold open_bytes. by rewrite Hs.
    - split_and!; [done|..|done]; apply select_selector_spec in Hs as (_ & Hs & _);
        apply selector_decode_typed in Hs; try (destruct (s =? 0); apply octets_slice, octets_content);
        try (destruct (s =? 0); apply len_slice; rewrite ?len_content; lia); simpl; lia. }
  intros [s v]. cbn [fst snd].
  apply otriple_assume. intros Hslot. pose proof (record_offset_eq j p l Hj _ Hslot) as Hr.
  eapply otriple_bind; [apply otriple_read; try lia|intros b].
  { intros w w' Hc Hcr [Hw Hsel]. rewrite Hc. split; [by eapply HP|done]. }
  { intros b st w Hst [Hw _]. auto. }
  apply otriple_lift. intros w [[Hw Hsel] ->].
  assert (Ho : open_bytes j (content w) =
    check_record s v (slice (record_offset j (selector_record_slot v)) 1024 (content w)))
    by (unfold open_bytes; by rewrite Hsel).
  destruct (check_record _ _ _); [intros b; by apply HE|done].
Qed.
End Logic.
