(* ===== verification/TransactionCrash.v ===== *)
(** * The journal survives power cuts ([src/update/transaction.c])

    A commit writes the new record beside the selected one, makes it durable,
    and only then replaces the older selector.  Whatever status it returns, and
    wherever a power cut falls, the media reopens to the snapshot it had or to
    the new one; a commit that returns OK is durable.  An observer may stop the
    commit at each of its twelve boundaries, so quantifying over the observer
    covers a stop at each of them.

    The media may keep any part of an unfinished record write.  Of an unfinished
    selector write the theorems need that [selector_decode] refuses what it
    leaves, unless it is the old or the new selector; a device that writes a
    512-byte selector atomically has that property. *)

From S2P Require Import Prelude.
From S2P Require Import Effects.
From S2P Require Import Buffer.
From S2P Require Import Wire.
From S2P Require Import Sha256.
From S2P Require Import Seal.
From S2P Require Import Provider.
From S2P Require Import Layout.
From S2P Require Import SlotMetadata.
From S2P Require Import SlotLifecycle.
From S2P Require Import MemoryProvider.
From S2P Require Import Session.
From S2P Require Import TransactionWire.
From S2P Require Import Transaction.
From S2P Require Import TransactionLogic.

#[local] Opaque record_wire selector_wire record_digest metadata_digest.

(** A torn selector is never mistaken for a third one. *)
Definition torn_selectors_rejected {W} (p : RibonUpdateStorageProvider W) `{!StorageContract p} : Prop :=
  forall old new r, len new = 512 -> tears old new r ->
    r = old \/ r = new \/ selector_decode r = None.

(** ** What a commit installs *)

(** Generation, digest and the two free slots a commit starts from. *)
Definition previous (current : option RibonUpdateTransactionSnapshot) : Z * bytes * Z * Z :=
  match current with
  | Some c => (snapshot_journal_generation c, snapshot_record_digest c,
               1 - snapshot_selected_record_slot c, 1 - snapshot_selected_selector_slot c)
  | None => (0, zeros 32, 0, 0)
  end.

(** The snapshot after the commit. *)
Definition committed (current : option RibonUpdateTransactionSnapshot) (m : RibonUpdateSlotMetadata)
    (target : Z) : RibonUpdateTransactionSnapshot :=
  let '(generation, digest, record_slot, selector_slot) := previous current in
  mkSnapshot sizeof_RibonUpdateTransactionSnapshot RIBON_UPDATE_TRANSACTION_ABI_VERSION
    record_slot selector_slot target (entry_state (slot_at m target)) (generation + 1) generation
    (record_digest m target generation digest) digest
    (metadata_with_digest m (metadata_digest m)) [0; 0; 0; 0].

(** What [open] guarantees of the snapshot it returns. *)
Record snapshot_ok (c : RibonUpdateTransactionSnapshot) : Prop := {
  ok_record_slot : 0 <= snapshot_selected_record_slot c < 2;
  ok_selector_slot : 0 <= snapshot_selected_selector_slot c < 2;
  ok_generation : 0 < snapshot_journal_generation c <= UINT64_MAX;
  ok_digest : len (snapshot_record_digest c) = 32 /\ octets (snapshot_record_digest c);
  ok_metadata : metadata_typed (snapshot_metadata c) /\
    metadata_is_valid (Some (snapshot_metadata c)) = true;
  ok_metadata_generation : metadata_generation (snapshot_metadata c) = snapshot_journal_generation c;
}.

(** The inputs the codec needs, collected from the checks of [commit_plan]. *)
Record plan_ok (current : option RibonUpdateTransactionSnapshot) (m : RibonUpdateSlotMetadata)
    (target : Z) : Prop := {
  plan_previous : let '(g, d, rs, ss) := previous current in
    0 <= g < UINT64_MAX /\ (len d = 32 /\ octets d) /\ 0 <= rs < 2 /\ 0 <= ss < 2 /\
    metadata_generation m = g + 1 /\ bad_predecessor (g + 1) g d = false /\
    bytes_zero (record_digest m target g d) = false;
  plan_metadata : metadata_is_valid (Some m) = true;
  plan_target : 0 <= target < 2;
}.

Lemma record_encode_inv m target g pg d r :
  record_encode m target g pg d = Some r ->
  target < 2 /\ metadata_generation m = g /\ g <> 0 /\ metadata_is_valid (Some m) = true /\
  bad_predecessor g pg d = false.
Proof.
  unfold record_encode, RIBON_UPDATE_SLOT_COUNT. destruct (_ || _) eqn:G; [done|]. bool_to_prop.
  destruct (ribon_update_slot_metadata_encode (Some m)) as [st wire] eqn:He.
  unfold ribon_update_slot_metadata_encode in He.
  destruct (metadata_is_valid (Some m)); simpl in He; [|by injection He as <- <-].
  destruct st; try done. destruct (bad_predecessor g pg d); [done|]. auto.
Qed.

Lemma selector_encode_inv slot g pg d pd r : selector_encode slot g pg d pd = Some r -> bytes_zero d = false.
Proof. unfold selector_encode. destruct (bytes_zero d); [by rewrite orb_true_r|done]. Qed.

(** A plan that is not refused writes the canonical record and selector of the
    next generation to the slots that are not selected. *)
Lemma commit_plan_ok current m target rs ss g record selector :
  metadata_typed m -> 0 <= target -> match current with Some c => snapshot_ok c | None => True end ->
  commit_plan current m target = inr (rs, ss, g, record, selector) ->
  plan_ok current m target /\
  let '(pg, pd, rs', ss') := previous current in
  rs = rs' /\ ss = ss' /\ g = pg + 1 /\ record = record_wire m target pg pd /\
  selector = selector_wire rs g pg (record_digest m target pg pd) pd.
Proof.
  intros Hm Ht Hc Hp.
  assert (Hpre : exists pg pd rs' ss', previous current = (pg, pd, rs', ss') /\
    0 <= pg < UINT64_MAX /\ (len pd = 32 /\ octets pd) /\ 0 <= rs' < 2 /\ 0 <= ss' < 2 /\
    match record_encode m target (pg + 1) pg pd with
    | None => inl RIBON_UPDATE_TRANSACTION_STATUS_STATE
    | Some rec =>
      match selector_encode rs' (pg + 1) pg (slice 752 32 rec) pd with
      | None => inl RIBON_UPDATE_TRANSACTION_STATUS_STATE
      | Some sel => inr (rs', ss', pg + 1, rec, sel)
      end
    end = inr (rs, ss, g, record, selector)).
  { unfold commit_plan in Hp. destruct current as [c|].
    - destruct (_ || _) eqn:G in Hp; [done|]. bool_to_prop. destruct Hc as [Hr Hs Hg Hd _ _].
      assert (Hw : u64 (snapshot_journal_generation c + 1) = snapshot_journal_generation c + 1)
        by (apply wrap_small, word64; lia).
      rewrite Hw in Hp. rewrite !(wrap_small 32) in Hp by (apply word32; unfold UINT32_MAX; lia).
      eexists _, _, _, _. split; [reflexivity|]. split_and!; try lia; try apply Hd. exact Hp.
    - destruct (_ !=? _) in Hp; [done|]. eexists _, _, _, _. split; [reflexivity|].
      split_and!; try (unfold UINT64_MAX; lia); [done|apply octets_zeros|exact Hp]. }
  destruct Hpre as (pg & pd & rs' & ss' & Epre & Hpg & Hpd & Hrs & Hss & Hrun).
  destruct (record_encode m target (pg + 1) pg pd) as [rec|] eqn:Hrec; [|done].
  destruct (selector_encode _ _ _ _ pd) as [sel|] eqn:Hsel; [|done]. injection Hrun as <- <- <- <- <-.
  pose proof (record_encode_inv _ _ _ _ _ _ Hrec) as (Ht2 & Hgen & _ & Hv & Hlink).
  assert (Hpg64 : word 64 pg) by (apply word64; lia).
  rewrite <- Hgen in Hrec, Hlink.
  rewrite (record_encode_wire m target pg pd Hm Hv ltac:(lia) Hlink) in Hrec. apply Some_inj in Hrec as <-.
  assert (Hslice : slice 752 32 (record_wire m target pg pd) = record_digest m target pg pd)
    by apply (record_wire_slices m target pg pd Hm Hv ltac:(lia) Hpd).
  rewrite Hslice in Hsel. pose proof (selector_encode_inv _ _ _ _ _ _ Hsel) as Hz.
  rewrite selector_encode_wire in Hsel by (done || lia). apply Some_inj in Hsel as <-.
  rewrite Epre. split; [|auto]. split; [|done|lia]. rewrite Epre, <- Hgen. split_and!; try apply Hpd; try done; lia.
Qed.

(** ** How [open] reads the media *)

Section Media.
Context {W O : Type} (p : RibonUpdateStorageProvider W) `{!StorageContract p}.
Context (j : RibonUpdateTransactionJournal W) (l : RibonUpdateLayout) (Hj : journal_ready j p l).

Definition record_at (k : Z) (d : bytes) : bytes := slice (record_offset j k) 1024 d.
Definition selector_at (k : Z) (d : bytes) : bytes := slice (selector_offset j k) 512 d.

(** The bytes of a media of this provider. *)
Definition media_bytes (d : bytes) : Prop := len d = provider_capacity_bytes p /\ octets d.

Ltac geometry :=
  pose proof (journal_geometry j p l Hj);
  repeat rewrite (record_offset_eq j p l Hj) by lia;
  repeat rewrite (selector_offset_eq j p l Hj) by lia.

Lemma len_record_at k d : 0 <= k < 2 -> media_bytes d -> len (record_at k d) = 1024.
Proof. intros ? [? _]. unfold record_at. geometry. apply len_slice; lia. Qed.

Lemma len_selector_at k d : 0 <= k < 2 -> media_bytes d -> len (selector_at k d) = 512.
Proof. intros ? [? _]. unfold selector_at. geometry. apply len_slice; lia. Qed.

(** A record write changes that record only, a selector write that selector. *)
Lemma record_write k d r : 0 <= k < 2 -> media_bytes d -> len r = 1024 ->
  let d' := store d (record_offset j k) r in
  record_at k d' = r /\
  (forall i, 0 <= i < 2 -> i <> k -> record_at i d' = record_at i d) /\
  (forall i, 0 <= i < 2 -> selector_at i d' = selector_at i d).
Proof.
  intros Hk [Hd _] Hr. unfold record_at, selector_at. split_and!; intros; geometry.
  - apply slice_store_same; lia.
  - apply slice_store_outside; lia.
  - apply slice_store_outside; lia.
Qed.

Lemma selector_write k d r : 0 <= k < 2 -> media_bytes d -> len r = 512 ->
  let d' := store d (selector_offset j k) r in
  selector_at k d' = r /\
  (forall i, 0 <= i < 2 -> i <> k -> selector_at i d' = selector_at i d) /\
  (forall i, 0 <= i < 2 -> record_at i d' = record_at i d).
Proof.
  intros Hk [Hd _] Hr. unfold record_at, selector_at. split_and!; intros; geometry.
  - apply slice_store_same; lia.
  - apply slice_store_outside; lia.
  - apply slice_store_outside; lia.
Qed.

(** The journal holds [c]: its selector is valid and newest, and names its record. *)
Lemma open_bytes_inr d c : open_bytes j d = inr c <->
  exists s v, (s = 0 \/ s = 1) /\ selector_decode (selector_at s d) = Some v /\
    journal_minimum_generation j <= selector_generation v /\
    (forall u, selector_decode (selector_at (1 - s) d) = Some u ->
       selector_generation u < selector_generation v) /\
    check_record s v (record_at (selector_record_slot v) d) = inr c.
Proof.
  unfold open_bytes. fold (selector_at 0 d) (selector_at 1 d). split.
  - destruct (select_selector _ _ _) as [st|[s v]] eqn:Hs; [done|].
    apply select_selector_spec in Hs as (Hs & Hd & Hm & Hlt). intros Hc. exists s, v.
    destruct Hs as [-> | ->]; split_and!; auto.
  - intros (s & v & Hs & Hd & Hm & Hlt & Hc).
    assert (E : select_selector (journal_minimum_generation j) (selector_at 0 d) (selector_at 1 d)
                = inr (s, v)).
    { apply select_selector_spec. destruct Hs as [-> | ->]; split_and!; auto. }
    rewrite E. exact Hc.
Qed.

Lemma check_record_inv s v b c : check_record s v b = inr c ->
  exists r, record_decode b = Some r /\ record_generation r = selector_generation v /\
    c = mkSnapshot 552 1 (selector_record_slot v) s (record_target_slot r) (record_target_state r)
          (record_generation r) (record_predecessor_generation r) (record_record_digest r)
          (record_predecessor_digest r) (record_metadata r) [0; 0; 0; 0].
Proof.
  unfold check_record. destruct (record_decode b) as [r|]; [|done].
  destruct (_ || _) eqn:G; [done|]. bool_to_prop. injection 1 as <-. eauto.
Qed.

Lemma open_snapshot_ok d c : media_bytes d -> open_bytes j d = inr c -> snapshot_ok c.
Proof.
  intros Hd (s & v & Hs & Hv & _ & _ & Hc)%open_bytes_inr.
  apply selector_decode_typed in Hv as [Hslot Hgen];
    [|apply octets_slice, Hd|apply len_selector_at; [lia|done]].
  apply check_record_inv in Hc as (r & Hr & Hg & ->).
  apply record_decode_typed in Hr as (Ht & Hrg & Hdig & Hm & Hmv & Hmg & _);
    [|apply octets_slice, Hd|apply len_record_at; [lia|done]].
  constructor; cbn; auto; lia.
Qed.

(** Writing the record slot that is not selected changes nothing. *)
Lemma open_record_write d c r : media_bytes d -> open_bytes j d = inr c -> len r = 1024 ->
  open_bytes j (store d (record_offset j (1 - snapshot_selected_record_slot c)) r) = inr c.
Proof.
  intros Hd Ho Hr. pose proof (open_snapshot_ok d c Hd Ho) as [Hrs _ _ _ _ _].
  apply open_bytes_inr in Ho as (s & v & Hs & Hv & Hm & Hlt & Hc).
  destruct (record_write (1 - snapshot_selected_record_slot c) d r ltac:(lia) Hd Hr) as (_ & Hrec & Hsel).
  assert (Hslot : selector_record_slot v = snapshot_selected_record_slot c)
    by (by apply check_record_inv in Hc as (? & _ & _ & ->)).
  apply open_bytes_inr. exists s, v. rewrite !Hsel, Hrec by lia. auto.
Qed.

(** So does a selector write that leaves nothing [selector_decode] accepts. *)
Lemma open_selector_torn d c r : media_bytes d -> open_bytes j d = inr c -> len r = 512 ->
  selector_decode r = None ->
  open_bytes j (store d (selector_offset j (1 - snapshot_selected_selector_slot c)) r) = inr c.
Proof.
  intros Hd Ho Hr Hn. pose proof (open_snapshot_ok d c Hd Ho) as [Hrs Hss _ _ _ _].
  apply open_bytes_inr in Ho as (s & v & Hs & Hv & Hm & Hlt & Hc).
  assert (Hslot : s = snapshot_selected_selector_slot c /\
                  selector_record_slot v = snapshot_selected_record_slot c)
    by (by apply check_record_inv in Hc as (? & _ & _ & ->)).
  destruct Hslot as [-> Hrec].
  destruct (selector_write (1 - snapshot_selected_selector_slot c) d r ltac:(lia) Hd Hr) as (Hsame & Hsel & Hr').
  apply open_bytes_inr. exists (snapshot_selected_selector_slot c), v.
  rewrite Hsame, Hsel, Hr', Hn by lia. split_and!; auto. done.
Qed.

(** The new selector over a media that holds the new record. *)
Lemma open_selector_new current m target d :
  metadata_typed m -> plan_ok current m target -> media_bytes d ->
  let '(pg, pd, rs, ss) := previous current in
  journal_minimum_generation j <= pg + 1 ->
  (forall u, selector_decode (selector_at (1 - ss) d) = Some u -> selector_generation u < pg + 1) ->
  record_at rs d = record_wire m target pg pd ->
  open_bytes j (store d (selector_offset j ss)
    (selector_wire rs (pg + 1) pg (record_digest m target pg pd) pd)) = inr (committed current m target).
Proof.
  intros Hm [Hprev Hv Ht] Hd. unfold committed. destruct (previous current) as [[[pg pd] rs] ss].
  destruct Hprev as (Hpg & Hpd & Hrs & Hss & Hgen & Hlink & Hz). intros Hmin Hother Hrec.
  rewrite <- Hgen in Hlink. assert (Hpg64 : word 64 pg) by (apply word64; lia).
  pose proof (selector_decode_wire rs (pg + 1) pg (record_digest m target pg pd) pd Hrs ltac:(lia)
    ltac:(apply word64; lia) Hpg64 (record_digest_typed _ _ _ _) Hz Hpd) as Hsd.
  pose proof (record_decode_wire m target pg pd Hm Hv Ht Hpg64 Hpd Hlink) as Hrd.
  destruct (selector_write ss d (selector_wire rs (pg + 1) pg (record_digest m target pg pd) pd) Hss Hd
    (len_selector_wire _ _ _ _ _)) as (Hsame & Hsel & Hr').
  apply open_bytes_inr. eexists ss, _. rewrite Hsame, Hsd. split_and!; [lia|reflexivity|done|..].
  - rewrite Hsel by lia. exact Hother.
  - cbn [selector_record_slot]. rewrite Hr', Hrec by lia. unfold check_record. rewrite Hrd.
    cbn [record_generation record_predecessor_generation record_record_digest record_predecessor_digest
      record_target_slot record_target_state record_metadata selector_generation
      selector_predecessor_generation selector_record_digest selector_predecessor_digest].
    rewrite Hgen, !Z.eqb_refl, !bytes_equal_refl. reflexivity.
Qed.

(** ** The commit, one call at a time *)

Section Commit.
Context (current : option RibonUpdateTransactionSnapshot) (m : RibonUpdateSlotMetadata) (target : Z).
Context (Hm : metadata_typed m) (Hplan : plan_ok current m target).
Context (Htorn : torn_selectors_rejected p).
Context (pg : Z) (pd : bytes) (rs ss : Z) (Hprevious : previous current = (pg, pd, rs, ss)).

(** [before] and [after] say what a media may hold before the selector write and
    once it began; [installed] is the media a finished commit leaves. *)
Context (before after : bytes -> Prop).
Let record := record_wire m target pg pd.
Let selector := selector_wire rs (pg + 1) pg (record_digest m target pg pd) pd.
Let installed (d : bytes) : Prop := open_bytes j d = inr (committed current m target).

Context (before_record : forall d r, media_bytes d -> before d -> len r = 1024 ->
  before (store d (record_offset j rs) r)).
Context (before_after : forall d, before d -> after d).
Context (selector_torn : forall d r, media_bytes d -> before d -> len r = 512 ->
  selector_decode r = None -> after (store d (selector_offset j ss) r)).
Context (selector_installs : forall d, media_bytes d -> before d -> record_at rs d = record ->
  installed (store d (selector_offset j ss) selector)).

Definition outcome (d : bytes) : Prop := after d \/ installed d.

(** How a commit may fail: at a boundary, if there is an observer, or by I/O. *)
Definition commit_error (no_observer : bool) (status : RibonUpdateTransactionStatus) (w : W) : Prop :=
  (forall d, media_state p w d -> outcome d) /\
  (status = RIBON_UPDATE_TRANSACTION_STATUS_INTERRUPTED /\ no_observer = false \/ io_error p status).

Definition all_media (P : bytes -> Prop) (w : W) : Prop := forall d, media_state p w d -> P d.

Lemma all_media_steady P : steady p (all_media P).
Proof. intros w w' Hc Hcr H d [-> | Hd]; apply H; [left|right]; auto. Qed.

Lemma media_state_bytes w d : media_state p w d -> media_bytes d.
Proof.
  intros [-> | Hd]; split;
    [apply len_content|apply octets_content|by eapply len_crash|by eapply octets_crash].
Qed.

Lemma plan_slots : 0 <= rs < 2 /\ 0 <= ss < 2.
Proof. destruct Hplan as [H _ _]. rewrite Hprevious in H. tauto. Qed.

Lemma plan_wire : (len record = 1024 /\ octets record) /\ (len selector = 512 /\ octets selector).
Proof.
  destruct Hplan as [H Hv Ht]. rewrite Hprevious in H. destruct H as (Hpg & Hpd & _).
  assert (Hpg64 : word 64 pg) by (apply word64; lia).
  split; split; [apply len_record_wire|by apply octets_record_wire|apply len_selector_wire|].
  apply octets_selector_wire; auto using record_digest_typed. apply plan_slots.
Qed.

Lemma write_length old b r :
  len old = len b -> r = old \/ r = b \/ tears old b r -> len r = len b.
Proof. intros Hl [-> | [-> | Ht]]; [done|done|]. by eapply len_tears. Qed.

(** The record is written beside the selected one. *)
Lemma commit_write_record :
  otriple (all_media before) (provider_write_exact (O:=O) j (record_offset j rs) record)
    (fun _ w => all_media before w /\ record_at rs (content w) = record) commit_error.
Proof.
  destruct plan_slots as [Hrs _]. destruct plan_wire as [[Hl Ho] _].
  pose proof (journal_geometry j p l Hj) as Hg. pose proof (record_offset_eq j p l Hj rs Hrs) as Hoff.
  apply (otriple_write p j l Hj); [lia..|done|]. intros w w' Hw Hst.
  assert (Hb : all_media before w').
  { intros d Hd. apply Hst in Hd as (d0 & r & Hd0 & -> & Hr). pose proof (media_state_bytes w d0 Hd0) as Hm0.
    apply before_record; [done|by apply Hw|]. rewrite <- Hl. eapply write_length; [|exact Hr].
    rewrite Hl. by apply (len_record_at rs d0). }
  split.
  - intros Hc. split; [done|]. rewrite Hc.
    by apply (record_write rs (content w) record Hrs (media_state_bytes w _ (or_introl eq_refl)) Hl).
  - intros x st Hio. split; [|by right]. intros d Hd. left. apply before_after. by apply Hb.
Qed.

(** Once flushed it is on every media. *)
Lemma commit_flush_record :
  otriple (fun w => all_media before w /\ record_at rs (content w) = record) (provider_flush (O:=O) j)
    (fun _ => all_media (fun d => before d /\ record_at rs d = record)) commit_error.
Proof.
  apply (otriple_flush p j l Hj). intros w w' [Hw Hr] Hc Hst. split.
  - intros Hall d Hd. rewrite (Hall d Hd). split; [apply Hw; by left|done].
  - intros x st Hio. split; [|by right]. intros d Hd. left. by apply before_after, Hw, Hst.
Qed.

(** The selector write decides: each media holds the old journal or the new one. *)
Lemma commit_write_selector :
  otriple (all_media (fun d => before d /\ record_at rs d = record))
    (provider_write_exact (O:=O) j (selector_offset j ss) selector)
    (fun _ w => all_media outcome w /\ installed (content w)) commit_error.
Proof.
  destruct plan_slots as [_ Hss]. destruct plan_wire as [_ [Hl Ho]].
  pose proof (journal_geometry j p l Hj) as Hg. pose proof (selector_offset_eq j p l Hj ss Hss) as Hoff.
  apply (otriple_write p j l Hj); [lia..|done|]. intros w w' Hw Hst.
  assert (Hb : all_media outcome w').
  { intros d Hd. apply Hst in Hd as (d0 & r & Hd0 & -> & Hr). pose proof (media_state_bytes w d0 Hd0) as Hm0.
    destruct (Hw d0 Hd0) as [Hbf Hrec].
    assert (Hlo : len (slice (selector_offset j ss) (len selector) d0) = len selector)
      by (rewrite Hl; by apply (len_selector_at ss d0)).
    pose proof (write_length _ _ _ Hlo Hr) as Hlr.
    assert (Hcase : r = slice (selector_offset j ss) (len selector) d0 \/ r = selector \/
                    selector_decode r = None) by (destruct Hr as [|[|Ht]]; auto).
    destruct Hcase as [-> | [-> | Hn]].
    - left. apply before_after. rewrite store_slice; [done|lia..|]. destruct Hm0. lia.
    - right. by apply selector_installs.
    - left. apply selector_torn; auto. lia. }
  split.
  - intros Hc. split; [done|]. rewrite Hc. destruct (Hw (content w)) as [Hbf Hrec]; [by left|].
    apply selector_installs; auto. apply (media_state_bytes w). by left.
  - intros x st Hio. split; [done|by right].
Qed.

Lemma commit_flush_selector :
  otriple (fun w => all_media outcome w /\ installed (content w)) (provider_flush (O:=O) j)
    (fun _ => all_media installed) commit_error.
Proof.
  apply (otriple_flush p j l Hj). intros w w' [Hw Hi] Hc Hst. split.
  - intros Hall d Hd. by rewrite (Hall d Hd).
  - intros x st Hio. split; [|by right]. intros d Hd. by apply Hw, Hst.
Qed.

Lemma commit_observe P state generation operation boundary :
  (forall w, P w -> all_media outcome w) ->
  otriple P (OBSERVE (O:=O) state generation operation boundary) (fun _ => P) commit_error.
Proof. intros H. apply otriple_observe. intros w Hw. split; [by apply H|by left]. Qed.

Lemma installed_outcome w : all_media installed w -> all_media outcome w.
Proof. intros H d Hd. right. by apply H. Qed.

Lemma before_outcome w : all_media before w -> all_media outcome w.
Proof. intros H d Hd. left. by apply before_after, H. Qed.

Lemma all_media_impl (P Q : bytes -> Prop) w :
  (forall d, P d -> Q d) -> all_media P w -> all_media Q w.
Proof. intros HPQ H d Hd. by apply HPQ, H. Qed.

(** The commit's last check cannot fail on the snapshot it installed. *)
Lemma committed_matches :
  let c := committed current m target in
  (snapshot_journal_generation c !=? pg + 1) || (snapshot_target_slot c !=? target) ||
  (snapshot_target_state c !=? entry_state (slot_at m target)) ||
  negb (bytes_equal (snapshot_record_digest c) (slice RECORD_DIGEST_OFFSET 32 record)) = false.
Proof.
  destruct Hplan as [H Hv Ht]. rewrite Hprevious in H. destruct H as (Hpg & Hpd & _).
  assert (Hs : slice 752 32 record = record_digest m target pg pd)
    by apply (record_wire_slices m target pg pd Hm Hv Ht Hpd).
  unfold RECORD_DIGEST_OFFSET, committed. rewrite Hprevious. cbn. rewrite Hs, bytes_equal_refl, !Z.eqb_refl. done.
Qed.

(** The next call of the commit. *)
Ltac step rule := eapply otriple_bind; [rule|cbn beta; intros []].
Ltac boundary :=
  step ltac:(apply commit_observe; intros ? Hw;
    first [by apply before_outcome | by apply before_outcome, Hw | by apply installed_outcome
          | by apply Hw | apply before_outcome; eapply all_media_impl, Hw; by intros ? []]).

Lemma commit_triple :
  commit_plan current m target = inr (rs, ss, pg + 1, record, selector) ->
  otriple (all_media before) (commit_record (O:=O) j current m target)
    (fun c w => c = committed current m target /\ all_media installed w) commit_error.
Proof.
  intros Hp. destruct plan_slots as [Hrs _]. pose proof (journal_geometry j p l Hj) as Hg.
  pose proof (record_offset_eq j p l Hj rs Hrs) as Hoff.
  unfold commit_record. eapply (otriple_bind _ _ _ (fun a w => a = (rs, ss, pg + 1, record, selector) /\ all_media before w)).
  { apply otriple_lift. rewrite Hp. auto. }
  intros a. apply otriple_pure. intros ->.
  boundary. step ltac:(apply commit_write_record). boundary. boundary.
  step ltac:(apply commit_flush_record). boundary. boundary.
  eapply otriple_bind.
  { apply (otriple_read p j l Hj); [apply all_media_steady|unfold RIBON_UPDATE_TRANSACTION_RECORD_BYTES; lia..|].
    intros b st w Hst Hw. split; [|by right]. apply before_outcome. eapply all_media_impl, Hw. by intros ? []. }
  intros readback.
  step ltac:(apply (otriple_leave_if _ (all_media (fun d => before d /\ record_at rs d = record)))).
  { intros w [Hw ->]. split; [|done]. destruct (Hw (content w)) as [_ Hr]; [by left|].
    unfold record_at in Hr. unfold RIBON_UPDATE_TRANSACTION_RECORD_BYTES.
    by rewrite Hr, bytes_equal_refl. }
  boundary. boundary. step ltac:(apply commit_write_selector). boundary. boundary.
  step ltac:(apply commit_flush_selector). boundary. boundary.
  eapply otriple_bind.
  { apply (otriple_open p j l Hj); [apply all_media_steady|..].
    - intros b st w Hio Hw. split; [by apply installed_outcome|by right].
    - intros b st w Hw Hbad. specialize (Hw (content w) (or_introl eq_refl)). unfold installed in Hw. congruence. }
  intros c. step ltac:(apply (otriple_leave_if _ (fun w => c = committed current m target /\ all_media installed w))).
  { intros w [Hw Hc]. pose proof (Hw (content w) (or_introl eq_refl)) as Hi. unfold installed in Hi.
    rewrite Hi in Hc. injection Hc as <-. split; [|done]. apply committed_matches. }
  step ltac:(apply commit_observe; intros w [_ Hw]; by apply installed_outcome).
  by apply otriple_ret.
Qed.
End Commit.

(** Whether a commit fails because of the plan, an observer or the provider. *)
Definition commit_refusal (current : option RibonUpdateTransactionSnapshot)
    (m : RibonUpdateSlotMetadata) (target : Z) (no_observer : bool)
    (status : RibonUpdateTransactionStatus) : Prop :=
  commit_plan current m target = inl status \/
  status = RIBON_UPDATE_TRANSACTION_STATUS_INTERRUPTED /\ no_observer = false \/ io_error p status.

(** A refused plan touches nothing. *)
Lemma commit_refused current m target status s :
  commit_plan current m target = inl status ->
  commit_record (O:=O) j current m target s = (s, inl status).
Proof. intros H. unfold commit_record, lift, mbind, M_bind. by rewrite H. Qed.

(** A media that holds [c], with the next record beside it, takes the new selector. *)
Lemma selector_installs_next c m target d :
  metadata_typed m -> plan_ok (Some c) m target -> media_bytes d -> open_bytes j d = inr c ->
  let '(pg, pd, rs, ss) := previous (Some c) in
  record_at rs d = record_wire m target pg pd ->
  open_bytes j (store d (selector_offset j ss)
    (selector_wire rs (pg + 1) pg (record_digest m target pg pd) pd)) = inr (committed (Some c) m target).
Proof.
  intros Hm Hplan Hd Ho. cbn [previous]. intros Hrec.
  apply (open_selector_new (Some c) m target d Hm Hplan Hd); [..|done];
    apply open_bytes_inr in Ho as (s & v & Hs & Hv & Hmin & Hlt & Hc);
    apply check_record_inv in Hc as (r & _ & Hg & ->); cbn; [lia|].
  intros u. replace (1 - (1 - s)) with s by lia. rewrite Hv. intros [= <-]. lia.
Qed.

Lemma commit_some_triple c m target :
  torn_selectors_rejected p -> metadata_typed m -> 0 <= target ->
  otriple (all_media (fun d => open_bytes j d = inr c)) (commit_record (O:=O) j (Some c) m target)
    (fun c' w => c' = committed (Some c) m target /\
       all_media (fun d => open_bytes j d = inr (committed (Some c) m target)) w)
    (fun b st w => all_media (fun d => open_bytes j d = inr c \/
         open_bytes j d = inr (committed (Some c) m target)) w /\
       commit_refusal (Some c) m target b st).
Proof.
  intros Htorn Hm Ht w o Hw.
  assert (Hc : snapshot_ok c).
  { apply (open_snapshot_ok (content w)); [apply (media_state_bytes w)|apply Hw]; by left. }
  destruct (commit_plan (Some c) m target) as [st|[[[[rs ss] g] record] selector]] eqn:Hp.
  { rewrite (commit_refused _ _ _ _ _ Hp). split; [done|]. split; [intros d Hd; left; by apply Hw|by left]. }
  pose proof Hp as Hplan. apply commit_plan_ok in Hplan as [Hplan Heq]; [|done..].
  cbn [previous] in Heq. destruct Heq as (-> & -> & -> & -> & ->).
  pose proof (commit_triple (Some c) m target Hm Hplan Htorn _ _ _ _ eq_refl
    (fun d => open_bytes j d = inr c) (fun d => open_bytes j d = inr c)) as H.
  specialize (H (fun d r Hd Ho Hr => open_record_write d c r Hd Ho Hr) (fun d Hd => Hd)
    (fun d r Hd Ho Hr Hn => open_selector_torn d c r Hd Ho Hr Hn)
    (fun d Hd Ho Hr => selector_installs_next c m target d Hm Hplan Hd Ho Hr) Hp w o Hw).
  destruct (commit_record j (Some c) m target (w, o)) as [[w' o'] [st|c']]; destruct H as [Hn H];
    (split; [done|]); [|done].
  destruct H as [Hout Herr]. split; [exact Hout|by right].
Qed.

(** ** Provisioning *)

(** Both selectors are all zero. *)
Lemma open_uninitialized d : open_bytes j d = inl RIBON_UPDATE_TRANSACTION_STATUS_UNINITIALIZED <->
  selector_decode (selector_at 0 d) = None /\ selector_decode (selector_at 1 d) = None /\
  bytes_zero (selector_at 0 d ++ selector_at 1 d) = true.
Proof.
  unfold open_bytes. fold (selector_at 0 d) (selector_at 1 d). unfold select_selector.
  assert (Hchk : forall s v b, check_record s v b <> inl RIBON_UPDATE_TRANSACTION_STATUS_UNINITIALIZED).
  { intros s v b. unfold check_record. destruct (record_decode b); [|done]. by destruct (_ || _). }
  destruct (selector_decode (selector_at 0 d)), (selector_decode (selector_at 1 d));
    [..|destruct (bytes_zero _); split; intuition done];
    (split; [|by intros (? & ? & ?)]); repeat case_match; simplify_eq; try done; intros H; by apply Hchk in H.
Qed.

(** A selector write over it that [selector_decode] refuses is corruption at worst. *)
Lemma open_uninitialized_torn d r : media_bytes d -> len r = 512 -> selector_decode r = None ->
  open_bytes j d = inl RIBON_UPDATE_TRANSACTION_STATUS_UNINITIALIZED ->
  let d' := store d (selector_offset j 0) r in
  open_bytes j d' = inl RIBON_UPDATE_TRANSACTION_STATUS_UNINITIALIZED \/
  open_bytes j d' = inl RIBON_UPDATE_TRANSACTION_STATUS_CORRUPT.
Proof.
  intros Hd Hr Hn (_ & H1 & _)%open_uninitialized.
  destruct (selector_write 0 d r ltac:(lia) Hd Hr) as (Hsame & Hsel & _). cbv zeta.
  unfold open_bytes. fold (selector_at 0 (store d (selector_offset j 0) r)).
  fold (selector_at 1 (store d (selector_offset j 0) r)).
  rewrite Hsame, Hsel by lia. unfold select_selector. rewrite Hn, H1. destruct (bytes_zero _); auto.
Qed.

Definition provisioning (m : RibonUpdateSlotMetadata) (target : Z) (d : bytes) : Prop :=
  open_bytes j d = inl RIBON_UPDATE_TRANSACTION_STATUS_UNINITIALIZED \/
  open_bytes j d = inl RIBON_UPDATE_TRANSACTION_STATUS_CORRUPT \/
  open_bytes j d = inr (committed None m target).

Lemma commit_none_triple m target :
  torn_selectors_rejected p -> metadata_typed m -> 0 <= target -> journal_minimum_generation j <= 1 ->
  otriple (all_media (fun d => open_bytes j d = inl RIBON_UPDATE_TRANSACTION_STATUS_UNINITIALIZED))
    (commit_record (O:=O) j None m target)
    (fun c' w => c' = committed None m target /\
       all_media (fun d => open_bytes j d = inr (committed None m target)) w)
    (fun b st w => all_media (provisioning m target) w /\ commit_refusal None m target b st).
Proof.
  intros Htorn Hm Ht Hmin w o Hw.
  destruct (commit_plan None m target) as [st|[[[[rs ss] g] record] selector]] eqn:Hp.
  { rewrite (commit_refused _ _ _ _ _ Hp). split; [done|]. split; [intros d Hd; left; by apply Hw|by left]. }
  pose proof Hp as Hplan. apply commit_plan_ok in Hplan as [Hplan Heq]; [|done..].
  cbn [previous] in Heq. destruct Heq as (-> & -> & -> & -> & ->).
  pose proof (commit_triple None m target Hm Hplan Htorn _ _ _ _ eq_refl
    (fun d => open_bytes j d = inl RIBON_UPDATE_TRANSACTION_STATUS_UNINITIALIZED)
    (fun d => open_bytes j d = inl RIBON_UPDATE_TRANSACTION_STATUS_UNINITIALIZED \/
              open_bytes j d = inl RIBON_UPDATE_TRANSACTION_STATUS_CORRUPT)) as H.
  specialize (fun H1 H3 H4 => H H1 (fun d Hd => or_introl Hd) H3 H4 Hp w o Hw).
  ospecialize (H _ _ _).
  - intros d r Hd Hu Hr. destruct (record_write 0 d r ltac:(lia) Hd Hr) as (_ & _ & Hsel).
    apply open_uninitialized. rewrite !Hsel by lia. by apply open_uninitialized.
  - intros d r Hd Hu Hr Hn. by apply open_uninitialized_torn.
  - intros d Hd Hu Hrec. apply (open_selector_new None m target d Hm Hplan Hd); [cbn; lia| |done].
    apply open_uninitialized in Hu as (_ & H1 & _). intros u. change (1 - 0) with 1. by rewrite H1.
  - destruct (commit_record j None m target (w, o)) as [[w' o'] [st|c']]; destruct H as [Hn H];
      (split; [done|]); [|done].
    destruct H as [Hout Herr]. split; [|by right]. intros d Hd. destruct (Hout d Hd) as [[]|];
      unfold provisioning; auto.
Qed.

Lemma initialize_triple m :
  torn_selectors_rejected p -> metadata_typed m -> journal_minimum_generation j <= 1 ->
  let first := committed None m (metadata_active_slot m) in
  otriple (all_media (fun d => open_bytes j d = inl RIBON_UPDATE_TRANSACTION_STATUS_UNINITIALIZED))
    (ribon_update_transaction_initialize (O:=O) (Some j) (Some m))
    (fun c w => c = first /\ all_media (fun d => open_bytes j d = inr first) w)
    (fun _ _ => all_media (provisioning m (metadata_active_slot m))).
Proof.
  intros Htorn Hm Hmin first. pose proof (typed_active m Hm) as Ha. rewrite word32 in Ha.
  intros w o Hw. unfold ribon_update_transaction_initialize.
  assert (Hold : forall w1, all_media (fun d => open_bytes j d = inl RIBON_UPDATE_TRANSACTION_STATUS_UNINITIALIZED) w1 ->
    all_media (provisioning m (metadata_active_slot m)) w1) by (intros w1 H d Hd; left; by apply H).
  destruct (_ || _); [by split; [|apply Hold]|].
  set (P := all_media (fun d => open_bytes j d = inl RIBON_UPDATE_TRANSACTION_STATUS_UNINITIALIZED)).
  pose proof (otriple_open (O:=O) p j l Hj P (fun _ _ => P) (all_media_steady _) (fun _ _ _ _ Hw => Hw)
    (fun _ _ _ Hw _ => Hw) w o Hw) as H.
  destruct (ribon_update_transaction_open (Some j) (w, o)) as [[w1 o1] [st|c]].
  - destruct H as [Ho H].
    destruct st; try by (split; [done|by apply Hold]).
    pose proof (commit_none_triple m (metadata_active_slot m) Htorn Hm ltac:(lia) Hmin w1 o1 H) as Hc.
    destruct (commit_record j None m (metadata_active_slot m) (w1, o1)) as [[w2 o2] [st|c]];
      destruct Hc as [Ho2 Hc]; (split; [congruence|tauto]).
  - destruct H as [Ho [H _]]. split; [done|]. by apply Hold.
Qed.
End Media.

(** ** Confirmation *)

(** The transition [confirm_pending] asks for. *)
Definition confirm_request (c : RibonUpdateTransactionSnapshot) (target : Z) : RibonUpdateSlotTransition :=
  entry_transition (slot_at (snapshot_metadata c) target) target RIBON_UPDATE_SLOT_CONFIRMED 0.

Lemma entry_transition_typed e target state attempts :
  entry_typed e -> word 32 target -> word 32 state -> word 32 attempts ->
  transition_typed (entry_transition e target state attempts).
Proof. intros [] ? ? ?. by constructor. Qed.

(** A request names the slot, generation and manifest it confirms. *)
Definition names {W O} (r : RibonUpdateConfirmPendingRequest W O) (e : RibonUpdateSlotEntry) : Prop :=
  entry_image_generation e = confirm_image_generation r /\
  entry_manifest_digest e = confirm_manifest_digest r.

Definition request_typed {W O} (r : RibonUpdateConfirmPendingRequest W O) : Prop :=
  0 <= confirm_target_slot r /\ len (confirm_manifest_digest r) = 32.

(** What confirming installs: the slot becomes active and confirmed, keeping the
    identity it was armed with. *)
Lemma confirm_transition c target m' :
  snapshot_ok c -> 0 <= target < 2 ->
  ribon_update_slot_metadata_transition (Some (snapshot_metadata c)) (Some (confirm_request c target)) =
    (RIBON_UPDATE_STORAGE_STATUS_OK, m') ->
  metadata_typed m' /\ metadata_active_slot m' = target /\
  metadata_pending_slot m' = RIBON_UPDATE_SLOT_NONE /\
  entry_state (slot_at m' target) = RIBON_UPDATE_SLOT_CONFIRMED /\
  entry_identity (slot_at m' target) = entry_identity (slot_at (snapshot_metadata c) target).
Proof.
  intros [_ _ _ _ [Hm _] _] Ht H.
  assert (Hty : transition_typed (confirm_request c target)).
  { apply entry_transition_typed; [by apply slot_at_typed|..]; apply word32;
      unfold UINT32_MAX, RIBON_UPDATE_SLOT_CONFIRMED; lia. }
  apply transition_ok_inv in H as (Hw & Hacc & ->); [|done..].
  pose proof (next_slot_other _ _ Hm Hw Hacc) as Ho. pose proof (acc_slot _ _ Hacc) as Hs. cbn in Hs.
  split; [by apply transition_result_ok|]. unfold transition_result.
  change (slot_at (metadata_with_digest (transition_next (snapshot_metadata c) (confirm_request c target))
    (metadata_digest (transition_next (snapshot_metadata c) (confirm_request c target)))) target)
    with (slot_at (transition_next (snapshot_metadata c) (confirm_request c target)) target).
  rewrite <- Hs in Ho. rewrite Ho. split_and!; reflexivity.
Qed.

Section Confirm.
Context {W O : Type} (p : RibonUpdateStorageProvider W) `{!StorageContract p}.
Context (j : RibonUpdateTransactionJournal W) (l : RibonUpdateLayout) (Hj : journal_ready j p l).
Context (Htorn : torn_selectors_rejected p).
Context (r : RibonUpdateConfirmPendingRequest W O) (Hr : request_typed r) (Hjr : confirm_journal r = Some j).
Context (c : RibonUpdateTransactionSnapshot).

(** The journal after the confirmation. *)
Definition confirmed (c' : RibonUpdateTransactionSnapshot) : Prop :=
  let target := confirm_target_slot r in
  exists m', ribon_update_slot_metadata_transition (Some (snapshot_metadata c))
      (Some (confirm_request c target)) = (RIBON_UPDATE_STORAGE_STATUS_OK, m') /\
    c' = committed (Some c) m' target /\
    metadata_active_slot (snapshot_metadata c') = target /\
    metadata_pending_slot (snapshot_metadata c') = RIBON_UPDATE_SLOT_NONE /\
    entry_state (slot_at (snapshot_metadata c') target) = RIBON_UPDATE_SLOT_CONFIRMED /\
    names r (slot_at (snapshot_metadata c') target).

Definition holds_old_or_confirmed (w : W) : Prop :=
  all_media p (fun d => open_bytes j d = inr c \/ exists c', confirmed c' /\ open_bytes j d = inr c') w.

(** A confirmation repeats one the journal already has, or installs it. *)
Definition confirm_done (result : RibonUpdateConfirmPendingResult) (w : W) : Prop :=
  let c' := result_snapshot result in
  all_media p (fun d => open_bytes j d = inr c') w /\
  metadata_active_slot (snapshot_metadata c') = confirm_target_slot r /\
  metadata_pending_slot (snapshot_metadata c') = RIBON_UPDATE_SLOT_NONE /\
  entry_state (slot_at (snapshot_metadata c') (confirm_target_slot r)) = RIBON_UPDATE_SLOT_CONFIRMED /\
  names r (slot_at (snapshot_metadata c') (confirm_target_slot r)) /\
  (result_duplicate result = 1 /\ c' = c \/
   result_duplicate result = 0 /\ confirmed c' /\
     entry_state (slot_at (snapshot_metadata c) (confirm_target_slot r)) = RIBON_UPDATE_SLOT_PENDING).

Lemma names_entry e : entry_typed e ->
  entry_image_generation e = confirm_image_generation r ->
  bytes_equal (entry_manifest_digest e) (confirm_manifest_digest r) = true -> names r e.
Proof.
  intros [] Hg Hb. split; [done|]. apply bytes_equal_true in Hb; [done|].
  destruct Hr as [_ ->]. tauto.
Qed.

Lemma confirmed_committed m' :
  snapshot_ok c -> confirm_target_slot r < 2 ->
  names r (slot_at (snapshot_metadata c) (confirm_target_slot r)) ->
  ribon_update_slot_metadata_transition (Some (snapshot_metadata c))
    (Some (confirm_request c (confirm_target_slot r))) = (RIBON_UPDATE_STORAGE_STATUS_OK, m') ->
  metadata_typed m' /\ confirmed (committed (Some c) m' (confirm_target_slot r)).
Proof.
  intros Hc Ht Hn H. destruct Hr as [Ht0 _].
  pose proof (confirm_transition c (confirm_target_slot r) m' Hc ltac:(lia) H) as (Hm & Ha & Hp & Hs & Hi).
  split; [done|]. exists m'. split_and!; try done.
  unfold names in *. unfold entry_identity in Hi. injection Hi as Hg Hd _ _.
  unfold committed. cbn [previous snapshot_metadata].
  change (slot_at (metadata_with_digest m' (metadata_digest m')) (confirm_target_slot r))
    with (slot_at m' (confirm_target_slot r)).
  rewrite Hg, Hd. done.
Qed.

Lemma confirm_triple : confirm_target_slot r < 2 ->
  otriple (all_media p (fun d => open_bytes j d = inr c)) (confirm_checked r j) confirm_done
    (fun _ _ => holds_old_or_confirmed).
Proof.
  intros Ht. unfold confirm_checked.
  assert (Hold : forall w, all_media p (fun d => open_bytes j d = inr c) w -> holds_old_or_confirmed w)
    by (intros w Hw d Hd; left; by apply Hw).
  eapply otriple_bind.
  { apply (otriple_open p j l Hj); [apply all_media_steady|by auto|by auto]. }
  intros c0. intros w o [Hw Hc0]. assert (c0 = c) as ->.
  { specialize (Hw (content w) (or_introl eq_refl)). cbn beta in Hw. congruence. }
  assert (Hc : snapshot_ok c).
  { apply (open_snapshot_ok p j l Hj (content w)); [apply (media_state_bytes p w); by left|done]. }
  assert (Hty : entry_typed (slot_at (snapshot_metadata c) (confirm_target_slot r))).
  { destruct Hr. apply slot_at_typed; [apply (ok_metadata c Hc)|lia]. }
  destruct (_ && _) eqn:G1.
  { bool_to_prop. split; [done|]. cbn. split_and!; try done; [by apply names_entry|by left]. }
  destruct (_ || _) eqn:G2; [split; [done|by apply Hold]|]. bool_to_prop.
  assert (Hn : names r (slot_at (snapshot_metadata c) (confirm_target_slot r))) by by apply names_entry.
  destruct (ribon_update_slot_metadata_transition _ _) as [st m'] eqn:Htr.
  destruct st; try by (split; [done|by apply Hold]).
  apply confirmed_committed in Htr as [Hm' Hconf]; [|done..].
  pose proof (commit_some_triple p j l Hj c m' (confirm_target_slot r) Htorn Hm' (proj1 Hr) w o Hw) as Hcommit.
  unfold mbind, M_bind.
  destruct (commit_record j (Some c) m' (confirm_target_slot r) (w, o)) as [[w' o'] [st|c']];
    destruct Hcommit as [Hno Hcommit]; (split; [done|]).
  - intros d Hd. destruct (proj1 Hcommit d Hd) as [|Hi]; [by left|right; eauto].
  - destruct Hcommit as [-> Hi]. pose proof Hconf as (_ & _ & _ & Ha & Hq & Hs & Hn'). split_and!; auto.
Qed.
End Confirm.
