(* ===== verification/TransactionProperties.v ===== *)
(** * Properties of the update transaction journal

    The theorems about [open], [commit_record], [initialize] and
    [confirm_pending], for every provider that meets the storage contract, and
    their instances on the in-memory media. *)

From S2P Require Import Prelude.
From S2P Require Import Effects.
From S2P Require Import Buffer.
From S2P Require Import Wire.
From S2P Require Import Image.
From S2P Require Import Provider.
From S2P Require Import Layout.
From S2P Require Import SlotMetadata.
From S2P Require Import SlotLifecycle.
From S2P Require Import MemoryProvider.
From S2P Require Import Session.
From S2P Require Import TransactionWire.
From S2P Require Import Transaction.
From S2P Require Import TransactionLogic.
From S2P Require Import TransactionCrash.

Section Properties.
Context {W O : Type} (p : RibonUpdateStorageProvider W) `{!StorageContract p}.
Context (j : RibonUpdateTransactionJournal W) (l : RibonUpdateLayout).

(** Opening the journal changes no media and returns exactly what the bytes on it
    say; the only other result is an I/O status, and then the provider failed. *)
Theorem open_reads_media w (o o' : option (RibonUpdateTransactionObserver O)) w' r :
  journal_ready j p l -> ribon_update_transaction_open (Some j) (w, o) = ((w', o'), r) ->
  (forall d, media_state p w' d -> media_state p w d) /\
  (r = open_bytes j (content w) \/ exists status, r = inl status /\ io_error p status).
Proof.
  intros Hj Hrun.
  set (P := fun w1 => content w1 = content w /\ forall d, crash w1 d -> crash w d).
  assert (HP : steady p P) by (intros w1 w2 Hc Hcr [? ?]; split; [congruence|auto]).
  pose proof (otriple_open (O:=O) p j l Hj P (fun _ st w1 => P w1 /\
    (open_bytes j (content w) = inl st \/ io_error p st)) HP) as H.
  specialize (H (fun _ _ _ Hio Hw => conj Hw (or_intror Hio))).
  ospecialize (H _ w o _); [|by split|].
  { intros _ st w1 [Hc ?]. rewrite Hc. intros. split; [by split|by left]. }
  rewrite Hrun in H. destruct H as [_ H].
  assert (HP' : P w') by (destruct r; tauto). destruct HP' as [Hc Hcr]. split.
  - intros d [-> | Hd]; [left; done|right; auto].
  - destruct r as [st|c]; [destruct H as [_ [H|H]]; [left; congruence|right; eauto]|].
    left. destruct H as [_ H]. congruence.
Qed.

(** A snapshot that [open] returns is not older than the journal's floor nor than
    any selector on the media, and its slot table is valid and of its generation. *)
Theorem open_newest d c :
  journal_ready j p l -> len d = provider_capacity_bytes p -> octets d -> open_bytes j d = inr c ->
  journal_minimum_generation j <= snapshot_journal_generation c /\
  (forall k u, k = 0 \/ k = 1 -> selector_decode (slice (selector_offset j k) 512 d) = Some u ->
     selector_generation u <= snapshot_journal_generation c) /\
  metadata_is_valid (Some (snapshot_metadata c)) = true /\
  metadata_generation (snapshot_metadata c) = snapshot_journal_generation c.
Proof.
  intros Hj Hl Ho H. pose proof (open_snapshot_ok p j l Hj d c (conj Hl Ho) H) as [_ _ _ _ [_ Hv] Hg].
  apply open_bytes_inr in H as (s & v & Hs & Hd & Hm & Hlt & Hc).
  apply check_record_inv in Hc as (r & _ & Hr & ->). cbn in *. rewrite Hr.
  split_and!; try done; [|congruence]. intros k u Hk Hu.
  destruct (decide (k = s)) as [->|]; [unfold selector_at in Hd; rewrite Hd in Hu; injection Hu as <-; lia|].
  assert (k = 1 - s) as -> by lia. apply Z.lt_le_incl, Hlt, Hu.
Qed.

(** C24: Whatever a commit returns, and wherever a power cut or the observer stops it,
    the media reopens to the snapshot it held or to the new one; a commit that
    returns OK has made the new one durable. *)
Theorem commit_crash_safe c m target w (o o' : option (RibonUpdateTransactionObserver O)) w' r :
  journal_ready j p l -> torn_selectors_rejected p -> metadata_typed m -> 0 <= target ->
  (forall d, media_state p w d -> open_bytes j d = inr c) ->
  commit_record j (Some c) m target (w, o) = ((w', o'), r) ->
  (forall d, media_state p w' d ->
     open_bytes j d = inr c \/ open_bytes j d = inr (committed (Some c) m target)) /\
  (forall c', r = inr c' -> c' = committed (Some c) m target /\
     forall d, media_state p w' d -> open_bytes j d = inr c').
Proof.
  intros Hj Htorn Hm Ht Hw Hrun.
  pose proof (commit_some_triple p j l Hj c m target Htorn Hm Ht w o Hw) as H.
  rewrite Hrun in H. destruct H as [_ H]. destruct r as [st|c'].
  - split; [apply H|done].
  - destruct H as [-> H]. split; [intros d Hd; right; by apply H|]. intros ? [= <-]. by split.
Qed.

(** C27: On a provider whose calls succeed, a commit nobody observes succeeds unless
    its inputs are refused, and then it returns the status of the refusal. *)
Theorem commit_completes c m target w :
  journal_ready j p l -> torn_selectors_rejected p -> reliable p -> metadata_typed m -> 0 <= target ->
  (forall d, media_state p w d -> open_bytes j d = inr c) ->
  snd (commit_record (O:=O) j (Some c) m target (w, None)) =
  match commit_plan (Some c) m target with
  | inl status => inl status
  | inr _ => inr (committed (Some c) m target)
  end.
Proof.
  intros Hj Htorn Hrel Hm Ht Hw.
  destruct (commit_plan (Some c) m target) as [st|a] eqn:Hp.
  { by rewrite (commit_refused j _ _ _ _ _ Hp). }
  pose proof (commit_some_triple (O:=O) p j l Hj c m target Htorn Hm Ht w None Hw) as H.
  destruct (commit_record j (Some c) m target (w, None)) as [[w' o'] [st|c']]; destruct H as [_ H].
  - destruct H as [_ [H|[[_ H]|[_ H]]]]; [congruence|done|by destruct H].
  - by destruct H as [-> _].
Qed.

(** Provisioning a blank journal leaves it blank, refused as corrupt or holding the
    first snapshot, and durably holding it when it returns OK. *)
Theorem initialize_crash_safe m w (o o' : option (RibonUpdateTransactionObserver O)) w' r :
  journal_ready j p l -> torn_selectors_rejected p -> journal_minimum_generation j = 1 ->
  metadata_typed m ->
  (forall d, media_state p w d -> open_bytes j d = inl RIBON_UPDATE_TRANSACTION_STATUS_UNINITIALIZED) ->
  ribon_update_transaction_initialize (Some j) (Some m) (w, o) = ((w', o'), r) ->
  let first := committed None m (metadata_active_slot m) in
  (forall d, media_state p w' d ->
     open_bytes j d = inl RIBON_UPDATE_TRANSACTION_STATUS_UNINITIALIZED \/
     open_bytes j d = inl RIBON_UPDATE_TRANSACTION_STATUS_CORRUPT \/ open_bytes j d = inr first) /\
  (forall c, r = inr c -> c = first /\ forall d, media_state p w' d -> open_bytes j d = inr first).
Proof.
  intros Hj Htorn Hmin Hm Hw Hrun. cbv zeta.
  pose proof (typed_active m Hm) as Ha. rewrite word32 in Ha.
  pose proof (initialize_triple p j l Hj m Htorn Hm ltac:(lia) w o Hw) as H.
  rewrite Hrun in H. destruct H as [_ H]. destruct r as [st|c].
  - split; [apply H|done].
  - destruct H as [-> H]. split; [intros d Hd; right; right; by apply H|]. by intros ? [= <-].
Qed.

(** A journal that opens is never provisioned over. *)
Theorem initialize_keeps_existing m c w (o o' : option (RibonUpdateTransactionObserver O)) w' r :
  journal_ready j p l -> open_bytes j (content w) = inr c ->
  ribon_update_transaction_initialize (Some j) m (w, o) = ((w', o'), r) ->
  (exists status, r = inl status) /\ forall d, media_state p w' d -> media_state p w d.
Proof.
  intros Hj Hc Hrun. unfold ribon_update_transaction_initialize in Hrun.
  destruct m as [m|]; [|injection Hrun as <- <- <-; eauto].
  destruct (_ || _) in Hrun; [injection Hrun as <- <- <-; eauto|].
  set (P := fun w1 => content w1 = content w /\ forall d, crash w1 d -> crash w d).
  assert (HP : steady p P) by (intros w1 w2 ? Hcr [? ?]; split; [congruence|auto]).
  pose proof (otriple_open (O:=O) p j l Hj P (fun _ st w1 => P w1 /\ io_error p st) HP
    (fun _ _ _ Hio Hw => conj Hw Hio)) as H.
  ospecialize (H _ w o _); [intros _ st w1 [Hc1 _]; rewrite Hc1; congruence|by split|].
  destruct (ribon_update_transaction_open (Some j) (w, o)) as [[w1 o1] [st|c1]]; destruct H as [_ [[Hcw Hcr] H]].
  - assert (Heq : w' = w1 /\ r = inl st).
    { destruct H as [[-> | ->] _]; by injection Hrun as <- <- <-. }
    destruct Heq as [-> ->]. split; [eauto|]. intros d [-> | Hd]; [left; done|right; auto].
  - injection Hrun as <- <- <-. split; [eauto|]. intros d [-> | Hd]; [left; done|right; auto].
Qed.

(** Confirming a pending image leaves the journal as it was or durably confirms
    exactly the slot, image generation and manifest the request names; confirming
    it again changes nothing. *)
Theorem confirm_crash_safe (r : RibonUpdateConfirmPendingRequest W O) c w w' o' res :
  journal_ready j p l -> torn_selectors_rejected p -> request_typed r -> confirm_journal r = Some j ->
  (forall d, media_state p w d -> open_bytes j d = inr c) ->
  ribon_update_transaction_confirm_pending (Some r) w = ((w', o'), res) ->
  (forall d, media_state p w' d ->
     open_bytes j d = inr c \/ exists c', confirmed r c c' /\ open_bytes j d = inr c') /\
  (forall result, res = inr result -> confirm_done p j r c result w').
Proof.
  intros Hj Htorn Hr Hjr Hw Hrun. unfold ribon_update_transaction_confirm_pending in Hrun.
  rewrite Hjr in Hrun. destruct (_ || _) eqn:G in Hrun.
  { injection Hrun as <- <- <-. split; [|done]. intros d Hd. left. by apply Hw. }
  unfold RIBON_UPDATE_SLOT_COUNT in G. bool_to_prop.
  pose proof (confirm_triple p j l Hj Htorn r Hr c ltac:(lia) w (confirm_observer r) Hw) as H'.
  rewrite Hrun in H'. destruct H' as [_ H']. destruct res as [st|result]; [by split|].
  split; [|by intros ? [= <-]]. destruct H' as (Hall & _ & _ & _ & _ & Hcase). intros d Hd.
  specialize (Hall d Hd). destruct Hcase as [[_ Heq]|(_ & Hcf & _)]; [left; congruence|right; eauto].
Qed.
End Properties.

(** ** A journal on the in-memory media *)

Definition sample_journal : RibonUpdateTransactionJournal (media 8704) :=
  mkJournal 80 1 0 0 (Some sample_provider) (Some sample_layout) 1 100 [0; 0; 0; 0].

Lemma sample_journal_ready : journal_ready sample_journal sample_provider sample_layout.
Proof. constructor; [done|done|vm_compute; reflexivity|apply sample_layout_typed]. Qed.

Lemma sample_untorn : torn_selectors_rejected sample_provider.
Proof. intros old new r _ H. left. exact H. Qed.

(** Nobody observes. *)
Definition unobserved : option (RibonUpdateTransactionObserver unit) := None.

(** The media after the first commit of a slot table. *)
Definition provisioned (m : RibonUpdateSlotMetadata) (target : Z) : media 8704 :=
  fst (fst (commit_record sample_journal None m target (blank_media, unobserved))).

Definition plan_accepted (c : option RibonUpdateTransactionSnapshot) (m : RibonUpdateSlotMetadata)
    (target : Z) : bool :=
  match commit_plan c m target with inr _ => true | inl _ => false end.

Lemma blank_uninitialized d :
  media_state sample_provider blank_media d ->
  open_bytes sample_journal d = inl RIBON_UPDATE_TRANSACTION_STATUS_UNINITIALIZED.
Proof. intros [-> | ->]; vm_compute; reflexivity. Qed.

Lemma provisioned_media m target :
  metadata_typed m -> 0 <= target -> plan_accepted None m target = true ->
  forall d, media_state sample_provider (provisioned m target) d ->
    open_bytes sample_journal d = inr (committed None m target).
Proof.
  intros Hm Ht Hp.
  pose proof (commit_none_triple sample_provider sample_journal _ sample_journal_ready m target
    sample_untorn Hm Ht ltac:(done) blank_media unobserved blank_uninitialized) as H.
  unfold provisioned.
  destruct (commit_record sample_journal None m target (blank_media, unobserved)) as [[w o] [st|c]];
    destruct H as [_ [H1 H2]]; [|exact H2].
  destruct H2 as [H2|[[_ H2]|[_ H2]]]; [|done|by destruct H2; apply memory_provider_reliable].
  unfold plan_accepted in Hp. by rewrite H2 in Hp.
Qed.

(** Slot B of the sample table is on trial. *)
Definition sample_trial : RibonUpdateSlotMetadata :=
  mkMetadata 416 1 0 0 1 2 1
    [mkEntry 0 RIBON_UPDATE_SLOT_CONFIRMED 1 7 (replicate 32 1) (replicate 32 2) (replicate 32 3)
       0 0 [0; 0; 0; 0];
     mkEntry 1 RIBON_UPDATE_SLOT_PENDING 1 8 (replicate 32 4) (replicate 32 5) (replicate 32 3)
       2 0 [0; 0; 0; 0]]
    (zeros 32) [0; 0; 0; 0].

Lemma sample_trial_typed : metadata_typed sample_trial.
Proof.
  assert (Hd : forall x, 0 <= x < 256 -> len (replicate 32 x) = 32 /\ octets (replicate 32 x)).
  { intros x Hx. split; [done|]. apply Forall_replicate. by apply word8. }
  constructor; try in_range; try done.
  repeat apply Forall_cons_2; [..|apply Forall_nil_2]; constructor; simpl; try in_range; try done;
    apply Hd; lia.
Qed.

Lemma sample_trial_accepted : plan_accepted None sample_trial 1 = true.
Proof. vm_compute. reflexivity. Qed.

Definition trial_media : media 8704 := provisioned sample_trial 1.
Definition trial_snapshot : RibonUpdateTransactionSnapshot := committed None sample_trial 1.

Lemma trial_media_opens d :
  media_state sample_provider trial_media d -> open_bytes sample_journal d = inr trial_snapshot.
Proof. apply provisioned_media; [apply sample_trial_typed|lia|apply sample_trial_accepted]. Qed.

(** The table with the trial image confirmed. *)
Definition sample_confirmed : RibonUpdateSlotMetadata :=
  Eval vm_compute in transition_result sample_trial (confirm_request trial_snapshot 1).

Lemma sample_confirmed_typed : metadata_typed sample_confirmed.
Proof.
  constructor; try in_range; try done.
  repeat apply Forall_cons_2; [..|apply Forall_nil_2]; constructor; simpl; try in_range; try done;
    split; try done; by apply octetsb_octets.
Qed.

Lemma trial_opens_now :
  open_bytes sample_journal (content (p:=sample_provider) trial_media) = inr trial_snapshot.
Proof. apply trial_media_opens. by left. Qed.

(** ** The properties on it *)

Lemma open_reads_media_witness :
  snd (ribon_update_transaction_open (Some sample_journal) (trial_media, unobserved)) = inr trial_snapshot.
Proof.
  destruct (ribon_update_transaction_open (Some sample_journal) (trial_media, unobserved))
    as [[w o] r] eqn:E.
  destruct (open_reads_media sample_provider sample_journal sample_layout _ _ _ _ _ sample_journal_ready E)
    as [_ [-> | (st & _ & _ & [])]].
  - exact trial_opens_now.
  - apply memory_provider_reliable.
Defined.

Lemma open_newest_witness :
  metadata_is_valid (Some (snapshot_metadata trial_snapshot)) = true /\
  journal_minimum_generation sample_journal <= snapshot_journal_generation trial_snapshot.
Proof.
  destruct (open_newest sample_provider sample_journal sample_layout 
    (content (p:=sample_provider) trial_media) trial_snapshot sample_journal_ready
    (len_content trial_media) (octets_content trial_media) trial_opens_now) as (H & _ & Hv & _).
  by split.
Defined.

(** Every media the confirming commit can leave holds the trial or its result. *)
Definition after_confirm : media 8704 :=
  fst (fst (commit_record sample_journal (Some trial_snapshot) sample_confirmed 1 (trial_media, unobserved))).

Lemma commit_crash_safe_witness :
  open_bytes sample_journal (content (p:=sample_provider) trial_media) = inr trial_snapshot /\
  forall d, media_state sample_provider after_confirm d ->
    open_bytes sample_journal d = inr trial_snapshot \/
    open_bytes sample_journal d = inr (committed (Some trial_snapshot) sample_confirmed 1).
Proof.
  split; [exact trial_opens_now|]. unfold after_confirm.
  destruct (commit_record sample_journal (Some trial_snapshot) sample_confirmed 1 (trial_media, unobserved))
    as [[w o] r] eqn:E.
  exact (proj1 (commit_crash_safe sample_provider sample_journal sample_layout trial_snapshot
    sample_confirmed 1 _ _ _ _ _ sample_journal_ready sample_untorn sample_confirmed_typed ltac:(lia)
    trial_media_opens E)).
Defined.

Lemma sample_confirmed_accepted : plan_accepted (Some trial_snapshot) sample_confirmed 1 = true.
Proof. vm_compute. reflexivity. Qed.

Lemma commit_completes_witness :
  snd (commit_record sample_journal (Some trial_snapshot) sample_confirmed 1 (trial_media, unobserved)) =
  inr (committed (Some trial_snapshot) sample_confirmed 1).
Proof.
  pose proof (commit_completes (O:=unit) sample_provider sample_journal sample_layout trial_snapshot
    sample_confirmed 1 trial_media sample_journal_ready sample_untorn (memory_provider_reliable _ _ _)
    sample_confirmed_typed ltac:(lia) trial_media_opens) as H.
  pose proof sample_confirmed_accepted as Hp. unfold plan_accepted in Hp.
  destruct (commit_plan (Some trial_snapshot) sample_confirmed 1); [discriminate|exact H].
Defined.

Lemma initialize_crash_safe_witness :
  open_bytes sample_journal (content (p:=sample_provider) blank_media) =
    inl RIBON_UPDATE_TRANSACTION_STATUS_UNINITIALIZED /\
  forall d, media_state sample_provider
      (fst (fst (ribon_update_transaction_initialize (Some sample_journal) (Some sample_metadata)
                   (blank_media, unobserved)))) d ->
    open_bytes sample_journal d = inl RIBON_UPDATE_TRANSACTION_STATUS_UNINITIALIZED \/
    open_bytes sample_journal d = inl RIBON_UPDATE_TRANSACTION_STATUS_CORRUPT \/
    open_bytes sample_journal d =
      inr (committed None sample_metadata (metadata_active_slot sample_metadata)).
Proof.
  split; [apply blank_uninitialized; by left|].
  destruct (ribon_update_transaction_initialize (Some sample_journal) (Some sample_metadata)
              (blank_media, unobserved)) as [[w o] r] eqn:E.
  cbn [fst].
  apply (initialize_crash_safe sample_provider sample_journal sample_layout sample_metadata
    blank_media unobserved o w r sample_journal_ready sample_untorn eq_refl sample_metadata_typed
    blank_uninitialized E).
Defined.

Lemma initialize_keeps_existing_witness :
  exists status,
    snd (ribon_update_transaction_initialize (Some sample_journal) (Some sample_metadata)
           (trial_media, unobserved)) = inl status.
Proof.
  destruct (ribon_update_transaction_initialize (Some sample_journal) (Some sample_metadata)
              (trial_media, unobserved)) as [[w o] r] eqn:E.
  exact (proj1 (initialize_keeps_existing sample_provider sample_journal sample_layout
    (Some sample_metadata) trial_snapshot trial_media unobserved o w r sample_journal_ready
    trial_opens_now E)).
Defined.

Definition sample_confirm_request : RibonUpdateConfirmPendingRequest (media 8704) unit :=
  mkConfirmRequest 104 1 0 1 8 (replicate 32 4) (Some sample_journal) unobserved [0; 0; 0; 0].

Lemma confirm_crash_safe_witness :
  open_bytes sample_journal (content (p:=sample_provider) trial_media) = inr trial_snapshot /\
  forall d, media_state sample_provider
      (fst (fst (ribon_update_transaction_confirm_pending (Some sample_confirm_request) trial_media))) d ->
    open_bytes sample_journal d = inr trial_snapshot \/
    exists c', confirmed sample_confirm_request trial_snapshot c' /\ open_bytes sample_journal d = inr c'.
Proof.
  split; [exact trial_opens_now|].
  destruct (ribon_update_transaction_confirm_pending (Some sample_confirm_request) trial_media)
    as [[w o] r] eqn:E.
  assert (Hr : request_typed sample_confirm_request) by (split; [vm_compute; discriminate|reflexivity]).
  exact (proj1 (confirm_crash_safe sample_provider sample_journal sample_layout sample_confirm_request
    trial_snapshot trial_media w o r sample_journal_ready sample_untorn Hr eq_refl trial_media_opens E)).
Defined.
