(* ===== verification/Plugin.v ===== *)
(** * Plugin and product descriptors ([src/core/plugin.c], [src/core/context.c])

    The descriptors a product links in, and their checks.  An [operations]
    pointer is an address; the typed validator a descriptor points to is code of
    the plugin: the model holds its verdict on that descriptor, [None] for a NULL
    pointer.  The constant tables that name enumerators are left out, except the
    mode names, which a mode descriptor is compared with. *)

From S2P Require Import Prelude.
From S2P Require Import Buffer.
From S2P Require Import Provider.
From S2P Require Import CString.

Definition RIBON_CORE_ABI_VERSION : Z := 7.
Definition RIBON_PLUGIN_REGISTRY_LIMIT : Z := 64.
Definition RIBON_SERVICE_DIRECTORY_LIMIT : Z := 64.
Definition RIBON_PLUGIN_DESCRIPTOR_MAGIC : Z := 0x5242504c.
Definition RIBON_PRODUCT_DESCRIPTOR_MAGIC : Z := 0x52425044.
Definition RIBON_PLUGIN_ABI_MAJOR : Z := 6.
Definition RIBON_PLUGIN_ABI_MINOR : Z := 0.
Definition RIBON_CAP_ALL : Z := Z.shiftl 1 31 - 1.
Definition RIBON_ARCH_MASK_ALL : Z := Z.shiftl 1 3 - 1.
Definition RIBON_ENV_MASK_ALL : Z := Z.shiftl 1 5 - 1.
Definition RIBON_PERSONALITY_MASK_ALL : Z := Z.shiftl 1 2 - 1.
Definition RIBON_MODE_MASK_ALL : Z := Z.shiftl 1 4 - 1.
Definition RIBON_MODE_MASK (mode : Z) : Z := u32 (Z.shiftl 1 mode).
Definition sizeof_RibonPluginDescriptor : Z := 128.
Definition sizeof_RibonProductDescriptor : Z := 144.
Definition sizeof_RibonModeDescriptor : Z := 88.

(** [x & ~mask] *)
Definition outside (x mask : Z) : Z := Z.land x (Z.lnot mask).

(** ** Capabilities *)

Definition RIBON_CAP_BOOT_SOURCE_READ : Z := Z.shiftl 1 0.
Definition RIBON_CAP_INACTIVE_SLOT_WRITE : Z := Z.shiftl 1 1.
Definition RIBON_CAP_INACTIVE_SLOT_ERASE : Z := Z.shiftl 1 2.
Definition RIBON_CAP_STORAGE_FLUSH : Z := Z.shiftl 1 3.
Definition RIBON_CAP_MONOTONIC_TIMER : Z := Z.shiftl 1 4.
Definition RIBON_CAP_WATCHDOG : Z := Z.shiftl 1 5.
Definition RIBON_CAP_RESET : Z := Z.shiftl 1 6.
Definition RIBON_CAP_PERSISTENT_METADATA : Z := Z.shiftl 1 7.
Definition RIBON_CAP_NETWORK_TRANSPORT : Z := Z.shiftl 1 8.
Definition RIBON_CAP_RANDOM_NONCE : Z := Z.shiftl 1 9.
Definition RIBON_CAP_DIAGNOSTIC_SINK : Z := Z.shiftl 1 10.
Definition RIBON_CAP_ENVIRONMENT_QUIESCE : Z := Z.shiftl 1 11.
Definition RIBON_CAP_BOOT_MODULE_BUNDLE : Z := Z.shiftl 1 12.
Definition RIBON_CAP_ARCHITECTURE : Z := Z.shiftl 1 16.
Definition RIBON_CAP_BOOT_PROTOCOL : Z := Z.shiftl 1 18.
Definition RIBON_CAP_HANDOFF : Z := Z.shiftl 1 19.
Definition RIBON_CAP_ENTRY_CONTRACT : Z := Z.shiftl 1 20.
Definition RIBON_CAP_MACHINE_DESCRIPTION : Z := Z.shiftl 1 23.
Definition RIBON_CAP_FIRMWARE_PERSONALITY : Z := Z.shiftl 1 24.
Definition RIBON_CAP_FIRMWARE_SERVICE_DIRECTORY : Z := Z.shiftl 1 25.
Definition RIBON_CAP_PAYLOAD_PLACEMENT : Z := Z.shiftl 1 27.
Definition RIBON_CAP_TERMINAL_IMAGE_LAUNCH : Z := Z.shiftl 1 29.

Definition RIBON_PLUGIN_KIND_ARCHITECTURE : Z := 0.
Definition RIBON_PLUGIN_KIND_ENVIRONMENT : Z := 1.
Definition RIBON_PLUGIN_KIND_FIRMWARE_PERSONALITY : Z := 5.
Definition RIBON_PLUGIN_KIND_SERVICE : Z := 6.
Definition RIBON_PLUGIN_PHASE_EARLY : Z := 0.
Definition RIBON_PLUGIN_PHASE_QUIESCE : Z := 4.
Definition RIBON_PLUGIN_PHASE_RUNTIME : Z := 5.
Definition RIBON_PRODUCT_KIND_INVALID : Z := 0.
Definition RIBON_PRODUCT_KIND_LIBRARY : Z := 1.
Definition RIBON_PRODUCT_KIND_BOOTLOADER : Z := 2.
Definition RIBON_PRODUCT_KIND_FIRMWARE : Z := 3.
Definition RIBON_MODE_NORMAL : Z := 0.
Definition RIBON_MODE_RECOVERY : Z := 1.
Definition RIBON_MODE_PROVISIONING : Z := 2.
Definition RIBON_MODE_DIAGNOSTIC : Z := 3.

(** ** Descriptors *)

Record RibonResourceLimits := mkLimits {
  max_memory_regions : Z;
  max_load_segments : Z;
  max_components : Z;
  max_retries : Z;
  max_input_bytes : Z;
  max_handoff_bytes : Z;
  arena_bytes : Z;
  operation_deadline_ms : Z;
}.

Record RibonPluginDescriptor := mkPlugin {
  plugin_magic : Z;
  plugin_size : Z;
  plugin_abi_major : Z;
  plugin_abi_minor : Z;
  plugin_kind : Z;
  plugin_phase : Z;
  plugin_id : cstring;
  plugin_provides : Z;
  plugin_requires : Z;
  plugin_architecture_mask : Z;
  plugin_environment_mask : Z;
  plugin_personality_mask : Z;
  plugin_mode_mask : Z;
  plugin_reserved : Z;
  plugin_arena_budget : Z;
  plugin_input_budget : Z;
  plugin_output_budget : Z;
  plugin_deadline_ms : Z;
  plugin_operations : Z;
  plugin_operations_size : Z;
  plugin_operations_abi : Z;
  plugin_validate_operations : option bool;
}.

(** One row of a product's selection tables. *)
Record Selection := mkSelection {
  selection_kind : Z;
  selection_id : cstring;
}.

(** A table pointer and its element count; a NULL table is [None]. *)
Record RibonProductDescriptor := mkProduct {
  product_magic : Z;
  product_size : Z;
  product_abi_version : Z;
  product_id : cstring;
  product_kind : Z;
  product_architecture_mask : Z;
  product_environment_mask : Z;
  product_personality_mask : Z;
  product_mode_mask : Z;
  product_max_plugins : Z;
  product_required_capabilities : Z;
  product_allowed_capabilities : Z;
  product_service_selections : option (list Selection);
  product_service_selection_count : Z;
  product_plugin_selections : option (list Selection);
  product_plugin_selection_count : Z;
  product_limits : RibonResourceLimits;
}.

Record RibonModeDescriptor := mkMode {
  mode_size : Z;
  mode_abi_version : Z;
  mode_mode : Z;
  mode_name : cstring;
  mode_required_capabilities : Z;
  mode_forbidden_capabilities : Z;
  mode_limits : RibonResourceLimits;
}.

(** ** Checks *)

Definition plugin_one_bit (value : Z) : bool :=
  (value !=? 0) && (Z.land value (u32 (value - 1)) =? 0).

Definition ribon_resource_limits_are_valid (limits : option RibonResourceLimits) : bool :=
  match limits with
  | None => false
  | Some l =>
    (max_memory_regions l !=? 0) && (max_load_segments l !=? 0) && (max_components l !=? 0) &&
    (max_retries l !=? 0) && (max_input_bytes l !=? 0) && (max_handoff_bytes l !=? 0) &&
    (arena_bytes l !=? 0) && (operation_deadline_ms l !=? 0) &&
    (max_load_segments l <=? max_components l) && (max_handoff_bytes l <=? arena_bytes l) &&
    (max_handoff_bytes l <=? max_input_bytes l)
  end.

Definition ribon_plugin_descriptor_is_valid (descriptor : option RibonPluginDescriptor) : bool :=
  match descriptor with
  | None => false
  | Some d =>
    if (plugin_magic d !=? RIBON_PLUGIN_DESCRIPTOR_MAGIC) ||
       (plugin_size d !=? sizeof_RibonPluginDescriptor) ||
       (plugin_abi_major d !=? RIBON_PLUGIN_ABI_MAJOR) ||
       (plugin_abi_minor d >? RIBON_PLUGIN_ABI_MINOR) ||
       (plugin_kind d <? RIBON_PLUGIN_KIND_ARCHITECTURE) ||
       (plugin_kind d >? RIBON_PLUGIN_KIND_SERVICE) ||
       (plugin_phase d <? RIBON_PLUGIN_PHASE_EARLY) ||
       (plugin_phase d >? RIBON_PLUGIN_PHASE_RUNTIME) ||
       cstring_empty (plugin_id d) || (plugin_provides d =? 0) ||
       (outside (plugin_provides d) RIBON_CAP_ALL !=? 0) ||
       (outside (plugin_requires d) RIBON_CAP_ALL !=? 0) ||
       (outside (plugin_architecture_mask d) RIBON_ARCH_MASK_ALL !=? 0) ||
       (plugin_architecture_mask d =? 0) ||
       (outside (plugin_environment_mask d) RIBON_ENV_MASK_ALL !=? 0) ||
       (outside (plugin_personality_mask d) RIBON_PERSONALITY_MASK_ALL !=? 0) ||
       ((plugin_environment_mask d =? 0) && (plugin_personality_mask d =? 0)) ||
       (outside (plugin_mode_mask d) RIBON_MODE_MASK_ALL !=? 0) ||
       (plugin_mode_mask d =? 0) || (plugin_reserved d !=? 0) || (plugin_arena_budget d =? 0) ||
       (plugin_input_budget d =? 0) || (plugin_output_budget d =? 0) ||
       (plugin_deadline_ms d =? 0) || (plugin_operations d =? 0) ||
       (plugin_operations_size d =? 0) || (plugin_operations_abi d =? 0) ||
       is_null (plugin_validate_operations d)
    then false
    else match plugin_validate_operations d with Some verdict => verdict | None => false end
  end.

Definition ribon_product_descriptor_is_valid (product : option RibonProductDescriptor) : bool :=
  match product with
  | None => false
  | Some p =>
    let frontend_is_valid :=
      (((product_kind p =? RIBON_PRODUCT_KIND_LIBRARY) ||
        (product_kind p =? RIBON_PRODUCT_KIND_BOOTLOADER)) &&
       plugin_one_bit (product_environment_mask p) && (product_personality_mask p =? 0)) ||
      ((product_kind p =? RIBON_PRODUCT_KIND_FIRMWARE) &&
       (product_environment_mask p =? 0) && plugin_one_bit (product_personality_mask p)) in
    if (product_magic p !=? RIBON_PRODUCT_DESCRIPTOR_MAGIC) ||
       (product_size p !=? sizeof_RibonProductDescriptor) ||
       (product_abi_version p !=? RIBON_CORE_ABI_VERSION) || cstring_empty (product_id p) ||
       (product_kind p <=? RIBON_PRODUCT_KIND_INVALID) ||
       (product_kind p >? RIBON_PRODUCT_KIND_FIRMWARE) ||
       negb (plugin_one_bit (product_architecture_mask p)) ||
       (outside (product_architecture_mask p) RIBON_ARCH_MASK_ALL !=? 0) ||
       (outside (product_environment_mask p) RIBON_ENV_MASK_ALL !=? 0) ||
       (outside (product_personality_mask p) RIBON_PERSONALITY_MASK_ALL !=? 0) ||
       negb frontend_is_valid || (product_mode_mask p =? 0) ||
       (outside (product_mode_mask p) RIBON_MODE_MASK_ALL !=? 0) ||
       (product_max_plugins p =? 0) || (product_max_plugins p >? RIBON_PLUGIN_REGISTRY_LIMIT) ||
       (outside (product_required_capabilities p) RIBON_CAP_ALL !=? 0) ||
       (outside (product_allowed_capabilities p) RIBON_CAP_ALL !=? 0) ||
       (outside (product_required_capabilities p) (product_allowed_capabilities p) !=? 0) ||
       (product_service_selection_count p >? RIBON_SERVICE_DIRECTORY_LIMIT) ||
       ((product_service_selection_count p !=? 0) && is_null (product_service_selections p)) ||
       (product_plugin_selection_count p >? RIBON_PLUGIN_REGISTRY_LIMIT) ||
       ((product_plugin_selection_count p !=? 0) && is_null (product_plugin_selections p))
    then false
    else ribon_resource_limits_are_valid (Some (product_limits p))
  end.

(** "normal", "recovery", "provisioning", "diagnostic", and "unknown" *)
Definition ribon_mode_name (mode : Z) : bytes :=
  if mode =? RIBON_MODE_NORMAL then [110; 111; 114; 109; 97; 108]
  else if mode =? RIBON_MODE_RECOVERY then [114; 101; 99; 111; 118; 101; 114; 121]
  else if mode =? RIBON_MODE_PROVISIONING
  then [112; 114; 111; 118; 105; 115; 105; 111; 110; 105; 110; 103]
  else if mode =? RIBON_MODE_DIAGNOSTIC
  then [100; 105; 97; 103; 110; 111; 115; 116; 105; 99]
  else [117; 110; 107; 110; 111; 119; 110].

Definition ribon_mode_descriptor_is_valid (mode : option RibonModeDescriptor) : bool :=
  match mode with
  | None => false
  | Some m =>
    if (mode_size m !=? sizeof_RibonModeDescriptor) ||
       (mode_abi_version m !=? RIBON_CORE_ABI_VERSION) ||
       (mode_mode m <? RIBON_MODE_NORMAL) || (mode_mode m >? RIBON_MODE_DIAGNOSTIC) ||
       is_null (mode_name m) || negb (core_streq (mode_name m) (Some (ribon_mode_name (mode_mode m)))) ||
       (outside (mode_required_capabilities m) RIBON_CAP_ALL !=? 0) ||
       (outside (mode_forbidden_capabilities m) RIBON_CAP_ALL !=? 0) ||
       (Z.land (mode_required_capabilities m) (mode_forbidden_capabilities m) !=? 0)
    then false
    else ribon_resource_limits_are_valid (Some (mode_limits m))
  end.
