(* ===== verification/Protocol.v ===== *)
(** * Boot protocols ([src/common/protocol.c])

    The checks of a boot protocol's descriptor and of the terminal request it
    seals.  The callbacks are the protocol's own code: one that the checks call is
    its result or a function, the others are addresses, 0 for NULL. *)

From S2P Require Import Prelude.
From S2P Require Import Buffer.
From S2P Require Import CString.
From S2P Require Import Plugin.

Definition RIBON_PLUGIN_KIND_BOOT_PROTOCOL : Z := 3.
Definition RIBON_CAP_BOOT_CONFIRMATION : Z := Z.shiftl 1 21.
Definition RIBON_BOOT_PROTOCOL_OPS_ABI_VERSION : Z := 5.
Definition RIBON_TERMINAL_REQUEST_ABI_VERSION : Z := 2.
Definition RIBON_ENTRY_INVOCATION_ABI_VERSION : Z := 1.
Definition RIBON_ENTRY_ARGUMENT_LIMIT : Z := 8.
Definition RIBON_TERMINAL_EXECUTION_DIRECT_ENTRY : Z := 0.
Definition RIBON_TERMINAL_EXECUTION_FIRMWARE_MANAGED_IMAGE : Z := 1.
Definition RIBON_TERMINAL_LOAD_OPTIONS_NONE : Z := 0.
Definition RIBON_TERMINAL_LOAD_OPTIONS_UTF8_COMMAND_LINE : Z := 1.
Definition RIBON_EXECUTABLE_FORMAT_UNKNOWN : Z := 0.
Definition RIBON_IMAGE_FORMAT_MASK (format : Z) : Z := Z.shiftl 1 format.
Definition RIBON_PROTOCOL_STATUS_OK : Z := 0.
Definition RIBON_PROTOCOL_STATUS_UNSUPPORTED : Z := -2.
Definition sizeof_RibonEntryInvocation : Z := 104.
Definition sizeof_RibonTerminalRequest : Z := 144.
Definition sizeof_RibonBootProtocolOps : Z := 56.
Definition sizeof_RibonBootProtocol : Z := 64.

Record RibonEntryInvocation := mkEntryInvocation {
  invocation_size : Z;
  invocation_abi_version : Z;
  invocation_entry_address : Z;
  invocation_register_abi : Z;
  invocation_argument_count : Z;
  invocation_arguments : list Z;
  invocation_interrupts : Z;
  invocation_privilege : Z;
  invocation_translation : Z;
}.

Record RibonFirmwareManagedImageRequest := mkManagedImage {
  managed_load_options_kind : Z;
  managed_load_options_size : Z;
  managed_load_options : Z;
  managed_watchdog_timeout_ms : Z;
}.

Record RibonTerminalRequest := mkTerminalRequest {
  terminal_size : Z;
  terminal_abi_version : Z;
  terminal_kind : Z;
  terminal_reserved : Z;
  terminal_direct_entry : RibonEntryInvocation;
  terminal_managed_image : RibonFirmwareManagedImageRequest;
}.

Record RibonBootHealthPayload := mkHealthPayload {
  health_size : Z;
  health_abi_version : Z;
  health_bytes : option bytes;
  health_byte_size : Z;
  health_digest : bytes;
}.

Record RibonBootProtocolOps := mkProtocolOps {
  protocol_ops_size : Z;
  protocol_ops_abi_version : Z;
  protocol_match : Z;
  protocol_validate_components : Z;
  (** the formats the callback selects *)
  protocol_select_image_formats : option Z;
  protocol_prepare_handoff : Z;
  protocol_prepare_terminal : Z;
  protocol_validate_boot_health : option (RibonBootHealthPayload -> Z);
}.

Record RibonBootProtocol := mkBootProtocol {
  protocol_size : Z;
  protocol_abi_version : Z;
  protocol_id : cstring;
  protocol_kernel_path : cstring;
  protocol_terminal_execution : Z;
  protocol_expectations : Z;
  protocol_supported_modes : Z;
  protocol_handoff_format : cstring;
  protocol_handoff_major : Z;
  protocol_ops : option RibonBootProtocolOps;
}.

Definition terminal_direct_entry_is_zero (entry : RibonEntryInvocation) : bool :=
  if (invocation_size entry !=? 0) || (invocation_abi_version entry !=? 0) ||
     (invocation_entry_address entry !=? 0) || (invocation_register_abi entry !=? 0) ||
     (invocation_argument_count entry !=? 0) || (invocation_interrupts entry !=? 0) ||
     (invocation_privilege entry !=? 0) || (invocation_translation entry !=? 0)
  then false
  else forallb (fun index => nth (Z.to_nat index) (invocation_arguments entry) 0 =? 0) (upto RIBON_ENTRY_ARGUMENT_LIMIT).

Definition terminal_managed_image_is_zero (managed : RibonFirmwareManagedImageRequest) : bool :=
  (managed_load_options_kind managed =? RIBON_TERMINAL_LOAD_OPTIONS_NONE) &&
  (managed_load_options_size managed =? 0) && (managed_load_options managed =? 0) &&
  (managed_watchdog_timeout_ms managed =? 0).

Definition ribon_terminal_request_is_valid (request : option RibonTerminalRequest) : bool :=
  match request with
  | None => false
  | Some r =>
    let direct := terminal_direct_entry r in
    let managed := terminal_managed_image r in
    if (terminal_size r !=? sizeof_RibonTerminalRequest) ||
       (terminal_abi_version r !=? RIBON_TERMINAL_REQUEST_ABI_VERSION) || (terminal_reserved r !=? 0)
    then false
    else if terminal_kind r =? RIBON_TERMINAL_EXECUTION_FIRMWARE_MANAGED_IMAGE
    then
      terminal_direct_entry_is_zero direct &&
      (managed_load_options_kind managed >=? RIBON_TERMINAL_LOAD_OPTIONS_NONE) &&
      (managed_load_options_kind managed <=? RIBON_TERMINAL_LOAD_OPTIONS_UTF8_COMMAND_LINE) &&
      (managed_watchdog_timeout_ms managed !=? 0) &&
      (((managed_load_options_kind managed =? RIBON_TERMINAL_LOAD_OPTIONS_NONE) &&
        (managed_load_options_size managed =? 0) && (managed_load_options managed =? 0)) ||
       ((managed_load_options_kind managed =? RIBON_TERMINAL_LOAD_OPTIONS_UTF8_COMMAND_LINE) &&
        (managed_load_options_size managed !=? 0) && (managed_load_options managed !=? 0)))
    else
      (terminal_kind r =? RIBON_TERMINAL_EXECUTION_DIRECT_ENTRY) &&
      terminal_managed_image_is_zero managed &&
      (invocation_size direct =? sizeof_RibonEntryInvocation) &&
      (invocation_abi_version direct =? RIBON_ENTRY_INVOCATION_ABI_VERSION) &&
      (invocation_entry_address direct !=? 0) &&
      (invocation_argument_count direct <=? RIBON_ENTRY_ARGUMENT_LIMIT)
  end.

Definition ribon_boot_protocol_is_valid (protocol : option RibonBootProtocol) : bool :=
  match protocol with
  | None => false
  | Some p =>
    match protocol_ops p with
    | None => false
    | Some ops =>
      if (protocol_size p !=? sizeof_RibonBootProtocol) || (protocol_abi_version p =? 0) ||
         cstring_empty (protocol_id p) || is_null (protocol_kernel_path p) ||
         (protocol_supported_modes p =? 0) ||
         (Z.land (protocol_supported_modes p) (u32 (Z.lnot RIBON_MODE_MASK_ALL)) !=? 0) ||
         ((protocol_terminal_execution p !=? RIBON_TERMINAL_EXECUTION_DIRECT_ENTRY) &&
          (protocol_terminal_execution p !=? RIBON_TERMINAL_EXECUTION_FIRMWARE_MANAGED_IMAGE)) ||
         (protocol_ops_size ops !=? sizeof_RibonBootProtocolOps) ||
         (protocol_ops_abi_version ops !=? RIBON_BOOT_PROTOCOL_OPS_ABI_VERSION) ||
         (protocol_match ops =? 0) || (protocol_validate_components ops =? 0) ||
         is_null (protocol_select_image_formats ops) || (protocol_prepare_terminal ops =? 0) ||
         is_null (protocol_validate_boot_health ops)
      then false
      else if if protocol_terminal_execution p =? RIBON_TERMINAL_EXECUTION_DIRECT_ENTRY
              then is_null (protocol_handoff_format p) || (protocol_handoff_major p =? 0) ||
                   (protocol_prepare_handoff ops =? 0)
              else negb (is_null (protocol_handoff_format p)) || (protocol_handoff_major p !=? 0) ||
                   (protocol_prepare_handoff ops !=? 0)
      then false
      else
        let formats := default 0 (protocol_select_image_formats ops) in
        (formats !=? 0) &&
        (Z.land formats (RIBON_IMAGE_FORMAT_MASK RIBON_EXECUTABLE_FORMAT_UNKNOWN) =? 0)
    end
  end.

Definition ribon_boot_protocol_has_expectation (protocol : option RibonBootProtocol) (expectation : Z) : bool :=
  match protocol with
  | None => false
  | Some p =>
    ribon_boot_protocol_is_valid protocol && (Z.land (protocol_expectations p) expectation =? expectation)
  end.

Definition ribon_boot_protocol_validate_boot_health (protocol : option RibonBootProtocol)
    (payload : RibonBootHealthPayload) : Z :=
  if negb (ribon_boot_protocol_is_valid protocol) then RIBON_PROTOCOL_STATUS_UNSUPPORTED
  else
    match (p ← protocol; ops ← protocol_ops p; protocol_validate_boot_health ops) with
    | Some validate => validate payload
    | None => RIBON_PROTOCOL_STATUS_UNSUPPORTED
    end.

(** [operations] is the table the descriptor's pointer names. *)
Definition ribon_protocol_plugin_operations_are_valid (descriptor : option RibonPluginDescriptor)
    (operations : option RibonBootProtocol) : bool :=
  match descriptor with
  | None => false
  | Some d =>
    if (plugin_kind d !=? RIBON_PLUGIN_KIND_BOOT_PROTOCOL) ||
       (plugin_operations_size d !=? sizeof_RibonBootProtocol) ||
       (plugin_operations_abi d =? 0) || (plugin_operations d =? 0)
    then false
    else
      match operations with
      | None => false
      | Some p =>
        let required := Z.lor RIBON_CAP_BOOT_PROTOCOL RIBON_CAP_BOOT_CONFIRMATION in
        let required :=
          if protocol_terminal_execution p =? RIBON_TERMINAL_EXECUTION_DIRECT_ENTRY
          then Z.lor required (Z.lor RIBON_CAP_HANDOFF RIBON_CAP_ENTRY_CONTRACT) else required in
        ribon_boot_protocol_is_valid operations && (plugin_provides d =? required) &&
        (protocol_abi_version p =? plugin_operations_abi d) &&
        (protocol_supported_modes p =? plugin_mode_mask d)
      end
  end.
