(* ===== verification/Registry.v ===== *)
(** * The plugin registry ([src/core/registry.c])

    Validation of the plugins a product links in: each descriptor against the
    product, the authorities and budgets, and the dependency graph, which must
    have an initialisation order.  The registry's array and its element count are
    separate, as in C; an index in range names a pointer, which may be NULL until
    the first loop has checked it. *)

From S2P Require Import Prelude.
From S2P Require Import Buffer.
From S2P Require Import Memory.
From S2P Require Import Provider.
From S2P Require Import CString.
From S2P Require Import Plugin.

Definition sizeof_RibonPluginRegistry : Z := 24.

Record RibonPluginRegistry := mkRegistry {
  registry_size : Z;
  registry_abi_version : Z;
  registry_plugins : option (list (option RibonPluginDescriptor));
  registry_plugin_count : Z;
}.

Definition zero_plugin : RibonPluginDescriptor :=
  mkPlugin 0 0 0 0 0 0 None 0 0 0 0 0 0 0 0 0 0 0 0 0 0 None.

(** [registry->plugins[index]] *)
Definition plugin_at (r : RibonPluginRegistry) (index : Z) : option RibonPluginDescriptor :=
  match registry_plugins r with
  | Some plugins => nth (Z.to_nat index) plugins None
  | None => None
  end.

(** The descriptor it points to. *)
Definition plugin_ref (r : RibonPluginRegistry) (index : Z) : RibonPluginDescriptor :=
  default zero_plugin (plugin_at r index).

(** The characters of an identifier that is not NULL. *)
Definition chars (s : cstring) : bytes := default [] s.

(** [product->plugin_selections[index]] *)
Definition plugin_selection_at (p : RibonProductDescriptor) (index : Z) : Selection :=
  nth (Z.to_nat index) (default [] (product_plugin_selections p)) (mkSelection 0 None).

(** ** Capability classes *)

Definition registry_capability_is_authority (capability : Z) : bool :=
  (capability =? RIBON_CAP_ARCHITECTURE) || (capability =? RIBON_CAP_FIRMWARE_PERSONALITY) ||
  (capability =? RIBON_CAP_FIRMWARE_SERVICE_DIRECTORY).

Definition registry_capability_is_service (capability : Z) : bool :=
  existsb (Z.eqb capability)
    [RIBON_CAP_BOOT_SOURCE_READ; RIBON_CAP_INACTIVE_SLOT_WRITE; RIBON_CAP_INACTIVE_SLOT_ERASE;
     RIBON_CAP_STORAGE_FLUSH; RIBON_CAP_MONOTONIC_TIMER; RIBON_CAP_WATCHDOG; RIBON_CAP_RESET;
     RIBON_CAP_PERSISTENT_METADATA; RIBON_CAP_NETWORK_TRANSPORT; RIBON_CAP_RANDOM_NONCE;
     RIBON_CAP_DIAGNOSTIC_SINK; RIBON_CAP_ENVIRONMENT_QUIESCE; RIBON_CAP_MACHINE_DESCRIPTION;
     RIBON_CAP_PAYLOAD_PLACEMENT; RIBON_CAP_BOOT_MODULE_BUNDLE; RIBON_CAP_TERMINAL_IMAGE_LAUNCH].

(** ** Lookup *)

Definition registry_is_selected_provider (product : RibonProductDescriptor)
    (plugin : RibonPluginDescriptor) (capability : Z) : bool :=
  existsb (fun index =>
      let selection := plugin_selection_at product index in
      (selection_kind selection =? plugin_kind plugin) && negb (is_null (selection_id selection)) &&
      (registry_strcmp (chars (selection_id selection)) (chars (plugin_id plugin)) =? 0) &&
      (Z.land (plugin_provides plugin) capability !=? 0))
    (upto (product_plugin_selection_count product)).

Definition ribon_plugin_registry_find (registry : option RibonPluginRegistry) (kind : Z) (id : cstring)
  : option RibonPluginDescriptor :=
  match registry, id with
  | Some r, Some i =>
    match registry_plugins r with
    | None => None
    | Some _ =>
      head (omap (fun index =>
        match plugin_at r index with
        | Some plugin =>
          if (plugin_kind plugin =? kind) && (registry_strcmp (chars (plugin_id plugin)) i =? 0)
          then Some plugin else None
        | None => None
        end) (upto (registry_plugin_count r)))
    end
  | _, _ => None
  end.

Definition registry_plugin_selections_are_valid (registry : RibonPluginRegistry)
    (product : RibonProductDescriptor) : bool :=
  forallb (fun index =>
      let selection := plugin_selection_at product index in
      negb ((selection_kind selection <? RIBON_PLUGIN_KIND_ARCHITECTURE) ||
            (selection_kind selection >? RIBON_PLUGIN_KIND_SERVICE) ||
            cstring_empty (selection_id selection) ||
            ((index !=? 0) &&
             (selection_kind (plugin_selection_at product (index - 1)) >=? selection_kind selection)) ||
            is_null (ribon_plugin_registry_find (Some registry) (selection_kind selection)
                       (selection_id selection))))
    (upto (product_plugin_selection_count product)).

(** The only plugin of a kind, if there is exactly one. *)
Definition only_of_kind (r : RibonPluginRegistry) (kind : Z) : option RibonPluginDescriptor :=
  match filter (fun i => plugin_kind (plugin_ref r i) = kind) (upto (registry_plugin_count r)) with
  | [i] => plugin_at r i
  | _ => None
  end.

Definition ribon_plugin_registry_find_selected (registry : option RibonPluginRegistry)
    (product : option RibonProductDescriptor) (kind : Z) : option RibonPluginDescriptor :=
  match registry, product with
  | Some r, Some p =>
    match filter (fun i => selection_kind (plugin_selection_at p i) = kind)
            (upto (product_plugin_selection_count p)) with
    | i :: _ => ribon_plugin_registry_find registry kind (selection_id (plugin_selection_at p i))
    | [] => only_of_kind r kind
    end
  | _, _ => None
  end.

(** ** The provider of a capability *)

(** The variables of the search: found, selected, count. *)
Definition provider_step (r : RibonPluginRegistry) (product : RibonProductDescriptor) (capability : Z)
    (a : Z * Z * Z) (index : Z) : RibonCoreStatus + Z * Z * Z :=
  let '(found, selected, count) := a in
  let plugin := plugin_ref r index in
  if Z.land (plugin_provides plugin) capability =? 0 then inr a
  else
    let found' := if found =? RIBON_PLUGIN_REGISTRY_LIMIT then index else found in
    if registry_is_selected_provider product plugin capability
    then if selected !=? RIBON_PLUGIN_REGISTRY_LIMIT
         then inl RIBON_CORE_STATUS_AMBIGUOUS_SELECTION
         else inr (found', index, u32 (count + 1))
    else inr (found', selected, u32 (count + 1)).

(** The status, or the provider's index. *)
Definition registry_provider (registry : RibonPluginRegistry) (product : RibonProductDescriptor)
    (capability : Z) : RibonCoreStatus + Z :=
  match foldE (provider_step registry product capability) (upto (registry_plugin_count registry))
          (RIBON_PLUGIN_REGISTRY_LIMIT, RIBON_PLUGIN_REGISTRY_LIMIT, 0) with
  | inl status => inl status
  | inr (found, selected, count) =>
    if count =? 0 then inl RIBON_CORE_STATUS_MISSING_CAPABILITY
    else if registry_capability_is_authority capability
    then if count !=? 1 then inl RIBON_CORE_STATUS_DUPLICATE_PROVIDER else inr found
    else if selected !=? RIBON_PLUGIN_REGISTRY_LIMIT then inr selected
    else if count !=? 1 then inl RIBON_CORE_STATUS_AMBIGUOUS_SELECTION
    else inr found
  end.

(** ** Validation *)

(** What the first loop adds up. *)
Record tally := mkTally {
  tally_aggregate : Z;
  tally_arena_budget : Z;
  tally_architecture : Z;
  tally_environment : Z;
  tally_personality : Z;
}.

Definition count_if (c : bool) (n : Z) : Z := u32 (n + if c then 1 else 0).

Definition plugin_step (registry : RibonPluginRegistry) (product : RibonProductDescriptor) (mode : Z)
    (t : tally) (index : Z) : RibonCoreStatus + tally :=
  match plugin_at registry index with
  | None => inl RIBON_CORE_STATUS_INVALID_DESCRIPTOR
  | Some plugin =>
    let frontend_matches :=
      if product_kind product =? RIBON_PRODUCT_KIND_FIRMWARE
      then Z.land (plugin_personality_mask plugin) (product_personality_mask product) !=? 0
      else Z.land (plugin_environment_mask plugin) (product_environment_mask product) !=? 0 in
    let limits := product_limits product in
    if negb (ribon_plugin_descriptor_is_valid (Some plugin)) ||
       (Z.land (plugin_architecture_mask plugin) (product_architecture_mask product) =? 0) ||
       negb frontend_matches ||
       (Z.land (plugin_mode_mask plugin) (RIBON_MODE_MASK mode) =? 0) ||
       (outside (plugin_provides plugin) (product_allowed_capabilities product) !=? 0) ||
       (plugin_input_budget plugin >? max_input_bytes limits) ||
       (plugin_output_budget plugin >? max_handoff_bytes limits) ||
       (plugin_deadline_ms plugin >? operation_deadline_ms limits) ||
       ((plugin_phase plugin =? RIBON_PLUGIN_PHASE_RUNTIME) &&
        (product_kind product !=? RIBON_PRODUCT_KIND_FIRMWARE)) ||
       ((plugin_kind plugin =? RIBON_PLUGIN_KIND_FIRMWARE_PERSONALITY) &&
        (product_kind product !=? RIBON_PRODUCT_KIND_FIRMWARE)) ||
       ((plugin_kind plugin =? RIBON_PLUGIN_KIND_ENVIRONMENT) &&
        (product_kind product =? RIBON_PRODUCT_KIND_FIRMWARE)) ||
       ((index !=? 0) &&
        (registry_strcmp (chars (plugin_id (plugin_ref registry (index - 1))))
           (chars (plugin_id plugin)) >=? 0))
    then inl RIBON_CORE_STATUS_INVALID_DESCRIPTOR
    else if tally_arena_budget t >? UINT64_MAX - plugin_arena_budget plugin
    then inl RIBON_CORE_STATUS_BAD_LIMIT
    else
      inr (mkTally (Z.lor (tally_aggregate t) (plugin_provides plugin))
             (tally_arena_budget t + plugin_arena_budget plugin)
             (count_if (plugin_kind plugin =? RIBON_PLUGIN_KIND_ARCHITECTURE) (tally_architecture t))
             (count_if (plugin_kind plugin =? RIBON_PLUGIN_KIND_ENVIRONMENT) (tally_environment t))
             (count_if (plugin_kind plugin =? RIBON_PLUGIN_KIND_FIRMWARE_PERSONALITY)
                (tally_personality t)))
  end.

Definition capability_of (bit : Z) : Z := Z.shiftl 1 bit.

(** How many plugins provide a capability. *)
Definition providers (r : RibonPluginRegistry) (capability : Z) : Z :=
  len (filter (fun i => Z.land (plugin_provides (plugin_ref r i)) capability <> 0)
         (upto (registry_plugin_count r))).

Definition duplicate_authority (r : RibonPluginRegistry) : bool :=
  existsb (fun bit => registry_capability_is_authority (capability_of bit) &&
             (providers r (capability_of bit) >? 1)) (upto 64).

Definition missing_required (product : RibonProductDescriptor) (aggregate : Z) : bool :=
  existsb (fun bit =>
    let capability := capability_of bit in
    (Z.land (product_required_capabilities product) capability !=? 0) &&
    negb (registry_capability_is_service capability) &&
    (Z.land aggregate capability =? 0)) (upto 64).

(** ** The dependency graph

    [dependencies[p]] is the set of consumers of [p], one bit each, and
    [indegree[c]] the number of distinct providers of [c]. *)

Record graph := mkGraph {
  indegree : list Z;
  dependencies : list Z;
}.

Definition word_at (l : list Z) (i : Z) : Z := nth (Z.to_nat i) l 0.
Definition set_word (l : list Z) (i v : Z) : list Z := <[Z.to_nat i := v]> l.

Definition edge_step (registry : RibonPluginRegistry) (product : RibonProductDescriptor) (aggregate : Z)
    (consumer : Z) (g : graph) (bit : Z) : RibonCoreStatus + graph :=
  let capability := capability_of bit in
  if Z.land (plugin_requires (plugin_ref registry consumer)) capability =? 0 then inr g
  else if registry_capability_is_service capability && (Z.land aggregate capability =? 0)
  then if Z.land (product_required_capabilities product) capability =? 0
       then inl RIBON_CORE_STATUS_MISSING_CAPABILITY
       else inr g
  else
    match registry_provider registry product capability with
    | inl status => inl status
    | inr provider =>
      if provider =? consumer then inl RIBON_CORE_STATUS_DEPENDENCY_CYCLE
      else if plugin_phase (plugin_ref registry provider) >? plugin_phase (plugin_ref registry consumer)
      then inl RIBON_CORE_STATUS_PHASE_INVERSION
      else if Z.land (word_at (dependencies g) provider) (Z.shiftl 1 consumer) =? 0
      then inr (mkGraph (set_word (indegree g) consumer (u32 (word_at (indegree g) consumer + 1)))
                  (set_word (dependencies g) provider
                     (Z.lor (word_at (dependencies g) provider) (Z.shiftl 1 consumer))))
      else inr g
    end.

Definition build_graph (registry : RibonPluginRegistry) (product : RibonProductDescriptor)
    (aggregate : Z) : RibonCoreStatus + graph :=
  foldE (fun g consumer => foldE (edge_step registry product aggregate consumer) (upto 64) g)
    (upto (registry_plugin_count registry))
    (mkGraph (zeros RIBON_PLUGIN_REGISTRY_LIMIT) (zeros RIBON_PLUGIN_REGISTRY_LIMIT)).

(** ** The initialisation order

    [ready] is an array used as a stack of [ready_count] elements. *)

Record walk := mkWalk {
  walk_indegree : list Z;
  ready : list Z;
  ready_count : Z;
  visited : Z;
}.

Definition push (w : walk) (i : Z) : walk :=
  mkWalk (walk_indegree w) (set_word (ready w) (ready_count w) i) (u32 (ready_count w + 1)) (visited w).

Definition push_ready (w : walk) (index : Z) : walk :=
  if word_at (walk_indegree w) index =? 0 then push w index else w.

(** [--indegree[consumer]], and the consumer is ready at 0. *)
Definition release (consumers : Z) (w : walk) (consumer : Z) : walk :=
  if Z.land consumers (Z.shiftl 1 consumer) =? 0 then w
  else
    push_ready (mkWalk (set_word (walk_indegree w) consumer (u32 (word_at (walk_indegree w) consumer - 1)))
                  (ready w) (ready_count w) (visited w)) consumer.

(** The body of [while (ready_count != 0)]. *)
Definition visit (count : Z) (deps : list Z) (w : walk) : walk :=
  let provider := word_at (ready w) (ready_count w - 1) in
  fold_left (release (word_at deps provider)) (upto count)
    (mkWalk (walk_indegree w) (ready w) (ready_count w - 1) (u32 (visited w + 1))).

(** [None] is out of fuel. *)
Fixpoint walk_loop (fuel : nat) (count : Z) (deps : list Z) (w : walk) : option walk :=
  match fuel with
  | O => None
  | S fuel => if ready_count w =? 0 then Some w else walk_loop fuel count deps (visit count deps w)
  end.

(** Each iteration visits a plugin for the first time. *)
Definition order_exists (count : Z) (g : graph) : option bool :=
  let start :=
    fold_left push_ready (upto count)
      (mkWalk (indegree g) (zeros RIBON_PLUGIN_REGISTRY_LIMIT) 0 0) in
  match walk_loop (S (Z.to_nat count)) count (dependencies g) start with
  | Some w => Some (visited w =? count)
  | None => None
  end.

(** [None] is out of fuel, which the theorems exclude. *)
Definition ribon_plugin_registry_validate (registry : option RibonPluginRegistry)
    (product : option RibonProductDescriptor) (mode : Z) : option RibonCoreStatus :=
  match registry, product with
  | Some r, Some p =>
    if (registry_size r !=? sizeof_RibonPluginRegistry) ||
       (registry_abi_version r !=? RIBON_CORE_ABI_VERSION) || is_null (registry_plugins r) ||
       (registry_plugin_count r =? 0) || negb (ribon_product_descriptor_is_valid product) ||
       (mode <? RIBON_MODE_NORMAL) || (mode >? RIBON_MODE_DIAGNOSTIC) ||
       (registry_plugin_count r >? product_max_plugins p)
    then Some RIBON_CORE_STATUS_INVALID_DESCRIPTOR
    else
      match foldE (plugin_step r p mode) (upto (registry_plugin_count r)) (mkTally 0 0 0 0 0) with
      | inl status => Some status
      | inr t =>
        if negb (registry_plugin_selections_are_valid r p)
        then Some RIBON_CORE_STATUS_INVALID_DESCRIPTOR
        else if duplicate_authority r then Some RIBON_CORE_STATUS_DUPLICATE_PROVIDER
        else if (tally_arena_budget t >? arena_bytes (product_limits p)) ||
                ((product_kind p =? RIBON_PRODUCT_KIND_BOOTLOADER) &&
                 ((tally_architecture t !=? 1) || (tally_environment t !=? 1) ||
                  (tally_personality t !=? 0))) ||
                ((product_kind p =? RIBON_PRODUCT_KIND_FIRMWARE) &&
                 ((tally_architecture t !=? 1) || (tally_personality t !=? 1) ||
                  (tally_environment t !=? 0)))
        then Some RIBON_CORE_STATUS_MISSING_CAPABILITY
        else if missing_required p (tally_aggregate t) then Some RIBON_CORE_STATUS_MISSING_CAPABILITY
        else
          match build_graph r p (tally_aggregate t) with
          | inl status => Some status
          | inr g =>
            match order_exists (registry_plugin_count r) g with
            | None => None
            | Some true => Some RIBON_CORE_STATUS_OK
            | Some false => Some RIBON_CORE_STATUS_DEPENDENCY_CYCLE
            end
          end
      end
  | _, _ => Some RIBON_CORE_STATUS_INVALID_DESCRIPTOR
  end.
