(* ===== verification/RegistryOrder.v ===== *)
(** * The initialisation order of the registry

    The work-list of [ribon_plugin_registry_validate] finds an order in which
    every plugin comes after its providers whenever there is one, and terminates
    in as many steps as there are plugins, without ever writing outside its
    64-element stack. *)

From S2P Require Import Prelude.
From S2P Require Import Buffer.
From S2P Require Import Plugin.
From S2P Require Import Registry.

(** ** Bit sets and arrays *)

Lemma word_at_set l i j v : 0 <= i -> 0 <= j -> i < len l ->
  word_at (set_word l i v) j = if decide (j = i) then v else word_at l j.
Proof.
  intros Hi Hj Hl. unfold word_at, set_word, len in *. rewrite !nth_lookup.
  destruct (decide (j = i)) as [->|]; [by rewrite list_lookup_insert_eq by lia|].
  by rewrite list_lookup_insert_ne by lia.
Qed.

Lemma len_set_word l i v : len (set_word l i v) = len l.
Proof. unfold len, set_word. by rewrite length_insert. Qed.

Lemma take_push l k v : 0 <= k -> k < len l ->
  take (Z.to_nat (k + 1)) (set_word l k v) = take (Z.to_nat k) l ++ [v].
Proof.
  intros Hk Hl. unfold set_word, len in *. replace (Z.to_nat (k + 1)) with (S (Z.to_nat k)) by lia.
  erewrite take_S_r; [|apply list_lookup_insert_eq; lia]. by rewrite take_insert_ge by lia.
Qed.

Lemma take_pop l k : 0 < k -> k <= len l ->
  take (Z.to_nat k) l = take (Z.to_nat (k - 1)) l ++ [word_at l (k - 1)].
Proof.
  intros Hk Hl. unfold word_at, len in *. replace (Z.to_nat k) with (S (Z.to_nat (k - 1))) by lia.
  apply take_S_r. rewrite nth_lookup. destruct (l !! Z.to_nat (k - 1)) eqn:E; [done|].
  apply lookup_ge_None_1 in E. lia.
Qed.

Lemma upto_in n i : i ∈ upto n <-> 0 <= i < n.
Proof. rewrite elem_of_seqZ. lia. Qed.

Lemma upto_succ n : 0 <= n -> upto (Z.succ n) = upto n ++ [n].
Proof. intros. unfold Z.succ. rewrite seqZ_app by lia. by rewrite Z.add_0_l. Qed.

Lemma len_upto n : 0 <= n -> len (upto n) = n.
Proof. intros. unfold len. rewrite length_seqZ. lia. Qed.

(** Distinct indices below [n] are at most [n], and exactly [n] are all of them. *)
Lemma distinct_bound (l : list Z) n : 0 <= n -> NoDup l -> (forall x, x ∈ l -> 0 <= x < n) -> len l <= n.
Proof.
  intros Hn Hl Hb. rewrite <- (len_upto n Hn). unfold len. apply inj_le, submseteq_length.
  apply NoDup_submseteq; [done|]. intros x Hx. by apply upto_in, Hb.
Qed.

Lemma distinct_all (l : list Z) n : NoDup l -> (forall x, x ∈ l -> 0 <= x < n) -> len l = n -> l ≡ₚ upto n.
Proof.
  intros Hl Hb Hn. assert (0 <= n) by (rewrite <- Hn; apply len_nonneg).
  apply submseteq_length_Permutation.
  - apply NoDup_submseteq; [done|]. intros x Hx. by apply upto_in, Hb.
  - pose proof (len_upto n H). unfold len in *. lia.
Qed.

(** Dropping one member from a filtered range. *)
Lemma filter_remove (P Q : Z -> Prop) `{!forall x, Decision (P x), !forall x, Decision (Q x)} l q :
  NoDup l -> Q q -> ~ P q -> (forall x, x ∈ l -> x <> q -> P x <-> Q x) ->
  len (filter Q l) = len (filter P l) + if decide (q ∈ l) then 1 else 0.
Proof.
  intros Hl HQ HP. unfold len. induction Hl as [|x l Hx Hl IH]; intros Heq; [done|].
  assert (Heq' : forall y, y ∈ l -> y <> q -> P y <-> Q y) by (intros; apply Heq; [by right|done]).
  specialize (IH Heq'). destruct (decide (x = q)) as [->|Hne].
  - rewrite filter_cons_True, filter_cons_False by done. simpl length.
    rewrite (decide_False (P:=q ∈ l)) in IH by done. rewrite decide_True by left. lia.
  - assert (Hin : q ∈ x :: l <-> q ∈ l) by (rewrite elem_of_cons; naive_solver).
    assert (HPQ : P x <-> Q x) by (apply Heq; [left|done]).
    rewrite (decide_ext _ _ 1 0 Hin).
    destruct (decide (Q x)) as [HQx|HQx].
    + assert (HPx : P x) by by apply HPQ. rewrite !filter_cons_True by done. simpl length. lia.
    + assert (HPx : ~ P x) by by rewrite HPQ. rewrite !filter_cons_False by done. exact IH.
Qed.

Lemma filter_iff_in (P Q : Z -> Prop) `{!forall x, Decision (P x), !forall x, Decision (Q x)} (l : list Z) :
  (forall x, x ∈ l -> P x <-> Q x) -> filter P l = filter Q l.
Proof.
  induction l as [|x l IH]; intros Hl; [done|].
  assert (HPQ : P x <-> Q x) by (apply Hl; left).
  rewrite !filter_cons, IH by (intros; apply Hl; by right).
  destruct (decide (P x)), (decide (Q x)); tauto.
Qed.

(** ** Orders *)

Section Order.
Context (n : Z) (Hn : 0 <= n <= 64) (deps : list Z).

(** [c] uses [p]. *)
Definition edge (p c : Z) : Prop := Z.testbit (word_at deps p) c = true.

#[global] Instance edge_decision p c : Decision (edge p c).
Proof. unfold edge. apply _. Defined.

(** Every plugin once, each after the ones it uses. *)
Definition init_order (l : list Z) : Prop :=
  l ≡ₚ upto n /\ forall before c after, l = before ++ c :: after ->
    forall p, 0 <= p < n -> edge p c -> p ∈ before.

(** The providers of [c] that are not in [v]. *)
Definition waiting (v : list Z) (c : Z) : list Z := filter (fun p => (p ∉ v) /\ edge p c) (upto n).

Lemma waiting_nil v c : len (waiting v c) = 0 <-> forall p, 0 <= p < n -> edge p c -> p ∈ v.
Proof.
  unfold waiting, len. split.
  - intros H p Hp He. destruct (decide (p ∈ v)) as [|Hv]; [done|].
    assert (Hin : p ∈ filter (fun p => (p ∉ v) /\ edge p c) (upto n)).
    { apply list_elem_of_filter. split; [done|]. by apply upto_in. }
    destruct (filter _ _); [by apply not_elem_of_nil in Hin|simpl in H; lia].
  - intros H. destruct (filter _ _) as [|p l] eqn:E; [done|].
    assert (Hin : p ∈ filter (fun p => (p ∉ v) /\ edge p c) (upto n)) by (rewrite E; left).
    apply list_elem_of_filter in Hin as [[Hv He] Hp]. apply upto_in in Hp. by destruct Hv; apply H.
Qed.

(** Visiting [q] leaves its consumers one provider less to wait for. *)
Lemma waiting_visit v c q : 0 <= q < n -> q ∉ v ->
  len (waiting v c) = len (waiting (v ++ [q]) c) + if Z.testbit (word_at deps q) c then 1 else 0.
Proof.
  intros Hq Hv. unfold waiting. destruct (Z.testbit (word_at deps q) c) eqn:He.
  - rewrite (filter_remove (fun p => (p ∉ v ++ [q]) /\ edge p c) _ (upto n) q).
    + by rewrite decide_True by by apply upto_in.
    + apply NoDup_seqZ.
    + done.
    + intros [H _]. apply H, elem_of_app. right. by apply list_elem_of_singleton.
    + intros x _ Hx. rewrite elem_of_app, list_elem_of_singleton. naive_solver.
  - rewrite Z.add_0_r. f_equal. apply list_filter_iff. intros x.
    rewrite elem_of_app, list_elem_of_singleton. unfold edge.
    destruct (decide (x = q)) as [->|]; [rewrite He; naive_solver|naive_solver].
Qed.

(** ** The work-list *)

(** The contents of the stack. *)
Definition stack (w : walk) : list Z := take (Z.to_nat (ready_count w)) (ready w).

(** [v] has been visited, in this order; the plugins that wait for nobody have
    been visited or are on the stack. *)
Record walk_ok (v : list Z) (w : walk) (left : Z -> Z) : Prop := {
  ok_ready : len (ready w) = 64;
  ok_indegree : len (walk_indegree w) = 64;
  ok_count : 0 <= ready_count w <= 64;
  ok_visited : visited w = len v;
  ok_distinct : NoDup (v ++ stack w);
  ok_range : forall x, x ∈ v ++ stack w -> 0 <= x < n;
  ok_left : forall c, 0 <= c < n -> word_at (walk_indegree w) c = left c;
  ok_zero : forall c, 0 <= c < n -> c ∈ v ++ stack w <-> left c = 0;
  ok_order : forall before c after, v = before ++ c :: after ->
    forall p, 0 <= p < n -> edge p c -> p ∈ before;
}.

Lemma len_stack w : 0 <= ready_count w -> ready_count w <= len (ready w) -> len (stack w) = ready_count w.
Proof. intros. unfold stack, len in *. rewrite length_take. lia. Qed.

Lemma walk_room v w left : walk_ok v w left -> len v + ready_count w <= n.
Proof.
  intros [Hr _ Hc _ Hd Hb _ _ _]. pose proof (distinct_bound (v ++ stack w) n ltac:(lia) Hd Hb) as H.
  rewrite len_app, len_stack in H by lia. lia.
Qed.

(** Pushing a plugin that waits for nobody and is not there yet. *)
Lemma push_ok v w left left' c :
  walk_ok v w left -> 0 <= c < n -> left c <> 0 -> left' c = 0 ->
  (forall x, 0 <= x < n -> x <> c -> left' x = left x) ->
  walk_ok v (push (mkWalk (set_word (walk_indegree w) c 0) (ready w) (ready_count w) (visited w)) c) left'.
Proof.
  intros Hok Hc Hl Hl' Heq. pose proof (walk_room _ _ _ Hok) as Hroom.
  destruct Hok as [Hr Hi Hcount Hv Hd Hb Hleft Hz Ho].
  assert (Hnew : c ∉ v ++ stack w) by (rewrite Hz by done; done).
  assert (Hlt : ready_count w < 64).
  { pose proof (distinct_bound ((v ++ stack w) ++ [c]) n ltac:(lia)) as H.
    rewrite !len_app, len_stack in H by lia. pose proof (len_nonneg v).
    enough (len v + ready_count w + len [c] <= n) by (change (len [c]) with 1 in *; lia).
    apply H.
    - apply NoDup_app. split_and!; [done| |apply NoDup_singleton].
      intros x Hx ->%list_elem_of_singleton. done.
    - intros x [Hx|Hx]%elem_of_app; [by apply Hb|]. by apply list_elem_of_singleton in Hx as ->. }
  assert (Hst : v ++ stack (push (mkWalk (set_word (walk_indegree w) c 0) (ready w) (ready_count w)
                  (visited w)) c) = (v ++ stack w) ++ [c]).
  { unfold stack, push. cbn [ready ready_count]. rewrite wrap_small by (apply word32; unfold UINT32_MAX; lia).
    rewrite take_push by lia. by rewrite app_assoc. }
  constructor; rewrite ?Hst; try done.
  - by rewrite <- Hr; apply len_set_word.
  - by rewrite <- Hi; apply len_set_word.
  - cbn. rewrite wrap_small by (apply word32; unfold UINT32_MAX; lia). lia.
  - apply NoDup_app. split_and!; [done| |apply NoDup_singleton].
    intros x Hx ->%list_elem_of_singleton. done.
  - intros x [Hx|Hx]%elem_of_app; [by apply Hb|]. by apply list_elem_of_singleton in Hx as ->.
  - intros x Hx. cbn [push walk_indegree]. rewrite word_at_set by lia.
    destruct (decide (x = c)) as [->|]; [done|]. rewrite Heq by done. by apply Hleft.
  - intros x Hx. rewrite elem_of_app, list_elem_of_singleton.
    destruct (decide (x = c)) as [->|Hne]; [naive_solver|]. rewrite Heq, <- Hz by done. naive_solver.
Qed.

Lemma waiting_bound v c : 0 <= len (waiting v c) <= 64.
Proof.
  pose proof (length_filter (fun p => (p ∉ v) /\ edge p c) (upto n)) as H.
  pose proof (len_upto n ltac:(lia)). unfold waiting, len in *. lia.
Qed.

Lemma walk_ok_ext v w left left' :
  (forall c, 0 <= c < n -> left' c = left c) -> walk_ok v w left -> walk_ok v w left'.
Proof.
  intros Heq [Hr Hi Hcount Hv Hd Hb Hleft Hz Ho]. constructor; try done.
  - intros c Hc. rewrite Heq by done. by apply Hleft.
  - intros c Hc. rewrite Heq by done. by apply Hz.
Qed.

(** One consumer of the visited plugin [q]. *)
Lemma release_ok v w left left' q c :
  walk_ok (v ++ [q]) w left -> 0 <= q < n -> q ∉ v -> 0 <= c < n ->
  left c = len (waiting v c) -> left' c = len (waiting (v ++ [q]) c) ->
  (forall x, 0 <= x < n -> x <> c -> left' x = left x) ->
  walk_ok (v ++ [q]) (release (word_at deps q) w c) left'.
Proof.
  intros Hok Hq Hv Hc Hl Hl' Heq. unfold release. rewrite land_bit by lia.
  pose proof (waiting_visit v c q Hq Hv) as Hw. pose proof (waiting_bound (v ++ [q]) c) as Hbound.
  destruct (Z.testbit (word_at deps q) c) eqn:He; simpl.
  2:{ apply (walk_ok_ext _ _ left); [|done]. intros x Hx.
      destruct (decide (x = c)) as [->|]; [lia|by apply Heq]. }
  pose proof Hok as [Hr Hi Hcount Hvis Hd Hb Hleft Hz Ho].
  unfold push_ready. cbn [walk_indegree]. rewrite (Hleft c Hc), Hl, Hw, word_at_set by lia.
  rewrite decide_True by done. replace (len (waiting (v ++ [q]) c) + 1 - 1) with (left' c) by lia.
  rewrite wrap_small by (apply word32; unfold UINT32_MAX; lia).
  destruct (Z.eqb_spec (left' c) 0) as [Hzero|Hnz].
  - rewrite Hzero. apply (push_ok _ _ left); try done. lia.
  - constructor; try done.
    + by rewrite <- Hi; apply len_set_word.
    + intros x Hx. cbn [walk_indegree]. rewrite word_at_set by lia.
      destruct (decide (x = c)) as [->|]; [done|]. rewrite Heq by done. by apply Hleft.
    + intros x Hx. change (stack _) with (stack w). destruct (decide (x = c)) as [->|Hne].
      * rewrite Hz by done. lia.
      * rewrite Heq by done. by apply Hz.
Qed.

Lemma release_all v w q k :
  walk_ok (v ++ [q]) w (fun c => len (waiting v c)) -> 0 <= q < n -> q ∉ v -> 0 <= k <= n ->
  walk_ok (v ++ [q]) (fold_left (release (word_at deps q)) (upto k) w)
    (fun c => if c <? k then len (waiting (v ++ [q]) c) else len (waiting v c)).
Proof.
  intros Hok Hq Hv Hk. assert (Hk0 : 0 <= k) by lia. revert Hk. pattern k. apply natlike_ind; [..|lia].
  - intros _. eapply walk_ok_ext, Hok. intros c Hc. by rewrite (proj2 (Z.ltb_ge c 0)) by lia.
  - intros i Hi IH Hk'. specialize (IH ltac:(lia)).
    rewrite upto_succ, fold_left_app by lia. cbn [fold_left].
    eapply release_ok; [exact IH|done|done|lia|..].
    + cbv beta. by destruct (Z.ltb_spec i i); [lia|].
    + cbv beta. by destruct (Z.ltb_spec i (Z.succ i)); [|lia].
    + intros x Hx Hne. cbv beta. destruct (Z.ltb_spec x i), (Z.ltb_spec x (Z.succ i)); lia || done.
Qed.

(** One iteration of the loop. *)
Lemma visit_ok v w :
  walk_ok v w (fun c => len (waiting v c)) -> ready_count w <> 0 ->
  exists q, walk_ok (v ++ [q]) (visit n deps w) (fun c => len (waiting (v ++ [q]) c)).
Proof.
  intros Hok Hne. pose proof (walk_room _ _ _ Hok) as Hroom. pose proof (len_nonneg v) as Hlv.
  destruct Hok as [Hr Hi Hcount Hvis Hd Hb Hleft Hz Ho]. set (q := word_at (ready w) (ready_count w - 1)).
  assert (Hst : stack w = take (Z.to_nat (ready_count w - 1)) (ready w) ++ [q])
    by (apply take_pop; lia).
  assert (Hperm : v ++ stack w ≡ₚ (v ++ [q]) ++ take (Z.to_nat (ready_count w - 1)) (ready w))
    by (rewrite Hst; solve_Permutation).
  assert (Hqin : q ∈ v ++ stack w) by (rewrite Hst, !elem_of_app, list_elem_of_singleton; auto).
  pose proof (Hb q Hqin) as Hq.
  assert (Hqv : q ∉ v).
  { rewrite Hst in Hd. apply NoDup_app in Hd as (_ & Hd & _). intros Hin. apply (Hd q Hin).
    apply elem_of_app. right. by apply list_elem_of_singleton. }
  exists q. unfold visit. fold q.
  eapply walk_ok_ext; [|apply release_all with (k := n); [|done|done|lia]].
  { intros c Hc. cbv beta. by destruct (Z.ltb_spec c n); [|lia]. }
  constructor; cbn; try done.
  - lia.
  - rewrite len_app, Hvis. change (len [q]) with 1. apply wrap_small, word32. unfold UINT32_MAX. lia.
  - unfold stack. cbn. by rewrite <- Hperm.
  - intros x. unfold stack. cbn. rewrite <- Hperm. apply Hb.
  - intros c Hc. unfold stack. cbn. rewrite <- Hperm. by apply Hz.
  - intros before c after Heq p Hp He.
    destruct (decide (after = [])) as [->|Hafter].
    + apply app_inj_tail in Heq as [-> ->]. apply (waiting_nil before c); [|done|done]. by apply Hz.
    + destruct (exists_last Hafter) as (after' & y & ->).
      rewrite app_comm_cons, app_assoc in Heq. apply app_inj_tail in Heq as [-> ->]. by eapply Ho.
Qed.

(** The loop ends within its fuel. *)
Lemma walk_loop_ok fuel v w :
  walk_ok v w (fun c => len (waiting v c)) -> n - len v < Z.of_nat fuel ->
  exists v' w', walk_loop fuel n deps w = Some w' /\ ready_count w' = 0 /\
    walk_ok v' w' (fun c => len (waiting v' c)).
Proof.
  revert v w. induction fuel as [|fuel IH]; intros v w Hok Hf.
  { pose proof (walk_room _ _ _ Hok). pose proof (ok_count _ _ _ Hok). lia. }
  simpl. destruct (Z.eqb_spec (ready_count w) 0) as [|Hne]; [by exists v, w|].
  destruct (visit_ok v w Hok Hne) as [q Hok']. apply (IH (v ++ [q])); [done|].
  rewrite len_app. change (len [q]) with 1. lia.
Qed.

(** With an empty stack, all were visited exactly when an order exists. *)
Lemma visited_all v w :
  walk_ok v w (fun c => len (waiting v c)) -> ready_count w = 0 ->
  visited w = n <-> exists l, init_order l.
Proof.
  intros [Hr Hi Hcount Hvis Hd Hb Hleft Hz Ho] H0. rewrite Hvis.
  assert (Hst : stack w = []) by (unfold stack; by rewrite H0).
  rewrite Hst, app_nil_r in *. split.
  - intros Hlen. exists v. split; [by apply distinct_all|done].
  - intros [l [Hperm Hl]].
    assert (Hall : forall before after, l = before ++ after -> forall x, x ∈ before -> x ∈ v).
    { induction before as [|c before IH] using rev_ind; intros after Heq x Hx; [by apply not_elem_of_nil in Hx|].
      rewrite <- app_assoc in Heq. simpl in Heq.
      apply elem_of_app in Hx as [Hx|Hx]; [by eapply IH|]. apply list_elem_of_singleton in Hx as ->.
      assert (Hc : 0 <= c < n).
      { apply upto_in. rewrite <- Hperm, Heq, elem_of_app. right. left. }
      apply (Hz c Hc), waiting_nil. intros p Hp He. eapply IH; [done|]. by eapply Hl. }
    pose proof (distinct_bound v n ltac:(lia) Hd Hb) as Hle.
    assert (Hge : n <= len v); [|lia].
    rewrite <- (len_upto n) by lia. unfold len. apply inj_le, submseteq_length, NoDup_submseteq.
    + apply NoDup_seqZ.
    + intros x Hx. eapply (Hall l []); [by rewrite app_nil_r|]. by rewrite Hperm.
Qed.

(** ** The start *)

(** The in-degrees count the providers. *)
Definition graph_ok (degrees : list Z) : Prop :=
  len degrees = 64 /\ forall c, 0 <= c < n -> word_at degrees c = len (waiting [] c).

Lemma push_ready_all degrees k : len degrees = 64 -> 0 <= k <= n ->
  let w := fold_left push_ready (upto k) (mkWalk degrees (zeros 64) 0 0) in
  walk_indegree w = degrees /\ visited w = 0 /\ len (ready w) = 64 /\
  stack w = filter (fun c => word_at degrees c = 0) (upto k) /\ 0 <= ready_count w <= k.
Proof.
  intros Hd Hk. assert (Hk0 : 0 <= k) by lia. revert Hk. pattern k. apply natlike_ind; [done| |done].
  intros i Hi IH Hk. destruct (IH ltac:(lia)) as (H1 & H2 & H3 & H4 & H5). clear IH. cbv zeta in *.
  rewrite upto_succ, fold_left_app, filter_app by lia. cbn [fold_left].
  set (w := fold_left push_ready (upto i) _) in *. unfold push_ready. rewrite H1.
  destruct (Z.eqb_spec (word_at degrees i) 0) as [E|E].
  - rewrite filter_cons_True, filter_nil by done. unfold push, stack.
    cbn [walk_indegree ready ready_count visited].
    rewrite wrap_small by (apply word32; unfold UINT32_MAX; lia). rewrite take_push, len_set_word by lia.
    fold (stack w). rewrite H4. split_and!; try done; lia.
  - rewrite filter_cons_False, filter_nil, app_nil_r by done. split_and!; try done; lia.
Qed.

(** The search decides whether there is an initialisation order. *)
Lemma order_exists_spec g : dependencies g = deps -> graph_ok (indegree g) ->
  exists b, order_exists n g = Some b /\ (b = true <-> exists l, init_order l).
Proof.
  intros Hdeps [Hlen Hcount]. unfold order_exists. rewrite Hdeps.
  destruct (push_ready_all (indegree g) n Hlen ltac:(lia)) as (H1 & H2 & H3 & H4 & H5).
  unfold RIBON_PLUGIN_REGISTRY_LIMIT. set (w := fold_left push_ready (upto n) _) in *.
  assert (Hok : walk_ok [] w (fun c => len (waiting [] c))).
  { constructor; try done.
    - by rewrite H1.
    - lia.
    - simpl. rewrite H4. apply NoDup_filter, NoDup_seqZ.
    - intros x. simpl. rewrite H4, list_elem_of_filter. intros [_ Hx]. by apply upto_in.
    - intros c Hc. rewrite H1. by apply Hcount.
    - intros c Hc. simpl. rewrite H4, list_elem_of_filter, upto_in, Hcount by done. tauto.
    - by intros [|] ? ?. }
  destruct (walk_loop_ok (S (Z.to_nat n)) [] w Hok) as (v & w' & -> & H0 & Hok').
  { change (len (@nil Z)) with 0. lia. }
  exists (visited w' =? n). split; [done|]. rewrite Z.eqb_eq. by eapply visited_all.
Qed.
End Order.
