(* ===== verification/RegistryProperties.v ===== *)
(** * What registry validation guarantees

    The dependency graph the validator builds is the use relation of the
    plugins; together with the work-list (RegistryOrder) this gives the
    registry's contract: a registry is accepted only with an initialisation order
    in which every capability a plugin requires is provided earlier. *)

From S2P Require Import Prelude.
From S2P Require Import Buffer.
From S2P Require Import Memory.
From S2P Require Import CString.
From S2P Require Import Plugin.
From S2P Require Import Registry.
From S2P Require Import RegistryOrder.

Section Graph.
Context (r : RibonPluginRegistry) (p : RibonProductDescriptor) (aggregate : Z).
Let n := registry_plugin_count r.
Context (Hn : 0 <= n <= 64).

(** [i] provides capability [bit]. *)
Definition provides_bit (i bit : Z) : Prop :=
  Z.land (plugin_provides (plugin_ref r i)) (capability_of bit) <> 0.

(** The services directory provides it, not a plugin. *)
Definition external (bit : Z) : bool :=
  registry_capability_is_service (capability_of bit) && (Z.land aggregate (capability_of bit) =? 0).

(** Capability [bit] is required by [c] and the plugin that provides it is [i]. *)
Definition uses_bit (c bit i : Z) : Prop :=
  Z.land (plugin_requires (plugin_ref r c)) (capability_of bit) <> 0 /\ external bit = false /\
  registry_provider r p (capability_of bit) = inr i.

Lemma registry_provider_spec bit i :
  registry_provider r p (capability_of bit) = inr i -> 0 <= i < n /\ provides_bit i bit.
Proof.
  unfold registry_provider. fold n.
  destruct (foldE _ _ _) as [|[[found selected] count]] eqn:H; [done|].
  set (good := fun (done : list Z) i => (i ∈ done) /\ provides_bit i bit).
  assert (Hinv : (found = 64 /\ count = 0 \/ good (upto n) found) /\
                 (selected = 64 \/ good (upto n) selected)).
  { apply (foldE_inv _ (fun done '(found, selected, count) =>
      (found = 64 /\ count = 0 \/ good done found) /\ (selected = 64 \/ good done selected)) _ _ _ H);
      [simpl; auto|].
    intros done x rest [[f s] k] [[f' s'] k'] Hl [Hf Hs] Hstep.
    assert (Hx : forall i, good done i -> good (done ++ [x]) i).
    { intros y [Hy ?]. split; [|done]. apply elem_of_app. by left. }
    unfold provider_step in Hstep. destruct (Z.eqb_spec (Z.land (plugin_provides (plugin_ref r x)) (capability_of bit)) 0) as [|Hne].
    { injection Hstep as <- <- <-. naive_solver. }
    assert (Hgx : good (done ++ [x]) x).
    { split; [|done]. apply elem_of_app. right. by apply list_elem_of_singleton. }
    unfold RIBON_PLUGIN_REGISTRY_LIMIT in Hstep.
    assert (Hf' : good (done ++ [x]) (if f =? 64 then x else f)).
    { destruct (Z.eqb_spec f 64); [done|]. naive_solver lia. }
    destruct (registry_is_selected_provider _ _ _).
    - destruct (negb _); [done|]. injection Hstep as <- <- <-. auto.
    - injection Hstep as <- <- <-. naive_solver. }
  assert (Hup : forall x, good (upto n) x -> 0 <= x < n /\ provides_bit x bit)
    by (intros x [Hx ?]; split; [by apply upto_in|done]).
  destruct Hinv as [Hf Hs]. unfold RIBON_PLUGIN_REGISTRY_LIMIT.
  destruct (Z.eqb_spec count 0); [done|]. assert (Hf' : good (upto n) found) by naive_solver.
  destruct (registry_capability_is_authority _).
  - destruct (negb _); [done|]. injection 1 as <-. by apply Hup.
  - destruct (Z.eqb_spec selected 64); simpl.
    + destruct (negb _); [done|]. injection 1 as <-. by apply Hup.
    + injection 1 as <-. apply Hup. naive_solver.
Qed.

(** The graph after the pairs of [done] were examined. *)
Record built (g : graph) (done : Z -> Z -> Prop) : Prop := {
  built_len : len (dependencies g) = 64;
  built_degrees : graph_ok n (dependencies g) (indegree g);
  built_edges : forall i c, 0 <= i < n -> 0 <= c < n ->
    edge (dependencies g) i c <-> exists bit, done c bit /\ uses_bit c bit i;
}.

(** The relation between a plugin and the one it uses that validation insists on. *)
Definition earlier (i c : Z) : Prop :=
  i <> c /\ plugin_phase (plugin_ref r i) <= plugin_phase (plugin_ref r c).

(** What an examined pair guarantees. *)
Definition settled_bit (c bit : Z) : Prop :=
  (Z.land (plugin_requires (plugin_ref r c)) (capability_of bit) <> 0 ->
   external bit = true /\ Z.land (product_required_capabilities p) (capability_of bit) <> 0 \/
   exists i, uses_bit c bit i) /\
  forall i, uses_bit c bit i -> earlier i c.

Lemma add_edge deps degrees i c :
  len deps = 64 -> graph_ok n deps degrees -> 0 <= i < n -> 0 <= c < n -> ~ edge deps i c ->
  let deps' := set_word deps i (Z.lor (word_at deps i) (Z.shiftl 1 c)) in
  graph_ok n deps' (set_word degrees c (u32 (word_at degrees c + 1))) /\
  forall x y, 0 <= x < n -> 0 <= y < n -> edge deps' x y <-> edge deps x y \/ x = i /\ y = c.
Proof.
  intros Hl [Hd Hw] Hi Hc Hne deps'.
  assert (He : forall x y, 0 <= x -> 0 <= y -> edge deps' x y <-> edge deps x y \/ x = i /\ y = c).
  { intros x y Hx Hy. unfold edge, deps'. rewrite word_at_set by lia.
    destruct (decide (x = i)) as [->|]; [|naive_solver].
    rewrite Z.lor_spec, Z.shiftl_1_l, orb_true_iff. destruct (decide (y = c)) as [->|].
    - rewrite Z.pow2_bits_true by lia. naive_solver.
    - rewrite Z.pow2_bits_false by lia. naive_solver. }
  split; [|intros; apply He; lia]. split; [by rewrite len_set_word|].
  intros y Hy. rewrite word_at_set by lia. destruct (decide (y = c)) as [->|Hyc].
  - rewrite (Hw c Hc). pose proof (waiting_bound n Hn deps [] c) as Hb.
    assert (Hgrow : len (waiting n deps' [] c) = len (waiting n deps [] c) + 1).
    { unfold waiting. rewrite (filter_remove (fun q => (q ∉ []) /\ edge deps q c) _ (upto n) i).
      - by rewrite decide_True by by apply upto_in.
      - apply NoDup_seqZ.
      - split; [apply not_elem_of_nil|]. apply He; [lia..|]. by right.
      - naive_solver.
      - intros q Hq Hne'. apply upto_in in Hq. rewrite He by lia. naive_solver. }
    rewrite Hgrow, wrap_small; [done|]. apply word32. unfold UINT32_MAX. lia.
  - rewrite (Hw y Hy). f_equal. unfold waiting. apply filter_iff_in. intros x Hx.
    apply upto_in in Hx. rewrite He by lia. naive_solver.
Qed.

(** Examining one capability of one consumer. *)
Lemma edge_step_built consumer bit g g' done :
  0 <= consumer < n -> built g done -> edge_step r p aggregate consumer g bit = inr g' ->
  built g' (fun c b => done c b \/ c = consumer /\ b = bit) /\ settled_bit consumer bit.
Proof.
  intros Hc [Hl Hg He] Hstep. unfold edge_step in Hstep. fold (external bit) in Hstep.
  assert (Hskip : (forall i, ~ uses_bit consumer bit i) ->
    built g (fun c b => done c b \/ c = consumer /\ b = bit)).
  { intros Hno. constructor; [done..|]. intros i c Hi Hc'. rewrite He by done.
    split; [naive_solver|]. intros (b & [Hb|[-> ->]] & Hu); [by exists b|]. by apply Hno in Hu. }
  destruct (Z.eqb_spec (Z.land (plugin_requires (plugin_ref r consumer)) (capability_of bit)) 0) as [Hz|Hreq].
  { injection Hstep as <-. split; [apply Hskip; by intros i []|]. split; [done|by intros i []]. }
  destruct (external bit) eqn:Hext.
  { destruct (Z.eqb_spec (Z.land (product_required_capabilities p) (capability_of bit)) 0); [done|].
    assert (Hno : forall i, ~ uses_bit consumer bit i) by (intros i (_ & H & _); congruence).
    injection Hstep as <-. split; [by apply Hskip|]. split; [auto|]. by intros i ?%Hno. }
  destruct (registry_provider r p (capability_of bit)) as [|i] eqn:Hp; [done|].
  destruct (registry_provider_spec bit i Hp) as [Hi _].
  destruct (Z.eqb_spec i consumer); [done|].
  destruct (Z.ltb_spec (plugin_phase (plugin_ref r consumer)) (plugin_phase (plugin_ref r i))); [done|].
  assert (Huse : forall i', uses_bit consumer bit i' <-> i' = i).
  { intros i'. unfold uses_bit. rewrite Hp. naive_solver. }
  split; [|split; [intros _; right; exists i; by apply Huse|intros i' ->%Huse; split; [done|lia]]].
  rewrite land_bit in Hstep by lia.
  destruct (Z.testbit (word_at (dependencies g) i) consumer) eqn:Hb; simpl in Hstep; injection Hstep as <-.
  - constructor; [done..|]. intros i' c Hi' Hc'. rewrite He by done. split; [naive_solver|].
    intros (b & [Hb'|[-> ->]] & Hu); [by exists b|]. apply Huse in Hu as ->. by apply He.
  - assert (Hne : ~ edge (dependencies g) i consumer) by (unfold edge; congruence).
    destruct (add_edge _ _ i consumer Hl Hg Hi Hc Hne) as [Hg' He'].
    constructor; cbn [dependencies indegree]; [by rewrite len_set_word|done|].
    intros i' c Hi' Hc'. rewrite He', He by done. split.
    + intros [(b & ? & ?)|[-> ->]]; [exists b; auto|]. exists bit. split; [by right|by apply Huse].
    + intros (b & [?|[-> ->]] & Hu); [left; eauto|]. right. apply Huse in Hu as ->. done.
Qed.

Lemma built_ext g (P Q : Z -> Z -> Prop) : (forall c b, P c b <-> Q c b) -> built g P -> built g Q.
Proof. intros H [Hl Hg He]. constructor; [done..|]. intros i c Hi Hc. rewrite He by done. by setoid_rewrite H. Qed.

Lemma word_at_zeros k i : word_at (zeros k) i = 0.
Proof.
  unfold word_at, zeros. rewrite nth_lookup. destruct (replicate _ _ !! _) as [x|] eqn:E; [|done].
  by apply lookup_replicate in E as [-> _].
Qed.

(** No consumer examined yet. *)
Lemma built_start : built (mkGraph (zeros 64) (zeros 64)) (fun c bit => c ∈ [] /\ 0 <= bit < 64).
Proof.
  assert (Hno : forall i c, ~ edge (zeros 64) i c).
  { intros i c. unfold edge. by rewrite word_at_zeros, Z.bits_0. }
  constructor; [done|split; [done|]|].
  - intros c Hc. cbn [indegree dependencies]. rewrite word_at_zeros. symmetry.
    apply waiting_nil. intros i _ He. by apply Hno in He.
  - intros i c Hi Hc. split; [by intros ?%Hno|]. by intros (bit & [?%not_elem_of_nil _] & _).
Qed.

(** All the capabilities of one consumer. *)
Lemma consumer_built g g' consumer done :
  0 <= consumer < n -> built g done -> foldE (edge_step r p aggregate consumer) (upto 64) g = inr g' ->
  built g' (fun c b => done c b \/ c = consumer /\ 0 <= b < 64) /\
  forall bit, 0 <= bit < 64 -> settled_bit consumer bit.
Proof.
  intros Hc Hg H.
  set (inv := fun (bits : list Z) g => built g (fun c b => done c b \/ c = consumer /\ b ∈ bits) /\
    forall bit, bit ∈ bits -> settled_bit consumer bit).
  assert (Hinv : inv (upto 64) g').
  { apply (foldE_inv _ inv _ _ _ H).
    - split; [|by intros bit ?%not_elem_of_nil]. eapply built_ext, Hg. intros c b.
      split; [by left|]. intros [|[_ ?%not_elem_of_nil]]; done.
    - intros bits bit rest b b' _ [Hb Hu] Hstep.
      destruct (edge_step_built consumer bit b b' _ Hc Hb Hstep) as [Hb' Hu']. split.
      + eapply built_ext, Hb'. intros c x. rewrite elem_of_app, list_elem_of_singleton. tauto.
      + intros x [Hx| ->%list_elem_of_singleton]%elem_of_app; eauto. }
  destruct Hinv as [Hb Hu]. split.
  - eapply built_ext, Hb. intros c x. cbv beta. by rewrite upto_in.
  - intros bit Hbit. apply Hu. by apply upto_in.
Qed.

Lemma build_graph_built g : build_graph r p aggregate = inr g ->
  built g (fun c bit => 0 <= c < n /\ 0 <= bit < 64) /\
  forall c bit, 0 <= c < n -> 0 <= bit < 64 -> settled_bit c bit.
Proof.
  unfold build_graph, RIBON_PLUGIN_REGISTRY_LIMIT. fold n. intros H.
  set (inv := fun (done : list Z) g => built g (fun c bit => c ∈ done /\ 0 <= bit < 64) /\
    forall c bit, c ∈ done -> 0 <= bit < 64 -> settled_bit c bit).
  assert (Hinv : inv (upto n) g).
  { apply (foldE_inv _ inv _ _ _ H).
    - split; [apply built_start|]. by intros c bit ?%not_elem_of_nil.
    - intros done c rest b b' Hl [Hb Hu] Hstep.
      assert (Hc : 0 <= c < n) by (apply upto_in; rewrite Hl, elem_of_app; right; left).
      destruct (consumer_built b b' c _ Hc Hb Hstep) as [Hb' Hu']. split.
      + eapply built_ext, Hb'. intros x bit. rewrite elem_of_app, list_elem_of_singleton. tauto.
      + intros x bit [Hx| ->%list_elem_of_singleton]%elem_of_app; eauto. }
  destruct Hinv as [Hb Hu]. split.
  - eapply built_ext, Hb. intros c bit. cbv beta. by rewrite upto_in.
  - intros c bit Hc. apply Hu. by apply upto_in.
Qed.
End Graph.

(** ** The first loop *)

Definition sum_over (f : Z -> Z) (l : list Z) : Z := fold_right Z.add 0 (f <$> l).

Lemma sum_over_snoc f l x : sum_over f (l ++ [x]) = sum_over f l + f x.
Proof.
  unfold sum_over. induction l as [|y l IH]; [cbn; lia|].
  rewrite <- app_comm_cons, !fmap_cons. cbn [fold_right]. lia.
Qed.

Section Plugins.
Context (r : RibonPluginRegistry) (p : RibonProductDescriptor) (mode : Z).
Let n := registry_plugin_count r.
Context (Hn : 0 <= n <= 64).

(** The C types of the registry: counts and budgets are unsigned, identifiers
    are strings. *)
Record registry_typed : Prop := {
  typed_plugin_count : 0 <= registry_plugin_count r;
  typed_budgets : forall i, 0 <= plugin_arena_budget (plugin_ref r i);
  typed_ids : forall i, string_bytes (chars (plugin_id (plugin_ref r i)));
}.

(** The identifier of plugin [i]. *)
Definition id_at (i : Z) : bytes := chars (plugin_id (plugin_ref r i)).

(** Plugin [i] is there and fits the product. *)
Definition plugin_fits (i : Z) : Prop :=
  plugin_at r i = Some (plugin_ref r i) /\
  ribon_plugin_descriptor_is_valid (Some (plugin_ref r i)) = true /\
  Z.land (plugin_architecture_mask (plugin_ref r i)) (product_architecture_mask p) <> 0 /\
  Z.land (plugin_mode_mask (plugin_ref r i)) (RIBON_MODE_MASK mode) <> 0 /\
  outside (plugin_provides (plugin_ref r i)) (product_allowed_capabilities p) = 0 /\
  plugin_deadline_ms (plugin_ref r i) <= operation_deadline_ms (product_limits p) /\
  (i <> 0 -> registry_strcmp (id_at (i - 1)) (id_at i) < 0).

(** How many of [l] are of a kind. *)
Definition of_kind (kind : Z) (l : list Z) : Z :=
  len (filter (fun i => plugin_kind (plugin_ref r i) = kind) l).

Lemma of_kind_snoc kind l x :
  of_kind kind (l ++ [x]) = of_kind kind l + if plugin_kind (plugin_ref r x) =? kind then 1 else 0.
Proof.
  unfold of_kind. rewrite filter_app, len_app. f_equal. rewrite filter_cons, filter_nil.
  destruct (decide _) as [->|Hne]; [by rewrite Z.eqb_refl|]. by rewrite (proj2 (Z.eqb_neq _ _)).
Qed.

Record tallied (done : list Z) (t : tally) : Prop := {
  tallied_fits : forall i, i ∈ done -> plugin_fits i;
  tallied_aggregate : forall i bit, i ∈ done -> 0 <= bit -> provides_bit r i bit ->
    Z.land (tally_aggregate t) (capability_of bit) <> 0;
  tallied_aggregate_only : forall bit, 0 <= bit ->
    Z.land (tally_aggregate t) (capability_of bit) <> 0 -> exists i, i ∈ done /\ provides_bit r i bit;
  tallied_arena : tally_arena_budget t = sum_over (fun i => plugin_arena_budget (plugin_ref r i)) done;
  tallied_architecture : tally_architecture t = of_kind RIBON_PLUGIN_KIND_ARCHITECTURE done;
  tallied_environment : tally_environment t = of_kind RIBON_PLUGIN_KIND_ENVIRONMENT done;
  tallied_personality : tally_personality t = of_kind RIBON_PLUGIN_KIND_FIRMWARE_PERSONALITY done;
}.

Lemma land_capability x bit : 0 <= bit -> Z.land x (capability_of bit) <> 0 <-> Z.testbit x bit = true.
Proof.
  intros Hb. unfold capability_of. rewrite <- Z.eqb_neq, land_bit by done.
  destruct (Z.testbit x bit); done.
Qed.

Lemma count_if_snoc kind l x :
  len l < 64 -> count_if (plugin_kind (plugin_ref r x) =? kind) (of_kind kind l) = of_kind kind (l ++ [x]).
Proof.
  intros Hl. rewrite of_kind_snoc. unfold count_if. apply wrap_small, word32. unfold UINT32_MAX.
  pose proof (length_filter (fun i => plugin_kind (plugin_ref r i) = kind) l).
  assert (0 <= of_kind kind l <= len l) by (unfold of_kind, len in *; lia).
  destruct (_ =? _); lia.
Qed.

Lemma plugin_step_tallied done x t t' :
  len done < 64 -> tallied done t -> plugin_step r p mode t x = inr t' -> tallied (done ++ [x]) t'.
Proof.
  intros Hlen [Hf Ha Ho Hs H1 H2 H3] Hstep. unfold plugin_step in Hstep.
  destruct (plugin_at r x) as [d|] eqn:Hd; [|done].
  assert (Href : plugin_ref r x = d) by (unfold plugin_ref; by rewrite Hd).
  rewrite <- Href in Hstep. destruct (_ || _) eqn:G in Hstep; [done|].
  destruct (_ <? _) in Hstep; [done|]. injection Hstep as <-. bool_to_prop.
  constructor; cbn [tally_aggregate tally_arena_budget tally_architecture tally_environment tally_personality].
  - intros i [Hi| ->%list_elem_of_singleton]%elem_of_app; [by apply Hf|].
    unfold plugin_fits. rewrite Hd, Href in *. split_and!; try done.
    intros Hne. unfold id_at. rewrite Href. apply Z.eqb_neq in Hne.
    match goal with G0 : (x !=? 0) && _ = false |- _ => rewrite Hne in G0; simpl in G0; by bool_to_prop end.
  - intros i bit Hi Hb. rewrite land_capability, Z.lor_spec, orb_true_iff by done.
    apply elem_of_app in Hi as [Hi| ->%list_elem_of_singleton]; intros Hp.
    + left. apply land_capability; [done|]. by eapply Ha.
    + right. by apply land_capability.
  - intros bit Hb. rewrite land_capability, Z.lor_spec, orb_true_iff by done.
    setoid_rewrite elem_of_app. setoid_rewrite list_elem_of_singleton. intros [Hp|Hp].
    + apply land_capability in Hp; [|done]. apply Ho in Hp as (i & ? & ?); [|done]. eauto.
    + exists x. split; [by right|]. by apply land_capability.
  - by rewrite sum_over_snoc, Hs.
  - by rewrite H1, count_if_snoc.
  - by rewrite H2, count_if_snoc.
  - by rewrite H3, count_if_snoc.
Qed.

Lemma plugins_tallied t :
  foldE (plugin_step r p mode) (upto n) (mkTally 0 0 0 0 0) = inr t -> tallied (upto n) t.
Proof.
  intros H. apply (foldE_inv _ tallied _ _ _ H).
  - constructor; [by intros i ?%not_elem_of_nil|by intros i bit ?%not_elem_of_nil| |done..].
    intros bit _ Hb. destruct Hb. apply Z.land_0_l.
  - intros done x rest t0 t1 Hl H0. apply plugin_step_tallied; [|done].
    apply (f_equal len) in Hl. rewrite len_upto, len_app, len_cons in Hl by lia.
    pose proof (len_nonneg rest). lia.
Qed.

(** Identifiers in increasing order are in particular distinct. *)
Lemma ids_increasing :
  registry_typed -> (forall i, 0 <= i < n -> plugin_fits i) ->
  forall i j, 0 <= i -> i < j -> j < n -> registry_strcmp (id_at i) (id_at j) < 0.
Proof.
  intros Ht Hf i j. apply strcmp_sorted; [apply Ht|]. intros k Hk.
  destruct (Hf k ltac:(lia)) as (_ & _ & _ & _ & _ & _ & H). apply H. lia.
Qed.
End Plugins.

(** ** Properties *)

Section Properties.
Context (r : RibonPluginRegistry) (p : RibonProductDescriptor) (mode : Z).
Context (Hr : registry_typed r).
Let n := registry_plugin_count r.

(** Plugin [c] uses plugin [i]: some capability it requires is provided by [i]. *)
Definition uses (c i : Z) : Prop :=
  exists bit, 0 <= bit < 64 /\
    Z.land (plugin_requires (plugin_ref r c)) (capability_of bit) <> 0 /\
    registry_provider r p (capability_of bit) = inr i.

(** The stages of a validation that reached the dependency graph. *)
Record reached (t : tally) : Prop := {
  reached_count : 0 < n <= 64;
  reached_tally : tallied r p mode (upto n) t;
  reached_selections : registry_plugin_selections_are_valid r p = true;
  reached_authority : duplicate_authority r = false;
  reached_budget : tally_arena_budget t <= arena_bytes (product_limits p);
  reached_bootloader : product_kind p = RIBON_PRODUCT_KIND_BOOTLOADER ->
    tally_architecture t = 1 /\ tally_environment t = 1 /\ tally_personality t = 0;
  reached_firmware : product_kind p = RIBON_PRODUCT_KIND_FIRMWARE ->
    tally_architecture t = 1 /\ tally_personality t = 1 /\ tally_environment t = 0;
  reached_required : missing_required p (tally_aggregate t) = false;
}.

Lemma product_plugin_limit :
  ribon_product_descriptor_is_valid (Some p) = true -> product_max_plugins p <= 64.
Proof.
  unfold ribon_product_descriptor_is_valid, RIBON_PLUGIN_REGISTRY_LIMIT.
  destruct (_ || _) eqn:G; [done|]. intros _. by bool_to_prop.
Qed.

Lemma plugin_step_status t x status : plugin_step r p mode t x = inl status ->
  status = RIBON_CORE_STATUS_INVALID_DESCRIPTOR \/ status = RIBON_CORE_STATUS_BAD_LIMIT.
Proof.
  unfold plugin_step. destruct (plugin_at r x); [|injection 1 as <-; auto].
  destruct (_ || _); [injection 1 as <-; auto|]. destruct (_ <? _); [injection 1 as <-; auto|done].
Qed.

Lemma guard_kind kind (a b c : bool) : (product_kind p =? kind) && (a || b || c) = false ->
  product_kind p = kind -> a = false /\ b = false /\ c = false.
Proof.
  intros H Hk. rewrite (proj2 (Z.eqb_eq _ _) Hk) in H. simpl in H. bool_to_prop. done.
Qed.

(** Validation ends early with a status, or decides by the graph. *)
Lemma validate_stages :
  (exists status, ribon_plugin_registry_validate (Some r) (Some p) mode = Some status /\
     status <> RIBON_CORE_STATUS_OK /\ status <> RIBON_CORE_STATUS_DEPENDENCY_CYCLE) \/
  exists t, reached t /\
    ribon_plugin_registry_validate (Some r) (Some p) mode =
    match build_graph r p (tally_aggregate t) with
    | inl status => Some status
    | inr g =>
      match order_exists n g with
      | None => None
      | Some true => Some RIBON_CORE_STATUS_OK
      | Some false => Some RIBON_CORE_STATUS_DEPENDENCY_CYCLE
      end
    end.
Proof.
  unfold ribon_plugin_registry_validate.
  destruct (_ || _) eqn:G; [left; by eexists|]. bool_to_prop.
  match goal with V : ribon_product_descriptor_is_valid _ = true |- _ => apply product_plugin_limit in V end.
  assert (Hn : 0 < n <= 64) by (pose proof (typed_plugin_count r Hr); unfold n; lia). fold n.
  destruct (foldE _ _ _) as [status|t] eqn:Ht.
  { left. apply foldE_inl in Ht as (done & x & rest & b & _ & _ & Hx). apply plugin_step_status in Hx.
    exists status. split; [done|]. by destruct Hx as [-> | ->]. }
  apply (plugins_tallied r p mode ltac:(unfold n in Hn; lia)) in Ht.
  destruct (registry_plugin_selections_are_valid r p) eqn:Hsel; [|left; by eexists]. cbn [negb].
  destruct (duplicate_authority r) eqn:Hdup; [left; by eexists|].
  destruct (_ || _) eqn:G2; [left; by eexists|]. apply orb_false_iff in G2 as [G2 Gf].
  apply orb_false_iff in G2 as [G2 Gb]. bool_to_prop.
  destruct (missing_required p (tally_aggregate t)) eqn:Hmiss; [left; by eexists|].
  right. exists t. split; [|done]. constructor; try done.
  - intros Hk. apply (guard_kind _ _ _ _ Gb) in Hk as (? & ? & ?). by bool_to_prop.
  - intros Hk. apply (guard_kind _ _ _ _ Gf) in Hk as (? & ? & ?). by bool_to_prop.
Qed.

(** With the tally's aggregate, a capability a plugin provides is never external. *)
Lemma uses_bits t c i : reached t ->
  uses c i <-> exists bit, 0 <= bit < 64 /\ uses_bit r p (tally_aggregate t) c bit i.
Proof.
  intros Ht. pose proof (reached_count t Ht) as Hn. unfold n in Hn. split.
  - intros (bit & Hb & Hreq & Hp). exists bit. split; [done|]. split_and!; try done.
    destruct (registry_provider_spec r p ltac:(lia) bit i Hp) as [Hi Hprov].
    pose proof (tallied_aggregate _ _ _ _ _ (reached_tally t Ht) i bit ltac:(by apply upto_in)
      ltac:(lia) Hprov) as Ha.
    unfold external. apply Z.eqb_neq in Ha. rewrite Ha. apply andb_false_r.
  - intros (bit & Hb & Hreq & _ & Hp). by exists bit.
Qed.

(** The graph decides whether the use relation has an order. *)
Lemma graph_order t g : reached t -> build_graph r p (tally_aggregate t) = inr g ->
  exists b, order_exists n g = Some b /\
    (b = true <-> exists l, l ≡ₚ upto n /\ forall before c after, l = before ++ c :: after ->
       forall i, uses c i -> i ∈ before).
Proof.
  intros Ht Hg. pose proof (reached_count t Ht) as Hn. unfold n in *.
  destruct (build_graph_built r p (tally_aggregate t) ltac:(lia) g Hg) as [[_ Hdeg Hedge] _].
  destruct (order_exists_spec (registry_plugin_count r) ltac:(lia) (dependencies g) g eq_refl Hdeg)
    as (b & Hb & Hiff). exists b. split; [done|]. rewrite Hiff.
  assert (Hc : forall l before c after, l ≡ₚ upto (registry_plugin_count r) -> l = before ++ c :: after ->
    0 <= c < registry_plugin_count r).
  { intros l before c after Hl ->. apply upto_in. rewrite <- Hl, elem_of_app. right. left. }
  split; intros (l & Hl & Ho); exists l; (split; [done|]); intros before c after Heq i.
  - intros Hu. assert (Hi : 0 <= i < registry_plugin_count r)
      by (destruct Hu as (bit & _ & _ & Hp); apply (registry_provider_spec r p ltac:(lia) bit i Hp)).
    apply (Ho before c after Heq i Hi), Hedge; [done|by eapply Hc|].
    apply (uses_bits t c i Ht) in Hu as (bit & ? & ?). exists bit. split; [|done]. split; [by eapply Hc|done].
  - intros Hi He. apply (Ho before c after Heq). apply Hedge in He; [|done|by eapply Hc].
    destruct He as (bit & [_ Hb'] & Hu). apply (uses_bits t c i Ht). eauto.
Qed.

Lemma provider_status_cases capability status : registry_provider r p capability = inl status ->
  status <> RIBON_CORE_STATUS_DEPENDENCY_CYCLE /\ status <> RIBON_CORE_STATUS_OK.
Proof.
  unfold registry_provider. destruct (foldE _ _ _) as [e|[[found selected] count]] eqn:H.
  - apply foldE_inl in H as (done & x & rest & [[f s] k] & _ & _ & Hx). unfold provider_step in Hx.
    destruct (_ =? 0) in Hx; [done|]. destruct (registry_is_selected_provider _ _ _) in Hx; [|done].
    destruct (negb _) in Hx; [|done]. injection Hx as <-. by injection 1 as <-.
  - repeat case_match; try done; by injection 1 as <-.
Qed.

(** A status the graph stage returns is never OK, and a cycle at that point is a
    plugin that uses itself. *)
Lemma build_graph_status t status : reached t -> build_graph r p (tally_aggregate t) = inl status ->
  status <> RIBON_CORE_STATUS_OK /\
  (status = RIBON_CORE_STATUS_DEPENDENCY_CYCLE -> exists c, 0 <= c < n /\ uses c c).
Proof.
  intros Ht H. unfold build_graph in H. apply foldE_inl in H as (done & c & rest & g & Hl & _ & H).
  assert (Hc : 0 <= c < n) by (apply upto_in; unfold n; rewrite Hl, elem_of_app; right; left).
  apply foldE_inl in H as (bits & bit & rest' & g' & Hb & _ & H).
  assert (Hbit : 0 <= bit < 64) by (apply upto_in; rewrite Hb, elem_of_app; right; left).
  unfold edge_step in H. destruct (Z.eqb_spec (Z.land (plugin_requires (plugin_ref r c)) (capability_of bit)) 0);
    [done|]. destruct (_ && _) in H.
  { destruct (_ =? 0) in H; [|done]. by injection H as <-. }
  destruct (registry_provider r p (capability_of bit)) as [e|i] eqn:Hp.
  { injection H as <-. by apply provider_status_cases in Hp as [? ?]. }
  destruct (Z.eqb_spec i c) as [->|].
  { injection H as <-. split; [done|]. intros _. exists c. split; [done|]. by exists bit. }
  destruct (_ <? _) in H; [by injection H as <-|]. destruct (_ =? 0) in H; done.
Qed.

(** An order in which every plugin comes after the plugins it uses. *)
Definition use_order (l : list Z) : Prop :=
  l ≡ₚ upto n /\ forall before c after, l = before ++ c :: after -> forall i, uses c i -> i ∈ before.

Lemma self_use_no_order c l : 0 <= c < n -> uses c c -> ~ use_order l.
Proof.
  intros Hc Hu [Hl Ho]. assert (Hin : c ∈ l) by (rewrite Hl; by apply upto_in).
  apply list_elem_of_split in Hin as (before & after & ->).
  pose proof (Ho before c after eq_refl c Hu) as Hb.
  assert (Hnd : NoDup (before ++ c :: after)) by (rewrite Hl; apply NoDup_seqZ).
  apply NoDup_app in Hnd as (_ & Hnd & _). apply (Hnd c Hb). left.
Qed.

(** An order of initialisation in which every plugin finds each capability it
    requires: a plugin that comes earlier, and whose phase is not later, provides
    it, or it is a service. *)
Definition initialised_by (service : Z -> Prop) (l : list Z) : Prop :=
  l ≡ₚ upto (registry_plugin_count r) /\
  forall before c after, l = before ++ c :: after ->
  forall bit, 0 <= bit < 64 ->
  Z.land (plugin_requires (plugin_ref r c)) (capability_of bit) <> 0 ->
  (exists i, i ∈ before /\ Z.land (plugin_provides (plugin_ref r i)) (capability_of bit) <> 0 /\
     plugin_phase (plugin_ref r i) <= plugin_phase (plugin_ref r c)) \/
  service bit.

(** A service the product requires from outside the registry. *)
Definition external_service (bit : Z) : Prop :=
  registry_capability_is_service (capability_of bit) = true /\
  Z.land (product_required_capabilities p) (capability_of bit) <> 0.

Lemma accepted_order :
  ribon_plugin_registry_validate (Some r) (Some p) mode = Some RIBON_CORE_STATUS_OK ->
  exists l, initialised_by external_service l.
Proof.
  intros Hok. destruct validate_stages as [(st & H & ? & _)|(t & Ht & H)]; [congruence|].
  rewrite H in Hok. clear H. destruct (build_graph r p (tally_aggregate t)) as [e|g] eqn:Hg.
  { injection Hok as ->. by apply (build_graph_status t) in Hg as [? _]. }
  pose proof (reached_count t Ht) as Hn. destruct (graph_order t g Ht Hg) as (b & Hb & Hiff).
  rewrite Hb in Hok. destruct b; [|done]. destruct (proj1 Hiff eq_refl) as (l & Hl & Ho).
  exists l. split; [exact Hl|]. intros before c after Heq bit Hbit Hreq.
  assert (Hc : 0 <= c < n) by (apply upto_in; rewrite <- Hl, Heq, elem_of_app; right; left).
  destruct (build_graph_built r p (tally_aggregate t) ltac:(unfold n in Hn; lia) g Hg) as [_ Hset].
  destruct (Hset c bit Hc Hbit) as [Hs Hearly]. destruct (Hs Hreq) as [[Hext Hpr]|[i Hu]].
  - right. split; [|done]. unfold external in Hext. by apply andb_true_iff in Hext as [? _].
  - left. exists i. pose proof Hu as (_ & _ & Hp).
    destruct (registry_provider_spec r p ltac:(unfold n in Hn; lia) bit i Hp) as [_ Hprov].
    split_and!; [|done|apply (Hearly i Hu)]. apply (Ho before c after Heq), (uses_bits t c i Ht). eauto.
Qed.

(** A registry is accepted only if its plugins can be initialised one after the
    other so that each finds the capabilities it requires: a plugin that comes
    earlier, and whose phase is not later, provides them, or they are services
    the product itself requires. *)
Theorem registry_accepted_order :
  ribon_plugin_registry_validate (Some r) (Some p) mode = Some RIBON_CORE_STATUS_OK ->
  exists l, initialised_by external_service l.
Proof. exact accepted_order. Qed.

(** C38: A dependency cycle is reported only when there is one: no order puts every
    plugin after the plugins it uses. *)
Theorem registry_cycle_real :
  ribon_plugin_registry_validate (Some r) (Some p) mode = Some RIBON_CORE_STATUS_DEPENDENCY_CYCLE ->
  ~ exists l, use_order l.
Proof.
  intros Hcyc [l Hl]. destruct validate_stages as [(st & H & _ & ?)|(t & Ht & H)]; [congruence|].
  rewrite H in Hcyc. clear H. destruct (build_graph r p (tally_aggregate t)) as [e|g] eqn:Hg.
  - injection Hcyc as ->. apply (build_graph_status t) in Hg as [_ Hg]; [|done].
    destruct (Hg eq_refl) as (c & Hc & Hu). by apply (self_use_no_order c l) in Hl.
  - destruct (graph_order t g Ht Hg) as (b & Hb & Hiff). rewrite Hb in Hcyc. destruct b; [done|].
    assert (false = true) by (apply Hiff; by exists l). done.
Qed.

(** Validation always ends with a status: the work list of the ordering empties
    within one visit per plugin. *)
Theorem registry_validate_terminates :
  exists status, ribon_plugin_registry_validate (Some r) (Some p) mode = Some status.
Proof.
  destruct validate_stages as [(st & H & _)|(t & Ht & H)]; [by exists st|]. rewrite H.
  destruct (build_graph r p (tally_aggregate t)) as [e|g] eqn:Hg; [by exists e|].
  destruct (graph_order t g Ht Hg) as (b & -> & _). by destruct b; eexists.
Qed.

Lemma authority_unique bit i j : duplicate_authority r = false -> 0 <= bit < 64 ->
  registry_capability_is_authority (capability_of bit) = true ->
  0 <= i < n -> 0 <= j < n -> provides_bit r i bit -> provides_bit r j bit -> i = j.
Proof.
  intros H Hb Ha Hi Hj Hpi Hpj. unfold duplicate_authority in H. rewrite existsb_false in H.
  specialize (H bit (proj2 (upto_in 64 bit) Hb)). rewrite Ha in H. cbn [andb] in H.
  unfold providers in H. bool_to_prop.
  assert (Hin : forall k, 0 <= k < n -> provides_bit r k bit -> k ∈ filter (fun i =>
    Z.land (plugin_provides (plugin_ref r i)) (capability_of bit) <> 0) (upto n)).
  { intros k Hk Hpk. apply list_elem_of_filter. split; [done|by apply upto_in]. }
  pose proof (Hin i Hi Hpi) as H1. pose proof (Hin j Hj Hpj) as H2. fold n in H. revert H H1 H2.
  destruct (filter _ _) as [|a [|b l]]; intros H H1 H2.
  - by apply not_elem_of_nil in H1.
  - apply list_elem_of_singleton in H1, H2. congruence.
  - unfold len in H. cbn [length] in H. lia.
Qed.

Lemma required_provided bit :
  ribon_plugin_registry_validate (Some r) (Some p) mode = Some RIBON_CORE_STATUS_OK ->
  0 <= bit < 64 -> Z.land (product_required_capabilities p) (capability_of bit) <> 0 ->
  registry_capability_is_service (capability_of bit) = false ->
  exists i, 0 <= i < registry_plugin_count r /\ provides_bit r i bit.
Proof.
  intros Hok Hb Hreq Hs. destruct validate_stages as [(st & H & ? & _)|(t & Ht & _)]; [congruence|].
  pose proof (reached_required t Ht) as Hm. unfold missing_required in Hm.
  rewrite existsb_false in Hm. specialize (Hm bit (proj2 (upto_in 64 bit) Hb)). cbv zeta in Hm.
  rewrite (proj2 (Z.eqb_neq _ _) Hreq), Hs in Hm. cbn [negb andb] in Hm. apply Z.eqb_neq in Hm.
  apply (tallied_aggregate_only _ _ _ _ _ (reached_tally t Ht)) in Hm as (i & Hi & Hp); [|lia].
  exists i. split; [by apply upto_in|done].
Qed.

(** What an accepted registry guarantees besides the order: every plugin is a
    valid descriptor that fits the product and the mode, identifiers are distinct
    and sorted, the arenas fit together in the product's arena, no authority has
    two providers, and every required capability that is not a service has one. *)
Theorem registry_accepted :
  ribon_plugin_registry_validate (Some r) (Some p) mode = Some RIBON_CORE_STATUS_OK ->
  (forall i, 0 <= i < registry_plugin_count r -> plugin_fits r p mode i) /\
  (forall i j, 0 <= i -> i < j -> j < registry_plugin_count r ->
     registry_strcmp (id_at r i) (id_at r j) < 0) /\
  sum_over (fun i => plugin_arena_budget (plugin_ref r i)) (upto (registry_plugin_count r))
    <= arena_bytes (product_limits p) /\
  (forall bit i j, 0 <= bit < 64 -> registry_capability_is_authority (capability_of bit) = true ->
     0 <= i < registry_plugin_count r -> 0 <= j < registry_plugin_count r ->
     provides_bit r i bit -> provides_bit r j bit -> i = j) /\
  (forall bit, 0 <= bit < 64 -> Z.land (product_required_capabilities p) (capability_of bit) <> 0 ->
     registry_capability_is_service (capability_of bit) = false ->
     exists i, 0 <= i < registry_plugin_count r /\ provides_bit r i bit) /\
  (product_kind p = RIBON_PRODUCT_KIND_BOOTLOADER ->
     of_kind r RIBON_PLUGIN_KIND_ARCHITECTURE (upto (registry_plugin_count r)) = 1 /\
     of_kind r RIBON_PLUGIN_KIND_ENVIRONMENT (upto (registry_plugin_count r)) = 1 /\
     of_kind r RIBON_PLUGIN_KIND_FIRMWARE_PERSONALITY (upto (registry_plugin_count r)) = 0).
Proof.
  intros Hok. destruct validate_stages as [(st & H & ? & _)|(t & Ht & _)]; [congruence|].
  pose proof (reached_tally t Ht) as Hl. pose proof (reached_count t Ht) as Hn. fold n.
  assert (Hf : forall i, 0 <= i < n -> plugin_fits r p mode i)
    by (intros i Hi; apply (tallied_fits _ _ _ _ _ Hl), upto_in, Hi).
  split_and!.
  - exact Hf.
  - exact (ids_increasing r p mode Hr Hf).
  - rewrite <- (tallied_arena _ _ _ _ _ Hl). apply (reached_budget t Ht).
  - intros bit i j. apply authority_unique, (reached_authority t Ht).
  - intros bit. by apply required_provided.
  - intros Hk. rewrite <- (tallied_architecture _ _ _ _ _ Hl), <- (tallied_environment _ _ _ _ _ Hl),
      <- (tallied_personality _ _ _ _ _ Hl). by apply (reached_bootloader t Ht).
Qed.
End Properties.

(** ** Concrete registries *)

Definition sample_limits : RibonResourceLimits := mkLimits 64 16 16 3 65536 4096 65536 1000.

(** A plugin of the sample bootloader: its identifier, kind, phase and capabilities. *)
Definition sample_plugin (id : bytes) (kind phase provides requires : Z) : RibonPluginDescriptor :=
  mkPlugin RIBON_PLUGIN_DESCRIPTOR_MAGIC sizeof_RibonPluginDescriptor RIBON_PLUGIN_ABI_MAJOR
    RIBON_PLUGIN_ABI_MINOR kind phase (Some id) provides requires 1 1 0 RIBON_MODE_MASK_ALL 0
    1024 4096 512 100 0x1000 16 1 (Some true).

(** A bootloader for one architecture and environment that requires a handoff and
    a reset service, and selects the boot source "disk". *)
Definition sample_product : RibonProductDescriptor :=
  mkProduct RIBON_PRODUCT_DESCRIPTOR_MAGIC sizeof_RibonProductDescriptor RIBON_CORE_ABI_VERSION
    (Some [98; 111; 111; 116]) RIBON_PRODUCT_KIND_BOOTLOADER 1 1 0 RIBON_MODE_MASK_ALL 8
    (Z.lor RIBON_CAP_HANDOFF RIBON_CAP_RESET) RIBON_CAP_ALL
    (Some [mkSelection 0 (Some [100; 105; 115; 107])]) 1 None 0 sample_limits.

(** The plugins "arch", "env", "hand" and "proto". *)
Definition sample_plugins (entry_requires : Z) : list (option RibonPluginDescriptor) :=
  [Some (sample_plugin [97; 114; 99; 104] RIBON_PLUGIN_KIND_ARCHITECTURE 0
           (Z.lor RIBON_CAP_ARCHITECTURE RIBON_CAP_ENTRY_CONTRACT) entry_requires);
   Some (sample_plugin [101; 110; 118] RIBON_PLUGIN_KIND_ENVIRONMENT 0
           RIBON_CAP_BOOT_SOURCE_READ RIBON_CAP_RESET);
   Some (sample_plugin [104; 97; 110; 100] 3 2 RIBON_CAP_HANDOFF
           (Z.lor RIBON_CAP_BOOT_PROTOCOL RIBON_CAP_ENTRY_CONTRACT));
   Some (sample_plugin [112; 114; 111; 116; 111] 2 0 RIBON_CAP_BOOT_PROTOCOL RIBON_CAP_BOOT_SOURCE_READ)].

Definition sample_registry : RibonPluginRegistry :=
  mkRegistry sizeof_RibonPluginRegistry RIBON_CORE_ABI_VERSION (Some (sample_plugins 0)) 4.

(** The same with "arch" using "proto" and "proto" using "arch". *)
Definition cyclic_registry : RibonPluginRegistry :=
  mkRegistry sizeof_RibonPluginRegistry RIBON_CORE_ABI_VERSION
    (Some (<[3%nat := Some (sample_plugin [112; 114; 111; 116; 111] 2 0 RIBON_CAP_BOOT_PROTOCOL
             RIBON_CAP_ENTRY_CONTRACT)]> (sample_plugins RIBON_CAP_BOOT_PROTOCOL))) 4.

Lemma sample_ok :
  ribon_plugin_registry_validate (Some sample_registry) (Some sample_product) RIBON_MODE_NORMAL =
  Some RIBON_CORE_STATUS_OK.
Proof. vm_compute. reflexivity. Qed.

Lemma sample_cycle :
  ribon_plugin_registry_validate (Some cyclic_registry) (Some sample_product) RIBON_MODE_NORMAL =
  Some RIBON_CORE_STATUS_DEPENDENCY_CYCLE.
Proof. vm_compute. reflexivity. Qed.

Lemma plugins_typed (plugins : list (option RibonPluginDescriptor)) count :
  0 <= count ->
  Forall (fun o => 0 <= plugin_arena_budget (default zero_plugin o) /\
                   string_bytes (chars (plugin_id (default zero_plugin o)))) plugins ->
  registry_typed (mkRegistry sizeof_RibonPluginRegistry RIBON_CORE_ABI_VERSION (Some plugins) count).
Proof.
  intros Hc Hp.
  assert (H : forall i, 0 <= plugin_arena_budget (default zero_plugin (nth i plugins None)) /\
    string_bytes (chars (plugin_id (default zero_plugin (nth i plugins None))))).
  { intros i. destruct (decide (i < length plugins)%nat).
    - apply (proj1 (Forall_forall _ _) Hp), list_elem_of_In, nth_In. lia.
    - rewrite nth_overflow by lia. split; [cbn; lia|constructor]. }
  constructor; [done|..]; intros i; apply (H (Z.to_nat i)).
Qed.

Ltac sample_typed :=
  apply plugins_typed; [lia|];
  match goal with |- Forall _ ?l => let l' := eval vm_compute in l in change l with l' end;
  repeat constructor; cbn; discriminate.

Lemma sample_registry_typed : registry_typed sample_registry.
Proof. sample_typed. Qed.

Lemma cyclic_registry_typed : registry_typed cyclic_registry.
Proof. sample_typed. Qed.

Lemma registry_accepted_order_witness :
  ribon_plugin_registry_validate (Some sample_registry) (Some sample_product) RIBON_MODE_NORMAL =
  Some RIBON_CORE_STATUS_OK /\ exists l, l ≡ₚ upto 4.
Proof.
  split; [exact sample_ok|].
  destruct (registry_accepted_order sample_registry sample_product RIBON_MODE_NORMAL
    sample_registry_typed sample_ok) as (l & Hl & _). by exists l.
Defined.

Lemma registry_cycle_real_witness :
  ribon_plugin_registry_validate (Some cyclic_registry) (Some sample_product) RIBON_MODE_NORMAL =
  Some RIBON_CORE_STATUS_DEPENDENCY_CYCLE /\ ~ exists l, use_order cyclic_registry sample_product l.
Proof.
  split; [exact sample_cycle|].
  exact (registry_cycle_real cyclic_registry sample_product RIBON_MODE_NORMAL
    cyclic_registry_typed sample_cycle).
Defined.

Lemma registry_validate_terminates_witness :
  exists status, ribon_plugin_registry_validate (Some cyclic_registry) (Some sample_product)
    RIBON_MODE_RECOVERY = Some status.
Proof.
  exact (registry_validate_terminates cyclic_registry sample_product RIBON_MODE_RECOVERY
    cyclic_registry_typed).
Defined.

Lemma registry_accepted_witness :
  ribon_plugin_registry_validate (Some sample_registry) (Some sample_product) RIBON_MODE_NORMAL =
  Some RIBON_CORE_STATUS_OK /\
  sum_over (fun i => plugin_arena_budget (plugin_ref sample_registry i)) (upto 4) <= 65536 /\
  exists i, 0 <= i < 4 /\ provides_bit sample_registry i 19.
Proof.
  destruct (registry_accepted sample_registry sample_product RIBON_MODE_NORMAL
    sample_registry_typed sample_ok) as (_ & _ & Hs & _ & Hr & _).
  split_and!; [exact sample_ok|exact Hs|]. apply (Hr 19); [lia|vm_compute; discriminate|reflexivity].
Defined.
