(* ===== verification/ServiceDirectory.v ===== *)
(** * The service directory ([src/core/service_directory.c])

    The typed services a product links in: the checks of one descriptor and of
    its operation table, and the validation of the directory against the product
    and its collection selections.  A table that a descriptor's [operations]
    points to is an argument of the check that reads it; a function pointer is its
    address.  The table of role names is left out. *)

From S2P Require Import Prelude.
From S2P Require Import Buffer.
From S2P Require Import Memory.
From S2P Require Import Provider.
From S2P Require Import CString.
From S2P Require Import Plugin.
From S2P Require Import Registry.

Definition RIBON_SERVICE_DESCRIPTOR_MAGIC : Z := 0x52425356.
Definition RIBON_SERVICE_ABI_VERSION : Z := 4.
Definition RIBON_SERVICE_DIRECTORY_ABI_VERSION : Z := 1.
Definition sizeof_RibonServiceDescriptor : Z := 120.
Definition sizeof_RibonServiceDirectory : Z := 24.

(** ** Roles *)

Definition RIBON_SERVICE_KIND_BOOT_SOURCE : Z := 0.
Definition RIBON_SERVICE_KIND_INACTIVE_SLOT_STORAGE : Z := 1.
Definition RIBON_SERVICE_KIND_STORAGE_FLUSH : Z := 2.
Definition RIBON_SERVICE_KIND_MONOTONIC_TIMER : Z := 3.
Definition RIBON_SERVICE_KIND_WATCHDOG : Z := 4.
Definition RIBON_SERVICE_KIND_RESET : Z := 5.
Definition RIBON_SERVICE_KIND_PERSISTENT_METADATA : Z := 6.
Definition RIBON_SERVICE_KIND_NETWORK_TRANSPORT : Z := 7.
Definition RIBON_SERVICE_KIND_RANDOM_NONCE : Z := 8.
Definition RIBON_SERVICE_KIND_DIAGNOSTIC_SINK : Z := 9.
Definition RIBON_SERVICE_KIND_ENVIRONMENT_QUIESCE : Z := 10.
Definition RIBON_SERVICE_KIND_MACHINE_DESCRIPTION : Z := 11.
Definition RIBON_SERVICE_KIND_PAYLOAD_PLACEMENT : Z := 12.
Definition RIBON_SERVICE_KIND_BOOT_MODULE_BUNDLE : Z := 13.
Definition RIBON_SERVICE_KIND_TERMINAL_IMAGE_LAUNCH : Z := 14.
Definition RIBON_SERVICE_CARDINALITY_AUTHORITY : Z := 0.
Definition RIBON_SERVICE_CARDINALITY_COLLECTION : Z := 1.
Definition RIBON_SERVICE_LIFETIME_BOOT : Z := 0.
Definition RIBON_SERVICE_LIFETIME_PERSISTENT : Z := 2.

Definition service_capabilities (kind : Z) : Z :=
  if kind =? RIBON_SERVICE_KIND_BOOT_SOURCE then RIBON_CAP_BOOT_SOURCE_READ
  else if kind =? RIBON_SERVICE_KIND_INACTIVE_SLOT_STORAGE
  then Z.lor RIBON_CAP_INACTIVE_SLOT_WRITE RIBON_CAP_INACTIVE_SLOT_ERASE
  else if kind =? RIBON_SERVICE_KIND_STORAGE_FLUSH then RIBON_CAP_STORAGE_FLUSH
  else if kind =? RIBON_SERVICE_KIND_MONOTONIC_TIMER then RIBON_CAP_MONOTONIC_TIMER
  else if kind =? RIBON_SERVICE_KIND_WATCHDOG then RIBON_CAP_WATCHDOG
  else if kind =? RIBON_SERVICE_KIND_RESET then RIBON_CAP_RESET
  else if kind =? RIBON_SERVICE_KIND_PERSISTENT_METADATA then RIBON_CAP_PERSISTENT_METADATA
  else if kind =? RIBON_SERVICE_KIND_NETWORK_TRANSPORT then RIBON_CAP_NETWORK_TRANSPORT
  else if kind =? RIBON_SERVICE_KIND_RANDOM_NONCE then RIBON_CAP_RANDOM_NONCE
  else if kind =? RIBON_SERVICE_KIND_DIAGNOSTIC_SINK then RIBON_CAP_DIAGNOSTIC_SINK
  else if kind =? RIBON_SERVICE_KIND_ENVIRONMENT_QUIESCE then RIBON_CAP_ENVIRONMENT_QUIESCE
  else if kind =? RIBON_SERVICE_KIND_MACHINE_DESCRIPTION then RIBON_CAP_MACHINE_DESCRIPTION
  else if kind =? RIBON_SERVICE_KIND_PAYLOAD_PLACEMENT then RIBON_CAP_PAYLOAD_PLACEMENT
  else if kind =? RIBON_SERVICE_KIND_BOOT_MODULE_BUNDLE then RIBON_CAP_BOOT_MODULE_BUNDLE
  else if kind =? RIBON_SERVICE_KIND_TERMINAL_IMAGE_LAUNCH then RIBON_CAP_TERMINAL_IMAGE_LAUNCH
  else 0.

(** ** Descriptors *)

Record RibonServiceDescriptor := mkService {
  service_magic : Z;
  service_size : Z;
  service_abi_version : Z;
  service_kind : Z;
  service_cardinality : Z;
  service_lifetime : Z;
  service_phase : Z;
  service_id : cstring;
  service_provides : Z;
  service_architecture_mask : Z;
  service_environment_mask : Z;
  service_personality_mask : Z;
  service_mode_mask : Z;
  service_arena_budget : Z;
  service_input_budget : Z;
  service_output_budget : Z;
  service_deadline_ms : Z;
  service_operations : Z;
  service_operations_size : Z;
  service_operations_abi : Z;
  service_validate_operations : option bool;
}.

Definition zero_service : RibonServiceDescriptor :=
  mkService 0 0 0 0 0 0 0 None 0 0 0 0 0 0 0 0 0 0 0 0 None.

Record RibonServiceDirectory := mkDirectory {
  directory_size : Z;
  directory_abi_version : Z;
  directory_services : option (list (option RibonServiceDescriptor));
  directory_service_count : Z;
}.

(** [directory->services[index]] *)
Definition service_at (d : RibonServiceDirectory) (index : Z) : option RibonServiceDescriptor :=
  match directory_services d with
  | Some services => nth (Z.to_nat index) services None
  | None => None
  end.

Definition service_ref (d : RibonServiceDirectory) (index : Z) : RibonServiceDescriptor :=
  default zero_service (service_at d index).

(** [product->service_selections[index]] *)
Definition service_selection_at (p : RibonProductDescriptor) (index : Z) : Selection :=
  nth (Z.to_nat index) (default [] (product_service_selections p)) (mkSelection 0 None).

Definition ribon_service_descriptor_is_valid (descriptor : option RibonServiceDescriptor) : bool :=
  match descriptor with
  | None => false
  | Some d =>
    if (service_magic d !=? RIBON_SERVICE_DESCRIPTOR_MAGIC) ||
       (service_size d !=? sizeof_RibonServiceDescriptor) ||
       (service_abi_version d !=? RIBON_SERVICE_ABI_VERSION) ||
       (service_capabilities (service_kind d) =? 0) ||
       (service_cardinality d <? RIBON_SERVICE_CARDINALITY_AUTHORITY) ||
       (service_cardinality d >? RIBON_SERVICE_CARDINALITY_COLLECTION) ||
       (service_lifetime d <? RIBON_SERVICE_LIFETIME_BOOT) ||
       (service_lifetime d >? RIBON_SERVICE_LIFETIME_PERSISTENT) ||
       (service_phase d <? RIBON_PLUGIN_PHASE_EARLY) ||
       (service_phase d >? RIBON_PLUGIN_PHASE_QUIESCE) || cstring_empty (service_id d) ||
       (service_provides d !=? service_capabilities (service_kind d)) ||
       (outside (service_architecture_mask d) RIBON_ARCH_MASK_ALL !=? 0) ||
       (service_architecture_mask d =? 0) ||
       (outside (service_environment_mask d) RIBON_ENV_MASK_ALL !=? 0) ||
       (outside (service_personality_mask d) RIBON_PERSONALITY_MASK_ALL !=? 0) ||
       ((service_environment_mask d =? 0) && (service_personality_mask d =? 0)) ||
       (outside (service_mode_mask d) RIBON_MODE_MASK_ALL !=? 0) ||
       (service_mode_mask d =? 0) || (service_arena_budget d =? 0) ||
       (service_input_budget d =? 0) || (service_output_budget d =? 0) ||
       (service_deadline_ms d =? 0) || (service_operations d =? 0) ||
       (service_operations_size d =? 0) || (service_operations_abi d =? 0) ||
       is_null (service_validate_operations d)
    then false
    else match service_validate_operations d with Some verdict => verdict | None => false end
  end.

(** ** Lookup *)

Definition ribon_service_directory_find_exact (directory : option RibonServiceDirectory) (kind : Z)
    (id : cstring) : option RibonServiceDescriptor :=
  match directory, id with
  | Some d, Some _ =>
    match directory_services d with
    | None => None
    | Some _ =>
      head (omap (fun index =>
        match service_at d index with
        | Some service =>
          if (service_kind service =? kind) && core_streq (service_id service) id
          then Some service else None
        | None => None
        end) (upto (directory_service_count d)))
    end
  | _, _ => None
  end.

Definition service_selection_is_valid (selection : Selection) : bool :=
  (service_capabilities (selection_kind selection) !=? 0) && negb (cstring_empty (selection_id selection)).

Definition ribon_service_directory_find_selected (directory : option RibonServiceDirectory)
    (product : option RibonProductDescriptor) (kind : Z) : option RibonServiceDescriptor :=
  match directory, product with
  | Some _, Some p =>
    match filter (fun i => selection_kind (service_selection_at p i) = kind)
            (upto (product_service_selection_count p)) with
    | i :: _ => ribon_service_directory_find_exact directory kind (selection_id (service_selection_at p i))
    | [] => None
    end
  | _, _ => None
  end.

(** ** Validation *)

Definition service_capability_mask : Z :=
  fold_left Z.lor
    [RIBON_CAP_BOOT_SOURCE_READ; RIBON_CAP_INACTIVE_SLOT_WRITE; RIBON_CAP_INACTIVE_SLOT_ERASE;
     RIBON_CAP_STORAGE_FLUSH; RIBON_CAP_MONOTONIC_TIMER; RIBON_CAP_WATCHDOG; RIBON_CAP_RESET;
     RIBON_CAP_PERSISTENT_METADATA; RIBON_CAP_NETWORK_TRANSPORT; RIBON_CAP_RANDOM_NONCE;
     RIBON_CAP_DIAGNOSTIC_SINK; RIBON_CAP_ENVIRONMENT_QUIESCE; RIBON_CAP_MACHINE_DESCRIPTION;
     RIBON_CAP_PAYLOAD_PLACEMENT; RIBON_CAP_BOOT_MODULE_BUNDLE; RIBON_CAP_TERMINAL_IMAGE_LAUNCH] 0.

(** A service of the same role before [index], where one of the two is an authority. *)
Definition role_conflict (d : RibonServiceDirectory) (index : Z) : bool :=
  let service := service_ref d index in
  existsb (fun previous =>
    let other := service_ref d previous in
    (service_kind other =? service_kind service) &&
    ((service_cardinality other =? RIBON_SERVICE_CARDINALITY_AUTHORITY) ||
     (service_cardinality service =? RIBON_SERVICE_CARDINALITY_AUTHORITY))) (upto index).

(** The loop's variables are the arena budget and the aggregate. *)
Definition service_step (d : RibonServiceDirectory) (product : RibonProductDescriptor) (mode : Z)
    (a : Z * Z) (index : Z) : RibonCoreStatus + Z * Z :=
  let '(arena_budget, aggregate) := a in
  match service_at d index with
  | None => inl RIBON_CORE_STATUS_INVALID_DESCRIPTOR
  | Some service =>
    let frontend_matches :=
      if product_kind product =? RIBON_PRODUCT_KIND_FIRMWARE
      then Z.land (service_personality_mask service) (product_personality_mask product) !=? 0
      else Z.land (service_environment_mask service) (product_environment_mask product) !=? 0 in
    let limits := product_limits product in
    if negb (ribon_service_descriptor_is_valid (Some service)) ||
       (Z.land (service_architecture_mask service) (product_architecture_mask product) =? 0) ||
       negb frontend_matches ||
       (Z.land (service_mode_mask service) (RIBON_MODE_MASK mode) =? 0) ||
       (outside (service_provides service) (product_allowed_capabilities product) !=? 0) ||
       (service_input_budget service >? max_input_bytes limits) ||
       (service_output_budget service >? max_handoff_bytes limits) ||
       (service_deadline_ms service >? operation_deadline_ms limits) ||
       ((index !=? 0) &&
        (registry_strcmp (chars (service_id (service_ref d (index - 1)))) (chars (service_id service))
           >=? 0))
    then inl RIBON_CORE_STATUS_INVALID_DESCRIPTOR
    else if role_conflict d index then inl RIBON_CORE_STATUS_DUPLICATE_PROVIDER
    else if arena_budget >? UINT64_MAX - service_arena_budget service
    then inl RIBON_CORE_STATUS_BAD_LIMIT
    else inr (arena_budget + service_arena_budget service,
              Z.lor aggregate (service_provides service))
  end.

Definition selection_step (d : RibonServiceDirectory) (product : RibonProductDescriptor) (_ : unit)
    (index : Z) : RibonCoreStatus + unit :=
  let selection := service_selection_at product index in
  if negb (service_selection_is_valid selection) ||
     ((index !=? 0) &&
      (selection_kind (service_selection_at product (index - 1)) >=? selection_kind selection))
  then inl RIBON_CORE_STATUS_INVALID_DESCRIPTOR
  else
    match ribon_service_directory_find_exact (Some d) (selection_kind selection) (selection_id selection) with
    | None => inl RIBON_CORE_STATUS_MISSING_CAPABILITY
    | Some service =>
      if service_cardinality service !=? RIBON_SERVICE_CARDINALITY_COLLECTION
      then inl RIBON_CORE_STATUS_AMBIGUOUS_SELECTION
      else inr tt
    end.

(** How many services have a role. *)
Definition role_count (d : RibonServiceDirectory) (kind : Z) : Z :=
  len (filter (fun other => service_kind (service_ref d other) = kind) (upto (directory_service_count d))).

Definition role_selected (product : RibonProductDescriptor) (kind : Z) : bool :=
  existsb (fun s => selection_kind (service_selection_at product s) =? kind)
    (upto (product_service_selection_count product)).

(** A collection with several members and no selection. *)
Definition collection_ambiguous (d : RibonServiceDirectory) (product : RibonProductDescriptor) : bool :=
  existsb (fun index =>
    let service := service_ref d index in
    (service_cardinality service =? RIBON_SERVICE_CARDINALITY_COLLECTION) &&
    (role_count d (service_kind service) >? 1) && negb (role_selected product (service_kind service)))
    (upto (directory_service_count d)).

Definition ribon_service_directory_validate (directory : option RibonServiceDirectory)
    (product : option RibonProductDescriptor) (mode : Z) : RibonCoreStatus :=
  match directory, product with
  | Some d, Some p =>
    if (directory_size d !=? sizeof_RibonServiceDirectory) ||
       (directory_abi_version d !=? RIBON_SERVICE_DIRECTORY_ABI_VERSION) ||
       (directory_service_count d >? RIBON_SERVICE_DIRECTORY_LIMIT) ||
       ((directory_service_count d !=? 0) && is_null (directory_services d)) ||
       (mode <? RIBON_MODE_NORMAL) || (mode >? RIBON_MODE_DIAGNOSTIC)
    then RIBON_CORE_STATUS_INVALID_DESCRIPTOR
    else
      match foldE (service_step d p mode) (upto (directory_service_count d)) (0, 0) with
      | inl status => status
      | inr (arena_budget, aggregate) =>
        if (arena_budget >? arena_bytes (product_limits p)) ||
           (Z.land (Z.land aggregate (product_required_capabilities p)) service_capability_mask !=?
            Z.land (product_required_capabilities p) service_capability_mask)
        then RIBON_CORE_STATUS_MISSING_CAPABILITY
        else
          match foldE (selection_step d p) (upto (product_service_selection_count p)) tt with
          | inl status => status
          | inr _ =>
            if collection_ambiguous d p then RIBON_CORE_STATUS_AMBIGUOUS_SELECTION
            else RIBON_CORE_STATUS_OK
          end
      end
  | _, _ => RIBON_CORE_STATUS_INVALID_DESCRIPTOR
  end.

(** ** Operation tables *)

Definition sizeof_RibonDiagnosticSinkServiceOperations : Z := 32.
Definition sizeof_RibonWatchdogServiceOperations : Z := 24.
Definition sizeof_RibonMachineDescriptionServiceOperations : Z := 24.
Definition sizeof_RibonPayloadPlacementServiceOperations : Z := 24.
Definition sizeof_RibonTerminalImageLaunchServiceOperations : Z := 24.

Record RibonDiagnosticSinkServiceOperations := mkDiagnosticSink {
  diagnostic_size : Z;
  diagnostic_abi_version : Z;
  diagnostic_context : Z;
  diagnostic_initialize : Z;
  diagnostic_write : Z;
}.

Record RibonWatchdogServiceOperations := mkWatchdog {
  watchdog_size : Z;
  watchdog_abi_version : Z;
  watchdog_context : Z;
  watchdog_arm : Z;
}.

Record RibonMachineDescriptionServiceOperations := mkMachine {
  machine_size : Z;
  machine_abi_version : Z;
  machine_id : cstring;
  machine_native_input_capacity : Z;
}.

Record RibonPayloadPlacementServiceOperations := mkPlacement {
  placement_size : Z;
  placement_abi_version : Z;
  placement_physical_base : Z;
  placement_physical_size : Z;
}.

Record RibonTerminalImageLaunchServiceOperations := mkTerminalLaunch {
  terminal_size : Z;
  terminal_abi_version : Z;
  terminal_context : Z;
  terminal_launch : Z;
}.

(** The environment plugin's table is a directory of its own. *)
Definition environment_step (directory : RibonServiceDirectory) (aggregate index : Z) : unit + Z :=
  if ribon_service_descriptor_is_valid (service_at directory index)
  then inr (Z.lor aggregate (service_provides (service_ref directory index)))
  else inl tt.

Definition ribon_environment_plugin_operations_are_valid (descriptor : option RibonPluginDescriptor)
    (operations : option RibonServiceDirectory) : bool :=
  match descriptor with
  | None => false
  | Some p =>
    if (plugin_kind p !=? RIBON_PLUGIN_KIND_ENVIRONMENT) ||
       (plugin_operations_size p !=? sizeof_RibonServiceDirectory) ||
       (plugin_operations_abi p !=? RIBON_SERVICE_DIRECTORY_ABI_VERSION)
    then false
    else
      match operations with
      | None => false
      | Some d =>
        if (directory_size d !=? sizeof_RibonServiceDirectory) ||
           (directory_abi_version d !=? RIBON_SERVICE_DIRECTORY_ABI_VERSION) ||
           is_null (directory_services d) || (directory_service_count d =? 0)
        then false
        else
          match foldE (environment_step d) (upto (directory_service_count d)) 0 with
          | inl _ => false
          | inr aggregate => aggregate =? plugin_provides p
          end
      end
  end.

Definition ribon_diagnostic_sink_service_operations_are_valid (descriptor : option RibonServiceDescriptor)
    (operations : option RibonDiagnosticSinkServiceOperations) : bool :=
  match descriptor with
  | None => false
  | Some d =>
    if (service_kind d !=? RIBON_SERVICE_KIND_DIAGNOSTIC_SINK) ||
       (service_provides d !=? RIBON_CAP_DIAGNOSTIC_SINK) ||
       (service_operations_size d !=? sizeof_RibonDiagnosticSinkServiceOperations) ||
       (service_operations_abi d !=? RIBON_SERVICE_ABI_VERSION)
    then false
    else
      match operations with
      | None => false
      | Some o =>
        (diagnostic_size o =? sizeof_RibonDiagnosticSinkServiceOperations) &&
        (diagnostic_abi_version o =? RIBON_SERVICE_ABI_VERSION) &&
        (diagnostic_initialize o !=? 0) && (diagnostic_write o !=? 0)
      end
  end.

Definition ribon_watchdog_service_operations_are_valid (descriptor : option RibonServiceDescriptor)
    (operations : option RibonWatchdogServiceOperations) : bool :=
  match descriptor with
  | None => false
  | Some d =>
    if (service_kind d !=? RIBON_SERVICE_KIND_WATCHDOG) ||
       (service_provides d !=? RIBON_CAP_WATCHDOG) ||
       (service_operations_size d !=? sizeof_RibonWatchdogServiceOperations) ||
       (service_operations_abi d !=? RIBON_SERVICE_ABI_VERSION)
    then false
    else
      match operations with
      | None => false
      | Some o =>
        (watchdog_size o =? sizeof_RibonWatchdogServiceOperations) &&
        (watchdog_abi_version o =? RIBON_SERVICE_ABI_VERSION) && (watchdog_arm o !=? 0)
      end
  end.

Definition ribon_machine_description_service_operations_are_valid
    (descriptor : option RibonServiceDescriptor)
    (operations : option RibonMachineDescriptionServiceOperations) : bool :=
  match descriptor with
  | None => false
  | Some d =>
    if (service_kind d !=? RIBON_SERVICE_KIND_MACHINE_DESCRIPTION) ||
       (service_provides d !=? RIBON_CAP_MACHINE_DESCRIPTION) ||
       (service_operations_size d !=? sizeof_RibonMachineDescriptionServiceOperations) ||
       (service_operations_abi d !=? RIBON_SERVICE_ABI_VERSION)
    then false
    else
      match operations with
      | None => false
      | Some o =>
        (machine_size o =? sizeof_RibonMachineDescriptionServiceOperations) &&
        (machine_abi_version o =? RIBON_SERVICE_ABI_VERSION) && negb (cstring_empty (machine_id o)) &&
        (machine_native_input_capacity o !=? 0)
      end
  end.

Definition ribon_payload_placement_service_operations_are_valid
    (descriptor : option RibonServiceDescriptor)
    (operations : option RibonPayloadPlacementServiceOperations) : bool :=
  match descriptor with
  | None => false
  | Some d =>
    if (service_kind d !=? RIBON_SERVICE_KIND_PAYLOAD_PLACEMENT) ||
       (service_provides d !=? RIBON_CAP_PAYLOAD_PLACEMENT) ||
       (service_operations_size d !=? sizeof_RibonPayloadPlacementServiceOperations) ||
       (service_operations_abi d !=? RIBON_SERVICE_ABI_VERSION)
    then false
    else
      match operations with
      | None => false
      | Some o =>
        (placement_size o =? sizeof_RibonPayloadPlacementServiceOperations) &&
        (placement_abi_version o =? RIBON_SERVICE_ABI_VERSION) &&
        (placement_physical_base o !=? 0) && (placement_physical_size o !=? 0) &&
        (placement_physical_base o <=? UINT64_MAX - placement_physical_size o)
      end
  end.

Definition ribon_terminal_image_launch_service_operations_are_valid
    (descriptor : option RibonServiceDescriptor)
    (operations : option RibonTerminalImageLaunchServiceOperations) : bool :=
  match descriptor with
  | None => false
  | Some d =>
    if (service_kind d !=? RIBON_SERVICE_KIND_TERMINAL_IMAGE_LAUNCH) ||
       (service_provides d !=? RIBON_CAP_TERMINAL_IMAGE_LAUNCH) ||
       (service_operations_size d !=? sizeof_RibonTerminalImageLaunchServiceOperations) ||
       (service_operations_abi d !=? RIBON_SERVICE_ABI_VERSION)
    then false
    else
      match operations with
      | None => false
      | Some o =>
        (terminal_size o =? sizeof_RibonTerminalImageLaunchServiceOperations) &&
        (terminal_abi_version o =? RIBON_SERVICE_ABI_VERSION) && (terminal_launch o !=? 0)
      end
  end.
