(* ===== verification/ServiceProperties.v ===== *)
(** * Properties of the service directory

    What a directory that validates gives the product: every service capability
    it requires has a provider, a role with an authority has one provider, and a
    role with several has the one the product selects. *)

From S2P Require Import Prelude.
From S2P Require Import Buffer.
From S2P Require Import Memory.
From S2P Require Import Provider.
From S2P Require Import CString.
From S2P Require Import Plugin.
From S2P Require Import Registry.
From S2P Require Import RegistryOrder.
From S2P Require Import RegistryProperties.
From S2P Require Import ServiceDirectory.

Section Directory.
Context (d : RibonServiceDirectory) (p : RibonProductDescriptor) (mode : Z).
Let n := directory_service_count d.

(** Service [i] provides the capability of [bit]. *)
Definition serves (i bit : Z) : Prop :=
  Z.land (service_provides (service_ref d i)) (capability_of bit) <> 0.

Definition service_name (i : Z) : bytes := chars (service_id (service_ref d i)).

(** The C types: the count is unsigned, identifiers are strings. *)
Record directory_typed : Prop := {
  typed_service_count : 0 <= n;
  typed_service_ids : forall i, string_bytes (service_name i);
}.

(** Service [i] is there and fits the product. *)
Definition service_fits (i : Z) : Prop :=
  ribon_service_descriptor_is_valid (Some (service_ref d i)) = true /\
  Z.land (service_mode_mask (service_ref d i)) (RIBON_MODE_MASK mode) <> 0 /\
  outside (service_provides (service_ref d i)) (product_allowed_capabilities p) = 0 /\
  role_conflict d i = false /\
  (i <> 0 -> registry_strcmp (service_name (i - 1)) (service_name i) < 0).

Record accounted (done : list Z) (a : Z * Z) : Prop := {
  accounted_fits : forall i, i ∈ done -> service_fits i;
  accounted_arena : a.1 = sum_over (fun i => service_arena_budget (service_ref d i)) done;
  accounted_aggregate : forall bit, 0 <= bit ->
    Z.land a.2 (capability_of bit) <> 0 <-> exists i, i ∈ done /\ serves i bit;
}.

Lemma service_step_accounted done x a a' : 0 <= x ->
  service_step d p mode a x = inr a' -> accounted done a -> accounted (done ++ [x]) a'.
Proof.
  intros Hx H Ha. destruct a as [arena agg]. unfold service_step in H.
  destruct (service_at d x) as [s|] eqn:Hs; [|done].
  assert (Href : service_ref d x = s) by (unfold service_ref; by rewrite Hs).
  destruct (_ || _) eqn:G in H; [done|]. destruct (role_conflict d x) eqn:Hc; [done|].
  destruct (_ <? _) in H; [done|]. injection H as <-. constructor; cbn [fst snd].
  - intros i Hi. apply elem_of_app in Hi as [Hi|Hi]; [by apply (accounted_fits _ _ Ha)|].
    apply list_elem_of_singleton in Hi as ->. unfold service_fits. rewrite Href.
    apply orb_false_iff in G as [G Hord]. bool_to_prop. split_and!; try done.
    intros Hne. apply andb_false_iff in Hord as [Hord|Hord]; bool_to_prop; [lia|].
    unfold service_name. by rewrite Href.
  - rewrite sum_over_snoc, Href. pose proof (accounted_arena _ _ Ha). cbn [fst] in *. lia.
  - intros bit Hb. pose proof (accounted_aggregate _ _ Ha bit Hb) as Hagg. cbn [snd] in Hagg.
    rewrite land_capability, Z.lor_spec, orb_true_iff, <- !land_capability, Hagg by done. split.
    + intros [(i & Hi & Hp)|Hp]; [exists i|exists x]; rewrite elem_of_app; (split; [|try done]).
      * by left.
      * right. by apply list_elem_of_singleton.
      * unfold serves. by rewrite Href.
    + intros (i & Hi & Hp). apply elem_of_app in Hi as [Hi|Hi]; [left; eauto|right].
      apply list_elem_of_singleton in Hi as ->. unfold serves in Hp. by rewrite Href in Hp.
Qed.

(** The stages of a validation that succeeded. *)
Record admitted : Prop := {
  admitted_fits : forall i, 0 <= i < n -> service_fits i;
  admitted_arena : sum_over (fun i => service_arena_budget (service_ref d i)) (upto n)
    <= arena_bytes (product_limits p);
  admitted_required : forall bit, 0 <= bit ->
    Z.land (product_required_capabilities p) (capability_of bit) <> 0 ->
    Z.land service_capability_mask (capability_of bit) <> 0 ->
    exists i, 0 <= i < n /\ serves i bit;
  admitted_selections : forall i, 0 <= i < product_service_selection_count p ->
    selection_step d p tt i = inr tt;
  admitted_unambiguous : collection_ambiguous d p = false;
}.

Lemma validate_admitted :
  ribon_service_directory_validate (Some d) (Some p) mode = RIBON_CORE_STATUS_OK -> admitted.
Proof.
  unfold ribon_service_directory_validate. destruct (_ || _); [done|].
  destruct (foldE _ _ _) as [e|[arena agg]] eqn:Hf; [intros ->|].
  { apply foldE_inl in Hf as (done & x & rest & [a g] & _ & _ & H). unfold service_step in H.
    repeat case_match; simplify_eq. }
  assert (Ha : accounted (upto n) (arena, agg)).
  { apply (foldE_inv _ accounted _ _ _ Hf); [constructor|].
    - intros i Hi. by apply not_elem_of_nil in Hi.
    - done.
    - intros bit Hb. cbn [snd]. rewrite Z.land_0_l. split; [done|]. intros (i & Hi & _).
      by apply not_elem_of_nil in Hi.
    - intros done x rest b b' Hl Hd Hx. eapply service_step_accounted; try done.
      assert (x ∈ upto n) as Hin by (unfold n; rewrite Hl, elem_of_app; right; left).
      apply upto_in in Hin. lia. }
  destruct (_ || _) eqn:G; [done|]. bool_to_prop.
  destruct (foldE (selection_step d p) _ _) as [e|[]] eqn:Hsel; [intros ->|].
  { apply foldE_inl in Hsel as (done & x & rest & [] & _ & _ & H'). unfold selection_step in H'.
    repeat case_match; simplify_eq. }
  destruct (collection_ambiguous d p) eqn:Hamb; [done|]. intros _. constructor; try done.
  - intros i Hi. by apply (accounted_fits _ _ Ha), upto_in.
  - rewrite <- (accounted_arena _ _ Ha). done.
  - intros bit Hb Hreq Hmask. destruct (proj1 (accounted_aggregate _ _ Ha bit Hb)) as (i & Hi & Hp).
    + cbn [snd]. apply land_capability; [done|]. apply land_capability in Hreq, Hmask; try done.
      match goal with E : Z.land (Z.land _ _) _ = _ |- _ => apply (f_equal (fun x => Z.testbit x bit)) in E;
        rewrite !Z.land_spec, Hreq, Hmask in E; by rewrite !andb_true_r in E end.
    + exists i. split; [by apply upto_in|done].
  - intros i Hi. apply upto_in in Hi. revert i Hi. 
    apply (foldE_inv _ (fun l _ => forall i, i ∈ l -> selection_step d p tt i = inr tt) _ _ _ Hsel).
    + intros i Hi. by apply not_elem_of_nil in Hi.
    + intros done x rest [] [] _ IH Hx i Hi. apply elem_of_app in Hi as [Hi|Hi]; [by apply IH|].
      by apply list_elem_of_singleton in Hi as ->.
Qed.

Lemma role_conflict_free i j : admitted -> 0 <= i -> i < j -> j < n ->
  service_kind (service_ref d i) = service_kind (service_ref d j) ->
  service_cardinality (service_ref d i) <> RIBON_SERVICE_CARDINALITY_AUTHORITY /\
  service_cardinality (service_ref d j) <> RIBON_SERVICE_CARDINALITY_AUTHORITY.
Proof.
  intros Ha Hi Hij Hj Hk. destruct (admitted_fits Ha j ltac:(lia)) as (_ & _ & _ & Hc & _).
  unfold role_conflict in Hc. rewrite existsb_false in Hc.
  specialize (Hc i (proj2 (upto_in j i) ltac:(lia))). cbv zeta in Hc. rewrite Hk, Z.eqb_refl in Hc.
  cbn [andb] in Hc. by bool_to_prop.
Qed.

(** A role with an authority has no other provider. *)
Lemma authority_alone i j : admitted -> 0 <= i < n -> 0 <= j < n ->
  service_kind (service_ref d i) = service_kind (service_ref d j) ->
  service_cardinality (service_ref d i) = RIBON_SERVICE_CARDINALITY_AUTHORITY -> i = j.
Proof.
  intros Ha Hi Hj Hk Hc. destruct (Z.lt_trichotomy i j) as [H|[H|H]]; [|done|].
  - by destruct (role_conflict_free i j) as [? _]; try lia.
  - by destruct (role_conflict_free j i) as [_ ?]; try lia.
Qed.

Lemma find_exact_some kind id s :
  ribon_service_directory_find_exact (Some d) kind (Some id) = Some s ->
  exists i, 0 <= i < n /\ service_at d i = Some s /\ service_kind s = kind /\ service_id s = Some id.
Proof.
  unfold ribon_service_directory_find_exact. destruct (directory_services d); [|done].
  set (f := fun index => _). intros H.
  assert (Hs : s ∈ omap f (upto n)) by (unfold n; destruct (omap f _); [done|]; injection H as ->; left).
  apply list_elem_of_omap in Hs as (i & Hi & Hf). subst f. cbv beta in Hf.
  destruct (service_at d i) as [s'|] eqn:Hat; [|done]. destruct (_ && _) eqn:G in Hf; [|done].
  injection Hf as ->. apply andb_true_iff in G as [Gk Gi]. exists i. apply upto_in in Hi.
  split; [done|]. split_and!; try done; [by apply Z.eqb_eq|]. destruct (service_id s); [|done].
  by apply streq_true in Gi as ->.
Qed.

(** The product's selection for a role names a member of its collection. *)
Lemma role_selected_found kind : admitted -> role_selected p kind = true ->
  exists s i, ribon_service_directory_find_selected (Some d) (Some p) kind = Some s /\
    0 <= i < n /\ service_at d i = Some s /\ service_kind s = kind /\
    service_cardinality s = RIBON_SERVICE_CARDINALITY_COLLECTION.
Proof.
  intros Ha H. unfold ribon_service_directory_find_selected.
  destruct (filter _ _) as [|k rest] eqn:Hfil.
  { exfalso. apply existsb_exists in H as (x & Hx & Hk). apply list_elem_of_In in Hx.
    assert (Hin : x ∈ filter (fun i => selection_kind (service_selection_at p i) = kind)
      (upto (product_service_selection_count p)))
      by (apply list_elem_of_filter; split; [by apply Z.eqb_eq|done]).
    rewrite Hfil in Hin. by apply not_elem_of_nil in Hin. }
  assert (Hk : k ∈ filter (fun i => selection_kind (service_selection_at p i) = kind)
    (upto (product_service_selection_count p))) by (rewrite Hfil; left).
  apply list_elem_of_filter in Hk as [Hkind Hk]. apply upto_in in Hk.
  pose proof (admitted_selections Ha k Hk) as Hs. unfold selection_step in Hs. rewrite Hkind in Hs.
  destruct (_ || _) in Hs; [done|]. destruct (ribon_service_directory_find_exact _ _ _) as [s|] eqn:Hf; [|done].
  destruct (selection_id (service_selection_at p k)) as [id|]; [|done].
  apply find_exact_some in Hf as (i & Hi & Hat & Hsk & _). destruct (negb _) eqn:G in Hs; [done|].
  bool_to_prop. by exists s, i.
Qed.

Lemma role_count_one i : 0 <= i < n ->
  (forall j, 0 <= j < n -> service_kind (service_ref d i) = service_kind (service_ref d j) -> i = j) ->
  role_count d (service_kind (service_ref d i)) = 1.
Proof.
  intros Hi Hj. unfold role_count. fold n.
  assert (H : filter (fun o => service_kind (service_ref d o) = service_kind (service_ref d i)) (upto n) ≡ₚ [i]).
  { apply NoDup_Permutation; [apply NoDup_filter, NoDup_seqZ|apply NoDup_singleton|].
    intros j. rewrite list_elem_of_filter, upto_in, list_elem_of_singleton. split; [|by intros ->].
    intros [Hk Hr]. symmetry. by apply Hj. }
  unfold len. by rewrite H.
Qed.

(** A directory that validates gives the product one provider for each role: the
    only service of the role, or the member of the collection the product selects.
    Every service capability the product requires is provided, a role with an
    authority has no second provider, identifiers are distinct and the arenas fit
    together in the product's. *)
Theorem directory_accepted : directory_typed ->
  ribon_service_directory_validate (Some d) (Some p) mode = RIBON_CORE_STATUS_OK ->
  (forall bit, 0 <= bit -> Z.land (product_required_capabilities p) (capability_of bit) <> 0 ->
     Z.land service_capability_mask (capability_of bit) <> 0 ->
     exists i, 0 <= i < directory_service_count d /\ serves i bit) /\
  (forall i, 0 <= i < directory_service_count d ->
     role_count d (service_kind (service_ref d i)) = 1 \/
     exists s j, ribon_service_directory_find_selected (Some d) (Some p)
         (service_kind (service_ref d i)) = Some s /\
       0 <= j < directory_service_count d /\ service_at d j = Some s /\
       service_kind s = service_kind (service_ref d i) /\
       service_cardinality s = RIBON_SERVICE_CARDINALITY_COLLECTION) /\
  (forall i j, 0 <= i < directory_service_count d -> 0 <= j < directory_service_count d ->
     service_kind (service_ref d i) = service_kind (service_ref d j) ->
     service_cardinality (service_ref d i) = RIBON_SERVICE_CARDINALITY_AUTHORITY -> i = j) /\
  (forall i j, 0 <= i -> i < j -> j < directory_service_count d ->
     registry_strcmp (service_name i) (service_name j) < 0) /\
  sum_over (fun i => service_arena_budget (service_ref d i)) (upto (directory_service_count d))
    <= arena_bytes (product_limits p).
Proof.
  intros Ht Hok. apply validate_admitted in Hok as Ha. fold n. split_and!.
  - apply (admitted_required Ha).
  - intros i Hi. destruct (Z.gtb_spec (role_count d (service_kind (service_ref d i))) 1) as [Hc|Hc].
    + right. apply role_selected_found; [done|].
      pose proof (admitted_unambiguous Ha) as Hamb. unfold collection_ambiguous in Hamb.
      rewrite existsb_false in Hamb. specialize (Hamb i (proj2 (upto_in _ i) Hi)). cbv zeta in Hamb.
      destruct (role_selected p _) in *; [done|]. exfalso. cbn [negb] in Hamb. rewrite andb_true_r in Hamb.
      apply andb_false_iff in Hamb as [Hamb|Hamb]; [|bool_to_prop; lia].
      assert (Hauth : service_cardinality (service_ref d i) = RIBON_SERVICE_CARDINALITY_AUTHORITY).
      { destruct (admitted_fits Ha i Hi) as (Hv & _). unfold ribon_service_descriptor_is_valid in Hv.
        destruct (_ || _) eqn:G in Hv; [done|]. bool_to_prop.
        unfold RIBON_SERVICE_CARDINALITY_AUTHORITY, RIBON_SERVICE_CARDINALITY_COLLECTION in *. lia. }
      rewrite role_count_one in Hc; [lia|done|]. intros j Hj Hk. by apply authority_alone.
    + left. apply Z.le_antisymm; [done|]. unfold role_count. fold n.
      assert (Hin : i ∈ filter (fun o => service_kind (service_ref d o) = service_kind (service_ref d i))
        (upto n)) by (apply list_elem_of_filter; split; [done|by apply upto_in]).
      destruct (filter _ _); [by apply not_elem_of_nil in Hin|]. unfold len. cbn [length]. lia.
  - intros i j. by apply authority_alone.
  - apply strcmp_sorted; [apply Ht|]. intros k Hk.
    destruct (admitted_fits Ha k ltac:(unfold n; lia)) as (_ & _ & _ & _ & H). apply H. lia.
  - apply (admitted_arena Ha).
Qed.
End Directory.
