(* ===== verification/Context.v ===== *)
(** * The Core context ([src/core/context.c], [src/modes])

    The product, its registry, services and mode, checked together before
    anything is initialised, and the mode descriptors a product links in. *)

From S2P Require Import Prelude.
From S2P Require Import Buffer.
From S2P Require Import Memory.
From S2P Require Import Provider.
From S2P Require Import CString.
From S2P Require Import Plugin.
From S2P Require Import Registry.
From S2P Require Import RegistryOrder.
From S2P Require Import RegistryProperties.
From S2P Require Import ServiceDirectory.
From S2P Require Import ServiceProperties.

Definition sizeof_RibonCoreContext : Z := 48.

Record RibonCoreContext := mkContext {
  context_size : Z;
  context_abi_version : Z;
  context_product : option RibonProductDescriptor;
  context_registry : option RibonPluginRegistry;
  context_services : option RibonServiceDirectory;
  context_mode : option RibonModeDescriptor;
  context_arena : option Arena.RibonArena;
}.

Definition zero_context : RibonCoreContext := mkContext 0 0 None None None None None.

(** [None] is out of fuel in the registry's ordering. *)
Definition ribon_core_context_validate (context : option RibonCoreContext) : option RibonCoreStatus :=
  match context with
  | None => Some RIBON_CORE_STATUS_BAD_ARGUMENT
  | Some c =>
    if (context_size c !=? sizeof_RibonCoreContext) ||
       (context_abi_version c !=? RIBON_CORE_ABI_VERSION)
    then Some RIBON_CORE_STATUS_BAD_ARGUMENT
    else
      match context_product c, context_registry c, context_services c, context_mode c, context_arena c with
      | Some product, Some _, Some _, Some mode, Some arena =>
        if negb (ribon_mode_descriptor_is_valid (context_mode c)) ||
           (Z.land (product_mode_mask product) (RIBON_MODE_MASK (mode_mode mode)) =? 0)
        then Some RIBON_CORE_STATUS_BAD_MODE
        else if (Arena.base arena =? 0) || (Arena.used arena !=? 0) ||
                (Arena.high_watermark arena !=? 0) ||
                (Arena.capacity arena <? arena_bytes (mode_limits mode)) ||
                (Arena.capacity arena <? arena_bytes (product_limits product))
        then Some RIBON_CORE_STATUS_BAD_LIMIT
        else
          match ribon_plugin_registry_validate (context_registry c) (context_product c) (mode_mode mode) with
          | None => None
          | Some RIBON_CORE_STATUS_OK =>
            Some (ribon_service_directory_validate (context_services c) (context_product c) (mode_mode mode))
          | Some status => Some status
          end
      | _, _, _, _, _ => Some RIBON_CORE_STATUS_BAD_ARGUMENT
      end
  end.

(** The status and [*out] afterwards. *)
Definition ribon_context_initialize (out : option RibonCoreContext)
    (product : option RibonProductDescriptor) (registry : option RibonPluginRegistry)
    (services : option RibonServiceDirectory) (mode : option RibonModeDescriptor)
    (arena : option Arena.RibonArena) : option (RibonCoreStatus * option RibonCoreContext) :=
  match out with
  | None => Some (RIBON_CORE_STATUS_BAD_ARGUMENT, None)
  | Some _ =>
    let candidate :=
      mkContext sizeof_RibonCoreContext RIBON_CORE_ABI_VERSION product registry services mode arena in
    match ribon_core_context_validate (Some candidate) with
    | None => None
    | Some RIBON_CORE_STATUS_OK => Some (RIBON_CORE_STATUS_OK, Some candidate)
    | Some status => Some (status, Some zero_context)
    end
  end.

(** ** Modes *)

Definition normal_mode : RibonModeDescriptor :=
  mkMode sizeof_RibonModeDescriptor RIBON_CORE_ABI_VERSION RIBON_MODE_NORMAL
    (Some (ribon_mode_name RIBON_MODE_NORMAL))
    (fold_left Z.lor
       [RIBON_CAP_BOOT_SOURCE_READ; RIBON_CAP_MONOTONIC_TIMER; RIBON_CAP_ARCHITECTURE;
        RIBON_CAP_BOOT_PROTOCOL; RIBON_CAP_HANDOFF; RIBON_CAP_ENTRY_CONTRACT] 0)
    (fold_left Z.lor
       [RIBON_CAP_INACTIVE_SLOT_WRITE; RIBON_CAP_INACTIVE_SLOT_ERASE; RIBON_CAP_NETWORK_TRANSPORT] 0)
    (mkLimits 256 32 32 2 (64 * 1024 * 1024) (64 * 1024) (256 * 1024) 30000).

Definition recovery_mode : RibonModeDescriptor :=
  mkMode sizeof_RibonModeDescriptor RIBON_CORE_ABI_VERSION RIBON_MODE_RECOVERY
    (Some (ribon_mode_name RIBON_MODE_RECOVERY))
    (fold_left Z.lor
       [RIBON_CAP_BOOT_SOURCE_READ; RIBON_CAP_INACTIVE_SLOT_WRITE; RIBON_CAP_INACTIVE_SLOT_ERASE;
        RIBON_CAP_STORAGE_FLUSH; RIBON_CAP_MONOTONIC_TIMER; RIBON_CAP_PERSISTENT_METADATA;
        RIBON_CAP_RANDOM_NONCE; RIBON_CAP_ARCHITECTURE; RIBON_CAP_BOOT_PROTOCOL] 0)
    0 (mkLimits 256 32 32 4 (256 * 1024 * 1024) (64 * 1024) (512 * 1024) 120000).

Definition provisioning_mode : RibonModeDescriptor :=
  mkMode sizeof_RibonModeDescriptor RIBON_CORE_ABI_VERSION RIBON_MODE_PROVISIONING
    (Some (ribon_mode_name RIBON_MODE_PROVISIONING))
    (fold_left Z.lor
       [RIBON_CAP_INACTIVE_SLOT_WRITE; RIBON_CAP_STORAGE_FLUSH; RIBON_CAP_MONOTONIC_TIMER;
        RIBON_CAP_PERSISTENT_METADATA; RIBON_CAP_RANDOM_NONCE; RIBON_CAP_ARCHITECTURE] 0)
    0 (mkLimits 256 32 32 3 (256 * 1024 * 1024) (64 * 1024) (512 * 1024) 120000).

Definition diagnostic_mode : RibonModeDescriptor :=
  mkMode sizeof_RibonModeDescriptor RIBON_CORE_ABI_VERSION RIBON_MODE_DIAGNOSTIC
    (Some (ribon_mode_name RIBON_MODE_DIAGNOSTIC))
    (fold_left Z.lor [RIBON_CAP_MONOTONIC_TIMER; RIBON_CAP_DIAGNOSTIC_SINK; RIBON_CAP_ARCHITECTURE] 0)
    (fold_left Z.lor
       [RIBON_CAP_INACTIVE_SLOT_WRITE; RIBON_CAP_INACTIVE_SLOT_ERASE; RIBON_CAP_PERSISTENT_METADATA] 0)
    (mkLimits 512 64 64 2 (64 * 1024 * 1024) (64 * 1024) (1024 * 1024) 60000).

(** ** What a context that initialises guarantees *)

Lemma service_bit_in_mask bit : 0 <= bit < 64 ->
  registry_capability_is_service (capability_of bit) = true ->
  Z.land service_capability_mask (capability_of bit) <> 0.
Proof.
  intros Hb Hs.
  assert (H : forallb (fun b => negb (registry_capability_is_service (capability_of b)) ||
    (Z.land service_capability_mask (capability_of b) !=? 0)) (upto 64) = true) by reflexivity.
  rewrite forallb_in in H. specialize (H bit (proj2 (upto_in 64 bit) Hb)). rewrite Hs in H.
  cbn [negb orb] in H. by bool_to_prop.
Qed.

(** A validated context: its parts and the checks they passed. *)
Lemma context_validated c : ribon_core_context_validate (Some c) = Some RIBON_CORE_STATUS_OK ->
  exists p r d m a,
    c = mkContext sizeof_RibonCoreContext RIBON_CORE_ABI_VERSION (Some p) (Some r) (Some d) (Some m) (Some a) /\
    ribon_mode_descriptor_is_valid (Some m) = true /\
    arena_bytes (mode_limits m) <= Arena.capacity a /\
    arena_bytes (product_limits p) <= Arena.capacity a /\
    Arena.used a = 0 /\
    ribon_plugin_registry_validate (Some r) (Some p) (mode_mode m) = Some RIBON_CORE_STATUS_OK /\
    ribon_service_directory_validate (Some d) (Some p) (mode_mode m) = RIBON_CORE_STATUS_OK.
Proof.
  destruct c as [sz abi p r d m a]. unfold ribon_core_context_validate. cbn [context_size context_abi_version
    context_product context_registry context_services context_mode context_arena].
  destruct (_ || _) eqn:G; [done|]. apply orb_false_iff in G as [G1 G2]. bool_to_prop. subst.
  destruct p as [p|], r as [r|], d as [d|], m as [m|], a as [a|]; try done.
  destruct (_ || _) eqn:G; [done|]. apply orb_false_iff in G as [Gm _].
  destruct (_ || _) eqn:G; [done|]. destruct (ribon_plugin_registry_validate _ _ _) as [[]|] eqn:Hr; try done.
  injection 1 as Hs. exists p, r, d, m, a. bool_to_prop. split_and!; done.
Qed.

Lemma initialize_ok o p r d m a out : ribon_context_initialize (Some o) p r d m a =
    Some (RIBON_CORE_STATUS_OK, out) ->
  out = Some (mkContext sizeof_RibonCoreContext RIBON_CORE_ABI_VERSION p r d m a) /\
  ribon_core_context_validate out = Some RIBON_CORE_STATUS_OK.
Proof.
  unfold ribon_context_initialize. destruct (ribon_core_context_validate _) as [[]|] eqn:Hv; try done.
  injection 1 as <-. done.
Qed.

(** Initialising a context that succeeds leaves a product whose every dependency
    is met: its plugins have an order in which each capability a plugin requires
    comes from a plugin before it, of a phase not later, or from a service of the
    directory; and each capability the product requires comes from a plugin or a
    service. *)
Theorem context_dependencies_met o p r d mode arena out :
  registry_typed r -> directory_typed d ->
  ribon_context_initialize (Some o) (Some p) (Some r) (Some d) mode arena =
    Some (RIBON_CORE_STATUS_OK, out) ->
  (exists l, initialised_by r
     (fun bit => exists i, 0 <= i < directory_service_count d /\ serves d i bit) l) /\
  (forall bit, 0 <= bit < 64 -> Z.land (product_required_capabilities p) (capability_of bit) <> 0 ->
     (exists i, 0 <= i < registry_plugin_count r /\ provides_bit r i bit) \/
     exists i, 0 <= i < directory_service_count d /\ serves d i bit).
Proof.
  intros Hr Hd H. apply initialize_ok in H as [-> H].
  apply context_validated in H as (p' & r' & d' & m & a & Heq & _ & _ & _ & _ & Hreg & Hsrv).
  injection Heq as <- <- <- -> ->. apply validate_admitted in Hsrv.
  assert (Hserve : forall bit, 0 <= bit < 64 -> external_service p bit ->
    exists i, 0 <= i < directory_service_count d /\ serves d i bit).
  { intros bit Hb [Hs Hreq]. apply (admitted_required _ _ _ Hsrv); [lia|done|].
    by apply service_bit_in_mask. }
  split.
  - destruct (accepted_order r p (mode_mode m) Hr Hreg) as (l & Hl & Ho). exists l. split; [done|].
    intros before c after Heq bit Hb Hreq. destruct (Ho before c after Heq bit Hb Hreq); auto.
  - intros bit Hb Hreq. destruct (registry_capability_is_service (capability_of bit)) eqn:Hs.
    + right. by apply Hserve.
    + left. by apply (required_provided r p (mode_mode m) Hr bit Hreg).
Qed.

(** A context is all or nothing: unless initialisation succeeds the caller is left
    with a zeroed context, which no later validation accepts; a context it stores
    validates again, over an empty arena as large as the mode and the product
    ask for. *)
Theorem context_initialize_fail_closed o p r d mode arena status out :
  ribon_context_initialize (Some o) p r d mode arena = Some (status, out) ->
  (status = RIBON_CORE_STATUS_OK <-> ribon_core_context_validate out = Some RIBON_CORE_STATUS_OK) /\
  (status <> RIBON_CORE_STATUS_OK -> out = Some zero_context) /\
  (status = RIBON_CORE_STATUS_OK -> exists m a p', mode = Some m /\ arena = Some a /\ p = Some p' /\
     Arena.used a = 0 /\ arena_bytes (mode_limits m) <= Arena.capacity a /\
     arena_bytes (product_limits p') <= Arena.capacity a).
Proof.
  intros H. destruct (decide (status = RIBON_CORE_STATUS_OK)) as [->|Hne].
  - apply initialize_ok in H as [-> H]. split_and!; try done. intros _.
    apply context_validated in H as (p' & r' & d' & m & a & Heq & _ & ? & ? & ? & _).
    injection Heq as -> _ _ -> ->. by exists m, a, p'.
  - assert (out = Some zero_context) as ->; [|done]. unfold ribon_context_initialize in H.
    by destruct (ribon_core_context_validate _) as [[]|]; simplify_eq.
Qed.

(** A mode descriptor with other capability masks. *)
Definition with_masks (m : RibonModeDescriptor) (required forbidden : Z) : RibonModeDescriptor :=
  mkMode (mode_size m) (mode_abi_version m) (mode_mode m) (mode_name m) required forbidden
    (mode_limits m).

(** The mode's capability masks decide nothing: two valid descriptors of the same
    mode and limits validate the same contexts, whatever they require or forbid. *)
Theorem context_mode_masks_ignored size abi p r d arena m required forbidden :
  ribon_mode_descriptor_is_valid (Some m) = true ->
  ribon_mode_descriptor_is_valid (Some (with_masks m required forbidden)) = true ->
  ribon_core_context_validate
    (Some (mkContext size abi p r d (Some (with_masks m required forbidden)) arena)) =
  ribon_core_context_validate (Some (mkContext size abi p r d (Some m) arena)).
Proof.
  intros Hm Hm'. unfold ribon_core_context_validate. cbn [context_size context_abi_version
    context_product context_registry context_services context_mode context_arena].
  rewrite Hm, Hm'. reflexivity.
Qed.

(** ** A concrete context

    A directory with the boot sources "disk" and "net", the reset authority
    "power" and the writable slots "slots", which the normal mode forbids. *)

Definition sample_service (id : bytes) (kind cardinality : Z) : RibonServiceDescriptor :=
  mkService RIBON_SERVICE_DESCRIPTOR_MAGIC sizeof_RibonServiceDescriptor RIBON_SERVICE_ABI_VERSION
    kind cardinality RIBON_SERVICE_LIFETIME_BOOT 0 (Some id) (service_capabilities kind) 1 1 0
    RIBON_MODE_MASK_ALL 1024 4096 512 100 0x1000 24 RIBON_SERVICE_ABI_VERSION (Some true).

Definition sample_directory : RibonServiceDirectory :=
  mkDirectory sizeof_RibonServiceDirectory RIBON_SERVICE_DIRECTORY_ABI_VERSION
    (Some [Some (sample_service [100; 105; 115; 107] RIBON_SERVICE_KIND_BOOT_SOURCE
                   RIBON_SERVICE_CARDINALITY_COLLECTION);
           Some (sample_service [110; 101; 116] RIBON_SERVICE_KIND_BOOT_SOURCE
                   RIBON_SERVICE_CARDINALITY_COLLECTION);
           Some (sample_service [112; 111; 119; 101; 114] RIBON_SERVICE_KIND_RESET
                   RIBON_SERVICE_CARDINALITY_AUTHORITY);
           Some (sample_service [115; 108; 111; 116; 115] RIBON_SERVICE_KIND_INACTIVE_SLOT_STORAGE
                   RIBON_SERVICE_CARDINALITY_AUTHORITY)]) 4.

Definition sample_arena : Arena.RibonArena := Arena.mkArena 0x100000 (1024 * 1024) 0 0.

Definition sample_context : RibonCoreContext :=
  mkContext sizeof_RibonCoreContext RIBON_CORE_ABI_VERSION (Some sample_product) (Some sample_registry)
    (Some sample_directory) (Some normal_mode) (Some sample_arena).

Lemma sample_directory_typed : directory_typed sample_directory.
Proof.
  constructor; [done|]. intros i. unfold service_name, service_ref, service_at. cbn [directory_services sample_directory].
  generalize (Z.to_nat i). intros k. do 4 (destruct k as [|k]; [repeat constructor|]).
  destruct k; constructor.
Qed.

Lemma sample_initialize :
  ribon_context_initialize (Some zero_context) (Some sample_product) (Some sample_registry)
    (Some sample_directory) (Some normal_mode) (Some sample_arena) =
  Some (RIBON_CORE_STATUS_OK, Some sample_context).
Proof. vm_compute. reflexivity. Qed.

Lemma sample_initialize_empty :
  ribon_context_initialize (Some sample_context) (Some sample_product) None
    (Some sample_directory) (Some normal_mode) (Some sample_arena) =
  Some (RIBON_CORE_STATUS_BAD_ARGUMENT, Some zero_context).
Proof. vm_compute. reflexivity. Qed.

Lemma directory_accepted_witness :
  ribon_service_directory_validate (Some sample_directory) (Some sample_product) RIBON_MODE_NORMAL =
  RIBON_CORE_STATUS_OK /\
  exists s j, ribon_service_directory_find_selected (Some sample_directory) (Some sample_product) 0 = Some s /\
    0 <= j < 4 /\ service_at sample_directory j = Some s.
Proof.
  assert (H : ribon_service_directory_validate (Some sample_directory) (Some sample_product)
    RIBON_MODE_NORMAL = RIBON_CORE_STATUS_OK) by (vm_compute; reflexivity).
  split; [exact H|].
  destruct (directory_accepted sample_directory sample_product RIBON_MODE_NORMAL sample_directory_typed H)
    as (_ & Hrole & _). destruct (Hrole 0 ltac:(cbn; lia)) as [Hone|(s & j & Hs & Hj & Hat & _)].
  - vm_compute in Hone. discriminate.
  - exists s, j. auto.
Defined.

Lemma context_dependencies_met_witness :
  (exists l, initialised_by sample_registry
     (fun bit => exists i, 0 <= i < 4 /\ serves sample_directory i bit) l) /\
  ((exists i, 0 <= i < 4 /\ provides_bit sample_registry i 6) \/
   exists i, 0 <= i < 4 /\ serves sample_directory i 6).
Proof.
  destruct (context_dependencies_met zero_context sample_product sample_registry sample_directory
    (Some normal_mode) (Some sample_arena) (Some sample_context) sample_registry_typed
    sample_directory_typed sample_initialize) as [Ho Hr].
  split; [exact Ho|]. apply (Hr 6); [lia|vm_compute; discriminate].
Defined.

Lemma context_initialize_fail_closed_witness :
  ribon_core_context_validate (Some sample_context) = Some RIBON_CORE_STATUS_OK /\
  ribon_core_context_validate (Some zero_context) <> Some RIBON_CORE_STATUS_OK.
Proof.
  split.
  - apply (context_initialize_fail_closed _ _ _ _ _ _ _ _ sample_initialize). reflexivity.
  - intros H. apply (context_initialize_fail_closed _ _ _ _ _ _ _ _ sample_initialize_empty) in H. discriminate.
Defined.

(** The sample context validates in the normal mode although its directory
    provides the slot writes that mode forbids. *)
Lemma context_mode_masks_ignored_witness :
  Z.land (service_provides (service_ref sample_directory 3)) (mode_forbidden_capabilities normal_mode) <> 0 /\
  ribon_core_context_validate (Some sample_context) = Some RIBON_CORE_STATUS_OK /\
  ribon_core_context_validate (Some (mkContext sizeof_RibonCoreContext RIBON_CORE_ABI_VERSION
    (Some sample_product) (Some sample_registry) (Some sample_directory)
    (Some (with_masks normal_mode 0 RIBON_CAP_ALL)) (Some sample_arena))) = Some RIBON_CORE_STATUS_OK.
Proof.
  assert (H : ribon_core_context_validate (Some sample_context) = Some RIBON_CORE_STATUS_OK)
    by (vm_compute; reflexivity).
  split_and!; [vm_compute; discriminate|exact H|].
  rewrite (context_mode_masks_ignored sizeof_RibonCoreContext RIBON_CORE_ABI_VERSION (Some sample_product)
    (Some sample_registry) (Some sample_directory) (Some sample_arena) normal_mode 0 RIBON_CAP_ALL);
    [exact H|reflexivity|reflexivity].
Defined.
