(* ===== verification/ProtectedWire.v ===== *)
(** * Protected-state records and selectors ([src/security/protected_state.c])

    The two 160-byte durable objects of a rollback journal: a record with the
    confirmed floor and the pending trial, and the selector that commits it.  The
    byte helpers of the file are those of [Wire]. *)

From S2P Require Import Prelude.
From S2P Require Import Buffer.
From S2P Require Import Wire.
From S2P Require Import Image.
From S2P Require Import Sha256.
From S2P Require Import Seal.

Definition RIBON_PROTECTED_STATE_DIGEST_BYTES : Z := 32.
Definition RIBON_PROTECTED_STATE_RECORD_SLOTS : Z := 2.
Definition RIBON_PROTECTED_STATE_RECORD_BYTES : Z := 160.
Definition RIBON_PROTECTED_STATE_SELECTOR_BYTES : Z := 160.
Definition RIBON_PROTECTED_STATE_MAX_TRIAL_ATTEMPTS : Z := 32.
Definition RECORD_CHECKSUM_OFFSET : Z := 144.
Definition SELECTOR_CHECKSUM_OFFSET : Z := 144.
Definition RECORD_PHASE_PREPARED : Z := 1.
Definition RIBON_PROTECTED_STATE_KIND_CONFIRMED : Z := 1.
Definition RIBON_PROTECTED_STATE_KIND_TRIAL : Z := 2.

(** "RIBON-PSTATE-R1" *)
Definition RECORD_MAGIC : bytes :=
  [82; 73; 66; 79; 78; 45; 80; 83; 84; 65; 84; 69; 45; 82; 49].

(** "RIBON-PSTATE-S1" *)
Definition SELECTOR_MAGIC : bytes :=
  [82; 73; 66; 79; 78; 45; 80; 83; 84; 65; 84; 69; 45; 83; 49].

Record RibonProtectedRecord := mkRecord {
  record_kind : Z;
  record_confirmed_floor : Z;
  record_pending_sequence : Z;
  record_attempts : Z;
  record_generation : Z;
  record_domain : bytes;
  record_binding : bytes;
  record_attempt_sequence : Z;
}.

Record RibonProtectedSelector := mkSelector {
  selector_slot : Z;
  selector_generation : Z;
  selector_domain : bytes;
  selector_record_digest : bytes;
}.

Definition record_identity (record : bytes) : bytes := ribon_security_sha256 record.

Definition record_encode (record : RibonProtectedRecord) : bytes :=
  let b := zeros RIBON_PROTECTED_STATE_RECORD_BYTES in
  let b := store b 0 RECORD_MAGIC in
  let b := store_u8 b 16 1 in
  let b := store_u32 b 20 RIBON_PROTECTED_STATE_RECORD_BYTES in
  let b := store_u32 b 24 RECORD_PHASE_PREPARED in
  let b := store_u32 b 28 (u32 (record_kind record)) in
  let b := store_u64 b 32 (record_generation record) in
  let b := store_u64 b 40 (record_confirmed_floor record) in
  let b := store_u64 b 48 (record_pending_sequence record) in
  let b := store_u32 b 56 (record_attempts record) in
  let b := store b 64 (record_domain record) in
  let b := store b 96 (record_binding record) in
  let b := store_u64 b 128 (record_attempt_sequence record) in
  store_u32 b RECORD_CHECKSUM_OFFSET (crc32c (slice 0 RECORD_CHECKSUM_OFFSET b)).

(** [None] is the status CORRUPT. *)
Definition record_decode (b : bytes) : option RibonProtectedRecord :=
  let kind := load_u32 b 28 in
  let attempts := load_u32 b 56 in
  let confirmed := load_u64 b 40 in
  let pending := load_u64 b 48 in
  let binding_is_zero := bytes_zero (slice 96 RIBON_PROTECTED_STATE_DIGEST_BYTES b) in
  let attempt_sequence := load_u64 b 128 in
  if negb (bytes_equal (slice 0 15 b) RECORD_MAGIC) ||
     (byte_at b 15 !=? 0) || (byte_at b 16 !=? 1) || (byte_at b 17 !=? 0) ||
     (byte_at b 18 !=? 0) || (byte_at b 19 !=? 0) ||
     (load_u32 b 20 !=? RIBON_PROTECTED_STATE_RECORD_BYTES) ||
     (load_u32 b 24 !=? RECORD_PHASE_PREPARED) ||
     (load_u32 b 60 !=? 0) || (load_u64 b 136 !=? 0) ||
     (load_u32 b RECORD_CHECKSUM_OFFSET !=? crc32c (slice 0 RECORD_CHECKSUM_OFFSET b)) ||
     negb (bytes_zero (slice 148 12 b)) ||
     bytes_zero (slice 64 RIBON_PROTECTED_STATE_DIGEST_BYTES b) ||
     (load_u64 b 32 =? 0) ||
     ((kind !=? RIBON_PROTECTED_STATE_KIND_CONFIRMED) && (kind !=? RIBON_PROTECTED_STATE_KIND_TRIAL)) ||
     ((kind =? RIBON_PROTECTED_STATE_KIND_CONFIRMED) &&
      ((pending !=? 0) || (attempts !=? 0) ||
       negb (Bool.eqb binding_is_zero (attempt_sequence =? 0)))) ||
     ((kind =? RIBON_PROTECTED_STATE_KIND_TRIAL) &&
      ((confirmed =? UINT64_MAX) || (pending !=? u64 (confirmed + 1)) ||
       (attempts >? RIBON_PROTECTED_STATE_MAX_TRIAL_ATTEMPTS) ||
       negb (Bool.eqb binding_is_zero (attempt_sequence =? 0))))
  then None
  else Some (mkRecord kind confirmed pending attempts (load_u64 b 32)
               (slice 64 32 b) (slice 96 32 b) attempt_sequence).

Definition selector_encode (selector : RibonProtectedSelector) : bytes :=
  let b := zeros RIBON_PROTECTED_STATE_SELECTOR_BYTES in
  let b := store b 0 SELECTOR_MAGIC in
  let b := store_u8 b 16 1 in
  let b := store_u32 b 20 RIBON_PROTECTED_STATE_SELECTOR_BYTES in
  let b := store_u32 b 24 (selector_slot selector) in
  let b := store_u64 b 32 (selector_generation selector) in
  let b := store b 40 (selector_domain selector) in
  let b := store b 72 (selector_record_digest selector) in
  store_u32 b SELECTOR_CHECKSUM_OFFSET (crc32c (slice 0 SELECTOR_CHECKSUM_OFFSET b)).

Definition selector_decode (b : bytes) : option RibonProtectedSelector :=
  if negb (bytes_equal (slice 0 15 b) SELECTOR_MAGIC) ||
     (byte_at b 15 !=? 0) || (byte_at b 16 !=? 1) || (byte_at b 17 !=? 0) ||
     (byte_at b 18 !=? 0) || (byte_at b 19 !=? 0) ||
     (load_u32 b 20 !=? RIBON_PROTECTED_STATE_SELECTOR_BYTES) ||
     (load_u32 b 24 >=? RIBON_PROTECTED_STATE_RECORD_SLOTS) ||
     (load_u32 b 28 !=? 0) || (load_u64 b 32 =? 0) ||
     bytes_zero (slice 40 RIBON_PROTECTED_STATE_DIGEST_BYTES b) ||
     bytes_zero (slice 72 RIBON_PROTECTED_STATE_DIGEST_BYTES b) ||
     negb (bytes_zero (slice 104 (SELECTOR_CHECKSUM_OFFSET - 104) b)) ||
     (load_u32 b SELECTOR_CHECKSUM_OFFSET !=? crc32c (slice 0 SELECTOR_CHECKSUM_OFFSET b)) ||
     negb (bytes_zero (slice 148 12 b))
  then None
  else Some (mkSelector (load_u32 b 24) (load_u64 b 32) (slice 40 32 b) (slice 72 32 b)).

(** ** What a record may hold

    The states the decoder admits: a confirmed floor without a trial, or a trial
    of its successor with a bounded number of attempts.  A binding digest and a
    positive attempt sequence come together. *)

Record record_ok (r : RibonProtectedRecord) : Prop := {
  ok_generation : 0 < record_generation r <= UINT64_MAX;
  ok_confirmed : word 64 (record_confirmed_floor r);
  ok_attempt_sequence : word 64 (record_attempt_sequence r);
  ok_domain : len (record_domain r) = 32 /\ octets (record_domain r) /\ bytes_zero (record_domain r) = false;
  ok_binding : len (record_binding r) = 32 /\ octets (record_binding r) /\
    bytes_zero (record_binding r) = (record_attempt_sequence r =? 0);
  ok_state :
    (record_kind r = RIBON_PROTECTED_STATE_KIND_CONFIRMED /\
     record_pending_sequence r = 0 /\ record_attempts r = 0) \/
    (record_kind r = RIBON_PROTECTED_STATE_KIND_TRIAL /\
     record_pending_sequence r = record_confirmed_floor r + 1 /\
     record_confirmed_floor r < UINT64_MAX /\ 0 <= record_attempts r <= 32);
}.

Record selector_ok (s : RibonProtectedSelector) : Prop := {
  ok_slot : 0 <= selector_slot s < 2;
  ok_selector_generation : 0 < selector_generation s <= UINT64_MAX;
  ok_selector_domain : len (selector_domain s) = 32 /\ octets (selector_domain s) /\
    bytes_zero (selector_domain s) = false;
  ok_record_digest : len (selector_record_digest s) = 32 /\ octets (selector_record_digest s) /\
    bytes_zero (selector_record_digest s) = false;
}.

Lemma record_identity_digest b : len (record_identity b) = 32 /\ octets (record_identity b).
Proof. split; [apply len_sha256|apply octets_sha256]. Qed.

(** ** The objects read back *)

Definition record_body (r : RibonProtectedRecord) : list write :=
  [(0, RECORD_MAGIC); (16, [1]); (20, le_bytes 4 160); (24, le_bytes 4 1);
   (28, le_bytes 4 (u32 (record_kind r))); (32, le_bytes 8 (record_generation r));
   (40, le_bytes 8 (record_confirmed_floor r)); (48, le_bytes 8 (record_pending_sequence r));
   (56, le_bytes 4 (record_attempts r)); (64, record_domain r); (96, record_binding r);
   (128, le_bytes 8 (record_attempt_sequence r))].

Definition record_shape : list (Z * Z) :=
  [(0, 15); (16, 1); (20, 4); (24, 4); (28, 4); (32, 8); (40, 8); (48, 8); (56, 4); (64, 32);
   (96, 32); (128, 8)].

Definition selector_body (s : RibonProtectedSelector) : list write :=
  [(0, SELECTOR_MAGIC); (16, [1]); (20, le_bytes 4 160); (24, le_bytes 4 (selector_slot s));
   (32, le_bytes 8 (selector_generation s)); (40, selector_domain s); (72, selector_record_digest s)].

Definition selector_shape : list (Z * Z) :=
  [(0, 15); (16, 1); (20, 4); (24, 4); (32, 8); (40, 32); (72, 32)].

Lemma record_encode_image r : record_encode r = image 160 (checked 160 (record_body r) 144).
Proof.
  unfold record_encode, RECORD_CHECKSUM_OFFSET. rewrite !store_u64_le, !store_u32_le by lia.
  unfold store_u8, checked, image. rewrite writes_app. reflexivity.
Qed.

Lemma selector_encode_image s : selector_encode s = image 160 (checked 160 (selector_body s) 144).
Proof.
  unfold selector_encode, SELECTOR_CHECKSUM_OFFSET. rewrite !store_u64_le, !store_u32_le by lia.
  unfold store_u8, checked, image. rewrite writes_app. reflexivity.
Qed.

Lemma len_record_encode r : len (record_encode r) = 160.
Proof. rewrite record_encode_image. by apply len_image. Qed.

Lemma len_selector_encode s : len (selector_encode s) = 160.
Proof. rewrite selector_encode_image. by apply len_image. Qed.

(** A part of an image that is clear. *)
Lemma clear_byte b o : slice o 1 b = zeros 1 -> 0 <= o -> byte_at b o = 0.
Proof.
  intros H Ho. replace o with (o + 0) by lia. rewrite <- (byte_at_slice b o 1 0) by lia. by rewrite H.
Qed.

Lemma clear_u32 b o : octets b -> 0 <= o -> o + 4 <= len b -> slice o 4 b = zeros 4 -> load_u32 b o = 0.
Proof. intros Hb Ho Hl H. rewrite load_u32_le by done. by rewrite H. Qed.

Lemma clear_u64 b o : octets b -> 0 <= o -> o + 8 <= len b -> slice o 8 b = zeros 8 -> load_u64 b o = 0.
Proof. intros Hb Ho Hl H. rewrite load_u64_le by done. by rewrite H. Qed.

(** The side conditions of the lemmas on clear parts. *)
Ltac clear_part Hsh :=
  first [ image_field Hsh | by apply octets_image | rewrite len_image; lia | lia ].

Section Record.
Context (r : RibonProtectedRecord) (Hr : record_ok r).

Lemma record_words : word 32 (record_kind r) /\ word 32 (u32 (record_kind r)) /\
  word 64 (record_generation r) /\ word 64 (record_pending_sequence r) /\ word 32 (record_attempts r).
Proof.
  pose proof (wrap_word 32 (record_kind r) ltac:(lia)).
  destruct Hr as [? Hc ? _ _ Hs]. rewrite !word64, !word32 in *.
  unfold RIBON_PROTECTED_STATE_KIND_CONFIRMED, RIBON_PROTECTED_STATE_KIND_TRIAL, UINT32_MAX in *. lia.
Qed.

Lemma record_body_shape : shape (record_body r) = record_shape.
Proof.
  destruct Hr as [_ _ _ [Hd _] [Hb _] _]. unfold shape, record_body. cbn [fmap list_fmap fst snd].
  by rewrite !len_le_bytes, Hd, Hb.
Qed.

Lemma record_body_octets : Forall (fun w => octets (snd w)) (record_body r).
Proof.
  destruct Hr as [_ _ _ (_ & Hd & _) (_ & Hb & _) _]. unfold record_body.
  rewrite !Forall_cons, Forall_nil. cbn [snd].
  split_and!; try apply octets_le_bytes; try done; by apply octetsb_octets.
Qed.

Lemma octets_record_encode : octets (record_encode r).
Proof. rewrite record_encode_image. apply octets_image, octets_checked, record_body_octets. Qed.

Lemma record_decode_encode : record_decode (record_encode r) = Some r.
Proof.
  pose proof record_body_shape as Hb. pose proof record_body_octets as Ho.
  pose proof (shape_checked 160 144 _ _ Hb) as Hsh. pose proof (octets_checked 160 144 _ Ho) as Hws.
  destruct record_words as (Hk & Hk' & Hg & Hp & Ha). destruct Hr as [Hgen Hc Hq (_ & _ & Hdz) (_ & _ & Hbz) Hs].
  rewrite record_encode_image. set (b := image 160 (checked 160 (record_body r) 144)).
  assert (E1 : slice 0 15 b = RECORD_MAGIC) by (unfold b; image_field Hsh).
  assert (E2 : slice 64 32 b = record_domain r) by (unfold b; image_field Hsh).
  assert (E3 : slice 96 32 b = record_binding r) by (unfold b; image_field Hsh).
  assert (E4 : slice 148 12 b = zeros 12) by (unfold b; image_field Hsh).
  assert (E5 : byte_at b 16 = 1).
  { assert (E : slice 16 1 b = [1]) by (unfold b; image_field Hsh).
    pose proof (byte_at_slice b 16 1 0) as H. rewrite E in H. symmetry. apply H; lia. }
  unfold record_decode, RECORD_CHECKSUM_OFFSET, RIBON_PROTECTED_STATE_DIGEST_BYTES,
    RIBON_PROTECTED_STATE_RECORD_BYTES, RECORD_PHASE_PREPARED, RIBON_PROTECTED_STATE_MAX_TRIAL_ATTEMPTS.
  rewrite E1, E2, E3, E4, E5, Hdz, Hbz, bytes_equal_refl, bytes_zero_zeros. unfold b.
  rewrite (clear_byte _ 15), (clear_byte _ 17), (clear_byte _ 18), (clear_byte _ 19), (clear_u32 _ 60),
    (clear_u64 _ 136) by clear_part Hsh.
  rewrite (checked_checksum 160 144 _ _ Hb eq_refl Ho ltac:(lia) ltac:(lia)), !Z.eqb_refl.
  repeat image_load Hsh Hws in_range. rewrite (wrap_small 32 (record_kind r)) by done.
  rewrite (proj2 (Z.eqb_neq (record_generation r) 0)), eqb_reflx by lia.
  destruct r as [k c q a g d bd s]. cbn [record_kind record_confirmed_floor record_pending_sequence
    record_attempts record_generation record_domain record_binding record_attempt_sequence] in *.
  destruct Hs as [(-> & -> & ->)|(-> & -> & Hlt & Hat)]; [reflexivity|].
  rewrite word64 in Hc. rewrite (wrap_small 64) by (apply word64; lia).
  rewrite (proj2 (Z.eqb_neq c UINT64_MAX)), (proj2 (Z.ltb_ge 32 a)), !Z.eqb_refl by lia. reflexivity.
Qed.
End Record.

Section Selector.
Context (s : RibonProtectedSelector) (Hs : selector_ok s).

Lemma selector_body_shape : shape (selector_body s) = selector_shape.
Proof.
  destruct Hs as [_ _ [Hd _] [Hb _]]. unfold shape, selector_body. cbn [fmap list_fmap fst snd].
  by rewrite !len_le_bytes, Hd, Hb.
Qed.

Lemma selector_body_octets : Forall (fun w => octets (snd w)) (selector_body s).
Proof.
  destruct Hs as [_ _ (_ & Hd & _) (_ & Hb & _)]. unfold selector_body.
  rewrite !Forall_cons, Forall_nil. cbn [snd].
  split_and!; try apply octets_le_bytes; try done; by apply octetsb_octets.
Qed.

Lemma octets_selector_encode : octets (selector_encode s).
Proof. rewrite selector_encode_image. apply octets_image, octets_checked, selector_body_octets. Qed.

Lemma selector_decode_encode : selector_decode (selector_encode s) = Some s.
Proof.
  pose proof selector_body_shape as Hb. pose proof selector_body_octets as Ho.
  pose proof (shape_checked 160 144 _ _ Hb) as Hsh. pose proof (octets_checked 160 144 _ Ho) as Hws.
  destruct Hs as [Hslot Hgen (_ & _ & Hdz) (_ & _ & Hrz)].
  assert (Hw32 : word 32 (selector_slot s)) by (apply word32; unfold UINT32_MAX; lia).
  assert (Hw64 : word 64 (selector_generation s)) by (apply word64; lia).
  rewrite selector_encode_image. set (b := image 160 (checked 160 (selector_body s) 144)).
  assert (E1 : slice 0 15 b = SELECTOR_MAGIC) by (unfold b; image_field Hsh).
  assert (E2 : slice 40 32 b = selector_domain s) by (unfold b; image_field Hsh).
  assert (E3 : slice 72 32 b = selector_record_digest s) by (unfold b; image_field Hsh).
  assert (E4 : slice 148 12 b = zeros 12) by (unfold b; image_field Hsh).
  assert (E5 : slice 104 40 b = zeros 40) by (unfold b; image_field Hsh).
  assert (E6 : byte_at b 16 = 1).
  { assert (E : slice 16 1 b = [1]) by (unfold b; image_field Hsh).
    pose proof (byte_at_slice b 16 1 0) as H. rewrite E in H. symmetry. apply H; lia. }
  unfold selector_decode, SELECTOR_CHECKSUM_OFFSET, RIBON_PROTECTED_STATE_DIGEST_BYTES,
    RIBON_PROTECTED_STATE_SELECTOR_BYTES, RIBON_PROTECTED_STATE_RECORD_SLOTS. change (144 - 104) with 40.
  rewrite E1, E2, E3, E4, E5, E6, Hdz, Hrz, bytes_equal_refl, !bytes_zero_zeros. unfold b.
  rewrite (clear_byte _ 15), (clear_byte _ 17), (clear_byte _ 18), (clear_byte _ 19), (clear_u32 _ 28)
    by clear_part Hsh.
  rewrite (checked_checksum 160 144 _ _ Hb eq_refl Ho ltac:(lia) ltac:(lia)), !Z.eqb_refl.
  repeat image_load Hsh Hws in_range.
  rewrite (proj2 (Z.eqb_neq (selector_generation s) 0)), (proj2 (Z.leb_gt 2 (selector_slot s))) by lia.
  by destruct s.
Qed.
End Selector.

(** ** What the decoders accept *)

Lemma record_decode_ok b r : octets b -> len b = 160 -> record_decode b = Some r -> record_ok r.
Proof.
  intros Hb Hl. unfold record_decode, RIBON_PROTECTED_STATE_DIGEST_BYTES.
  destruct (_ || _) eqn:G; [done|]. injection 1 as <-.
  apply orb_false_iff in G as [G Htrial]. apply orb_false_iff in G as [G Hconf].
  apply orb_false_iff in G as [G Hkind]. apply orb_false_iff in G as [G Hg].
  apply orb_false_iff in G as [G Hdz]. clear G.
  pose proof (load_u64_word b 32 Hb ltac:(lia) ltac:(lia)) as Hw32.
  pose proof (load_u64_word b 40 Hb ltac:(lia) ltac:(lia)) as Hw40.
  pose proof (load_u64_word b 128 Hb ltac:(lia) ltac:(lia)) as Hw128.
  pose proof (load_u32_word b 56 Hb ltac:(lia) ltac:(lia)) as Hw56.
  assert (Hslice : forall o, 0 <= o -> o + 32 <= 160 -> len (slice o 32 b) = 32 /\ octets (slice o 32 b))
    by (intros; split; [apply len_slice; lia|by apply octets_slice]).
  destruct (Hslice 64 ltac:(lia) ltac:(lia)) as [Hl64 Ho64].
  destruct (Hslice 96 ltac:(lia) ltac:(lia)) as [Hl96 Ho96].
  unfold RIBON_PROTECTED_STATE_KIND_CONFIRMED, RIBON_PROTECTED_STATE_KIND_TRIAL,
    RIBON_PROTECTED_STATE_MAX_TRIAL_ATTEMPTS in *. bool_to_prop. rewrite !word64, !word32 in *.
  destruct (Z.eqb_spec (load_u32 b 28) 1) as [E1|N1]; [|destruct (Z.eqb_spec (load_u32 b 28) 2) as [E2|N2]; [|done]];
    cbn [andb negb] in *; bool_to_prop.
  - constructor; cbn; rewrite ?word64; auto; try lia. split_and!; auto. by apply eqb_prop.
  - rewrite (wrap_small 64) in * by (apply word64; lia).
    constructor; cbn; rewrite ?word64; auto; try lia; [split_and!; auto; by apply eqb_prop|].
    right. split; [done|]. lia.
Qed.

Lemma selector_decode_ok b s : octets b -> len b = 160 -> selector_decode b = Some s -> selector_ok s.
Proof.
  intros Hb Hl. unfold selector_decode, RIBON_PROTECTED_STATE_RECORD_SLOTS, RIBON_PROTECTED_STATE_DIGEST_BYTES.
  destruct (_ || _) eqn:G; [done|]. injection 1 as <-. bool_to_prop.
  pose proof (load_u32_word b 24 Hb ltac:(lia) ltac:(lia)) as Hw24.
  pose proof (load_u64_word b 32 Hb ltac:(lia) ltac:(lia)) as Hw32.
  rewrite word64, word32 in *.
  constructor; cbn; try lia; split_and!; try done; try apply octets_slice; try done; apply len_slice; lia.
Qed.
