(* ===== verification/ProtectedState.v ===== *)
(** * Protected rollback state ([src/security/protected_state.c])

    The journal that keeps a product's anti-rollback floor and its pending trial.
    The provider is product code behind callbacks on a world [W]; an operation
    threads that world and leaves at the first status that is not OK, which is the
    monad [ps].  An output structure is the result of a call that returns OK; where
    a NULL output pointer is checked, whether it is NULL is an argument. *)

From S2P Require Import Prelude.
From S2P Require Import Effects.
From S2P Require Import Buffer.
From S2P Require Import Wire.
From S2P Require Import CString.
From S2P Require Import ProtectedWire.

Definition RIBON_PROTECTED_STATE_PROVIDER_MAGIC : Z := 0x52425053.
Definition RIBON_PROTECTED_STATE_ABI_VERSION : Z := 1.
Definition RIBON_PROTECTED_STATE_MAX_DOMAINS : Z := 8.
Definition RIBON_PROTECTED_STATE_PROVIDER_CLASS_HARDWARE : Z := 1.
Definition RIBON_PROTECTED_STATE_PROVIDER_CLASS_REFERENCE : Z := 2.
Definition RIBON_PROTECTED_STATE_PROVIDER_CLASS_FIXTURE : Z := 3.
Definition RIBON_PROTECTED_STATE_OBJECT_RECORD : Z := 1.
Definition RIBON_PROTECTED_STATE_OBJECT_SELECTOR : Z := 2.
Definition RIBON_PROTECTED_STATE_PROVIDER_OK : Z := 0.
Definition RIBON_PROTECTED_STATE_PROVIDER_UNAVAILABLE : Z := -1.
Definition RIBON_PROTECTED_STATE_AUTHORITY_CONFIRMED : Z := 1.
Definition RIBON_PROTECTED_STATE_AUTHORITY_TRIAL : Z := 2.
Definition sizeof_RibonProtectedStateProvider : Z := 120.
Definition sizeof_RibonProtectedStateProductBinding : Z := 72.
Definition sizeof_RibonProtectedStateJournal : Z := 80.
Definition sizeof_RibonProtectedStateSnapshot : Z := 152.
Definition sizeof_RibonProtectedStateDecision : Z := 96.

Inductive RibonProtectedStateStatus :=
| RIBON_PROTECTED_STATE_STATUS_OK
| RIBON_PROTECTED_STATE_STATUS_INVALID_ARGUMENT
| RIBON_PROTECTED_STATE_STATUS_INVALID_PROVIDER
| RIBON_PROTECTED_STATE_STATUS_UNAVAILABLE
| RIBON_PROTECTED_STATE_STATUS_IO_ERROR
| RIBON_PROTECTED_STATE_STATUS_UNINITIALIZED
| RIBON_PROTECTED_STATE_STATUS_CORRUPT
| RIBON_PROTECTED_STATE_STATUS_CONFLICT
| RIBON_PROTECTED_STATE_STATUS_DOMAIN_MISMATCH
| RIBON_PROTECTED_STATE_STATUS_ROLLBACK
| RIBON_PROTECTED_STATE_STATUS_SEQUENCE_GAP
| RIBON_PROTECTED_STATE_STATUS_ATTEMPTS_EXHAUSTED
| RIBON_PROTECTED_STATE_STATUS_OVERFLOW
| RIBON_PROTECTED_STATE_STATUS_READBACK_MISMATCH
| RIBON_PROTECTED_STATE_STATUS_ALREADY_INITIALIZED
| RIBON_PROTECTED_STATE_STATUS_BINDING_MISMATCH.

#[export] Instance RibonProtectedStateStatus_eq_dec : EqDecision RibonProtectedStateStatus.
Proof. solve_decision. Defined.

(** [memcmp] of two arrays of one length *)
Fixpoint memcmp (a b : bytes) : Z :=
  match a, b with
  | x :: a', y :: b' => if x =? y then memcmp a' b' else x - y
  | _, _ => 0
  end.

(** A read gets the caller's buffer and returns its new contents. *)
Record RibonProtectedStateProvider (W : Type) := mkProvider {
  provider_magic : Z;
  provider_size : Z;
  provider_abi_version : Z;
  provider_class : Z;
  provider_flags : Z;
  provider_record_slots : Z;
  provider_selector_slots : Z;
  provider_reserved0 : Z;
  provider_record_bytes : Z;
  provider_selector_bytes : Z;
  provider_id : cstring;
  provider_context : Z;
  (** domain, object, slot, buffer; status, buffer *)
  provider_read_fn : option (W -> bytes -> Z -> Z -> bytes -> W * (Z * bytes));
  (** domain, object, slot, bytes; status *)
  provider_write_fn : option (W -> bytes -> Z -> Z -> bytes -> W * Z);
  (** domain; status *)
  provider_flush_fn : option (W -> bytes -> W * Z);
  provider_reserved : list Z;
}.

Arguments mkProvider {W}.
Arguments provider_magic {W} _.
Arguments provider_size {W} _.
Arguments provider_abi_version {W} _.
Arguments provider_class {W} _.
Arguments provider_flags {W} _.
Arguments provider_record_slots {W} _.
Arguments provider_selector_slots {W} _.
Arguments provider_reserved0 {W} _.
Arguments provider_record_bytes {W} _.
Arguments provider_selector_bytes {W} _.
Arguments provider_id {W} _.
Arguments provider_context {W} _.
Arguments provider_read_fn {W} _.
Arguments provider_write_fn {W} _.
Arguments provider_flush_fn {W} _.
Arguments provider_reserved {W} _.

Record RibonProtectedStateProductBinding (W : Type) := mkBinding {
  binding_size : Z;
  binding_abi_version : Z;
  binding_provider_class : Z;
  binding_flags : Z;
  binding_provider : option (RibonProtectedStateProvider W);
  binding_domain_digests : option (list bytes);
  binding_domain_count : Z;
  binding_reserved0 : Z;
  binding_reserved : list Z;
}.

Arguments mkBinding {W}.
Arguments binding_size {W} _.
Arguments binding_abi_version {W} _.
Arguments binding_provider_class {W} _.
Arguments binding_flags {W} _.
Arguments binding_provider {W} _.
Arguments binding_domain_digests {W} _.
Arguments binding_domain_count {W} _.
Arguments binding_reserved0 {W} _.
Arguments binding_reserved {W} _.

Record RibonProtectedStateJournal (W : Type) := mkJournal {
  journal_size : Z;
  journal_abi_version : Z;
  journal_provider : option (RibonProtectedStateProvider W);
  journal_domain_digest : bytes;
  journal_reserved : list Z;
}.

Arguments mkJournal {W}.
Arguments journal_size {W} _.
Arguments journal_abi_version {W} _.
Arguments journal_provider {W} _.
Arguments journal_domain_digest {W} _.
Arguments journal_reserved {W} _.

Record RibonProtectedStateSnapshot := mkSnapshot {
  snapshot_size : Z;
  snapshot_abi_version : Z;
  snapshot_kind : Z;
  snapshot_selected_slot : Z;
  snapshot_confirmed_floor : Z;
  snapshot_pending_sequence : Z;
  snapshot_trial_attempts_remaining : Z;
  snapshot_flags : Z;
  snapshot_generation : Z;
  snapshot_domain_digest : bytes;
  snapshot_trial_binding_digest : bytes;
  snapshot_attempt_sequence : Z;
  snapshot_reserved : list Z;
}.

Record RibonProtectedStateDecision := mkDecision {
  decision_size : Z;
  decision_abi_version : Z;
  decision_authority : Z;
  decision_trial_attempts_remaining : Z;
  decision_sequence : Z;
  decision_generation : Z;
  decision_domain_digest : bytes;
  decision_reserved : list Z;
}.

(** The journal's four logical objects. *)
Record objects := mkObjects {
  record0 : bytes;
  record1 : bytes;
  selector0 : bytes;
  selector1 : bytes;
}.

Definition record_at (x : objects) (slot : Z) : bytes := if slot =? 0 then record0 x else record1 x.
Definition selector_at (x : objects) (slot : Z) : bytes := if slot =? 0 then selector0 x else selector1 x.

(** ** Descriptor checks *)

Definition ribon_protected_state_provider_validate {W}
    (provider : option (RibonProtectedStateProvider W)) : RibonProtectedStateStatus :=
  match provider with
  | None => RIBON_PROTECTED_STATE_STATUS_INVALID_PROVIDER
  | Some p =>
    if (provider_magic p !=? RIBON_PROTECTED_STATE_PROVIDER_MAGIC) ||
       (provider_size p !=? sizeof_RibonProtectedStateProvider) ||
       (provider_abi_version p !=? RIBON_PROTECTED_STATE_ABI_VERSION) ||
       ((provider_class p !=? RIBON_PROTECTED_STATE_PROVIDER_CLASS_HARDWARE) &&
        (provider_class p !=? RIBON_PROTECTED_STATE_PROVIDER_CLASS_REFERENCE) &&
        (provider_class p !=? RIBON_PROTECTED_STATE_PROVIDER_CLASS_FIXTURE)) ||
       (provider_flags p !=? 0) ||
       (provider_record_slots p !=? RIBON_PROTECTED_STATE_RECORD_SLOTS) ||
       (provider_selector_slots p !=? RIBON_PROTECTED_STATE_RECORD_SLOTS) ||
       (provider_reserved0 p !=? 0) ||
       (provider_record_bytes p !=? RIBON_PROTECTED_STATE_RECORD_BYTES) ||
       (provider_selector_bytes p !=? RIBON_PROTECTED_STATE_SELECTOR_BYTES) ||
       cstring_empty (provider_id p) ||
       is_null (provider_read_fn p) || is_null (provider_write_fn p) || is_null (provider_flush_fn p) ||
       negb (bytes_zero (provider_reserved p))
    then RIBON_PROTECTED_STATE_STATUS_INVALID_PROVIDER
    else RIBON_PROTECTED_STATE_STATUS_OK
  end.

(** [binding->domain_digests[index]] *)
Definition domain_at {W} (b : RibonProtectedStateProductBinding W) (index : Z) : bytes :=
  nth (Z.to_nat index) (default [] (binding_domain_digests b)) [].

Definition ribon_protected_state_binding_validate {W}
    (binding : option (RibonProtectedStateProductBinding W)) : RibonProtectedStateStatus :=
  match binding with
  | None => RIBON_PROTECTED_STATE_STATUS_INVALID_PROVIDER
  | Some b =>
    if (binding_size b !=? sizeof_RibonProtectedStateProductBinding) ||
       (binding_abi_version b !=? RIBON_PROTECTED_STATE_ABI_VERSION) ||
       (binding_flags b !=? 0) || (binding_reserved0 b !=? 0) ||
       negb (bytes_zero (binding_reserved b)) ||
       is_null (binding_domain_digests b) || (binding_domain_count b =? 0) ||
       (binding_domain_count b >? RIBON_PROTECTED_STATE_MAX_DOMAINS) ||
       bool_decide (ribon_protected_state_provider_validate (binding_provider b) <>
                    RIBON_PROTECTED_STATE_STATUS_OK) ||
       match binding_provider b with
       | Some p => binding_provider_class b !=? provider_class p
       | None => true
       end
    then RIBON_PROTECTED_STATE_STATUS_INVALID_PROVIDER
    else if existsb (fun index =>
        bytes_zero (domain_at b index) ||
        ((index >? 0) && (memcmp (domain_at b (index - 1)) (domain_at b index) >=? 0)))
        (upto (binding_domain_count b))
    then RIBON_PROTECTED_STATE_STATUS_INVALID_PROVIDER
    else RIBON_PROTECTED_STATE_STATUS_OK
  end.

Definition ribon_protected_state_journal_bind {W}
    (binding : option (RibonProtectedStateProductBinding W)) (domain_digest : option bytes)
    (journal : option (RibonProtectedStateJournal W))
  : RibonProtectedStateStatus * option (RibonProtectedStateJournal W) :=
  match binding, domain_digest, journal with
  | Some b, Some d, Some _ =>
    if bool_decide (ribon_protected_state_binding_validate binding <> RIBON_PROTECTED_STATE_STATUS_OK)
    then (RIBON_PROTECTED_STATE_STATUS_INVALID_ARGUMENT, journal)
    else if existsb (fun index => bytes_equal (domain_at b index) d) (upto (binding_domain_count b))
    then (RIBON_PROTECTED_STATE_STATUS_OK,
          Some (mkJournal sizeof_RibonProtectedStateJournal RIBON_PROTECTED_STATE_ABI_VERSION
                  (binding_provider b) d [0; 0; 0; 0]))
    else (RIBON_PROTECTED_STATE_STATUS_DOMAIN_MISMATCH, journal)
  | _, _, _ => (RIBON_PROTECTED_STATE_STATUS_INVALID_ARGUMENT, journal)
  end.

Definition journal_validate {W} (journal : option (RibonProtectedStateJournal W))
  : RibonProtectedStateStatus :=
  match journal with
  | None => RIBON_PROTECTED_STATE_STATUS_INVALID_ARGUMENT
  | Some j =>
    if (journal_size j !=? sizeof_RibonProtectedStateJournal) ||
       (journal_abi_version j !=? RIBON_PROTECTED_STATE_ABI_VERSION) ||
       bytes_zero (journal_domain_digest j) || negb (bytes_zero (journal_reserved j))
    then RIBON_PROTECTED_STATE_STATUS_INVALID_ARGUMENT
    else ribon_protected_state_provider_validate (journal_provider j)
  end.

(** ** Which state the objects hold *)

(** A selector's status and value; all-zero bytes are an unused selector. *)
Definition selector_state (b : bytes) : RibonProtectedStateStatus + RibonProtectedSelector :=
  if bytes_zero b then inl RIBON_PROTECTED_STATE_STATUS_UNINITIALIZED
  else match selector_decode b with
       | Some selector => inr selector
       | None => inl RIBON_PROTECTED_STATE_STATUS_CORRUPT
       end.

(** The selector [open] follows and its index. *)
Definition select_selector (bytes0 bytes1 : bytes)
  : RibonProtectedStateStatus + Z * RibonProtectedSelector :=
  match selector_state bytes0, selector_state bytes1 with
  | inl status0, inl status1 =>
    if bool_decide (status0 = RIBON_PROTECTED_STATE_STATUS_UNINITIALIZED) &&
       bool_decide (status1 = RIBON_PROTECTED_STATE_STATUS_UNINITIALIZED)
    then inl RIBON_PROTECTED_STATE_STATUS_UNINITIALIZED
    else inl RIBON_PROTECTED_STATE_STATUS_CORRUPT
  | inr selector0, inr selector1 =>
    if (selector_generation selector0 =? selector_generation selector1) && negb (bytes_equal bytes0 bytes1)
    then inl RIBON_PROTECTED_STATE_STATUS_CONFLICT
    else if selector_generation selector1 >? selector_generation selector0
    then inr (1, selector1) else inr (0, selector0)
  | inr selector0, inl _ => inr (0, selector0)
  | inl _, inr selector1 => inr (1, selector1)
  end.

Definition snapshot_from_record (record : RibonProtectedRecord) (slot : Z) : RibonProtectedStateSnapshot :=
  mkSnapshot sizeof_RibonProtectedStateSnapshot RIBON_PROTECTED_STATE_ABI_VERSION
    (record_kind record) slot (record_confirmed_floor record) (record_pending_sequence record)
    (record_attempts record) 0 (record_generation record) (record_domain record)
    (record_binding record) (record_attempt_sequence record) [0; 0; 0; 0].

(** The record the selector names, checked against it and against the other one. *)
Definition check_record (domain : bytes) (selector : RibonProtectedSelector) (x : objects)
  : RibonProtectedStateStatus + RibonProtectedStateSnapshot :=
  let index := selector_slot selector in
  match record_decode (record_at x index) with
  | None => inl RIBON_PROTECTED_STATE_STATUS_CORRUPT
  | Some record =>
    if (selector_generation selector !=? record_generation record) ||
       negb (bytes_equal (selector_domain selector) domain) ||
       negb (bytes_equal (record_domain record) domain) ||
       negb (bytes_equal (selector_record_digest selector) (record_identity (record_at x index)))
    then inl RIBON_PROTECTED_STATE_STATUS_CORRUPT
    else
      match record_decode (record_at x (1 - index)) with
      | Some other =>
        if (record_generation other =? record_generation record) &&
           negb (bytes_equal (record_at x (1 - index)) (record_at x index))
        then inl RIBON_PROTECTED_STATE_STATUS_CONFLICT
        else inr (snapshot_from_record record index)
      | None => inr (snapshot_from_record record index)
      end
  end.

Definition open_objects (domain : bytes) (x : objects)
  : RibonProtectedStateStatus + RibonProtectedStateSnapshot :=
  match select_selector (selector0 x) (selector1 x) with
  | inl status => inl status
  | inr (_, selector) => check_record domain selector x
  end.

(** ** The monad *)

Section Engine.
Context {W : Type}.

Abbreviation ps := (M W RibonProtectedStateStatus).

(** [if (status != OK) { return status; }] *)
Definition check (status : RibonProtectedStateStatus) : ps unit :=
  match status with RIBON_PROTECTED_STATE_STATUS_OK => mret tt | _ => leave status end.

Definition provider_status (status : Z) : RibonProtectedStateStatus :=
  if status =? RIBON_PROTECTED_STATE_PROVIDER_UNAVAILABLE
  then RIBON_PROTECTED_STATE_STATUS_UNAVAILABLE
  else if status =? RIBON_PROTECTED_STATE_PROVIDER_OK
  then RIBON_PROTECTED_STATE_STATUS_OK
  else RIBON_PROTECTED_STATE_STATUS_IO_ERROR.

(** The calls run on a journal that passed the check: a NULL callback is not
    reached.  A read gets a cleared buffer; a read that is OK defines all of it. *)

Definition call_read (p : RibonProtectedStateProvider W) (w : W) (domain : bytes) (object slot : Z)
    (b : bytes) : W * (Z * bytes) :=
  match provider_read_fn p with Some f => f w domain object slot b | None => (w, (-2, b)) end.

Definition call_write (p : RibonProtectedStateProvider W) (w : W) (domain : bytes) (object slot : Z)
    (b : bytes) : W * Z :=
  match provider_write_fn p with Some f => f w domain object slot b | None => (w, -2) end.

Definition call_flush (p : RibonProtectedStateProvider W) (w : W) (domain : bytes) : W * Z :=
  match provider_flush_fn p with Some f => f w domain | None => (w, -2) end.

Definition provider_read (journal : RibonProtectedStateJournal W) (object slot size : Z) : ps bytes :=
  fun w =>
  match journal_provider journal with
  | None => (w, inl RIBON_PROTECTED_STATE_STATUS_IO_ERROR)
  | Some p =>
    let '(w', (status, b)) := call_read p w (journal_domain_digest journal) object slot (zeros size) in
    (w', match provider_status status with
         | RIBON_PROTECTED_STATE_STATUS_OK => inr b
         | status => inl status
         end)
  end.

Definition provider_write (journal : RibonProtectedStateJournal W) (object slot : Z) (b : bytes) : ps unit :=
  fun w =>
  match journal_provider journal with
  | None => (w, inl RIBON_PROTECTED_STATE_STATUS_IO_ERROR)
  | Some p =>
    let '(w', status) := call_write p w (journal_domain_digest journal) object slot b in
    (w', match provider_status status with
         | RIBON_PROTECTED_STATE_STATUS_OK => inr tt
         | status => inl status
         end)
  end.

Definition provider_flush (journal : RibonProtectedStateJournal W) : ps unit := fun w =>
  match journal_provider journal with
  | None => (w, inl RIBON_PROTECTED_STATE_STATUS_IO_ERROR)
  | Some p =>
    let '(w', status) := call_flush p w (journal_domain_digest journal) in
    (w', match provider_status status with
         | RIBON_PROTECTED_STATE_STATUS_OK => inr tt
         | status => inl status
         end)
  end.

(** ** Open *)

Definition open_checked (j : RibonProtectedStateJournal W) : ps RibonProtectedStateSnapshot :=
  s0 ← provider_read j RIBON_PROTECTED_STATE_OBJECT_SELECTOR 0 RIBON_PROTECTED_STATE_SELECTOR_BYTES;
  r0 ← provider_read j RIBON_PROTECTED_STATE_OBJECT_RECORD 0 RIBON_PROTECTED_STATE_RECORD_BYTES;
  s1 ← provider_read j RIBON_PROTECTED_STATE_OBJECT_SELECTOR 1 RIBON_PROTECTED_STATE_SELECTOR_BYTES;
  r1 ← provider_read j RIBON_PROTECTED_STATE_OBJECT_RECORD 1 RIBON_PROTECTED_STATE_RECORD_BYTES;
  lift (open_objects (journal_domain_digest j) (mkObjects r0 r1 s0 s1)).

(** [snapshot] is NULL or not. *)
Definition ribon_protected_state_open (journal : option (RibonProtectedStateJournal W))
    (snapshot : bool) : ps RibonProtectedStateSnapshot :=
  if negb snapshot then leave RIBON_PROTECTED_STATE_STATUS_INVALID_ARGUMENT
  else
    match journal, journal_validate journal with
    | Some j, RIBON_PROTECTED_STATE_STATUS_OK => open_checked j
    | _, status => leave status
    end.

(** ** Commit *)

Definition commit_record (journal : RibonProtectedStateJournal W) (slot : Z)
    (record : RibonProtectedRecord) : ps RibonProtectedStateSnapshot :=
  let record_bytes := record_encode record in
  let selector :=
    mkSelector slot (record_generation record) (record_domain record) (record_identity record_bytes) in
  let selector_bytes := selector_encode selector in
  provider_write journal RIBON_PROTECTED_STATE_OBJECT_RECORD slot record_bytes;;
  provider_flush journal;;
  readback ← provider_read journal RIBON_PROTECTED_STATE_OBJECT_RECORD slot
               RIBON_PROTECTED_STATE_RECORD_BYTES;
  leave_if (negb (bytes_equal record_bytes readback)) RIBON_PROTECTED_STATE_STATUS_READBACK_MISMATCH;;
  provider_write journal RIBON_PROTECTED_STATE_OBJECT_SELECTOR slot selector_bytes;;
  provider_flush journal;;
  opened ← ribon_protected_state_open (Some journal) true;
  leave_if ((snapshot_generation opened !=? record_generation record) ||
            (snapshot_selected_slot opened !=? slot))
    RIBON_PROTECTED_STATE_STATUS_READBACK_MISMATCH;;
  mret opened.

(** [next] with the generation and domain [transition_record] sets *)
Definition successor (current : RibonProtectedStateSnapshot) (next : RibonProtectedRecord)
  : RibonProtectedRecord :=
  mkRecord (record_kind next) (record_confirmed_floor next) (record_pending_sequence next)
    (record_attempts next) (u64 (snapshot_generation current + 1)) (snapshot_domain_digest current)
    (record_binding next) (record_attempt_sequence next).

Definition transition_record (journal : RibonProtectedStateJournal W)
    (current : RibonProtectedStateSnapshot) (next : RibonProtectedRecord)
  : ps RibonProtectedStateSnapshot :=
  leave_if (snapshot_generation current =? UINT64_MAX) RIBON_PROTECTED_STATE_STATUS_OVERFLOW;;
  commit_record journal (u32 (1 - snapshot_selected_slot current)) (successor current next).

(** ** Operations

    Every operation opens the journal, decides the next record from the snapshot
    ([begin_trial_next], [consume_next], ...) and commits it.  A record's
    generation and domain are filled in by [transition_record]. *)

Definition next_record (kind confirmed_floor pending_sequence attempts : Z) (binding : bytes)
    (attempt_sequence : Z) : RibonProtectedRecord :=
  mkRecord kind confirmed_floor pending_sequence attempts 0 (zeros 32) binding attempt_sequence.

Definition open_and_transition (journal : option (RibonProtectedStateJournal W))
    (next : RibonProtectedStateSnapshot -> RibonProtectedStateStatus + RibonProtectedRecord)
  : ps RibonProtectedStateSnapshot :=
  current ← ribon_protected_state_open journal true;
  match journal with
  | None => leave RIBON_PROTECTED_STATE_STATUS_INVALID_ARGUMENT
  | Some j => chosen ← lift (next current); transition_record j current chosen
  end.

Definition ribon_protected_state_initialize (journal : option (RibonProtectedStateJournal W))
    (confirmed_floor : Z) : ps RibonProtectedStateSnapshot := fun w =>
  match ribon_protected_state_open journal true w, journal with
  | (w', inl RIBON_PROTECTED_STATE_STATUS_UNINITIALIZED), Some j =>
    commit_record j 0
      (mkRecord RIBON_PROTECTED_STATE_KIND_CONFIRMED confirmed_floor 0 0 1 (journal_domain_digest j)
         (zeros 32) 0) w'
  | (w', inl status), _ => (w', inl status)
  | (w', inr _), _ => (w', inl RIBON_PROTECTED_STATE_STATUS_ALREADY_INITIALIZED)
  end.

Definition begin_trial_next (candidate_sequence attempts : Z) (binding_digest : option bytes)
    (attempt_sequence : Z) (current : RibonProtectedStateSnapshot)
  : RibonProtectedStateStatus + RibonProtectedRecord :=
  if snapshot_kind current !=? RIBON_PROTECTED_STATE_KIND_CONFIRMED
  then inl RIBON_PROTECTED_STATE_STATUS_ROLLBACK
  else if snapshot_confirmed_floor current =? UINT64_MAX
  then inl RIBON_PROTECTED_STATE_STATUS_OVERFLOW
  else if candidate_sequence !=? u64 (snapshot_confirmed_floor current + 1)
  then if candidate_sequence <=? snapshot_confirmed_floor current
       then inl RIBON_PROTECTED_STATE_STATUS_ROLLBACK
       else inl RIBON_PROTECTED_STATE_STATUS_SEQUENCE_GAP
  else if (attempts =? 0) || (attempts >? RIBON_PROTECTED_STATE_MAX_TRIAL_ATTEMPTS)
  then inl RIBON_PROTECTED_STATE_STATUS_INVALID_ARGUMENT
  else if match binding_digest with
          | None => attempt_sequence !=? 0
          | Some b => bytes_zero b || (attempt_sequence =? 0)
          end
  then inl RIBON_PROTECTED_STATE_STATUS_INVALID_ARGUMENT
  else inr (next_record RIBON_PROTECTED_STATE_KIND_TRIAL (snapshot_confirmed_floor current)
              candidate_sequence attempts (default (zeros 32) binding_digest) attempt_sequence).

Definition begin_trial (journal : option (RibonProtectedStateJournal W))
    (candidate_sequence attempts : Z) (binding_digest : option bytes) (attempt_sequence : Z)
  : ps RibonProtectedStateSnapshot :=
  open_and_transition journal (begin_trial_next candidate_sequence attempts binding_digest attempt_sequence).

Definition ribon_protected_state_begin_trial (journal : option (RibonProtectedStateJournal W))
    (candidate_sequence attempts : Z) : ps RibonProtectedStateSnapshot :=
  begin_trial journal candidate_sequence attempts None 0.

Definition ribon_protected_state_begin_bound_trial (journal : option (RibonProtectedStateJournal W))
    (candidate_sequence attempts : Z) (binding_digest : option bytes) (attempt_sequence : Z)
  : ps RibonProtectedStateSnapshot :=
  begin_trial journal candidate_sequence attempts binding_digest attempt_sequence.

Definition rebind_next (pending_sequence : Z) (binding_digest : bytes) (attempt_sequence : Z)
    (current : RibonProtectedStateSnapshot) : RibonProtectedStateStatus + RibonProtectedRecord :=
  if (snapshot_kind current !=? RIBON_PROTECTED_STATE_KIND_TRIAL) ||
     (snapshot_pending_sequence current !=? pending_sequence)
  then inl RIBON_PROTECTED_STATE_STATUS_ROLLBACK
  else if snapshot_trial_attempts_remaining current =? 0
  then inl RIBON_PROTECTED_STATE_STATUS_ATTEMPTS_EXHAUSTED
  else if attempt_sequence <=? snapshot_attempt_sequence current
  then inl RIBON_PROTECTED_STATE_STATUS_BINDING_MISMATCH
  else inr (next_record RIBON_PROTECTED_STATE_KIND_TRIAL (snapshot_confirmed_floor current)
              (snapshot_pending_sequence current) (snapshot_trial_attempts_remaining current)
              binding_digest attempt_sequence).

(** A binding digest an operation refuses before it opens the journal. *)
Definition bad_binding (binding_digest : option bytes) (attempt_sequence : Z) : bool :=
  match binding_digest with
  | None => true
  | Some b => bytes_zero b || (attempt_sequence =? 0)
  end.

Definition ribon_protected_state_rebind_trial_attempt
    (journal : option (RibonProtectedStateJournal W)) (pending_sequence : Z)
    (binding_digest : option bytes) (attempt_sequence : Z) : ps RibonProtectedStateSnapshot :=
  leave_if (bad_binding binding_digest attempt_sequence) RIBON_PROTECTED_STATE_STATUS_INVALID_ARGUMENT;;
  open_and_transition journal (rebind_next pending_sequence (default [] binding_digest) attempt_sequence).

(** The authority of a sequence, or the status of a refusal. *)
Definition authority (sequence : Z) (current : RibonProtectedStateSnapshot)
  : RibonProtectedStateStatus + Z :=
  if sequence =? snapshot_confirmed_floor current then inr RIBON_PROTECTED_STATE_AUTHORITY_CONFIRMED
  else if (snapshot_kind current =? RIBON_PROTECTED_STATE_KIND_TRIAL) &&
          (sequence =? snapshot_pending_sequence current)
  then if snapshot_trial_attempts_remaining current =? 0
       then inl RIBON_PROTECTED_STATE_STATUS_ATTEMPTS_EXHAUSTED
       else inr RIBON_PROTECTED_STATE_AUTHORITY_TRIAL
  else if (sequence <? snapshot_confirmed_floor current) ||
          ((snapshot_kind current =? RIBON_PROTECTED_STATE_KIND_CONFIRMED) &&
           (sequence <=? snapshot_confirmed_floor current))
  then inl RIBON_PROTECTED_STATE_STATUS_ROLLBACK
  else inl RIBON_PROTECTED_STATE_STATUS_SEQUENCE_GAP.

(** [decision] is NULL or not. *)
Definition ribon_protected_state_authorize (journal : option (RibonProtectedStateJournal W))
    (sequence : Z) (decision : bool) : ps RibonProtectedStateDecision :=
  leave_if (negb decision) RIBON_PROTECTED_STATE_STATUS_INVALID_ARGUMENT;;
  current ← ribon_protected_state_open journal true;
  a ← lift (authority sequence current);
  mret (mkDecision sizeof_RibonProtectedStateDecision RIBON_PROTECTED_STATE_ABI_VERSION a
          (snapshot_trial_attempts_remaining current) sequence (snapshot_generation current)
          (snapshot_domain_digest current) [0; 0; 0; 0]).

Definition consume_next (pending_sequence : Z) (current : RibonProtectedStateSnapshot)
  : RibonProtectedStateStatus + RibonProtectedRecord :=
  if (snapshot_kind current !=? RIBON_PROTECTED_STATE_KIND_TRIAL) ||
     (snapshot_pending_sequence current !=? pending_sequence)
  then inl RIBON_PROTECTED_STATE_STATUS_ROLLBACK
  else if snapshot_trial_attempts_remaining current =? 0
  then inl RIBON_PROTECTED_STATE_STATUS_ATTEMPTS_EXHAUSTED
  else inr (next_record RIBON_PROTECTED_STATE_KIND_TRIAL (snapshot_confirmed_floor current)
              (snapshot_pending_sequence current) (u32 (snapshot_trial_attempts_remaining current - 1))
              (snapshot_trial_binding_digest current) (snapshot_attempt_sequence current)).

Definition ribon_protected_state_consume_trial_attempt
    (journal : option (RibonProtectedStateJournal W)) (pending_sequence : Z)
  : ps RibonProtectedStateSnapshot := open_and_transition journal (consume_next pending_sequence).

Definition confirm_next (pending_sequence : Z) (current : RibonProtectedStateSnapshot)
  : RibonProtectedStateStatus + RibonProtectedRecord :=
  if (snapshot_kind current !=? RIBON_PROTECTED_STATE_KIND_TRIAL) ||
     (snapshot_pending_sequence current !=? pending_sequence) ||
     negb (bytes_zero (snapshot_trial_binding_digest current)) ||
     (snapshot_attempt_sequence current !=? 0)
  then inl RIBON_PROTECTED_STATE_STATUS_ROLLBACK
  else inr (next_record RIBON_PROTECTED_STATE_KIND_CONFIRMED pending_sequence 0 0 (zeros 32) 0).

Definition ribon_protected_state_confirm (journal : option (RibonProtectedStateJournal W))
    (pending_sequence : Z) : ps RibonProtectedStateSnapshot :=
  open_and_transition journal (confirm_next pending_sequence).

(** The journal already confirms this attempt. *)
Definition already_confirmed (pending_sequence : Z) (binding_digest : bytes) (attempt_sequence : Z)
    (current : RibonProtectedStateSnapshot) : bool :=
  (snapshot_kind current =? RIBON_PROTECTED_STATE_KIND_CONFIRMED) &&
  (snapshot_confirmed_floor current =? pending_sequence) &&
  (snapshot_attempt_sequence current =? attempt_sequence) &&
  bytes_equal (snapshot_trial_binding_digest current) binding_digest.

Definition confirm_bound_next (pending_sequence : Z) (binding_digest : bytes) (attempt_sequence : Z)
    (current : RibonProtectedStateSnapshot) : RibonProtectedStateStatus + RibonProtectedRecord :=
  if (snapshot_kind current !=? RIBON_PROTECTED_STATE_KIND_TRIAL) ||
     (snapshot_pending_sequence current !=? pending_sequence) ||
     (snapshot_attempt_sequence current !=? attempt_sequence) ||
     negb (bytes_equal (snapshot_trial_binding_digest current) binding_digest)
  then inl RIBON_PROTECTED_STATE_STATUS_BINDING_MISMATCH
  else inr (next_record RIBON_PROTECTED_STATE_KIND_CONFIRMED pending_sequence 0 0 binding_digest
              attempt_sequence).

(** [snapshot] is NULL or not. *)
Definition ribon_protected_state_confirm_bound (journal : option (RibonProtectedStateJournal W))
    (pending_sequence : Z) (binding_digest : option bytes) (attempt_sequence : Z) (snapshot : bool)
  : ps RibonProtectedStateSnapshot :=
  leave_if (negb snapshot || bad_binding binding_digest attempt_sequence)
    RIBON_PROTECTED_STATE_STATUS_INVALID_ARGUMENT;;
  current ← ribon_protected_state_open journal true;
  let digest := default [] binding_digest in
  if already_confirmed pending_sequence digest attempt_sequence current then mret current
  else
    match journal with
    | None => leave RIBON_PROTECTED_STATE_STATUS_INVALID_ARGUMENT
    | Some j =>
      next ← lift (confirm_bound_next pending_sequence digest attempt_sequence current);
      transition_record j current next
    end.

Definition fail_next (current : RibonProtectedStateSnapshot)
  : RibonProtectedStateStatus + RibonProtectedRecord :=
  if snapshot_kind current !=? RIBON_PROTECTED_STATE_KIND_TRIAL
  then inl RIBON_PROTECTED_STATE_STATUS_ROLLBACK
  else inr (next_record RIBON_PROTECTED_STATE_KIND_CONFIRMED (snapshot_confirmed_floor current) 0 0
              (snapshot_trial_binding_digest current) (snapshot_attempt_sequence current)).

Definition ribon_protected_state_fail_trial (journal : option (RibonProtectedStateJournal W))
  : ps RibonProtectedStateSnapshot := open_and_transition journal fail_next.
End Engine.
