(* ===== verification/ProtectedLogic.v ===== *)
(** * Reasoning about the protected-state journal

    What the engine relies on of its provider, the objects a power cut can leave,
    and a small program logic for [ps].  A power cut inside an operation is a
    provider whose calls fail from there on, followed by a restart from one of the
    media it may have left. *)

From S2P Require Import Prelude.
From S2P Require Import Effects.
From S2P Require Import Buffer.
From S2P Require Import Wire.
From S2P Require Import Sha256.
From S2P Require Import ProtectedWire.
From S2P Require Import ProtectedState.

#[local] Opaque record_encode selector_encode record_identity.

Definition object_at (x : objects) (object slot : Z) : bytes :=
  if object =? RIBON_PROTECTED_STATE_OBJECT_RECORD then record_at x slot else selector_at x slot.

(** The objects with one of them replaced. *)
Definition put (x : objects) (object slot : Z) (b : bytes) : objects :=
  if object =? RIBON_PROTECTED_STATE_OBJECT_RECORD
  then if slot =? 0 then mkObjects b (record1 x) (selector0 x) (selector1 x)
       else mkObjects (record0 x) b (selector0 x) (selector1 x)
  else if slot =? 0 then mkObjects (record0 x) (record1 x) b (selector1 x)
       else mkObjects (record0 x) (record1 x) (selector0 x) b.

Definition object_bytes (b : bytes) : Prop := len b = 160 /\ octets b.

Record objects_ok (x : objects) : Prop := {
  ok_record0 : object_bytes (record0 x);
  ok_record1 : object_bytes (record1 x);
  ok_selector0 : object_bytes (selector0 x);
  ok_selector1 : object_bytes (selector1 x);
}.

Definition object_name (object slot : Z) : Prop :=
  (object = RIBON_PROTECTED_STATE_OBJECT_RECORD \/ object = RIBON_PROTECTED_STATE_OBJECT_SELECTOR) /\
  (slot = 0 \/ slot = 1).

(** [content w d] is what reads of domain [d] see, [crash w d x] says that a power
    cut may leave the domain holding [x]; [tears old new r]: writing [new] over
    [old] may leave [r].  A call concerns one domain. *)
Class ProtectedContract {W} (p : RibonProtectedStateProvider W) := {
  content : W -> bytes -> objects;
  crash : W -> bytes -> objects -> Prop;
  tears : bytes -> bytes -> bytes -> Prop;
  ok_content : forall w d, objects_ok (content w d);
  ok_crash : forall w d x, crash w d x -> objects_ok x;
  ok_tears : forall old new r, tears old new r -> object_bytes old -> object_bytes new -> object_bytes r;
  read_frame : forall w d object slot b w' r d', d' <> d -> call_read p w d object slot b = (w', r) ->
    content w' d' = content w d' /\ forall x, crash w' d' x -> crash w d' x;
  write_frame : forall w d object slot b w' r d', d' <> d -> call_write p w d object slot b = (w', r) ->
    content w' d' = content w d' /\ forall x, crash w' d' x -> crash w d' x;
  read_law : forall w d object slot b w' status out,
    object_name object slot -> len b = 160 -> call_read p w d object slot b = (w', (status, out)) ->
    content w' d = content w d /\ (forall x, crash w' d x -> crash w d x) /\
    (status = 0 -> out = object_at (content w d) object slot);
  write_law : forall w d object slot b w' status,
    object_name object slot -> object_bytes b -> call_write p w d object slot b = (w', status) ->
    (status = 0 -> content w' d = put (content w d) object slot b) /\
    (exists r, content w' d = put (content w d) object slot r /\
       (r = object_at (content w d) object slot \/ r = b \/
        tears (object_at (content w d) object slot) b r)) /\
    (forall x, crash w' d x -> exists x0 r, crash w d x0 /\ x = put x0 object slot r /\
       (r = object_at x0 object slot \/ r = b \/ tears (object_at x0 object slot) b r));
  flush_law : forall w d w' status, call_flush p w d = (w', status) ->
    (forall d', content w' d' = content w d') /\
    (forall d' x, crash w' d' x -> crash w d' x \/ x = content w d') /\
    (status = 0 -> forall x, crash w' d x -> x = content w d);
}.

(** The calls on the journal's objects succeed. *)
Record reliable {W} (p : RibonProtectedStateProvider W) : Prop := {
  reliable_read : forall w d object slot b, object_name object slot -> len b = 160 ->
    exists w' out, call_read p w d object slot b = (w', (0, out));
  reliable_write : forall w d object slot b, object_name object slot -> object_bytes b ->
    exists w', call_write p w d object slot b = (w', 0);
  reliable_flush : forall w d, exists w', call_flush p w d = (w', 0);
}.

(** A torn object is never mistaken for a third one. *)
Definition torn_rejected {W} (p : RibonProtectedStateProvider W) `{!ProtectedContract p} : Prop :=
  forall old new r, tears old new r ->
    r = old \/ r = new \/ (selector_decode r = None /\ record_decode r = None).

(** The objects a domain may hold: what reads see, or what a power cut leaves. *)
Definition media_state {W} (p : RibonProtectedStateProvider W) `{!ProtectedContract p} (w : W) (d : bytes)
    (x : objects) : Prop := x = content w d \/ crash w d x.

(** ** Objects *)

Lemma put_same x object slot b : object_name object slot -> object_at (put x object slot b) object slot = b.
Proof. by intros [[-> | ->] [-> | ->]]. Qed.

Lemma put_id x object slot : object_name object slot -> put x object slot (object_at x object slot) = x.
Proof. destruct x. by intros [[-> | ->] [-> | ->]]. Qed.

Lemma put_record x slot b : slot = 0 \/ slot = 1 ->
  let x' := put x RIBON_PROTECTED_STATE_OBJECT_RECORD slot b in
  record_at x' slot = b /\ record_at x' (1 - slot) = record_at x (1 - slot) /\
  selector0 x' = selector0 x /\ selector1 x' = selector1 x.
Proof. by intros [-> | ->]. Qed.

Lemma put_selector x slot b : slot = 0 \/ slot = 1 ->
  let x' := put x RIBON_PROTECTED_STATE_OBJECT_SELECTOR slot b in
  selector_at x' slot = b /\ selector_at x' (1 - slot) = selector_at x (1 - slot) /\
  forall i, record_at x' i = record_at x i.
Proof. by intros [-> | ->]. Qed.

Lemma object_at_ok x object slot : objects_ok x -> object_bytes (object_at x object slot).
Proof. intros []. unfold object_at, record_at, selector_at. by repeat case_match. Qed.

Lemma put_ok x object slot b : objects_ok x -> object_bytes b -> objects_ok (put x object slot b).
Proof. intros [] Hb. unfold put. by repeat case_match; constructor. Qed.

(** The journal passed the engine's check. *)
Record journal_ready {W} (j : RibonProtectedStateJournal W) (p : RibonProtectedStateProvider W) : Prop := {
  ready_provider : journal_provider j = Some p;
  ready_valid : journal_validate (Some j) = RIBON_PROTECTED_STATE_STATUS_OK;
  ready_domain : len (journal_domain_digest j) = 32 /\ octets (journal_domain_digest j);
}.

Lemma ready_domain_nonzero {W} (j : RibonProtectedStateJournal W) p :
  journal_ready j p -> bytes_zero (journal_domain_digest j) = false.
Proof.
  intros [_ Hv _]. unfold journal_validate in Hv. destruct (_ || _) eqn:G in Hv; [done|]. by bool_to_prop.
Qed.

(** ** A program logic for [ps] *)

Section Logic.
Context {W : Type} (p : RibonProtectedStateProvider W) `{!ProtectedContract p}.
Context (j : RibonProtectedStateJournal W) (Hj : journal_ready j p).
Let dom := journal_domain_digest j.

Definition all_media (P : objects -> Prop) (w : W) : Prop := forall x, media_state p w dom x -> P x.

(** Reading changes neither the media nor what a power cut can leave. *)
Definition steady (P : W -> Prop) : Prop :=
  forall w w', content w' dom = content w dom -> (forall x, crash w' dom x -> crash w dom x) -> P w -> P w'.

Lemma media_steady P : steady (all_media P).
Proof. intros w w' Hc Hcr H x [-> | Hx]; apply H; [by left|right; auto]. Qed.

Lemma media_impl (P Q : objects -> Prop) w : (forall x, P x -> Q x) -> all_media P w -> all_media Q w.
Proof. intros HPQ H x Hx. by apply HPQ, H. Qed.

Lemma all_media_now P w : all_media P w -> P (content w dom).
Proof. intros H. apply H. by left. Qed.

Lemma media_state_ok w x : media_state p w dom x -> objects_ok x.
Proof. intros [-> | Hx]; [apply ok_content|by eapply ok_crash]. Qed.

(** A status the engine passes on is the provider's doing. *)
Definition io_error (status : RibonProtectedStateStatus) : Prop :=
  (status = RIBON_PROTECTED_STATE_STATUS_UNAVAILABLE \/ status = RIBON_PROTECTED_STATE_STATUS_IO_ERROR) /\
  ~ reliable p.

Lemma object_status_cases status :
  status = 0 /\ provider_status status = RIBON_PROTECTED_STATE_STATUS_OK \/
  status <> 0 /\ (provider_status status = RIBON_PROTECTED_STATE_STATUS_UNAVAILABLE \/
                  provider_status status = RIBON_PROTECTED_STATE_STATUS_IO_ERROR).
Proof.
  unfold provider_status, RIBON_PROTECTED_STATE_PROVIDER_UNAVAILABLE, RIBON_PROTECTED_STATE_PROVIDER_OK.
  destruct (Z.eqb_spec status (-1)) as [->|]; [by right; auto|].
  destruct (Z.eqb_spec status 0); auto.
Qed.

Lemma read_triple P object slot E :
  steady P -> object_name object slot -> (forall st w, io_error st -> P w -> E st w) ->
  triple P (provider_read j object slot 160)
    (fun b w => P w /\ b = object_at (content w dom) object slot) E.
Proof.
  intros HP Ho HE w Hw. unfold provider_read. rewrite (ready_provider _ _ Hj). fold dom.
  destruct (call_read p w dom object slot (zeros 160)) as [w' [st b]] eqn:Hc.
  assert (Hrel : st <> 0 -> ~ reliable p).
  { intros Hne [Hrel _ _]. destruct (Hrel w dom object slot (zeros 160) Ho eq_refl) as (w2 & b2 & E2).
    congruence. }
  apply read_law in Hc as (Hcw & Hcr & Hout); [|done..]. pose proof (HP w w' Hcw Hcr Hw) as Hw'.
  destruct (object_status_cases st) as [[-> ->]|[Hne Hst]].
  - split; [done|]. rewrite Hcw. by apply Hout.
  - specialize (Hrel Hne). destruct Hst as [-> | ->]; apply HE; try done; split; auto.
Qed.

Lemma write_triple P Q object slot b E :
  object_name object slot -> object_bytes b ->
  (forall w w', P w ->
     (forall x, media_state p w' dom x -> exists x0 r, media_state p w dom x0 /\ x = put x0 object slot r /\
        (r = object_at x0 object slot \/ r = b \/ tears (object_at x0 object slot) b r)) ->
     (content w' dom = put (content w dom) object slot b -> Q w') /\ (forall st, io_error st -> E st w')) ->
  triple P (provider_write j object slot b) (fun _ => Q) E.
Proof.
  intros Ho Hb H w Hw. unfold provider_write. rewrite (ready_provider _ _ Hj). fold dom.
  destruct (call_write p w dom object slot b) as [w' st] eqn:Hc.
  assert (Hrel : st <> 0 -> ~ reliable p).
  { intros Hne [_ Hrel _]. destruct (Hrel w dom object slot b Ho Hb) as (w2 & E2). congruence. }
  apply write_law in Hc as (Hok & (r & Hcw & Hr) & Hcr); [|done..].
  destruct (H w w' Hw) as [HQ HE].
  { intros x [-> | Hx]; [exists (content w dom), r; split_and!; [by left|done..]|].
    destruct (Hcr x Hx) as (x0 & r0 & ? & ? & ?). exists x0, r0. split_and!; [by right|done..]. }
  destruct (object_status_cases st) as [[-> ->]|[Hne Hst]]; [by apply HQ, Hok|].
  specialize (Hrel Hne). destruct Hst as [-> | ->]; apply HE; split; auto.
Qed.

Lemma flush_triple P Q E :
  (forall w w', P w -> content w' dom = content w dom ->
     (forall x, media_state p w' dom x -> media_state p w dom x) ->
     ((forall x, media_state p w' dom x -> x = content w dom) -> Q w') /\ (forall st, io_error st -> E st w')) ->
  triple P (provider_flush j) (fun _ => Q) E.
Proof.
  intros H w Hw. unfold provider_flush. rewrite (ready_provider _ _ Hj). fold dom.
  destruct (call_flush p w dom) as [w' st] eqn:Hc.
  assert (Hrel : st <> 0 -> ~ reliable p).
  { intros Hne [_ _ Hrel]. destruct (Hrel w dom) as (w2 & E2). congruence. }
  apply flush_law in Hc as (Hcw & Hcr & Hok). destruct (H w w' Hw (Hcw dom)) as [HQ HE].
  { intros x [-> | Hx]; [left; apply Hcw|]. destruct (Hcr dom x Hx); [by right|by left]. }
  destruct (object_status_cases st) as [[-> ->]|[Hne Hst]].
  - apply HQ. intros x [-> | Hx]; [apply Hcw|by apply Hok].
  - specialize (Hrel Hne). destruct Hst as [-> | ->]; apply HE; split; auto.
Qed.

(** [open] is [open_objects] of what reads see, unless the provider fails. *)
Lemma open_triple P E :
  steady P -> (forall st w, io_error st -> P w -> E st w) ->
  (forall st w, P w -> open_objects dom (content w dom) = inl st -> E st w) ->
  triple P (ribon_protected_state_open (Some j) true)
    (fun c w => P w /\ open_objects dom (content w dom) = inr c) E.
Proof.
  intros HP Hio HE. unfold ribon_protected_state_open. rewrite (ready_valid _ _ Hj). cbn [negb].
  unfold open_checked, RIBON_PROTECTED_STATE_SELECTOR_BYTES, RIBON_PROTECTED_STATE_RECORD_BYTES. fold dom.
  assert (Hs : forall (f : objects -> Prop), steady (fun w => P w /\ f (content w dom))).
  { intros f w w' Hc Hcr [Hw Hf]. rewrite Hc. split; [by eapply HP|done]. }
  eapply triple_bind; [apply read_triple; [done|split; auto|done]|intros s0]. cbn beta.
  eapply triple_bind; [apply read_triple; [apply (Hs (fun x => s0 = _ x))|split; auto|]|intros r0]; cbn beta.
  { intros st w Hst [Hw _]. auto. }
  eapply triple_bind; [apply read_triple; [|split; auto|]|intros s1]; cbn beta.
  { intros w w' Hc Hcr [[Hw H1] H2]. rewrite Hc. split_and!; [by eapply HP|done..]. }
  { intros st w Hst [[Hw _] _]. auto. }
  eapply triple_bind; [apply read_triple; [|split; auto|]|intros r1]; cbn beta.
  { intros w w' Hc Hcr [[[Hw H1] H2] H3]. rewrite Hc. split_and!; [by eapply HP|done..]. }
  { intros st w Hst [[[Hw _] _] _]. auto. }
  apply triple_lift. intros w [[[[Hw ->] ->] ->] ->].
  assert (Hx : mkObjects (object_at (content w dom) 1 0) (object_at (content w dom) 1 1)
    (object_at (content w dom) 2 0) (object_at (content w dom) 2 1) = content w dom)
    by (by destruct (content w dom)).
  unfold RIBON_PROTECTED_STATE_OBJECT_RECORD, RIBON_PROTECTED_STATE_OBJECT_SELECTOR. rewrite Hx.
  destruct (open_objects dom (content w dom)) eqn:Ho; auto.
Qed.
End Logic.
