(* ===== verification/ProtectedCrash.v ===== *)
(** * The protected-state journal survives power cuts

    A commit writes the next record beside the selected one, makes it durable,
    reads it back, and only then replaces the older selector.  Whatever status it
    returns and whichever media a power cut leaves, the journal opens to the
    snapshot it had or to the next one. *)

From S2P Require Import Prelude.
From S2P Require Import Effects.
From S2P Require Import Buffer.
From S2P Require Import Wire.
From S2P Require Import Image.
From S2P Require Import Sha256.
From S2P Require Import Seal.
From S2P Require Import ProtectedWire.
From S2P Require Import ProtectedState.
From S2P Require Import ProtectedLogic.

#[local] Opaque record_encode selector_encode record_identity.

(** The objects hold [c]: the selector that [open] follows lies at the slot it
    names, and its record is [c]'s. *)
Definition holds (dom : bytes) (x : objects) (c : RibonProtectedStateSnapshot) : Prop :=
  open_objects dom x = inr c /\
  exists s, select_selector (selector0 x) (selector1 x) = inr (snapshot_selected_slot c, s).

(** A snapshot is its record and slot. *)
Definition record_of (c : RibonProtectedStateSnapshot) : RibonProtectedRecord :=
  mkRecord (snapshot_kind c) (snapshot_confirmed_floor c) (snapshot_pending_sequence c)
    (snapshot_trial_attempts_remaining c) (snapshot_generation c) (snapshot_domain_digest c)
    (snapshot_trial_binding_digest c) (snapshot_attempt_sequence c).

Lemma record_of_snapshot r slot : record_of (snapshot_from_record r slot) = r.
Proof. by destruct r. Qed.

(** The selector that [open] follows is valid and no other valid one is newer. *)
Lemma select_spec b0 b1 i s :
  select_selector b0 b1 = inr (i, s) <->
  (i = 0 \/ i = 1) /\ selector_state (if i =? 0 then b0 else b1) = inr s /\
  match selector_state (if i =? 0 then b1 else b0) with
  | inl _ => True
  | inr t =>
    if selector_generation t =? selector_generation s then i = 0 /\ bytes_equal b0 b1 = true
    else selector_generation t < selector_generation s
  end.
Proof.
  unfold select_selector. split.
  - destruct (selector_state b0) as [e0|s0] eqn:E0, (selector_state b1) as [e1|s1] eqn:E1.
    + by destruct (_ && _).
    + injection 1 as <- <-. cbn. rewrite E0, E1. auto.
    + injection 1 as <- <-. cbn. rewrite E0, E1. auto.
    + destruct (_ && _) eqn:G; [done|]. destruct (Z.ltb_spec (selector_generation s0) (selector_generation s1));
        injection 1 as <- <-; cbn; rewrite E0, E1; split_and!; auto.
      * destruct (Z.eqb_spec (selector_generation s0) (selector_generation s1)); lia.
      * rewrite (Z.eqb_sym (selector_generation s1)). destruct (Z.eqb_spec (selector_generation s0) (selector_generation s1)); [|lia].
        cbn in G. apply negb_false_iff in G. auto.
  - intros ([-> | ->] & Hs & Ht); cbn in Hs, Ht; rewrite Hs.
    + destruct (selector_state b1) as [|t]; [done|]. rewrite Z.eqb_sym in Ht.
      destruct (Z.eqb_spec (selector_generation s) (selector_generation t)) as [->|].
      * destruct Ht as [_ ->]. cbn. by rewrite Z.ltb_irrefl.
      * cbn. by rewrite (proj2 (Z.ltb_ge _ _)) by lia.
    + destruct (selector_state b0) as [|t]; [done|].
      destruct (Z.eqb_spec (selector_generation t) (selector_generation s)); [by destruct Ht|].
      cbn. by rewrite (proj2 (Z.ltb_lt _ _)) by lia.
Qed.

Lemma selector_state_some b s : selector_state b = inr s -> selector_decode b = Some s.
Proof. unfold selector_state. destruct (bytes_zero b); [done|]. destruct (selector_decode b); congruence. Qed.

Lemma selector_state_none b : selector_decode b = None -> exists st, selector_state b = inl st.
Proof. unfold selector_state. intros ->. destruct (bytes_zero b); eauto. Qed.

Lemma selector_state_decode b s : octets b -> selector_decode b = Some s -> selector_state b = inr s.
Proof.
  intros Hb Hs. unfold selector_state. destruct (bytes_zero b) eqn:Hz; [|by rewrite Hs]. exfalso.
  apply bytes_zero_true in Hz. rewrite Hz in Hs. unfold selector_decode in Hs.
  destruct (bytes_equal (slice 0 15 (zeros (len b))) SELECTOR_MAGIC) eqn:G; [|done].
  assert (Hn : byte_at (zeros (len b)) 16 = 0).
  { unfold byte_at, zeros. rewrite nth_lookup.
    destruct (_ !! _) eqn:E; [|done]. by apply lookup_replicate in E as [-> _]. }
  rewrite Hn in Hs. change (0 !=? 1) with true in Hs. rewrite orb_true_r in Hs. done.
Qed.

Section Domain.
Context (dom : bytes) (Hdom : len dom = 32 /\ octets dom).

Lemma bytes_equal_dom b : len b = 32 -> bytes_equal b dom = true <-> b = dom.
Proof. intros Hb. apply bytes_equal_true. rewrite Hb. symmetry. apply Hdom. Qed.

(** What [holds] says of the objects, with [i] the selected slot. *)
Record held (x : objects) (c : RibonProtectedStateSnapshot) (i : Z) (s : RibonProtectedSelector) : Prop := {
  held_slot : i = 0 \/ i = 1;
  held_selector : selector_state (selector_at x i) = inr s;
  held_selector_slot : selector_slot s = i;
  held_generation : selector_generation s = snapshot_generation c;
  held_digest : selector_record_digest s = record_identity (record_at x i);
  held_selector_domain : selector_domain s = dom;
  held_record : record_decode (record_at x i) = Some (record_of c);
  held_record_ok : record_ok (record_of c);
  held_domain : snapshot_domain_digest c = dom;
  held_snapshot : c = snapshot_from_record (record_of c) i;
  held_newest : match selector_state (selector_at x (1 - i)) with
    | inl _ => True
    | inr t => if selector_generation t =? selector_generation s
               then i = 0 /\ bytes_equal (selector0 x) (selector1 x) = true
               else selector_generation t < selector_generation s
    end;
  held_no_conflict : match record_decode (record_at x (1 - i)) with
    | Some o => (record_generation o =? snapshot_generation c) &&
                negb (bytes_equal (record_at x (1 - i)) (record_at x i)) = false
    | None => True
    end;
}.

Lemma holds_held x c : objects_ok x ->
  holds dom x c <-> exists s, held x c (snapshot_selected_slot c) s.
Proof.
  intros Hx.
  assert (Hsel : forall i, i = 0 \/ i = 1 ->
    (if i =? 0 then selector0 x else selector1 x) = selector_at x i /\
    (if i =? 0 then selector1 x else selector0 x) = selector_at x (1 - i)) by (by intros i [-> | ->]).
  assert (Hrec : forall k, object_bytes (record_at x k))
    by (intros k; apply (object_at_ok x RIBON_PROTECTED_STATE_OBJECT_RECORD k Hx)).
  assert (Hso : forall k, object_bytes (selector_at x k))
    by (intros k; apply (object_at_ok x RIBON_PROTECTED_STATE_OBJECT_SELECTOR k Hx)).
  split.
  - intros [Ho (s & Hs)]. unfold open_objects in Ho. rewrite Hs in Ho. exists s.
    set (i := snapshot_selected_slot c) in *.
    apply select_spec in Hs as (Hi & Hst & Hnew).
    destruct (Hsel i Hi) as [E1 E2]. rewrite E1 in Hst. rewrite E2 in Hnew.
    pose proof (selector_state_some _ _ Hst) as Hdec.
    apply selector_decode_ok in Hdec as [Hss Hsg (Hsd & _) (Hsr & _)]; [|apply Hso..].
    unfold check_record in Ho.
    destruct (record_decode (record_at x (selector_slot s))) as [r|] eqn:Hr; [|done].
    destruct (_ || _) eqn:G in Ho; [done|]. bool_to_prop.
    pose proof (record_decode_ok _ _ (proj2 (Hrec _)) (proj1 (Hrec _)) Hr) as Hrok.
    pose proof (ok_domain r Hrok) as (Hrd & _).
    assert (Hc : c = snapshot_from_record r (selector_slot s)) by (repeat case_match; congruence).
    assert (Hslot : selector_slot s = i) by (unfold i; by rewrite Hc).
    rewrite Hslot in *. rewrite (bytes_equal_dom _ Hsd) in *. rewrite (bytes_equal_dom _ Hrd) in *.
    assert (Hdig : selector_record_digest s = record_identity (record_at x i))
      by (apply bytes_equal_true; [rewrite Hsr; symmetry; apply record_identity_digest|done]).
    assert (Hrof : record_of c = r) by (rewrite Hc; apply record_of_snapshot).
    constructor; rewrite ?Hrof; try assumption.
    + rewrite Hc. assumption.
    + rewrite Hc. assumption.
    + destruct (record_decode (record_at x (1 - i))) as [o|]; [|exact I].
      destruct (_ && _) eqn:G in Ho; [discriminate Ho|]. rewrite Hc. exact G.
  - intros (s & [Hi Hst Hss Hg Hdig Hsd Hr Hrok Hd Hc Hnew Hnc]). set (i := snapshot_selected_slot c) in *.
    destruct (Hsel i Hi) as [E1 E2].
    assert (Hs : select_selector (selector0 x) (selector1 x) = inr (i, s))
      by (apply select_spec; rewrite E1, E2; split_and!; assumption).
    split; [|by exists s]. unfold open_objects. rewrite Hs. unfold check_record. rewrite Hss, Hr.
    change (record_generation (record_of c)) with (snapshot_generation c).
    change (record_domain (record_of c)) with (snapshot_domain_digest c).
    rewrite Hg, Hd, Hsd, Hdig, !bytes_equal_refl, Z.eqb_refl. cbn [negb orb].
    destruct (record_decode (record_at x (1 - i))) as [o|]; [rewrite Hnc|]; by rewrite Hc at 2.
Qed.

(** ** One write at a time *)

(** Writing the record slot that is not selected, with bytes that do not decode or
    that decode to another generation, changes nothing. *)
Lemma holds_record_write x c b : objects_ok x -> object_bytes b -> holds dom x c ->
  (forall o, record_decode b = Some o -> record_generation o <> snapshot_generation c) ->
  holds dom (put x RIBON_PROTECTED_STATE_OBJECT_RECORD (1 - snapshot_selected_slot c) b) c.
Proof.
  intros Hx Hb Hh Hgen. pose proof (put_ok x RIBON_PROTECTED_STATE_OBJECT_RECORD
    (1 - snapshot_selected_slot c) b Hx Hb) as Hx'.
  apply holds_held in Hh as (s & [Hi Hst Hss Hg Hdig Hsd Hr Hrok Hd Hc Hnew Hnc]); [|done].
  apply holds_held; [done|]. exists s. set (i := snapshot_selected_slot c) in *.
  destruct (put_record x (1 - i) b ltac:(lia)) as (E1 & E2 & E3 & E4).
  replace (1 - (1 - i)) with i in E2 by lia.
  assert (Hsel : forall k, selector_at (put x RIBON_PROTECTED_STATE_OBJECT_RECORD (1 - i) b) k = selector_at x k)
    by (intros k; unfold selector_at; by rewrite E3, E4).
  constructor; rewrite ?Hsel, ?E1, ?E2, ?E3, ?E4; try assumption.
  destruct (record_decode b) as [o|]; [|exact I]. by rewrite (proj2 (Z.eqb_neq _ _) (Hgen o eq_refl)).
Qed.

(** So does a selector write over the older selector that leaves no valid one. *)
Lemma holds_selector_torn x c b : objects_ok x -> object_bytes b -> holds dom x c ->
  selector_decode b = None ->
  holds dom (put x RIBON_PROTECTED_STATE_OBJECT_SELECTOR (1 - snapshot_selected_slot c) b) c.
Proof.
  intros Hx Hb Hh Hn. pose proof (put_ok x RIBON_PROTECTED_STATE_OBJECT_SELECTOR
    (1 - snapshot_selected_slot c) b Hx Hb) as Hx'.
  apply holds_held in Hh as (s & [Hi Hst Hss Hg Hdig Hsd Hr Hrok Hd Hc Hnew Hnc]); [|done].
  apply holds_held; [done|]. exists s. set (i := snapshot_selected_slot c) in *.
  destruct (put_selector x (1 - i) b ltac:(lia)) as (E1 & E2 & E3).
  replace (1 - (1 - i)) with i in E2 by lia. destruct (selector_state_none b Hn) as [st Hs].
  constructor; rewrite ?E1, ?E2, ?E3, ?Hs; try assumption. exact I.
Qed.

(** The record a commit writes and the snapshot it installs. *)
Definition installs (slot : Z) (r : RibonProtectedRecord) : RibonProtectedStateSnapshot :=
  snapshot_from_record r slot.

Definition selector_for (slot : Z) (r : RibonProtectedRecord) : RibonProtectedSelector :=
  mkSelector slot (record_generation r) (record_domain r) (record_identity (record_encode r)).

Lemma selector_for_ok slot r : slot = 0 \/ slot = 1 -> record_ok r ->
  bytes_zero (record_identity (record_encode r)) = false -> selector_ok (selector_for slot r).
Proof.
  intros Hs Hr Hz. constructor; cbn; [lia|apply (ok_generation r Hr)|apply (ok_domain r Hr)|].
  split_and!; [apply record_identity_digest..|done].
Qed.

(** The new selector over the new record, when no other selector is as new and no
    other record has its generation. *)
Lemma holds_selector_new x slot r : objects_ok x -> slot = 0 \/ slot = 1 -> record_ok r ->
  record_domain r = dom -> bytes_zero (record_identity (record_encode r)) = false ->
  record_at x slot = record_encode r ->
  (forall t, selector_state (selector_at x (1 - slot)) = inr t -> selector_generation t < record_generation r) ->
  (forall o, record_decode (record_at x (1 - slot)) = Some o -> record_generation o <> record_generation r) ->
  holds dom (put x RIBON_PROTECTED_STATE_OBJECT_SELECTOR slot (selector_encode (selector_for slot r)))
    (installs slot r).
Proof.
  intros Hx Hslot Hr Hd Hz Hrec Hnew Hnc. pose proof (selector_for_ok slot r Hslot Hr Hz) as Hso.
  pose proof (octets_selector_encode _ Hso) as Ho.
  apply holds_held; [apply put_ok; [done|split; [apply len_selector_encode|done]]|].
  exists (selector_for slot r). change (snapshot_selected_slot (installs slot r)) with slot.
  destruct (put_selector x slot (selector_encode (selector_for slot r)) Hslot) as (E1 & E2 & E3).
  constructor; rewrite ?E1, ?E2, ?E3, ?Hrec; unfold installs; rewrite ?record_of_snapshot; try assumption; try reflexivity.
  - apply selector_state_decode; [done|]. by apply selector_decode_encode.
  - by apply record_decode_encode.
  - cbn [selector_for selector_generation].
    destruct (selector_state (selector_at x (1 - slot))) as [|t] eqn:Et; [done|].
    specialize (Hnew t eq_refl). by rewrite (proj2 (Z.eqb_neq _ _)) by lia.
  - destruct (record_decode (record_at x (1 - slot))) as [o|] eqn:Eo; [|done].
    change (snapshot_generation (snapshot_from_record r slot)) with (record_generation r).
    by rewrite (proj2 (Z.eqb_neq _ _) (Hnc o eq_refl)).
Qed.

(** A record whose digest is zero has a selector that no reader accepts. *)
Lemma selector_decode_zero slot r : record_ok r -> bytes_zero (record_identity (record_encode r)) = true ->
  selector_decode (selector_encode (selector_for slot r)) = None.
Proof.
  intros Hr Hz. assert (Hsh : shape (selector_body (selector_for slot r)) = selector_shape).
  { destruct (ok_domain r Hr) as [Hd _]. unfold shape, selector_body. cbn [fmap list_fmap fst snd selector_for
      selector_slot selector_generation selector_domain selector_record_digest].
    by rewrite !len_le_bytes, Hd, (proj1 (record_identity_digest _)). }
  pose proof (shape_checked 160 144 _ _ Hsh) as Hsh'.
  assert (E : slice 72 32 (selector_encode (selector_for slot r)) = record_identity (record_encode r))
    by (rewrite selector_encode_image; image_field Hsh').
  unfold selector_decode, RIBON_PROTECTED_STATE_DIGEST_BYTES. rewrite E, Hz, !orb_true_r. done.
Qed.
End Domain.

(** ** The commit, one call at a time *)

Section Commit.
Context {W : Type} (p : RibonProtectedStateProvider W) `{!ProtectedContract p}.
Context (j : RibonProtectedStateJournal W) (Hj : journal_ready j p) (Htorn : torn_rejected p).
Let dom := journal_domain_digest j.
Abbreviation all_media := (all_media p j).

Section Record.
Context (slot : Z) (r : RibonProtectedRecord).
Context (Hslot : slot = 0 \/ slot = 1) (Hr : record_ok r) (Hd : record_domain r = dom).

(** What a media may hold before the selector write ([before]) and once it began. *)
Context (before after : objects -> Prop).
Let record := record_encode r.
Let selector := selector_encode (selector_for slot r).
Let no_digest : Prop := bytes_zero (record_identity record) = true.
Let installed (x : objects) : Prop := holds dom x (installs slot r).

Context (before_record : forall x b, objects_ok x -> before x -> object_bytes b ->
  b = record \/ record_decode b = None -> before (put x RIBON_PROTECTED_STATE_OBJECT_RECORD slot b)).
Context (before_after : forall x, before x -> after x).
Context (selector_torn : forall x b, objects_ok x -> before x -> object_bytes b ->
  selector_decode b = None -> after (put x RIBON_PROTECTED_STATE_OBJECT_SELECTOR slot b)).
Context (selector_new : forall x, objects_ok x -> before x -> record_at x slot = record -> ~ no_digest ->
  installed (put x RIBON_PROTECTED_STATE_OBJECT_SELECTOR slot selector)).
Context (after_older : forall x c, after x -> open_objects dom x = inr c ->
  snapshot_generation c <> record_generation r).

Definition outcome (x : objects) : Prop := after x \/ installed x.

(** What the selector write leaves once it is complete. *)
Definition final (x : objects) : Prop := (no_digest /\ after x) \/ (~ no_digest /\ installed x).

(** A commit fails because of the provider, or because the record has no digest. *)
Definition commit_error (status : RibonProtectedStateStatus) (w : W) : Prop :=
  all_media outcome w /\ (io_error p status \/ no_digest).

Lemma record_object : object_bytes record.
Proof. split; [apply len_record_encode|by apply octets_record_encode]. Qed.

Lemma selector_object : object_bytes selector.
Proof.
  split; [apply len_selector_encode|]. unfold selector. rewrite selector_encode_image.
  apply octets_image, octets_checked. unfold selector_body. cbn [selector_for selector_slot
    selector_generation selector_domain selector_record_digest].
  rewrite !Forall_cons, Forall_nil. cbn [snd].
  split_and!; try apply octets_le_bytes; try (by apply octetsb_octets); [|apply record_identity_digest|done].
  apply (ok_domain r Hr).
Qed.

Lemma record_name : object_name RIBON_PROTECTED_STATE_OBJECT_RECORD slot.
Proof. split; auto. Qed.

Lemma selector_name : object_name RIBON_PROTECTED_STATE_OBJECT_SELECTOR slot.
Proof. split; auto. Qed.

Lemma final_outcome x : final x -> outcome x.
Proof. intros [[_ H]|[_ H]]; [by left|by right]. Qed.

Lemma earlier_outcome x : before x -> outcome x.
Proof. intros H. left. by apply before_after. Qed.

(** The bytes a write can leave in an object. *)
Lemma written_object x object b r0 : objects_ok x -> object_bytes b ->
  r0 = object_at x object slot \/ r0 = b \/ tears (object_at x object slot) b r0 ->
  object_bytes r0 /\ (r0 = object_at x object slot \/ r0 = b \/
    (selector_decode r0 = None /\ record_decode r0 = None)).
Proof.
  intros Hx Hb [-> | [-> | Ht]].
  - split; [by apply object_at_ok|by left].
  - split; [done|by right; left].
  - split; [|by apply Htorn]. eapply ok_tears; [exact Ht|by apply object_at_ok|done].
Qed.

Lemma write_record_triple :
  triple (all_media before) (provider_write j RIBON_PROTECTED_STATE_OBJECT_RECORD slot record)
    (fun _ w => all_media before w /\ record_at (content w dom) slot = record) commit_error.
Proof.
  apply (write_triple p j Hj); [apply record_name|apply record_object|]. intros w w' Hw Hst.
  assert (Hb : all_media before w').
  { intros x Hx. apply Hst in Hx as (x0 & r0 & Hx0 & -> & Hr0). pose proof (media_state_ok p j w x0 Hx0) as Hok.
    apply written_object in Hr0 as [Hbytes Hcase]; [|done|apply record_object].
    destruct Hcase as [-> | Hcase]; [rewrite put_id by apply record_name; by apply Hw|].
    apply before_record; [done|by apply Hw|done|]. destruct Hcase as [-> | [_ ?]]; [by left|by right]. }
  split.
  - intros Hc. split; [done|]. fold dom in Hc. rewrite Hc. by apply put_record.
  - intros st Hio. split; [|by left]. eapply media_impl, Hb. apply earlier_outcome.
Qed.

Lemma flush_record_triple :
  triple (fun w => all_media before w /\ record_at (content w dom) slot = record) (provider_flush j)
    (fun _ => all_media (fun x => before x /\ record_at x slot = record)) commit_error.
Proof.
  apply (flush_triple p j Hj). intros w w' [Hw Hrec] Hc Hst. split.
  - intros Hall x Hx. rewrite (Hall x Hx). split; [apply Hw; by left|done].
  - intros st Hio. split; [|by left]. intros x Hx. by apply earlier_outcome, Hw, Hst.
Qed.

Lemma write_selector_triple :
  triple (all_media (fun x => before x /\ record_at x slot = record))
    (provider_write j RIBON_PROTECTED_STATE_OBJECT_SELECTOR slot selector)
    (fun _ w => all_media outcome w /\ final (content w dom)) commit_error.
Proof.
  assert (Hnew : forall x, objects_ok x -> before x -> record_at x slot = record ->
    final (put x RIBON_PROTECTED_STATE_OBJECT_SELECTOR slot selector)).
  { intros x Hx Hb Hrec. unfold final. destruct (decide no_digest) as [Hz|Hz].
    - left. split; [done|]. apply selector_torn; [done..|apply selector_object|].
      by apply selector_decode_zero.
    - right. split; [done|]. by apply selector_new. }
  apply (write_triple p j Hj); [apply selector_name|apply selector_object|]. intros w w' Hw Hst.
  assert (Hb : all_media outcome w').
  { intros x Hx. apply Hst in Hx as (x0 & r0 & Hx0 & -> & Hr0). pose proof (media_state_ok p j w x0 Hx0) as Hok.
    destruct (Hw x0 Hx0) as [Hbf Hrec].
    apply written_object in Hr0 as [Hbytes Hcase]; [|done|apply selector_object].
    destruct Hcase as [-> | [-> | [Hn _]]].
    - rewrite put_id by apply selector_name. by apply earlier_outcome.
    - by apply final_outcome, Hnew.
    - left. by apply selector_torn. }
  split.
  - intros Hc. split; [done|]. fold dom in Hc. rewrite Hc.
    destruct (Hw (content w dom)) as [Hbf Hrec]; [by left|]. apply Hnew; [apply ok_content|done..].
  - intros st Hio. split; [done|by left].
Qed.

Lemma flush_selector_triple :
  triple (fun w => all_media outcome w /\ final (content w dom)) (provider_flush j)
    (fun _ => all_media final) commit_error.
Proof.
  apply (flush_triple p j Hj). intros w w' [Hw Hi] Hc Hst. split.
  - intros Hall x Hx. by rewrite (Hall x Hx).
  - intros st Hio. split; [|by left]. intros x Hx. by apply Hw, Hst.
Qed.

Lemma final_open x c : final x -> open_objects dom x = inr c ->
  (snapshot_generation c !=? record_generation r) || (snapshot_selected_slot c !=? slot) = false ->
  ~ no_digest /\ c = installs slot r.
Proof.
  intros [[_ Ha]|[Hz [Hi _]]] Ho Hg; bool_to_prop; [by destruct (after_older x c Ha Ho)|].
  split; [done|]. congruence.
Qed.

Lemma final_mismatch x c : final x -> open_objects dom x = inr c ->
  (snapshot_generation c !=? record_generation r) || (snapshot_selected_slot c !=? slot) = true -> no_digest.
Proof.
  intros [[? _]|[Hz [Hi _]]] Ho Hg; [done|]. exfalso. rewrite Hi in Ho. injection Ho as <-.
  cbn in Hg. by rewrite !Z.eqb_refl in Hg.
Qed.

Lemma install_triple :
  triple (all_media before) (commit_record j slot r)
    (fun c w => c = installs slot r /\ ~ no_digest /\ all_media installed w) commit_error.
Proof.
  unfold commit_record. fold record. change (mkSelector slot (record_generation r) (record_domain r)
    (record_identity record)) with (selector_for slot r). fold selector.
  eapply triple_bind; [apply write_record_triple|cbn beta; intros []].
  eapply triple_bind; [apply flush_record_triple|cbn beta; intros []].
  eapply triple_bind.
  { apply (read_triple p j Hj); [apply media_steady|apply record_name|].
    intros st w Hio Hw. split; [|by left]. eapply media_impl, Hw. intros x [Hx _]. by apply earlier_outcome. }
  intros readback.
  eapply triple_bind; [apply (triple_leave_if _ (all_media (fun x => before x /\ record_at x slot = record)))
    |cbn beta; intros []].
  { by intros w [Hw _]. }
  { intros w [Hw ->] Hne. exfalso. pose proof (all_media_now p j _ w Hw) as [_ Hrec]. fold dom in Hne, Hrec.
    change (object_at (content w dom) RIBON_PROTECTED_STATE_OBJECT_RECORD slot) with
      (record_at (content w dom) slot) in Hne. rewrite Hrec, bytes_equal_refl in Hne. done. }
  eapply triple_bind; [apply write_selector_triple|cbn beta; intros []].
  eapply triple_bind; [apply flush_selector_triple|cbn beta; intros []].
  eapply triple_bind.
  { apply (open_triple p j Hj); [apply media_steady|..].
    - intros st w Hio Hw. split; [|by left]. eapply media_impl, Hw. apply final_outcome.
    - intros st w Hw Hbad. split; [eapply media_impl, Hw; apply final_outcome|].
      pose proof (all_media_now p j _ w Hw) as [[? _]|[_ [Hi _]]]; [by right|]. fold dom in Hbad, Hi. congruence. }
  intros c. cbn beta.
  eapply triple_bind; [apply (triple_leave_if _ (fun w => c = installs slot r /\ ~ no_digest /\ all_media installed w))
    |cbn beta; intros []].
  - intros w [Hw Ho] Hg. pose proof (all_media_now p j _ w Hw) as Hf.
    destruct (final_open _ _ Hf Ho Hg) as [Hz ->]. split_and!; [done..|].
    eapply media_impl, Hw. intros x [[? _]|[_ ?]]; [done|done].
  - intros w [Hw Ho] Hg. pose proof (all_media_now p j _ w Hw) as Hf.
    split; [eapply media_impl, Hw; apply final_outcome|right]. by eapply final_mismatch.
  - by apply triple_ret.
Qed.
End Record.
End Commit.
