(* ===== verification/ProtectedSpec.v ===== *)
(** * What the protected state promises

    The rollback authority of a domain as an abstract state machine: a confirmed
    floor and possibly a trial of its successor with a number of attempts left,
    bound or not to a boot attempt.  [op_next] is what an operation decides from a
    snapshot; it takes exactly the steps of the machine. *)

From S2P Require Import Prelude.
From S2P Require Import Effects.
From S2P Require Import Buffer.
From S2P Require Import Wire.
From S2P Require Import ProtectedWire.
From S2P Require Import ProtectedState.
From S2P Require Import ProtectedLogic.
From S2P Require Import ProtectedCrash.

#[local] Opaque record_encode selector_encode record_identity.

(** ** The abstract machine *)

Inductive phase :=
| Confirmed
| Trial (attempts : Z).

Record rollback := mkRollback {
  floor : Z;
  current_phase : phase;
  (** the boot attempt the state is bound to: its digest and sequence *)
  bound : option (bytes * Z);
}.

Inductive op :=
| Begin (candidate attempts : Z) (attempt : option (bytes * Z))
| Rebind (pending : Z) (digest : bytes) (sequence : Z)
| Consume (pending : Z)
| Confirm (pending : Z)
| ConfirmBound (pending : Z) (digest : bytes) (sequence : Z)
| Fail.

(** The sequence of a boot attempt; 0 when there is none. *)
Definition sequence_of (attempt : option (bytes * Z)) : Z :=
  match attempt with Some (_, sequence) => sequence | None => 0 end.

(** A boot attempt an operation may be bound to. *)
Definition attempt_ok (attempt : option (bytes * Z)) : Prop :=
  match attempt with
  | Some (digest, sequence) => bytes_zero digest = false /\ sequence <> 0
  | None => True
  end.

Inductive step : op -> rollback -> rollback -> Prop :=
| step_begin f b n attempt :
    f < UINT64_MAX -> 0 < n <= RIBON_PROTECTED_STATE_MAX_TRIAL_ATTEMPTS -> attempt_ok attempt ->
    step (Begin (f + 1) n attempt) (mkRollback f Confirmed b) (mkRollback f (Trial n) attempt)
| step_rebind f b n digest sequence :
    0 < n -> attempt_ok (Some (digest, sequence)) -> sequence_of b < sequence ->
    step (Rebind (f + 1) digest sequence) (mkRollback f (Trial n) b)
      (mkRollback f (Trial n) (Some (digest, sequence)))
| step_consume f b n :
    0 < n -> step (Consume (f + 1)) (mkRollback f (Trial n) b) (mkRollback f (Trial (n - 1)) b)
| step_confirm f n :
    step (Confirm (f + 1)) (mkRollback f (Trial n) None) (mkRollback (f + 1) Confirmed None)
| step_confirm_bound f n digest sequence :
    step (ConfirmBound (f + 1) digest sequence) (mkRollback f (Trial n) (Some (digest, sequence)))
      (mkRollback (f + 1) Confirmed (Some (digest, sequence)))
| step_fail f n b : step Fail (mkRollback f (Trial n) b) (mkRollback f Confirmed b).

(** The request is already fulfilled. *)
Inductive repeats : op -> rollback -> Prop :=
| repeats_confirm_bound f digest sequence :
    repeats (ConfirmBound f digest sequence) (mkRollback f Confirmed (Some (digest, sequence))).

(** ** The operations *)

(** The C types of the arguments. *)
Definition attempt_typed (attempt : option (bytes * Z)) : Prop :=
  match attempt with
  | Some (digest, sequence) => len digest = 32 /\ octets digest /\ word 64 sequence
  | None => True
  end.

Definition op_typed (o : op) : Prop :=
  match o with
  | Begin candidate attempts attempt => word 64 candidate /\ word 32 attempts /\ attempt_typed attempt
  | Rebind pending digest sequence => word 64 pending /\ attempt_typed (Some (digest, sequence))
  | Consume pending | Confirm pending => word 64 pending
  | ConfirmBound pending digest sequence => word 64 pending /\ attempt_typed (Some (digest, sequence))
  | Fail => True
  end.

Definition run_op {W} (j : RibonProtectedStateJournal W) (o : op) : M W RibonProtectedStateStatus RibonProtectedStateSnapshot :=
  match o with
  | Begin candidate attempts None => ribon_protected_state_begin_trial (Some j) candidate attempts
  | Begin candidate attempts (Some (digest, sequence)) =>
    ribon_protected_state_begin_bound_trial (Some j) candidate attempts (Some digest) sequence
  | Rebind pending digest sequence =>
    ribon_protected_state_rebind_trial_attempt (Some j) pending (Some digest) sequence
  | Consume pending => ribon_protected_state_consume_trial_attempt (Some j) pending
  | Confirm pending => ribon_protected_state_confirm (Some j) pending
  | ConfirmBound pending digest sequence =>
    ribon_protected_state_confirm_bound (Some j) pending (Some digest) sequence true
  | Fail => ribon_protected_state_fail_trial (Some j)
  end.

(** What an operation decides from the snapshot it opened: a refusal, the snapshot
    itself when the request is already fulfilled, or the next record. *)
Definition op_next (o : op) (c : RibonProtectedStateSnapshot)
  : RibonProtectedStateStatus + option RibonProtectedRecord :=
  let next := fun r => match r with inl status => inl status | inr record => inr (Some record) end in
  match o with
  | Begin candidate attempts None => next (begin_trial_next candidate attempts None 0 c)
  | Begin candidate attempts (Some (digest, sequence)) =>
    next (begin_trial_next candidate attempts (Some digest) sequence c)
  | Rebind pending digest sequence =>
    if bad_binding (Some digest) sequence then inl RIBON_PROTECTED_STATE_STATUS_INVALID_ARGUMENT
    else next (rebind_next pending digest sequence c)
  | Consume pending => next (consume_next pending c)
  | Confirm pending => next (confirm_next pending c)
  | ConfirmBound pending digest sequence =>
    if bad_binding (Some digest) sequence then inl RIBON_PROTECTED_STATE_STATUS_INVALID_ARGUMENT
    else if already_confirmed pending digest sequence c then inr None
    else next (confirm_bound_next pending digest sequence c)
  | Fail => next (fail_next c)
  end.

(** The abstract state of a snapshot. *)
Definition abs (c : RibonProtectedStateSnapshot) : rollback :=
  mkRollback (snapshot_confirmed_floor c)
    (if snapshot_kind c =? RIBON_PROTECTED_STATE_KIND_CONFIRMED then Confirmed
     else Trial (snapshot_trial_attempts_remaining c))
    (if snapshot_attempt_sequence c =? 0 then None
     else Some (snapshot_trial_binding_digest c, snapshot_attempt_sequence c)).

(** The snapshot after [next] is committed. *)
Definition advance (c : RibonProtectedStateSnapshot) (next : RibonProtectedRecord)
  : RibonProtectedStateSnapshot :=
  installs (1 - snapshot_selected_slot c) (successor c next).

(** ** The operations take the machine's steps *)

Lemma step_deterministic o s s1 s2 : step o s s1 -> step o s s2 -> s1 = s2.
Proof. intros H1 H2. destruct H1; inversion H2; by subst. Qed.

(** A record that [transition_record] completes. *)
Record next_ok (next : RibonProtectedRecord) : Prop := {
  next_confirmed : word 64 (record_confirmed_floor next);
  next_attempt_sequence : word 64 (record_attempt_sequence next);
  next_binding : len (record_binding next) = 32 /\ octets (record_binding next) /\
    bytes_zero (record_binding next) = (record_attempt_sequence next =? 0);
  next_state :
    (record_kind next = RIBON_PROTECTED_STATE_KIND_CONFIRMED /\
     record_pending_sequence next = 0 /\ record_attempts next = 0) \/
    (record_kind next = RIBON_PROTECTED_STATE_KIND_TRIAL /\
     record_pending_sequence next = record_confirmed_floor next + 1 /\
     record_confirmed_floor next < UINT64_MAX /\ 0 <= record_attempts next <= 32);
}.

Lemma successor_ok c next : record_ok (record_of c) -> next_ok next -> snapshot_generation c <> UINT64_MAX ->
  record_ok (successor c next).
Proof.
  intros [Hg Hf Hq Hd Hb Hs] [] Hne. cbn in Hg.
  assert (Hu : u64 (snapshot_generation c + 1) = snapshot_generation c + 1) by (apply wrap_small, word64; lia).
  constructor; cbn; rewrite ?Hu; auto. lia.
Qed.

Section Decisions.
Context (c : RibonProtectedStateSnapshot) (Hc : record_ok (record_of c)).

(** The snapshot is confirmed, or a trial of the floor's successor. *)
Lemma snapshot_cases :
  (snapshot_kind c = 1 /\ snapshot_pending_sequence c = 0 /\ snapshot_trial_attempts_remaining c = 0 /\
   current_phase (abs c) = Confirmed) \/
  (snapshot_kind c = 2 /\ snapshot_pending_sequence c = snapshot_confirmed_floor c + 1 /\
   snapshot_confirmed_floor c < UINT64_MAX /\ 0 <= snapshot_trial_attempts_remaining c <= 32 /\
   current_phase (abs c) = Trial (snapshot_trial_attempts_remaining c)).
Proof.
  destruct (ok_state _ Hc) as [(Hk & Hp & Hn)|(Hk & Hp & Hf & Hn)]; cbn in Hk, Hp, Hn;
    unfold abs; cbn [current_phase]; rewrite Hk; [left|right]; auto.
Qed.

Lemma snapshot_bound :
  (snapshot_attempt_sequence c = 0 /\ bytes_zero (snapshot_trial_binding_digest c) = true /\
   bound (abs c) = None) \/
  (snapshot_attempt_sequence c <> 0 /\ bytes_zero (snapshot_trial_binding_digest c) = false /\
   bound (abs c) = Some (snapshot_trial_binding_digest c, snapshot_attempt_sequence c)).
Proof.
  destruct (ok_binding _ Hc) as (_ & _ & Hb). cbn in Hb. unfold abs. cbn [bound].
  destruct (Z.eqb_spec (snapshot_attempt_sequence c) 0); [left|right]; auto.
Qed.

Lemma abs_eq : abs c = mkRollback (snapshot_confirmed_floor c) (current_phase (abs c)) (bound (abs c)).
Proof. reflexivity. Qed.

Lemma sequence_of_bound : sequence_of (bound (abs c)) = snapshot_attempt_sequence c.
Proof. destruct snapshot_bound as [(Hz & _ & ->)|(_ & _ & ->)]; [by rewrite Hz|done]. Qed.

Lemma advance_abs next : next_ok next ->
  abs (advance c next) =
  mkRollback (record_confirmed_floor next)
    (if record_kind next =? 1 then Confirmed else Trial (record_attempts next))
    (if record_attempt_sequence next =? 0 then None
     else Some (record_binding next, record_attempt_sequence next)).
Proof. reflexivity. Qed.

(** Each decision against the machine. *)
Definition decides (o : op) (r : RibonProtectedStateStatus + RibonProtectedRecord) : Prop :=
  match r with
  | inl _ => forall s', ~ step o (abs c) s'
  | inr next => next_ok next /\ step o (abs c) (abs (advance c next))
  end.

(** No step of the machine matches a refusal. *)
Ltac refused :=
  let s := fresh "s" in let H := fresh "Hstep" in
  intros s H; rewrite abs_eq in H;
  repeat match goal with
  | Hp : current_phase (abs c) = _ |- _ => rewrite Hp in H; clear Hp
  | Hb : bound (abs c) = _ |- _ => rewrite Hb in H; clear Hb
  end;
  let ph := fresh "ph" in set (ph := current_phase (abs c)) in *; clearbody ph;
  let b := fresh "b" in set (b := bound (abs c)) in *; clearbody b;
  inversion H; subst; try congruence; try lia.

Lemma begin_decides candidate n attempt : op_typed (Begin candidate n attempt) ->
  decides (Begin candidate n attempt)
    (begin_trial_next candidate n (fst <$> attempt) (sequence_of attempt) c).
Proof.
  intros (Hcw & Hnw & Hat). pose proof (ok_confirmed _ Hc) as Hf. cbn in Hf. rewrite word64 in *.
  rewrite word32 in Hnw. unfold begin_trial_next, RIBON_PROTECTED_STATE_KIND_CONFIRMED.
  destruct snapshot_cases as [(-> & Hp & Hn & Hph)|(-> & Hp & Hlt & Hn & Hph)]; cbn [Z.eqb Pos.eqb negb];
    [|refused].
  destruct (Z.eqb_spec (snapshot_confirmed_floor c) UINT64_MAX) as [|Hmax]; [refused|].
  rewrite (wrap_small 64) by (apply word64; lia).
  destruct (Z.eqb_spec candidate (snapshot_confirmed_floor c + 1)) as [->|Hne]; cbn [negb];
    [|destruct (_ <=? _); refused].
  destruct ((n =? 0) || (n >? _)) eqn:G1.
  { refused. }
  bool_to_prop.
  assert (Hbad : match fst <$> attempt with
    | None => sequence_of attempt !=? 0
    | Some b => bytes_zero b || (sequence_of attempt =? 0)
    end = true <-> ~ attempt_ok attempt).
  { destruct attempt as [[d s]|]; cbn; [|by split; [|intros []]]. rewrite orb_true_iff, Z.eqb_eq.
    destruct (bytes_zero d), (Z.eq_dec s 0); intuition congruence. }
  destruct (match fst <$> attempt with None => _ | Some b => _ end) eqn:G2.
  { refused. by apply Hbad. }
  assert (Hok : attempt_ok attempt).
  { destruct attempt as [[d s]|]; [|done]. cbn in G2 |- *. bool_to_prop. auto. }
  assert (Hnext : next_ok (next_record RIBON_PROTECTED_STATE_KIND_TRIAL (snapshot_confirmed_floor c)
    (snapshot_confirmed_floor c + 1) n (default (zeros 32) (fst <$> attempt)) (sequence_of attempt))).
  { constructor; cbn.
    - apply word64. lia.
    - destruct attempt as [[d s]|]; cbn; [apply Hat|apply word64; unfold UINT64_MAX; lia].
    - destruct attempt as [[d s]|]; cbn; [|by split_and!; [|apply octets_zeros|]].
      destruct Hat as (Hl & Ho & _), Hok as [Hz Hs]. split_and!; auto. rewrite Hz. symmetry. by apply Z.eqb_neq.
    - right. unfold RIBON_PROTECTED_STATE_MAX_TRIAL_ATTEMPTS in *. split_and!; auto; lia. }
  split; [done|]. rewrite (advance_abs _ Hnext), abs_eq, Hph. cbn.
  assert (Hb : (if sequence_of attempt =? 0 then None
    else Some (default (zeros 32) (fst <$> attempt), sequence_of attempt)) = attempt).
  { destruct attempt as [[d s]|]; [|done]. cbn. destruct Hok as [_ Hs]. by rewrite (proj2 (Z.eqb_neq _ _) Hs). }
  rewrite Hb. constructor; auto; lia.
Qed.

(** The snapshot's own floor and binding are good for the next record. *)
Lemma snapshot_typed :
  0 <= snapshot_confirmed_floor c <= UINT64_MAX /\ word 64 (snapshot_attempt_sequence c) /\
  len (snapshot_trial_binding_digest c) = 32 /\ octets (snapshot_trial_binding_digest c) /\
  bytes_zero (snapshot_trial_binding_digest c) = (snapshot_attempt_sequence c =? 0).
Proof.
  pose proof (ok_confirmed _ Hc) as Hf. pose proof (ok_attempt_sequence _ Hc) as Hq.
  pose proof (ok_binding _ Hc) as Hb. cbn in Hf, Hq, Hb. rewrite word64 in Hf. tauto.
Qed.

Lemma next_ok_intro k f q n b s :
  0 <= f <= UINT64_MAX -> word 64 s -> len b = 32 -> octets b -> bytes_zero b = (s =? 0) ->
  (k = 1 /\ q = 0 /\ n = 0) \/ (k = 2 /\ q = f + 1 /\ f < UINT64_MAX /\ 0 <= n <= 32) ->
  next_ok (next_record k f q n b s).
Proof. intros. constructor; cbn; [by apply word64|auto..]. Qed.

Lemma rebind_decides pending digest sequence : op_typed (Rebind pending digest sequence) ->
  bad_binding (Some digest) sequence = false ->
  decides (Rebind pending digest sequence) (rebind_next pending digest sequence c).
Proof.
  intros (_ & Hl & Ho & Hw) Hbad. cbn in Hbad. bool_to_prop. destruct snapshot_typed as (Hf & _).
  pose proof sequence_of_bound as Hseq. unfold rebind_next, RIBON_PROTECTED_STATE_KIND_TRIAL.
  destruct snapshot_cases as [(-> & Hp & Hn & Hph)|(-> & Hp & Hlt & Hn & Hph)]; cbn [Z.eqb Pos.eqb negb orb];
    [refused|].
  destruct (Z.eqb_spec (snapshot_pending_sequence c) pending) as [<-|]; cbn [negb]; [|refused].
  destruct (Z.eqb_spec (snapshot_trial_attempts_remaining c) 0); [refused|].
  destruct (Z.leb_spec sequence (snapshot_attempt_sequence c)); [refused|].
  assert (Hnext : next_ok (next_record 2 (snapshot_confirmed_floor c) (snapshot_pending_sequence c)
    (snapshot_trial_attempts_remaining c) digest sequence)).
  { apply next_ok_intro; auto. by rewrite (proj2 (Z.eqb_neq sequence 0)). }
  split; [done|]. rewrite (advance_abs _ Hnext), abs_eq, Hph, Hp. cbn.
  rewrite (proj2 (Z.eqb_neq sequence 0)) by done. apply step_rebind; [lia|done|].
  change (sequence_of (bound (abs c)) < sequence). lia.
Qed.

Lemma consume_decides pending : decides (Consume pending) (consume_next pending c).
Proof.
  destruct snapshot_typed as (Hf & Hq & Hl & Ho & Hz).
  unfold consume_next, RIBON_PROTECTED_STATE_KIND_TRIAL.
  destruct snapshot_cases as [(-> & Hp & Hn & Hph)|(-> & Hp & Hlt & Hn & Hph)]; cbn [Z.eqb Pos.eqb negb orb];
    [refused|].
  destruct (Z.eqb_spec (snapshot_pending_sequence c) pending) as [<-|]; cbn [negb]; [|refused].
  destruct (Z.eqb_spec (snapshot_trial_attempts_remaining c) 0); [refused|].
  rewrite (wrap_small 32) by (apply word32; unfold UINT32_MAX; lia).
  assert (Hnext : next_ok (next_record 2 (snapshot_confirmed_floor c) (snapshot_pending_sequence c)
    (snapshot_trial_attempts_remaining c - 1) (snapshot_trial_binding_digest c) (snapshot_attempt_sequence c)))
    by (apply next_ok_intro; auto; right; lia).
  split; [done|]. rewrite (advance_abs _ Hnext), abs_eq, Hph, Hp. cbn. constructor. lia.
Qed.

Lemma confirm_decides pending : decides (Confirm pending) (confirm_next pending c).
Proof.
  destruct snapshot_typed as (Hf & Hq & Hl & Ho & Hz).
  unfold confirm_next, RIBON_PROTECTED_STATE_KIND_TRIAL, RIBON_PROTECTED_STATE_KIND_CONFIRMED.
  destruct snapshot_cases as [(-> & Hp & Hn & Hph)|(-> & Hp & Hlt & Hn & Hph)]; cbn [Z.eqb Pos.eqb negb orb];
    [refused|].
  destruct (Z.eqb_spec (snapshot_pending_sequence c) pending) as [<-|]; cbn [negb orb]; [|refused].
  destruct snapshot_bound as [(Hs & Hbz & Hb)|(Hs & Hbz & Hb)]; rewrite Hbz; cbn [negb orb]; [|refused].
  rewrite Hs. cbn [Z.eqb negb].
  assert (Hnext : next_ok (next_record 1 (snapshot_pending_sequence c) 0 0 (zeros 32) 0)).
  { apply next_ok_intro; auto; [lia|apply word64; unfold UINT64_MAX; lia|apply octets_zeros]. }
  split; [done|]. rewrite (advance_abs _ Hnext), abs_eq, Hph, Hb, Hp. cbn. constructor.
Qed.

(** Against a request's digest. *)
Lemma same_attempt digest sequence : len digest = 32 ->
  (snapshot_attempt_sequence c =? sequence) && bytes_equal (snapshot_trial_binding_digest c) digest = true <->
  snapshot_attempt_sequence c = sequence /\ snapshot_trial_binding_digest c = digest.
Proof.
  intros Hl. destruct snapshot_typed as (_ & _ & Hlen & _).
  rewrite andb_true_iff, Z.eqb_eq, bytes_equal_true by congruence. done.
Qed.

Lemma confirm_bound_decides pending digest sequence : op_typed (ConfirmBound pending digest sequence) ->
  bad_binding (Some digest) sequence = false ->
  decides (ConfirmBound pending digest sequence) (confirm_bound_next pending digest sequence c) /\
  (already_confirmed pending digest sequence c = true <-> repeats (ConfirmBound pending digest sequence) (abs c)).
Proof.
  intros (Hpw & Hl & Ho & Hw) Hbad. cbn in Hbad. bool_to_prop. pose proof (same_attempt digest sequence Hl) as Hsame.
  destruct snapshot_typed as (Hf & Hq & Hlen & Hoc & Hz).
  unfold confirm_bound_next, already_confirmed, RIBON_PROTECTED_STATE_KIND_TRIAL, RIBON_PROTECTED_STATE_KIND_CONFIRMED.
  rewrite word64 in Hpw.
  destruct snapshot_cases as [(-> & Hp & Hn & Hph)|(-> & Hp & Hlt & Hn & Hph)]; cbn [Z.eqb Pos.eqb negb orb andb].
  - split; [refused|]. rewrite <- andb_assoc, andb_true_iff, Z.eqb_eq, Hsame. rewrite abs_eq, Hph. split.
    + intros (<- & <- & <-). destruct snapshot_bound as [(? & _)|(_ & _ & ->)]; [done|constructor].
    + intros Hr. destruct snapshot_bound as [(? & _ & Hb)|(_ & _ & Hb)]; rewrite Hb in Hr; inversion Hr; by subst.
  - split; [|split; [done|]; intros Hr; rewrite abs_eq, Hph in Hr; by inversion Hr].
    destruct (Z.eqb_spec (snapshot_pending_sequence c) pending) as [<-|]; cbn [negb orb]; [|refused].
    rewrite <- negb_andb. destruct (_ && _) eqn:G; cbn [negb].
    + destruct (proj1 Hsame eq_refl) as [<- <-].
      assert (Hnext : next_ok (next_record 1 (snapshot_pending_sequence c) 0 0 (snapshot_trial_binding_digest c)
        (snapshot_attempt_sequence c))) by (apply next_ok_intro; auto; lia).
      split; [done|]. rewrite (advance_abs _ Hnext), abs_eq, Hph, Hp.
      destruct snapshot_bound as [(? & _)|(_ & _ & ->)]; [done|]. cbn.
      rewrite (proj2 (Z.eqb_neq _ 0)) by done. constructor.
    + destruct snapshot_bound as [(? & _ & Hb)|(_ & _ & Hb)]; refused.
      assert (false = true) by (by apply Hsame). done.
Qed.

Lemma fail_decides : decides Fail (fail_next c).
Proof.
  destruct snapshot_typed as (Hf & Hq & Hl & Ho & Hz). 
  unfold fail_next, RIBON_PROTECTED_STATE_KIND_TRIAL, RIBON_PROTECTED_STATE_KIND_CONFIRMED.
  destruct snapshot_cases as [(-> & Hp & Hn & Hph)|(-> & Hp & Hlt & Hn & Hph)]; cbn [Z.eqb Pos.eqb negb];
    [refused|].
  assert (Hnext : next_ok (next_record 1 (snapshot_confirmed_floor c) 0 0 (snapshot_trial_binding_digest c)
    (snapshot_attempt_sequence c))) by (apply next_ok_intro; auto).
  split; [done|]. rewrite (advance_abs _ Hnext), abs_eq, Hph. cbn. constructor.
Qed.

(** An operation commits a step of the machine, repeats one it already took, or is
    refused when the machine has none. *)
Lemma op_next_refines o : op_typed o ->
  match op_next o c with
  | inl _ => (forall s', ~ step o (abs c) s') /\ ~ repeats o (abs c)
  | inr None => repeats o (abs c)
  | inr (Some next) => next_ok next /\ step o (abs c) (abs (advance c next))
  end.
Proof.
  intros Ho.
  assert (Hdec : forall r, decides o r -> (forall s, repeats o s -> False) ->
    match (match r with inl status => inl status | inr record => inr (Some record) end) with
    | inl _ => (forall s', ~ step o (abs c) s') /\ ~ repeats o (abs c)
    | inr None => repeats o (abs c)
    | inr (Some next) => next_ok next /\ step o (abs c) (abs (advance c next))
    end) by (intros [st|next] Hd Hr; [split; [exact Hd|exact (Hr (abs c))]|exact Hd]).
  destruct o as [candidate n [[digest sequence]|]|pending digest sequence|pending|pending|pending digest sequence|];
    cbn [op_next].
  - apply Hdec; [apply (begin_decides candidate n (Some (digest, sequence)) Ho)|intros s Hs; inversion Hs].
  - apply Hdec; [apply (begin_decides candidate n None Ho)|intros s Hs; inversion Hs].
  - destruct (bad_binding _ _) eqn:Hbad; [|apply Hdec; [by apply rebind_decides|intros s Hs; inversion Hs]].
    split; [|intros Hs; inversion Hs]. refused. cbn in Hbad.
    match goal with H : attempt_ok _ |- _ => destruct H as [Hz Hs] end.
    apply Z.eqb_neq in Hs. by rewrite Hz, Hs in Hbad.
  - apply Hdec; [apply consume_decides|intros s Hs; inversion Hs].
  - apply Hdec; [apply confirm_decides|intros s Hs; inversion Hs].
  - destruct (bad_binding _ _) eqn:Hbad.
    + assert (Hne : bound (abs c) <> Some (digest, sequence)).
      { intros Hb. destruct snapshot_bound as [(_ & _ & E)|(Hs & Hz & E)]; rewrite E in Hb; [done|].
        injection Hb as <- <-. cbn in Hbad. apply Z.eqb_neq in Hs. by rewrite Hz, Hs in Hbad. }
      split; [intros s' Hs|intros Hs]; rewrite abs_eq in Hs; inversion Hs; by subst.
    + destruct (confirm_bound_decides pending digest sequence Ho Hbad) as [Hd Hrep].
      destruct (already_confirmed _ _ _ _) eqn:Ha; [by apply Hrep|].
      assert (Hnr : ~ repeats (ConfirmBound pending digest sequence) (abs c)) by (intros H; by apply Hrep in H).
      destruct (confirm_bound_next _ _ _ _) as [st|next]; [by split|exact Hd].
  - apply Hdec; [apply fail_decides|intros s Hs; inversion Hs].
Qed.
End Decisions.

(** ** Running an operation *)

Section Run.
Context {W : Type} (p : RibonProtectedStateProvider W) `{!ProtectedContract p}.
Context (j : RibonProtectedStateJournal W) (Hj : journal_ready j p) (Htorn : torn_rejected p).
Let dom := journal_domain_digest j.
Abbreviation all_media := (all_media p j).
Abbreviation every_media c := (all_media (fun x => holds dom x c)).

Lemma every_media_ok c w : every_media c w ->
  record_ok (record_of c) /\ (snapshot_selected_slot c = 0 \/ snapshot_selected_slot c = 1) /\
  snapshot_domain_digest c = dom.
Proof.
  intros Hw. pose proof (all_media_now p j _ w Hw) as Hh. cbn beta in Hh.
  apply (holds_held dom (ready_domain _ _ Hj)) in Hh as (s & Hheld); [|apply ok_content].
  split_and!; [apply (held_record_ok _ _ _ _ _ Hheld)|apply (held_slot _ _ _ _ _ Hheld)|
    apply (held_domain _ _ _ _ _ Hheld)].
Qed.

(** Committing [next] over a journal that holds [c]. *)
Lemma transition_triple c next : next_ok next ->
  triple (every_media c) (transition_record j c next)
    (fun c' w => c' = advance c next /\ snapshot_generation c' = snapshot_generation c + 1 /\
       every_media (advance c next) w)
    (fun st w =>
       snapshot_generation c = UINT64_MAX /\ every_media c w \/
       snapshot_generation c <> UINT64_MAX /\
       snapshot_generation (advance c next) = snapshot_generation c + 1 /\
       all_media (fun x => holds dom x c \/ holds dom x (advance c next)) w /\
       (io_error p st \/ bytes_zero (record_identity (record_encode (successor c next))) = true)).
Proof.
  intros Hnext w Hw. pose proof (every_media_ok c w Hw) as (Hc & Hslot & Hd). revert w Hw.
  unfold transition_record.
  eapply triple_bind; [apply (triple_leave_if _ (fun w => snapshot_generation c <> UINT64_MAX /\ every_media c w))
    |cbn beta; intros []].
  { intros w Hw G. bool_to_prop. auto. }
  { intros w Hw G. bool_to_prop. by left. }
  apply triple_pure. intros Hgen. pose proof (successor_ok c next Hc Hnext Hgen) as Hs.
  pose proof (ok_generation _ Hc) as Hg. cbn in Hg.
  assert (Hu : u64 (snapshot_generation c + 1) = snapshot_generation c + 1) by (apply wrap_small, word64; lia).
  assert (Hrg : record_generation (successor c next) = snapshot_generation c + 1) by exact Hu.
  rewrite (wrap_small 32) by (apply word32; unfold UINT32_MAX; lia).
  pose proof (install_triple p j Hj Htorn (1 - snapshot_selected_slot c) (successor c next) ltac:(lia) Hs
    (fun x => holds dom x c) (fun x => holds dom x c)) as Ht.
  ospecialize (Ht _ _ _ _ _).
  - intros x b Hx Hh Hb Hcase. apply (holds_record_write dom (ready_domain _ _ Hj)); [exact Hx|exact Hb|exact Hh|].
    intros o Ho. destruct Hcase as [-> | Hn]; [|congruence]. rewrite record_decode_encode in Ho by done.
    injection Ho as <-. rewrite Hrg. lia.
  - auto.
  - intros x b Hx Hh Hb Hn. by apply (holds_selector_torn dom (ready_domain _ _ Hj)).
  - intros x Hx Hh Hrec Hz. pose proof Hh as Hheld.
    apply (holds_held dom (ready_domain _ _ Hj)) in Hheld as (s & Hheld); [|exact Hx].
    apply (holds_selector_new dom (ready_domain _ _ Hj)); [exact Hx|lia|exact Hs|exact Hd|by apply not_true_is_false|exact Hrec|..];
      replace (1 - (1 - snapshot_selected_slot c)) with (snapshot_selected_slot c) by lia; rewrite Hrg.
    + intros t Et. rewrite (held_selector _ _ _ _ _ Hheld) in Et. injection Et as <-.
      rewrite (held_generation _ _ _ _ _ Hheld). lia.
    + intros o Eo. rewrite (held_record _ _ _ _ _ Hheld) in Eo. injection Eo as <-. cbn. lia.
  - intros x c' [Hh _] Ho. fold dom in Ho. rewrite Hh in Ho. injection Ho as <-. rewrite Hrg. lia.
  - intros w Hw. specialize (Ht w Hw). destruct (commit_record _ _ _ _) as [w' [st|c']].
    + destruct Ht as [Hout Herr]. right. split_and!; [exact Hgen|exact Hrg|exact Hout|exact Herr].
    + destruct Ht as (-> & _ & Hi). by split_and!.
Qed.

(** An argument refused before the journal is opened. *)
Definition refused_early (o : op) : bool :=
  match o with
  | Rebind _ digest sequence | ConfirmBound _ digest sequence => bad_binding (Some digest) sequence
  | _ => false
  end.

(** Every operation opens the journal, decides, and commits. *)
Definition decide_and_commit (o : op) : M W RibonProtectedStateStatus RibonProtectedStateSnapshot :=
  c ← ribon_protected_state_open (Some j) true;
  match op_next o c with
  | inl status => leave status
  | inr None => mret c
  | inr (Some next) => transition_record j c next
  end.

Lemma run_op_decides o w : run_op j o w =
  if refused_early o then (w, inl RIBON_PROTECTED_STATE_STATUS_INVALID_ARGUMENT)
  else decide_and_commit o w.
Proof.
  unfold decide_and_commit, mbind, M_bind.
  destruct o as [candidate n [[digest sequence]|]|pending digest sequence|pending|pending|pending digest sequence|];
    cbn [run_op op_next refused_early].
  all: unfold ribon_protected_state_begin_bound_trial, ribon_protected_state_begin_trial, begin_trial,
    ribon_protected_state_rebind_trial_attempt, ribon_protected_state_consume_trial_attempt,
    ribon_protected_state_confirm, ribon_protected_state_confirm_bound, ribon_protected_state_fail_trial,
    open_and_transition, mbind, M_bind, leave_if, lift; cbn [negb orb default].
  3: destruct (bad_binding _ _); [done|].
  6: destruct (bad_binding _ _); [done|].
  all: cbn [mret M_ret]; destruct (ribon_protected_state_open (Some j) true w) as [w1 [st|c]]; [done|].
  6: destruct (already_confirmed _ _ _ _); [done|].
  1-2: by destruct (begin_trial_next _ _ _ _ c).
  - by destruct (rebind_next _ _ _ c).
  - by destruct (consume_next _ c).
  - by destruct (confirm_next _ c).
  - by destruct (confirm_bound_next _ _ _ c).
  - by destruct (fail_next c).
Qed.

(** A journal that holds [c] on every media holds, after an operation, the snapshot
    of one step of the machine, or, if the operation failed, that or [c]. *)
Lemma op_triple c o : op_typed o ->
  triple (every_media c) (run_op j o)
    (fun c' w => every_media c' w /\
       (step o (abs c) (abs c') /\ snapshot_generation c' = snapshot_generation c + 1 \/
        repeats o (abs c) /\ c' = c))
    (fun _ => all_media (fun x => holds dom x c \/
       exists c', step o (abs c) (abs c') /\ snapshot_generation c' = snapshot_generation c + 1 /\ holds dom x c')).
Proof.
  intros Ho w Hw. rewrite run_op_decides. pose proof (every_media_ok c w Hw) as (Hc & _).
  pose proof (op_next_refines c Hc o Ho) as Href.
  assert (Hkeep : forall w1, every_media c w1 -> all_media (fun x => holds dom x c \/ exists c',
    step o (abs c) (abs c') /\ snapshot_generation c' = snapshot_generation c + 1 /\ holds dom x c') w1)
    by (intros w1 H1; eapply media_impl, H1; auto).
  destruct (refused_early o); [by apply Hkeep|]. revert w Hw. unfold decide_and_commit.
  eapply triple_bind.
  { apply (open_triple p j Hj _ _ (media_steady p j _)); [intros st w _ Hw; by apply Hkeep|].
    intros st w Hw _. by apply Hkeep. }
  intros c1 w [Hw Hopen]. assert (c1 = c) as ->.
  { pose proof (all_media_now p j _ w Hw) as [H1 _]. fold dom in Hopen, H1. congruence. }
  destruct (op_next o c) as [st|[next|]].
  - by apply Hkeep.
  - destruct Href as [Hnext Hstep]. pose proof (transition_triple c next Hnext w Hw) as Ht.
    destruct (transition_record j c next w) as [w' [st|c']].
    + destruct Ht as [[_ Hout]|(_ & Hg & Hout & _)]; [by apply Hkeep|].
      eapply media_impl, Hout. intros x [H1|H1]; [by left|right]. by exists (advance c next).
    + destruct Ht as (-> & Hg & Hout). split; [exact Hout|by left].
  - split; [exact Hw|by right].
Qed.

(** With a provider that answers, a step the machine can take is taken. *)
Lemma op_completes c o next w : op_typed o -> reliable p -> every_media c w ->
  op_next o c = inr (Some next) -> snapshot_generation c <> UINT64_MAX ->
  bytes_zero (record_identity (record_encode (successor c next))) = false ->
  exists w', run_op j o w = (w', inr (advance c next)) /\ every_media (advance c next) w'.
Proof.
  intros Ho Hrel Hw Hnext Hgen Hz. rewrite run_op_decides. pose proof (every_media_ok c w Hw) as (Hc & _).
  pose proof (op_next_refines c Hc o Ho) as Href. rewrite Hnext in Href. destruct Href as [Hok _].
  assert (He : refused_early o = false).
  { destruct o; cbn in *; try done; by destruct (bytes_zero _ || _). }
  rewrite He. unfold decide_and_commit, mbind, M_bind.
  pose proof (open_triple p j Hj _ (fun _ _ => False) (media_steady p j (fun x => holds dom x c))) as Hopen.
  specialize (fun H1 H2 => Hopen H1 H2 w Hw). ospecialize (Hopen _ _).
  - intros st w1 [_ Hn] _. by apply Hn.
  - intros st w1 Hw1 Hbad. pose proof (all_media_now p j _ w1 Hw1) as [H1 _]. fold dom in Hbad, H1. congruence.
  - destruct (ribon_protected_state_open (Some j) true w) as [w1 [st|c1]]; [done|].
    destruct Hopen as [Hw1 Hc1]. assert (c1 = c) as ->.
    { pose proof (all_media_now p j _ w1 Hw1) as [H1 _]. fold dom in Hc1, H1. congruence. }
    rewrite Hnext. pose proof (transition_triple c next Hok w1 Hw1) as Ht.
    destruct (transition_record j c next w1) as [w' [st|c']].
    + destruct Ht as [[? _]|(_ & _ & _ & [[_ Hn]|H0])]; [done|by destruct Hn|congruence].
    + destruct Ht as (-> & _ & Hout). by exists w'.
Qed.
End Run.
