(* ===== verification/ProtectedProperties.v ===== *)
(** * Properties of the protected state

    Whole lives of a journal: operations that succeed, operations that fail or are
    cut by a power loss and followed by a restart from whatever the media kept.
    The floor never goes back, trials end, and domains do not interfere. *)

From S2P Require Import Prelude.
From S2P Require Import Effects.
From S2P Require Import Buffer.
From S2P Require Import Wire.
From S2P Require Import ProtectedWire.
From S2P Require Import ProtectedState.
From S2P Require Import ProtectedLogic.
From S2P Require Import ProtectedCrash.
From S2P Require Import ProtectedSpec.

#[local] Opaque record_encode selector_encode record_identity.

(** Attempts an operation grants to a trial, and attempts it uses up. *)
Definition grants (o : op) : Z := match o with Begin _ n _ => n | _ => 0 end.
Definition uses (o : op) : Z := match o with Consume _ => 1 | _ => 0 end.

Definition attempts_left (s : rollback) : Z := match current_phase s with Trial n => n | Confirmed => 0 end.

Lemma step_bounds o s s' : step o s s' ->
  floor s <= floor s' <= floor s + 1 /\
  attempts_left s' + uses o <= Z.max 0 (attempts_left s) + grants o.
Proof. intros H. destruct H; cbn in *; lia. Qed.

(** The floor moves only when its successor is confirmed. *)
Lemma step_floor o s s' : step o s s' -> floor s' <> floor s ->
  floor s' = floor s + 1 /\
  (o = Confirm (floor s + 1) \/ exists digest sequence, o = ConfirmBound (floor s + 1) digest sequence).
Proof. intros H Hne. destruct H; cbn in *; try lia; eauto. Qed.

Section Life.
Context {W : Type} (p : RibonProtectedStateProvider W) `{!ProtectedContract p}.
Context (j : RibonProtectedStateJournal W) (Hj : journal_ready j p) (Htorn : torn_rejected p).
Let dom := journal_domain_digest j.

(** Every media the domain may hold opens to [c]. *)
Definition settled (c : RibonProtectedStateSnapshot) : W -> Prop :=
  all_media p j (fun x => holds dom x c).

(** The world restarts from one of the media [w] may leave. *)
Definition restart (w w' : W) : Prop :=
  exists x, media_state p w dom x /\ forall y, media_state p w' dom y -> y = x.

(** A life of the journal from [c0]: [granted] counts the attempts of every trial
    that was asked for, [used] the attempts that were consumed. *)
Inductive life (c0 : RibonProtectedStateSnapshot) : Z -> Z -> W -> Prop :=
| life_start w : settled c0 w -> life c0 0 0 w
| life_op granted used w o w' c :
    life c0 granted used w -> op_typed o -> run_op j o w = (w', inr c) ->
    life c0 (granted + grants o) (used + uses o) w'
| life_cut granted used w o w1 status w2 :
    life c0 granted used w -> op_typed o -> run_op j o w = (w1, inl status) -> restart w1 w2 ->
    life c0 (granted + grants o) used w2
| life_restart granted used w w' :
    life c0 granted used w -> restart w w' -> life c0 granted used w'.

Lemma settled_restart c w w' : settled c w -> restart w w' -> settled c w'.
Proof. intros Hw (x & Hx & Hy) y H. rewrite (Hy y H). by apply Hw. Qed.

Lemma attempts_left_bounds c : record_ok (record_of c) -> 0 <= attempts_left (abs c) <= 32.
Proof. intros Hc. unfold attempts_left. destruct (snapshot_cases c Hc) as [(_ & _ & _ & ->)|(_ & _ & _ & ? & ->)]; lia. Qed.

Lemma grants_nonneg o : op_typed o -> 0 <= grants o.
Proof. destruct o; cbn; try lia. intros (_ & H & _). rewrite word32 in H. lia. Qed.

(** The media keep one snapshot through a life. *)
Lemma life_settled c0 granted used w : life c0 granted used w ->
  exists c, settled c w /\ snapshot_confirmed_floor c0 <= snapshot_confirmed_floor c /\
    snapshot_generation c0 <= snapshot_generation c /\
    used + attempts_left (abs c) <= attempts_left (abs c0) + granted.
Proof.
  induction 1 as [w Hw|granted used w o w' c1 _ (c & Hw & Hf & Hg & Hn) Ho Hrun
    |granted used w o w1 st w2 _ (c & Hw & Hf & Hg & Hn) Ho Hrun Hre
    |granted used w w' _ (c & Hw & Hrest) Hre].
  - exists c0. split_and!; [done|lia..].
  - pose proof (op_triple p j Hj Htorn c o Ho w Hw) as Ht. rewrite Hrun in Ht.
    destruct Ht as [Hw' [[Hstep Hgen]|[Hrep ->]]].
    + exists c1. apply step_bounds in Hstep as [Hfl Hat]. cbn [floor abs] in Hfl.
      pose proof (attempts_left_bounds c (proj1 (every_media_ok p j Hj c w Hw))).
      split_and!; [exact Hw'|lia..].
    + exists c. split; [exact Hw'|]. destruct Hrep. cbn [grants uses]. lia.
  - pose proof (op_triple p j Hj Htorn c o Ho w Hw) as Ht. rewrite Hrun in Ht. destruct Hre as (x & Hx & Hy).
    pose proof (grants_nonneg o Ho). pose proof (attempts_left_bounds c (proj1 (every_media_ok p j Hj c w Hw))).
    destruct (Ht x Hx) as [Hh|(c' & Hstep & Hgen & Hh)].
    + exists c. split_and!; [intros y Hm; by rewrite (Hy y Hm)|lia..].
    + exists c'. apply step_bounds in Hstep as [Hfl Hat]. cbn [floor abs] in Hfl.
      assert (0 <= uses o) by (destruct o; cbn; lia).
      split_and!; [intros y Hm; by rewrite (Hy y Hm)|lia..].
  - exists c. split; [by eapply settled_restart|done].
Qed.

(** What an authorisation says of the snapshot it opened. *)
Lemma authorize_triple c sequence :
  triple (settled c) (ribon_protected_state_authorize (Some j) sequence true)
    (fun d w => settled c w /\ decision_sequence d = sequence /\
       authority sequence c = inr (decision_authority d))
    (fun st w => settled c w /\ (authority sequence c = inl st \/ io_error p st)).
Proof.
  unfold ribon_protected_state_authorize.
  eapply triple_bind; [apply (triple_leave_if _ (settled c)); auto|cbn beta; intros []].
  { done. }
  eapply triple_bind.
  { apply (open_triple p j Hj _ _ (media_steady p j _)).
    - intros st w Hio Hw. split; [exact Hw|by right].
    - intros st w Hw Hbad. pose proof (all_media_now p j _ w Hw) as [H1 _]. fold dom in Hbad, H1. congruence. }
  intros c1 w [Hw Hopen]. assert (c1 = c) as ->.
  { pose proof (all_media_now p j _ w Hw) as [H1 _]. fold dom in Hopen, H1. congruence. }
  unfold mbind, M_bind, lift. destruct (authority sequence c) as [st|a] eqn:Ha.
  - split; [exact Hw|by left].
  - split_and!; [exact Hw|reflexivity|reflexivity].
Qed.

(** The sequences that may run. *)
Lemma authority_exact c sequence : record_ok (record_of c) ->
  match authority sequence c with
  | inr a =>
    a = RIBON_PROTECTED_STATE_AUTHORITY_CONFIRMED /\ sequence = snapshot_confirmed_floor c \/
    a = RIBON_PROTECTED_STATE_AUTHORITY_TRIAL /\ sequence = snapshot_confirmed_floor c + 1 /\
      0 < attempts_left (abs c)
  | inl _ =>
    sequence <> snapshot_confirmed_floor c /\
    (sequence = snapshot_confirmed_floor c + 1 -> attempts_left (abs c) = 0)
  end.
Proof.
  intros Hc. unfold authority, attempts_left, RIBON_PROTECTED_STATE_KIND_TRIAL, RIBON_PROTECTED_STATE_KIND_CONFIRMED.
  destruct (Z.eqb_spec sequence (snapshot_confirmed_floor c)) as [->|Hne]; [by left|].
  destruct (snapshot_cases c Hc) as [(-> & Hp & Hn & ->)|(-> & Hp & Hlt & Hn & ->)]; cbn [Z.eqb Pos.eqb andb].
  - by destruct (_ || _).
  - rewrite Hp. destruct (Z.eqb_spec sequence (snapshot_confirmed_floor c + 1)) as [->|].
    + destruct (Z.eqb_spec (snapshot_trial_attempts_remaining c) 0); [auto|right]. split_and!; [done..|lia].
    + by destruct (_ || _).
Qed.

(** C25: Every operation of a journal whose media hold a snapshot is a step of the
    rollback machine, whatever the provider answers and wherever the power fails:
    when it returns OK every media holds the next snapshot, and otherwise each
    media holds the old one or the next one.  A confirmation that is repeated
    returns the snapshot as it is. *)
Theorem protected_op_refines c o w : op_typed o -> settled c w ->
  match run_op j o w with
  | (w', inr c') => settled c' w' /\
    (step o (abs c) (abs c') /\ snapshot_generation c' = snapshot_generation c + 1 \/
     repeats o (abs c) /\ c' = c)
  | (w', inl _) =>
    forall x, media_state p w' dom x -> open_objects dom x = inr c \/
      exists c', step o (abs c) (abs c') /\ open_objects dom x = inr c'
  end.
Proof.
  intros Ho Hw. pose proof (op_triple p j Hj Htorn c o Ho w Hw) as Ht.
  destruct (run_op j o w) as [w' [st|c']]; [|exact Ht].
  intros x Hx. destruct (Ht x Hx) as [[H _]|(c' & Hs & _ & [H _])]; eauto.
Qed.

(** C26: Rollback is impossible: whatever operations, failures, power cuts and restarts
    follow, no sequence below the floor of an earlier snapshot is ever authorised
    again. *)
Theorem protected_no_rollback c0 granted used w sequence w' d :
  life c0 granted used w ->
  ribon_protected_state_authorize (Some j) sequence true w = (w', inr d) ->
  snapshot_confirmed_floor c0 <= sequence.
Proof.
  intros Hl Ha. apply life_settled in Hl as (c & Hw & Hf & _).
  pose proof (authorize_triple c sequence w Hw) as Ht. rewrite Ha in Ht. destruct Ht as (_ & _ & Hauth).
  pose proof (authority_exact c sequence (proj1 (every_media_ok p j Hj c w Hw))) as He. rewrite Hauth in He. lia.
Qed.

(** C28: Trials end: in a life of the journal no more attempts are consumed than were
    left at its start and granted since. *)
Theorem protected_attempts_bounded c0 granted used w : life c0 granted used w ->
  used <= attempts_left (abs c0) + granted.
Proof.
  intros Hl. apply life_settled in Hl as (c & Hw & _ & _ & Hn).
  pose proof (attempts_left_bounds c (proj1 (every_media_ok p j Hj c w Hw))). lia.
Qed.

(** An operation the machine allows succeeds when the provider answers: the next
    snapshot is returned and every media holds it.  The generation counter must not
    be exhausted, and the record's digest must not be all zero, which no selector
    can name. *)
Theorem protected_op_completes c o next w :
  op_typed o -> reliable p -> settled c w ->
  op_next o c = inr (Some next) -> snapshot_generation c < UINT64_MAX ->
  bytes_zero (record_identity (record_encode (successor c next))) = false ->
  exists w', run_op j o w = (w', inr (advance c next)) /\ settled (advance c next) w' /\
    step o (abs c) (abs (advance c next)).
Proof.
  intros Ho Hrel Hw Hnext Hg Hz.
  destruct (op_completes p j Hj Htorn c o next w Ho Hrel Hw Hnext ltac:(lia) Hz) as (w' & Hrun & Hw').
  exists w'. split_and!; [exact Hrun|exact Hw'|].
  pose proof (op_next_refines c (proj1 (every_media_ok p j Hj c w Hw)) o Ho) as Href. rewrite Hnext in Href. apply Href.
Qed.

(** An authorisation changes nothing and is exact: the floor is authorised as
    confirmed, its successor as a trial while attempts are left, and nothing else. *)
Theorem protected_authorize_exact c sequence w : settled c w ->
  match ribon_protected_state_authorize (Some j) sequence true w with
  | (w', inr d) => settled c w' /\ decision_sequence d = sequence /\
    (decision_authority d = RIBON_PROTECTED_STATE_AUTHORITY_CONFIRMED /\ sequence = snapshot_confirmed_floor c \/
     decision_authority d = RIBON_PROTECTED_STATE_AUTHORITY_TRIAL /\
       sequence = snapshot_confirmed_floor c + 1 /\ 0 < attempts_left (abs c))
  | (w', inl status) => settled c w' /\
    (io_error p status \/
     sequence <> snapshot_confirmed_floor c /\
     (sequence = snapshot_confirmed_floor c + 1 -> attempts_left (abs c) = 0))
  end.
Proof.
  intros Hw. pose proof (authorize_triple c sequence w Hw) as Ht.
  pose proof (authority_exact c sequence (proj1 (every_media_ok p j Hj c w Hw))) as He.
  destruct (ribon_protected_state_authorize _ _ _ w) as [w' [st|d]].
  - destruct Ht as [Hw' [Ha|Hio]]; [|by split; [|left]]. rewrite Ha in He. by split; [|right].
  - destruct Ht as (Hw' & Hs & Ha). rewrite Ha in He. by split_and!.
Qed.
End Life.

(** ** Provisioning *)

Section Provisioning.
Context {W : Type} (p : RibonProtectedStateProvider W) `{!ProtectedContract p}.
Context (j : RibonProtectedStateJournal W) (Hj : journal_ready j p) (Htorn : torn_rejected p).
Let dom := journal_domain_digest j.

(** No selector is valid, and the second record slot has nothing of generation 1. *)
Definition blank (x : objects) : Prop :=
  open_objects dom x = inl RIBON_PROTECTED_STATE_STATUS_UNINITIALIZED /\
  forall o, record_decode (record1 x) = Some o -> record_generation o <> 1.

Definition unprovisioned (x : objects) : Prop :=
  open_objects dom x = inl RIBON_PROTECTED_STATE_STATUS_UNINITIALIZED \/
  open_objects dom x = inl RIBON_PROTECTED_STATE_STATUS_CORRUPT.

(** The first record of a domain. *)
Definition first_record (confirmed_floor : Z) : RibonProtectedRecord :=
  mkRecord RIBON_PROTECTED_STATE_KIND_CONFIRMED confirmed_floor 0 0 1 dom (zeros 32) 0.

Lemma first_record_ok f : word 64 f -> record_ok (first_record f).
Proof.
  intros Hf. pose proof (ready_domain_nonzero j p Hj) as Hz. pose proof (ready_domain j p Hj) as [Hl Ho].
  constructor; cbn; auto; try (unfold UINT64_MAX; lia).
  - apply word64. unfold UINT64_MAX. lia.
  - split_and!; [done|apply octets_zeros|done].
Qed.

Lemma selectors_unused x : open_objects dom x = inl RIBON_PROTECTED_STATE_STATUS_UNINITIALIZED <->
  selector_state (selector0 x) = inl RIBON_PROTECTED_STATE_STATUS_UNINITIALIZED /\
  selector_state (selector1 x) = inl RIBON_PROTECTED_STATE_STATUS_UNINITIALIZED.
Proof.
  unfold open_objects, select_selector.
  assert (Hchk : forall s, check_record dom s x <> inl RIBON_PROTECTED_STATE_STATUS_UNINITIALIZED)
    by (intros s; unfold check_record; repeat case_match; congruence).
  destruct (selector_state (selector0 x)) as [e0|s0], (selector_state (selector1 x)) as [e1|s1].
  - destruct (_ && _) eqn:G; split; try done.
    + apply andb_true_iff in G as [G0 G1]. apply bool_decide_eq_true in G0, G1. by subst.
    + intros [[= ->] [= ->]]. by rewrite !bool_decide_true in G.
  - split; [intros H; by apply Hchk in H|by intros [_ ?]].
  - split; [intros H; by apply Hchk in H|by intros [? _]].
  - split; [|by intros [? _]]. destruct (_ && _); [done|]. destruct (_ <? _); intros H; by apply Hchk in H.
Qed.

Lemma provision_triple f : word 64 f ->
  triple (all_media p j blank) (ribon_protected_state_initialize (Some j) f)
    (fun c w => c = installs 0 (first_record f) /\ settled p j c w)
    (fun st w => all_media p j (fun x => unprovisioned x \/ holds dom x (installs 0 (first_record f))) w /\
       (io_error p st \/ bytes_zero (record_identity (record_encode (first_record f))) = true)).
Proof.
  intros Hf w Hw. unfold ribon_protected_state_initialize. pose proof (first_record_ok f Hf) as Hr.
  pose proof (open_triple p j Hj (all_media p j blank) (fun st w1 => all_media p j blank w1 /\
    (io_error p st \/ st = RIBON_PROTECTED_STATE_STATUS_UNINITIALIZED)) (media_steady p j _)) as Hopen.
  specialize (fun H1 H2 => Hopen H1 H2 w Hw). ospecialize (Hopen _ _).
  { intros st w1 Hio Hw1. split; [exact Hw1|by left]. }
  { intros st w1 Hw1 Hbad. split; [exact Hw1|right]. pose proof (all_media_now p j _ w1 Hw1) as [H1 _].
    fold dom in Hbad, H1. congruence. }
  destruct (ribon_protected_state_open (Some j) true w) as [w1 [st|c]].
  2:{ exfalso. destruct Hopen as [Hw1 Hbad]. pose proof (all_media_now p j _ w1 Hw1) as [H1 _].
      fold dom in Hbad, H1. congruence. }
  destruct Hopen as [Hw1 Hst].
  assert (Hkeep : all_media p j (fun x => unprovisioned x \/ holds dom x (installs 0 (first_record f))) w1).
  { eapply media_impl, Hw1. intros x [H1 _]. left. by left. }
  destruct Hst as [Hio| ->].
  { destruct Hio as [[-> | ->] Hn]; (split; [exact Hkeep|left; split; auto]). }
  fold dom. change (mkRecord RIBON_PROTECTED_STATE_KIND_CONFIRMED f 0 0 1 dom (zeros 32) 0) with (first_record f).
  pose proof (install_triple p j Hj Htorn 0 (first_record f) ltac:(by left) Hr blank unprovisioned) as Ht.
  ospecialize (Ht _ _ _ _ _).
  - intros x b Hx [Hu Ho] Hb _. destruct (put_record x 0 b ltac:(by left)) as (E1 & E2 & E3 & E4).
    change (1 - 0) with 1 in E2. split; [apply selectors_unused; rewrite E3, E4; by apply selectors_unused|].
    intros o Eo. apply Ho. rewrite <- Eo. by f_equal.
  - intros x [Hu _]. by left.
  - intros x b Hx [Hu _] Hb Hn. apply selectors_unused in Hu as [_ Hu1]. unfold unprovisioned, open_objects.
    destruct (put_selector x 0 b ltac:(by left)) as (E1 & E2 & _). unfold selector_at in E1, E2. cbn in E1, E2.
    unfold select_selector. cbn. rewrite Hu1. destruct (selector_state_none b Hn) as [st ->].
    destruct (_ && _); auto.
  - intros x Hx [Hu Ho] Hrec Hz. apply selectors_unused in Hu as [_ Hu1].
    apply (holds_selector_new dom (ready_domain _ _ Hj)); [exact Hx|by left|exact Hr|reflexivity|
      by apply not_true_is_false|exact Hrec|..]; change (1 - 0) with 1.
    + intros t Et. unfold selector_at in Et. cbn in Et. congruence.
    + intros o Eo. by apply Ho.
  - intros x c [Hu|Hu] Ho; fold dom in Ho; congruence.
  - specialize (Ht w1 Hw1). destruct (commit_record j 0 (first_record f) w1) as [w2 [st|c]].
    + destruct Ht as [Hout Herr]. split; [exact Hout|exact Herr].
    + destruct Ht as (-> & _ & Hi). by split.
Qed.

(** Provisioning an unused domain sets its floor durably, or leaves each media
    unprovisioned or provisioned; a domain that is in use is never provisioned
    again and keeps what it holds. *)
Theorem protected_initialize f w : word 64 f ->
  (all_media p j blank w ->
   match ribon_protected_state_initialize (Some j) f w with
   | (w', inr c) => settled p j c w' /\ abs c = mkRollback f Confirmed None /\ snapshot_generation c = 1
   | (w', inl _) => forall x, media_state p w' dom x ->
     unprovisioned x \/ exists c, open_objects dom x = inr c /\ abs c = mkRollback f Confirmed None
   end) /\
  (forall c, settled p j c w ->
   match ribon_protected_state_initialize (Some j) f w with
   | (w', inr _) => False
   | (w', inl status) => settled p j c w' /\
     (status = RIBON_PROTECTED_STATE_STATUS_ALREADY_INITIALIZED \/ io_error p status)
   end).
Proof.
  intros Hf. split.
  - intros Hw. pose proof (provision_triple f Hf w Hw) as Ht.
    destruct (ribon_protected_state_initialize (Some j) f w) as [w' [st|c]].
    + destruct Ht as [Hout _]. intros x Hx. destruct (Hout x Hx) as [|[Ho _]]; [by left|right; eauto].
    + destruct Ht as [-> Hs]. by split_and!.
  - intros c Hw. unfold ribon_protected_state_initialize.
    pose proof (open_triple p j Hj (settled p j c) (fun st w1 => settled p j c w1 /\ io_error p st)
      (media_steady p j _)) as Hopen.
    specialize (fun H1 H2 => Hopen H1 H2 w Hw). ospecialize (Hopen _ _).
    { by intros. }
    { intros st w1 Hw1 Hbad. pose proof (all_media_now p j _ w1 Hw1) as [H1 _]. fold dom in Hbad, H1. congruence. }
    destruct (ribon_protected_state_open (Some j) true w) as [w1 [st|c1]].
    + destruct Hopen as [Hw1 Hio]. destruct Hio as [[-> | ->] Hn]; (split; [exact Hw1|right; split; auto]).
    + destruct Hopen as [Hw1 _]. split; [exact Hw1|by left].
Qed.
End Provisioning.

(** ** Domains *)

Section Domains.
Context {W : Type} (p : RibonProtectedStateProvider W) `{!ProtectedContract p}.
Context (j : RibonProtectedStateJournal W) (Hp : journal_provider j = Some p).
Let dom := journal_domain_digest j.

(** The other domains are seen, and survive a power cut, as before. *)
Definition undisturbed (w w' : W) : Prop :=
  forall d, d <> dom -> content w' d = content w d /\
    forall x, media_state p w' d x -> media_state p w d x.

Definition isolated {A} (m : M W RibonProtectedStateStatus A) : Prop := forall w, undisturbed w (fst (m w)).

Lemma undisturbed_refl w : undisturbed w w.
Proof. intros d _. auto. Qed.

Lemma undisturbed_trans w1 w2 w3 : undisturbed w1 w2 -> undisturbed w2 w3 -> undisturbed w1 w3.
Proof.
  intros H1 H2 d Hd. destruct (H1 d Hd) as [E1 M1], (H2 d Hd) as [E2 M2]. split; [congruence|auto].
Qed.

Lemma undisturbed_intro w w' :
  (forall d, d <> dom -> content w' d = content w d /\
     forall x, crash w' d x -> crash w d x \/ x = content w d) -> undisturbed w w'.
Proof.
  intros H d Hd. destruct (H d Hd) as [Hc Hcr]. split; [done|]. intros x [-> | Hx]; [by left|].
  destruct (Hcr x Hx); [by right|by left].
Qed.

Lemma isolated_bind {A B} (m : M W RibonProtectedStateStatus A) (f : A -> M W RibonProtectedStateStatus B) :
  isolated m -> (forall a, isolated (f a)) -> isolated (m ≫= f).
Proof.
  intros Hm Hf w. specialize (Hm w). unfold mbind, M_bind. destruct (m w) as [w1 [st|a]]; [done|].
  eapply undisturbed_trans; [exact Hm|apply Hf].
Qed.

Lemma isolated_pure {A} (m : M W RibonProtectedStateStatus A) : (forall w, fst (m w) = w) -> isolated m.
Proof. intros H w. rewrite H. apply undisturbed_refl. Qed.

Lemma isolated_leave_if c st : isolated (leave_if c st).
Proof. apply isolated_pure. by destruct c. Qed.

Lemma isolated_read object slot size : isolated (provider_read j object slot size).
Proof.
  intros w. unfold provider_read. rewrite Hp. fold dom.
  destruct (call_read p w dom object slot (zeros size)) as [w' [st b]] eqn:Hc. cbn [fst].
  apply undisturbed_intro. intros d Hd. destruct (read_frame w dom object slot _ w' _ d Hd Hc) as [? H]. auto.
Qed.

Lemma isolated_write object slot b : isolated (provider_write j object slot b).
Proof.
  intros w. unfold provider_write. rewrite Hp. fold dom.
  destruct (call_write p w dom object slot b) as [w' st] eqn:Hc. cbn [fst].
  apply undisturbed_intro. intros d Hd. destruct (write_frame w dom object slot _ w' _ d Hd Hc) as [? H]. auto.
Qed.

Lemma isolated_flush : isolated (provider_flush j).
Proof.
  intros w. unfold provider_flush. rewrite Hp. fold dom.
  destruct (call_flush p w dom) as [w' st] eqn:Hc. cbn [fst].
  apply undisturbed_intro. intros d Hd. apply flush_law in Hc as (Hcw & Hcr & _). split; [apply Hcw|apply Hcr].
Qed.

Create HintDb isolated discriminated.
Hint Resolve isolated_read isolated_write isolated_flush isolated_leave_if : isolated.

Ltac isolate :=
  repeat first [ apply isolated_bind; [|intros ?] | apply isolated_pure; done
               | solve [auto with isolated] | case_match ].

Lemma isolated_open snapshot : isolated (ribon_protected_state_open (Some j) snapshot).
Proof. unfold ribon_protected_state_open, open_checked. isolate. Qed.
Hint Resolve isolated_open : isolated.

Lemma isolated_commit slot r : isolated (commit_record j slot r).
Proof. unfold commit_record. isolate. Qed.
Hint Resolve isolated_commit : isolated.

Lemma isolated_transition c next : isolated (transition_record j c next).
Proof. unfold transition_record. isolate. Qed.
Hint Resolve isolated_transition : isolated.

Lemma isolated_run_op o : isolated (run_op j o).
Proof.
  intros w. rewrite run_op_decides. destruct (refused_early o); [apply undisturbed_refl|].
  apply (isolated_bind (ribon_protected_state_open (Some j) true)); [apply isolated_open|]. intros c.
  isolate.
Qed.

(** The domains of a product share a provider and do not interfere: an operation on
    one, whatever comes of it, changes neither what another reads nor what a power
    cut can leave of it. *)
Theorem protected_domains_isolated o sequence f w :
  undisturbed w (fst (run_op j o w)) /\
  undisturbed w (fst (ribon_protected_state_authorize (Some j) sequence true w)) /\
  undisturbed w (fst (ribon_protected_state_initialize (Some j) f w)).
Proof.
  split_and!.
  - apply isolated_run_op.
  - revert w. unfold ribon_protected_state_authorize. isolate.
  - unfold ribon_protected_state_initialize. pose proof (isolated_open true w) as Ho.
    destruct (ribon_protected_state_open (Some j) true w) as [w1 [st|c]]; [|exact Ho].
    destruct st; try exact Ho. eapply undisturbed_trans; [exact Ho|]. apply isolated_commit.
Qed.
End Domains.

(** ** The codec *)

(** A record or selector the engine can hold is read back as it was written, and
    the bytes are octets of the object's size; what the decoders accept is a state
    the engine can hold. *)
Theorem protected_codec_roundtrip r s b : record_ok r -> selector_ok s -> object_bytes b ->
  record_decode (record_encode r) = Some r /\ object_bytes (record_encode r) /\
  selector_decode (selector_encode s) = Some s /\ object_bytes (selector_encode s) /\
  (forall r', record_decode b = Some r' -> record_ok r') /\
  (forall s', selector_decode b = Some s' -> selector_ok s').
Proof.
  intros Hr Hs [Hl Ho]. split_and!.
  - by apply record_decode_encode.
  - split; [apply len_record_encode|by apply octets_record_encode].
  - by apply selector_decode_encode.
  - split; [apply len_selector_encode|by apply octets_selector_encode].
  - intros r'. by apply record_decode_ok.
  - intros s'. by apply selector_decode_ok.
Qed.

(** ** Boot attempts *)

(** The engine does not keep attempt sequences increasing by itself: a new bound
    trial may carry any positive sequence, whatever attempt the confirmed state
    remembers, and a trial that was opened unbound can be bound afterwards. *)
Theorem protected_attempt_history_unchecked c n digest sequence :
  record_ok (record_of c) -> bytes_zero digest = false -> sequence <> 0 ->
  0 < n <= RIBON_PROTECTED_STATE_MAX_TRIAL_ATTEMPTS -> snapshot_confirmed_floor c < UINT64_MAX ->
  (snapshot_kind c = RIBON_PROTECTED_STATE_KIND_CONFIRMED ->
   exists next, op_next (Begin (snapshot_confirmed_floor c + 1) n (Some (digest, sequence))) c =
       inr (Some next) /\ record_attempt_sequence next = sequence) /\
  (snapshot_kind c = RIBON_PROTECTED_STATE_KIND_TRIAL -> bound (abs c) = None ->
   0 < snapshot_trial_attempts_remaining c -> 0 < sequence ->
   exists next, op_next (Rebind (snapshot_confirmed_floor c + 1) digest sequence) c = inr (Some next) /\
     record_attempt_sequence next = sequence).
Proof.
  intros Hc Hz Hs Hn Hf. pose proof (ok_confirmed _ Hc) as Hw. cbn in Hw. rewrite word64 in Hw.
  pose proof (proj2 (Z.eqb_neq sequence 0) Hs) as Hs'. split.
  - intros Hk. eexists. cbn [op_next]. unfold begin_trial_next. rewrite Hk, Z.eqb_refl. cbn [negb].
    rewrite (proj2 (Z.eqb_neq (snapshot_confirmed_floor c) UINT64_MAX)) by lia.
    rewrite (wrap_small 64) by (apply word64; lia). rewrite Z.eqb_refl. cbn [negb].
    rewrite (proj2 (Z.eqb_neq n 0)), (proj2 (Z.ltb_ge RIBON_PROTECTED_STATE_MAX_TRIAL_ATTEMPTS n)) by lia.
    cbn [orb]. rewrite Hz, Hs'. by split.
  - intros Hk Hb Hleft Hpos. eexists. cbn [op_next bad_binding]. rewrite Hz, Hs'. cbn [orb].
    destruct (snapshot_bound c Hc) as [(Hq & _)|(_ & _ & Hb')]; [|congruence].
    destruct (snapshot_cases c Hc) as [(Hk' & _)|(_ & Hp & _)];
      [unfold RIBON_PROTECTED_STATE_KIND_TRIAL in Hk; lia|].
    unfold rebind_next. rewrite Hk, Hp, !Z.eqb_refl. cbn [negb orb].
    rewrite (proj2 (Z.eqb_neq (snapshot_trial_attempts_remaining c) 0)) by lia.
    rewrite Hq, (proj2 (Z.leb_gt sequence 0)) by lia. by split.
Qed.
