(* ===== verification/ProtectedFixture.v ===== *)
(** * A concrete protected-state provider

    A provider in memory, like that of the host tests
    ([tests/security/protected_state_tests.c]): each domain has a volatile and a
    durable copy of its four objects.  It meets the contract, so the theorems
    proved against the contract apply to it, and the examples below run on it. *)

From S2P Require Import Prelude.
From S2P Require Import Effects.
From S2P Require Import Buffer.
From S2P Require Import Wire.
From S2P Require Import CString.
From S2P Require Import ProtectedWire.
From S2P Require Import ProtectedState.
From S2P Require Import ProtectedLogic.
From S2P Require Import ProtectedCrash.
From S2P Require Import ProtectedSpec.
From S2P Require Import ProtectedProperties.

Definition object_bytesb (b : bytes) : bool := (len b =? 160) && octetsb b.

Lemma object_bytesb_spec b : object_bytesb b = true -> object_bytes b.
Proof. unfold object_bytesb. intros H. bool_to_prop. split; [done|by apply octetsb_octets]. Qed.

Definition objects_okb (x : objects) : bool :=
  object_bytesb (record0 x) && object_bytesb (record1 x) && object_bytesb (selector0 x) &&
  object_bytesb (selector1 x).

(** Unused objects are clear. *)
Definition clear : objects := mkObjects (zeros 160) (zeros 160) (zeros 160) (zeros 160).

Definition sane (x : objects) : objects := if objects_okb x then x else clear.

Lemma sane_ok x : objects_ok (sane x).
Proof.
  assert (H : forall y, objects_okb y = true -> objects_ok y).
  { intros y Hy. unfold objects_okb in Hy. bool_to_prop. by constructor; apply object_bytesb_spec. }
  unfold sane. destruct (objects_okb x) eqn:E; apply H; [done|reflexivity].
Qed.

(** The volatile and the durable copy of each domain. *)
Definition store : Type := (bytes -> objects) * (bytes -> objects).

Definition at_domain (f : bytes -> objects) (d : bytes) (x : objects) : bytes -> objects :=
  fun d' => if bool_decide (d' = d) then x else f d'.

Definition fixture_read (w : store) (d : bytes) (object slot : Z) (b : bytes) : store * (Z * bytes) :=
  (w, (0, object_at (sane (w.1 d)) object slot)).

Definition fixture_write (w : store) (d : bytes) (object slot : Z) (b : bytes) : store * Z :=
  let x := put (sane (w.1 d)) object slot b in
  if objects_okb x then ((at_domain w.1 d x, w.2), 0) else (w, -2).

Definition fixture_flush (w : store) (d : bytes) : store * Z :=
  ((w.1, at_domain w.2 d (sane (w.1 d))), 0).

(** Its identifier is "fixture". *)
Definition fixture : RibonProtectedStateProvider store :=
  mkProvider RIBON_PROTECTED_STATE_PROVIDER_MAGIC sizeof_RibonProtectedStateProvider
    RIBON_PROTECTED_STATE_ABI_VERSION RIBON_PROTECTED_STATE_PROVIDER_CLASS_FIXTURE 0
    RIBON_PROTECTED_STATE_RECORD_SLOTS RIBON_PROTECTED_STATE_RECORD_SLOTS 0
    RIBON_PROTECTED_STATE_RECORD_BYTES RIBON_PROTECTED_STATE_SELECTOR_BYTES
    (Some [102; 105; 120; 116; 117; 114; 101]) 1
    (Some fixture_read) (Some fixture_write) (Some fixture_flush) [0; 0; 0; 0].

Lemma sane_id x : objects_okb x = true -> sane x = x.
Proof. unfold sane. by intros ->. Qed.

Lemma object_bytes_b b : object_bytes b -> object_bytesb b = true.
Proof.
  intros [Hl Ho]. unfold object_bytesb. rewrite Hl, Z.eqb_refl. unfold octetsb. cbn [andb].
  apply forallb_forall. intros x Hx. unfold octets in Ho. rewrite List.Forall_forall in Ho. specialize (Ho x Hx).
  rewrite word8 in Ho. apply andb_true_iff. rewrite Z.leb_le, Z.ltb_lt. lia.
Qed.

Lemma objects_ok_b x : objects_ok x -> objects_okb x = true.
Proof. intros []. unfold objects_okb. by rewrite !object_bytes_b. Qed.

#[global] Instance fixture_contract : ProtectedContract fixture.
Proof.
  refine {| content := fun w d => sane (w.1 d); crash := fun w d x => x = sane (w.2 d);
            tears := fun old new r => r = old |}.
  - intros w d. apply sane_ok.
  - intros w d x ->. apply sane_ok.
  - by intros old new r ->.
  - intros w d object slot b w' r d' _ H. change (fixture_read w d object slot b = (w', r)) in H.
    injection H as <- _. auto.
  - intros w d object slot b w' r d' Hd H. change (fixture_write w d object slot b = (w', r)) in H.
    unfold fixture_write in H. destruct (objects_okb _); injection H as <- _; [|auto].
    unfold at_domain. cbn [fst snd]. rewrite bool_decide_false by done. auto.
  - intros w d object slot b w' st out _ _ H. change (fixture_read w d object slot b = (w', (st, out))) in H.
    injection H as <- <- <-. auto.
  - intros w d object slot b w' st Hn Hb H. change (fixture_write w d object slot b = (w', st)) in H.
    assert (Hok : objects_okb (put (sane (w.1 d)) object slot b) = true)
      by (apply objects_ok_b, put_ok; [apply sane_ok|done]).
    unfold fixture_write in H. rewrite Hok in H. injection H as <- <-. unfold at_domain. cbn [fst snd].
    rewrite bool_decide_true, (sane_id _ Hok) by done. split_and!; [done|by exists b; auto|].
    intros x ->. exists (sane (w.2 d)), (object_at (sane (w.2 d)) object slot). split_and!; [done|by rewrite put_id|auto].
  - intros w d w' st H. change (fixture_flush w d = (w', st)) in H. injection H as <- <-. unfold at_domain. cbn [fst snd].
    assert (Hs : sane (sane (w.1 d)) = sane (w.1 d)) by apply sane_id, objects_ok_b, sane_ok.
    split_and!; [done|..].
    + intros d' x ->. destruct (decide (d' = d)) as [->|]; [rewrite bool_decide_true by done|rewrite bool_decide_false by done]; auto.
    + intros _ x ->. by rewrite bool_decide_true.
Defined.

Lemma fixture_reliable : reliable fixture.
Proof.
  constructor.
  - intros w d object slot b _ _. eexists _, _. reflexivity.
  - intros w d object slot b Hn Hb. eexists. change (call_write fixture w d object slot b) with (fixture_write w d object slot b).
    unfold fixture_write. rewrite objects_ok_b; [reflexivity|]. apply put_ok; [apply sane_ok|done].
  - intros w d. eexists. reflexivity.
Qed.

Lemma fixture_torn : torn_rejected fixture.
Proof. intros old new r ->. by left. Qed.

(** ** A provisioned domain *)

#[local] Opaque record_encode selector_encode record_identity.

Definition sample_domain : bytes := 1 :: zeros 31.

Definition sample_journal : RibonProtectedStateJournal store :=
  mkJournal sizeof_RibonProtectedStateJournal RIBON_PROTECTED_STATE_ABI_VERSION (Some fixture)
    sample_domain [0; 0; 0; 0].

Lemma sample_ready : journal_ready sample_journal fixture.
Proof. constructor; [reflexivity|reflexivity|]. split; [reflexivity|]. by apply octetsb_octets. Qed.

(** The domain as provisioned with floor 5. *)
Definition sample_record : RibonProtectedRecord := first_record sample_journal 5.
Definition sample_snapshot : RibonProtectedStateSnapshot := installs 0 sample_record.

Definition sample_objects : objects :=
  put (put clear RIBON_PROTECTED_STATE_OBJECT_RECORD 0 (record_encode sample_record))
    RIBON_PROTECTED_STATE_OBJECT_SELECTOR 0 (selector_encode (selector_for 0 sample_record)).

Definition both (x : objects) : store := (fun _ => x, fun _ => x).

Lemma sample_record_ok : record_ok sample_record.
Proof. apply (first_record_ok fixture); [apply sample_ready|by apply word64]. Qed.

Lemma sample_identity : bytes_zero (record_identity (record_encode sample_record)) = false.
Proof. vm_compute. reflexivity. Qed.

Lemma clear_ok : objects_ok clear.
Proof. apply (sane_ok clear). Qed.

Lemma sample_record_written :
  objects_ok (put clear RIBON_PROTECTED_STATE_OBJECT_RECORD 0 (record_encode sample_record)).
Proof.
  apply put_ok; [apply clear_ok|]. split; [apply len_record_encode|apply octets_record_encode, sample_record_ok].
Qed.

Lemma sample_selector_ok : selector_ok (selector_for 0 sample_record).
Proof. apply selector_for_ok; [by left|apply sample_record_ok|apply sample_identity]. Qed.

Lemma sample_objects_ok : objects_ok sample_objects.
Proof.
  apply put_ok; [apply sample_record_written|].
  split; [apply len_selector_encode|apply octets_selector_encode, sample_selector_ok].
Qed.

Lemma sample_holds : holds sample_domain sample_objects sample_snapshot.
Proof.
  apply holds_selector_new; [apply (ready_domain _ _ sample_ready)|apply sample_record_written|by left|
    apply sample_record_ok|reflexivity|apply sample_identity|reflexivity|..].
  - intros t Ht. vm_compute in Ht. discriminate Ht.
  - intros o Ho. vm_compute in Ho. discriminate Ho.
Qed.

(** What both copies of every domain hold. *)
Lemma both_media (P : objects -> Prop) x : objects_ok x -> P x -> all_media fixture sample_journal P (both x).
Proof.
  intros Hx HP y Hy. assert (y = x) as ->; [|done].
  destruct Hy as [-> | ->]; apply sane_id, objects_ok_b, Hx.
Qed.

Lemma sample_settled : settled fixture sample_journal sample_snapshot (both sample_objects).
Proof. apply both_media; [apply sample_objects_ok|apply sample_holds]. Qed.

(** A trial of sequence 6 is opened with three attempts and one is used. *)
Definition trial_record (n : Z) : RibonProtectedRecord :=
  next_record RIBON_PROTECTED_STATE_KIND_TRIAL 5 6 n (zeros 32) 0.
Definition trial_snapshot : RibonProtectedStateSnapshot := advance sample_snapshot (trial_record 3).
Definition used_snapshot : RibonProtectedStateSnapshot := advance trial_snapshot (trial_record 2).

Lemma trial_typed : op_typed (Begin 6 3 None).
Proof. split_and!; [by apply word64|by apply word32|done]. Qed.

Lemma trial_identity :
  bytes_zero (record_identity (record_encode (successor sample_snapshot (trial_record 3)))) = false.
Proof. vm_compute. reflexivity. Qed.

Lemma used_identity :
  bytes_zero (record_identity (record_encode (successor trial_snapshot (trial_record 2)))) = false.
Proof. vm_compute. reflexivity. Qed.

Lemma trial_decided : op_next (Begin 6 3 None) sample_snapshot = inr (Some (trial_record 3)).
Proof. reflexivity. Qed.

Lemma used_typed : op_typed (Consume 6).
Proof. by apply word64. Qed.

Lemma used_decided : op_next (Consume 6) trial_snapshot = inr (Some (trial_record 2)).
Proof. reflexivity. Qed.

Lemma used_generation : snapshot_generation trial_snapshot <> UINT64_MAX.
Proof. intros H. discriminate H. Qed.

Lemma sample_life : exists w,
  life fixture sample_journal sample_snapshot 3 1 w /\ settled fixture sample_journal used_snapshot w.
Proof.
  destruct (op_completes fixture sample_journal sample_ready fixture_torn sample_snapshot (Begin 6 3 None)
    (trial_record 3) (both sample_objects) trial_typed fixture_reliable sample_settled trial_decided
    ltac:(done) trial_identity) as (w1 & Hrun1 & Hw1).
  destruct (op_completes fixture sample_journal sample_ready fixture_torn trial_snapshot (Consume 6)
    (trial_record 2) w1 used_typed fixture_reliable Hw1 used_decided used_generation used_identity) as (w2 & Hrun2 & Hw2).
  exists w2. split; [|exact Hw2]. change (life fixture sample_journal sample_snapshot
    (0 + grants (Begin 6 3 None) + grants (Consume 6)) (0 + uses (Begin 6 3 None) + uses (Consume 6)) w2).
  eapply life_op; [|apply used_typed|exact Hrun2]. eapply life_op; [|apply trial_typed|exact Hrun1].
  apply life_start, sample_settled.
Qed.

Lemma sample_authorized w : settled fixture sample_journal used_snapshot w ->
  exists w' d, ribon_protected_state_authorize (Some sample_journal) 6 true w = (w', inr d).
Proof.
  intros Hw. pose proof (authorize_triple fixture sample_journal sample_ready used_snapshot 6 w Hw) as Ht.
  destruct (ribon_protected_state_authorize _ _ _ w) as [w' [st|d]]; [|by eexists _, _].
  destruct Ht as [_ [Ha|[_ Hn]]]; [discriminate Ha|]. destruct (Hn fixture_reliable).
Qed.

(** ** The properties on the provider *)

Lemma protected_op_refines_witness : exists w' r,
  let o := Begin 6 3 None in
  op_typed o /\ settled fixture sample_journal sample_snapshot (both sample_objects) /\
  run_op sample_journal o (both sample_objects) = (w', r) /\
  match r with
  | inr c' => settled fixture sample_journal c' w' /\
    (step o (abs sample_snapshot) (abs c') /\
       snapshot_generation c' = snapshot_generation sample_snapshot + 1 \/
     repeats o (abs sample_snapshot) /\ c' = sample_snapshot)
  | inl _ =>
    forall x, media_state fixture w' sample_domain x -> open_objects sample_domain x = inr sample_snapshot \/
      exists c', step o (abs sample_snapshot) (abs c') /\ open_objects sample_domain x = inr c'
  end.
Proof.
  pose proof (protected_op_refines fixture sample_journal sample_ready fixture_torn sample_snapshot
    (Begin 6 3 None) (both sample_objects) trial_typed sample_settled) as H.
  destruct (run_op sample_journal (Begin 6 3 None) (both sample_objects)) as [w' r] eqn:E. exists w', r.
  split; [exact trial_typed|split; [exact sample_settled|split; [exact E|exact H]]].
Defined.

Lemma protected_no_rollback_witness : exists w w' d,
  life fixture sample_journal sample_snapshot 3 1 w /\
  ribon_protected_state_authorize (Some sample_journal) 6 true w = (w', inr d) /\
  snapshot_confirmed_floor sample_snapshot <= 6.
Proof.
  destruct sample_life as (w & Hl & Hw). destruct (sample_authorized w Hw) as (w' & d & Ha).
  exists w, w', d. split; [exact Hl|split; [exact Ha|]].
  exact (protected_no_rollback fixture sample_journal sample_ready fixture_torn sample_snapshot 3 1 w 6 w' d Hl Ha).
Defined.

Lemma protected_attempts_bounded_witness : exists w,
  life fixture sample_journal sample_snapshot 3 1 w /\ 1 <= attempts_left (abs sample_snapshot) + 3.
Proof.
  destruct sample_life as (w & Hl & _). exists w. split; [exact Hl|].
  exact (protected_attempts_bounded fixture sample_journal sample_ready fixture_torn sample_snapshot 3 1 w Hl).
Defined.

Lemma protected_op_completes_witness : exists w',
  run_op sample_journal (Begin 6 3 None) (both sample_objects) = (w', inr trial_snapshot) /\
  settled fixture sample_journal trial_snapshot w' /\
  step (Begin 6 3 None) (abs sample_snapshot) (abs trial_snapshot).
Proof.
  assert (Hg : snapshot_generation sample_snapshot < UINT64_MAX) by (vm_compute; reflexivity).
  exact (protected_op_completes fixture sample_journal sample_ready fixture_torn sample_snapshot (Begin 6 3 None)
    (trial_record 3) (both sample_objects) trial_typed fixture_reliable sample_settled trial_decided Hg
    trial_identity).
Defined.

Lemma protected_authorize_exact_witness : exists w' r,
  settled fixture sample_journal sample_snapshot (both sample_objects) /\
  ribon_protected_state_authorize (Some sample_journal) 5 true (both sample_objects) = (w', r) /\
  match r with
  | inr d => settled fixture sample_journal sample_snapshot w' /\ decision_sequence d = 5 /\
    (decision_authority d = RIBON_PROTECTED_STATE_AUTHORITY_CONFIRMED /\
       5 = snapshot_confirmed_floor sample_snapshot \/
     decision_authority d = RIBON_PROTECTED_STATE_AUTHORITY_TRIAL /\
       5 = snapshot_confirmed_floor sample_snapshot + 1 /\ 0 < attempts_left (abs sample_snapshot))
  | inl status => settled fixture sample_journal sample_snapshot w' /\
    (io_error fixture status \/
     5 <> snapshot_confirmed_floor sample_snapshot /\
     (5 = snapshot_confirmed_floor sample_snapshot + 1 -> attempts_left (abs sample_snapshot) = 0))
  end.
Proof.
  pose proof (protected_authorize_exact fixture sample_journal sample_ready sample_snapshot 5
    (both sample_objects) sample_settled) as H.
  destruct (ribon_protected_state_authorize (Some sample_journal) 5 true (both sample_objects)) as [w' r].
  exists w', r. split; [exact sample_settled|split; [reflexivity|exact H]].
Defined.

Lemma clear_blank : all_media fixture sample_journal (blank sample_journal) (both clear).
Proof.
  apply both_media; [apply clear_ok|]. split; [vm_compute; reflexivity|].
  intros o Ho. vm_compute in Ho. discriminate Ho.
Qed.

Lemma protected_initialize_witness : exists w' r,
  all_media fixture sample_journal (blank sample_journal) (both clear) /\
  ribon_protected_state_initialize (Some sample_journal) 5 (both clear) = (w', r) /\
  match r with
  | inr c => settled fixture sample_journal c w' /\ abs c = mkRollback 5 Confirmed None /\
    snapshot_generation c = 1
  | inl _ => forall x, media_state fixture w' sample_domain x ->
    unprovisioned sample_journal x \/
    exists c, open_objects sample_domain x = inr c /\ abs c = mkRollback 5 Confirmed None
  end.
Proof.
  pose proof (proj1 (protected_initialize fixture sample_journal sample_ready fixture_torn 5 (both clear)
    ltac:(by apply word64)) clear_blank) as H.
  destruct (ribon_protected_state_initialize (Some sample_journal) 5 (both clear)) as [w' r].
  exists w', r. split; [exact clear_blank|split; [reflexivity|exact H]].
Defined.

Lemma protected_domains_isolated_witness :
  journal_provider sample_journal = Some fixture /\
  undisturbed fixture sample_journal (both sample_objects)
    (fst (run_op sample_journal (Begin 6 3 None) (both sample_objects))).
Proof.
  split; [reflexivity|].
  exact (proj1 (protected_domains_isolated fixture sample_journal eq_refl (Begin 6 3 None) 5 5
    (both sample_objects))).
Defined.

Lemma protected_codec_roundtrip_witness :
  record_decode (record_encode sample_record) = Some sample_record /\
  selector_decode (selector_encode (selector_for 0 sample_record)) = Some (selector_for 0 sample_record).
Proof.
  destruct (protected_codec_roundtrip sample_record (selector_for 0 sample_record) (zeros 160)
    sample_record_ok sample_selector_ok (ok_record0 clear clear_ok)) as (Hr & _ & Hs & _).
  split; [exact Hr|exact Hs].
Defined.

(** The provisioned state may open a trial bound to any attempt sequence. *)
Lemma protected_attempt_history_unchecked_witness :
  exists next, op_next (Begin 6 3 (Some (sample_domain, 9))) sample_snapshot = inr (Some next) /\
    record_attempt_sequence next = 9.
Proof.
  assert (Hr : record_ok (record_of sample_snapshot)) by (unfold sample_snapshot, installs;
    rewrite record_of_snapshot; apply sample_record_ok).
  exact (proj1 (protected_attempt_history_unchecked sample_snapshot 3 sample_domain 9 Hr eq_refl
    ltac:(lia) ltac:(unfold RIBON_PROTECTED_STATE_MAX_TRIAL_ATTEMPTS; lia) ltac:(vm_compute; reflexivity)) eq_refl).
Defined.
