(* ===== verification/ConfirmationWire.v ===== *)
(** * Boot confirmation: the envelope and the attempt binding
      ([src/update/confirmation.c])

    The canonical signed envelope in which a booted system reports its health, its
    writer and its independent reader, and the digest that binds a boot attempt to
    one exact identity and nonce.  A pointer with its size is an optional byte list
    and a number. *)

From S2P Require Import Prelude.
From S2P Require Import Buffer.
From S2P Require Import Wire.
From S2P Require Import Sha256.
From S2P Require Import SlotMetadata.
From S2P Require Import Signature.
From S2P Require Import KeyPolicy.

Definition RIBON_BOOT_CONFIRMATION_ABI_VERSION : Z := 1.
Definition RIBON_BOOT_CONFIRMATION_HEADER_BYTES : Z := 256.
Definition RIBON_BOOT_CONFIRMATION_MAX_WIRE_BYTES : Z := 2048.
Definition RIBON_BOOT_CONFIRMATION_MAX_PRODUCT_ID_BYTES : Z := 128.
Definition RIBON_BOOT_CONFIRMATION_MAX_PROTOCOL_ID_BYTES : Z := 64.
Definition RIBON_BOOT_CONFIRMATION_MAX_KEY_ID_BYTES : Z := 64.
Definition RIBON_BOOT_CONFIRMATION_MAX_HEALTH_BYTES : Z := 1024.
Definition RIBON_BOOT_CONFIRMATION_NONCE_BYTES : Z := 32.
Definition sizeof_RibonBootConfirmationEnvelopeSource : Z := 280.
Definition sizeof_RibonBootConfirmationEnvelopeView : Z := 240.
Definition sizeof_RibonBootAttemptIdentity : Z := 208.

Inductive RibonBootConfirmationStatus :=
| RIBON_BOOT_CONFIRMATION_STATUS_OK
| RIBON_BOOT_CONFIRMATION_STATUS_DUPLICATE
| RIBON_BOOT_CONFIRMATION_STATUS_INVALID_ARGUMENT
| RIBON_BOOT_CONFIRMATION_STATUS_MALFORMED
| RIBON_BOOT_CONFIRMATION_STATUS_IDENTITY
| RIBON_BOOT_CONFIRMATION_STATUS_STALE
| RIBON_BOOT_CONFIRMATION_STATUS_AUTHENTICATOR
| RIBON_BOOT_CONFIRMATION_STATUS_HEALTH_REJECTED
| RIBON_BOOT_CONFIRMATION_STATUS_PROTECTED_STATE
| RIBON_BOOT_CONFIRMATION_STATUS_UPDATE_STATE
| RIBON_BOOT_CONFIRMATION_STATUS_ATTEMPTS_EXHAUSTED
| RIBON_BOOT_CONFIRMATION_STATUS_OVERFLOW.

#[global] Instance RibonBootConfirmationStatus_eq_dec : EqDecision RibonBootConfirmationStatus.
Proof. solve_decision. Defined.

(** "RIBON-BOOT-CONFIRM-ENV-V1", padded with zeros *)
Definition envelope_magic : bytes :=
  [82; 73; 66; 79; 78; 45; 66; 79; 79; 84; 45; 67; 79; 78; 70; 73; 82; 77; 45; 69; 78; 86; 45; 86; 49] ++ zeros 7.

(** "RIBON-BOOT-ATTEMPT-BIND-V1", padded with zeros *)
Definition binding_domain : bytes :=
  [82; 73; 66; 79; 78; 45; 66; 79; 79; 84; 45; 65; 84; 84; 69; 77; 80; 84; 45; 66; 73; 78; 68; 45; 86; 49] ++ zeros 6.

Record RibonBootConfirmationEnvelopeSource := mkEnvelopeSource {
  source_size : Z;
  source_abi_version : Z;
  source_flags : Z;
  source_slot_id : Z;
  source_protocol_major : Z;
  source_protocol_minor : Z;
  source_policy_version : Z;
  source_reserved0 : Z;
  source_image_generation : Z;
  source_manifest_sequence : Z;
  source_attempt_sequence : Z;
  source_product_id : option bytes;
  source_product_id_size : Z;
  source_protocol_id : option bytes;
  source_protocol_id_size : Z;
  source_key_id : option bytes;
  source_key_id_size : Z;
  source_health_payload : option bytes;
  source_health_payload_size : Z;
  source_manifest_digest : bytes;
  source_nonce : bytes;
  source_signature : bytes;
  source_reserved : list Z;
}.

Record RibonBootConfirmationEnvelopeView := mkEnvelopeView {
  view_size : Z;
  view_abi_version : Z;
  view_slot_id : Z;
  view_protocol_major : Z;
  view_protocol_minor : Z;
  view_policy_version : Z;
  view_image_generation : Z;
  view_manifest_sequence : Z;
  view_attempt_sequence : Z;
  view_product_id : option bytes;
  view_product_id_size : Z;
  view_protocol_id : option bytes;
  view_protocol_id_size : Z;
  view_key_id : option bytes;
  view_key_id_size : Z;
  view_health_payload : option bytes;
  view_health_payload_size : Z;
  view_signature : option bytes;
  view_signature_size : Z;
  view_authenticated_message : option bytes;
  view_authenticated_message_size : Z;
  view_manifest_digest : bytes;
  view_nonce : bytes;
  view_health_payload_digest : bytes;
}.

Record RibonBootAttemptIdentity := mkIdentity {
  identity_size : Z;
  identity_abi_version : Z;
  identity_mode : Z;
  identity_slot_id : Z;
  identity_protocol_major : Z;
  identity_protocol_minor : Z;
  identity_policy_version : Z;
  identity_flags : Z;
  identity_image_generation : Z;
  identity_manifest_sequence : Z;
  identity_product_id : option bytes;
  identity_product_id_size : Z;
  identity_protocol_id : option bytes;
  identity_protocol_id_size : Z;
  identity_manifest_digest : bytes;
  identity_product_digest : bytes;
  identity_rollback_domain_digest : bytes;
  identity_reserved : list Z;
}.

Definition id_is_valid (b : option bytes) (size maximum : Z) : bool :=
  match b with
  | None => false
  | Some id =>
    if (size =? 0) || (size >? maximum) then false
    else forallb (fun index => byte_at id index !=? 0) (upto size)
  end.

(** [size_t] has 64 bits. *)
Definition add_size (left right : Z) : option Z :=
  if left >? UINT64_MAX - right then None else Some (left + right).

Definition identity_is_valid (identity : option RibonBootAttemptIdentity) : bool :=
  match identity with
  | None => false
  | Some i =>
    (identity_size i =? sizeof_RibonBootAttemptIdentity) &&
    (identity_abi_version i =? RIBON_BOOT_CONFIRMATION_ABI_VERSION) &&
    (identity_mode i >=? RIBON_KEY_POLICY_MODE_NORMAL) &&
    (identity_mode i <=? RIBON_KEY_POLICY_MODE_DIAGNOSTIC) &&
    (identity_slot_id i <? RIBON_UPDATE_SLOT_COUNT) &&
    (identity_protocol_major i !=? 0) && (identity_policy_version i !=? 0) &&
    (identity_flags i =? 0) && (identity_image_generation i !=? 0) &&
    (identity_manifest_sequence i !=? 0) &&
    id_is_valid (identity_product_id i) (identity_product_id_size i)
      RIBON_BOOT_CONFIRMATION_MAX_PRODUCT_ID_BYTES &&
    id_is_valid (identity_protocol_id i) (identity_protocol_id_size i)
      RIBON_BOOT_CONFIRMATION_MAX_PROTOCOL_ID_BYTES &&
    negb (bytes_zero (identity_manifest_digest i)) &&
    negb (bytes_zero (identity_product_digest i)) &&
    negb (bytes_zero (identity_rollback_domain_digest i)) &&
    bytes_zero (identity_reserved i)
  end.

(** ** The envelope *)

(** The source without its sizes: what the encoder checks first. *)
Definition source_is_refused (s : RibonBootConfirmationEnvelopeSource) : bool :=
  (source_size s !=? sizeof_RibonBootConfirmationEnvelopeSource) ||
  (source_abi_version s !=? RIBON_BOOT_CONFIRMATION_ABI_VERSION) ||
  (source_flags s !=? 0) || (source_reserved0 s !=? 0) ||
  (source_slot_id s >=? RIBON_UPDATE_SLOT_COUNT) ||
  (source_protocol_major s =? 0) || (source_policy_version s =? 0) ||
  (source_image_generation s =? 0) || (source_manifest_sequence s =? 0) ||
  (source_attempt_sequence s =? 0) ||
  negb (id_is_valid (source_product_id s) (source_product_id_size s)
          RIBON_BOOT_CONFIRMATION_MAX_PRODUCT_ID_BYTES) ||
  negb (id_is_valid (source_protocol_id s) (source_protocol_id_size s)
          RIBON_BOOT_CONFIRMATION_MAX_PROTOCOL_ID_BYTES) ||
  negb (id_is_valid (source_key_id s) (source_key_id_size s)
          RIBON_BOOT_CONFIRMATION_MAX_KEY_ID_BYTES) ||
  is_null (source_health_payload s) || (source_health_payload_size s =? 0) ||
  (source_health_payload_size s >? RIBON_BOOT_CONFIRMATION_MAX_HEALTH_BYTES) ||
  bytes_zero (source_manifest_digest s) || bytes_zero (source_nonce s) ||
  negb (bytes_zero (source_reserved s)).

(** The offsets of the variable fields, the signature and the end. *)
Definition envelope_offsets (product protocol key health : Z) : option (Z * Z * Z * Z * Z) :=
  protocol_offset ← add_size RIBON_BOOT_CONFIRMATION_HEADER_BYTES product;
  key_offset ← add_size protocol_offset protocol;
  health_offset ← add_size key_offset key;
  signature_offset ← add_size health_offset health;
  total ← add_size signature_offset RIBON_ED25519_SIGNATURE_BYTES;
  Some (protocol_offset, key_offset, health_offset, signature_offset, total).

(** The stores of the encoder into a cleared buffer of [total] bytes. *)
Definition envelope_bytes (s : RibonBootConfirmationEnvelopeSource)
    (protocol_offset key_offset health_offset signature_offset total : Z) : bytes :=
  let product_offset := RIBON_BOOT_CONFIRMATION_HEADER_BYTES in
  let health := view (source_health_payload s) (source_health_payload_size s) in
  let b := zeros total in
  let b := store b 0 envelope_magic in
  let b := store_u16 b 32 RIBON_BOOT_CONFIRMATION_ABI_VERSION in
  let b := store_u16 b 34 0 in
  let b := store_u32 b 36 RIBON_BOOT_CONFIRMATION_HEADER_BYTES in
  let b := store_u32 b 40 (u32 total) in
  let b := store_u32 b 44 (source_slot_id s) in
  let b := store_u32 b 48 (source_protocol_major s) in
  let b := store_u32 b 52 (source_protocol_minor s) in
  let b := store_u32 b 56 (source_policy_version s) in
  let b := store_u64 b 64 (source_image_generation s) in
  let b := store_u64 b 72 (source_manifest_sequence s) in
  let b := store_u64 b 80 (source_attempt_sequence s) in
  let b := store_u16 b 88 (u16 (source_product_id_size s)) in
  let b := store_u16 b 90 (u16 (source_protocol_id_size s)) in
  let b := store_u16 b 92 (u16 (source_key_id_size s)) in
  let b := store_u32 b 96 (u32 (source_health_payload_size s)) in
  let b := store_u32 b 100 (u32 product_offset) in
  let b := store_u32 b 104 (u32 protocol_offset) in
  let b := store_u32 b 108 (u32 key_offset) in
  let b := store_u32 b 112 (u32 health_offset) in
  let b := store_u32 b 116 (u32 signature_offset) in
  let b := store_u32 b 120 RIBON_ED25519_SIGNATURE_BYTES in
  let b := store b 128 (source_manifest_digest s) in
  let b := store b 160 (source_nonce s) in
  let b := store b 192 (ribon_security_sha256 health) in
  let b := store b product_offset (view (source_product_id s) (source_product_id_size s)) in
  let b := store b protocol_offset (view (source_protocol_id s) (source_protocol_id_size s)) in
  let b := store b key_offset (view (source_key_id s) (source_key_id_size s)) in
  let b := store b health_offset health in
  store b signature_offset (source_signature s).

(** The bytes written, when [output] and [written] are not NULL; [None] is the
    status INVALID_ARGUMENT. *)
Definition ribon_boot_confirmation_envelope_encode (source : option RibonBootConfirmationEnvelopeSource)
    (output : bool) (capacity : Z) (written : bool) : option bytes :=
  match source with
  | None => None
  | Some s =>
    if negb output || negb written || source_is_refused s then None
    else
      match envelope_offsets (source_product_id_size s) (source_protocol_id_size s) (source_key_id_size s)
              (source_health_payload_size s) with
      | None => None
      | Some (protocol_offset, key_offset, health_offset, signature_offset, total) =>
        if (total >? capacity) || (total >? RIBON_BOOT_CONFIRMATION_MAX_WIRE_BYTES) ||
           (RIBON_BOOT_CONFIRMATION_HEADER_BYTES >? UINT32_MAX) || (protocol_offset >? UINT32_MAX) ||
           (key_offset >? UINT32_MAX) || (health_offset >? UINT32_MAX) ||
           (signature_offset >? UINT32_MAX) || (total >? UINT32_MAX) ||
           (source_product_id_size s >? UINT16_MAX) || (source_protocol_id_size s >? UINT16_MAX) ||
           (source_key_id_size s >? UINT16_MAX) || (source_health_payload_size s >? UINT32_MAX)
        then None
        else Some (envelope_bytes s protocol_offset key_offset health_offset signature_offset total)
      end
  end.

(** The opened envelope, when [output], the view to fill, is not NULL; [None] is the
    status MALFORMED. *)
Definition ribon_boot_confirmation_envelope_open (b : option bytes) (size : Z) (output : bool)
  : option RibonBootConfirmationEnvelopeView :=
  match b with
  | None => None
  | Some b =>
    if negb output || (size <? RIBON_BOOT_CONFIRMATION_HEADER_BYTES) || (size >? RIBON_BOOT_CONFIRMATION_MAX_WIRE_BYTES)
    then None
    else
      let product_size := load_u16 b 88 in
      let protocol_size := load_u16 b 90 in
      let key_size := load_u16 b 92 in
      let health_size := load_u32 b 96 in
      let product_offset := load_u32 b 100 in
      let protocol_offset := load_u32 b 104 in
      let key_offset := load_u32 b 108 in
      let health_offset := load_u32 b 112 in
      let signature_offset := load_u32 b 116 in
      let signature_size := load_u32 b 120 in
      let follows left right offset :=
        match add_size left right with Some expected => offset =? expected | None => false end in
      if negb (bytes_equal (slice 0 32 b) envelope_magic) ||
         (load_u16 b 32 !=? RIBON_BOOT_CONFIRMATION_ABI_VERSION) ||
         (load_u16 b 34 !=? 0) ||
         (load_u32 b 36 !=? RIBON_BOOT_CONFIRMATION_HEADER_BYTES) ||
         (load_u32 b 40 !=? size) || (load_u32 b 44 >=? RIBON_UPDATE_SLOT_COUNT) ||
         (load_u32 b 48 =? 0) || (load_u32 b 56 =? 0) || (load_u32 b 60 !=? 0) ||
         (load_u64 b 64 =? 0) || (load_u64 b 72 =? 0) || (load_u64 b 80 =? 0) ||
         (load_u16 b 94 !=? 0) || (load_u32 b 124 !=? 0) ||
         bytes_zero (slice 128 32 b) || bytes_zero (slice 160 32 b) ||
         bytes_zero (slice 192 32 b) || negb (bytes_zero (slice 224 32 b)) ||
         (product_size =? 0) || (product_size >? RIBON_BOOT_CONFIRMATION_MAX_PRODUCT_ID_BYTES) ||
         (protocol_size =? 0) || (protocol_size >? RIBON_BOOT_CONFIRMATION_MAX_PROTOCOL_ID_BYTES) ||
         (key_size =? 0) || (key_size >? RIBON_BOOT_CONFIRMATION_MAX_KEY_ID_BYTES) ||
         (health_size =? 0) || (health_size >? RIBON_BOOT_CONFIRMATION_MAX_HEALTH_BYTES) ||
         (signature_size !=? RIBON_ED25519_SIGNATURE_BYTES) ||
         (product_offset !=? RIBON_BOOT_CONFIRMATION_HEADER_BYTES) ||
         negb (follows product_offset product_size protocol_offset) ||
         negb (follows protocol_offset protocol_size key_offset) ||
         negb (follows key_offset key_size health_offset) ||
         negb (follows health_offset health_size signature_offset) ||
         negb (follows signature_offset signature_size size)
      then None
      else
        let product := slice product_offset product_size b in
        let protocol := slice protocol_offset protocol_size b in
        let key := slice key_offset key_size b in
        let health := slice health_offset health_size b in
        if negb (id_is_valid (Some product) product_size RIBON_BOOT_CONFIRMATION_MAX_PRODUCT_ID_BYTES) ||
           negb (id_is_valid (Some protocol) protocol_size RIBON_BOOT_CONFIRMATION_MAX_PROTOCOL_ID_BYTES) ||
           negb (id_is_valid (Some key) key_size RIBON_BOOT_CONFIRMATION_MAX_KEY_ID_BYTES)
        then None
        else if negb (bytes_equal (ribon_security_sha256 health) (slice 192 32 b)) then None
        else
          Some (mkEnvelopeView sizeof_RibonBootConfirmationEnvelopeView RIBON_BOOT_CONFIRMATION_ABI_VERSION
            (load_u32 b 44) (load_u32 b 48) (load_u32 b 52) (load_u32 b 56)
            (load_u64 b 64) (load_u64 b 72) (load_u64 b 80)
            (Some product) product_size (Some protocol) protocol_size (Some key) key_size
            (Some health) health_size
            (Some (slice signature_offset signature_size b)) signature_size
            (Some (slice 0 signature_offset b)) signature_offset
            (slice 128 32 b) (slice 160 32 b) (slice 192 32 b))
  end.

(** ** The binding of a boot attempt *)

(** The message whose digest binds an attempt: [memset(bytes, 0, 512)], then each
    field at a running offset. *)
Definition binding_message (i : RibonBootAttemptIdentity) (nonce : bytes) (attempt_sequence : Z) : bytes :=
  let product := view (identity_product_id i) (identity_product_id_size i) in
  let protocol := view (identity_protocol_id i) (identity_protocol_id_size i) in
  let b := zeros 512 in
  let b := store b 0 binding_domain in
  let b := store_u32 b 32 RIBON_BOOT_CONFIRMATION_ABI_VERSION in
  let b := store_u32 b 36 (u32 (identity_mode i)) in
  let b := store_u32 b 40 (identity_slot_id i) in
  let b := store_u32 b 44 (identity_protocol_major i) in
  let b := store_u32 b 48 (identity_protocol_minor i) in
  let b := store_u32 b 52 (identity_policy_version i) in
  let b := store_u64 b 56 (identity_image_generation i) in
  let b := store_u64 b 64 (identity_manifest_sequence i) in
  let b := store_u64 b 72 attempt_sequence in
  let b := store_u32 b 80 (u32 (identity_product_id_size i)) in
  let b := store_u32 b 84 (u32 (identity_protocol_id_size i)) in
  let b := store b 88 (identity_manifest_digest i) in
  let b := store b 120 (identity_product_digest i) in
  let b := store b 152 (identity_rollback_domain_digest i) in
  let b := store b 184 nonce in
  let b := store b 216 product in
  let offset := 216 + identity_product_id_size i in
  let b := store b offset protocol in
  let offset := offset + identity_protocol_id_size i in
  slice 0 offset b.

(** [None] is the status INVALID_ARGUMENT. *)
Definition ribon_boot_confirmation_binding_digest (identity : option RibonBootAttemptIdentity)
    (nonce : option bytes) (attempt_sequence : Z) (digest : bool) : option bytes :=
  match identity, nonce with
  | Some i, Some n =>
    if negb (identity_is_valid identity) || bytes_zero n || (attempt_sequence =? 0) || negb digest then None
    else Some (ribon_security_sha256 (binding_message i n attempt_sequence))
  | _, _ => None
  end.
