(* ===== verification/ConfirmationCodec.v ===== *)
(** * The confirmation envelope reads back, and has one encoding

    The encoder and the reader of [src/update/confirmation.c] are inverse: what is
    encoded opens to the same fields, every wire that opens is the encoding of what
    it opens to, and the message that binds a boot attempt determines each of its
    fields. *)

From S2P Require Import Prelude.
From S2P Require Import Buffer.
From S2P Require Import Wire.
From S2P Require Import Sha256.
From S2P Require Import Image.
From S2P Require Import SlotMetadata.
From S2P Require Import Signature.
From S2P Require Import KeyPolicy.
From S2P Require Import ConfirmationWire.

(** ** The C types *)

Record source_typed (s : RibonBootConfirmationEnvelopeSource) : Prop := {
  typed_source_slot : word 32 (source_slot_id s);
  typed_source_major : word 32 (source_protocol_major s);
  typed_source_minor : word 32 (source_protocol_minor s);
  typed_source_policy : word 32 (source_policy_version s);
  typed_source_generation : word 64 (source_image_generation s);
  typed_source_sequence : word 64 (source_manifest_sequence s);
  typed_source_attempt : word 64 (source_attempt_sequence s);
  typed_source_product : pointed (source_product_id s) (source_product_id_size s) /\
    octets (default [] (source_product_id s));
  typed_source_protocol : pointed (source_protocol_id s) (source_protocol_id_size s) /\
    octets (default [] (source_protocol_id s));
  typed_source_key : pointed (source_key_id s) (source_key_id_size s) /\
    octets (default [] (source_key_id s));
  typed_source_health : pointed (source_health_payload s) (source_health_payload_size s) /\
    octets (default [] (source_health_payload s));
  typed_source_manifest : len (source_manifest_digest s) = 32 /\ octets (source_manifest_digest s);
  typed_source_nonce : len (source_nonce s) = 32 /\ octets (source_nonce s);
  typed_source_signature : len (source_signature s) = 64 /\ octets (source_signature s);
}.

Record identity_typed (i : RibonBootAttemptIdentity) : Prop := {
  typed_identity_mode : word 32 (identity_mode i);
  typed_identity_slot : word 32 (identity_slot_id i);
  typed_identity_major : word 32 (identity_protocol_major i);
  typed_identity_minor : word 32 (identity_protocol_minor i);
  typed_identity_policy : word 32 (identity_policy_version i);
  typed_identity_generation : word 64 (identity_image_generation i);
  typed_identity_sequence : word 64 (identity_manifest_sequence i);
  typed_identity_product : pointed (identity_product_id i) (identity_product_id_size i);
  typed_identity_protocol : pointed (identity_protocol_id i) (identity_protocol_id_size i);
  typed_identity_manifest : len (identity_manifest_digest i) = 32;
  typed_identity_product_digest : len (identity_product_digest i) = 32;
  typed_identity_domain : len (identity_rollback_domain_digest i) = 32;
}.

(** ** The encoding as an image *)

Definition envelope_writes (s : RibonBootConfirmationEnvelopeSource)
    (protocol_offset key_offset health_offset signature_offset total : Z) : list write :=
  [(0, envelope_magic); (32, le_bytes 2 1); (34, le_bytes 2 0); (36, le_bytes 4 256);
   (40, le_bytes 4 (u32 total)); (44, le_bytes 4 (source_slot_id s));
   (48, le_bytes 4 (source_protocol_major s)); (52, le_bytes 4 (source_protocol_minor s));
   (56, le_bytes 4 (source_policy_version s)); (64, le_bytes 8 (source_image_generation s));
   (72, le_bytes 8 (source_manifest_sequence s)); (80, le_bytes 8 (source_attempt_sequence s));
   (88, le_bytes 2 (u16 (source_product_id_size s))); (90, le_bytes 2 (u16 (source_protocol_id_size s)));
   (92, le_bytes 2 (u16 (source_key_id_size s))); (96, le_bytes 4 (u32 (source_health_payload_size s)));
   (100, le_bytes 4 (u32 256)); (104, le_bytes 4 (u32 protocol_offset));
   (108, le_bytes 4 (u32 key_offset)); (112, le_bytes 4 (u32 health_offset));
   (116, le_bytes 4 (u32 signature_offset)); (120, le_bytes 4 64);
   (128, source_manifest_digest s); (160, source_nonce s);
   (192, ribon_security_sha256 (view (source_health_payload s) (source_health_payload_size s)));
   (256, view (source_product_id s) (source_product_id_size s));
   (protocol_offset, view (source_protocol_id s) (source_protocol_id_size s));
   (key_offset, view (source_key_id s) (source_key_id_size s));
   (health_offset, view (source_health_payload s) (source_health_payload_size s));
   (signature_offset, source_signature s)].

Lemma envelope_bytes_image s o1 o2 o3 o4 total :
  envelope_bytes s o1 o2 o3 o4 total = image total (envelope_writes s o1 o2 o3 o4 total).
Proof.
  unfold envelope_bytes, RIBON_BOOT_CONFIRMATION_HEADER_BYTES, RIBON_BOOT_CONFIRMATION_ABI_VERSION,
    RIBON_ED25519_SIGNATURE_BYTES.
  rewrite !store_u64_le, !store_u32_le, !store_u16_le by lia. reflexivity.
Qed.

Lemma add_size_small a b : a <= 2048 -> 0 <= b <= 2048 -> add_size a b = Some (a + b).
Proof. intros. unfold add_size, UINT64_MAX. by rewrite (proj2 (Z.ltb_ge _ _)) by lia. Qed.

Lemma envelope_offsets_small p q k h : 0 <= p <= 128 -> 0 <= q <= 64 -> 0 <= k <= 64 -> 0 <= h <= 1024 ->
  envelope_offsets p q k h =
  Some (256 + p, 256 + p + q, 256 + p + q + k, 256 + p + q + k + h, 256 + p + q + k + h + 64).
Proof.
  intros. unfold envelope_offsets, RIBON_BOOT_CONFIRMATION_HEADER_BYTES, RIBON_ED25519_SIGNATURE_BYTES.
  do 4 (rewrite add_size_small by lia; cbn [mbind option_bind]). by rewrite add_size_small by lia.
Qed.

(** ** Identifiers *)

Lemma id_is_valid_field p size maximum : id_is_valid p size maximum = true <->
  exists b, p = Some b /\ size <> 0 /\ size <= maximum /\ forall i, 0 <= i < size -> byte_at b i <> 0.
Proof.
  unfold id_is_valid. destruct p as [b|]; [|split; [done|by intros (? & ? & _)]].
  destruct (_ || _) eqn:G.
  - split; [done|]. intros (b' & _ & H1 & H2 & _). apply orb_true_iff in G as [G|G]; [apply Z.eqb_eq in G|apply Z.ltb_lt in G]; lia.
  - bool_to_prop. rewrite forallb_in. split.
    + intros H'. exists b. split_and!; try done. intros i Hi. specialize (H' i).
      rewrite elem_of_seqZ in H'. specialize (H' Hi). by bool_to_prop.
    + intros (b' & [= <-] & _ & _ & H') i Hi. apply elem_of_seqZ in Hi. apply negb_true_iff, Z.eqb_neq. auto.
Qed.

Lemma view_some b size : len b = size -> view (Some b) size = b.
Proof. intros H. unfold view. by apply slice_all. Qed.

Definition nul_free (b : bytes) : Prop := forall i, 0 <= i < len b -> byte_at b i <> 0.

(** An identifier or payload of at most [maximum] bytes. *)
Definition field (p : option bytes) (size maximum : Z) (b : bytes) : Prop :=
  p = Some b /\ size = len b /\ 0 < len b <= maximum /\ octets b.

Lemma nul_free_valid b maximum : 0 < len b <= maximum -> nul_free b -> id_is_valid (Some b) (len b) maximum = true.
Proof. intros Hl Hb. apply id_is_valid_field. exists b. split_and!; [done|lia|lia|done]. Qed.

(** What the encoder accepts. *)
Record source_accepted (s : RibonBootConfirmationEnvelopeSource) (p q k h : bytes) : Prop := {
  accepted_product : field (source_product_id s) (source_product_id_size s) 128 p /\ nul_free p;
  accepted_protocol : field (source_protocol_id s) (source_protocol_id_size s) 64 q /\ nul_free q;
  accepted_key : field (source_key_id s) (source_key_id_size s) 64 k /\ nul_free k;
  accepted_health : field (source_health_payload s) (source_health_payload_size s) 1024 h;
  accepted_slot : 0 <= source_slot_id s < 2;
  accepted_major : source_protocol_major s <> 0;
  accepted_policy : source_policy_version s <> 0;
  accepted_generation : source_image_generation s <> 0;
  accepted_sequence : source_manifest_sequence s <> 0;
  accepted_attempt : source_attempt_sequence s <> 0;
  accepted_manifest : bytes_zero (source_manifest_digest s) = false;
  accepted_nonce : bytes_zero (source_nonce s) = false;
}.

Lemma id_field p size maximum :
  pointed p size /\ octets (default [] p) -> id_is_valid p size maximum = true ->
  exists b, field p size maximum b /\ nul_free b.
Proof.
  intros [Hp Ho] H. apply id_is_valid_field in H as (b & -> & H1 & H2 & H3).
  specialize (Hp b eq_refl). subst size. exists b. split; [|done].
  pose proof (len_nonneg b). unfold field. split_and!; [done|done|lia|lia|exact Ho].
Qed.

Lemma id_pointed p size maximum : pointed p size -> id_is_valid p size maximum = true ->
  exists b, p = Some b /\ size = len b /\ 0 < len b <= maximum.
Proof.
  intros Hp H. apply id_is_valid_field in H as (b & -> & H1 & H2 & _). specialize (Hp b eq_refl). subst size.
  exists b. pose proof (len_nonneg b). split_and!; [done|done|lia|lia].
Qed.

Lemma source_accepted_of s : source_typed s -> source_is_refused s = false ->
  exists p q k h, source_accepted s p q k h.
Proof.
  intros Hs G. unfold source_is_refused, RIBON_UPDATE_SLOT_COUNT in G. bool_to_prop.
  destruct (id_field _ _ _ (typed_source_product s Hs) ltac:(eassumption)) as (p & Hp).
  destruct (id_field _ _ _ (typed_source_protocol s Hs) ltac:(eassumption)) as (q & Hq).
  destruct (id_field _ _ _ (typed_source_key s Hs) ltac:(eassumption)) as (k & Hk).
  destruct (typed_source_health s Hs) as [Hh Hho]. destruct (source_health_payload s) as [h|] eqn:Eh; [|done].
  specialize (Hh h eq_refl). pose proof (len_nonneg h).
  unfold RIBON_BOOT_CONFIRMATION_MAX_HEALTH_BYTES in *. pose proof (typed_source_slot s Hs) as Hw.
  apply word32 in Hw. exists p, q, k, h.
  constructor; try done; [|lia]. unfold field. split_and!; [done|lia|lia|lia|exact Hho].
Qed.

(** The encoding of an accepted source, with the offsets and sizes it has. *)
Definition envelope_layout (s : RibonBootConfirmationEnvelopeSource) (p q k h : bytes) : list write :=
  let o1 := 256 + len p in let o2 := o1 + len q in let o3 := o2 + len k in let o4 := o3 + len h in
  [(0, envelope_magic); (32, le_bytes 2 1); (34, le_bytes 2 0); (36, le_bytes 4 256);
   (40, le_bytes 4 (o4 + 64)); (44, le_bytes 4 (source_slot_id s));
   (48, le_bytes 4 (source_protocol_major s)); (52, le_bytes 4 (source_protocol_minor s));
   (56, le_bytes 4 (source_policy_version s)); (64, le_bytes 8 (source_image_generation s));
   (72, le_bytes 8 (source_manifest_sequence s)); (80, le_bytes 8 (source_attempt_sequence s));
   (88, le_bytes 2 (len p)); (90, le_bytes 2 (len q)); (92, le_bytes 2 (len k)); (96, le_bytes 4 (len h));
   (100, le_bytes 4 256); (104, le_bytes 4 o1); (108, le_bytes 4 o2); (112, le_bytes 4 o3);
   (116, le_bytes 4 o4); (120, le_bytes 4 64);
   (128, source_manifest_digest s); (160, source_nonce s); (192, ribon_security_sha256 h);
   (256, p); (o1, q); (o2, k); (o3, h); (o4, source_signature s)].

Definition envelope_size (p q k h : bytes) : Z := 256 + len p + len q + len k + len h + 64.

Lemma encode_accepted s p q k h capacity :
  source_accepted s p q k h -> source_is_refused s = false ->
  ribon_boot_confirmation_envelope_encode (Some s) true capacity true =
  if envelope_size p q k h >? capacity then None
  else Some (image (envelope_size p q k h) (envelope_layout s p q k h)).
Proof.
  intros Hs G. unfold ribon_boot_confirmation_envelope_encode. rewrite G. cbn [negb orb].
  destruct Hs as [[(P1 & P2 & P3 & _) _] [(Q1 & Q2 & Q3 & _) _] [(K1 & K2 & K3 & _) _] (H1 & H2 & H3 & _) _ _ _ _ _ _ _ _].
  rewrite P2, Q2, K2, H2, envelope_offsets_small by lia. unfold RIBON_BOOT_CONFIRMATION_MAX_WIRE_BYTES,
    RIBON_BOOT_CONFIRMATION_HEADER_BYTES, UINT32_MAX, UINT16_MAX. fold (envelope_size p q k h).
  destruct (Z.ltb_spec capacity (envelope_size p q k h)) as [|_]; [done|]. cbn [orb].
  rewrite !(proj2 (Z.ltb_ge _ _)) by (unfold envelope_size; lia). cbn [orb].
  rewrite envelope_bytes_image. unfold envelope_writes, envelope_layout, envelope_size.
  rewrite P1, P2, Q1, Q2, K1, K2, H1, H2, !view_some by done.
  rewrite !(wrap_small 32), !(wrap_small 16) by (apply word32 || apply word16; unfold UINT32_MAX, UINT16_MAX; lia).
  done.
Qed.

(** ** The envelope reads back *)

Definition view_of (s : RibonBootConfirmationEnvelopeSource) (b : bytes) : RibonBootConfirmationEnvelopeView :=
  let o4 := len b - 64 in
  mkEnvelopeView sizeof_RibonBootConfirmationEnvelopeView RIBON_BOOT_CONFIRMATION_ABI_VERSION
    (source_slot_id s) (source_protocol_major s) (source_protocol_minor s) (source_policy_version s)
    (source_image_generation s) (source_manifest_sequence s) (source_attempt_sequence s)
    (source_product_id s) (source_product_id_size s) (source_protocol_id s) (source_protocol_id_size s)
    (source_key_id s) (source_key_id_size s) (source_health_payload s) (source_health_payload_size s)
    (Some (source_signature s)) 64 (Some (slice 0 o4 b)) o4
    (source_manifest_digest s) (source_nonce s)
    (ribon_security_sha256 (default [] (source_health_payload s))).

(** What a reader finds in the wire [b] of a source with the four variable fields
    [p], [q], [k] and [h]. *)
Record envelope_reads (b : bytes) (s : RibonBootConfirmationEnvelopeSource) (p q k h : bytes) : Prop := {
  reads_size : len b = envelope_size p q k h;
  reads_magic : slice 0 32 b = envelope_magic;
  reads_fixed : load_u16 b 32 = 1 /\ load_u16 b 34 = 0 /\ load_u32 b 36 = 256 /\ load_u32 b 40 = len b;
  reads_words : load_u32 b 44 = source_slot_id s /\ load_u32 b 48 = source_protocol_major s /\
    load_u32 b 52 = source_protocol_minor s /\ load_u32 b 56 = source_policy_version s /\ load_u32 b 60 = 0;
  reads_longs : load_u64 b 64 = source_image_generation s /\ load_u64 b 72 = source_manifest_sequence s /\
    load_u64 b 80 = source_attempt_sequence s;
  reads_sizes : load_u16 b 88 = len p /\ load_u16 b 90 = len q /\ load_u16 b 92 = len k /\ load_u16 b 94 = 0 /\
    load_u32 b 96 = len h;
  reads_offsets : load_u32 b 100 = 256 /\ load_u32 b 104 = 256 + len p /\ load_u32 b 108 = 256 + len p + len q /\
    load_u32 b 112 = 256 + len p + len q + len k /\ load_u32 b 116 = 256 + len p + len q + len k + len h /\
    load_u32 b 120 = 64 /\ load_u32 b 124 = 0;
  reads_digests : slice 128 32 b = source_manifest_digest s /\ slice 160 32 b = source_nonce s /\
    slice 192 32 b = ribon_security_sha256 h /\ slice 224 32 b = zeros 32;
  reads_fields : slice 256 (len p) b = p /\ slice (256 + len p) (len q) b = q /\
    slice (256 + len p + len q) (len k) b = k /\ slice (256 + len p + len q + len k) (len h) b = h /\
    slice (256 + len p + len q + len k + len h) 64 b = source_signature s;
}.

Section Layout.
Context (s : RibonBootConfirmationEnvelopeSource) (p q k h : bytes).
Context (Hs : source_typed s) (Ha : source_accepted s p q k h).

Lemma layout_ascending : ascending 0 (envelope_size p q k h) (envelope_layout s p q k h).
Proof.
  destruct (typed_source_manifest s Hs) as [Hm _], (typed_source_nonce s Hs) as [Hn _],
    (typed_source_signature s Hs) as [Hg _].
  pose proof (len_nonneg p). pose proof (len_nonneg q). pose proof (len_nonneg k). pose proof (len_nonneg h).
  unfold envelope_layout, envelope_size. cbn [ascending]. rewrite !len_le_bytes, Hm, Hn, Hg, len_sha256.
  change (len envelope_magic) with 32. lia.
Qed.

Lemma layout_octets : Forall (fun w => octets (snd w)) (envelope_layout s p q k h).
Proof.
  unfold envelope_layout. rewrite !Forall_cons, Forall_nil. cbn [snd].
  destruct Ha as [[(_ & _ & _ & ?) _] [(_ & _ & _ & ?) _] [(_ & _ & _ & ?) _] (_ & _ & _ & ?) _ _ _ _ _ _ _ _].
  split_and!; try apply octets_le_bytes; try done; try apply octets_sha256;
    [by apply octetsb_octets|apply (typed_source_manifest s Hs)|apply (typed_source_nonce s Hs)
    |apply (typed_source_signature s Hs)].
Qed.

Lemma layout_reads b : b = image (envelope_size p q k h) (envelope_layout s p q k h) ->
  envelope_reads b s p q k h.
Proof.
  intros E. assert (Hb : octets b) by (rewrite E; apply octets_image, layout_octets).
  apply (image_exact _ _ _ layout_ascending) in E as (Hl & Hh & Hc).
  destruct Ha as [[(_ & _ & P3 & _) _] [(_ & _ & Q3 & _) _] [(_ & _ & K3 & _) _] (_ & _ & H3 & _)
    _ _ _ _ _ _ _ _].
  destruct (typed_source_manifest s Hs) as [Hm _], (typed_source_nonce s Hs) as [Hn _],
    (typed_source_signature s Hs) as [Hg _].
  destruct Hs.
  assert (L : forall i o w, envelope_layout s p q k h !! i = Some (o, w) -> slice o (len w) b = w)
    by (intros i o w Hi; exact (proj1 (Forall_lookup _ _) Hh i (o, w) Hi)).
  assert (G : forall i o n, gaps 0 (envelope_size p q k h) (envelope_layout s p q k h) !! i = Some (o, n) ->
    slice o n b = zeros n) by (intros i o n Hi; exact (proj1 (Forall_lookup _ _) Hc i (o, n) Hi)).
  assert (G2 : forall i o, gaps 0 (envelope_size p q k h) (envelope_layout s p q k h) !! i = Some (o, 2) ->
    0 <= o -> o + 2 <= len b -> load_u16 b o = 0)
    by (intros i o Hi Ho Ho'; rewrite load_u16_le, (G i o 2 Hi) by done; reflexivity).
  assert (G4 : forall i o, gaps 0 (envelope_size p q k h) (envelope_layout s p q k h) !! i = Some (o, 4) ->
    0 <= o -> o + 4 <= len b -> load_u32 b o = 0)
    by (intros i o Hi Ho Ho'; rewrite load_u32_le, (G i o 4 Hi) by done; reflexivity).
  assert (W16 : forall z, 0 <= z <= 2048 -> word 16 z) by (intros; apply word16; unfold UINT16_MAX; lia).
  assert (W32 : forall z, 0 <= z <= 2048 -> word 32 z) by (intros; apply word32; unfold UINT32_MAX; lia).
  pose proof (G 25%nat _ _ eq_refl) as G25. rewrite len_sha256 in G25.
  pose proof (L 0%nat _ _ eq_refl) as L0. pose proof (L 22%nat _ _ eq_refl) as L22.
  pose proof (L 23%nat _ _ eq_refl) as L23. pose proof (L 24%nat _ _ eq_refl) as L24. rewrite len_sha256 in L24.
  pose proof (L 29%nat _ _ eq_refl) as L29. rewrite Hm in L22. rewrite Hn in L23. rewrite Hg in L29.
  assert (Hl' := Hl). unfold envelope_size in Hl.
  constructor.
  - done.
  - exact L0.
  - rewrite Hl. split_and!; [held L 1%nat W16|held L 2%nat W16|held L 3%nat W32|held L 4%nat W32].
  - split_and!; [held L 5%nat W32|held L 6%nat W32|held L 7%nat W32|held L 8%nat W32|].
    apply (G4 9%nat); [reflexivity|lia|lia].
  - split_and!; [held L 9%nat W32|held L 10%nat W32|held L 11%nat W32].
  - split_and!; [held L 12%nat W16|held L 13%nat W16|held L 14%nat W16| |held L 15%nat W32].
    apply (G2 15%nat); [reflexivity|lia|lia].
  - split_and!; [held L 16%nat W32|held L 17%nat W32|held L 18%nat W32|held L 19%nat W32|held L 20%nat W32
      |held L 21%nat W32|]. apply (G4 22%nat); [reflexivity|lia|lia].
  - split_and!; [exact L22|exact L23|exact L24|exact G25].
  - split_and!; [exact (L 25%nat _ _ eq_refl)|exact (L 26%nat _ _ eq_refl)|exact (L 27%nat _ _ eq_refl)
      |exact (L 28%nat _ _ eq_refl)|exact L29].
Qed.

Lemma reads_open b : envelope_reads b s p q k h -> bytes_zero (ribon_security_sha256 h) = false ->
  ribon_boot_confirmation_envelope_open (Some b) (len b) true = Some (view_of s b).
Proof.
  intros [Hl R1 (R2 & R3 & R4 & R5) (R6 & R7 & R8 & R9 & R10) (R11 & R12 & R13) (R14 & R15 & R16 & R17 & R18)
    (R19 & R20 & R21 & R22 & R23 & R24 & R25) (R26 & R27 & R28 & R29) (R30 & R31 & R32 & R33 & R34)] Hz.
  destruct Ha as [[(P1 & P2 & P3 & _) Pn] [(Q1 & Q2 & Q3 & _) Qn] [(K1 & K2 & K3 & _) Kn] (H1 & H2 & H3 & _)
    Gs Gm Gp Gg Gq Gt Gd Gn].
  unfold ribon_boot_confirmation_envelope_open. unfold envelope_size in Hl.
  rewrite R1, R2, R3, R4, R5, R6, R7, R8, R9, R10, R11, R12, R13, R14, R15, R16, R17, R18, R19, R20, R21, R22,
    R23, R24, R25, R26, R27, R28, R29, R30, R31, R32, R33, R34.
  unfold RIBON_BOOT_CONFIRMATION_HEADER_BYTES, RIBON_BOOT_CONFIRMATION_MAX_WIRE_BYTES,
    RIBON_BOOT_CONFIRMATION_MAX_PRODUCT_ID_BYTES, RIBON_BOOT_CONFIRMATION_MAX_PROTOCOL_ID_BYTES,
    RIBON_BOOT_CONFIRMATION_MAX_KEY_ID_BYTES, RIBON_BOOT_CONFIRMATION_MAX_HEALTH_BYTES,
    RIBON_ED25519_SIGNATURE_BYTES, RIBON_UPDATE_SLOT_COUNT, RIBON_BOOT_CONFIRMATION_ABI_VERSION.
  rewrite !add_size_small by lia. rewrite !nul_free_valid by (done || lia).
  rewrite Gd, Gn, Hz, bytes_zero_zeros, !bytes_equal_refl. compare.
  unfold view_of. rewrite P1, P2, Q1, Q2, K1, K2, H1, H2. cbn [default].
  by replace (len b - 64) with (256 + len p + len q + len k + len h) by lia.
Qed.
End Layout.

(** ** Every wire that opens is an encoding *)

Definition source_of (v : RibonBootConfirmationEnvelopeView) : RibonBootConfirmationEnvelopeSource :=
  mkEnvelopeSource sizeof_RibonBootConfirmationEnvelopeSource RIBON_BOOT_CONFIRMATION_ABI_VERSION 0
    (view_slot_id v) (view_protocol_major v) (view_protocol_minor v) (view_policy_version v) 0
    (view_image_generation v) (view_manifest_sequence v) (view_attempt_sequence v)
    (view_product_id v) (view_product_id_size v) (view_protocol_id v) (view_protocol_id_size v)
    (view_key_id v) (view_key_id_size v) (view_health_payload v) (view_health_payload_size v)
    (view_manifest_digest v) (view_nonce v) (default [] (view_signature v)) (zeros 32).

Lemma reads_layout b s p q k h : octets b -> source_typed s -> envelope_reads b s p q k h ->
  b = image (envelope_size p q k h) (envelope_layout s p q k h).
Proof.
  intros Hb Hs [Hl R1 (R2 & R3 & R4 & R5) (R6 & R7 & R8 & R9 & R10) (R11 & R12 & R13) (R14 & R15 & R16 & R17 & R18)
    (R19 & R20 & R21 & R22 & R23 & R24 & R25) (R26 & R27 & R28 & R29) (R30 & R31 & R32 & R33 & R34)].
  apply image_exact; [by apply layout_ascending|]. split; [done|].
  pose proof (len_nonneg p). pose proof (len_nonneg q). pose proof (len_nonneg k). pose proof (len_nonneg h).
  destruct (typed_source_manifest s Hs) as [Hm _], (typed_source_nonce s Hs) as [Hn _],
    (typed_source_signature s Hs) as [Hg _].
  rewrite Hl in R5. unfold envelope_size in Hl, R5. split.
  - unfold holds, envelope_layout.
    repeat first [apply Forall_nil|apply Forall_cons; split]; cbn [fst snd]; try exact I;
      first [exact R1|loaded|rewrite ?Hm, ?Hn, ?Hg, ?len_sha256; assumption].
  - unfold clear_at, envelope_layout, envelope_size. cbn [gaps]. rewrite !len_le_bytes, Hm, Hn, Hg, len_sha256.
    repeat first [apply Forall_nil|apply Forall_cons; split]; cbn [fst snd]; try exact I.
    all: try apply slice_empty; try (rewrite Z.sub_diag; apply slice_empty).
    + exact (loaded_u32 b 60 0 Hb ltac:(lia) ltac:(lia) R10).
    + exact (loaded_u16 b 94 0 Hb ltac:(lia) ltac:(lia) R17).
    + exact (loaded_u32 b 124 0 Hb ltac:(lia) ltac:(lia) R25).
    + exact R29.
Qed.

Lemma add_size_some a b c : add_size a b = Some c -> c = a + b.
Proof. unfold add_size. destruct (_ <? _); [done|]. by injection 1 as <-. Qed.

Lemma id_nul_free b maximum : id_is_valid (Some b) (len b) maximum = true -> nul_free b.
Proof. intros H. apply id_is_valid_field in H as (? & [= <-] & _ & _ & H). exact H. Qed.

Ltac passes G :=
  match goal with |- (if ?c then None else _) = _ -> _ => destruct c eqn:G; [discriminate|] end.

(** What a wire that opens holds. *)
Lemma open_reads b v : octets b -> ribon_boot_confirmation_envelope_open (Some b) (len b) true = Some v ->
  exists p q k h, source_accepted (source_of v) p q k h /\ source_typed (source_of v) /\
    envelope_reads b (source_of v) p q k h /\ bytes_zero (ribon_security_sha256 h) = false.
Proof.
  intros Hb. unfold ribon_boot_confirmation_envelope_open, RIBON_BOOT_CONFIRMATION_HEADER_BYTES,
    RIBON_BOOT_CONFIRMATION_MAX_WIRE_BYTES. cbn [negb orb].
  passes G0. passes G. passes G1. passes G2. injection 1 as <-. bool_to_prop.
  repeat match goal with H : match add_size ?a ?b with _ => _ end = true |- _ =>
    let E := fresh "E" in destruct (add_size a b) eqn:E; [apply add_size_some in E; subst|discriminate H] end.
  bool_to_prop. unfold RIBON_BOOT_CONFIRMATION_MAX_PRODUCT_ID_BYTES,
    RIBON_BOOT_CONFIRMATION_MAX_PROTOCOL_ID_BYTES, RIBON_BOOT_CONFIRMATION_MAX_KEY_ID_BYTES,
    RIBON_BOOT_CONFIRMATION_MAX_HEALTH_BYTES, RIBON_ED25519_SIGNATURE_BYTES, RIBON_UPDATE_SLOT_COUNT,
    RIBON_BOOT_CONFIRMATION_ABI_VERSION in *.
  pose proof (load_u16_word b 88 Hb ltac:(lia) ltac:(lia)) as W88.
  pose proof (load_u16_word b 90 Hb ltac:(lia) ltac:(lia)) as W90.
  pose proof (load_u16_word b 92 Hb ltac:(lia) ltac:(lia)) as W92.
  pose proof (load_u32_word b 96 Hb ltac:(lia) ltac:(lia)) as W96.
  pose proof (load_u32_word b 44 Hb ltac:(lia) ltac:(lia)) as W44.
  rewrite word16, ?word32 in *.
  set (p := slice (load_u32 b 100) (load_u16 b 88) b) in *. set (q := slice (load_u32 b 104) (load_u16 b 90) b) in *.
  set (k := slice (load_u32 b 108) (load_u16 b 92) b) in *. set (h := slice (load_u32 b 112) (load_u32 b 96) b) in *.
  assert (Lp : len p = load_u16 b 88) by (apply len_slice; lia).
  assert (Lq : len q = load_u16 b 90) by (apply len_slice; lia).
  assert (Lk : len k = load_u16 b 92) by (apply len_slice; lia).
  assert (Lh : len h = load_u32 b 96) by (apply len_slice; lia).
  assert (Op : octets p /\ octets q /\ octets k /\ octets h) by (split_and!; apply octets_slice; done).
  destruct Op as (Op & Oq & Ok & Oh).
  assert (Hd : forall o, 0 <= o -> o + 32 <= 256 -> len (slice o 32 b) = 32 /\ octets (slice o 32 b))
    by (intros; split; [apply len_slice; lia|by apply octets_slice]).
  assert (Hsha : ribon_security_sha256 h = slice 192 32 b)
    by (apply bytes_equal_true; [rewrite len_sha256, len_slice; lia|done]).
  exists p, q, k, h. split_and!.
  - constructor; cbn; unfold field; try done; try lia; split_and!; try done; try lia.
    + apply (id_nul_free _ 128). by rewrite Lp.
    + apply (id_nul_free _ 64). by rewrite Lq.
    + apply (id_nul_free _ 64). by rewrite Lk.
  - constructor; cbn; try (apply load_u32_word || apply load_u64_word; [done|lia|lia]);
      try (split; [by intros ? [= <-]|done]); try (apply Hd; lia).
    split; [rewrite len_slice; lia|by apply octets_slice].
  - constructor; cbn; unfold envelope_size; split_and?; try lia; try done.
    + apply bytes_equal_true; [rewrite len_slice by lia; reflexivity|done].
    + apply bytes_zero_true in H18. by rewrite len_slice in H18 by lia.
    + unfold p. rewrite len_slice by lia. by rewrite H8.
    + unfold q. rewrite len_slice by lia. f_equal; lia.
    + unfold k. rewrite len_slice by lia. f_equal; lia.
    + unfold h. rewrite len_slice by lia. f_equal; lia.
    + f_equal; lia.
  - by rewrite Hsha.
Qed.

Lemma source_accepted_passes v p q k h : source_accepted (source_of v) p q k h ->
  source_is_refused (source_of v) = false.
Proof.
  intros [[(P1 & P2 & P3 & _) Pn] [(Q1 & Q2 & Q3 & _) Qn] [(K1 & K2 & K3 & _) Kn] (H1 & H2 & H3 & _)
    Gs Gm Gp Gg Gq Gt Gd Gn].
  unfold source_is_refused. rewrite P1, P2, Q1, Q2, K1, K2, H1, H2, Gd, Gn.
  unfold RIBON_BOOT_CONFIRMATION_MAX_PRODUCT_ID_BYTES, RIBON_BOOT_CONFIRMATION_MAX_PROTOCOL_ID_BYTES,
    RIBON_BOOT_CONFIRMATION_MAX_KEY_ID_BYTES, RIBON_BOOT_CONFIRMATION_MAX_HEALTH_BYTES, RIBON_UPDATE_SLOT_COUNT.
  rewrite !nul_free_valid by (done || lia). compare. reflexivity.
Qed.

(** An encoded envelope opens, and to exactly the fields it was encoded from: the
    slot, the versions, the three sequence numbers, the identifiers, the health
    report with its digest, the nonce, the signature and, as the signed message,
    everything before the signature. *)
Theorem envelope_roundtrip s capacity b :
  source_typed s ->
  bytes_zero (ribon_security_sha256 (default [] (source_health_payload s))) = false ->
  ribon_boot_confirmation_envelope_encode (Some s) true capacity true = Some b ->
  ribon_boot_confirmation_envelope_open (Some b) (len b) true = Some (view_of s b).
Proof.
  intros Hs Hz He. assert (G : source_is_refused s = false).
  { unfold ribon_boot_confirmation_envelope_encode in He. cbn [negb orb] in He.
    by destruct (source_is_refused s). }
  destruct (source_accepted_of s Hs G) as (p & q & k & h & Ha).
  rewrite (encode_accepted s p q k h capacity Ha G) in He. destruct (_ <? _); [done|]. injection He as <-.
  apply (reads_open s p q k h Ha); [by apply layout_reads|].
  by rewrite (proj1 (accepted_health _ _ _ _ _ Ha)) in Hz.
Qed.

(** The view is of the wire. *)
Lemma opened_view b v : octets b -> ribon_boot_confirmation_envelope_open (Some b) (len b) true = Some v ->
  v = view_of (source_of v) b.
Proof.
  intros Hb Ho. destruct (open_reads b v Hb Ho) as (p & q & k & h & Ha & Hs & Hr & Hz).
  pose proof (reads_open (source_of v) p q k h Ha b Hr Hz) as H. congruence.
Qed.

(** What is signed, and the signature. *)
Lemma opened_signed b v : octets b -> ribon_boot_confirmation_envelope_open (Some b) (len b) true = Some v ->
  view_authenticated_message v = Some (slice 0 (len b - 64) b) /\
  view_signature v = Some (slice (len b - 64) 64 b).
Proof.
  intros Hb Ho. pose proof (opened_view b v Hb Ho) as Hv. split; [by rewrite Hv|]. rewrite Hv at 1. cbn. f_equal.
  destruct (open_reads b v Hb Ho) as (p & q & k & h & _ & _ & Hr & _).
  destruct (reads_fields _ _ _ _ _ _ Hr) as (_ & _ & _ & _ & Hf). cbn in Hf. rewrite <- Hf. f_equal.
  rewrite (reads_size _ _ _ _ _ _ Hr). unfold envelope_size. lia.
Qed.

(** The envelope has one encoding: a byte string opens to a view only if it is,
    byte for byte, what the encoder writes for that view, so that no two byte
    strings open to the same view and no byte of an accepted envelope is ignored. *)
Theorem envelope_canonical b v :
  octets b -> ribon_boot_confirmation_envelope_open (Some b) (len b) true = Some v ->
  ribon_boot_confirmation_envelope_encode (Some (source_of v)) true (len b) true = Some b /\
  v = view_of (source_of v) b.
Proof.
  intros Hb Ho. destruct (open_reads b v Hb Ho) as (p & q & k & h & Ha & Hs & Hr & Hz). split.
  - rewrite (encode_accepted _ p q k h _ Ha (source_accepted_passes _ _ _ _ _ Ha)).
    rewrite <- (reads_size _ _ _ _ _ _ Hr), Z.ltb_irrefl. f_equal.
    rewrite (reads_size _ _ _ _ _ _ Hr). symmetry. by apply reads_layout.
  - by apply opened_view.
Qed.

(** What opens is well formed: every field is in the range of its C type, the
    identifiers are not empty, not too long and free of NUL bytes, the health
    report has at most 1024 bytes, the signature 64, and every pointer of the view
    stays inside the envelope. *)
Theorem envelope_open_typed b v :
  octets b -> ribon_boot_confirmation_envelope_open (Some b) (len b) true = Some v ->
  source_typed (source_of v) /\
  exists p q k h, source_accepted (source_of v) p q k h /\ len b = envelope_size p q k h /\
    view_authenticated_message v = Some (slice 0 (envelope_size p q k h - 64) b) /\
    view_authenticated_message_size v = envelope_size p q k h - 64 /\
    exists signature, view_signature v = Some signature /\ view_signature_size v = 64 /\ len signature = 64.
Proof.
  intros Hb Ho. destruct (open_reads b v Hb Ho) as (p & q & k & h & Ha & Hs & Hr & Hz). split; [done|].
  pose proof (opened_view b v Hb Ho) as H. pose proof (reads_size _ _ _ _ _ _ Hr) as Hl. exists p, q, k, h. rewrite <- Hl.
  split_and!; [done|done|by rewrite H at 1|by rewrite H at 1|].
  exists (default [] (view_signature v)). split_and!.
  - rewrite H at 1. reflexivity.
  - by rewrite H at 1.
  - apply (typed_source_signature _ Hs).
Qed.

(** ** The binding of an attempt *)

(** Everything an attempt is bound to. *)
Definition attempt_fields (i : RibonBootAttemptIdentity) (nonce : bytes) (attempt_sequence : Z) :=
  ([identity_mode i; identity_slot_id i; identity_protocol_major i; identity_protocol_minor i;
    identity_policy_version i; identity_image_generation i; identity_manifest_sequence i; attempt_sequence],
   [identity_manifest_digest i; identity_product_digest i; identity_rollback_domain_digest i; nonce;
    default [] (identity_product_id i); default [] (identity_protocol_id i)]).

Definition binding_layout (i : RibonBootAttemptIdentity) (p q nonce : bytes) (attempt_sequence : Z) : list write :=
  [(0, binding_domain); (32, le_bytes 4 1); (36, le_bytes 4 (identity_mode i)); (40, le_bytes 4 (identity_slot_id i));
   (44, le_bytes 4 (identity_protocol_major i)); (48, le_bytes 4 (identity_protocol_minor i));
   (52, le_bytes 4 (identity_policy_version i)); (56, le_bytes 8 (identity_image_generation i));
   (64, le_bytes 8 (identity_manifest_sequence i)); (72, le_bytes 8 attempt_sequence);
   (80, le_bytes 4 (len p)); (84, le_bytes 4 (len q)); (88, identity_manifest_digest i);
   (120, identity_product_digest i); (152, identity_rollback_domain_digest i); (184, nonce);
   (216, p); (216 + len p, q)].

Lemma le_bytes_inj k v v' : 0 <= v < 2 ^ (8 * Z.of_nat k) -> 0 <= v' < 2 ^ (8 * Z.of_nat k) ->
  le_bytes k v = le_bytes k v' -> v = v'.
Proof.
  intros Hv Hv' H. apply (f_equal le_value) in H. rewrite !le_value_bytes in H.
  by rewrite !Z.mod_small in H by lia.
Qed.

Section Binding.
Context (i : RibonBootAttemptIdentity) (nonce : bytes) (a : Z).
Context (Hi : identity_typed i) (Hv : identity_is_valid (Some i) = true) (Hn : len nonce = 32).

Lemma identity_fields : exists p q,
  identity_product_id i = Some p /\ identity_product_id_size i = len p /\ 0 < len p <= 128 /\
  identity_protocol_id i = Some q /\ identity_protocol_id_size i = len q /\ 0 < len q <= 64.
Proof.
  unfold identity_is_valid in Hv. bool_to_prop.
  destruct (id_pointed _ _ _ (typed_identity_product i Hi) ltac:(eassumption)) as (p & -> & -> & ?).
  destruct (id_pointed _ _ _ (typed_identity_protocol i Hi) ltac:(eassumption)) as (q & -> & -> & ?).
  by exists p, q.
Qed.

Lemma binding_ascending p q : 0 < len p <= 128 -> 0 < len q <= 64 -> forall size,
  216 + len p + len q <= size -> ascending 0 size (binding_layout i p q nonce a).
Proof.
  destruct Hi as [_ _ _ _ _ _ _ _ _ H1 H2 H3]. intros. unfold binding_layout. cbn [ascending].
  rewrite !len_le_bytes, H1, H2, H3, Hn. change (len binding_domain) with 32. lia.
Qed.

Lemma binding_image p q :
  identity_product_id i = Some p -> identity_product_id_size i = len p ->
  identity_protocol_id i = Some q -> identity_protocol_id_size i = len q -> 0 < len p <= 128 -> 0 < len q <= 64 ->
  binding_message i nonce a = slice 0 (216 + len p + len q) (image 512 (binding_layout i p q nonce a)).
Proof.
  intros P1 P2 Q1 Q2 P3 Q3. unfold binding_message, RIBON_BOOT_CONFIRMATION_ABI_VERSION.
  rewrite !store_u64_le, !store_u32_le by lia. rewrite P1, P2, Q1, Q2, !view_some by done.
  destruct Hi as [Hm _ _ _ _ _ _ _ _ _ _ _]. rewrite (wrap_small 32 (identity_mode i)) by done.
  rewrite !(wrap_small 32) by (apply word32; unfold UINT32_MAX; lia). reflexivity.
Qed.

(** What the message holds at each offset. *)
Lemma binding_holds p q :
  identity_product_id i = Some p -> identity_product_id_size i = len p ->
  identity_protocol_id i = Some q -> identity_protocol_id_size i = len q -> 0 < len p <= 128 -> 0 < len q <= 64 ->
  len (binding_message i nonce a) = 216 + len p + len q /\
  holds (binding_message i nonce a) (binding_layout i p q nonce a).
Proof.
  intros P1 P2 Q1 Q2 P3 Q3. rewrite (binding_image p q) by done.
  destruct (proj1 (image_exact _ _ _ (binding_ascending p q P3 Q3 512 ltac:(lia))) eq_refl) as (Hl & Hh & _).
  split; [apply len_slice; lia|]. revert Hh. unfold holds. rewrite !Forall_forall. intros Hh w Hw.
  destruct (ascending_in _ _ _ _ (binding_ascending p q P3 Q3 (216 + len p + len q) ltac:(lia)) Hw).
  rewrite slice_slice, Z.add_0_l; [by apply Hh|lia|lia|lia|apply len_nonneg|lia].
Qed.
End Binding.

(** The message determines everything the attempt is bound to. *)
Lemma binding_message_inj i n a i' n' a' :
  identity_typed i -> identity_is_valid (Some i) = true -> len n = 32 -> word 64 a ->
  identity_typed i' -> identity_is_valid (Some i') = true -> len n' = 32 -> word 64 a' ->
  binding_message i n a = binding_message i' n' a' -> attempt_fields i n a = attempt_fields i' n' a'.
Proof.
  intros Hi Hv Hn Ha Hi' Hv' Hn' Ha' E.
  destruct (identity_fields i Hi Hv) as (p & q & P1 & P2 & P3 & Q1 & Q2 & Q3).
  destruct (identity_fields i' Hi' Hv') as (p' & q' & P1' & P2' & P3' & Q1' & Q2' & Q3').
  destruct (binding_holds i n a Hi Hn p q) as [_ H]; try done.
  destruct (binding_holds i' n' a' Hi' Hn' p' q') as [_ H']; try done.
  rewrite <- E in H'. set (m := binding_message i n a) in *. clearbody m. clear E.
  assert (L : forall j o w w', binding_layout i p q n a !! j = Some (o, w) ->
    binding_layout i' p' q' n' a' !! j = Some (o, w') -> len w = len w' -> w = w').
  { intros j o w w' E E' Hl. pose proof (proj1 (Forall_lookup _ _) H j (o, w) E) as H1.
    pose proof (proj1 (Forall_lookup _ _) H' j (o, w') E') as H2. cbn in H1, H2. congruence. }
  assert (N : forall j o (k : nat) v v', binding_layout i p q n a !! j = Some (o, le_bytes k v) ->
    binding_layout i' p' q' n' a' !! j = Some (o, le_bytes k v') -> 0 <= v < 2 ^ (8 * Z.of_nat k) ->
    0 <= v' < 2 ^ (8 * Z.of_nat k) -> v = v').
  { intros j o k v v' E E' Hr Hr'. apply (le_bytes_inj k); [done|done|]. apply (L j o); [done|done|].
    by rewrite !len_le_bytes. }
  assert (W : forall z, 0 <= z <= 128 -> 0 <= z < 2 ^ (8 * Z.of_nat 4)) by (intros; lia).
  assert (Lp : len p = len p') by (apply (N 10%nat 80 4%nat); [done|done|apply W; lia|apply W; lia]).
  assert (Lq : len q = len q') by (apply (N 11%nat 84 4%nat); [done|done|apply W; lia|apply W; lia]).
  destruct Hi, Hi'. unfold attempt_fields. rewrite P1, P1', Q1, Q1'. cbn [default].
  rewrite (N 2%nat 36 4%nat (identity_mode i) (identity_mode i')) by done.
  rewrite (N 3%nat 40 4%nat (identity_slot_id i) (identity_slot_id i')) by done.
  rewrite (N 4%nat 44 4%nat (identity_protocol_major i) (identity_protocol_major i')) by done.
  rewrite (N 5%nat 48 4%nat (identity_protocol_minor i) (identity_protocol_minor i')) by done.
  rewrite (N 6%nat 52 4%nat (identity_policy_version i) (identity_policy_version i')) by done.
  rewrite (N 7%nat 56 8%nat (identity_image_generation i) (identity_image_generation i')) by done.
  rewrite (N 8%nat 64 8%nat (identity_manifest_sequence i) (identity_manifest_sequence i')) by done.
  rewrite (N 9%nat 72 8%nat a a') by done.
  rewrite (L 12%nat 88 (identity_manifest_digest i) (identity_manifest_digest i')) by (done || congruence).
  rewrite (L 13%nat 120 (identity_product_digest i) (identity_product_digest i')) by (done || congruence).
  rewrite (L 14%nat 152 (identity_rollback_domain_digest i) (identity_rollback_domain_digest i')) by (done || congruence).
  rewrite (L 15%nat 184 n n') by (done || congruence). rewrite (L 16%nat 216 p p') by done.
  by rewrite (L 17%nat (216 + len p) q q') by (done || by rewrite Lp).
Qed.

(** What a binding digest is of. *)
Lemma binding_some i n a d : ribon_boot_confirmation_binding_digest (Some i) (Some n) a true = Some d ->
  identity_is_valid (Some i) = true /\ bytes_zero n = false /\ a <> 0 /\
  d = ribon_security_sha256 (binding_message i n a).
Proof.
  unfold ribon_boot_confirmation_binding_digest. destruct (_ || _) eqn:G; [done|]. intros [= <-]. by bool_to_prop.
Qed.

Lemma binding_digest_typed i n a d : ribon_boot_confirmation_binding_digest (Some i) (Some n) a true = Some d ->
  len d = 32 /\ octets d.
Proof. intros H. destruct (binding_some i n a d H) as (_ & _ & _ & ->). split; [apply len_sha256|apply octets_sha256]. Qed.

(** Two attempts whose messages collide. *)
Definition binding_collision i n a i' n' a' : Prop :=
  binding_message i n a <> binding_message i' n' a' /\
  ribon_security_sha256 (binding_message i n a) = ribon_security_sha256 (binding_message i' n' a').

Lemma same_binding i n a i' n' a' d :
  identity_typed i -> len n = 32 -> word 64 a -> identity_typed i' -> len n' = 32 -> word 64 a' ->
  ribon_boot_confirmation_binding_digest (Some i) (Some n) a true = Some d ->
  ribon_boot_confirmation_binding_digest (Some i') (Some n') a' true = Some d ->
  attempt_fields i n a = attempt_fields i' n' a' \/ binding_collision i n a i' n' a'.
Proof.
  intros Hi Hn Ha Hi' Hn' Ha' E E'.
  destruct (binding_some i n a d E) as (V & _ & _ & Hd). destruct (binding_some i' n' a' d E') as (V' & _ & _ & Hd').
  destruct (decide (binding_message i n a = binding_message i' n' a')) as [D|D].
  - left. by apply binding_message_inj.
  - right. split; [done|congruence].
Qed.

(** A binding digest binds one attempt: two attempts with the same digest agree
    on the mode, the slot, the protocol and policy versions, the image generation,
    the manifest sequence and digest, the product and its rollback domain, the
    identifiers, the nonce and the attempt sequence, unless the two messages are a
    SHA-256 collision. *)
Theorem binding_digest_binds i n a i' n' a' d :
  identity_typed i -> len n = 32 -> word 64 a -> identity_typed i' -> len n' = 32 -> word 64 a' ->
  ribon_boot_confirmation_binding_digest (Some i) (Some n) a true = Some d ->
  ribon_boot_confirmation_binding_digest (Some i') (Some n') a' true = Some d ->
  attempt_fields i n a = attempt_fields i' n' a' \/
  (binding_message i n a <> binding_message i' n' a' /\
   ribon_security_sha256 (binding_message i n a) = ribon_security_sha256 (binding_message i' n' a')).
Proof. apply same_binding. Qed.
