(* ===== verification/JournalInterface.v ===== *)
(** * What the two journals promise to their client

    The confirmation engine of [src/update/confirmation.c] commits to the update
    journal and to the protected journal.  It needs little of either: which
    snapshots the media may open to, that opening returns one of them, and that an
    operation, wherever it is cut, leaves the old snapshot or the next one.
    [UpdateJournal] and [ProtectedJournal] state that; the instances discharge them
    for every storage provider that keeps its contract. *)

From S2P Require Import Prelude.
From S2P Require Import Effects.
From S2P Require Import Buffer.
From S2P Require Import Wire.
From S2P Require Import Provider.
From S2P Require Import Layout.
From S2P Require Import SlotMetadata.
From S2P Require Import TransactionWire.
From S2P Require Import Transaction.
From S2P Require Import TransactionLogic.
From S2P Require Import TransactionCrash.
From S2P Require Import ProtectedWire.
From S2P Require Import ProtectedState.
From S2P Require Import ProtectedLogic.
From S2P Require Import ProtectedCrash.
From S2P Require Import ProtectedSpec.

#[local] Opaque ProtectedWire.record_encode ProtectedWire.selector_encode record_identity.

(** [update_media u Q]: every medium [u] may leave opens to a snapshot in [Q]. *)
Class UpdateJournal {U} (O : Type) (j : RibonUpdateTransactionJournal U) := {
  update_media : U -> (RibonUpdateTransactionSnapshot -> Prop) -> Prop;
  update_weaken : forall u (Q Q' : RibonUpdateTransactionSnapshot -> Prop),
    update_media u Q -> (forall c, Q c -> Q' c) -> update_media u Q';
  update_snapshot_ok : forall u c, update_media u (eq c) -> snapshot_ok c;
  update_open_law : forall c u (o : option (RibonUpdateTransactionObserver O)) u' o' r,
    update_media u (eq c) -> ribon_update_transaction_open (Some j) (u, o) = ((u', o'), r) ->
    update_media u' (eq c) /\ is_null o' = is_null o /\ (forall c', r = inr c' -> c' = c);
  update_confirm_law : forall (r : RibonUpdateConfirmPendingRequest U O) c u u' o' res,
    TransactionCrash.request_typed r -> confirm_journal r = Some j -> update_media u (eq c) ->
    ribon_update_transaction_confirm_pending (Some r) u = ((u', o'), res) ->
    update_media u' (fun c' => c' = c \/ confirmed r c c') /\
    (forall result, res = inr result ->
       let c' := result_snapshot result in
       update_media u' (eq c') /\ metadata_active_slot (snapshot_metadata c') = confirm_target_slot r /\
       metadata_pending_slot (snapshot_metadata c') = RIBON_UPDATE_SLOT_NONE /\
       entry_state (slot_at (snapshot_metadata c') (confirm_target_slot r)) = RIBON_UPDATE_SLOT_CONFIRMED /\
       names r (slot_at (snapshot_metadata c') (confirm_target_slot r)) /\
       (result_duplicate result = 1 /\ c' = c \/
        result_duplicate result = 0 /\ confirmed r c c' /\
          entry_state (slot_at (snapshot_metadata c) (confirm_target_slot r)) = RIBON_UPDATE_SLOT_PENDING));
}.

(** The request passes the argument check. *)
Definition confirm_well_formed {U O} (r : RibonUpdateConfirmPendingRequest U O) : Prop :=
  confirm_size r = sizeof_RibonUpdateConfirmPendingRequest /\
  confirm_abi_version r = RIBON_UPDATE_TRANSACTION_ABI_VERSION /\ confirm_flags r = 0 /\
  0 <= confirm_target_slot r < RIBON_UPDATE_SLOT_COUNT /\ confirm_image_generation r <> 0 /\
  bytes_zero (confirm_manifest_digest r) = false /\ bytes_zero (confirm_reserved r) = true.

(** The journal can confirm the image it holds as pending: the transition is legal
    and its commit is not refused. *)
Definition can_confirm (c : RibonUpdateTransactionSnapshot) (target : Z) : Prop :=
  exists m plan, ribon_update_slot_metadata_transition (Some (snapshot_metadata c))
      (Some (TransactionCrash.confirm_request c target)) = (RIBON_UPDATE_STORAGE_STATUS_OK, m) /\
    commit_plan (Some c) m target = inr plan.

(** The image the request names is confirmed, or pending. *)
Definition confirm_named {U O} (r : RibonUpdateConfirmPendingRequest U O) (c : RibonUpdateTransactionSnapshot) : Prop :=
  let target := confirm_target_slot r in
  names r (slot_at (snapshot_metadata c) target) /\
  (metadata_active_slot (snapshot_metadata c) = target /\
   metadata_pending_slot (snapshot_metadata c) = RIBON_UPDATE_SLOT_NONE /\
   entry_state (slot_at (snapshot_metadata c) target) = RIBON_UPDATE_SLOT_CONFIRMED \/
   snapshot_target_slot c = target /\ snapshot_target_state c = RIBON_UPDATE_SLOT_PENDING /\
   metadata_pending_slot (snapshot_metadata c) = target /\
   entry_state (slot_at (snapshot_metadata c) target) = RIBON_UPDATE_SLOT_PENDING /\ can_confirm c target).

(** The update journal on storage that answers. *)
Class UpdateAnswers {U} (O : Type) (j : RibonUpdateTransactionJournal U) `{!UpdateJournal O j} := {
  update_open_answers : forall c u, update_media u (eq c) ->
    exists u', ribon_update_transaction_open (O:=O) (Some j) (u, None) = ((u', None), inr c);
  update_confirm_answers : forall (r : RibonUpdateConfirmPendingRequest U O) c u,
    confirm_well_formed r -> confirm_journal r = Some j -> confirm_observer r = None ->
    update_media u (eq c) -> confirm_named r c ->
    exists u' result, ribon_update_transaction_confirm_pending (Some r) u = ((u', None), inr result);
}.

(** [protected_media w Q]: every medium [w] may leave opens to a snapshot in [Q]. *)
Class ProtectedJournal {W} (j : RibonProtectedStateJournal W) := {
  protected_media : W -> (RibonProtectedStateSnapshot -> Prop) -> Prop;
  protected_weaken : forall w (Q Q' : RibonProtectedStateSnapshot -> Prop),
    protected_media w Q -> (forall c, Q c -> Q' c) -> protected_media w Q';
  protected_record_ok : forall w c, protected_media w (eq c) -> record_ok (record_of c);
  protected_open_law : forall c w w' r, protected_media w (eq c) ->
    ribon_protected_state_open (Some j) true w = (w', r) ->
    protected_media w' (eq c) /\ (forall c', r = inr c' -> c' = c);
  protected_op_law : forall c o w w' r, op_typed o -> protected_media w (eq c) -> run_op j o w = (w', r) ->
    protected_media w' (fun c' => c' = c \/ step o (abs c) (abs c')) /\
    (forall c', r = inr c' -> protected_media w' (eq c') /\
       (step o (abs c) (abs c') /\ snapshot_generation c' = snapshot_generation c + 1 \/
        repeats o (abs c) /\ c' = c));
}.

(** The operation is legal in [c] and its commit is not refused. *)
Definition can_run (o : op) (c : RibonProtectedStateSnapshot) : Prop :=
  match op_next o c with
  | inr None => True
  | inr (Some next) => snapshot_generation c <> UINT64_MAX /\
      bytes_zero (record_identity (ProtectedWire.record_encode (successor c next))) = false
  | inl _ => False
  end.

(** The snapshot a legal operation leaves. *)
Definition after (o : op) (c : RibonProtectedStateSnapshot) : RibonProtectedStateSnapshot :=
  match op_next o c with
  | inr (Some next) => advance c next
  | _ => c
  end.

(** The protected journal on a provider that answers. *)
Class ProtectedAnswers {W} (j : RibonProtectedStateJournal W) `{!ProtectedJournal j} := {
  protected_open_answers : forall c w, protected_media w (eq c) ->
    exists w', ribon_protected_state_open (Some j) true w = (w', inr c);
  protected_op_answers : forall c o w, op_typed o -> protected_media w (eq c) -> can_run o c ->
    exists w', run_op j o w = (w', inr (after o c));
}.

(** ** The update journal on any storage that keeps its contract *)

Section Update.
Context {U O : Type} (p : RibonUpdateStorageProvider U) `{!StorageContract p}.
Context (j : RibonUpdateTransactionJournal U) (l : RibonUpdateLayout).
Context (Hj : TransactionLogic.journal_ready j p l) (Htorn : torn_selectors_rejected p).

Definition opens_in (u : U) (Q : RibonUpdateTransactionSnapshot -> Prop) : Prop :=
  TransactionCrash.all_media p (fun d => exists c, open_bytes j d = inr c /\ Q c) u.

Lemma opens_in_eq u c : opens_in u (eq c) <-> TransactionCrash.all_media p (fun d => open_bytes j d = inr c) u.
Proof.
  split; intros H d Hd; [by destruct (H d Hd) as (c' & ? & ->)|].
  exists c. split; [by apply H|done].
Qed.

#[export] Instance update_journal : UpdateJournal O j.
Proof.
  refine {| update_media := opens_in |}.
  - intros u Q Q' H HQ d Hd. destruct (H d Hd) as (c & ? & ?). eauto.
  - intros u c H. rewrite opens_in_eq in H.
    apply (open_snapshot_ok p j l Hj (Provider.content u)); [apply (TransactionCrash.media_state_bytes p u)|apply H]; by left.
  - intros c u o u' o' r H Hrun. rewrite opens_in_eq in H.
    pose proof (otriple_open (O:=O) p j l Hj _ (fun _ _ u1 =>
      TransactionCrash.all_media p (fun d => open_bytes j d = inr c) u1)
      (TransactionCrash.all_media_steady p (fun d => open_bytes j d = inr c))) as Ht.
    ospecialize (Ht _ _ u o H); [by auto..|]. rewrite Hrun in Ht. destruct Ht as [Hn Ht].
    destruct r as [st|c0]; [by rewrite opens_in_eq|]. destruct Ht as [Hw Hc].
    rewrite opens_in_eq. split_and!; [done..|]. intros c' [= <-].
    specialize (Hw (Provider.content u') (or_introl eq_refl)). cbn beta in Hw. congruence.
  - intros r c u u' o' res Hr Hjr H Hrun. rewrite opens_in_eq in H.
    unfold ribon_update_transaction_confirm_pending in Hrun.
    rewrite Hjr in Hrun. destruct (_ || _) eqn:G in Hrun.
    { injection Hrun as <- <- <-. split; [|done]. intros d Hd. exists c. auto. }
    unfold RIBON_UPDATE_SLOT_COUNT in G. bool_to_prop.
    pose proof (confirm_triple p j l Hj Htorn r Hr c ltac:(lia) u (confirm_observer r) H) as Ht.
    rewrite Hrun in Ht. destruct Ht as [_ Ht]. destruct res as [st|result].
    + split; [|done]. intros d Hd. destruct (Ht d Hd) as [?|(c' & ? & ?)]; [exists c|exists c']; auto.
    + destruct Ht as (Hall & Hrest). split.
      * intros d Hd. exists (result_snapshot result). split; [by apply Hall|].
        destruct Hrest as (_ & _ & _ & _ & [[_ ?]|(_ & ? & _)]); auto.
      * intros ? [= <-]. cbn zeta. rewrite opens_in_eq. by split.
Defined.

Lemma update_open_reliable c u : Provider.reliable p -> opens_in u (eq c) ->
  exists u', ribon_update_transaction_open (O:=O) (Some j) (u, None) = ((u', None), inr c) /\ opens_in u' (eq c).
Proof.
  intros Hrel H. rewrite opens_in_eq in H.
  pose proof (otriple_open (O:=O) p j l Hj _ (fun _ _ _ => False)
    (TransactionCrash.all_media_steady p (fun d => open_bytes j d = inr c))) as Ht.
  ospecialize (Ht _ _ u None H).
  { intros _ st u1 [_ Hn] _. by apply Hn. }
  { intros _ st u1 Hu1 Hbad. specialize (Hu1 (Provider.content u1) (or_introl eq_refl)). cbn beta in Hu1. congruence. }
  destruct (ribon_update_transaction_open (Some j) (u, None)) as [[u' o'] [st|c']]; destruct Ht as [Hn Ht]; [done|].
  destruct o' as [o'|]; [done|]. destruct Ht as [Hu' Hc]. exists u'. rewrite opens_in_eq. split; [|done].
  specialize (Hu' (Provider.content u') (or_introl eq_refl)). cbn beta in Hu'. congruence.
Qed.

Lemma update_answers : Provider.reliable p -> UpdateAnswers O j.
Proof.
  intros Hrel. split.
  - intros c u H. destruct (update_open_reliable c u Hrel H) as (u' & E & _). eauto.
  - intros r c u (W1 & W2 & W3 & W4 & W5 & W6 & W7) Hjr Ho H [[Hg Hd] Hcase].
    unfold ribon_update_transaction_confirm_pending. rewrite Hjr, Ho, W1, W2, W3, W6, W7. unfold RIBON_UPDATE_SLOT_COUNT in *.
    compare. destruct (update_open_reliable c u Hrel H) as (u1 & E & H1).
    unfold confirm_checked, mbind, M_bind. rewrite E.
    destruct Hcase as [(C1 & C2 & C3)|(C1 & C2 & C3 & C4 & m & plan & Ht & Hplan)].
    + rewrite C1, C2, C3, Hg, Hd, !Z.eqb_refl, bytes_equal_refl. cbn [andb]. eauto.
    + rewrite C1, C2, C3, C4, Hg, Hd, !Z.eqb_refl, bytes_equal_refl.
      change (RIBON_UPDATE_SLOT_PENDING =? RIBON_UPDATE_SLOT_CONFIRMED) with false. rewrite andb_false_r. cbn [andb negb orb].
      pose proof (update_snapshot_ok (UpdateJournal:=update_journal) u c H) as Hok.
      destruct (confirm_transition c (confirm_target_slot r) m Hok W4 Ht) as [Hm _].
      unfold TransactionCrash.confirm_request in Ht. rewrite Ht. change (observer_is_refused None) with false. cbv iota.
      rewrite opens_in_eq in H1.
      pose proof (commit_some_triple (O:=O) p j l Hj c m (confirm_target_slot r) Htorn Hm (proj1 W4) u1 None H1) as Hc.
      destruct (Transaction.commit_record j (Some c) m (confirm_target_slot r) (u1, None)) as [[u' o'] [st|c']];
        destruct Hc as [Hn Hc].
      * destruct Hc as [_ [Hc|[[_ Hc]|[_ Hc]]]]; [congruence|done|by destruct Hc].
      * destruct o' as [o'|]; [done|]. cbn. eauto.
Qed.
End Update.

(** ** The protected journal on any provider that keeps its contract *)

Section Protected.
Context {W : Type} (p : RibonProtectedStateProvider W) `{!ProtectedContract p}.
Context (j : RibonProtectedStateJournal W) (Hj : ProtectedLogic.journal_ready j p) (Htorn : torn_rejected p).
Let dom := journal_domain_digest j.

Definition holds_in (w : W) (Q : RibonProtectedStateSnapshot -> Prop) : Prop :=
  ProtectedLogic.all_media p j (fun x => exists c, ProtectedCrash.holds dom x c /\ Q c) w.

Lemma holds_in_eq w c : holds_in w (eq c) <-> ProtectedLogic.all_media p j (fun x => ProtectedCrash.holds dom x c) w.
Proof.
  split; intros H x Hx; [by destruct (H x Hx) as (c' & ? & ->)|].
  exists c. split; [by apply H|done].
Qed.

#[export] Instance protected_journal : ProtectedJournal j.
Proof.
  refine {| protected_media := holds_in |}.
  - intros w Q Q' H HQ x Hx. destruct (H x Hx) as (c & ? & ?). eauto.
  - intros w c H. rewrite holds_in_eq in H. apply (every_media_ok p j Hj c w H).
  - intros c w w' r H Hrun. rewrite holds_in_eq in H.
    pose proof (open_triple p j Hj _ (fun _ w1 =>
      ProtectedLogic.all_media p j (fun x => ProtectedCrash.holds dom x c) w1)
      (ProtectedLogic.media_steady p j (fun x => ProtectedCrash.holds dom x c))) as Ht.
    ospecialize (Ht _ _ w H); [by auto..|]. rewrite Hrun in Ht.
    destruct r as [st|c0]; [by rewrite holds_in_eq|]. destruct Ht as [Hw Hc].
    rewrite holds_in_eq. split; [done|]. intros c' [= <-].
    pose proof (all_media_now p j _ w' Hw) as [H1 _]. fold dom in Hc, H1. congruence.
  - intros c o w w' r Ho H Hrun. rewrite holds_in_eq in H.
    pose proof (op_triple p j Hj Htorn c o Ho w H) as Ht. rewrite Hrun in Ht.
    destruct r as [st|c'].
    + split; [|done]. intros x Hx. destruct (Ht x Hx) as [?|(c' & ? & _ & ?)]; [exists c|exists c']; auto.
    + destruct Ht as [Hw Hs]. split.
      * intros x Hx. exists c'. split; [by apply Hw|]. destruct Hs as [[? _]|[_ ->]]; auto.
      * intros ? [= <-]. rewrite holds_in_eq. by split.
Defined.

Lemma protected_answers : ProtectedLogic.reliable p -> ProtectedAnswers j.
Proof.
  intros Hrel.
  assert (Hopen : forall c w, holds_in w (eq c) ->
    exists w', ribon_protected_state_open (Some j) true w = (w', inr c) /\ holds_in w' (eq c)).
  { intros c w H. rewrite holds_in_eq in H.
    pose proof (open_triple p j Hj _ (fun _ _ => False)
      (ProtectedLogic.media_steady p j (fun x => ProtectedCrash.holds dom x c))) as Ht.
    ospecialize (Ht _ _ w H).
    { intros st w1 [_ Hn] _. by apply Hn. }
    { intros st w1 Hw1 Hbad. pose proof (all_media_now p j _ w1 Hw1) as [H1 _]. fold dom in Hbad, H1. congruence. }
    destruct (ribon_protected_state_open (Some j) true w) as [w' [st|c']]; [done|]. destruct Ht as [Hw' Hc].
    exists w'. rewrite holds_in_eq. split; [|done].
    pose proof (all_media_now p j _ w' Hw') as [H1 _]. fold dom in Hc, H1. congruence. }
  split; [intros c w H; destruct (Hopen c w H) as (w' & E & _); eauto|].
  intros c o w Ho H Hcan. unfold can_run, after in *. destruct (op_next o c) as [st|[next|]] eqn:Hnext.
  - done.
  - destruct Hcan as [Hgen Hz]. pose proof (proj1 (holds_in_eq w c) H) as Hm.
    destruct (op_completes p j Hj Htorn c o next w Ho Hrel Hm Hnext Hgen Hz) as (w' & E & _). eauto.
  - rewrite run_op_decides. assert (He : refused_early o = false).
    { destruct o; cbn in *; try done; by destruct (bytes_zero _ || _). }
    rewrite He. unfold decide_and_commit, mbind, M_bind. destruct (Hopen c w H) as (w' & -> & _).
    rewrite Hnext. by exists w'.
Qed.
End Protected.
