(* ===== verification/Confirmation.v ===== *)
(** * Boot confirmation: attempts and their confirmation
      ([src/update/confirmation.c])

    Opening a boot attempt binds a fresh nonce into the protected journal and pays
    for the attempt before control is transferred; accepting a confirmation checks
    the envelope against the pending image, the attempt, the key policy and the
    protocol's health check, then commits to the protected journal and, after it,
    to the update journal.  The two journals are on two media, and the world holds
    both of them, the caller's observer and the state of the nonce source. *)

From S2P Require Import Prelude.
From S2P Require Import Effects.
From S2P Require Import Buffer.
From S2P Require Import Wire.
From S2P Require Import CString.
From S2P Require Import SlotMetadata.
From S2P Require Import Signature.
From S2P Require Import KeyPolicy.
From S2P Require Import Protocol.
From S2P Require Import TransactionWire.
From S2P Require Import Transaction.
From S2P Require Import ProtectedWire.
From S2P Require Import ProtectedState.
From S2P Require Import ConfirmationWire.

Definition sizeof_RibonBootHealthPayload : Z := 56.
Definition sizeof_RibonBootAttemptNonceSource : Z := 64.
Definition sizeof_RibonBootAttempt : Z := 176.
Definition sizeof_RibonBootAttemptBeginRequest : Z := 80.
Definition sizeof_RibonBootConfirmationAcceptRequest : Z := 136.
Definition sizeof_RibonBootConfirmationReceipt : Z := 80.

(** The source's context is its private state; [fill] returns its status and the
    bytes it wrote. *)
Record RibonBootAttemptNonceSource (N : Type) := mkNonceSource {
  nonce_size : Z;
  nonce_abi_version : Z;
  nonce_flags : Z;
  nonce_reserved0 : Z;
  nonce_fill : option (N -> N * (Z * bytes));
  nonce_reserved : list Z;
}.

Arguments mkNonceSource {N}.
Arguments nonce_size {N} _.
Arguments nonce_abi_version {N} _.
Arguments nonce_flags {N} _.
Arguments nonce_reserved0 {N} _.
Arguments nonce_fill {N} _.
Arguments nonce_reserved {N} _.

Record RibonBootAttempt := mkAttempt {
  attempt_size : Z;
  attempt_abi_version : Z;
  attempt_slot_id : Z;
  attempt_attempts_remaining : Z;
  attempt_image_generation : Z;
  attempt_manifest_sequence : Z;
  attempt_attempt_sequence : Z;
  attempt_protected_generation : Z;
  attempt_manifest_digest : bytes;
  attempt_nonce : bytes;
  attempt_binding_digest : bytes;
  attempt_reserved : list Z;
}.

Record RibonBootAttemptBeginRequest (U P N : Type) := mkBeginRequest {
  begin_size : Z;
  begin_abi_version : Z;
  begin_flags : Z;
  begin_maximum_attempts : Z;
  begin_identity : option RibonBootAttemptIdentity;
  begin_update_journal : option (RibonUpdateTransactionJournal U);
  begin_protected_journal : option (RibonProtectedStateJournal P);
  begin_nonce_source : option (RibonBootAttemptNonceSource N);
  begin_reserved : list Z;
}.

Arguments mkBeginRequest {U P N}.
Arguments begin_size {U P N} _.
Arguments begin_abi_version {U P N} _.
Arguments begin_flags {U P N} _.
Arguments begin_maximum_attempts {U P N} _.
Arguments begin_identity {U P N} _.
Arguments begin_update_journal {U P N} _.
Arguments begin_protected_journal {U P N} _.
Arguments begin_nonce_source {U P N} _.
Arguments begin_reserved {U P N} _.

(** The request's observer is in the world. *)
Record RibonBootConfirmationAcceptRequest (U P : Type) := mkAcceptRequest {
  accept_size : Z;
  accept_abi_version : Z;
  accept_flags : Z;
  accept_reserved0 : Z;
  accept_envelope : option bytes;
  accept_envelope_size : Z;
  accept_identity : option RibonBootAttemptIdentity;
  accept_protocol : option RibonBootProtocol;
  accept_key_policy : option RibonKeyPolicyStore;
  accept_signature_provider : option RibonSignatureProvider;
  accept_signature_workspace : Z;
  accept_signature_workspace_size : Z;
  accept_update_journal : option (RibonUpdateTransactionJournal U);
  accept_protected_journal : option (RibonProtectedStateJournal P);
  accept_reserved : list Z;
}.

Arguments mkAcceptRequest {U P}.
Arguments accept_size {U P} _.
Arguments accept_abi_version {U P} _.
Arguments accept_flags {U P} _.
Arguments accept_reserved0 {U P} _.
Arguments accept_envelope {U P} _.
Arguments accept_envelope_size {U P} _.
Arguments accept_identity {U P} _.
Arguments accept_protocol {U P} _.
Arguments accept_key_policy {U P} _.
Arguments accept_signature_provider {U P} _.
Arguments accept_signature_workspace {U P} _.
Arguments accept_signature_workspace_size {U P} _.
Arguments accept_update_journal {U P} _.
Arguments accept_protected_journal {U P} _.
Arguments accept_reserved {U P} _.

Record RibonBootConfirmationReceipt := mkReceipt {
  receipt_size : Z;
  receipt_abi_version : Z;
  receipt_status : RibonBootConfirmationStatus;
  receipt_duplicate : Z;
  receipt_attempt_sequence : Z;
  receipt_protected_generation : Z;
  receipt_update_generation : Z;
  receipt_active_slot : Z;
  receipt_reserved0 : Z;
  receipt_reserved : list Z;
}.

(** The update medium, the caller's observer, the protected medium and the nonce
    source. *)
Record world (U O P N : Type) := mkWorld {
  world_update : U;
  world_observer : option (RibonUpdateTransactionObserver O);
  world_protected : P;
  world_nonce : N;
}.

Arguments mkWorld {U O P N}.
Arguments world_update {U O P N} _.
Arguments world_observer {U O P N} _.
Arguments world_protected {U O P N} _.
Arguments world_nonce {U O P N} _.

Section Confirmation.
Context {U O P N : Type}.

Abbreviation bc := (M (world U O P N) RibonBootConfirmationStatus).

(** Calls into the two journals: the result is a value, whose status the caller
    inspects. *)
Definition call_update {A}
    (m : U * option (RibonUpdateTransactionObserver O) ->
         U * option (RibonUpdateTransactionObserver O) * (RibonUpdateTransactionStatus + A))
  : bc (RibonUpdateTransactionStatus + A) := fun w =>
  let '((u, o), r) := m (world_update w, world_observer w) in
  (mkWorld u o (world_protected w) (world_nonce w), inr r).

Definition call_protected {A} (m : M P RibonProtectedStateStatus A)
  : bc (RibonProtectedStateStatus + A) := fun w =>
  let '(p, r) := m (world_protected w) in
  (mkWorld (world_update w) (world_observer w) p (world_nonce w), inr r).

(** [source->fill(source->context, nonce)] *)
Definition call_fill (source : RibonBootAttemptNonceSource N) : bc (Z * bytes) := fun w =>
  match nonce_fill source with
  | Some fill =>
    let '(n, r) := fill (world_nonce w) in
    (mkWorld (world_update w) (world_observer w) (world_protected w) n, inr r)
  | None => (w, inr (-1, []))
  end.

(** [if (status != OK) { return other; }] *)
Definition ok_or {E A} (r : E + A) (status : RibonBootConfirmationStatus) : bc A :=
  match r with inr a => mret a | inl _ => leave status end.

Definition nonce_source_is_valid (source : option (RibonBootAttemptNonceSource N)) : bool :=
  match source with
  | None => false
  | Some s =>
    (nonce_size s =? sizeof_RibonBootAttemptNonceSource) &&
    (nonce_abi_version s =? RIBON_BOOT_CONFIRMATION_ABI_VERSION) &&
    (nonce_flags s =? 0) && (nonce_reserved0 s =? 0) && negb (is_null (nonce_fill s)) &&
    bytes_zero (nonce_reserved s)
  end.

Definition pending_identity_matches (snapshot : RibonUpdateTransactionSnapshot)
    (identity : RibonBootAttemptIdentity) : bool :=
  let metadata := snapshot_metadata snapshot in
  if (metadata_pending_slot metadata !=? identity_slot_id identity) ||
     (snapshot_target_slot snapshot !=? identity_slot_id identity) ||
     (snapshot_target_state snapshot !=? RIBON_UPDATE_SLOT_PENDING)
  then false
  else
    let entry := slot_at metadata (identity_slot_id identity) in
    (entry_state entry =? RIBON_UPDATE_SLOT_PENDING) &&
    (entry_image_generation entry =? identity_image_generation identity) &&
    bytes_equal (entry_manifest_digest entry) (identity_manifest_digest identity).

(** ** Opening an attempt *)

(** The status of a protected-journal call, as the engine reports it. *)
Definition protected_result {A} (r : RibonProtectedStateStatus + A) : bc A :=
  match r with
  | inr a => mret a
  | inl RIBON_PROTECTED_STATE_STATUS_ATTEMPTS_EXHAUSTED => leave RIBON_BOOT_CONFIRMATION_STATUS_ATTEMPTS_EXHAUSTED
  | inl _ => leave RIBON_BOOT_CONFIRMATION_STATUS_PROTECTED_STATE
  end.

(** The trial is opened, or the one that is open is bound to the new attempt. *)
Definition open_trial (journal : option (RibonProtectedStateJournal P)) (protected : RibonProtectedStateSnapshot)
    (manifest_sequence maximum_attempts : Z) (binding : bytes) (attempt_sequence : Z)
  : bc RibonProtectedStateSnapshot :=
  if snapshot_kind protected =? RIBON_PROTECTED_STATE_KIND_CONFIRMED then
    r ← call_protected (ribon_protected_state_begin_bound_trial journal manifest_sequence maximum_attempts
                          (Some binding) attempt_sequence);
    protected_result r
  else if (snapshot_kind protected =? RIBON_PROTECTED_STATE_KIND_TRIAL) &&
          (snapshot_pending_sequence protected =? manifest_sequence) then
    r ← call_protected (ribon_protected_state_rebind_trial_attempt journal manifest_sequence
                          (Some binding) attempt_sequence);
    protected_result r
  else leave RIBON_BOOT_CONFIRMATION_STATUS_STALE.

(** A request that passed the argument check. *)
Definition begin_checked (r : RibonBootAttemptBeginRequest U P N) (identity : RibonBootAttemptIdentity)
    (source : RibonBootAttemptNonceSource N) : bc RibonBootAttempt :=
  opened ← call_update (ribon_update_transaction_open (begin_update_journal r));
  update ← ok_or opened RIBON_BOOT_CONFIRMATION_STATUS_UPDATE_STATE;
  leave_if (negb (pending_identity_matches update identity) ||
            (entry_boot_attempts (slot_at (snapshot_metadata update) (identity_slot_id identity)) !=?
             begin_maximum_attempts r)) RIBON_BOOT_CONFIRMATION_STATUS_UPDATE_STATE;;
  opened ← call_protected (ribon_protected_state_open (begin_protected_journal r) true);
  protected ← ok_or opened RIBON_BOOT_CONFIRMATION_STATUS_PROTECTED_STATE;
  leave_if (snapshot_attempt_sequence protected =? UINT64_MAX) RIBON_BOOT_CONFIRMATION_STATUS_OVERFLOW;;
  let attempt_sequence := u64 (snapshot_attempt_sequence protected + 1) in
  filled ← call_fill source;
  let nonce := snd filled in
  leave_if ((fst filled !=? 0) || bytes_zero nonce) RIBON_BOOT_CONFIRMATION_STATUS_INVALID_ARGUMENT;;
  match ribon_boot_confirmation_binding_digest (Some identity) (Some nonce) attempt_sequence true with
  | None => leave RIBON_BOOT_CONFIRMATION_STATUS_INVALID_ARGUMENT
  | Some binding =>
    open_trial (begin_protected_journal r) protected (identity_manifest_sequence identity)
      (begin_maximum_attempts r) binding attempt_sequence;;
    protected ← (consumed ← call_protected (ribon_protected_state_consume_trial_attempt
                                (begin_protected_journal r) (identity_manifest_sequence identity));
                 protected_result consumed);
    leave_if (negb (bytes_equal (snapshot_trial_binding_digest protected) binding) ||
              (snapshot_attempt_sequence protected !=? attempt_sequence))
      RIBON_BOOT_CONFIRMATION_STATUS_PROTECTED_STATE;;
    mret (mkAttempt sizeof_RibonBootAttempt RIBON_BOOT_CONFIRMATION_ABI_VERSION (identity_slot_id identity)
            (snapshot_trial_attempts_remaining protected) (identity_image_generation identity)
            (identity_manifest_sequence identity) attempt_sequence (snapshot_generation protected)
            (identity_manifest_digest identity) nonce binding [0; 0; 0; 0])
  end.

(** [attempt] is NULL or not. *)
Definition ribon_boot_confirmation_begin_attempt (request : option (RibonBootAttemptBeginRequest U P N))
    (attempt : bool) : bc RibonBootAttempt :=
  match request with
  | None => leave RIBON_BOOT_CONFIRMATION_STATUS_INVALID_ARGUMENT
  | Some r =>
    match begin_identity r, begin_nonce_source r with
    | Some identity, Some source =>
      if negb attempt || (begin_size r !=? sizeof_RibonBootAttemptBeginRequest) ||
         (begin_abi_version r !=? RIBON_BOOT_CONFIRMATION_ABI_VERSION) ||
         (begin_flags r !=? 0) || (begin_maximum_attempts r =? 0) ||
         (begin_maximum_attempts r >? RIBON_PROTECTED_STATE_MAX_TRIAL_ATTEMPTS) ||
         negb (identity_is_valid (Some identity)) || is_null (begin_update_journal r) ||
         is_null (begin_protected_journal r) || negb (nonce_source_is_valid (Some source)) ||
         negb (bytes_zero (begin_reserved r))
      then leave RIBON_BOOT_CONFIRMATION_STATUS_INVALID_ARGUMENT
      else begin_checked r identity source
    | _, _ => leave RIBON_BOOT_CONFIRMATION_STATUS_INVALID_ARGUMENT
    end
  end.

(** ** Accepting a confirmation *)

Definition view_matches_identity (v : RibonBootConfirmationEnvelopeView) (i : RibonBootAttemptIdentity) : bool :=
  (view_slot_id v =? identity_slot_id i) &&
  (view_protocol_major v =? identity_protocol_major i) &&
  (view_protocol_minor v =? identity_protocol_minor i) &&
  (view_policy_version v =? identity_policy_version i) &&
  (view_image_generation v =? identity_image_generation i) &&
  (view_manifest_sequence v =? identity_manifest_sequence i) &&
  (view_product_id_size v =? identity_product_id_size i) &&
  (view_protocol_id_size v =? identity_protocol_id_size i) &&
  bytes_equal (KeyPolicy.view (view_product_id v) (identity_product_id_size i))
              (KeyPolicy.view (identity_product_id i) (identity_product_id_size i)) &&
  bytes_equal (KeyPolicy.view (view_protocol_id v) (identity_protocol_id_size i))
              (KeyPolicy.view (identity_protocol_id i) (identity_protocol_id_size i)) &&
  bytes_equal (view_manifest_digest v) (identity_manifest_digest i).

(** The scan of the protocol's name: its length, at most [left]. *)
Fixpoint bounded_length (left : nat) (s : bytes) : Z :=
  match left, s with
  | S left', _ :: s' => 1 + bounded_length left' s'
  | _, _ => 0
  end.

Definition protocol_matches_identity (protocol : RibonBootProtocol) (i : RibonBootAttemptIdentity) : bool :=
  if negb (ribon_boot_protocol_is_valid (Some protocol)) ||
     (protocol_abi_version protocol !=? identity_protocol_major i) ||
     (identity_protocol_minor i !=? 0)
  then false
  else
    let id := default [] (protocol_id protocol) in
    let size := bounded_length (Z.to_nat RIBON_BOOT_CONFIRMATION_MAX_PROTOCOL_ID_BYTES) id in
    (size <? RIBON_BOOT_CONFIRMATION_MAX_PROTOCOL_ID_BYTES) && (size =? identity_protocol_id_size i) &&
    bytes_equal (slice 0 size id) (KeyPolicy.view (identity_protocol_id i) size).

(** The update journal already confirms this image. *)
Definition update_was_confirmed (update : RibonUpdateTransactionSnapshot) (i : RibonBootAttemptIdentity) : bool :=
  let metadata := snapshot_metadata update in
  let entry := slot_at metadata (identity_slot_id i) in
  (metadata_active_slot metadata =? identity_slot_id i) &&
  (metadata_pending_slot metadata =? RIBON_UPDATE_SLOT_NONE) &&
  (entry_state entry =? RIBON_UPDATE_SLOT_CONFIRMED) &&
  (entry_image_generation entry =? identity_image_generation i) &&
  bytes_equal (entry_manifest_digest entry) (identity_manifest_digest i).

(** The protected journal is not at this attempt. *)
Definition attempt_is_stale (protected : RibonProtectedStateSnapshot) (v : RibonBootConfirmationEnvelopeView)
    (binding : bytes) (i : RibonBootAttemptIdentity) : bool :=
  (snapshot_attempt_sequence protected !=? view_attempt_sequence v) ||
  negb (bytes_equal (snapshot_trial_binding_digest protected) binding) ||
  negb (((snapshot_kind protected =? RIBON_PROTECTED_STATE_KIND_TRIAL) &&
         (snapshot_pending_sequence protected =? identity_manifest_sequence i)) ||
        ((snapshot_kind protected =? RIBON_PROTECTED_STATE_KIND_CONFIRMED) &&
         (snapshot_confirmed_floor protected =? identity_manifest_sequence i))).

Definition confirmation_policy (v : RibonBootConfirmationEnvelopeView) (i : RibonBootAttemptIdentity)
  : RibonKeyPolicyRequest :=
  mkKeyRequest sizeof_RibonKeyPolicyRequest RIBON_KEY_POLICY_ABI_VERSION (identity_mode i)
    RIBON_KEY_POLICY_USAGE_BOOT_CONFIRMATION 0 0 (view_key_id v) (view_key_id_size v)
    (identity_product_digest i) (identity_rollback_domain_digest i) (view_manifest_sequence v) [0; 0; 0; 0].

Definition confirmation_signature (v : RibonBootConfirmationEnvelopeView) (i : RibonBootAttemptIdentity)
    (r : RibonBootConfirmationAcceptRequest U P) : RibonKeyPolicySignatureVerification :=
  mkKeyVerification sizeof_RibonKeyPolicySignatureVerification RIBON_KEY_POLICY_ABI_VERSION 0 0
    (Some (confirmation_policy v i)) (accept_signature_provider r)
    (view_authenticated_message v) (view_authenticated_message_size v)
    (view_signature v) (view_signature_size v)
    (accept_signature_workspace r) (accept_signature_workspace_size r) [0; 0; 0; 0].

Definition confirmation_health (v : RibonBootConfirmationEnvelopeView) : RibonBootHealthPayload :=
  mkHealthPayload sizeof_RibonBootHealthPayload RIBON_BOOT_CONFIRMATION_ABI_VERSION
    (view_health_payload v) (view_health_payload_size v) (view_health_payload_digest v).

Definition confirm_request (i : RibonBootAttemptIdentity) (r : RibonBootConfirmationAcceptRequest U P)
    (observer : option (RibonUpdateTransactionObserver O)) : RibonUpdateConfirmPendingRequest U O :=
  mkConfirmRequest sizeof_RibonUpdateConfirmPendingRequest RIBON_UPDATE_TRANSACTION_ABI_VERSION 0
    (identity_slot_id i) (identity_image_generation i) (identity_manifest_digest i)
    (accept_update_journal r) observer [0; 0; 0; 0].

(** Both commits: the protected journal first, then the update journal. *)
Definition commit_confirmation (r : RibonBootConfirmationAcceptRequest U P) (i : RibonBootAttemptIdentity)
    (v : RibonBootConfirmationEnvelopeView) (binding : bytes) (was_confirmed : bool)
  : bc RibonBootConfirmationReceipt :=
  confirmed ← call_protected (ribon_protected_state_confirm_bound (accept_protected_journal r)
                                (identity_manifest_sequence i) (Some binding) (view_attempt_sequence v) true);
  protected ← ok_or confirmed RIBON_BOOT_CONFIRMATION_STATUS_PROTECTED_STATE;
  committed ← call_update (fun s => ribon_update_transaction_confirm_pending
                                      (Some (confirm_request i r (snd s))) (fst s));
  result ← ok_or committed RIBON_BOOT_CONFIRMATION_STATUS_UPDATE_STATE;
  let duplicate := was_confirmed || (result_duplicate result !=? 0) in
  mret (mkReceipt sizeof_RibonBootConfirmationReceipt RIBON_BOOT_CONFIRMATION_ABI_VERSION
          (if duplicate then RIBON_BOOT_CONFIRMATION_STATUS_DUPLICATE else RIBON_BOOT_CONFIRMATION_STATUS_OK)
          (if duplicate then 1 else 0) (view_attempt_sequence v) (snapshot_generation protected)
          (snapshot_journal_generation (result_snapshot result))
          (metadata_active_slot (snapshot_metadata (result_snapshot result))) 0 [0; 0; 0; 0]).

(** A request that passed the argument check. *)
Definition accept_checked (r : RibonBootConfirmationAcceptRequest U P) (i : RibonBootAttemptIdentity)
    (protocol : RibonBootProtocol) : bc RibonBootConfirmationReceipt :=
  match ribon_boot_confirmation_envelope_open (accept_envelope r) (accept_envelope_size r) true with
  | None => leave RIBON_BOOT_CONFIRMATION_STATUS_MALFORMED
  | Some v =>
    leave_if (negb (view_matches_identity v i) || negb (protocol_matches_identity protocol i))
      RIBON_BOOT_CONFIRMATION_STATUS_IDENTITY;;
    match ribon_boot_confirmation_binding_digest (Some i) (Some (view_nonce v)) (view_attempt_sequence v) true with
    | None => leave RIBON_BOOT_CONFIRMATION_STATUS_IDENTITY
    | Some binding =>
      opened ← call_update (ribon_update_transaction_open (accept_update_journal r));
      update ← ok_or opened RIBON_BOOT_CONFIRMATION_STATUS_UPDATE_STATE;
      leave_if (negb (update_was_confirmed update i) && negb (pending_identity_matches update i))
        RIBON_BOOT_CONFIRMATION_STATUS_IDENTITY;;
      opened ← call_protected (ribon_protected_state_open (accept_protected_journal r) true);
      protected ← ok_or opened RIBON_BOOT_CONFIRMATION_STATUS_STALE;
      leave_if (attempt_is_stale protected v binding i) RIBON_BOOT_CONFIRMATION_STATUS_STALE;;
      match fst (ribon_key_policy_verify (accept_key_policy r) (Some (confirmation_signature v i r))
                   (Some empty_decision)) with
      | RIBON_KEY_POLICY_STATUS_OK =>
        leave_if (ribon_boot_protocol_validate_boot_health (Some protocol) (confirmation_health v) !=?
                  RIBON_PROTOCOL_STATUS_OK) RIBON_BOOT_CONFIRMATION_STATUS_HEALTH_REJECTED;;
        commit_confirmation r i v binding (update_was_confirmed update i)
      | _ => leave RIBON_BOOT_CONFIRMATION_STATUS_AUTHENTICATOR
      end
    end
  end.

(** [receipt] is NULL or not. *)
Definition ribon_boot_confirmation_accept (request : option (RibonBootConfirmationAcceptRequest U P))
    (receipt : bool) : bc RibonBootConfirmationReceipt :=
  match request with
  | None => leave RIBON_BOOT_CONFIRMATION_STATUS_INVALID_ARGUMENT
  | Some r =>
    match accept_identity r, accept_protocol r with
    | Some identity, Some protocol =>
      if negb receipt || (accept_size r !=? sizeof_RibonBootConfirmationAcceptRequest) ||
         (accept_abi_version r !=? RIBON_BOOT_CONFIRMATION_ABI_VERSION) ||
         (accept_flags r !=? 0) || (accept_reserved0 r !=? 0) ||
         is_null (accept_envelope r) || (accept_envelope_size r =? 0) ||
         negb (identity_is_valid (Some identity)) || is_null (accept_key_policy r) ||
         is_null (accept_signature_provider r) || is_null (accept_update_journal r) ||
         is_null (accept_protected_journal r) || negb (bytes_zero (accept_reserved r))
      then leave RIBON_BOOT_CONFIRMATION_STATUS_INVALID_ARGUMENT
      else accept_checked r identity protocol
    | _, _ => leave RIBON_BOOT_CONFIRMATION_STATUS_INVALID_ARGUMENT
    end
  end.
End Confirmation.
