(* ===== verification/ConfirmationProperties.v ===== *)
(** * What boot confirmation guarantees

    The engine of [src/update/confirmation.c] over any two journals that keep the
    promises of JournalInterface: nothing is committed without the complete
    evidence, the protected journal is always committed first, whatever is cut in
    between, and an attempt is paid for before control is transferred. *)

From S2P Require Import Prelude.
From S2P Require Import Effects.
From S2P Require Import Buffer.
From S2P Require Import Wire.
From S2P Require Import Sha256.
From S2P Require Import CString.
From S2P Require Import SlotMetadata.
From S2P Require Import Signature.
From S2P Require Import KeyPolicy.
From S2P Require Import KeyPolicyProperties.
From S2P Require Import Protocol.
From S2P Require Import TransactionWire.
From S2P Require Import Transaction.
From S2P Require Import TransactionCrash.
From S2P Require Import ProtectedWire.
From S2P Require Import ProtectedState.
From S2P Require Import ProtectedLogic.
From S2P Require Import ProtectedCrash.
From S2P Require Import ProtectedSpec.
From S2P Require Import JournalInterface.
From S2P Require Import ConfirmationWire.
From S2P Require Import ConfirmationCodec.
From S2P Require Import Confirmation.

#[local] Opaque ProtectedWire.record_encode ProtectedWire.selector_encode record_identity.
#[local] Opaque binding_message.

Section Engine.
Context {U O P N : Type}.
Context (ju : RibonUpdateTransactionJournal U) `{!UpdateJournal O ju}.
Context (jp : RibonProtectedStateJournal P) `{!ProtectedJournal jp}.

#[local] Abbreviation world := (world U O P N).
#[local] Abbreviation bc := (M world RibonBootConfirmationStatus).

(** The media hold these two snapshots. *)
Definition at_rest (cu : RibonUpdateTransactionSnapshot) (cp : RibonProtectedStateSnapshot) (w : world) : Prop :=
  update_media (world_update w) (eq cu) /\ protected_media (world_protected w) (eq cp).

(** ** The calls *)

Lemma ok_or_triple {E A} Q (r : E + A) st (F : RibonBootConfirmationStatus -> world -> Prop) :
  (forall w, Q w -> F st w) -> triple Q (ok_or r st) (fun a w => r = inr a /\ Q w) F.
Proof. intros HF w HQ. destruct r; cbn; auto. Qed.

Lemma update_open_triple cu cp F :
  triple (at_rest cu cp) (call_update (ribon_update_transaction_open (Some ju)))
    (fun r w => (forall c, r = inr c -> c = cu) /\ at_rest cu cp w) F.
Proof.
  intros w [Hu Hp]. unfold call_update.
  destruct (ribon_update_transaction_open (Some ju) (world_update w, world_observer w)) as [[u o] r] eqn:E.
  destruct (update_open_law _ _ _ _ _ _ Hu E) as (Hu' & _ & Hr). by split.
Qed.

Lemma protected_open_triple cu cp F :
  triple (at_rest cu cp) (call_protected (O:=O) (N:=N) (ribon_protected_state_open (Some jp) true))
    (fun r w => (forall c, r = inr c -> c = cp) /\ at_rest cu cp w) F.
Proof.
  intros w [Hu Hp]. unfold call_protected.
  destruct (ribon_protected_state_open (Some jp) true (world_protected w)) as [p r] eqn:E.
  destruct (protected_open_law _ _ _ _ Hp E) as (Hp' & Hr). by split.
Qed.

(** An operation of the protected journal: it completes, or each medium holds the
    old snapshot or the next one. *)
Lemma protected_op_triple cu cp o F : op_typed o ->
  triple (at_rest cu cp) (call_protected (O:=O) (N:=N) (run_op jp o))
    (fun r w => update_media (world_update w) (eq cu) /\
       protected_media (world_protected w) (fun c => c = cp \/ step o (abs cp) (abs c)) /\
       (forall c, r = inr c -> protected_media (world_protected w) (eq c) /\
          (step o (abs cp) (abs c) /\ snapshot_generation c = snapshot_generation cp + 1 \/
           repeats o (abs cp) /\ c = cp))) F.
Proof.
  intros Ho w [Hu Hp]. unfold call_protected. destruct (run_op jp o (world_protected w)) as [p r] eqn:E.
  destruct (protected_op_law _ _ _ _ _ Ho Hp E) as (Hp' & Hr). by split_and!.
Qed.

(** ** Accepting a confirmation *)

(** The journal is at the envelope's attempt. *)
Lemma stale_binding cp v binding i : record_ok (record_of cp) -> len binding = 32 ->
  attempt_is_stale cp v binding i = false ->
  snapshot_attempt_sequence cp = view_attempt_sequence v /\ snapshot_trial_binding_digest cp = binding.
Proof.
  intros Hok Hl Hs. unfold attempt_is_stale in Hs. apply orb_false_iff in Hs as [Hs _].
  apply orb_false_iff in Hs as [Hseq Heq]. apply negb_false_iff in Hseq, Heq. apply Z.eqb_eq in Hseq.
  split; [done|]. apply bytes_equal_true in Heq; [done|]. pose proof (proj1 (ok_binding _ Hok)) as Hb. cbn in Hb. lia.
Qed.

Section Accept.
Context (r : RibonBootConfirmationAcceptRequest U P) (i : RibonBootAttemptIdentity) (protocol : RibonBootProtocol).
Context (Hi : accept_identity r = Some i) (Hprotocol : accept_protocol r = Some protocol).
Context (Hju : accept_update_journal r = Some ju) (Hjp : accept_protected_journal r = Some jp).
Context (cu : RibonUpdateTransactionSnapshot) (cp : RibonProtectedStateSnapshot).

(** What the engine must have seen before it commits. *)
Record evidence (v : RibonBootConfirmationEnvelopeView) (binding : bytes) : Prop := {
  evidence_envelope :
    ribon_boot_confirmation_envelope_open (accept_envelope r) (accept_envelope_size r) true = Some v;
  evidence_identity : view_matches_identity v i = true /\ protocol_matches_identity protocol i = true;
  evidence_binding : ribon_boot_confirmation_binding_digest (Some i) (Some (view_nonce v))
    (view_attempt_sequence v) true = Some binding;
  evidence_image : update_was_confirmed cu i = true \/ pending_identity_matches cu i = true;
  evidence_attempt : attempt_is_stale cp v binding i = false;
  evidence_signature : fst (ribon_key_policy_verify (accept_key_policy r) (Some (confirmation_signature v i r))
    (Some empty_decision)) = RIBON_KEY_POLICY_STATUS_OK;
  evidence_health : ribon_boot_protocol_validate_boot_health (Some protocol) (confirmation_health v) =
    RIBON_PROTOCOL_STATUS_OK;
}.

(** The step of the rollback machine a confirmation takes. *)
Definition confirmation_op (v : RibonBootConfirmationEnvelopeView) (binding : bytes) : op :=
  ConfirmBound (identity_manifest_sequence i) binding (view_attempt_sequence v).

(** The protected journal confirms the attempt. *)
Definition attempt_confirmed (v : RibonBootConfirmationEnvelopeView) (binding : bytes)
    (c : RibonProtectedStateSnapshot) : Prop :=
  abs c = mkRollback (identity_manifest_sequence i) Confirmed (Some (binding, view_attempt_sequence v)).

(** The update journal confirms the image. *)
Definition image_confirmed (c : RibonUpdateTransactionSnapshot) : Prop :=
  metadata_active_slot (snapshot_metadata c) = identity_slot_id i /\
  metadata_pending_slot (snapshot_metadata c) = RIBON_UPDATE_SLOT_NONE /\
  entry_state (slot_at (snapshot_metadata c) (identity_slot_id i)) = RIBON_UPDATE_SLOT_CONFIRMED /\
  entry_image_generation (slot_at (snapshot_metadata c) (identity_slot_id i)) = identity_image_generation i /\
  entry_manifest_digest (slot_at (snapshot_metadata c) (identity_slot_id i)) = identity_manifest_digest i.

(** What a commit leaves: the protected medium is before or after the confirmation,
    and the update medium moves only when the protected one is after it. *)
Definition committing (v : RibonBootConfirmationEnvelopeView) (binding : bytes) (w : world) : Prop :=
  protected_media (world_protected w) (fun c => c = cp \/ attempt_confirmed v binding c) /\
  update_media (world_update w) (fun c => c = cu \/ image_confirmed c) /\
  (update_media (world_update w) (eq cu) \/
   protected_media (world_protected w) (attempt_confirmed v binding)).

Definition accept_failed (_ : RibonBootConfirmationStatus) (w : world) : Prop :=
  at_rest cu cp w \/ exists v binding, evidence v binding /\ committing v binding w.

Definition accept_done (receipt : RibonBootConfirmationReceipt) (w : world) : Prop :=
  exists v binding c c', evidence v binding /\
    update_media (world_update w) (eq c) /\ image_confirmed c /\
    protected_media (world_protected w) (eq c') /\ attempt_confirmed v binding c' /\
    receipt_attempt_sequence receipt = view_attempt_sequence v /\
    receipt_protected_generation receipt = snapshot_generation c' /\
    receipt_update_generation receipt = snapshot_journal_generation c /\
    receipt_active_slot receipt = identity_slot_id i /\
    (receipt_status receipt = RIBON_BOOT_CONFIRMATION_STATUS_DUPLICATE /\ c = cu \/
     receipt_status receipt = RIBON_BOOT_CONFIRMATION_STATUS_OK /\
       snapshot_journal_generation c = snapshot_journal_generation cu + 1 /\ update_was_confirmed cu i = false).

Lemma step_confirm_abs v binding c : step (confirmation_op v binding) (abs cp) (abs c) -> attempt_confirmed v binding c.
Proof.
  unfold attempt_confirmed, confirmation_op. generalize (abs c), (abs cp). intros s' s. inversion 1. congruence.
Qed.

Lemma repeats_confirm_abs v binding : repeats (confirmation_op v binding) (abs cp) -> attempt_confirmed v binding cp.
Proof. unfold attempt_confirmed, confirmation_op. generalize (abs cp). intros s. inversion 1. congruence. Qed.


Context (Htyped : identity_typed i).

Lemma update_confirm_triple cp' F :
  triple (at_rest cu cp')
    (call_update (fun s => ribon_update_transaction_confirm_pending (Some (confirm_request (O:=O) i r (snd s))) (fst s)))
    (fun res w => protected_media (world_protected w) (eq cp') /\
       update_media (world_update w) (fun c => c = cu \/ image_confirmed c) /\
       (forall result, res = inr result -> let c := result_snapshot result in
          update_media (world_update w) (eq c) /\ image_confirmed c /\
          (result_duplicate result = 1 /\ c = cu \/
           result_duplicate result = 0 /\ snapshot_journal_generation c = snapshot_journal_generation cu + 1 /\
             update_was_confirmed cu i = false))) F.
Proof.
  intros w [Hu Hp]. unfold call_update. cbn [fst snd].
  destruct (ribon_update_transaction_confirm_pending (Some (confirm_request i r (world_observer w)))
    (world_update w)) as [[u o] res] eqn:E.
  assert (Hr : TransactionCrash.request_typed (confirm_request i r (world_observer w))).
  { split; [pose proof (typed_identity_slot i Htyped) as Hs; rewrite word32 in Hs; cbn; lia
           |apply (typed_identity_manifest i Htyped)]. }
  destruct (update_confirm_law (UpdateJournal:=UpdateJournal0) _ cu _ _ _ _ Hr Hju Hu E) as (Hm & Hres).
  split_and!; [done| |].
  - eapply update_weaken; [exact Hm|]. intros c [->|(m & _ & _ & Ha & Hq & Hs & Hg & Hd)]; [by left|right].
    by split_and!.
  - intros result ->. destruct (Hres result eq_refl) as (Hall & Ha & Hq & Hs & (Hg & Hd) & Hcase). cbn zeta.
    split_and!; [done..|]. destruct Hcase as [[-> ->]|(-> & (m & _ & -> & _) & Hpending)]; [by left|right].
    split_and!; [done..|]. unfold update_was_confirmed. cbn in Hpending. rewrite Hpending. by rewrite !andb_false_r.
Qed.

(** Both commits, once the evidence is complete. *)
Lemma commit_confirmation_triple v binding was_confirmed :
  evidence v binding -> word 64 (view_attempt_sequence v) ->
  (was_confirmed = true -> update_was_confirmed cu i = true) ->
  triple (at_rest cu cp) (commit_confirmation (O:=O) (N:=N) r i v binding was_confirmed)
    (fun receipt w => accept_done receipt w) accept_failed.
Proof.
  intros He Hw Hwas. unfold commit_confirmation. rewrite Hjp.
  assert (Hop : op_typed (confirmation_op v binding)).
  { destruct (binding_digest_typed _ _ _ _ (evidence_binding _ _ He)).
    split; [apply (typed_identity_sequence i Htyped)|by split_and!]. }
  eapply triple_bind; [apply (protected_op_triple cu cp (confirmation_op v binding) _ Hop)|].
  intros res. cbn beta.
  eapply triple_bind; [apply ok_or_triple|].
  { intros w (Hu & Hp & _). right. exists v, binding. split; [done|]. split_and!; [|by eapply update_weaken; eauto|by left].
    eapply protected_weaken; [exact Hp|]. intros c [->|Hc]; [by left|right; by apply step_confirm_abs]. }
  intros cp'. cbn beta. apply triple_pure. intros ->.
  apply (triple_pre (fun w => attempt_confirmed v binding cp' /\ at_rest cu cp' w)).
  { intros w (Hu & _ & Hc). destruct (Hc cp' eq_refl) as [Hp Hcase]. split; [|done].
    destruct Hcase as [[Hs _]|[Hrep ->]]; [by apply step_confirm_abs|by apply repeats_confirm_abs]. }
  apply triple_pure. intros Hcp'.
  eapply triple_bind; [apply update_confirm_triple|]. intros res. cbn beta.
  eapply triple_bind; [apply ok_or_triple|].
  { intros w (Hp & Hu & _). right. exists v, binding. split; [done|].
    split_and!; [|done|right]; eapply protected_weaken; try exact Hp; intros c <-; auto. }
  intros result. cbn beta. apply triple_pure. intros ->. apply triple_ret. intros w (Hp & Hu & Hres).
  destruct (Hres result eq_refl) as (Hall & Himg & Hcase). exists v, binding, (result_snapshot result), cp'.
  split_and!; try done; [apply Himg|]. cbn [receipt_status].
  destruct Hcase as [[Hd Heq]|(Hd & Hg & Hn)]; rewrite Hd; [left; rewrite orb_true_r; by split|].
  destruct was_confirmed; [|by right]. rewrite Hwas in Hn; done.
Qed.

(** The caller's buffer has as many bytes as it says. *)
Context (Henvelope : pointed (accept_envelope r) (accept_envelope_size r)).
Context (Hoctets : octets (default [] (accept_envelope r))).

Lemma opened_nonce v :
  ribon_boot_confirmation_envelope_open (accept_envelope r) (accept_envelope_size r) true = Some v ->
  len (view_nonce v) = 32.
Proof.
  destruct (accept_envelope r) as [b|]; [|done]. rewrite <- (Henvelope b eq_refl). intros Ho.
  destruct (open_reads b v Hoctets Ho) as (p & q & k & h & _ & Hs & _). apply (typed_source_nonce _ Hs).
Qed.

Lemma opened_attempt v :
  ribon_boot_confirmation_envelope_open (accept_envelope r) (accept_envelope_size r) true = Some v ->
  word 64 (view_attempt_sequence v).
Proof.
  destruct (accept_envelope r) as [b|]; [|done]. rewrite <- (Henvelope b eq_refl). intros Ho.
  destruct (open_reads b v Hoctets Ho) as (p & q & k & h & _ & Hs & _). apply (typed_source_attempt _ Hs).
Qed.

Lemma accept_triple :
  triple (at_rest cu cp) (ribon_boot_confirmation_accept (O:=O) (N:=N) (Some r) true) accept_done accept_failed.
Proof.
  assert (Hrest : forall st w, at_rest cu cp w -> accept_failed st w) by (intros st w H; by left).
  unfold ribon_boot_confirmation_accept. rewrite Hi, Hprotocol. destruct (_ || _).
  { intros w Hw. by apply Hrest. }
  unfold accept_checked.
  destruct (ribon_boot_confirmation_envelope_open _ _ _) as [v|] eqn:Ho; [|intros w Hw; by apply Hrest].
  eapply triple_bind; [apply (triple_leave_if _ (fun w => (view_matches_identity v i = true /\
    protocol_matches_identity protocol i = true) /\ at_rest cu cp w))|intros []].
  { intros w Hw G. by bool_to_prop. }
  { intros w Hw _. by apply Hrest. }
  apply triple_pure. intros Hid.
  destruct (ribon_boot_confirmation_binding_digest _ _ _ _) as [binding|] eqn:Hb; [|intros w Hw; by apply Hrest].
  rewrite Hju. eapply triple_bind; [apply update_open_triple|]. intros opened. cbn beta.
  apply triple_pure. intros Hcu. eapply triple_bind; [apply ok_or_triple; auto|]. intros update. cbn beta.
  apply triple_pure. intros Hu. rewrite (Hcu update Hu). clear Hcu Hu opened update.
  eapply triple_bind; [apply (triple_leave_if _ (fun w => (update_was_confirmed cu i = true \/
    pending_identity_matches cu i = true) /\ at_rest cu cp w))|intros []].
  { intros w Hw G. split; [|done]. apply andb_false_iff in G as [G|G]; apply negb_false_iff in G; auto. }
  { intros w Hw _. by apply Hrest. }
  apply triple_pure. intros Himage.
  rewrite Hjp. eapply triple_bind; [apply protected_open_triple|]. intros opened. cbn beta.
  apply triple_pure. intros Hcp. eapply triple_bind; [apply ok_or_triple; auto|]. intros protected. cbn beta.
  apply triple_pure. intros Hp. rewrite (Hcp protected Hp). clear Hcp Hp opened protected.
  eapply triple_bind; [apply (triple_leave_if _ (fun w => attempt_is_stale cp v binding i = false /\ at_rest cu cp w))
    |intros []]; [by intros w Hw G|by intros w Hw _; apply Hrest|].
  apply triple_pure. intros Hstale.
  destruct (fst (ribon_key_policy_verify _ _ _)) eqn:Hsig; try (intros w Hw; by apply Hrest).
  eapply triple_bind; [apply (triple_leave_if _ (fun w => ribon_boot_protocol_validate_boot_health (Some protocol)
    (confirmation_health v) = RIBON_PROTOCOL_STATUS_OK /\ at_rest cu cp w))|intros []].
  { intros w Hw G. split; [|done]. by bool_to_prop. }
  { intros w Hw _. by apply Hrest. }
  apply triple_pure. intros Hhealth.
  apply commit_confirmation_triple; [by constructor|by apply opened_attempt|done].
Qed.

Lemma accept_run w w' res : at_rest cu cp w -> ribon_boot_confirmation_accept (O:=O) (Some r) true w = (w', res) ->
  match res with inr receipt => accept_done receipt w' | inl st => accept_failed st w' end.
Proof. intros Hw E. pose proof (accept_triple w Hw) as H. by rewrite E in H. Qed.

(** Unless nothing happened, there was evidence. *)
Lemma accept_evidence w w' res : at_rest cu cp w -> ribon_boot_confirmation_accept (O:=O) (Some r) true w = (w', res) ->
  (at_rest cu cp w' /\ exists st, res = inl st) \/ exists v binding, evidence v binding.
Proof.
  intros Hw E. pose proof (accept_run w w' res Hw E) as H. destruct res as [st|receipt].
  - destruct H as [H|(v & binding & He & _)]; [left; eauto|right; eauto].
  - destruct H as (v & binding & _ & _ & He & _). right; eauto.
Qed.

(** What the media hold afterwards. *)
Lemma accept_media w w' res :
  at_rest cu cp w -> ribon_boot_confirmation_accept (O:=O) (Some r) true w = (w', res) ->
  protected_media (world_protected w') (fun c => c = cp \/
    exists v binding, evidence v binding /\ attempt_confirmed v binding c) /\
  update_media (world_update w') (fun c => c = cu \/ image_confirmed c) /\
  (update_media (world_update w') (eq cu) \/
   protected_media (world_protected w') (fun c =>
     floor (abs c) = identity_manifest_sequence i /\ current_phase (abs c) = Confirmed)).
Proof.
  intros Hw E. pose proof (accept_run w w' res Hw E) as H.
  assert (Hc : forall v binding c, attempt_confirmed v binding c ->
    floor (abs c) = identity_manifest_sequence i /\ current_phase (abs c) = Confirmed) by (by intros v b c ->).
  destruct res as [st|receipt].
  - destruct H as [[Hu Hp]|(v & binding & He & Hp & Hu & Hord)].
    + split_and!; [eapply protected_weaken|eapply update_weaken|by left]; eauto.
    + split_and!; [eapply protected_weaken; [exact Hp|]; intros c [->|Hc']; eauto 6|done|].
      destruct Hord as [Hord|Hord]; [by left|right]. eapply protected_weaken; [exact Hord|]. apply Hc.
  - destruct H as (v & binding & c & c' & He & Hu & Hi' & Hp & Hc' & _). split_and!.
    + eapply protected_weaken; [exact Hp|]. intros ? <-. right. eauto.
    + eapply update_weaken; [exact Hu|]. intros ? <-. by right.
    + right. eapply protected_weaken; [exact Hp|]. intros ? <-. by eapply Hc.
Qed.

(** C13: Accepting a confirmation is ordered and safe against a cut at any point.
    Every medium it leaves opens: the protected journal to the snapshot it had, or
    to the attempt confirmed on complete evidence with the floor at the image's
    manifest sequence; the update journal to the snapshot it had, or to the image
    confirmed.  The update journal moves only once every protected medium confirms
    the attempt, and a receipt is returned only when both confirmations are durable. *)
Theorem accept_crash_safe w w' res :
  at_rest cu cp w -> ribon_boot_confirmation_accept (O:=O) (Some r) true w = (w', res) ->
  protected_media (world_protected w') (fun c => c = cp \/
    exists v binding, evidence v binding /\ attempt_confirmed v binding c) /\
  update_media (world_update w') (fun c => c = cu \/ image_confirmed c) /\
  (update_media (world_update w') (eq cu) \/
   protected_media (world_protected w') (fun c =>
     floor (abs c) = identity_manifest_sequence i /\ current_phase (abs c) = Confirmed)) /\
  (forall receipt, res = inr receipt -> accept_done receipt w').
Proof.
  intros Hw E. destruct (accept_media w w' res Hw E) as (Hp & Hu & Ho). split_and!; [done..|].
  intros receipt ->. by apply (accept_run w w' (inr receipt)).
Qed.

(** C14: Nothing is confirmed without proof.  Either nothing was written and the call
    failed, or the envelope opened and names this identity and this protocol; the
    trust store validated, holds the key the envelope names with the right to
    confirm boots of this product in this mode, no key of its chain being revoked;
    the provider accepted the envelope's signature over every byte before it under
    that key; the protocol found the health report good; and the protected journal
    is at the envelope's attempt. *)
Theorem accept_authenticated b s p w w' res :
  accept_envelope r = Some b -> store_typed s -> accept_key_policy r = Some s ->
  accept_signature_provider r = Some p ->
  at_rest cu cp w -> ribon_boot_confirmation_accept (O:=O) (Some r) true w = (w', res) ->
  (at_rest cu cp w' /\ exists st, res = inl st) \/
  exists v, ribon_boot_confirmation_envelope_open (Some b) (len b) true = Some v /\
    view_matches_identity v i = true /\ protocol_matches_identity protocol i = true /\
    ribon_key_policy_store_validate (Some s) = RIBON_KEY_POLICY_STATUS_OK /\
    authorised s (confirmation_policy v i) /\
    (exists k f, 0 <= k < store_record_count s /\ name_of (key_record s k) = default [] (view_key_id v) /\
       signature_verify_fn p = Some f /\
       let q := signature_request (key_record s k) (confirmation_signature v i r) in
       verification_message q = Some (slice 0 (len b - 64) b) /\
       verification_signature q = Some (slice (len b - 64) 64 b) /\ f q = RIBON_SIGNATURE_STATUS_OK) /\
    ribon_boot_protocol_validate_boot_health (Some protocol) (confirmation_health v) = RIBON_PROTOCOL_STATUS_OK /\
    snapshot_attempt_sequence cp = view_attempt_sequence v /\
    ribon_boot_confirmation_binding_digest (Some i) (Some (view_nonce v)) (view_attempt_sequence v) true =
      Some (snapshot_trial_binding_digest cp).
Proof.
  intros Hb Hs Hstore Hprov Hw E. destruct (accept_evidence w w' res Hw E) as [H|(v & binding & He)]; [by left|right].
  pose proof (protected_record_ok _ _ (proj2 Hw)) as Hok.
  destruct He as [Hopen [Hid Hpr] Hbind _ Hstale Hsig Hhealth]. exists v.
  rewrite Hb, <- (Henvelope b Hb) in Hopen. assert (Ho : octets b) by (by rewrite Hb in Hoctets).
  destruct (opened_signed b v Ho Hopen) as [Hm Hg].
  destruct (open_reads b v Ho Hopen) as (? & ? & ? & ? & _ & Hst & _).
  assert (Hq : KeyPolicyProperties.request_typed (confirmation_policy v i)).
  { constructor; [apply (typed_source_key _ Hst)|apply (typed_identity_product_digest i Htyped)
                 |apply (typed_identity_domain i Htyped)]. }
  destruct (ribon_key_policy_verify _ _ _) as [st out] eqn:Ev in Hsig. cbn [fst] in Hsig. subst st. rewrite Hstore in Ev.
  destruct (verify_accepts s (confirmation_signature v i r) (confirmation_policy v i) p _ out Hs Hq eq_refl Hprov Ev)
    as (Hval & Hauth & _ & k & f & Hk & Hname & Hf & Hcall).
  destruct (stale_binding cp v binding i Hok (proj1 (binding_digest_typed _ _ _ _ Hbind)) Hstale) as [Hseq Heq].
  split_and!; [done..| |done|done|by rewrite Heq].
  exists k, f. split_and!; [lia|lia|done|done|]. cbn zeta. by split_and!.
Qed.
End Accept.

(** ** Retrying *)

Section Retry.
Context (r : RibonBootConfirmationAcceptRequest U P) (i : RibonBootAttemptIdentity) (protocol : RibonBootProtocol).
Context (v : RibonBootConfirmationEnvelopeView) (binding : bytes).

(** The snapshots a confirmation passes through: those it started from, or the
    confirmed ones. *)
Definition underway cu cp (cu' : RibonUpdateTransactionSnapshot) (cp' : RibonProtectedStateSnapshot) : Prop :=
  (cu' = cu \/ image_confirmed i cu') /\ (cp' = cp \/ attempt_confirmed i v binding cp').

Lemma confirmed_evidence cu : image_confirmed i cu -> update_was_confirmed cu i = true.
Proof.
  intros (H1 & H2 & H3 & H4 & H5). unfold update_was_confirmed. rewrite H1, H2, H3, H4, H5.
  by rewrite !Z.eqb_refl, bytes_equal_refl.
Qed.

Lemma confirmed_attempt cp : attempt_confirmed i v binding cp -> attempt_is_stale cp v binding i = false.
Proof.
  unfold attempt_confirmed, abs, attempt_is_stale. intros [= -> Hk Hb].
  destruct (snapshot_kind cp =? RIBON_PROTECTED_STATE_KIND_CONFIRMED) eqn:Ek; [|done].
  destruct (snapshot_attempt_sequence cp =? 0); [done|]. injection Hb as -> ->.
  rewrite !Z.eqb_refl, bytes_equal_refl, andb_true_r, orb_true_r. done.
Qed.

(** The evidence stays good while the confirmation is under way. *)
Lemma evidence_underway cu cp cu' cp' :
  evidence r i protocol cu cp v binding -> underway cu cp cu' cp' -> evidence r i protocol cu' cp' v binding.
Proof.
  intros [] [Hu Hp]. constructor; auto.
  - destruct Hu as [->|Hu]; [done|left; by apply confirmed_evidence].
  - destruct Hp as [->|Hp]; [done|by apply confirmed_attempt].
Qed.

(** The rollback machine takes the step. *)
Lemma evidence_legal cu cp : record_ok (record_of cp) -> evidence r i protocol cu cp v binding ->
  (forall next, op_next (confirmation_op i v binding) cp = inr (Some next) ->
     snapshot_generation cp <> UINT64_MAX /\
     bytes_zero (record_identity (ProtectedWire.record_encode (successor cp next))) = false) ->
  can_run (confirmation_op i v binding) cp.
Proof.
  intros Hok [_ _ Hb _ Hs _ _] Hcap. unfold can_run, confirmation_op, op_next in *.
  unfold attempt_is_stale in Hs. apply orb_false_iff in Hs as [Hs Hk]. apply orb_false_iff in Hs as [Hseq Heq].
  apply negb_false_iff in Hseq, Heq, Hk. apply Z.eqb_eq in Hseq.
  assert (Hbad : bad_binding (Some binding) (view_attempt_sequence v) = false).
  { destruct (binding_digest_typed _ _ _ _ Hb) as [Hl _]. destruct (binding_some _ _ _ _ Hb) as (_ & _ & Hne & _).
    destruct (ok_binding _ Hok) as (Hlc & _ & Hz). cbn in Hlc, Hz. apply bytes_equal_true in Heq; [|congruence].
    cbn. rewrite <- Heq, Hz, Hseq. by rewrite (proj2 (Z.eqb_neq _ _)). }
  rewrite Hbad in *. destruct (already_confirmed _ _ _ _) eqn:Ha; [done|].
  unfold confirm_bound_next, already_confirmed in *. rewrite Hseq, Heq, Z.eqb_refl in *. cbn [negb] in *.
  apply orb_true_iff in Hk as [Hk|Hk]; apply andb_true_iff in Hk as [Hk1 Hk2];
    rewrite Hk1, Hk2 in *; [by apply Hcap|done].
Qed.

Context `{!UpdateAnswers O ju} `{!ProtectedAnswers jp}.

(** The request passes the argument check. *)
Definition accept_well_formed : Prop :=
  accept_identity r = Some i /\ accept_protocol r = Some protocol /\
  accept_update_journal r = Some ju /\ accept_protected_journal r = Some jp /\
  accept_size r = sizeof_RibonBootConfirmationAcceptRequest /\
  accept_abi_version r = RIBON_BOOT_CONFIRMATION_ABI_VERSION /\ accept_flags r = 0 /\ accept_reserved0 r = 0 /\
  is_Some (accept_envelope r) /\ accept_envelope_size r <> 0 /\ identity_is_valid (Some i) = true /\
  is_Some (accept_key_policy r) /\ is_Some (accept_signature_provider r) /\ bytes_zero (accept_reserved r) = true.

Lemma confirm_request_named cu : identity_typed i -> snapshot_ok cu -> 0 <= identity_slot_id i < 2 ->
  update_was_confirmed cu i = true \/ pending_identity_matches cu i = true ->
  (pending_identity_matches cu i = true -> can_confirm cu (identity_slot_id i)) ->
  confirm_named (confirm_request (O:=O) i r None) cu.
Proof.
  intros Hi Hok Hslot Hcase Hcan.
  assert (Hty : entry_typed (slot_at (snapshot_metadata cu) (identity_slot_id i)))
    by (apply slot_at_typed; [apply (ok_metadata cu Hok)|done]).
  assert (Hd : bytes_equal (entry_manifest_digest (slot_at (snapshot_metadata cu) (identity_slot_id i)))
    (identity_manifest_digest i) = true ->
    entry_manifest_digest (slot_at (snapshot_metadata cu) (identity_slot_id i)) = identity_manifest_digest i).
  { apply bytes_equal_true. destruct Hty. rewrite (typed_identity_manifest i Hi). tauto. }
  unfold confirm_named. cbn [confirm_target_slot confirm_request]. destruct Hcase as [Hc|Hp].
  - unfold update_was_confirmed in Hc. bool_to_prop. split; [split; auto|]. by left.
  - pose proof (Hcan Hp) as Hcc. unfold pending_identity_matches in Hp. destruct (_ || _) eqn:G in Hp; [done|].
    bool_to_prop. split; [split; auto|]. right. by split_and!.
Qed.

Lemma identity_slot_range : identity_typed i -> identity_is_valid (Some i) = true ->
  0 <= identity_slot_id i < 2 /\ identity_image_generation i <> 0 /\ bytes_zero (identity_manifest_digest i) = false.
Proof.
  intros Hi Hv. unfold identity_is_valid, RIBON_UPDATE_SLOT_COUNT in Hv. bool_to_prop.
  pose proof (typed_identity_slot i Hi) as Hs. rewrite word32 in Hs. split_and!; [lia..|done|done].
Qed.

Lemma accept_answers cu cp w :
  accept_well_formed -> identity_typed i -> word 64 (view_attempt_sequence v) ->
  evidence r i protocol cu cp v binding -> at_rest cu cp w -> world_observer w = None ->
  (pending_identity_matches cu i = true -> can_confirm cu (identity_slot_id i)) ->
  (forall next, op_next (confirmation_op i v binding) cp = inr (Some next) ->
     snapshot_generation cp <> UINT64_MAX /\
     bytes_zero (record_identity (ProtectedWire.record_encode (successor cp next))) = false) ->
  exists w' receipt, ribon_boot_confirmation_accept (O:=O) (N:=N) (Some r) true w = (w', inr receipt).
Proof.
  intros (F1 & F2 & F3 & F4 & F5 & F6 & F7 & F8 & [e F9] & F10 & F11 & [k F12] & [g F13] & F14) Hi Hw He [Hu Hp] Hobs
    Hcu Hcp.
  pose proof (evidence_legal cu cp (protected_record_ok _ _ Hp) He Hcp) as Hrun.
  destruct He as [E1 [E2 E3] E4 E5 E6 E7 E8].
  assert (Hop : op_typed (confirmation_op i v binding)).
  { destruct (binding_digest_typed _ _ _ _ E4).
    split; [apply (typed_identity_sequence i Hi)|by split_and!]. }
  unfold ribon_boot_confirmation_accept. rewrite F1, F2, F5, F6, F7, F8, F11, F14, F3, F4, F9, F12, F13.
  cbn [is_null negb]. rewrite !Z.eqb_refl, (proj2 (Z.eqb_neq _ 0) F10). cbn [negb orb].
  unfold accept_checked. rewrite E1, E2, E3, E4. cbn [negb orb leave_if].
  destruct w as [u ob pw n]. cbn in Hu, Hp, Hobs. subst ob.
  unfold mbind, M_bind, call_update, call_protected. cbn [mret M_ret world_update world_observer world_protected world_nonce].
  rewrite F3, F4. destruct (update_open_answers (O:=O) cu u Hu) as (u1 & Eu).
  destruct (update_open_law _ _ _ _ _ _ Hu Eu) as (Hu1 & _). rewrite Eu. cbn [ok_or mret M_ret].
  assert (Hg : negb (update_was_confirmed cu i) && negb (pending_identity_matches cu i) = false)
    by (destruct E5 as [-> | ->]; [done|by rewrite andb_false_r]).
  rewrite Hg. cbn [leave_if mret M_ret world_update world_observer world_protected world_nonce].
  destruct (protected_open_answers cp pw Hp) as (p1 & Ep).
  destruct (protected_open_law _ _ _ _ Hp Ep) as (Hp1 & _). rewrite Ep. cbn [ok_or mret M_ret].
  rewrite E6, E7, E8. cbn [leave_if mret M_ret]. change (RIBON_PROTOCOL_STATUS_OK !=? RIBON_PROTOCOL_STATUS_OK) with false.
  cbn [leave_if mret M_ret]. unfold commit_confirmation, mbind, M_bind, call_update, call_protected.
  cbn [world_update world_observer world_protected world_nonce]. rewrite F4.
  destruct (protected_op_answers cp (confirmation_op i v binding) p1 Hop Hp1 Hrun) as (p2 & Erun).
  cbn [run_op confirmation_op] in Erun. rewrite Erun. cbn [ok_or mret M_ret world_update world_observer fst snd].
  destruct (identity_slot_range Hi F11) as [Hslot [Hgen Hman]].
  pose proof (confirm_request_named cu Hi (update_snapshot_ok _ _ Hu1) Hslot E5 Hcu) as Hnamed.
  destruct (update_confirm_answers (confirm_request (O:=O) i r None) cu u1) as (u2 & result & Ec); [|done..|].
  { unfold confirm_well_formed, RIBON_UPDATE_SLOT_COUNT. cbn. by split_and!; try lia. }
  rewrite Ec. cbn. eauto.
Qed.

(** A confirmed snapshot is not pending any more, and its attempt needs no commit. *)
Lemma confirmed_not_pending cu : identity_is_valid (Some i) = true -> identity_typed i -> image_confirmed i cu ->
  pending_identity_matches cu i = false.
Proof.
  intros Hv Hi (_ & Hp & _). destruct (identity_slot_range Hi Hv) as [Hs _].
  unfold pending_identity_matches. rewrite Hp. destruct (Z.eqb_spec RIBON_UPDATE_SLOT_NONE (identity_slot_id i)) as [E|];
    [|done]. rewrite <- E in Hs. by destruct Hs.
Qed.

Lemma confirmed_op_next cp next : attempt_confirmed i v binding cp ->
  op_next (confirmation_op i v binding) cp <> inr (Some next).
Proof.
  unfold attempt_confirmed, abs, op_next, confirmation_op. intros [= Hf Hk Hb].
  destruct (bad_binding _ _); [done|]. unfold already_confirmed.
  destruct (snapshot_kind cp =? RIBON_PROTECTED_STATE_KIND_CONFIRMED); [|done].
  destruct (snapshot_attempt_sequence cp =? 0); [done|]. injection Hb as -> ->.
  by rewrite Hf, !Z.eqb_refl, bytes_equal_refl.
Qed.

(** The snapshots that a run may leave on the media. *)
Definition may_leave (w : world) (cu : RibonUpdateTransactionSnapshot) (cp : RibonProtectedStateSnapshot) : Prop :=
  (forall Q, update_media (world_update w) Q -> Q cu) /\ (forall Q, protected_media (world_protected w) Q -> Q cp).

(** What the commits of a confirmation need of the journals. *)
Definition commits_possible (cu : RibonUpdateTransactionSnapshot) (cp : RibonProtectedStateSnapshot) : Prop :=
  (pending_identity_matches cu i = true -> can_confirm cu (identity_slot_id i)) /\
  (forall next, op_next (confirmation_op i v binding) cp = inr (Some next) ->
     snapshot_generation cp <> UINT64_MAX /\
     bytes_zero (record_identity (ProtectedWire.record_encode (successor cp next))) = false).

Lemma commits_underway cu cp cu' cp' : identity_is_valid (Some i) = true -> identity_typed i ->
  commits_possible cu cp -> underway cu cp cu' cp' -> commits_possible cu' cp'.
Proof.
  intros Hv Hi [Hu Hp] [[->|Hu'] [->|Hp']]; split; try done.
  - intros next Hn. by apply confirmed_op_next in Hn.
  - intros Hm. by rewrite confirmed_not_pending in Hm.
  - intros Hm. by rewrite confirmed_not_pending in Hm.
  - intros next Hn. by apply confirmed_op_next in Hn.
Qed.

(** There is one piece of evidence. *)
Lemma evidence_unique cu cp cu' cp' v' binding' : evidence r i protocol cu cp v binding ->
  evidence r i protocol cu' cp' v' binding' -> v' = v /\ binding' = binding.
Proof. intros [H _ Hb _ _ _ _] [H' _ Hb' _ _ _ _]. assert (v' = v) as -> by congruence. split; [done|congruence]. Qed.

(** C15: A confirmation that has its evidence completes, and can be retried until it
    does.  On storage that answers the call returns a receipt; and however a call
    went, interrupted by its observer or cut, the same envelope is accepted again
    by the media it may leave, as a duplicate if the image was confirmed already,
    with both confirmations durable. *)
Theorem accept_retry_completes cu cp w w' res cu2 cp2 w2 :
  accept_well_formed -> identity_typed i -> pointed (accept_envelope r) (accept_envelope_size r) ->
  octets (default [] (accept_envelope r)) -> evidence r i protocol cu cp v binding -> commits_possible cu cp ->
  at_rest cu cp w -> ribon_boot_confirmation_accept (O:=O) (N:=N) (Some r) true w = (w', res) ->
  (world_observer w = None -> exists receipt, res = inr receipt) /\
  (may_leave w' cu2 cp2 -> at_rest cu2 cp2 w2 -> world_observer w2 = None ->
   exists w3 receipt, ribon_boot_confirmation_accept (O:=O) (N:=N) (Some r) true w2 = (w3, inr receipt) /\
     accept_done r i protocol cu2 cp2 receipt w3 /\
     (image_confirmed i cu2 -> receipt_status receipt = RIBON_BOOT_CONFIRMATION_STATUS_DUPLICATE)).
Proof.
  intros Hwf Hi Hpt Hoct He Hcan Hw E. pose proof Hwf as (F1 & F2 & F3 & F4 & _ & _ & _ & _ & _ & _ & Hv & _).
  pose proof (opened_attempt r Hpt Hoct v (evidence_envelope _ _ _ _ _ _ _ He)) as Hseq. split.
  - intros Hobs. destruct Hcan as [Hcu Hcp]. destruct (accept_answers cu cp w) as (w'' & receipt & E'); [done..|].
    rewrite E in E'. injection E' as _ ->. by exists receipt.
  - intros [Hlu Hlp] Hw2 Hobs.
    destruct (accept_media r i protocol F1 F2 F3 F4 cu cp Hi Hpt Hoct w w' res Hw E) as (Hp & Hu & _).
    assert (Hund : underway cu cp cu2 cp2).
    { split; [by apply Hlu in Hu|]. apply Hlp in Hp as [->|(v' & b' & He' & Hc)]; [by left|right].
      by destruct (evidence_unique _ _ _ _ _ _ He He') as [-> ->]. }
    pose proof (evidence_underway _ _ _ _ He Hund) as He2.
    destruct (commits_underway _ _ _ _ Hv Hi Hcan Hund) as [Hcu2 Hcp2].
    destruct (accept_answers cu2 cp2 w2) as (w3 & receipt & E3); [done..|]. exists w3, receipt.
    pose proof (accept_run r i protocol F1 F2 F3 F4 cu2 cp2 Hi Hpt Hoct w2 w3 _ Hw2 E3) as Hdone.
    split_and!; [done..|]. intros Hc. destruct Hdone as (? & ? & ? & ? & _ & _ & _ & _ & _ & _ & _ & _ & _ & Hst).
    destruct Hst as [[Hst _]|(_ & _ & Hn)]; [done|]. by rewrite confirmed_evidence in Hn.
Qed.
End Retry.

(** ** Opening an attempt *)

Section Begin.
Context (r : RibonBootAttemptBeginRequest U P N) (i : RibonBootAttemptIdentity).
Context (source : RibonBootAttemptNonceSource N).
Context (Hi : begin_identity r = Some i) (Hsource : begin_nonce_source r = Some source).
Context (Hju : begin_update_journal r = Some ju) (Hjp : begin_protected_journal r = Some jp).
Context (Htyped : identity_typed i) (Hmax : word 32 (begin_maximum_attempts r)).
(** The source fills the 32-byte buffer. *)
Context (Hfill : forall f n, nonce_fill source = Some f -> len (snd (snd (f n))) = 32).
Context (cu : RibonUpdateTransactionSnapshot) (cp : RibonProtectedStateSnapshot).

(** The trial is opened for the attempt, or bound to it. *)
Definition trial_opened (binding : bytes) (sequence : Z) (s s' : rollback) : Prop :=
  step (Begin (identity_manifest_sequence i) (begin_maximum_attempts r) (Some (binding, sequence))) s s' \/
  step (Rebind (identity_manifest_sequence i) binding sequence) s s'.

(** The attempt is paid for. *)
Definition attempt_paid (binding : bytes) (sequence : Z) (s s' : rollback) : Prop :=
  exists s1, trial_opened binding sequence s s1 /\ step (Consume (identity_manifest_sequence i)) s1 s'.

(** The binding of the next attempt to some nonce. *)
Definition fresh_binding (nonce binding : bytes) : Prop :=
  len nonce = 32 /\ bytes_zero nonce = false /\ snapshot_attempt_sequence cp < UINT64_MAX /\
  ribon_boot_confirmation_binding_digest (Some i) (Some nonce) (snapshot_attempt_sequence cp + 1) true = Some binding.

Definition begin_failed (_ : RibonBootConfirmationStatus) (w : world) : Prop :=
  update_media (world_update w) (eq cu) /\
  protected_media (world_protected w) (fun c => c = cp \/ exists nonce binding, fresh_binding nonce binding /\
    (trial_opened binding (snapshot_attempt_sequence cp + 1) (abs cp) (abs c) \/
     attempt_paid binding (snapshot_attempt_sequence cp + 1) (abs cp) (abs c))).

Definition begin_done (attempt : RibonBootAttempt) (w : world) : Prop :=
  let sequence := snapshot_attempt_sequence cp + 1 in
  exists c, update_media (world_update w) (eq cu) /\ protected_media (world_protected w) (eq c) /\
    pending_identity_matches cu i = true /\
    entry_boot_attempts (slot_at (snapshot_metadata cu) (identity_slot_id i)) = begin_maximum_attempts r /\
    fresh_binding (attempt_nonce attempt) (attempt_binding_digest attempt) /\
    attempt_paid (attempt_binding_digest attempt) sequence (abs cp) (abs c) /\
    attempt_attempt_sequence attempt = sequence /\
    attempt_attempts_remaining attempt = snapshot_trial_attempts_remaining c /\
    attempt_protected_generation attempt = snapshot_generation c /\
    attempt_slot_id attempt = identity_slot_id i /\
    attempt_image_generation attempt = identity_image_generation i /\
    attempt_manifest_sequence attempt = identity_manifest_sequence i /\
    attempt_manifest_digest attempt = identity_manifest_digest i.

Lemma begin_rest st w : at_rest cu cp w -> begin_failed st w.
Proof. intros [Hu Hp]. split; [done|]. eapply protected_weaken; [exact Hp|]. intros c <-. by left. Qed.

(** One of the two operations that open a trial. *)
Lemma trial_op_triple nonce binding o : fresh_binding nonce binding -> op_typed o ->
  (forall s s', step o s s' -> trial_opened binding (snapshot_attempt_sequence cp + 1) s s') ->
  (forall s, ~ repeats o s) ->
  triple (at_rest cu cp) (r ← call_protected (O:=O) (N:=N) (run_op jp o); protected_result r)
    (fun _ w => exists c, trial_opened binding (snapshot_attempt_sequence cp + 1) (abs cp) (abs c) /\ at_rest cu c w)
    begin_failed.
Proof.
  intros Hb Ho Hstep Hrep. eapply triple_bind; [apply (protected_op_triple cu cp o _ Ho)|].
  intros res w (Hu & Hp & Hc). destruct res as [st|c].
  - assert (Hf : forall st', begin_failed st' w).
    { intros st'. split; [done|]. eapply protected_weaken; [exact Hp|].
      intros c [->|Hs]; [by left|right]. exists nonce, binding. auto. }
    destruct st; apply Hf.
  - destruct (Hc c eq_refl) as [Hpc [[Hs _]|[Hr _]]]; [|by apply Hrep in Hr].
    exists c. split; [by apply Hstep|]. by split.
Qed.

(** The trial is open and bound, or nothing moved past the next attempt. *)
Lemma open_trial_triple nonce binding : fresh_binding nonce binding -> record_ok (record_of cp) ->
  triple (at_rest cu cp)
    (open_trial (Some jp) cp (identity_manifest_sequence i) (begin_maximum_attempts r) binding
       (snapshot_attempt_sequence cp + 1))
    (fun _ w => exists c, trial_opened binding (snapshot_attempt_sequence cp + 1) (abs cp) (abs c) /\ at_rest cu c w)
    begin_failed.
Proof.
  intros Hb Hok. pose proof (ok_attempt_sequence _ Hok) as Hseq. cbn in Hseq. rewrite word64 in Hseq.
  assert (Hattempt : attempt_typed (Some (binding, snapshot_attempt_sequence cp + 1))).
  { destruct Hb as (_ & _ & Hlt & E). destruct (binding_digest_typed _ _ _ _ E).
    split_and!; [done..|apply word64; lia]. }
  unfold open_trial. destruct (_ =? _).
  - apply (trial_op_triple nonce binding (Begin (identity_manifest_sequence i) (begin_maximum_attempts r)
      (Some (binding, snapshot_attempt_sequence cp + 1)))); [done| |by left|by inversion 1].
    split_and!; [apply (typed_identity_sequence i Htyped)|done|exact Hattempt].
  - destruct (_ && _); [|intros w Hw; by apply begin_rest].
    apply (trial_op_triple nonce binding (Rebind (identity_manifest_sequence i) binding
      (snapshot_attempt_sequence cp + 1))); [done| |by right|by inversion 1].
    split; [apply (typed_identity_sequence i Htyped)|exact Hattempt].
Qed.

(** The attempt is consumed. *)
Lemma consume_triple nonce binding : fresh_binding nonce binding ->
  triple (fun w => exists c, trial_opened binding (snapshot_attempt_sequence cp + 1) (abs cp) (abs c) /\ at_rest cu c w)
    (consumed ← call_protected (O:=O) (N:=N)
                  (ribon_protected_state_consume_trial_attempt (Some jp) (identity_manifest_sequence i));
     protected_result consumed)
    (fun c w => attempt_paid binding (snapshot_attempt_sequence cp + 1) (abs cp) (abs c) /\ at_rest cu c w)
    begin_failed.
Proof.
  intros Hb. apply triple_exists. intros c1. apply triple_pure. intros Hopen.
  assert (Ho : op_typed (Consume (identity_manifest_sequence i))) by apply (typed_identity_sequence i Htyped).
  eapply triple_bind; [apply (protected_op_triple cu c1 _ _ Ho)|].
  intros res w (Hu & Hp & Hc). destruct res as [st|c].
  - assert (Hf : forall st', begin_failed st' w).
    { intros st'. split; [done|]. eapply protected_weaken; [exact Hp|].
      intros c [->|Hs]; right; exists nonce, binding; (split; [done|]); [by left|right]. by exists (abs c1). }
    destruct st; apply Hf.
  - destruct (Hc c eq_refl) as [Hpc [[Hs _]|[Hr _]]]; [|inversion Hr].
    split; [by exists (abs c1)|by split].
Qed.

Lemma call_fill_triple F :
  nonce_source_is_valid (Some source) = true ->
  triple (at_rest cu cp) (call_fill source) (fun filled w => len (snd filled) = 32 /\ at_rest cu cp w) F.
Proof.
  intros Hv w Hw. unfold call_fill. unfold nonce_source_is_valid in Hv. bool_to_prop.
  destruct (nonce_fill source) as [f|] eqn:Ef; [|done]. pose proof (Hfill f (world_nonce w) eq_refl) as Hl.
  destruct (f (world_nonce w)) as [n res]. by split.
Qed.

Lemma begin_triple :
  triple (at_rest cu cp) (ribon_boot_confirmation_begin_attempt (O:=O) (Some r) true) begin_done begin_failed.
Proof.
  unfold ribon_boot_confirmation_begin_attempt. rewrite Hi, Hsource.
  destruct (_ || _) eqn:G; [intros w Hw; by apply begin_rest|]. bool_to_prop.
  unfold begin_checked. rewrite Hju, Hjp.
  eapply triple_bind; [apply update_open_triple|]. intros opened. cbn beta.
  apply triple_pure. intros Hcu. eapply triple_bind; [apply ok_or_triple; intros; by apply begin_rest|].
  intros update. cbn beta. apply triple_pure. intros Hu. rewrite (Hcu update Hu). clear Hcu Hu opened update.
  eapply triple_bind; [apply (triple_leave_if _ (fun w => (pending_identity_matches cu i = true /\
    entry_boot_attempts (slot_at (snapshot_metadata cu) (identity_slot_id i)) = begin_maximum_attempts r) /\
    at_rest cu cp w))|intros []].
  { intros w Hw G. by bool_to_prop. }
  { intros w Hw _. by apply begin_rest. }
  apply triple_pure. intros Himage.
  eapply triple_bind; [apply protected_open_triple|]. intros opened. cbn beta.
  apply triple_pure. intros Hcp. eapply triple_bind; [apply ok_or_triple; intros; by apply begin_rest|].
  intros protected. cbn beta. apply triple_pure. intros Hp. rewrite (Hcp protected Hp). clear Hcp Hp opened protected.
  intros w0 Hw0. pose proof (protected_record_ok _ _ (proj2 Hw0)) as Hok.
  pose proof (ok_attempt_sequence _ Hok) as Hseq. cbn in Hseq. rewrite word64 in Hseq. revert w0 Hw0.
  eapply triple_bind; [apply (triple_leave_if _ (fun w => snapshot_attempt_sequence cp < UINT64_MAX /\ at_rest cu cp w))
    |intros []].
  { intros w Hw G. bool_to_prop. split; [lia|done]. }
  { intros w Hw _. by apply begin_rest. }
  apply triple_pure. intros Hlt. rewrite (wrap_small 64) by (apply word64; lia).
  eapply triple_bind; [by apply call_fill_triple|]. intros [st nonce]. cbn [fst snd].
  apply triple_pure. intros Hl.
  eapply triple_bind; [apply (triple_leave_if _ (fun w => bytes_zero nonce = false /\ at_rest cu cp w))|intros []].
  { intros w Hw G. by bool_to_prop. }
  { intros w Hw _. by apply begin_rest. }
  apply triple_pure. intros Hz.
  destruct (ribon_boot_confirmation_binding_digest _ _ _ _) as [binding|] eqn:Hb; [|intros w Hw; by apply begin_rest].
  assert (Hfresh : fresh_binding nonce binding) by (by split_and!).
  eapply triple_bind; [by apply (open_trial_triple nonce)|]. intros c1. cbn beta. clear c1.
  eapply triple_bind; [by apply (consume_triple nonce)|]. intros c. cbn beta.
  eapply triple_bind; [apply (triple_leave_if _ (fun w => attempt_paid binding (snapshot_attempt_sequence cp + 1)
    (abs cp) (abs c) /\ at_rest cu c w))|intros []].
  { intros w Hw _. exact Hw. }
  { intros w [Hpaid [Hu Hp]] _. split; [done|]. eapply protected_weaken; [exact Hp|]. intros ? <-. right.
    exists nonce, binding. auto. }
  apply triple_ret. intros w [Hpaid [Hu Hp]]. exists c. split_and!; try done; apply Himage.
Qed.

(** An attempt that is paid for leaves the trial bound to it. *)
Lemma paid_abs binding sequence c : attempt_paid binding sequence (abs cp) (abs c) ->
  exists n, abs c = mkRollback (floor (abs cp)) (Trial n) (Some (binding, sequence)) /\ 0 <= n /\
    identity_manifest_sequence i = floor (abs cp) + 1 /\
    (current_phase (abs cp) = Confirmed /\ n + 1 = begin_maximum_attempts r \/ current_phase (abs cp) = Trial (n + 1)).
Proof.
  generalize (abs c), (abs cp). intros s' s (s1 & Hopen & Hc).
  inversion Hc as [| |f b n Hn E1 E2 E3| | |]; subst s1 s'.
  destruct Hopen as [Hopen|Hopen]; inversion Hopen; subst; cbn;
    match goal with |- exists _, mkRollback _ (Trial (?n - 1)) _ = _ /\ _ => exists (n - 1) end;
    (split_and!; [done|lia|done|]).
  - left. split; [done|lia].
  - right. do 2 f_equal. lia.
Qed.

Lemma trial_remaining c f n b : abs c = mkRollback f (Trial n) b -> snapshot_trial_attempts_remaining c = n.
Proof. unfold abs. intros [= _ H _]. destruct (_ =? _); [done|]. by injection H. Qed.

Lemma bound_snapshot c f phase binding sequence : abs c = mkRollback f phase (Some (binding, sequence)) ->
  snapshot_trial_binding_digest c = binding /\ snapshot_attempt_sequence c = sequence.
Proof. unfold abs. intros [= _ _ H]. destruct (_ =? 0); [done|]. by injection H. Qed.

Lemma begin_run w w' res : at_rest cu cp w -> ribon_boot_confirmation_begin_attempt (O:=O) (Some r) true w = (w', res) ->
  match res with inr attempt => begin_done attempt w' | inl st => begin_failed st w' end.
Proof. intros Hw E. pose proof (begin_triple w Hw) as H. by rewrite E in H. Qed.

(** C17: An attempt is paid for before it is handed out.  When the call succeeds, the
    pending image is the identity's, and on every medium the protected journal is in
    the trial of the manifest sequence just above an unchanged floor, bound to the
    digest of this attempt's nonce, with the next attempt sequence and one attempt
    fewer than before, or than the maximum when the trial is new.  When it fails or
    is cut, each medium is as before or has this attempt's trial, the attempt
    consumed or not; the update journal never moves. *)
Theorem begin_attempt_pays w w' res :
  at_rest cu cp w -> ribon_boot_confirmation_begin_attempt (O:=O) (Some r) true w = (w', res) ->
  update_media (world_update w') (eq cu) /\
  match res with
  | inr attempt => exists c n, protected_media (world_protected w') (eq c) /\
      pending_identity_matches cu i = true /\
      attempt_attempt_sequence attempt = snapshot_attempt_sequence cp + 1 /\
      attempt_attempt_sequence attempt <= UINT64_MAX /\
      ribon_boot_confirmation_binding_digest (Some i) (Some (attempt_nonce attempt))
        (attempt_attempt_sequence attempt) true = Some (attempt_binding_digest attempt) /\
      abs c = mkRollback (floor (abs cp)) (Trial n)
        (Some (attempt_binding_digest attempt, attempt_attempt_sequence attempt)) /\
      attempt_attempts_remaining attempt = n /\ 0 <= n /\
      identity_manifest_sequence i = floor (abs cp) + 1 /\
      (current_phase (abs cp) = Confirmed /\ n + 1 = begin_maximum_attempts r \/
       current_phase (abs cp) = Trial (n + 1))
  | inl _ => protected_media (world_protected w') (fun c => c = cp \/
      exists nonce binding, fresh_binding nonce binding /\
        (trial_opened binding (snapshot_attempt_sequence cp + 1) (abs cp) (abs c) \/
         attempt_paid binding (snapshot_attempt_sequence cp + 1) (abs cp) (abs c)))
  end.
Proof.
  intros Hw E. pose proof (begin_run w w' res Hw E) as H. destruct res as [st|a]; [exact H|].
  destruct H as (c & Hu & Hp & Hm & _ & (_ & _ & Hlt & Hb) & Hpaid & Hseq & Hleft & _).
  destruct (paid_abs _ _ _ Hpaid) as (n & Eabs & Hn & Hi' & Hcase). split; [done|]. exists c, n. rewrite Hseq.
  split_and!; try done; [lia|]. rewrite Hleft. by apply (trial_remaining _ _ _ _ Eabs).
Qed.

(** *** The attempt on storage that answers *)

Context `{!UpdateAnswers O ju} `{!ProtectedAnswers jp}.

(** The request passes the argument check. *)
Definition begin_well_formed : Prop :=
  begin_size r = sizeof_RibonBootAttemptBeginRequest /\
  begin_abi_version r = RIBON_BOOT_CONFIRMATION_ABI_VERSION /\ begin_flags r = 0 /\
  0 < begin_maximum_attempts r <= RIBON_PROTECTED_STATE_MAX_TRIAL_ATTEMPTS /\
  nonce_source_is_valid (Some source) = true /\ bytes_zero (begin_reserved r) = true.

(** The operation that opens the trial, or binds the open one. *)
Definition opening_op (binding : bytes) : op :=
  let sequence := snapshot_attempt_sequence cp + 1 in
  if snapshot_kind cp =? RIBON_PROTECTED_STATE_KIND_CONFIRMED
  then Begin (identity_manifest_sequence i) (begin_maximum_attempts r) (Some (binding, sequence))
  else Rebind (identity_manifest_sequence i) binding sequence.

(** The trial has room for the attempt. *)
Definition attempt_room (binding : bytes) : Prop :=
  can_run (opening_op binding) cp /\
  can_run (Consume (identity_manifest_sequence i)) (after (opening_op binding) cp).

Lemma opening_op_run nonce binding : fresh_binding nonce binding -> attempt_room binding ->
  record_ok (record_of cp) ->
  op_typed (opening_op binding) /\
  open_trial (U:=U) (O:=O) (N:=N) (Some jp) cp (identity_manifest_sequence i) (begin_maximum_attempts r) binding
    (snapshot_attempt_sequence cp + 1) =
  (r ← call_protected (run_op jp (opening_op binding)); protected_result r) /\
  (forall s s', step (opening_op binding) s s' -> trial_opened binding (snapshot_attempt_sequence cp + 1) s s') /\
  (forall s, ~ repeats (opening_op binding) s).
Proof.
  intros (_ & _ & Hlt & Hb) [Hroom _] Hok. destruct (binding_digest_typed _ _ _ _ Hb) as [Hl Ho].
  pose proof (ok_attempt_sequence _ Hok) as Hseq. cbn in Hseq. rewrite word64 in Hseq.
  assert (Hw : word 64 (snapshot_attempt_sequence cp + 1)) by (apply word64; lia).
  pose proof (typed_identity_sequence i Htyped) as Hs.
  unfold opening_op, open_trial in *. destruct (_ =? _) eqn:Ek.
  - split_and!; [by split_and!|done|by left|by inversion 1].
  - assert (Hk : (snapshot_kind cp =? RIBON_PROTECTED_STATE_KIND_TRIAL) &&
      (snapshot_pending_sequence cp =? identity_manifest_sequence i) = true).
    { unfold can_run, op_next, rebind_next in Hroom. destruct (bad_binding _ _); [done|].
      destruct (_ || _) eqn:G in Hroom; [done|]. apply orb_false_iff in G as [G1 G2].
      apply negb_false_iff in G1, G2. by rewrite G1, G2. }
    rewrite Hk. split_and!; [by split_and!|done|by right|by inversion 1].
Qed.

(** An operation that cannot repeat takes its step. *)
Lemma op_steps c o p : op_typed o -> (forall s, ~ repeats o s) -> protected_media p (eq c) -> can_run o c ->
  exists p', run_op jp o p = (p', inr (after o c)) /\ protected_media p' (eq (after o c)) /\
    step o (abs c) (abs (after o c)).
Proof.
  intros Ho Hrep Hp Hcan. destruct (protected_op_answers c o p Ho Hp Hcan) as (p' & E). exists p'. split; [done|].
  destruct (protected_op_law c o p p' _ Ho Hp E) as [_ Hres]. destruct (Hres _ eq_refl) as [Hm [[Hs _]|[Hr _]]].
  - done.
  - by apply Hrep in Hr.
Qed.

Lemma begin_answers w f n nonce binding :
  begin_well_formed -> at_rest cu cp w -> world_observer w = None ->
  pending_identity_matches cu i = true ->
  entry_boot_attempts (slot_at (snapshot_metadata cu) (identity_slot_id i)) = begin_maximum_attempts r ->
  nonce_fill source = Some f -> f (world_nonce w) = (n, (0, nonce)) ->
  fresh_binding nonce binding -> attempt_room binding ->
  exists w' attempt, ribon_boot_confirmation_begin_attempt (O:=O) (Some r) true w = (w', inr attempt) /\
    attempt_nonce attempt = nonce /\ attempt_binding_digest attempt = binding /\
    attempt_attempt_sequence attempt = snapshot_attempt_sequence cp + 1 /\
    at_rest cu (after (Consume (identity_manifest_sequence i)) (after (opening_op binding) cp)) w' /\
    world_observer w' = None.
Proof.
  intros (F1 & F2 & F3 & F4 & F5 & F6) [Hu Hp] Hobs Hpending Hboot Hf Efill Hfresh Hroom.
  pose proof (protected_record_ok _ _ Hp) as Hok. pose proof (ok_attempt_sequence _ Hok) as Hseq.
  cbn in Hseq. rewrite word64 in Hseq. destruct Hfresh as (Hl & Hz & Hlt & Hb).
  destruct (binding_some _ _ _ _ Hb) as (Hv & _ & _ & _).
  destruct (opening_op_run nonce binding) as (Hop & Eopen & Hopened & Hrep); [done|done|done|].
  destruct Hroom as [Hroom1 Hroom2].
  unfold ribon_boot_confirmation_begin_attempt. rewrite Hi, Hsource, Hju, Hjp, F1, F2, F3, F5, F6, Hv.
  cbn [negb is_null]. rewrite !Z.eqb_refl. replace (begin_maximum_attempts r =? 0) with false by (symmetry; apply Z.eqb_neq; lia).
  replace (RIBON_PROTECTED_STATE_MAX_TRIAL_ATTEMPTS <? begin_maximum_attempts r) with false
    by (symmetry; apply Z.ltb_ge; lia).
  cbn [negb orb]. unfold begin_checked. rewrite Hju, Hjp.
  destruct w as [u ob pw nw]. cbn in Hu, Hp, Hobs, Efill. subst ob.
  unfold mbind, M_bind, call_update, call_protected, call_fill.
  cbn [mret M_ret world_update world_observer world_protected world_nonce].
  destruct (update_open_answers (O:=O) cu u Hu) as (u1 & Eu).
  destruct (update_open_law _ _ _ _ _ _ Hu Eu) as (Hu1 & _). rewrite Eu. cbn [ok_or mret M_ret].
  rewrite Hpending, Hboot, Z.eqb_refl. cbn [negb orb leave_if mret M_ret world_protected].
  destruct (protected_open_answers cp pw Hp) as (p1 & Ep).
  destruct (protected_open_law _ _ _ _ Hp Ep) as (Hp1 & _). rewrite Ep. cbn [ok_or mret M_ret].
  replace (snapshot_attempt_sequence cp =? UINT64_MAX) with false by (symmetry; apply Z.eqb_neq; lia).
  cbn [leave_if mret M_ret world_nonce]. rewrite (wrap_small 64) by (apply word64; lia).
  rewrite Hf, Efill. cbn [fst snd]. rewrite Hz, Hb. cbn [Z.eqb negb orb leave_if mret M_ret].
  rewrite Eopen. unfold mbind, M_bind, call_protected.
  cbn [world_update world_observer world_protected world_nonce].
  destruct (op_steps cp (opening_op binding) p1) as (p2 & E2 & Hp2 & Hs2); [done..|].
  rewrite E2. cbn [protected_result mret M_ret world_update world_observer world_protected world_nonce].
  destruct (op_steps (after (opening_op binding) cp) (Consume (identity_manifest_sequence i)) p2) as (p3 & E3 & Hp3 & Hs3);
    [apply (typed_identity_sequence i Htyped)|by inversion 1|done|done|].
  cbn [run_op] in E3. rewrite E3. cbn [protected_result mret M_ret].
  set (c := after (Consume _) _) in *.
  assert (Hpaid : attempt_paid binding (snapshot_attempt_sequence cp + 1) (abs cp) (abs c))
    by (eexists; split; [by apply Hopened|done]).
  destruct (paid_abs _ _ _ Hpaid) as (k & Eabs & _). destruct (bound_snapshot _ _ _ _ _ Eabs) as [-> ->].
  rewrite bytes_equal_refl, Z.eqb_refl. cbn [negb orb leave_if mret M_ret]. by eexists _, _.
Qed.

(** On storage that answers, a well-formed request for the pending image is
    granted an attempt whenever the trial has room: the sequence numbers are not
    exhausted, the source delivers a nonce that is not zero, and the protected
    journal takes the two steps, which is where it is left. *)
Theorem begin_attempt_completes w f n nonce binding :
  begin_well_formed -> at_rest cu cp w -> world_observer w = None ->
  pending_identity_matches cu i = true ->
  entry_boot_attempts (slot_at (snapshot_metadata cu) (identity_slot_id i)) = begin_maximum_attempts r ->
  nonce_fill source = Some f -> f (world_nonce w) = (n, (0, nonce)) ->
  fresh_binding nonce binding -> attempt_room binding ->
  exists w' attempt, ribon_boot_confirmation_begin_attempt (O:=O) (Some r) true w = (w', inr attempt) /\
    attempt_nonce attempt = nonce /\ attempt_binding_digest attempt = binding /\
    attempt_attempt_sequence attempt = snapshot_attempt_sequence cp + 1 /\
    at_rest cu (after (Consume (identity_manifest_sequence i)) (after (opening_op binding) cp)) w' /\
    world_observer w' = None.
Proof. apply begin_answers. Qed.
End Begin.

(** ** An attempt and its confirmation *)

(** C16: An envelope confirms one attempt only.  After an attempt was begun, on any
    protected medium that leaves, the only envelope that can change a journal or
    earn a receipt has that attempt's nonce and sequence number and is presented for
    the same mode, slot, versions, image, manifest, product and rollback domain,
    unless two different attempts collide under SHA-256; any other envelope leaves
    both journals as they are. *)
Theorem confirmation_binds_attempt
    (b : RibonBootAttemptBeginRequest U P N) i source cu cp w0 w1 attempt cu1 c
    (r : RibonBootConfirmationAcceptRequest U P) i' protocol w2 w3 res :
  begin_identity b = Some i -> begin_nonce_source b = Some source -> begin_update_journal b = Some ju ->
  begin_protected_journal b = Some jp -> identity_typed i -> word 32 (begin_maximum_attempts b) ->
  (forall f n, nonce_fill source = Some f -> len (snd (snd (f n))) = 32) ->
  at_rest cu cp w0 ->
  ribon_boot_confirmation_begin_attempt (O:=O) (Some b) true w0 = (w1, inr attempt) ->
  (forall Q, protected_media (world_protected w1) Q -> Q c) ->
  accept_identity r = Some i' -> accept_protocol r = Some protocol -> accept_update_journal r = Some ju ->
  accept_protected_journal r = Some jp -> identity_typed i' ->
  pointed (accept_envelope r) (accept_envelope_size r) -> octets (default [] (accept_envelope r)) ->
  at_rest cu1 c w2 ->
  ribon_boot_confirmation_accept (O:=O) (N:=N) (Some r) true w2 = (w3, res) ->
  (at_rest cu1 c w3 /\ exists st, res = inl st) \/
  exists v, ribon_boot_confirmation_envelope_open (accept_envelope r) (accept_envelope_size r) true = Some v /\
    (attempt_fields i' (view_nonce v) (view_attempt_sequence v) =
       attempt_fields i (attempt_nonce attempt) (attempt_attempt_sequence attempt) \/
     binding_collision i' (view_nonce v) (view_attempt_sequence v)
       i (attempt_nonce attempt) (attempt_attempt_sequence attempt)).
Proof.
  intros Hi Hsource Hbu Hbp Hty Hmax Hfill Hw0 Ebegin Hc Hi' Hpr Hau Hap Hty' Hpt Hoct Hw2 Eaccept.
  destruct (accept_evidence r i' protocol Hi' Hpr Hau Hap cu1 c Hty' Hpt Hoct w2 w3 res Hw2 Eaccept)
    as [H|(v & binding & He)]; [by left|right].
  destruct (begin_run b i source Hi Hsource Hbu Hbp Hty Hmax Hfill cu cp w0 w1 _ Hw0 Ebegin)
    as (c' & _ & Hp & _ & _ & (Hln & _ & Hlt & Hfresh) & Hpaid & Hseq & _).
  apply Hc in Hp. subst c'. destruct (paid_abs b i cp _ _ _ Hpaid) as (n & Eabs & _).
  destruct (bound_snapshot _ _ _ _ _ Eabs) as [Hdigest Hsequence].
  destruct He as [Hopen _ Hbind _ Hstale _ _]. exists v. split; [done|].
  pose proof (opened_attempt r Hpt Hoct v Hopen) as Hav.
  destruct (stale_binding c v binding i' (protected_record_ok _ _ (proj2 Hw2))
    (proj1 (binding_digest_typed _ _ _ _ Hbind)) Hstale) as [_ Eb].
  rewrite <- Eb, Hdigest in Hbind. rewrite Hseq.
  eapply same_binding; [done|by apply opened_nonce with r|done|done|done| |exact Hbind|exact Hfresh].
  pose proof (ok_attempt_sequence _ (protected_record_ok _ _ (proj2 Hw0))) as Hw. cbn in Hw. rewrite word64 in Hw.
  apply word64. lia.
Qed.
End Engine.

(** ** The longest protocol identifier *)


(** An identity whose protocol identifier has the full 64 bytes that
    [identity_is_valid] admits is refused by [protocol_matches_identity] for every
    protocol: its attempt can be begun but never confirmed. *)
Theorem longest_protocol_id_never_matches protocol i :
  identity_protocol_id_size i = RIBON_BOOT_CONFIRMATION_MAX_PROTOCOL_ID_BYTES ->
  protocol_matches_identity protocol i = false.
Proof.
  intros Hs. unfold protocol_matches_identity. destruct (_ || _); [done|]. rewrite Hs. apply andb_false_iff. left.
  destruct (Z.eqb_spec (bounded_length (Z.to_nat RIBON_BOOT_CONFIRMATION_MAX_PROTOCOL_ID_BYTES)
    (default [] (protocol_id protocol))) RIBON_BOOT_CONFIRMATION_MAX_PROTOCOL_ID_BYTES) as [->|]; [done|].
  apply andb_false_r.
Qed.
