(* ===== verification/ConfirmationFixture.v ===== *)
(** * A boot attempt and its confirmation, on concrete journals

    The memory-backed update journal with an image on trial, the protected journal
    provisioned with floor 5 and the sample trust store: an attempt is begun on
    them and the booted system's envelope is accepted, so that the theorems about
    any journals, stores and protocols apply to these. *)

From S2P Require Import Prelude.
From S2P Require Import Effects.
From S2P Require Import Buffer.
From S2P Require Import Wire.
From S2P Require Import Sha256.
From S2P Require Import Provider.
From S2P Require Import Layout.
From S2P Require Import SlotMetadata.
From S2P Require Import MemoryProvider.
From S2P Require Import Session.
From S2P Require Import Signature.
From S2P Require Import KeyPolicy.
From S2P Require Import KeyPolicyProperties.
From S2P Require Import KeyPolicyFixture.
From S2P Require Import Protocol.
From S2P Require Import TransactionWire.
From S2P Require Import Transaction.
From S2P Require Import TransactionCrash.
From S2P Require Import TransactionProperties.
From S2P Require Import ProtectedWire.
From S2P Require Import ProtectedState.
From S2P Require Import ProtectedLogic.
From S2P Require Import ProtectedCrash.
From S2P Require Import ProtectedSpec.
From S2P Require Import ProtectedProperties.
From S2P Require Import ProtectedFixture.
From S2P Require Import JournalInterface.
From S2P Require Import ConfirmationWire.
From S2P Require Import ConfirmationCodec.
From S2P Require Import Confirmation.
From S2P Require Import ConfirmationProperties.

Abbreviation update_sample := TransactionProperties.sample_journal.
Abbreviation protected_sample := ProtectedFixture.sample_journal.
Abbreviation pending := TransactionProperties.trial_snapshot.

#[export] Instance sample_update_journal : UpdateJournal unit update_sample :=
  update_journal sample_provider update_sample sample_layout TransactionProperties.sample_journal_ready sample_untorn.
#[export] Instance sample_protected_journal : ProtectedJournal protected_sample :=
  protected_journal fixture protected_sample sample_ready fixture_torn.

#[export] Instance sample_update_answers : UpdateAnswers unit update_sample.
Proof. apply update_answers, memory_provider_reliable. Qed.
#[export] Instance sample_protected_answers : ProtectedAnswers protected_sample.
Proof. apply protected_answers, fixture_reliable. Qed.

(** ** The envelope *)

(** Image 8 in slot 1, of product "p" and booted by protocol "q". *)
Definition sample_identity : RibonBootAttemptIdentity :=
  mkIdentity sizeof_RibonBootAttemptIdentity RIBON_BOOT_CONFIRMATION_ABI_VERSION 1 1 3 0 1 0 8 6
    (Some [112]) 1 (Some [113]) 1 (replicate 32 4) sample_product_digest sample_rollback_domain [0; 0; 0; 0].

Definition sample_nonce : bytes := 9 :: zeros 31.

(** It reports three bytes of health and signs with key "b". *)
Definition sample_source : RibonBootConfirmationEnvelopeSource :=
  mkEnvelopeSource sizeof_RibonBootConfirmationEnvelopeSource RIBON_BOOT_CONFIRMATION_ABI_VERSION 0 1 3 0 1 0 8 6 1
    (Some [112]) 1 (Some [113]) 1 (Some [98]) 1 (Some [1; 2; 3]) 3 (replicate 32 4) sample_nonce (2 :: zeros 63)
    (zeros 32).

Definition sample_envelope : bytes :=
  Eval vm_compute in default [] (ribon_boot_confirmation_envelope_encode (Some sample_source) true 2048 true).
Definition health_digest : bytes := Eval vm_compute in ribon_security_sha256 [1; 2; 3].
Definition sample_binding : bytes :=
  Eval vm_compute in ribon_security_sha256 (binding_message sample_identity sample_nonce 1).

Lemma sample_envelope_encoded :
  ribon_boot_confirmation_envelope_encode (Some sample_source) true 2048 true = Some sample_envelope.
Proof. vm_compute. reflexivity. Qed.

Lemma sample_envelope_octets : octets sample_envelope.
Proof. by apply octetsb_octets. Qed.

Definition sample_view : RibonBootConfirmationEnvelopeView :=
  Eval vm_compute in default (view_of sample_source [])
    (ribon_boot_confirmation_envelope_open (Some sample_envelope) (len sample_envelope) true).

Lemma sample_envelope_opens :
  ribon_boot_confirmation_envelope_open (Some sample_envelope) (len sample_envelope) true = Some sample_view.
Proof. vm_compute. reflexivity. Qed.

Lemma sample_source_typed : source_typed sample_source.
Proof.
  constructor;
    lazymatch goal with
    | |- word 32 _ => by apply word32
    | |- word 64 _ => by apply word64
    | |- pointed _ _ /\ _ => split; [by intros b [= <-]|by apply octetsb_octets]
    | |- _ => split; [reflexivity|by apply octetsb_octets]
    end.
Qed.

Lemma sample_identity_typed : identity_typed sample_identity.
Proof.
  constructor;
    lazymatch goal with
    | |- word 32 _ => by apply word32
    | |- word 64 _ => by apply word64
    | |- pointed _ _ => by intros b [= <-]
    | |- _ => reflexivity
    end.
Qed.

Lemma sample_binding_digest :
  ribon_boot_confirmation_binding_digest (Some sample_identity) (Some sample_nonce) 1 true = Some sample_binding.
Proof. vm_compute. reflexivity. Qed.

Lemma sample_health_digest :
  bytes_zero (ribon_security_sha256 (default [] (source_health_payload sample_source))) = false.
Proof. vm_compute. reflexivity. Qed.

Lemma envelope_roundtrip_witness :
  ribon_boot_confirmation_envelope_open (Some sample_envelope) (len sample_envelope) true =
  Some (view_of sample_source sample_envelope).
Proof.
  exact (envelope_roundtrip sample_source 2048 sample_envelope sample_source_typed sample_health_digest
    sample_envelope_encoded).
Defined.

Lemma envelope_canonical_witness :
  ribon_boot_confirmation_envelope_encode (Some (source_of sample_view)) true (len sample_envelope) true =
    Some sample_envelope /\ sample_view = view_of (source_of sample_view) sample_envelope.
Proof. exact (envelope_canonical sample_envelope sample_view sample_envelope_octets sample_envelope_opens). Defined.

Lemma envelope_open_typed_witness : source_typed (source_of sample_view).
Proof.
  exact (proj1 (envelope_open_typed sample_envelope sample_view sample_envelope_octets sample_envelope_opens)).
Defined.

(** The same attempt is bound twice. *)
Lemma binding_digest_binds_witness :
  attempt_fields sample_identity sample_nonce 1 = attempt_fields sample_identity sample_nonce 1.
Proof.
  destruct (binding_digest_binds sample_identity sample_nonce 1 sample_identity sample_nonce 1 sample_binding
    sample_identity_typed eq_refl ltac:(by apply word64) sample_identity_typed eq_refl ltac:(by apply word64)
    sample_binding_digest sample_binding_digest) as [H|[H _]]; [exact H|destruct (H eq_refl)].
Defined.

(** ** The attempt *)

Definition sample_source_of_nonces : RibonBootAttemptNonceSource unit :=
  mkNonceSource sizeof_RibonBootAttemptNonceSource RIBON_BOOT_CONFIRMATION_ABI_VERSION 0 0
    (Some (fun n => (n, (0, sample_nonce)))) [0; 0; 0; 0].

Definition sample_begin : RibonBootAttemptBeginRequest (media 8704) store unit :=
  mkBeginRequest sizeof_RibonBootAttemptBeginRequest RIBON_BOOT_CONFIRMATION_ABI_VERSION 0 2 (Some sample_identity)
    (Some update_sample) (Some protected_sample) (Some sample_source_of_nonces) [0; 0; 0; 0].

Definition sample_world : world (media 8704) unit store unit :=
  mkWorld trial_media None (both sample_objects) tt.

Lemma sample_rest : at_rest update_sample protected_sample pending sample_snapshot sample_world.
Proof.
  split.
  - intros d Hd. exists pending. split; [by apply trial_media_opens|done].
  - intros x Hx. exists sample_snapshot. split; [by apply sample_settled|done].
Qed.

Lemma sample_fill f n : nonce_fill sample_source_of_nonces = Some f -> len (snd (snd (f n))) = 32.
Proof. by intros [= <-]. Qed.

(** The protected journal after the attempt was begun, and after it was paid for. *)
Definition opened : RibonProtectedStateSnapshot :=
  after (opening_op sample_begin sample_identity sample_snapshot sample_binding) sample_snapshot.
Definition begun : RibonProtectedStateSnapshot :=
  after (Consume (identity_manifest_sequence sample_identity)) opened.

#[local] Opaque ProtectedWire.record_encode ProtectedWire.selector_encode record_identity.

Lemma sample_pending_matches : pending_identity_matches pending sample_identity = true.
Proof. vm_compute. reflexivity. Qed.

Lemma sample_attempts : entry_boot_attempts (slot_at (snapshot_metadata pending) (identity_slot_id sample_identity)) =
  begin_maximum_attempts sample_begin.
Proof. vm_compute. reflexivity. Qed.

Lemma sample_fresh : fresh_binding sample_identity sample_snapshot sample_nonce sample_binding.
Proof. split_and!; [reflexivity|reflexivity|reflexivity|exact sample_binding_digest]. Qed.

Lemma sample_room : attempt_room sample_begin sample_identity sample_snapshot sample_binding.
Proof. split; (split; [discriminate|vm_compute; reflexivity]). Qed.

Lemma sample_begin_formed : begin_well_formed sample_begin sample_source_of_nonces.
Proof. split_and!; reflexivity || discriminate. Qed.

Lemma sample_maximum : word 32 (begin_maximum_attempts sample_begin).
Proof. by apply word32. Qed.

Lemma sample_begun : exists w attempt,
  ribon_boot_confirmation_begin_attempt (Some sample_begin) true sample_world = (w, inr attempt) /\
  at_rest update_sample protected_sample pending begun w /\ world_observer w = None.
Proof.
  destruct (begin_answers update_sample protected_sample sample_begin sample_identity sample_source_of_nonces
    eq_refl eq_refl eq_refl eq_refl sample_identity_typed sample_maximum pending sample_snapshot sample_world _ tt sample_nonce
    sample_binding sample_begin_formed sample_rest eq_refl sample_pending_matches sample_attempts eq_refl eq_refl
    sample_fresh sample_room) as (w & attempt & H & _ & _ & _ & Hw & Ho).
  exists w, attempt. split; [exact H|]. split; [exact Hw|exact Ho].
Qed.

Lemma begin_attempt_pays_witness : exists w res,
  ribon_boot_confirmation_begin_attempt (Some sample_begin) true sample_world = (w, res) /\
  update_media (UpdateJournal:=sample_update_journal) (world_update w) (eq pending).
Proof.
  destruct (ribon_boot_confirmation_begin_attempt (Some sample_begin) true sample_world) as [w res] eqn:E.
  exists w, res. split; [reflexivity|].
  exact (proj1 (begin_attempt_pays update_sample protected_sample sample_begin sample_identity sample_source_of_nonces
    eq_refl eq_refl eq_refl eq_refl sample_identity_typed sample_maximum sample_fill pending sample_snapshot
    sample_world w res sample_rest E)).
Defined.

Lemma begin_attempt_completes_witness : exists w attempt,
  ribon_boot_confirmation_begin_attempt (Some sample_begin) true sample_world = (w, inr attempt) /\
  attempt_nonce attempt = sample_nonce /\ attempt_binding_digest attempt = sample_binding.
Proof.
  destruct (begin_attempt_completes update_sample protected_sample sample_begin sample_identity
    sample_source_of_nonces eq_refl eq_refl eq_refl eq_refl sample_identity_typed sample_maximum pending
    sample_snapshot sample_world _ tt sample_nonce sample_binding sample_begin_formed sample_rest eq_refl
    sample_pending_matches sample_attempts eq_refl eq_refl sample_fresh sample_room)
    as (w & attempt & H & Hn & Hb & _).
  exists w, attempt. split; [exact H|split; [exact Hn|exact Hb]].
Defined.

(** ** The confirmation *)

(** A protocol "q" that takes every report for good. *)
Definition sample_protocol : RibonBootProtocol :=
  mkBootProtocol sizeof_RibonBootProtocol 3 (Some [113]) (Some [107]) RIBON_TERMINAL_EXECUTION_DIRECT_ENTRY 0 1
    (Some [104]) 1
    (Some (mkProtocolOps sizeof_RibonBootProtocolOps RIBON_BOOT_PROTOCOL_OPS_ABI_VERSION 1 1 (Some 2) 1 1
             (Some (fun _ => RIBON_PROTOCOL_STATUS_OK)))).

Definition sample_accept : RibonBootConfirmationAcceptRequest (media 8704) store :=
  mkAcceptRequest sizeof_RibonBootConfirmationAcceptRequest RIBON_BOOT_CONFIRMATION_ABI_VERSION 0 0
    (Some sample_envelope) (len sample_envelope) (Some sample_identity) (Some sample_protocol)
    (Some sample_store) (Some sample_signatures) 0 0 (Some update_sample) (Some protected_sample) [0; 0; 0; 0].

Lemma sample_pointed : pointed (accept_envelope sample_accept) (accept_envelope_size sample_accept).
Proof. by intros b [= <-]. Qed.

Lemma sample_accept_formed : accept_well_formed update_sample protected_sample sample_accept sample_identity sample_protocol.
Proof. split_and!; first [reflexivity|discriminate|by eexists]. Qed.

Lemma sample_signed :
  fst (ribon_key_policy_verify (Some sample_store) (Some (confirmation_signature sample_view sample_identity sample_accept))
         (Some empty_decision)) = RIBON_KEY_POLICY_STATUS_OK.
Proof.
  unfold ribon_key_policy_verify.
  change (signed_policy (confirmation_signature sample_view sample_identity sample_accept)) with (Some sample_request).
  rewrite sample_authorize. vm_compute. reflexivity.
Qed.

Lemma sample_evidence :
  evidence sample_accept sample_identity sample_protocol pending begun sample_view sample_binding.
Proof.
  constructor; [exact sample_envelope_opens|by split|exact sample_binding_digest|by right; exact sample_pending_matches
    | |exact sample_signed|reflexivity].
  vm_compute. reflexivity.
Qed.

Lemma sample_can_confirm : can_confirm pending 1.
Proof.
  assert (Ht : ribon_update_slot_metadata_transition (Some (snapshot_metadata pending))
    (Some (TransactionCrash.confirm_request pending 1)) = (RIBON_UPDATE_STORAGE_STATUS_OK, sample_confirmed))
    by (vm_compute; reflexivity).
  pose proof sample_confirmed_accepted as Hp. unfold plan_accepted in Hp.
  destruct (commit_plan (Some pending) sample_confirmed 1) as [st|plan] eqn:E; [discriminate|].
  exists sample_confirmed, plan. split; [exact Ht|exact E].
Qed.

(** The record that confirms the attempt. *)
Definition confirming : RibonProtectedRecord :=
  next_record RIBON_PROTECTED_STATE_KIND_CONFIRMED 6 0 0 sample_binding 1.

Lemma confirming_identity :
  bytes_zero (record_identity (ProtectedWire.record_encode (successor begun confirming))) = false.
Proof. vm_compute. reflexivity. Qed.

Lemma sample_commits : commits_possible sample_identity sample_view sample_binding pending begun.
Proof.
  split; [intros _; exact sample_can_confirm|]. intros next Hn.
  assert (next = confirming) as -> by (vm_compute in Hn; by injection Hn as <-).
  split; [discriminate|exact confirming_identity].
Qed.

(** What the media hold is what they may leave. *)
Lemma rest_may_leave cu cp (w : world (media 8704) unit store unit) :
  at_rest update_sample protected_sample cu cp w -> may_leave update_sample protected_sample w cu cp.
Proof.
  intros [Hu Hp]. split; intros Q HQ.
  - destruct (HQ (Provider.content (world_update w)) (or_introl eq_refl)) as (c & Hc & HQc).
    destruct (Hu (Provider.content (world_update w)) (or_introl eq_refl)) as (c' & Hc' & <-). congruence.
  - destruct (HQ _ (or_introl eq_refl)) as (c & [Hc _] & HQc).
    destruct (Hp _ (or_introl eq_refl)) as (c' & [Hc' _] & <-). congruence.
Qed.

Lemma accept_crash_safe_witness : exists (w w' : world (media 8704) unit store unit) res,
  at_rest update_sample protected_sample pending begun w /\
  ribon_boot_confirmation_accept (Some sample_accept) true w = (w', res) /\
  update_media (UpdateJournal:=sample_update_journal) (world_update w')
    (fun c => c = pending \/ image_confirmed sample_identity c).
Proof.
  destruct sample_begun as (w & attempt & _ & Hw & _).
  destruct (ribon_boot_confirmation_accept (Some sample_accept) true w) as [w' res] eqn:E.
  exists w, w', res. split; [exact Hw|split; [exact E|]].
  exact (proj1 (proj2 (accept_crash_safe update_sample protected_sample sample_accept sample_identity sample_protocol
    eq_refl eq_refl eq_refl eq_refl pending begun sample_identity_typed sample_pointed sample_envelope_octets
    w w' res Hw E))).
Defined.

Lemma sample_accepted w : at_rest update_sample protected_sample pending begun w -> world_observer w = None ->
  exists w' receipt, ribon_boot_confirmation_accept (O:=unit) (N:=unit) (Some sample_accept) true w = (w', inr receipt).
Proof.
  intros Hw Ho. apply (accept_answers update_sample protected_sample sample_accept sample_identity sample_protocol
    sample_view sample_binding pending begun w sample_accept_formed sample_identity_typed ltac:(by apply word64)
    sample_evidence Hw Ho (proj1 sample_commits) (proj2 sample_commits)).
Qed.

Lemma accept_authenticated_witness : exists v,
  ribon_boot_confirmation_envelope_open (Some sample_envelope) (len sample_envelope) true = Some v /\
  authorised sample_store (confirmation_policy v sample_identity).
Proof.
  destruct sample_begun as (w & attempt & _ & Hw & Ho). destruct (sample_accepted w Hw Ho) as (w' & receipt & E).
  destruct (accept_authenticated update_sample protected_sample sample_accept sample_identity sample_protocol
    eq_refl eq_refl eq_refl eq_refl pending begun sample_identity_typed sample_pointed sample_envelope_octets
    sample_envelope sample_store sample_signatures w w' (inr receipt) eq_refl sample_store_typed eq_refl eq_refl Hw E)
    as [[_ [st Hst]]|(v & Hopen & _ & _ & _ & Ha & _)]; [discriminate Hst|].
  exists v. split; [exact Hopen|exact Ha].
Defined.

(** The envelope is presented a second time, after it was accepted. *)
Lemma accept_retry_completes_witness : exists (w w' w2 w3 : world (media 8704) unit store unit) receipt again,
  ribon_boot_confirmation_accept (Some sample_accept) true w = (w', inr receipt) /\
  ribon_boot_confirmation_accept (Some sample_accept) true w2 = (w3, inr again) /\
  receipt_status again = RIBON_BOOT_CONFIRMATION_STATUS_DUPLICATE.
Proof.
  destruct sample_begun as (w & attempt & _ & Hw & Ho). destruct (sample_accepted w Hw Ho) as (w' & receipt & E).
  destruct (accept_run update_sample protected_sample sample_accept sample_identity sample_protocol eq_refl eq_refl
    eq_refl eq_refl pending begun sample_identity_typed sample_pointed sample_envelope_octets w w' _ Hw E)
    as (v & binding & c & c' & _ & Hu & Hc & Hp & _).
  set (w2 := mkWorld (world_update w') (None : option (RibonUpdateTransactionObserver unit)) (world_protected w')
    (world_nonce w')).
  assert (Hw2 : at_rest update_sample protected_sample c c' w2) by (split; [exact Hu|exact Hp]).
  pose proof (proj2 (accept_retry_completes update_sample protected_sample sample_accept sample_identity
    sample_protocol sample_view sample_binding pending begun w w' (inr receipt) c c' w2 sample_accept_formed
    sample_identity_typed sample_pointed sample_envelope_octets sample_evidence sample_commits Hw E)
    (rest_may_leave c c' w2 Hw2) Hw2 eq_refl) as (w3 & again & E3 & _ & Hd).
  exists w, w', w2, w3, receipt, again. split; [exact E|split; [exact E3|exact (Hd Hc)]].
Defined.

Lemma confirmation_binds_attempt_witness : exists (w0 w1 w3 : world (media 8704) unit store unit) attempt receipt v,
  ribon_boot_confirmation_begin_attempt (Some sample_begin) true w0 = (w1, inr attempt) /\
  ribon_boot_confirmation_accept (Some sample_accept) true w1 = (w3, inr receipt) /\
  (attempt_fields sample_identity (view_nonce v) (view_attempt_sequence v) =
     attempt_fields sample_identity (attempt_nonce attempt) (attempt_attempt_sequence attempt) \/
   binding_collision sample_identity (view_nonce v) (view_attempt_sequence v)
     sample_identity (attempt_nonce attempt) (attempt_attempt_sequence attempt)).
Proof.
  destruct sample_begun as (w1 & attempt & Eb & Hw & Ho). destruct (sample_accepted w1 Hw Ho) as (w3 & receipt & E).
  destruct (confirmation_binds_attempt update_sample protected_sample sample_begin sample_identity
    sample_source_of_nonces pending sample_snapshot sample_world w1 attempt pending begun sample_accept
    sample_identity sample_protocol w1 w3 (inr receipt) eq_refl eq_refl eq_refl eq_refl sample_identity_typed
    sample_maximum sample_fill sample_rest Eb (proj2 (rest_may_leave pending begun w1 Hw)) eq_refl eq_refl eq_refl
    eq_refl sample_identity_typed sample_pointed sample_envelope_octets Hw E) as [[_ [st Hst]]|(v & _ & Hv)];
    [discriminate Hst|].
  exists sample_world, w1, w3, attempt, receipt, v. split; [exact Eb|split; [exact E|exact Hv]].
Defined.

(** Such an identity is valid. *)
Lemma longest_protocol_id_valid :
  identity_is_valid (Some (mkIdentity sizeof_RibonBootAttemptIdentity RIBON_BOOT_CONFIRMATION_ABI_VERSION 1 1 3 0 1 0 8 6
    (Some [112]) 1 (Some (replicate 64 113)) 64 (replicate 32 4) sample_product_digest sample_rollback_domain
    [0; 0; 0; 0])) = true.
Proof. vm_compute. reflexivity. Qed.
