(* ===== verification/Manifest.v ===== *)
(** * Update manifests ([src/update/manifest.c])

    The canonical manifest of an update bundle with its independent reader, the
    detached signature envelope, the message that is signed and the authorisation
    of a manifest against a product, a trust store and a signature provider. *)

From S2P Require Import Prelude.
From S2P Require Import Buffer.
From S2P Require Import Wire.
From S2P Require Import Sha256.
From S2P Require Import Signature.
From S2P Require Import KeyPolicy.

Definition RIBON_UPDATE_MANIFEST_ABI_VERSION : Z := 1.
Definition RIBON_UPDATE_MANIFEST_DIGEST_BYTES : Z := 32.
Definition RIBON_UPDATE_MANIFEST_HEADER_BYTES : Z := 256.
Definition RIBON_UPDATE_MANIFEST_BINDING_BYTES : Z := 256.
Definition RIBON_UPDATE_MANIFEST_COMPONENT_BYTES : Z := 192.
Definition RIBON_UPDATE_MANIFEST_MAX_COMPONENTS : Z := 16.
Definition RIBON_UPDATE_MANIFEST_SECTION_COUNT : Z := 2.
Definition RIBON_UPDATE_SIGNED_MESSAGE_V1_BYTES : Z := 256.
Definition RIBON_UPDATE_SIGNATURE_ENVELOPE_HEADER_BYTES : Z := 160.
Definition RIBON_UPDATE_SIGNATURE_KEY_ID_MAX_BYTES : Z := 64.
Definition RIBON_UPDATE_COMPONENT_REQUIRED : Z := 1.
Definition RIBON_UPDATE_MANIFEST_MAJOR : Z := 1.
Definition RIBON_UPDATE_MANIFEST_MINOR : Z := 0.
Definition RIBON_UPDATE_SIGNATURE_ENVELOPE_MAJOR : Z := 1.
Definition RIBON_UPDATE_SIGNATURE_ENVELOPE_MINOR : Z := 0.
Definition RIBON_UPDATE_SIGNED_MESSAGE_MAJOR : Z := 1.
Definition RIBON_UPDATE_SIGNED_MESSAGE_MINOR : Z := 0.
Definition RIBON_UPDATE_HASH_SHA256 : Z := 1.
Definition RIBON_UPDATE_SIGNATURE_ED25519 : Z := 1.
Definition RIBON_UPDATE_DIRECTORY_OFFSET : Z := 128.
Definition RIBON_UPDATE_DIRECTORY_ENTRY_BYTES : Z := 32.
Definition RIBON_UPDATE_BINDING_OFFSET : Z := 256.
Definition RIBON_UPDATE_COMPONENTS_OFFSET : Z := 512.
Definition RIBON_UPDATE_SECTION_BINDING : Z := 1.
Definition RIBON_UPDATE_SECTION_COMPONENTS : Z := 2.
Definition RIBON_UPDATE_COMPONENT_ROLE_KERNEL : Z := 1.
Definition RIBON_UPDATE_COMPONENT_ROLE_BOOT_MODULE : Z := 2.
Definition RIBON_UPDATE_COMPONENT_ROLE_POLICY : Z := 3.
Definition RIBON_UPDATE_COMPONENT_ROLE_FIRMWARE : Z := 4.
Definition RIBON_UPDATE_COMPONENT_ROLE_RECOVERY_IMAGE : Z := 5.
Definition RIBON_UPDATE_DESTINATION_KERNEL_SLOT : Z := 1.
Definition RIBON_UPDATE_DESTINATION_MODULE_SLOT : Z := 2.
Definition RIBON_UPDATE_DESTINATION_POLICY_SLOT : Z := 3.
Definition RIBON_UPDATE_DESTINATION_FIRMWARE_SLOT : Z := 4.
Definition RIBON_UPDATE_DESTINATION_RECOVERY_SLOT : Z := 5.
Definition RIBON_UPDATE_IMAGE_FORMAT_OPAQUE : Z := 1.
Definition RIBON_UPDATE_IMAGE_FORMAT_RAW : Z := 5.
Definition RIBON_KEY_POLICY_MODE_RECOVERY : Z := 2.
Definition RIBON_KEY_POLICY_MODE_PROVISIONING : Z := 3.
Definition RIBON_KEY_POLICY_USAGE_UPDATE_MANIFEST : Z := 5.
Definition SIZE_MAX : Z := UINT64_MAX.
Definition sizeof_RibonUpdateComponent : Z := 216.
Definition sizeof_RibonUpdateManifestInput : Z := 336.
Definition sizeof_RibonUpdateSignatureEnvelopeInput : Z := 96.
Definition sizeof_RibonUpdateManifestExpectation : Z := 280.
Definition sizeof_RibonUpdateManifestAuthorization : Z := 120.

Inductive RibonUpdateManifestStatus :=
| RIBON_UPDATE_MANIFEST_STATUS_OK
| RIBON_UPDATE_MANIFEST_STATUS_INVALID_ARGUMENT
| RIBON_UPDATE_MANIFEST_STATUS_CAPACITY
| RIBON_UPDATE_MANIFEST_STATUS_UNSUPPORTED_VERSION
| RIBON_UPDATE_MANIFEST_STATUS_UNSUPPORTED_ALGORITHM
| RIBON_UPDATE_MANIFEST_STATUS_MALFORMED
| RIBON_UPDATE_MANIFEST_STATUS_IDENTITY_MISMATCH
| RIBON_UPDATE_MANIFEST_STATUS_MODE_USAGE_MISMATCH
| RIBON_UPDATE_MANIFEST_STATUS_DOMAIN_MISMATCH
| RIBON_UPDATE_MANIFEST_STATUS_DIGEST_MISMATCH
| RIBON_UPDATE_MANIFEST_STATUS_KEY_POLICY
| RIBON_UPDATE_MANIFEST_STATUS_SIGNATURE_INVALID.

#[global] Instance RibonUpdateManifestStatus_eq_dec : EqDecision RibonUpdateManifestStatus.
Proof. solve_decision. Defined.

(** "RIBON-UPDATE-MANIFEST-V1", padded with zeros *)
Definition ribon_update_manifest_magic : bytes :=
  [82; 73; 66; 79; 78; 45; 85; 80; 68; 65; 84; 69; 45; 77; 65; 78; 73; 70; 69; 83; 84; 45; 86; 49] ++ zeros 8.

(** "RIBON-UPDATE-MESSAGE-V1" *)
Definition ribon_update_message_magic : bytes :=
  [82; 73; 66; 79; 78; 45; 85; 80; 68; 65; 84; 69; 45; 77; 69; 83; 83; 65; 71; 69; 45; 86; 49] ++ zeros 9.

(** "RIBON-UPDATE-SIGNATURE-V1" *)
Definition ribon_update_envelope_magic : bytes :=
  [82; 73; 66; 79; 78; 45; 85; 80; 68; 65; 84; 69; 45; 83; 73; 71; 78; 65; 84; 85; 82; 69; 45; 86; 49] ++ zeros 7.

(** ** Data *)

Record RibonUpdateComponent := mkNativeComponent {
  native_size : Z;
  native_abi_version : Z;
  native_flags : Z;
  native_install_order : Z;
  native_role : Z;
  native_destination_class : Z;
  native_image_format : Z;
  native_reserved0 : Z;
  native_bundle_offset : Z;
  native_exact_size : Z;
  native_maximum_size : Z;
  native_logical_id_digest : bytes;
  native_content_digest : bytes;
  native_destination_id_digest : bytes;
  native_entry_contract_digest : bytes;
  native_reserved : list Z;
}.

(** [components] points to an array. *)
Record RibonUpdateManifestInput := mkManifestInput {
  minput_size : Z;
  minput_abi_version : Z;
  minput_flags : Z;
  minput_mode : Z;
  minput_bundle_generation : Z;
  minput_predecessor_generation : Z;
  minput_rollback_sequence : Z;
  minput_creation_policy_version : Z;
  minput_protocol_major : Z;
  minput_protocol_minor : Z;
  minput_minimum_hardware_revision : Z;
  minput_maximum_hardware_revision : Z;
  minput_schema_digest : bytes;
  minput_product_digest : bytes;
  minput_architecture_digest : bytes;
  minput_platform_digest : bytes;
  minput_environment_digest : bytes;
  minput_protocol_digest : bytes;
  minput_rollback_domain_digest : bytes;
  minput_components : option (list RibonUpdateComponent);
  minput_component_count : Z;
  minput_reserved0 : Z;
  minput_reserved : list Z;
}.

Record RibonUpdateManifestView := mkManifestView {
  manifest_bytes : option bytes;
  manifest_byte_size : Z;
  manifest_bundle_generation : Z;
  manifest_predecessor_generation : Z;
  manifest_rollback_sequence : Z;
  manifest_creation_policy_version : Z;
  manifest_mode : Z;
  manifest_protocol_major : Z;
  manifest_protocol_minor : Z;
  manifest_minimum_hardware_revision : Z;
  manifest_maximum_hardware_revision : Z;
  manifest_component_count : Z;
  manifest_reserved0 : Z;
  manifest_components_offset : Z;
  manifest_schema_digest : bytes;
  manifest_product_digest : bytes;
  manifest_architecture_digest : bytes;
  manifest_platform_digest : bytes;
  manifest_environment_digest : bytes;
  manifest_protocol_digest : bytes;
  manifest_rollback_domain_digest : bytes;
}.

Record RibonUpdateComponentView := mkComponentView {
  component_install_order : Z;
  component_role : Z;
  component_destination_class : Z;
  component_image_format : Z;
  component_flags : Z;
  component_bundle_offset : Z;
  component_exact_size : Z;
  component_maximum_size : Z;
  component_logical_id_digest : bytes;
  component_content_digest : bytes;
  component_destination_id_digest : bytes;
  component_entry_contract_digest : bytes;
}.

Record RibonUpdateSignatureEnvelopeInput := mkSignatureInput {
  sinput_size : Z;
  sinput_abi_version : Z;
  sinput_flags : Z;
  sinput_reserved0 : Z;
  sinput_manifest : option bytes;
  sinput_manifest_size : Z;
  sinput_key_id : option bytes;
  sinput_key_id_size : Z;
  sinput_signature : option bytes;
  sinput_signature_size : Z;
  sinput_reserved : list Z;
}.

Record RibonUpdateSignatureEnvelopeView := mkSignatureView {
  senvelope_bytes : option bytes;
  senvelope_byte_size : Z;
  senvelope_key_id : option bytes;
  senvelope_key_id_size : Z;
  senvelope_signature : option bytes;
  senvelope_signature_size : Z;
  senvelope_manifest_size : Z;
  senvelope_mode : Z;
  senvelope_manifest_digest : bytes;
  senvelope_signed_message_digest : bytes;
}.

Record RibonUpdateManifestExpectation := mkExpectation {
  expectation_size : Z;
  expectation_abi_version : Z;
  expectation_flags : Z;
  expectation_mode : Z;
  expectation_protocol_major : Z;
  expectation_protocol_minor : Z;
  expectation_hardware_revision : Z;
  expectation_schema_digest : bytes;
  expectation_product_digest : bytes;
  expectation_architecture_digest : bytes;
  expectation_platform_digest : bytes;
  expectation_environment_digest : bytes;
  expectation_protocol_digest : bytes;
  expectation_rollback_domain_digest : bytes;
  expectation_reserved : list Z;
}.

Record RibonUpdateManifestAuthorization := mkAuthorization {
  authorization_size : Z;
  authorization_abi_version : Z;
  authorization_flags : Z;
  authorization_reserved0 : Z;
  authorization_manifest : option bytes;
  authorization_manifest_size : Z;
  authorization_signature_envelope : option bytes;
  authorization_signature_envelope_size : Z;
  authorization_expectation : option RibonUpdateManifestExpectation;
  authorization_key_policy : option RibonKeyPolicyStore;
  authorization_signature_provider : option RibonSignatureProvider;
  authorization_workspace : Z;
  authorization_workspace_size : Z;
  authorization_reserved : list Z;
}.

(** ** Little-endian words *)

Definition ribon_update_read_u16 (b : bytes) (o : Z) : Z :=
  Z.lor (byte_at b o) (u16 (Z.shiftl (byte_at b (o + 1)) 8)).

Definition ribon_update_read_u32 (b : bytes) (o : Z) : Z :=
  Z.lor (Z.lor (Z.lor (byte_at b o) (Z.shiftl (byte_at b (o + 1)) 8))
               (Z.shiftl (byte_at b (o + 2)) 16))
        (Z.shiftl (byte_at b (o + 3)) 24).

Definition ribon_update_read_u64 (b : bytes) (o : Z) : Z :=
  fold_left (fun value index => Z.lor value (Z.shiftl (byte_at b (o + index)) (index * 8))) (upto 8) 0.

Definition ribon_update_write_u16 (b : bytes) (o v : Z) : bytes :=
  store_u8 (store_u8 b o (u8 v)) (o + 1) (u8 (Z.shiftr v 8)).

Definition ribon_update_write_u32 (b : bytes) (o v : Z) : bytes :=
  fold_left (fun b index => store_u8 b (o + index) (u8 (Z.shiftr v (index * 8)))) (upto 4) b.

Definition ribon_update_write_u64 (b : bytes) (o v : Z) : bytes :=
  fold_left (fun b index => store_u8 b (o + index) (u8 (Z.shiftr v (index * 8)))) (upto 8) b.

(** ** Scalar checks *)

Definition ribon_update_digest_is_valid (digest : bytes) : bool := negb (bytes_zero digest).

Definition ribon_update_mode_is_valid (mode : Z) : bool :=
  (mode =? RIBON_KEY_POLICY_MODE_NORMAL) || (mode =? RIBON_KEY_POLICY_MODE_RECOVERY) ||
  (mode =? RIBON_KEY_POLICY_MODE_PROVISIONING) || (mode =? RIBON_KEY_POLICY_MODE_DIAGNOSTIC).

Definition ribon_update_role_destination_is_valid (role destination : Z) : bool :=
  ((role =? RIBON_UPDATE_COMPONENT_ROLE_KERNEL) && (destination =? RIBON_UPDATE_DESTINATION_KERNEL_SLOT)) ||
  ((role =? RIBON_UPDATE_COMPONENT_ROLE_BOOT_MODULE) && (destination =? RIBON_UPDATE_DESTINATION_MODULE_SLOT)) ||
  ((role =? RIBON_UPDATE_COMPONENT_ROLE_POLICY) && (destination =? RIBON_UPDATE_DESTINATION_POLICY_SLOT)) ||
  ((role =? RIBON_UPDATE_COMPONENT_ROLE_FIRMWARE) && (destination =? RIBON_UPDATE_DESTINATION_FIRMWARE_SLOT)) ||
  ((role =? RIBON_UPDATE_COMPONENT_ROLE_RECOVERY_IMAGE) && (destination =? RIBON_UPDATE_DESTINATION_RECOVERY_SLOT)).

Definition ribon_update_image_format_is_valid (format : Z) : bool :=
  (format >=? RIBON_UPDATE_IMAGE_FORMAT_OPAQUE) && (format <=? RIBON_UPDATE_IMAGE_FORMAT_RAW).

(** The sums are of 64-bit words. *)
Definition ribon_update_ranges_overlap (left_offset left_size right_offset right_size : Z) : bool :=
  (left_offset <? u64 (right_offset + right_size)) && (right_offset <? u64 (left_offset + left_size)).

(** ** The manifest input *)

Definition ribon_update_component_input_is_valid (component : option RibonUpdateComponent)
    (expected_order : Z) : bool :=
  match component with
  | None => false
  | Some c =>
    negb ((native_size c !=? sizeof_RibonUpdateComponent) ||
          (native_abi_version c !=? RIBON_UPDATE_MANIFEST_ABI_VERSION) ||
          (Z.land (native_flags c) (u32 (Z.lnot RIBON_UPDATE_COMPONENT_REQUIRED)) !=? 0) ||
          (native_install_order c !=? expected_order) || (native_reserved0 c !=? 0) ||
          negb (bytes_zero (native_reserved c)) ||
          negb (ribon_update_role_destination_is_valid (native_role c) (native_destination_class c)) ||
          negb (ribon_update_image_format_is_valid (native_image_format c)) ||
          (native_exact_size c =? 0) || (native_exact_size c >? native_maximum_size c) ||
          (native_bundle_offset c >? UINT64_MAX - native_exact_size c) ||
          negb (ribon_update_digest_is_valid (native_logical_id_digest c)) ||
          negb (ribon_update_digest_is_valid (native_content_digest c)) ||
          negb (ribon_update_digest_is_valid (native_destination_id_digest c)) ||
          negb (ribon_update_digest_is_valid (native_entry_contract_digest c)))
  end.

(** [singleton += role == which] *)
Definition count_role (role which counter : Z) : Z := u32 (counter + (if role =? which then 1 else 0)).

(** The array element the index names. *)
Definition component_input (components : list RibonUpdateComponent) (index : Z) : option RibonUpdateComponent :=
  components !! Z.to_nat index.

(** The component clashes with an earlier one. *)
Definition native_clash (component previous : RibonUpdateComponent) : bool :=
  bytes_equal (native_logical_id_digest component) (native_logical_id_digest previous) ||
  ribon_update_ranges_overlap (native_bundle_offset component) (native_exact_size component)
    (native_bundle_offset previous) (native_exact_size previous).

(** The loop over the components, [left] of them from [index] on. *)
Fixpoint validate_components (components : list RibonUpdateComponent) (left : nat)
    (index kernel policy recovery : Z) : RibonUpdateManifestStatus :=
  match left with
  | O => RIBON_UPDATE_MANIFEST_STATUS_OK
  | S left' =>
    if negb (ribon_update_component_input_is_valid (component_input components index) index)
    then RIBON_UPDATE_MANIFEST_STATUS_INVALID_ARGUMENT
    else
      match component_input components index with
      | None => RIBON_UPDATE_MANIFEST_STATUS_INVALID_ARGUMENT
      | Some component =>
        let kernel := count_role (native_role component) RIBON_UPDATE_COMPONENT_ROLE_KERNEL kernel in
        let policy := count_role (native_role component) RIBON_UPDATE_COMPONENT_ROLE_POLICY policy in
        let recovery := count_role (native_role component) RIBON_UPDATE_COMPONENT_ROLE_RECOVERY_IMAGE recovery in
        if (kernel >? 1) || (policy >? 1) || (recovery >? 1) then RIBON_UPDATE_MANIFEST_STATUS_MALFORMED
        else if existsb (fun other => match component_input components other with
                                      | Some previous => native_clash component previous
                                      | None => false
                                      end) (upto index)
        then RIBON_UPDATE_MANIFEST_STATUS_MALFORMED
        else validate_components components left' (index + 1) kernel policy recovery
      end
  end.

Definition ribon_update_manifest_input_validate (input : option RibonUpdateManifestInput)
  : RibonUpdateManifestStatus :=
  match input with
  | None => RIBON_UPDATE_MANIFEST_STATUS_INVALID_ARGUMENT
  | Some i =>
    if (minput_size i !=? sizeof_RibonUpdateManifestInput) ||
       (minput_abi_version i !=? RIBON_UPDATE_MANIFEST_ABI_VERSION) ||
       (minput_flags i !=? 0) || negb (ribon_update_mode_is_valid (minput_mode i)) ||
       (minput_bundle_generation i =? 0) ||
       (minput_predecessor_generation i >=? minput_bundle_generation i) ||
       (minput_minimum_hardware_revision i >? minput_maximum_hardware_revision i) ||
       is_null (minput_components i) || (minput_component_count i =? 0) ||
       (minput_component_count i >? RIBON_UPDATE_MANIFEST_MAX_COMPONENTS) ||
       (minput_reserved0 i !=? 0) || negb (bytes_zero (minput_reserved i)) ||
       negb (ribon_update_digest_is_valid (minput_schema_digest i)) ||
       negb (ribon_update_digest_is_valid (minput_product_digest i)) ||
       negb (ribon_update_digest_is_valid (minput_architecture_digest i)) ||
       negb (ribon_update_digest_is_valid (minput_platform_digest i)) ||
       negb (ribon_update_digest_is_valid (minput_environment_digest i)) ||
       negb (ribon_update_digest_is_valid (minput_protocol_digest i)) ||
       negb (ribon_update_digest_is_valid (minput_rollback_domain_digest i))
    then RIBON_UPDATE_MANIFEST_STATUS_INVALID_ARGUMENT
    else validate_components (default [] (minput_components i)) (Z.to_nat (minput_component_count i)) 0 0 0 0
  end.

(** ** The encoder *)

(** The entry starts at [entry] of the output. *)
Definition ribon_update_write_directory_entry (b : bytes) (entry type offset length count entry_size : Z) : bytes :=
  let b := ribon_update_write_u32 b entry (u32 type) in
  let b := ribon_update_write_u32 b (entry + 4) 0 in
  let b := ribon_update_write_u64 b (entry + 8) offset in
  let b := ribon_update_write_u64 b (entry + 16) length in
  let b := ribon_update_write_u32 b (entry + 24) count in
  ribon_update_write_u32 b (entry + 28) entry_size.

(** The row starts at [row] of the output. *)
Definition ribon_update_encode_component (component : RibonUpdateComponent) (b : bytes) (row : Z) : bytes :=
  let b := store b row (native_logical_id_digest component) in
  let b := store b (row + 32) (native_content_digest component) in
  let b := store b (row + 64) (native_destination_id_digest component) in
  let b := store b (row + 96) (native_entry_contract_digest component) in
  let b := ribon_update_write_u64 b (row + 128) (native_bundle_offset component) in
  let b := ribon_update_write_u64 b (row + 136) (native_exact_size component) in
  let b := ribon_update_write_u64 b (row + 144) (native_maximum_size component) in
  let b := ribon_update_write_u16 b (row + 152) (u16 (native_role component)) in
  let b := ribon_update_write_u16 b (row + 154) (u16 (native_destination_class component)) in
  let b := ribon_update_write_u16 b (row + 156) (u16 (native_image_format component)) in
  let b := ribon_update_write_u16 b (row + 158) (u16 (native_flags component)) in
  ribon_update_write_u32 b (row + 160) (native_install_order component).

(** The header, the section directory and the binding, in a cleared buffer. *)
Definition manifest_head (i : RibonUpdateManifestInput) (component_bytes total_size : Z) : bytes :=
  let b := zeros total_size in
  let b := store b 0 ribon_update_manifest_magic in
  let b := ribon_update_write_u16 b 32 RIBON_UPDATE_MANIFEST_MAJOR in
  let b := ribon_update_write_u16 b 34 RIBON_UPDATE_MANIFEST_MINOR in
  let b := ribon_update_write_u32 b 36 RIBON_UPDATE_MANIFEST_HEADER_BYTES in
  let b := ribon_update_write_u64 b 40 total_size in
  let b := ribon_update_write_u32 b 48 RIBON_UPDATE_MANIFEST_SECTION_COUNT in
  let b := ribon_update_write_u32 b 52 (minput_component_count i) in
  let b := ribon_update_write_u64 b 56 (minput_bundle_generation i) in
  let b := ribon_update_write_u64 b 64 (minput_predecessor_generation i) in
  let b := ribon_update_write_u64 b 72 (minput_rollback_sequence i) in
  let b := ribon_update_write_u64 b 80 (minput_creation_policy_version i) in
  let b := ribon_update_write_u16 b 88 RIBON_UPDATE_HASH_SHA256 in
  let b := ribon_update_write_u16 b 90 RIBON_UPDATE_SIGNATURE_ED25519 in
  let b := ribon_update_write_u16 b 92 (u16 (minput_mode i)) in
  let b := store b 96 (minput_schema_digest i) in
  let b := ribon_update_write_directory_entry b RIBON_UPDATE_DIRECTORY_OFFSET RIBON_UPDATE_SECTION_BINDING
             RIBON_UPDATE_BINDING_OFFSET RIBON_UPDATE_MANIFEST_BINDING_BYTES 1
             RIBON_UPDATE_MANIFEST_BINDING_BYTES in
  let b := ribon_update_write_directory_entry b
             (RIBON_UPDATE_DIRECTORY_OFFSET + RIBON_UPDATE_DIRECTORY_ENTRY_BYTES)
             RIBON_UPDATE_SECTION_COMPONENTS RIBON_UPDATE_COMPONENTS_OFFSET component_bytes
             (minput_component_count i) RIBON_UPDATE_MANIFEST_COMPONENT_BYTES in
  let b := store b RIBON_UPDATE_BINDING_OFFSET (minput_product_digest i) in
  let b := store b (RIBON_UPDATE_BINDING_OFFSET + 32) (minput_architecture_digest i) in
  let b := store b (RIBON_UPDATE_BINDING_OFFSET + 64) (minput_platform_digest i) in
  let b := store b (RIBON_UPDATE_BINDING_OFFSET + 96) (minput_environment_digest i) in
  let b := store b (RIBON_UPDATE_BINDING_OFFSET + 128) (minput_protocol_digest i) in
  let b := store b (RIBON_UPDATE_BINDING_OFFSET + 160) (minput_rollback_domain_digest i) in
  let b := ribon_update_write_u16 b (RIBON_UPDATE_BINDING_OFFSET + 192) (minput_protocol_major i) in
  let b := ribon_update_write_u16 b (RIBON_UPDATE_BINDING_OFFSET + 194) (minput_protocol_minor i) in
  let b := ribon_update_write_u32 b (RIBON_UPDATE_BINDING_OFFSET + 196) (minput_minimum_hardware_revision i) in
  ribon_update_write_u32 b (RIBON_UPDATE_BINDING_OFFSET + 200) (minput_maximum_hardware_revision i).

(** The rows, [left] of them from [index] on. *)
Fixpoint encode_rows (components : list RibonUpdateComponent) (left : nat) (index : Z) (b : bytes) : bytes :=
  match left with
  | O => b
  | S left' =>
    match component_input components index with
    | None => b
    | Some component =>
      encode_rows components left' (index + 1)
        (ribon_update_encode_component component b
           (RIBON_UPDATE_COMPONENTS_OFFSET + index * RIBON_UPDATE_MANIFEST_COMPONENT_BYTES))
    end
  end.

(** The bytes written; [output] and [written] are NULL or not. *)
Definition ribon_update_manifest_encode (input : option RibonUpdateManifestInput) (output : bool)
    (capacity : Z) (written : bool) : RibonUpdateManifestStatus + bytes :=
  if negb written then inl RIBON_UPDATE_MANIFEST_STATUS_INVALID_ARGUMENT
  else
    match ribon_update_manifest_input_validate input, input with
    | RIBON_UPDATE_MANIFEST_STATUS_OK, Some i =>
      let component_bytes := u64 (minput_component_count i * RIBON_UPDATE_MANIFEST_COMPONENT_BYTES) in
      let total_size := u64 (RIBON_UPDATE_COMPONENTS_OFFSET + component_bytes) in
      if negb output || (total_size >? SIZE_MAX) || (capacity <? total_size)
      then inl RIBON_UPDATE_MANIFEST_STATUS_CAPACITY
      else inr (encode_rows (default [] (minput_components i)) (Z.to_nat (minput_component_count i)) 0
                  (manifest_head i component_bytes total_size))
    | status, _ => inl status
    end.

(** ** The reader *)

Definition ribon_update_decode_component (row : bytes) : RibonUpdateComponentView :=
  mkComponentView (ribon_update_read_u32 row 160) (ribon_update_read_u16 row 152)
    (ribon_update_read_u16 row 154) (ribon_update_read_u16 row 156) (ribon_update_read_u16 row 158)
    (ribon_update_read_u64 row 128) (ribon_update_read_u64 row 136) (ribon_update_read_u64 row 144)
    (slice 0 32 row) (slice 32 32 row) (slice 64 32 row) (slice 96 32 row).

Definition ribon_update_component_view_is_valid (row : bytes) (component : RibonUpdateComponentView)
    (expected_order : Z) : bool :=
  (component_install_order component =? expected_order) &&
  (Z.land (component_flags component) (u32 (Z.lnot RIBON_UPDATE_COMPONENT_REQUIRED)) =? 0) &&
  ribon_update_role_destination_is_valid (component_role component) (component_destination_class component) &&
  ribon_update_image_format_is_valid (component_image_format component) &&
  (component_exact_size component !=? 0) &&
  (component_exact_size component <=? component_maximum_size component) &&
  (component_bundle_offset component <=? UINT64_MAX - component_exact_size component) &&
  ribon_update_digest_is_valid (component_logical_id_digest component) &&
  ribon_update_digest_is_valid (component_content_digest component) &&
  ribon_update_digest_is_valid (component_destination_id_digest component) &&
  ribon_update_digest_is_valid (component_entry_contract_digest component) &&
  bytes_zero (slice 164 28 row).

Definition manifest_row (b : bytes) (index : Z) : bytes :=
  slice (RIBON_UPDATE_COMPONENTS_OFFSET + index * RIBON_UPDATE_MANIFEST_COMPONENT_BYTES)
    RIBON_UPDATE_MANIFEST_COMPONENT_BYTES b.

Definition component_clash (component previous : RibonUpdateComponentView) : bool :=
  bytes_equal (component_logical_id_digest component) (component_logical_id_digest previous) ||
  ribon_update_ranges_overlap (component_bundle_offset component) (component_exact_size component)
    (component_bundle_offset previous) (component_exact_size previous).

(** The loop over the rows, [left] of them from [index] on; a refusal is MALFORMED. *)
Fixpoint open_rows (b : bytes) (left : nat) (index kernel policy recovery : Z) : bool :=
  match left with
  | O => true
  | S left' =>
    let row := manifest_row b index in
    let component := ribon_update_decode_component row in
    if negb (ribon_update_component_view_is_valid row component index) then false
    else
      let kernel := count_role (component_role component) RIBON_UPDATE_COMPONENT_ROLE_KERNEL kernel in
      let policy := count_role (component_role component) RIBON_UPDATE_COMPONENT_ROLE_POLICY policy in
      let recovery := count_role (component_role component) RIBON_UPDATE_COMPONENT_ROLE_RECOVERY_IMAGE recovery in
      if (kernel >? 1) || (policy >? 1) || (recovery >? 1) then false
      else if existsb (fun other =>
                component_clash component (ribon_update_decode_component (manifest_row b other))) (upto index)
      then false
      else open_rows b left' (index + 1) kernel policy recovery
  end.

(** The two directory entries, and the two unused ones. *)
Definition directory_is_refused (b : bytes) (component_count component_bytes : Z) : bool :=
  let binding_directory := RIBON_UPDATE_DIRECTORY_OFFSET in
  let component_directory := binding_directory + RIBON_UPDATE_DIRECTORY_ENTRY_BYTES in
  (ribon_update_read_u32 b binding_directory !=? RIBON_UPDATE_SECTION_BINDING) ||
  (ribon_update_read_u32 b (binding_directory + 4) !=? 0) ||
  (ribon_update_read_u64 b (binding_directory + 8) !=? RIBON_UPDATE_BINDING_OFFSET) ||
  (ribon_update_read_u64 b (binding_directory + 16) !=? RIBON_UPDATE_MANIFEST_BINDING_BYTES) ||
  (ribon_update_read_u32 b (binding_directory + 24) !=? 1) ||
  (ribon_update_read_u32 b (binding_directory + 28) !=? RIBON_UPDATE_MANIFEST_BINDING_BYTES) ||
  (ribon_update_read_u32 b component_directory !=? RIBON_UPDATE_SECTION_COMPONENTS) ||
  (ribon_update_read_u32 b (component_directory + 4) !=? 0) ||
  (ribon_update_read_u64 b (component_directory + 8) !=? RIBON_UPDATE_COMPONENTS_OFFSET) ||
  (ribon_update_read_u64 b (component_directory + 16) !=? component_bytes) ||
  (ribon_update_read_u32 b (component_directory + 24) !=? component_count) ||
  (ribon_update_read_u32 b (component_directory + 28) !=? RIBON_UPDATE_MANIFEST_COMPONENT_BYTES) ||
  negb (bytes_zero (slice (component_directory + RIBON_UPDATE_DIRECTORY_ENTRY_BYTES)
                      (2 * RIBON_UPDATE_DIRECTORY_ENTRY_BYTES) b)).

Definition binding_is_refused (b : bytes) : bool :=
  let binding := RIBON_UPDATE_BINDING_OFFSET in
  negb (ribon_update_digest_is_valid (slice binding 32 b)) ||
  negb (ribon_update_digest_is_valid (slice (binding + 32) 32 b)) ||
  negb (ribon_update_digest_is_valid (slice (binding + 64) 32 b)) ||
  negb (ribon_update_digest_is_valid (slice (binding + 96) 32 b)) ||
  negb (ribon_update_digest_is_valid (slice (binding + 128) 32 b)) ||
  negb (ribon_update_digest_is_valid (slice (binding + 160) 32 b)) ||
  (ribon_update_read_u32 b (binding + 196) >? ribon_update_read_u32 b (binding + 200)) ||
  negb (bytes_zero (slice (binding + 204) 52 b)).

Definition opened_manifest (b : bytes) (size component_count : Z) : RibonUpdateManifestView :=
  let binding := RIBON_UPDATE_BINDING_OFFSET in
  mkManifestView (Some b) size (ribon_update_read_u64 b 56) (ribon_update_read_u64 b 64)
    (ribon_update_read_u64 b 72) (ribon_update_read_u64 b 80) (ribon_update_read_u16 b 92)
    (ribon_update_read_u16 b (binding + 192)) (ribon_update_read_u16 b (binding + 194))
    (ribon_update_read_u32 b (binding + 196)) (ribon_update_read_u32 b (binding + 200))
    component_count 0 RIBON_UPDATE_COMPONENTS_OFFSET
    (slice 96 32 b) (slice binding 32 b) (slice (binding + 32) 32 b) (slice (binding + 64) 32 b)
    (slice (binding + 96) 32 b) (slice (binding + 128) 32 b) (slice (binding + 160) 32 b).

Definition ribon_update_manifest_open (b : option bytes) (size : Z) (view : bool)
  : RibonUpdateManifestStatus + RibonUpdateManifestView :=
  match b with
  | None => inl RIBON_UPDATE_MANIFEST_STATUS_INVALID_ARGUMENT
  | Some b =>
    if negb view then inl RIBON_UPDATE_MANIFEST_STATUS_INVALID_ARGUMENT
    else if (size <? RIBON_UPDATE_COMPONENTS_OFFSET + RIBON_UPDATE_MANIFEST_COMPONENT_BYTES) ||
            (size >? RIBON_UPDATE_COMPONENTS_OFFSET +
                     RIBON_UPDATE_MANIFEST_MAX_COMPONENTS * RIBON_UPDATE_MANIFEST_COMPONENT_BYTES)
    then inl RIBON_UPDATE_MANIFEST_STATUS_MALFORMED
    else if negb (bytes_equal (slice 0 32 b) ribon_update_manifest_magic)
    then inl RIBON_UPDATE_MANIFEST_STATUS_MALFORMED
    else if (ribon_update_read_u16 b 32 !=? RIBON_UPDATE_MANIFEST_MAJOR) ||
            (ribon_update_read_u16 b 34 !=? RIBON_UPDATE_MANIFEST_MINOR)
    then inl RIBON_UPDATE_MANIFEST_STATUS_UNSUPPORTED_VERSION
    else if (ribon_update_read_u32 b 36 !=? RIBON_UPDATE_MANIFEST_HEADER_BYTES) ||
            (ribon_update_read_u64 b 40 !=? size) ||
            (ribon_update_read_u32 b 48 !=? RIBON_UPDATE_MANIFEST_SECTION_COUNT)
    then inl RIBON_UPDATE_MANIFEST_STATUS_MALFORMED
    else if (ribon_update_read_u16 b 88 !=? RIBON_UPDATE_HASH_SHA256) ||
            (ribon_update_read_u16 b 90 !=? RIBON_UPDATE_SIGNATURE_ED25519)
    then inl RIBON_UPDATE_MANIFEST_STATUS_UNSUPPORTED_ALGORITHM
    else
      let component_count := ribon_update_read_u32 b 52 in
      if (component_count =? 0) || (component_count >? RIBON_UPDATE_MANIFEST_MAX_COMPONENTS) ||
         negb (ribon_update_mode_is_valid (ribon_update_read_u16 b 92)) ||
         (ribon_update_read_u16 b 94 !=? 0) || negb (ribon_update_digest_is_valid (slice 96 32 b))
      then inl RIBON_UPDATE_MANIFEST_STATUS_MALFORMED
      else if (ribon_update_read_u64 b 56 =? 0) ||
              (ribon_update_read_u64 b 64 >=? ribon_update_read_u64 b 56)
      then inl RIBON_UPDATE_MANIFEST_STATUS_MALFORMED
      else
        let component_bytes := u64 (component_count * RIBON_UPDATE_MANIFEST_COMPONENT_BYTES) in
        let expected_size := u64 (RIBON_UPDATE_COMPONENTS_OFFSET + component_bytes) in
        if expected_size !=? size then inl RIBON_UPDATE_MANIFEST_STATUS_MALFORMED
        else if directory_is_refused b component_count component_bytes
        then inl RIBON_UPDATE_MANIFEST_STATUS_MALFORMED
        else if binding_is_refused b then inl RIBON_UPDATE_MANIFEST_STATUS_MALFORMED
        else if negb (open_rows b (Z.to_nat component_count) 0 0 0 0)
        then inl RIBON_UPDATE_MANIFEST_STATUS_MALFORMED
        else inr (opened_manifest b size component_count)
  end.

Definition ribon_update_manifest_component_at (view : option RibonUpdateManifestView) (index : Z)
    (component : bool) : option RibonUpdateComponentView :=
  match view with
  | None => None
  | Some v =>
    if negb component then None
    else
      match ribon_update_manifest_open (manifest_bytes v) (manifest_byte_size v) true with
      | inl _ => None
      | inr reopened =>
        if index >=? manifest_component_count reopened then None
        else
          let offset := u64 (manifest_components_offset reopened + index * RIBON_UPDATE_MANIFEST_COMPONENT_BYTES) in
          if (offset >? manifest_byte_size reopened) ||
             (manifest_byte_size reopened - offset <? RIBON_UPDATE_MANIFEST_COMPONENT_BYTES)
          then None
          else Some (ribon_update_decode_component
                       (slice offset RIBON_UPDATE_MANIFEST_COMPONENT_BYTES (default [] (manifest_bytes reopened))))
      end
  end.

(** ** The signed message *)

Definition ribon_update_key_id_is_valid (key_id : option bytes) (key_id_size : Z) : bool :=
  match key_id with
  | None => false
  | Some id =>
    if (key_id_size =? 0) || (key_id_size >? RIBON_UPDATE_SIGNATURE_KEY_ID_MAX_BYTES) then false
    else forallb (fun index => byte_at id index !=? 0) (upto key_id_size)
  end.

(** The stores into the cleared message. *)
Definition message_bytes (v : RibonUpdateManifestView) (manifest_digest key_id_digest : bytes) : bytes :=
  let b := zeros RIBON_UPDATE_SIGNED_MESSAGE_V1_BYTES in
  let b := store b 0 ribon_update_message_magic in
  let b := ribon_update_write_u16 b 32 RIBON_UPDATE_SIGNED_MESSAGE_MAJOR in
  let b := ribon_update_write_u16 b 34 RIBON_UPDATE_SIGNED_MESSAGE_MINOR in
  let b := ribon_update_write_u16 b 36 RIBON_UPDATE_MANIFEST_MAJOR in
  let b := ribon_update_write_u16 b 38 RIBON_UPDATE_MANIFEST_MINOR in
  let b := ribon_update_write_u16 b 40 RIBON_UPDATE_HASH_SHA256 in
  let b := ribon_update_write_u16 b 42 RIBON_UPDATE_SIGNATURE_ED25519 in
  let b := ribon_update_write_u16 b 44 (u16 (manifest_mode v)) in
  let b := ribon_update_write_u16 b 46 RIBON_KEY_POLICY_USAGE_UPDATE_MANIFEST in
  let b := ribon_update_write_u64 b 56 (manifest_rollback_sequence v) in
  let b := ribon_update_write_u64 b 64 (manifest_byte_size v) in
  let b := ribon_update_write_u64 b 72 (manifest_bundle_generation v) in
  let b := ribon_update_write_u64 b 80 (manifest_predecessor_generation v) in
  let b := ribon_update_write_u64 b 88 (manifest_creation_policy_version v) in
  let b := store b 96 manifest_digest in
  let b := store b 128 (manifest_product_digest v) in
  let b := store b 160 (manifest_schema_digest v) in
  let b := store b 192 (manifest_rollback_domain_digest v) in
  store b 224 key_id_digest.

(** [None] is the status INVALID_ARGUMENT. *)
Definition ribon_update_manifest_signed_message_v1 (view : option RibonUpdateManifestView)
    (key_id : option bytes) (key_id_size : Z) (message : bool) : option bytes :=
  match view with
  | None => None
  | Some v =>
    if negb message || is_null (manifest_bytes v) || negb (ribon_update_key_id_is_valid key_id key_id_size)
    then None
    else
      match ribon_update_manifest_open (manifest_bytes v) (manifest_byte_size v) true with
      | inl _ => None
      | inr reopened =>
        Some (message_bytes reopened
                (ribon_security_sha256 (KeyPolicy.view (manifest_bytes v) (manifest_byte_size v)))
                (ribon_security_sha256 (KeyPolicy.view key_id key_id_size)))
      end
  end.

(** ** The signature envelope *)

Definition signature_envelope_bytes (i : RibonUpdateSignatureEnvelopeInput) (mode : Z)
    (manifest_digest message_digest : bytes) (signature_offset total_size : Z) : bytes :=
  let b := zeros total_size in
  let b := store b 0 ribon_update_envelope_magic in
  let b := ribon_update_write_u16 b 32 RIBON_UPDATE_SIGNATURE_ENVELOPE_MAJOR in
  let b := ribon_update_write_u16 b 34 RIBON_UPDATE_SIGNATURE_ENVELOPE_MINOR in
  let b := ribon_update_write_u32 b 36 RIBON_UPDATE_SIGNATURE_ENVELOPE_HEADER_BYTES in
  let b := ribon_update_write_u64 b 40 total_size in
  let b := ribon_update_write_u64 b 48 (sinput_manifest_size i) in
  let b := ribon_update_write_u16 b 56 RIBON_UPDATE_HASH_SHA256 in
  let b := ribon_update_write_u16 b 58 RIBON_UPDATE_SIGNATURE_ED25519 in
  let b := ribon_update_write_u16 b 60 RIBON_KEY_POLICY_USAGE_UPDATE_MANIFEST in
  let b := ribon_update_write_u16 b 62 (u16 mode) in
  let b := ribon_update_write_u16 b 64 (u16 (sinput_key_id_size i)) in
  let b := ribon_update_write_u16 b 66 (u16 (sinput_signature_size i)) in
  let b := ribon_update_write_u64 b 72 RIBON_UPDATE_SIGNATURE_ENVELOPE_HEADER_BYTES in
  let b := ribon_update_write_u64 b 80 signature_offset in
  let b := store b 88 manifest_digest in
  let b := store b 120 message_digest in
  let b := store b RIBON_UPDATE_SIGNATURE_ENVELOPE_HEADER_BYTES
             (KeyPolicy.view (sinput_key_id i) (sinput_key_id_size i)) in
  store b signature_offset (KeyPolicy.view (sinput_signature i) (sinput_signature_size i)).

Definition ribon_update_signature_envelope_encode (input : option RibonUpdateSignatureEnvelopeInput)
    (output : bool) (capacity : Z) (written : bool) : RibonUpdateManifestStatus + bytes :=
  match input with
  | None => inl RIBON_UPDATE_MANIFEST_STATUS_INVALID_ARGUMENT
  | Some i =>
    if negb written || (sinput_size i !=? sizeof_RibonUpdateSignatureEnvelopeInput) ||
       (sinput_abi_version i !=? RIBON_UPDATE_MANIFEST_ABI_VERSION) ||
       (sinput_flags i !=? 0) || (sinput_reserved0 i !=? 0) || is_null (sinput_signature i) ||
       (sinput_signature_size i !=? RIBON_ED25519_SIGNATURE_BYTES) ||
       negb (ribon_update_key_id_is_valid (sinput_key_id i) (sinput_key_id_size i)) ||
       negb (bytes_zero (sinput_reserved i))
    then inl RIBON_UPDATE_MANIFEST_STATUS_INVALID_ARGUMENT
    else
      match ribon_update_manifest_open (sinput_manifest i) (sinput_manifest_size i) true with
      | inl _ => inl RIBON_UPDATE_MANIFEST_STATUS_INVALID_ARGUMENT
      | inr view =>
        match ribon_update_manifest_signed_message_v1 (Some view) (sinput_key_id i) (sinput_key_id_size i) true with
        | None => inl RIBON_UPDATE_MANIFEST_STATUS_INVALID_ARGUMENT
        | Some message =>
          let signature_offset := u64 (RIBON_UPDATE_SIGNATURE_ENVELOPE_HEADER_BYTES + sinput_key_id_size i) in
          if signature_offset >? SIZE_MAX - sinput_signature_size i
          then inl RIBON_UPDATE_MANIFEST_STATUS_CAPACITY
          else
            let total_size := u64 (signature_offset + sinput_signature_size i) in
            if negb output || (capacity <? total_size) then inl RIBON_UPDATE_MANIFEST_STATUS_CAPACITY
            else
              inr (signature_envelope_bytes i (manifest_mode view)
                     (ribon_security_sha256 (KeyPolicy.view (sinput_manifest i) (sinput_manifest_size i)))
                     (ribon_security_sha256 message) signature_offset total_size)
        end
      end
  end.

Definition ribon_update_signature_envelope_open (b : option bytes) (size : Z) (view : bool)
  : RibonUpdateManifestStatus + RibonUpdateSignatureEnvelopeView :=
  match b with
  | None => inl RIBON_UPDATE_MANIFEST_STATUS_INVALID_ARGUMENT
  | Some b =>
    if negb view then inl RIBON_UPDATE_MANIFEST_STATUS_INVALID_ARGUMENT
    else if (size <? RIBON_UPDATE_SIGNATURE_ENVELOPE_HEADER_BYTES + 1 + RIBON_ED25519_SIGNATURE_BYTES) ||
            (size >? RIBON_UPDATE_SIGNATURE_ENVELOPE_HEADER_BYTES + RIBON_UPDATE_SIGNATURE_KEY_ID_MAX_BYTES +
                     RIBON_ED25519_SIGNATURE_BYTES) ||
            negb (bytes_equal (slice 0 32 b) ribon_update_envelope_magic)
    then inl RIBON_UPDATE_MANIFEST_STATUS_MALFORMED
    else if (ribon_update_read_u16 b 32 !=? RIBON_UPDATE_SIGNATURE_ENVELOPE_MAJOR) ||
            (ribon_update_read_u16 b 34 !=? RIBON_UPDATE_SIGNATURE_ENVELOPE_MINOR)
    then inl RIBON_UPDATE_MANIFEST_STATUS_UNSUPPORTED_VERSION
    else if (ribon_update_read_u32 b 36 !=? RIBON_UPDATE_SIGNATURE_ENVELOPE_HEADER_BYTES) ||
            (ribon_update_read_u64 b 40 !=? size) || (ribon_update_read_u64 b 48 =? 0) ||
            (ribon_update_read_u64 b 48 >? SIZE_MAX) ||
            (ribon_update_read_u16 b 60 !=? RIBON_KEY_POLICY_USAGE_UPDATE_MANIFEST) ||
            negb (ribon_update_mode_is_valid (ribon_update_read_u16 b 62)) ||
            (ribon_update_read_u32 b 68 !=? 0) || negb (bytes_zero (slice 152 8 b))
    then inl RIBON_UPDATE_MANIFEST_STATUS_MALFORMED
    else if (ribon_update_read_u16 b 56 !=? RIBON_UPDATE_HASH_SHA256) ||
            (ribon_update_read_u16 b 58 !=? RIBON_UPDATE_SIGNATURE_ED25519)
    then inl RIBON_UPDATE_MANIFEST_STATUS_UNSUPPORTED_ALGORITHM
    else
      let key_id_size := ribon_update_read_u16 b 64 in
      let signature_size := ribon_update_read_u16 b 66 in
      let key_offset := ribon_update_read_u64 b 72 in
      let signature_offset := ribon_update_read_u64 b 80 in
      if (key_id_size =? 0) || (key_id_size >? RIBON_UPDATE_SIGNATURE_KEY_ID_MAX_BYTES) ||
         (signature_size !=? RIBON_ED25519_SIGNATURE_BYTES) ||
         (key_offset !=? RIBON_UPDATE_SIGNATURE_ENVELOPE_HEADER_BYTES) ||
         (signature_offset !=? u64 (key_offset + key_id_size)) || (signature_offset >? SIZE_MAX) ||
         (u64 (signature_offset + signature_size) !=? size) ||
         negb (ribon_update_key_id_is_valid (Some (slice key_offset key_id_size b)) key_id_size) ||
         bytes_zero (slice 88 32 b) || bytes_zero (slice 120 32 b)
      then inl RIBON_UPDATE_MANIFEST_STATUS_MALFORMED
      else
        inr (mkSignatureView (Some b) size (Some (slice key_offset key_id_size b)) key_id_size
               (Some (slice signature_offset signature_size b)) signature_size
               (ribon_update_read_u64 b 48) (ribon_update_read_u16 b 62)
               (slice 88 32 b) (slice 120 32 b))
  end.

(** ** Authorisation *)

Definition ribon_update_expectation_is_valid (expectation : option RibonUpdateManifestExpectation) : bool :=
  match expectation with
  | None => false
  | Some e =>
    (expectation_size e =? sizeof_RibonUpdateManifestExpectation) &&
    (expectation_abi_version e =? RIBON_UPDATE_MANIFEST_ABI_VERSION) &&
    (expectation_flags e =? 0) && ribon_update_mode_is_valid (expectation_mode e) &&
    ribon_update_digest_is_valid (expectation_schema_digest e) &&
    ribon_update_digest_is_valid (expectation_product_digest e) &&
    ribon_update_digest_is_valid (expectation_architecture_digest e) &&
    ribon_update_digest_is_valid (expectation_platform_digest e) &&
    ribon_update_digest_is_valid (expectation_environment_digest e) &&
    ribon_update_digest_is_valid (expectation_protocol_digest e) &&
    ribon_update_digest_is_valid (expectation_rollback_domain_digest e) &&
    bytes_zero (expectation_reserved e)
  end.

Definition ribon_update_manifest_matches_expectation (v : RibonUpdateManifestView)
    (e : RibonUpdateManifestExpectation) : RibonUpdateManifestStatus :=
  if manifest_mode v !=? expectation_mode e then RIBON_UPDATE_MANIFEST_STATUS_MODE_USAGE_MISMATCH
  else if negb (bytes_equal (manifest_product_digest v) (expectation_product_digest e)) ||
          negb (bytes_equal (manifest_schema_digest v) (expectation_schema_digest e)) ||
          negb (bytes_equal (manifest_architecture_digest v) (expectation_architecture_digest e)) ||
          negb (bytes_equal (manifest_platform_digest v) (expectation_platform_digest e)) ||
          negb (bytes_equal (manifest_environment_digest v) (expectation_environment_digest e)) ||
          negb (bytes_equal (manifest_protocol_digest v) (expectation_protocol_digest e)) ||
          (manifest_protocol_major v !=? expectation_protocol_major e) ||
          (manifest_protocol_minor v !=? expectation_protocol_minor e) ||
          (expectation_hardware_revision e <? manifest_minimum_hardware_revision v) ||
          (expectation_hardware_revision e >? manifest_maximum_hardware_revision v)
  then RIBON_UPDATE_MANIFEST_STATUS_IDENTITY_MISMATCH
  else if negb (bytes_equal (manifest_rollback_domain_digest v) (expectation_rollback_domain_digest e))
  then RIBON_UPDATE_MANIFEST_STATUS_DOMAIN_MISMATCH
  else RIBON_UPDATE_MANIFEST_STATUS_OK.

Definition ribon_update_map_key_policy_status (status : RibonKeyPolicyStatus) : RibonUpdateManifestStatus :=
  match status with
  | RIBON_KEY_POLICY_STATUS_IDENTITY_MISMATCH => RIBON_UPDATE_MANIFEST_STATUS_IDENTITY_MISMATCH
  | RIBON_KEY_POLICY_STATUS_MODE_USAGE_MISMATCH => RIBON_UPDATE_MANIFEST_STATUS_MODE_USAGE_MISMATCH
  | RIBON_KEY_POLICY_STATUS_DOMAIN_MISMATCH => RIBON_UPDATE_MANIFEST_STATUS_DOMAIN_MISMATCH
  | RIBON_KEY_POLICY_STATUS_UNSUPPORTED_ALGORITHM => RIBON_UPDATE_MANIFEST_STATUS_UNSUPPORTED_ALGORITHM
  | RIBON_KEY_POLICY_STATUS_SIGNATURE_INVALID => RIBON_UPDATE_MANIFEST_STATUS_SIGNATURE_INVALID
  | _ => RIBON_UPDATE_MANIFEST_STATUS_KEY_POLICY
  end.

Definition manifest_policy (m : RibonUpdateManifestView) (s : RibonUpdateSignatureEnvelopeView)
  : RibonKeyPolicyRequest :=
  mkKeyRequest sizeof_RibonKeyPolicyRequest RIBON_KEY_POLICY_ABI_VERSION (manifest_mode m)
    RIBON_KEY_POLICY_USAGE_UPDATE_MANIFEST 0 0 (senvelope_key_id s) (senvelope_key_id_size s)
    (manifest_product_digest m) (manifest_rollback_domain_digest m) (manifest_rollback_sequence m) [0; 0; 0; 0].

Definition manifest_verification (a : RibonUpdateManifestAuthorization) (m : RibonUpdateManifestView)
    (s : RibonUpdateSignatureEnvelopeView) (message : bytes) : RibonKeyPolicySignatureVerification :=
  mkKeyVerification sizeof_RibonKeyPolicySignatureVerification RIBON_KEY_POLICY_ABI_VERSION 0 0
    (Some (manifest_policy m s)) (authorization_signature_provider a)
    (Some message) RIBON_UPDATE_SIGNED_MESSAGE_V1_BYTES
    (senvelope_signature s) (senvelope_signature_size s)
    (authorization_workspace a) (authorization_workspace_size a) [0; 0; 0; 0].

(** A request that passed the argument check. *)
Definition authorize_checked (a : RibonUpdateManifestAuthorization) (expectation : RibonUpdateManifestExpectation)
  : RibonUpdateManifestStatus + RibonUpdateManifestView * RibonKeyPolicyDecision :=
  match ribon_update_manifest_open (authorization_manifest a) (authorization_manifest_size a) true with
  | inl status => inl status
  | inr manifest =>
    match ribon_update_manifest_matches_expectation manifest expectation with
    | RIBON_UPDATE_MANIFEST_STATUS_OK =>
      match ribon_update_signature_envelope_open (authorization_signature_envelope a)
              (authorization_signature_envelope_size a) true with
      | inl status => inl status
      | inr envelope =>
        if (senvelope_mode envelope !=? manifest_mode manifest) ||
           (senvelope_manifest_size envelope !=? manifest_byte_size manifest)
        then inl RIBON_UPDATE_MANIFEST_STATUS_MODE_USAGE_MISMATCH
        else
          let digest := ribon_security_sha256 (KeyPolicy.view (manifest_bytes manifest) (manifest_byte_size manifest)) in
          if negb (bytes_equal digest (senvelope_manifest_digest envelope))
          then inl RIBON_UPDATE_MANIFEST_STATUS_DIGEST_MISMATCH
          else
            match ribon_update_manifest_signed_message_v1 (Some manifest) (senvelope_key_id envelope)
                    (senvelope_key_id_size envelope) true with
            | None => inl RIBON_UPDATE_MANIFEST_STATUS_INVALID_ARGUMENT
            | Some message =>
              if negb (bytes_equal (ribon_security_sha256 message) (senvelope_signed_message_digest envelope))
              then inl RIBON_UPDATE_MANIFEST_STATUS_DIGEST_MISMATCH
              else
                match ribon_key_policy_verify (authorization_key_policy a)
                        (Some (manifest_verification a manifest envelope message)) (Some empty_decision) with
                | (RIBON_KEY_POLICY_STATUS_OK, decision) => inr (manifest, default empty_decision decision)
                | (status, _) => inl (ribon_update_map_key_policy_status status)
                end
            end
      end
    | status => inl status
    end
  end.

(** The view and the decision; [view] and [decision] are NULL or not. *)
Definition ribon_update_manifest_authorize (authorization : option RibonUpdateManifestAuthorization)
    (view decision : bool)
  : RibonUpdateManifestStatus + RibonUpdateManifestView * RibonKeyPolicyDecision :=
  match authorization with
  | None => inl RIBON_UPDATE_MANIFEST_STATUS_INVALID_ARGUMENT
  | Some a =>
    if negb view || negb decision ||
       (authorization_size a !=? sizeof_RibonUpdateManifestAuthorization) ||
       (authorization_abi_version a !=? RIBON_UPDATE_MANIFEST_ABI_VERSION) ||
       (authorization_flags a !=? 0) || (authorization_reserved0 a !=? 0) ||
       is_null (authorization_key_policy a) || is_null (authorization_signature_provider a) ||
       negb (ribon_update_expectation_is_valid (authorization_expectation a)) ||
       negb (bytes_zero (authorization_reserved a))
    then inl RIBON_UPDATE_MANIFEST_STATUS_INVALID_ARGUMENT
    else
      match authorization_expectation a with
      | None => inl RIBON_UPDATE_MANIFEST_STATUS_INVALID_ARGUMENT
      | Some expectation => authorize_checked a expectation
      end
  end.
