(* ===== verification/ManifestCodec.v ===== *)
(** * The manifest codec ([src/update/manifest.c])

    The encoder writes a 512-byte head and one 192-byte row per component; the
    reader is independent of it.  What is encoded is read back, and what the reader
    accepts is byte for byte what the encoder writes for it. *)

From S2P Require Import Prelude.
From S2P Require Import Buffer.
From S2P Require Import Wire.
From S2P Require Import Sha256.
From S2P Require Import Image.
From S2P Require Import KeyPolicy.
From S2P Require Import Manifest.

(** ** Words *)

Lemma read_u64_load b o : ribon_update_read_u64 b o = load_u64 b o.
Proof.
  unfold ribon_update_read_u64, load_u64, load_u32. change (upto 8) with [0; 1; 2; 3; 4; 5; 6; 7].
  cbn [fold_left]. rewrite !Z.add_0_r, Z.lor_0_l, Z.mul_0_l, Z.shiftl_0_r, <- !Z.lor_assoc, !Z.shiftl_lor.
  rewrite !Z.shiftl_shiftl by lia. rewrite <- !Z.add_assoc. repeat f_equal.
Qed.

Lemma store_u8_run b o v (n : nat) k : 0 <= o -> 0 <= k ->
  fold_left (fun b index => store_u8 b (o + index) (u8 (Z.shiftr v (index * 8)))) (seqZ k (Z.of_nat n)) b =
  store b (o + k) (le_bytes n (Z.shiftr v (k * 8))).
Proof.
  intros Ho. revert b k. induction n as [|n IH]; intros b k Hk.
  - change (Z.of_nat 0) with 0. rewrite seqZ_nil by lia. by destruct b.
  - rewrite seqZ_cons by lia. cbn [fold_left]. replace (Z.pred (Z.of_nat (S n))) with (Z.of_nat n) by lia.
    rewrite IH by lia. replace (o + Z.succ k) with (o + k + 1) by lia. rewrite store_u8_cons by lia.
    change (le_bytes (S n) (Z.shiftr v (k * 8))) with
      (u8 (Z.shiftr v (k * 8)) :: le_bytes n (Z.shiftr (Z.shiftr v (k * 8)) 8)).
    rewrite Z.shiftr_shiftr by lia. do 4 f_equal. lia.
Qed.

Lemma write_u16_le b o v : 0 <= o -> ribon_update_write_u16 b o v = store b o (le_bytes 2 v).
Proof. apply store_u16_le. Qed.

Lemma write_u32_le b o v : 0 <= o -> ribon_update_write_u32 b o v = store b o (le_bytes 4 v).
Proof.
  intros Ho. unfold ribon_update_write_u32. change 4 with (Z.of_nat 4). rewrite store_u8_run by lia.
  by rewrite Z.add_0_r, Z.mul_0_l, Z.shiftr_0_r.
Qed.

Lemma write_u64_le b o v : 0 <= o -> ribon_update_write_u64 b o v = store b o (le_bytes 8 v).
Proof.
  intros Ho. unfold ribon_update_write_u64. change 8 with (Z.of_nat 8). rewrite store_u8_run by lia.
  by rewrite Z.add_0_r, Z.mul_0_l, Z.shiftr_0_r.
Qed.

(** ** The parts of a manifest *)

(** A buffer of which only the middle is written. *)
Lemma list_inserts_front {A} i (k l l' : list A) : (i + length k <= length l)%nat ->
  list_inserts i k (l ++ l') = list_inserts i k l ++ l'.
Proof.
  revert i. induction k as [|x k IH]; intros i Hl; [done|]. cbn [list_inserts length] in *.
  rewrite IH by lia. rewrite insert_app_l; [done|]. rewrite length_inserts. lia.
Qed.

Lemma store_middle pre x post o s : 0 <= o -> o + len s <= len x ->
  store (pre ++ x ++ post) (len pre + o) s = pre ++ store x o s ++ post.
Proof.
  intros Ho Hl. unfold store, len in *. rewrite Z2Nat.inj_add, Nat2Z.id by lia.
  rewrite list_inserts_app_r. f_equal. apply list_inserts_front. lia.
Qed.

Definition shifted (base : Z) (ws : list write) : list write := (fun w => (base + fst w, snd w)) <$> ws.

Lemma writes_middle pre x post ws : fits (len x) (shape ws) = true ->
  writes (shifted (len pre) ws) (pre ++ x ++ post) = pre ++ writes ws x ++ post.
Proof.
  revert x. induction ws as [|[o s] ws IH]; intros x Hf; [done|].
  unfold fits in Hf. simpl in Hf. bool_to_prop.
  change (writes (shifted (len pre) ws) (store (pre ++ x ++ post) (len pre + o) s) =
          pre ++ writes ws (store x o s) ++ post).
  rewrite store_middle by lia. apply IH. by rewrite len_store.
Qed.

Definition component_row (c : RibonUpdateComponent) : list write :=
  [(0, native_logical_id_digest c); (32, native_content_digest c); (64, native_destination_id_digest c);
   (96, native_entry_contract_digest c); (128, le_bytes 8 (native_bundle_offset c));
   (136, le_bytes 8 (native_exact_size c)); (144, le_bytes 8 (native_maximum_size c));
   (152, le_bytes 2 (native_role c)); (154, le_bytes 2 (native_destination_class c));
   (156, le_bytes 2 (native_image_format c)); (158, le_bytes 2 (native_flags c));
   (160, le_bytes 4 (native_install_order c))].

Definition row_image (c : RibonUpdateComponent) : bytes := image 192 (component_row c).

Definition manifest_front (i : RibonUpdateManifestInput) (count : Z) : list write :=
  [(0, ribon_update_manifest_magic); (32, le_bytes 2 1); (34, le_bytes 2 0); (36, le_bytes 4 256);
   (40, le_bytes 8 (512 + count * 192)); (48, le_bytes 4 2); (52, le_bytes 4 count);
   (56, le_bytes 8 (minput_bundle_generation i)); (64, le_bytes 8 (minput_predecessor_generation i));
   (72, le_bytes 8 (minput_rollback_sequence i)); (80, le_bytes 8 (minput_creation_policy_version i));
   (88, le_bytes 2 1); (90, le_bytes 2 1); (92, le_bytes 2 (minput_mode i)); (96, minput_schema_digest i);
   (128, le_bytes 4 1); (132, le_bytes 4 0); (136, le_bytes 8 256); (144, le_bytes 8 256); (152, le_bytes 4 1);
   (156, le_bytes 4 256); (160, le_bytes 4 2); (164, le_bytes 4 0); (168, le_bytes 8 512);
   (176, le_bytes 8 (count * 192)); (184, le_bytes 4 count); (188, le_bytes 4 192);
   (256, minput_product_digest i); (288, minput_architecture_digest i); (320, minput_platform_digest i);
   (352, minput_environment_digest i); (384, minput_protocol_digest i); (416, minput_rollback_domain_digest i);
   (448, le_bytes 2 (minput_protocol_major i)); (450, le_bytes 2 (minput_protocol_minor i));
   (452, le_bytes 4 (minput_minimum_hardware_revision i)); (456, le_bytes 4 (minput_maximum_hardware_revision i))].

(** The canonical manifest. *)
Definition manifest_image (i : RibonUpdateManifestInput) (components : list RibonUpdateComponent) : bytes :=
  image 512 (manifest_front i (len components)) ++ concat (row_image <$> components).

(** ** Typed inputs *)

Definition digest_typed (d : bytes) : Prop := len d = 32 /\ octets d.

Record component_typed (c : RibonUpdateComponent) : Prop := {
  typed_native_flags : word 32 (native_flags c);
  typed_native_order : word 32 (native_install_order c);
  typed_native_enums : word 32 (native_role c) /\ word 32 (native_destination_class c) /\
    word 32 (native_image_format c);
  typed_native_range : word 64 (native_bundle_offset c) /\ word 64 (native_exact_size c) /\
    word 64 (native_maximum_size c);
  typed_native_digests : digest_typed (native_logical_id_digest c) /\ digest_typed (native_content_digest c) /\
    digest_typed (native_destination_id_digest c) /\ digest_typed (native_entry_contract_digest c);
}.

Record manifest_input_typed (i : RibonUpdateManifestInput) : Prop := {
  typed_minput_mode : word 32 (minput_mode i);
  typed_minput_sequences : word 64 (minput_bundle_generation i) /\ word 64 (minput_predecessor_generation i) /\
    word 64 (minput_rollback_sequence i) /\ word 64 (minput_creation_policy_version i);
  typed_minput_protocol : word 16 (minput_protocol_major i) /\ word 16 (minput_protocol_minor i);
  typed_minput_hardware : word 32 (minput_minimum_hardware_revision i) /\
    word 32 (minput_maximum_hardware_revision i);
  typed_minput_digests : digest_typed (minput_schema_digest i) /\ digest_typed (minput_product_digest i) /\
    digest_typed (minput_architecture_digest i) /\ digest_typed (minput_platform_digest i) /\
    digest_typed (minput_environment_digest i) /\ digest_typed (minput_protocol_digest i) /\
    digest_typed (minput_rollback_domain_digest i);
  typed_minput_count : word 32 (minput_component_count i);
  typed_minput_array : forall l, minput_components i = Some l -> len l = minput_component_count i;
  typed_minput_components : Forall component_typed (default [] (minput_components i));
}.

(** ** The encoder writes the image *)

Lemma row_shape c : component_typed c ->
  shape (component_row c) = [(0, 32); (32, 32); (64, 32); (96, 32); (128, 8); (136, 8); (144, 8); (152, 2);
    (154, 2); (156, 2); (158, 2); (160, 4)].
Proof.
  intros [_ _ _ _ ((L1 & _) & (L2 & _) & (L3 & _) & (L4 & _))]. unfold shape, component_row. cbn [fmap list_fmap fst snd].
  by rewrite L1, L2, L3, L4.
Qed.

Lemma front_shape i count : manifest_input_typed i ->
  shape (manifest_front i count) = [(0, 32); (32, 2); (34, 2); (36, 4); (40, 8); (48, 4); (52, 4); (56, 8); (64, 8);
    (72, 8); (80, 8); (88, 2); (90, 2); (92, 2); (96, 32); (128, 4); (132, 4); (136, 8); (144, 8); (152, 4); (156, 4);
    (160, 4); (164, 4); (168, 8); (176, 8); (184, 4); (188, 4); (256, 32); (288, 32); (320, 32); (352, 32); (384, 32);
    (416, 32); (448, 2); (450, 2); (452, 4); (456, 4)].
Proof.
  intros [_ _ _ _ ((L1 & _) & (L2 & _) & (L3 & _) & (L4 & _) & (L5 & _) & (L6 & _) & (L7 & _)) _ _ _].
  unfold shape, manifest_front. cbn [fmap list_fmap fst snd]. by rewrite L1, L2, L3, L4, L5, L6, L7.
Qed.

Lemma encode_component_row c pre post : component_typed c ->
  ribon_update_encode_component c (pre ++ zeros 192 ++ post) (len pre) = pre ++ row_image c ++ post.
Proof.
  intros Hc. unfold ribon_update_encode_component. pose proof (len_nonneg pre).
  rewrite !write_u64_le, !write_u32_le, !write_u16_le by lia. rewrite !le_bytes_wrap by lia.
  unfold row_image, image. rewrite <- writes_middle by (rewrite (row_shape c Hc); reflexivity).
  unfold shifted, component_row. cbn [fmap list_fmap fst snd]. unfold writes. cbn [fold_left fst snd].
  by rewrite Z.add_0_r.
Qed.

Lemma len_row c : len (row_image c) = 192.
Proof. apply len_image. lia. Qed.

Lemma component_input_at comps (k : nat) : component_input comps (Z.of_nat k) = comps !! k.
Proof. unfold component_input. by rewrite Nat2Z.id. Qed.

Lemma encode_rows_image comps before rest pre : comps = before ++ rest -> Forall component_typed rest ->
  len pre = 512 + len before * 192 ->
  encode_rows comps (length rest) (len before) (pre ++ zeros (len rest * 192)) = pre ++ concat (row_image <$> rest).
Proof.
  revert before pre. induction rest as [|c rest IH]; intros before pre -> Ht Hp; [done|].
  apply Forall_cons in Ht as [Hc Ht]. cbn [length encode_rows].
  assert (Hi : component_input (before ++ c :: rest) (len before) = Some c).
  { unfold component_input, len. rewrite Nat2Z.id. by rewrite list_lookup_middle. }
  rewrite Hi. unfold RIBON_UPDATE_COMPONENTS_OFFSET, RIBON_UPDATE_MANIFEST_COMPONENT_BYTES.
  rewrite <- Hp. replace (len (c :: rest) * 192) with (192 + len rest * 192) by (rewrite len_cons; lia).
  pose proof (len_nonneg rest). rewrite zeros_app, encode_component_row, app_assoc by (done || lia).
  replace (len before + 1) with (len (before ++ [c])) by (rewrite len_app, len_cons, len_nil; lia).
  rewrite IH; [by rewrite <- app_assoc|by rewrite <- app_assoc|done|].
  rewrite !len_app, len_row, len_cons, len_nil. lia.
Qed.

Lemma manifest_head_image i n : manifest_input_typed i -> minput_component_count i = n -> 0 <= n <= 16 ->
  manifest_head i (u64 (n * 192)) (u64 (512 + u64 (n * 192))) = image 512 (manifest_front i n) ++ zeros (n * 192).
Proof.
  intros Hi Hn Hr. rewrite !(wrap_small 64) by (apply word64; unfold UINT64_MAX; lia).
  unfold manifest_head, ribon_update_write_directory_entry.
  rewrite !write_u64_le, !write_u32_le, !write_u16_le by (vm_compute; discriminate).
  rewrite !le_bytes_wrap by lia. rewrite zeros_app by lia.
  pose proof (writes_middle [] (zeros 512) (zeros (n * 192)) (manifest_front i n)) as E.
  cbn [app] in E. unfold image. rewrite <- E by (rewrite (front_shape i n Hi); reflexivity).
  rewrite Hn. reflexivity.
Qed.

(** ** Rows *)

Definition component_view (c : RibonUpdateComponent) : RibonUpdateComponentView :=
  mkComponentView (native_install_order c) (native_role c) (native_destination_class c) (native_image_format c)
    (native_flags c) (native_bundle_offset c) (native_exact_size c) (native_maximum_size c)
    (native_logical_id_digest c) (native_content_digest c) (native_destination_id_digest c)
    (native_entry_contract_digest c).

(** The component fits the 16-bit fields of a row. *)
Record component_narrow (c : RibonUpdateComponent) : Prop := {
  narrow_flags : word 16 (native_flags c);
  narrow_role : word 16 (native_role c);
  narrow_class : word 16 (native_destination_class c);
  narrow_format : word 16 (native_image_format c);
}.

Lemma row_ascending c : component_typed c -> ascending 0 192 (component_row c).
Proof.
  intros [_ _ _ _ ((L1 & _) & (L2 & _) & (L3 & _) & (L4 & _))]. unfold component_row. cbn [ascending].
  rewrite L1, L2, L3, L4, !len_le_bytes. lia.
Qed.

(** A row is the image of a component exactly when it decodes to the component
    and its last 28 bytes are clear. *)
Lemma row_exact c row : component_typed c -> component_narrow c -> octets row ->
  row = row_image c <->
  len row = 192 /\ ribon_update_decode_component row = component_view c /\ slice 164 28 row = zeros 28.
Proof.
  intros Hc Hn Hr. unfold row_image. rewrite image_exact by by apply row_ascending.
  destruct Hc as [Hf Ho (He1 & He2 & He3) (Hb1 & Hb2 & Hb3) ((L1 & _) & (L2 & _) & (L3 & _) & (L4 & _))], Hn.
  unfold ribon_update_decode_component, component_view. rewrite !read_u64_load.
  change ribon_update_read_u32 with load_u32. change ribon_update_read_u16 with load_u16.
  split; intros (Hl & H); (split; [done|]).
  - destruct H as [Hh Hg].
    assert (L : forall i o w, component_row c !! i = Some (o, w) -> slice o (len w) row = w)
      by (intros i o w Hi; exact (proj1 (Forall_lookup _ _) Hh i (o, w) Hi)).
    pose proof (L 0%nat _ _ eq_refl) as D0. pose proof (L 1%nat _ _ eq_refl) as D1.
    pose proof (L 2%nat _ _ eq_refl) as D2. pose proof (L 3%nat _ _ eq_refl) as D3.
    rewrite L1 in D0. rewrite L2 in D1. rewrite L3 in D2. rewrite L4 in D3. split.
    + f_equal; first [held L 11%nat I|held L 7%nat I|held L 8%nat I|held L 9%nat I|held L 10%nat I
        |held L 4%nat I|held L 5%nat I|held L 6%nat I|assumption].
    + exact (proj1 (Forall_lookup _ _) Hg 12%nat (164, 28) eq_refl).
  - destruct H as [Hd Hz]. injection Hd as E0 E1 E2 E3 E4 E5 E6 E7 E8 E9 E10 E11. split.
    + unfold holds, component_row.
      repeat first [apply Forall_nil|apply Forall_cons; split]; cbn [fst snd]; try exact I;
        first [loaded|rewrite ?L1, ?L2, ?L3, ?L4; assumption].
    + unfold clear_at, component_row. cbn [gaps]. rewrite !len_le_bytes, L1, L2, L3, L4.
      repeat first [apply Forall_nil|apply Forall_cons; split]; cbn [fst snd]; try exact I;
        first [apply slice_empty|exact Hz].
Qed.

(** ** The head *)

(** What the reader finds in the first 512 bytes of [b]. *)
Record front_reads (b : bytes) (i : RibonUpdateManifestInput) (n : Z) : Prop := {
  front_magic : slice 0 32 b = ribon_update_manifest_magic;
  front_version : load_u16 b 32 = 1 /\ load_u16 b 34 = 0;
  front_sizes : load_u32 b 36 = 256 /\ load_u64 b 40 = 512 + n * 192 /\ load_u32 b 48 = 2 /\ load_u32 b 52 = n;
  front_generations : load_u64 b 56 = minput_bundle_generation i /\
    load_u64 b 64 = minput_predecessor_generation i /\ load_u64 b 72 = minput_rollback_sequence i /\
    load_u64 b 80 = minput_creation_policy_version i;
  front_algorithms : load_u16 b 88 = 1 /\ load_u16 b 90 = 1;
  front_mode : load_u16 b 92 = minput_mode i /\ load_u16 b 94 = 0;
  front_schema : slice 96 32 b = minput_schema_digest i;
  front_binding_entry : load_u32 b 128 = 1 /\ load_u32 b 132 = 0 /\ load_u64 b 136 = 256 /\ load_u64 b 144 = 256 /\
    load_u32 b 152 = 1 /\ load_u32 b 156 = 256;
  front_components_entry : load_u32 b 160 = 2 /\ load_u32 b 164 = 0 /\ load_u64 b 168 = 512 /\
    load_u64 b 176 = n * 192 /\ load_u32 b 184 = n /\ load_u32 b 188 = 192;
  front_unused_entries : slice 192 64 b = zeros 64;
  front_digests : slice 256 32 b = minput_product_digest i /\ slice 288 32 b = minput_architecture_digest i /\
    slice 320 32 b = minput_platform_digest i /\ slice 352 32 b = minput_environment_digest i /\
    slice 384 32 b = minput_protocol_digest i /\ slice 416 32 b = minput_rollback_domain_digest i;
  front_protocol : load_u16 b 448 = minput_protocol_major i /\ load_u16 b 450 = minput_protocol_minor i /\
    load_u32 b 452 = minput_minimum_hardware_revision i /\ load_u32 b 456 = minput_maximum_hardware_revision i;
  front_unused : slice 460 52 b = zeros 52;
}.

Lemma front_ascending i n : manifest_input_typed i -> ascending 0 512 (manifest_front i n).
Proof.
  intros [_ _ _ _ ((L1 & _) & (L2 & _) & (L3 & _) & (L4 & _) & (L5 & _) & (L6 & _) & (L7 & _)) _ _ _].
  unfold manifest_front. cbn [ascending]. rewrite L1, L2, L3, L4, L5, L6, L7, !len_le_bytes.
  change (len ribon_update_manifest_magic) with 32. lia.
Qed.

(** The goal is a load or a digest of a buffer that holds an image of shape [Hsh]. *)
Ltac held_at L Hsh W16 W32 W64 :=
  let sh := match type of Hsh with _ = ?sh => sh end in
  lazymatch goal with
  | |- load_u16 _ ?o = _ => let i := eval vm_compute in (index_of o 2 sh) in held L i W16
  | |- load_u32 _ ?o = _ => let i := eval vm_compute in (index_of o 4 sh) in held L i W32
  | |- load_u64 _ ?o = _ => let i := eval vm_compute in (index_of o 8 sh) in held L i W64
  end.

Ltac digest_at D Hsh :=
  let sh := match type of Hsh with _ = ?sh => sh end in
  lazymatch goal with
  | |- slice ?o 32 _ = _ => let i := eval vm_compute in (index_of o 32 sh) in exact (D i _ _ eq_refl ltac:(assumption))
  end.

Lemma front_holds i n b : manifest_input_typed i -> word 16 (minput_mode i) -> octets b -> 512 <= len b ->
  0 <= n <= 16 -> holds b (manifest_front i n) -> clear_at b (gaps 0 512 (manifest_front i n)) -> front_reads b i n.
Proof.
  intros Ht Hm Hb Hl Hn Hh Hg. assert (Hsh := front_shape i n Ht).
  destruct Ht as [_ (S1 & S2 & S3 & S4) (P1 & P2) (W1 & W2)
    ((L1 & _) & (L2 & _) & (L3 & _) & (L4 & _) & (L5 & _) & (L6 & _) & (L7 & _)) _ _ _].
  assert (L : forall k o w, manifest_front i n !! k = Some (o, w) -> slice o (len w) b = w)
    by (intros k o w Hi; exact (proj1 (Forall_lookup _ _) Hh k (o, w) Hi)).
  assert (W : forall k z, 16 <= k -> 0 <= z <= 4096 -> word k z).
  { intros k z Hk Hz. split; [lia|]. apply Z.lt_le_trans with 65536; [lia|].
    change 65536 with (2 ^ 16). apply Z.pow_le_mono_r; lia. }
  assert (W16 := fun z => W 16 z ltac:(lia)). assert (W32 := fun z => W 32 z ltac:(lia)).
  assert (W64 := fun z => W 64 z ltac:(lia)).
  assert (D : forall k o w, manifest_front i n !! k = Some (o, w) -> len w = 32 -> slice o 32 b = w)
    by (intros k o w Hi <-; by apply (L k)).
  assert (G : forall k o s, gaps 0 512 (manifest_front i n) !! k = Some (o, s) -> slice o s b = zeros s)
    by (intros k o s Hi; exact (proj1 (Forall_lookup _ _) Hg k (o, s) Hi)).
  pose proof (G 14%nat 94 2 eq_refl) as G94. pose proof (G 27%nat 192 64 eq_refl) as G192.
  pose proof (G 37%nat 460 52 eq_refl) as G460.
  constructor; split_and?; first
    [held_at L Hsh W16 W32 W64|digest_at D Hsh|exact (L 0%nat _ _ eq_refl)|exact G192|exact G460
    |rewrite load_u16_le, G94 by (done || lia); reflexivity].
Qed.

Lemma front_held i n b : manifest_input_typed i -> octets b -> 512 <= len b -> front_reads b i n ->
  holds b (manifest_front i n) /\ clear_at b (gaps 0 512 (manifest_front i n)).
Proof.
  intros Ht Hb Hl [R1 (R2 & R3) (R4 & R5 & R6 & R7) (R8 & R9 & R10 & R11) (R12 & R13) (R14 & R15) R16
    (R17 & R18 & R19 & R20 & R21 & R22) (R23 & R24 & R25 & R26 & R27 & R28) R29
    (R30 & R31 & R32 & R33 & R34 & R35) (R36 & R37 & R38 & R39) R40].
  destruct Ht as [_ _ _ _ ((L1 & _) & (L2 & _) & (L3 & _) & (L4 & _) & (L5 & _) & (L6 & _) & (L7 & _)) _ _ _].
  split.
  - unfold holds, manifest_front.
    repeat first [apply Forall_nil|apply Forall_cons; split]; cbn [fst snd]; try exact I;
      first [exact R1|loaded|rewrite ?L1, ?L2, ?L3, ?L4, ?L5, ?L6, ?L7; assumption].
  - unfold clear_at, manifest_front. cbn [gaps]. rewrite !len_le_bytes, L1, L2, L3, L4, L5, L6, L7.
    change (len ribon_update_manifest_magic) with 32.
    repeat first [apply Forall_nil|apply Forall_cons; split]; cbn [fst snd]; try exact I;
      first [apply slice_empty|exact R29|exact R40|exact (loaded_u16 b 94 0 Hb ltac:(lia) ltac:(lia) R15)].
Qed.

(** The first 512 bytes are the head of an input exactly when they read as it. *)
Lemma front_exact i n b : manifest_input_typed i -> word 16 (minput_mode i) -> octets b -> 512 <= len b ->
  0 <= n <= 16 -> slice 0 512 b = image 512 (manifest_front i n) <-> front_reads b i n.
Proof.
  intros Ht Hm Hb Hl Hn. rewrite image_exact_front by (done || by apply front_ascending).
  split; [intros []; by apply front_holds|by apply front_held].
Qed.

(** ** Heads and rows together *)

Lemma len_rows comps : len (concat (row_image <$> comps)) = len comps * 192.
Proof.
  induction comps as [|c comps IH]; [done|]. rewrite fmap_cons. cbn [concat].
  rewrite len_app, len_row, IH, len_cons. lia.
Qed.

Lemma rows_slice comps (k : nat) c : comps !! k = Some c ->
  slice (Z.of_nat k * 192) 192 (concat (row_image <$> comps)) = row_image c.
Proof.
  revert k. induction comps as [|c' comps IH]; intros k Hk; [done|]. rewrite fmap_cons. cbn [concat].
  destruct k as [|k]; cbn in Hk.
  - injection Hk as ->. pose proof (len_nonneg (concat (row_image <$> comps))).
    rewrite slice_app_l by (rewrite ?len_row; lia). apply slice_all. by rewrite len_row.
  - rewrite slice_app_r by (rewrite ?len_row; lia). rewrite len_row.
    replace (Z.of_nat (S k) * 192 - 192) with (Z.of_nat k * 192) by lia. by apply IH.
Qed.

Lemma image_rows i n comps (k : nat) c : comps !! k = Some c ->
  manifest_row (image 512 (manifest_front i n) ++ concat (row_image <$> comps)) (Z.of_nat k) = row_image c.
Proof.
  intros Hk. unfold manifest_row, RIBON_UPDATE_COMPONENTS_OFFSET, RIBON_UPDATE_MANIFEST_COMPONENT_BYTES.
  rewrite slice_app_r; rewrite len_image by lia; [|lia].
  replace (512 + Z.of_nat k * 192 - 512) with (Z.of_nat k * 192) by lia. by apply rows_slice.
Qed.

Lemma rows_image b comps : len b = 512 + len comps * 192 ->
  (forall (k : nat) c, comps !! k = Some c -> manifest_row b (Z.of_nat k) = row_image c) ->
  b = slice 0 512 b ++ concat (row_image <$> comps).
Proof.
  intros Hl Hr. rewrite <- (slice_all b (512 + len comps * 192)) at 1 by done. pose proof (len_nonneg comps).
  rewrite slice_split by lia. f_equal.
  cut (forall l (k : nat), (forall (j : nat) c, l !! j = Some c -> manifest_row b (Z.of_nat (k + j)) = row_image c) ->
    512 + (Z.of_nat k + len l) * 192 <= len b ->
    slice (512 + Z.of_nat k * 192) (len l * 192) b = concat (row_image <$> l)).
  { intros H'. apply (H' comps O); [done|lia]. }
  clear Hl Hr. induction l as [|c l IH]; intros k Hr Hl; [done|].
  pose proof (len_nonneg l). rewrite len_cons in *. rewrite fmap_cons. cbn [concat].
  replace ((1 + len l) * 192) with (192 + len l * 192) by lia. rewrite slice_split by lia. f_equal.
  - rewrite <- (Hr O c eq_refl). unfold manifest_row, RIBON_UPDATE_COMPONENTS_OFFSET,
      RIBON_UPDATE_MANIFEST_COMPONENT_BYTES. f_equal. lia.
  - replace (512 + Z.of_nat k * 192 + 192) with (512 + Z.of_nat (S k) * 192) by lia.
    apply IH; [|lia]. intros j c' Hj. rewrite <- (Hr (S j) c' Hj). f_equal. lia.
Qed.
