(* ===== verification/ManifestReader.v ===== *)
(** * What the manifest reader accepts ([src/update/manifest.c])

    The validator of the encoder's input and the reader are two separate
    pieces of code that check the same conditions.  They agree: what is encoded
    opens, and what opens is what the encoder writes for it.  An accepted manifest
    describes its components without ambiguity. *)

From S2P Require Import Prelude.
From S2P Require Import Buffer.
From S2P Require Import Wire.
From S2P Require Import Sha256.
From S2P Require Import Image.
From S2P Require Import KeyPolicy.
From S2P Require Import Manifest.
From S2P Require Import ManifestCodec.

(** ** One component *)

Record component_header (c : RibonUpdateComponent) : Prop := {
  header_native_size : native_size c = sizeof_RibonUpdateComponent;
  header_native_abi : native_abi_version c = RIBON_UPDATE_MANIFEST_ABI_VERSION;
  header_native_reserved0 : native_reserved0 c = 0;
  header_native_reserved : bytes_zero (native_reserved c) = true;
}.

(** What the validator accepts at place [order]. *)
Record component_accepted (c : RibonUpdateComponentView) (order : Z) : Prop := {
  accepted_flags : Z.land (component_flags c) (u32 (Z.lnot RIBON_UPDATE_COMPONENT_REQUIRED)) = 0;
  accepted_order : component_install_order c = order;
  accepted_role : ribon_update_role_destination_is_valid (component_role c) (component_destination_class c) = true;
  accepted_format : ribon_update_image_format_is_valid (component_image_format c) = true;
  accepted_size : component_exact_size c <> 0 /\ component_exact_size c <= component_maximum_size c /\
    component_bundle_offset c <= UINT64_MAX - component_exact_size c;
  accepted_ids : bytes_zero (component_logical_id_digest c) = false /\
    bytes_zero (component_content_digest c) = false /\ bytes_zero (component_destination_id_digest c) = false /\
    bytes_zero (component_entry_contract_digest c) = false;
}.

Lemma component_input_valid c order : ribon_update_component_input_is_valid (Some c) order = true <->
  component_header c /\ component_accepted (component_view c) order.
Proof.
  unfold ribon_update_component_input_is_valid, ribon_update_digest_is_valid. split.
  - intros H. bool_to_prop. split; constructor; cbn; try done; lia.
  - intros [[A1 A2 A3 A4] [B1 B2 B3 B4 (B5 & B6 & B7) (B8 & B9 & B10 & B11)]]. cbn in *.
    rewrite A1, A2, A3, A4, B1, B2, B3, B4, B8, B9, B10, B11. compare. done.
Qed.

Lemma component_view_valid row v order : ribon_update_component_view_is_valid row v order = true <->
  component_accepted v order /\ bytes_zero (slice 164 28 row) = true.
Proof.
  unfold ribon_update_component_view_is_valid, ribon_update_digest_is_valid. split.
  - intros H. bool_to_prop. split; [|done]. by constructor.
  - intros [[B1 B2 B3 B4 (B5 & B6 & B7) (B8 & B9 & B10 & B11)] Hz].
    rewrite Hz, B1, B2, B3, B4, B8, B9, B10, B11. compare. done.
Qed.

Lemma role_destination_range role class : ribon_update_role_destination_is_valid role class = true ->
  1 <= role <= 5 /\ class = role.
Proof.
  unfold ribon_update_role_destination_is_valid. intros H. repeat apply orb_true_iff in H as [H|H]; bool_to_prop;
    subst; by vm_compute.
Qed.

Lemma flags_range z : word 32 z -> Z.land z (u32 (Z.lnot RIBON_UPDATE_COMPONENT_REQUIRED)) = 0 -> 0 <= z <= 1.
Proof.
  intros Hw. rewrite land_wrap by (done || lia). change RIBON_UPDATE_COMPONENT_REQUIRED with (2 ^ 1 - 1).
  rewrite land_align_mask by lia. pose proof (Z.mod_pos_bound z (2 ^ 1) ltac:(lia)). lia.
Qed.

Lemma accepted_narrow c order : component_typed c -> component_accepted (component_view c) order ->
  component_narrow c.
Proof.
  intros Ht [B1 _ B3 B4 _ _]. cbn in *. apply flags_range in B1; [|apply Ht].
  apply role_destination_range in B3 as [B3 E].
  unfold ribon_update_image_format_is_valid, RIBON_UPDATE_IMAGE_FORMAT_OPAQUE, RIBON_UPDATE_IMAGE_FORMAT_RAW in B4.
  bool_to_prop. constructor; apply word16; unfold UINT16_MAX; lia.
Qed.

(** ** The loop over the components *)

(** Row [k] of [b] is component [k] of the array. *)
Definition rows_hold (b : bytes) (comps : list RibonUpdateComponent) : Prop :=
  forall (k : nat) c, comps !! k = Some c ->
    manifest_row b (Z.of_nat k) = row_image c /\ component_typed c /\ component_narrow c /\ component_header c.

Lemma existsb_upto_ext (f g : Z -> bool) n : (forall k, 0 <= k < n -> f k = g k) ->
  existsb f (upto n) = existsb g (upto n).
Proof.
  intros H. apply eq_true_iff_eq. rewrite !existsb_exists.
  split; intros (k & Hk & E); exists k; (split; [done|]); apply list_elem_of_In, elem_of_seqZ in Hk;
    rewrite <- E; [symmetry|]; apply H; lia.
Qed.

Lemma octets_row c : component_typed c -> octets (row_image c).
Proof.
  intros [_ _ _ _ ((_ & ?) & (_ & ?) & (_ & ?) & (_ & ?))]. apply octets_image. unfold component_row.
  rewrite !Forall_cons, Forall_nil. cbn [snd]. split_and!; try apply octets_le_bytes; done.
Qed.

Lemma row_decodes c : component_typed c -> component_narrow c ->
  ribon_update_decode_component (row_image c) = component_view c /\ slice 164 28 (row_image c) = zeros 28.
Proof.
  intros Ht Hn. apply (row_exact c (row_image c)); auto using octets_row.
Qed.

Section Loops.
Context (b : bytes) (comps : list RibonUpdateComponent) (Hrows : rows_hold b comps).

Lemma component_held (k : nat) : (k < length comps)%nat ->
  exists c, component_input comps (Z.of_nat k) = Some c /\
    ribon_update_decode_component (manifest_row b (Z.of_nat k)) = component_view c /\
    ribon_update_component_view_is_valid (manifest_row b (Z.of_nat k)) (component_view c) (Z.of_nat k) =
    ribon_update_component_input_is_valid (Some c) (Z.of_nat k).
Proof.
  intros Hk. destruct (lookup_lt_is_Some_2 _ _ Hk) as [c Hc]. destruct (Hrows k c Hc) as (Hr & Ht & Hn & Hh).
  destruct (row_decodes c Ht Hn) as [Hd Hz]. exists c. rewrite component_input_at, Hr, Hd. split_and!; [done|done|].
  apply eq_true_iff_eq. rewrite component_view_valid, component_input_valid, Hz, bytes_zero_zeros. tauto.
Qed.

Lemma loops_agree left (k : nat) kernel policy recovery : (k + left)%nat = length comps ->
  validate_components comps left (Z.of_nat k) kernel policy recovery = RIBON_UPDATE_MANIFEST_STATUS_OK <->
  open_rows b left (Z.of_nat k) kernel policy recovery = true.
Proof.
  revert k kernel policy recovery. induction left as [|left IH]; intros k kernel policy recovery Hk; [done|].
  destruct (component_held k ltac:(lia)) as (c & Hc & Hd & Hv).
  cbn [validate_components open_rows]. rewrite Hc, Hd, Hv. destruct (negb _); [done|].
  cbn [component_role component_view]. destruct (_ || _); [done|].
  erewrite existsb_upto_ext with (g := fun other =>
    component_clash (component_view c) (ribon_update_decode_component (manifest_row b other))).
  - destruct (existsb _ _); [done|]. replace (Z.of_nat k + 1) with (Z.of_nat (S k)) by lia. apply IH. lia.
  - intros j Hj. destruct (component_held (Z.to_nat j) ltac:(lia)) as (c' & Hc' & Hd' & _).
    rewrite Z2Nat.id in Hc', Hd' by lia. by rewrite Hc', Hd'.
Qed.
End Loops.

(** What the reader decodes at place [k]. *)
Definition row_view (b : bytes) (k : nat) : RibonUpdateComponentView :=
  ribon_update_decode_component (manifest_row b (Z.of_nat k)).

(** From place [k] on, a component with the role [which] is the only one, and there
    is none where one was counted before. *)
Definition single (b : bytes) (which counter : Z) (k n : nat) : Prop :=
  forall j, (k <= j < n)%nat -> component_role (row_view b j) = which ->
    counter = 0 /\ forall i, (k <= i < j)%nat -> component_role (row_view b i) <> which.

Lemma single_step b which counter k n : 0 <= counter <= 1 ->
  count_role (component_role (row_view b k)) which counter <= 1 ->
  single b which (count_role (component_role (row_view b k)) which counter) (S k) n ->
  single b which counter k n.
Proof.
  intros Hc. unfold count_role. rewrite wrap_small by (apply word32; unfold UINT32_MAX; destruct (_ =? _); lia).
  intros Hle Hs j Hj Hr. destruct (decide (j = k)) as [->|Hne].
  - rewrite Hr, Z.eqb_refl in Hle. split; lia.
  - destruct (Hs j ltac:(lia) Hr) as [Hz Hn]. destruct (Z.eqb_spec (component_role (row_view b k)) which) as [E|E]; [lia|].
    split; [lia|]. intros i Hi. destruct (decide (i = k)) as [->|]; [done|]. apply Hn. lia.
Qed.

Lemma count_role_range role which counter : 0 <= counter <= 1 -> 0 <= count_role role which counter.
Proof.
  intros. unfold count_role. rewrite wrap_small; [|apply word32; unfold UINT32_MAX]; destruct (_ =? _); lia.
Qed.

(** What the loop of the reader has checked from place [k] on. *)
Record rows_accepted (b : bytes) (kernel policy recovery : Z) (k n : nat) : Prop := {
  accepted_each : forall j, (k <= j < n)%nat -> component_accepted (row_view b j) (Z.of_nat j) /\
    slice 164 28 (manifest_row b (Z.of_nat j)) = zeros 28;
  accepted_distinct : forall i j, (i < j)%nat -> (k <= j < n)%nat -> component_clash (row_view b j) (row_view b i) = false;
  accepted_kernel : single b RIBON_UPDATE_COMPONENT_ROLE_KERNEL kernel k n;
  accepted_policy : single b RIBON_UPDATE_COMPONENT_ROLE_POLICY policy k n;
  accepted_recovery : single b RIBON_UPDATE_COMPONENT_ROLE_RECOVERY_IMAGE recovery k n;
}.

Lemma len_manifest_row b (k : nat) : 512 + (Z.of_nat k + 1) * 192 <= len b -> len (manifest_row b (Z.of_nat k)) = 192.
Proof.
  intros. unfold manifest_row, RIBON_UPDATE_COMPONENTS_OFFSET, RIBON_UPDATE_MANIFEST_COMPONENT_BYTES.
  apply len_slice; lia.
Qed.

Lemma open_rows_accepted b left k kernel policy recovery :
  0 <= kernel <= 1 -> 0 <= policy <= 1 -> 0 <= recovery <= 1 -> 512 + Z.of_nat (k + left) * 192 <= len b ->
  open_rows b left (Z.of_nat k) kernel policy recovery = true ->
  rows_accepted b kernel policy recovery k (k + left).
Proof.
  revert k kernel policy recovery. induction left as [|left IH]; intros k kernel policy recovery Hk Hp Hr Hl Ho.
  { constructor; unfold single; intros; lia. }
  cbn [open_rows] in Ho. fold (row_view b k) in Ho. destruct (negb _) eqn:Hv in Ho; [done|].
  destruct (_ || _) eqn:Hc in Ho; [done|]. destruct (existsb _ _) eqn:He in Ho; [done|].
  bool_to_prop. apply component_view_valid in Hv as [Hv Hz]. apply bytes_zero_true in Hz.
  rewrite len_slice in Hz by (rewrite ?len_manifest_row; lia).
  replace (Z.of_nat k + 1) with (Z.of_nat (S k)) in Ho by lia.
  replace (k + S left)%nat with (S k + left)%nat in * by lia.
  apply IH in Ho as [A1 A2 A3 A4 A5]; try (split; [by apply count_role_range|lia]); [|lia].
  constructor.
  - intros j Hj. destruct (decide (j = k)) as [->|]; [done|]. apply A1. lia.
  - intros i j Hij Hj. destruct (decide (j = k)) as [->|]; [|apply A2; lia].
    apply (proj1 (existsb_false _ _) He (Z.of_nat i)). apply elem_of_seqZ. lia.
  - by apply single_step.
  - by apply single_step.
  - by apply single_step.
Qed.

(** ** The whole manifest *)

(** The conditions the validator and the reader both check of the head. *)
Record head_accepted (i : RibonUpdateManifestInput) : Prop := {
  accepted_mode : ribon_update_mode_is_valid (minput_mode i) = true;
  accepted_generations : minput_bundle_generation i <> 0 /\
    minput_predecessor_generation i < minput_bundle_generation i;
  accepted_hardware : minput_minimum_hardware_revision i <= minput_maximum_hardware_revision i;
  accepted_digests : bytes_zero (minput_schema_digest i) = false /\ bytes_zero (minput_product_digest i) = false /\
    bytes_zero (minput_architecture_digest i) = false /\ bytes_zero (minput_platform_digest i) = false /\
    bytes_zero (minput_environment_digest i) = false /\ bytes_zero (minput_protocol_digest i) = false /\
    bytes_zero (minput_rollback_domain_digest i) = false;
}.

Record manifest_header (i : RibonUpdateManifestInput) : Prop := {
  header_minput_size : minput_size i = sizeof_RibonUpdateManifestInput;
  header_minput_abi : minput_abi_version i = RIBON_UPDATE_MANIFEST_ABI_VERSION;
  header_minput_flags : minput_flags i = 0;
  header_minput_reserved0 : minput_reserved0 i = 0;
  header_minput_reserved : bytes_zero (minput_reserved i) = true;
}.

Lemma input_validate i : ribon_update_manifest_input_validate (Some i) = RIBON_UPDATE_MANIFEST_STATUS_OK <->
  manifest_header i /\ head_accepted i /\
  exists comps, minput_components i = Some comps /\ minput_component_count i <> 0 /\
    minput_component_count i <= 16 /\
    validate_components comps (Z.to_nat (minput_component_count i)) 0 0 0 0 = RIBON_UPDATE_MANIFEST_STATUS_OK.
Proof.
  unfold ribon_update_manifest_input_validate, ribon_update_digest_is_valid, RIBON_UPDATE_MANIFEST_MAX_COMPONENTS.
  split.
  - destruct (_ || _) eqn:G; [done|]. intros Hv. bool_to_prop.
    destruct (minput_components i) as [comps|] eqn:Ec; [|done].
    split_and!; [by constructor|by constructor|by exists comps].
  - intros ([A1 A2 A3 A4 A5] & [B1 (B2 & B3) B4 (B5 & B6 & B7 & B8 & B9 & B10 & B11)] & comps & Ec & C1 & C2 & Hv).
    rewrite A1, A2, A3, A4, A5, B1, B5, B6, B7, B8, B9, B10, B11, Ec. compare. exact Hv.
Qed.

Definition manifest_view_of (i : RibonUpdateManifestInput) (b : bytes) : RibonUpdateManifestView :=
  mkManifestView (Some b) (len b) (minput_bundle_generation i) (minput_predecessor_generation i)
    (minput_rollback_sequence i) (minput_creation_policy_version i) (minput_mode i)
    (minput_protocol_major i) (minput_protocol_minor i) (minput_minimum_hardware_revision i)
    (minput_maximum_hardware_revision i) (minput_component_count i) 0 RIBON_UPDATE_COMPONENTS_OFFSET
    (minput_schema_digest i) (minput_product_digest i) (minput_architecture_digest i)
    (minput_platform_digest i) (minput_environment_digest i) (minput_protocol_digest i)
    (minput_rollback_domain_digest i).

(** The reader on a buffer, with its offsets and constants evaluated. *)
Ltac read_manifest :=
  unfold ribon_update_manifest_open, directory_is_refused, binding_is_refused, opened_manifest,
    ribon_update_digest_is_valid, RIBON_UPDATE_DIRECTORY_OFFSET, RIBON_UPDATE_DIRECTORY_ENTRY_BYTES,
    RIBON_UPDATE_BINDING_OFFSET, RIBON_UPDATE_COMPONENTS_OFFSET, RIBON_UPDATE_MANIFEST_COMPONENT_BYTES,
    RIBON_UPDATE_MANIFEST_MAX_COMPONENTS, RIBON_UPDATE_MANIFEST_MAJOR, RIBON_UPDATE_MANIFEST_MINOR,
    RIBON_UPDATE_MANIFEST_HEADER_BYTES, RIBON_UPDATE_MANIFEST_SECTION_COUNT, RIBON_UPDATE_HASH_SHA256,
    RIBON_UPDATE_SIGNATURE_ED25519, RIBON_UPDATE_SECTION_BINDING, RIBON_UPDATE_SECTION_COMPONENTS,
    RIBON_UPDATE_MANIFEST_BINDING_BYTES;
  rewrite !read_u64_load; change ribon_update_read_u32 with load_u32; change ribon_update_read_u16 with load_u16;
  cbv zeta; literals.

Lemma open_accepts i b : front_reads b i (minput_component_count i) -> head_accepted i ->
  1 <= minput_component_count i <= 16 -> len b = 512 + minput_component_count i * 192 ->
  open_rows b (Z.to_nat (minput_component_count i)) 0 0 0 0 = true ->
  ribon_update_manifest_open (Some b) (len b) true = inr (manifest_view_of i b).
Proof.
  intros [R1 (R2 & R3) (R4 & R5 & R6 & R7) (R8 & R9 & R10 & R11) (R12 & R13) (R14 & R15) R16
    (R17 & R18 & R19 & R20 & R21 & R22) (R23 & R24 & R25 & R26 & R27 & R28) R29
    (R30 & R31 & R32 & R33 & R34 & R35) (R36 & R37 & R38 & R39) R40]
    [B1 (B2 & B3) B4 (B5 & B6 & B7 & B8 & B9 & B10 & B11)] Hn Hl Hr.
  read_manifest.
  rewrite R1, R2, R3, R4, R5, R6, R7, R8, R9, R10, R11, R12, R13, R14, R15, R16, R17, R18, R19, R20, R21, R22, R23,
    R24, R25, R26, R27, R28, R29, R30, R31, R32, R33, R34, R35, R36, R37, R38, R39, R40.
  rewrite B1, B5, B6, B7, B8, B9, B10, B11, !bytes_zero_zeros, bytes_equal_refl, Hr.
  rewrite (wrap_small 64 (_ * 192)), (wrap_small 64 (512 + _)) by (apply word64; unfold UINT64_MAX; lia). compare.
  unfold manifest_view_of. by rewrite Hl.
Qed.

(** *** From a manifest back to the input it encodes *)

Definition native_of (c : RibonUpdateComponentView) : RibonUpdateComponent :=
  mkNativeComponent sizeof_RibonUpdateComponent RIBON_UPDATE_MANIFEST_ABI_VERSION (component_flags c)
    (component_install_order c) (component_role c) (component_destination_class c) (component_image_format c) 0
    (component_bundle_offset c) (component_exact_size c) (component_maximum_size c)
    (component_logical_id_digest c) (component_content_digest c) (component_destination_id_digest c)
    (component_entry_contract_digest c) (zeros 4).

(** The components of the first [n] rows. *)
Definition components_of (b : bytes) (n : Z) : list RibonUpdateComponent :=
  (fun k => native_of (row_view b k)) <$> seq 0 (Z.to_nat n).

Definition input_of (v : RibonUpdateManifestView) (b : bytes) : RibonUpdateManifestInput :=
  mkManifestInput sizeof_RibonUpdateManifestInput RIBON_UPDATE_MANIFEST_ABI_VERSION 0 (manifest_mode v)
    (manifest_bundle_generation v) (manifest_predecessor_generation v) (manifest_rollback_sequence v)
    (manifest_creation_policy_version v) (manifest_protocol_major v) (manifest_protocol_minor v)
    (manifest_minimum_hardware_revision v) (manifest_maximum_hardware_revision v)
    (manifest_schema_digest v) (manifest_product_digest v) (manifest_architecture_digest v)
    (manifest_platform_digest v) (manifest_environment_digest v) (manifest_protocol_digest v)
    (manifest_rollback_domain_digest v) (Some (components_of b (manifest_component_count v)))
    (manifest_component_count v) 0 (zeros 4).

Lemma clear_slice o n b : 0 <= o -> 0 <= n -> o + n <= len b -> bytes_zero (slice o n b) = true ->
  slice o n b = zeros n.
Proof. intros ??? H. apply bytes_zero_true in H. by rewrite len_slice in H by lia. Qed.

Ltac opens G :=
  match goal with |- (if ?c then inl _ else _) = _ -> _ => destruct c eqn:G; [discriminate|] end.

(** What the reader has established of a manifest it opens. *)
Record manifest_opens (b : bytes) (v : RibonUpdateManifestView) : Prop := {
  opens_count : 1 <= manifest_component_count v <= 16;
  opens_size : len b = 512 + manifest_component_count v * 192;
  opens_view : v = manifest_view_of (input_of v b) b;
  opens_front : front_reads b (input_of v b) (manifest_component_count v);
  opens_head : head_accepted (input_of v b);
  opens_rows : open_rows b (Z.to_nat (manifest_component_count v)) 0 0 0 0 = true;
}.

Lemma open_inv b v : octets b -> ribon_update_manifest_open (Some b) (len b) true = inr v -> manifest_opens b v.
Proof.
  intros Hb. read_manifest. cbn [negb].
  opens G0. opens G1. opens G2. opens G3. opens G4. opens G5. opens G6. opens G7. opens G8. opens G9. opens G10.
  injection 1 as <-. bool_to_prop.
  pose proof (load_u32_word b 52 Hb ltac:(lia) ltac:(lia)) as W. apply word32 in W.
  set (n := load_u32 b 52) in *.
  rewrite (wrap_small 64 (n * 192)) in * by (apply word64; unfold UINT64_MAX; lia).
  rewrite (wrap_small 64 (512 + n * 192)) in * by (apply word64; unfold UINT64_MAX; lia).
  constructor; cbn [manifest_component_count]; fold n; try lia.
  - done.
  - constructor; cbn [input_of minput_bundle_generation minput_predecessor_generation minput_rollback_sequence
      minput_creation_policy_version minput_mode minput_schema_digest minput_product_digest
      minput_architecture_digest minput_platform_digest minput_environment_digest minput_protocol_digest
      minput_rollback_domain_digest minput_protocol_major minput_protocol_minor
      minput_minimum_hardware_revision minput_maximum_hardware_revision]; split_and?; try done; try lia.
    + apply bytes_equal_true; [rewrite len_slice by lia; reflexivity|done].
    + apply clear_slice; [lia..|done].
    + apply clear_slice; [lia..|done].
  - constructor; cbn; split_and?; done || lia.
  - done.
Qed.

Lemma digest_slice b o : octets b -> 0 <= o -> o + 32 <= len b -> digest_typed (slice o 32 b).
Proof. intros. split; [apply len_slice; lia|by apply octets_slice]. Qed.

Lemma row_view_typed b (k : nat) : octets b -> 512 + (Z.of_nat k + 1) * 192 <= len b ->
  component_typed (native_of (row_view b k)) /\ component_narrow (native_of (row_view b k)) /\
  component_header (native_of (row_view b k)).
Proof.
  intros Hb Hl. unfold row_view, ribon_update_decode_component. rewrite !read_u64_load.
  change ribon_update_read_u32 with load_u32. change ribon_update_read_u16 with load_u16.
  set (row := manifest_row b (Z.of_nat k)).
  assert (Hr : len row = 192) by by apply len_manifest_row.
  assert (Ho : octets row) by by apply octets_slice.
  assert (W16 : forall o, 0 <= o <= 190 -> word 16 (load_u16 row o)) by (intros; apply load_u16_word; [done|lia|lia]).
  assert (W32 : forall o, 0 <= o <= 190 -> word 32 (load_u16 row o)).
  { intros o Hin. specialize (W16 o Hin). apply word16 in W16. apply word32. unfold UINT16_MAX, UINT32_MAX in *. lia. }
  assert (W64 : forall o, 0 <= o <= 184 -> word 64 (load_u64 row o)) by (intros; apply load_u64_word; [done|lia|lia]).
  split_and!; constructor; cbn; split_and?;
    first [apply W16; lia|apply W32; lia|apply W64; lia|apply digest_slice; [done|lia|lia]
      |apply load_u32_word; [done|lia|lia]|done].
Qed.

Section Opened.
Context (b : bytes) (v : RibonUpdateManifestView) (Hb : octets b) (Hv : manifest_opens b v).

Lemma len_components_of n : 0 <= n -> len (components_of b n) = n.
Proof. intros. unfold len, components_of. rewrite length_fmap, length_seq. lia. Qed.

Lemma components_of_lookup n (k : nat) c : components_of b n !! k = Some c ->
  (k < Z.to_nat n)%nat /\ c = native_of (row_view b k).
Proof.
  unfold components_of. rewrite list_lookup_fmap. intros (j & Hj & ->)%fmap_Some.
  apply lookup_seq in Hj as [-> Hk]. done.
Qed.

Lemma opened_rows : rows_accepted b 0 0 0 0 (Z.to_nat (manifest_component_count v)).
Proof.
  pose proof (opens_count b v Hv). pose proof (opens_size b v Hv).
  apply (open_rows_accepted b (Z.to_nat (manifest_component_count v)) 0); [lia|lia|lia|lia|].
  exact (opens_rows b v Hv).
Qed.

Lemma opened_rows_hold : rows_hold b (components_of b (manifest_component_count v)).
Proof.
  intros k c Hk. apply components_of_lookup in Hk as [Hk ->].
  pose proof (opens_count b v Hv). pose proof (opens_size b v Hv).
  destruct (row_view_typed b k Hb ltac:(lia)) as (Ht & Hn & Hh). split_and!; [|done|done|done].
  apply row_exact; [done|done|by apply octets_slice|].
  destruct (accepted_each _ _ _ _ _ _ opened_rows k ltac:(lia)) as [_ Hz].
  split_and!; [apply len_manifest_row; lia| |done]. unfold row_view. by destruct (ribon_update_decode_component _).
Qed.

Lemma input_of_typed : manifest_input_typed (input_of v b) /\ word 16 (manifest_mode v).
Proof.
  pose proof (opens_count b v Hv) as Hn. pose proof (opens_size b v Hv) as Hl.
  destruct (opens_front b v Hv) as [_ _ _ (R8 & R9 & R10 & R11) _ (R14 & _) R16 _ _ _
    (R30 & R31 & R32 & R33 & R34 & R35) (R36 & R37 & R38 & R39) _]. cbn in *.
  assert (Wm : word 16 (manifest_mode v)) by (rewrite <- R14; apply load_u16_word; [done|lia|lia]).
  split; [|done]. constructor; cbn; rewrite <- ?R8, <- ?R9, <- ?R10, <- ?R11, <- ?R16, <- ?R30, <- ?R31, <- ?R32,
    <- ?R33, <- ?R34, <- ?R35, <- ?R36, <- ?R37, <- ?R38, <- ?R39; split_and?;
    try first [apply load_u16_word|apply load_u32_word|apply load_u64_word|apply digest_slice]; try (done || lia).
  - apply word16 in Wm. apply word32. unfold UINT16_MAX, UINT32_MAX in *. lia.
  - apply word32. unfold UINT32_MAX. lia.
  - intros l [= <-]. by rewrite len_components_of by lia.
  - apply Forall_lookup. intros k c Hk. by apply opened_rows_hold in Hk as (_ & Ht & _).
Qed.

Lemma input_of_valid : ribon_update_manifest_input_validate (Some (input_of v b)) = RIBON_UPDATE_MANIFEST_STATUS_OK.
Proof.
  pose proof (opens_count b v Hv). apply input_validate. split_and!; [by constructor|exact (opens_head b v Hv)|].
  exists (components_of b (manifest_component_count v)). split_and!; cbn; [done|lia|lia|].
  apply (loops_agree b _ opened_rows_hold _ 0); [|exact (opens_rows b v Hv)].
  pose proof (len_components_of (manifest_component_count v)). unfold len in *. lia.
Qed.
End Opened.
