(* ===== verification/ManifestProperties.v ===== *)
(** * Manifests are canonical and unambiguous ([src/update/manifest.c]) *)

From S2P Require Import Prelude.
From S2P Require Import Buffer.
From S2P Require Import Wire.
From S2P Require Import Sha256.
From S2P Require Import Image.
From S2P Require Import Signature.
From S2P Require Import KeyPolicy.
From S2P Require Import Manifest.
From S2P Require Import ManifestCodec.
From S2P Require Import ManifestReader.

(** ** The encoder *)

Lemma validate_each comps left k kernel policy recovery j :
  validate_components comps left (Z.of_nat k) kernel policy recovery = RIBON_UPDATE_MANIFEST_STATUS_OK ->
  (k <= j < k + left)%nat ->
  exists c, comps !! j = Some c /\ ribon_update_component_input_is_valid (Some c) (Z.of_nat j) = true.
Proof.
  revert k kernel policy recovery. induction left as [|left IH]; intros k kernel policy recovery H Hj; [lia|].
  cbn [validate_components] in H. destruct (negb _) eqn:Hv in H; [done|]. rewrite component_input_at in H, Hv.
  destruct (comps !! k) as [c|] eqn:Hc; [|done]. destruct (_ || _) in H; [done|].
  destruct (existsb _ _) in H; [done|]. destruct (decide (j = k)) as [->|].
  - exists c. split; [done|]. by apply negb_false_iff in Hv.
  - replace (Z.of_nat k + 1) with (Z.of_nat (S k)) in H by lia. eapply IH; [exact H|lia].
Qed.

(** What the validator accepts. *)
Record input_accepted (i : RibonUpdateManifestInput) (comps : list RibonUpdateComponent) : Prop := {
  input_components : minput_components i = Some comps;
  input_count : minput_component_count i = len comps /\ 1 <= len comps <= 16;
  input_head : head_accepted i;
  input_mode : word 16 (minput_mode i);
  input_each : Forall (fun c => component_typed c /\ component_narrow c /\ component_header c) comps;
  input_loop : validate_components comps (length comps) 0 0 0 0 = RIBON_UPDATE_MANIFEST_STATUS_OK;
}.

Lemma mode_word mode : ribon_update_mode_is_valid mode = true -> word 16 mode.
Proof.
  unfold ribon_update_mode_is_valid. intros H. repeat apply orb_true_iff in H as [H|H]; bool_to_prop;
    subst; by vm_compute.
Qed.

Lemma input_accepted_of i : manifest_input_typed i ->
  ribon_update_manifest_input_validate (Some i) = RIBON_UPDATE_MANIFEST_STATUS_OK ->
  exists comps, input_accepted i comps.
Proof.
  intros Ht Hv. apply input_validate in Hv as (_ & Hh & comps & Hc & Hn1 & Hn2 & Hl). exists comps.
  pose proof (typed_minput_array i Ht comps Hc) as Hlen. pose proof (typed_minput_count i Ht) as Hw.
  pose proof (typed_minput_components i Ht) as Hall. rewrite Hc in Hall. cbn in Hall.
  apply word32 in Hw. assert (Hln : Z.to_nat (minput_component_count i) = length comps) by (unfold len in Hlen; lia).
  rewrite Hln in Hl. constructor; [done|lia|done|apply mode_word, Hh| |done].
  apply Forall_lookup. intros k c Hk. rewrite Forall_lookup in Hall. specialize (Hall k c Hk).
  pose proof (lookup_lt_Some _ _ _ Hk).
  destruct (validate_each comps (length comps) 0 0 0 0 k Hl ltac:(lia)) as (c' & Hc' & Hval).
  assert (c' = c) as -> by congruence. apply component_input_valid in Hval as [Hhead Hacc].
  split_and!; [done|by eapply accepted_narrow|done].
Qed.

Lemma encode_image i comps capacity : manifest_input_typed i ->
  ribon_update_manifest_input_validate (Some i) = RIBON_UPDATE_MANIFEST_STATUS_OK -> input_accepted i comps ->
  ribon_update_manifest_encode (Some i) true capacity true =
  if capacity <? 512 + len comps * 192 then inl RIBON_UPDATE_MANIFEST_STATUS_CAPACITY
  else inr (manifest_image i comps).
Proof.
  intros Ht Hv [Hc (Hn & Hr) _ _ Hall _]. unfold ribon_update_manifest_encode. rewrite Hv. cbn [negb].
  cbv beta iota zeta.
  unfold RIBON_UPDATE_COMPONENTS_OFFSET, RIBON_UPDATE_MANIFEST_COMPONENT_BYTES, SIZE_MAX.
  rewrite Hn, manifest_head_image by (done || lia).
  rewrite (wrap_small 64 (_ * 192)), (wrap_small 64 (512 + _)) by (apply word64; unfold UINT64_MAX; lia).
  rewrite (proj2 (Z.ltb_ge UINT64_MAX _)) by (unfold UINT64_MAX; lia). cbn [orb].
  destruct (_ <? _); [done|]. f_equal. rewrite Hc. cbn [default].
  replace (Z.to_nat (len comps)) with (length comps) by (unfold len; lia).
  apply (encode_rows_image comps [] comps); [done| |rewrite len_image by lia; reflexivity].
  eapply Forall_impl; [exact Hall|]. by intros c (? & _).
Qed.

Lemma len_manifest_image i comps : len (manifest_image i comps) = 512 + len comps * 192.
Proof. unfold manifest_image. by rewrite len_app, len_image, len_rows by lia. Qed.

Lemma octets_manifest_image i comps : manifest_input_typed i -> Forall component_typed comps ->
  octets (manifest_image i comps).
Proof.
  intros Ht Hall. unfold manifest_image. apply octets_app. split.
  - destruct Ht as [_ _ _ _ ((_ & ?) & (_ & ?) & (_ & ?) & (_ & ?) & (_ & ?) & (_ & ?) & (_ & ?)) _ _ _].
    apply octets_image. unfold manifest_front.
    repeat match goal with |- Forall _ (_ :: _) => apply Forall_cons_2 | |- Forall _ [] => apply Forall_nil_2 end;
      cbn [snd]; first [apply octets_le_bytes|assumption|by apply octetsb_octets].
  - induction Hall as [|c comps Hc _ IH]; [constructor|]. rewrite fmap_cons. cbn [concat]. apply octets_app.
    split; [by apply octets_row|done].
Qed.

Lemma image_opens i comps : manifest_input_typed i -> input_accepted i comps ->
  ribon_update_manifest_open (Some (manifest_image i comps)) (len (manifest_image i comps)) true =
  inr (manifest_view_of i (manifest_image i comps)).
Proof.
  intros Ht [Hc (Hn & Hr) Hh Hm Hall Hl]. rewrite Forall_lookup in Hall.
  assert (Ho : octets (manifest_image i comps)).
  { apply octets_manifest_image; [done|]. apply Forall_lookup. intros k c Hk. by apply Hall in Hk as (? & _). }
  pose proof (len_manifest_image i comps) as Hlen.
  apply open_accepts; rewrite ?Hn; [|done|lia|lia|].
  - apply front_exact; [done|done|done|lia|lia|]. unfold manifest_image.
    rewrite slice_app_l, slice_all by (rewrite ?len_image; lia). done.
  - replace (Z.to_nat (len comps)) with (length comps) by (unfold len; lia).
    apply (loops_agree _ comps) with (k := O); [|done|done].
    intros k c Hk. split; [|by apply Hall in Hk]. by apply image_rows.
Qed.

(** ** Components by place *)

Lemma opened_bytes b v : manifest_opens b v -> manifest_bytes v = Some b /\ manifest_byte_size v = len b /\
  manifest_components_offset v = 512.
Proof. intros Hv. by rewrite (opens_view b v Hv). Qed.

Lemma component_at_opened b v (k : nat) : octets b -> ribon_update_manifest_open (Some b) (len b) true = inr v ->
  ribon_update_manifest_component_at (Some v) (Z.of_nat k) true =
  if Z.of_nat k <? manifest_component_count v then Some (row_view b k) else None.
Proof.
  intros Hb Ho. pose proof (open_inv b v Hb Ho) as Hv. destruct (opened_bytes b v Hv) as (E1 & E2 & E3).
  pose proof (opens_count b v Hv). pose proof (opens_size b v Hv).
  unfold ribon_update_manifest_component_at. cbn [negb]. rewrite E1, E2, Ho, E1, E2, E3.
  unfold RIBON_UPDATE_MANIFEST_COMPONENT_BYTES. destruct (Z.ltb_spec (Z.of_nat k) (manifest_component_count v)) as [Hk|Hk].
  - rewrite (wrap_small 64) by (apply word64; unfold UINT64_MAX; lia). compare. done.
  - compare. done.
Qed.

(** A manifest that the encoder writes opens, to exactly the fields of its input,
    and gives back every component at its place. *)
Theorem manifest_roundtrip i capacity b :
  manifest_input_typed i ->
  ribon_update_manifest_encode (Some i) true capacity true = inr b ->
  ribon_update_manifest_open (Some b) (len b) true = inr (manifest_view_of i b) /\
  forall (k : nat) c, default [] (minput_components i) !! k = Some c ->
    ribon_update_manifest_component_at (Some (manifest_view_of i b)) (Z.of_nat k) true = Some (component_view c).
Proof.
  intros Ht He. assert (Hv : ribon_update_manifest_input_validate (Some i) = RIBON_UPDATE_MANIFEST_STATUS_OK).
  { unfold ribon_update_manifest_encode in He. cbn [negb] in He. by destruct (ribon_update_manifest_input_validate _). }
  destruct (input_accepted_of i Ht Hv) as [comps Ha]. rewrite (encode_image i comps capacity Ht Hv Ha) in He.
  destruct (_ <? _); [done|]. injection He as <-. pose proof (image_opens i comps Ht Ha) as Ho. split; [done|].
  destruct Ha as [Hc (Hn & Hr) _ _ Hall _]. rewrite Hc. cbn [default id]. rewrite Forall_lookup in Hall.
  intros k c Hk. rewrite component_at_opened with (b := manifest_image i comps); [|apply octets_manifest_image; [done|]|done].
  - pose proof (lookup_lt_Some _ _ _ Hk). cbn [manifest_component_count manifest_view_of]. rewrite Hn.
    destruct (Z.ltb_spec (Z.of_nat k) (len comps)) as [_|]; [|unfold len in *; lia].
    f_equal. unfold row_view, manifest_image.
    rewrite (image_rows i _ comps k c Hk). destruct (Hall k c Hk) as (? & ? & _). by apply row_decodes.
  - apply Forall_lookup. intros j c' Hj. by apply Hall in Hj as (? & _).
Qed.

(** There is one encoding of a manifest: bytes that open are exactly what the
    encoder writes for the fields and components they open to. *)
Theorem manifest_canonical b v :
  octets b -> ribon_update_manifest_open (Some b) (len b) true = inr v ->
  ribon_update_manifest_encode (Some (input_of v b)) true (len b) true = inr b.
Proof.
  intros Hb Ho. pose proof (open_inv b v Hb Ho) as Hv. destruct (input_of_typed b v Hb Hv) as [Ht Hm].
  pose proof (input_of_valid b v Hb Hv) as Hval. destruct (input_accepted_of _ Ht Hval) as [comps Ha].
  rewrite (encode_image _ comps _ Ht Hval Ha). destruct Ha as [Hc (Hn & Hr) _ _ _ _]. injection Hc as <-.
  pose proof (opens_size b v Hv) as Hl. pose proof (opens_count b v Hv).
  assert (Hk := len_components_of b (manifest_component_count v) ltac:(lia)). rewrite Hk, <- Hl, Z.ltb_irrefl.
  f_equal. unfold manifest_image. rewrite Hk.
  etransitivity; [|symmetry; apply (rows_image b (components_of b (manifest_component_count v))); [by rewrite Hk|]].
  - f_equal. symmetry. apply front_exact; [done|done|done|lia|lia|exact (opens_front b v Hv)].
  - intros k c Hc. by apply (opened_rows_hold b v Hb Hv) in Hc as (? & _).
Qed.

Lemma ranges_disjoint o n o' n' : 0 <= o -> 0 <= n -> o <= UINT64_MAX - n -> 0 <= o' -> 0 <= n' ->
  o' <= UINT64_MAX - n' -> ribon_update_ranges_overlap o n o' n' = false -> o' + n' <= o \/ o + n <= o'.
Proof.
  intros ??????. unfold ribon_update_ranges_overlap. rewrite !wrap_small by (apply word64; lia).
  intros G. apply andb_false_iff in G as [G|G]; bool_to_prop; lia.
Qed.

Lemma native_bounds c : component_typed (native_of c) ->
  0 <= component_bundle_offset c /\ 0 <= component_exact_size c.
Proof. intros [_ _ _ (T1 & T2 & _) _]. exact (conj (proj1 T1) (proj1 T2)). Qed.

Lemma row_view_bounds b (k : nat) : octets b -> 512 + (Z.of_nat k + 1) * 192 <= len b ->
  0 <= component_bundle_offset (row_view b k) /\ 0 <= component_exact_size (row_view b k).
Proof. intros Hb Hl. apply native_bounds. exact (proj1 (row_view_typed b k Hb Hl)). Qed.

(** The facts of two components the reader has compared. *)
Lemma compared_distinct x y k l : component_accepted x k -> component_accepted y l ->
  0 <= component_bundle_offset x /\ 0 <= component_exact_size x ->
  0 <= component_bundle_offset y /\ 0 <= component_exact_size y -> component_clash y x = false ->
  component_logical_id_digest x <> component_logical_id_digest y /\
  (component_bundle_offset x + component_exact_size x <= component_bundle_offset y \/
   component_bundle_offset y + component_exact_size y <= component_bundle_offset x).
Proof.
  intros [_ _ _ _ (X1 & X2 & X3) _] [_ _ _ _ (Y1 & Y2 & Y3) _] [] [] Hc.
  unfold component_clash in Hc. apply orb_false_iff in Hc as [Hid Hov]. apply ranges_disjoint in Hov; [|lia..].
  split; [|lia]. intros E. by rewrite E, bytes_equal_refl in Hid.
Qed.

(** C18: A manifest that opens describes its components without ambiguity.  Component
    [k] has install order [k]; its role fits its destination; it has at least one
    byte, no more than it may, and ends inside the 64-bit range.  Two components have
    different logical identities and share no byte of the bundle, and there is at
    most one kernel, one policy and one recovery image. *)
Theorem manifest_unambiguous b v (i j : nat) x y :
  octets b -> ribon_update_manifest_open (Some b) (len b) true = inr v ->
  ribon_update_manifest_component_at (Some v) (Z.of_nat i) true = Some x ->
  ribon_update_manifest_component_at (Some v) (Z.of_nat j) true = Some y ->
  (component_install_order x = Z.of_nat i /\ component_destination_class x = component_role x /\
   0 < component_exact_size x <= component_maximum_size x /\
   component_bundle_offset x + component_exact_size x <= UINT64_MAX) /\
  ((i < j)%nat ->
   component_logical_id_digest x <> component_logical_id_digest y /\
   (component_bundle_offset x + component_exact_size x <= component_bundle_offset y \/
    component_bundle_offset y + component_exact_size y <= component_bundle_offset x) /\
   (component_role x = component_role y -> component_role x = RIBON_UPDATE_COMPONENT_ROLE_BOOT_MODULE \/
      component_role x = RIBON_UPDATE_COMPONENT_ROLE_FIRMWARE)).
Proof.
  intros Hb Ho. rewrite !(component_at_opened b v) by done. pose proof (open_inv b v Hb Ho) as Hv.
  pose proof (opens_size b v Hv) as Hl. destruct (opened_rows b v Hv) as [A1 A2 A3 A4 A5].
  destruct (Z.ltb_spec (Z.of_nat i) (manifest_component_count v)) as [Hi|]; [|done]. intros [= <-].
  destruct (Z.ltb_spec (Z.of_nat j) (manifest_component_count v)) as [Hj|]; [|done]. intros [= <-].
  pose proof (row_view_bounds b i Hb ltac:(lia)) as Bi. pose proof (row_view_bounds b j Hb ltac:(lia)) as Bj.
  destruct (A1 i ltac:(lia)) as [Ai _]. destruct (A1 j ltac:(lia)) as [Aj _].
  assert (Hr := role_destination_range _ _ (accepted_role _ _ Ai)). split.
  - destruct Ai as [_ B2 _ _ B5 _]. split_and!; [exact B2|apply Hr|lia|lia|lia].
  - intros Hij. destruct (compared_distinct _ _ _ _ Ai Aj Bi Bj (A2 i j Hij ltac:(lia))) as [Hid Hov].
    split_and!; [done|done|]. intros E.
    assert (Hno : forall which, single b which 0 0 (Z.to_nat (manifest_component_count v)) ->
      component_role (row_view b i) <> which).
    { intros which Hs Hw. destruct (Hs j ltac:(lia) (eq_trans (eq_sym E) Hw)) as [_ Hn]. apply (Hn i); [lia|done]. }
    apply Hno in A3, A4, A5. destruct Hr as [Hr _]. revert Hr A3 A4 A5. generalize (component_role (row_view b i)).
    unfold RIBON_UPDATE_COMPONENT_ROLE_BOOT_MODULE, RIBON_UPDATE_COMPONENT_ROLE_FIRMWARE,
      RIBON_UPDATE_COMPONENT_ROLE_KERNEL, RIBON_UPDATE_COMPONENT_ROLE_POLICY,
      RIBON_UPDATE_COMPONENT_ROLE_RECOVERY_IMAGE. clear. lia.
Qed.
