(* ===== verification/ManifestAuthorization.v ===== *)
(** * Who may update the product ([src/update/manifest.c])

    [ribon_update_manifest_authorize] succeeds only for a manifest that opens, that is
    for this product, and whose signature the signature provider accepted under a
    key the trust store authorises for update manifests.  The message that is signed
    determines the digest of the manifest. *)

From S2P Require Import Prelude.
From S2P Require Import Buffer.
From S2P Require Import Wire.
From S2P Require Import Sha256.
From S2P Require Import Image.
From S2P Require Import Signature.
From S2P Require Import KeyPolicy.
From S2P Require Import KeyPolicyOrder.
From S2P Require Import KeyPolicyProperties.
From S2P Require Import Manifest.
From S2P Require Import ManifestCodec.
From S2P Require Import ManifestReader.
From S2P Require Import ManifestProperties.

(** ** The signed message *)

Definition message_layout (v : RibonUpdateManifestView) (manifest_digest key_id_digest : bytes) : list write :=
  [(0, ribon_update_message_magic); (32, le_bytes 2 1); (34, le_bytes 2 0); (36, le_bytes 2 1); (38, le_bytes 2 0);
   (40, le_bytes 2 1); (42, le_bytes 2 1); (44, le_bytes 2 (manifest_mode v)); (46, le_bytes 2 5);
   (56, le_bytes 8 (manifest_rollback_sequence v)); (64, le_bytes 8 (manifest_byte_size v));
   (72, le_bytes 8 (manifest_bundle_generation v)); (80, le_bytes 8 (manifest_predecessor_generation v));
   (88, le_bytes 8 (manifest_creation_policy_version v)); (96, manifest_digest); (128, manifest_product_digest v);
   (160, manifest_schema_digest v); (192, manifest_rollback_domain_digest v); (224, key_id_digest)].

Lemma message_image v d k : message_bytes v d k = image 256 (message_layout v d k).
Proof.
  unfold message_bytes. rewrite !write_u64_le, !write_u16_le, !le_bytes_wrap by lia. reflexivity.
Qed.

Section Message.
Context (v : RibonUpdateManifestView) (d k : bytes).
Context (Hd : len d = 32) (Hk : len k = 32).
Context (Hp : len (manifest_product_digest v) = 32) (Hs : len (manifest_schema_digest v) = 32).
Context (Hr : len (manifest_rollback_domain_digest v) = 32).

Lemma message_shape : shape (message_layout v d k) =
  [(0, 32); (32, 2); (34, 2); (36, 2); (38, 2); (40, 2); (42, 2); (44, 2); (46, 2); (56, 8); (64, 8); (72, 8); (80, 8);
   (88, 8); (96, 32); (128, 32); (160, 32); (192, 32); (224, 32)].
Proof. unfold shape, message_layout. cbn [fmap list_fmap fst snd]. by rewrite Hd, Hk, Hp, Hs, Hr. Qed.

Lemma message_digests : slice 96 32 (message_bytes v d k) = d /\ slice 224 32 (message_bytes v d k) = k /\
  slice 128 32 (message_bytes v d k) = manifest_product_digest v /\
  slice 192 32 (message_bytes v d k) = manifest_rollback_domain_digest v.
Proof. rewrite message_image. pose proof message_shape as Hsh. split_and!; image_field Hsh. Qed.
End Message.

Lemma opened_digests b v : manifest_opens b v ->
  len (manifest_product_digest v) = 32 /\ len (manifest_schema_digest v) = 32 /\
  len (manifest_rollback_domain_digest v) = 32 /\ len (manifest_architecture_digest v) = 32 /\
  len (manifest_platform_digest v) = 32 /\ len (manifest_environment_digest v) = 32 /\
  len (manifest_protocol_digest v) = 32.
Proof.
  intros Hv. pose proof (opens_size b v Hv). pose proof (opens_count b v Hv).
  destruct (opens_front b v Hv) as [_ _ _ _ _ _ R16 _ _ _ (R30 & R31 & R32 & R33 & R34 & R35) _ _]. cbn in *.
  rewrite <- R16, <- R30, <- R31, <- R32, <- R33, <- R34, <- R35. split_and!; apply len_slice; lia.
Qed.

Lemma view_whole p size b : p = Some b -> size = len b -> view p size = b.
Proof. intros -> ->. unfold view. by apply slice_all. Qed.

(** The message of an opened manifest. *)
Lemma signed_message_of b v key : octets b -> ribon_update_manifest_open (Some b) (len b) true = inr v ->
  ribon_update_key_id_is_valid (Some key) (len key) = true ->
  ribon_update_manifest_signed_message_v1 (Some v) (Some key) (len key) true =
  Some (message_bytes v (ribon_security_sha256 b) (ribon_security_sha256 key)).
Proof.
  intros Hb Ho Hk. pose proof (open_inv b v Hb Ho) as Hv. destruct (opened_bytes b v Hv) as (E1 & E2 & _).
  unfold ribon_update_manifest_signed_message_v1. rewrite E1, E2, Ho, Hk. cbn [negb is_null orb].
  by rewrite !(view_whole _ _ _ eq_refl eq_refl).
Qed.

(** C35: The message that is signed determines what is installed: two manifests with the
    same message under two keys have the same SHA-256, the same product and the same
    rollback domain, and the two key identifiers have the same SHA-256. *)
Theorem signed_message_binds b v key b' v' key' m :
  octets b -> ribon_update_manifest_open (Some b) (len b) true = inr v ->
  octets b' -> ribon_update_manifest_open (Some b') (len b') true = inr v' ->
  ribon_update_manifest_signed_message_v1 (Some v) (Some key) (len key) true = Some m ->
  ribon_update_manifest_signed_message_v1 (Some v') (Some key') (len key') true = Some m ->
  ribon_security_sha256 b = ribon_security_sha256 b' /\ ribon_security_sha256 key = ribon_security_sha256 key' /\
  manifest_product_digest v = manifest_product_digest v' /\
  manifest_rollback_domain_digest v = manifest_rollback_domain_digest v'.
Proof.
  intros Hb Ho Hb' Ho' Hm Hm'.
  assert (Hk : ribon_update_key_id_is_valid (Some key) (len key) = true).
  { unfold ribon_update_manifest_signed_message_v1 in Hm. destruct (_ || _) eqn:G in Hm; [done|]. by bool_to_prop. }
  assert (Hk' : ribon_update_key_id_is_valid (Some key') (len key') = true).
  { unfold ribon_update_manifest_signed_message_v1 in Hm'. destruct (_ || _) eqn:G in Hm'; [done|]. by bool_to_prop. }
  rewrite (signed_message_of b v key) in Hm by done. rewrite (signed_message_of b' v' key') in Hm' by done.
  injection Hm as Hm. injection Hm' as Hm'.
  destruct (opened_digests b v (open_inv b v Hb Ho)) as (P & S & R & _).
  destruct (opened_digests b' v' (open_inv b' v' Hb' Ho')) as (P' & S' & R' & _).
  destruct (message_digests v _ _ (len_sha256 b) (len_sha256 key) P S R) as (M1 & M2 & M3 & M4).
  destruct (message_digests v' _ _ (len_sha256 b') (len_sha256 key') P' S' R') as (N1 & N2 & N3 & N4).
  rewrite Hm in M1, M2, M3, M4. rewrite Hm' in N1, N2, N3, N4. split_and!; congruence.
Qed.

(** ** The signature envelope *)

Lemma envelope_inv b e : octets b -> ribon_update_signature_envelope_open (Some b) (len b) true = inr e ->
  exists n, 1 <= n <= 64 /\ len b = 160 + n + 64 /\
    senvelope_key_id e = Some (slice 160 n b) /\ senvelope_key_id_size e = n /\
    ribon_update_key_id_is_valid (Some (slice 160 n b)) n = true /\
    senvelope_signature e = Some (slice (160 + n) 64 b) /\ senvelope_signature_size e = 64 /\
    senvelope_manifest_digest e = slice 88 32 b /\ senvelope_signed_message_digest e = slice 120 32 b.
Proof.
  intros Hb. unfold ribon_update_signature_envelope_open, RIBON_UPDATE_SIGNATURE_ENVELOPE_HEADER_BYTES,
    RIBON_ED25519_SIGNATURE_BYTES, RIBON_UPDATE_SIGNATURE_KEY_ID_MAX_BYTES. rewrite !read_u64_load.
  change ribon_update_read_u32 with load_u32. change ribon_update_read_u16 with load_u16. cbv zeta. cbn [negb].
  opens G0. opens G1. opens G2. opens G3. opens G4. injection 1 as <-. cbn. clear G1 G2 G3. bool_to_prop.
  pose proof (load_u16_word b 64 Hb ltac:(lia) ltac:(lia)) as W. apply word16 in W. exists (load_u16 b 64).
  unfold UINT16_MAX in *.
  repeat match goal with H : load_u64 b 72 = _ |- _ => rewrite H in * end.
  repeat match goal with H : load_u16 b 66 = _ |- _ => rewrite H in * end.
  repeat match goal with H : load_u64 b 80 = _ |- _ => rewrite H in * end.
  rewrite !(wrap_small 64 (160 + load_u16 b 64)) in * by (apply word64; unfold UINT64_MAX; lia).
  rewrite (wrap_small 64 (160 + load_u16 b 64 + 64)) in * by (apply word64; unfold UINT64_MAX; lia).
  split_and!; try done; lia.
Qed.

(** ** Authorisation *)

(** The manifest is for the product, the mode and the hardware the caller expects. *)
Record expectation_met (v : RibonUpdateManifestView) (e : RibonUpdateManifestExpectation) : Prop := {
  met_mode : manifest_mode v = expectation_mode e;
  met_product : manifest_product_digest v = expectation_product_digest e;
  met_schema : manifest_schema_digest v = expectation_schema_digest e;
  met_architecture : manifest_architecture_digest v = expectation_architecture_digest e;
  met_platform : manifest_platform_digest v = expectation_platform_digest e;
  met_environment : manifest_environment_digest v = expectation_environment_digest e;
  met_protocol : manifest_protocol_digest v = expectation_protocol_digest e /\
    manifest_protocol_major v = expectation_protocol_major e /\
    manifest_protocol_minor v = expectation_protocol_minor e;
  met_hardware : manifest_minimum_hardware_revision v <= expectation_hardware_revision e <=
    manifest_maximum_hardware_revision v;
  met_domain : manifest_rollback_domain_digest v = expectation_rollback_domain_digest e;
}.

Record expectation_typed (e : RibonUpdateManifestExpectation) : Prop := {
  typed_expectation_schema : len (expectation_schema_digest e) = 32;
  typed_expectation_product : len (expectation_product_digest e) = 32;
  typed_expectation_architecture : len (expectation_architecture_digest e) = 32;
  typed_expectation_platform : len (expectation_platform_digest e) = 32;
  typed_expectation_environment : len (expectation_environment_digest e) = 32;
  typed_expectation_protocol : len (expectation_protocol_digest e) = 32;
  typed_expectation_domain : len (expectation_rollback_domain_digest e) = 32;
}.

Lemma matches_expectation b v e : manifest_opens b v -> expectation_typed e ->
  ribon_update_manifest_matches_expectation v e = RIBON_UPDATE_MANIFEST_STATUS_OK <-> expectation_met v e.
Proof.
  intros Hv []. destruct (opened_digests b v Hv) as (L1 & L2 & L3 & L4 & L5 & L6 & L7).
  unfold ribon_update_manifest_matches_expectation. split.
  - destruct (_ =? _) eqn:Em; [|done]. cbn [negb]. destruct (_ || _) eqn:G; [done|].
    destruct (bytes_equal (manifest_rollback_domain_digest v) _) eqn:Ed; [|done]. intros _. bool_to_prop.
    repeat match goal with H : bytes_equal _ _ = true |- _ => apply bytes_equal_true in H; [|congruence] end.
    by constructor.
  - intros [-> -> -> -> -> -> (-> & -> & ->) Hh ->]. rewrite !bytes_equal_refl, !Z.eqb_refl. compare. done.
Qed.

(** The authorisation names a manifest and an envelope. *)
Record authorization_typed (a : RibonUpdateManifestAuthorization) (b envelope : bytes)
    (e : RibonUpdateManifestExpectation) (s : RibonKeyPolicyStore) (p : RibonSignatureProvider) : Prop := {
  names_manifest : authorization_manifest a = Some b /\ authorization_manifest_size a = len b /\ octets b;
  names_envelope : authorization_signature_envelope a = Some envelope /\
    authorization_signature_envelope_size a = len envelope /\ octets envelope;
  names_expectation : authorization_expectation a = Some e /\ expectation_typed e;
  names_store : authorization_key_policy a = Some s /\ store_typed s;
  names_provider : authorization_signature_provider a = Some p;
}.

(** What an authorisation says. *)
Lemma authorize_inv a b envelope e s p v d :
  authorization_typed a b envelope e s p ->
  ribon_update_manifest_authorize (Some a) true true = inr (v, d) ->
  ribon_update_manifest_open (Some b) (len b) true = inr v /\ expectation_met v e /\
  ribon_key_policy_store_validate (Some s) = RIBON_KEY_POLICY_STATUS_OK /\
  exists envelope_view key k f,
    ribon_update_signature_envelope_open (Some envelope) (len envelope) true = inr envelope_view /\
    senvelope_key_id envelope_view = Some key /\
    authorised s (manifest_policy v envelope_view) /\
    0 <= k < store_record_count s /\ name_of (key_record s k) = key /\ signature_verify_fn p = Some f /\
    let message := message_bytes v (ribon_security_sha256 b) (ribon_security_sha256 key) in
    f (signature_request (key_record s k) (manifest_verification a v envelope_view message)) =
      RIBON_SIGNATURE_STATUS_OK.
Proof.
  intros [(A1 & A2 & Hb) (A3 & A4 & He) (A5 & Hte) (A6 & Hs) A7]. unfold ribon_update_manifest_authorize.
  destruct (_ || _); [done|]. rewrite A5. unfold authorize_checked. rewrite A1, A2, A3, A4.
  destruct (ribon_update_manifest_open _ _ _) as [|v'] eqn:Ho; [done|]. pose proof (open_inv b v' Hb Ho) as Hv.
  destruct (ribon_update_manifest_matches_expectation v' e) eqn:Hm; try done.
  apply (matches_expectation b) in Hm; [|done|done].
  destruct (ribon_update_signature_envelope_open _ _ _) as [|ev] eqn:Hoe; [done|].
  destruct (envelope_inv envelope ev He Hoe) as (n & Hn & Hl & K1 & K2 & Hk & S1 & S2 & _).
  assert (Hkl : len (slice 160 n envelope) = n) by (apply len_slice; lia).
  set (key := slice 160 n envelope) in *. clearbody key. rewrite <- Hkl in K2, Hk.
  destruct (_ || _); [done|]. destruct (negb _); [done|]. rewrite K1, K2.
  rewrite (signed_message_of b v') by done. destruct (negb _); [done|].
  destruct (ribon_key_policy_verify _ _ _) as [st out] eqn:Hver. destruct st; try done. intros [= -> _].
  rewrite A6 in Hver. destruct (opened_digests b v Hv) as (D1 & _ & D3 & _).
  assert (Hq : request_typed (manifest_policy v ev)).
  { constructor; [|exact D1|exact D3]. cbn. rewrite K1, K2. by intros ? [= <-]. }
  apply (verify_accepts s _ (manifest_policy v ev) p) in Hver as (Hval & Hauth & _ & k & f & Hkr & Hname & Hf & Hcall);
    [|done|done|done|exact A7].
  cbn in Hname. rewrite K1 in Hname. split_and!; [done..|]. exists ev, key, k, f. split_and!; try done; lia.
Qed.

(** C7: An update is authorised only when every check passed: the manifest opens and is
    for this product, this mode and this hardware; the trust store validated and
    holds a key, named by the envelope, with the right to sign update manifests of
    this product, mode, rollback domain and sequence, no key of its chain being
    revoked; and the provider accepted the envelope's signature under that key over
    the message that holds the SHA-256 of these manifest bytes. *)
Theorem manifest_authorize_sound a b envelope e s p v d :
  authorization_typed a b envelope e s p ->
  ribon_update_manifest_authorize (Some a) true true = inr (v, d) ->
  ribon_update_manifest_open (Some b) (len b) true = inr v /\ expectation_met v e /\
  ribon_key_policy_store_validate (Some s) = RIBON_KEY_POLICY_STATUS_OK /\
  exists envelope_view key k f,
    ribon_update_signature_envelope_open (Some envelope) (len envelope) true = inr envelope_view /\
    senvelope_key_id envelope_view = Some key /\
    authorised s (manifest_policy v envelope_view) /\
    0 <= k < store_record_count s /\ name_of (key_record s k) = key /\ signature_verify_fn p = Some f /\
    let message := message_bytes v (ribon_security_sha256 b) (ribon_security_sha256 key) in
    f (signature_request (key_record s k) (manifest_verification a v envelope_view message)) =
      RIBON_SIGNATURE_STATUS_OK.
Proof. apply authorize_inv. Qed.
