(* ===== verification/ManifestFixture.v ===== *)
(** * Concrete manifests

    A product of one kernel, and one of a kernel and a boot module; the first is signed
    with the root key of the concrete trust store.  The properties of the manifest
    apply to them. *)

From S2P Require Import Prelude.
From S2P Require Import Buffer.
From S2P Require Import Wire.
From S2P Require Import Sha256.
From S2P Require Import Image.
From S2P Require Import Signature.
From S2P Require Import KeyPolicy.
From S2P Require Import KeyPolicyOrder.
From S2P Require Import KeyPolicyProperties.
From S2P Require Import KeyPolicyFixture.
From S2P Require Import Manifest.
From S2P Require Import ManifestCodec.
From S2P Require Import ManifestReader.
From S2P Require Import ManifestProperties.
From S2P Require Import ManifestAuthorization.

(** The bundle is the kernel. *)
Definition sample_kernel : bytes := [75; 69; 82; 78; 69; 76].
Definition kernel_digest : bytes := Eval vm_compute in ribon_security_sha256 sample_kernel.

Definition sample_digest (x : Z) : bytes := x :: zeros 31.

Definition kernel_component : RibonUpdateComponent :=
  mkNativeComponent sizeof_RibonUpdateComponent RIBON_UPDATE_MANIFEST_ABI_VERSION 1 0
    RIBON_UPDATE_COMPONENT_ROLE_KERNEL RIBON_UPDATE_DESTINATION_KERNEL_SLOT 2 0 0 6 512
    (sample_digest 11) kernel_digest (sample_digest 12) (sample_digest 13) [0; 0; 0; 0].
Definition module_component : RibonUpdateComponent :=
  mkNativeComponent sizeof_RibonUpdateComponent RIBON_UPDATE_MANIFEST_ABI_VERSION 0 1
    RIBON_UPDATE_COMPONENT_ROLE_BOOT_MODULE RIBON_UPDATE_DESTINATION_MODULE_SLOT 1 0 512 100 512
    (sample_digest 14) (sample_digest 15) (sample_digest 16) (sample_digest 17) [0; 0; 0; 0].

Definition manifest_of (components : list RibonUpdateComponent) : RibonUpdateManifestInput :=
  mkManifestInput sizeof_RibonUpdateManifestInput RIBON_UPDATE_MANIFEST_ABI_VERSION 0 1 8 7 6 1 2 3 1 4
    (sample_digest 20) sample_product_digest (sample_digest 21) (sample_digest 22) (sample_digest 23)
    (sample_digest 24) sample_rollback_domain (Some components) (len components) 0 [0; 0; 0; 0].

Definition encoded (components : list RibonUpdateComponent) : bytes :=
  match ribon_update_manifest_encode (Some (manifest_of components)) true 4096 true with
  | inr b => b
  | inl _ => []
  end.

Definition sample_manifest : bytes := Eval vm_compute in encoded [kernel_component].
Definition pair_manifest : bytes := Eval vm_compute in encoded [kernel_component; module_component].

Lemma sample_digest_typed x : 0 <= x < 256 -> digest_typed (sample_digest x).
Proof. intros Hx. split; [done|]. apply Forall_cons. split; [by apply word8|apply (octets_zeros 31)]. Qed.

Lemma component_fixture_typed c : c = kernel_component \/ c = module_component -> component_typed c.
Proof.
  intros [-> | ->]; constructor; cbn; split_and?; try (by apply word32 || by apply word64);
    try (apply sample_digest_typed; lia).
  split; [done|by apply octetsb_octets].
Qed.

Lemma manifest_fixture_typed cs : len cs <= 16 -> Forall component_typed cs -> manifest_input_typed (manifest_of cs).
Proof.
  intros Hl Hc. pose proof (len_nonneg cs).
  constructor; cbn; split_and?; try (by apply word16 || by apply word32 || by apply word64);
    try (apply sample_digest_typed; lia).
  - apply word32. unfold UINT32_MAX. lia.
  - by intros l [= <-].
  - done.
Qed.

Lemma sample_manifest_encodes :
  ribon_update_manifest_encode (Some (manifest_of [kernel_component])) true 4096 true = inr sample_manifest.
Proof. vm_compute. reflexivity. Qed.

Lemma pair_manifest_encodes :
  ribon_update_manifest_encode (Some (manifest_of [kernel_component; module_component])) true 4096 true = inr pair_manifest.
Proof. vm_compute. reflexivity. Qed.

Lemma sample_manifest_octets : octets sample_manifest.
Proof. by apply octetsb_octets. Qed.
Lemma pair_manifest_octets : octets pair_manifest.
Proof. by apply octetsb_octets. Qed.

Definition sample_view : RibonUpdateManifestView := manifest_view_of (manifest_of [kernel_component]) sample_manifest.
Definition pair_view : RibonUpdateManifestView :=
  manifest_view_of (manifest_of [kernel_component; module_component]) pair_manifest.

Lemma sample_manifest_opens : ribon_update_manifest_open (Some sample_manifest) (len sample_manifest) true = inr sample_view.
Proof. vm_compute. reflexivity. Qed.
Lemma pair_manifest_opens : ribon_update_manifest_open (Some pair_manifest) (len pair_manifest) true = inr pair_view.
Proof. vm_compute. reflexivity. Qed.

(** ** The codec *)

Lemma manifest_roundtrip_witness :
  ribon_update_manifest_component_at (Some pair_view) 1 true = Some (component_view module_component).
Proof.
  exact (proj2 (manifest_roundtrip (manifest_of [kernel_component; module_component]) 4096 pair_manifest
    (manifest_fixture_typed [kernel_component; module_component] ltac:(discriminate)
      (Forall_cons_2 _ _ _ (component_fixture_typed _ (or_introl eq_refl))
        (Forall_cons_2 _ _ _ (component_fixture_typed _ (or_intror eq_refl)) (Forall_nil_2 _))))
    pair_manifest_encodes) 1%nat module_component eq_refl).
Defined.

Lemma manifest_canonical_witness :
  ribon_update_manifest_encode (Some (input_of pair_view pair_manifest)) true 896 true = inr pair_manifest.
Proof. exact (manifest_canonical pair_manifest pair_view pair_manifest_octets pair_manifest_opens). Defined.

Lemma manifest_unambiguous_witness :
  native_bundle_offset kernel_component + native_exact_size kernel_component <= native_bundle_offset module_component.
Proof.
  assert (H0 : ribon_update_manifest_component_at (Some pair_view) (Z.of_nat 0) true =
    Some (component_view kernel_component)) by (vm_compute; reflexivity).
  assert (H1 : ribon_update_manifest_component_at (Some pair_view) (Z.of_nat 1) true =
    Some (component_view module_component)) by (vm_compute; reflexivity).
  destruct (proj1 (proj2 (proj2 (manifest_unambiguous pair_manifest pair_view 0 1 _ _ pair_manifest_octets
    pair_manifest_opens H0 H1) ltac:(lia)))) as [H|H]; [exact H|]. cbn in *. lia.
Defined.

(** ** Authorisation *)

(** Signed by the root key, "a". *)
Definition sample_signing : RibonUpdateSignatureEnvelopeInput :=
  mkSignatureInput sizeof_RibonUpdateSignatureEnvelopeInput RIBON_UPDATE_MANIFEST_ABI_VERSION 0 0
    (Some sample_manifest) (len sample_manifest) (Some [97]) 1 (Some (1 :: zeros 63)) 64 [0; 0; 0; 0].

Definition signed_envelope : bytes :=
  Eval vm_compute in
    match ribon_update_signature_envelope_encode (Some sample_signing) true 4096 true with inr b => b | inl _ => [] end.

Definition sample_expectation : RibonUpdateManifestExpectation :=
  mkExpectation sizeof_RibonUpdateManifestExpectation RIBON_UPDATE_MANIFEST_ABI_VERSION 0 1 2 3 3
    (sample_digest 20) sample_product_digest (sample_digest 21) (sample_digest 22) (sample_digest 23)
    (sample_digest 24) sample_rollback_domain [0; 0; 0; 0].

Definition sample_authorization : RibonUpdateManifestAuthorization :=
  mkAuthorization sizeof_RibonUpdateManifestAuthorization RIBON_UPDATE_MANIFEST_ABI_VERSION 0 0
    (Some sample_manifest) (len sample_manifest) (Some signed_envelope) (len signed_envelope)
    (Some sample_expectation) (Some sample_store) (Some sample_signatures) 0 0 [0; 0; 0; 0].

Lemma sample_authorization_typed :
  authorization_typed sample_authorization sample_manifest signed_envelope sample_expectation sample_store
    sample_signatures.
Proof.
  constructor; split_and?; try reflexivity; try (by apply octetsb_octets).
  - by constructor.
  - apply sample_store_typed.
Qed.

Definition granted : RibonKeyPolicyDecision :=
  mkKeyDecision sizeof_RibonKeyPolicyDecision RIBON_KEY_POLICY_ABI_VERSION 0 0 1 root_identity
    sample_store_digest [0; 0; 0; 0].

Lemma sample_manifest_authorized :
  ribon_update_manifest_authorize (Some sample_authorization) true true = inr (sample_view, granted).
Proof. vm_compute. reflexivity. Qed.

Lemma manifest_authorize_sound_witness : exists key, authorised sample_store key /\
  expectation_met sample_view sample_expectation.
Proof.
  destruct (manifest_authorize_sound sample_authorization sample_manifest signed_envelope sample_expectation
    sample_store sample_signatures sample_view granted sample_authorization_typed sample_manifest_authorized)
    as (_ & Hmet & _ & envelope & key & k & f & _ & _ & Hauth & _).
  exists (manifest_policy sample_view envelope). split; [exact Hauth|exact Hmet].
Defined.

Lemma sample_message : exists m,
  ribon_update_manifest_signed_message_v1 (Some sample_view) (Some [97]) (len [97]) true = Some m.
Proof.
  eexists. exact (signed_message_of _ _ [97] sample_manifest_octets sample_manifest_opens eq_refl).
Qed.

Lemma signed_message_binds_witness : ribon_security_sha256 sample_manifest = ribon_security_sha256 sample_manifest.
Proof.
  destruct sample_message as [m Hm].
  exact (proj1 (signed_message_binds _ _ _ _ _ _ _ sample_manifest_octets sample_manifest_opens
    sample_manifest_octets sample_manifest_opens Hm Hm)).
Defined.
