(* ===== verification/Installer.v ===== *)
(** * The signed-bundle installer ([src/update/installer.c], and the slot capacity
      checks of [src/update/storage.c])

    Preparing an installation authorises the manifest and plans the staging
    transition; installing copies each component of the bundle through the caller's
    scratch buffer into the inactive slot, flushes, reads everything back and only
    then returns the metadata that calls the slot verified.

    The state is the provider's world, the caller's observer, the private state of
    the bundle source and the scratch buffer.  An output structure is the result of
    a call that returns OK. *)

From S2P Require Import Prelude.
From S2P Require Import Effects.
From S2P Require Import Buffer.
From S2P Require Import Wire.
From S2P Require Import Sha256.
From S2P Require Import Provider.
From S2P Require Import Layout.
From S2P Require Import SlotMetadata.
From S2P Require Import Session.
From S2P Require Import TransactionWire.
From S2P Require Import Transaction.
From S2P Require Import Signature.
From S2P Require Import KeyPolicy.
From S2P Require Import Manifest.

Definition RIBON_UPDATE_INSTALLER_ABI_VERSION : Z := 1.
Definition sizeof_RibonUpdateBundleSource : Z := 72.
Definition sizeof_RibonUpdateInstallRequest : Z := 232.
Definition sizeof_RibonUpdateInstallPlan : Z := 536.
Definition sizeof_RibonUpdateInstallResult : Z := 512.
Definition RIBON_UPDATE_TRANSACTION_OPERATION_BUNDLE_READ : Z := 7.
Definition RIBON_UPDATE_TRANSACTION_OPERATION_SLOT_ERASE : Z := 8.
Definition RIBON_UPDATE_TRANSACTION_OPERATION_SLOT_WRITE : Z := 9.
Definition RIBON_UPDATE_TRANSACTION_OPERATION_SLOT_READBACK : Z := 10.

Inductive RibonUpdateInstallStatus :=
| RIBON_UPDATE_INSTALL_STATUS_OK
| RIBON_UPDATE_INSTALL_STATUS_INVALID_ARGUMENT
| RIBON_UPDATE_INSTALL_STATUS_AUTHORIZATION
| RIBON_UPDATE_INSTALL_STATUS_LAYOUT
| RIBON_UPDATE_INSTALL_STATUS_CAPACITY
| RIBON_UPDATE_INSTALL_STATUS_BUNDLE_IO
| RIBON_UPDATE_INSTALL_STATUS_COMPONENT_DIGEST
| RIBON_UPDATE_INSTALL_STATUS_STORAGE_IO
| RIBON_UPDATE_INSTALL_STATUS_READBACK_DIGEST
| RIBON_UPDATE_INSTALL_STATUS_STATE
| RIBON_UPDATE_INSTALL_STATUS_INTERRUPTED.

(** ** Slot capacity ([src/update/storage.c]) *)

(** The loop over the components, [left] of them from [index] on; [None] is OVERFLOW. *)
Fixpoint maximum_component_end (manifest : RibonUpdateManifestView) (left : nat) (index maximum_end : Z) : option Z :=
  match left with
  | O => Some maximum_end
  | S left' =>
    match ribon_update_manifest_component_at (Some manifest) index true with
    | None => None
    | Some component =>
      match add_u64 (component_bundle_offset component) (component_maximum_size component) with
      | None => None
      | Some last =>
        maximum_component_end manifest left' (index + 1) (if last >? maximum_end then last else maximum_end)
      end
    end
  end.

Definition ribon_update_manifest_required_slot_bytes (manifest : option RibonUpdateManifestView)
    (alignment : Z) (required_bytes : bool) : RibonUpdateStorageStatus + Z :=
  match manifest with
  | None => inl RIBON_UPDATE_STORAGE_STATUS_INVALID_ARGUMENT
  | Some m =>
    if negb required_bytes || is_null (manifest_bytes m) || negb (power_of_two alignment)
    then inl RIBON_UPDATE_STORAGE_STATUS_INVALID_ARGUMENT
    else
      match ribon_update_manifest_open (manifest_bytes m) (manifest_byte_size m) true with
      | inl _ => inl RIBON_UPDATE_STORAGE_STATUS_INVALID_ARGUMENT
      | inr reopened =>
        match maximum_component_end reopened (Z.to_nat (manifest_component_count reopened)) 0 0 with
        | None => inl RIBON_UPDATE_STORAGE_STATUS_OVERFLOW
        | Some maximum_end =>
          match align_up_u64 maximum_end alignment with
          | None => inl RIBON_UPDATE_STORAGE_STATUS_OVERFLOW
          | Some required => inr required
          end
        end
      end
  end.

Definition ribon_update_layout_accepts_manifest (layout : option RibonUpdateLayout)
    (manifest : option RibonUpdateManifestView) : bool :=
  match layout, manifest with
  | Some l, Some _ =>
    match ribon_update_layout_identity_encode layout with
    | (RIBON_UPDATE_STORAGE_STATUS_OK, wire) =>
      if negb (bytes_equal (ribon_security_sha256 wire) (layout_identity_digest l)) then false
      else
        match ribon_update_manifest_required_slot_bytes manifest (layout_allocation_alignment l) true with
        | inl _ => false
        | inr required =>
          (region_length (layout_region_of l RIBON_UPDATE_REGION_SLOT_A) >=? required) &&
          (region_length (layout_region_of l RIBON_UPDATE_REGION_SLOT_B) >=? required)
        end
    | _ => false
    end
  | _, _ => false
  end.

(** ** Requests, plans and results *)

(** [read] gets the part of the buffer it may fill and returns its status, the new
    contents of that part and the number of bytes transferred. *)
Record RibonUpdateBundleSource (B : Type) := mkBundleSource {
  bundle_size : Z;
  bundle_abi_version : Z;
  bundle_flags : Z;
  bundle_reserved0 : Z;
  bundle_byte_size : Z;
  bundle_context : Z;
  bundle_read : option (B -> Z -> bytes -> Z -> B * (Z * bytes * Z));
  bundle_reserved : list Z;
}.

Arguments mkBundleSource {B}.
Arguments bundle_size {B} _.
Arguments bundle_abi_version {B} _.
Arguments bundle_flags {B} _.
Arguments bundle_reserved0 {B} _.
Arguments bundle_byte_size {B} _.
Arguments bundle_context {B} _.
Arguments bundle_read {B} _.
Arguments bundle_reserved {B} _.

(** [scratch] is an address; the buffer and the observer are in the state. *)
Record RibonUpdateInstallRequest (W B : Type) := mkInstallRequest {
  install_size : Z;
  install_abi_version : Z;
  install_flags : Z;
  install_target_slot : Z;
  install_authorization : RibonUpdateManifestAuthorization;
  install_bundle : option (RibonUpdateBundleSource B);
  install_provider : option (RibonUpdateStorageProvider W);
  install_layout : option RibonUpdateLayout;
  install_current_metadata : option RibonUpdateSlotMetadata;
  install_scratch : Z;
  install_scratch_size : Z;
  install_deadline_ticks : Z;
  install_reserved : list Z;
}.

Arguments mkInstallRequest {W B}.
Arguments install_size {W B} _.
Arguments install_abi_version {W B} _.
Arguments install_flags {W B} _.
Arguments install_target_slot {W B} _.
Arguments install_authorization {W B} _.
Arguments install_bundle {W B} _.
Arguments install_provider {W B} _.
Arguments install_layout {W B} _.
Arguments install_current_metadata {W B} _.
Arguments install_scratch {W B} _.
Arguments install_scratch_size {W B} _.
Arguments install_deadline_ticks {W B} _.
Arguments install_reserved {W B} _.

Record RibonUpdateInstallPlan := mkPlan {
  plan_size : Z;
  plan_abi_version : Z;
  plan_resume_state : Z;
  plan_target_slot : Z;
  plan_component_count : Z;
  plan_flags : Z;
  plan_manifest_digest : bytes;
  plan_image_set_digest : bytes;
  plan_staging_metadata : RibonUpdateSlotMetadata;
  plan_reserved : list Z;
}.

Record RibonUpdateInstallResult := mkInstallResult {
  installed_size : Z;
  installed_abi_version : Z;
  installed_target_slot : Z;
  installed_component_count : Z;
  installed_exact_bytes : Z;
  installed_backing_bytes : Z;
  installed_manifest_digest : bytes;
  installed_image_set_digest : bytes;
  installed_verified_metadata : RibonUpdateSlotMetadata;
}.

(** ** Helpers *)

Definition align_up (value alignment : Z) : option Z :=
  if (alignment =? 0) || (Z.land alignment (alignment - 1) !=? 0) || (value >? UINT64_MAX - (alignment - 1))
  then None
  else Some (Z.land (u64 (u64 (value + alignment) - 1)) (u64 (Z.lnot (alignment - 1)))).

(** The digests of the components, [left] of them from [index] on, in the buffer. *)
Fixpoint image_set_bytes (manifest : RibonUpdateManifestView) (left : nat) (index : Z) (b : bytes) : option bytes :=
  match left with
  | O => Some b
  | S left' =>
    match ribon_update_manifest_component_at (Some manifest) index true with
    | None => None
    | Some component =>
      image_set_bytes manifest left' (index + 1)
        (store b (4 + index * RIBON_UPDATE_MANIFEST_DIGEST_BYTES) (component_content_digest component))
    end
  end.

Definition image_set_identity (manifest : RibonUpdateManifestView) : option bytes :=
  let b := store_u8 (zeros (4 + RIBON_UPDATE_MANIFEST_MAX_COMPONENTS * RIBON_UPDATE_MANIFEST_DIGEST_BYTES)) 0
             (u8 (manifest_component_count manifest)) in
  match image_set_bytes manifest (Z.to_nat (manifest_component_count manifest)) 0 b with
  | None => None
  | Some b =>
    Some (ribon_security_sha256
            (slice 0 (4 + manifest_component_count manifest * RIBON_UPDATE_MANIFEST_DIGEST_BYTES) b))
  end.

Definition entry_matches_plan (entry : option RibonUpdateSlotEntry) (image_generation : Z)
    (manifest_digest image_set_digest layout_digest : bytes) : bool :=
  match entry with
  | None => false
  | Some e =>
    (entry_image_generation e =? image_generation) &&
    bytes_equal (entry_manifest_digest e) manifest_digest &&
    bytes_equal (entry_image_set_digest e) image_set_digest &&
    bytes_equal (entry_layout_digest e) layout_digest
  end.

(** The transition the installer asks for. *)
Definition install_transition (target_slot next_state generation : Z)
    (manifest_digest image_set_digest layout_digest : bytes) : RibonUpdateSlotTransition :=
  mkTransition sizeof_RibonUpdateSlotTransition RIBON_UPDATE_STORAGE_ABI_VERSION 0 target_slot next_state 0
    generation manifest_digest image_set_digest layout_digest [0; 0; 0; 0].

Section Install.
Context {W O B : Type}.

(** ** Requests *)

Definition install_request_is_valid (request : option (RibonUpdateInstallRequest W B))
    (observer : option (RibonUpdateTransactionObserver O)) : bool :=
  match request with
  | None => false
  | Some r =>
    if (install_size r !=? sizeof_RibonUpdateInstallRequest) ||
       (install_abi_version r !=? RIBON_UPDATE_INSTALLER_ABI_VERSION) ||
       (install_flags r !=? 0) || (install_target_slot r >=? RIBON_UPDATE_SLOT_COUNT) ||
       is_null (install_bundle r) || is_null (install_provider r) || is_null (install_layout r) ||
       is_null (install_current_metadata r) || (install_scratch r =? 0) || (install_scratch_size r =? 0) ||
       (install_deadline_ticks r =? 0) || observer_is_refused observer ||
       negb (bytes_zero (install_reserved r))
    then false
    else
      match install_bundle r, install_provider r, install_layout r with
      | Some bundle, Some p, Some l =>
        (bundle_size bundle =? sizeof_RibonUpdateBundleSource) &&
        (bundle_abi_version bundle =? RIBON_UPDATE_INSTALLER_ABI_VERSION) &&
        (bundle_flags bundle =? 0) && (bundle_reserved0 bundle =? 0) &&
        (bundle_byte_size bundle !=? 0) && (bundle_context bundle !=? 0) &&
        negb (is_null (bundle_read bundle)) && bytes_zero (bundle_reserved bundle) &&
        ribon_update_storage_provider_is_valid (Some p) &&
        (provider_capacity_bytes p =? layout_media_capacity_bytes l) &&
        (Z.land (install_scratch r) (provider_write_alignment p - 1) =? 0)
      | _, _, _ => false
      end
  end.

(** The plan for an authorised manifest that the layout accepts. *)
Definition prepare_plan (r : RibonUpdateInstallRequest W B) (l : RibonUpdateLayout)
    (current : RibonUpdateSlotMetadata) (manifest : RibonUpdateManifestView)
  : RibonUpdateInstallStatus + RibonUpdateInstallPlan :=
  let target := install_target_slot r in
  if metadata_active_slot current =? target then inl RIBON_UPDATE_INSTALL_STATUS_STATE
  else
    let manifest_digest :=
      ribon_security_sha256 (KeyPolicy.view (manifest_bytes manifest) (manifest_byte_size manifest)) in
    match image_set_identity manifest with
    | None => inl RIBON_UPDATE_INSTALL_STATUS_LAYOUT
    | Some image_set_digest =>
      let entry := slot_at current target in
      let state := entry_state entry in
      let plan staging :=
        inr (mkPlan sizeof_RibonUpdateInstallPlan RIBON_UPDATE_INSTALLER_ABI_VERSION state target
               (manifest_component_count manifest) 0 manifest_digest image_set_digest staging [0; 0; 0; 0]) in
      if (state =? RIBON_UPDATE_SLOT_EMPTY) || (state =? RIBON_UPDATE_SLOT_BAD) ||
         (state =? RIBON_UPDATE_SLOT_CONFIRMED)
      then
        match ribon_update_slot_metadata_transition (Some current)
                (Some (install_transition target RIBON_UPDATE_SLOT_STAGING (manifest_bundle_generation manifest)
                         manifest_digest image_set_digest (layout_identity_digest l))) with
        | (RIBON_UPDATE_STORAGE_STATUS_OK, staging) => plan staging
        | _ => inl RIBON_UPDATE_INSTALL_STATUS_STATE
        end
      else if (state =? RIBON_UPDATE_SLOT_STAGING) || (state =? RIBON_UPDATE_SLOT_VERIFIED) ||
              (state =? RIBON_UPDATE_SLOT_PENDING)
      then
        if negb (entry_matches_plan (Some entry) (manifest_bundle_generation manifest) manifest_digest
                   image_set_digest (layout_identity_digest l))
        then inl RIBON_UPDATE_INSTALL_STATUS_STATE
        else plan current
      else inl RIBON_UPDATE_INSTALL_STATUS_STATE
    end.

(** [plan] is NULL or not. *)
Definition ribon_update_install_prepare (request : option (RibonUpdateInstallRequest W B))
    (observer : option (RibonUpdateTransactionObserver O)) (plan : bool)
  : RibonUpdateInstallStatus + RibonUpdateInstallPlan :=
  if negb plan || negb (install_request_is_valid request observer)
  then inl RIBON_UPDATE_INSTALL_STATUS_INVALID_ARGUMENT
  else
    match request with
    | None => inl RIBON_UPDATE_INSTALL_STATUS_INVALID_ARGUMENT
    | Some r =>
      match ribon_update_manifest_authorize (Some (install_authorization r)) true true with
      | inl _ => inl RIBON_UPDATE_INSTALL_STATUS_AUTHORIZATION
      | inr (manifest, _) =>
        if negb (ribon_update_layout_accepts_manifest (install_layout r) (Some manifest))
        then inl RIBON_UPDATE_INSTALL_STATUS_LAYOUT
        else
          match install_layout r, install_current_metadata r with
          | Some l, Some current => prepare_plan r l current manifest
          | _, _ => inl RIBON_UPDATE_INSTALL_STATUS_INVALID_ARGUMENT
          end
      end
    end.

(** ** Effects of the installer *)

Record install_state := mkInstallState {
  st_world : W;
  st_observer : option (RibonUpdateTransactionObserver O);
  st_bundle : B;
  st_scratch : bytes;
}.

Abbreviation ix := (M install_state RibonUpdateInstallStatus).

Definition observe_install (generation operation boundary index : Z) : ix unit := fun s =>
  let '(o, status) :=
    ribon_update_transaction_observe (st_observer s) operation boundary RIBON_UPDATE_SLOT_STAGING index generation in
  (mkInstallState (st_world s) o (st_bundle s) (st_scratch s),
   if status !=? 0 then inl RIBON_UPDATE_INSTALL_STATUS_INTERRUPTED else inr tt).

(** [bundle->read] into the first [size] bytes of the scratch buffer *)
Definition read_bundle (bundle : RibonUpdateBundleSource B) (offset size deadline : Z) : ix unit := fun s =>
  match bundle_read bundle with
  | None => (s, inl RIBON_UPDATE_INSTALL_STATUS_BUNDLE_IO)
  | Some read =>
    let '(b, (status, out, transferred)) := read (st_bundle s) offset (slice 0 size (st_scratch s)) deadline in
    (mkInstallState (st_world s) (st_observer s) b (store (st_scratch s) 0 out),
     if (status !=? 0) || (transferred !=? size) then inl RIBON_UPDATE_INSTALL_STATUS_BUNDLE_IO else inr tt)
  end.

(** [memset(scratch + offset, 0, size)] *)
Definition clear_scratch (offset size : Z) : ix unit := fun s =>
  (mkInstallState (st_world s) (st_observer s) (st_bundle s) (store (st_scratch s) offset (zeros size)), inr tt).

Definition get_scratch (offset size : Z) : ix bytes := fun s => (s, inr (slice offset size (st_scratch s))).

Definition erase_slot (session : RibonUpdateStorageSession W) (handle : RibonUpdateSlotHandle)
    (offset size deadline : Z) : ix unit := fun s =>
  let '(w, status) := ribon_update_storage_erase_inactive (Some session) (Some handle) offset size deadline (st_world s) in
  (mkInstallState w (st_observer s) (st_bundle s) (st_scratch s),
   if negb (status_ok status) then inl RIBON_UPDATE_INSTALL_STATUS_STORAGE_IO else inr tt).

Definition write_slot (session : RibonUpdateStorageSession W) (handle : RibonUpdateSlotHandle)
    (offset size deadline : Z) : ix unit := fun s =>
  let '(w, status) := ribon_update_storage_write_inactive (Some session) (Some handle) offset
                        (Some (slice 0 size (st_scratch s))) deadline (st_world s) in
  (mkInstallState w (st_observer s) (st_bundle s) (st_scratch s),
   if negb (status_ok status) then inl RIBON_UPDATE_INSTALL_STATUS_STORAGE_IO else inr tt).

Definition read_slot (session : RibonUpdateStorageSession W) (handle : RibonUpdateSlotHandle)
    (offset size deadline : Z) : ix unit := fun s =>
  let '(w, (status, out)) := ribon_update_storage_read (Some session) (Some handle) offset
                               (Some (slice 0 size (st_scratch s))) deadline (st_world s) in
  (mkInstallState w (st_observer s) (st_bundle s) (store (st_scratch s) 0 (default [] out)),
   if negb (status_ok status) then inl RIBON_UPDATE_INSTALL_STATUS_STORAGE_IO else inr tt).

Definition flush_slot (session : RibonUpdateStorageSession W) (deadline : Z) : ix unit := fun s =>
  let '(w, status) := ribon_update_storage_flush (Some session) deadline (st_world s) in
  (mkInstallState w (st_observer s) (st_bundle s) (st_scratch s),
   if negb (status_ok status) then inl RIBON_UPDATE_INSTALL_STATUS_STORAGE_IO else inr tt).

(** ** Installing *)

(** A session over the plan's staging metadata, as the installer builds it. *)
Definition install_session (r : RibonUpdateInstallRequest W B) (plan : RibonUpdateInstallPlan)
  : RibonUpdateStorageSession W :=
  mkSession W sizeof_RibonUpdateStorageSession RIBON_UPDATE_STORAGE_ABI_VERSION 0 0 (install_provider r)
    (install_layout r) (Some (plan_staging_metadata plan)) [0; 0; 0; 0].

Section Steps.
Context (r : RibonUpdateInstallRequest W B) (bundle : RibonUpdateBundleSource B) (p : RibonUpdateStorageProvider W).
Context (manifest : RibonUpdateManifestView) (session : RibonUpdateStorageSession W) (handle : RibonUpdateSlotHandle).
Context (generation : Z).

(** The component and its backing size; [None] is the status CAPACITY. *)
Definition component_backing (index : Z) : option (RibonUpdateComponentView * Z) :=
  match ribon_update_manifest_component_at (Some manifest) index true with
  | None => None
  | Some component =>
    match align_up (component_exact_size component) (provider_write_alignment p) with
    | None => None
    | Some backing_size =>
      if (backing_size >? install_scratch_size r) || (backing_size >? provider_maximum_transfer_bytes p)
      then None
      else Some (component, backing_size)
    end
  end.

Definition bundle_is_short (component : RibonUpdateComponentView) (backing_size exact_total backing_total : Z) : bool :=
  (component_bundle_offset component >? bundle_byte_size bundle) ||
  (component_exact_size component >? bundle_byte_size bundle - component_bundle_offset component) ||
  (exact_total >? UINT64_MAX - component_exact_size component) ||
  (backing_total >? UINT64_MAX - backing_size).

Abbreviation before := (fun operation index => observe_install generation operation RIBON_UPDATE_TRANSACTION_BOUNDARY_BEFORE index).
Abbreviation after := (fun operation index => observe_install generation operation RIBON_UPDATE_TRANSACTION_BOUNDARY_AFTER index).

(** One component from the bundle into the slot. *)
Definition install_component (index : Z) (component : RibonUpdateComponentView) (backing_size : Z) : ix unit :=
  before RIBON_UPDATE_TRANSACTION_OPERATION_BUNDLE_READ index;;
  read_bundle bundle (component_bundle_offset component) (component_exact_size component) (install_deadline_ticks r);;
  after RIBON_UPDATE_TRANSACTION_OPERATION_BUNDLE_READ index;;
  content ← get_scratch 0 (component_exact_size component);
  leave_if (negb (bytes_equal (ribon_security_sha256 content) (component_content_digest component)))
    RIBON_UPDATE_INSTALL_STATUS_COMPONENT_DIGEST;;
  (let tail := backing_size - component_exact_size component in
   if tail !=? 0 then clear_scratch (component_exact_size component) tail else mret tt);;
  before RIBON_UPDATE_TRANSACTION_OPERATION_SLOT_ERASE index;;
  erase_slot session handle (component_bundle_offset component) backing_size (install_deadline_ticks r);;
  after RIBON_UPDATE_TRANSACTION_OPERATION_SLOT_ERASE index;;
  before RIBON_UPDATE_TRANSACTION_OPERATION_SLOT_WRITE index;;
  write_slot session handle (component_bundle_offset component) backing_size (install_deadline_ticks r);;
  after RIBON_UPDATE_TRANSACTION_OPERATION_SLOT_WRITE index.

(** [left] components from [index] on; the two totals. *)
Fixpoint install_components (left : nat) (index exact_total backing_total : Z) : ix (Z * Z) :=
  match left with
  | 0%nat => mret (exact_total, backing_total)
  | S left' =>
    match component_backing index with
    | None => leave RIBON_UPDATE_INSTALL_STATUS_CAPACITY
    | Some (component, backing_size) =>
      if bundle_is_short component backing_size exact_total backing_total
      then leave RIBON_UPDATE_INSTALL_STATUS_CAPACITY
      else
        install_component index component backing_size;;
        install_components left' (index + 1) (u64 (exact_total + component_exact_size component))
          (u64 (backing_total + backing_size))
    end
  end.

(** One component read back from the slot. *)
Definition readback_component (index : Z) (component : RibonUpdateComponentView) (backing_size : Z) : ix unit :=
  before RIBON_UPDATE_TRANSACTION_OPERATION_SLOT_READBACK index;;
  read_slot session handle (component_bundle_offset component) backing_size (install_deadline_ticks r);;
  after RIBON_UPDATE_TRANSACTION_OPERATION_SLOT_READBACK index;;
  (let tail := backing_size - component_exact_size component in
   content ← get_scratch 0 (component_exact_size component);
   padding ← get_scratch (component_exact_size component) tail;
   leave_if (negb (bytes_equal (ribon_security_sha256 content) (component_content_digest component)) ||
             ((tail !=? 0) && negb (bytes_zero padding)))
     RIBON_UPDATE_INSTALL_STATUS_READBACK_DIGEST).

Fixpoint readback_components (left : nat) (index : Z) : ix unit :=
  match left with
  | 0%nat => mret tt
  | S left' =>
    match component_backing index with
    | None => leave RIBON_UPDATE_INSTALL_STATUS_CAPACITY
    | Some (component, backing_size) =>
      readback_component index component backing_size;; readback_components left' (index + 1)
    end
  end.

Definition install_payload : ix (Z * Z) :=
  let count := Z.to_nat (manifest_component_count manifest) in
  totals ← install_components count 0 0 0;
  before RIBON_UPDATE_TRANSACTION_OPERATION_PAYLOAD_FLUSH NO_COMPONENT;;
  flush_slot session (install_deadline_ticks r);;
  after RIBON_UPDATE_TRANSACTION_OPERATION_PAYLOAD_FLUSH NO_COMPONENT;;
  readback_components count 0;;
  mret totals.
End Steps.

(** An installation whose plan may write: the slot is opened, filled and closed as
    verified. *)
Definition install_planned (r : RibonUpdateInstallRequest W B) (plan : RibonUpdateInstallPlan)
    (bundle : RibonUpdateBundleSource B) (p : RibonUpdateStorageProvider W) (l : RibonUpdateLayout)
    (manifest : RibonUpdateManifestView) : ix RibonUpdateInstallResult :=
  let session := install_session r plan in
  match ribon_update_storage_open_inactive_slot (Some session) (install_target_slot r) with
  | (RIBON_UPDATE_STORAGE_STATUS_OK, handle) =>
    totals ← install_payload r bundle p manifest session handle (metadata_generation (plan_staging_metadata plan));
    match ribon_update_slot_metadata_transition (Some (plan_staging_metadata plan))
            (Some (install_transition (install_target_slot r) RIBON_UPDATE_SLOT_VERIFIED
                     (manifest_bundle_generation manifest) (plan_manifest_digest plan)
                     (plan_image_set_digest plan) (layout_identity_digest l))) with
    | (RIBON_UPDATE_STORAGE_STATUS_OK, verified) =>
      mret (mkInstallResult sizeof_RibonUpdateInstallResult RIBON_UPDATE_INSTALLER_ABI_VERSION
              (install_target_slot r) (manifest_component_count manifest) totals.1 totals.2
              (plan_manifest_digest plan) (plan_image_set_digest plan) verified)
    | _ => leave RIBON_UPDATE_INSTALL_STATUS_STATE
    end
  | _ => leave RIBON_UPDATE_INSTALL_STATUS_STATE
  end.

(** [result] is NULL or not. *)
Definition ribon_update_install_signed_bundle (request : option (RibonUpdateInstallRequest W B)) (result : bool)
  : ix RibonUpdateInstallResult := fun s =>
  match ribon_update_install_prepare request (st_observer s) true with
  | inl status => (s, inl (if result then status else RIBON_UPDATE_INSTALL_STATUS_INVALID_ARGUMENT))
  | inr plan =>
    if negb result then leave RIBON_UPDATE_INSTALL_STATUS_INVALID_ARGUMENT s
    else if (plan_resume_state plan !=? RIBON_UPDATE_SLOT_EMPTY) && (plan_resume_state plan !=? RIBON_UPDATE_SLOT_BAD) &&
            (plan_resume_state plan !=? RIBON_UPDATE_SLOT_CONFIRMED) &&
            (plan_resume_state plan !=? RIBON_UPDATE_SLOT_STAGING)
    then leave RIBON_UPDATE_INSTALL_STATUS_STATE s
    else
      match request with
      | Some (mkInstallRequest _ _ _ _ authorization (Some bundle) (Some p) (Some l) _ _ _ _ _ as r) =>
        match ribon_update_manifest_authorize (Some authorization) true true with
        | inl _ => leave RIBON_UPDATE_INSTALL_STATUS_AUTHORIZATION s
        | inr (manifest, _) => install_planned r plan bundle p l manifest s
        end
      | _ => leave RIBON_UPDATE_INSTALL_STATUS_INVALID_ARGUMENT s
      end
  end.
End Install.

Arguments mkInstallState {W O B}.
Arguments st_world {W O B} _.
Arguments st_observer {W O B} _.
Arguments st_bundle {W O B} _.
Arguments st_scratch {W O B} _.
