(* ===== verification/InstallerLogic.v ===== *)
(** * Reasoning about the installer

    What an erase promises, the media that agree outside one region, and the
    effect of each step of the installer on every medium a power cut can leave. *)

From S2P Require Import Prelude.
From S2P Require Import Effects.
From S2P Require Import Buffer.
From S2P Require Import Wire.
From S2P Require Import Sha256.
From S2P Require Import Provider.
From S2P Require Import Layout.
From S2P Require Import SlotMetadata.
From S2P Require Import MemoryProvider.
From S2P Require Import Session.
From S2P Require Import TransactionWire.
From S2P Require Import Transaction.
From S2P Require Import TransactionLogic.
From S2P Require Import TransactionCrash.
From S2P Require Import Manifest.
From S2P Require Import Installer.

(** An erase, whatever it returns, touches only its range. *)
Class EraseContract {W} (p : RibonUpdateStorageProvider W) `{!StorageContract p} := {
  erase_law : forall w offset size deadline w' status,
    0 <= offset -> 0 <= size -> offset + size <= provider_capacity_bytes p ->
    call_erase p w offset size deadline = (w', status) ->
    (exists r, len r = size /\ content w' = store (content w) offset r) /\
    (forall d, crash w' d -> exists d0 r, crash w d0 /\ len r = size /\ d = store d0 offset r);
}.

#[global] Instance memory_provider_erase capacity alignment d :
  EraseContract (memory_provider capacity alignment d).
Proof.
  constructor. intros w off size dl w' st Ho Hs Hl.
  change (off + size <= capacity) in Hl.
  change (call_erase _ w off size dl) with (media_erase capacity w off size dl). unfold media_erase, in_range_b.
  rewrite (proj2 (Z.leb_le 0 off)), (proj2 (Z.leb_le (off + size) capacity)) by done. simpl.
  destruct (media_put_octets capacity w off (zeros size) (octets_zeros size)) as [w1 E]. rewrite E. intros [= <- <-].
  destruct (media_put_some capacity _ _ _ _ E) as [Hv Hd]. split.
  - exists (zeros size). split; [by apply len_zeros|exact Hv].
  - intros b Hb. change (b = durable capacity w1) in Hb.
    pose proof (proj1 (proj1 (media_ok capacity _) (durable_ok capacity w))) as Hlen.
    exists (durable capacity w), (slice off size (durable capacity w)). split_and!; [done|apply len_slice; lia|].
    rewrite store_slice by lia. congruence.
Qed.

(** ** Media that agree outside a range *)

Definition outside (lo hi : Z) (d d' : bytes) : Prop :=
  len d' = len d /\
  forall o n, 0 <= o -> 0 <= n -> o + n <= len d -> o + n <= lo \/ hi <= o -> slice o n d' = slice o n d.

Lemma outside_refl lo hi d : outside lo hi d d.
Proof. done. Qed.

Lemma outside_trans lo hi d d' d'' : outside lo hi d d' -> outside lo hi d' d'' -> outside lo hi d d''.
Proof.
  intros [Hl H] [Hl' H']. split; [congruence|]. intros o n ????. rewrite H' by (rewrite ?Hl; done). by apply H.
Qed.

Lemma store_outside lo hi d off r : 0 <= off -> lo <= off -> off + len r <= hi -> outside lo hi d (store d off r).
Proof.
  intros Ho Hlo Hhi. split; [apply len_store|]. intros o n ????. apply slice_store_outside; lia.
Qed.

(** The range of a slot. *)
Definition slot_lo (l : RibonUpdateLayout) (slot : Z) : Z := region_offset (slot_region l slot).
Definition slot_hi (l : RibonUpdateLayout) (slot : Z) : Z := region_end (slot_region l slot).

(** A property of media that does not depend on the range. *)
Definition ignores (lo hi : Z) (F : bytes -> Prop) : Prop := forall d d', outside lo hi d d' -> F d -> F d'.

Section Steps.
Context {W O B : Type} (p : RibonUpdateStorageProvider W) `{!StorageContract p} `{!EraseContract p}.
Context (l : RibonUpdateLayout) (Hl : layout_typed l).
Context (session : RibonUpdateStorageSession W) (handle : RibonUpdateSlotHandle).
Context (Hp : session_provider session = Some p) (Hlay : session_layout session = Some l).

#[local] Abbreviation lo := (slot_lo l (handle_slot_id handle)).
#[local] Abbreviation hi := (slot_hi l (handle_slot_id handle)).

#[local] Abbreviation ix := (M (install_state (W:=W) (O:=O) (B:=B)) RibonUpdateInstallStatus).

(** A resolved range lies in the slot, and the slot on the media. *)
Lemma resolved off size a mo : 0 <= off ->
  resolve_range (Some session) (Some handle) off size a = (RIBON_UPDATE_STORAGE_STATUS_OK, mo) ->
  mo = lo + off /\ 0 <= lo /\ lo + off + size <= hi /\ hi <= provider_capacity_bytes p.
Proof.
  intros Hoff Hr. destruct (resolve_range_ok _ _ _ _ _ _ Hr) as (p' & l' & E1 & E2 & Hv & _ & Hmo & Hend & _).
  assert (l' = l) as -> by congruence. clear p' E1 E2.
  destruct (handle_valid_inv session handle Hv) as (p' & l' & m & E1 & E2 & _ & _ & _ & Hlv & Hcap & _).
  assert (p' = p) as -> by congruence. assert (l' = l) as -> by congruence.
  apply layout_structurally_valid_wf in Hlv as Hw; [|done].
  pose proof (slot_region_lookup l (handle_slot_id handle) Hl) as Hx.
  pose proof (tiled_offset_ge _ _ _ _ _ _ (wf_tiled l Hw) Hx).
  pose proof (tiled_end_le _ _ _ _ _ _ (wf_tiled l Hw) Hx) as He. rewrite (wf_end l Hw) in He.
  unfold slot_lo, slot_hi, region_end in *. split_and!; [done|lia|lia|lia].
Qed.

Lemma session_provider_is : exists sz abi fl rs lay m rsv, session = mkSession W sz abi fl rs (Some p) lay m rsv.
Proof. destruct session. simpl in Hp. subst. by do 7 eexists. Qed.

(** *** Media through each call *)

Lemma erase_media F off size dl w w' st : ignores lo hi F -> 0 <= off -> 0 <= size ->
  ribon_update_storage_erase_inactive (Some session) (Some handle) off size dl w = (w', st) ->
  all_media p F w -> all_media p F w'.
Proof.
  intros HF Hoff Hsize H Hw. unfold ribon_update_storage_erase_inactive in H.
  destruct (resolve_range _ _ _ _ _) as [rst mo] eqn:Hr.
  destruct (decide (rst = RIBON_UPDATE_STORAGE_STATUS_OK)) as [->|Hne]; [|by assert (w' = w) as -> by (destruct rst; congruence)].
  destruct (resolved off size _ mo Hoff Hr) as (-> & Hlo & Hend & Hcap).
  assert (Hin : lo + off + size <= provider_capacity_bytes p) by lia.
  destruct session_provider_is as (? & ? & ? & ? & ? & ? & ? & Es). rewrite Es in H. cbn in H.
  destruct (call_erase p w (lo + off) size dl) as [w1 cst] eqn:Hc. injection H as <- _.
  destruct (erase_law w (lo + off) size dl w1 cst ltac:(lia) Hsize Hin Hc) as [(r & Hlr & Hcw) Hcr].
  intros d [-> | Hd].
  - rewrite Hcw. eapply HF; [apply store_outside|apply Hw; by left]; lia.
  - destruct (Hcr d Hd) as (d0 & r0 & H0 & Hlr0 & ->).
    eapply HF; [apply store_outside|apply Hw; by right]; lia.
Qed.

Lemma write_media F off b dl w w' st : ignores lo hi F -> 0 <= off -> octets b ->
  ribon_update_storage_write_inactive (Some session) (Some handle) off (Some b) dl w = (w', st) ->
  all_media p F w -> all_media p F w'.
Proof.
  intros HF Hoff Hb H Hw. unfold ribon_update_storage_write_inactive in H.
  destruct (resolve_range _ _ _ _ _) as [rst mo] eqn:Hr.
  destruct (decide (rst = RIBON_UPDATE_STORAGE_STATUS_OK)) as [->|Hne]; [|by assert (w' = w) as -> by (destruct rst; congruence)].
  destruct (resolved off _ _ mo Hoff Hr) as (-> & Hlo & Hend & Hcap).
  assert (Hin : lo + off + len b <= provider_capacity_bytes p) by lia.
  destruct session_provider_is as (? & ? & ? & ? & ? & ? & ? & Es). rewrite Es in H. cbn in H.
  destruct (call_write p w (lo + off) b dl) as [w1 [cst tr]] eqn:Hc. injection H as <- _.
  destruct (provider_write_confined p w (lo + off) b dl w1 cst tr ltac:(lia) Hin Hb Hc) as [(r & Hlr & Hcw) Hcr].
  intros d [-> | Hd].
  - rewrite Hcw. eapply HF; [apply store_outside|apply Hw; by left]; lia.
  - destruct (Hcr d Hd) as (d0 & r0 & H0 & Hlr0 & ->).
    eapply HF; [apply store_outside|apply Hw; by right]; lia.
Qed.

(** A read changes nothing; one that succeeds returns the bytes of the slot. *)
Lemma read_media off b dl w w' st out : 0 <= off ->
  ribon_update_storage_read (Some session) (Some handle) off (Some b) dl w = (w', (st, out)) ->
  content w' = content w /\ (forall d, media_state p w' d -> media_state p w d) /\
  (st = RIBON_UPDATE_STORAGE_STATUS_OK ->
     out = Some (slice (lo + off) (len b) (content w)) /\ lo + off + len b <= hi /\ 0 <= lo /\
     hi <= provider_capacity_bytes p).
Proof.
  intros Hoff H. unfold ribon_update_storage_read in H.
  destruct (resolve_range _ _ _ _ _) as [rst mo] eqn:Hr.
  destruct (decide (rst = RIBON_UPDATE_STORAGE_STATUS_OK)) as [->|Hne].
  2:{ destruct rst; try congruence; injection H as <- <- <-; done. }
  destruct (resolved off _ _ mo Hoff Hr) as (-> & Hlo & Hend & Hcap).
  assert (Hin : lo + off + len b <= provider_capacity_bytes p) by lia.
  destruct session_provider_is as (? & ? & ? & ? & ? & ? & ? & Es). rewrite Es in H. cbn in H.
  destruct (call_read p w (lo + off) b dl) as [w1 [[cst o] tr]] eqn:Hc. injection H as <- Hst <-.
  destruct (read_law w (lo + off) b dl w1 cst o tr ltac:(lia) Hin Hc) as (Hcw & Hcr & Hok).
  split_and!; [done|intros d [-> | Hd]; [left; done|right; auto]|].
  intros ->. unfold provider_status in Hst. destruct (Z.eqb_spec cst 0) as [->|]; [|done]. cbn in Hst.
  destruct (Z.eqb_spec tr (len b)) as [->|]; [|done]. rewrite Hok by done. split_and!; [done|lia|lia|lia].
Qed.

Lemma flush_media dl w w' st : ribon_update_storage_flush (Some session) dl w = (w', st) ->
  content w' = content w /\ (forall d, media_state p w' d -> media_state p w d) /\
  (st = RIBON_UPDATE_STORAGE_STATUS_OK -> forall d, media_state p w' d -> d = content w).
Proof.
  unfold ribon_update_storage_flush. intros H. destruct (negb _); [injection H as <- <-; done|].
  destruct session_provider_is as (? & ? & ? & ? & ? & ? & ? & Es). rewrite Es in H. cbn in H.
  destruct (call_flush p w dl) as [w1 cst] eqn:Hc. injection H as <- Hst.
  destruct (flush_law _ _ _ _ Hc) as (Hcw & Hcr & Hok). split_and!; [done| |].
  - intros d [-> | Hd]; [left; done|]. destruct (Hcr d Hd) as [|]; [by right|by left].
  - intros ->. unfold provider_status in Hst. destruct (Z.eqb_spec cst 0) as [->|]; [|done].
    intros d [-> | Hd]; auto.
Qed.
End Steps.

(** ** Helpers of the installer *)

(** The installer's own rounding is that of the storage layer. *)
Lemma align_up_eq v a : 0 <= v -> 0 <= a -> align_up v a = align_up_u64 v a.
Proof.
  intros Hv Ha. unfold align_up, align_up_u64, add_u64, power_of_two.
  destruct (Z.eqb_spec a 0) as [|Hne]; cbn [negb andb orb]; [done|].
  destruct (Z.land a (a - 1) =? 0); cbn [negb orb]; [|done].
  destruct (Z.ltb_spec (UINT64_MAX - (a - 1)) v); [done|]. do 2 f_equal.
  unfold wrap at 1 2. rewrite Zminus_mod_idemp_l. replace (v + a - 1) with (v + (a - 1)) by lia.
  apply (wrap_small 64). apply word64. lia.
Qed.

Lemma align_up_some v a r : 0 <= v -> 0 <= a -> align_up v a = Some r ->
  r mod a = 0 /\ v <= r < v + a /\ r <= UINT64_MAX.
Proof.
  intros Hv Ha H. rewrite align_up_eq in H by done. apply align_up_u64_some in H as (_ & H1 & H2 & H3); [|done..].
  lia.
Qed.

(** What a bundle source returns is the new contents of the buffer it was given. *)
Definition bundle_typed {B} (bundle : RibonUpdateBundleSource B) : Prop :=
  forall read, bundle_read bundle = Some read ->
  forall b offset buffer deadline b' status out transferred,
    read b offset buffer deadline = (b', (status, out, transferred)) -> octets buffer ->
    len out = len buffer /\ octets out.

Section Install.
Context {W O B : Type} (p : RibonUpdateStorageProvider W) `{!StorageContract p} `{!EraseContract p}.
Context (l : RibonUpdateLayout) (Hl : layout_typed l).
Context (r : RibonUpdateInstallRequest W B) (bundle : RibonUpdateBundleSource B) (Hbundle : bundle_typed bundle).
Context (manifest : RibonUpdateManifestView) (session : RibonUpdateStorageSession W) (handle : RibonUpdateSlotHandle).
Context (Hp : session_provider session = Some p) (Hlay : session_layout session = Some l).
Context (Halign : 0 <= provider_write_alignment p) (generation : Z).
Context (Hcomp : forall (k : nat) c, ribon_update_manifest_component_at (Some manifest) (Z.of_nat k) true = Some c ->
  0 <= component_bundle_offset c /\ 0 <= component_exact_size c /\ len (component_content_digest c) = 32).

#[local] Abbreviation lo := (slot_lo l (handle_slot_id handle)).
#[local] Abbreviation hi := (slot_hi l (handle_slot_id handle)).
#[local] Abbreviation state := (install_state (W:=W) (O:=O) (B:=B)).

(** The scratch buffer holds octets and keeps its size; every medium is in [F]. *)
Definition quiet (F : bytes -> Prop) (s : state) : Prop :=
  all_media p F (st_world s) /\ len (st_scratch s) = install_scratch_size r /\ octets (st_scratch s).

(** A call that fails may leave anything in the scratch buffer. *)
Definition untouched (F : bytes -> Prop) (s : state) : Prop := all_media p F (st_world s).

Definition kept {A} (F : bytes -> Prop) (m : M state RibonUpdateInstallStatus A) : Prop :=
  triple (quiet F) m (fun _ => quiet F) (fun _ => untouched F).

Lemma kept_bind {A A'} F (m : M state RibonUpdateInstallStatus A) (f : A -> M state RibonUpdateInstallStatus A') :
  kept F m -> (forall a, kept F (f a)) -> kept F (m ≫= f).
Proof. intros Hm Hf. eapply triple_bind; [exact Hm|exact Hf]. Qed.

Lemma kept_ret {A} F (a : A) : kept F (mret a).
Proof. by intros s Hs. Qed.

Lemma kept_leave {A} F st : kept F (leave (A:=A) st).
Proof. intros s Hs. apply Hs. Qed.

Lemma kept_leave_if F c st : kept F (leave_if c st).
Proof. destruct c; [apply kept_leave|apply kept_ret]. Qed.

Lemma kept_observe F g operation boundary index : kept F (observe_install g operation boundary index).
Proof.
  intros s Hs. unfold observe_install. destruct (ribon_update_transaction_observe _ _ _ _ _ _) as [o st].
  destruct (st !=? 0); [apply Hs|exact Hs].
Qed.

Lemma kept_get_scratch F o n : kept F (get_scratch o n).
Proof. by intros s Hs. Qed.

Lemma kept_clear_scratch F o n : kept F (clear_scratch o n).
Proof.
  intros s (Hm & Hn & Ho). cbn. split_and!; cbn; [done|by rewrite len_store|]. auto with ribon.
Qed.

Lemma kept_read_bundle F off size dl : kept F (read_bundle bundle off size dl).
Proof.
  intros s (Hm & Hn & Ho). unfold read_bundle. destruct (bundle_read bundle) as [f|] eqn:Hf; [|done].
  destruct (f _ _ _ _) as [b [[st out] tr]] eqn:Hcall.
  destruct (Hbundle f Hf _ _ _ _ _ _ _ _ Hcall ltac:(by apply octets_slice)) as [_ Hout].
  assert (Hq : quiet F (mkInstallState (st_world s) (st_observer s) b (store (st_scratch s) 0 out))).
  { split_and!; cbn; [done|by rewrite len_store|by apply octets_store]. }
  destruct (_ || _); [apply Hq|exact Hq].
Qed.

Section Confined.
Context (F : bytes -> Prop) (HF : ignores lo hi F).

Lemma kept_erase off size dl : 0 <= off -> 0 <= size -> kept F (erase_slot session handle off size dl).
Proof.
  intros Hoff Hsize s (Hm & Hn & Ho). unfold erase_slot.
  destruct (ribon_update_storage_erase_inactive _ _ _ _ _ _) as [w st] eqn:H.
  pose proof (erase_media p l Hl session handle Hp Hlay F off size dl _ _ _ HF Hoff Hsize H Hm).
  destruct (negb _); [done|by split_and!].
Qed.

Lemma kept_write off size dl : 0 <= off -> kept F (write_slot session handle off size dl).
Proof.
  intros Hoff s (Hm & Hn & Ho). unfold write_slot.
  destruct (ribon_update_storage_write_inactive _ _ _ _ _ _) as [w st] eqn:H.
  pose proof (write_media p l Hl session handle Hp Hlay F off _ dl _ _ _ HF Hoff ltac:(by apply octets_slice) H Hm).
  destruct (negb _); [done|by split_and!].
Qed.

Lemma component_backing_inv (k : nat) c n : component_backing r p manifest (Z.of_nat k) = Some (c, n) ->
  ribon_update_manifest_component_at (Some manifest) (Z.of_nat k) true = Some c /\
  0 <= component_bundle_offset c /\ 0 <= component_exact_size c <= n /\ len (component_content_digest c) = 32 /\
  n <= install_scratch_size r /\ n <= UINT64_MAX.
Proof.
  unfold component_backing. destruct (ribon_update_manifest_component_at _ _ _) as [c'|] eqn:Hc; [|done].
  destruct (Hcomp k c' Hc) as (Ho & He & Hd).
  destruct (align_up _ _) as [n'|] eqn:Ha; [|done]. apply align_up_some in Ha as (_ & Ha & Ha'); [|done..].
  destruct (_ || _) eqn:G; [done|]. intros [= -> ->]. bool_to_prop. split_and!; [done|lia..].
Qed.

Lemma kept_install_component (k : nat) c n : component_backing r p manifest (Z.of_nat k) = Some (c, n) ->
  kept F (install_component r bundle session handle generation (Z.of_nat k) c n).
Proof.
  intros H. apply component_backing_inv in H as (_ & Ho & He & _). unfold install_component.
  repeat first [apply kept_bind; [|intros ?] | apply kept_observe | apply kept_read_bundle | apply kept_get_scratch
    | apply kept_leave_if | apply kept_erase; lia | apply kept_write; lia].
  destruct (negb _); [apply kept_clear_scratch|apply kept_ret].
Qed.

(** Filling the slot changes nothing outside it, however it ends. *)
Lemma kept_install_components left (k : nat) exact backing :
  kept F (install_components r bundle p manifest session handle generation left (Z.of_nat k) exact backing).
Proof.
  revert k exact backing. induction left as [|left IH]; intros k exact backing; [apply kept_ret|].
  cbn [install_components]. destruct (component_backing r p manifest (Z.of_nat k)) as [[c n]|] eqn:Hc; [|apply kept_leave].
  destruct (bundle_is_short _ _ _ _ _); [apply kept_leave|].
  apply kept_bind; [by apply kept_install_component|intros []].
  replace (Z.of_nat k + 1) with (Z.of_nat (S k)) by lia. apply IH.
Qed.
End Confined.

(** *** Reading back *)

Lemma kept_flush F dl : kept F (flush_slot session dl).
Proof.
  intros s (Hm & Hn & Ho). unfold flush_slot. destruct (ribon_update_storage_flush _ _ _) as [w st] eqn:H.
  destruct (flush_media p l session Hp Hlay dl _ _ _ H) as (_ & Hsub & _).
  assert (Hq : quiet F (mkInstallState w (st_observer s) (st_bundle s) (st_scratch s))).
  { split_and!; cbn; [|done|done]. intros d Hd. by apply Hm, Hsub. }
  destruct (negb _); [apply Hq|exact Hq].
Qed.

(** A flush that succeeds leaves one medium. *)
Lemma flush_settles F dl s s' : quiet F s -> flush_slot session dl s = (s', inr tt) ->
  exists d, F d /\ quiet (fun d' => d' = d) s'.
Proof.
  intros (Hm & Hn & Ho). unfold flush_slot. destruct (ribon_update_storage_flush _ _ _) as [w st] eqn:H.
  destruct (flush_media p l session Hp Hlay dl _ _ _ H) as (_ & _ & Hall). destruct st; cbn; try done.
  intros [= <-]. exists (content (st_world s)). split; [apply Hm; by left|]. split_and!; cbn; [|done|done].
  intros d Hd. by apply Hall.
Qed.

(** The medium [d] holds a component in the slot: its bytes have the digest the
    manifest names, and the rest of its last write unit is clear. *)
Definition component_held (d : bytes) (c : RibonUpdateComponentView) (n : Z) : Prop :=
  0 <= lo /\ lo + component_bundle_offset c + n <= hi /\ hi <= provider_capacity_bytes p /\
  ribon_security_sha256 (slice (lo + component_bundle_offset c) (component_exact_size c) d) =
    component_content_digest c /\
  slice (lo + component_bundle_offset c + component_exact_size c) (n - component_exact_size c) d =
    zeros (n - component_exact_size c).

(** The medium is [d], and the buffer starts with [n] bytes of it. *)
Definition loaded_from (d : bytes) (off n : Z) (s : state) : Prop :=
  quiet (fun d' => d' = d) s /\ slice 0 n (st_scratch s) = slice (lo + off) n d /\
  0 <= lo /\ lo + off + n <= hi /\ hi <= provider_capacity_bytes p.

Lemma read_slot_loads d off n dl : 0 <= off -> 0 <= n <= install_scratch_size r ->
  triple (quiet (fun d' => d' = d)) (read_slot session handle off n dl)
    (fun _ => loaded_from d off n) (fun _ => untouched (fun d' => d' = d)).
Proof.
  intros Hoff Hn s (Hm & Hlen & Ho). unfold read_slot.
  assert (Hc : content (st_world s) = d) by (apply Hm; by left).
  assert (Hln : len (slice 0 n (st_scratch s)) = n) by (apply len_slice; lia).
  destruct (ribon_update_storage_read _ _ _ _ _ _) as [w [st out]] eqn:H.
  destruct (read_media p l Hl session handle Hp Hlay off _ dl _ _ _ _ Hoff H) as (Hcw & Hsub & Hok).
  assert (Hmw : all_media p (fun d' => d' = d) w) by (intros d' Hd'; by apply Hm, Hsub).
  rewrite Hln, Hc in Hok. destruct (status_ok st) eqn:Hst; cbn [negb].
  - assert (st = RIBON_UPDATE_STORAGE_STATUS_OK) as -> by (by destruct st). destruct (Hok eq_refl) as (-> & Hb & H0 & H1).
    assert (Hl2 : len (slice (lo + off) n d) = n).
    { rewrite <- Hc. apply len_slice; rewrite ?len_content; lia. }
    split; [|split_and!; cbn [st_world st_scratch default id]; [apply slice_store_same; lia|lia|lia|lia]].
    split_and!; cbn [st_world st_scratch default id]; [done|by rewrite len_store|]. apply octets_store; [done|].
    rewrite <- Hc. apply octets_slice, octets_content.
  - exact Hmw.
Qed.

Lemma observe_loaded d off n g operation boundary index :
  triple (loaded_from d off n) (observe_install g operation boundary index)
    (fun _ => loaded_from d off n) (fun _ => untouched (fun d' => d' = d)).
Proof.
  intros s Hs. unfold observe_install. destruct (ribon_update_transaction_observe _ _ _ _ _ _) as [o st].
  destruct (st !=? 0); [apply Hs|exact Hs].
Qed.

Lemma slice_in_prefix (a d : bytes) base n o k : slice 0 n a = slice base n d -> 0 <= base -> 0 <= o -> 0 <= k -> o + k <= n ->
  n <= len a -> base + n <= len d -> slice o k a = slice (base + o) k d.
Proof.
  intros H ??????. transitivity (slice o k (slice 0 n a)); [by rewrite slice_slice by lia|].
  rewrite H, slice_slice by lia. done.
Qed.

Lemma readback_component_holds d (k : nat) c n : component_backing r p manifest (Z.of_nat k) = Some (c, n) ->
  triple (quiet (fun d' => d' = d)) (readback_component r session handle generation (Z.of_nat k) c n)
    (fun _ s => quiet (fun d' => d' = d) s /\ component_held d c n) (fun _ => untouched (fun d' => d' = d)).
Proof.
  intros H. apply component_backing_inv in H as (_ & Ho & He & Hdig & Hn & _). unfold readback_component.
  eapply triple_bind; [apply kept_observe|intros []].
  eapply triple_bind; [apply read_slot_loads; lia|intros []].
  eapply triple_bind; [apply observe_loaded|intros []].
  intros s ((Hm & Hlen & Hoct) & Hsl & H0 & Hend & Hcap).
  assert (Hd : len d = provider_capacity_bytes p).
  { rewrite <- (Hm (content (st_world s)) (or_introl eq_refl)). apply len_content. }
  cbv beta iota zeta delta [mbind M_bind get_scratch].
  rewrite (slice_in_prefix _ d (lo + component_bundle_offset c) n 0 (component_exact_size c)) by (done || lia).
  rewrite (slice_in_prefix _ d (lo + component_bundle_offset c) n (component_exact_size c)) by (done || lia).
  rewrite Z.add_0_r. destruct (_ || _) eqn:G; cbn [leave_if leave mret M_ret]; [exact Hm|].
  apply orb_false_iff in G as [G1 G2]. apply negb_false_iff, bytes_equal_true in G1; [|by rewrite len_sha256].
  split; [done|]. split_and!; try done; try lia.
  destruct (Z.eqb_spec (n - component_exact_size c) 0) as [->|]; [done|]. cbn [negb andb] in G2.
  apply negb_false_iff, bytes_zero_true in G2. rewrite len_slice in G2 by lia. exact G2.
Qed.

(** Every component from place [k] on is held. *)
Definition components_held (d : bytes) (k n : nat) : Prop :=
  forall i, (k <= i < n)%nat -> exists c size, component_backing r p manifest (Z.of_nat i) = Some (c, size) /\
    component_held d c size.

Lemma readback_holds d left (k : nat) :
  triple (quiet (fun d' => d' = d)) (readback_components r p manifest session handle generation left (Z.of_nat k))
    (fun _ s => quiet (fun d' => d' = d) s /\ components_held d k (k + left)) (fun _ => untouched (fun d' => d' = d)).
Proof.
  revert k. induction left as [|left IH]; intros k.
  { intros s Hs. split; [done|]. intros i Hi. lia. }
  cbn [readback_components]. destruct (component_backing r p manifest (Z.of_nat k)) as [[c n]|] eqn:Hc.
  2:{ intros s Hs. apply Hs. }
  eapply triple_bind; [by apply readback_component_holds|intros []].
  replace (Z.of_nat k + 1) with (Z.of_nat (S k)) by lia. intros s [Hs Hheld].
  specialize (IH (S k) s Hs). destruct (readback_components _ _ _ _ _ _ _ _ s) as [s' [st|[]]]; [done|].
  destruct IH as [Hq Hrest]. split; [done|]. intros i Hi. destruct (decide (i = k)) as [->|]; [by exists c, n|].
  apply Hrest. lia.
Qed.

Lemma triple_run {S E A} P (m : M S E A) Q F s s' res : triple P m Q F -> P s -> m s = (s', res) ->
  match res with inr a => Q a s' | inl st => F st s' end.
Proof. intros Hm Hs E'. specialize (Hm s Hs). by rewrite E' in Hm. Qed.

(** Filling, flushing and reading back: outside the slot nothing changes, however
    it ends; when it succeeds one medium is left, and it holds every component. *)
Lemma install_payload_spec F : ignores lo hi F ->
  triple (quiet F) (install_payload r bundle p manifest session handle generation)
    (fun _ s => exists d, F d /\ quiet (fun d' => d' = d) s /\
       components_held d 0 (Z.to_nat (manifest_component_count manifest)))
    (fun _ => untouched F).
Proof.
  intros HF. unfold install_payload.
  eapply triple_bind; [by apply (kept_install_components F HF _ 0)|intros totals].
  eapply triple_bind; [apply kept_observe|intros []].
  eapply (triple_bind _ _ _ (fun _ s => exists d, F d /\ quiet (fun d' => d' = d) s)).
  { intros s Hs. pose proof (kept_flush F (install_deadline_ticks r) s Hs) as Hk.
    destruct (flush_slot session (install_deadline_ticks r) s) as [s' [st|[]]] eqn:E; [exact Hk|].
    eapply flush_settles; [exact Hs|exact E]. }
  intros []. apply triple_exists. intros d. apply triple_pure. intros Hd.
  eapply (triple_bind _ _ _ (fun _ => quiet (fun d' => d' = d))).
  { intros s Hs. pose proof (kept_observe (fun d' => d' = d) generation
      RIBON_UPDATE_TRANSACTION_OPERATION_PAYLOAD_FLUSH RIBON_UPDATE_TRANSACTION_BOUNDARY_AFTER NO_COMPONENT s Hs) as Hk.
    destruct (observe_install _ _ _ _ s) as [s' [st|[]]]; [|exact Hk].
    intros d' Hd'. by rewrite (Hk d' Hd'). }
  intros []. eapply (triple_bind _ _ _ (fun _ s => quiet (fun d' => d' = d) s /\
    components_held d 0 (Z.to_nat (manifest_component_count manifest)))).
  { intros s Hs. pose proof (readback_holds d (Z.to_nat (manifest_component_count manifest)) 0 s Hs) as Hk.
    change (Z.of_nat 0) with 0 in Hk. destruct (readback_components _ _ _ _ _ _ _ _ s) as [s' [st|[]]]; [|exact Hk].
    intros d' Hd'. by rewrite (Hk d' Hd'). }
  intros [] s [Hs Hheld]. by exists d.
Qed.
End Install.
