(* ===== verification/InstallerProperties.v ===== *)
(** * What an installation promises ([src/update/installer.c])

    An installation, however it ends, changes nothing outside the slot it installs
    to; one that succeeds was authorised, and leaves every component of the
    manifest in the slot, on the one medium that is left. *)

From S2P Require Import Prelude.
From S2P Require Import Effects.
From S2P Require Import Buffer.
From S2P Require Import Wire.
From S2P Require Import Sha256.
From S2P Require Import Provider.
From S2P Require Import Layout.
From S2P Require Import SlotMetadata.
From S2P Require Import SlotLifecycle.
From S2P Require Import Session.
From S2P Require Import TransactionWire.
From S2P Require Import Transaction.
From S2P Require Import TransactionLogic.
From S2P Require Import TransactionCrash.
From S2P Require Import Signature.
From S2P Require Import KeyPolicy.
From S2P Require Import KeyPolicyOrder.
From S2P Require Import KeyPolicyProperties.
From S2P Require Import Manifest.
From S2P Require Import ManifestCodec.
From S2P Require Import ManifestReader.
From S2P Require Import ManifestProperties.
From S2P Require Import ManifestAuthorization.
From S2P Require Import Installer.
From S2P Require Import InstallerLogic.

(** ** Transitions of the installer *)

(** The slot that runs, and its entry, are as before. *)
Definition same_running (m m' : RibonUpdateSlotMetadata) : Prop :=
  metadata_active_slot m' = metadata_active_slot m /\
  slot_at m' (metadata_active_slot m) = slot_at m (metadata_active_slot m).

(** A transition that stages, verifies or arms the other slot. *)
Lemma transition_installs m t m' : metadata_typed m -> transition_typed t ->
  transition_next_state t <> RIBON_UPDATE_SLOT_CONFIRMED ->
  ribon_update_slot_metadata_transition (Some m) (Some t) = (RIBON_UPDATE_STORAGE_STATUS_OK, m') ->
  metadata_typed m' /\ same_running m m' /\ 0 <= transition_slot_id t < 2 /\
  entry_state (slot_at m' (transition_slot_id t)) = transition_next_state t /\
  entry_identity (slot_at m' (transition_slot_id t)) = transition_identity t.
Proof.
  intros Hm Ht Hs H. apply transition_ok_inv in H as (Hw & Hacc & ->); [|done..].
  pose proof (next_slot_other _ _ Hm Hw Hacc) as Ho. pose proof (acc_slot _ _ Hacc) as Hslot.
  pose proof (other_entry_identity _ _ Hacc) as Hid. pose proof (other_slot_range m Hw) as Hr.
  pose proof (next_active m t Hacc) as Ha.
  rewrite <- Hslot in Ho, Hid, Hr. rewrite (proj2 (Z.eqb_neq _ _) Hs) in Ha.
  split; [by apply transition_result_ok|]. split; [split; [exact Ha|exact (next_slot_active m t Hw Hacc)]|]. split; [destruct Hr; lia|].
  change (slot_at (transition_result m t) (transition_slot_id t))
    with (slot_at (transition_next m t) (transition_slot_id t)).
  rewrite Ho. split; [reflexivity|exact Hid].
Qed.

Lemma same_running_trans m m' m'' : same_running m m' -> same_running m' m'' -> same_running m m''.
Proof. intros [E1 E2] [E3 E4]. rewrite E1 in E3, E4. split; congruence. Qed.

Section Install.
Context {W O B : Type} (p : RibonUpdateStorageProvider W) `{!StorageContract p} `{!EraseContract p}.
Context (l : RibonUpdateLayout) (bundle : RibonUpdateBundleSource B).
Context (b envelope : bytes) (e : RibonUpdateManifestExpectation) (s : RibonKeyPolicyStore) (sp : RibonSignatureProvider).

(** The request's pointers are set and what they point to has its C types. *)
Record install_ready (r : RibonUpdateInstallRequest W B) (m : RibonUpdateSlotMetadata) : Prop := {
  ready_bundle : install_bundle r = Some bundle /\ bundle_typed bundle;
  ready_storage : install_provider r = Some p /\ 0 <= provider_write_alignment p;
  ready_slots : install_layout r = Some l /\ layout_typed l;
  ready_target : 0 <= install_target_slot r;
  ready_authorization : authorization_typed (install_authorization r) b envelope e s sp;
  ready_metadata : install_current_metadata r = Some m /\ metadata_typed m;
}.

(** Medium [d] holds every component of [v] in the slot. *)
Definition slot_holds (slot : Z) (v : RibonUpdateManifestView) (d : bytes) : Prop :=
  forall (k : nat) c, ribon_update_manifest_component_at (Some v) (Z.of_nat k) true = Some c ->
    0 <= slot_lo l slot /\ slot_lo l slot + component_bundle_offset c + component_exact_size c <= slot_hi l slot /\
    slot_hi l slot <= provider_capacity_bytes p /\
    ribon_security_sha256 (slice (slot_lo l slot + component_bundle_offset c) (component_exact_size c) d) =
      component_content_digest c.

(** ** Preparing *)

Lemma opened_generation v : octets b -> manifest_opens b v -> word 64 (manifest_bundle_generation v).
Proof.
  intros Hb Hv. destruct (input_of_typed b v Hb Hv) as [[_ (H & _) _ _ _ _ _ _] _]. exact H.
Qed.

Lemma image_set_identity_typed v d : image_set_identity v = Some d -> len d = 32 /\ octets d.
Proof.
  unfold image_set_identity. destruct (image_set_bytes _ _ _ _); [|done]. intros [= <-].
  split; [apply len_sha256|apply octets_sha256].
Qed.

Lemma install_transition_typed target state g i : 0 <= target < 2 -> 0 <= state <= 5 -> word 64 g ->
  len i = 32 /\ octets i -> layout_typed l ->
  transition_typed (install_transition target state g (ribon_security_sha256 b) i (layout_identity_digest l)).
Proof.
  intros Ht Hs Hg Hi Hl. constructor; cbn; [apply word32; unfold UINT32_MAX; lia|apply word32; unfold UINT32_MAX; lia
    |by apply word32|done| |done|apply (Layout.typed_digest l Hl)].
  split; [apply len_sha256|apply octets_sha256].
Qed.

(** What a plan says of the manifest and of the slot. *)
Record plan_facts (r : RibonUpdateInstallRequest W B) (m : RibonUpdateSlotMetadata) (v : RibonUpdateManifestView)
    (plan : RibonUpdateInstallPlan) : Prop := {
  fact_target : 0 <= install_target_slot r < 2 /\ metadata_active_slot m <> install_target_slot r;
  fact_open : ribon_update_manifest_open (Some b) (len b) true = inr v;
  fact_digest : plan_manifest_digest plan = ribon_security_sha256 b;
  fact_image_set : len (plan_image_set_digest plan) = 32 /\ octets (plan_image_set_digest plan);
  fact_staging : metadata_typed (plan_staging_metadata plan) /\ same_running m (plan_staging_metadata plan);
  fact_resume : plan_resume_state plan = entry_state (slot_at m (install_target_slot r));
  fact_identity : entry_identity (slot_at (plan_staging_metadata plan) (install_target_slot r)) =
    mkIdentity (manifest_bundle_generation v) (ribon_security_sha256 b) (plan_image_set_digest plan)
      (layout_identity_digest l);
  fact_state : (plan_resume_state plan = RIBON_UPDATE_SLOT_EMPTY \/ plan_resume_state plan = RIBON_UPDATE_SLOT_BAD \/
      plan_resume_state plan = RIBON_UPDATE_SLOT_CONFIRMED) /\
    entry_state (slot_at (plan_staging_metadata plan) (install_target_slot r)) = RIBON_UPDATE_SLOT_STAGING \/
    (plan_resume_state plan = RIBON_UPDATE_SLOT_STAGING \/ plan_resume_state plan = RIBON_UPDATE_SLOT_VERIFIED \/
      plan_resume_state plan = RIBON_UPDATE_SLOT_PENDING) /\ plan_staging_metadata plan = m;
}.

Lemma prepare_facts r m o plan : install_ready r m ->
  ribon_update_install_prepare (O:=O) (Some r) o true = inr plan ->
  exists v d, ribon_update_manifest_authorize (Some (install_authorization r)) true true = inr (v, d) /\
    ribon_update_layout_accepts_manifest (Some l) (Some v) = true /\ plan_facts r m v plan.
Proof.
  intros [_ _ (Hl & Hlt) Ht Ha (Hm & Hmt)]. unfold ribon_update_install_prepare. cbn [negb orb].
  destruct (install_request_is_valid _ _) eqn:Hv; [|done]. cbn [negb].
  assert (Ht2 : install_target_slot r < 2).
  { unfold install_request_is_valid in Hv. destruct (_ || _) eqn:G in Hv; [done|]. bool_to_prop.
    unfold RIBON_UPDATE_SLOT_COUNT in *. lia. }
  destruct (ribon_update_manifest_authorize _ _ _) as [|[v d]] eqn:Hauth; [done|]. rewrite Hl, Hm.
  destruct (ribon_update_layout_accepts_manifest _ _) eqn:Hacc; [|done]. cbn [negb].
  destruct (authorize_inv _ _ _ _ _ _ _ _ Ha Hauth) as (Ho & _). destruct Ha as [(_ & _ & Hb) _ _ _ _].
  pose proof (open_inv b v Hb Ho) as Hop. destruct (opened_bytes b v Hop) as (E1 & E2 & _).
  unfold prepare_plan. rewrite (view_whole _ _ _ E1 E2). destruct (Z.eqb_spec (metadata_active_slot m) (install_target_slot r)) as [|Hne]; [done|].
  destruct (image_set_identity v) as [i|] eqn:Hi; [|done]. apply image_set_identity_typed in Hi.
  intros Hplan. exists v, d. split_and!; [done|done|].
  destruct (_ || _) eqn:Hs in Hplan.
  - destruct (ribon_update_slot_metadata_transition _ _) as [st m'] eqn:Htr. destruct st; try done. injection Hplan as <-.
    apply transition_installs in Htr as (Hm' & Hrun & _ & Hst & Hid); [|done| |done].
    2:{ apply install_transition_typed; [lia|states; lia|by apply opened_generation|done|done]. }
    cbn in Hst. constructor; cbn; try done. left. split; [|done].
    repeat apply orb_true_iff in Hs as [Hs|Hs]; bool_to_prop; auto.
  - destruct (_ || _) eqn:Hs2 in Hplan; [|done]. destruct (entry_matches_plan _ _ _ _ _) eqn:Hmp; [|done].
    injection Hplan as <-. unfold entry_matches_plan in Hmp. bool_to_prop.
    destruct (slot_at_typed m (install_target_slot r) Hmt ltac:(lia)) as [_ _ _ _ [T1 _] [T2 _] [T3 _] _ _ _].
    pose proof (proj1 (Layout.typed_digest l Hlt)).
    repeat match goal with H : bytes_equal _ _ = true |- _ =>
      apply bytes_equal_true in H; [|rewrite ?len_sha256; by intuition congruence] end.
    constructor; cbn; try done.
    + unfold entry_identity. congruence.
    + right. split; [|done]. repeat apply orb_true_iff in Hs2 as [Hs2|Hs2]; bool_to_prop; auto.
Qed.

(** ** Installing *)

(** Every component an opened manifest describes. *)
Lemma opened_component v (k : nat) c : octets b -> ribon_update_manifest_open (Some b) (len b) true = inr v ->
  ribon_update_manifest_component_at (Some v) (Z.of_nat k) true = Some c ->
  (k < Z.to_nat (manifest_component_count v))%nat /\
  0 <= component_bundle_offset c /\ 0 <= component_exact_size c /\ len (component_content_digest c) = 32.
Proof.
  intros Hb Ho Hc. pose proof (open_inv b v Hb Ho) as Hv. pose proof (opens_size b v Hv).
  rewrite (component_at_opened b v k Hb Ho) in Hc.
  destruct (Z.ltb_spec (Z.of_nat k) (manifest_component_count v)) as [Hk|]; [|done]. injection Hc as <-.
  destruct (row_view_bounds b k Hb ltac:(lia)) as [H1 H2]. split_and!; [lia|done|done|].
  destruct (row_view_typed b k Hb ltac:(lia)) as ([_ _ _ _ (_ & (Hd & _) & _)] & _). exact Hd.
Qed.

(** What a successful installation leaves. *)
Record install_done (r : RibonUpdateInstallRequest W B) (m : RibonUpdateSlotMetadata)
    (res : RibonUpdateInstallResult) (v : RibonUpdateManifestView) : Prop := {
  done_authorized : exists d,
    ribon_update_manifest_authorize (Some (install_authorization r)) true true = inr (v, d);
  done_fits : ribon_update_layout_accepts_manifest (Some l) (Some v) = true;
  done_target : installed_target_slot res = install_target_slot r /\ 0 <= install_target_slot r < 2 /\
    metadata_active_slot m <> install_target_slot r;
  done_count : installed_component_count res = manifest_component_count v;
  done_metadata : metadata_typed (installed_verified_metadata res) /\ same_running m (installed_verified_metadata res);
  done_state : entry_state (slot_at (installed_verified_metadata res) (install_target_slot r)) =
    RIBON_UPDATE_SLOT_VERIFIED;
  done_identity : installed_manifest_digest res = ribon_security_sha256 b /\
    entry_manifest_digest (slot_at (installed_verified_metadata res) (install_target_slot r)) =
    ribon_security_sha256 b;
}.

Lemma opened_handle session slot h : session_provider session = Some p -> session_layout session = Some l ->
  ribon_update_storage_open_inactive_slot (W:=W) (Some session) slot = (RIBON_UPDATE_STORAGE_STATUS_OK, h) ->
  handle_slot_id h = slot.
Proof.
  destruct session as [? ? ? ? ? ? [mm|] ?]; cbn; intros -> ->; unfold ribon_update_storage_open_inactive_slot;
    (destruct (_ || _); [done|]); [|done].
  destruct (_ =? _); [done|]. destruct (negb _); [done|]. by intros [= <-].
Qed.

Lemma install_planned_spec r m v plan F : install_ready r m -> plan_facts r m v plan -> octets b ->
  ignores (slot_lo l (install_target_slot r)) (slot_hi l (install_target_slot r)) F ->
  triple (quiet (O:=O) p r F) (install_planned r plan bundle p l v)
    (fun res st => exists d, F d /\ quiet p r (fun d' => d' = d) st /\ slot_holds (install_target_slot r) v d /\
       (metadata_typed (installed_verified_metadata res) /\ same_running m (installed_verified_metadata res)) /\
       installed_target_slot res = install_target_slot r /\ installed_component_count res = manifest_component_count v /\
       installed_manifest_digest res = ribon_security_sha256 b /\
       entry_state (slot_at (installed_verified_metadata res) (install_target_slot r)) = RIBON_UPDATE_SLOT_VERIFIED /\
       entry_manifest_digest (slot_at (installed_verified_metadata res) (install_target_slot r)) =
         ribon_security_sha256 b)
    (fun _ => untouched p F).
Proof.
  intros [[Hbu Hbt] [Hp Hal] [Hl Hlt] Ht _ _] [[Htr Hact] Ho Hdig Hset [Hstg Hrs] _ _ _] Hb HF. unfold install_planned.
  destruct (ribon_update_storage_open_inactive_slot _ _) as [st h] eqn:Hopen.
  assert (Hfail : forall A, triple (quiet (O:=O) p r F) (leave (A:=A) RIBON_UPDATE_INSTALL_STATUS_STATE)
    (fun _ _ => False) (fun _ => untouched p F)) by (intros A s0 Hs0; apply Hs0).
  assert (Hbad : st <> RIBON_UPDATE_STORAGE_STATUS_OK \/ st = RIBON_UPDATE_STORAGE_STATUS_OK) by (destruct st; auto).
  destruct Hbad as [Hbad | ->]; [intros s0 Hs0; destruct st; try (by destruct Hbad); apply Hs0|].
  assert (Hh : handle_slot_id h = install_target_slot r) by (eapply opened_handle; [..|exact Hopen]; done).
  eapply triple_bind.
  { apply (install_payload_spec p l Hlt r bundle Hbt v (install_session r plan) h Hp Hl Hal _); [|by rewrite Hh].
    intros k c Hc. by apply (opened_component v k c Hb Ho). }
  intros totals s0 (d & Hd & Hq & Hheld). rewrite Hdig.
  destruct (ribon_update_slot_metadata_transition _ _) as [st m'] eqn:Htrans.
  assert (Hunt : untouched p F s0) by (intros d' Hd'; destruct Hq as [Hq _]; by rewrite (Hq d' Hd')).
  destruct st; try exact Hunt. apply transition_installs in Htrans as (Hm' & Hrun & _ & Hst & Hid); [|done| |done].
  2:{ apply install_transition_typed; [lia|states; lia| |done|done]. by apply opened_generation, open_inv. }
  injection Hid as _ Hmd _ _. destruct (same_running_trans _ _ _ Hrs Hrun) as [Hr1 Hr2].
  exists d. split_and!; try done.
  intros k c Hc. destruct (opened_component v k c Hb Ho Hc) as (Hk & Hoff & Hex & _).
  destruct (Hheld k ltac:(lia)) as (c' & n & Hback & H0 & Hend & Hcap & Hsha & _).
  apply component_backing_inv in Hback as (Hc' & _ & Hn & _); [|done|by intros; eapply opened_component].
  assert (c' = c) as -> by congruence. rewrite Hh in *. split_and!; try done; lia.
Qed.

(** The whole call. *)
Lemma install_spec r m F : install_ready r m ->
  ignores (slot_lo l (install_target_slot r)) (slot_hi l (install_target_slot r)) F ->
  triple (quiet (O:=O) p r F) (ribon_update_install_signed_bundle (Some r) true)
    (fun res st => exists v d, install_done r m res v /\ F d /\ quiet p r (fun d' => d' = d) st /\
       slot_holds (install_target_slot r) v d)
    (fun _ => untouched p F).
Proof.
  intros Hr HF s0 Hs0. unfold ribon_update_install_signed_bundle.
  destruct (ribon_update_install_prepare (Some r) (st_observer s0) true) as [st|plan] eqn:Hprep; [apply Hs0|]. cbn [negb].
  destruct (_ && _); [apply Hs0|]. destruct (prepare_facts r m _ plan Hr Hprep) as (v & d & Hauth & Hacc & Hf).
  pose proof (proj2 (proj2 (names_manifest _ _ _ _ _ _ (ready_authorization r m Hr)))) as Hb.
  pose proof (install_planned_spec r m v plan F Hr Hf Hb HF s0 Hs0) as Hspec.
  destruct (ready_bundle r m Hr) as [E1 _]. destruct (ready_storage r m Hr) as [E2 _]. destruct (ready_slots r m Hr) as [E3 _].
  destruct r. cbn in *. subst. rewrite Hauth.
  destruct (install_planned _ _ _ _ _ _ s0) as [s1 [st|res]]; [exact Hspec|].
  destruct Hspec as (d' & HFd & Hq & Hheld & Hty & Htg & Hcnt & Hdig & Hst & Hid). exists v, d'. split_and!; try done.
  destruct Hf as [[Hf1 Hf2] _ _ _ _ _ _ _]. constructor; try done. by exists d.
Qed.

(** ** Properties *)

(** The state a call of the installer starts from: the scratch buffer has the size
    the request gives and holds octets. *)
Definition scratch_typed (r : RibonUpdateInstallRequest W B) (st : install_state (W:=W) (O:=O) (B:=B)) : Prop :=
  len (st_scratch st) = install_scratch_size r /\ octets (st_scratch st).

Lemma outside_ignores lo hi w : ignores lo hi (fun d => exists d0, media_state p w d0 /\ outside lo hi d0 d).
Proof. intros d d' Hd (d0 & Hd0 & Ho). exists d0. split; [done|]. by eapply outside_trans. Qed.

(** C6: Whatever an installation returns, and wherever it is cut, it changes nothing but
    the slot it installs to: every medium it can leave agrees, outside that slot,
    with one that could have been left before it. *)
Theorem install_confined r m s0 s1 res :
  install_ready r m -> scratch_typed r s0 ->
  ribon_update_install_signed_bundle (Some r) true s0 = (s1, res) ->
  forall d, media_state p (st_world s1) d ->
  exists d0, media_state p (st_world s0) d0 /\
    outside (slot_lo l (install_target_slot r)) (slot_hi l (install_target_slot r)) d0 d.
Proof.
  intros Hr Hs H. set (F := fun d => exists d0, media_state p (st_world s0) d0 /\
    outside (slot_lo l (install_target_slot r)) (slot_hi l (install_target_slot r)) d0 d).
  assert (Hq : quiet p r F s0).
  { split; [|exact Hs]. intros d Hd. exists d. split; [done|apply outside_refl]. }
  pose proof (install_spec r m F Hr (outside_ignores _ _ _) s0 Hq) as Hspec. rewrite H in Hspec.
  destruct res as [st|res]; [exact Hspec|].
  destruct Hspec as (v & d & _ & HF & (Hm & _) & _). intros d' Hd'. by rewrite (Hm d' Hd').
Qed.

(** C4: An installation that succeeds was authorised for this product by a key of the
    trust store, went to a slot that is not the active one, and left every component
    of the manifest in that slot, on every medium a power cut can leave; only then
    does the metadata it returns call the slot verified, under the SHA-256 of the
    manifest. *)
Theorem install_verified r m s0 s1 res :
  install_ready r m -> scratch_typed r s0 ->
  ribon_update_install_signed_bundle (Some r) true s0 = (s1, inr res) ->
  exists v dec, ribon_update_manifest_authorize (Some (install_authorization r)) true true = inr (v, dec) /\
    ribon_update_manifest_open (Some b) (len b) true = inr v /\ expectation_met v e /\
    metadata_active_slot m <> install_target_slot r /\
    (forall d, media_state p (st_world s1) d -> slot_holds (install_target_slot r) v d) /\
    entry_state (slot_at (installed_verified_metadata res) (install_target_slot r)) = RIBON_UPDATE_SLOT_VERIFIED /\
    entry_manifest_digest (slot_at (installed_verified_metadata res) (install_target_slot r)) =
      ribon_security_sha256 b /\
    same_running m (installed_verified_metadata res).
Proof.
  intros Hr Hs H.
  assert (Hq : quiet p r (fun _ => True) s0) by (split; [by intros d Hd|exact Hs]).
  pose proof (install_spec r m (fun _ => True) Hr (fun _ _ _ _ => I) s0 Hq) as Hspec. rewrite H in Hspec.
  destruct Hspec as (v & d & [(dec & Hauth) _ (_ & _ & Hne) _ [_ Hrun] Hst (_ & Hid)] & _ & (Hm & _) & Hheld).
  destruct (authorize_inv _ _ _ _ _ _ _ _ (ready_authorization r m Hr) Hauth) as (Ho & Hmet & _).
  exists v, dec. split_and!; try done. intros d' Hd'. by rewrite (Hm d' Hd').
Qed.
End Install.
