(* ===== verification/InstallerLiveness.v ===== *)
(** * The installer makes progress

    On storage whose calls succeed, with a bundle that holds the components, the
    installer fills the slot, reads it back and closes it as verified: no check of
    its own stands in the way.  The components do not disturb each other, since they
    share no byte of the bundle and start at write units. *)

From S2P Require Import Prelude.
From S2P Require Import Effects.
From S2P Require Import Buffer.
From S2P Require Import Wire.
From S2P Require Import Sha256.
From S2P Require Import Provider.
From S2P Require Import Layout.
From S2P Require Import SlotMetadata.
From S2P Require Import SlotLifecycle.
From S2P Require Import MemoryProvider.
From S2P Require Import Session.
From S2P Require Import TransactionWire.
From S2P Require Import Transaction.
From S2P Require Import TransactionLogic.
From S2P Require Import TransactionCrash.
From S2P Require Import KeyPolicy.
From S2P Require Import Signature.
From S2P Require Import Manifest.
From S2P Require Import ManifestReader.
From S2P Require Import ManifestProperties.
From S2P Require Import ManifestAuthorization.
From S2P Require Import Installer.
From S2P Require Import InstallerLogic.
From S2P Require Import InstallerProperties.

(** Every erase in range succeeds. *)
Definition erases {W} (p : RibonUpdateStorageProvider W) : Prop :=
  forall w offset size deadline, 0 <= offset -> 0 <= size -> offset + size <= provider_capacity_bytes p ->
  exists w', call_erase p w offset size deadline = (w', 0).

Lemma memory_provider_erases capacity alignment d : erases (memory_provider capacity alignment d).
Proof.
  intros w off size dl Ho Hs Hl. change (off + size <= capacity) in Hl.
  change (call_erase _ w off size dl) with (media_erase capacity w off size dl). unfold media_erase, in_range_b.
  rewrite (proj2 (Z.leb_le 0 off)), (proj2 (Z.leb_le (off + size) capacity)) by done. simpl.
  destruct (media_put_octets capacity w off (zeros size) (octets_zeros size)) as [w1 ->]. eauto.
Qed.

(** The bundle source delivers [image], whole. *)
Definition delivers {B} (bundle : RibonUpdateBundleSource B) (image : bytes) : Prop :=
  octets image /\ len image = bundle_byte_size bundle /\
  exists read, bundle_read bundle = Some read /\
    forall b offset buffer deadline, 0 <= offset -> offset + len buffer <= len image ->
    exists b', read b offset buffer deadline = (b', (0, slice offset (len buffer) image, len buffer)).

(** Two aligned ranges whose exact parts are apart are apart. *)
Lemma aligned_apart a o v n o' : 0 < a -> o mod a = 0 -> o' mod a = 0 -> n mod a = 0 -> v <= n < v + a ->
  o + v <= o' -> o + n <= o'.
Proof.
  intros Ha Ho Ho' Hn Hv H. apply Z.mod_divide in Ho as [x ->], Ho' as [y ->], Hn as [z ->]; [|lia..].
  assert (x + z <= y) by nia. nia.
Qed.

Section Payload.
Context {W O B : Type} (p : RibonUpdateStorageProvider W) `{!StorageContract p} `{!EraseContract p}.
Context (Hrel : reliable p) (Hers : erases p).
Context (l : RibonUpdateLayout) (Hl : layout_typed l).
Context (r : RibonUpdateInstallRequest W B) (bundle : RibonUpdateBundleSource B) (image : bytes).
Context (Hbundle : delivers bundle image).
Context (manifest : RibonUpdateManifestView) (session : RibonUpdateStorageSession W) (handle : RibonUpdateSlotHandle).
Context (Hp : session_provider session = Some p) (Hlay : session_layout session = Some l).
Context (Hhandle : handle_is_valid (Some session) (Some handle) = true) (generation : Z).

#[local] Abbreviation lo := (slot_lo l (handle_slot_id handle)).
#[local] Abbreviation hi := (slot_hi l (handle_slot_id handle)).
#[local] Abbreviation state := (install_state (W:=W) (O:=O) (B:=B)).
#[local] Abbreviation ix := (M state RibonUpdateInstallStatus).

(** Nobody observes, and the storage holds [d]. *)
Definition calm (d : bytes) (s : state) : Prop :=
  st_observer s = None /\ len (st_scratch s) = install_scratch_size r /\ octets (st_scratch s) /\
  content (st_world s) = d.

(** The scratch buffer starts with [x]. *)
Definition loaded_with (d x : bytes) (s : state) : Prop := calm d s /\ slice 0 (len x) (st_scratch s) = x.

(** A range the providers' alignments admit. *)
Definition admitted (a off size : Z) : Prop := Z.land off (a - 1) = 0 /\ Z.land size (a - 1) = 0.

(** The component [c], which takes [n] bytes of the slot, is in the bundle and fits. *)
Record component_fits (c : RibonUpdateComponentView) (n : Z) : Prop := {
  fits_size : 0 <= component_bundle_offset c /\ 0 < component_exact_size c <= n /\ n <= install_scratch_size r /\
    n <= provider_maximum_transfer_bytes p;
  fits_slot : component_bundle_offset c + n <= region_length (slot_region l (handle_slot_id handle));
  fits_bundle : component_bundle_offset c + component_exact_size c <= len image;
  fits_digest : ribon_security_sha256 (slice (component_bundle_offset c) (component_exact_size c) image) =
    component_content_digest c;
  fits_units : admitted (provider_read_alignment p) (component_bundle_offset c) n /\
    admitted (provider_write_alignment p) (component_bundle_offset c) n /\
    admitted (provider_erase_alignment p) (component_bundle_offset c) n;
}.

(** What the slot holds of it. *)
Definition padded (c : RibonUpdateComponentView) (n : Z) : bytes :=
  slice (component_bundle_offset c) (component_exact_size c) image ++ zeros (n - component_exact_size c).

Lemma len_padded c n : component_fits c n -> len (padded c n) = n.
Proof.
  intros [Hs _ Hb _ _]. unfold padded. rewrite len_app, len_slice, len_zeros by lia. lia.
Qed.

Lemma octets_padded c n : octets (padded c n).
Proof. apply octets_app. split; [apply octets_slice, (proj1 Hbundle)|apply octets_zeros]. Qed.

(** ** Each call succeeds *)

Lemma resolves off size a : 0 <= off -> 0 < size -> admitted a off size ->
  size <= provider_maximum_transfer_bytes p -> off + size <= region_length (slot_region l (handle_slot_id handle)) ->
  resolve_range (Some session) (Some handle) off size a = (RIBON_UPDATE_STORAGE_STATUS_OK, lo + off) /\
  0 <= lo /\ lo + off + size <= provider_capacity_bytes p.
Proof.
  intros Hoff Hsz [Ha1 Ha2] Hmax Hend.
  destruct (handle_valid_inv session handle Hhandle) as (p' & l' & m & E1 & E2 & _ & _ & _ & Hlv & Hcap & _).
  assert (p' = p) as -> by congruence. assert (l' = l) as -> by congruence.
  apply layout_structurally_valid_wf in Hlv as Hw; [|done].
  pose proof (slot_region_lookup l (handle_slot_id handle) Hl) as Hx.
  pose proof (tiled_offset_ge _ _ _ _ _ _ (wf_tiled l Hw) Hx).
  pose proof (tiled_end_le _ _ _ _ _ _ (wf_tiled l Hw) Hx) as He. rewrite (wf_end l Hw) in He.
  pose proof (typed_capacity l Hl) as Hword. apply word64 in Hword.
  unfold slot_lo, slot_hi, region_end in *. split_and!; [|lia|lia].
  unfold resolve_range. rewrite Hhandle, Ha1, Ha2. cbn [negb orb Z.eqb]. compare.
  destruct session as [? ? ? ? [q|] [l'|] ? ?]; cbn in E1, E2; try done. injection E1 as ->. injection E2 as ->.
  assert (A1 : add_u64 off size = Some (off + size)) by (apply add_u64_some; lia).
  assert (A2 : add_u64 (region_offset (slot_region l (handle_slot_id handle))) off =
    Some (region_offset (slot_region l (handle_slot_id handle)) + off)) by (apply add_u64_some; lia).
  compare. rewrite A1. compare. by rewrite A2.
Qed.

Lemma calm_observes d x g operation boundary index :
  succeeds (loaded_with d x) (observe_install g operation boundary index : ix unit) (fun _ => loaded_with d x).
Proof.
  intros s Hs. eexists _, tt. unfold observe_install. destruct Hs as [(Ho & Hs) Hx]. rewrite Ho. cbn.
  split; [reflexivity|]. by split_and!.
Qed.

Lemma calm_loaded d s : calm d s -> loaded_with d [] s.
Proof. intros H. by split. Qed.

Lemma bundle_loads d off size dl : 0 <= off -> 0 <= size <= install_scratch_size r -> off + size <= len image ->
  succeeds (loaded_with d []) (read_bundle bundle off size dl : ix unit) (fun _ => loaded_with d (slice off size image)).
Proof.
  intros Hoff Hsz Hend s [(Ho & Hn & Hoct & Hc) _]. destruct Hbundle as (Himg & _ & read & Hread & Hserves).
  assert (Hln : len (slice 0 size (st_scratch s)) = size) by (apply len_slice; lia).
  destruct (Hserves (st_bundle s) off (slice 0 size (st_scratch s)) dl Hoff ltac:(lia)) as [b' Hcall].
  rewrite Hln in Hcall. unfold read_bundle. rewrite Hread, Hcall, !Z.eqb_refl. cbn [Z.eqb negb orb]. eexists _, tt. split; [reflexivity|].
  assert (Hls : len (slice off size image) = size) by (apply len_slice; lia).
  split; [|cbn; apply slice_store_same; lia]. split_and!; cbn; [done|by rewrite len_store| |done].
  apply octets_store; [done|by apply octets_slice].
Qed.

Lemma clear_pads d c n : component_fits c n ->
  succeeds (loaded_with d (slice (component_bundle_offset c) (component_exact_size c) image))
    ((if n - component_exact_size c !=? 0
      then clear_scratch (component_exact_size c) (n - component_exact_size c) else mret tt) : ix unit)
    (fun _ => loaded_with d (padded c n)).
Proof.
  intros Hf s [(Ho & Hn & Hoct & Hc) Hx]. pose proof (len_padded c n Hf) as Hlp. destruct Hf as [Hs _ Hb _ _].
  rewrite len_slice in Hx by lia. unfold loaded_with. rewrite Hlp.
  destruct (Z.eqb_spec (n - component_exact_size c) 0) as [E|E]; cbn [negb].
  - exists s, tt. split; [done|]. split; [by split_and!|]. unfold padded. rewrite E.
    replace n with (component_exact_size c) by lia. by rewrite Hx, app_nil_r.
  - eexists _, tt. split; [reflexivity|]. split; cbn; [split_and!; cbn; auto with ribon; by rewrite len_store|].
    replace n with (component_exact_size c + (n - component_exact_size c)) at 1 by lia.
    rewrite slice_split by lia. unfold padded. f_equal.
    + rewrite slice_store_before by (rewrite ?len_zeros; lia). exact Hx.
    + rewrite Z.add_0_l. apply slice_store_same; rewrite ?len_zeros; lia.
Qed.

(** An erase leaves the rest of the media as it was. *)
Lemma erase_clears d x c n dl : component_fits c n ->
  succeeds (loaded_with d x) (erase_slot session handle (component_bundle_offset c) n dl : ix unit)
    (fun _ s => exists d1, outside (lo + component_bundle_offset c) (lo + component_bundle_offset c + n) d d1 /\
       loaded_with d1 x s).
Proof.
  intros [Hs Hslot _ _ (_ & _ & Hu)] s [(Ho & Hn & Hoct & Hc) Hx]. set (off := component_bundle_offset c) in *.
  destruct (resolves off n (provider_erase_alignment p)) as (Hres & Hlo & Hin); [lia|lia|done|lia|done|].
  destruct (Hers (st_world s) (lo + off) n dl ltac:(lia) ltac:(lia) Hin) as [w' Hcall].
  destruct (erase_law (st_world s) (lo + off) n dl w' 0 ltac:(lia) ltac:(lia) Hin Hcall) as [(z & Hz & Hcw) _].
  unfold erase_slot, ribon_update_storage_erase_inactive.
  destruct (session_provider_is p l session Hp Hlay) as (? & ? & ? & ? & ? & ? & ? & Es). rewrite Es in Hres |- *.
  cbn [session_alignment]. rewrite Hres. cbn [with_provider]. rewrite Hcall. cbn. eexists _, tt. split; [reflexivity|].
  exists (content w'). split; [|by split_and!]. rewrite Hcw, <- Hc. apply store_outside; lia.
Qed.

(** A write leaves the buffer in the slot. *)
Lemma write_fills d c n dl : component_fits c n ->
  succeeds (loaded_with d (padded c n)) (write_slot session handle (component_bundle_offset c) n dl : ix unit)
    (fun _ s => exists d1, (outside (lo + component_bundle_offset c) (lo + component_bundle_offset c + n) d d1 /\
       slice (lo + component_bundle_offset c) n d1 = padded c n) /\ loaded_with d1 [] s).
Proof.
  intros Hf. pose proof (len_padded c n Hf) as Hlp. destruct Hf as [Hs Hslot _ _ (_ & Hu & _)].
  set (off := component_bundle_offset c) in *. intros s [(Ho & Hn & Hoct & Hc) Hx]. rewrite Hlp in Hx.
  destruct (resolves off n (provider_write_alignment p)) as (Hres & Hlo & Hin); [lia|lia|done|lia|done|].
  rewrite <- Hlp in Hin at 1.
  destruct (reliable_write p Hrel (st_world s) (lo + off) (padded c n) dl ltac:(lia) Hin (octets_padded c n)) as [w' Hcall].
  destruct (write_law (st_world s) (lo + off) (padded c n) dl w' 0 (len (padded c n)) ltac:(lia) Hin
    (octets_padded c n) Hcall) as (Hcw & _). specialize (Hcw eq_refl eq_refl).
  unfold write_slot, ribon_update_storage_write_inactive. rewrite Hx, Hlp.
  destruct (session_provider_is p l session Hp Hlay) as (? & ? & ? & ? & ? & ? & ? & Es). rewrite Es in Hres |- *.
  cbn [session_alignment]. rewrite Hres. cbn [with_provider]. rewrite Hcall, Hlp. cbn. rewrite Z.eqb_refl. cbn.
  eexists _, tt. split; [reflexivity|]. exists (content w'). split; [|by split_and!]. rewrite Hcw, Hc. split.
  - apply store_outside; lia.
  - rewrite <- Hc. apply slice_store_same; rewrite ?len_content; lia.
Qed.

Lemma install_component_fills d (k : nat) c n : component_fits c n ->
  succeeds (loaded_with d []) (install_component r bundle session handle generation (Z.of_nat k) c n : ix unit)
    (fun _ s => exists d1, (outside (lo + component_bundle_offset c) (lo + component_bundle_offset c + n) d d1 /\
       slice (lo + component_bundle_offset c) n d1 = padded c n) /\ loaded_with d1 [] s).
Proof.
  intros Hf. pose proof Hf as [Hs _ Hb Hdig _]. unfold install_component.
  set (x := slice (component_bundle_offset c) (component_exact_size c) image) in *.
  assert (Hlx : len x = component_exact_size c) by (apply len_slice; lia).
  eapply succeeds_bind; [apply calm_observes|intros []].
  eapply succeeds_bind; [apply bundle_loads; lia|intros []]. fold x.
  eapply succeeds_bind; [apply calm_observes|intros []].
  eapply (succeeds_value _ x).
  { intros s Hx. eexists _, _. split; [reflexivity|]. split; [rewrite <- Hlx; apply Hx|exact Hx]. }
  eapply succeeds_bind; [apply succeeds_passes; by rewrite Hdig, bytes_equal_refl|intros []].
  eapply succeeds_bind; [by apply clear_pads|intros []].
  eapply succeeds_bind; [apply calm_observes|intros []].
  eapply succeeds_bind; [by apply erase_clears|intros []]. apply succeeds_exists. intros d1. apply succeeds_pure. intros Hout.
  eapply succeeds_bind; [apply calm_observes|intros []].
  eapply succeeds_bind; [apply calm_observes|intros []].
  eapply succeeds_bind; [by apply write_fills|intros []]. apply succeeds_exists. intros d2. apply succeeds_pure. intros [Hout' Hsl].
  intros s Hs2. destruct (calm_observes d2 [] generation RIBON_UPDATE_TRANSACTION_OPERATION_SLOT_WRITE
    RIBON_UPDATE_TRANSACTION_BOUNDARY_AFTER (Z.of_nat k) s Hs2) as (s' & [] & E & Hs').
  exists s', tt. split; [exact E|]. exists d2. split_and!; [by eapply outside_trans|done|done].
Qed.

(** ** The loops *)

#[local] Abbreviation count := (Z.to_nat (manifest_component_count manifest)).
#[local] Abbreviation planned k := (component_backing r p manifest (Z.of_nat k)).

Context (Hfits : forall k, (k < count)%nat -> exists c n, planned k = Some (c, n) /\ component_fits c n).
Context (Hapart : forall i k c n c' n', (i < k < count)%nat -> planned i = Some (c, n) -> planned k = Some (c', n') ->
  component_bundle_offset c + n <= component_bundle_offset c' \/ component_bundle_offset c' + n' <= component_bundle_offset c).
Context (Htotal : Z.of_nat count * install_scratch_size r <= UINT64_MAX).

(** The slot holds the first [k] components. *)
Definition filled (d : bytes) (k : nat) : Prop :=
  forall i c n, (i < k)%nat -> planned i = Some (c, n) -> slice (lo + component_bundle_offset c) n d = padded c n.

Lemma component_in_media c n d s : component_fits c n -> calm d s ->
  0 <= lo /\ lo + component_bundle_offset c + n <= len d.
Proof.
  intros [Hs Hslot _ _ (_ & Hu & _)] (_ & _ & _ & <-). rewrite len_content.
  destruct (resolves (component_bundle_offset c) n (provider_write_alignment p)) as (_ & H); [lia|lia|done|lia|done|exact H].
Qed.

Lemma filled_next d d' k c n s : (k < count)%nat -> planned k = Some (c, n) -> calm d s -> filled d k ->
  outside (lo + component_bundle_offset c) (lo + component_bundle_offset c + n) d d' ->
  slice (lo + component_bundle_offset c) n d' = padded c n -> filled d' (S k).
Proof.
  intros Hk Hc Hd Hf Hout Hsl i ci ni Hi Hci. destruct (decide (i = k)) as [->|Hne].
  - rewrite Hc in Hci. by injection Hci as <- <-.
  - rewrite <- (Hf i ci ni) by (done || lia). destruct (Hfits i ltac:(lia)) as (c1 & n1 & E & Hfit).
    rewrite Hci in E. injection E as <- <-. destruct (component_in_media ci ni d s Hfit Hd). destruct Hfit as [Hs _ _ _ _].
    destruct Hout as [_ Hout]. apply Hout; [lia..|]. destruct (Hapart i k ci ni c n ltac:(lia) Hci Hc); lia.
Qed.

Lemma install_components_fill left (k : nat) exact backing : (k + left = count)%nat ->
  0 <= exact <= Z.of_nat k * install_scratch_size r -> 0 <= backing <= Z.of_nat k * install_scratch_size r ->
  succeeds (fun s => exists d, filled d k /\ loaded_with d [] s)
    (install_components r bundle p manifest session handle generation left (Z.of_nat k) exact backing : ix (Z * Z))
    (fun _ s => exists d, filled d count /\ loaded_with d [] s).
Proof.
  revert k exact backing. induction left as [|left IH]; intros k exact backing Hk He Hb; cbn [install_components].
  { apply succeeds_ret. intros s (d & Hd). exists d. by replace count with k by lia. }
  destruct (Hfits k ltac:(lia)) as (c & n & Hc & Hf). rewrite Hc. pose proof Hf as [Hs _ Hin _ _].
  assert (Hroom : (Z.of_nat k + 1) * install_scratch_size r <= UINT64_MAX) by nia.
  assert (Hshort : bundle_is_short bundle c n exact backing = false).
  { unfold bundle_is_short. destruct Hbundle as (_ & Hlen & _). rewrite <- Hlen. compare. done. }
  rewrite Hshort, !(wrap_small 64) by (apply word64; lia).
  apply succeeds_exists. intros d. apply succeeds_pure. intros Hfill.
  eapply (succeeds_bind _ _ _ (fun _ s => exists d, filled d (S k) /\ loaded_with d [] s)).
  - intros s Hd. destruct (install_component_fills d k c n Hf s Hd) as (s' & [] & E & d1 & [Hout Hsl] & Hd1).
    exists s', tt. split; [exact E|]. exists d1. split; [|exact Hd1]. eapply filled_next; [lia|exact Hc|apply Hd|done..].
  - intros []. replace (Z.of_nat k + 1) with (Z.of_nat (S k)) by lia. apply IH; lia.
Qed.

Lemma readback_component_passes d (k : nat) c n : component_fits c n -> planned k = Some (c, n) ->
  slice (lo + component_bundle_offset c) n d = padded c n ->
  succeeds (loaded_with d []) (readback_component r session handle generation (Z.of_nat k) c n : ix unit)
    (fun _ => loaded_with d []).
Proof.
  intros Hf Hk Hsl. pose proof Hf as [Hs Hslot Hin Hdig (Hu & _)]. pose proof (len_padded c n Hf) as Hlp. unfold readback_component.
  eapply succeeds_bind; [apply calm_observes|intros []].
  eapply (succeeds_bind _ _ _ (fun _ => loaded_with d (padded c n))).
  { intros s [(Ho & Hn & Hoct & Hc) _].
    destruct (resolves (component_bundle_offset c) n (provider_read_alignment p)) as (Hres & Hlo & Hend); [lia|lia|done|lia|done|].
    assert (Hln : len (slice 0 n (st_scratch s)) = n) by (apply len_slice; lia).
    assert (Hin' : lo + component_bundle_offset c + len (slice 0 n (st_scratch s)) <= provider_capacity_bytes p) by lia.
    destruct (reliable_read p Hrel (st_world s) (lo + component_bundle_offset c) (slice 0 n (st_scratch s))
      (install_deadline_ticks r) ltac:(lia) Hin') as (w' & out & Hcall).
    destruct (read_law (st_world s) (lo + component_bundle_offset c) (slice 0 n (st_scratch s)) (install_deadline_ticks r)
      w' 0 out (len (slice 0 n (st_scratch s))) ltac:(lia) Hin' Hcall) as (Hcw & _ & Hout).
    specialize (Hout eq_refl eq_refl). rewrite Hln, Hc, Hsl in Hout. subst out. rewrite Hln in Hcall.
    unfold read_slot, ribon_update_storage_read. rewrite Hln.
    destruct (session_provider_is p l session Hp Hlay) as (? & ? & ? & ? & ? & ? & ? & Es). rewrite Es in Hres |- *.
    cbn [session_alignment]. rewrite Hres. cbn [with_provider]. rewrite Hcall, Z.eqb_refl.
    cbn [provider_status Z.eqb status_ok negb default id].
    eexists _, tt. split; [reflexivity|]. split; [|cbn [st_scratch]; rewrite Hlp; apply slice_store_same; lia].
    split_and!; cbn [st_scratch st_world st_observer]; [done|by rewrite len_store|apply octets_store; [done|apply octets_padded]|congruence]. }
  intros []. eapply succeeds_bind; [apply calm_observes|intros []].
  intros s [Hc Hx]. rewrite Hlp in Hx. destruct Hc as (Ho & Hn & Hoct & Hc). exists s, tt. cbv beta iota zeta delta [mbind M_bind get_scratch].
  assert (Hpre : forall o m, 0 <= o -> 0 <= m -> o + m <= n -> slice o m (st_scratch s) = slice o m (padded c n)).
  { intros o m ???. rewrite <- Hx, slice_slice by lia. f_equal. }
  rewrite !Hpre by lia. unfold padded.
  rewrite slice_app_l, slice_all by (rewrite ?len_slice; lia).
  rewrite slice_app_r, len_slice, Z.sub_diag, slice_all by (rewrite ?len_slice, ?len_zeros; lia).
  rewrite Hdig, bytes_equal_refl, bytes_zero_zeros, andb_false_r. split; [done|]. split; [by split_and!|done].
Qed.

Lemma readback_components_pass d left (k : nat) : (k + left = count)%nat -> filled d count ->
  succeeds (loaded_with d []) (readback_components r p manifest session handle generation left (Z.of_nat k) : ix unit)
    (fun _ => loaded_with d []).
Proof.
  intros Hk Hd. revert k Hk. induction left as [|left IH]; intros k Hk; cbn [readback_components].
  { by apply succeeds_ret. }
  destruct (Hfits k ltac:(lia)) as (c & n & Hc & Hf). rewrite Hc.
  eapply succeeds_bind; [apply readback_component_passes; [done|done|apply (Hd k); [lia|done]]|intros []].
  replace (Z.of_nat k + 1) with (Z.of_nat (S k)) by lia. apply IH. lia.
Qed.

Lemma flush_succeeds d dl :
  succeeds (loaded_with d []) (flush_slot session dl : ix unit) (fun _ => loaded_with d []).
Proof.
  intros s [(Ho & Hn & Hoct & Hc) _]. destruct (reliable_flush p Hrel (st_world s) dl) as [w' Hcall].
  destruct (flush_law _ _ _ _ Hcall) as (Hcw & _). unfold flush_slot, ribon_update_storage_flush.
  assert (Hv : ribon_update_storage_session_is_valid (Some session) = true).
  { unfold handle_is_valid in Hhandle. by apply andb_true_iff in Hhandle as [? _]. }
  rewrite Hv. destruct (session_provider_is p l session Hp Hlay) as (? & ? & ? & ? & ? & ? & ? & Es). rewrite Es.
  cbn [negb with_provider]. rewrite Hcall. cbn. eexists _, tt. split; [reflexivity|].
  split; [|done]. split_and!; cbn; [done|done|done|congruence].
Qed.

Lemma install_payload_succeeds :
  succeeds (fun s => exists d, loaded_with d [] s) (install_payload r bundle p manifest session handle generation : ix (Z * Z))
    (fun _ s => exists d, loaded_with d [] s).
Proof.
  unfold install_payload.
  eapply (succeeds_bind _ _ _ (fun _ s => exists d, filled d count /\ loaded_with d [] s)).
  { intros s (d & Hd). apply (install_components_fill count 0 0 0); [done|lia|lia|]. exists d. split; [|done].
    intros i c n Hi. lia. }
  intros totals. apply succeeds_exists. intros d. apply succeeds_pure. intros Hfill.
  eapply succeeds_bind; [apply calm_observes|intros []].
  eapply succeeds_bind; [apply flush_succeeds|intros []].
  eapply succeeds_bind; [apply calm_observes|intros []].
  eapply succeeds_bind; [by apply (readback_components_pass d count 0)|intros []].
  apply succeeds_ret. intros s Hs. by exists d.
Qed.
End Payload.

(** ** The whole call *)

(** A slot that was opened has a valid handle. *)
Lemma opened_handle_valid {W} (session : RibonUpdateStorageSession W) slot h :
  ribon_update_storage_open_inactive_slot (Some session) slot = (RIBON_UPDATE_STORAGE_STATUS_OK, h) ->
  handle_is_valid (Some session) (Some h) = true /\ handle_slot_id h = slot /\
  exists m, session_metadata session = Some m /\ metadata_is_valid (Some m) = true /\
    slot < RIBON_UPDATE_SLOT_COUNT /\ metadata_active_slot m <> slot /\ entry_state (slot_at m slot) = RIBON_UPDATE_SLOT_STAGING.
Proof.
  unfold ribon_update_storage_open_inactive_slot, handle_is_valid.
  destruct (ribon_update_storage_session_is_valid (Some session)) eqn:Hv; [|done]. cbn [negb orb andb].
  destruct (Z.leb_spec RIBON_UPDATE_SLOT_COUNT slot) as [|Hs]; [done|].
  destruct session as [? ? ? ? [p|] [l|] [m|] ?]; try done.
  destruct (Z.eqb_spec slot (metadata_active_slot m)) as [|Hne]; [done|].
  destruct (Z.eqb_spec (entry_state (slot_at m slot)) RIBON_UPDATE_SLOT_STAGING) as [Hst|]; [|done]. cbn [negb].
  intros [= <-]. cbn. rewrite Hst, !Z.eqb_refl, !bytes_equal_refl. compare. split_and!; [|done|].
  - destruct (Z.eqb_spec slot (metadata_active_slot m)); [done|]. done.
  - exists m. split_and!; try done. unfold ribon_update_storage_session_is_valid in Hv. cbn in Hv.
    destruct (_ || _) eqn:G in Hv; [done|]. by bool_to_prop.
Qed.

Section Call.
Context {W O B : Type} (p : RibonUpdateStorageProvider W) `{!StorageContract p} `{!EraseContract p}.
Context (l : RibonUpdateLayout) (bundle : RibonUpdateBundleSource B).
Context (b envelope : bytes) (e : RibonUpdateManifestExpectation) (s : RibonKeyPolicyStore) (sp : RibonSignatureProvider).

(** The component can be installed from [image]: the bundle holds the bytes the
    manifest names; the whole write units it takes fit the slot, the scratch buffer
    and one transfer, and start and end at units of the storage. *)
Definition installable (r : RibonUpdateInstallRequest W B) (image : bytes) (c : RibonUpdateComponentView) : Prop :=
  component_bundle_offset c + component_exact_size c <= len image /\
  ribon_security_sha256 (slice (component_bundle_offset c) (component_exact_size c) image) = component_content_digest c /\
  exists n, align_up (component_exact_size c) (provider_write_alignment p) = Some n /\
    n <= install_scratch_size r /\ n <= provider_maximum_transfer_bytes p /\
    component_bundle_offset c + n <= region_length (slot_region l (install_target_slot r)) /\
    admitted (provider_read_alignment p) (component_bundle_offset c) n /\
    admitted (provider_write_alignment p) (component_bundle_offset c) n /\
    admitted (provider_erase_alignment p) (component_bundle_offset c) n.

(** Everything an installation needs of its inputs. *)
Record install_possible (r : RibonUpdateInstallRequest W B) (image : bytes) (plan : RibonUpdateInstallPlan)
    (v : RibonUpdateManifestView) : Prop := {
  possible_plan : ribon_update_install_prepare (O:=O) (Some r) None true = inr plan;
  possible_manifest : ribon_update_manifest_open (Some b) (len b) true = inr v;
  possible_state : plan_resume_state plan <> RIBON_UPDATE_SLOT_VERIFIED /\
    plan_resume_state plan <> RIBON_UPDATE_SLOT_PENDING;
  possible_slot : fst (ribon_update_storage_open_inactive_slot (Some (install_session r plan)) (install_target_slot r)) =
    RIBON_UPDATE_STORAGE_STATUS_OK;
  possible_bundle : delivers bundle image;
  possible_components : forall (k : nat) c,
    ribon_update_manifest_component_at (Some v) (Z.of_nat k) true = Some c -> installable r image c;
  possible_totals : RIBON_UPDATE_MANIFEST_MAX_COMPONENTS * install_scratch_size r <= UINT64_MAX;
  possible_generation : metadata_generation (plan_staging_metadata plan) < UINT64_MAX;
}.

Lemma admitted_mod a off n : power_of_two a = true -> 0 <= a -> admitted a off n -> 0 < a /\ off mod a = 0 /\ n mod a = 0.
Proof.
  intros Ha H0 [H1 H2]. apply power_of_two_true in Ha as (k & Hk & ->); [|done].
  rewrite !land_pred_pow2 in H1, H2 by lia. split_and!; [lia|done|done].
Qed.

Lemma align_up_power v a n : align_up v a = Some n -> power_of_two a = true.
Proof.
  unfold align_up, power_of_two. destruct (a =? 0); cbn [negb orb andb]; [done|].
  by destruct (Z.land a (a - 1) =? 0).
Qed.

(** Two components of an opened manifest are not empty and share no byte. *)
Lemma opened_apart v (i k : nat) c c' : octets b -> ribon_update_manifest_open (Some b) (len b) true = inr v ->
  ribon_update_manifest_component_at (Some v) (Z.of_nat i) true = Some c ->
  ribon_update_manifest_component_at (Some v) (Z.of_nat k) true = Some c' ->
  0 < component_exact_size c /\ ((i < k)%nat ->
    component_bundle_offset c + component_exact_size c <= component_bundle_offset c' \/
    component_bundle_offset c' + component_exact_size c' <= component_bundle_offset c).
Proof.
  intros Hb Ho. rewrite !(component_at_opened b v) by done. pose proof (open_inv b v Hb Ho) as Hv.
  pose proof (opens_size b v Hv) as Hl. destruct (opened_rows b v Hv) as [A1 A2 _ _ _].
  destruct (Z.ltb_spec (Z.of_nat i) (manifest_component_count v)) as [Hi|]; [|done]. intros [= <-].
  destruct (Z.ltb_spec (Z.of_nat k) (manifest_component_count v)) as [Hk|]; [|done]. intros [= <-].
  pose proof (row_view_bounds b i Hb ltac:(lia)) as Bi. pose proof (row_view_bounds b k Hb ltac:(lia)) as Bk.
  destruct (A1 i ltac:(lia)) as [Ai _]. destruct (A1 k ltac:(lia)) as [Ak _]. split.
  - destruct Ai as [_ _ _ _ Hx _]. lia.
  - intros Hik. exact (proj2 (compared_distinct _ _ _ _ Ai Ak Bi Bk (A2 i k Hik ltac:(lia)))).
Qed.

Section Possible.
Context (r : RibonUpdateInstallRequest W B) (image : bytes) (plan : RibonUpdateInstallPlan) (v : RibonUpdateManifestView).
Context (m : RibonUpdateSlotMetadata) (Hr : install_ready p l bundle b envelope e s sp r m).
Context (Hpos : install_possible r image plan v).

#[local] Abbreviation count := (Z.to_nat (manifest_component_count v)).

Lemma possible_planned (k : nat) : (k < count)%nat -> exists c n,
  ribon_update_manifest_component_at (Some v) (Z.of_nat k) true = Some c /\ installable r image c /\
  component_backing r p v (Z.of_nat k) = Some (c, n) /\
  align_up (component_exact_size c) (provider_write_alignment p) = Some n.
Proof.
  intros Hk. pose proof (proj2 (proj2 (names_manifest _ _ _ _ _ _ (ready_authorization _ _ _ _ _ _ _ _ _ _ Hr)))) as Hb.
  pose proof (component_at_opened b v k Hb (possible_manifest _ _ _ _ Hpos)) as Hc.
  destruct (Z.ltb_spec (Z.of_nat k) (manifest_component_count v)) as [_|]; [|lia].
  destruct (possible_components _ _ _ _ Hpos k _ Hc) as (H1 & H2 & n & Hn & H3 & H4 & H5) eqn:E. clear E.
  exists (row_view b k), n. split_and!; [done|by split_and!; [..|exists n]| |done].
  unfold component_backing. rewrite Hc, Hn. compare. done.
Qed.

Lemma possible_fits h (k : nat) : handle_slot_id h = install_target_slot r -> (k < count)%nat ->
  exists c n, component_backing r p v (Z.of_nat k) = Some (c, n) /\ component_fits p l r image h c n.
Proof.
  intros Hh Hk. pose proof (proj2 (proj2 (names_manifest _ _ _ _ _ _ (ready_authorization _ _ _ _ _ _ _ _ _ _ Hr)))) as Hb.
  destruct (possible_planned k Hk) as (c & n & Hc & (H1 & H2 & n' & Hn & H3 & H4 & H5 & Hu) & Hback & Hn').
  rewrite Hn' in Hn. injection Hn as <-.
  destruct (opened_component b v k c Hb (possible_manifest _ _ _ _ Hpos) Hc) as (_ & Hoff & Hex & _).
  destruct (align_up_some _ _ _ Hex (proj2 (ready_storage _ _ _ _ _ _ _ _ _ _ Hr)) Hn') as (_ & Hv & _).
  exists c, n. split; [done|]. constructor; rewrite ?Hh; try done. split_and!; try lia.
  by apply (opened_apart v k k c c Hb (possible_manifest _ _ _ _ Hpos)).
Qed.

Lemma possible_apart (i k : nat) c n c' n' : (i < k < count)%nat ->
  component_backing r p v (Z.of_nat i) = Some (c, n) -> component_backing r p v (Z.of_nat k) = Some (c', n') ->
  component_bundle_offset c + n <= component_bundle_offset c' \/ component_bundle_offset c' + n' <= component_bundle_offset c.
Proof.
  intros Hik Hi Hk. pose proof (proj2 (proj2 (names_manifest _ _ _ _ _ _ (ready_authorization _ _ _ _ _ _ _ _ _ _ Hr)))) as Hb.
  pose proof (proj2 (ready_storage _ _ _ _ _ _ _ _ _ _ Hr)) as Ha.
  destruct (possible_planned i ltac:(lia)) as (c1 & n1 & Hc & (_ & _ & x & Ex & _ & _ & _ & _ & Hu & _) & E & Hn).
  rewrite Hi in E. injection E as <- <-. rewrite Hn in Ex. injection Ex as <-.
  destruct (possible_planned k ltac:(lia)) as (c1 & n1 & Hc' & (_ & _ & x & Ex & _ & _ & _ & _ & Hu' & _) & E & Hn').
  rewrite Hk in E. injection E as <- <-. rewrite Hn' in Ex. injection Ex as <-.
  pose proof (align_up_power _ _ _ Hn) as Hpow.
  destruct (admitted_mod _ _ _ Hpow Ha Hu) as (H0 & M1 & M2), (admitted_mod _ _ _ Hpow Ha Hu') as (_ & M3 & M4).
  destruct (opened_component b v i c Hb (possible_manifest _ _ _ _ Hpos) Hc) as (_ & _ & Hex & _).
  destruct (opened_component b v k c' Hb (possible_manifest _ _ _ _ Hpos) Hc') as (_ & _ & Hex' & _).
  destruct (align_up_some _ _ _ Hex Ha Hn) as (_ & V1 & _), (align_up_some _ _ _ Hex' Ha Hn') as (_ & V2 & _).
  destruct (proj2 (opened_apart v i k c c' Hb (possible_manifest _ _ _ _ Hpos) Hc Hc') ltac:(lia)) as [H|H]; [left|right];
    eapply aligned_apart; eauto.
Qed.

(** The slot the plan stages can be closed as verified. *)
Lemma possible_verified h : plan_facts l b r m v plan ->
  ribon_update_storage_open_inactive_slot (Some (install_session r plan)) (install_target_slot r) =
    (RIBON_UPDATE_STORAGE_STATUS_OK, h) ->
  fst (ribon_update_slot_metadata_transition (Some (plan_staging_metadata plan))
    (Some (install_transition (install_target_slot r) RIBON_UPDATE_SLOT_VERIFIED (manifest_bundle_generation v)
             (plan_manifest_digest plan) (plan_image_set_digest plan) (layout_identity_digest l)))) =
  RIBON_UPDATE_STORAGE_STATUS_OK.
Proof.
  intros [[Ht Hact] Ho Hdig Hset [Hsm _] _ Hid _] Hopen. destruct (ready_slots _ _ _ _ _ _ _ _ _ _ Hr) as [_ Hl].
  destruct (opened_handle_valid _ _ _ Hopen) as (_ & _ & sm & [= <-] & Hv & _ & Hne & Hst).
  pose proof (proj1 (metadata_valid_wf _ Hsm) Hv) as Hw.
  assert (Hother : install_target_slot r = other_slot (plan_staging_metadata plan)).
  { pose proof (wf_active _ Hw). unfold other_slot. lia. }
  rewrite Hother in *. set (sm := plan_staging_metadata plan) in *.
  assert (Hok : identity_ok (entry_identity (slot_at sm (other_slot sm)))).
  { eapply entry_identity_ok; [|apply (wf_entries sm Hw), other_slot_range, Hw|by rewrite Hst].
    apply slot_at_typed; [done|]. destruct (other_slot_range sm Hw); lia. }
  assert (Hq : install_transition (other_slot sm) RIBON_UPDATE_SLOT_VERIFIED (manifest_bundle_generation v)
    (plan_manifest_digest plan) (plan_image_set_digest plan) (layout_identity_digest l) =
    request sm RIBON_UPDATE_SLOT_VERIFIED 0 (entry_identity (slot_at sm (other_slot sm)))) by (by rewrite Hid, Hdig).
  rewrite Hq, (transition_accepted sm _ Hsm Hw); [done|by apply SlotLifecycle.request_typed|].
  apply request_accepted; try done; [apply Hpos|by rewrite Hst].
Qed.

Lemma install_succeeds : reliable p -> erases p ->
  succeeds (fun st => st_observer st = None /\ scratch_typed r st)
    (ribon_update_install_signed_bundle (O:=O) (Some r) true) (fun _ st => st_observer st = None).
Proof.
  intros Hrel Hers st [Hobs [Hn Hoct]]. unfold ribon_update_install_signed_bundle.
  rewrite Hobs, (possible_plan _ _ _ _ Hpos). cbn [negb].
  destruct (prepare_facts p l bundle b envelope e s sp r m _ plan Hr (possible_plan _ _ _ _ Hpos))
    as (v' & d & Hauth & _ & Hf).
  assert (v' = v) as -> by (pose proof (fact_open _ _ _ _ _ _ Hf); pose proof (possible_manifest _ _ _ _ Hpos); congruence).
  assert (Hgo : (plan_resume_state plan !=? RIBON_UPDATE_SLOT_EMPTY) && (plan_resume_state plan !=? RIBON_UPDATE_SLOT_BAD) &&
    (plan_resume_state plan !=? RIBON_UPDATE_SLOT_CONFIRMED) && (plan_resume_state plan !=? RIBON_UPDATE_SLOT_STAGING) = false).
  { destruct (possible_state _ _ _ _ Hpos) as [H1 H2]. pose proof (fact_state _ _ _ _ _ _ Hf) as Hst.
    destruct Hst as [[[->|[->| ->]] _]|[[->|[E|E]] _]]; done. }
  rewrite Hgo. destruct (ribon_update_storage_open_inactive_slot (Some (install_session r plan)) (install_target_slot r))
    as [ost h] eqn:Hopen. pose proof (possible_slot _ _ _ _ Hpos) as Hslot. rewrite Hopen in Hslot. cbn in Hslot. subst ost.
  pose proof (possible_verified h Hf Hopen) as Hver.
  destruct (opened_handle_valid _ _ _ Hopen) as (Hh & Hid & _).
  destruct (ready_bundle _ _ _ _ _ _ _ _ _ _ Hr) as [E1 _]. destruct (ready_storage _ _ _ _ _ _ _ _ _ _ Hr) as [E2 _].
  destruct (ready_slots _ _ _ _ _ _ _ _ _ _ Hr) as [E3 Hl].
  pose proof (opens_count b v (open_inv b v (proj2 (proj2 (names_manifest _ _ _ _ _ _ (ready_authorization _ _ _ _ _ _ _ _ _ _ Hr))))
    (possible_manifest _ _ _ _ Hpos))) as Hcount.
  pose proof (possible_totals _ _ _ _ Hpos) as Htot. change RIBON_UPDATE_MANIFEST_MAX_COMPONENTS with 16 in Htot.
  assert (Hroom : Z.of_nat count * install_scratch_size r <= UINT64_MAX).
  { pose proof (len_nonneg (st_scratch st)). rewrite Z2Nat.id by lia. nia. }
  pose proof (install_payload_succeeds (O:=O) p Hrel Hers l Hl r bundle image (possible_bundle _ _ _ _ Hpos) v (install_session r plan) h
    E2 E3 Hh (metadata_generation (plan_staging_metadata plan)) (fun k => possible_fits h k Hid) possible_apart Hroom st) as Hpay.
  destruct Hpay as (s' & totals & Hrun & d' & (Ho' & _) & _).
  { exists (content (st_world st)). split; [by split_and!|done]. }
  assert (Hplanned : exists res, install_planned r plan bundle p l v st = (s', inr res)).
  { unfold install_planned. rewrite Hopen. unfold mbind at 1, M_bind at 1. rewrite Hrun.
    destruct (ribon_update_slot_metadata_transition _ _) as [vst vm]. cbn in Hver. rewrite Hver. by eexists. }
  destruct Hplanned as [res Hres]. exists s', res. split; [|done].
  clear - E1 E2 E3 Hauth Hres. destruct r. cbn in *. subst. by rewrite Hauth.
Qed.
End Possible.

(** C5: An installation that can succeed does.  On storage whose calls succeed, with a
    bundle that delivers the components and nobody interrupting, a request that
    passes its preparation and whose components fit the slot, the buffer and the
    units of the storage is installed: writing one component does not disturb
    another, so the readback finds what the bundle holds. *)
Theorem install_completes r m image plan v st :
  install_ready p l bundle b envelope e s sp r m -> scratch_typed r st -> st_observer st = None ->
  reliable p -> erases p -> install_possible r image plan v ->
  exists st' res, ribon_update_install_signed_bundle (O:=O) (Some r) true st = (st', inr res).
Proof.
  intros Hr Hst Hobs Hrel Hers Hpos.
  destruct (install_succeeds r image plan v m Hr Hpos Hrel Hers st (conj Hobs Hst)) as (st' & res & H & _).
  by exists st', res.
Qed.
End Call.
