(* ===== verification/TransactionInstall.v ===== *)
(** * Installing through the journal
      ([ribon_update_install_transactionally] of [src/update/transaction.c])

    An installation is three commits to the update journal, with the installer
    between the first and the second: the slot is STAGING, the bundle is installed
    and verified, the slot is VERIFIED, and then PENDING for a number of boot
    attempts.  A request that was cut resumes at the state the journal holds. *)

From S2P Require Import Prelude.
From S2P Require Import Effects.
From S2P Require Import Buffer.
From S2P Require Import Wire.
From S2P Require Import Provider.
From S2P Require Import Layout.
From S2P Require Import SlotMetadata.
From S2P Require Import TransactionWire.
From S2P Require Import Transaction.
From S2P Require Import Manifest.
From S2P Require Import Installer.

Definition sizeof_RibonUpdateTransactionalInstallRequest : Z := 72.
Definition sizeof_RibonUpdateTransactionalInstallResult : Z := 624.

(** The observer is in the state. *)
Record RibonUpdateTransactionalInstallRequest (W B : Type) := mkTransactionalRequest {
  transactional_size : Z;
  transactional_abi_version : Z;
  transactional_flags : Z;
  transactional_pending_attempts : Z;
  transactional_install : option (RibonUpdateInstallRequest W B);
  transactional_journal : option (RibonUpdateTransactionJournal W);
  transactional_reserved : list Z;
}.

Arguments mkTransactionalRequest {W B}.
Arguments transactional_size {W B} _.
Arguments transactional_abi_version {W B} _.
Arguments transactional_flags {W B} _.
Arguments transactional_pending_attempts {W B} _.
Arguments transactional_install {W B} _.
Arguments transactional_journal {W B} _.
Arguments transactional_reserved {W B} _.

Record RibonUpdateTransactionalInstallResult := mkTransactionalResult {
  tresult_size : Z;
  tresult_abi_version : Z;
  tresult_resumed_from : Z;
  tresult_target_slot : Z;
  tresult_component_count : Z;
  tresult_flags : Z;
  tresult_installed_exact_bytes : Z;
  tresult_installed_backing_bytes : Z;
  tresult_snapshot : RibonUpdateTransactionSnapshot;
  tresult_reserved : list Z;
}.

Section Install.
Context {W O B : Type}.

#[local] Abbreviation state := (install_state (W:=W) (O:=O) (B:=B)).
Abbreviation tix := (M state RibonUpdateTransactionStatus).

(** A journal operation; it sees the storage and the observer. *)
Definition on_journal {A} (m : M (W * option (RibonUpdateTransactionObserver O)) RibonUpdateTransactionStatus A)
  : tix A := fun s =>
  let '((w, o), result) := m (st_world s, st_observer s) in
  (mkInstallState w o (st_bundle s) (st_scratch s), result).

(** [install = *request->install; install.current_metadata = metadata;] *)
Definition with_metadata (r : RibonUpdateInstallRequest W B) (metadata : RibonUpdateSlotMetadata)
  : RibonUpdateInstallRequest W B :=
  mkInstallRequest (install_size r) (install_abi_version r) (install_flags r) (install_target_slot r)
    (install_authorization r) (install_bundle r) (install_provider r) (install_layout r) (Some metadata)
    (install_scratch r) (install_scratch_size r) (install_deadline_ticks r) (install_reserved r).

Definition prepare_transaction (install : RibonUpdateInstallRequest W B) : tix RibonUpdateInstallPlan := fun s =>
  (s, match ribon_update_install_prepare (Some install) (st_observer s) true with
      | inr plan => inr plan
      | inl RIBON_UPDATE_INSTALL_STATUS_AUTHORIZATION => inl RIBON_UPDATE_TRANSACTION_STATUS_AUTHORIZATION
      | inl _ => inl RIBON_UPDATE_TRANSACTION_STATUS_INSTALL
      end).

Definition install_bundle_step (install : RibonUpdateInstallRequest W B) : tix RibonUpdateInstallResult := fun s =>
  let '(s', result) := ribon_update_install_signed_bundle (Some install) true s in
  (s', match result with
       | inr installed => inr installed
       | inl RIBON_UPDATE_INSTALL_STATUS_INTERRUPTED => inl RIBON_UPDATE_TRANSACTION_STATUS_INTERRUPTED
       | inl _ => inl RIBON_UPDATE_TRANSACTION_STATUS_INSTALL
       end).

Section Steps.
Context (j : RibonUpdateTransactionJournal W) (r : RibonUpdateInstallRequest W B).

Definition target_state (c : RibonUpdateTransactionSnapshot) : Z :=
  entry_state (slot_at (snapshot_metadata c) (install_target_slot r)).

(** The first commit, unless the journal holds this installation already. *)
Definition stage_transaction (current : RibonUpdateTransactionSnapshot) (plan : RibonUpdateInstallPlan)
  : tix RibonUpdateTransactionSnapshot :=
  if (plan_resume_state plan !=? RIBON_UPDATE_SLOT_STAGING) && (plan_resume_state plan !=? RIBON_UPDATE_SLOT_VERIFIED)
  then on_journal (commit_record j (Some current) (plan_staging_metadata plan) (install_target_slot r))
  else mret current.

(** The installation and the second commit, unless the slot is verified already; with
    the totals of [installed], which is cleared otherwise. *)
Definition verify_transaction (current : RibonUpdateTransactionSnapshot)
  : tix (RibonUpdateTransactionSnapshot * (Z * Z)) :=
  if target_state current =? RIBON_UPDATE_SLOT_STAGING
  then
    installed ← install_bundle_step (with_metadata r (snapshot_metadata current));
    next ← on_journal (commit_record j (Some current) (installed_verified_metadata installed) (install_target_slot r));
    mret (next, (installed_exact_bytes installed, installed_backing_bytes installed))
  else mret (current, (0, 0)).

(** The last commit. *)
Definition pend_transaction (current : RibonUpdateTransactionSnapshot) (attempts : Z)
  : tix RibonUpdateTransactionSnapshot :=
  if target_state current !=? RIBON_UPDATE_SLOT_VERIFIED then leave RIBON_UPDATE_TRANSACTION_STATUS_STATE
  else
    match transition_pending current (install_target_slot r) attempts with
    | None => leave RIBON_UPDATE_TRANSACTION_STATUS_STATE
    | Some pending => on_journal (commit_record j (Some current) pending (install_target_slot r))
    end.

Definition transactional_result (plan : RibonUpdateInstallPlan) (totals : Z * Z)
    (snapshot : RibonUpdateTransactionSnapshot) : RibonUpdateTransactionalInstallResult :=
  mkTransactionalResult sizeof_RibonUpdateTransactionalInstallResult RIBON_UPDATE_TRANSACTION_ABI_VERSION
    (plan_resume_state plan) (install_target_slot r) (plan_component_count plan) 0 totals.1 totals.2 snapshot
    [0; 0; 0; 0].

Definition install_checked (attempts : Z) : tix RibonUpdateTransactionalInstallResult :=
  current ← on_journal (ribon_update_transaction_open (Some j));
  plan ← prepare_transaction (with_metadata r (snapshot_metadata current));
  if plan_resume_state plan =? RIBON_UPDATE_SLOT_PENDING
  then mret (transactional_result plan (0, 0) current)
  else
    staged ← stage_transaction current plan;
    verified ← verify_transaction staged;
    next ← pend_transaction verified.1 attempts;
    mret (transactional_result plan verified.2 next).
End Steps.

(** [result] is NULL or not. *)
Definition ribon_update_install_transactionally (request : option (RibonUpdateTransactionalInstallRequest W B))
    (result : bool) : tix RibonUpdateTransactionalInstallResult := fun s =>
  match request with
  | None => leave RIBON_UPDATE_TRANSACTION_STATUS_INVALID_ARGUMENT s
  | Some r =>
    match transactional_install r, transactional_journal r with
    | Some install, Some j =>
      if negb result || (transactional_size r !=? sizeof_RibonUpdateTransactionalInstallRequest) ||
         (transactional_abi_version r !=? RIBON_UPDATE_TRANSACTION_ABI_VERSION) ||
         (transactional_flags r !=? 0) || (transactional_pending_attempts r =? 0) ||
         (transactional_pending_attempts r >? 32) || negb (is_null (install_current_metadata install)) ||
         negb (bytes_zero (transactional_reserved r)) || observer_is_refused (st_observer s)
      then leave RIBON_UPDATE_TRANSACTION_STATUS_INVALID_ARGUMENT s
      else install_checked j install (transactional_pending_attempts r) s
    | _, _ => leave RIBON_UPDATE_TRANSACTION_STATUS_INVALID_ARGUMENT s
    end
  end.
End Install.
