(* ===== verification/TransactionInstallProperties.v ===== *)
(** * Updates are atomic
      ([ribon_update_install_transactionally] of [src/update/transaction.c])

    Wherever an installation is cut, the journal opens, the slot that runs is the
    one that ran, nothing outside the journal and the slot being written has
    changed, and a slot the journal calls verified or pending holds every component
    of the manifest it names. *)

From S2P Require Import Prelude.
From S2P Require Import Effects.
From S2P Require Import Buffer.
From S2P Require Import Wire.
From S2P Require Import Sha256.
From S2P Require Import Provider.
From S2P Require Import Layout.
From S2P Require Import SlotMetadata.
From S2P Require Import SlotLifecycle.
From S2P Require Import Session.
From S2P Require Import TransactionWire.
From S2P Require Import Transaction.
From S2P Require Import TransactionLogic.
From S2P Require Import TransactionCrash.
From S2P Require Import Signature.
From S2P Require Import KeyPolicy.
From S2P Require Import Manifest.
From S2P Require Import ManifestReader.
From S2P Require Import ManifestAuthorization.
From S2P Require Import Installer.
From S2P Require Import InstallerLogic.
From S2P Require Import InstallerProperties.
From S2P Require Import TransactionInstall.

#[local] Opaque record_wire selector_wire record_digest metadata_digest.

(** ** The journal and the slots are apart *)

Section Apart.
Context {W O : Type} (p : RibonUpdateStorageProvider W) `{!StorageContract p}.
Context (j : RibonUpdateTransactionJournal W) (l : RibonUpdateLayout) (Hj : journal_ready j p l).

#[local] Abbreviation jlo := (journal_base l).
#[local] Abbreviation jhi := (journal_base l + 3072).

Lemma journal_layout_wf : layout_wf l /\ layout_media_capacity_bytes l = provider_capacity_bytes p.
Proof.
  destruct Hj as [Hp Hl Hv Ht]. unfold journal_is_valid in Hv. rewrite Hp, Hl in Hv.
  destruct (_ || _) in Hv; [done|]. destruct (_ || _) in Hv; [done|].
  destruct (ribon_update_layout_identity_encode (Some l)) as [st wire] eqn:He. cbn [fst] in Hv.
  destruct st; try done. apply encode_ok_valid in He. bool_to_prop.
  split; [by apply layout_structurally_valid_wf|done].
Qed.

Lemma slot_before_journal slot : slot_hi l slot <= jlo /\ 0 <= slot_lo l slot.
Proof.
  destruct journal_layout_wf as [Hw _]. pose proof (ready_typed _ _ _ Hj) as Ht.
  pose proof (slot_region_lookup l slot Ht) as Hs.
  assert (Hjr : layout_regions l !! 9%nat = Some (journal_region l)).
  { unfold journal_region, layout_region_of. rewrite nth_lookup.
    destruct (lookup_lt_is_Some_2 (layout_regions l) 9) as [x Hx]; [rewrite (typed_regions_length l Ht); lia|].
    change (Z.to_nat (RIBON_UPDATE_REGION_UPDATE_JOURNAL - 1)) with 9%nat. by rewrite Hx. }
  unfold slot_hi, slot_lo, journal_base. split.
  - eapply tiled_ordered; [exact (wf_tiled l Hw)| |exact Hs|exact Hjr]. unfold slot_region_index. destruct (_ =? _); lia.
  - exact (tiled_offset_ge _ _ _ _ _ _ (wf_tiled l Hw) Hs).
Qed.

(** Opening depends on the journal's bytes only. *)
Lemma open_bytes_window d d' : len d = provider_capacity_bytes p -> len d' = len d -> octets (slice jlo 3072 d) ->
  slice jlo 3072 d' = slice jlo 3072 d -> open_bytes j d' = open_bytes j d.
Proof.
  intros Hd Hd' Ho E. pose proof (journal_geometry j p l Hj) as Hg.
  assert (Hw : forall o n, 0 <= o -> 0 <= n -> o + n <= 3072 -> slice (jlo + o) n d' = slice (jlo + o) n d).
  { intros o n ???. transitivity (slice o n (slice jlo 3072 d')); [by rewrite slice_slice by lia|].
    rewrite E. by rewrite slice_slice by lia. }
  assert (Hsel : forall k, 0 <= k < 2 -> slice (selector_offset j k) 512 d' = slice (selector_offset j k) 512 d).
  { intros k Hk. rewrite (selector_offset_eq j p l Hj) by lia.
    replace (jlo + 2048 + 512 * k) with (jlo + (2048 + 512 * k)) by lia. apply Hw; lia. }
  unfold open_bytes. rewrite !Hsel by lia. destruct (select_selector _ _ _) as [st|[s v]] eqn:Hs; [done|].
  apply select_selector_spec in Hs as (Hs & Hdec & _).
  assert (Hslot : 0 <= selector_record_slot v < 2).
  { assert (Hos : forall k, 0 <= k < 2 -> octets (slice (selector_offset j k) 512 d)).
    { intros k Hk. rewrite (selector_offset_eq j p l Hj) by lia.
      replace (slice (jlo + 2048 + 512 * k) 512 d) with (slice (2048 + 512 * k) 512 (slice jlo 3072 d))
        by (rewrite slice_slice by lia; f_equal; lia). by apply octets_slice. }
    apply selector_decode_typed in Hdec; [lia|destruct (s =? 0); apply Hos; lia|].
    destruct (s =? 0); rewrite (selector_offset_eq j p l Hj) by lia; apply len_slice; lia. }
  f_equal. rewrite (record_offset_eq j p l Hj) by done. apply Hw; lia.
Qed.

(** The journal holds [c], as a property of media that ignores the slots. *)
Definition journal_holds (c : RibonUpdateTransactionSnapshot) (d : bytes) : Prop :=
  len d = provider_capacity_bytes p /\ octets (slice jlo 3072 d) /\ open_bytes j d = inr c.

Lemma journal_holds_ignores c slot : ignores (slot_lo l slot) (slot_hi l slot) (journal_holds c).
Proof.
  intros d d' [Hl Ho] (H1 & H2 & H3). pose proof (slot_before_journal slot). pose proof (journal_geometry j p l Hj).
  assert (E : slice jlo 3072 d' = slice jlo 3072 d) by (apply Ho; lia).
  split_and!; [lia|by rewrite E|]. rewrite <- H3. by apply open_bytes_window.
Qed.

Lemma journal_holds_media c w : all_media p (fun d => open_bytes j d = inr c) w -> all_media p (journal_holds c) w.
Proof.
  intros H d Hd. destruct (media_state_bytes p w d Hd) as [Hl Ho]. split_and!; [done|by apply octets_slice|by apply H].
Qed.

(** *** A commit changes nothing outside the journal *)

Section Frame.
Context (F : bytes -> Prop) (HF : ignores jlo jhi F).

Definition keeps {A} (m : M (W * option (RibonUpdateTransactionObserver O)) RibonUpdateTransactionStatus A) : Prop :=
  otriple (all_media p F) m (fun _ => all_media p F) (fun _ _ => all_media p F).

Lemma keeps_bind {A A'} (m : M _ _ A) (f : A -> M _ _ A') : keeps m -> (forall a, keeps (f a)) -> keeps (m ≫= f).
Proof. intros Hm Hf. eapply otriple_bind; [exact Hm|exact Hf]. Qed.

Lemma keeps_lift {A A'} r (a : A) (f : A -> M _ _ A') : r = inr a -> keeps (f a) -> keeps (lift r ≫= f).
Proof. intros -> H w o Hw. exact (H w o Hw). Qed.

Lemma keeps_ret {A} (a : A) : keeps (mret a).
Proof. by intros w o Hw. Qed.

Lemma keeps_leave_if c st : keeps (leave_if c st).
Proof. intros w o Hw. by destruct c. Qed.

Lemma keeps_observe state generation operation boundary : keeps (OBSERVE state generation operation boundary).
Proof. by apply otriple_observe. Qed.

Lemma keeps_write off b : jlo <= off -> off + len b <= jhi -> octets b -> keeps (provider_write_exact j off b).
Proof.
  pose proof (journal_geometry j p l Hj) as Hg. pose proof (len_nonneg b).
  intros H1 H2 Hb. apply (otriple_write p j l Hj); [lia..|done|]. intros w w' Hw Hst.
  assert (Hall : all_media p F w').
  { intros d Hd. apply Hst in Hd as (d0 & r & Hd0 & -> & Hr). pose proof (media_state_bytes p w d0 Hd0) as [Hl0 _].
    assert (Hlr : len r = len b) by (eapply (write_length p); [|exact Hr]; apply len_slice; lia).
    eapply HF; [apply store_outside; lia|by apply Hw]. }
  by split.
Qed.

Lemma keeps_flush : keeps (Transaction.provider_flush j).
Proof.
  apply (otriple_flush p j l Hj). intros w w' Hw _ Hst.
  assert (Hall : all_media p F w') by (intros d Hd; by apply Hw, Hst). by split.
Qed.

Lemma keeps_read off size : 0 <= off -> 0 <= size -> off + size <= provider_capacity_bytes p ->
  keeps (provider_read_exact j off size).
Proof.
  intros H1 H2 H3 w o Hw.
  pose proof (otriple_read (O:=O) p j l Hj (all_media p F) off size (fun _ _ => all_media p F)
    (all_media_steady p F) H1 H2 H3 (fun _ _ _ _ H => H) w o Hw) as H.
  destruct (provider_read_exact j off size (w, o)) as [[w' o'] [st|b]]; destruct H as [Ho H]; (split; [done|]);
    [exact H|exact (proj1 H)].
Qed.

Lemma keeps_open : keeps (ribon_update_transaction_open (Some j)).
Proof.
  intros w o Hw.
  pose proof (otriple_open (O:=O) p j l Hj (all_media p F) (fun _ _ => all_media p F)
    (all_media_steady p F) (fun _ _ _ _ H => H) (fun _ _ _ H _ => H) w o Hw) as H.
  destruct (ribon_update_transaction_open (Some j) (w, o)) as [[w' o'] [st|b]]; destruct H as [Ho H]; (split; [done|]);
    [exact H|exact (proj1 H)].
Qed.

Lemma keeps_commit c m target : match c with Some c => snapshot_ok c | None => True end -> metadata_typed m -> 0 <= target ->
  keeps (commit_record j c m target).
Proof.
  intros Hc Hm Ht. pose proof (journal_geometry j p l Hj) as Hg.
  destruct (commit_plan c m target) as [st|[[[[rs ss] g] record] selector]] eqn:Hp.
  { intros w o Hw. by rewrite (commit_refused j _ _ _ _ _ Hp). }
  apply commit_plan_ok in Hp as Hplan; [|done..]. destruct Hplan as [Hok Heq].
  destruct (previous c) as [[[pg pd] rs'] ss'] eqn:Hprev. destruct Heq as (-> & -> & -> & -> & ->).
  destruct (plan_slots c m target Hok pg pd rs' ss' Hprev) as [Hrs Hss].
  destruct (plan_wire c m target Hm Hok pg pd rs' ss' Hprev) as [[Hl1 Ho1] [Hl2 Ho2]].
  pose proof (record_offset_eq j p l Hj rs' Hrs) as Hro. pose proof (selector_offset_eq j p l Hj ss' Hss) as Hso.
  unfold commit_record. eapply keeps_lift; [exact Hp|]. cbv beta iota zeta.
  repeat first [ apply keeps_open | apply keeps_bind; [|intros ?] | apply keeps_observe | apply keeps_flush | apply keeps_leave_if
    | apply keeps_write; [lia..|done] | apply keeps_ret
    | apply keeps_read; unfold RIBON_UPDATE_TRANSACTION_RECORD_BYTES; lia ].
Qed.
End Frame.
End Apart.

(** ** The three commits *)

Section Install.
Context {W O B : Type} (p : RibonUpdateStorageProvider W) `{!StorageContract p} `{!EraseContract p}.
Context (j : RibonUpdateTransactionJournal W) (l : RibonUpdateLayout) (Hj : journal_ready j p l).
Context (Htorn : torn_selectors_rejected p).
Context (bundle : RibonUpdateBundleSource B) (b envelope : bytes) (e : RibonUpdateManifestExpectation).
Context (ks : RibonKeyPolicyStore) (sp : RibonSignatureProvider) (r : RibonUpdateInstallRequest W B).
Context (Hready : forall m, metadata_typed m -> install_ready p l bundle b envelope e ks sp (with_metadata r m) m).

#[local] Abbreviation target := (install_target_slot r).
#[local] Abbreviation state := (install_state (W:=W) (O:=O) (B:=B)).

(** Every medium opens to [c] and is in [F]. *)
Definition holding (c : RibonUpdateTransactionSnapshot) (F : bytes -> Prop) (s : state) : Prop :=
  all_media p (fun d => open_bytes j d = inr c) (st_world s) /\ all_media p F (st_world s) /\
  len (st_scratch s) = install_scratch_size r /\ octets (st_scratch s).

Lemma holding_ok c F s : holding c F s -> snapshot_ok c.
Proof.
  intros [H _]. apply (open_snapshot_ok p j l Hj (content (st_world s))); [apply (media_state_bytes p (st_world s))|apply H];
    by left.
Qed.

Lemma commit_step c m F : metadata_typed m -> 0 <= target -> ignores (journal_base l) (journal_base l + 3072) F ->
  triple (holding c F) (on_journal (commit_record j (Some c) m target))
    (fun c' s => c' = committed (Some c) m target /\ holding c' F s)
    (fun _ s => all_media p (fun d => (open_bytes j d = inr c \/ open_bytes j d = inr (committed (Some c) m target)) /\ F d)
                  (st_world s)).
Proof.
  intros Hm Ht HF s Hs. pose proof (holding_ok c F s Hs) as Hc. destruct Hs as (Ho & Hf & Hlen & Hoct).
  pose proof (commit_some_triple (O:=O) p j l Hj c m target Htorn Hm Ht (st_world s) (st_observer s) Ho) as H1.
  pose proof (keeps_commit p j l Hj F HF (Some c) m target Hc Hm Ht (st_world s) (st_observer s) Hf) as H2.
  unfold on_journal. destruct (commit_record j (Some c) m target _) as [[w o] [st|c']];
    destruct H1 as [_ H1], H2 as [_ H2].
  - intros d Hd. split; [by apply H1|by apply H2].
  - destruct H1 as [-> H1]. by split_and!.
Qed.

(** The installer runs on a journal that stays as it is. *)
Lemma install_step c F : ignores (slot_lo l target) (slot_hi l target) F ->
  triple (holding c F) (install_bundle_step (with_metadata r (snapshot_metadata c)))
    (fun res s => exists v d, install_done l b (with_metadata r (snapshot_metadata c)) (snapshot_metadata c) res v /\
       slot_holds p l target v d /\ F d /\ holding c (fun d' => d' = d) s)
    (fun _ s => all_media p (fun d => open_bytes j d = inr c /\ F d) (st_world s)).
Proof.
  intros HF s Hs. pose proof (holding_ok c F s Hs) as Hc. destruct Hs as (Ho & Hf & Hlen & Hoct).
  set (rm := with_metadata r (snapshot_metadata c)).
  assert (HF' : ignores (slot_lo l (install_target_slot rm)) (slot_hi l (install_target_slot rm))
    (fun d => journal_holds p j l c d /\ F d)).
  { intros d d' Hd [H1 H2]. split; [by eapply journal_holds_ignores|by eapply HF]. }
  assert (Hq : quiet p rm (fun d => journal_holds p j l c d /\ F d) s).
  { split; [|done]. intros d Hd. split; [by apply (journal_holds_media p j l c (st_world s) Ho)|by apply Hf]. }
  pose proof (install_spec p l bundle b envelope e ks sp rm (snapshot_metadata c) _
    (Hready _ (proj1 (ok_metadata c Hc))) HF' s Hq) as Hspec.
  unfold install_bundle_step. destruct (ribon_update_install_signed_bundle (Some rm) true s) as [s' [st|res]].
  - assert (Hu : all_media p (fun d => open_bytes j d = inr c /\ F d) (st_world s')).
    { intros d Hd. destruct (Hspec d Hd) as [(_ & _ & H1) H2]. done. }
    by destruct st.
  - destruct Hspec as (v & d & Hdone & [(_ & _ & H1) H2] & (Hw & Hlen' & Hoct') & Hheld). exists v, d.
    split_and!; try done. split; [|done]. intros d' Hd'. by rewrite (Hw d' Hd').
Qed.

(** The journal claims that the slot holds the manifest's image. *)
Definition image_claimed (c : RibonUpdateTransactionSnapshot) : Prop :=
  (entry_state (slot_at (snapshot_metadata c) target) = RIBON_UPDATE_SLOT_VERIFIED \/
   entry_state (slot_at (snapshot_metadata c) target) = RIBON_UPDATE_SLOT_PENDING) /\
  entry_manifest_digest (slot_at (snapshot_metadata c) target) = ribon_security_sha256 b.

(** Then it does. *)
Definition honest (c : RibonUpdateTransactionSnapshot) (d : bytes) : Prop :=
  image_claimed c -> forall v, ribon_update_manifest_open (Some b) (len b) true = inr v -> slot_holds p l target v d.

(** A medium an installation may leave, that started from [c]. *)
Definition safe (c : RibonUpdateTransactionSnapshot) (F : bytes -> Prop) (d : bytes) : Prop :=
  F d /\ exists c', open_bytes j d = inr c' /\ same_running (snapshot_metadata c) (snapshot_metadata c') /\ honest c' d.

Lemma slot_holds_ignores v : octets b -> ribon_update_manifest_open (Some b) (len b) true = inr v ->
  ignores (journal_base l) (journal_base l + 3072) (fun d => len d = provider_capacity_bytes p /\ slot_holds p l target v d).
Proof.
  intros Hb Ho d d' [Hlen Hout] [Hl Hh]. split; [congruence|]. intros k c Hc.
  destruct (Hh k c Hc) as (H0 & H1 & H2 & H3). split_and!; try done. rewrite <- H3. f_equal.
  destruct (opened_component b v k c Hb Ho Hc) as (_ & Hoff & Hex & _).
  pose proof (slot_before_journal p j l Hj target). apply Hout; lia.
Qed.

Lemma committed_metadata c m t : slot_at (snapshot_metadata (committed (Some c) m t)) = slot_at m /\
  metadata_active_slot (snapshot_metadata (committed (Some c) m t)) = metadata_active_slot m /\
  metadata_pending_slot (snapshot_metadata (committed (Some c) m t)) = metadata_pending_slot m.
Proof. done. Qed.

Lemma same_running_committed m0 c m t : same_running m0 m ->
  same_running m0 (snapshot_metadata (committed (Some c) m t)).
Proof. done. Qed.

Lemma same_running_refl m : same_running m m.
Proof. done. Qed.

(** *** The last commit *)

(** The slot is verified, and every medium holds the image. *)
Definition verified (c0 c : RibonUpdateTransactionSnapshot) (F : bytes -> Prop) (v : RibonUpdateManifestView) (s : state) : Prop :=
  holding c (fun d => F d /\ slot_holds p l target v d) s /\
  same_running (snapshot_metadata c0) (snapshot_metadata c) /\
  entry_manifest_digest (slot_at (snapshot_metadata c) target) = ribon_security_sha256 b.

(** What a finished installation leaves. *)
Definition pended (c0 c : RibonUpdateTransactionSnapshot) (F : bytes -> Prop) (s : state) : Prop :=
  all_media p (fun d => open_bytes j d = inr c /\ safe c0 F d /\
    forall v, ribon_update_manifest_open (Some b) (len b) true = inr v -> slot_holds p l target v d) (st_world s) /\
  entry_state (slot_at (snapshot_metadata c) target) = RIBON_UPDATE_SLOT_PENDING /\
  entry_manifest_digest (slot_at (snapshot_metadata c) target) = ribon_security_sha256 b.

Section Run.
Context (c0 : RibonUpdateTransactionSnapshot) (F : bytes -> Prop).
Context (HFs : ignores (slot_lo l target) (slot_hi l target) F).
Context (HFj : ignores (journal_base l) (journal_base l + 3072) F).
Context (Hb : octets b) (Ht : 0 <= target < 2).

Lemma frame_ignores v : ribon_update_manifest_open (Some b) (len b) true = inr v ->
  ignores (journal_base l) (journal_base l + 3072)
    (fun d => F d /\ (len d = provider_capacity_bytes p /\ slot_holds p l target v d)).
Proof.
  intros Ho d d' Hd [H1 H2]. split; [by eapply HFj|]. by eapply (slot_holds_ignores v Hb Ho).
Qed.

(** A medium that holds the image is safe, whatever the journal says of the slot. *)
Lemma holds_safe v c d : ribon_update_manifest_open (Some b) (len b) true = inr v ->
  F d -> slot_holds p l target v d -> open_bytes j d = inr c ->
  same_running (snapshot_metadata c0) (snapshot_metadata c) -> safe c0 F d.
Proof.
  intros Ho Hf Hh Hc Hr. split; [done|]. exists c. split_and!; [done|exact Hr|].
  intros _ v' Hv'. by assert (v' = v) as -> by congruence.
Qed.

(** So is one whose journal does not claim it. *)
Lemma staging_safe c d : F d -> open_bytes j d = inr c -> same_running (snapshot_metadata c0) (snapshot_metadata c) ->
  entry_state (slot_at (snapshot_metadata c) target) = RIBON_UPDATE_SLOT_STAGING -> safe c0 F d.
Proof.
  intros Hf Hc Hr Hs. split; [done|]. exists c. split_and!; [done|exact Hr|].
  intros [Hclaim _]. rewrite Hs in Hclaim. by destruct Hclaim.
Qed.

Lemma pend_spec c v attempts : ribon_update_manifest_open (Some b) (len b) true = inr v -> 0 <= attempts <= 32 ->
  triple (verified c0 c F v) (pend_transaction j r c attempts)
    (fun c' => pended c0 c' F) (fun _ s => all_media p (safe c0 F) (st_world s)).
Proof.
  intros Ho Ha s (Hh & Hr & Hd).
  assert (Hsafe : all_media p (safe c0 F) (st_world s)).
  { intros d Hm. destruct Hh as (Hc & Hf & _). destruct (Hf d Hm). eapply holds_safe; eauto. }
  unfold pend_transaction. destruct (Z.eqb_spec (target_state r c) RIBON_UPDATE_SLOT_VERIFIED) as [Hst|]; [|exact Hsafe].
  cbn [negb]. destruct (transition_pending c target attempts) as [m|] eqn:Hp; [|exact Hsafe].
  pose proof (holding_ok c _ s Hh) as Hok. unfold transition_pending in Hp.
  destruct (ribon_update_slot_metadata_transition _ _) as [st m'] eqn:Htr. destruct st; try done. injection Hp as ->.
  apply transition_installs in Htr as (Hm & Hrun & _ & Hstate & Hid); [|apply Hok| |done].
  2:{ apply entry_transition_typed; [apply slot_at_typed; [apply Hok|lia]|..]; apply word32; states; unfold UINT32_MAX; lia. }
  cbn in Hstate. injection Hid as _ Hdig _ _.
  assert (Hh' : holding c (fun d => F d /\ (len d = provider_capacity_bytes p /\ slot_holds p l target v d)) s).
  { destruct Hh as (Hc & Hf & Hs). split_and!; [done| |apply Hs|apply Hs]. intros d Hmd.
    destruct (Hf d Hmd). split_and!; [done|apply (media_state_bytes p (st_world s) d Hmd)|done]. }
  pose proof (commit_step c m _ Hm (proj1 Ht) (frame_ignores v Ho) s Hh') as H.
  pose proof (same_running_trans _ _ _ Hr Hrun) as Hr'.
  destruct (on_journal _ s) as [s' [st|c']].
  - intros d Hmd. destruct (H d Hmd) as [Hopen (Hf & _ & Hsl)].
    destruct Hopen as [Hopen|Hopen]; eapply holds_safe; eauto.
  - destruct H as [-> (Hc & Hf & _)]. split_and!; [|exact Hstate|by rewrite <- Hd].
    intros d Hmd. destruct (Hf d Hmd) as (Hfd & _ & Hsl). split_and!; [by apply Hc| |].
    + eapply holds_safe; eauto.
    + intros v' Hv'. by assert (v' = v) as -> by congruence.
Qed.

(** *** The installation and the second commit *)

(** The journal holds this installation: it is staging, or every medium holds the
    image already. *)
Definition staged (c : RibonUpdateTransactionSnapshot) (v : RibonUpdateManifestView) (s : state) : Prop :=
  holding c F s /\ same_running (snapshot_metadata c0) (snapshot_metadata c) /\
  entry_manifest_digest (slot_at (snapshot_metadata c) target) = ribon_security_sha256 b /\
  (entry_state (slot_at (snapshot_metadata c) target) = RIBON_UPDATE_SLOT_STAGING \/
   entry_state (slot_at (snapshot_metadata c) target) = RIBON_UPDATE_SLOT_VERIFIED /\
     all_media p (slot_holds p l target v) (st_world s)).

Lemma verify_installed c v res d s : ribon_update_manifest_open (Some b) (len b) true = inr v ->
  same_running (snapshot_metadata c0) (snapshot_metadata c) ->
  entry_state (slot_at (snapshot_metadata c) target) = RIBON_UPDATE_SLOT_STAGING ->
  metadata_typed (installed_verified_metadata res) -> same_running (snapshot_metadata c) (installed_verified_metadata res) ->
  entry_manifest_digest (slot_at (installed_verified_metadata res) target) = ribon_security_sha256 b ->
  slot_holds p l target v d -> F d -> holding c (fun d' => d' = d) s ->
  match on_journal (commit_record j (Some c) (installed_verified_metadata res) target) s with
  | (s', inl _) => all_media p (safe c0 F) (st_world s')
  | (s', inr c') => verified c0 c' F v s'
  end.
Proof.
  intros Ho Hr Hst Hm Hrun Hdig Hsl Hf (Hc & Hw & Hs).
  assert (Hh : holding c (fun d => F d /\ (len d = provider_capacity_bytes p /\ slot_holds p l target v d)) s).
  { split_and!; [done| |apply Hs|apply Hs]. intros d' Hd'. pose proof (media_state_bytes p (st_world s) d' Hd') as [Hl _].
    rewrite (Hw d' Hd') in *. done. }
  pose proof (commit_step c _ _ Hm (proj1 Ht) (frame_ignores v Ho) s Hh) as H.
  pose proof (same_running_trans _ _ _ Hr Hrun) as Hr'. destruct (on_journal _ s) as [s' [st|c']].
  - intros d' Hd'. destruct (H d' Hd') as [Hopen (Hfd & _ & Hsd)].
    destruct Hopen as [Hopen|Hopen]; eapply holds_safe; eauto.
  - destruct H as [-> (Hc' & Hf' & Hs')]. split_and!; [|exact Hr'|exact Hdig].
    split_and!; [done| |apply Hs'|apply Hs']. intros d' Hd'. destruct (Hf' d' Hd') as (? & _ & ?). done.
Qed.

Lemma verify_spec c v : ribon_update_manifest_open (Some b) (len b) true = inr v ->
  triple (staged c v) (verify_transaction j r c)
    (fun res => verified c0 res.1 F v) (fun _ s => all_media p (safe c0 F) (st_world s)).
Proof.
  intros Ho s (Hh & Hr & Hd & Hst). unfold verify_transaction, target_state.
  destruct (Z.eqb_spec (entry_state (slot_at (snapshot_metadata c) target)) RIBON_UPDATE_SLOT_STAGING) as [Es|Hne].
  - pose proof (install_step c F HFs s Hh) as Hi. unfold mbind at 1, M_bind at 1.
    destruct (install_bundle_step _ s) as [s' [st|res]].
    { intros d Hd'. destruct (Hi d Hd'). eapply staging_safe; eauto. }
    destruct Hi as (v' & d & Hdone & Hsl & Hf & Hw). destruct Hdone as [(dec & Hauth) _ _ _ [Hm Hrun] _ (_ & Hdig)].
    pose proof (Hready _ (proj1 (ok_metadata c (holding_ok c F s Hh)))) as Hrd.
    destruct (authorize_inv _ _ _ _ _ _ _ _ (ready_authorization _ _ _ _ _ _ _ _ _ _ Hrd) Hauth) as (Ho' & _).
    assert (v' = v) as -> by congruence. clear Ho'.
    pose proof (verify_installed c v res d s' Ho Hr Es Hm Hrun Hdig Hsl Hf Hw) as Hv.
    unfold mbind, M_bind. destruct (on_journal _ s') as [s'' [st|c']]; exact Hv.
  - destruct Hst as [Hst|[Hst Hall]]; [done|]. destruct Hh as (Hc & Hf & Hs). split_and!; [|exact Hr|exact Hd].
    split_and!; [done| |apply Hs|apply Hs]. intros d Hmd. split; [by apply Hf|by apply Hall].
Qed.

(** *** The first commit *)

Lemma stage_spec plan v : ribon_update_manifest_open (Some b) (len b) true = inr v ->
  plan_facts l b (with_metadata r (snapshot_metadata c0)) (snapshot_metadata c0) v plan ->
  plan_resume_state plan <> RIBON_UPDATE_SLOT_PENDING ->
  triple (fun s => holding c0 F s /\ all_media p (honest c0) (st_world s)) (stage_transaction j r c0 plan)
    (fun c => staged c v) (fun _ s => all_media p (safe c0 F) (st_world s)).
Proof.
  intros Ho [_ _ _ _ [Hm Hrun] Hres Hid Hst] Hnp s [Hh Hhon]. unfold stage_transaction. cbn in Hid, Hst, Hres.
  injection Hid as _ Hid _ _.
  destruct Hst as [[Hold Hnew]|[Hold Heq]].
  - assert (Hc : (plan_resume_state plan !=? RIBON_UPDATE_SLOT_STAGING) &&
      (plan_resume_state plan !=? RIBON_UPDATE_SLOT_VERIFIED) = true) by (states; destruct Hold as [->|[->| ->]]; done).
    rewrite Hc. pose proof (commit_step c0 _ F Hm (proj1 Ht) HFj s Hh) as H. destruct (on_journal _ s) as [s' [st|c']].
    + intros d Hd. destruct (H d Hd) as [[Hopen|Hopen] Hf].
      * split; [done|]. exists c0. split_and!; [done|apply same_running_refl|].
        intros [Hclaim _]. rewrite <- Hres in Hclaim. states. destruct Hclaim, Hold as [|[|]]; congruence.
      * eapply staging_safe; eauto.
    + destruct H as [-> H]. split_and!; [exact H|exact Hrun|exact Hid|by left].
  - destruct Hold as [Es|[Es|Es]]; [| |done]; rewrite Es; cbn [negb andb]; rewrite Heq in Hid; rewrite Es in Hres.
    + split_and!; [done|apply same_running_refl|exact Hid|left; done].
    + split_and!; [done|apply same_running_refl|exact Hid|right]. split; [done|]. intros d Hd.
      apply (Hhon d Hd); [|done]. split; [by left|done].
Qed.

End Run.

(** ** The whole request *)

Lemma open_step c F : triple (fun s => holding c F s /\ all_media p (honest c) (st_world s))
  (on_journal (ribon_update_transaction_open (Some j)))
  (fun c' s => c' = c /\ holding c F s /\ all_media p (honest c) (st_world s))
  (fun _ s => all_media p (safe c F) (st_world s)).
Proof.
  intros s [(Ho & Hf & Hs) Hh]. unfold on_journal.
  set (P := all_media p (fun d => open_bytes j d = inr c /\ F d /\ honest c d)).
  assert (HP : P (st_world s)) by (intros d Hd; split_and!; [by apply Ho|by apply Hf|by apply Hh]).
  pose proof (otriple_open (O:=O) p j l Hj P (fun _ _ => P) (all_media_steady p _) (fun _ _ _ _ H => H)
    (fun _ _ _ H _ => H) (st_world s) (st_observer s) HP) as H.
  destruct (ribon_update_transaction_open (Some j) _) as [[w o] [st|c']]; destruct H as [_ H].
  - intros d Hd. destruct (H d Hd) as (H1 & H2 & H3). split; [done|]. exists c. by split_and!.
  - destruct H as [H Hc]. destruct (H (content w) (or_introl eq_refl)) as (H1 & _). split; [congruence|].
    split; [|intros d Hd; by apply H]. split_and!; [intros d Hd; by apply H|intros d Hd; by apply H|apply Hs|apply Hs].
Qed.

(** What a finished request has established. *)
Definition completed (c : RibonUpdateTransactionSnapshot) (F : bytes -> Prop)
    (result : RibonUpdateTransactionalInstallResult) (s : state) : Prop :=
  pended c (tresult_snapshot result) F s /\
  exists v dec, ribon_update_manifest_authorize (Some (install_authorization r)) true true = inr (v, dec).

Lemma checked_spec c F attempts : octets b ->
  ignores (slot_lo l target) (slot_hi l target) F -> ignores (journal_base l) (journal_base l + 3072) F ->
  0 <= attempts <= 32 ->
  triple (fun s => holding c F s /\ all_media p (honest c) (st_world s)) (install_checked j r attempts)
    (completed c F) (fun _ s => all_media p (safe c F) (st_world s)).
Proof.
  intros Hb HFs HFj Ha. unfold install_checked. eapply triple_bind; [apply open_step|intros c'].
  apply triple_pure. intros ->. intros s Hs. unfold mbind at 1, M_bind at 1, prepare_transaction.
  assert (Hsafe : all_media p (safe c F) (st_world s)).
  { intros d Hd. destruct Hs as [(Ho & Hf & _) Hh]. split; [by apply Hf|]. exists c.
    split_and!; [by apply Ho|apply same_running_refl|by apply Hh]. }
  destruct (ribon_update_install_prepare _ _ _) as [st|plan] eqn:Hprep; [by destruct st|].
  pose proof (holding_ok c F s (proj1 Hs)) as Hok. pose proof (Hready _ (proj1 (ok_metadata c Hok))) as Hrd.
  destruct (prepare_facts p l bundle b envelope e ks sp _ _ _ plan Hrd Hprep) as (v & dec & Hauth & _ & Hf).
  pose proof (fact_open _ _ _ _ _ _ Hf) as Ho. destruct (fact_target _ _ _ _ _ _ Hf) as [Ht _]. cbn in Ht, Hauth.
  destruct (Z.eqb_spec (plan_resume_state plan) RIBON_UPDATE_SLOT_PENDING) as [Hp|Hnp].
  - destruct Hf as [_ _ _ _ _ Hres Hid Hst]. cbn in *.
    assert (Hst' : plan_staging_metadata plan = snapshot_metadata c).
    { destruct Hst as [[Hold _]|[_ Heq]]; [|done]. rewrite Hp in Hold. states. destruct Hold as [|[|]]; done. }
    rewrite Hst' in Hid. injection Hid as _ Hid _ _. rewrite Hp in Hres.
    split; [|by exists v, dec]. split_and!; [|done|done]. intros d Hd. split_and!; [by apply Hs|by apply Hsafe|].
    intros v' Hv'. apply (proj2 Hs d Hd); [|done]. split; [by right|done].
  - revert s Hs Hsafe Hprep. intros s Hs _ _.
    assert (Hrun : triple (fun s => holding c F s /\ all_media p (honest c) (st_world s))
      (staged' ← stage_transaction j r c plan; verified' ← verify_transaction j r staged';
       next ← pend_transaction j r verified'.1 attempts; mret (transactional_result r plan verified'.2 next))
      (completed c F) (fun _ s => all_media p (safe c F) (st_world s))).
    { eapply triple_bind; [by apply (stage_spec c F HFj Ht plan v Ho Hf Hnp)|intros c1].
      eapply triple_bind; [by apply (verify_spec c F HFs HFj Hb Ht c1 v Ho)|intros [c2 totals]].
      eapply triple_bind; [by apply (pend_spec c F HFj Hb Ht c2 v attempts Ho Ha)|intros c3].
      apply triple_ret. intros s1 Hs1. split; [exact Hs1|by exists v, dec]. }
    exact (Hrun s Hs).
Qed.

(** ** Properties *)

(** Outside the journal and the slot being written. *)
Definition elsewhere (d d' : bytes) : Prop :=
  len d' = len d /\
  forall o n, 0 <= o -> 0 <= n -> o + n <= len d ->
    o + n <= slot_lo l target \/ slot_hi l target <= o ->
    o + n <= journal_base l \/ journal_base l + 3072 <= o -> slice o n d' = slice o n d.

Lemma elsewhere_slot w : ignores (slot_lo l target) (slot_hi l target)
  (fun d => exists d0, media_state p w d0 /\ elsewhere d0 d).
Proof.
  intros d d' [Hl Ho] (d0 & Hd0 & Hl0 & He). exists d0. split; [done|]. split; [congruence|].
  intros o n ?????. rewrite Ho by (done || lia). by apply He.
Qed.

Lemma elsewhere_journal w : ignores (journal_base l) (journal_base l + 3072)
  (fun d => exists d0, media_state p w d0 /\ elsewhere d0 d).
Proof.
  intros d d' [Hl Ho] (d0 & Hd0 & Hl0 & He). exists d0. split; [done|]. split; [congruence|].
  intros o n ?????. rewrite Ho by (done || lia). by apply He.
Qed.

(** The request names this journal and this installation. *)
Record transaction_ready (t : RibonUpdateTransactionalInstallRequest W B) (c : RibonUpdateTransactionSnapshot)
    (s : state) : Prop := {
  ready_request : transactional_install t = Some r /\ transactional_journal t = Some j;
  ready_attempts : 0 <= transactional_pending_attempts t;
  ready_scratch : len (st_scratch s) = install_scratch_size r /\ octets (st_scratch s);
  ready_media : forall d, media_state p (st_world s) d -> open_bytes j d = inr c /\ honest c d;
}.

Lemma transaction_spec t c s s' res : transaction_ready t c s ->
  ribon_update_install_transactionally (Some t) true s = (s', res) ->
  let F := fun d => exists d0, media_state p (st_world s) d0 /\ elsewhere d0 d in
  match res with
  | inr result => completed c F result s'
  | inl _ => all_media p (safe c F) (st_world s')
  end.
Proof.
  intros [[Hi Hjr] Ha Hs Hm] H F. unfold ribon_update_install_transactionally in H. rewrite Hi, Hjr in H.
  assert (Hf : all_media p F (st_world s)) by (intros d Hd; exists d; done).
  destruct (_ || _) eqn:G in H.
  { injection H as <- <-. intros d Hd. split; [by apply Hf|]. exists c. destruct (Hm d Hd).
    split_and!; [done|apply same_running_refl|done]. }
  bool_to_prop.
  pose proof (checked_spec c F (transactional_pending_attempts t)) as Hspec.
  assert (Hb : octets b).
  { assert (Hc : snapshot_ok c).
    { apply (open_snapshot_ok p j l Hj (content (st_world s)));
        [apply (media_state_bytes p (st_world s))|apply Hm]; by left. }
    pose proof (Hready _ (proj1 (ok_metadata c Hc))) as Hrd.
    apply (names_manifest _ _ _ _ _ _ (ready_authorization _ _ _ _ _ _ _ _ _ _ Hrd)). }
  specialize (Hspec Hb (elsewhere_slot _) (elsewhere_journal _) ltac:(lia) s).
  rewrite H in Hspec. assert (Hpre : holding c F s /\ all_media p (honest c) (st_world s)).
  { split; [|intros d Hd; by apply Hm]. split_and!; [intros d Hd; by apply Hm|done|apply Hs|apply Hs]. }
  specialize (Hspec Hpre). by destruct res.
Qed.

(** C1: An update is atomic.  Whatever the request returns, and wherever a power cut or
    the observer stops it, every medium it can leave reopens; the slot that runs is
    the one that ran, with its entry unchanged; no byte outside the journal and the
    slot being written has changed; and a slot the journal calls verified or pending
    under this manifest holds every component of it. *)
Theorem update_atomic t c s s' res :
  transaction_ready t c s ->
  ribon_update_install_transactionally (Some t) true s = (s', res) ->
  forall d, media_state p (st_world s') d ->
  (exists d0, media_state p (st_world s) d0 /\ elsewhere d0 d) /\
  exists c', open_bytes j d = inr c' /\ same_running (snapshot_metadata c) (snapshot_metadata c') /\ honest c' d.
Proof.
  intros Ht H d Hd. pose proof (transaction_spec t c s s' res Ht H) as Hspec. cbn zeta in Hspec.
  destruct res as [st|result]; [by apply Hspec|]. destruct Hspec as [[Hall _] _].
  destruct (Hall d Hd) as (_ & [Hf Hs] & _). done.
Qed.

End Install.
