(* ===== verification/InstallFixture.v ===== *)
(** * A concrete installation

    The signed kernel of the concrete manifest goes to slot B of the in-memory media;
    the properties of the installer and of the transactional update apply to it. *)

From S2P Require Import Prelude.
From S2P Require Import Effects.
From S2P Require Import Buffer.
From S2P Require Import Wire.
From S2P Require Import Sha256.
From S2P Require Import Image.
From S2P Require Import Provider.
From S2P Require Import Layout.
From S2P Require Import SlotMetadata.
From S2P Require Import MemoryProvider.
From S2P Require Import Session.
From S2P Require Import TransactionWire.
From S2P Require Import Transaction.
From S2P Require Import TransactionLogic.
From S2P Require Import TransactionCrash.
From S2P Require Import TransactionProperties.
From S2P Require Import JournalInterface.
From S2P Require Import KeyPolicyFixture.
From S2P Require Import Manifest.
From S2P Require Import ManifestAuthorization.
From S2P Require Import ManifestFixture.
From S2P Require Import Installer.
From S2P Require Import InstallerLogic.
From S2P Require Import InstallerProperties.
From S2P Require Import InstallerLiveness.
From S2P Require Import TransactionInstall.
From S2P Require Import TransactionInstallProperties.

(** A bundle in memory. *)
Definition memory_read (image : bytes) (b : unit) (offset : Z) (buffer : bytes) (deadline : Z) : unit * (Z * bytes * Z) :=
  if (0 <=? offset) && (offset + len buffer <=? len image)
  then (b, (0, slice offset (len buffer) image, len buffer))
  else (b, (-1, buffer, 0)).

Definition memory_bundle (image : bytes) : RibonUpdateBundleSource unit :=
  mkBundleSource sizeof_RibonUpdateBundleSource RIBON_UPDATE_INSTALLER_ABI_VERSION 0 0 (len image) 1
    (Some (memory_read image)) [0; 0; 0; 0].

Lemma memory_bundle_typed image : octets image -> bundle_typed (memory_bundle image).
Proof.
  intros Hi read [= <-] b offset buffer deadline b' status out transferred. unfold memory_read.
  destruct (_ && _) eqn:G; intros [= <- <- <- <-] Hb; [|done]. bool_to_prop.
  split; [apply len_slice; lia || apply len_nonneg|by apply octets_slice].
Qed.

Definition sample_bundle : RibonUpdateBundleSource unit := memory_bundle sample_kernel.

(** The request without its metadata, which the transaction supplies. *)
Definition sample_install : RibonUpdateInstallRequest (media 8704) unit :=
  mkInstallRequest sizeof_RibonUpdateInstallRequest RIBON_UPDATE_INSTALLER_ABI_VERSION 0 1 sample_authorization
    (Some sample_bundle) (Some sample_provider) (Some sample_layout) None 4096 512 1 [0; 0; 0; 0].

Lemma sample_install_ready m : metadata_typed m ->
  install_ready sample_provider sample_layout sample_bundle sample_manifest signed_envelope sample_expectation
    sample_store sample_signatures (with_metadata sample_install m) m.
Proof.
  intros Hm. constructor; cbn; split_and?; try done.
  - apply memory_bundle_typed. by apply octetsb_octets.
  - apply sample_layout_typed.
  - apply sample_authorization_typed.
Qed.

Definition idle (w : media 8704) : install_state (W:=media 8704) (O:=unit) (B:=unit) :=
  mkInstallState w None tt (zeros 512).

Lemma idle_scratch m w : scratch_typed (with_metadata sample_install m) (idle w).
Proof. split; [done|apply (octets_zeros 512)]. Qed.

(** Slot A runs and slot B is empty. *)
Definition running : RibonUpdateSlotMetadata :=
  mkMetadata 416 1 0 0 RIBON_UPDATE_SLOT_NONE 2 1
    [mkEntry 0 RIBON_UPDATE_SLOT_CONFIRMED 1 7 (replicate 32 1) (replicate 32 2)
       (layout_identity_digest sample_layout) 0 0 [0; 0; 0; 0];
     mkEntry 1 RIBON_UPDATE_SLOT_EMPTY 0 0 (zeros 32) (zeros 32) (zeros 32) 0 0 [0; 0; 0; 0]]
    (zeros 32) [0; 0; 0; 0].

Lemma running_typed : metadata_typed running.
Proof.
  constructor; try in_range; try done.
  repeat apply Forall_cons_2; [..|apply Forall_nil_2]; constructor; simpl; try in_range; try done;
    split; try done; by apply octetsb_octets.
Qed.

(** The installation, nobody observing. *)
Definition sample_installation :=
  ribon_update_install_signed_bundle (Some (with_metadata sample_install running)) true (idle blank_media).

Lemma install_confined_witness :
  scratch_typed (with_metadata sample_install running) (idle blank_media) /\
  forall d, media_state sample_provider (st_world (fst sample_installation)) d ->
  exists d0, media_state sample_provider blank_media d0 /\ outside (slot_lo sample_layout 1) (slot_hi sample_layout 1) d0 d.
Proof.
  split; [apply idle_scratch|].
  exact (install_confined sample_provider sample_layout sample_bundle sample_manifest signed_envelope
    sample_expectation sample_store sample_signatures (with_metadata sample_install running) running
    (idle blank_media) (fst sample_installation) (snd sample_installation) (sample_install_ready _ running_typed)
    (idle_scratch _ _) (surjective_pairing sample_installation)).
Defined.

Definition manifest_identity : bytes := Eval vm_compute in ribon_security_sha256 sample_manifest.
Definition image_identity : bytes := Eval vm_compute in default [] (image_set_identity sample_view).
Definition staged_metadata : RibonUpdateSlotMetadata :=
  Eval vm_compute in
    snd (ribon_update_slot_metadata_transition (Some running)
      (Some (install_transition 1 RIBON_UPDATE_SLOT_STAGING 8 manifest_identity image_identity
               (layout_identity_digest sample_layout)))).

Definition sample_plan : RibonUpdateInstallPlan :=
  mkPlan sizeof_RibonUpdateInstallPlan RIBON_UPDATE_INSTALLER_ABI_VERSION RIBON_UPDATE_SLOT_EMPTY 1 1 0
    manifest_identity image_identity staged_metadata [0; 0; 0; 0].

Lemma sample_layout_accepts : ribon_update_layout_accepts_manifest (Some sample_layout) (Some sample_view) = true.
Proof. vm_compute. reflexivity. Qed.

Lemma sample_plan_prepared : prepare_plan (with_metadata sample_install running) sample_layout running sample_view = inr sample_plan.
Proof. vm_compute. reflexivity. Qed.

Lemma sample_prepares :
  ribon_update_install_prepare (O:=unit) (Some (with_metadata sample_install running)) None true = inr sample_plan.
Proof.
  unfold ribon_update_install_prepare.
  assert (Hv : install_request_is_valid (O:=unit) (Some (with_metadata sample_install running)) None = true)
    by (vm_compute; reflexivity).
  rewrite Hv. change (install_authorization (with_metadata sample_install running)) with sample_authorization.
  rewrite sample_manifest_authorized.
  change (install_layout (with_metadata sample_install running)) with (Some sample_layout).
  rewrite sample_layout_accepts. exact sample_plan_prepared.
Qed.

Lemma memory_bundle_delivers image : octets image -> delivers (memory_bundle image) image.
Proof.
  intros Hi. split_and!; [done|done|]. exists (memory_read image). split; [done|].
  intros b offset buffer deadline Ho He. exists b. unfold memory_read. compare. done.
Qed.

Lemma sample_possible :
  install_possible (O:=unit) sample_provider sample_layout sample_bundle sample_manifest
    (with_metadata sample_install running) sample_kernel sample_plan sample_view.
Proof.
  constructor; [exact sample_prepares|exact sample_manifest_opens|done| | | |vm_compute; discriminate|done].
  - vm_compute. reflexivity.
  - apply memory_bundle_delivers. by apply octetsb_octets.
  - intros k c Hc. rewrite (ManifestProperties.component_at_opened sample_manifest) in Hc
      by (apply sample_manifest_octets || apply sample_manifest_opens).
    destruct k as [|k]; [|exfalso; change (manifest_component_count sample_view) with 1 in Hc;
      destruct (Z.ltb_spec (Z.of_nat (S k)) 1); [lia|done]].
    assert (Hk : c = ManifestCodec.component_view kernel_component) by (vm_compute in Hc; injection Hc as <-; vm_compute; reflexivity).
    subst c. split_and!; [vm_compute; discriminate|vm_compute; reflexivity|]. exists 512.
    split_and!; [vm_compute; reflexivity|vm_compute; discriminate|vm_compute; discriminate|vm_compute; discriminate|by split..].
Qed.

Lemma install_completes_witness : exists st res, sample_installation = (st, inr res).
Proof.
  exact (install_completes sample_provider sample_layout sample_bundle sample_manifest signed_envelope
    sample_expectation sample_store sample_signatures (with_metadata sample_install running) running sample_kernel
    sample_plan sample_view (idle blank_media) (sample_install_ready _ running_typed) (idle_scratch _ _) eq_refl
    (memory_provider_reliable _ _ _) (memory_provider_erases _ _ _) sample_possible).
Defined.

Lemma sample_installs : exists st res, sample_installation = (st, inr res).
Proof.
  destruct (install_succeeds sample_provider sample_layout sample_bundle sample_manifest signed_envelope
    sample_expectation sample_store sample_signatures _ _ _ _ running (sample_install_ready _ running_typed)
    sample_possible (memory_provider_reliable _ _ _) (memory_provider_erases _ _ _) (idle blank_media)
    (conj eq_refl (idle_scratch _ _))) as (st & res & H & _). by exists st, res.
Qed.

Lemma install_verified_witness : exists st res v, sample_installation = (st, inr res) /\
  forall d, media_state sample_provider (st_world st) d -> slot_holds sample_provider sample_layout 1 v d.
Proof.
  destruct sample_installs as (st & res & H).
  destruct (install_verified sample_provider sample_layout sample_bundle sample_manifest signed_envelope
    sample_expectation sample_store sample_signatures (with_metadata sample_install running) running
    (idle blank_media) st res (sample_install_ready _ running_typed) (idle_scratch _ _) H) as (v & _ & _ & _ & _ & _ & Hd & _).
  exists st, res, v. split; [exact H|exact Hd].
Defined.

(** ** The transaction *)

Definition running_media : media 8704 := provisioned running 0.
Definition running_snapshot : RibonUpdateTransactionSnapshot := committed None running 0.

Lemma running_accepted : plan_accepted None running 0 = true.
Proof. vm_compute. reflexivity. Qed.

Lemma running_opens d :
  media_state sample_provider running_media d -> open_bytes sample_journal d = inr running_snapshot.
Proof. apply provisioned_media; [apply running_typed|lia|apply running_accepted]. Qed.

Definition sample_update : RibonUpdateTransactionalInstallRequest (media 8704) unit :=
  mkTransactionalRequest sizeof_RibonUpdateTransactionalInstallRequest RIBON_UPDATE_TRANSACTION_ABI_VERSION 0 3
    (Some sample_install) (Some sample_journal) [0; 0; 0; 0].

Lemma sample_update_ready :
  transaction_ready sample_provider sample_journal sample_layout sample_manifest sample_install sample_update
    running_snapshot (idle running_media).
Proof.
  constructor; [done|done|by apply (idle_scratch running)|].
  intros d Hd. split; [by apply running_opens|]. intros [[H|H] _]; discriminate H.
Qed.

(** The update, nobody observing. *)
Definition sample_transaction :=
  ribon_update_install_transactionally (Some sample_update) true (idle running_media).

Lemma update_atomic_witness :
  open_bytes sample_journal (content (p:=sample_provider) running_media) = inr running_snapshot /\
  forall d, media_state sample_provider (st_world (fst sample_transaction)) d ->
  exists c, open_bytes sample_journal d = inr c /\ same_running (snapshot_metadata running_snapshot) (snapshot_metadata c).
Proof.
  split; [apply running_opens; by left|]. intros d Hd.
  destruct (update_atomic sample_provider sample_journal sample_layout sample_journal_ready sample_untorn
    sample_bundle sample_manifest signed_envelope sample_expectation sample_store sample_signatures sample_install
    sample_install_ready sample_update running_snapshot (idle running_media) (fst sample_transaction)
    (snd sample_transaction) sample_update_ready (surjective_pairing sample_transaction) d Hd) as (_ & c & Hc & Hrun & _).
  exists c. split; [exact Hc|exact Hrun].
Defined.

(** ** An update that is resumed

    The media hold the kernel in slot B, and a journal that has armed it; the update
    was cut after its last commit, and is asked for again. *)

Definition armed : RibonUpdateSlotMetadata :=
  mkMetadata 416 1 0 0 1 2 1
    [mkEntry 0 RIBON_UPDATE_SLOT_CONFIRMED 1 7 (replicate 32 1) (replicate 32 2)
       (layout_identity_digest sample_layout) 0 0 [0; 0; 0; 0];
     mkEntry 1 RIBON_UPDATE_SLOT_PENDING 1 8 manifest_identity image_identity
       (layout_identity_digest sample_layout) 3 0 [0; 0; 0; 0]]
    (zeros 32) [0; 0; 0; 0].

Lemma armed_typed : metadata_typed armed.
Proof.
  constructor; try in_range; try done.
  repeat apply Forall_cons_2; [..|apply Forall_nil_2]; constructor; simpl; try in_range; try done;
    split; try done; by apply octetsb_octets.
Qed.

Definition kernel_bytes : bytes := store (zeros 8704) (slot_lo sample_layout 1) sample_kernel.

Lemma kernel_bytes_ok : bool_decide (len kernel_bytes = 8704) && octetsb kernel_bytes = true.
Proof. vm_compute. reflexivity. Qed.

Definition kernel_media : media 8704 := mkMedia 8704 kernel_bytes kernel_bytes kernel_bytes_ok kernel_bytes_ok.

Definition armed_media : media 8704 :=
  fst (fst (commit_record sample_journal None armed 1 (kernel_media, unobserved))).
Definition armed_snapshot : RibonUpdateTransactionSnapshot := committed None armed 1.

Lemma kernel_uninitialized d :
  media_state sample_provider kernel_media d ->
  open_bytes sample_journal d = inl RIBON_UPDATE_TRANSACTION_STATUS_UNINITIALIZED.
Proof. intros [-> | ->]; vm_compute; reflexivity. Qed.

Lemma armed_accepted : plan_accepted None armed 1 = true.
Proof. vm_compute. reflexivity. Qed.

Lemma armed_opens d :
  media_state sample_provider armed_media d -> open_bytes sample_journal d = inr armed_snapshot.
Proof.
  pose proof (commit_none_triple sample_provider sample_journal _ sample_journal_ready armed 1
    sample_untorn armed_typed ltac:(done) ltac:(done) kernel_media unobserved kernel_uninitialized) as H.
  unfold armed_media.
  destruct (commit_record sample_journal None armed 1 (kernel_media, unobserved)) as [[w o] [st|c]];
    destruct H as [_ [H1 H2]]; [|exact (H2 d)].
  destruct H2 as [H2|[[_ H2]|[_ H2]]]; [|done|by destruct H2; apply memory_provider_reliable].
  pose proof armed_accepted as Hp. unfold plan_accepted in Hp. by rewrite H2 in Hp.
Qed.

Lemma kernel_held : slot_holds sample_provider sample_layout 1 sample_view kernel_bytes.
Proof.
  intros k c Hc. rewrite (ManifestProperties.component_at_opened sample_manifest) in Hc
    by (apply sample_manifest_octets || apply sample_manifest_opens).
  destruct k as [|k]; [|exfalso; change (manifest_component_count sample_view) with 1 in Hc;
    destruct (Z.ltb_spec (Z.of_nat (S k)) 1); [lia|done]].
  assert (Hk : c = ManifestCodec.component_view kernel_component) by (vm_compute in Hc; injection Hc as <-; vm_compute; reflexivity).
  subst c. split_and!; [vm_compute; discriminate..|vm_compute; reflexivity].
Qed.

(** A commit keeps what is in the slot. *)
Lemma armed_holds d :
  media_state sample_provider armed_media d -> slot_holds sample_provider sample_layout 1 sample_view d.
Proof.
  pose proof (keeps_commit (O:=unit) sample_provider sample_journal sample_layout sample_journal_ready _
    (slot_holds_ignores sample_provider sample_journal sample_layout sample_journal_ready sample_manifest sample_install
       sample_view sample_manifest_octets sample_manifest_opens) None armed 1 I armed_typed ltac:(done)
    kernel_media unobserved) as H.
  unfold armed_media.
  destruct (commit_record sample_journal None armed 1 (kernel_media, unobserved)) as [[w o] [st|c]];
    (intros Hd; apply H; [|exact Hd]); (intros d0 Hd0; assert (d0 = kernel_bytes) as -> by (by destruct Hd0 as [-> | ->]);
      split; [vm_compute; reflexivity|exact kernel_held]).
Qed.

Lemma armed_ready :
  transaction_ready sample_provider sample_journal sample_layout sample_manifest sample_install sample_update
    armed_snapshot (idle armed_media).
Proof.
  constructor; [done|done|by apply (idle_scratch running)|].
  intros d Hd. split; [by apply armed_opens|]. intros _ v Hv.
  rewrite sample_manifest_opens in Hv. injection Hv as <-. by apply armed_holds.
Qed.

(** The plan finds the slot armed. *)
Definition resumed_plan : RibonUpdateInstallPlan :=
  mkPlan sizeof_RibonUpdateInstallPlan RIBON_UPDATE_INSTALLER_ABI_VERSION RIBON_UPDATE_SLOT_PENDING 1 1 0
    manifest_identity image_identity (snapshot_metadata armed_snapshot) [0; 0; 0; 0].

Lemma armed_prepares :
  ribon_update_install_prepare (O:=unit) (Some (with_metadata sample_install (snapshot_metadata armed_snapshot))) None true =
  inr resumed_plan.
Proof.
  unfold ribon_update_install_prepare.
  assert (Hv : install_request_is_valid (O:=unit)
    (Some (with_metadata sample_install (snapshot_metadata armed_snapshot))) None = true) by (vm_compute; reflexivity).
  rewrite Hv. change (install_authorization (with_metadata _ _)) with sample_authorization.
  rewrite sample_manifest_authorized. change (install_layout (with_metadata _ _)) with (Some sample_layout).
  rewrite sample_layout_accepts. change (install_current_metadata (with_metadata _ _)) with (Some (snapshot_metadata armed_snapshot)).
  cbn [negb orb]. unfold prepare_plan.
  assert (Hs : image_set_identity sample_view = Some image_identity) by (vm_compute; reflexivity).
  assert (Hd : ribon_security_sha256 (KeyPolicy.view (manifest_bytes sample_view) (manifest_byte_size sample_view)) = manifest_identity)
    by (vm_compute; reflexivity).
  rewrite Hs, Hd. unfold armed_snapshot, committed. cbn [snapshot_metadata]. reflexivity.
Qed.

Definition resumed_transaction :=
  ribon_update_install_transactionally (Some sample_update) true (idle armed_media).

Lemma armed_answers : exists s,
  resumed_transaction = (s, inr (transactional_result sample_install resumed_plan (0, 0) armed_snapshot)).
Proof.
  assert (Hopen : exists w, ribon_update_transaction_open (O:=unit) (Some sample_journal) (armed_media, None) =
    ((w, None), inr armed_snapshot)).
  { destruct (JournalInterface.update_open_reliable sample_provider sample_journal sample_layout sample_journal_ready
      (O:=unit) armed_snapshot armed_media (memory_provider_reliable _ _ _)) as (w & H & _); [|by exists w].
    intros d Hd. exists armed_snapshot. split; [by apply armed_opens|done]. }
  destruct Hopen as [w Hopen]. unfold resumed_transaction, ribon_update_install_transactionally. cbn -[install_checked].
  unfold install_checked, mbind at 1, M_bind at 1, on_journal at 1. cbn [st_world st_observer idle]. rewrite Hopen.
  unfold mbind at 1, M_bind at 1, prepare_transaction. cbn [st_observer]. rewrite armed_prepares. by eexists.
Qed.

