(* ===== verification/PayloadImage.v ===== *)
(** * Payload images ([src/common/image.c])

    The artifacts an image-format plugin produces: the validated image, which has no
    pointers, and the direct load plan with its table of segments.  [load_plan_safe]
    is what a format promises to the boot transaction about a plan it accepts, and
    [DirectFormat] states that promise of an analyzer. *)

From Stdlib Require Import String.
From S2P Require Import Prelude.
From S2P Require Import Buffer.
From S2P Require Import CString.
From S2P Require Import Plugin.
From S2P Require Import Protocol.

Definition RIBON_PLUGIN_KIND_IMAGE_FORMAT : Z := 2.
Definition RIBON_IMAGE_FORMAT_OPS_ABI_VERSION : Z := 3.
Definition RIBON_VALIDATED_IMAGE_ABI_VERSION : Z := 1.
Definition RIBON_DIRECT_LOAD_PLAN_ABI_VERSION : Z := 1.
Definition RIBON_EXECUTABLE_FORMAT_ELF64 : Z := 1.
Definition RIBON_EXECUTABLE_FORMAT_PE_COFF : Z := 2.
Definition RIBON_EXECUTABLE_FORMAT_LINUX_AARCH64 : Z := 3.
Definition RIBON_EXECUTABLE_FORMAT_LINUX_RISCV64 : Z := 4.
Definition RIBON_IMAGE_EXECUTION_DIRECT_ENTRY : Z := Z.shiftl 1 0.
Definition RIBON_IMAGE_EXECUTION_FIRMWARE_MANAGED : Z := Z.shiftl 1 1.
Definition RIBON_IMAGE_EXECUTION_ALL : Z := Z.shiftl 1 2 - 1.
Definition RIBON_LOAD_SEGMENT_READ : Z := Z.shiftl 1 0.
Definition RIBON_LOAD_SEGMENT_WRITE : Z := Z.shiftl 1 1.
Definition RIBON_LOAD_SEGMENT_EXECUTE : Z := Z.shiftl 1 2.
Definition RIBON_LOAD_PLAN_ENTRY_LOAD_VALID : Z := Z.shiftl 1 0.
Definition RIBON_LOAD_PLAN_RUNTIME_ENTRY_VALID : Z := Z.shiftl 1 1.
Definition RIBON_LOAD_PLAN_USES_PADDR : Z := Z.shiftl 1 2.
Definition RIBON_LOAD_PLAN_HAS_LINKED_PHYSICAL_RANGE : Z := Z.shiftl 1 5.
Definition RIBON_LOAD_PLAN_RELOCATABLE : Z := Z.shiftl 1 8.
Definition sizeof_RibonValidatedImage : Z := 40.
Definition sizeof_RibonDirectLoadPlan : Z := 144.
Definition sizeof_RibonImageFormatOps : Z := 24.

Inductive RibonLoaderStatus :=
  | LOADER_OK
  | LOADER_BAD_ARGUMENT
  | LOADER_BAD_FORMAT
  | LOADER_UNSUPPORTED
  | LOADER_TRUNCATED
  | LOADER_OVERFLOW
  | LOADER_OUT_OF_CAPACITY
  | LOADER_MISALIGNED
  | LOADER_NO_LOAD_SEGMENTS
  | LOADER_NON_CANONICAL
  | LOADER_OVERLAPPING_SEGMENTS.

#[global] Instance loader_status_eq_dec : EqDecision RibonLoaderStatus.
Proof. solve_decision. Defined.

Record RibonPayloadImage := mkPayload {
  payload_data : option bytes;
  payload_size : Z;
  payload_source_name : cstring;
}.

Record RibonLoadSegment := mkSegment {
  segment_file_offset : Z;
  segment_file_size : Z;
  segment_memory_size : Z;
  segment_virtual_address : Z;
  segment_linked_physical_address : Z;
  segment_physical_address : Z;
  segment_load_address : Z;
  segment_runtime_address : Z;
  segment_alignment : Z;
  segment_flags : Z;
}.

Record RibonValidatedImage := mkValidated {
  validated_size : Z;
  validated_abi_version : Z;
  validated_format : Z;
  validated_machine : Z;
  validated_reserved : Z;
  validated_execution_support : Z;
  validated_image_size : Z;
  validated_receipt : Z;
}.

(** [segments] points to an array of [segment_capacity] elements the caller owns. *)
Record RibonDirectLoadPlan := mkPlan {
  plan_size : Z;
  plan_abi_version : Z;
  plan_segment_count : Z;
  plan_load_plan_flags : Z;
  plan_entry_point : Z;
  plan_entry_load_address : Z;
  plan_runtime_entry_address : Z;
  plan_load_base : Z;
  plan_load_end : Z;
  plan_runtime_load_base : Z;
  plan_runtime_load_end : Z;
  plan_memory_size : Z;
  plan_linked_virtual_base : Z;
  plan_linked_virtual_end : Z;
  plan_linked_physical_base : Z;
  plan_linked_physical_end : Z;
  plan_high_entry_virtual_address : Z;
  plan_high_entry_load_address : Z;
  plan_segments : option (list RibonLoadSegment);
  plan_segment_capacity : Z;
}.

(** [(struct RibonValidatedImage){0}] *)
Definition empty_validated : RibonValidatedImage := mkValidated 0 0 0 0 0 0 0 0.

(** An analyzer gets the image and the two outputs, any of which may be NULL, and
    leaves a status and what the outputs then hold. *)
Definition RibonImageAnalyzeFn : Type :=
  option RibonPayloadImage -> option RibonValidatedImage -> option RibonDirectLoadPlan ->
  RibonLoaderStatus * option RibonValidatedImage * option RibonDirectLoadPlan.

Record RibonImageFormatOps := mkFormatOps {
  format_size : Z;
  format_abi_version : Z;
  format_format : Z;
  format_execution_support : Z;
  format_analyze : option RibonImageAnalyzeFn;
}.

(** A string literal. *)
Definition text (s : string) : bytes :=
  (fun c => Z.of_nat (Ascii.nat_of_ascii c)) <$> list_ascii_of_string s.

Definition ribon_executable_format_name (format : Z) : bytes :=
  if format =? RIBON_EXECUTABLE_FORMAT_ELF64 then text "elf64"
  else if format =? RIBON_EXECUTABLE_FORMAT_PE_COFF then text "pe-coff"
  else if format =? RIBON_EXECUTABLE_FORMAT_LINUX_AARCH64 then text "linux-aarch64-image"
  else if format =? RIBON_EXECUTABLE_FORMAT_LINUX_RISCV64 then text "linux-riscv64-image"
  else text "unknown".

Definition ribon_loader_status_name (status : RibonLoaderStatus) : bytes :=
  match status with
  | LOADER_OK => text "ok"
  | LOADER_BAD_ARGUMENT => text "bad-argument"
  | LOADER_BAD_FORMAT => text "bad-format"
  | LOADER_UNSUPPORTED => text "unsupported"
  | LOADER_TRUNCATED => text "truncated"
  | LOADER_OVERFLOW => text "overflow"
  | LOADER_OUT_OF_CAPACITY => text "out-of-capacity"
  | LOADER_MISALIGNED => text "misaligned"
  | LOADER_NO_LOAD_SEGMENTS => text "no-load-segments"
  | LOADER_NON_CANONICAL => text "non-canonical"
  | LOADER_OVERLAPPING_SEGMENTS => text "overlapping-segments"
  end.

Definition ribon_image_format_ops_are_valid (ops : option RibonImageFormatOps) : bool :=
  match ops with
  | None => false
  | Some o =>
    (format_size o =? sizeof_RibonImageFormatOps) &&
    (format_abi_version o =? RIBON_IMAGE_FORMAT_OPS_ABI_VERSION) &&
    (format_format o !=? RIBON_EXECUTABLE_FORMAT_UNKNOWN) &&
    (format_execution_support o !=? 0) &&
    (outside (format_execution_support o) RIBON_IMAGE_EXECUTION_ALL =? 0) &&
    negb (is_null (format_analyze o))
  end.

Definition ribon_validated_image_is_valid (image : option RibonValidatedImage) : bool :=
  match image with
  | None => false
  | Some i =>
    (validated_size i =? sizeof_RibonValidatedImage) &&
    (validated_abi_version i =? RIBON_VALIDATED_IMAGE_ABI_VERSION) &&
    (validated_format i !=? RIBON_EXECUTABLE_FORMAT_UNKNOWN) && (validated_machine i !=? 0) &&
    (validated_reserved i =? 0) && (validated_execution_support i !=? 0) &&
    (outside (validated_execution_support i) RIBON_IMAGE_EXECUTION_ALL =? 0) &&
    (validated_image_size i !=? 0)
  end.

Definition ribon_direct_load_plan_has_storage (plan : option RibonDirectLoadPlan) : bool :=
  match plan with
  | None => false
  | Some p => negb (is_null (plan_segments p)) && (plan_segment_capacity p !=? 0)
  end.

Definition RIBON_CAP_IMAGE_ELF64 : Z := Z.shiftl 1 17.
Definition RIBON_CAP_IMAGE_PE_COFF : Z := Z.shiftl 1 22.
Definition RIBON_CAP_IMAGE_LINUX_AARCH64 : Z := Z.shiftl 1 28.
Definition RIBON_CAP_IMAGE_LINUX_RISCV64 : Z := Z.shiftl 1 30.

(** [operations] is what [descriptor->operations] points to. *)
Definition ribon_image_plugin_operations_are_valid (descriptor : option RibonPluginDescriptor)
    (operations : RibonImageFormatOps) : bool :=
  match descriptor with
  | None => false
  | Some d =>
    if (plugin_kind d !=? RIBON_PLUGIN_KIND_IMAGE_FORMAT) ||
       (plugin_operations_size d !=? sizeof_RibonImageFormatOps) ||
       (plugin_operations_abi d !=? RIBON_IMAGE_FORMAT_OPS_ABI_VERSION)
    then false
    else
      let format := format_format operations in
      let expected_capability :=
        if format =? RIBON_EXECUTABLE_FORMAT_ELF64 then Some RIBON_CAP_IMAGE_ELF64
        else if format =? RIBON_EXECUTABLE_FORMAT_PE_COFF then Some RIBON_CAP_IMAGE_PE_COFF
        else if format =? RIBON_EXECUTABLE_FORMAT_LINUX_AARCH64
        then Some RIBON_CAP_IMAGE_LINUX_AARCH64
        else if format =? RIBON_EXECUTABLE_FORMAT_LINUX_RISCV64
        then Some RIBON_CAP_IMAGE_LINUX_RISCV64
        else None in
      match expected_capability with
      | None => false
      | Some capability =>
        ribon_image_format_ops_are_valid (Some operations) && (plugin_provides d =? capability)
      end
  end.

(** The plan every analyzer starts from: empty, with the caller's storage. *)
Definition ribon_direct_load_plan_reset (out : RibonDirectLoadPlan) : RibonDirectLoadPlan :=
  mkPlan sizeof_RibonDirectLoadPlan RIBON_DIRECT_LOAD_PLAN_ABI_VERSION
    0 0 0 0 0 0 0 0 0 0 0 0 0 0 0 0 (plan_segments out) (plan_segment_capacity out).

(** [segments[i]] *)
Definition empty_segment : RibonLoadSegment := mkSegment 0 0 0 0 0 0 0 0 0 0.
Definition segment_at (segments : list RibonLoadSegment) (i : Z) : RibonLoadSegment :=
  nth (Z.to_nat i) segments empty_segment.

(** ** What a format promises *)

(** The segments of a plan: the first [segment_count] elements of the array. *)
Definition segments_of (p : RibonDirectLoadPlan) : list RibonLoadSegment :=
  take (Z.to_nat (plan_segment_count p)) (default [] (plan_segments p)).

Definition storage_typed (p : RibonDirectLoadPlan) : Prop :=
  len (default [] (plan_segments p)) = plan_segment_capacity p /\ word 32 (plan_segment_capacity p).

Definition payload_typed (i : RibonPayloadImage) : Prop :=
  pointed (payload_data i) (payload_size i) /\ octets (default [] (payload_data i)) /\
  word 64 (payload_size i).

Definition segment_end (s : RibonLoadSegment) : Z := segment_load_address s + segment_memory_size s.

Definition executable (s : RibonLoadSegment) : bool :=
  Z.land (segment_flags s) RIBON_LOAD_SEGMENT_EXECUTE !=? 0.

(** Two segments occupy different memory. *)
Definition apart (s t : RibonLoadSegment) : Prop :=
  segment_end s <= segment_load_address t \/ segment_end t <= segment_load_address s.

(** A segment copies bytes of the image and occupies memory between two bounds. *)
Definition segment_safe (size base limit : Z) (s : RibonLoadSegment) : Prop :=
  0 <= segment_file_offset s /\ 0 <= segment_file_size s /\
  segment_file_offset s + segment_file_size s <= size /\
  segment_file_size s <= segment_memory_size s /\ 0 < segment_memory_size s /\
  base <= segment_load_address s /\ segment_end s <= limit /\
  segment_runtime_address s = segment_load_address s.

(** Every segment is backed by the image and lies between the bounds of the plan,
    no two share memory, and the entry point is in one that may be executed. *)
Record load_plan_safe (size : Z) (p : RibonDirectLoadPlan) : Prop := {
  safe_segments : Forall (segment_safe size (plan_load_base p) (plan_load_end p)) (segments_of p);
  safe_disjoint : forall i j s t, segments_of p !! i = Some s -> segments_of p !! j = Some t ->
    i <> j -> apart s t;
  safe_bounds : 0 <= plan_load_base p /\ plan_load_end p <= UINT64_MAX /\
    plan_memory_size p = plan_load_end p - plan_load_base p /\
    plan_runtime_load_base p = plan_load_base p /\ plan_runtime_load_end p = plan_load_end p;
  safe_entry : exists s, s ∈ segments_of p /\ executable s = true /\
    segment_load_address s <= plan_entry_load_address p < segment_end s;
  safe_runtime_entry : plan_runtime_entry_address p = plan_entry_load_address p;
}.

(** An analyzer that keeps the promise, for the format and execution models its
    operation table declares. *)
Class DirectFormat (ops : RibonImageFormatOps) : Prop := direct_format :
  forall analyze image validated plan validated' plan',
  format_analyze ops = Some analyze -> payload_typed image -> storage_typed plan ->
  analyze (Some image) (Some validated) (Some plan) = (LOADER_OK, validated', plan') ->
  exists v p, validated' = Some v /\ plan' = Some p /\ load_plan_safe (payload_size image) p /\
    storage_typed p /\ plan_segment_count p <= plan_segment_capacity p /\
    validated_format v = format_format ops /\ validated_image_size v = payload_size image /\
    validated_execution_support v = format_execution_support ops.
