(* ===== verification/Elf64.v ===== *)
(** * ELF64 images ([src/image-formats/elf64.c])

    The analyzer of ELF64 executables.  [elf64_analyze] accepts exactly the images
    that [elf64_loadable] describes over the program headers, and the plan it then
    leaves holds one segment per load header, in their order. *)

From S2P Require Import Prelude.
From S2P Require Import Buffer.
From S2P Require Import Wire.
From S2P Require Import PayloadImage.

Definition RIBON_ELF64_HEADER_SIZE : Z := 64.
Definition RIBON_ELF64_PHDR_SIZE : Z := 56.
Definition RIBON_ELF_CLASS_64 : Z := 2.
Definition RIBON_ELF_DATA_LSB : Z := 1.
Definition RIBON_ELF_VERSION_CURRENT : Z := 1.
Definition RIBON_ELF_TYPE_EXEC : Z := 2.
Definition RIBON_ELF_TYPE_DYN : Z := 3.
Definition RIBON_ELF_PHDR_LOAD : Z := 1.
Definition RIBON_ELF_PF_X : Z := 1.
Definition RIBON_ELF_PF_W : Z := 2.
Definition RIBON_ELF_PF_R : Z := 4.

Definition ribon_read_le16 (data : bytes) (o : Z) : Z := load_u16 data o.
Definition ribon_read_le32 (data : bytes) (o : Z) : Z := load_u32 data o.
Definition ribon_read_le64 (data : bytes) (o : Z) : Z :=
  Z.lor (ribon_read_le32 data o) (Z.shiftl (ribon_read_le32 data (o + 4)) 32).

Definition ribon_u64_add (lhs rhs : Z) : RibonLoaderStatus + Z :=
  if lhs >? UINT64_MAX - rhs then inl LOADER_OVERFLOW else inr (lhs + rhs).

Definition ribon_u64_mul (lhs rhs : Z) : RibonLoaderStatus + Z :=
  if (lhs !=? 0) && (rhs >? UINT64_MAX / lhs) then inl LOADER_OVERFLOW else inr (lhs * rhs).

Definition ribon_is_power_of_two (value : Z) : bool :=
  (value !=? 0) && (Z.land value (value - 1) =? 0).

Definition ribon_segment_flags_from_elf (flags : Z) : Z :=
  let mapped := 0 in
  let mapped := if Z.land flags RIBON_ELF_PF_R !=? 0
                then Z.lor mapped RIBON_LOAD_SEGMENT_READ else mapped in
  let mapped := if Z.land flags RIBON_ELF_PF_W !=? 0
                then Z.lor mapped RIBON_LOAD_SEGMENT_WRITE else mapped in
  if Z.land flags RIBON_ELF_PF_X !=? 0
  then Z.lor mapped RIBON_LOAD_SEGMENT_EXECUTE else mapped.

Definition ribon_ranges_overlap (lhs_base lhs_end rhs_base rhs_end : Z) : bool :=
  (lhs_base <? rhs_end) && (rhs_base <? lhs_end).

(** The locals of the loop over the program headers, with the segment array and its
    count, which are the caller's. *)
Record ElfWalk := mkWalk {
  walk_segments : list RibonLoadSegment;
  walk_segment_count : Z;
  walk_load_base : Z;
  walk_load_end : Z;
  walk_linked_virtual_base : Z;
  walk_linked_virtual_end : Z;
  walk_linked_physical_base : Z;
  walk_linked_physical_end : Z;
  walk_entry_load_address : Z;
  walk_load_plan_flags : Z;
  walk_entry_is_loadable : bool;
}.

Definition elf64_overlap_step (segments : list RibonLoadSegment) (load_address physical_end : Z)
    (_ : unit) (previous_index : Z) : RibonLoaderStatus + unit :=
  let previous := segment_at segments previous_index in
  match ribon_u64_add (segment_load_address previous) (segment_memory_size previous) with
  | inl _ => inl LOADER_OVERFLOW
  | inr previous_end =>
    if ribon_ranges_overlap (segment_load_address previous) previous_end load_address physical_end
    then inl LOADER_OVERLAPPING_SEGMENTS else inr tt
  end.

(** The fields of a program header. *)
Record ElfHeader := mkElfHeader {
  p_type : Z;
  p_flags : Z;
  p_offset : Z;
  p_vaddr : Z;
  p_paddr : Z;
  p_filesz : Z;
  p_memsz : Z;
  p_align : Z;
}.

Definition elf64_header_at (data : bytes) (phdr : Z) : ElfHeader :=
  mkElfHeader (ribon_read_le32 data phdr) (ribon_read_le32 data (phdr + 4))
    (ribon_read_le64 data (phdr + 8)) (ribon_read_le64 data (phdr + 16))
    (ribon_read_le64 data (phdr + 24)) (ribon_read_le64 data (phdr + 32))
    (ribon_read_le64 data (phdr + 40)) (ribon_read_le64 data (phdr + 48)).

(** [p_paddr != 0u ? p_paddr : p_vaddr] *)
Definition elf64_load_address (h : ElfHeader) : Z :=
  if p_paddr h !=? 0 then p_paddr h else p_vaddr h.

Definition elf64_segment (h : ElfHeader) : RibonLoadSegment :=
  mkSegment (p_offset h) (p_filesz h) (p_memsz h) (p_vaddr h) (p_paddr h) (elf64_load_address h)
    (elf64_load_address h) (elf64_load_address h) (p_align h) (ribon_segment_flags_from_elf (p_flags h)).

(** The updates after the segment is stored: bounds, physical range and entry. *)
Definition elf64_account (e_entry : Z) (h : ElfHeader) (physical_end virtual_end : Z) (w : ElfWalk) :
    (RibonLoaderStatus * ElfWalk) + ElfWalk :=
  let load_address := elf64_load_address h in
  let segment := elf64_segment h in
  let w := mkWalk
    (<[Z.to_nat (walk_segment_count w) := segment]> (walk_segments w)) (walk_segment_count w + 1)
    (if load_address <? walk_load_base w then load_address else walk_load_base w)
    (if physical_end >? walk_load_end w then physical_end else walk_load_end w)
    (if p_vaddr h <? walk_linked_virtual_base w then p_vaddr h else walk_linked_virtual_base w)
    (if virtual_end >? walk_linked_virtual_end w then virtual_end else walk_linked_virtual_end w)
    (walk_linked_physical_base w) (walk_linked_physical_end w)
    (walk_entry_load_address w) (walk_load_plan_flags w) (walk_entry_is_loadable w) in
  match (if p_paddr h !=? 0
         then match ribon_u64_add (p_paddr h) (p_memsz h) with
              | inl _ => inl LOADER_OVERFLOW
              | inr raw_physical_end =>
                inr (mkWalk (walk_segments w) (walk_segment_count w) (walk_load_base w)
                  (walk_load_end w) (walk_linked_virtual_base w) (walk_linked_virtual_end w)
                  (if p_paddr h <? walk_linked_physical_base w then p_paddr h
                   else walk_linked_physical_base w)
                  (if raw_physical_end >? walk_linked_physical_end w then raw_physical_end
                   else walk_linked_physical_end w)
                  (walk_entry_load_address w)
                  (Z.lor (walk_load_plan_flags w)
                    (Z.lor RIBON_LOAD_PLAN_USES_PADDR RIBON_LOAD_PLAN_HAS_LINKED_PHYSICAL_RANGE))
                  (walk_entry_is_loadable w))
              end
         else inr w) with
  | inl status => inl (status, w)
  | inr w =>
    if (e_entry >=? p_vaddr h) && (e_entry <? virtual_end) &&
       (Z.land (segment_flags segment) RIBON_LOAD_SEGMENT_EXECUTE !=? 0)
    then inr (mkWalk (walk_segments w) (walk_segment_count w) (walk_load_base w)
           (walk_load_end w) (walk_linked_virtual_base w) (walk_linked_virtual_end w)
           (walk_linked_physical_base w) (walk_linked_physical_end w)
           (u64 (load_address + (e_entry - p_vaddr h))) (walk_load_plan_flags w) true)
    else inr w
  end.

(** One program header. *)
Definition elf64_header_step (size capacity e_entry : Z) (w : ElfWalk) (h : ElfHeader) :
    (RibonLoaderStatus * ElfWalk) + ElfWalk :=
  let load_address := elf64_load_address h in
  if p_type h !=? RIBON_ELF_PHDR_LOAD then inr w
  else if (p_memsz h =? 0) || (p_filesz h >? p_memsz h) then inl (LOADER_BAD_FORMAT, w)
  else if (p_align h !=? 0) && (p_align h !=? 1) && negb (ribon_is_power_of_two (p_align h))
  then inl (LOADER_MISALIGNED, w)
  else if (p_align h >? 1) && (p_offset h mod p_align h !=? p_vaddr h mod p_align h)
  then inl (LOADER_MISALIGNED, w)
  else if (p_align h >? 1) && (p_offset h mod p_align h !=? load_address mod p_align h)
  then inl (LOADER_MISALIGNED, w)
  else
    match ribon_u64_add (p_offset h) (p_filesz h), ribon_u64_add load_address (p_memsz h),
          ribon_u64_add (p_vaddr h) (p_memsz h) with
    | inr file_end, inr physical_end, inr virtual_end =>
      if file_end >? size then inl (LOADER_TRUNCATED, w)
      else
        match foldE (elf64_overlap_step (walk_segments w) load_address physical_end)
                (upto (walk_segment_count w)) tt with
        | inl status => inl (status, w)
        | inr _ =>
          if walk_segment_count w >=? capacity then inl (LOADER_OUT_OF_CAPACITY, w)
          else elf64_account e_entry h physical_end virtual_end w
        end
    | _, _, _ => inl (LOADER_OVERFLOW, w)
    end.

(** The plan as the loop leaves it: only the array and the count have changed. *)
Definition elf64_partial_plan (out : RibonDirectLoadPlan) (w : ElfWalk) : RibonDirectLoadPlan :=
  mkPlan sizeof_RibonDirectLoadPlan RIBON_DIRECT_LOAD_PLAN_ABI_VERSION (walk_segment_count w)
    0 0 0 0 0 0 0 0 0 0 0 0 0 0 0 (Some (walk_segments w)) (plan_segment_capacity out).

Definition elf64_final_plan (out : RibonDirectLoadPlan) (e_entry : Z) (w : ElfWalk) : RibonDirectLoadPlan :=
  mkPlan sizeof_RibonDirectLoadPlan RIBON_DIRECT_LOAD_PLAN_ABI_VERSION (walk_segment_count w)
    (Z.lor (Z.lor (walk_load_plan_flags w) RIBON_LOAD_PLAN_ENTRY_LOAD_VALID)
       RIBON_LOAD_PLAN_RUNTIME_ENTRY_VALID)
    e_entry (walk_entry_load_address w) (walk_entry_load_address w)
    (walk_load_base w) (walk_load_end w) (walk_load_base w) (walk_load_end w)
    (walk_load_end w - walk_load_base w)
    (walk_linked_virtual_base w) (walk_linked_virtual_end w)
    (if walk_linked_physical_base w =? UINT64_MAX then 0 else walk_linked_physical_base w)
    (walk_linked_physical_end w) 0 0 (Some (walk_segments w)) (plan_segment_capacity out).

Definition elf64_analyze : RibonImageAnalyzeFn := fun image validated_out out =>
  match image, validated_out, out with
  | Some i, Some _, Some plan =>
    match payload_data i with
    | None => (LOADER_BAD_ARGUMENT, validated_out, out)
    | Some data =>
      if negb (ribon_direct_load_plan_has_storage out) then (LOADER_BAD_ARGUMENT, validated_out, out)
      else
      let out := ribon_direct_load_plan_reset plan in
      let fail status := (status, Some empty_validated, Some out) in
      if payload_size i <? RIBON_ELF64_HEADER_SIZE then fail LOADER_TRUNCATED
      else if (byte_at data 0 !=? 0x7f) || (byte_at data 1 !=? 69) || (byte_at data 2 !=? 76) ||
              (byte_at data 3 !=? 70) then fail LOADER_BAD_FORMAT
      else if (byte_at data 4 !=? RIBON_ELF_CLASS_64) || (byte_at data 5 !=? RIBON_ELF_DATA_LSB) ||
              (byte_at data 6 !=? RIBON_ELF_VERSION_CURRENT) then fail LOADER_UNSUPPORTED
      else
      let e_type := ribon_read_le16 data 16 in
      let e_machine := ribon_read_le16 data 18 in
      let e_version := ribon_read_le32 data 20 in
      let e_entry := ribon_read_le64 data 24 in
      let e_phoff := ribon_read_le64 data 32 in
      let e_ehsize := ribon_read_le16 data 52 in
      let e_phentsize := ribon_read_le16 data 54 in
      let e_phnum := ribon_read_le16 data 56 in
      if (e_type !=? RIBON_ELF_TYPE_EXEC) && (e_type !=? RIBON_ELF_TYPE_DYN) then fail LOADER_UNSUPPORTED
      else if (e_version !=? RIBON_ELF_VERSION_CURRENT) || (e_ehsize !=? RIBON_ELF64_HEADER_SIZE) ||
              (e_phentsize !=? RIBON_ELF64_PHDR_SIZE) || (e_phnum =? 0) then fail LOADER_BAD_FORMAT
      else
      match ribon_u64_mul e_phentsize e_phnum with
      | inl _ => fail LOADER_OVERFLOW
      | inr phdr_table_size =>
      match ribon_u64_add e_phoff phdr_table_size with
      | inl _ => fail LOADER_OVERFLOW
      | inr phdr_table_end =>
      if phdr_table_end >? payload_size i then fail LOADER_TRUNCATED
      else
      match foldE (fun w index => elf64_header_step (payload_size i) (plan_segment_capacity out) e_entry w
                     (elf64_header_at data (e_phoff + index * e_phentsize)))
              (upto e_phnum)
              (mkWalk (default [] (plan_segments out)) 0 UINT64_MAX 0 UINT64_MAX 0 UINT64_MAX 0 0 0 false) with
      | inl (status, w) => (status, Some empty_validated, Some (elf64_partial_plan out w))
      | inr w =>
        let fail status := (status, Some empty_validated, Some (elf64_partial_plan out w)) in
        if walk_segment_count w =? 0 then fail LOADER_NO_LOAD_SEGMENTS
        else if negb (walk_entry_is_loadable w) then fail LOADER_BAD_FORMAT
        else if walk_load_end w <? walk_load_base w then fail LOADER_OVERFLOW
        else
          (LOADER_OK,
           Some (mkValidated sizeof_RibonValidatedImage RIBON_VALIDATED_IMAGE_ABI_VERSION
             RIBON_EXECUTABLE_FORMAT_ELF64 e_machine 0 RIBON_IMAGE_EXECUTION_DIRECT_ENTRY
             (payload_size i) e_type),
           Some (elf64_final_plan out e_entry w))
      end
      end
      end
    end
  | _, _, _ => (LOADER_BAD_ARGUMENT, validated_out, out)
  end.

Definition elf64_ops : RibonImageFormatOps :=
  mkFormatOps sizeof_RibonImageFormatOps RIBON_IMAGE_FORMAT_OPS_ABI_VERSION
    RIBON_EXECUTABLE_FORMAT_ELF64 RIBON_IMAGE_EXECUTION_DIRECT_ENTRY (Some elf64_analyze).

(** ** The images that are accepted *)

Definition elf64_headers (data : bytes) : list ElfHeader :=
  (fun index => elf64_header_at data
     (ribon_read_le64 data 32 + index * ribon_read_le16 data 54)) <$> upto (ribon_read_le16 data 56).

(** The program headers that describe memory to load. *)
Definition elf64_loads (data : bytes) : list ElfHeader :=
  filter (fun h => p_type h = RIBON_ELF_PHDR_LOAD) (elf64_headers data).

Definition congruent (m x y : Z) : Prop := 1 < m -> x mod m = y mod m.

(** A load header that can be honoured in an image of [size] bytes. *)
Record header_ok (size : Z) (h : ElfHeader) : Prop := {
  ok_sizes : 0 < p_memsz h /\ p_filesz h <= p_memsz h;
  ok_align : p_align h = 0 \/ p_align h = 1 \/ ribon_is_power_of_two (p_align h) = true;
  ok_virtual : congruent (p_align h) (p_offset h) (p_vaddr h);
  ok_physical : congruent (p_align h) (p_offset h) (elf64_load_address h);
  ok_file : p_offset h + p_filesz h <= size;
  ok_memory : elf64_load_address h + p_memsz h <= UINT64_MAX /\ p_vaddr h + p_memsz h <= UINT64_MAX;
}.

Definition headers_apart (h k : ElfHeader) : Prop :=
  elf64_load_address h + p_memsz h <= elf64_load_address k \/
  elf64_load_address k + p_memsz k <= elf64_load_address h.

(** The entry point is in a segment that may be executed. *)
Definition enters (e_entry : Z) (h : ElfHeader) : Prop :=
  p_vaddr h <= e_entry < p_vaddr h + p_memsz h /\ executable (elf64_segment h) = true.

Record elf64_loadable (data : bytes) (capacity : Z) : Prop := {
  elf_size : RIBON_ELF64_HEADER_SIZE <= len data;
  elf_magic : slice 0 7 data = [0x7f; 69; 76; 70; RIBON_ELF_CLASS_64; RIBON_ELF_DATA_LSB; RIBON_ELF_VERSION_CURRENT];
  elf_type : ribon_read_le16 data 16 = RIBON_ELF_TYPE_EXEC \/ ribon_read_le16 data 16 = RIBON_ELF_TYPE_DYN;
  elf_shape : ribon_read_le32 data 20 = RIBON_ELF_VERSION_CURRENT /\
    ribon_read_le16 data 52 = RIBON_ELF64_HEADER_SIZE /\ ribon_read_le16 data 54 = RIBON_ELF64_PHDR_SIZE;
  elf_table : ribon_read_le64 data 32 + RIBON_ELF64_PHDR_SIZE * ribon_read_le16 data 56 <= len data;
  elf_headers : Forall (header_ok (len data)) (elf64_loads data);
  elf_disjoint : forall i j h k, elf64_loads data !! i = Some h -> elf64_loads data !! j = Some k ->
    i <> j -> headers_apart h k;
  elf_capacity : len (elf64_loads data) <= capacity;
  elf_entry : Exists (enters (ribon_read_le64 data 24)) (elf64_loads data);
}.

(** ** The loop over the headers *)

(** The fields of a header are words, as anything read from the image. *)
Definition header_typed (h : ElfHeader) : Prop :=
  word 64 (p_offset h) /\ word 64 (p_vaddr h) /\ word 64 (p_paddr h) /\ word 64 (p_filesz h) /\
  word 64 (p_memsz h) /\ word 64 (p_align h).

Lemma read_le64_load data o : ribon_read_le64 data o = load_u64 data o.
Proof. reflexivity. Qed.

Lemma header_at_typed data o : octets data -> 0 <= o -> o + RIBON_ELF64_PHDR_SIZE <= len data ->
  header_typed (elf64_header_at data o).
Proof.
  intros Ho H0 H1. unfold RIBON_ELF64_PHDR_SIZE in H1.
  repeat split; cbn [elf64_header_at p_offset p_vaddr p_paddr p_filesz p_memsz p_align];
    rewrite read_le64_load; apply load_u64_word; (done || lia).
Qed.

Lemma load_address_word h : header_typed h -> word 64 (elf64_load_address h).
Proof. intros (_ & Hv & Hp & _). unfold elf64_load_address. by destruct (p_paddr h !=? 0). Qed.

Lemma u64_add_spec a b : (a + b <= UINT64_MAX /\ ribon_u64_add a b = inr (a + b)) \/
  (UINT64_MAX < a + b /\ ribon_u64_add a b = inl LOADER_OVERFLOW).
Proof. unfold ribon_u64_add. destruct (Z.ltb_spec (UINT64_MAX - b) a); [right|left]; split; (lia || done). Qed.

Lemma u64_mul_spec a b : 0 <= a -> a * b <= UINT64_MAX -> ribon_u64_mul a b = inr (a * b).
Proof.
  intros Ha Hb. unfold ribon_u64_mul. destruct (Z.eqb_spec a 0); [done|]; cbn [negb andb].
  destruct (Z.ltb_spec (UINT64_MAX / a) b) as [Hlt|]; [|done].
  pose proof (Z.div_le_lower_bound UINT64_MAX a b ltac:(lia) Hb). lia.
Qed.

(** What the locals hold after the headers [done]. *)
Record walked (e_entry : Z) (array : nat) (done : list ElfHeader) (w : ElfWalk) : Prop := {
  walked_count : walk_segment_count w = len done;
  walked_array : length (walk_segments w) = array;
  walked_segments : take (length done) (walk_segments w) = elf64_segment <$> done;
  walked_typed : Forall header_typed done;
  walked_memory : Forall (fun h => elf64_load_address h + p_memsz h <= UINT64_MAX) done;
  walked_bounds : Forall (fun h => walk_load_base w <= elf64_load_address h /\
    elf64_load_address h + p_memsz h <= walk_load_end w) done;
  walked_range : 0 <= walk_load_base w /\ walk_load_end w <= UINT64_MAX;
  walked_entry : walk_entry_is_loadable w = true <-> Exists (enters e_entry) done;
  walked_address : walk_entry_is_loadable w = true -> exists h, h ∈ done /\ enters e_entry h /\
    walk_entry_load_address w = elf64_load_address h + (e_entry - p_vaddr h);
}.

(** The check against the stored segments is the check against their headers. *)
Lemma overlap_loop segments done load limit :
  take (length done) segments = elf64_segment <$> done ->
  Forall (fun h => elf64_load_address h + p_memsz h <= UINT64_MAX) done ->
  (foldE (elf64_overlap_step segments load limit) (upto (len done)) tt = inr tt <->
   Forall (fun h => elf64_load_address h + p_memsz h <= load \/ limit <= elf64_load_address h) done).
Proof.
  intros Ht Hm. unfold len. replace (foldE _ _ _) with
    (foldE (fun (_ : unit) h => elf64_overlap_step [elf64_segment h] load limit tt 0) done tt).
  - clear Ht. induction Hm as [|h done Hh Hm IH]; [by split; constructor|].
    cbn [foldE]. unfold elf64_overlap_step, segment_at.
    change (nth (Z.to_nat 0) [elf64_segment h] empty_segment) with (elf64_segment h).
    cbn [elf64_segment segment_load_address segment_memory_size].
    destruct (u64_add_spec (elf64_load_address h) (p_memsz h)) as [[_ ->]|[]]; [|lia].
    unfold ribon_ranges_overlap. rewrite Forall_cons, <- IH.
    destruct (Z.ltb_spec (elf64_load_address h) limit), (Z.ltb_spec load (elf64_load_address h + p_memsz h));
      cbn [andb]; (split; [intros E|intros [E E']]); (done || lia || (split; [lia|done]) || idtac).
  - revert Ht. rewrite <- (take_drop (length done) segments) at 2.
    generalize (drop (length done) segments). intros rest Ht. rewrite Ht. clear Ht Hm.
    enough (forall pre, foldE (fun (_ : unit) h => elf64_overlap_step [elf64_segment h] load limit tt 0) done tt =
      foldE (elf64_overlap_step (pre ++ (elf64_segment <$> done) ++ rest) load limit)
        (seqZ (len pre) (Z.of_nat (length done))) tt) as H by apply (H []).
    induction done as [|h done IH]; intros pre; [done|].
    rewrite seqZ_cons by (cbn [length]; lia). cbn [foldE length].
    assert (elf64_overlap_step (pre ++ (elf64_segment <$> h :: done) ++ rest) load limit tt (len pre) =
      elf64_overlap_step [elf64_segment h] load limit tt 0) as ->.
    { unfold elf64_overlap_step, segment_at, len. rewrite Nat2Z.id, app_nth2, Nat.sub_diag by lia. done. }
    destruct (elf64_overlap_step [elf64_segment h] load limit tt 0) as [|[]]; [done|].
    rewrite (IH (pre ++ [elf64_segment h])). rewrite <- app_assoc. cbn [app fmap list_fmap].
    f_equal. f_equal; unfold len; rewrite ?length_app; cbn [length]; lia.
Qed.

(** Storing the segment of one more header. *)
Lemma walked_snoc e_entry array done w h w' :
  header_typed h -> elf64_load_address h + p_memsz h <= UINT64_MAX ->
  walked e_entry array done w -> (length done < array)%nat ->
  walk_segments w' = <[Z.to_nat (walk_segment_count w) := elf64_segment h]> (walk_segments w) ->
  walk_segment_count w' = walk_segment_count w + 1 ->
  walk_load_base w' = Z.min (elf64_load_address h) (walk_load_base w) ->
  walk_load_end w' = Z.max (elf64_load_address h + p_memsz h) (walk_load_end w) ->
  (walk_entry_is_loadable w' = true <-> enters e_entry h \/ walk_entry_is_loadable w = true) ->
  (walk_entry_is_loadable w' = true ->
     enters e_entry h /\ walk_entry_load_address w' = elf64_load_address h + (e_entry - p_vaddr h) \/
     walk_entry_is_loadable w = true /\ walk_entry_load_address w' = walk_entry_load_address w) ->
  walked e_entry array (done ++ [h]) w'.
Proof.
  intros Hh Hl [Hc Ha Hs Ht Hm Hb Hr He Hadr] Hn F1 F2 F3 F4 F5 F6.
  pose proof (load_address_word h Hh) as Hlw. rewrite word64 in Hlw.
  rewrite Hc in F1, F2. unfold len in F1. rewrite Nat2Z.id in F1. constructor.
  - rewrite F2, len_app. done.
  - by rewrite F1, length_insert.
  - rewrite F1, length_app, fmap_app. cbn [length]. rewrite Nat.add_1_r.
    apply take_insert_snoc; [lia|done].
  - apply Forall_app. by rewrite Forall_singleton.
  - apply Forall_app. by rewrite Forall_singleton.
  - rewrite F3, F4. apply Forall_app. split; [|constructor; [lia|done]].
    eapply Forall_impl; [exact Hb|]. intros k []. lia.
  - lia.
  - rewrite F5, Exists_app, Exists_cons, Exists_nil, He. tauto.
  - intros H. setoid_rewrite elem_of_app. destruct (F6 H) as [[H1 H2]|[H1 H2]].
    + exists h. split; [right; by left|done].
    + destruct (Hadr H1) as (k & ? & ? & ?). exists k. rewrite H2. auto.
Qed.

Lemma account_walked e_entry array done w h :
  header_typed h -> 0 < p_memsz h ->
  elf64_load_address h + p_memsz h <= UINT64_MAX -> p_vaddr h + p_memsz h <= UINT64_MAX ->
  walked e_entry array done w -> (length done < array)%nat ->
  exists w', elf64_account e_entry h (elf64_load_address h + p_memsz h) (p_vaddr h + p_memsz h) w = inr w' /\
    walked e_entry array (done ++ [h]) w'.
Proof.
  intros Hh Hsz Hl Hv Hw Hn.
  pose proof (load_address_word h Hh) as Hlw. rewrite word64 in Hlw.
  unfold elf64_account.
  assert (Hp : negb (p_paddr h =? 0) = true ->
    ribon_u64_add (p_paddr h) (p_memsz h) = inr (p_paddr h + p_memsz h)).
  { intros Hp. destruct (u64_add_spec (p_paddr h) (p_memsz h)) as [[_ ->]|[Hov _]]; [done|].
    unfold elf64_load_address in Hl. rewrite Hp in Hl. lia. }
  set (w1 := mkWalk (<[_ := _]> _) _ _ _ _ _ _ _ _ _ _).
  set (phys := if negb (p_paddr h =? 0) then _ else _).
  assert (exists w2, phys = inr w2 /\ walk_segments w2 = walk_segments w1 /\
    walk_segment_count w2 = walk_segment_count w1 /\ walk_load_base w2 = walk_load_base w1 /\
    walk_load_end w2 = walk_load_end w1 /\ walk_entry_load_address w2 = walk_entry_load_address w /\
    walk_entry_is_loadable w2 = walk_entry_is_loadable w) as (w2 & -> & E1 & E2 & E3 & E4 & E5 & E6).
  { subst phys. destruct (negb (p_paddr h =? 0)); [rewrite Hp by done|]; eexists; split; done. }
  assert (Hen : (e_entry >=? p_vaddr h) && (e_entry <? p_vaddr h + p_memsz h) &&
      (Z.land (segment_flags (elf64_segment h)) RIBON_LOAD_SEGMENT_EXECUTE !=? 0) = true <-> enters e_entry h).
  { unfold enters, executable. rewrite !andb_true_iff, Z.leb_le, Z.ltb_lt. tauto. }
  assert (E3' : walk_load_base w1 = Z.min (elf64_load_address h) (walk_load_base w)).
  { cbn [w1 walk_load_base]. destruct (Z.ltb_spec (elf64_load_address h) (walk_load_base w)); lia. }
  assert (E4' : walk_load_end w1 = Z.max (elf64_load_address h + p_memsz h) (walk_load_end w)).
  { cbn [w1 walk_load_end]. destruct (Z.ltb_spec (walk_load_end w) (elf64_load_address h + p_memsz h)); lia. }
  destruct (_ && _ && _) eqn:Eg; eexists; (split; [reflexivity|]);
    apply (walked_snoc e_entry array done w); cbn [walk_segments walk_segment_count walk_load_base
      walk_load_end walk_entry_is_loadable walk_entry_load_address]; try done; try congruence.
  - tauto.
  - intros _. left. destruct Hen as [Hen _]. specialize (Hen eq_refl). split; [done|].
    apply wrap_small, word64. destruct Hen. lia.
  - rewrite E6. intuition congruence.
  - rewrite E6, E5. auto.
Qed.

#[global] Instance headers_apart_sym : Symmetric headers_apart.
Proof. unfold headers_apart. intros h k. tauto. Qed.

(** A load header is stored, or there is a reason why not. *)
Lemma header_step_load size e_entry array done w h :
  size <= UINT64_MAX -> header_typed h -> walked e_entry array done w -> p_type h = RIBON_ELF_PHDR_LOAD ->
  match elf64_header_step size (Z.of_nat array) e_entry w h with
  | inr w' => header_ok size h /\ Forall (fun k => headers_apart k h) done /\
      (length done < array)%nat /\ walked e_entry array (done ++ [h]) w'
  | inl (status, _) => status <> LOADER_OK /\
      ~ (header_ok size h /\ Forall (fun k => headers_apart k h) done /\ (length done < array)%nat)
  end.
Proof.
  intros Hsize Hh Hw Ht. unfold elf64_header_step. rewrite Ht. cbn [negb Z.eqb RIBON_ELF_PHDR_LOAD].
  destruct (_ || _) eqn:G1.
  { split; [done|]. intros [[[] _ _ _ _ _] _]. apply orb_true_iff in G1 as [G1|G1]; bool_to_prop; lia. }
  destruct (_ && _ && negb _) eqn:G2.
  { split; [done|]. intros [[_ [|[]] _ _ _ _] _]; bool_to_prop; congruence. }
  destruct (_ && _) eqn:G3 at 1.
  { split; [done|]. intros [[_ _ Hc _ _ _] _]. bool_to_prop. by apply Hc in H. }
  destruct (_ && _) eqn:G4 at 1.
  { split; [done|]. intros [[_ _ _ Hc _ _] _]. bool_to_prop. by apply Hc in H. }
  bool_to_prop. pose proof (load_address_word h Hh) as Hl. pose proof Hh as (W1 & W2 & W3 & W4 & W5 & W6).
  rewrite word64 in Hl, W1, W2, W3, W4, W5, W6.
  destruct (u64_add_spec (p_offset h) (p_filesz h)) as [[B1 ->]|[B1 ->]];
    [|split; [done|]; intros [[_ _ _ _ ? _] _]; lia].
  destruct (u64_add_spec (elf64_load_address h) (p_memsz h)) as [[B2 ->]|[B2 ->]];
    [|split; [done|]; intros [[_ _ _ _ _ ?] _]; lia].
  destruct (u64_add_spec (p_vaddr h) (p_memsz h)) as [[B3 ->]|[B3 ->]];
    [|split; [done|]; intros [[_ _ _ _ _ ?] _]; lia].
  destruct (Z.ltb_spec size (p_offset h + p_filesz h)); [split; [done|]; intros [[_ _ _ _ ? _] _]; lia|].
  pose proof (overlap_loop (walk_segments w) done (elf64_load_address h) (elf64_load_address h + p_memsz h)
    (walked_segments _ _ _ _ Hw) (walked_memory _ _ _ _ Hw)) as Ho.
  rewrite (walked_count _ _ _ _ Hw). destruct (foldE _ _ _) as [st|[]] eqn:Ef.
  { apply foldE_inl in Ef as (? & ? & ? & ? & _ & _ & Ef). unfold elf64_overlap_step in Ef.
    split; [by repeat case_match; simplify_eq|]. intros (_ & Hf & _). apply Ho in Hf. done. }
  destruct Ho as [Ho _]. specialize (Ho eq_refl). unfold len.
  destruct (Z.leb_spec (Z.of_nat array) (Z.of_nat (length done))); [split; [done|]; intros (_ & _ & ?); lia|].
  destruct (account_walked e_entry array done w h Hh ltac:(lia) B2 B3 Hw ltac:(lia)) as (w' & -> & Hw').
  split; [|split; [exact Ho|split; [lia|done]]]. constructor; try lia.
  - destruct (Z.eqb_spec (p_align h) 0); [by left|]. destruct (Z.eqb_spec (p_align h) 1); [auto|].
    right. right. by destruct (ribon_is_power_of_two (p_align h)).
  - intros Ha. rewrite (proj2 (Z.ltb_lt 1 (p_align h)) Ha) in G3. cbn [andb] in G3. bool_to_prop. done.
  - intros Ha. rewrite (proj2 (Z.ltb_lt 1 (p_align h)) Ha) in G4. cbn [andb] in G4. bool_to_prop. done.
Qed.

Abbreviation loads hs := (filter (fun h => p_type h = RIBON_ELF_PHDR_LOAD) hs).

(** The load headers that fit behind [done]. *)
Definition headers_fit (size : Z) (array : nat) (done rest : list ElfHeader) : Prop :=
  Forall (header_ok size) rest /\ pairwise headers_apart (done ++ rest) /\
  (length (done ++ rest) <= array)%nat.

Lemma walked_length e_entry array done w : walked e_entry array done w -> (length done <= array)%nat.
Proof.
  intros H. pose proof (f_equal length (walked_segments _ _ _ _ H)) as E.
  rewrite length_take, length_fmap, (walked_array _ _ _ _ H) in E. lia.
Qed.

Lemma headers_loop size e_entry array hs done w :
  size <= UINT64_MAX -> Forall header_typed hs -> walked e_entry array done w -> pairwise headers_apart done ->
  match foldE (elf64_header_step size (Z.of_nat array) e_entry) hs w with
  | inr w' => headers_fit size array done (loads hs) /\ walked e_entry array (done ++ loads hs) w'
  | inl (status, _) => status <> LOADER_OK /\ ~ headers_fit size array done (loads hs)
  end.
Proof.
  intros Hs Hhs. revert done w. induction Hhs as [|h hs Hh Hhs IH]; intros done w Hw Hp; cbn [foldE].
  { unfold headers_fit. rewrite app_nil_r. split; [|done]. pose proof (walked_length _ _ _ _ Hw). auto. }
  destruct (decide (p_type h = RIBON_ELF_PHDR_LOAD)) as [Ht|Ht].
  - rewrite filter_cons_True by done. pose proof (header_step_load size e_entry array done w h Hs Hh Hw Ht) as Hstep.
    destruct (elf64_header_step _ _ _ w h) as [[st w1]|w1].
    + destruct Hstep as [Hst Hno]. split; [done|]. intros (Hok & Hpw & Hlen). apply Hno.
      rewrite cons_middle, app_assoc in Hpw, Hlen. apply pairwise_app_l, pairwise_snoc in Hpw as [_ Hpw].
      rewrite !length_app in Hlen. apply Forall_cons in Hok as [Hok _]. cbn [length] in Hlen. split; [done|split; [done|lia]].
    + destruct Hstep as (Hok & Hap & Hlen & Hw1).
      specialize (IH (done ++ [h]) w1 Hw1 (proj2 (pairwise_snoc _ _ _) (conj Hp Hap))).
      rewrite (cons_middle h done). unfold headers_fit in *. rewrite <- app_assoc in IH. cbn [app] in IH.
      destruct (foldE _ hs w1) as [[st w2]|w2]; rewrite Forall_cons; tauto.
  - rewrite filter_cons_False by done. unfold elf64_header_step at 1.
    rewrite (proj2 (Z.eqb_neq _ _) Ht). cbn [negb]. by apply IH.
Qed.

(** ** The analyzer *)

Lemma elf_magic_bytes data : RIBON_ELF64_HEADER_SIZE <= len data ->
  slice 0 7 data = [0x7f; 69; 76; 70; RIBON_ELF_CLASS_64; RIBON_ELF_DATA_LSB; RIBON_ELF_VERSION_CURRENT] <->
  (byte_at data 0 !=? 0x7f) || (byte_at data 1 !=? 69) || (byte_at data 2 !=? 76) || (byte_at data 3 !=? 70) = false /\
  (byte_at data 4 !=? RIBON_ELF_CLASS_64) || (byte_at data 5 !=? RIBON_ELF_DATA_LSB) ||
  (byte_at data 6 !=? RIBON_ELF_VERSION_CURRENT) = false.
Proof.
  unfold RIBON_ELF64_HEADER_SIZE. intros H.
  destruct data as [|a [|b [|c [|d [|e [|f [|g data]]]]]]]; try (unfold len in H; cbn [length] in H; lia).
  change (slice 0 7 (a :: b :: c :: d :: e :: f :: g :: data)) with [a; b; c; d; e; f; g].
  set (l := a :: b :: c :: d :: e :: f :: g :: data).
  change (byte_at l 0) with a. change (byte_at l 1) with b. change (byte_at l 2) with c.
  change (byte_at l 3) with d. change (byte_at l 4) with e. change (byte_at l 5) with f. change (byte_at l 6) with g.
  rewrite !orb_false_iff, !negb_false_iff, !Z.eqb_eq. split; [by intros [=]|]. intros [[[[-> ->] ->] ->] [[-> ->] ->]]. done.
Qed.

Lemma elf64_headers_typed data : octets data -> RIBON_ELF64_HEADER_SIZE <= len data ->
  ribon_read_le16 data 54 = RIBON_ELF64_PHDR_SIZE ->
  ribon_read_le64 data 32 + RIBON_ELF64_PHDR_SIZE * ribon_read_le16 data 56 <= len data ->
  Forall header_typed (elf64_headers data).
Proof.
  intros Ho Hlen Hent Htab. apply Forall_fmap, Forall_forall. intros i Hi. apply elem_of_seqZ in Hi. cbn [compose].
  unfold RIBON_ELF64_HEADER_SIZE in Hlen. pose proof (load_u64_word data 32 Ho ltac:(lia) ltac:(lia)) as Hw.
  rewrite word64 in Hw. unfold RIBON_ELF64_PHDR_SIZE in *. rewrite read_le64_load in *.
  apply header_at_typed; unfold RIBON_ELF64_PHDR_SIZE; (done || nia).
Qed.

(** The finished plan is safe. *)
Lemma final_plan_safe data size e_entry array w out :
  0 <= size -> Forall header_typed (elf64_loads data) -> headers_fit size array [] (elf64_loads data) ->
  walked e_entry array (elf64_loads data) w -> walk_entry_is_loadable w = true ->
  segments_of (elf64_final_plan out e_entry w) = elf64_segment <$> elf64_loads data /\
  load_plan_safe size (elf64_final_plan out e_entry w).
Proof.
  intros Hsize Hty (Hok & Hpw & _) Hw He. cbn [app] in Hpw.
  assert (Hsegs : segments_of (elf64_final_plan out e_entry w) = elf64_segment <$> elf64_loads data).
  { unfold segments_of. cbn [elf64_final_plan plan_segment_count plan_segments default].
    rewrite (walked_count _ _ _ _ Hw). unfold len. rewrite Nat2Z.id. apply Hw. }
  split; [done|]. constructor; rewrite ?Hsegs.
  - apply Forall_fmap, Forall_forall. intros h Hh.
    rewrite Forall_forall in Hok, Hty. specialize (Hok h Hh). specialize (Hty h Hh).
    pose proof (walked_bounds _ _ _ _ Hw) as Hb. rewrite Forall_forall in Hb. specialize (Hb h Hh).
    destruct Hty as (W1 & W2 & W3 & W4 & W5 & W6), Hok as [[] _ _ _ ? []]. rewrite word64 in *.
    repeat split; cbn in *; try lia; try apply Hb.
  - apply pairwise_all; [intros s t; unfold apart; tauto|]. apply pairwise_fmap. exact Hpw.
  - cbn. pose proof (walked_range _ _ _ _ Hw). lia.
  - destruct (walked_address _ _ _ _ Hw He) as (h & Hh & [Hen Hex] & Ha). exists (elf64_segment h).
    split; [by apply list_elem_of_fmap_2|split; [done|]]. cbn. rewrite Ha.
    unfold segment_end. cbn [elf64_segment segment_load_address segment_memory_size]. lia.
  - done.
Qed.

(** What the analyzer leaves in the storage of [plan] for the image [data]. *)
Definition elf64_outcome (data : bytes) (plan : RibonDirectLoadPlan)
    (r : RibonLoaderStatus * option RibonValidatedImage * option RibonDirectLoadPlan) : Prop :=
  exists status v p, r = (status, Some v, Some p) /\
    (status = LOADER_OK <-> elf64_loadable data (plan_segment_capacity plan)) /\
    (status = LOADER_OK ->
       segments_of p = elf64_segment <$> elf64_loads data /\ load_plan_safe (len data) p /\
       plan_segment_count p = len (elf64_loads data) /\ plan_entry_point p = ribon_read_le64 data 24 /\
       storage_typed p /\
       validated_format v = RIBON_EXECUTABLE_FORMAT_ELF64 /\ validated_image_size v = len data /\
       validated_execution_support v = RIBON_IMAGE_EXECUTION_DIRECT_ENTRY).

Lemma outcome_rejected data plan status v p : status <> LOADER_OK ->
  ~ elf64_loadable data (plan_segment_capacity plan) -> elf64_outcome data plan (status, Some v, Some p).
Proof. intros Hs Hl. exists status, v, p. split; [done|]. split; [|done]. tauto. Qed.

Ltac rejected := apply outcome_rejected; [done|].

(** The part after the header checks. *)
Lemma elf64_table_outcome data plan :
  octets data -> len data <= UINT64_MAX -> storage_typed plan -> RIBON_ELF64_HEADER_SIZE <= len data ->
  slice 0 7 data = [0x7f; 69; 76; 70; RIBON_ELF_CLASS_64; RIBON_ELF_DATA_LSB; RIBON_ELF_VERSION_CURRENT] ->
  ribon_read_le16 data 16 = RIBON_ELF_TYPE_EXEC \/ ribon_read_le16 data 16 = RIBON_ELF_TYPE_DYN ->
  ribon_read_le32 data 20 = RIBON_ELF_VERSION_CURRENT /\
    ribon_read_le16 data 52 = RIBON_ELF64_HEADER_SIZE /\ ribon_read_le16 data 54 = RIBON_ELF64_PHDR_SIZE ->
  ribon_read_le64 data 32 + RIBON_ELF64_PHDR_SIZE * ribon_read_le16 data 56 <= len data ->
  forall validated, validated_format validated = RIBON_EXECUTABLE_FORMAT_ELF64 ->
  validated_image_size validated = len data ->
  validated_execution_support validated = RIBON_IMAGE_EXECUTION_DIRECT_ENTRY ->
  elf64_outcome data plan
    match foldE (elf64_header_step (len data) (plan_segment_capacity plan) (ribon_read_le64 data 24))
            (elf64_headers data)
            (mkWalk (default [] (plan_segments plan)) 0 UINT64_MAX 0 UINT64_MAX 0 UINT64_MAX 0 0 0 false) with
    | inl (status, w) => (status, Some empty_validated, Some (elf64_partial_plan plan w))
    | inr w =>
      let fail status := (status, Some empty_validated, Some (elf64_partial_plan plan w)) in
      if walk_segment_count w =? 0 then fail LOADER_NO_LOAD_SEGMENTS
      else if negb (walk_entry_is_loadable w) then fail LOADER_BAD_FORMAT
      else if walk_load_end w <? walk_load_base w then fail LOADER_OVERFLOW
      else (LOADER_OK, Some validated, Some (elf64_final_plan plan (ribon_read_le64 data 24) w))
    end.
Proof.
  intros Ho Hmax [Hst Hcap] Hlen Hmag Htype Hshape Htab v V1 V2 V3.
  pose proof (elf64_headers_typed data Ho Hlen (proj2 (proj2 Hshape)) Htab) as Hty.
  set (array := length (default [] (plan_segments plan))).
  assert (Hc : plan_segment_capacity plan = Z.of_nat array) by (rewrite <- Hst; done).
  pose proof (headers_loop (len data) (ribon_read_le64 data 24) array (elf64_headers data) []
    (mkWalk (default [] (plan_segments plan)) 0 UINT64_MAX 0 UINT64_MAX 0 UINT64_MAX 0 0 0 false)
    Hmax Hty) as Hloop. rewrite Hc. destruct (foldE _ _ _) as [[st w]|w] eqn:Ef.
  - destruct Hloop as [Hst' Hno]; [by constructor; try done; rewrite ?Exists_nil|done|].
    apply outcome_rejected; [done|]. intros [_ _ _ _ _ Hok Hd Hlen' _]. apply Hno. split; [done|].
    split; [by apply (pairwise_all headers_apart)|]. unfold elf64_loads, len in Hlen'. rewrite Hc in Hlen'. cbn [app]. lia.
  - destruct Hloop as [Hfit Hw]; [by constructor; try done; rewrite ?Exists_nil|done|]. cbn [app] in Hw.
    assert (Hl : walk_entry_is_loadable w = true -> elf64_loadable data (plan_segment_capacity plan)).
    { intros He. destruct Hfit as (? & ? & ?). constructor; try done.
      - by apply pairwise_all; [apply _|].
      - rewrite Hc. unfold len. cbn [app] in *. unfold elf64_loads. lia.
      - by apply (walked_entry _ _ _ _ Hw). }
    cbv zeta. rewrite (walked_count _ _ _ _ Hw). destruct (Z.eqb_spec (len (loads (elf64_headers data))) 0) as [Hz|Hz].
    { rejected. intros Hl'. pose proof (elf_entry _ _ Hl') as He. unfold elf64_loads in He.
      destruct (loads (elf64_headers data)); [by apply Exists_nil in He|]. rewrite len_cons in Hz.
      pose proof (len_nonneg l). lia. }
    destruct (walk_entry_is_loadable w) eqn:He; cbn [negb].
    2:{ rejected. intros Hl'. pose proof (elf_entry _ _ Hl') as Hx. apply (walked_entry _ _ _ _ Hw) in Hx. congruence. }
    destruct (walked_address _ _ _ _ Hw He) as (h & Hh & [Hen _] & _).
    pose proof (walked_bounds _ _ _ _ Hw) as Hb. rewrite Forall_forall in Hb. specialize (Hb h Hh).
    destruct (Z.ltb_spec (walk_load_end w) (walk_load_base w)); [lia|].
    destruct (final_plan_safe data (len data) (ribon_read_le64 data 24) array w plan) as [Hsegs Hsafe]; try done.
    { apply len_nonneg. } { apply Hw. }
    exists LOADER_OK, v, (elf64_final_plan plan (ribon_read_le64 data 24) w). split; [done|]. split; [tauto|].
    intros _. do 2 (split; [done|]). split; [apply Hw|]. split; [done|]. split; [|done]. split; [|done].
    change (len (walk_segments w) = plan_segment_capacity plan).
    unfold len. rewrite (walked_array _ _ _ _ Hw), Hc. done.
Qed.

Lemma elf64_analyzed image validated plan data :
  payload_typed image -> payload_data image = Some data -> storage_typed plan ->
  ribon_direct_load_plan_has_storage (Some plan) = true ->
  elf64_outcome data plan (elf64_analyze (Some image) (Some validated) (Some plan)).
Proof.
  intros (Hpt & Hoct & Hsz) Hd Hst Hhas. specialize (Hpt _ Hd).
  rewrite Hd in Hoct. cbn [default] in Hoct. rewrite word64 in Hsz.
  unfold elf64_analyze. rewrite Hd, Hhas, <- Hpt. cbn [negb].
  destruct (Z.ltb_spec (len data) RIBON_ELF64_HEADER_SIZE) as [|Hlen]; [rejected; intros []; lia|].
  destruct (_ || _) eqn:G1 at 1.
  { rejected. intros [_ Hm _ _ _ _ _ _ _]. apply elf_magic_bytes in Hm as [Hm _]; [congruence|done]. }
  destruct (_ || _) eqn:G2 at 1.
  { rejected. intros [_ Hm _ _ _ _ _ _ _]. apply elf_magic_bytes in Hm as [_ Hm]; [congruence|done]. }
  destruct (_ && _) eqn:G3 at 1; [rejected; intros [_ _ [] _ _ _ _ _ _]; bool_to_prop; done|].
  destruct (_ || _) eqn:G4 at 1.
  { rejected. intros Hl. destruct (elf_shape _ _ Hl) as (F1 & F2 & F3). rewrite F1, F2, F3 in G4.
    cbn in G4. apply Z.eqb_eq in G4. pose proof (elf_entry _ _ Hl) as He. unfold elf64_loads, elf64_headers in He.
    rewrite G4 in He. by apply Exists_nil in He. }
  pose proof (proj2 (elf_magic_bytes data Hlen) (conj G1 G2)) as Hmag. clear G1 G2.
  apply orb_false_iff in G4 as [[[F1 F2]%orb_false_iff F3]%orb_false_iff F4]. bool_to_prop.
  pose proof (load_u16_word data 56 Hoct ltac:(lia) ltac:(unfold RIBON_ELF64_HEADER_SIZE in Hlen; lia)) as Hn.
  rewrite word16 in Hn. change (load_u16 data 56) with (ribon_read_le16 data 56) in Hn.
  rewrite F3, u64_mul_spec by (unfold RIBON_ELF64_PHDR_SIZE, UINT16_MAX, UINT64_MAX in *; lia).
  destruct (u64_add_spec (ribon_read_le64 data 32) (RIBON_ELF64_PHDR_SIZE * ribon_read_le16 data 56))
    as [[B ->]|[B ->]]; [|rejected; intros []; lia].
  destruct (Z.ltb_spec (len data) (ribon_read_le64 data 32 + RIBON_ELF64_PHDR_SIZE * ribon_read_le16 data 56));
    [rejected; intros []; lia|].
  rewrite <- F3. cbn [plan_segment_capacity plan_segments ribon_direct_load_plan_reset].
  rewrite <- (foldE_fmap (elf64_header_step (len data) (plan_segment_capacity plan) (ribon_read_le64 data 24))
    (fun index => elf64_header_at data (ribon_read_le64 data 32 + index * ribon_read_le16 data 54))).
  apply (elf64_table_outcome data plan) with (validated := mkValidated _ _ _ _ _ _ _ _); try done; lia.
Qed.

#[global] Instance elf64_direct : DirectFormat elf64_ops.
Proof.
  intros analyze image v plan v' p' [= <-] Hi Hs E.
  assert (exists data, payload_data image = Some data /\ ribon_direct_load_plan_has_storage (Some plan) = true)
    as (data & Hd & Hhas).
  { unfold elf64_analyze in E. destruct (payload_data image) as [data|]; [|done]. exists data.
    destruct (ribon_direct_load_plan_has_storage (Some plan)); [done|]. done. }
  destruct (elf64_analyzed image v plan data Hi Hd Hs Hhas) as (st & v1 & p1 & E1 & Hl & Hok).
  rewrite E in E1. injection E1 as <- -> ->. destruct (Hok eq_refl) as (Hsegs & Hsafe & Hc & _ & Hty & ? & ? & ?).
  destruct Hi as [Hp _]. rewrite <- (Hp _ Hd). exists v1, p1. do 4 (split; [done|]). split; [|done].
  destruct Hty as [<- _]. apply (f_equal length) in Hsegs. unfold segments_of in Hsegs.
  rewrite length_take, length_fmap in Hsegs. rewrite Hc in *. unfold len in *.
  lia.
Qed.

(** C9: The ELF64 analyzer accepts exactly the images that [elf64_loadable]
    describes: a 64-bit little-endian executable whose program header table is
    inside the image, whose load headers are consistent, aligned, backed by the
    image, without wrap-around and pairwise disjoint in memory, no more than the
    caller has room for, with an entry point in one that may be executed.  The plan
    of an accepted image has one segment per load header, in order, and is safe. *)
Theorem elf64_analyze_exact image validated plan data :
  payload_typed image -> payload_data image = Some data -> storage_typed plan ->
  ribon_direct_load_plan_has_storage (Some plan) = true ->
  elf64_outcome data plan (elf64_analyze (Some image) (Some validated) (Some plan)).
Proof. apply elf64_analyzed. Qed.
