(* ===== verification/LinuxImage.v ===== *)
(** * Linux images ([src/image-formats/linux_aarch64.c], [linux_riscv64.c])

    The two raw Linux formats have a header of 64 bytes and one segment, relative to
    the placement window of the product.  Each accepts exactly the headers it
    documents and leaves a safe plan. *)

From S2P Require Import Prelude.
From S2P Require Import Buffer.
From S2P Require Import Wire.
From S2P Require Import Plugin.
From S2P Require Import PayloadImage.

Definition linux_image_read_le32 (b : bytes) (o : Z) : Z := load_u32 b o.
Definition linux_image_read_le64 (b : bytes) (o : Z) : Z :=
  Z.lor (linux_image_read_le32 b o) (Z.shiftl (linux_image_read_le32 b (o + 4)) 32).

Definition linux_image_reset (out : RibonDirectLoadPlan) : RibonDirectLoadPlan :=
  mkPlan sizeof_RibonDirectLoadPlan RIBON_DIRECT_LOAD_PLAN_ABI_VERSION
    0 0 0 0 0 0 0 0 0 0 0 0 0 0 0 0 (plan_segments out) (plan_segment_capacity out).

Definition RIBON_LINUX_ALL_ACCESS : Z :=
  Z.lor (Z.lor RIBON_LOAD_SEGMENT_READ RIBON_LOAD_SEGMENT_WRITE) RIBON_LOAD_SEGMENT_EXECUTE.

Definition RIBON_LINUX_PLAN_FLAGS : Z :=
  Z.lor (Z.lor RIBON_LOAD_PLAN_ENTRY_LOAD_VALID RIBON_LOAD_PLAN_RUNTIME_ENTRY_VALID)
    RIBON_LOAD_PLAN_RELOCATABLE.

(** ** AArch64 *)

Definition RIBON_LINUX_AARCH64_HEADER_SIZE : Z := 64.
Definition RIBON_LINUX_AARCH64_MAGIC : Z := 0x644d5241.
Definition RIBON_LINUX_AARCH64_MACHINE : Z := 183.
Definition RIBON_LINUX_AARCH64_FLAG_BIG_ENDIAN : Z := Z.shiftl 1 0.
Definition RIBON_LINUX_AARCH64_KNOWN_FLAGS : Z := 0xf.
Definition RIBON_LINUX_AARCH64_MIN_ALIGNMENT : Z := 4096.

Definition linux_aarch64_image_analyze : RibonImageAnalyzeFn := fun image validated_out plan =>
  match image, validated_out, plan with
  | Some i, Some _, Some out =>
    match payload_data i with
    | None => (LOADER_BAD_ARGUMENT, validated_out, plan)
    | Some b =>
      if negb (ribon_direct_load_plan_has_storage plan) then (LOADER_BAD_ARGUMENT, validated_out, plan)
      else
      let out := linux_image_reset out in
      let fail status := (status, Some empty_validated, Some out) in
      if payload_size i <? RIBON_LINUX_AARCH64_HEADER_SIZE then fail LOADER_TRUNCATED
      else if linux_image_read_le32 b 56 !=? RIBON_LINUX_AARCH64_MAGIC then fail LOADER_BAD_FORMAT
      else
      let text_offset := linux_image_read_le64 b 8 in
      let image_size := linux_image_read_le64 b 16 in
      let flags := linux_image_read_le64 b 24 in
      if (image_size =? 0) || (image_size <? payload_size i) ||
         (Z.land flags RIBON_LINUX_AARCH64_FLAG_BIG_ENDIAN !=? 0) ||
         (outside flags RIBON_LINUX_AARCH64_KNOWN_FLAGS !=? 0) ||
         (Z.land text_offset (RIBON_LINUX_AARCH64_MIN_ALIGNMENT - 1) !=? 0) ||
         (linux_image_read_le64 b 32 !=? 0) || (linux_image_read_le64 b 40 !=? 0) ||
         (linux_image_read_le64 b 48 !=? 0)
      then fail LOADER_UNSUPPORTED
      else if text_offset >? UINT64_MAX - image_size then fail LOADER_OVERFLOW
      else
      let image_end := text_offset + image_size in
      let segment := mkSegment 0 (payload_size i) image_size text_offset text_offset text_offset
        text_offset text_offset RIBON_LINUX_AARCH64_MIN_ALIGNMENT RIBON_LINUX_ALL_ACCESS in
      (LOADER_OK,
       Some (mkValidated sizeof_RibonValidatedImage RIBON_VALIDATED_IMAGE_ABI_VERSION
         RIBON_EXECUTABLE_FORMAT_LINUX_AARCH64 RIBON_LINUX_AARCH64_MACHINE 0
         RIBON_IMAGE_EXECUTION_DIRECT_ENTRY (payload_size i) flags),
       Some (mkPlan (plan_size out) (plan_abi_version out) 1 RIBON_LINUX_PLAN_FLAGS
         text_offset text_offset text_offset text_offset image_end text_offset image_end image_size
         text_offset image_end text_offset image_end 0 0
         (Some (<[0%nat := segment]> (default [] (plan_segments out)))) (plan_segment_capacity out)))
    end
  | _, _, _ => (LOADER_BAD_ARGUMENT, validated_out, plan)
  end.

Definition linux_aarch64_image_ops : RibonImageFormatOps :=
  mkFormatOps sizeof_RibonImageFormatOps RIBON_IMAGE_FORMAT_OPS_ABI_VERSION
    RIBON_EXECUTABLE_FORMAT_LINUX_AARCH64 RIBON_IMAGE_EXECUTION_DIRECT_ENTRY
    (Some linux_aarch64_image_analyze).

(** ** RISC-V *)

Definition RIBON_LINUX_RISCV64_HEADER_SIZE : Z := 64.
Definition RIBON_LINUX_RISCV64_MACHINE : Z := 243.
Definition RIBON_LINUX_RISCV64_TEXT_OFFSET : Z := 2 * 1024 * 1024.
Definition RIBON_LINUX_RISCV64_ALIGNMENT : Z := 2 * 1024 * 1024.
Definition RIBON_LINUX_RISCV64_MAX_IMAGE_SIZE : Z := 64 * 1024 * 1024.
Definition RIBON_LINUX_RISCV64_HEADER_VERSION : Z := 2.
Definition RIBON_LINUX_RISCV64_MAGIC : Z := 0x0000005643534952.
Definition RIBON_LINUX_RISCV64_MAGIC2 : Z := 0x05435352.
Definition RIBON_LINUX_RISCV64_FLAG_BIG_ENDIAN : Z := Z.shiftl 1 0.
Definition RIBON_LINUX_RISCV64_KNOWN_FLAGS : Z := RIBON_LINUX_RISCV64_FLAG_BIG_ENDIAN.

Definition linux_riscv64_read_le32 (b : bytes) (o : Z) : Z := load_u32 b o.
Definition linux_riscv64_read_le64 (b : bytes) (o : Z) : Z :=
  Z.lor (linux_riscv64_read_le32 b o) (Z.shiftl (linux_riscv64_read_le32 b (o + 4)) 32).

Definition linux_riscv64_reset (out : RibonDirectLoadPlan) : RibonDirectLoadPlan :=
  mkPlan sizeof_RibonDirectLoadPlan RIBON_DIRECT_LOAD_PLAN_ABI_VERSION
    0 0 0 0 0 0 0 0 0 0 0 0 0 0 0 0 (plan_segments out) (plan_segment_capacity out).

Definition linux_riscv64_image_analyze : RibonImageAnalyzeFn := fun image validated_out plan =>
  match image, validated_out, plan with
  | Some i, Some _, Some out =>
    match payload_data i with
    | None => (LOADER_BAD_ARGUMENT, validated_out, plan)
    | Some b =>
      if negb (ribon_direct_load_plan_has_storage plan) then (LOADER_BAD_ARGUMENT, validated_out, plan)
      else
      let out := linux_riscv64_reset out in
      let fail status := (status, Some empty_validated, Some out) in
      if payload_size i <? RIBON_LINUX_RISCV64_HEADER_SIZE then fail LOADER_TRUNCATED
      else
      let text_offset := linux_riscv64_read_le64 b 8 in
      let image_size := linux_riscv64_read_le64 b 16 in
      let flags := linux_riscv64_read_le64 b 24 in
      let version := linux_riscv64_read_le32 b 32 in
      let pe_header_offset := linux_riscv64_read_le32 b 60 in
      if (linux_riscv64_read_le64 b 48 !=? RIBON_LINUX_RISCV64_MAGIC) ||
         (linux_riscv64_read_le32 b 56 !=? RIBON_LINUX_RISCV64_MAGIC2) then fail LOADER_BAD_FORMAT
      else if (text_offset !=? RIBON_LINUX_RISCV64_TEXT_OFFSET) ||
         (image_size =? 0) || (image_size <? payload_size i) ||
         (image_size >? RIBON_LINUX_RISCV64_MAX_IMAGE_SIZE) ||
         (version !=? RIBON_LINUX_RISCV64_HEADER_VERSION) ||
         (Z.land flags RIBON_LINUX_RISCV64_FLAG_BIG_ENDIAN !=? 0) ||
         (outside flags RIBON_LINUX_RISCV64_KNOWN_FLAGS !=? 0) ||
         (linux_riscv64_read_le32 b 36 !=? 0) || (linux_riscv64_read_le64 b 40 !=? 0) ||
         ((pe_header_offset !=? 0) &&
          ((pe_header_offset <? RIBON_LINUX_RISCV64_HEADER_SIZE) ||
           (pe_header_offset >? payload_size i - 4) ||
           (linux_riscv64_read_le32 b pe_header_offset !=? 0x00004550)))
      then fail LOADER_UNSUPPORTED
      else
      let segment := mkSegment 0 (payload_size i) image_size 0 0 0 0 0
        RIBON_LINUX_RISCV64_ALIGNMENT RIBON_LINUX_ALL_ACCESS in
      (LOADER_OK,
       Some (mkValidated sizeof_RibonValidatedImage RIBON_VALIDATED_IMAGE_ABI_VERSION
         RIBON_EXECUTABLE_FORMAT_LINUX_RISCV64 RIBON_LINUX_RISCV64_MACHINE 0
         RIBON_IMAGE_EXECUTION_DIRECT_ENTRY (payload_size i)
         (Z.lor (Z.shiftl version 32) pe_header_offset)),
       Some (mkPlan (plan_size out) (plan_abi_version out) 1 RIBON_LINUX_PLAN_FLAGS
         0 0 0 0 image_size 0 image_size image_size 0 image_size 0 image_size 0 0
         (Some (<[0%nat := segment]> (default [] (plan_segments out)))) (plan_segment_capacity out)))
    end
  | _, _, _ => (LOADER_BAD_ARGUMENT, validated_out, plan)
  end.

Definition linux_riscv64_image_ops : RibonImageFormatOps :=
  mkFormatOps sizeof_RibonImageFormatOps RIBON_IMAGE_FORMAT_OPS_ABI_VERSION
    RIBON_EXECUTABLE_FORMAT_LINUX_RISCV64 RIBON_IMAGE_EXECUTION_DIRECT_ENTRY
    (Some linux_riscv64_image_analyze).

(** ** The plans are safe *)

Lemma single_segment p s : storage_typed p -> ribon_direct_load_plan_has_storage (Some p) = true ->
  take 1 (<[0%nat := s]> (default [] (plan_segments p))) = [s].
Proof.
  intros [Hs _] Hh. cbn in Hh. bool_to_prop. destruct (default [] (plan_segments p)); [done|]. reflexivity.
Qed.

Lemma storage_insert p s n : storage_typed p -> forall q,
  plan_segments q = Some (<[n := s]> (default [] (plan_segments p))) ->
  plan_segment_capacity q = plan_segment_capacity p -> storage_typed q.
Proof. intros [Hs Hc] q E1 E2. split; rewrite ?E2; [|done]. rewrite E1, <- Hs. unfold len. cbn. by rewrite length_insert. Qed.

(** A plan of one segment that starts at its load address. *)
Lemma single_safe size p s :
  segments_of p = [s] -> segment_safe size (plan_load_base p) (plan_load_end p) s ->
  segment_load_address s = plan_load_base p -> plan_entry_load_address p = plan_load_base p ->
  plan_runtime_entry_address p = plan_entry_load_address p -> executable s = true ->
  0 <= plan_load_base p /\ plan_load_end p <= UINT64_MAX /\
    plan_memory_size p = plan_load_end p - plan_load_base p /\
    plan_runtime_load_base p = plan_load_base p /\ plan_runtime_load_end p = plan_load_end p ->
  load_plan_safe size p.
Proof.
  intros Hs Hsafe Hl He Hr Hx Hb. constructor; rewrite ?Hs; try done.
  - by apply Forall_singleton.
  - intros i j x y Hi Hj Hij. apply list_lookup_singleton_Some in Hi as [-> _], Hj as [-> _]. done.
  - exists s. split; [by left|]. split; [done|]. unfold segment_end.
    destruct Hsafe as (_ & _ & _ & _ & ? & _). lia.
Qed.

Lemma linux_word b o : octets b -> 0 <= o -> o + 8 <= len b -> 0 <= linux_image_read_le64 b o <= UINT64_MAX.
Proof. intros. apply word64. change (linux_image_read_le64 b o) with (load_u64 b o). by apply load_u64_word. Qed.

#[global] Instance linux_aarch64_direct : DirectFormat linux_aarch64_image_ops.
Proof.
  intros analyze image v plan v' p' [= <-] (Hp & Hoct & Hsz) Hs. unfold linux_aarch64_image_analyze.
  destruct (payload_data image) as [b|]; [|done]. specialize (Hp b eq_refl). cbn [default] in Hoct.
  destruct (ribon_direct_load_plan_has_storage (Some plan)) eqn:Hhas; [|done]. cbn [negb].
  destruct (Z.ltb_spec (payload_size image) RIBON_LINUX_AARCH64_HEADER_SIZE); [done|].
  destruct (linux_image_read_le32 b 56 !=? RIBON_LINUX_AARCH64_MAGIC); [done|].
  unfold RIBON_LINUX_AARCH64_HEADER_SIZE in *.
  pose proof (linux_word b 8 Hoct ltac:(lia) ltac:(lia)). pose proof (linux_word b 16 Hoct ltac:(lia) ltac:(lia)).
  destruct (_ || _) eqn:G; [done|]. destruct (Z.ltb_spec (UINT64_MAX - linux_image_read_le64 b 16) (linux_image_read_le64 b 8)); [done|].
  bool_to_prop. intros [= <- <-]. eexists _, _. split; [reflexivity|]. split; [reflexivity|].
  set (s := mkSegment _ _ _ _ _ _ _ _ _ _). set (p := mkPlan _ _ _ _ _ _ _ _ _ _ _ _ _ _ _ _ _ _ _ _).
  assert (Hseg : segments_of p = [s]) by exact (single_segment plan s Hs Hhas).
  split; [apply (single_safe _ p s Hseg); cbn; try done; try lia; repeat split; unfold segment_end; cbn; try lia|].
  split; [by apply (storage_insert plan s 0 Hs)|]. split; [|done].
  destruct Hs as [_ Hc]. rewrite word32 in Hc. cbn in Hhas |- *. bool_to_prop. lia.
Qed.

#[global] Instance linux_riscv64_direct : DirectFormat linux_riscv64_image_ops.
Proof.
  intros analyze image v plan v' p' [= <-] (Hp & Hoct & Hsz) Hs. unfold linux_riscv64_image_analyze.
  destruct (payload_data image) as [b|]; [|done]. specialize (Hp b eq_refl). cbn [default] in Hoct.
  destruct (ribon_direct_load_plan_has_storage (Some plan)) eqn:Hhas; [|done]. cbn [negb].
  destruct (Z.ltb_spec (payload_size image) RIBON_LINUX_RISCV64_HEADER_SIZE); [done|].
  destruct (_ || _) eqn:G1 at 1; [done|]. destruct (_ || _) eqn:G at 1; [done|].
  unfold RIBON_LINUX_RISCV64_HEADER_SIZE, RIBON_LINUX_RISCV64_MAX_IMAGE_SIZE in *.
  bool_to_prop. intros [= <- <-]. eexists _, _. split; [reflexivity|]. split; [reflexivity|].
  set (s := mkSegment _ _ _ _ _ _ _ _ _ _). set (p := mkPlan _ _ _ _ _ _ _ _ _ _ _ _ _ _ _ _ _ _ _ _).
  assert (Hseg : segments_of p = [s]) by exact (single_segment plan s Hs Hhas).
  assert (linux_riscv64_read_le64 b 16 <= UINT64_MAX) by (unfold UINT64_MAX; lia).
  split; [apply (single_safe _ p s Hseg); cbn; try done; try lia; repeat split; unfold segment_end; cbn; try lia|].
  split; [by apply (storage_insert plan s 0 Hs)|]. split; [|done].
  destruct Hs as [_ Hc]. rewrite word32 in Hc. cbn in Hhas |- *. bool_to_prop. lia.
Qed.
