(* ===== verification/PeCoff.v ===== *)
(** * PE32+ images ([src/image-formats/pe_coff.c])

    The analyzer of PE32+ executables.  It serves two callers: with a plan it lays
    the sections out at the preferred base, without one it only validates an image
    that the firmware is going to load. *)

From S2P Require Import Prelude.
From S2P Require Import Buffer.
From S2P Require Import Wire.
From S2P Require Import PayloadImage.

Definition RIBON_PE_SIGNATURE_OFFSET_FIELD : Z := 0x3c.
Definition RIBON_PE_COFF_HEADER_SIZE : Z := 20.
Definition RIBON_PE32_PLUS_MAGIC : Z := 0x20b.
Definition RIBON_PE32_PLUS_OPTIONAL_MINIMUM : Z := 112.
Definition RIBON_PE_SECTION_HEADER_SIZE : Z := 40.
Definition RIBON_PE_SCN_MEM_EXECUTE : Z := 0x20000000.
Definition RIBON_PE_SCN_MEM_READ : Z := 0x40000000.
Definition RIBON_PE_SCN_MEM_WRITE : Z := 0x80000000.
Definition RIBON_PE_MAX_SECTIONS : Z := 96.

Definition pe_read_u16 (b : bytes) (o : Z) : Z := load_u16 b o.
Definition pe_read_u32 (b : bytes) (o : Z) : Z := load_u32 b o.
Definition pe_read_u64 (b : bytes) (o : Z) : Z :=
  Z.lor (pe_read_u32 b o) (Z.shiftl (pe_read_u32 b (o + 4)) 32).

Definition pe_add (lhs rhs : Z) : option Z := if lhs >? UINT64_MAX - rhs then None else Some (lhs + rhs).

Definition pe_segment_flags (characteristics : Z) : Z :=
  let flags := 0 in
  let flags := if Z.land characteristics RIBON_PE_SCN_MEM_READ !=? 0
               then Z.lor flags RIBON_LOAD_SEGMENT_READ else flags in
  let flags := if Z.land characteristics RIBON_PE_SCN_MEM_WRITE !=? 0
               then Z.lor flags RIBON_LOAD_SEGMENT_WRITE else flags in
  if Z.land characteristics RIBON_PE_SCN_MEM_EXECUTE !=? 0
  then Z.lor flags RIBON_LOAD_SEGMENT_EXECUTE else flags.

(** The fields of a section header; [virtual_size] is the raw size when the header
    has none. *)
Record PeSection := mkSection {
  virtual_size : Z;
  virtual_address : Z;
  raw_size : Z;
  raw_offset : Z;
  characteristics : Z;
}.

Definition pe_section_at (b : bytes) (section : Z) : PeSection :=
  let size := pe_read_u32 b (section + 8) in
  let raw := pe_read_u32 b (section + 16) in
  mkSection (if size =? 0 then raw else size) (pe_read_u32 b (section + 12)) raw
    (pe_read_u32 b (section + 20)) (pe_read_u32 b (section + 36)).

(** The locals of the loop over the sections, with the segment array and its count;
    they are the caller's and used only when there is a plan. *)
Record PeWalk := mkPeWalk {
  pe_segments : list RibonLoadSegment;
  pe_segment_count : Z;
  pe_image_start : Z;
  pe_image_end : Z;
  pe_emitted_segments : Z;
  pe_entry_seen : bool;
}.

(** The check of a section against an earlier one. *)
Definition pe_overlap_step (image_base segment_base segment_end : Z) (_ : unit) (previous : PeSection) :
    RibonLoaderStatus + unit :=
  if virtual_size previous =? 0 then inr tt
  else
    match pe_add image_base (virtual_address previous) with
    | None => inl LOADER_OVERLAPPING_SEGMENTS
    | Some previous_base =>
      match pe_add previous_base (virtual_size previous) with
      | None => inl LOADER_OVERLAPPING_SEGMENTS
      | Some previous_end =>
        if (segment_base <? previous_end) && (previous_base <? segment_end)
        then inl LOADER_OVERLAPPING_SEGMENTS else inr tt
      end
    end.

Definition pe_segment (section_alignment segment_base : Z) (s : PeSection) : RibonLoadSegment :=
  mkSegment (raw_offset s) (raw_size s) (virtual_size s) segment_base segment_base segment_base
    segment_base segment_base section_alignment (pe_segment_flags (characteristics s)).

(** One section; [planned] is [out != 0] and [sections] the whole table. *)
Definition pe_section_step (planned : bool) (size image_base section_alignment entry_rva : Z)
    (sections : list PeSection) (w : PeWalk) (index : Z) : (RibonLoaderStatus * PeWalk) + PeWalk :=
  let s := nth (Z.to_nat index) sections (mkSection 0 0 0 0 0) in
  if virtual_size s =? 0 then inr w
  else
    match pe_add (raw_offset s) (raw_size s), pe_add image_base (virtual_address s) with
    | Some raw_end, Some segment_base =>
      match pe_add segment_base (virtual_size s) with
      | None => inl (LOADER_BAD_FORMAT, w)
      | Some segment_end =>
        if (raw_end >? size) || (planned && (raw_size s >? virtual_size s)) ||
           (planned && (virtual_address s mod section_alignment !=? 0))
        then inl (LOADER_BAD_FORMAT, w)
        else
          match foldE (pe_overlap_step image_base segment_base segment_end)
                  (take (Z.to_nat index) sections) tt with
          | inl status => inl (status, w)
          | inr _ =>
            inr (mkPeWalk
              (if planned then <[Z.to_nat (pe_segment_count w) := pe_segment section_alignment segment_base s]>
                                 (pe_segments w) else pe_segments w)
              (if planned then pe_segment_count w + 1 else pe_segment_count w)
              (if segment_base <? pe_image_start w then segment_base else pe_image_start w)
              (if segment_end >? pe_image_end w then segment_end else pe_image_end w)
              (pe_emitted_segments w + 1)
              (if (entry_rva >=? virtual_address s) && (entry_rva <? virtual_address s + virtual_size s) &&
                  (Z.land (pe_segment_flags (characteristics s)) RIBON_LOAD_SEGMENT_EXECUTE !=? 0)
               then true else pe_entry_seen w))
          end
      end
    | _, _ => inl (LOADER_BAD_FORMAT, w)
    end.

(** The plan before the loop, with the count and array the loop has reached. *)
Definition pe_partial_plan (out : RibonDirectLoadPlan) (w : PeWalk) : RibonDirectLoadPlan :=
  mkPlan sizeof_RibonDirectLoadPlan RIBON_DIRECT_LOAD_PLAN_ABI_VERSION (pe_segment_count w)
    0 0 0 0 UINT64_MAX 0 UINT64_MAX 0 0 UINT64_MAX 0 UINT64_MAX 0 0 0
    (Some (pe_segments w)) (plan_segment_capacity out).

Definition pe_final_plan (out : RibonDirectLoadPlan) (entry : Z) (w : PeWalk) : RibonDirectLoadPlan :=
  mkPlan sizeof_RibonDirectLoadPlan RIBON_DIRECT_LOAD_PLAN_ABI_VERSION (pe_segment_count w)
    (Z.lor (Z.lor (Z.lor RIBON_LOAD_PLAN_ENTRY_LOAD_VALID RIBON_LOAD_PLAN_RUNTIME_ENTRY_VALID)
       RIBON_LOAD_PLAN_USES_PADDR) RIBON_LOAD_PLAN_HAS_LINKED_PHYSICAL_RANGE)
    entry entry entry (pe_image_start w) (pe_image_end w) (pe_image_start w) (pe_image_end w)
    (pe_image_end w - pe_image_start w) (pe_image_start w) (pe_image_end w) (pe_image_start w)
    (pe_image_end w) 0 0 (Some (pe_segments w)) (plan_segment_capacity out).

Definition pe_coff_analyze : RibonImageAnalyzeFn := fun image validated_out out =>
  match image, validated_out with
  | Some i, Some _ =>
    match payload_data i with
    | None => (LOADER_BAD_ARGUMENT, validated_out, out)
    | Some b =>
      let planned := negb (is_null out) in
      let capacity := match out with Some plan => plan_segment_capacity plan | None => 0 end in
      if (planned && negb (ribon_direct_load_plan_has_storage out)) ||
         (payload_size i <? RIBON_PE_SIGNATURE_OFFSET_FIELD + 4)
      then (LOADER_BAD_ARGUMENT, validated_out, out)
      else
      let fail status := (status, Some empty_validated, out) in
      if (byte_at b 0 !=? 77) || (byte_at b 1 !=? 90) then fail LOADER_BAD_FORMAT
      else
      let pe_offset := pe_read_u32 b RIBON_PE_SIGNATURE_OFFSET_FIELD in
      if pe_offset + 4 + RIBON_PE_COFF_HEADER_SIZE >? payload_size i then fail LOADER_TRUNCATED
      else if (byte_at b pe_offset !=? 80) || (byte_at b (u32 (pe_offset + 1)) !=? 69) ||
              (byte_at b (u32 (pe_offset + 2)) !=? 0) || (byte_at b (u32 (pe_offset + 3)) !=? 0)
      then fail LOADER_BAD_FORMAT
      else
      let machine := pe_read_u16 b (pe_offset + 4) in
      let section_count := pe_read_u16 b (pe_offset + 6) in
      let optional_size := pe_read_u16 b (pe_offset + 20) in
      if machine =? 0 then fail LOADER_UNSUPPORTED
      else if (section_count =? 0) || (section_count >? RIBON_PE_MAX_SECTIONS) ||
              (planned && (section_count >? capacity)) ||
              (optional_size <? RIBON_PE32_PLUS_OPTIONAL_MINIMUM) then fail LOADER_BAD_FORMAT
      else
      let section_table_offset := pe_offset + 4 + RIBON_PE_COFF_HEADER_SIZE + optional_size in
      match pe_add section_table_offset (section_count * RIBON_PE_SECTION_HEADER_SIZE) with
      | None => fail LOADER_TRUNCATED
      | Some section_table_end =>
      if section_table_end >? payload_size i then fail LOADER_TRUNCATED
      else
      let optional := pe_offset + 4 + RIBON_PE_COFF_HEADER_SIZE in
      if pe_read_u16 b optional !=? RIBON_PE32_PLUS_MAGIC then fail LOADER_UNSUPPORTED
      else
      let entry_rva := pe_read_u32 b (optional + 16) in
      let image_base := pe_read_u64 b (optional + 24) in
      let section_alignment := pe_read_u32 b (optional + 32) in
      if (entry_rva =? 0) || (planned && (image_base =? 0)) || (section_alignment =? 0) ||
         (Z.land section_alignment (section_alignment - 1) !=? 0) then fail LOADER_BAD_FORMAT
      else
      let sections := (fun index => pe_section_at b
        (section_table_offset + index * RIBON_PE_SECTION_HEADER_SIZE)) <$> upto section_count in
      let segments := match out with Some plan => default [] (plan_segments plan) | None => [] end in
      match foldE (pe_section_step planned (payload_size i) image_base section_alignment entry_rva sections)
              (upto section_count) (mkPeWalk segments 0 UINT64_MAX 0 0 false) with
      | inl (status, w) =>
        (status, Some empty_validated, (fun plan => pe_partial_plan plan w) <$> out)
      | inr w =>
        if (pe_emitted_segments w =? 0) || negb (pe_entry_seen w) || (pe_image_end w <=? pe_image_start w)
        then (LOADER_NO_LOAD_SEGMENTS, Some empty_validated, (fun plan => pe_partial_plan plan w) <$> out)
        else
          (LOADER_OK,
           Some (mkValidated sizeof_RibonValidatedImage RIBON_VALIDATED_IMAGE_ABI_VERSION
             RIBON_EXECUTABLE_FORMAT_PE_COFF machine 0
             (Z.lor RIBON_IMAGE_EXECUTION_DIRECT_ENTRY RIBON_IMAGE_EXECUTION_FIRMWARE_MANAGED)
             (payload_size i) (Z.lor (Z.shiftl section_count 32) entry_rva)),
           (fun plan => pe_final_plan plan (u64 (image_base + entry_rva)) w) <$> out)
      end
      end
    end
  | _, _ => (LOADER_BAD_ARGUMENT, validated_out, out)
  end.

Definition pe_coff_ops : RibonImageFormatOps :=
  mkFormatOps sizeof_RibonImageFormatOps RIBON_IMAGE_FORMAT_OPS_ABI_VERSION
    RIBON_EXECUTABLE_FORMAT_PE_COFF
    (Z.lor RIBON_IMAGE_EXECUTION_DIRECT_ENTRY RIBON_IMAGE_EXECUTION_FIRMWARE_MANAGED)
    (Some pe_coff_analyze).

(** ** The loop over the sections *)

Definition section_typed (s : PeSection) : Prop :=
  0 <= virtual_size s /\ 0 <= virtual_address s /\ 0 <= raw_size s /\ 0 <= raw_offset s.

Lemma section_at_typed b o : octets b -> 0 <= o -> o + RIBON_PE_SECTION_HEADER_SIZE <= len b ->
  section_typed (pe_section_at b o).
Proof.
  intros Ho H0 H1. unfold RIBON_PE_SECTION_HEADER_SIZE in H1.
  assert (Hw : forall k, 0 <= k -> k + 4 <= 40 -> 0 <= pe_read_u32 b (o + k)).
  { intros k ? ?. pose proof (load_u32_word b (o + k) Ho ltac:(lia) ltac:(lia)) as Hw. apply word32 in Hw. apply Hw. }
  unfold pe_section_at, section_typed. cbn. repeat split; try (apply Hw; lia).
  destruct (_ =? 0); apply Hw; lia.
Qed.

Lemma pe_add_some a b c : pe_add a b = Some c <-> c = a + b /\ a + b <= UINT64_MAX.
Proof.
  unfold pe_add. destruct (Z.ltb_spec (UINT64_MAX - b) a); (split; [intros [=]; lia|intros [-> ?]]); [lia|done].
Qed.

Section Sections.
Context (size image_base section_alignment entry_rva : Z) (sections : list PeSection).
Context (Hbase : 0 <= image_base) (Htyped : Forall section_typed sections).

Definition section_base (s : PeSection) : Z := image_base + virtual_address s.
Definition section_end (s : PeSection) : Z := section_base s + virtual_size s.
Definition sections_apart (s t : PeSection) : Prop :=
  section_end s <= section_base t \/ section_end t <= section_base s.

(** The sections that occupy memory. *)
Abbreviation occupied l := (filter (fun s => virtual_size s <> 0) l).

Record pe_walked (array : nat) (done : list PeSection) (w : PeWalk) : Prop := {
  pe_walked_count : pe_segment_count w = len done;
  pe_walked_array : length (pe_segments w) = array;
  pe_walked_segments : take (length done) (pe_segments w) =
    (fun s => pe_segment section_alignment (section_base s) s) <$> done;
  pe_walked_ok : Forall (fun s => section_typed s /\ 0 < virtual_size s /\ raw_size s <= virtual_size s /\
    raw_offset s + raw_size s <= size /\ pe_image_start w <= section_base s /\ section_end s <= pe_image_end w) done;
  pe_walked_apart : pairwise sections_apart done;
  pe_walked_range : 0 <= pe_image_start w /\ pe_image_end w <= UINT64_MAX;
  pe_walked_entry : pe_entry_seen w = true -> exists s, s ∈ done /\
    virtual_address s <= entry_rva < virtual_address s + virtual_size s /\
    Z.land (pe_segment_flags (characteristics s)) RIBON_LOAD_SEGMENT_EXECUTE <> 0;
}.

Lemma pe_overlap_loop base limit l :
  foldE (pe_overlap_step image_base base limit) l tt = inr tt ->
  Forall (fun s => section_end s <= base \/ limit <= section_base s) (occupied l).
Proof.
  induction l as [|s l IH]; cbn [foldE]; [constructor|]. unfold pe_overlap_step at 1.
  destruct (Z.eqb_spec (virtual_size s) 0) as [Hz|Hz].
  - rewrite filter_cons_False by naive_solver. exact IH.
  - rewrite filter_cons_True by done. destruct (pe_add image_base (virtual_address s)) as [pb|] eqn:E1; [|done].
    destruct (pe_add pb (virtual_size s)) as [pe|] eqn:E2; [|done]. apply pe_add_some in E1 as [-> _], E2 as [-> _].
    unfold section_end, section_base.
    destruct (Z.ltb_spec base (image_base + virtual_address s + virtual_size s)),
      (Z.ltb_spec (image_base + virtual_address s) limit); cbn [andb]; try done;
      (intros Hl; constructor; [lia|by apply IH]).
Qed.

Lemma pe_step_walked array w i s w' :
  sections !! i = Some s -> pe_walked array (occupied (take i sections)) w ->
  (length (occupied (take i sections)) < array)%nat ->
  pe_section_step true size image_base section_alignment entry_rva sections w (Z.of_nat i) = inr w' ->
  pe_walked array (occupied (take (S i) sections)) w'.
Proof.
  intros Hs Hw Hlt. unfold pe_section_step. rewrite Nat2Z.id, (nth_lookup_Some _ _ _ _ Hs), (take_S_r _ _ _ Hs).
  rewrite filter_app. assert (Hty : section_typed s) by (by eapply Forall_lookup_1).
  destruct (Z.eqb_spec (virtual_size s) 0) as [Hz|Hz].
  { rewrite (filter_cons_False _ s) by naive_solver. rewrite filter_nil, app_nil_r. by intros [= ->]. }
  rewrite (filter_cons_True _ s) by done. rewrite filter_nil.
  destruct (pe_add (raw_offset s) (raw_size s)) as [re|] eqn:E1; [|done].
  destruct (pe_add image_base (virtual_address s)) as [sb|] eqn:E2; [|done].
  destruct (pe_add sb (virtual_size s)) as [se|] eqn:E3; [|done].
  apply pe_add_some in E1 as [-> B1], E2 as [-> B2], E3 as [-> B3].
  destruct (_ || _) eqn:G; [done|]. cbn [andb] in G. bool_to_prop.
  destruct (foldE _ _ _) as [|[]] eqn:Ef; [done|]. apply pe_overlap_loop in Ef. intros [= <-].
  destruct Hty as (T1 & T2 & T3 & T4). destruct Hw as [Hc Ha Hsg Hok Hap Hr He].
  fold (section_base s) in *. set (done := occupied (take i sections)) in *.
  assert (Hmin : forall x y, (if x <? y then x else y) = Z.min x y) by (intros x y; destruct (Z.ltb_spec x y); lia).
  assert (Hmax : forall x y, (if x <? y then y else x) = Z.max x y) by (intros x y; destruct (Z.ltb_spec x y); lia).
  constructor; cbn [pe_segments pe_segment_count pe_image_start pe_image_end pe_entry_seen];
    rewrite ?Hmin, ?Hmax.
  - rewrite Hc, len_app. done.
  - by rewrite length_insert.
  - rewrite Hc. unfold len. rewrite Nat2Z.id, length_app, fmap_app. cbn [length]. rewrite Nat.add_1_r.
    apply take_insert_snoc; [lia|done].
  - apply Forall_app. split; [|apply Forall_singleton; unfold section_end, section_base, section_typed in *; lia].
    eapply Forall_impl; [exact Hok|]. intros k (? & ? & ? & ? & ? & ?). split; [done|lia].
  - apply pairwise_snoc. split; [done|]. eapply Forall_impl; [exact Ef|]. intros k [?|?]; [by left|by right].
  - unfold section_base in *. lia.
  - setoid_rewrite elem_of_app. destruct (_ && _) eqn:Eg; bool_to_prop.
    + intros _. exists s. split; [right; by left|]. split; [lia|done].
    + intros H'. destruct (He H') as (k & ? & ?). exists k. auto.
Qed.
End Sections.

Lemma pe_loop_walked size image_base alignment entry_rva sections array segments n w :
  0 <= image_base -> Forall section_typed sections -> len sections = n -> (Z.to_nat n <= array)%nat ->
  length segments = array ->
  foldE (pe_section_step true size image_base alignment entry_rva sections) (upto n)
    (mkPeWalk segments 0 UINT64_MAX 0 0 false) = inr w ->
  pe_walked size image_base alignment entry_rva array (filter (fun s => virtual_size s <> 0) sections) w.
Proof.
  intros Hb Ht Hn Ha Hs Hf.
  assert (H : pe_walked size image_base alignment entry_rva array
    (filter (fun s => virtual_size s <> 0) (take (length (upto n)) sections)) w).
  { apply (foldE_inv _ (fun l => pe_walked size image_base alignment entry_rva array
      (filter (fun s => virtual_size s <> 0) (take (length l) sections))) _ _ _ Hf).
    - by constructor.
    - intros l x r b b' E Hw Hst. apply upto_split in E as [-> Hlt]. rewrite length_app, Nat.add_1_r.
      destruct (lookup_lt_is_Some_2 sections (length l)) as [s Hx]; [unfold len in Hn; lia|].
      eapply pe_step_walked; eauto.
      eapply Nat.le_lt_trans; [apply length_filter|]. rewrite length_take. lia. }
  rewrite length_seqZ in H. rewrite take_ge in H by (unfold len in Hn; lia). done.
Qed.

Lemma pe_final_safe size image_base alignment entry_rva array done w out :
  pe_walked size image_base alignment entry_rva array done w -> pe_entry_seen w = true ->
  segments_of (pe_final_plan out (u64 (image_base + entry_rva)) w) =
    (fun s => pe_segment alignment (section_base image_base s) s) <$> done /\
  load_plan_safe size (pe_final_plan out (u64 (image_base + entry_rva)) w).
Proof.
  intros Hw He.
  assert (Hsegs : segments_of (pe_final_plan out (u64 (image_base + entry_rva)) w) =
    (fun s => pe_segment alignment (section_base image_base s) s) <$> done).
  { unfold segments_of. cbn [pe_final_plan plan_segment_count plan_segments default].
    rewrite (pe_walked_count _ _ _ _ _ _ _ Hw). unfold len. rewrite Nat2Z.id. apply Hw. }
  pose proof (pe_walked_ok _ _ _ _ _ _ _ Hw) as Hok. rewrite Forall_forall in Hok.
  pose proof (pe_walked_range _ _ _ _ _ _ _ Hw) as Hr.
  split; [done|]. constructor; rewrite ?Hsegs.
  - apply Forall_fmap, Forall_forall. intros s Hs. destruct (Hok s Hs) as ((? & ? & ? & ?) & ? & ? & ? & ? & ?).
    unfold section_end in *. repeat split; unfold segment_end; cbn; (done || lia).
  - apply pairwise_all; [intros s t; unfold apart; tauto|]. apply pairwise_fmap. apply (pe_walked_apart _ _ _ _ _ _ _ Hw).
  - cbn. lia.
  - destruct (pe_walked_entry _ _ _ _ _ _ _ Hw He) as (s & Hs & Hin & Hx).
    destruct (Hok s Hs) as ((? & ? & ? & ?) & ? & ? & ? & ? & ?). unfold section_end, section_base in *.
    exists (pe_segment alignment (image_base + virtual_address s) s).
    split; [by apply (list_elem_of_fmap_2 (fun s => pe_segment alignment (image_base + virtual_address s) s))|].
    split; [unfold executable; cbn; by apply negb_true_iff, Z.eqb_neq|].
    unfold segment_end. cbn. rewrite wrap_small by (apply word64; lia). lia.
  - done.
Qed.

(** The loop leaves early only with an error. *)
Lemma pe_loop_error planned size image_base alignment entry_rva sections l w st w' :
  foldE (pe_section_step planned size image_base alignment entry_rva sections) l w = inl (st, w') ->
  st <> LOADER_OK.
Proof.
  intros Hf. apply foldE_inl in Hf as (? & ? & ? & b & _ & _ & Hf). unfold pe_section_step in Hf.
  repeat case_match; simplify_eq; try done.
  match goal with H : foldE _ _ _ = inl _ |- _ => apply foldE_inl in H as (? & ? & ? & ? & _ & _ & H); rename H into Ho end.
  unfold pe_overlap_step in Ho. repeat case_match; by simplify_eq.
Qed.

(** The next early return of an analyzer that did not take it. *)
Ltac passed G := match goal with |- (if ?c then _ else _) = _ -> _ => destruct c eqn:G; [done|] end.

#[global] Instance pe_coff_direct : DirectFormat pe_coff_ops.
Proof.
  intros analyze image v plan v' p' [= <-] (Hp & Hoct & Hsz) Hs. unfold pe_coff_analyze.
  destruct (payload_data image) as [b|]; [|done]. specialize (Hp b eq_refl). cbn [default] in Hoct.
  cbn [is_null negb andb]. passed G0. passed G1. set (pe := pe_read_u32 b RIBON_PE_SIGNATURE_OFFSET_FIELD).
  passed G2. passed G3. passed G4. passed G5.
  destruct (pe_add _ _) as [te|] eqn:Et; [|done]. passed G6. passed G7. passed G8.
  apply pe_add_some in Et as [-> Et].
  set (n := pe_read_u16 b (pe + 6)) in *. set (off := pe + 4 + _ + pe_read_u16 b (pe + 20)) in *.
  set (sections := _ <$> upto n). destruct (foldE _ _ _) as [[st w]|w] eqn:Ef.
  { apply pe_loop_error in Ef. by intros [= ->]. }
  passed G9. intros [= <- <-]. eexists _, _. split; [reflexivity|]. split; [reflexivity|].
  clear G1 G3 G4 G7 G8. bool_to_prop. rename H2 into Hn0, H4 into Hcap, H3 into Hopt, H1 into Hseen.
  unfold RIBON_PE_SIGNATURE_OFFSET_FIELD, RIBON_PE_COFF_HEADER_SIZE, RIBON_PE_SECTION_HEADER_SIZE,
    RIBON_PE32_PLUS_OPTIONAL_MINIMUM in *.
  assert (Hpe : 0 <= pe) by (apply (load_u32_word b 0x3c); (done || lia)).
  assert (Hn : 0 <= n) by (apply (load_u16_word b (pe + 6)); (done || lia)).
  assert (Hib : 0 <= pe_read_u64 b (pe + 4 + 20 + 24)) by (apply (load_u64_word b (pe + 4 + 20 + 24)); (done || lia)).
  destruct Hs as [Hst Hc].
  apply pe_loop_walked with (array := length (default [] (plan_segments plan))) in Ef as Hw; try done.
  2:{ apply Forall_fmap, Forall_forall. intros i Hi. apply elem_of_seqZ in Hi. cbn [compose].
      apply section_at_typed; [done|lia|unfold RIBON_PE_SECTION_HEADER_SIZE; lia]. }
  2:{ unfold len, sections. rewrite length_fmap, length_seqZ. lia. }
  2:{ unfold len in Hst. lia. }
  destruct (pe_final_safe _ _ _ _ _ _ _ plan Hw Hseen) as [_ Hsafe].
  split; [exact Hsafe|]. split; [split; [|done]|].
  - change (len (pe_segments w) = plan_segment_capacity plan). unfold len. rewrite (pe_walked_array _ _ _ _ _ _ _ Hw). exact Hst.
  - split; [|done]. change (pe_segment_count w <= plan_segment_capacity plan). rewrite (pe_walked_count _ _ _ _ _ _ _ Hw).
    etrans; [|exact Hcap]. unfold len. etrans; [apply inj_le, length_filter|].
    unfold sections. rewrite length_fmap, length_seqZ. lia.
Qed.
