(* ===== verification/ImagePlugins.v ===== *)
(** * The image-format plugins

    The descriptors of the four image formats, which [src/core/plugin.c] validates,
    and images each analyzer accepts.  The address of an operation table is chosen by
    the linker and a parameter. *)

From Stdlib Require Import String.
From S2P Require Import Prelude.
From S2P Require Import Buffer.
From S2P Require Import Wire.
From S2P Require Import Plugin.
From S2P Require Import PayloadImage.
From S2P Require Import Elf64.
From S2P Require Import LinuxImage.
From S2P Require Import PeCoff.

Definition RIBON_PLUGIN_PHASE_BOOT : Z := 3.
Definition RIBON_ARCH_MASK_AARCH64 : Z := Z.shiftl 1 1.
Definition RIBON_ARCH_MASK_RISCV64 : Z := Z.shiftl 1 2.
Definition RIBON_ENV_MASK_RAW_FDT : Z := Z.shiftl 1 3.

(** [validate_operations] is [ribon_image_plugin_operations_are_valid]; the model
    holds its verdict on the descriptor itself. *)
Definition with_validator (ops : RibonImageFormatOps) (descriptor : option bool -> RibonPluginDescriptor) :
    RibonPluginDescriptor :=
  descriptor (Some (ribon_image_plugin_operations_are_valid (Some (descriptor None)) ops)).

Definition ribon_elf64_image_plugin_descriptor (operations : Z) : RibonPluginDescriptor :=
  with_validator elf64_ops (mkPlugin RIBON_PLUGIN_DESCRIPTOR_MAGIC sizeof_RibonPluginDescriptor
    RIBON_PLUGIN_ABI_MAJOR RIBON_PLUGIN_ABI_MINOR RIBON_PLUGIN_KIND_IMAGE_FORMAT
    RIBON_PLUGIN_PHASE_BOOT (Some (text "image.elf64")) RIBON_CAP_IMAGE_ELF64 0
    RIBON_ARCH_MASK_ALL RIBON_ENV_MASK_ALL 0 RIBON_MODE_MASK_ALL 0
    4096 (64 * 1024 * 1024) 4096 30000
    operations sizeof_RibonImageFormatOps RIBON_IMAGE_FORMAT_OPS_ABI_VERSION).

Definition ribon_pe_coff_image_plugin_descriptor (operations : Z) : RibonPluginDescriptor :=
  with_validator pe_coff_ops (mkPlugin RIBON_PLUGIN_DESCRIPTOR_MAGIC sizeof_RibonPluginDescriptor
    RIBON_PLUGIN_ABI_MAJOR RIBON_PLUGIN_ABI_MINOR RIBON_PLUGIN_KIND_IMAGE_FORMAT
    RIBON_PLUGIN_PHASE_BOOT (Some (text "image.pe-coff")) RIBON_CAP_IMAGE_PE_COFF 0
    RIBON_ARCH_MASK_ALL RIBON_ENV_MASK_ALL 0 RIBON_MODE_MASK_ALL 0
    4096 (64 * 1024 * 1024) 4096 30000
    operations sizeof_RibonImageFormatOps RIBON_IMAGE_FORMAT_OPS_ABI_VERSION).

Definition ribon_linux_aarch64_image_plugin_descriptor (operations : Z) : RibonPluginDescriptor :=
  with_validator linux_aarch64_image_ops (mkPlugin RIBON_PLUGIN_DESCRIPTOR_MAGIC
    sizeof_RibonPluginDescriptor RIBON_PLUGIN_ABI_MAJOR RIBON_PLUGIN_ABI_MINOR
    RIBON_PLUGIN_KIND_IMAGE_FORMAT RIBON_PLUGIN_PHASE_BOOT (Some (text "image.linux-aarch64"))
    RIBON_CAP_IMAGE_LINUX_AARCH64 0 RIBON_ARCH_MASK_AARCH64 RIBON_ENV_MASK_RAW_FDT 0
    (Z.lor (RIBON_MODE_MASK RIBON_MODE_NORMAL) (RIBON_MODE_MASK RIBON_MODE_DIAGNOSTIC)) 0
    4096 (64 * 1024 * 1024) 4096 30000
    operations sizeof_RibonImageFormatOps RIBON_IMAGE_FORMAT_OPS_ABI_VERSION).

Definition ribon_linux_riscv64_image_plugin_descriptor (operations : Z) : RibonPluginDescriptor :=
  with_validator linux_riscv64_image_ops (mkPlugin RIBON_PLUGIN_DESCRIPTOR_MAGIC
    sizeof_RibonPluginDescriptor RIBON_PLUGIN_ABI_MAJOR RIBON_PLUGIN_ABI_MINOR
    RIBON_PLUGIN_KIND_IMAGE_FORMAT RIBON_PLUGIN_PHASE_BOOT (Some (text "image.linux-riscv64"))
    RIBON_CAP_IMAGE_LINUX_RISCV64 0 RIBON_ARCH_MASK_RISCV64 RIBON_ENV_MASK_RAW_FDT 0
    (Z.lor (RIBON_MODE_MASK RIBON_MODE_NORMAL) (RIBON_MODE_MASK RIBON_MODE_DIAGNOSTIC)) 0
    4096 (64 * 1024 * 1024) 4096 30000
    operations sizeof_RibonImageFormatOps RIBON_IMAGE_FORMAT_OPS_ABI_VERSION).

(** A plugin whose descriptor the core accepts and whose analyzer leaves safe plans. *)
Definition conforming (ops : RibonImageFormatOps) (descriptor : Z -> RibonPluginDescriptor) : Prop :=
  DirectFormat ops /\
  forall address, address <> 0 -> ribon_plugin_descriptor_is_valid (Some (descriptor address)) = true.

(** C19: All four image formats conform: an image that ELF64, PE32+ or either Linux
    format accepts gets a plan whose segments are backed by the image, lie within
    the bounds of the plan without wrap-around, do not overlap, and contain the entry
    point in a segment that may be executed; and the core accepts the plugin. *)
Theorem image_formats_conform :
  conforming elf64_ops ribon_elf64_image_plugin_descriptor /\
  conforming pe_coff_ops ribon_pe_coff_image_plugin_descriptor /\
  conforming linux_aarch64_image_ops ribon_linux_aarch64_image_plugin_descriptor /\
  conforming linux_riscv64_image_ops ribon_linux_riscv64_image_plugin_descriptor.
Proof.
  repeat split; try apply _; intros address Ha; unfold ribon_plugin_descriptor_is_valid;
    cbn -[Z.eqb Z.ltb]; rewrite (proj2 (Z.eqb_neq address 0) Ha); reflexivity.
Qed.

(** ** An ELF64 image *)

(** Two load headers: sixteen bytes of code, and memory that starts empty. *)
Definition sample_elf : bytes :=
  [0x7f; 69; 76; 70; 2; 1; 1; 0] ++ zeros 8 ++
  le_bytes 2 2 ++ le_bytes 2 62 ++ le_bytes 4 1 ++ le_bytes 8 0x1004 ++ le_bytes 8 64 ++ zeros 8 ++
  zeros 4 ++ le_bytes 2 64 ++ le_bytes 2 56 ++ le_bytes 2 2 ++ zeros 6 ++
  le_bytes 4 1 ++ le_bytes 4 5 ++ le_bytes 8 176 ++ le_bytes 8 0x1000 ++ le_bytes 8 0x200000 ++
  le_bytes 8 16 ++ le_bytes 8 32 ++ le_bytes 8 16 ++
  le_bytes 4 1 ++ le_bytes 4 6 ++ le_bytes 8 0 ++ le_bytes 8 0x300000 ++ le_bytes 8 0 ++
  le_bytes 8 0 ++ le_bytes 8 64 ++ le_bytes 8 4096 ++ zeros 16.

Definition sample_elf_image : RibonPayloadImage := mkPayload (Some sample_elf) (len sample_elf) None.

Definition empty_plan (capacity : nat) : RibonDirectLoadPlan :=
  mkPlan 0 0 0 0 0 0 0 0 0 0 0 0 0 0 0 0 0 0 (Some (replicate capacity empty_segment)) (Z.of_nat capacity).

Lemma sample_elf_typed : payload_typed sample_elf_image /\ storage_typed (empty_plan 4).
Proof.
  repeat split; try done.
  - by intros b [= <-].
  - apply octetsb_octets. by vm_compute.
Qed.

Lemma elf64_analyze_exact_witness :
  fst (fst (elf64_analyze (Some sample_elf_image) (Some empty_validated) (Some (empty_plan 4)))) = LOADER_OK /\
  elf64_outcome sample_elf (empty_plan 4)
    (elf64_analyze (Some sample_elf_image) (Some empty_validated) (Some (empty_plan 4))).
Proof.
  split; [vm_compute; reflexivity|].
  apply (elf64_analyze_exact sample_elf_image empty_validated (empty_plan 4) sample_elf);
    [apply sample_elf_typed|reflexivity|apply sample_elf_typed|reflexivity].
Defined.
