(* ===== verification/BootEnvironment.v ===== *)
(** * The boot environment and its modules
    ([src/common/environment.c], [src/common/module_bundle.c])

    The facts a firmware frontend captures, and the table of boot modules a product
    links in.  The modules a bundle materialises lie in its section, apart from each
    other, the bootloader and the kernel, and the environment accepts them. *)

From Stdlib Require Import String.
From S2P Require Import Prelude.
From S2P Require Import Buffer.
From S2P Require Import Wire.
From S2P Require Import CString.
From S2P Require Import Memory.
From S2P Require Import Plugin.
From S2P Require Import ServiceDirectory.
From S2P Require Import PayloadImage.

Definition RIBON_BOOT_MODULE_CAPACITY : Z := 8.
Definition RIBON_ENVIRONMENT_HOST : Z := 0.
Definition RIBON_ENVIRONMENT_UEFI : Z := 1.
Definition RIBON_ENVIRONMENT_BIOS : Z := 2.
Definition RIBON_ENVIRONMENT_RAW_FDT : Z := 3.
Definition RIBON_ENVIRONMENT_SBI : Z := 4.
Definition RIBON_ARCHITECTURE_X86_64 : Z := 0.
Definition RIBON_ARCHITECTURE_AARCH64 : Z := 1.
Definition RIBON_ARCHITECTURE_RISCV64 : Z := 2.
Definition RIBON_BOOT_ENV_HAS_MEMORY_MAP : Z := Z.shiftl 1 0.
Definition RIBON_BOOT_ENV_HAS_BOOT_MEDIA : Z := Z.shiftl 1 3.
Definition RIBON_BOOT_ENV_HAS_COMMAND_LINE : Z := Z.shiftl 1 4.
Definition RIBON_BOOT_ENV_HAS_BOOT_MODULES : Z := Z.shiftl 1 5.
Definition RIBON_BOOT_MEDIA_NONE : Z := 0.
Definition RIBON_BOOT_MEDIA_FILE : Z := 1.
Definition RIBON_BOOT_MEDIA_BLOCK : Z := 2.
Definition RIBON_BOOT_MEDIA_MEMORY : Z := 3.
Definition RIBON_BOOT_MEDIA_NETWORK : Z := 4.
Definition RIBON_BOOT_MODULE_ROLE_INITIAL_IMAGE : Z := 1.
Definition RIBON_BOOT_MODULE_ROLE_AUXILIARY : Z := 2.
Definition sizeof_RibonBootEnvironment : Z := 232.

Record RibonBootModule := mkModule {
  module_name : cstring;
  module_physical_address : Z;
  module_size : Z;
  module_role : Z;
}.

Record RibonBootMedia := mkMedia {
  media_kind : Z;
  media_path : cstring;
  media_physical_address : Z;
  media_size : Z;
  media_block_size : Z;
}.

Record RibonBootModuleList := mkModules {
  modules_modules : option (list RibonBootModule);
  modules_module_count : Z;
}.

Record RibonCommandLine := mkCommandLine {
  command_line_text : cstring;
  command_line_length : Z;
}.

Record RibonMemoryMapView := mkMemoryMap {
  map_regions : option (list MemoryMap.RibonMemoryRegion);
  map_region_count : Z;
}.

Record RibonDeviceTree := mkDeviceTree {
  device_tree_physical_address : Z;
  device_tree_size : Z;
}.

(** The boot CPU, the raw memory map, the ACPI table and the fields of the framebuffer other than
    its address are passed on and never read here. *)
Record RibonBootEnvironment := mkEnvironment {
  environment_size : Z;
  environment_abi_version : Z;
  environment_kind : Z;
  environment_architecture : Z;
  environment_memory_map : RibonMemoryMapView;
  environment_device_tree : RibonDeviceTree;
  environment_framebuffer_address : Z;
  environment_boot_media : RibonBootMedia;
  environment_boot_modules : RibonBootModuleList;
  environment_command_line : RibonCommandLine;
  environment_flags : Z;
}.

Record RibonBootEnvironmentPersistentInputs := mkPersistentInputs {
  inputs_boot_media : RibonBootMedia;
  inputs_boot_modules : RibonBootModuleList;
  inputs_command_line : RibonCommandLine;
}.

Definition ribon_environment_name (environment : Z) : bytes :=
  if environment =? RIBON_ENVIRONMENT_HOST then text "host"
  else if environment =? RIBON_ENVIRONMENT_UEFI then text "uefi"
  else if environment =? RIBON_ENVIRONMENT_BIOS then text "bios"
  else if environment =? RIBON_ENVIRONMENT_RAW_FDT then text "raw-fdt"
  else if environment =? RIBON_ENVIRONMENT_SBI then text "sbi"
  else text "unknown".

Definition ribon_boot_media_name (media : Z) : bytes :=
  if media =? RIBON_BOOT_MEDIA_NONE then text "none"
  else if media =? RIBON_BOOT_MEDIA_FILE then text "file"
  else if media =? RIBON_BOOT_MEDIA_BLOCK then text "block"
  else if media =? RIBON_BOOT_MEDIA_MEMORY then text "memory"
  else if media =? RIBON_BOOT_MEDIA_NETWORK then text "network"
  else text "unknown".

Definition zero_media : RibonBootMedia := mkMedia 0 None 0 0 0.

(** What [*environment] holds afterwards. *)
Definition ribon_boot_environment_init (environment : option RibonBootEnvironment)
    (kind architecture : Z) : option RibonBootEnvironment :=
  match environment with
  | None => None
  | Some _ =>
    Some (mkEnvironment sizeof_RibonBootEnvironment RIBON_CORE_ABI_VERSION kind architecture
      (mkMemoryMap None 0) (mkDeviceTree 0 0) 0 zero_media (mkModules None 0) (mkCommandLine None 0) 0)
  end.

(** [(flags & bit) != 0] *)
Definition has_flag (flags bit : Z) : bool := Z.land flags bit !=? 0.

Definition zero_module : RibonBootModule := mkModule None 0 0 0.
Definition module_at (modules : list RibonBootModule) (i : Z) : RibonBootModule :=
  nth (Z.to_nat i) modules zero_module.

Definition modules_overlap (m other : RibonBootModule) : bool :=
  (module_physical_address m <? u64 (module_physical_address other + module_size other)) &&
  (module_physical_address other <? u64 (module_physical_address m + module_size m)).

(** One module; the loop counts the initial images. *)
Definition environment_module_step (modules : list RibonBootModule) (initial_images index : Z) : unit + Z :=
  let m := module_at modules index in
  if (module_physical_address m =? 0) || (module_size m =? 0) ||
     (module_physical_address m >? UINT64_MAX - module_size m) ||
     ((module_role m !=? RIBON_BOOT_MODULE_ROLE_INITIAL_IMAGE) &&
      (module_role m !=? RIBON_BOOT_MODULE_ROLE_AUXILIARY))
  then inl tt
  else
    let initial_images' :=
      if module_role m =? RIBON_BOOT_MODULE_ROLE_INITIAL_IMAGE then initial_images + 1 else initial_images in
    if (module_role m =? RIBON_BOOT_MODULE_ROLE_INITIAL_IMAGE) && (initial_images' >? 1) then inl tt
    else if existsb (fun previous => modules_overlap m (module_at modules previous)) (upto index)
    then inl tt
    else inr initial_images'.

Definition ribon_boot_environment_is_valid (environment : option RibonBootEnvironment) : bool :=
  match environment with
  | None => false
  | Some e =>
    let modules := environment_boot_modules e in
    if (environment_size e !=? sizeof_RibonBootEnvironment) ||
       (environment_abi_version e !=? RIBON_CORE_ABI_VERSION) ||
       (environment_kind e <? RIBON_ENVIRONMENT_HOST) || (environment_kind e >? RIBON_ENVIRONMENT_SBI) ||
       (environment_architecture e <? RIBON_ARCHITECTURE_X86_64) ||
       (environment_architecture e >? RIBON_ARCHITECTURE_RISCV64)
    then false
    else if has_flag (environment_flags e) RIBON_BOOT_ENV_HAS_MEMORY_MAP &&
            (is_null (map_regions (environment_memory_map e)) ||
             (map_region_count (environment_memory_map e) =? 0))
    then false
    else if negb (Bool.eqb (has_flag (environment_flags e) RIBON_BOOT_ENV_HAS_BOOT_MEDIA)
                    (media_kind (environment_boot_media e) !=? RIBON_BOOT_MEDIA_NONE))
    then false
    else if negb (Bool.eqb (has_flag (environment_flags e) RIBON_BOOT_ENV_HAS_BOOT_MODULES)
                    (modules_module_count modules !=? 0)) ||
            ((modules_module_count modules !=? 0) &&
             (is_null (modules_modules modules) ||
              (modules_module_count modules >? RIBON_BOOT_MODULE_CAPACITY)))
    then false
    else if negb (Bool.eqb (has_flag (environment_flags e) RIBON_BOOT_ENV_HAS_COMMAND_LINE)
                    (negb (is_null (command_line_text (environment_command_line e))) &&
                     (command_line_length (environment_command_line e) !=? 0)))
    then false
    else
      match foldE (environment_module_step (default [] (modules_modules modules)))
              (upto (modules_module_count modules)) 0 with
      | inl _ => false
      | inr _ => true
      end
  end.

(** The verdict and what [*environment] holds afterwards. *)
Definition ribon_boot_environment_apply_persistent_inputs (environment : option RibonBootEnvironment)
    (inputs : option RibonBootEnvironmentPersistentInputs) : bool * option RibonBootEnvironment :=
  match environment, inputs with
  | Some e, Some i =>
    let persistent_flags := 0 in
    let persistent_flags :=
      if media_kind (inputs_boot_media i) !=? RIBON_BOOT_MEDIA_NONE
      then Z.lor persistent_flags RIBON_BOOT_ENV_HAS_BOOT_MEDIA else persistent_flags in
    let persistent_flags :=
      if modules_module_count (inputs_boot_modules i) !=? 0
      then Z.lor persistent_flags RIBON_BOOT_ENV_HAS_BOOT_MODULES else persistent_flags in
    let persistent_flags :=
      if negb (is_null (command_line_text (inputs_command_line i))) &&
         (command_line_length (inputs_command_line i) !=? 0)
      then Z.lor persistent_flags RIBON_BOOT_ENV_HAS_COMMAND_LINE else persistent_flags in
    let e' := mkEnvironment (environment_size e) (environment_abi_version e) (environment_kind e)
      (environment_architecture e) (environment_memory_map e) (environment_device_tree e)
      (environment_framebuffer_address e) (inputs_boot_media i) (inputs_boot_modules i)
      (inputs_command_line i)
      (Z.lor (outside (environment_flags e)
                (Z.lor (Z.lor RIBON_BOOT_ENV_HAS_BOOT_MEDIA RIBON_BOOT_ENV_HAS_BOOT_MODULES)
                   RIBON_BOOT_ENV_HAS_COMMAND_LINE))
         persistent_flags) in
    (ribon_boot_environment_is_valid (Some e'), Some e')
  | _, _ => (false, environment)
  end.

(** ** The module bundle *)

Definition RIBON_BOOT_MODULE_BUNDLE_ABI_VERSION : Z := 1.
Definition sizeof_RibonBootModuleBundle : Z := 24.
Definition sizeof_RibonBootModuleBundleServiceOperations : Z := 32.

Inductive RibonBootModuleBundleStatus :=
  | BUNDLE_OK
  | BUNDLE_BAD_ARGUMENT
  | BUNDLE_BAD_ABI
  | BUNDLE_BAD_COMPONENT
  | BUNDLE_OUT_OF_CAPACITY
  | BUNDLE_OVERLAP.

(** [start] and [end] are addresses. *)
Record RibonBootModuleComponent := mkModuleComponent {
  component_name : cstring;
  component_start : Z;
  component_end : Z;
  component_role : Z;
}.

Record RibonBootModuleBundle := mkModuleBundle {
  bundle_size : Z;
  bundle_abi_version : Z;
  bundle_components : option (list RibonBootModuleComponent);
  bundle_component_count : Z;
  bundle_reserved : Z;
}.

Record RibonBootModuleBackingRange := mkBacking {
  backing_base : Z;
  backing_size : Z;
}.

Record RibonBootModuleBundleLayout := mkBundleLayout {
  layout_section_base : Z;
  layout_section_size : Z;
  layout_bootloader_base : Z;
  layout_bootloader_size : Z;
  layout_kernel_base : Z;
  layout_kernel_size : Z;
  layout_alignment : Z;
}.

Record RibonBootModuleBundleServiceOperations := mkBundleService {
  bundle_service_size : Z;
  bundle_service_abi_version : Z;
  bundle_service_bundle : option RibonBootModuleBundle;
  bundle_service_section_start : Z;
  bundle_service_section_end : Z;
}.

Definition module_range_end (base size : Z) : option Z :=
  if (size =? 0) || (base >? UINT64_MAX - size) then None else Some (base + size).

Definition module_ranges_overlap (left_base left_end right_base right_end : Z) : bool :=
  (left_base <? right_end) && (right_base <? left_end).

Definition module_name_byte (value : Z) : bool :=
  ((value >=? 97) && (value <=? 122)) || ((value >=? 65) && (value <=? 90)) ||
  ((value >=? 48) && (value <=? 57)) || (value =? 46) || (value =? 95) || (value =? 45).

(** The loop over at most [fuel] more bytes of the name, from [index]. *)
Fixpoint module_name_loop (fuel : nat) (index : Z) (name : bytes) : bool :=
  match fuel with
  | O => false
  | S fuel' =>
    match name with
    | [] => index !=? 0
    | value :: name' => if negb (module_name_byte value) then false else module_name_loop fuel' (index + 1) name'
    end
  end.

Definition module_name_is_valid (name : cstring) : bool :=
  match name with None => false | Some n => module_name_loop 64 0 n end.

Definition zero_component : RibonBootModuleComponent := mkModuleComponent None 0 0 0.

(** The arrays the loop fills and its count of initial images. *)
Record BundleWalk := mkBundleWalk {
  bundle_modules : list RibonBootModule;
  bundle_backings : list RibonBootModuleBackingRange;
  bundle_initial_images : Z;
}.

Definition bundle_step (layout : RibonBootModuleBundleLayout) (section_end bootloader_end kernel_end : Z)
    (components : list RibonBootModuleComponent) (w : BundleWalk) (index : Z) :
    (RibonBootModuleBundleStatus * BundleWalk) + BundleWalk :=
  let component := nth (Z.to_nat index) components zero_component in
  let start := component_start component in
  let exact_end := component_end component in
  let alignment := layout_alignment layout in
  if negb (module_name_is_valid (component_name component)) || (start =? 0) || (exact_end <=? start) ||
     (start <? layout_section_base layout) || (exact_end >? section_end) ||
     (Z.land start (alignment - 1) !=? 0) ||
     ((component_role component !=? RIBON_BOOT_MODULE_ROLE_INITIAL_IMAGE) &&
      (component_role component !=? RIBON_BOOT_MODULE_ROLE_AUXILIARY)) ||
     (exact_end >? UINT64_MAX - (alignment - 1))
  then inl (BUNDLE_BAD_COMPONENT, w)
  else
    let initial_images :=
      if component_role component =? RIBON_BOOT_MODULE_ROLE_INITIAL_IMAGE
      then bundle_initial_images w + 1 else bundle_initial_images w in
    if (component_role component =? RIBON_BOOT_MODULE_ROLE_INITIAL_IMAGE) && (initial_images >? 1)
    then inl (BUNDLE_BAD_COMPONENT, w)
    else
      let backing_end := Z.land (u64 (exact_end + alignment - 1)) (u64 (Z.lnot (alignment - 1))) in
      if (backing_end <=? start) || (backing_end >? section_end) ||
         module_ranges_overlap start backing_end (layout_bootloader_base layout) bootloader_end ||
         module_ranges_overlap start backing_end (layout_kernel_base layout) kernel_end
      then inl (BUNDLE_OVERLAP, w)
      else if existsb (fun previous =>
                let b := nth (Z.to_nat previous) (bundle_backings w) (mkBacking 0 0) in
                module_ranges_overlap start backing_end (backing_base b)
                  (u64 (backing_base b + backing_size b))) (upto index)
      then inl (BUNDLE_OVERLAP, w)
      else
        inr (mkBundleWalk
          (<[Z.to_nat index := mkModule (component_name component) start (exact_end - start)
               (component_role component)]> (bundle_modules w))
          (<[Z.to_nat index := mkBacking start (backing_end - start)]> (bundle_backings w))
          initial_images).

(** The status, the two arrays and [*count_out] afterwards; [counted] says that
    [count_out] is not NULL. *)
Definition ribon_boot_module_bundle_materialize (bundle : option RibonBootModuleBundle)
    (layout : option RibonBootModuleBundleLayout) (modules : option (list RibonBootModule))
    (backings : option (list RibonBootModuleBackingRange)) (capacity : Z) (counted : bool) :
    RibonBootModuleBundleStatus * option (list RibonBootModule) *
    option (list RibonBootModuleBackingRange) * Z :=
  if negb counted then (BUNDLE_BAD_ARGUMENT, modules, backings, 0)
  else
    match bundle with
    | None => (BUNDLE_OK, modules, backings, 0)
    | Some b =>
      if (bundle_size b !=? sizeof_RibonBootModuleBundle) ||
         (bundle_abi_version b !=? RIBON_BOOT_MODULE_BUNDLE_ABI_VERSION) || (bundle_reserved b !=? 0)
      then (BUNDLE_BAD_ABI, modules, backings, 0)
      else if bundle_component_count b =? 0
      then ((if is_null (bundle_components b) then BUNDLE_OK else BUNDLE_BAD_COMPONENT), modules, backings, 0)
      else
        match layout, modules, backings, bundle_components b with
        | Some l, Some ms, Some bs, Some components =>
          if (bundle_component_count b >? RIBON_BOOT_MODULE_CAPACITY) || (bundle_component_count b >? capacity)
          then (BUNDLE_OUT_OF_CAPACITY, modules, backings, 0)
          else
            match module_range_end (layout_section_base l) (layout_section_size l),
                  module_range_end (layout_bootloader_base l) (layout_bootloader_size l),
                  module_range_end (layout_kernel_base l) (layout_kernel_size l) with
            | Some section_end, Some bootloader_end, Some kernel_end =>
              if (layout_alignment l =? 0) ||
                 (Z.land (layout_alignment l) (layout_alignment l - 1) !=? 0) ||
                 (Z.land (layout_section_base l) (layout_alignment l - 1) !=? 0) ||
                 (Z.land section_end (layout_alignment l - 1) !=? 0)
              then (BUNDLE_BAD_ARGUMENT, modules, backings, 0)
              else
                match foldE (bundle_step l section_end bootloader_end kernel_end components)
                        (upto (bundle_component_count b)) (mkBundleWalk ms bs 0) with
                | inl (status, w) => (status, Some (bundle_modules w), Some (bundle_backings w), 0)
                | inr w => (BUNDLE_OK, Some (bundle_modules w), Some (bundle_backings w), bundle_component_count b)
                end
            | _, _, _ => (BUNDLE_BAD_ARGUMENT, modules, backings, 0)
            end
        | _, _, _, _ => (BUNDLE_OUT_OF_CAPACITY, modules, backings, 0)
        end
    end.

Definition bundle_service_step (section_start section_end : Z) (components : list RibonBootModuleComponent)
    (initial_images index : Z) : unit + Z :=
  let component := nth (Z.to_nat index) components zero_component in
  if negb (module_name_is_valid (component_name component)) ||
     (component_start component <? section_start) ||
     (component_end component <=? component_start component) || (component_end component >? section_end) ||
     ((component_role component !=? RIBON_BOOT_MODULE_ROLE_INITIAL_IMAGE) &&
      (component_role component !=? RIBON_BOOT_MODULE_ROLE_AUXILIARY))
  then inl tt
  else
    let initial_images' :=
      if component_role component =? RIBON_BOOT_MODULE_ROLE_INITIAL_IMAGE
      then initial_images + 1 else initial_images in
    if (component_role component =? RIBON_BOOT_MODULE_ROLE_INITIAL_IMAGE) && (initial_images' >? 1)
    then inl tt else inr initial_images'.

Definition ribon_boot_module_bundle_service_operations_are_valid (descriptor : option RibonServiceDescriptor)
    (operations : option RibonBootModuleBundleServiceOperations) : bool :=
  match descriptor with
  | None => false
  | Some d =>
    if (service_kind d !=? RIBON_SERVICE_KIND_BOOT_MODULE_BUNDLE) ||
       (service_provides d !=? RIBON_CAP_BOOT_MODULE_BUNDLE) ||
       (service_operations_size d !=? sizeof_RibonBootModuleBundleServiceOperations) ||
       (service_operations_abi d !=? RIBON_SERVICE_ABI_VERSION)
    then false
    else
      match operations with
      | None => false
      | Some o =>
        match bundle_service_bundle o with
        | None => false
        | Some b =>
          if (bundle_service_size o !=? sizeof_RibonBootModuleBundleServiceOperations) ||
             (bundle_service_abi_version o !=? RIBON_SERVICE_ABI_VERSION) ||
             (bundle_service_section_start o =? 0) ||
             (bundle_service_section_end o <=? bundle_service_section_start o)
          then false
          else if (bundle_size b !=? sizeof_RibonBootModuleBundle) ||
                  (bundle_abi_version b !=? RIBON_BOOT_MODULE_BUNDLE_ABI_VERSION) ||
                  (bundle_reserved b !=? 0) || is_null (bundle_components b) ||
                  (bundle_component_count b =? 0) ||
                  (bundle_component_count b >? RIBON_BOOT_MODULE_CAPACITY)
          then false
          else
            match foldE (bundle_service_step (bundle_service_section_start o) (bundle_service_section_end o)
                           (default [] (bundle_components b)))
                    (upto (bundle_component_count b)) 0 with
            | inl _ => false
            | inr _ => true
            end
        end
      end
  end.

(** ** What the environment accepts *)

Definition module_ok (m : RibonBootModule) : Prop :=
  0 < module_physical_address m /\ 0 < module_size m /\
  module_physical_address m + module_size m <= UINT64_MAX /\
  (module_role m = RIBON_BOOT_MODULE_ROLE_INITIAL_IMAGE \/ module_role m = RIBON_BOOT_MODULE_ROLE_AUXILIARY).

Definition modules_apart (m k : RibonBootModule) : Prop :=
  module_physical_address m + module_size m <= module_physical_address k \/
  module_physical_address k + module_size k <= module_physical_address m.

Definition initial_images (ms : list RibonBootModule) : Z :=
  len (filter (fun m => module_role m = RIBON_BOOT_MODULE_ROLE_INITIAL_IMAGE) ms).

(** Ranges of memory that are real, disjoint, and at most one of them to start from. *)
Definition modules_ok (ms : list RibonBootModule) : Prop :=
  Forall module_ok ms /\ pairwise modules_apart ms /\ initial_images ms <= 1.

Definition module_typed (m : RibonBootModule) : Prop :=
  word 64 (module_physical_address m) /\ word 64 (module_size m).

Lemma initial_images_snoc ms m : initial_images (ms ++ [m]) =
  initial_images ms + (if module_role m =? RIBON_BOOT_MODULE_ROLE_INITIAL_IMAGE then 1 else 0).
Proof.
  unfold initial_images. rewrite filter_app, len_app. f_equal.
  destruct (Z.eqb_spec (module_role m) RIBON_BOOT_MODULE_ROLE_INITIAL_IMAGE);
    [rewrite filter_cons_True by done|rewrite filter_cons_False by done]; done.
Qed.

Lemma modules_overlap_false m k : module_ok m -> module_ok k -> module_typed m -> module_typed k ->
  modules_overlap m k = false <-> modules_apart k m.
Proof.
  unfold module_typed. rewrite !word64. intros (? & ? & ? & _) (? & ? & ? & _) [] [].
  unfold modules_overlap, modules_apart. rewrite !wrap_small by (apply word64; lia).
  rewrite andb_false_iff, !Z.ltb_ge. lia.
Qed.

Lemma environment_modules_iff ms s : Forall module_typed ms ->
  foldE (environment_module_step ms) (upto (len ms)) 0 = inr s <-> modules_ok ms /\ s = initial_images ms.
Proof.
  intros Hty. apply (foldE_upto_iff (environment_module_step ms) ms 0 modules_ok initial_images); try done.
  - intros n m Hm (Hok & Hap & Hin) s'. assert (Hn : (n < length ms)%nat) by (by eapply lookup_lt_Some).
    unfold environment_module_step, module_at. rewrite Nat2Z.id, (nth_lookup_Some _ _ _ _ Hm).
    pose proof (Forall_lookup_1 _ _ _ _ Hty Hm) as Hmt. pose proof Hmt as [T1 T2]. rewrite word64 in T1, T2.
    unfold modules_ok. rewrite Forall_app, Forall_singleton, pairwise_snoc, initial_images_snoc.
    destruct (_ || _) eqn:G1.
    { split; [done|]. intros [[[_ (? & ? & ? & Hr)] _] _]. exfalso. rewrite !orb_true_iff in G1.
      destruct G1 as [[[G|G]|G]|G]; bool_to_prop; lia. }
    assert (Hmo : module_ok m).
    { rewrite !orb_false_iff, andb_false_iff in G1. destruct G1 as [[[? ?] ?] Hr]. bool_to_prop.
      unfold module_ok. destruct Hr as [Hr|Hr]; bool_to_prop; lia. }
    set (k := if module_role m =? RIBON_BOOT_MODULE_ROLE_INITIAL_IMAGE then 1 else 0).
    assert (Hk : (if module_role m =? RIBON_BOOT_MODULE_ROLE_INITIAL_IMAGE
      then initial_images (take n ms) + 1 else initial_images (take n ms)) = initial_images (take n ms) + k)
      by (unfold k; destruct (module_role m =? RIBON_BOOT_MODULE_ROLE_INITIAL_IMAGE); lia).
    rewrite Hk.
    match goal with |- (if ?c then _ else _) = _ <-> _ => destruct c eqn:G2 end.
    { split; [done|]. bool_to_prop. lia. }
    assert (Hle : initial_images (take n ms) + k <= 1).
    { unfold k in *. destruct (module_role m =? RIBON_BOOT_MODULE_ROLE_INITIAL_IMAGE); [|lia].
      cbn [andb] in G2. bool_to_prop. lia. }
    assert (Hex : existsb (fun previous => modules_overlap m (nth (Z.to_nat previous) ms zero_module)) (upto (Z.of_nat n)) = false
      <-> Forall (fun y => modules_apart y m) (take n ms)).
    { rewrite (existsb_upto (modules_overlap m) zero_module) by lia. rewrite !Forall_forall.
      rewrite Forall_forall in Hok. pose proof (Forall_take module_typed n ms Hty) as Hty'. rewrite Forall_forall in Hty'.
      split; intros H y Hy; specialize (H y Hy); revert H; apply modules_overlap_false; auto. }
    destruct (existsb _ _).
    + split; [done|]. intros [(_ & [_ H] & _) _]. by apply Hex in H.
    + pose proof (proj1 Hex eq_refl). split; [intros [= <-]; tauto|by intros [_ ->]].
  - intros n m Hm (Hok & Hap & Hin). unfold modules_ok in *. rewrite initial_images_snoc in Hin.
    apply Forall_app in Hok as [? _]. apply pairwise_app_l in Hap. split; [done|split; [done|]].
    destruct (module_role m =? RIBON_BOOT_MODULE_ROLE_INITIAL_IMAGE); lia.
Qed.

(** ** What a bundle materialises *)

Definition component_module (c : RibonBootModuleComponent) : RibonBootModule :=
  mkModule (component_name c) (component_start c) (component_end c - component_start c) (component_role c).

(** The end of a component, rounded up to the alignment. *)
Definition padded_end (alignment : Z) (c : RibonBootModuleComponent) : Z :=
  (component_end c + alignment - 1) / alignment * alignment.

Definition backing_of (alignment : Z) (c : RibonBootModuleComponent) : RibonBootModuleBackingRange :=
  mkBacking (component_start c) (padded_end alignment c - component_start c).

Definition backing_end (b : RibonBootModuleBackingRange) : Z := backing_base b + backing_size b.

(** Two ranges given by base and end share no byte. *)
Definition ranges_apart (b e b' e' : Z) : Prop := e <= b' \/ e' <= b.

Definition backings_apart (b c : RibonBootModuleBackingRange) : Prop :=
  ranges_apart (backing_base b) (backing_end b) (backing_base c) (backing_end c).

(** A backing range is whole alignment units of the section, away from the
    bootloader and the kernel. *)
Definition backing_placed (l : RibonBootModuleBundleLayout) (b : RibonBootModuleBackingRange) : Prop :=
  layout_section_base l <= backing_base b /\ backing_end b <= layout_section_base l + layout_section_size l /\
  backing_base b mod layout_alignment l = 0 /\ backing_end b mod layout_alignment l = 0 /\
  ranges_apart (backing_base b) (backing_end b) (layout_bootloader_base l)
    (layout_bootloader_base l + layout_bootloader_size l) /\
  ranges_apart (backing_base b) (backing_end b) (layout_kernel_base l)
    (layout_kernel_base l + layout_kernel_size l).

Definition component_typed (c : RibonBootModuleComponent) : Prop :=
  word 64 (component_start c) /\ word 64 (component_end c).

Section Bundle.
Context (l : RibonBootModuleBundleLayout) (k : Z) (components : list RibonBootModuleComponent).
Context (Hk : 0 <= k < 64) (Hal : layout_alignment l = 2 ^ k).
Context (Hsec : layout_section_base l + layout_section_size l <= UINT64_MAX).
Context (Hty : Forall component_typed components).

(** The components [done] have been materialised. *)
Record materialised (n : nat) (done : list RibonBootModuleComponent) (w : BundleWalk) : Prop := {
  mat_lengths : length (bundle_modules w) = n /\ length (bundle_backings w) = n;
  mat_modules : take (length done) (bundle_modules w) = component_module <$> done;
  mat_backings : take (length done) (bundle_backings w) = backing_of (layout_alignment l) <$> done;
  mat_placed : Forall (backing_placed l) (backing_of (layout_alignment l) <$> done);
  mat_inside : Forall (fun c => component_end c <= padded_end (layout_alignment l) c) done;
  mat_apart : pairwise backings_apart (backing_of (layout_alignment l) <$> done);
  mat_ok : Forall module_ok (component_module <$> done);
  mat_initial : bundle_initial_images w = initial_images (component_module <$> done) /\
    bundle_initial_images w <= 1;
}.

Lemma padded_end_code e : 0 <= e -> e + (layout_alignment l - 1) <= UINT64_MAX ->
  Z.land (u64 (e + layout_alignment l - 1)) (u64 (Z.lnot (layout_alignment l - 1))) =
  (e + layout_alignment l - 1) / layout_alignment l * layout_alignment l.
Proof.
  intros He Hmax. rewrite Hal in *. assert (0 < 2 ^ k) by (apply Z.pow_pos_nonneg; lia).
  rewrite land_wrap by (lia || apply wrap_word; lia). rewrite (wrap_small 64) by (apply word64; lia).
  rewrite land_align_mask by lia. rewrite (Z.div_mod (e + 2 ^ k - 1) (2 ^ k)) at 1 by lia. lia.
Qed.

Lemma overlap_apart a b c d : module_ranges_overlap a b c d = false <-> ranges_apart a b c d.
Proof. unfold module_ranges_overlap, ranges_apart. rewrite andb_false_iff, !Z.ltb_ge. lia. Qed.

(** The earlier backings, as the loop reads them back. *)
Lemma backings_checked done bs start limit :
  take (length done) bs = backing_of (layout_alignment l) <$> done -> (length done <= length bs)%nat ->
  Forall (backing_placed l) (backing_of (layout_alignment l) <$> done) ->
  Forall (fun c => component_typed c /\ component_end c <= padded_end (layout_alignment l) c) done ->
  existsb (fun previous => let b := nth (Z.to_nat previous) bs (mkBacking 0 0) in
    module_ranges_overlap start limit (backing_base b) (u64 (backing_base b + backing_size b)))
    (upto (Z.of_nat (length done))) = false <->
  Forall (fun b => backings_apart b (mkBacking start (limit - start)))
    (backing_of (layout_alignment l) <$> done).
Proof.
  intros Ht Hn Hp Hin.
  rewrite (existsb_upto (fun b => module_ranges_overlap start limit (backing_base b)
    (u64 (backing_base b + backing_size b))) (mkBacking 0 0)) by done.
  rewrite Ht, !Forall_fmap, !Forall_forall. rewrite Forall_fmap, Forall_forall in Hp. rewrite Forall_forall in Hin.
  assert (Heq : forall c, c ∈ done -> module_ranges_overlap start limit (component_start c)
      (u64 (component_start c + (padded_end (layout_alignment l) c - component_start c))) = false <->
      backings_apart (backing_of (layout_alignment l) c) (mkBacking start (limit - start))).
  { intros c Hc. specialize (Hp c Hc) as (P1 & P2 & _). specialize (Hin c Hc) as [[T1 T2] Hi].
    rewrite word64 in T1, T2. unfold backing_end in P2. cbn [compose backing_of backing_base backing_size] in P1, P2.
    rewrite wrap_small by (apply word64; lia).
    rewrite overlap_apart. unfold backings_apart, ranges_apart, backing_end. cbn. lia. }
  split; intros H c Hc; specialize (H c Hc); by apply Heq.
Qed.

Lemma bundle_step_materialised n i c w w' :
  components !! i = Some c -> materialised n (take i components) w -> (i < n)%nat ->
  bundle_step l (layout_section_base l + layout_section_size l)
    (layout_bootloader_base l + layout_bootloader_size l) (layout_kernel_base l + layout_kernel_size l)
    components w (Z.of_nat i) = inr w' ->
  materialised n (take (S i) components) w'.
Proof.
  intros Hc [[Hl1 Hl2] Hm Hb Hp Hin Hap Hok [Hi1 Hi2]] Hlt. assert (Hi : (i < length components)%nat) by (by eapply lookup_lt_Some).
  assert (Hdone : length (take i components) = i) by (rewrite length_take; lia).
  unfold bundle_step. rewrite Nat2Z.id, (nth_lookup_Some _ _ _ _ Hc), (take_S_r _ _ _ Hc).
  set (done := take i components) in *.
  pose proof (Forall_lookup_1 _ _ _ _ Hty Hc) as Hct. pose proof Hct as [T1 T2]. rewrite word64 in T1, T2.
  assert (Hpos : 0 < 2 ^ k) by (apply Z.pow_pos_nonneg; lia).
  match goal with |- (if ?g then _ else _) = _ -> _ => destruct g eqn:G1; [done|] end.
  match goal with |- (if ?g then _ else _) = _ -> _ => destruct g eqn:G2; [done|] end.
  match goal with |- (if ?g then _ else _) = _ -> _ => destruct g eqn:G3; [done|] end.
  match goal with |- (if ?g then _ else _) = _ -> _ => destruct g eqn:G4; [done|] end.
  rewrite !orb_false_iff, andb_false_iff in G1. destruct G1 as [[[[[[[_ ?] ?] ?] ?] Ha] Hr] Hmax%Z.ltb_ge].
  rewrite padded_end_code in G3, G4 |- * by lia. fold (padded_end (layout_alignment l) c) in *.
  rewrite !orb_false_iff, !overlap_apart in G3. destruct G3 as [[[? ?] Hbl] Hkl].
  rewrite <- Hdone in G4. rewrite (backings_checked done) in G4;
    [|done|lia|done|apply Forall_and; split; [by apply Forall_take|done]].
  intros [= <-]. bool_to_prop. rewrite Hal, land_pred_pow2 in Ha by lia.
  assert (Hend : component_end c <= padded_end (layout_alignment l) c).
  { unfold padded_end. rewrite Hal. pose proof (Z.div_mod (component_end c + 2 ^ k - 1) (2 ^ k) ltac:(lia)) as Hdm.
    pose proof (Z.mod_pos_bound (component_end c + 2 ^ k - 1) (2 ^ k) ltac:(lia)). lia. }
  assert (Hmo : module_ok (component_module c)).
  { unfold module_ok. cbn. destruct Hr as [Hr|Hr]; bool_to_prop; lia. }
  assert (Hpl : backing_placed l (backing_of (layout_alignment l) c)).
  { unfold backing_placed, backing_end. cbn [backing_of backing_base backing_size].
    replace (component_start c + (padded_end (layout_alignment l) c - component_start c))
      with (padded_end (layout_alignment l) c) by lia.
    split; [lia|]. split; [lia|]. rewrite Hal at 1. split; [done|]. split; [|done].
    unfold padded_end. apply Z.mod_mul. lia. }
  constructor; cbn [bundle_modules bundle_backings bundle_initial_images].
  - by rewrite !length_insert.
  - rewrite length_app, fmap_app, Hdone. cbn [length]. rewrite Nat.add_1_r. apply take_insert_snoc; [lia|].
    by rewrite <- Hdone.
  - rewrite length_app, fmap_app, Hdone. cbn [length]. rewrite Nat.add_1_r. apply take_insert_snoc; [lia|].
    by rewrite <- Hdone.
  - rewrite fmap_app. apply Forall_app. split; [done|]. by apply Forall_singleton.
  - apply Forall_app. split; [done|]. by apply Forall_singleton.
  - rewrite fmap_app. apply pairwise_snoc. by split.
  - rewrite fmap_app. apply Forall_app. split; [done|]. by apply Forall_singleton.
  - rewrite fmap_app. change (component_module <$> [c]) with [component_module c].
    rewrite initial_images_snoc, <- Hi1. cbn [component_module module_role].
    destruct (Z.eqb_spec (component_role c) RIBON_BOOT_MODULE_ROLE_INITIAL_IMAGE); cbn [andb] in G2; bool_to_prop; lia.
Qed.
End Bundle.

(** ** Persistent inputs *)

Definition persistent_mask : Z :=
  Z.lor (Z.lor RIBON_BOOT_ENV_HAS_BOOT_MEDIA RIBON_BOOT_ENV_HAS_BOOT_MODULES) RIBON_BOOT_ENV_HAS_COMMAND_LINE.

Lemma flag_replaced flags bits bit : Z.land (Z.lnot persistent_mask) bit = 0 ->
  has_flag (Z.lor (outside flags persistent_mask) bits) bit = has_flag bits bit.
Proof.
  intros H. unfold has_flag, outside. rewrite Z.land_lor_distr_l, <- Z.land_assoc, H, Z.land_0_r. done.
Qed.

Lemma flag_kept flags bits bit : Z.land (Z.lnot persistent_mask) bit = bit -> Z.land bits bit = 0 ->
  has_flag (Z.lor (outside flags persistent_mask) bits) bit = has_flag flags bit.
Proof.
  intros H H0. unfold has_flag, outside. rewrite Z.land_lor_distr_l, <- Z.land_assoc, H, H0, Z.lor_0_r. done.
Qed.

(** A valid environment stays valid with any media, command line and good modules. *)
Lemma persistent_inputs_valid e media line ms n :
  ribon_boot_environment_is_valid (Some e) = true ->
  0 <= n <= RIBON_BOOT_MODULE_CAPACITY -> n <= len ms -> modules_ok (take (Z.to_nat n) ms) ->
  Forall module_typed (take (Z.to_nat n) ms) ->
  fst (ribon_boot_environment_apply_persistent_inputs (Some e)
    (Some (mkPersistentInputs media (mkModules (Some ms) n) line))) = true.
Proof.
  intros He Hn Hl Hm Ht.
  assert (Hloop : foldE (environment_module_step ms) (upto n) 0 = inr (initial_images (take (Z.to_nat n) ms))).
  { assert (Hlen : len (take (Z.to_nat n) ms) = n) by (unfold len in *; rewrite length_take; lia).
    rewrite (foldE_ext _ (environment_module_step (take (Z.to_nat n) ms))).
    - pose proof (proj2 (environment_modules_iff _ _ Ht) (conj Hm eq_refl)) as E. by rewrite Hlen in E.
    - intros i k Hi. apply elem_of_seqZ in Hi. unfold environment_module_step, module_at.
      assert (Hnth : forall j, 0 <= j < n -> nth (Z.to_nat j) ms zero_module = nth (Z.to_nat j) (take (Z.to_nat n) ms) zero_module)
        by (intros j Hj; rewrite !nth_lookup, lookup_take_lt by lia; done).
      rewrite <- Hnth by lia.
      replace (existsb _ (upto i)) with (existsb (fun previous => modules_overlap (nth (Z.to_nat i) ms zero_module)
        (nth (Z.to_nat previous) (take (Z.to_nat n) ms) zero_module)) (upto i)); [done|].
      apply existsb_ext. intros j Hj. apply elem_of_seqZ in Hj. rewrite (Hnth j) by lia. done. }
  unfold ribon_boot_environment_apply_persistent_inputs, ribon_boot_environment_is_valid in *.
  destruct (_ || _) eqn:G1 in He; [done|]. destruct (_ && _) eqn:G2 in He; [done|].
  cbn -[Z.eqb Z.ltb has_flag persistent_mask Z.lor outside seqZ environment_module_step]. rewrite G1. cbv iota. clear He.
  fold persistent_mask. rewrite Hloop.
  assert (Hcap : (n >? RIBON_BOOT_MODULE_CAPACITY) = false) by (apply Z.ltb_ge; lia). rewrite Hcap. cbn [orb].
  destruct (media_kind media !=? RIBON_BOOT_MEDIA_NONE), (n !=? 0),
    (negb (is_null (command_line_text line)) && (command_line_length line !=? 0));
    rewrite flag_kept by reflexivity; rewrite !flag_replaced by reflexivity; rewrite G2; reflexivity.
Qed.

Lemma module_ok_typed m : module_ok m -> module_typed m.
Proof. intros (? & ? & ? & _). split; apply word64; lia. Qed.

Lemma module_range_end_some b s e : module_range_end b s = Some e -> e = b + s /\ b + s <= UINT64_MAX.
Proof. unfold module_range_end. destruct (_ || _) eqn:G; [done|]. intros [= <-]. bool_to_prop. lia. Qed.

(** A backing range covers its module, so disjoint backings have disjoint modules. *)
Lemma backings_modules_apart a done :
  Forall (fun c => component_end c <= padded_end a c) done ->
  pairwise backings_apart (backing_of a <$> done) -> pairwise modules_apart (component_module <$> done).
Proof.
  rewrite !pairwise_fmap. induction 1 as [|c done Hc Hd IH]; cbn [pairwise]; [done|]. intros [H1 H2].
  split; [|by apply IH]. rewrite Forall_forall in *. intros d Hin. specialize (H1 d Hin). specialize (Hd d Hin).
  unfold backings_apart, modules_apart, ranges_apart, backing_end in *. cbn in *. lia.
Qed.

Lemma bundle_loop_materialised l k components ms bs w :
  0 <= k < 64 -> layout_alignment l = 2 ^ k -> layout_section_base l + layout_section_size l <= UINT64_MAX ->
  Forall component_typed components -> length bs = length ms -> (length components <= length ms)%nat ->
  foldE (bundle_step l (layout_section_base l + layout_section_size l)
    (layout_bootloader_base l + layout_bootloader_size l) (layout_kernel_base l + layout_kernel_size l) components)
    (upto (len components)) (mkBundleWalk ms bs 0) = inr w ->
  materialised l (length ms) components w.
Proof.
  intros Hk Hal Hsec Hty Hbs Hlen Hf.
  assert (H : materialised l (length ms) (take (length (upto (len components))) components) w).
  { apply (foldE_inv _ (fun done => materialised l (length ms) (take (length done) components)) _ _ _ Hf).
    - rewrite take_0. by constructor.
    - intros done x rest b b' E Hb Hstep. apply upto_split in E as [-> Hlt]. unfold len in Hlt. rewrite Nat2Z.id in Hlt.
      rewrite length_app, Nat.add_1_r. destruct (lookup_lt_is_Some_2 components (length done) Hlt) as [c Hc].
      by eapply (bundle_step_materialised l k components Hk Hal Hsec Hty (length ms) (length done) c b b' Hc Hb ltac:(lia)). }
  rewrite length_seqZ in H. rewrite take_ge in H by (unfold len; lia). done.
Qed.

Lemma bundle_loop_error l se be ke components idx w st w' :
  foldE (bundle_step l se be ke components) idx w = inl (st, w') -> st <> BUNDLE_OK.
Proof.
  intros Hf. apply foldE_inl in Hf as (? & ? & ? & ? & _ & _ & Hf). unfold bundle_step in Hf.
  repeat case_match; by simplify_eq.
Qed.

(** C31: A module bundle that is accepted puts one module per component in the
    caller's array, at the component's own addresses.  Its backing range covers the
    module, consists of whole alignment units of the bundle's section, and overlaps
    neither the bootloader, nor the kernel, nor another backing range.  The resulting
    table can be applied to any valid boot environment and leaves it valid. *)
Theorem module_bundle_sound b l ms bs ms' bs' n components :
  bundle_components b = Some components -> len components = bundle_component_count b ->
  Forall component_typed components -> word 64 (layout_alignment l) -> len bs = len ms ->
  ribon_boot_module_bundle_materialize (Some b) (Some l) (Some ms) (Some bs) (len ms) true =
    (BUNDLE_OK, Some ms', Some bs', n) ->
  n = len components /\
  take (Z.to_nat n) ms' = component_module <$> components /\
  take (Z.to_nat n) bs' = backing_of (layout_alignment l) <$> components /\
  Forall (backing_placed l) (take (Z.to_nat n) bs') /\ pairwise backings_apart (take (Z.to_nat n) bs') /\
  Forall (fun c => component_end c <= padded_end (layout_alignment l) c) components /\
  modules_ok (take (Z.to_nat n) ms') /\
  forall e media line, ribon_boot_environment_is_valid (Some e) = true ->
    fst (ribon_boot_environment_apply_persistent_inputs (Some e)
      (Some (mkPersistentInputs media (mkModules (Some ms') n) line))) = true.
Proof.
  intros Hc Hlen Hty Hal Hbs. unfold ribon_boot_module_bundle_materialize. cbn [negb]. rewrite Hc.
  destruct (_ || _ || _); [done|]. destruct (Z.eqb_spec (bundle_component_count b) 0); [done|].
  destruct (_ || _) eqn:G1; [done|].
  destruct (module_range_end (layout_section_base l) _) as [se|] eqn:E1; [|done].
  destruct (module_range_end (layout_bootloader_base l) _) as [be|] eqn:E2; [|done].
  destruct (module_range_end (layout_kernel_base l) _) as [ke|] eqn:E3; [|done].
  apply module_range_end_some in E1 as [-> Hse], E2 as [-> Hbe], E3 as [-> Hke].
  destruct (_ || _ || _ || _) eqn:G2; [done|]. destruct (foldE _ _ _) as [[st w]|w] eqn:Ef.
  { apply bundle_loop_error in Ef. by intros [= ->]. }
  rewrite !orb_false_iff in G2. destruct G2 as [[[A1 A2] _] _]. bool_to_prop.
  intros [= <- <- <-]. rewrite word64 in Hal.
  destruct (proj1 (power_of_two_true (layout_alignment l) ltac:(lia))) as (k & Hk & Hp).
  { unfold power_of_two. rewrite A2, (proj2 (Z.eqb_neq _ _) A1). done. }
  assert (k < 64).
  { apply (Z.pow_lt_mono_r_iff 2); [lia..|]. rewrite <- Hp. change (2 ^ 64) with (UINT64_MAX + 1). lia. }
  rewrite <- Hlen in Ef. apply (bundle_loop_materialised l k) in Ef as Hm; try done; try (unfold len in *; lia).
  destruct Hm as [[L1 L2] M1 M2 M3 M4 M5 M6 [M7 M8]].
  rewrite <- Hlen. unfold len. rewrite Nat2Z.id, M1, M2. fold (len components).
  assert (Hmo : modules_ok (component_module <$> components)).
  { split; [done|]. split; [by apply (backings_modules_apart (layout_alignment l))|]. lia. }
  repeat (split; [done|]). intros e media line He. apply persistent_inputs_valid; try done.
  - split; [apply len_nonneg|]. rewrite Hlen. done.
  - unfold len in *. rewrite L1. lia.
  - unfold len. by rewrite Nat2Z.id, M1.
  - unfold len. rewrite Nat2Z.id, M1. eapply Forall_impl; [exact M6|apply module_ok_typed].
Qed.

Definition sample_components : list RibonBootModuleComponent :=
  [mkModuleComponent (Some (text "initrd.img")) 0x10000 0x11234 RIBON_BOOT_MODULE_ROLE_INITIAL_IMAGE;
   mkModuleComponent (Some (text "ucode")) 0x12000 0x12800 RIBON_BOOT_MODULE_ROLE_AUXILIARY].

Definition sample_bundle : RibonBootModuleBundle :=
  mkModuleBundle sizeof_RibonBootModuleBundle RIBON_BOOT_MODULE_BUNDLE_ABI_VERSION
    (Some sample_components) 2 0.

Definition sample_bundle_layout : RibonBootModuleBundleLayout :=
  mkBundleLayout 0x10000 0x4000 0x1000 0x8000 0x200000 0x100000 4096.

Definition sample_materialised :=
  ribon_boot_module_bundle_materialize (Some sample_bundle) (Some sample_bundle_layout)
    (Some (replicate 2 zero_module)) (Some (replicate 2 (mkBacking 0 0))) 2 true.

Lemma module_bundle_sound_witness :
  sample_materialised = (BUNDLE_OK, Some (component_module <$> sample_components),
    Some [mkBacking 0x10000 0x2000; mkBacking 0x12000 0x1000], 2) /\
  modules_ok (component_module <$> sample_components).
Proof.
  assert (E : sample_materialised = (BUNDLE_OK, Some (component_module <$> sample_components),
    Some [mkBacking 0x10000 0x2000; mkBacking 0x12000 0x1000], 2)) by (vm_compute; reflexivity).
  split; [exact E|].
  refine (proj1 (proj2 (proj2 (proj2 (proj2 (proj2 (proj2 (module_bundle_sound sample_bundle
    sample_bundle_layout _ _ _ _ _ sample_components _ _ _ _ _ E)))))))); try reflexivity.
  - repeat constructor; vm_compute; congruence.
  - vm_compute. split; congruence.
Defined.
