(* ===== verification/ArchOps.v ===== *)
(** * Architecture operations ([src/arch/common.c])

    The part of an architecture that is the same for all of them: the checks of an
    operation table, of a load plan against the machine and its address space, and
    of the entry a protocol asks for.  The callbacks that drive hardware are functions
    on a world [W], or addresses where nothing here calls them. *)

From Stdlib Require Import String.
From S2P Require Import Prelude.
From S2P Require Import Buffer.
From S2P Require Import Wire.
From S2P Require Import CString.
From S2P Require Import Plugin.
From S2P Require Import Protocol.
From S2P Require Import PayloadImage.
From S2P Require Import BootEnvironment.

Definition RIBON_ARCH_OPS_ABI_VERSION : Z := 6.
Definition RIBON_ARCH_CAP_VALIDATE_DIRECT_LOAD : Z := Z.shiftl 1 0.
Definition RIBON_ARCH_CAP_CACHE_SYNC : Z := Z.shiftl 1 1.
Definition RIBON_ARCH_CAP_PRIVILEGE_NORMALIZE : Z := Z.shiftl 1 2.
Definition RIBON_ARCH_CAP_DIRECT_HIGH_ENTRY : Z := Z.shiftl 1 3.
Definition RIBON_ARCH_CAP_ENTRY_BRIDGE : Z := Z.shiftl 1 4.
Definition RIBON_ARCH_CAP_HALT : Z := Z.shiftl 1 5.
Definition RIBON_ARCH_CAP_RESET : Z := Z.shiftl 1 6.
Definition RIBON_ARCH_CAP_MONOTONIC_COUNTER : Z := Z.shiftl 1 7.
Definition RIBON_ARCH_CAP_ALL : Z := Z.shiftl 1 8 - 1.
Definition RIBON_ARCH_TIER_PRIMARY : Z := 0.
Definition RIBON_ARCH_TIER_FUTURE : Z := 1.
Definition RIBON_ARCH_ENDIAN_LITTLE : Z := 0.
Definition RIBON_ARCH_MASK_X86_64 : Z := Z.shiftl 1 0.
Definition RIBON_ARCH_MASK_AARCH64 : Z := Z.shiftl 1 1.
Definition RIBON_ARCH_MASK_RISCV64 : Z := Z.shiftl 1 2.
Definition RIBON_LOAD_PLAN_HAS_HIGHER_HALF : Z := Z.shiftl 1 3.
Definition RIBON_LOAD_PLAN_DIRECT_HIGH_ENTRY_CANDIDATE : Z := Z.shiftl 1 4.
Definition RIBON_REGISTER_ABI_X86_64_RDI_RSI_RDX_RCX : Z := 0.
Definition RIBON_REGISTER_ABI_AARCH64_X0_X1_X2_X3 : Z := 1.
Definition RIBON_REGISTER_ABI_RISCV64_A0_A1_A2_A3 : Z := 2.
Definition RIBON_ENTRY_INTERRUPTS_MASKED : Z := 0.
Definition RIBON_ENTRY_PRIVILEGE_CURRENT_SUPERVISOR : Z := 0.
Definition RIBON_ENTRY_PRIVILEGE_AARCH64_EL1 : Z := 1.
Definition RIBON_ENTRY_TRANSLATION_PRESERVE_REACHABLE : Z := 0.
Definition RIBON_ENTRY_TRANSLATION_DIRECT_HIGH_BRIDGE : Z := 1.
Definition RIBON_ENTRY_TRANSLATION_DISABLED : Z := 2.
Definition sizeof_RibonArchDescriptor : Z := 96.
Definition sizeof_RibonArchOps : Z := 104.

Inductive RibonArchOperationStatus :=
  | ARCH_OK
  | ARCH_BAD_ARGUMENT
  | ARCH_UNSUPPORTED
  | ARCH_INVALID_PAYLOAD.

#[global] Instance arch_status_eq_dec : EqDecision RibonArchOperationStatus.
Proof. solve_decision. Defined.

Inductive RibonArchDirectHighStatus :=
  | DIRECT_HIGH_OK
  | DIRECT_HIGH_UNSUPPORTED
  | DIRECT_HIGH_BAD_ARGUMENT
  | DIRECT_HIGH_BAD_LAYOUT
  | DIRECT_HIGH_OUT_OF_CAPACITY.

Record RibonArchDescriptor := mkArch {
  arch_size : Z;
  arch_abi_version : Z;
  arch_id : Z;
  arch_canonical_name : cstring;
  arch_family_name : cstring;
  arch_word_bits : Z;
  arch_physical_address_bits : Z;
  arch_virtual_address_bits : Z;
  arch_elf_machine : Z;
  arch_pe_coff_machine : Z;
  arch_page_size : Z;
  arch_large_page_size : Z;
  arch_kernel_alignment : Z;
  arch_handoff_alignment : Z;
  arch_boot_module_alignment : Z;
  arch_endian : Z;
  arch_tier : Z;
}.

Record RibonArchDirectHighHandoff := mkDirectHigh {
  direct_high_entry : Z;
  direct_high_translation_root : Z;
}.

Record RibonPreparedEntry := mkPrepared {
  prepared_invocation : RibonEntryInvocation;
  prepared_translation_root : Z;
}.

Definition zero_invocation : RibonEntryInvocation := mkEntryInvocation 0 0 0 0 0 (replicate 8 0) 0 0 0.
Definition zero_prepared : RibonPreparedEntry := mkPrepared zero_invocation 0.

(** The operations boot uses are functions; [direct_high_page_table_pages] reads the
    plan only, and the page tables [prepare_direct_high_entry] writes are the world's. *)
Record RibonArchOps (W : Type) := mkArchOps {
  archops_size : Z;
  archops_abi_version : Z;
  archops_capabilities : Z;
  archops_descriptor : option RibonArchDescriptor;
  archops_validate_direct_load : option (option RibonArchDescriptor -> option RibonValidatedImage ->
    option RibonDirectLoadPlan -> RibonArchOperationStatus * option RibonDirectLoadPlan);
  archops_cache_sync : Z;
  archops_normalize_privilege : Z;
  archops_direct_high_page_table_pages : option (option RibonDirectLoadPlan -> Z);
  archops_prepare_direct_high_entry : option (option RibonDirectLoadPlan -> Z -> Z -> W ->
    W * (RibonArchDirectHighStatus * RibonArchDirectHighHandoff));
  archops_prepare_entry : option (option RibonArchDescriptor -> option RibonEntryInvocation ->
    RibonArchOperationStatus * RibonPreparedEntry);
  archops_transfer_prepared : Z;
  archops_halt : Z;
  archops_reset : Z;
  archops_monotonic_counter : Z;
}.
Arguments mkArchOps {W}.
Arguments archops_size {W}.
Arguments archops_abi_version {W}.
Arguments archops_capabilities {W}.
Arguments archops_descriptor {W}.
Arguments archops_validate_direct_load {W}.
Arguments archops_cache_sync {W}.
Arguments archops_normalize_privilege {W}.
Arguments archops_direct_high_page_table_pages {W}.
Arguments archops_prepare_direct_high_entry {W}.
Arguments archops_prepare_entry {W}.
Arguments archops_transfer_prepared {W}.
Arguments archops_halt {W}.
Arguments archops_reset {W}.
Arguments archops_monotonic_counter {W}.

Definition address_is_canonical (address virtual_address_bits : Z) : bool :=
  if (virtual_address_bits =? 0) || (virtual_address_bits >? 64) then false
  else if virtual_address_bits =? 64 then true
  else
    let sign_bit := Z.shiftl 1 (virtual_address_bits - 1) in
    let high_mask := u64 (Z.lnot (Z.shiftl 1 virtual_address_bits - 1)) in
    if Z.land address sign_bit =? 0 then Z.land address high_mask =? 0
    else Z.land address high_mask =? high_mask.

Definition expected_machine (arch : RibonArchDescriptor) (format : Z) : Z :=
  if format =? RIBON_EXECUTABLE_FORMAT_ELF64 then arch_elf_machine arch
  else if format =? RIBON_EXECUTABLE_FORMAT_PE_COFF then arch_pe_coff_machine arch
  else if (format =? RIBON_EXECUTABLE_FORMAT_LINUX_AARCH64) && (arch_id arch =? RIBON_ARCHITECTURE_AARCH64)
  then arch_elf_machine arch
  else if (format =? RIBON_EXECUTABLE_FORMAT_LINUX_RISCV64) && (arch_id arch =? RIBON_ARCHITECTURE_RISCV64)
  then arch_elf_machine arch
  else 0.

Definition ribon_arch_tier_name (tier : Z) : bytes :=
  if tier =? RIBON_ARCH_TIER_PRIMARY then text "primary"
  else if tier =? RIBON_ARCH_TIER_FUTURE then text "future"
  else text "unknown".

Definition ribon_arch_endian_name (endian : Z) : bytes :=
  if endian =? RIBON_ARCH_ENDIAN_LITTLE then text "little" else text "unknown".

Definition ribon_architecture_mask (architecture : Z) : Z :=
  if architecture =? RIBON_ARCHITECTURE_X86_64 then RIBON_ARCH_MASK_X86_64
  else if architecture =? RIBON_ARCHITECTURE_AARCH64 then RIBON_ARCH_MASK_AARCH64
  else if architecture =? RIBON_ARCHITECTURE_RISCV64 then RIBON_ARCH_MASK_RISCV64
  else 0.

Definition ribon_arch_ops_are_valid {W} (ops : option (RibonArchOps W)) : bool :=
  let required := Z.lor RIBON_ARCH_CAP_VALIDATE_DIRECT_LOAD RIBON_ARCH_CAP_HALT in
  match ops with
  | None => false
  | Some o =>
    match archops_descriptor o with
    | None => false
    | Some d =>
      if (archops_size o !=? sizeof_RibonArchOps) ||
         (archops_abi_version o !=? RIBON_ARCH_OPS_ABI_VERSION) ||
         (outside (archops_capabilities o) RIBON_ARCH_CAP_ALL !=? 0) ||
         (Z.land (archops_capabilities o) required !=? required) ||
         (arch_size d !=? sizeof_RibonArchDescriptor) ||
         (arch_abi_version d !=? RIBON_ARCH_OPS_ABI_VERSION) ||
         is_null (arch_canonical_name d) || is_null (archops_validate_direct_load o) ||
         (archops_halt o =? 0)
      then false
      else if negb (Bool.eqb (has_flag (archops_capabilities o) RIBON_ARCH_CAP_CACHE_SYNC)
                      (archops_cache_sync o !=? 0)) then false
      else if negb (Bool.eqb (has_flag (archops_capabilities o) RIBON_ARCH_CAP_PRIVILEGE_NORMALIZE)
                      (archops_normalize_privilege o !=? 0)) then false
      else if negb (Bool.eqb (has_flag (archops_capabilities o) RIBON_ARCH_CAP_DIRECT_HIGH_ENTRY)
                      (negb (is_null (archops_direct_high_page_table_pages o)) &&
                       negb (is_null (archops_prepare_direct_high_entry o)))) then false
      else if negb (Bool.eqb (has_flag (archops_capabilities o) RIBON_ARCH_CAP_ENTRY_BRIDGE)
                      (negb (is_null (archops_prepare_entry o)) && (archops_transfer_prepared o !=? 0)))
      then false
      else if negb (Bool.eqb (has_flag (archops_capabilities o) RIBON_ARCH_CAP_RESET)
                      (archops_reset o !=? 0)) then false
      else if negb (Bool.eqb (has_flag (archops_capabilities o) RIBON_ARCH_CAP_MONOTONIC_COUNTER)
                      (archops_monotonic_counter o !=? 0)) then false
      else true
    end
  end.

(** [operations] is what [descriptor->operations] points to. *)
Definition ribon_arch_plugin_operations_are_valid {W} (descriptor : option RibonPluginDescriptor)
    (operations : option (RibonArchOps W)) : bool :=
  match descriptor with
  | None => false
  | Some p =>
    if (plugin_kind p !=? RIBON_PLUGIN_KIND_ARCHITECTURE) ||
       (plugin_operations_size p !=? sizeof_RibonArchOps) ||
       (plugin_operations_abi p !=? RIBON_ARCH_OPS_ABI_VERSION) ||
       (plugin_provides p !=? RIBON_CAP_ARCHITECTURE)
    then false
    else
      ribon_arch_ops_are_valid operations &&
      match operations with
      | Some o =>
        match archops_descriptor o with
        | Some d => plugin_architecture_mask p =? ribon_architecture_mask (arch_id d)
        | None => false
        end
      | None => false
      end
  end.

(** The fields of the plan the segment loop updates, and [entry_covered]. *)
Record LoadCheck := mkLoadCheck {
  check_flags : Z;
  check_high_entry : Z;
  check_high_load : Z;
  check_covered : bool;
}.

Definition direct_load_step (bits entry_point : Z) (c : LoadCheck) (segment : RibonLoadSegment) :
    LoadCheck + LoadCheck :=
  if (segment_memory_size segment =? 0) || (segment_file_size segment >? segment_memory_size segment) ||
     negb (address_is_canonical (segment_virtual_address segment) bits) ||
     (segment_virtual_address segment >? UINT64_MAX - segment_memory_size segment)
  then inl c
  else
    let virtual_end := segment_virtual_address segment + segment_memory_size segment in
    if negb (address_is_canonical (virtual_end - 1) bits) then inl c
    else
      let covered :=
        if (entry_point >=? segment_virtual_address segment) && (entry_point <? virtual_end) &&
           (Z.land (segment_flags segment) RIBON_LOAD_SEGMENT_EXECUTE !=? 0)
        then true else check_covered c in
      if Z.land (segment_virtual_address segment) (Z.shiftl 1 (bits - 1)) !=? 0
      then
        let lower := (check_high_entry c =? 0) || (segment_virtual_address segment <? check_high_entry c) in
        inr (mkLoadCheck
          (Z.lor (check_flags c)
             (Z.lor RIBON_LOAD_PLAN_HAS_HIGHER_HALF RIBON_LOAD_PLAN_DIRECT_HIGH_ENTRY_CANDIDATE))
          (if lower then segment_virtual_address segment else check_high_entry c)
          (if lower then segment_load_address segment else check_high_load c) covered)
      else inr (mkLoadCheck (check_flags c) (check_high_entry c) (check_high_load c) covered).

(** The plan with the three fields replaced. *)
Definition checked_plan (p : RibonDirectLoadPlan) (c : LoadCheck) : RibonDirectLoadPlan :=
  mkPlan (plan_size p) (plan_abi_version p) (plan_segment_count p) (check_flags c) (plan_entry_point p)
    (plan_entry_load_address p) (plan_runtime_entry_address p) (plan_load_base p) (plan_load_end p)
    (plan_runtime_load_base p) (plan_runtime_load_end p) (plan_memory_size p)
    (plan_linked_virtual_base p) (plan_linked_virtual_end p) (plan_linked_physical_base p)
    (plan_linked_physical_end p) (check_high_entry c) (check_high_load c) (plan_segments p)
    (plan_segment_capacity p).

Definition ribon_arch_validate_direct_load (arch : option RibonArchDescriptor)
    (image : option RibonValidatedImage) (payload : option RibonDirectLoadPlan) :
    RibonArchOperationStatus * option RibonDirectLoadPlan :=
  match arch, image, payload with
  | Some a, Some i, Some p =>
    if (validated_size i !=? sizeof_RibonValidatedImage) ||
       (validated_abi_version i !=? RIBON_VALIDATED_IMAGE_ABI_VERSION) ||
       (validated_format i =? RIBON_EXECUTABLE_FORMAT_UNKNOWN) || (validated_machine i =? 0) ||
       (validated_reserved i !=? 0) || (validated_image_size i =? 0) ||
       (validated_execution_support i =? 0) ||
       (outside (validated_execution_support i) RIBON_IMAGE_EXECUTION_ALL !=? 0) ||
       (plan_size p !=? sizeof_RibonDirectLoadPlan) ||
       (plan_abi_version p !=? RIBON_DIRECT_LOAD_PLAN_ABI_VERSION) ||
       is_null (arch_canonical_name a) || (arch_word_bits a !=? 64) || (arch_page_size a =? 0) ||
       (Z.land (validated_execution_support i) RIBON_IMAGE_EXECUTION_DIRECT_ENTRY =? 0) ||
       ((validated_format i !=? RIBON_EXECUTABLE_FORMAT_ELF64) &&
        (validated_format i !=? RIBON_EXECUTABLE_FORMAT_PE_COFF) &&
        (validated_format i !=? RIBON_EXECUTABLE_FORMAT_LINUX_AARCH64) &&
        (validated_format i !=? RIBON_EXECUTABLE_FORMAT_LINUX_RISCV64)) ||
       is_null (plan_segments p) || (plan_segment_count p =? 0) ||
       (plan_segment_count p >? plan_segment_capacity p)
    then (ARCH_BAD_ARGUMENT, payload)
    else
      let machine := expected_machine a (validated_format i) in
      if (machine =? 0) || (validated_machine i !=? machine) ||
         negb (address_is_canonical (plan_entry_point p) (arch_virtual_address_bits a))
      then (ARCH_INVALID_PAYLOAD, payload)
      else
        match foldE (direct_load_step (arch_virtual_address_bits a) (plan_entry_point p)) (segments_of p)
                (mkLoadCheck (plan_load_plan_flags p) (plan_high_entry_virtual_address p)
                   (plan_high_entry_load_address p) false) with
        | inl c => (ARCH_INVALID_PAYLOAD, Some (checked_plan p c))
        | inr c => (if check_covered c then ARCH_OK else ARCH_INVALID_PAYLOAD, Some (checked_plan p c))
        end
  | _, _, _ => (ARCH_BAD_ARGUMENT, payload)
  end.

Definition entry_abi_matches_architecture (architecture abi : Z) : bool :=
  if architecture =? RIBON_ARCHITECTURE_X86_64 then abi =? RIBON_REGISTER_ABI_X86_64_RDI_RSI_RDX_RCX
  else if architecture =? RIBON_ARCHITECTURE_AARCH64 then abi =? RIBON_REGISTER_ABI_AARCH64_X0_X1_X2_X3
  else if architecture =? RIBON_ARCHITECTURE_RISCV64 then abi =? RIBON_REGISTER_ABI_RISCV64_A0_A1_A2_A3
  else false.

Definition entry_translation_matches_architecture (architecture translation : Z) : bool :=
  if architecture =? RIBON_ARCHITECTURE_RISCV64
  then (translation =? RIBON_ENTRY_TRANSLATION_PRESERVE_REACHABLE) ||
       (translation =? RIBON_ENTRY_TRANSLATION_DISABLED)
  else if architecture =? RIBON_ARCHITECTURE_AARCH64
  then (translation =? RIBON_ENTRY_TRANSLATION_PRESERVE_REACHABLE) ||
       (translation =? RIBON_ENTRY_TRANSLATION_DIRECT_HIGH_BRIDGE) ||
       (translation =? RIBON_ENTRY_TRANSLATION_DISABLED)
  else if architecture =? RIBON_ARCHITECTURE_X86_64
  then (translation =? RIBON_ENTRY_TRANSLATION_PRESERVE_REACHABLE) ||
       (translation =? RIBON_ENTRY_TRANSLATION_DIRECT_HIGH_BRIDGE)
  else false.

Definition entry_privilege_matches_architecture (architecture privilege : Z) : bool :=
  (privilege =? RIBON_ENTRY_PRIVILEGE_CURRENT_SUPERVISOR) ||
  ((architecture =? RIBON_ARCHITECTURE_AARCH64) && (privilege =? RIBON_ENTRY_PRIVILEGE_AARCH64_EL1)).

Definition entry_state_pair_is_valid (architecture privilege translation : Z) : bool :=
  if architecture !=? RIBON_ARCHITECTURE_AARCH64 then true
  else Bool.eqb (privilege =? RIBON_ENTRY_PRIVILEGE_AARCH64_EL1)
         (translation =? RIBON_ENTRY_TRANSLATION_DISABLED).

(** The status and [*out]; the callers pass an output. *)
Definition ribon_arch_prepare_entry (arch : option RibonArchDescriptor)
    (invocation : option RibonEntryInvocation) : RibonArchOperationStatus * RibonPreparedEntry :=
  match arch, invocation with
  | Some a, Some i =>
    if (invocation_size i !=? sizeof_RibonEntryInvocation) ||
       (invocation_abi_version i !=? RIBON_ENTRY_INVOCATION_ABI_VERSION) ||
       (invocation_entry_address i =? 0) ||
       (invocation_argument_count i >? RIBON_ENTRY_ARGUMENT_LIMIT) ||
       negb (entry_abi_matches_architecture (arch_id a) (invocation_register_abi i)) ||
       (invocation_interrupts i !=? RIBON_ENTRY_INTERRUPTS_MASKED) ||
       negb (entry_privilege_matches_architecture (arch_id a) (invocation_privilege i)) ||
       negb (entry_translation_matches_architecture (arch_id a) (invocation_translation i)) ||
       negb (entry_state_pair_is_valid (arch_id a) (invocation_privilege i) (invocation_translation i))
    then (ARCH_BAD_ARGUMENT, zero_prepared)
    else (ARCH_OK, mkPrepared i 0)
  | _, _ => (ARCH_BAD_ARGUMENT, zero_prepared)
  end.

(** ** Canonical addresses *)

(** An address of [bits] significant bits, sign-extended to 64. *)
Definition canonical (bits address : Z) : Prop :=
  bits = 64 \/ 0 < bits < 64 /\ (address < 2 ^ (bits - 1) \/ 2 ^ 64 - 2 ^ (bits - 1) <= address).

Lemma testbit_top n v : 0 < n -> 0 <= v < 2 ^ n -> Z.testbit v (n - 1) = (2 ^ (n - 1) <=? v).
Proof.
  intros Hn Hv. assert (Hp : 2 ^ n = 2 * 2 ^ (n - 1)) by (rewrite <- Z.pow_succ_r by lia; f_equal; lia).
  assert (0 < 2 ^ (n - 1)) by (apply Z.pow_pos_nonneg; lia).
  destruct (Z.leb_spec (2 ^ (n - 1)) v).
  - apply Z.testbit_true; [lia|]. replace (v / 2 ^ (n - 1)) with 1; [done|].
    apply (Z.div_unique v _ 1 (v - 2 ^ (n - 1))); lia.
  - apply Z.testbit_false; [lia|]. rewrite Z.div_small by lia. done.
Qed.

Lemma address_is_canonical_iff address bits : word 64 address -> 0 <= bits ->
  address_is_canonical address bits = true <-> canonical bits address.
Proof.
  intros Ha Hb. unfold address_is_canonical, canonical.
  destruct (Z.eqb_spec bits 0); [cbn; split; [done|lia]|]. destruct (Z.ltb_spec 64 bits); [cbn; split; [done|lia]|].
  destruct (Z.eqb_spec bits 64); [cbn; tauto|]. cbn [orb].
  rewrite land_bit by lia. rewrite (Z.shiftl_1_l bits).
  rewrite land_wrap by (done || lia). rewrite land_align_mask by lia.
  assert (Hp : 2 ^ bits = 2 * 2 ^ (bits - 1)) by (rewrite <- Z.pow_succ_r by lia; f_equal; lia).
  assert (0 < 2 ^ (bits - 1)) by (apply Z.pow_pos_nonneg; lia).
  assert (H64 : 2 ^ 64 = 2 ^ (64 - bits) * 2 ^ bits) by (rewrite <- Z.pow_add_r by lia; f_equal; lia).
  assert (0 < 2 ^ (64 - bits)) by (apply Z.pow_pos_nonneg; lia).
  assert (Hle : 2 ^ bits <= 2 ^ 64) by nia.
  replace (u64 (Z.lnot (2 ^ bits - 1))) with (2 ^ 64 - 2 ^ bits).
  2:{ rewrite lnot_word by (lia || (unfold word; lia)). lia. }
  unfold word in Ha. pose proof (Z.mod_pos_bound address (2 ^ bits) ltac:(lia)) as Hm.
  pose proof (Z.div_mod address (2 ^ bits) ltac:(lia)) as Hd.
  replace (Z.testbit address (bits - 1)) with (2 ^ (bits - 1) <=? address mod 2 ^ bits).
  2:{ rewrite <- testbit_top by lia. rewrite Z.mod_pow2_bits_low by lia. done. }
  set (q := address / 2 ^ bits) in *. set (r := address mod 2 ^ bits) in *. set (t := 2 ^ (bits - 1)) in *.
  destruct (Z.leb_spec t r); cbn [negb]; rewrite Z.eqb_eq.
  - split; [intros Hx; right; split; [lia|]; lia|]. intros [|[_ [|]]]; [lia|..].
    + assert (q = 0) by nia. nia.
    + assert (q = 2 ^ (64 - bits) - 1) by nia. nia.
  - split; [intros Hx; right; split; [lia|]; lia|]. intros [|[_ [|]]]; [lia|..].
    + assert (q = 0) by nia. nia.
    + assert (q = 2 ^ (64 - bits) - 1) by nia. nia.
Qed.

(** ** The load plan against the machine *)

Definition segment_typed (s : RibonLoadSegment) : Prop :=
  word 64 (segment_virtual_address s) /\ word 64 (segment_memory_size s).

(** The first and the last byte of a segment have canonical addresses. *)
Definition segment_canonical (bits : Z) (s : RibonLoadSegment) : Prop :=
  0 < segment_memory_size s /\ segment_file_size s <= segment_memory_size s /\
  segment_virtual_address s + segment_memory_size s <= UINT64_MAX /\
  canonical bits (segment_virtual_address s) /\
  canonical bits (segment_virtual_address s + segment_memory_size s - 1).

Definition covers_entry (entry : Z) (s : RibonLoadSegment) : Prop :=
  segment_virtual_address s <= entry < segment_virtual_address s + segment_memory_size s /\ executable s = true.

(** A segment whose address has the sign bit. *)
Definition higher_half (bits : Z) (s : RibonLoadSegment) : Prop :=
  Z.testbit (segment_virtual_address s) (bits - 1) = true.

(** The lowest of them. *)
Definition lowest_high (bits : Z) (done : list RibonLoadSegment) (address load : Z) : Prop :=
  exists s, s ∈ done /\ higher_half bits s /\ segment_virtual_address s = address /\
    segment_load_address s = load /\
    Forall (fun t => higher_half bits t -> address <= segment_virtual_address t) done.

Definition high_flags : Z :=
  Z.lor RIBON_LOAD_PLAN_HAS_HIGHER_HALF RIBON_LOAD_PLAN_DIRECT_HIGH_ENTRY_CANDIDATE.

Record load_checked (bits entry flags : Z) (done : list RibonLoadSegment) (c : LoadCheck) : Prop := {
  checked_canonical : Forall (segment_canonical bits) done;
  checked_covered : check_covered c = true <-> Exists (covers_entry entry) done;
  checked_high : Exists (higher_half bits) done /\ check_flags c = Z.lor flags high_flags /\
      lowest_high bits done (check_high_entry c) (check_high_load c) \/
    Forall (fun s => ~ higher_half bits s) done /\ check_flags c = flags /\
      check_high_entry c = 0 /\ check_high_load c = 0;
}.

Lemma lowest_high_snoc bits done s address load : 0 < bits -> higher_half bits s ->
  lowest_high bits done address load \/ Forall (fun t => ~ higher_half bits t) done /\ address = 0 ->
  let lower := (address =? 0) || (segment_virtual_address s <? address) in
  lowest_high bits (done ++ [s]) (if lower then segment_virtual_address s else address)
    (if lower then segment_load_address s else load).
Proof.
  intros Hb Hs H lower. unfold lowest_high. setoid_rewrite elem_of_app. setoid_rewrite Forall_app.
  setoid_rewrite Forall_singleton. destruct H as [(k & Hk & Hkh & <- & <- & Hlow)|[Hn ->]].
  - assert (segment_virtual_address k <> 0).
    { intros E. unfold higher_half in Hkh. by rewrite E, Z.bits_0 in Hkh. }
    subst lower. rewrite (proj2 (Z.eqb_neq _ 0)) by done. cbn [orb].
    destruct (Z.ltb_spec (segment_virtual_address s) (segment_virtual_address k)).
    + exists s. repeat split; try done; [right; by left|].
      eapply Forall_impl; [exact Hlow|]. intros t Ht Hth. specialize (Ht Hth). lia.
    + exists k. repeat split; auto.
  - exists s. repeat split; try done; [right; by left|]. eapply Forall_impl; [exact Hn|]. by intros t Ht Hth.
Qed.

Lemma direct_load_step_checked bits entry flags done c s c' :
  0 <= bits -> segment_typed s -> load_checked bits entry flags done c ->
  direct_load_step bits entry c s = inr c' -> load_checked bits entry flags (done ++ [s]) c'.
Proof.
  intros Hb [T1 T2] [H1 H2 H3]. unfold direct_load_step.
  match goal with |- (if ?g then _ else _) = _ -> _ => destruct g eqn:G1; [done|] end.
  match goal with |- (if ?g then _ else _) = _ -> _ => destruct g eqn:G2; [done|] end.
  pose proof T1 as W1. pose proof T2 as W2. rewrite word64 in W1, W2. bool_to_prop.
  assert (Hc : segment_canonical bits s).
  { split; [lia|]. split; [done|]. split; [lia|].
    split; apply address_is_canonical_iff; try done. apply word64. lia. }
  assert (Hbits : 0 < bits).
  { destruct Hc as (_ & _ & _ & [->|[]] & _); lia. }
  rewrite land_bit by lia. rewrite negb_involutive.
  set (cov := if _ && _ && _ then true else check_covered c).
  assert (Hcov : cov = true <-> Exists (covers_entry entry) (done ++ [s])).
  { rewrite Exists_app, Exists_cons, Exists_nil, <- H2. unfold cov, covers_entry, executable.
    destruct (_ && _ && _) eqn:Eg.
    - rewrite !andb_true_iff, Z.leb_le, Z.ltb_lt in Eg. tauto.
    - assert (~ (segment_virtual_address s <= entry < segment_virtual_address s + segment_memory_size s /\
        (Z.land (segment_flags s) RIBON_LOAD_SEGMENT_EXECUTE !=? 0) = true)); [|tauto].
      intros [? Hx]. rewrite Hx, andb_true_r, andb_false_iff, Z.leb_gt, Z.ltb_ge in Eg. lia. }
  assert (Hcan : Forall (segment_canonical bits) (done ++ [s])) by (apply Forall_app; by rewrite Forall_singleton).
  destruct (Z.testbit (segment_virtual_address s) (bits - 1)) eqn:Et; intros [= <-]; constructor; try done;
    cbn [check_flags check_high_entry check_high_load].
  - left. rewrite Exists_app, Exists_cons. split; [auto|]. fold high_flags. split.
    + destruct H3 as [(_ & -> & _)|(_ & -> & _)]; [|done]. by rewrite <- Z.lor_assoc, Z.lor_diag.
    + apply lowest_high_snoc; [done..|]. destruct H3 as [(_ & _ & ?)|(? & _ & ? & _)]; auto.
  - rewrite !Exists_app, !Exists_cons, !Exists_nil, !Forall_app, !Forall_singleton.
    assert (Hns : ~ higher_half bits s) by (unfold higher_half; congruence).
    destruct H3 as [(Hx & Hf & (k & Hk & Hkh & Hka & Hkl & Hlow))|(Hn & Hf & He & Hl)]; [left|right; auto].
    split; [auto|]. split; [done|]. exists k. rewrite elem_of_app, Forall_app, Forall_singleton.
    repeat split; auto. intros ?. done.
Qed.

Lemma direct_load_loop bits entry flags segments c :
  0 <= bits -> Forall segment_typed segments ->
  foldE (direct_load_step bits entry) segments (mkLoadCheck flags 0 0 false) = inr c ->
  load_checked bits entry flags segments c.
Proof.
  intros Hb Hty Hf. apply (foldE_inv _ (load_checked bits entry flags) _ _ _ Hf).
  - constructor; [constructor|by rewrite Exists_nil|right; auto].
  - intros done s rest c1 c2 -> H Hstep. apply Forall_app in Hty as [_ [Hs _]%Forall_cons].
    by eapply direct_load_step_checked.
Qed.

(** The plan the checks leave differs in its flags and its high entry only. *)
Lemma checked_plan_safe size p c : load_plan_safe size p -> load_plan_safe size (checked_plan p c).
Proof. by intros []. Qed.

Lemma arch_checked a i p p' : ribon_arch_validate_direct_load a i (Some p) = (ARCH_OK, p') ->
  exists c, p' = Some (checked_plan p c).
Proof.
  unfold ribon_arch_validate_direct_load. destruct a as [a|]; [|done]. destruct i as [i|]; [|done].
  match goal with |- (if ?g then _ else _) = _ -> _ => destruct g; [done|] end.
  match goal with |- (if ?g then _ else _) = _ -> _ => destruct g; [done|] end.
  destruct (foldE _ _ _) as [c|c]; [done|]. intros [= _ <-]. by exists c.
Qed.

(** C32: A load plan that passes the architecture's check was built for this machine:
    every segment lies between canonical addresses of the machine's virtual address
    width without wrapping, and a segment that may be executed contains the canonical
    entry point.  The check changes nothing but the higher-half facts: it raises the
    higher-half flags exactly when a segment has the sign bit, and then records the
    lowest such segment as the high entry. *)
Theorem arch_direct_load_sound a i p p' :
  0 <= arch_virtual_address_bits a -> Forall segment_typed (segments_of p) ->
  word 64 (plan_entry_point p) ->
  plan_high_entry_virtual_address p = 0 -> plan_high_entry_load_address p = 0 ->
  ribon_arch_validate_direct_load (Some a) (Some i) (Some p) = (ARCH_OK, p') ->
  exists c, p' = Some (checked_plan p c) /\
    validated_machine i = expected_machine a (validated_format i) /\ validated_machine i <> 0 /\
    canonical (arch_virtual_address_bits a) (plan_entry_point p) /\
    Forall (segment_canonical (arch_virtual_address_bits a)) (segments_of p) /\
    Exists (covers_entry (plan_entry_point p)) (segments_of p) /\
    (Exists (higher_half (arch_virtual_address_bits a)) (segments_of p) /\
       plan_load_plan_flags (checked_plan p c) = Z.lor (plan_load_plan_flags p) high_flags /\
       lowest_high (arch_virtual_address_bits a) (segments_of p)
         (plan_high_entry_virtual_address (checked_plan p c)) (plan_high_entry_load_address (checked_plan p c)) \/
     Forall (fun s => ~ higher_half (arch_virtual_address_bits a) s) (segments_of p) /\
       plan_load_plan_flags (checked_plan p c) = plan_load_plan_flags p /\
       plan_high_entry_virtual_address (checked_plan p c) = 0 /\
       plan_high_entry_load_address (checked_plan p c) = 0).
Proof.
  intros Hb Hty He H0 H1. unfold ribon_arch_validate_direct_load.
  match goal with |- (if ?g then _ else _) = _ -> _ => destruct g; [done|] end.
  match goal with |- (if ?g then _ else _) = _ -> _ => destruct g eqn:G; [done|] end.
  rewrite H0, H1. destruct (foldE _ _ _) as [c|c] eqn:Ef; [done|].
  destruct (check_covered c) eqn:Ec; [|done]. intros [= <-]. exists c. bool_to_prop.
  apply direct_load_loop in Ef as [F1 F2 F3]; [|done..].
  split; [done|]. split; [done|]. split; [congruence|]. split; [by apply address_is_canonical_iff|].
  split; [done|]. split; [by apply F2|exact F3].
Qed.
