(* ===== verification/Boot.v ===== *)
(** * The boot transaction ([src/common/boot.c])

    One boot attempt, from the captured environment to the entry of the kernel.  The
    stages only advance; every failure ends in the stage FAILED with a receipt.

    A provider is what a service's operation pointer names: its callbacks are
    functions on a world [W] of which nothing is known.  The buffers the caller lends
    are part of the transaction ([input_payload_buffer] and the like), and [boot_log]
    is the sequence of calls that reached a provider, with their results. *)

From S2P Require Import Prelude.
From S2P Require Import Buffer.
From S2P Require Import Wire.
From S2P Require Import Effects.
From S2P Require Import CString.
From S2P Require Import Memory.
From S2P Require Import Plugin.
From S2P Require Import Registry.
From S2P Require Import ServiceDirectory.
From S2P Require Import Context.
From S2P Require Import Protocol.
From S2P Require Import PayloadImage.
From S2P Require Import BootEnvironment.
From S2P Require Import ArchOps.

Definition RIBON_BOOT_ATTEMPT_RECORD_SIZE : Z := 40.
Definition RIBON_PROTOCOL_EXPECT_MEMORY_MAP : Z := Z.shiftl 1 0.
Definition RIBON_PROTOCOL_ALLOW_BOOT_MODULES : Z := Z.shiftl 1 4.
Definition RIBON_MEMORY_REGION_MMIO : Z := 4.
Definition RIBON_MEMORY_REGION_FRAMEBUFFER : Z := 5.
Definition RIBON_SERVICE_STATUS_OK : Z := 0.
Definition RIBON_SERVICE_STATUS_TIMEOUT : Z := -4.
Definition RIBON_SERVICE_STATUS_IO : Z := -5.
Definition RIBON_PROTOCOL_HANDOFF_STATUS_OK : Z := 0.
Definition RIBON_PROTOCOL_HANDOFF_STATUS_OUT_OF_CAPACITY : Z := -2.
Definition RIBON_TERMINAL_IMAGE_LAUNCH_RESULT_NONE : Z := 0.

Inductive RibonBootStatus :=
  | BOOT_OK
  | BOOT_BAD_ARGUMENT
  | BOOT_BAD_STATE
  | BOOT_MISSING_CAPABILITY
  | BOOT_INCOMPLETE_ENVIRONMENT
  | BOOT_INVALID_PAYLOAD
  | BOOT_INVALID_HANDOFF
  | BOOT_BUDGET_EXCEEDED
  | BOOT_UNSUPPORTED
  | BOOT_TIMEOUT
  | BOOT_PROVIDER_FAILURE.

Inductive RibonBootLifecycleStage :=
  | STAGE_CAPTURE
  | STAGE_VALIDATE_PRODUCT
  | STAGE_NORMALIZE_ENVIRONMENT
  | STAGE_SELECT_SOURCE
  | STAGE_VERIFY_MANIFEST
  | STAGE_LOAD_IMAGE
  | STAGE_PREPARE_PROTOCOL
  | STAGE_COMMIT_ATTEMPT
  | STAGE_QUIESCE_ENVIRONMENT
  | STAGE_EXECUTE_TERMINAL
  | STAGE_TRANSFER
  | STAGE_FAILED.

#[global] Instance boot_stage_eq_dec : EqDecision RibonBootLifecycleStage.
Proof. solve_decision. Defined.

(** The value of the enumerator. *)
Definition stage_number (stage : RibonBootLifecycleStage) : Z :=
  match stage with
  | STAGE_CAPTURE => 0
  | STAGE_VALIDATE_PRODUCT => 1
  | STAGE_NORMALIZE_ENVIRONMENT => 2
  | STAGE_SELECT_SOURCE => 3
  | STAGE_VERIFY_MANIFEST => 4
  | STAGE_LOAD_IMAGE => 5
  | STAGE_PREPARE_PROTOCOL => 6
  | STAGE_COMMIT_ATTEMPT => 7
  | STAGE_QUIESCE_ENVIRONMENT => 8
  | STAGE_EXECUTE_TERMINAL => 9
  | STAGE_TRANSFER => 10
  | STAGE_FAILED => 11
  end.

Inductive RibonBootFailureReason :=
  | FAILURE_NONE
  | FAILURE_BAD_INPUT
  | FAILURE_PRODUCT
  | FAILURE_BUDGET
  | FAILURE_TIMEOUT
  | FAILURE_SOURCE
  | FAILURE_IMAGE
  | FAILURE_PROTOCOL
  | FAILURE_COMMIT
  | FAILURE_QUIESCE
  | FAILURE_TERMINAL.

Record RibonBootFailureReceipt := mkFailureReceipt {
  failure_stage : RibonBootLifecycleStage;
  failure_reason : RibonBootFailureReason;
  failure_provider_id : cstring;
  failure_consumed_input_bytes : Z;
  failure_consumed_output_bytes : Z;
  failure_consumed_components : Z;
  failure_consumed_retries : Z;
}.

Record RibonBootSource := mkBootSource {
  boot_source_kind : Z;
  boot_source_id : Z;
  boot_source_size : Z;
  boot_source_block_size : Z;
}.

Record RibonHandoffArtifact := mkArtifact {
  artifact_size : Z;
  artifact_format : cstring;
  artifact_version_major : Z;
  artifact_section_count : Z;
}.

(** A pointer to an output is what it currently holds. *)
Record RibonBootTransactionInput := mkInput {
  input_environment : option RibonBootEnvironment;
  input_normalized_memory_map : option MemoryMap.RibonMutableMemoryMap;
  input_source : option RibonBootSource;
  input_source_offset : Z;
  input_source_size : Z;
  input_payload_buffer : option bytes;
  input_payload_buffer_capacity : Z;
  input_source_name : cstring;
  input_validated_image : option RibonValidatedImage;
  input_direct_load_plan : option RibonDirectLoadPlan;
  input_handoff_buffer : option bytes;
  input_handoff_buffer_capacity : Z;
  input_handoff_artifact : option RibonHandoffArtifact;
  input_transition_buffer : Z;
  input_transition_buffer_physical_address : Z;
  input_transition_buffer_capacity : Z;
}.

(** The fields [kernel_load_segment_count] to [kernel_load_segments] of a boot plan. *)
Record KernelLayout := mkKernelLayout {
  kernel_load_segment_count : Z;
  kernel_load_plan_flags : Z;
  kernel_entry_point : Z;
  kernel_entry_load_address : Z;
  kernel_runtime_entry_address : Z;
  kernel_load_base : Z;
  kernel_load_end : Z;
  kernel_runtime_load_base : Z;
  kernel_runtime_load_end : Z;
  kernel_memory_size : Z;
  kernel_linked_virtual_base : Z;
  kernel_linked_virtual_end : Z;
  kernel_linked_physical_base : Z;
  kernel_linked_physical_end : Z;
  kernel_high_entry_virtual_address : Z;
  kernel_high_entry_load_address : Z;
  kernel_load_segments : option (list RibonLoadSegment);
}.

Definition zero_kernel_layout : KernelLayout := mkKernelLayout 0 0 0 0 0 0 0 0 0 0 0 0 0 0 0 0 None.

Record RibonBootPlan := mkBootPlan {
  bp_environment : Z;
  bp_arch : option RibonArchDescriptor;
  bp_environment_flags : Z;
  bp_memory_region_count : Z;
  bp_normalized_memory_region_count : Z;
  bp_usable_memory_bytes : Z;
  bp_boot_media : Z;
  bp_boot_module_count : Z;
  bp_device_tree_address : Z;
  bp_device_tree_size : Z;
  bp_framebuffer_address : Z;
  bp_command_line : cstring;
  bp_protocol_id : cstring;
  bp_kernel_path : cstring;
  bp_kernel_source_name : cstring;
  bp_kernel_image : RibonValidatedImage;
  bp_kernel_direct_load_plan : option RibonDirectLoadPlan;
  bp_kernel : KernelLayout;
  bp_handoff_format : cstring;
  bp_handoff_major : Z;
  bp_handoff_artifact_format : cstring;
  bp_handoff_artifact_size : Z;
  bp_handoff_artifact_sections : Z;
  bp_kernel_transition_root_physical : Z;
  bp_kernel_transition_bytes : Z;
  bp_expectations : Z;
}.

(** *** Providers *)

Record RibonMonotonicTimerServiceOperations (W : Type) := mkTimer {
  timer_size : Z;
  timer_abi_version : Z;
  timer_frequency_hz : Z;
  (** the status and [*ticks] *)
  timer_now : option (W -> W * (Z * Z));
}.
Arguments mkTimer {W}.
Arguments timer_size {W}.
Arguments timer_abi_version {W}.
Arguments timer_frequency_hz {W}.
Arguments timer_now {W}.

Record RibonBootSourceServiceOperations (W : Type) := mkSourceOps {
  source_ops_size : Z;
  source_ops_abi_version : Z;
  (** source, offset, buffer, size, deadline: the status and the buffer afterwards *)
  source_ops_read : option (RibonBootSource -> Z -> bytes -> Z -> Z -> W -> W * (Z * bytes));
}.
Arguments mkSourceOps {W}.
Arguments source_ops_size {W}.
Arguments source_ops_abi_version {W}.
Arguments source_ops_read {W}.

(** Boot never reads the metadata back; it only requires the callback. *)
Record RibonPersistentMetadataServiceOperations (W : Type) := mkMetadataOps {
  metadata_ops_size : Z;
  metadata_ops_abi_version : Z;
  metadata_ops_read : Z;
  metadata_ops_write : option (Z -> bytes -> W -> W * Z);
}.
Arguments mkMetadataOps {W}.
Arguments metadata_ops_size {W}.
Arguments metadata_ops_abi_version {W}.
Arguments metadata_ops_read {W}.
Arguments metadata_ops_write {W}.

Record RibonStorageFlushServiceOperations (W : Type) := mkFlushOps {
  flush_ops_size : Z;
  flush_ops_abi_version : Z;
  flush_ops_flush : option (Z -> Z -> W -> W * Z);
}.
Arguments mkFlushOps {W}.
Arguments flush_ops_size {W}.
Arguments flush_ops_abi_version {W}.
Arguments flush_ops_flush {W}.

Record RibonEnvironmentQuiesceServiceOperations (W : Type) := mkQuiesceOps {
  quiesce_ops_size : Z;
  quiesce_ops_abi_version : Z;
  quiesce_ops_quiesce : option (W -> W * Z);
}.
Arguments mkQuiesceOps {W}.
Arguments quiesce_ops_size {W}.
Arguments quiesce_ops_abi_version {W}.
Arguments quiesce_ops_quiesce {W}.

Record RibonTerminalImageLaunchRequest := mkLaunchRequest {
  launch_size : Z;
  launch_abi_version : Z;
  launch_image_data : option bytes;
  launch_image_size : Z;
  launch_validated_image : RibonValidatedImage;
  launch_source : RibonBootSource;
  launch_source_name : cstring;
  launch_load_options_kind : Z;
  launch_load_options_size : Z;
  launch_load_options : Z;
  launch_watchdog_timeout_ms : Z;
}.

Record RibonTerminalImageLaunchReceipt := mkLaunchReceipt {
  launch_receipt_size : Z;
  launch_receipt_abi_version : Z;
  launch_receipt_result : Z;
}.

Record LaunchOperations (W : Type) := mkLaunchOps {
  launch_ops_size : Z;
  launch_ops_abi_version : Z;
  launch_ops_launch : option (RibonTerminalImageLaunchRequest -> RibonTerminalImageLaunchReceipt -> W ->
    W * (Z * RibonTerminalImageLaunchReceipt));
}.
Arguments mkLaunchOps {W}.
Arguments launch_ops_size {W}.
Arguments launch_ops_abi_version {W}.
Arguments launch_ops_launch {W}.

Definition sizeof_RibonMonotonicTimerServiceOperations : Z := 32.
Definition sizeof_RibonBootSourceServiceOperations : Z := 24.
Definition sizeof_RibonPersistentMetadataServiceOperations : Z := 32.
Definition sizeof_RibonStorageFlushServiceOperations : Z := 24.
Definition sizeof_RibonEnvironmentQuiesceServiceOperations : Z := 24.
Definition sizeof_RibonTerminalImageLaunchRequest : Z := 72.
Definition sizeof_RibonTerminalImageLaunchReceipt : Z := 32.

(** What the operation pointers of the services and the two callbacks of the
    protocol that run during a boot point to. *)
Record Providers (W : Type) := mkProviders {
  timer_operations : RibonServiceDescriptor -> option (RibonMonotonicTimerServiceOperations W);
  source_operations : RibonServiceDescriptor -> option (RibonBootSourceServiceOperations W);
  metadata_operations : RibonServiceDescriptor -> option (RibonPersistentMetadataServiceOperations W);
  flush_operations : RibonServiceDescriptor -> option (RibonStorageFlushServiceOperations W);
  quiesce_operations : RibonServiceDescriptor -> option (RibonEnvironmentQuiesceServiceOperations W);
  launch_operations : RibonServiceDescriptor -> option (LaunchOperations W);
  placement_operations : RibonServiceDescriptor -> option RibonPayloadPlacementServiceOperations;
  protocol_handoff : RibonBootPlan -> RibonBootEnvironment -> option MemoryMap.RibonMutableMemoryMap ->
    option bytes -> Z -> W -> W * (Z * (option bytes * RibonHandoffArtifact));
  protocol_terminal : option RibonArchDescriptor -> RibonBootPlan -> RibonBootEnvironment ->
    option RibonHandoffArtifact -> W -> W * (Z * RibonTerminalRequest);
}.
Arguments mkProviders {W}.
Arguments timer_operations {W}.
Arguments source_operations {W}.
Arguments metadata_operations {W}.
Arguments flush_operations {W}.
Arguments quiesce_operations {W}.
Arguments launch_operations {W}.
Arguments placement_operations {W}.
Arguments protocol_handoff {W}.
Arguments protocol_terminal {W}.

(** *** The transaction *)

Definition sizeof_RibonBootTransaction : Z := 1208.

(** The fields that initialisation writes and nothing changes. *)
Record BootSelection (W : Type) := mkSelectionOf {
  sel_core : RibonCoreContext;
  sel_arch : RibonArchOps W;
  sel_protocol : RibonBootProtocol;
  sel_image_format : RibonImageFormatOps;
  sel_boot_source : RibonServiceDescriptor;
  sel_timer : RibonServiceDescriptor;
  sel_metadata : RibonServiceDescriptor;
  sel_flush : RibonServiceDescriptor;
  sel_quiesce : option RibonServiceDescriptor;
  sel_terminal_launcher : option RibonServiceDescriptor;
}.
Arguments mkSelectionOf {W}.
Arguments sel_core {W}.
Arguments sel_arch {W}.
Arguments sel_protocol {W}.
Arguments sel_image_format {W}.
Arguments sel_boot_source {W}.
Arguments sel_timer {W}.
Arguments sel_metadata {W}.
Arguments sel_flush {W}.
Arguments sel_quiesce {W}.
Arguments sel_terminal_launcher {W}.

(** A zeroed transaction has no selection. *)
Record RibonBootTransaction (W : Type) := mkTransaction {
  tx_size : Z;
  tx_abi_version : Z;
  tx_selection : option (BootSelection W);
  tx_stage : RibonBootLifecycleStage;
  tx_environment : RibonBootEnvironment;
  tx_source : RibonBootSource;
  tx_input : RibonBootTransactionInput;
  tx_payload : RibonPayloadImage;
  tx_validated_image : RibonValidatedImage;
  tx_plan : RibonBootPlan;
  tx_terminal_request : RibonTerminalRequest;
  tx_prepared_entry : RibonPreparedEntry;
  tx_receipt : RibonBootFailureReceipt;
  tx_consumed_input_bytes : Z;
  tx_consumed_output_bytes : Z;
  tx_consumed_components : Z;
  tx_consumed_retries : Z;
}.
Arguments mkTransaction {W}.
Arguments tx_size {W}.
Arguments tx_abi_version {W}.
Arguments tx_selection {W}.
Arguments tx_stage {W}.
Arguments tx_environment {W}.
Arguments tx_source {W}.
Arguments tx_input {W}.
Arguments tx_payload {W}.
Arguments tx_validated_image {W}.
Arguments tx_plan {W}.
Arguments tx_terminal_request {W}.
Arguments tx_prepared_entry {W}.
Arguments tx_receipt {W}.
Arguments tx_consumed_input_bytes {W}.
Arguments tx_consumed_output_bytes {W}.
Arguments tx_consumed_components {W}.
Arguments tx_consumed_retries {W}.

Definition zero_environment : RibonBootEnvironment :=
  mkEnvironment 0 0 0 0 (mkMemoryMap None 0) (mkDeviceTree 0 0) 0 zero_media (mkModules None 0)
    (mkCommandLine None 0) 0.
Definition zero_source : RibonBootSource := mkBootSource 0 0 0 0.
Definition zero_input : RibonBootTransactionInput :=
  mkInput None None None 0 0 None 0 None None None None 0 None 0 0 0.
Definition zero_payload : RibonPayloadImage := mkPayload None 0 None.
Definition zero_plan : RibonBootPlan :=
  mkBootPlan 0 None 0 0 0 0 0 0 0 0 0 None None None None empty_validated None zero_kernel_layout
    None 0 None 0 0 0 0 0.
Definition zero_request : RibonTerminalRequest :=
  mkTerminalRequest 0 0 0 0 zero_invocation (mkManagedImage 0 0 0 0).
Definition zero_receipt : RibonBootFailureReceipt := mkFailureReceipt STAGE_CAPTURE FAILURE_NONE None 0 0 0 0.

(** [(struct RibonBootTransaction){0}] *)
Definition zero_transaction {W} : RibonBootTransaction W :=
  mkTransaction 0 0 None STAGE_CAPTURE zero_environment zero_source zero_input zero_payload
    empty_validated zero_plan zero_request zero_prepared zero_receipt 0 0 0 0.

(** Calls that reached a provider, in order. *)
Inductive Event :=
  | ENow (status ticks : Z)
  | ERead (offset size status : Z)
  | EDirectHigh
  | EHandoff (status : Z)
  | ETerminal (status : Z)
  | EWrite (offset : Z) (record : bytes) (status : Z)
  | EFlush (slot deadline status : Z)
  | EQuiesce (status : Z)
  | ELaunch (request : RibonTerminalImageLaunchRequest)
  | ETransfer (entry : RibonPreparedEntry)
  | EHalt.

Record Boot (W : Type) := mkBoot {
  boot_world : W;
  boot_tx : RibonBootTransaction W;
  boot_log : list Event;
}.
Arguments mkBoot {W}.
Arguments boot_world {W}.
Arguments boot_tx {W}.
Arguments boot_log {W}.

(** [transaction->f = v] *)

Definition set_stage {W} (v : RibonBootLifecycleStage) (t : RibonBootTransaction W) : RibonBootTransaction W :=
  mkTransaction (tx_size t) (tx_abi_version t) (tx_selection t) v (tx_environment t)
    (tx_source t) (tx_input t) (tx_payload t) (tx_validated_image t) (tx_plan t)
    (tx_terminal_request t) (tx_prepared_entry t) (tx_receipt t) (tx_consumed_input_bytes t)
    (tx_consumed_output_bytes t) (tx_consumed_components t) (tx_consumed_retries t).
Definition set_environment {W} (v : RibonBootEnvironment) (t : RibonBootTransaction W) : RibonBootTransaction W :=
  mkTransaction (tx_size t) (tx_abi_version t) (tx_selection t) (tx_stage t) v (tx_source t)
    (tx_input t) (tx_payload t) (tx_validated_image t) (tx_plan t) (tx_terminal_request t)
    (tx_prepared_entry t) (tx_receipt t) (tx_consumed_input_bytes t)
    (tx_consumed_output_bytes t) (tx_consumed_components t) (tx_consumed_retries t).
Definition set_source {W} (v : RibonBootSource) (t : RibonBootTransaction W) : RibonBootTransaction W :=
  mkTransaction (tx_size t) (tx_abi_version t) (tx_selection t) (tx_stage t) (tx_environment t)
    v (tx_input t) (tx_payload t) (tx_validated_image t) (tx_plan t) (tx_terminal_request t)
    (tx_prepared_entry t) (tx_receipt t) (tx_consumed_input_bytes t)
    (tx_consumed_output_bytes t) (tx_consumed_components t) (tx_consumed_retries t).
Definition set_input {W} (v : RibonBootTransactionInput) (t : RibonBootTransaction W) : RibonBootTransaction W :=
  mkTransaction (tx_size t) (tx_abi_version t) (tx_selection t) (tx_stage t) (tx_environment t)
    (tx_source t) v (tx_payload t) (tx_validated_image t) (tx_plan t) (tx_terminal_request t)
    (tx_prepared_entry t) (tx_receipt t) (tx_consumed_input_bytes t)
    (tx_consumed_output_bytes t) (tx_consumed_components t) (tx_consumed_retries t).
Definition set_payload {W} (v : RibonPayloadImage) (t : RibonBootTransaction W) : RibonBootTransaction W :=
  mkTransaction (tx_size t) (tx_abi_version t) (tx_selection t) (tx_stage t) (tx_environment t)
    (tx_source t) (tx_input t) v (tx_validated_image t) (tx_plan t) (tx_terminal_request t)
    (tx_prepared_entry t) (tx_receipt t) (tx_consumed_input_bytes t)
    (tx_consumed_output_bytes t) (tx_consumed_components t) (tx_consumed_retries t).
Definition set_validated_image {W} (v : RibonValidatedImage) (t : RibonBootTransaction W) : RibonBootTransaction W :=
  mkTransaction (tx_size t) (tx_abi_version t) (tx_selection t) (tx_stage t) (tx_environment t)
    (tx_source t) (tx_input t) (tx_payload t) v (tx_plan t) (tx_terminal_request t)
    (tx_prepared_entry t) (tx_receipt t) (tx_consumed_input_bytes t)
    (tx_consumed_output_bytes t) (tx_consumed_components t) (tx_consumed_retries t).
Definition set_plan {W} (v : RibonBootPlan) (t : RibonBootTransaction W) : RibonBootTransaction W :=
  mkTransaction (tx_size t) (tx_abi_version t) (tx_selection t) (tx_stage t) (tx_environment t)
    (tx_source t) (tx_input t) (tx_payload t) (tx_validated_image t) v (tx_terminal_request t)
    (tx_prepared_entry t) (tx_receipt t) (tx_consumed_input_bytes t)
    (tx_consumed_output_bytes t) (tx_consumed_components t) (tx_consumed_retries t).
Definition set_terminal_request {W} (v : RibonTerminalRequest) (t : RibonBootTransaction W) : RibonBootTransaction W :=
  mkTransaction (tx_size t) (tx_abi_version t) (tx_selection t) (tx_stage t) (tx_environment t)
    (tx_source t) (tx_input t) (tx_payload t) (tx_validated_image t) (tx_plan t) v
    (tx_prepared_entry t) (tx_receipt t) (tx_consumed_input_bytes t)
    (tx_consumed_output_bytes t) (tx_consumed_components t) (tx_consumed_retries t).
Definition set_prepared_entry {W} (v : RibonPreparedEntry) (t : RibonBootTransaction W) : RibonBootTransaction W :=
  mkTransaction (tx_size t) (tx_abi_version t) (tx_selection t) (tx_stage t) (tx_environment t)
    (tx_source t) (tx_input t) (tx_payload t) (tx_validated_image t) (tx_plan t)
    (tx_terminal_request t) v (tx_receipt t) (tx_consumed_input_bytes t)
    (tx_consumed_output_bytes t) (tx_consumed_components t) (tx_consumed_retries t).
Definition set_receipt {W} (v : RibonBootFailureReceipt) (t : RibonBootTransaction W) : RibonBootTransaction W :=
  mkTransaction (tx_size t) (tx_abi_version t) (tx_selection t) (tx_stage t) (tx_environment t)
    (tx_source t) (tx_input t) (tx_payload t) (tx_validated_image t) (tx_plan t)
    (tx_terminal_request t) (tx_prepared_entry t) v (tx_consumed_input_bytes t)
    (tx_consumed_output_bytes t) (tx_consumed_components t) (tx_consumed_retries t).
Definition set_consumed_input_bytes {W} (v : Z) (t : RibonBootTransaction W) : RibonBootTransaction W :=
  mkTransaction (tx_size t) (tx_abi_version t) (tx_selection t) (tx_stage t) (tx_environment t)
    (tx_source t) (tx_input t) (tx_payload t) (tx_validated_image t) (tx_plan t)
    (tx_terminal_request t) (tx_prepared_entry t) (tx_receipt t) v (tx_consumed_output_bytes t)
    (tx_consumed_components t) (tx_consumed_retries t).
Definition set_consumed_output_bytes {W} (v : Z) (t : RibonBootTransaction W) : RibonBootTransaction W :=
  mkTransaction (tx_size t) (tx_abi_version t) (tx_selection t) (tx_stage t) (tx_environment t)
    (tx_source t) (tx_input t) (tx_payload t) (tx_validated_image t) (tx_plan t)
    (tx_terminal_request t) (tx_prepared_entry t) (tx_receipt t) (tx_consumed_input_bytes t) v
    (tx_consumed_components t) (tx_consumed_retries t).
Definition set_consumed_components {W} (v : Z) (t : RibonBootTransaction W) : RibonBootTransaction W :=
  mkTransaction (tx_size t) (tx_abi_version t) (tx_selection t) (tx_stage t) (tx_environment t)
    (tx_source t) (tx_input t) (tx_payload t) (tx_validated_image t) (tx_plan t)
    (tx_terminal_request t) (tx_prepared_entry t) (tx_receipt t) (tx_consumed_input_bytes t)
    (tx_consumed_output_bytes t) v (tx_consumed_retries t).
Definition set_consumed_retries {W} (v : Z) (t : RibonBootTransaction W) : RibonBootTransaction W :=
  mkTransaction (tx_size t) (tx_abi_version t) (tx_selection t) (tx_stage t) (tx_environment t)
    (tx_source t) (tx_input t) (tx_payload t) (tx_validated_image t) (tx_plan t)
    (tx_terminal_request t) (tx_prepared_entry t) (tx_receipt t) (tx_consumed_input_bytes t)
    (tx_consumed_output_bytes t) (tx_consumed_components t) v.

(** The outputs of the caller. *)

Definition set_input_normalized_memory_map (v : option MemoryMap.RibonMutableMemoryMap) (i : RibonBootTransactionInput) :
    RibonBootTransactionInput :=
  mkInput (input_environment i) v (input_source i) (input_source_offset i) (input_source_size i)
    (input_payload_buffer i) (input_payload_buffer_capacity i) (input_source_name i)
    (input_validated_image i) (input_direct_load_plan i) (input_handoff_buffer i)
    (input_handoff_buffer_capacity i) (input_handoff_artifact i) (input_transition_buffer i)
    (input_transition_buffer_physical_address i) (input_transition_buffer_capacity i).
Definition set_input_payload_buffer (v : option bytes) (i : RibonBootTransactionInput) :
    RibonBootTransactionInput :=
  mkInput (input_environment i) (input_normalized_memory_map i) (input_source i)
    (input_source_offset i) (input_source_size i) v (input_payload_buffer_capacity i)
    (input_source_name i) (input_validated_image i) (input_direct_load_plan i)
    (input_handoff_buffer i) (input_handoff_buffer_capacity i) (input_handoff_artifact i)
    (input_transition_buffer i) (input_transition_buffer_physical_address i)
    (input_transition_buffer_capacity i).
Definition set_input_validated_image (v : option RibonValidatedImage) (i : RibonBootTransactionInput) :
    RibonBootTransactionInput :=
  mkInput (input_environment i) (input_normalized_memory_map i) (input_source i)
    (input_source_offset i) (input_source_size i) (input_payload_buffer i)
    (input_payload_buffer_capacity i) (input_source_name i) v (input_direct_load_plan i)
    (input_handoff_buffer i) (input_handoff_buffer_capacity i) (input_handoff_artifact i)
    (input_transition_buffer i) (input_transition_buffer_physical_address i)
    (input_transition_buffer_capacity i).
Definition set_input_direct_load_plan (v : option RibonDirectLoadPlan) (i : RibonBootTransactionInput) :
    RibonBootTransactionInput :=
  mkInput (input_environment i) (input_normalized_memory_map i) (input_source i)
    (input_source_offset i) (input_source_size i) (input_payload_buffer i)
    (input_payload_buffer_capacity i) (input_source_name i) (input_validated_image i) v
    (input_handoff_buffer i) (input_handoff_buffer_capacity i) (input_handoff_artifact i)
    (input_transition_buffer i) (input_transition_buffer_physical_address i)
    (input_transition_buffer_capacity i).
Definition set_input_handoff_buffer (v : option bytes) (i : RibonBootTransactionInput) :
    RibonBootTransactionInput :=
  mkInput (input_environment i) (input_normalized_memory_map i) (input_source i)
    (input_source_offset i) (input_source_size i) (input_payload_buffer i)
    (input_payload_buffer_capacity i) (input_source_name i) (input_validated_image i)
    (input_direct_load_plan i) v (input_handoff_buffer_capacity i) (input_handoff_artifact i)
    (input_transition_buffer i) (input_transition_buffer_physical_address i)
    (input_transition_buffer_capacity i).
Definition set_input_handoff_artifact (v : option RibonHandoffArtifact) (i : RibonBootTransactionInput) :
    RibonBootTransactionInput :=
  mkInput (input_environment i) (input_normalized_memory_map i) (input_source i)
    (input_source_offset i) (input_source_size i) (input_payload_buffer i)
    (input_payload_buffer_capacity i) (input_source_name i) (input_validated_image i)
    (input_direct_load_plan i) (input_handoff_buffer i) (input_handoff_buffer_capacity i) v
    (input_transition_buffer i) (input_transition_buffer_physical_address i)
    (input_transition_buffer_capacity i).

Record RibonBootDeadline := mkDeadline {
  deadline_start_ticks : Z;
  deadline_limit_ticks : Z;
  deadline_absolute_ticks : Z;
}.

Definition boot_registry_contains_operations (registry : RibonPluginRegistry) (kind operations : Z) : bool :=
  existsb (fun index => (plugin_kind (plugin_ref registry index) =? kind) &&
                        (plugin_operations (plugin_ref registry index) =? operations))
    (upto (registry_plugin_count registry)).

(** [inl tt] is the early return of a second authority. *)
Definition authority_step (directory : RibonServiceDirectory) (kind : Z)
    (found : option RibonServiceDescriptor) (index : Z) : unit + option RibonServiceDescriptor :=
  match service_at directory index with
  | None => inr found
  | Some service =>
    if (service_kind service !=? kind) ||
       (service_cardinality service !=? RIBON_SERVICE_CARDINALITY_AUTHORITY)
    then inr found
    else match found with Some _ => inl tt | None => inr (Some service) end
  end.

Definition boot_service_authority (directory : option RibonServiceDirectory) (kind : Z) :
    option RibonServiceDescriptor :=
  match directory with
  | None => None
  | Some d =>
    match foldE (authority_step d kind) (upto (directory_service_count d)) None with
    | inl _ => None
    | inr found => found
    end
  end.

Definition zero_limits : RibonResourceLimits := mkLimits 0 0 0 0 0 0 0 0.

Section Operations.
Context {W : Type} (P : Providers W).

Abbreviation BM := (M (Boot W) RibonBootStatus).

Definition get : BM (RibonBootTransaction W) := fun s => (s, inr (boot_tx s)).

Definition modify (f : RibonBootTransaction W -> RibonBootTransaction W) : BM unit := fun s =>
  (mkBoot (boot_world s) (f (boot_tx s)) (boot_log s), inr tt).

(** A call to a provider, logged with its result. *)
Definition call {A} (f : W -> W * A) (event : A -> Event) : BM A := fun s =>
  let '(w, a) := f (boot_world s) in (mkBoot w (boot_tx s) (boot_log s ++ [event a]), inr a).

Definition boot_fail {A} (stage : RibonBootLifecycleStage) (reason : RibonBootFailureReason)
    (provider_id : cstring) (status : RibonBootStatus) : BM A :=
  modify (fun t =>
    set_stage STAGE_FAILED
      (set_receipt (mkFailureReceipt stage reason provider_id (tx_consumed_input_bytes t)
         (tx_consumed_output_bytes t) (tx_consumed_components t) (tx_consumed_retries t)) t)) ≫= fun _ =>
  leave status.

(** [transaction->core->product->limits] and [transaction->arch->descriptor] *)
Definition limits_of (sel : BootSelection W) : RibonResourceLimits :=
  match context_product (sel_core sel) with Some p => product_limits p | None => zero_limits end.

Definition descriptor_of (sel : BootSelection W) : option RibonArchDescriptor :=
  archops_descriptor (sel_arch sel).

Definition arch_value {A} (sel : BootSelection W) (field : RibonArchDescriptor -> A) (d : A) : A :=
  match descriptor_of sel with Some a => field a | None => d end.

Definition boot_deadline_begin (sel : BootSelection W) (requested_ms : Z) :
    BM (RibonBootStatus + RibonBootDeadline) :=
  if service_operations_size (sel_timer sel) !=? sizeof_RibonMonotonicTimerServiceOperations
  then mret (inl BOOT_MISSING_CAPABILITY)
  else
    match timer_operations P (sel_timer sel) with
    | None => mret (inl BOOT_TIMEOUT)
    | Some operations =>
      if (timer_size operations !=? sizeof_RibonMonotonicTimerServiceOperations) ||
         (timer_abi_version operations !=? RIBON_SERVICE_ABI_VERSION) ||
         (timer_frequency_hz operations =? 0)
      then mret (inl BOOT_TIMEOUT)
      else
        match timer_now operations with
        | None => mret (inl BOOT_TIMEOUT)
        | Some now =>
          '(status, start) ← call now (fun r => ENow (fst r) (snd r));
          if status !=? RIBON_SERVICE_STATUS_OK then mret (inl BOOT_TIMEOUT)
          else
            let limit :=
              if (requested_ms =? 0) || (requested_ms >? UINT64_MAX / timer_frequency_hz operations)
              then UINT64_MAX
              else
                let numerator := requested_ms * timer_frequency_hz operations in
                let limit := numerator / 1000 + (if numerator mod 1000 !=? 0 then 1 else 0) in
                if limit =? 0 then 1 else limit in
            mret (inr (mkDeadline start limit
              (if start >? UINT64_MAX - limit then UINT64_MAX else start + limit)))
        end
    end.

(** Whether the callback ended within its deadline. *)
Definition boot_deadline_end (sel : BootSelection W) (deadline : RibonBootDeadline) : BM RibonBootStatus :=
  match timer_operations P (sel_timer sel) with
  | None => mret BOOT_TIMEOUT
  | Some operations =>
    match timer_now operations with
    | None => mret BOOT_TIMEOUT
    | Some now =>
      '(status, ticks) ← call now (fun r => ENow (fst r) (snd r));
      if (status !=? RIBON_SERVICE_STATUS_OK) || (ticks <? deadline_start_ticks deadline) ||
         (ticks - deadline_start_ticks deadline >? deadline_limit_ticks deadline)
      then mret BOOT_TIMEOUT
      else mret BOOT_OK
    end
  end.

Definition boot_copy_image_plan (out : RibonBootPlan) (image : RibonPayloadImage)
    (validated : RibonValidatedImage) (layout : option RibonDirectLoadPlan) : RibonBootPlan :=
  mkBootPlan (bp_environment out) (bp_arch out) (bp_environment_flags out) (bp_memory_region_count out)
    (bp_normalized_memory_region_count out) (bp_usable_memory_bytes out) (bp_boot_media out)
    (bp_boot_module_count out) (bp_device_tree_address out) (bp_device_tree_size out)
    (bp_framebuffer_address out) (bp_command_line out) (bp_protocol_id out) (bp_kernel_path out)
    (payload_source_name image) validated layout
    match layout with
    | None => bp_kernel out
    | Some l =>
      mkKernelLayout (plan_segment_count l) (plan_load_plan_flags l) (plan_entry_point l)
        (plan_entry_load_address l) (plan_runtime_entry_address l) (plan_load_base l) (plan_load_end l)
        (plan_runtime_load_base l) (plan_runtime_load_end l) (plan_memory_size l)
        (plan_linked_virtual_base l) (plan_linked_virtual_end l) (plan_linked_physical_base l)
        (plan_linked_physical_end l) (plan_high_entry_virtual_address l)
        (plan_high_entry_load_address l) (plan_segments l)
    end
    (bp_handoff_format out) (bp_handoff_major out) (bp_handoff_artifact_format out)
    (bp_handoff_artifact_size out) (bp_handoff_artifact_sections out)
    (bp_kernel_transition_root_physical out) (bp_kernel_transition_bytes out) (bp_expectations out).

(** One segment; an error leaves the array as far as it was rewritten. *)
Definition relocate_step (base window_end : Z) (segments : list RibonLoadSegment) (index : Z) :
    list RibonLoadSegment + list RibonLoadSegment :=
  let s := segment_at segments index in
  if (segment_load_address s >? UINT64_MAX - base) || (segment_virtual_address s >? UINT64_MAX - base)
  then inl segments
  else
    let load_address := base + segment_load_address s in
    let virtual_address := base + segment_virtual_address s in
    if (load_address <? base) || (load_address >? UINT64_MAX - segment_memory_size s) ||
       (load_address + segment_memory_size s >? window_end)
    then inl segments
    else
      let placed linked := <[Z.to_nat index := mkSegment (segment_file_offset s) (segment_file_size s)
        (segment_memory_size s) virtual_address linked load_address load_address load_address
        (segment_alignment s) (segment_flags s)]> segments in
      if segment_linked_physical_address s >? UINT64_MAX - base
      then inl (placed (segment_linked_physical_address s))
      else inr (placed (segment_linked_physical_address s + base)).

(** [layout] with another segment array. *)
Definition with_segments (p : RibonDirectLoadPlan) (segments : list RibonLoadSegment) : RibonDirectLoadPlan :=
  mkPlan (plan_size p) (plan_abi_version p) (plan_segment_count p) (plan_load_plan_flags p)
    (plan_entry_point p) (plan_entry_load_address p) (plan_runtime_entry_address p) (plan_load_base p)
    (plan_load_end p) (plan_runtime_load_base p) (plan_runtime_load_end p) (plan_memory_size p)
    (plan_linked_virtual_base p) (plan_linked_virtual_end p) (plan_linked_physical_base p)
    (plan_linked_physical_end p) (plan_high_entry_virtual_address p) (plan_high_entry_load_address p)
    (Some segments) (plan_segment_capacity p).

Definition boot_apply_relocatable_placement (sel : BootSelection W) (layout : RibonDirectLoadPlan) :
    RibonBootStatus * RibonDirectLoadPlan :=
  if Z.land (plan_load_plan_flags layout) RIBON_LOAD_PLAN_RELOCATABLE =? 0 then (BOOT_OK, layout)
  else
    match boot_service_authority (context_services (sel_core sel)) RIBON_SERVICE_KIND_PAYLOAD_PLACEMENT with
    | None => (BOOT_MISSING_CAPABILITY, layout)
    | Some service =>
      if negb (ribon_payload_placement_service_operations_are_valid (Some service)
                 (placement_operations P service))
      then (BOOT_MISSING_CAPABILITY, layout)
      else
        match placement_operations P service with
        | None => (BOOT_INVALID_PAYLOAD, layout)
        | Some placement =>
          let base := placement_physical_base placement in
          if (base =? 0) || (placement_physical_size placement =? 0) ||
             (base >? UINT64_MAX - placement_physical_size placement)
          then (BOOT_INVALID_PAYLOAD, layout)
          else
            let window_end := base + placement_physical_size placement in
            match foldE (relocate_step base window_end) (upto (plan_segment_count layout))
                    (default [] (plan_segments layout)) with
            | inl segments => (BOOT_INVALID_PAYLOAD, with_segments layout segments)
            | inr segments =>
              let layout := with_segments layout segments in
              if (plan_entry_point layout >? UINT64_MAX - base) ||
                 (plan_entry_load_address layout >? UINT64_MAX - base) ||
                 (plan_runtime_entry_address layout >? UINT64_MAX - base) ||
                 (plan_load_base layout >? UINT64_MAX - base) ||
                 (plan_load_end layout >? UINT64_MAX - base) ||
                 (plan_runtime_load_base layout >? UINT64_MAX - base) ||
                 (plan_runtime_load_end layout >? UINT64_MAX - base) ||
                 (plan_linked_virtual_base layout >? UINT64_MAX - base) ||
                 (plan_linked_virtual_end layout >? UINT64_MAX - base) ||
                 (plan_linked_physical_base layout >? UINT64_MAX - base) ||
                 (plan_linked_physical_end layout >? UINT64_MAX - base)
              then (BOOT_INVALID_PAYLOAD, layout)
              else
                (BOOT_OK,
                 mkPlan (plan_size layout) (plan_abi_version layout) (plan_segment_count layout)
                   (plan_load_plan_flags layout) (plan_entry_point layout + base)
                   (plan_entry_load_address layout + base) (plan_runtime_entry_address layout + base)
                   (plan_load_base layout + base) (plan_load_end layout + base)
                   (plan_runtime_load_base layout + base) (plan_runtime_load_end layout + base)
                   (plan_memory_size layout) (plan_linked_virtual_base layout + base)
                   (plan_linked_virtual_end layout + base) (plan_linked_physical_base layout + base)
                   (plan_linked_physical_end layout + base) (plan_high_entry_virtual_address layout)
                   (plan_high_entry_load_address layout) (plan_segments layout)
                   (plan_segment_capacity layout))
            end
        end
    end.

Definition boot_transition_range_is_reserved (memory_map : option MemoryMap.RibonMutableMemoryMap)
    (base size : Z) : bool :=
  match memory_map with
  | None => false
  | Some m =>
    if (size =? 0) || (base >? UINT64_MAX - size) then false
    else
      let limit := base + size in
      existsb (fun region =>
        match MemoryMap.ribon_memory_region_end region with
        | (MemoryMap.RIBON_MEMORY_STATUS_OK, Some region_end) =>
          negb ((MemoryMap.kind region =? MemoryMap.RIBON_MEMORY_REGION_USABLE) ||
                (MemoryMap.kind region =? RIBON_MEMORY_REGION_MMIO) ||
                (MemoryMap.kind region =? RIBON_MEMORY_REGION_FRAMEBUFFER)) &&
          (base >=? MemoryMap.base region) && (limit <=? region_end)
        | _ => false
        end) (take (MemoryMap.region_count m) (MemoryMap.regions m))
  end.

(** *** The protocol plan *)

(** The plan before the image and the handoff are filled in. *)
Definition candidate_plan (sel : BootSelection W) (t : RibonBootTransaction W) : RibonBootPlan :=
  let e := tx_environment t in
  let normalized := input_normalized_memory_map (tx_input t) in
  let regions := match normalized with
                 | Some m => take (MemoryMap.region_count m) (MemoryMap.regions m)
                 | None => []
                 end in
  let protocol := sel_protocol sel in
  boot_copy_image_plan
    (mkBootPlan (environment_kind e) (descriptor_of sel) (environment_flags e)
       (map_region_count (environment_memory_map e))
       (match normalized with Some m => Z.of_nat (MemoryMap.region_count m) | None => 0 end)
       (MemoryMap.ribon_memory_map_usable_bytes (Some regions)) (media_kind (environment_boot_media e))
       (modules_module_count (environment_boot_modules e))
       (device_tree_physical_address (environment_device_tree e))
       (device_tree_size (environment_device_tree e)) (environment_framebuffer_address e)
       (command_line_text (environment_command_line e)) (protocol_id protocol)
       (protocol_kernel_path protocol) None empty_validated None zero_kernel_layout
       (protocol_handoff_format protocol) (protocol_handoff_major protocol) None 0 0 0 0
       (protocol_expectations protocol))
    (tx_payload t) (tx_validated_image t) (input_direct_load_plan (tx_input t)).

Definition with_transition (root size : Z) (p : RibonBootPlan) : RibonBootPlan :=
  mkBootPlan (bp_environment p) (bp_arch p) (bp_environment_flags p) (bp_memory_region_count p)
    (bp_normalized_memory_region_count p) (bp_usable_memory_bytes p) (bp_boot_media p)
    (bp_boot_module_count p) (bp_device_tree_address p) (bp_device_tree_size p)
    (bp_framebuffer_address p) (bp_command_line p) (bp_protocol_id p) (bp_kernel_path p)
    (bp_kernel_source_name p) (bp_kernel_image p) (bp_kernel_direct_load_plan p) (bp_kernel p)
    (bp_handoff_format p) (bp_handoff_major p) (bp_handoff_artifact_format p)
    (bp_handoff_artifact_size p) (bp_handoff_artifact_sections p) root size (bp_expectations p).

Definition with_artifact (a : RibonHandoffArtifact) (p : RibonBootPlan) : RibonBootPlan :=
  mkBootPlan (bp_environment p) (bp_arch p) (bp_environment_flags p) (bp_memory_region_count p)
    (bp_normalized_memory_region_count p) (bp_usable_memory_bytes p) (bp_boot_media p)
    (bp_boot_module_count p) (bp_device_tree_address p) (bp_device_tree_size p)
    (bp_framebuffer_address p) (bp_command_line p) (bp_protocol_id p) (bp_kernel_path p)
    (bp_kernel_source_name p) (bp_kernel_image p) (bp_kernel_direct_load_plan p) (bp_kernel p)
    (bp_handoff_format p) (bp_handoff_major p) (artifact_format a) (artifact_size a)
    (artifact_section_count a) (bp_kernel_transition_root_physical p) (bp_kernel_transition_bytes p)
    (bp_expectations p).

(** The architecture's tables for an entry in the higher half, when the caller lends
    a buffer for them. *)
Definition boot_prepare_transition (sel : BootSelection W) (candidate : RibonBootPlan) : BM RibonBootPlan :=
  t ← get;
  let i := tx_input t in
  if negb ((input_transition_buffer i !=? 0) || (input_transition_buffer_physical_address i !=? 0) ||
           (input_transition_buffer_capacity i !=? 0))
  then mret candidate
  else
    let failed {A} : BM A :=
      boot_fail STAGE_PREPARE_PROTOCOL FAILURE_PROTOCOL (arch_value sel arch_canonical_name None)
        BOOT_INVALID_HANDOFF in
    let page_size := arch_value sel arch_page_size 0 in
    let table_pages := match archops_direct_high_page_table_pages (sel_arch sel) with
                       | Some pages => pages (input_direct_load_plan i)
                       | None => 0
                       end in
    match archops_prepare_direct_high_entry (sel_arch sel) with
    | None => failed
    | Some prepare =>
      if (input_transition_buffer i =? 0) || (input_transition_buffer_physical_address i =? 0) ||
         (input_transition_buffer_capacity i =? 0) || (table_pages =? 0) ||
         (table_pages >? UINT64_MAX / page_size) ||
         (input_transition_buffer_capacity i <? table_pages * page_size) ||
         negb (boot_transition_range_is_reserved (input_normalized_memory_map i)
                 (input_transition_buffer_physical_address i) (table_pages * page_size))
      then failed
      else
        '(status, direct_high) ← call (prepare (input_direct_load_plan i)
            (input_transition_buffer_physical_address i) (input_transition_buffer_capacity i))
          (fun _ => EDirectHigh);
        match status with
        | DIRECT_HIGH_OK =>
          if (direct_high_entry direct_high !=? kernel_high_entry_virtual_address (bp_kernel candidate)) ||
             (direct_high_translation_root direct_high !=? input_transition_buffer_physical_address i)
          then failed
          else mret (with_transition (direct_high_translation_root direct_high)
                       (table_pages * page_size) candidate)
        | _ => failed
        end
    end.

(** The handoff of a direct entry. *)
Definition boot_prepare_handoff (sel : BootSelection W) (candidate : RibonBootPlan) : BM RibonBootPlan :=
  t ← get;
  let i := tx_input t in
  let limits := limits_of sel in
  if protocol_terminal_execution (sel_protocol sel) !=? RIBON_TERMINAL_EXECUTION_DIRECT_ENTRY
  then mret candidate
  else
    '(status, (buffer, artifact)) ← call (protocol_handoff P candidate (tx_environment t)
        (input_normalized_memory_map i) (input_handoff_buffer i) (input_handoff_buffer_capacity i))
      (fun r => EHandoff (fst r));
    _ ← modify (fun t => set_input (set_input_handoff_artifact (Some artifact)
                            (set_input_handoff_buffer buffer (tx_input t))) t);
    if status !=? RIBON_PROTOCOL_HANDOFF_STATUS_OK
    then
      if status =? RIBON_PROTOCOL_HANDOFF_STATUS_OUT_OF_CAPACITY
      then boot_fail STAGE_PREPARE_PROTOCOL FAILURE_BUDGET (protocol_id (sel_protocol sel)) BOOT_BUDGET_EXCEEDED
      else boot_fail STAGE_PREPARE_PROTOCOL FAILURE_PROTOCOL (protocol_id (sel_protocol sel)) BOOT_INVALID_HANDOFF
    else if (artifact_size artifact >? max_handoff_bytes limits) ||
            (artifact_size artifact >? input_handoff_buffer_capacity i) ||
            (tx_consumed_output_bytes t >? max_handoff_bytes limits - artifact_size artifact)
    then boot_fail STAGE_PREPARE_PROTOCOL FAILURE_BUDGET (protocol_id (sel_protocol sel)) BOOT_BUDGET_EXCEEDED
    else mret (with_artifact artifact candidate).

(** The failures after the terminal request clear it. *)
Definition boot_fail_terminal {A} (sel : BootSelection W) (status : RibonBootStatus) : BM A :=
  modify (fun t => set_prepared_entry zero_prepared (set_terminal_request zero_request t)) ≫= fun _ =>
  boot_fail STAGE_PREPARE_PROTOCOL FAILURE_PROTOCOL (protocol_id (sel_protocol sel)) status.

(** The protocol's terminal request, and the architecture's entry for it.  The code
    calls [prepare_entry] without looking at the pointer: what it does with a NULL one
    is undefined, and the model fails there. *)
Definition boot_prepare_terminal (sel : BootSelection W) (candidate : RibonBootPlan) : BM unit :=
  t ← get;
  let direct := protocol_terminal_execution (sel_protocol sel) =? RIBON_TERMINAL_EXECUTION_DIRECT_ENTRY in
  '(status, request) ← call (protocol_terminal P (descriptor_of sel) candidate (tx_environment t)
      (if direct then input_handoff_artifact (tx_input t) else None)) (fun r => ETerminal (fst r));
  _ ← modify (set_terminal_request request);
  _ ← (if (status !=? RIBON_PROTOCOL_STATUS_OK) || negb (ribon_terminal_request_is_valid (Some request)) ||
          (terminal_kind request !=? protocol_terminal_execution (sel_protocol sel))
       then boot_fail_terminal sel BOOT_UNSUPPORTED else mret tt);
  if terminal_kind request !=? RIBON_TERMINAL_EXECUTION_DIRECT_ENTRY then mret tt
  else
    match archops_prepare_entry (sel_arch sel) with
    | None => boot_fail_terminal sel BOOT_UNSUPPORTED
    | Some prepare =>
      let '(status, prepared) := prepare (descriptor_of sel) (Some (terminal_direct_entry request)) in
      _ ← modify (set_prepared_entry prepared);
      match status with
      | ARCH_OK =>
        if invocation_translation (terminal_direct_entry request) =? RIBON_ENTRY_TRANSLATION_DIRECT_HIGH_BRIDGE
        then
          if (bp_kernel_transition_root_physical candidate =? 0) || (bp_kernel_transition_bytes candidate =? 0)
          then boot_fail_terminal sel BOOT_INVALID_HANDOFF
          else modify (set_prepared_entry (mkPrepared (prepared_invocation prepared)
                 (bp_kernel_transition_root_physical candidate)))
        else mret tt
      | _ => boot_fail_terminal sel BOOT_UNSUPPORTED
      end
    end.

Definition boot_prepare_protocol_plan (sel : BootSelection W) : BM unit :=
  begun ← boot_deadline_begin sel (operation_deadline_ms (limits_of sel));
  match begun with
  | inl status => boot_fail STAGE_PREPARE_PROTOCOL FAILURE_TIMEOUT (service_id (sel_timer sel)) status
  | inr deadline =>
    t ← get;
    candidate ← boot_prepare_transition sel (candidate_plan sel t);
    candidate ← boot_prepare_handoff sel candidate;
    ended ← boot_deadline_end sel deadline;
    match ended with
    | BOOT_OK =>
      _ ← boot_prepare_terminal sel candidate;
      modify (fun t =>
        set_stage STAGE_PREPARE_PROTOCOL
          (set_consumed_output_bytes (u64 (tx_consumed_output_bytes t + bp_handoff_artifact_size candidate))
             (set_plan candidate t)))
    | status => boot_fail STAGE_PREPARE_PROTOCOL FAILURE_TIMEOUT (protocol_id (sel_protocol sel)) status
    end
  end.

(** *** The operations of the library *)

(** [arch_address], [protocol_address] and [format_address] are the pointers
    themselves, which the registry is searched for. *)
Definition ribon_boot_transaction_initialize (out : option (RibonBootTransaction W))
    (core : option RibonCoreContext) (arch : option (RibonArchOps W)) (arch_address : Z)
    (protocol : option RibonBootProtocol) (protocol_address : Z)
    (image_format : option RibonImageFormatOps) (format_address : Z) :
    RibonBootStatus * option (RibonBootTransaction W) :=
  match out with
  | None => (BOOT_BAD_ARGUMENT, None)
  | Some _ =>
    let rejected := (BOOT_BAD_ARGUMENT, Some zero_transaction) in
    match ribon_core_context_validate core with
    | Some RIBON_CORE_STATUS_OK =>
      match core, arch, protocol, image_format with
      | Some c, Some a, Some p, Some f =>
        let formats := match protocol_ops p with
                       | Some ops => default 0 (protocol_select_image_formats ops)
                       | None => 0
                       end in
        let contains kind operations :=
          match context_registry c with
          | Some registry => boot_registry_contains_operations registry kind operations
          | None => false
          end in
        if negb (ribon_arch_ops_are_valid arch) || negb (ribon_boot_protocol_is_valid protocol) ||
           negb (ribon_image_format_ops_are_valid image_format) ||
           negb (contains RIBON_PLUGIN_KIND_ARCHITECTURE arch_address) ||
           negb (contains RIBON_PLUGIN_KIND_BOOT_PROTOCOL protocol_address) ||
           negb (contains RIBON_PLUGIN_KIND_IMAGE_FORMAT format_address) ||
           (Z.land formats (RIBON_IMAGE_FORMAT_MASK (format_format f)) =? 0) ||
           ((protocol_terminal_execution p =? RIBON_TERMINAL_EXECUTION_DIRECT_ENTRY) &&
            (Z.land (format_execution_support f) RIBON_IMAGE_EXECUTION_DIRECT_ENTRY =? 0)) ||
           ((protocol_terminal_execution p =? RIBON_TERMINAL_EXECUTION_FIRMWARE_MANAGED_IMAGE) &&
            (Z.land (format_execution_support f) RIBON_IMAGE_EXECUTION_FIRMWARE_MANAGED =? 0))
        then rejected
        else
          let authority kind := boot_service_authority (context_services c) kind in
          let quiesce := authority RIBON_SERVICE_KIND_ENVIRONMENT_QUIESCE in
          let launcher := authority RIBON_SERVICE_KIND_TERMINAL_IMAGE_LAUNCH in
          match authority RIBON_SERVICE_KIND_BOOT_SOURCE, authority RIBON_SERVICE_KIND_MONOTONIC_TIMER,
                authority RIBON_SERVICE_KIND_PERSISTENT_METADATA, authority RIBON_SERVICE_KIND_STORAGE_FLUSH with
          | Some source, Some timer, Some metadata, Some flush =>
            if ((protocol_terminal_execution p =? RIBON_TERMINAL_EXECUTION_DIRECT_ENTRY) && is_null quiesce) ||
               ((protocol_terminal_execution p =? RIBON_TERMINAL_EXECUTION_FIRMWARE_MANAGED_IMAGE) &&
                is_null launcher)
            then (BOOT_MISSING_CAPABILITY, Some zero_transaction)
            else
              (BOOT_OK,
               Some (mkTransaction sizeof_RibonBootTransaction RIBON_CORE_ABI_VERSION
                 (Some (mkSelectionOf c a p f source timer metadata flush quiesce launcher))
                 STAGE_CAPTURE zero_environment zero_source zero_input zero_payload empty_validated
                 zero_plan zero_request zero_prepared zero_receipt 0 0 0 0))
          | _, _, _, _ => (BOOT_MISSING_CAPABILITY, Some zero_transaction)
          end
      | _, _, _, _ => rejected
      end
    | _ => rejected
    end
  end.

(** The read loop; [left] is [max_retries - consumed_retries]. *)
Fixpoint boot_read_loop (left : nat)
    (read : RibonBootSource -> Z -> bytes -> Z -> Z -> W -> W * (Z * bytes)) (deadline : Z) : BM Z :=
  t ← get;
  let i := tx_input t in
  '(status, buffer) ← call (read (tx_source t) (input_source_offset i)
      (default [] (input_payload_buffer i)) (input_source_size i) deadline)
    (fun r => ERead (input_source_offset i) (input_source_size i) (fst r));
  _ ← modify (fun t => set_input (set_input_payload_buffer (Some buffer) (tx_input t)) t);
  if status =? RIBON_SERVICE_STATUS_OK then mret status
  else
    match left with
    | O => mret status
    | S left' =>
      _ ← modify (fun t => set_consumed_retries (tx_consumed_retries t + 1) t);
      boot_read_loop left' read deadline
    end.

(** The checks of the arguments, before anything is stored. *)
Definition prepare_arguments_ok (sel : BootSelection W) (t : RibonBootTransaction W)
    (i : RibonBootTransactionInput) : bool :=
  let execution := protocol_terminal_execution (sel_protocol sel) in
  let transition := (input_transition_buffer i !=? 0) ||
    (input_transition_buffer_physical_address i !=? 0) || (input_transition_buffer_capacity i !=? 0) in
  negb ((tx_size t !=? sizeof_RibonBootTransaction) || (tx_abi_version t !=? RIBON_CORE_ABI_VERSION) ||
    (negb (bool_decide (tx_stage t = STAGE_CAPTURE))) || is_null (input_environment i) ||
    is_null (input_normalized_memory_map i) || is_null (input_source i) || (input_source_size i =? 0) ||
    is_null (input_payload_buffer i) || (input_payload_buffer_capacity i <? input_source_size i) ||
    is_null (input_source_name i) || is_null (input_validated_image i) ||
    (transition && ((input_transition_buffer i =? 0) ||
      (input_transition_buffer_physical_address i =? 0) || (input_transition_buffer_capacity i =? 0))) ||
    ((execution =? RIBON_TERMINAL_EXECUTION_DIRECT_ENTRY) &&
     (is_null (input_direct_load_plan i) || is_null (input_handoff_buffer i) ||
      (input_handoff_buffer_capacity i =? 0) || is_null (input_handoff_artifact i))) ||
    ((execution =? RIBON_TERMINAL_EXECUTION_FIRMWARE_MANAGED_IMAGE) &&
     (negb (is_null (input_direct_load_plan i)) || negb (is_null (input_handoff_buffer i)) ||
      (input_handoff_buffer_capacity i !=? 0) || negb (is_null (input_handoff_artifact i))))).

(** The regions of an environment's memory map. *)
Definition mapped_regions (e : RibonBootEnvironment) : list MemoryMap.RibonMemoryRegion :=
  take (Z.to_nat (map_region_count (environment_memory_map e)))
    (default [] (map_regions (environment_memory_map e))).

(** The environment the attempt is frozen with. *)
Definition boot_normalize_environment (sel : BootSelection W) (i : RibonBootTransactionInput) : BM unit :=
  let protocol := Some (sel_protocol sel) in
  let failed {A} : BM A :=
    boot_fail STAGE_NORMALIZE_ENVIRONMENT FAILURE_BAD_INPUT None BOOT_INCOMPLETE_ENVIRONMENT in
  match input_environment i with
  | None => failed
  | Some e =>
    if negb (ribon_boot_environment_is_valid (Some e)) ||
       (environment_architecture e !=? arch_value sel arch_id (-1)) ||
       ((modules_module_count (environment_boot_modules e) !=? 0) &&
        negb (ribon_boot_protocol_has_expectation protocol RIBON_PROTOCOL_ALLOW_BOOT_MODULES)) ||
       (ribon_boot_protocol_has_expectation protocol RIBON_PROTOCOL_EXPECT_MEMORY_MAP &&
        (Z.land (environment_flags e) RIBON_BOOT_ENV_HAS_MEMORY_MAP =? 0))
    then failed
    else
      _ ← modify (set_environment e);
      let '(status, normalized) := MemoryMap.ribon_memory_map_normalize
        (Some (mapped_regions e)) (input_normalized_memory_map i) in
      _ ← modify (fun t => set_input (set_input_normalized_memory_map normalized (tx_input t)) t);
      match status with MemoryMap.RIBON_MEMORY_STATUS_OK => mret tt | _ => failed end
  end.

(** Reading the image from the selected source. *)
Definition boot_read_image (sel : BootSelection W) (i : RibonBootTransactionInput) : BM unit :=
  let id := service_id (sel_boot_source sel) in
  let timeout {A} : BM A := boot_fail STAGE_LOAD_IMAGE FAILURE_TIMEOUT id BOOT_TIMEOUT in
  match source_operations P (sel_boot_source sel) with
  | None => timeout
  | Some operations =>
    match source_ops_read operations with
    | None => timeout
    | Some read =>
      if (source_ops_size operations !=? sizeof_RibonBootSourceServiceOperations) ||
         (source_ops_abi_version operations !=? RIBON_SERVICE_ABI_VERSION)
      then timeout
      else
        begun ← boot_deadline_begin sel (service_deadline_ms (sel_boot_source sel));
        match begun with
        | inl _ => timeout
        | inr deadline =>
          t ← get;
          status ← boot_read_loop (Z.to_nat (max_retries (limits_of sel) - tx_consumed_retries t)) read
                     (deadline_absolute_ticks deadline);
          if status !=? RIBON_SERVICE_STATUS_OK
          then boot_fail STAGE_LOAD_IMAGE FAILURE_SOURCE id BOOT_PROVIDER_FAILURE
          else
            _ ← modify (fun t => set_consumed_input_bytes
                  (u64 (tx_consumed_input_bytes t + input_source_size i)) t);
            ended ← boot_deadline_end sel deadline;
            match ended with BOOT_OK => mret tt | _ => timeout end
        end
    end
  end.

(** Analysing it; the outputs of the analyzer are the caller's. *)
Definition boot_analyze_image (sel : BootSelection W) (i : RibonBootTransactionInput) : BM unit :=
  let format := sel_image_format sel in
  let execution := protocol_terminal_execution (sel_protocol sel) in
  let name := Some (ribon_executable_format_name (format_format format)) in
  let failed {A} : BM A := boot_fail STAGE_LOAD_IMAGE FAILURE_IMAGE name BOOT_INVALID_PAYLOAD in
  t ← get;
  let payload := mkPayload (take (Z.to_nat (input_source_size i)) <$> input_payload_buffer (tx_input t))
    (input_source_size i) (input_source_name i) in
  _ ← modify (set_payload payload);
  match format_analyze format with
  | None => failed
  | Some analyze =>
    let '(status, validated, plan) := analyze (Some payload) (input_validated_image i)
      (input_direct_load_plan i) in
    _ ← modify (fun t => set_input (set_input_direct_load_plan plan
          (set_input_validated_image validated (tx_input t))) t);
    match status, validated with
    | LOADER_OK, Some v =>
      if negb (ribon_validated_image_is_valid validated) || (validated_format v !=? format_format format) ||
         (validated_image_size v !=? payload_size payload) ||
         (Z.land (validated_execution_support v) (format_execution_support format) !=?
          validated_execution_support v)
      then failed
      else
        _ ← (if execution =? RIBON_TERMINAL_EXECUTION_DIRECT_ENTRY
             then
               if Z.land (validated_execution_support v) RIBON_IMAGE_EXECUTION_DIRECT_ENTRY =? 0 then failed
               else
                 match plan, archops_validate_direct_load (sel_arch sel) with
                 | Some p, Some validate =>
                   let '(placed, p) := boot_apply_relocatable_placement sel p in
                   _ ← modify (fun t => set_input (set_input_direct_load_plan (Some p) (tx_input t)) t);
                   match placed with
                   | BOOT_OK =>
                     let '(checked, p) := validate (descriptor_of sel) (Some v) (Some p) in
                     _ ← modify (fun t => set_input (set_input_direct_load_plan p (tx_input t)) t);
                     match checked with ARCH_OK => mret tt | _ => failed end
                   | _ => failed
                   end
                 | _, _ => failed
                 end
             else mret tt);
        if (execution =? RIBON_TERMINAL_EXECUTION_FIRMWARE_MANAGED_IMAGE) &&
           ((Z.land (validated_execution_support v) RIBON_IMAGE_EXECUTION_FIRMWARE_MANAGED =? 0) ||
            (validated_machine v !=? arch_value sel arch_pe_coff_machine 0))
        then failed
        else mret tt
    | _, _ => failed
    end
  end.

(** The components against their budget. *)
Definition boot_account_components (sel : BootSelection W) : BM unit :=
  t ← get;
  let plan := input_direct_load_plan (tx_input t) in
  let modules := modules_module_count (environment_boot_modules (tx_environment t)) in
  let limits := limits_of sel in
  let name := Some (ribon_executable_format_name (format_format (sel_image_format sel))) in
  let segments := match plan with Some p => plan_segment_count p | None => 1 end in
  _ ← (match plan with
       | Some p =>
         if (plan_segment_count p >? max_load_segments limits) ||
            (plan_segment_count p >? max_components limits) ||
            (modules >? max_components limits - plan_segment_count p)
         then boot_fail STAGE_LOAD_IMAGE FAILURE_BUDGET name BOOT_BUDGET_EXCEEDED
         else mret tt
       | None => mret tt
       end);
  modify (fun t => set_validated_image (default empty_validated (input_validated_image (tx_input t)))
            (set_consumed_components (u32 (segments + modules)) t)).

Definition ribon_boot_transaction_prepare (input : option RibonBootTransactionInput) : BM unit :=
  t ← get;
  match tx_selection t, input with
  | Some sel, Some i =>
    if negb (prepare_arguments_ok sel t i)
    then boot_fail STAGE_CAPTURE FAILURE_BAD_INPUT None BOOT_BAD_ARGUMENT
    else
      _ ← modify (fun t => set_stage STAGE_VALIDATE_PRODUCT (set_input i t));
      _ ← (match ribon_core_context_validate (Some (sel_core sel)), context_mode (sel_core sel) with
           | Some RIBON_CORE_STATUS_OK, Some mode =>
             if Z.land (protocol_supported_modes (sel_protocol sel)) (RIBON_MODE_MASK (mode_mode mode)) =? 0
             then boot_fail STAGE_VALIDATE_PRODUCT FAILURE_PRODUCT None BOOT_UNSUPPORTED
             else mret tt
           | _, _ => boot_fail STAGE_VALIDATE_PRODUCT FAILURE_PRODUCT None BOOT_UNSUPPORTED
           end);
      _ ← modify (set_stage STAGE_NORMALIZE_ENVIRONMENT);
      _ ← boot_normalize_environment sel i;
      _ ← modify (set_stage STAGE_SELECT_SOURCE);
      let source := default zero_source (input_source i) in
      _ ← (if (boot_source_kind source =? RIBON_BOOT_MEDIA_NONE) ||
              (input_source_offset i >? boot_source_size source) ||
              (input_source_size i >? boot_source_size source - input_source_offset i) ||
              (input_source_size i >? max_input_bytes (limits_of sel)) ||
              (input_source_size i >? service_input_budget (sel_boot_source sel))
           then boot_fail STAGE_SELECT_SOURCE FAILURE_BUDGET (service_id (sel_boot_source sel))
                  BOOT_BUDGET_EXCEEDED
           else mret tt);
      _ ← modify (fun t => set_stage STAGE_VERIFY_MANIFEST (set_source source t));
      _ ← (if cstring_empty (input_source_name i)
           then boot_fail STAGE_VERIFY_MANIFEST FAILURE_BAD_INPUT (service_id (sel_boot_source sel))
                  BOOT_BAD_ARGUMENT
           else mret tt);
      _ ← modify (set_stage STAGE_LOAD_IMAGE);
      _ ← boot_read_image sel i;
      _ ← boot_analyze_image sel i;
      _ ← boot_account_components sel;
      boot_prepare_protocol_plan sel
  | _, _ => boot_fail STAGE_CAPTURE FAILURE_BAD_INPUT None BOOT_BAD_ARGUMENT
  end.

Definition boot_write_u64 (buffer : bytes) (offset value : Z) : bytes :=
  fold_left (fun b index => store_u8 b (offset + index) (u8 (Z.shiftr value (index * 8)))) (upto 8) buffer.

(** The record of an attempt. *)
Definition attempt_record (sel : BootSelection W) (t : RibonBootTransaction W) : bytes :=
  let record := zeros RIBON_BOOT_ATTEMPT_RECORD_SIZE in
  let record := store record 0 [82; 66; 65; 49] in
  let record := store_u8 record 4 (u8 (stage_number STAGE_COMMIT_ATTEMPT)) in
  let record := store_u8 record 5 (u8 (protocol_handoff_major (sel_protocol sel))) in
  let record := boot_write_u64 record 8 (tx_consumed_input_bytes t) in
  let record := boot_write_u64 record 16 (bp_handoff_artifact_size (tx_plan t)) in
  let planned := negb (is_null (bp_kernel_direct_load_plan (tx_plan t))) in
  let record := boot_write_u64 record 24
    (if planned then kernel_entry_load_address (bp_kernel (tx_plan t)) else 0) in
  boot_write_u64 record 32 (if planned then kernel_runtime_entry_address (bp_kernel (tx_plan t)) else 0).

Definition ribon_boot_transaction_commit_attempt : BM unit :=
  t ← get;
  match tx_selection t with
  | None => boot_fail STAGE_COMMIT_ATTEMPT FAILURE_BAD_INPUT None BOOT_BAD_STATE
  | Some sel =>
    let failed {A} : BM A := boot_fail STAGE_COMMIT_ATTEMPT FAILURE_COMMIT
      (service_id (sel_metadata sel)) BOOT_PROVIDER_FAILURE in
    if negb (bool_decide (tx_stage t = STAGE_PREPARE_PROTOCOL))
    then boot_fail STAGE_COMMIT_ATTEMPT FAILURE_BAD_INPUT None BOOT_BAD_STATE
    else
      match metadata_operations P (sel_metadata sel), flush_operations P (sel_flush sel) with
      | Some metadata, Some flush =>
        match metadata_ops_write metadata, flush_ops_flush flush with
        | Some write, Some do_flush =>
          if (metadata_ops_size metadata !=? sizeof_RibonPersistentMetadataServiceOperations) ||
             (flush_ops_size flush !=? sizeof_RibonStorageFlushServiceOperations) ||
             (metadata_ops_abi_version metadata !=? RIBON_SERVICE_ABI_VERSION) ||
             (flush_ops_abi_version flush !=? RIBON_SERVICE_ABI_VERSION) ||
             (metadata_ops_read metadata =? 0)
          then failed
          else
            begun ← boot_deadline_begin sel (service_deadline_ms (sel_metadata sel));
            match begun with
            | inl _ => failed
            | inr deadline =>
              t ← get;
              let record := attempt_record sel t in
              status ← call (write 0 record) (EWrite 0 record);
              if status !=? RIBON_SERVICE_STATUS_OK then failed
              else
                status ← call (do_flush 0 (deadline_absolute_ticks deadline))
                           (EFlush 0 (deadline_absolute_ticks deadline));
                if status !=? RIBON_SERVICE_STATUS_OK then failed
                else
                  ended ← boot_deadline_end sel deadline;
                  match ended with
                  | BOOT_OK => modify (set_stage STAGE_COMMIT_ATTEMPT)
                  | _ => failed
                  end
            end
        | _, _ => failed
        end
      | _, _ => failed
      end
  end.

Definition ribon_boot_transaction_refresh_after_commit (environment : option RibonBootEnvironment) : BM unit :=
  let failed {A} : BM A :=
    boot_fail STAGE_COMMIT_ATTEMPT FAILURE_BAD_INPUT None BOOT_INCOMPLETE_ENVIRONMENT in
  t ← get;
  match tx_selection t, environment with
  | Some sel, Some e =>
    if negb (bool_decide (tx_stage t = STAGE_COMMIT_ATTEMPT)) ||
       (terminal_kind (tx_terminal_request t) !=? RIBON_TERMINAL_EXECUTION_DIRECT_ENTRY) ||
       negb (ribon_boot_environment_is_valid (Some e)) ||
       (environment_architecture e !=? arch_value sel arch_id (-1))
    then failed
    else
      let '(status, normalized) := MemoryMap.ribon_memory_map_normalize
        (Some (mapped_regions e)) (input_normalized_memory_map (tx_input t)) in
      _ ← modify (fun t => set_input (set_input_normalized_memory_map normalized (tx_input t)) t);
      match status with
      | MemoryMap.RIBON_MEMORY_STATUS_OK =>
        _ ← modify (set_environment e);
        _ ← boot_prepare_protocol_plan sel;
        modify (set_stage STAGE_COMMIT_ATTEMPT)
      | _ => failed
      end
  | _, _ => failed
  end.

Definition ribon_boot_transaction_quiesce_environment : BM unit :=
  t ← get;
  match tx_selection t with
  | None => boot_fail STAGE_QUIESCE_ENVIRONMENT FAILURE_BAD_INPUT None BOOT_BAD_STATE
  | Some sel =>
    if negb (bool_decide (tx_stage t = STAGE_COMMIT_ATTEMPT))
    then boot_fail STAGE_QUIESCE_ENVIRONMENT FAILURE_BAD_INPUT None BOOT_BAD_STATE
    else if terminal_kind (tx_terminal_request t) !=? RIBON_TERMINAL_EXECUTION_DIRECT_ENTRY
    then boot_fail STAGE_EXECUTE_TERMINAL FAILURE_TERMINAL (protocol_id (sel_protocol sel)) BOOT_UNSUPPORTED
    else
      let failed {A} : BM A := boot_fail STAGE_QUIESCE_ENVIRONMENT FAILURE_QUIESCE
        (match sel_quiesce sel with Some q => service_id q | None => None end) BOOT_PROVIDER_FAILURE in
      match sel_quiesce sel ≫= quiesce_operations P with
      | None => failed
      | Some operations =>
        match quiesce_ops_quiesce operations with
        | None => failed
        | Some quiesce =>
          if (quiesce_ops_size operations !=? sizeof_RibonEnvironmentQuiesceServiceOperations) ||
             (quiesce_ops_abi_version operations !=? RIBON_SERVICE_ABI_VERSION)
          then failed
          else
            status ← call quiesce EQuiesce;
            if status !=? RIBON_SERVICE_STATUS_OK then failed
            else modify (set_stage STAGE_QUIESCE_ENVIRONMENT)
        end
      end
  end.

Definition ribon_boot_transaction_execute_terminal : BM unit :=
  t ← get;
  match tx_selection t with
  | None => boot_fail STAGE_EXECUTE_TERMINAL FAILURE_BAD_INPUT None BOOT_BAD_STATE
  | Some sel =>
    match sel_terminal_launcher sel with
    | None => boot_fail STAGE_EXECUTE_TERMINAL FAILURE_BAD_INPUT None BOOT_BAD_STATE
    | Some launcher =>
      if negb (bool_decide (tx_stage t = STAGE_COMMIT_ATTEMPT)) ||
         (terminal_kind (tx_terminal_request t) !=? RIBON_TERMINAL_EXECUTION_FIRMWARE_MANAGED_IMAGE)
      then boot_fail STAGE_EXECUTE_TERMINAL FAILURE_BAD_INPUT None BOOT_BAD_STATE
      else
        let failed {A} status : BM A :=
          boot_fail STAGE_EXECUTE_TERMINAL FAILURE_TERMINAL (service_id launcher) status in
        match launch_operations P launcher with
        | None => failed BOOT_PROVIDER_FAILURE
        | Some operations =>
          match launch_ops_launch operations with
          | None => failed BOOT_PROVIDER_FAILURE
          | Some launch =>
            if (launch_ops_size operations !=? sizeof_RibonTerminalImageLaunchServiceOperations) ||
               (launch_ops_abi_version operations !=? RIBON_SERVICE_ABI_VERSION)
            then failed BOOT_PROVIDER_FAILURE
            else
              let managed := terminal_managed_image (tx_terminal_request t) in
              let request := mkLaunchRequest sizeof_RibonTerminalImageLaunchRequest
                RIBON_SERVICE_ABI_VERSION (payload_data (tx_payload t)) (payload_size (tx_payload t))
                (tx_validated_image t) (tx_source t) (payload_source_name (tx_payload t))
                (managed_load_options_kind managed) (managed_load_options_size managed)
                (managed_load_options managed) (managed_watchdog_timeout_ms managed) in
              _ ← modify (set_stage STAGE_EXECUTE_TERMINAL);
              '(status, receipt) ← call (launch request (mkLaunchReceipt
                  sizeof_RibonTerminalImageLaunchReceipt RIBON_SERVICE_ABI_VERSION 0)) (fun _ => ELaunch request);
              let status :=
                if (launch_receipt_size receipt !=? sizeof_RibonTerminalImageLaunchReceipt) ||
                   (launch_receipt_abi_version receipt !=? RIBON_SERVICE_ABI_VERSION) ||
                   (launch_receipt_result receipt =? RIBON_TERMINAL_IMAGE_LAUNCH_RESULT_NONE)
                then RIBON_SERVICE_STATUS_IO else status in
              if status =? RIBON_SERVICE_STATUS_TIMEOUT then failed BOOT_TIMEOUT
              else failed BOOT_PROVIDER_FAILURE
          end
        end
    end
  end.

Definition ribon_boot_transaction_plan (transaction : option (RibonBootTransaction W)) : option RibonBootPlan :=
  match transaction with
  | None => None
  | Some t =>
    if (stage_number (tx_stage t) >=? stage_number STAGE_PREPARE_PROTOCOL) &&
       negb (bool_decide (tx_stage t = STAGE_FAILED))
    then Some (tx_plan t) else None
  end.

Definition ribon_boot_transaction_failure_receipt (transaction : option (RibonBootTransaction W)) :
    option RibonBootFailureReceipt :=
  match transaction with
  | None => None
  | Some t => if bool_decide (tx_stage t = STAGE_FAILED) then Some (tx_receipt t) else None
  end.

(** The transfer does not return: it enters the kernel or halts, and what follows the
    last event is the machine's. *)
Definition ribon_boot_transaction_transfer : BM unit :=
  t ← get;
  match tx_selection t with
  | None => mret tt
  | Some sel =>
    if negb (bool_decide (tx_stage t = STAGE_QUIESCE_ENVIRONMENT)) ||
       (terminal_kind (tx_terminal_request t) !=? RIBON_TERMINAL_EXECUTION_DIRECT_ENTRY) ||
       (invocation_size (prepared_invocation (tx_prepared_entry t)) !=? sizeof_RibonEntryInvocation)
    then
      if archops_halt (sel_arch sel) !=? 0 then call (fun w => (w, tt)) (fun _ => EHalt) else mret tt
    else
      _ ← modify (set_stage STAGE_TRANSFER);
      _ ← call (fun w => (w, tt)) (fun _ => ETransfer (tx_prepared_entry t));
      call (fun w => (w, tt)) (fun _ => EHalt)
  end.
End Operations.
