(* ===== verification/BootPlacement.v ===== *)
(** * Placing a relocatable image

    The platform's placement service lends one window of physical memory.  The
    relocation of a load plan into it moves every segment and every address by the
    base of the window, and keeps what makes a plan safe. *)

From S2P Require Import Prelude.
From S2P Require Import Buffer.
From S2P Require Import Wire.
From S2P Require Import ServiceDirectory.
From S2P Require Import Context.
From S2P Require Import PayloadImage.
From S2P Require Import Boot.

(** A segment moved by [base]. *)
Definition relocated (base : Z) (s : RibonLoadSegment) : RibonLoadSegment :=
  mkSegment (segment_file_offset s) (segment_file_size s) (segment_memory_size s)
    (base + segment_virtual_address s) (segment_linked_physical_address s + base)
    (base + segment_load_address s) (base + segment_load_address s) (base + segment_load_address s)
    (segment_alignment s) (segment_flags s).

(** A segment that lies in [base, limit). *)
Definition inside (base limit : Z) (s : RibonLoadSegment) : Prop :=
  base <= segment_load_address s /\ segment_end s <= limit.

Lemma relocate_step_inr base limit segments index segments' :
  relocate_step base limit segments index = inr segments' ->
  let s := relocated base (segment_at segments index) in
  segments' = <[Z.to_nat index := s]> segments /\ inside base limit s.
Proof.
  unfold relocate_step.
  match goal with |- (if ?c then _ else _) = _ -> _ => destruct c; [done|] end.
  match goal with |- (if ?c then _ else _) = _ -> _ => destruct c eqn:G; [done|] end.
  match goal with |- (if ?c then _ else _) = _ -> _ => destruct c; [done|] end.
  intros [= <-]. bool_to_prop. cbv zeta. split; [done|]. unfold inside, segment_end. cbn. lia.
Qed.

(** The loop relocates the segments of the plan, and leaves the rest of the array. *)
Lemma relocate_loop base limit segments count segments' :
  (Z.to_nat count <= length segments)%nat ->
  foldE (relocate_step base limit) (upto count) segments = inr segments' ->
  let n := Z.to_nat count in
  segments' = (relocated base <$> take n segments) ++ drop n segments /\
  Forall (inside base limit) (relocated base <$> take n segments).
Proof.
  intros Hlen H. pose (Inv (done : list Z) (b : list RibonLoadSegment) :=
    b = (relocated base <$> take (length done) segments) ++ drop (length done) segments /\
    Forall (inside base limit) (relocated base <$> take (length done) segments)).
  cut (Inv (upto count) segments').
  { unfold Inv. rewrite length_seqZ. done. }
  apply (foldE_inv _ Inv _ _ _ H).
  - split; [by rewrite drop_0|constructor].
  - intros done x rest b b' Hup [-> Hin] Hs. apply upto_split in Hup as [-> Hlt].
    apply relocate_step_inr in Hs as [-> Hs]. rewrite Nat2Z.id in *.
    destruct (lookup_lt_is_Some_2 segments (length done)) as [s Es]; [lia|].
    assert (Hat : segment_at ((relocated base <$> take (length done) segments) ++ drop (length done) segments)
                    (Z.of_nat (length done)) = s).
    { unfold segment_at. rewrite Nat2Z.id, nth_lookup, lookup_app_r; rewrite length_fmap, length_take_le by lia; [|lia].
      by rewrite lookup_drop, Nat.sub_diag, Nat.add_0_r, Es. }
    rewrite Hat in *. unfold Inv. rewrite length_app, Nat.add_1_r, (take_S_r _ _ s), fmap_app by done.
    rewrite Forall_app. split; [|split; [done|by apply Forall_singleton]].
    rewrite insert_app_r_alt by (rewrite length_fmap, length_take_le; lia).
    rewrite length_fmap, length_take_le, Nat.sub_diag by lia.
    rewrite <- app_assoc. f_equal. rewrite (drop_S _ s) by done. done.
Qed.

Lemma segment_safe_relocated size b l base s : segment_safe size b l s ->
  segment_safe size (b + base) (l + base) (relocated base s).
Proof. unfold segment_safe, segment_end. cbn. lia. Qed.

(** A plan moved by [base]. *)
Record moved (base : Z) (p p' : RibonDirectLoadPlan) : Prop := {
  moved_segments : segments_of p' = relocated base <$> segments_of p;
  moved_count : plan_segment_count p' = plan_segment_count p;
  moved_load_base : plan_load_base p' = plan_load_base p + base;
  moved_load_end : plan_load_end p' = plan_load_end p + base;
  moved_memory_size : plan_memory_size p' = plan_memory_size p;
  moved_runtime_base : plan_runtime_load_base p' = plan_runtime_load_base p + base;
  moved_runtime_end : plan_runtime_load_end p' = plan_runtime_load_end p + base;
  moved_entry : plan_entry_load_address p' = plan_entry_load_address p + base;
  moved_runtime_entry : plan_runtime_entry_address p' = plan_runtime_entry_address p + base;
  moved_entry_point : plan_entry_point p' = plan_entry_point p + base;
}.

Lemma moved_safe size base p p' : 0 <= base -> moved base p p' -> plan_load_end p' <= UINT64_MAX ->
  load_plan_safe size p -> load_plan_safe size p'.
Proof.
  intros Hb [] Hmax [S1 S2 S3 S4 S5]. constructor.
  - rewrite moved_segments0, moved_load_base0, moved_load_end0, Forall_fmap.
    eapply Forall_impl; [exact S1|]. intros s Hs. by apply segment_safe_relocated.
  - intros i j s t. rewrite moved_segments0, !list_lookup_fmap_Some.
    intros (s0 & -> & Hs) (t0 & -> & Ht) Hne. specialize (S2 i j s0 t0 Hs Ht Hne).
    unfold apart, segment_end in *. cbn. lia.
  - lia.
  - destruct S4 as (s & Hs & Hx & Hr). exists (relocated base s). rewrite moved_segments0, moved_entry0.
    split; [by apply list_elem_of_fmap_2|]. split; [done|]. unfold segment_end in *. cbn. lia.
  - lia.
Qed.

Section Placement.
Context {W : Type} (P : Providers W) (sel : BootSelection W).
Hypothesis typed_placement : forall service placement,
  placement_operations P service = Some placement -> 0 <= placement_physical_base placement.

(** The window a plan was placed in. *)
Definition placed_in (placement : RibonPayloadPlacementServiceOperations) (p p' : RibonDirectLoadPlan) : Prop :=
  let base := placement_physical_base placement in
  moved base p p' /\ Forall (inside base (base + placement_physical_size placement)) (segments_of p') /\
  base + placement_physical_size placement <= UINT64_MAX.

Lemma placement_cases p p' :
  (Z.to_nat (plan_segment_count p) <= length (default [] (plan_segments p)))%nat ->
  boot_apply_relocatable_placement P sel p = (BOOT_OK, p') ->
  Z.land (plan_load_plan_flags p) RIBON_LOAD_PLAN_RELOCATABLE = 0 /\ p' = p \/
  plan_load_end p' <= UINT64_MAX /\ 
  exists service placement,
    boot_service_authority (context_services (sel_core sel)) RIBON_SERVICE_KIND_PAYLOAD_PLACEMENT = Some service /\
    placement_operations P service = Some placement /\ placed_in placement p p'.
Proof.
  intros Hlen. unfold boot_apply_relocatable_placement.
  destruct (Z.eqb_spec (Z.land (plan_load_plan_flags p) RIBON_LOAD_PLAN_RELOCATABLE) 0); [intros [= <-]; by left|].
  destruct (boot_service_authority _ _) as [service|]; [|done].
  destruct (negb _); [done|]. destruct (placement_operations P service) as [placement|] eqn:Ep; [|done].
  match goal with |- (if ?c then _ else _) = _ -> _ => destruct c eqn:G1; [done|] end.
  destruct (foldE _ _ _) as [|segments] eqn:Ef; [done|].
  match goal with |- (if ?c then _ else _) = _ -> _ => destruct c eqn:G2; [done|] end.
  cbn in G2. bool_to_prop. apply relocate_loop in Ef as [-> Hin]; [|done].
  intros [= <-]. right. split; [cbn; lia|]. exists service, placement. split; [done|]. split; [done|].
  set (base := placement_physical_base placement) in *.
  match goal with |- placed_in _ _ ?q => assert (Hseg : segments_of q = relocated base <$> segments_of p) end.
  { unfold segments_of. cbn. rewrite take_app_le, take_ge; rewrite ?length_fmap, ?length_take_le; try done; lia. }
  split; [by constructor|]. rewrite Hseg. split; [done|]. fold base. lia.
Qed.

(** Placing a relocatable image keeps its load plan safe.  A plan that is not
    relocatable stays as it is.  Any other is moved as a whole by the base of the
    window that the one placement authority of the core lends, and every segment ends
    up inside that window, so disjoint segments stay disjoint and the entry point stays
    in the executable segment it was in. *)
Lemma placement_sound size p p' :
  (Z.to_nat (plan_segment_count p) <= length (default [] (plan_segments p)))%nat ->
  load_plan_safe size p -> boot_apply_relocatable_placement P sel p = (BOOT_OK, p') ->
  load_plan_safe size p' /\
  (Z.land (plan_load_plan_flags p) RIBON_LOAD_PLAN_RELOCATABLE = 0 /\ p' = p \/
   exists service placement,
     boot_service_authority (context_services (sel_core sel)) RIBON_SERVICE_KIND_PAYLOAD_PLACEMENT = Some service /\
     placement_operations P service = Some placement /\ placed_in placement p p').
Proof.
  intros Hlen Hs H. apply placement_cases in H as [[? ->]|(Hmax & service & placement & Ha & Hp & Hin)]; [|..|done].
  - auto.
  - split; [|eauto 6]. eapply moved_safe; [by eapply typed_placement|apply Hin|done|done].
Qed.
End Placement.
