(* ===== verification/BootLogic.v ===== *)
(** * Reasoning about the boot transaction

    The weakest precondition of an operation of [Boot.v], with one rule per primitive,
    and what the steps of an attempt leave as they found it. *)

From S2P Require Import Prelude.
From S2P Require Import Buffer.
From S2P Require Import Effects.
From S2P Require Import CString.
From S2P Require Import Memory.
From S2P Require Import Plugin.
From S2P Require Import ServiceDirectory.
From S2P Require Import Context.
From S2P Require Import Protocol.
From S2P Require Import PayloadImage.
From S2P Require Import BootEnvironment.
From S2P Require Import ArchOps.
From S2P Require Import Boot.

(** The operation ends in [Q] with its result, or in [F] with its status. *)
Definition wp {S E A} (m : M S E A) (s : S) (Q : A -> S -> Prop) (F : E -> S -> Prop) : Prop :=
  match m s with (s', inr a) => Q a s' | (s', inl status) => F status s' end.

Lemma wp_mono {S E A} (m : M S E A) s (Q Q' : A -> S -> Prop) (F F' : E -> S -> Prop) :
  wp m s Q F -> (forall a s', Q a s' -> Q' a s') -> (forall e s', F e s' -> F' e s') -> wp m s Q' F'.
Proof. unfold wp. destruct (m s) as [s' [e|a]]; auto. Qed.

Lemma wp_fst {S E A} (m : M S E A) s (R : S -> Prop) : wp m s (fun _ => R) (fun _ => R) -> R (fst (m s)).
Proof. unfold wp. by destruct (m s) as [s' [e|a]]. Qed.

Lemma wp_bind {S E A B} (m : M S E A) (f : A -> M S E B) s Q F :
  wp (m ≫= f) s Q F = wp m s (fun a s' => wp (f a) s' Q F) F.
Proof. unfold wp, mbind, M_bind. by destruct (m s) as [s' [e|a]]. Qed.

Lemma wp_ret {S E A} (a : A) s (Q : A -> S -> Prop) (F : E -> S -> Prop) : wp (mret a) s Q F = Q a s.
Proof. done. Qed.

Lemma wp_if {S E A} (c : bool) (m n : M S E A) s Q F :
  (c = true -> wp m s Q F) -> (c = false -> wp n s Q F) -> wp (if c then m else n) s Q F.
Proof. destruct c; auto. Qed.

Section Rules.
Context {W : Type}.
Implicit Types (s : Boot W).

Lemma wp_get s Q F : wp get s Q F = Q (boot_tx s) s.
Proof. done. Qed.

Lemma wp_modify s f Q F :
  wp (modify f) s Q F = Q tt (mkBoot (boot_world s) (f (boot_tx s)) (boot_log s)).
Proof. done. Qed.

Lemma wp_call {A} (f : W -> W * A) event s (Q : A -> Boot W -> Prop) F :
  (forall w a, f (boot_world s) = (w, a) -> Q a (mkBoot w (boot_tx s) (boot_log s ++ [event a]))) ->
  wp (call f event) s Q F.
Proof. unfold wp, call. destruct (f (boot_world s)) as [w a]. auto. Qed.

(** The transaction a failure leaves. *)
Definition failed_tx stage reason provider_id (t : RibonBootTransaction W) : RibonBootTransaction W :=
  set_stage STAGE_FAILED
    (set_receipt (mkFailureReceipt stage reason provider_id (tx_consumed_input_bytes t)
       (tx_consumed_output_bytes t) (tx_consumed_components t) (tx_consumed_retries t)) t).

Lemma wp_fail {A} stage reason provider_id status s (Q : A -> Boot W -> Prop) F :
  wp (boot_fail stage reason provider_id status) s Q F =
  F status (mkBoot (boot_world s) (failed_tx stage reason provider_id (boot_tx s)) (boot_log s)).
Proof. done. Qed.

End Rules.

(** One rule at the head of the operation. *)
Ltac wp_step :=
  lazymatch goal with
  | |- wp (mbind _ _) _ _ _ => rewrite wp_bind
  | |- wp (mret _) _ _ _ => rewrite wp_ret
  | |- wp get _ _ _ => rewrite wp_get
  | |- wp (modify _) _ _ _ => rewrite wp_modify
  | |- wp (boot_fail _ _ _ _) _ _ _ => rewrite wp_fail
  | |- wp (call _ _) _ _ _ => apply wp_call; let w := fresh "w" in let a := fresh "a" in
      let E := fresh "Ecall" in intros w a E; try (destruct a as [? ?])
  | |- wp (if _ then _ else _) _ _ _ => apply wp_if; let G := fresh "G" in intros G
  | |- wp (match ?x with _ => _ end) _ _ _ => let G := fresh "G" in destruct x eqn:G
  end.

(** *** The log *)

Section Log.
Context {W : Type}.
Implicit Types (s : Boot W).

(** A call that neither reads the source, nor persists anything, nor leaves the boot
    loader. *)
Definition quiet (e : Event) : Prop :=
  match e with
  | ENow _ _ | EDirectHigh | EHandoff _ | ETerminal _ => True
  | _ => False
  end.

(** The calls of a preparation. *)
Definition calm (e : Event) : Prop := quiet e \/ exists offset size status, e = ERead offset size status.

(** The calls between two states. *)
Definition since (allowed : Event -> Prop) s0 s : Prop :=
  exists events, boot_log s = boot_log s0 ++ events /\ Forall allowed events.

Lemma since_refl allowed s : since allowed s s.
Proof. exists []. by rewrite app_nil_r. Qed.

Lemma since_trans allowed s0 s1 s2 : since allowed s0 s1 -> since allowed s1 s2 -> since allowed s0 s2.
Proof.
  intros (e1 & H1 & F1) (e2 & H2 & F2). exists (e1 ++ e2). rewrite H2, H1, app_assoc. split; [done|by apply Forall_app].
Qed.

Lemma since_same allowed s0 s w t : since allowed s0 s -> since allowed s0 (mkBoot w t (boot_log s)).
Proof. done. Qed.

Lemma since_call allowed s0 s w t e : since allowed s0 s -> allowed e ->
  since allowed s0 (mkBoot w t (boot_log s ++ [e])).
Proof.
  intros (e1 & H1 & F1) He. exists (e1 ++ [e]). cbn. rewrite H1, app_assoc. split; [done|].
  apply Forall_app. by rewrite Forall_singleton.
Qed.

Lemma since_mono (P Q : Event -> Prop) s0 s : (forall e, P e -> Q e) -> since P s0 s -> since Q s0 s.
Proof. intros H (events & ? & F). exists events. split; [done|]. by eapply Forall_impl. Qed.

Lemma since_snoc allowed s w t e : allowed e -> since allowed s (mkBoot w t (boot_log s ++ [e])).
Proof. intros He. apply since_call; [apply since_refl|done]. Qed.

(** The calls to the source's read. *)
Fixpoint reads (log : list Event) : Z :=
  match log with
  | [] => 0
  | ERead _ _ _ :: log => 1 + reads log
  | _ :: log => reads log
  end.

Lemma reads_app l k : reads (l ++ k) = reads l + reads k.
Proof. induction l as [|[] l IH]; cbn [app reads]; lia. Qed.

(** Between two states a preparation ran, with at most [n] reads. *)
Definition progress (n : Z) s0 s : Prop := since calm s0 s /\ reads (boot_log s) <= reads (boot_log s0) + n.

Lemma progress_refl s w t : progress 0 s (mkBoot w t (boot_log s)).
Proof. split; [by apply since_same, since_refl|]. cbn. lia. Qed.

Lemma progress_quiet s0 s : since quiet s0 s -> progress 0 s0 s.
Proof.
  intros H. split; [eapply since_mono, H; by left|]. destruct H as (events & -> & F). rewrite reads_app.
  enough (reads events = 0) by lia. induction F as [|e events He _ IH]; [done|]. by destruct e.
Qed.

Lemma progress_trans n k s0 s1 s2 : progress n s0 s1 -> progress k s1 s2 -> progress (n + k) s0 s2.
Proof. intros [H1 R1] [H2 R2]. split; [by eapply since_trans|]. lia. Qed.

Lemma progress_le n k s0 s : n <= k -> progress n s0 s -> progress k s0 s.
Proof. intros ? [? ?]. split; [done|lia]. Qed.
End Log.

Create HintDb boot.
#[export] Hint Resolve since_refl since_same since_snoc since_trans : boot.
#[export] Hint Extern 1 (quiet _) => exact I : boot.

(** *** The timer *)

Section Deadline.
Context {W : Type} (P : Providers W).
Implicit Types (s : Boot W).

(** Only the timer has run. *)
Definition timed s0 s : Prop := boot_tx s = boot_tx s0 /\ since quiet s0 s.

Lemma deadline_begin_timed sel ms s :
  wp (boot_deadline_begin P sel ms) s (fun _ => timed s) (fun _ _ => False).
Proof.
  unfold boot_deadline_begin, timed. repeat (wp_step || (cbv beta iota)); split; cbn; eauto with boot.
Qed.

Lemma deadline_end_timed sel d s :
  wp (boot_deadline_end P sel d) s (fun _ => timed s) (fun _ _ => False).
Proof.
  unfold boot_deadline_end, timed. repeat (wp_step || (cbv beta iota)); split; cbn; eauto with boot.
Qed.
End Deadline.

(** *** The protocol plan *)

Section Plan.
Context {W : Type} (P : Providers W) (sel : BootSelection W).
Implicit Types (s : Boot W) (t : RibonBootTransaction W).

Definition direct : Prop :=
  protocol_terminal_execution (sel_protocol sel) = RIBON_TERMINAL_EXECUTION_DIRECT_ENTRY.

(** What planning leaves alone. *)
Record kept t0 t : Prop := {
  kept_selection : tx_selection t = tx_selection t0;
  kept_environment : tx_environment t = tx_environment t0;
  kept_source : tx_source t = tx_source t0;
  kept_payload : tx_payload t = tx_payload t0;
  kept_image : tx_validated_image t = tx_validated_image t0;
  kept_layout : input_direct_load_plan (tx_input t) = input_direct_load_plan (tx_input t0);
  kept_map : input_normalized_memory_map (tx_input t) = input_normalized_memory_map (tx_input t0);
  kept_capacity : input_handoff_buffer_capacity (tx_input t) = input_handoff_buffer_capacity (tx_input t0);
  kept_transition : input_transition_buffer_capacity (tx_input t) = input_transition_buffer_capacity (tx_input t0);
  kept_input_bytes : tx_consumed_input_bytes t = tx_consumed_input_bytes t0;
  kept_components : tx_consumed_components t = tx_consumed_components t0;
  kept_retries : tx_consumed_retries t = tx_consumed_retries t0;
}.

Lemma kept_refl t : kept t t.
Proof. by constructor. Qed.

Lemma kept_trans t0 t1 t2 : kept t0 t1 -> kept t1 t2 -> kept t0 t2.
Proof. intros [] []. constructor; congruence. Qed.

(** A step that failed: the attempt is over. *)
Definition over (allowed : Event -> Prop) s0 s : Prop :=
  tx_stage (boot_tx s) = STAGE_FAILED /\ tx_selection (boot_tx s) = tx_selection (boot_tx s0) /\ since allowed s0 s.

(** The kernel fields of a plan made from a load plan. *)
Definition kernel_of (layout : option RibonDirectLoadPlan) : KernelLayout :=
  bp_kernel (boot_copy_image_plan zero_plan zero_payload empty_validated layout).

Record plan_made (t : RibonBootTransaction W) (c : RibonBootPlan) : Prop := {
  made_layout : bp_kernel_direct_load_plan c = input_direct_load_plan (tx_input t);
  made_kernel : bp_kernel c = kernel_of (input_direct_load_plan (tx_input t));
  made_transition : bp_kernel_transition_bytes c = 0 \/
    bp_kernel_transition_bytes c <= input_transition_buffer_capacity (tx_input t) /\
    boot_transition_range_is_reserved (input_normalized_memory_map (tx_input t))
      (bp_kernel_transition_root_physical c) (bp_kernel_transition_bytes c) = true;
}.

Lemma candidate_made t : plan_made t (candidate_plan sel t).
Proof. constructor; [done| |by left]. by destruct (input_direct_load_plan (tx_input t)) eqn:E; cbn; rewrite E. Qed.

Lemma transition_made c s : plan_made (boot_tx s) c ->
  wp (boot_prepare_transition sel c) s (fun c' s' => timed s s' /\ plan_made (boot_tx s) c') (fun _ => over quiet s).
Proof.
  intros Hc. unfold boot_prepare_transition, timed, over.
  repeat (wp_step || (cbv beta iota)); cbn; eauto 6 with boot.
  split; [eauto with boot|]. bool_to_prop. destruct Hc. constructor; [done..|]. right. cbn.
  split; [lia|]. congruence.
Qed.

Lemma plan_made_kept t0 t c : kept t0 t -> plan_made t0 c -> plan_made t c.
Proof. intros [] []. constructor; congruence. Qed.

(** The artifact of a direct entry is within its limit and its buffer. *)
Definition handoff_made t (c : RibonBootPlan) : Prop :=
  direct -> exists a, input_handoff_artifact (tx_input t) = Some a /\
    bp_handoff_artifact_size c = artifact_size a /\ artifact_size a <= max_handoff_bytes (limits_of sel) /\
    artifact_size a <= input_handoff_buffer_capacity (tx_input t).

Lemma handoff_made_by c s : plan_made (boot_tx s) c ->
  wp (boot_prepare_handoff P sel c) s
    (fun c' s' => kept (boot_tx s) (boot_tx s') /\ since quiet s s' /\ plan_made (boot_tx s') c' /\
       handoff_made (boot_tx s') c')
    (fun _ => over quiet s).
Proof.
  intros Hc. unfold boot_prepare_handoff, over, handoff_made, direct.
  wp_step. wp_step. wp_step.
  - wp_step. bool_to_prop. split; [apply kept_refl|]. split; [eauto with boot|]. split; [done|]. done.
  - wp_step. wp_step. match goal with r : option bytes * _ |- _ => destruct r as [buffer artifact] end. wp_step. wp_step.
    wp_step; [wp_step; wp_step; cbn; eauto with boot|].
    wp_step; wp_step; cbn; [eauto with boot|]. bool_to_prop.
    split; [by constructor|]. split; [eauto with boot|]. split; [by destruct Hc|].
    intros _. exists artifact. auto.
Qed.

(** The request is the protocol's, and its entry what the architecture made of it. *)
Record terminal_made t (c : RibonBootPlan) : Prop := {
  made_request : ribon_terminal_request_is_valid (Some (tx_terminal_request t)) = true;
  made_kind : terminal_kind (tx_terminal_request t) = protocol_terminal_execution (sel_protocol sel);
  made_entry : direct -> exists prepare entry, archops_prepare_entry (sel_arch sel) = Some prepare /\
    prepare (descriptor_of sel) (Some (terminal_direct_entry (tx_terminal_request t))) = (ARCH_OK, entry) /\
    prepared_invocation (tx_prepared_entry t) = prepared_invocation entry /\
    (invocation_translation (terminal_direct_entry (tx_terminal_request t)) =
       RIBON_ENTRY_TRANSLATION_DIRECT_HIGH_BRIDGE ->
     prepared_translation_root (tx_prepared_entry t) = bp_kernel_transition_root_physical c /\
     bp_kernel_transition_bytes c <> 0);
}.

Lemma terminal_made_by c s :
  wp (boot_prepare_terminal P sel c) s
    (fun _ s' => kept (boot_tx s) (boot_tx s') /\ since quiet s s' /\
       tx_input (boot_tx s') = tx_input (boot_tx s) /\ terminal_made (boot_tx s') c)
    (fun _ => over quiet s).
Proof.
  unfold boot_prepare_terminal, boot_fail_terminal, over.
  repeat (wp_step || (cbv beta iota)); cbn; eauto with boot; bool_to_prop;
    (split; [by constructor|]); (split; [eauto with boot|]); (split; [done|]);
    constructor; cbn -[ribon_terminal_request_is_valid]; try congruence.
  all: unfold direct; intros Hd; try congruence.
  all: do 2 eexists; split; [eassumption|]; split; [eassumption|]; cbn; split; [done|]; try done.
Qed.

(** A transaction with a plan: what the plan, the request and the entry promise. *)
Record planned t : Prop := {
  planned_plan : plan_made t (tx_plan t);
  planned_handoff : handoff_made t (tx_plan t);
  planned_terminal : terminal_made t (tx_plan t);
}.

Lemma protocol_planned s :
  wp (boot_prepare_protocol_plan P sel) s
    (fun _ s' => kept (boot_tx s) (boot_tx s') /\ since quiet s s' /\
       tx_stage (boot_tx s') = STAGE_PREPARE_PROTOCOL /\ planned (boot_tx s'))
    (fun _ => over quiet s).
Proof.
  unfold boot_prepare_protocol_plan. rewrite wp_bind.
  eapply wp_mono; [apply deadline_begin_timed| |done]. intros begun s1 [T1 L1].
  destruct begun as [st|d]; [wp_step; cbn; rewrite T1; unfold over; eauto with boot|].
  wp_step. wp_step. rewrite wp_bind.
  eapply wp_mono; [apply transition_made, candidate_made|..].
  2:{ intros _ s2 (? & ? & ?). rewrite T1 in *. unfold over. eauto with boot. }
  intros c s2 ([T2 L2] & Hc). rewrite wp_bind. rewrite <- T2 in Hc.
  eapply wp_mono; [by apply handoff_made_by|..].
  2:{ intros _ s3 (? & ? & ?). rewrite T2, T1 in *. unfold over. eauto with boot. }
  intros c3 s3 (K3 & L3 & Hc3 & Hh3). rewrite wp_bind. rewrite T2, T1 in K3.
  assert (L : since quiet s s3) by eauto with boot.
  eapply wp_mono; [apply deadline_end_timed| |done]. intros ended s4 [T4 L4].
  assert (Hf : forall (Q : unit -> Boot W -> Prop) status,
    wp (boot_fail STAGE_PREPARE_PROTOCOL FAILURE_TIMEOUT (protocol_id (sel_protocol sel)) status) s4 Q
      (fun _ => over quiet s)).
  { intros Q status. rewrite wp_fail. unfold over. cbn. rewrite T4. destruct K3. eauto with boot. }
  destruct ended; try apply Hf.
  rewrite wp_bind. eapply wp_mono; [apply terminal_made_by|..].
  2:{ intros _ s5 (? & ? & ?). rewrite T4 in *. destruct K3. unfold over. split; [done|]. split; [congruence|]. eauto with boot. }
  intros _ s5 (K5 & L5 & I5 & Ht5). rewrite wp_modify. cbn. rewrite T4 in K5, I5.
  pose proof (kept_trans _ _ _ K3 K5) as K.
  split; [by destruct K; constructor|]. split; [eauto with boot|]. split; [done|]. constructor; cbn.
  - by destruct (plan_made_kept _ _ _ K5 Hc3); constructor.
  - unfold handoff_made. cbn. rewrite I5. exact Hh3.
  - by destruct Ht5; constructor.
Qed.
End Plan.
