(* ===== verification/BootPrepare.v ===== *)
(** * Preparing a boot attempt

    What [ribon_boot_transaction_prepare] establishes when it succeeds: the image that
    was read is within its budgets, it was accepted by the selected analyzer, placed and
    checked by the architecture, and the plan made from it is the protocol's. *)

From S2P Require Import Prelude.
From S2P Require Import Buffer.
From S2P Require Import Wire.
From S2P Require Import Effects.
From S2P Require Import CString.
From S2P Require Import Memory.
From S2P Require Import Plugin.
From S2P Require Import ServiceDirectory.
From S2P Require Import Context.
From S2P Require Import Protocol.
From S2P Require Import PayloadImage.
From S2P Require Import BootEnvironment.
From S2P Require Import ArchOps.
From S2P Require Import Boot.
From S2P Require Import BootPlacement.
From S2P Require Import BootLogic.

(** A read fills the buffer it is given, and nothing beyond it. *)
Definition read_typed {W} (read : RibonBootSource -> Z -> bytes -> Z -> Z -> W -> W * (Z * bytes)) : Prop :=
  forall source offset buffer size deadline w, octets buffer ->
  let '(_, (_, b)) := read source offset buffer size deadline w in len b = len buffer /\ octets b.

Section Prepare.
Context {W : Type} (P : Providers W) (sel : BootSelection W).
Implicit Types (s : Boot W) (t : RibonBootTransaction W).

Definition broken (n : Z) s0 s : Prop :=
  tx_stage (boot_tx s) = STAGE_FAILED /\ tx_selection (boot_tx s) = tx_selection (boot_tx s0) /\ progress n s0 s.

Lemma broken_trans n k s0 s1 s2 : tx_selection (boot_tx s1) = tx_selection (boot_tx s0) ->
  progress n s0 s1 -> broken k s1 s2 -> broken (n + k) s0 s2.
Proof. intros E H (? & ? & ?). split; [done|]. split; [congruence|]. by eapply progress_trans. Qed.

(** The environment an attempt may be made in. *)
Record admitted (e : RibonBootEnvironment) : Prop := {
  admitted_valid : ribon_boot_environment_is_valid (Some e) = true;
  admitted_arch : environment_architecture e = arch_value sel arch_id (-1);
  admitted_modules : modules_module_count (environment_boot_modules e) <> 0 ->
    ribon_boot_protocol_has_expectation (Some (sel_protocol sel)) RIBON_PROTOCOL_ALLOW_BOOT_MODULES = true;
  admitted_map : ribon_boot_protocol_has_expectation (Some (sel_protocol sel)) RIBON_PROTOCOL_EXPECT_MEMORY_MAP = true ->
    Z.land (environment_flags e) RIBON_BOOT_ENV_HAS_MEMORY_MAP <> 0;
}.

Lemma normalize_spec i s :
  wp (boot_normalize_environment sel i) s
    (fun _ s' => exists e m, input_environment i = Some e /\ admitted e /\
       MemoryMap.ribon_memory_map_normalize (Some (mapped_regions e)) (input_normalized_memory_map i) =
         (MemoryMap.RIBON_MEMORY_STATUS_OK, m) /\
       boot_tx s' = set_input (set_input_normalized_memory_map m (tx_input (boot_tx s)))
                      (set_environment e (boot_tx s)) /\
       boot_log s' = boot_log s)
    (fun _ => broken 0 s).
Proof.
  unfold boot_normalize_environment, broken. wp_step; [|wp_step; cbn; auto using progress_refl].
  wp_step; [wp_step; cbn; auto using progress_refl|]. wp_step. wp_step. wp_step. wp_step. wp_step.
  wp_step; wp_step; try (cbn; by auto using progress_refl).
  exists r, o. split; [done|]. split; [|done]. clear G1 G2.
  rewrite !orb_false_iff, !andb_false_iff, !negb_false_iff, Z.eqb_neq in G0.
  destruct G0 as (((? & ?) & Hm) & He). constructor; [done|lia|..].
  - intros Hc. destruct Hm as [Hm|Hm]; [lia|done].
  - intros Hc. destruct He; congruence.
Qed.

(** One read, and the rest of the loop. *)
Lemma read_loop_eq left read deadline s Q F :
  wp (boot_read_loop left read deadline) s Q F =
  wp (get ≫= fun t =>
  call (read (tx_source t) (input_source_offset (tx_input t)) (default [] (input_payload_buffer (tx_input t)))
          (input_source_size (tx_input t)) deadline)
    (fun r => ERead (input_source_offset (tx_input t)) (input_source_size (tx_input t)) (fst r)) ≫= fun r =>
  modify (fun t => set_input (set_input_payload_buffer (Some (snd r)) (tx_input t)) t) ≫= fun _ =>
  if fst r =? RIBON_SERVICE_STATUS_OK then mret (fst r)
  else match left with
       | O => mret (fst r)
       | S left' => modify (fun t => set_consumed_retries (tx_consumed_retries t + 1) t) ≫= fun _ =>
                    boot_read_loop (W:=W) left' read deadline
       end) s Q F.
Proof.
  destruct left; unfold wp; cbn; unfold mbind, M_bind, call, get; cbn; destruct (read _ _ _ _ _ _) as [w [z b]].
  all: cbn; by destruct (z =? _).
Qed.

Lemma read_loop_spec left read deadline s buffer :
  read_typed read -> input_payload_buffer (tx_input (boot_tx s)) = Some buffer -> octets buffer ->
  wp (boot_read_loop left read deadline) s
    (fun _ s' => exists b r, len b = len buffer /\ octets b /\
       tx_consumed_retries (boot_tx s) <= r <= tx_consumed_retries (boot_tx s) + Z.of_nat left /\
       boot_tx s' = set_consumed_retries r
         (set_input (set_input_payload_buffer (Some b) (tx_input (boot_tx s))) (boot_tx s)) /\
       progress (Z.of_nat left + 1) s s')
    (fun _ _ => False).
Proof.
  intros Hread. revert s buffer. induction left as [|left IH]; intros s buffer Hb Ho;
    rewrite read_loop_eq; do 3 wp_step; apply wp_call; intros w [status b] Ecall; wp_step; wp_step;
    rewrite Hb in Ecall; cbn [default from_option id] in Ecall;
    pose proof (Hread (tx_source (boot_tx s)) (input_source_offset (tx_input (boot_tx s))) buffer
      (input_source_size (tx_input (boot_tx s))) deadline (boot_world s) Ho) as Hr;
    rewrite Ecall in Hr; destruct Hr as [Hl Ho1]; cbn [fst snd];
    (assert (Hp : forall w1 t1, progress 1 s (mkBoot w1 t1 (boot_log s ++
       [ERead (input_source_offset (tx_input (boot_tx s))) (input_source_size (tx_input (boot_tx s))) status]))) by
     (intros w1 t1; split; [apply since_snoc; right; eauto|]; cbn; rewrite reads_app; cbn; lia)).
  - by wp_step; wp_step; exists b, (tx_consumed_retries (boot_tx s)); repeat (split; [done || lia|]); apply Hp.
  - wp_step; [wp_step; exists b, (tx_consumed_retries (boot_tx s)); repeat (split; [done || lia|]);
      eapply progress_le, Hp; lia|].
    wp_step. wp_step. eapply wp_mono; [by apply (IH _ b)| |done].
    intros _ s' (b' & r & ? & ? & Hr & Ht & Hp'). cbn in Hr, Ht, Hp'. exists b', r.
    split; [congruence|]. split; [done|]. split; [lia|]. split; [done|].
    eapply progress_le; [|eapply progress_trans; [apply Hp|exact Hp']]. lia.
Qed.

Hypothesis typed_source : forall service operations read,
  source_operations P service = Some operations -> source_ops_read operations = Some read -> read_typed read.

Lemma read_image_spec i s buffer :
  input_payload_buffer (tx_input (boot_tx s)) = Some buffer -> octets buffer ->
  tx_consumed_retries (boot_tx s) = 0 -> 0 <= max_retries (limits_of sel) ->
  wp (boot_read_image P sel i) s
    (fun _ s' => exists b r, len b = len buffer /\ octets b /\ 0 <= r <= max_retries (limits_of sel) /\
       boot_tx s' = set_consumed_input_bytes (u64 (tx_consumed_input_bytes (boot_tx s) + input_source_size i))
         (set_consumed_retries r
           (set_input (set_input_payload_buffer (Some b) (tx_input (boot_tx s))) (boot_tx s))) /\
       progress (max_retries (limits_of sel) + 1) s s')
    (fun _ => broken (max_retries (limits_of sel) + 1) s).
Proof.
  intros Hb Ho H0 Hmax. unfold boot_read_image.
  set (n := max_retries (limits_of sel)) in *.
  assert (Hfail : forall A stage reason id st (Q : A -> Boot W -> Prop) s',
    tx_selection (boot_tx s') = tx_selection (boot_tx s) -> progress (n + 1) s s' ->
    wp (boot_fail stage reason id st) s' Q (fun _ => broken (n + 1) s)).
  { intros. rewrite wp_fail. by split; [|split]. }
  assert (Hself : progress (n + 1) s s) by (eapply progress_le, progress_quiet, since_refl; lia).
  destruct (source_operations P (sel_boot_source sel)) as [ops|] eqn:Eo; [|by apply Hfail].
  destruct (source_ops_read ops) as [read|] eqn:Er; [|by apply Hfail].
  wp_step; [by apply Hfail|]. rewrite wp_bind.
  eapply wp_mono; [apply deadline_begin_timed| |done]. intros begun s1 [T1 L1]. apply progress_quiet in L1.
  destruct begun as [|d]; [apply Hfail; [by rewrite T1|eapply progress_le, L1; lia]|].
  wp_step. wp_step. wp_step. rewrite T1, H0, Z.sub_0_r.
  eapply wp_mono; [apply (read_loop_spec _ _ _ _ buffer); [by eapply typed_source|by rewrite T1|done]| |done].
  intros status s2 (b & r & Hl & Ho2 & Hr & T2 & L2). rewrite T1, H0, Z2Nat.id in * by lia.
  pose proof (progress_trans _ _ _ _ _ L1 L2) as L. rewrite Z.add_0_l in L.
  wp_step; [apply Hfail; [by rewrite T2|done]|]. wp_step. wp_step. wp_step.
  eapply wp_mono; [apply deadline_end_timed| |done]. intros ended s3 [T3 L3]. apply progress_quiet in L3.
  assert (L' : progress (n + 1) s s3).
  { eapply progress_le; [|eapply progress_trans; [exact L|exact L3]]. lia. }
  destruct ended; try (apply Hfail; [by rewrite T3; cbn; rewrite T2|done]).
  wp_step. exists b, r. rewrite T3. cbn. rewrite T2. split_and!; try done; lia.
Qed.

(** What the analyzer, the placement and the architecture agreed on. *)
Record accepted (i : RibonBootTransactionInput) (payload : RibonPayloadImage) (v : RibonValidatedImage)
    (layout : option RibonDirectLoadPlan) : Prop := {
  accepted_analysis : exists analyze analyzed, format_analyze (sel_image_format sel) = Some analyze /\
    analyze (Some payload) (input_validated_image i) (input_direct_load_plan i) = (LOADER_OK, Some v, analyzed) /\
    (direct sel -> exists p q validate, analyzed = Some p /\
       boot_apply_relocatable_placement P sel p = (BOOT_OK, q) /\
       archops_validate_direct_load (sel_arch sel) = Some validate /\
       validate (descriptor_of sel) (Some v) (Some q) = (ARCH_OK, layout)) /\
    (~ direct sel -> layout = analyzed);
  accepted_valid : ribon_validated_image_is_valid (Some v) = true;
  accepted_format : validated_format v = format_format (sel_image_format sel);
  accepted_size : validated_image_size v = payload_size payload;
  accepted_support : Z.land (validated_execution_support v) (format_execution_support (sel_image_format sel)) =
    validated_execution_support v;
  accepted_direct : direct sel -> Z.land (validated_execution_support v) RIBON_IMAGE_EXECUTION_DIRECT_ENTRY <> 0;
  accepted_managed :
    protocol_terminal_execution (sel_protocol sel) = RIBON_TERMINAL_EXECUTION_FIRMWARE_MANAGED_IMAGE ->
    Z.land (validated_execution_support v) RIBON_IMAGE_EXECUTION_FIRMWARE_MANAGED <> 0 /\
    validated_machine v = arch_value sel arch_pe_coff_machine 0;
}.

Lemma analyze_spec i s :
  let payload := mkPayload (take (Z.to_nat (input_source_size i)) <$> input_payload_buffer (tx_input (boot_tx s)))
    (input_source_size i) (input_source_name i) in
  wp (boot_analyze_image P sel i) s
    (fun _ s' => exists v layout, accepted i payload v layout /\
       boot_tx s' = set_input (set_input_direct_load_plan layout
         (set_input_validated_image (Some v) (tx_input (boot_tx s)))) (set_payload payload (boot_tx s)) /\
       boot_log s' = boot_log s)
    (fun _ => broken 0 s).
Proof.
  intros payload. unfold boot_analyze_image. fold payload.
  assert (Hfail : forall A stage reason id st (Q : A -> Boot W -> Prop) w t,
    tx_selection t = tx_selection (boot_tx s) ->
    wp (boot_fail stage reason id st) (mkBoot w t (boot_log s)) Q (fun _ => broken 0 s)).
  { intros. rewrite wp_fail. split; [done|]. split; [done|]. apply (progress_refl s). }
  destruct s as [w0 t0 l0]. cbn [boot_tx boot_log boot_world] in *.
  do 4 wp_step. cbn [boot_tx boot_log boot_world] in *. fold payload.
  destruct (format_analyze _) as [analyze|] eqn:Ea; [|by apply Hfail].
  destruct (analyze _ _ _) as [[status validated] plan] eqn:En. wp_step. wp_step.
  cbn [boot_tx boot_log boot_world].
  destruct status; try by apply Hfail. destruct validated as [v|]; [|by apply Hfail].
  wp_step; [by apply Hfail|]. rewrite !orb_false_iff, !negb_false_iff, !Z.eqb_eq in G.
  destruct G as (((Hv & Hf) & Hs) & Hx). rewrite wp_bind.
  assert (Hend : forall layout,
    (direct sel -> Z.land (validated_execution_support v) RIBON_IMAGE_EXECUTION_DIRECT_ENTRY <> 0 /\
       exists p q validate, plan = Some p /\ boot_apply_relocatable_placement P sel p = (BOOT_OK, q) /\
       archops_validate_direct_load (sel_arch sel) = Some validate /\
       validate (descriptor_of sel) (Some v) (Some q) = (ARCH_OK, layout)) ->
    (~ direct sel -> layout = plan) ->
    wp (if (protocol_terminal_execution (sel_protocol sel) =? RIBON_TERMINAL_EXECUTION_FIRMWARE_MANAGED_IMAGE) &&
           ((Z.land (validated_execution_support v) RIBON_IMAGE_EXECUTION_FIRMWARE_MANAGED =? 0) ||
            (validated_machine v !=? arch_value sel arch_pe_coff_machine 0))
        then boot_fail STAGE_LOAD_IMAGE FAILURE_IMAGE
          (Some (ribon_executable_format_name (format_format (sel_image_format sel)))) BOOT_INVALID_PAYLOAD
        else mret tt)
      (mkBoot w0 (set_input (set_input_direct_load_plan layout (set_input_validated_image (Some v) (tx_input t0)))
         (set_payload payload t0)) l0)
      (fun (_ : unit) s' => exists v layout, accepted i payload v layout /\
         boot_tx s' = set_input (set_input_direct_load_plan layout
           (set_input_validated_image (Some v) (tx_input t0))) (set_payload payload t0) /\ boot_log s' = l0)
      (fun _ => broken 0 (mkBoot w0 t0 l0))).
  { intros layout Hd Hn. wp_step; [by apply Hfail|]. wp_step. exists v, layout. split; [|done].
    constructor; try done.
    - exists analyze, plan. split; [done|]. split; [done|]. split; [apply Hd|done].
    - apply Hd.
    - intros Hm. rewrite Hm in G. cbn in G. rewrite orb_false_iff, Z.eqb_neq, negb_false_iff, Z.eqb_eq in G. done. }
  wp_step; [|wp_step; apply Hend; unfold direct; [intros ?; lia|done]].
  assert (Hd : direct sel) by (unfold direct; lia).
  wp_step; [by apply Hfail|]. destruct plan as [p|]; [|by apply Hfail].
  destruct (archops_validate_direct_load _) as [validate|] eqn:Ev; [|by apply Hfail].
  destruct (boot_apply_relocatable_placement P sel p) as [placed q] eqn:Ep. wp_step. wp_step.
  destruct placed; try by apply Hfail.
  destruct (validate _ _ _) as [checked layout] eqn:Ec. wp_step. wp_step. destruct checked; try by apply Hfail.
  wp_step. apply Hend; [|done]. intros _. split; [lia|]. by exists p, q, validate.
Qed.

(** The components of the attempt against their budget. *)
Definition within_components (modules : Z) (layout : option RibonDirectLoadPlan) : Prop :=
  forall p, layout = Some p -> plan_segment_count p <= max_load_segments (limits_of sel) /\
    plan_segment_count p + modules <= max_components (limits_of sel).

Lemma account_spec s :
  let t := boot_tx s in
  let modules := modules_module_count (environment_boot_modules (tx_environment t)) in
  let layout := input_direct_load_plan (tx_input t) in
  wp (boot_account_components sel) s
    (fun _ s' => within_components modules layout /\
       boot_tx s' = set_validated_image (default empty_validated (input_validated_image (tx_input t)))
         (set_consumed_components
            (u32 (match layout with Some p => plan_segment_count p | None => 1 end + modules)) t) /\
       boot_log s' = boot_log s)
    (fun _ => broken 0 s).
Proof.
  intros t modules layout. unfold boot_account_components, within_components. wp_step. wp_step. rewrite wp_bind.
  fold t. fold modules. fold layout. destruct layout as [p|] eqn:El.
  - wp_step; [wp_step; split; [done|]; split; [done|]; apply (progress_refl s)|]. wp_step. wp_step.
    split; [|done]. intros p' [= <-]. bool_to_prop. lia.
  - wp_step. wp_step. done.
Qed.

(** What the checks of the arguments leave to be relied on. *)
Record complete (i : RibonBootTransactionInput) : Prop := {
  complete_buffer : exists b, input_payload_buffer i = Some b;
  complete_room : input_source_size i <= input_payload_buffer_capacity i;
  complete_source : exists source, input_source i = Some source;
  complete_image : exists v, input_validated_image i = Some v;
  complete_layout : direct sel -> exists p, input_direct_load_plan i = Some p;
}.

(** The image of an attempt, as prepared from [i]. *)
Record loaded (i : RibonBootTransactionInput) t : Prop := {
  loaded_complete : complete i;
  loaded_source : input_source i = Some (tx_source t) /\
    input_source_offset i + input_source_size i <= boot_source_size (tx_source t);
  loaded_size : input_source_size i <= max_input_bytes (limits_of sel) /\
    input_source_size i <= service_input_budget (sel_boot_source sel);
  loaded_payload : exists b, len b = len (default [] (input_payload_buffer i)) /\ octets b /\
    tx_payload t = mkPayload (Some (take (Z.to_nat (input_source_size i)) b)) (input_source_size i)
                     (input_source_name i);
  loaded_accepted : accepted i (tx_payload t) (tx_validated_image t) (input_direct_load_plan (tx_input t));
  loaded_components : exists e, input_environment i = Some e /\ admitted e /\
    within_components (modules_module_count (environment_boot_modules e)) (input_direct_load_plan (tx_input t));
  loaded_retries : 0 <= tx_consumed_retries t <= max_retries (limits_of sel);
  loaded_input_bytes : tx_consumed_input_bytes t = u64 (input_source_size i);
}.

(** A transaction nothing was done with. *)
Definition fresh t : Prop :=
  tx_selection t = Some sel /\ tx_stage t = STAGE_CAPTURE /\ tx_consumed_retries t = 0 /\ tx_consumed_input_bytes t = 0.

Definition input_typed (i : RibonBootTransactionInput) : Prop :=
  (forall b, input_payload_buffer i = Some b -> octets b /\ len b = input_payload_buffer_capacity i) /\
  (forall p, input_direct_load_plan i = Some p -> storage_typed p) /\ word 64 (input_source_size i).

(** The image, the load plan and what reading them cost. *)
Record same_image t0 t : Prop := {
  same_source : tx_source t = tx_source t0;
  same_payload : tx_payload t = tx_payload t0;
  same_validated : tx_validated_image t = tx_validated_image t0;
  same_layout : input_direct_load_plan (tx_input t) = input_direct_load_plan (tx_input t0);
  same_input_bytes : tx_consumed_input_bytes t = tx_consumed_input_bytes t0;
  same_retries : tx_consumed_retries t = tx_consumed_retries t0;
}.

Lemma kept_same t0 t : kept t0 t -> same_image t0 t.
Proof. by intros []; constructor. Qed.

Lemma loaded_same i t0 t : same_image t0 t -> loaded i t0 -> loaded i t.
Proof.
  intros [] []. rewrite <- same_source0, <- same_payload0, <- same_validated0, <- same_layout0, <- same_input_bytes0,
    <- same_retries0 in *. by constructor.
Qed.

Lemma prepare_arguments t i : prepare_arguments_ok sel t i = true -> complete i.
Proof.
  unfold prepare_arguments_ok, is_null. rewrite negb_true_iff, !orb_false_iff. intros H. destruct_and! H.
  constructor; [by destruct (input_payload_buffer i); eauto|bool_to_prop; lia|by destruct (input_source i); eauto|
    by destruct (input_validated_image i); eauto|].
  unfold direct. intros E. rewrite E in *. cbn in *. destruct (input_direct_load_plan i); [eauto|done].
Qed.

(** Reading, analysing and accounting. *)
Definition image_step (i : RibonBootTransactionInput) : M (Boot W) RibonBootStatus unit :=
  boot_read_image P sel i ≫= fun _ => boot_analyze_image P sel i ≫= fun _ => boot_account_components sel.

Lemma image_spec i s e :
  input_typed i -> 0 <= max_retries (limits_of sel) ->
  input_payload_buffer (tx_input (boot_tx s)) = input_payload_buffer i ->
  complete i ->
  tx_consumed_retries (boot_tx s) = 0 -> tx_consumed_input_bytes (boot_tx s) = 0 ->
  input_environment i = Some e -> admitted e -> tx_environment (boot_tx s) = e ->
  input_source i = Some (tx_source (boot_tx s)) ->
  input_source_offset i + input_source_size i <= boot_source_size (tx_source (boot_tx s)) ->
  input_source_size i <= max_input_bytes (limits_of sel) ->
  input_source_size i <= service_input_budget (sel_boot_source sel) ->
  wp (image_step i) s
    (fun _ s' => tx_selection (boot_tx s') = tx_selection (boot_tx s) /\ loaded i (boot_tx s') /\
       progress (max_retries (limits_of sel) + 1) s s')
    (fun _ => broken (max_retries (limits_of sel) + 1) s).
Proof.
  intros [Hbuf _] Hmax Hb Hi Hr0 Hc0 Ee He Hte Hsrc Hoff Hmi Hib. unfold image_step.
  destruct (complete_buffer _ Hi) as [buffer Eb]. destruct (Hbuf buffer Eb) as [Ho _]. rewrite Eb in Hb. rewrite wp_bind.
  eapply wp_mono; [by apply (read_image_spec i s buffer)| |done].
  intros _ s1 (b & r & Hl & Hob & Hr & T1 & L1). rewrite wp_bind.
  eapply wp_mono; [apply analyze_spec|..].
  2:{ intros ? s2 Hx. rewrite <- (Z.add_0_r (max_retries _ + 1)). eapply broken_trans; [|exact L1|exact Hx]. by rewrite T1. }
  intros _ s2 (v & layout & Hacc & T2 & L2). eapply wp_mono; [apply account_spec|..].
  2:{ intros _ s3 (H1 & H2 & H3). split; [done|]. split; [by rewrite H2, T2, T1|].
      rewrite <- (Z.add_0_r (max_retries _ + 1)). eapply progress_trans; [exact L1|].
      unfold progress, since in *. by rewrite L2 in H3. }
  intros _ s3 (Hcomp & T3 & L3). rewrite T1 in T2, Hacc. cbn in Hacc. rewrite T2 in T3, Hcomp. cbn in Hcomp.
  rewrite T3. split; [done|]. split; [|unfold progress, since in *; by rewrite L3, L2].
  constructor; cbn; try done.
  - exists b. by rewrite Eb.
  - exists e. by rewrite Hte in Hcomp.
  - by rewrite Hc0.
Qed.

Lemma wp_image_step {A} i (g : unit -> M (Boot W) RibonBootStatus A) s Q F :
  wp (boot_read_image P sel i ≫= fun _ => boot_analyze_image P sel i ≫= fun _ =>
      boot_account_components sel ≫= g) s Q F = wp (image_step i ≫= g) s Q F.
Proof.
  unfold wp, image_step, mbind, M_bind. destruct (boot_read_image P sel i s) as [s1 [|]]; [done|].
  destruct (boot_analyze_image P sel i s1) as [s2 [|]]; [done|].
  by destruct (boot_account_components sel s2) as [s3 [|]].
Qed.

Lemma prepare_spec i s :
  fresh (boot_tx s) -> input_typed i -> 0 <= max_retries (limits_of sel) ->
  wp (ribon_boot_transaction_prepare P (Some i)) s
    (fun _ s' => tx_selection (boot_tx s') = Some sel /\ tx_stage (boot_tx s') = STAGE_PREPARE_PROTOCOL /\
       loaded i (boot_tx s') /\ planned sel (boot_tx s') /\ progress (max_retries (limits_of sel) + 1) s s')
    (fun _ => broken (max_retries (limits_of sel) + 1) s).
Proof.
  intros (Hsel & Hst & Hr & Hc) Hty Hmax. unfold ribon_boot_transaction_prepare.
  set (n := max_retries (limits_of sel)) in *.
  assert (Hfail : forall A stage reason id st (Q : A -> Boot W -> Prop) w t,
    tx_selection t = tx_selection (boot_tx s) ->
    wp (boot_fail stage reason id st) (mkBoot w t (boot_log s)) Q (fun _ => broken (n + 1) s)).
  { intros. rewrite wp_fail. split; [done|]. split; [done|]. eapply progress_le, (progress_refl s). lia. }
  wp_step. wp_step. rewrite Hsel. destruct s as [w0 t0 l0]. cbn [boot_tx boot_log boot_world] in *.
  wp_step; [by apply Hfail|]. apply negb_false_iff, prepare_arguments in G. rename G into Hi. destruct (complete_source _ Hi) as [source Hs].
  wp_step. wp_step. rewrite wp_bind. cbn [boot_tx boot_log boot_world].
  assert (Hvalid : forall (Q : unit -> Boot W -> Prop) t, tx_selection t = tx_selection t0 ->
    Q tt (mkBoot w0 t l0) ->
    wp (match ribon_core_context_validate (Some (sel_core sel)), context_mode (sel_core sel) with
        | Some RIBON_CORE_STATUS_OK, Some mode =>
          if Z.land (protocol_supported_modes (sel_protocol sel)) (RIBON_MODE_MASK (mode_mode mode)) =? 0
          then boot_fail STAGE_VALIDATE_PRODUCT FAILURE_PRODUCT None BOOT_UNSUPPORTED else mret tt
        | _, _ => boot_fail STAGE_VALIDATE_PRODUCT FAILURE_PRODUCT None BOOT_UNSUPPORTED
        end) (mkBoot w0 t l0) Q (fun _ => broken (n + 1) (mkBoot w0 t0 l0))).
  { intros Q t Ht HQ. destruct (ribon_core_context_validate _) as [[]|]; try by apply Hfail.
    destruct (context_mode _); [|by apply Hfail]. wp_step; [by apply Hfail|done]. }
  apply Hvalid; [done|]. wp_step. wp_step. rewrite wp_bind. cbn [boot_tx boot_log boot_world].
  eapply wp_mono; [apply normalize_spec|..].
  2:{ intros ? s1 (? & ? & ?). split; [done|]. split; [done|]. eapply progress_le; [|done]. lia. }
  intros _ s1 (e & m & Ee & He & _ & T1 & L1). cbn in T1, L1. destruct s1 as [w1 t1 l1]. cbn in T1, L1. subst t1 l1.
  wp_step. wp_step. wp_step. wp_step; [by apply Hfail|]. rewrite Hs in G. cbn in G. bool_to_prop.
  wp_step. wp_step. wp_step. wp_step. wp_step; [by apply Hfail|]. wp_step. wp_step. wp_step.
  rewrite Hs. cbn [boot_tx boot_log boot_world default from_option id]. rewrite wp_image_step, wp_bind.
  eapply wp_mono; [apply (image_spec i _ e); cbn; try done; lia|..].
  2:{ intros ? s2 (? & ? & ?). by split. }
  intros _ s2 (Hsel2 & Hload & L2). cbn in Hsel2. eapply wp_mono; [apply protocol_planned|..].
  2:{ intros ? s3 (? & Hx & Hy). split; [done|]. split; [by rewrite Hx, Hsel2|]. rewrite <- (Z.add_0_r (n + 1)).
      eapply progress_trans; [exact L2|by apply progress_quiet]. }
  intros _ s3 (K3 & L3 & Hst3 & Hp3). split; [by rewrite (kept_selection _ _ K3), Hsel2|]. split; [done|].
  split; [by eapply loaded_same; [apply kept_same|]|]. split; [done|]. rewrite <- (Z.add_0_r (n + 1)).
  eapply progress_trans; [exact L2|by apply progress_quiet].
Qed.

(** *** The load plan of a direct entry *)

Hypothesis typed_placement : forall service placement,
  placement_operations P service = Some placement -> 0 <= placement_physical_base placement.

Lemma loaded_payload_typed i t : input_typed i -> loaded i t -> payload_typed (tx_payload t).
Proof.
  intros (Hbuf & _ & Hw) Hl. destruct (loaded_complete _ _ Hl) as [[buffer Eb] Hroom _ _ _].
  destruct (Hbuf _ Eb) as [_ Hlen]. destruct (loaded_payload _ _ Hl) as (b & Hb & Ho & ->).
  rewrite Eb in Hb. cbn in Hb. rewrite word64 in Hw. split; [|split; [by apply Forall_take|by rewrite word64]].
  intros d [= <-]. unfold len in *. cbn. rewrite length_take_le; lia.
Qed.

(** The plan of a direct entry, from what the format and the architecture promise. *)
Lemma loaded_safe `{!DirectFormat (sel_image_format sel)} i t :
  archops_validate_direct_load (sel_arch sel) = Some ribon_arch_validate_direct_load ->
  direct sel -> input_typed i -> loaded i t ->
  exists analyzed p, input_direct_load_plan (tx_input t) = Some p /\
    load_plan_safe (payload_size (tx_payload t)) p /\ plan_segment_count p <= max_load_segments (limits_of sel) /\
    (Z.land (plan_load_plan_flags analyzed) RIBON_LOAD_PLAN_RELOCATABLE <> 0 ->
     exists service placement,
       boot_service_authority (context_services (sel_core sel)) RIBON_SERVICE_KIND_PAYLOAD_PLACEMENT = Some service /\
       placement_operations P service = Some placement /\ placed_in placement analyzed p).
Proof.
  intros Harch Hd Hty Hl. pose proof (loaded_payload_typed i t Hty Hl) as Hp. destruct Hty as (_ & Hstore & _).
  destruct (loaded_complete _ _ Hl) as [_ _ _ [v0 Ev] Hlay]. destruct (Hlay Hd) as [p0 Ep0]. specialize (Hstore _ Ep0).
  destruct (accepted_analysis _ _ _ _ (loaded_accepted _ _ Hl)) as (analyze & analyzed & Ea & En & Hdir & _).
  rewrite Ev, Ep0 in En. destruct (direct_format _ _ _ _ _ _ Ea Hp Hstore En) as (v & p & _ & -> & Hs & [Hlen _] & Hc & _).
  destruct (Hdir Hd) as (p' & q & validate & [= <-] & Eq & Ev' & Ec). rewrite Harch in Ev'. injection Ev' as <-.
  apply arch_checked in Ec as [c Ec].
  destruct (placement_sound P sel typed_placement (payload_size (tx_payload t)) p q) as [Hq Hcase]; [|done|done|].
  { rewrite <- Hlen in Hc. unfold len in Hc. lia. }
  exists p, (checked_plan q c). split; [done|]. split; [by apply checked_plan_safe|].
  destruct (loaded_components _ _ Hl) as (e & _ & _ & Hw). destruct (Hw _ Ec) as [Hm _]. split; [done|].
  intros Hr. destruct Hcase as [[? _]|(service & placement & ? & ? & Hin)]; [done|]. exists service, placement.
  split; [done|]. split; [done|]. destruct Hin as ([] & ? & ?). split; [by constructor|done].
Qed.
End Prepare.
