(* ===== verification/BootLifecycle.v ===== *)
(** * The lifecycle of a boot attempt

    The operations of [src/common/boot.c] called in any order, any number of times,
    with providers of which nothing is assumed but their types.  An invariant by rule
    induction on the calls, and from it what holds when control leaves the boot
    loader: nothing is entered or launched that was not validated, and not before the
    attempt was recorded. *)

From S2P Require Import Prelude.
From S2P Require Import Buffer.
From S2P Require Import Wire.
From S2P Require Import Effects.
From S2P Require Import CString.
From S2P Require Import Memory.
From S2P Require Import Plugin.
From S2P Require Import ServiceDirectory.
From S2P Require Import Context.
From S2P Require Import Protocol.
From S2P Require Import PayloadImage.
From S2P Require Import BootEnvironment.
From S2P Require Import ArchOps.
From S2P Require Import Boot.
From S2P Require Import BootPlacement.
From S2P Require Import BootLogic.
From S2P Require Import BootPrepare.

Section Lifecycle.
Context {W : Type} (P : Providers W) (sel : BootSelection W).
Implicit Types (s : Boot W) (t : RibonBootTransaction W).

(** A call that neither reads the source nor leaves the boot loader. *)
Definition still (e : Event) : Prop :=
  match e with
  | ERead _ _ _ | ELaunch _ | ETransfer _ | EHalt => False
  | _ => True
  end.

(** A call that does not leave the boot loader. *)
Definition staying (e : Event) : Prop :=
  match e with ELaunch _ | ETransfer _ | EHalt => False | _ => True end.

Lemma quiet_still e : quiet e -> still e.
Proof. by destruct e. Qed.

Lemma since_quiet_still s0 s : since quiet s0 s -> since still s0 s.
Proof. apply since_mono, quiet_still. Qed.

Lemma since_still_snoc s w t e : still e -> since still s (mkBoot w t (boot_log s ++ [e])).
Proof. apply since_snoc. Qed.

Create HintDb lifecycle.
#[local] Hint Resolve since_refl since_same since_snoc since_trans since_quiet_still : lifecycle.
#[local] Hint Extern 1 (still _) => exact I : lifecycle.

(** The two calls that record an attempt, between other calls. *)
Definition recorded (record : bytes) (log : list Event) : Prop :=
  exists before d after, log = before ++ [EWrite 0 record 0; EFlush 0 d 0] ++ after /\
    Forall quiet before /\ Forall quiet after.

Lemma commit_spec s : tx_selection (boot_tx s) = Some sel ->
  wp (ribon_boot_transaction_commit_attempt P) s
    (fun _ s' => tx_stage (boot_tx s) = STAGE_PREPARE_PROTOCOL /\
       boot_tx s' = set_stage STAGE_COMMIT_ATTEMPT (boot_tx s) /\
       exists log, boot_log s' = boot_log s ++ log /\ recorded (attempt_record sel (boot_tx s)) log)
    (fun _ => over still s).
Proof.
  intros Hsel. unfold ribon_boot_transaction_commit_attempt. wp_step. wp_step. rewrite Hsel.
  assert (Hfail : forall A stage reason id st (Q : A -> Boot W -> Prop) s',
    boot_tx s' = boot_tx s -> since still s s' -> wp (boot_fail stage reason id st) s' Q (fun _ => over still s)).
  { intros A stage reason id st Q s' T L. rewrite wp_fail. split; [done|]. cbn. rewrite T. auto with lifecycle. }
  wp_step; [apply Hfail; auto with lifecycle|]. apply negb_false_iff, bool_decide_eq_true in G.
  destruct (metadata_operations _ _) as [metadata|]; [|apply Hfail; auto with lifecycle].
  destruct (flush_operations _ _) as [flush|]; [|apply Hfail; auto with lifecycle].
  destruct (metadata_ops_write _) as [write|]; [|apply Hfail; auto with lifecycle].
  destruct (flush_ops_flush _) as [do_flush|]; [|apply Hfail; auto with lifecycle].
  wp_step; [apply Hfail; auto with lifecycle|]. rewrite wp_bind.
  eapply wp_mono; [apply deadline_begin_timed| |done]. intros begun s1 [T1 L1].
  destruct begun as [|d]; [apply Hfail; auto with lifecycle|].
  wp_step. wp_step. rewrite T1. wp_step. wp_step.
  assert (L2 : since still s (mkBoot w (boot_tx s1) (boot_log s1 ++ [EWrite 0 (attempt_record sel (boot_tx s)) a]))).
  { eapply since_trans; eauto with lifecycle. }
  wp_step; [by apply Hfail|]. wp_step. wp_step. cbn [boot_tx boot_log boot_world].
  wp_step; [apply Hfail; [done|]; eapply since_trans; [exact L2|]; by apply since_still_snoc|].
  rewrite wp_bind. eapply wp_mono; [apply deadline_end_timed| |done]. intros ended s2 [T2 L3].
  assert (L4 : since still s s2).
  { eapply since_trans; [exact L2|]. eapply since_trans; [|apply since_quiet_still, L3]. by apply since_still_snoc. }
  destruct ended; [|apply Hfail; [rewrite T2; exact T1|exact L4]..].
  wp_step. cbn in T2. split; [done|]. split; [cbn; by rewrite T2, T1|].
  destruct L1 as (before & E1 & F1), L3 as (after & E3 & F3). bool_to_prop. subst.
  exists (before ++ [EWrite 0 (attempt_record sel (boot_tx s)) 0; EFlush 0 (deadline_absolute_ticks d) 0] ++ after).
  split; [|by exists before, (deadline_absolute_ticks d), after].
  cbn. rewrite E3. cbn. rewrite E1. by rewrite <- !app_assoc.
Qed.

Lemma refresh_spec environment s : tx_selection (boot_tx s) = Some sel ->
  wp (ribon_boot_transaction_refresh_after_commit P environment) s
    (fun _ s' => tx_stage (boot_tx s) = STAGE_COMMIT_ATTEMPT /\ tx_stage (boot_tx s') = STAGE_COMMIT_ATTEMPT /\
       tx_selection (boot_tx s') = Some sel /\ same_image (boot_tx s) (boot_tx s') /\ planned sel (boot_tx s') /\
       since quiet s s')
    (fun _ => over still s).
Proof.
  intros Hsel. unfold ribon_boot_transaction_refresh_after_commit.
  assert (Hfail : forall A stage reason id st (Q : A -> Boot W -> Prop) w t,
    tx_selection t = tx_selection (boot_tx s) ->
    wp (boot_fail stage reason id st) (mkBoot w t (boot_log s)) Q (fun _ => over still s)).
  { intros. rewrite wp_fail. split; [done|]. split; [done|]. exact (since_refl still s). }
  destruct s as [w0 t0 l0]. cbn [boot_tx boot_log boot_world] in *. wp_step. wp_step. cbn [boot_tx]. rewrite Hsel.
  destruct environment as [e|]; [|by apply Hfail]. wp_step; [by apply Hfail|].
  rewrite !orb_false_iff in G. destruct G as [[[G _] _] _]. apply negb_false_iff, bool_decide_eq_true in G.
  destruct (MemoryMap.ribon_memory_map_normalize _ _) as [status normalized]. wp_step. wp_step.
  destruct status; try by apply Hfail. wp_step. wp_step. rewrite wp_bind.
  eapply wp_mono; [apply protocol_planned|..].
  2:{ intros ? s1 (? & ? & L1). split; [done|]. split; [done|]. by apply since_quiet_still. }
  intros _ s1 (K1 & L1 & _ & [H1 H2 H3]). wp_step. destruct K1. cbn in *.
  split; [done|]. split; [done|]. split; [congruence|]. split; [by constructor|]. split; [|exact L1].
  constructor; [by destruct H1; constructor|done|by destruct H3; constructor].
Qed.

Lemma quiesce_spec s : tx_selection (boot_tx s) = Some sel ->
  wp (ribon_boot_transaction_quiesce_environment P) s
    (fun _ s' => tx_stage (boot_tx s) = STAGE_COMMIT_ATTEMPT /\
       terminal_kind (tx_terminal_request (boot_tx s)) = RIBON_TERMINAL_EXECUTION_DIRECT_ENTRY /\
       boot_tx s' = set_stage STAGE_QUIESCE_ENVIRONMENT (boot_tx s) /\ boot_log s' = boot_log s ++ [EQuiesce 0])
    (fun _ => over still s).
Proof.
  intros Hsel. unfold ribon_boot_transaction_quiesce_environment. wp_step. wp_step. rewrite Hsel.
  unfold over. repeat (wp_step || (cbv beta iota)); cbn; auto with lifecycle; bool_to_prop.
  split; [by apply bool_decide_eq_true in G|]. split; [done|]. split; [done|]. by subst.
Qed.

(** The launch request of a transaction. *)
Definition launch_of t (r : RibonTerminalImageLaunchRequest) : Prop :=
  launch_image_data r = payload_data (tx_payload t) /\ launch_image_size r = payload_size (tx_payload t) /\
  launch_validated_image r = tx_validated_image t /\ launch_source r = tx_source t.

Lemma execute_spec s : tx_selection (boot_tx s) = Some sel ->
  wp (ribon_boot_transaction_execute_terminal P) s (fun _ _ => False)
    (fun _ s' => tx_stage (boot_tx s') = STAGE_FAILED /\ tx_selection (boot_tx s') = Some sel /\
       (boot_log s' = boot_log s \/
        tx_stage (boot_tx s) = STAGE_COMMIT_ATTEMPT /\
        terminal_kind (tx_terminal_request (boot_tx s)) = RIBON_TERMINAL_EXECUTION_FIRMWARE_MANAGED_IMAGE /\
        exists r, launch_of (boot_tx s) r /\ boot_log s' = boot_log s ++ [ELaunch r])).
Proof.
  intros Hsel. unfold ribon_boot_transaction_execute_terminal. wp_step. wp_step. rewrite Hsel.
  repeat (wp_step || (cbv beta iota)); cbn; auto; rewrite orb_false_iff, negb_false_iff in G0; destruct G0 as [G0 G5];
    apply bool_decide_eq_true in G0; bool_to_prop;
    (split; [done|]; split; [done|]; right; split; [done|]; split; [done|]); eexists; (split; [|reflexivity]); by split_and!.
Qed.

Lemma transfer_cases s : tx_selection (boot_tx s) = Some sel ->
  let s' := fst (ribon_boot_transaction_transfer s) in
  boot_log s' = boot_log s \/ boot_log s' = boot_log s ++ [EHalt] \/
  tx_stage (boot_tx s) = STAGE_QUIESCE_ENVIRONMENT /\
    terminal_kind (tx_terminal_request (boot_tx s)) = RIBON_TERMINAL_EXECUTION_DIRECT_ENTRY /\
    boot_log s' = boot_log s ++ [ETransfer (tx_prepared_entry (boot_tx s)); EHalt].
Proof.
  intros Hsel. unfold ribon_boot_transaction_transfer, mbind, M_bind, get. cbn. rewrite Hsel.
  match goal with |- context [if ?c then (if _ then _ else _) else _] => destruct c eqn:G end.
  - destruct (archops_halt (sel_arch sel) !=? 0); cbn; auto.
  - cbn. right. right. rewrite !orb_false_iff, negb_false_iff in G. destruct G as [[G1 G2] _].
    apply bool_decide_eq_true in G1. bool_to_prop. split; [done|]. split; [done|]. by rewrite <- app_assoc.
Qed.

(** ** Attempts *)

(** The operations that return. *)
Inductive Call :=
  | Prepare (input : option RibonBootTransactionInput)
  | Commit
  | Refresh (environment : option RibonBootEnvironment)
  | Quiesce
  | Execute.

Definition perform (c : Call) : M (Boot W) RibonBootStatus unit :=
  match c with
  | Prepare input => ribon_boot_transaction_prepare P input
  | Commit => ribon_boot_transaction_commit_attempt P
  | Refresh environment => ribon_boot_transaction_refresh_after_commit P environment
  | Quiesce => ribon_boot_transaction_quiesce_environment P
  | Execute => ribon_boot_transaction_execute_terminal P
  end.

Definition call_typed (c : Call) : Prop :=
  match c with Prepare (Some i) => input_typed i | _ => True end.

(** What a caller can make of a transaction that was just initialised. *)
Inductive attempt : Boot W -> Prop :=
  | attempt_start s : fresh sel (boot_tx s) -> boot_log s = [] -> attempt s
  | attempt_call s c : attempt s -> call_typed c -> attempt (fst (perform c s)).

(** An image and a plan are ready. *)
Definition ready t : Prop := (exists i, input_typed i /\ loaded P sel i t) /\ planned sel t.

(** The attempt that was recorded is the one that is ready. *)
Definition committed t (log : list Event) : Prop :=
  exists before t' d after, log = before ++ [EWrite 0 (attempt_record sel t') 0; EFlush 0 d 0] ++ after /\
    Forall calm before /\ Forall quiet after /\ ready t' /\ same_image t' t.

(** A managed image was launched. *)
Definition launched (log : list Event) : Prop :=
  exists before t r, log = before ++ [ELaunch r] /\ ready t /\ committed t before /\ launch_of t r /\
    terminal_kind (tx_terminal_request t) = RIBON_TERMINAL_EXECUTION_FIRMWARE_MANAGED_IMAGE.

Definition stage_inv s : Prop :=
  match tx_stage (boot_tx s) with
  | STAGE_CAPTURE => fresh sel (boot_tx s) /\ boot_log s = []
  | STAGE_PREPARE_PROTOCOL => ready (boot_tx s) /\ Forall calm (boot_log s)
  | STAGE_COMMIT_ATTEMPT => ready (boot_tx s) /\ committed (boot_tx s) (boot_log s)
  | STAGE_QUIESCE_ENVIRONMENT => ready (boot_tx s) /\
      terminal_kind (tx_terminal_request (boot_tx s)) = RIBON_TERMINAL_EXECUTION_DIRECT_ENTRY /\
      exists log, boot_log s = log ++ [EQuiesce 0] /\ committed (boot_tx s) log
  | STAGE_FAILED => Forall staying (boot_log s) \/ launched (boot_log s)
  | _ => False
  end.

Record attempt_inv s : Prop := {
  inv_selection : tx_selection (boot_tx s) = Some sel;
  inv_reads : reads (boot_log s) <= max_retries (limits_of sel) + 1;
  inv_stage : stage_inv s;
}.

(** The stage an operation is for. *)
Definition required (c : Call) : RibonBootLifecycleStage :=
  match c with
  | Prepare _ => STAGE_CAPTURE
  | Commit => STAGE_PREPARE_PROTOCOL
  | Refresh _ | Quiesce | Execute => STAGE_COMMIT_ATTEMPT
  end.

(** In any other stage it ends the attempt, and reaches no provider. *)
Definition refused s s' : Prop :=
  tx_stage (boot_tx s') = STAGE_FAILED /\ tx_selection (boot_tx s') = tx_selection (boot_tx s) /\
  boot_log s' = boot_log s.

Lemma perform_refused c s : tx_selection (boot_tx s) = Some sel -> tx_stage (boot_tx s) <> required c ->
  wp (perform c) s (fun _ _ => False) (fun _ => refused s).
Proof.
  intros Hsel Hst. unfold refused.
  destruct c as [[i|]| |[e|]| |]; cbn [perform required] in *;
    unfold ribon_boot_transaction_prepare, ribon_boot_transaction_commit_attempt,
      ribon_boot_transaction_refresh_after_commit, ribon_boot_transaction_quiesce_environment,
      ribon_boot_transaction_execute_terminal, prepare_arguments_ok;
    wp_step; wp_step; rewrite Hsel; try (by rewrite wp_fail).
  1: rewrite (bool_decide_eq_false_2 _ Hst), !negb_involutive, !orb_true_r; cbn [negb orb]; by rewrite wp_fail.
  1-3: rewrite (bool_decide_eq_false_2 _ Hst); cbn [negb orb]; by rewrite wp_fail.
  destruct (sel_terminal_launcher sel); [|by rewrite wp_fail].
  rewrite (bool_decide_eq_false_2 _ Hst); cbn [negb orb]; by rewrite wp_fail.
Qed.

(** *** Logs *)

Lemma calm_staying e : calm e -> staying e.
Proof. intros [|(? & ? & ? & ->)]; by destruct e || done. Qed.

Lemma still_reads events : Forall still events -> reads events = 0.
Proof. induction 1 as [|e events He _ IH]; [done|]. by destruct e. Qed.

Lemma committed_staying t log : committed t log -> Forall staying log.
Proof.
  intros (before & t' & d & after & -> & Hb & Ha & _). rewrite !Forall_app. split; [|split].
  - eapply Forall_impl; [exact Hb|apply calm_staying].
  - by repeat constructor.
  - eapply Forall_impl; [exact Ha|]. intros e He. apply calm_staying. by left.
Qed.

(** An attempt that is not over has not left the boot loader. *)
Lemma stage_inv_staying s : stage_inv s -> tx_stage (boot_tx s) <> STAGE_FAILED -> Forall staying (boot_log s).
Proof.
  unfold stage_inv. destruct (tx_stage (boot_tx s)); try done; intros Hi _.
  - destruct Hi as [_ ->]. constructor.
  - destruct Hi as [_ H]. eapply Forall_impl; [exact H|apply calm_staying].
  - destruct Hi as [_ H]. by eapply committed_staying.
  - destruct Hi as (_ & _ & log & -> & H). apply Forall_app.
    split; [by eapply committed_staying|by repeat constructor].
Qed.

(** Whatever was logged may stay when the attempt fails. *)
Lemma stage_inv_log s : stage_inv s -> Forall staying (boot_log s) \/ launched (boot_log s).
Proof.
  intros Hi. destruct (decide (tx_stage (boot_tx s) = STAGE_FAILED)) as [E|E].
  - unfold stage_inv in Hi. by rewrite E in Hi.
  - left. by apply stage_inv_staying.
Qed.

Lemma attempt_inv_failed s s' : attempt_inv s -> tx_stage (boot_tx s') = STAGE_FAILED ->
  tx_selection (boot_tx s') = Some sel -> reads (boot_log s') <= max_retries (limits_of sel) + 1 ->
  (Forall staying (boot_log s') \/ launched (boot_log s')) -> attempt_inv s'.
Proof. intros _ Hst Hsel Hr Hl. constructor; [done..|]. unfold stage_inv. by rewrite Hst. Qed.

Lemma attempt_inv_refused s s' : attempt_inv s -> refused s s' -> attempt_inv s'.
Proof.
  intros Hi (Hst & Hsel & Hl). destruct Hi as [I1 I2 I3]. eapply attempt_inv_failed; [by constructor|done|congruence|..];
    rewrite Hl; [done|by apply stage_inv_log].
Qed.

(** A failure that left the loader nowhere. *)
Lemma attempt_inv_over s s' : attempt_inv s -> Forall staying (boot_log s) -> over still s s' -> attempt_inv s'.
Proof.
  intros Hi Hs (Hst & Hsel & events & Hl & Hev). eapply attempt_inv_failed; [done|done|..].
  - rewrite Hsel. apply Hi.
  - rewrite Hl, reads_app, (still_reads _ Hev). pose proof (inv_reads _ Hi). lia.
  - left. rewrite Hl. apply Forall_app. split; [done|]. eapply Forall_impl; [exact Hev|]. by intros [].
Qed.

Hypothesis typed_source : forall service operations read,
  source_operations P service = Some operations -> source_ops_read operations = Some read -> read_typed read.
Hypothesis typed_retries : 0 <= max_retries (limits_of sel).

Lemma inv_prepare s input : attempt_inv s -> tx_stage (boot_tx s) = STAGE_CAPTURE ->
  call_typed (Prepare input) -> attempt_inv (fst (ribon_boot_transaction_prepare P input s)).
Proof.
  intros Hi Hst Hty. destruct (Hi) as [Hsel _ Hinv]. unfold stage_inv in Hinv. rewrite Hst in Hinv.
  destruct Hinv as [Hfresh Hlog].
  assert (Hp : forall s', progress (max_retries (limits_of sel) + 1) s s' ->
    reads (boot_log s') <= max_retries (limits_of sel) + 1 /\ Forall calm (boot_log s')).
  { intros s' [(events & Hl & Hev) Hr]. rewrite Hlog in *. cbn in Hr, Hl. by subst. }
  destruct input as [i|].
  2:{ eapply attempt_inv_refused; [exact Hi|]. apply wp_fst. unfold ribon_boot_transaction_prepare. wp_step. wp_step.
      rewrite Hsel. by rewrite wp_fail. }
  apply wp_fst. eapply wp_mono; [by apply (prepare_spec P sel typed_source i s)|..].
  - intros _ s' (H1 & H2 & H3 & H4 & H5). destruct (Hp _ H5) as [R C]. constructor; [done..|].
    unfold stage_inv. rewrite H2. split; [|done]. split; [by exists i|done].
  - intros ? s' (H1 & H2 & H3). destruct (Hp _ H3) as [R C]. eapply attempt_inv_failed; [done..|congruence|done|].
    left. eapply Forall_impl; [exact C|apply calm_staying].
Qed.

Lemma planned_stage t v : planned sel t -> planned sel (set_stage v t).
Proof. intros [[] H []]. by constructor; [constructor| |constructor]. Qed.

Lemma ready_stage t v : ready t -> ready (set_stage v t).
Proof.
  intros [(i & Hi & Hl) Hp]. split; [|by apply planned_stage]. exists i. split; [done|].
  by eapply loaded_same; [|exact Hl].
Qed.

Lemma same_image_trans t0 t1 t2 : same_image t0 t1 -> same_image t1 t2 -> same_image t0 t2.
Proof. intros [] []. constructor; congruence. Qed.

Lemma inv_commit s : attempt_inv s -> tx_stage (boot_tx s) = STAGE_PREPARE_PROTOCOL ->
  attempt_inv (fst (ribon_boot_transaction_commit_attempt P s)).
Proof.
  intros Hi Hst. destruct (Hi) as [Hsel Hreads Hinv]. unfold stage_inv in Hinv. rewrite Hst in Hinv.
  destruct Hinv as [Hready Hcalm]. apply wp_fst. eapply wp_mono; [by apply commit_spec|..].
  - intros _ s' (_ & T & log & Hl & before & d & after & -> & Hb & Ha). constructor.
    + by rewrite T.
    + rewrite Hl, !reads_app. rewrite (still_reads before), (still_reads after); [cbn; lia|..];
        eapply Forall_impl; eauto using quiet_still.
    + unfold stage_inv. rewrite T. cbn. split; [by apply ready_stage|].
      exists (boot_log s ++ before), (boot_tx s), d, after. split; [by rewrite Hl, <- app_assoc|].
      split; [apply Forall_app; split; [done|]; eapply Forall_impl; [exact Hb|by left]|].
      split; [done|]. split; [done|]. by constructor.
  - intros ? s' Ho. eapply attempt_inv_over; [exact Hi| |exact Ho]. eapply Forall_impl; [exact Hcalm|apply calm_staying].
Qed.

Lemma inv_refresh s environment : attempt_inv s -> tx_stage (boot_tx s) = STAGE_COMMIT_ATTEMPT ->
  attempt_inv (fst (ribon_boot_transaction_refresh_after_commit P environment s)).
Proof.
  intros Hi Hst. destruct (Hi) as [Hsel Hreads Hinv]. unfold stage_inv in Hinv. rewrite Hst in Hinv.
  destruct Hinv as [[(i & Hty & Hl) _] Hc]. apply wp_fst. eapply wp_mono; [by apply refresh_spec|..].
  - intros _ s' (_ & H2 & H3 & H4 & H5 & events & Hlog & Hev). constructor; [done|..].
    + rewrite Hlog, reads_app, (still_reads events); [lia|]. eapply Forall_impl; eauto using quiet_still.
    + unfold stage_inv. rewrite H2. split; [split; [|done]; exists i; split; [done|by eapply loaded_same]|].
      destruct Hc as (before & t' & d & after & E & Hb & Ha & Hr & Hs). exists before, t', d, (after ++ events).
      split; [by rewrite Hlog, E, <- !app_assoc|]. split; [done|]. split; [by apply Forall_app|]. split; [done|].
      by eapply same_image_trans.
  - intros ? s' Ho. eapply attempt_inv_over; [exact Hi|by eapply committed_staying|exact Ho].
Qed.

Lemma committed_stage t v log : committed t log -> committed (set_stage v t) log.
Proof.
  intros (before & t' & d & after & E & Hb & Ha & Hr & []). exists before, t', d, after. do 4 (split; [done|]).
  by constructor.
Qed.

Lemma inv_quiesce s : attempt_inv s -> tx_stage (boot_tx s) = STAGE_COMMIT_ATTEMPT ->
  attempt_inv (fst (ribon_boot_transaction_quiesce_environment P s)).
Proof.
  intros Hi Hst. destruct (Hi) as [Hsel Hreads Hinv]. unfold stage_inv in Hinv. rewrite Hst in Hinv.
  destruct Hinv as [Hready Hc]. apply wp_fst. eapply wp_mono; [by apply quiesce_spec|..].
  - intros _ s' (_ & H2 & T & Hlog). constructor; [by rewrite T|rewrite Hlog, reads_app; cbn; lia|].
    unfold stage_inv. rewrite T. cbn. split; [by apply ready_stage|]. split; [done|]. exists (boot_log s).
    split; [done|by apply committed_stage].
  - intros ? s' Ho. eapply attempt_inv_over; [exact Hi|by eapply committed_staying|exact Ho].
Qed.

Lemma inv_execute s : attempt_inv s -> tx_stage (boot_tx s) = STAGE_COMMIT_ATTEMPT ->
  attempt_inv (fst (ribon_boot_transaction_execute_terminal P s)).
Proof.
  intros Hi Hst. destruct (Hi) as [Hsel Hreads Hinv]. unfold stage_inv in Hinv. rewrite Hst in Hinv.
  destruct Hinv as [Hready Hc]. apply wp_fst. eapply wp_mono; [by apply execute_spec|done|].
  intros ? s' (H1 & H2 & [Hl|(_ & Hk & r & Hr & Hl)]); (eapply attempt_inv_failed; [exact Hi|done|done|..]); rewrite Hl.
  - done.
  - left. by eapply committed_staying.
  - rewrite reads_app. cbn. lia.
  - right. by exists (boot_log s), (boot_tx s), r.
Qed.

Lemma attempt_invariant s : attempt s -> attempt_inv s.
Proof.
  induction 1 as [s Hf Hl|s c _ IH Hty].
  - constructor; [apply Hf|rewrite Hl; cbn; lia|]. unfold stage_inv. destruct (Hf) as (_ & -> & _). done.
  - destruct (decide (tx_stage (boot_tx s) = required c)) as [E|E].
    2:{ eapply attempt_inv_refused; [exact IH|]. apply wp_fst.
        eapply wp_mono; [apply perform_refused; [apply IH|done]|done|done]. }
    destruct c; cbn [perform required] in *;
      [by apply inv_prepare|by apply inv_commit|by apply inv_refresh|by apply inv_quiesce|by apply inv_execute].
Qed.
End Lifecycle.
