(* ===== verification/BootSafety.v ===== *)
(** * What a boot attempt guarantees

    The claims about [src/common/boot.c]: what holds of the log and of the transaction
    when the kernel is entered, when a managed image is launched, and after a failure,
    whatever the order of the calls. *)

From S2P Require Import Prelude.
From S2P Require Import Buffer.
From S2P Require Import Wire.
From S2P Require Import Effects.
From S2P Require Import CString.
From S2P Require Import Memory.
From S2P Require Import Plugin.
From S2P Require Import Registry.
From S2P Require Import ServiceDirectory.
From S2P Require Import Context.
From S2P Require Import Protocol.
From S2P Require Import PayloadImage.
From S2P Require Import BootEnvironment.
From S2P Require Import ArchOps.
From S2P Require Import Boot.
From S2P Require Import BootPlacement.
From S2P Require Import BootLogic.
From S2P Require Import BootPrepare.
From S2P Require Import BootLifecycle.

(** ** The attempt record *)

Lemma boot_write_u64_le b o v : 0 <= o -> boot_write_u64 b o v = store b o (le_bytes 8 v).
Proof.
  intros Ho. unfold boot_write_u64. change (upto 8) with [0; 1; 2; 3; 4; 5; 6; 7]. cbn [fold_left].
  change (0 * 8) with 0. rewrite Z.add_0_r, Z.shiftr_0_r. unfold store_u8 at 1.
  replace (o + 7) with (o + 6 + 1) by lia. rewrite store_u8_cons by lia.
  replace (o + 6) with (o + 5 + 1) by lia. rewrite store_u8_cons by lia.
  replace (o + 5) with (o + 4 + 1) by lia. rewrite store_u8_cons by lia.
  replace (o + 4) with (o + 3 + 1) by lia. rewrite store_u8_cons by lia.
  replace (o + 3) with (o + 2 + 1) by lia. rewrite store_u8_cons by lia.
  replace (o + 2) with (o + 1 + 1) by lia. rewrite !store_u8_cons by lia.
  unfold le_bytes. rewrite !Z.shiftr_shiftr by lia. done.
Qed.

Section AttemptRecord.
Context {W : Type} (sel : BootSelection W).

(** The two entry addresses as they are read back from the record. *)
Lemma attempt_record_entry t :
  bp_kernel_direct_load_plan (tx_plan t) <> None ->
  word 64 (kernel_entry_load_address (bp_kernel (tx_plan t))) ->
  word 64 (kernel_runtime_entry_address (bp_kernel (tx_plan t))) ->
  load_u64 (attempt_record sel t) 24 = kernel_entry_load_address (bp_kernel (tx_plan t)) /\
  load_u64 (attempt_record sel t) 32 = kernel_runtime_entry_address (bp_kernel (tx_plan t)).
Proof.
  intros Hp H1 H2. unfold attempt_record. destruct (bp_kernel_direct_load_plan (tx_plan t)); [|done]. cbn [is_null negb].
  rewrite !boot_write_u64_le by lia.
  set (b := store (store _ 8 _) 16 _).
  assert (Hb : octets b /\ len b = 40).
  { unfold b, store_u8. split; [|by rewrite !len_store].
    repeat apply octets_store; try apply octets_le_bytes; repeat constructor; unfold word; cbn; try lia; apply wrap_word; lia. }
  destruct Hb as [Ho Hl]. clearbody b.
  assert (Hv : forall v, word 64 v -> le_value (le_bytes 8 v) = v).
  { intros v Hv. rewrite le_value_bytes. apply Z.mod_small. exact Hv. }
  split; rewrite load_u64_le; rewrite ?len_store; try lia;
    try (by auto using octets_store, octets_le_bytes).
  - rewrite slice_store_before by (rewrite ?len_store; lia).
    rewrite slice_store_same by (rewrite ?len_le_bytes; lia). by apply Hv.
  - rewrite slice_store_same by (rewrite ?len_store, ?len_le_bytes; lia). by apply Hv.
Qed.
End AttemptRecord.

Section Safety.
Context {W : Type} (P : Providers W) (sel : BootSelection W).
Implicit Types (s : Boot W) (t : RibonBootTransaction W).

(** The providers keep to the types of the C interface. *)
Hypothesis typed_source : forall service operations read,
  source_operations P service = Some operations -> source_ops_read operations = Some read -> read_typed read.
Hypothesis typed_placement : forall service placement,
  placement_operations P service = Some placement -> 0 <= placement_physical_base placement.
Hypothesis typed_retries : 0 <= max_retries (limits_of sel).

(** The log of an attempt that entered the kernel: the record was written and flushed
    once, after everything was read and before the environment was quiesced. *)
Definition entered_log (record : bytes) (e : RibonPreparedEntry) (log : list Event) : Prop :=
  exists before d after,
    log = before ++ [EWrite 0 record 0; EFlush 0 d 0] ++ after ++ [EQuiesce 0; ETransfer e; EHalt] /\
    Forall calm before /\ Forall quiet after.

Lemma staying_no_transfer log e : Forall staying log -> ETransfer e ∉ log.
Proof. intros H Hin. rewrite Forall_forall in H. by apply H in Hin. Qed.

Lemma attempt_no_transfer s e : attempt_inv P sel s -> ETransfer e ∉ boot_log s.
Proof.
  intros Hi. destruct (stage_inv_log P sel s (inv_stage _ _ _ Hi)) as [H|H]; [by apply staying_no_transfer|].
  destruct H as (before & t & r & -> & _ & Hc & _). rewrite elem_of_app, list_elem_of_singleton.
  intros [H|[=]]. by eapply staying_no_transfer, H; eapply committed_staying.
Qed.

Lemma transfer_stage s e : attempt_inv P sel s -> ETransfer e ∈ boot_log (fst (ribon_boot_transaction_transfer s)) ->
  tx_stage (boot_tx s) = STAGE_QUIESCE_ENVIRONMENT /\ e = tx_prepared_entry (boot_tx s) /\
  boot_log (fst (ribon_boot_transaction_transfer s)) = boot_log s ++ [ETransfer e; EHalt].
Proof.
  intros Hi He. pose proof (attempt_no_transfer s e Hi) as Hno.
  destruct (transfer_cases sel s (inv_selection _ _ _ Hi)) as [El|[El|(Hst & _ & El)]]; rewrite El in He |- *.
  - done.
  - rewrite elem_of_app, list_elem_of_singleton in He. by destruct He.
  - rewrite elem_of_app, !elem_of_cons, elem_of_nil in He. destruct He as [|[[= ->]|[[=]|[]]]]; [done|]. done.
Qed.

(** C2: The kernel is entered only with what was validated, and only after the attempt
    was recorded.  Whatever calls were made in whatever order, if the transfer enters
    the kernel then the log ends with the quiesced environment and the entry; the
    attempt record was written and flushed exactly once before that, both with status
    OK, and it holds the entry addresses of the load plan that is entered; that plan is
    safe; and the entry is the one the architecture prepared for the protocol's
    request. *)
Theorem boot_transfer_safe `{!DirectFormat (sel_image_format sel)} s e :
  archops_validate_direct_load (sel_arch sel) = Some ribon_arch_validate_direct_load ->
  attempt P sel s -> ETransfer e ∈ boot_log (fst (ribon_boot_transaction_transfer s)) ->
  exists record p, entered_log record e (boot_log (fst (ribon_boot_transaction_transfer s))) /\
    load_u64 record 24 = plan_entry_load_address p /\ load_u64 record 32 = plan_runtime_entry_address p /\
    bp_kernel_direct_load_plan (tx_plan (boot_tx s)) = Some p /\ bp_kernel (tx_plan (boot_tx s)) = kernel_of (Some p) /\
    load_plan_safe (payload_size (tx_payload (boot_tx s))) p /\
    e = tx_prepared_entry (boot_tx s) /\ planned sel (boot_tx s).
Proof.
  intros Harch Hs He. apply attempt_invariant in Hs; [|done..].
  destruct (transfer_stage s e Hs He) as (Hst & -> & El). rewrite El.
  pose proof (inv_stage _ _ _ Hs) as Hi. unfold stage_inv in Hi. rewrite Hst in Hi.
  destruct Hi as ([(i & Hty & Hl) Hp] & Hk & log & Hlog & before & t' & d & after & -> & Hb & Ha & [_ Hp'] & Hsame).
  assert (Hd : direct sel) by (unfold direct; rewrite <- (made_kind _ _ _ (planned_terminal _ _ Hp)); exact Hk).
  destruct (loaded_safe P sel typed_placement i (boot_tx s) Harch Hd Hty Hl) as (a & p & Ep & Hsafe & _).
  exists (attempt_record sel t'), p.
  destruct (planned_plan _ _ Hp') as [M1 M2 _]. rewrite <- (same_layout _ _ Hsame), Ep in M1, M2.
  assert (Hw : word 64 (plan_entry_load_address p)).
  { destruct Hsafe as [Hseg _ Hbnd (k & Hk1 & _ & Hk2) _]. rewrite word64. rewrite Forall_forall in Hseg.
    apply Hseg in Hk1. unfold segment_safe, segment_end in *. lia. }
  destruct (attempt_record_entry sel t') as [R1 R2]; rewrite ?M1, ?M2; [done|done| |].
  { cbn. by rewrite (safe_runtime_entry _ _ Hsafe). }
  rewrite R1, R2, M2. destruct (planned_plan _ _ Hp) as [N1 N2 _]. rewrite Ep in N1, N2.
  split; [|done]. exists before, d, after. split; [|done]. rewrite Hlog. by rewrite <- !app_assoc.
Qed.

Lemma staying_no_launch log r : Forall staying log -> ELaunch r ∉ log.
Proof. intros H Hin. rewrite Forall_forall in H. by apply H in Hin. Qed.

(** What an attempt that is not over logged has no launch in it. *)
Lemma attempt_launched s r : attempt_inv P sel s -> ELaunch r ∈ boot_log s -> launched P sel (boot_log s).
Proof.
  intros Hi Hr. destruct (stage_inv_log P sel s (inv_stage _ _ _ Hi)) as [H|H]; [|done].
  by eapply staying_no_launch in H.
Qed.

(** C8: A managed image is launched at most once, as the last thing an attempt does,
    only for a protocol of that kind, and only after the attempt was recorded and
    flushed.  The bytes handed to the launcher are the ones that the selected analyzer
    accepted, within the input budget, and the image is one the format declares, for
    this machine, that firmware may manage. *)
Theorem boot_launch_safe s r : attempt P sel s -> ELaunch r ∈ boot_log s ->
  exists before record d after name analyze v0 p0 layout,
    boot_log s = before ++ [EWrite 0 record 0; EFlush 0 d 0] ++ after ++ [ELaunch r] /\
    Forall calm before /\ Forall quiet after /\ tx_stage (boot_tx s) = STAGE_FAILED /\
    protocol_terminal_execution (sel_protocol sel) = RIBON_TERMINAL_EXECUTION_FIRMWARE_MANAGED_IMAGE /\
    launch_image_size r <= max_input_bytes (limits_of sel) /\
    format_analyze (sel_image_format sel) = Some analyze /\
    analyze (Some (mkPayload (launch_image_data r) (launch_image_size r) name)) v0 p0 =
      (LOADER_OK, Some (launch_validated_image r), layout) /\
    validated_format (launch_validated_image r) = format_format (sel_image_format sel) /\
    validated_machine (launch_validated_image r) = arch_value sel arch_pe_coff_machine 0 /\
    Z.land (validated_execution_support (launch_validated_image r)) RIBON_IMAGE_EXECUTION_FIRMWARE_MANAGED <> 0.
Proof.
  intros Hs Hr. apply attempt_invariant in Hs; [|done..].
  destruct (attempt_launched s r Hs Hr) as (log & t & r' & El & [(i & Hty & Hl) Hp] & Hc & Hlaunch & Hk).
  assert (r' = r) as ->.
  { rewrite El, elem_of_app, list_elem_of_singleton in Hr. destruct Hr as [Hr|[= ->]]; [|done].
    by eapply staying_no_launch in Hr; [|by eapply committed_staying]. }
  destruct Hc as (before & t' & d & after & -> & Hb & Ha & _ & _).
  assert (Hm : protocol_terminal_execution (sel_protocol sel) = RIBON_TERMINAL_EXECUTION_FIRMWARE_MANAGED_IMAGE).
  { by rewrite <- (made_kind _ _ _ (planned_terminal _ _ Hp)). }
  destruct Hlaunch as (Hda & Hsz & Hv & _). destruct (loaded_accepted _ _ _ _ Hl) as [Han _ Hf _ _ _ Hman].
  destruct (Hman Hm) as [Hsup Hmach]. destruct Han as (analyze & layout & Ea & En & _).
  destruct (loaded_payload _ _ _ _ Hl) as (b & _ & _ & Epay). rewrite Epay in Hda, Hsz, En. cbn in Hda, Hsz.
  exists before, (attempt_record sel t'), d, after, (input_source_name i), analyze, (input_validated_image i),
    (input_direct_load_plan i), layout.
  rewrite Hv, Hda, Hsz. split; [by rewrite El, <- !app_assoc|]. split; [done|]. split; [done|].
  split; [|by destruct (loaded_size _ _ _ _ Hl)].
  destruct (decide (tx_stage (boot_tx s) = STAGE_FAILED)) as [|E]; [done|].
  by eapply staying_no_launch in Hr; [|apply (stage_inv_staying P sel); [apply Hs|done]].
Qed.

(** The stage a call that succeeds ends in. *)
Definition reached (c : Call) : option RibonBootLifecycleStage :=
  match c with
  | Prepare _ => Some STAGE_PREPARE_PROTOCOL
  | Commit | Refresh _ => Some STAGE_COMMIT_ATTEMPT
  | Quiesce => Some STAGE_QUIESCE_ENVIRONMENT
  | Execute => None
  end.

(** The views of a transaction that failed. *)
Lemma failed_facts s' (X : Prop) : tx_stage (boot_tx s') = STAGE_FAILED -> X ->
  tx_stage (boot_tx s') = STAGE_FAILED /\
  ribon_boot_transaction_failure_receipt (Some (boot_tx s')) = Some (tx_receipt (boot_tx s')) /\
  ribon_boot_transaction_plan (Some (boot_tx s')) = None /\ X.
Proof.
  intros H HX. unfold ribon_boot_transaction_failure_receipt, ribon_boot_transaction_plan. by rewrite H.
Qed.

(** C29: The stages are a machine.  A call succeeds only in the stage it is for, and
    then ends in the next one; the launch of a managed image never succeeds.  Every
    other outcome ends in FAILED with a receipt and without a plan; a call in the wrong
    stage reaches no provider at all, and none leads out of FAILED. *)
Theorem boot_stage_machine s c : attempt P sel s -> call_typed c ->
  wp (perform P c) s
    (fun _ s' => tx_stage (boot_tx s) = required c /\ reached c = Some (tx_stage (boot_tx s')) /\
       ribon_boot_transaction_plan (Some (boot_tx s')) = Some (tx_plan (boot_tx s')))
    (fun _ s' => tx_stage (boot_tx s') = STAGE_FAILED /\
       ribon_boot_transaction_failure_receipt (Some (boot_tx s')) = Some (tx_receipt (boot_tx s')) /\
       ribon_boot_transaction_plan (Some (boot_tx s')) = None /\
       (tx_stage (boot_tx s) <> required c -> boot_log s' = boot_log s)).
Proof.
  intros Hs Hty. apply attempt_invariant in Hs; [|done..]. pose proof (inv_selection _ _ _ Hs) as Hsel.
  destruct (decide (tx_stage (boot_tx s) = required c)) as [E|E].
  2:{ eapply wp_mono; [by apply (perform_refused P sel)|done|]. intros ? s' (H1 & H2 & H3).
      by apply failed_facts. }
  assert (HF : forall s', tx_stage (boot_tx s') = STAGE_FAILED ->
    tx_stage (boot_tx s') = STAGE_FAILED /\
      ribon_boot_transaction_failure_receipt (Some (boot_tx s')) = Some (tx_receipt (boot_tx s')) /\
      ribon_boot_transaction_plan (Some (boot_tx s')) = None /\
      (tx_stage (boot_tx s) <> required c -> boot_log s' = boot_log s)).
  { intros s' H. by apply failed_facts. }
  destruct c as [[i|]| |e| |]; cbn [perform required reached] in *.
  - eapply wp_mono; [apply (prepare_spec P sel typed_source); try done|..].
    + pose proof (inv_stage _ _ _ Hs) as Hi. unfold stage_inv in Hi. rewrite E in Hi. apply Hi.
    + intros ? s' (_ & H & _). unfold ribon_boot_transaction_plan. by rewrite H.
    + intros ? s' (H & _). by apply HF.
  - unfold ribon_boot_transaction_prepare. wp_step. wp_step. rewrite Hsel. rewrite wp_fail. by apply HF.
  - eapply wp_mono; [by apply commit_spec|..].
    + intros ? s' (_ & T & _). rewrite T. done.
    + intros ? s' (H & _). by apply HF.
  - eapply wp_mono; [by apply refresh_spec|..].
    + intros ? s' (_ & H & _). unfold ribon_boot_transaction_plan. by rewrite H.
    + intros ? s' (H & _). by apply HF.
  - eapply wp_mono; [by apply (quiesce_spec P sel)|..].
    + intros ? s' (_ & _ & T & _). rewrite T. done.
    + intros ? s' (H & _). by apply HF.
  - eapply wp_mono; [by apply (execute_spec P sel)|done|]. intros ? s' (H & _). by apply HF.
Qed.

Lemma attempt_ready s : attempt_inv P sel s -> ribon_boot_transaction_plan (Some (boot_tx s)) <> None ->
  ready P sel (boot_tx s).
Proof.
  intros Hs Hp. pose proof (inv_stage _ _ _ Hs) as Hi. unfold stage_inv in Hi. unfold ribon_boot_transaction_plan in Hp.
  destruct (tx_stage (boot_tx s)); try done; by destruct Hi.
Qed.

End Safety.

(** ** Initialisation *)

(** The one service of a kind that is an authority. *)
Definition sole_authority (d : RibonServiceDirectory) (kind : Z) (service : RibonServiceDescriptor) : Prop :=
  exists i, 0 <= i < directory_service_count d /\ service_at d i = Some service /\ service_kind service = kind /\
    service_cardinality service = RIBON_SERVICE_CARDINALITY_AUTHORITY /\
    forall j other, 0 <= j < directory_service_count d -> service_at d j = Some other -> service_kind other = kind ->
      service_cardinality other = RIBON_SERVICE_CARDINALITY_AUTHORITY -> j = i.

(** A service that counts. *)
Definition authority_at (d : RibonServiceDirectory) (kind i : Z) (service : RibonServiceDescriptor) : Prop :=
  service_at d i = Some service /\ service_kind service = kind /\
  service_cardinality service = RIBON_SERVICE_CARDINALITY_AUTHORITY.

(** A step either passes over a service that does not count or finds the first that does. *)
Lemma authority_step_cases d kind found i found' : authority_step d kind found i = inr found' ->
  found' = found /\ (forall other, ~ authority_at d kind i other) \/
  found = None /\ exists s, found' = Some s /\ authority_at d kind i s.
Proof.
  unfold authority_step, authority_at. destruct (service_at d i) as [s|]; [|intros [= <-]; left; split; [done|by intros ? [? _]]].
  destruct (_ || _) eqn:G.
  - intros [= <-]. left. split; [done|]. intros other ([= <-] & H2 & H3). by rewrite H2, H3, !Z.eqb_refl in G.
  - destruct found; [done|]. intros [= <-]. bool_to_prop. right. split; [done|]. by exists s.
Qed.

Lemma service_authority_sole d kind service :
  boot_service_authority (Some d) kind = Some service -> sole_authority d kind service.
Proof.
  unfold boot_service_authority. destruct (foldE _ _ _) as [|found] eqn:E; [done|]. intros ->.
  pose (Inv (done : list Z) (found : option RibonServiceDescriptor) :=
    match found with
    | None => forall j other, j ∈ done -> ~ authority_at d kind j other
    | Some s => exists i, i ∈ done /\ authority_at d kind i s /\
        forall j other, j ∈ done -> authority_at d kind j other -> j = i
    end).
  cut (Inv (upto (directory_service_count d)) (Some service)).
  { intros (i & Hi & (H1 & H2 & H3) & Hu). apply elem_of_seqZ in Hi. exists i. split; [lia|]. do 3 (split; [done|]).
    intros j other Hj Ha Hk Hc. apply (Hu j other); [apply elem_of_seqZ; lia|done]. }
  apply (foldE_inv _ Inv _ _ _ E); [by intros j other Hj%elem_of_nil|].
  intros done x rest found found' _ Hinv [[-> Hno]|[-> (s & -> & Hs)]]%authority_step_cases.
  - destruct found as [s|]; cbn in *; setoid_rewrite elem_of_app; setoid_rewrite list_elem_of_singleton.
    + destruct Hinv as (i & Hi & Hm & Hu). exists i. split; [auto|]. split; [done|].
      intros j other [Hj| ->] Hm'; [by eapply Hu|by apply Hno in Hm'].
    + intros j other [Hj| ->]; [by apply Hinv|apply Hno].
  - cbn in *. setoid_rewrite elem_of_app. setoid_rewrite list_elem_of_singleton. exists x. split; [auto|].
    split; [done|]. intros j other [Hj| ->] Hm'; [by apply Hinv in Hm'|done].
Qed.

(** A service every role of the transaction is filled with. *)
Record selected_by (c : RibonCoreContext) {W} (sel : BootSelection W) : Prop := {
  selected_core : sel_core sel = c;
  selected_services : exists d, context_services c = Some d /\
    sole_authority d RIBON_SERVICE_KIND_BOOT_SOURCE (sel_boot_source sel) /\
    sole_authority d RIBON_SERVICE_KIND_MONOTONIC_TIMER (sel_timer sel) /\
    sole_authority d RIBON_SERVICE_KIND_PERSISTENT_METADATA (sel_metadata sel) /\
    sole_authority d RIBON_SERVICE_KIND_STORAGE_FLUSH (sel_flush sel) /\
    (direct sel -> exists q, sel_quiesce sel = Some q /\ sole_authority d RIBON_SERVICE_KIND_ENVIRONMENT_QUIESCE q) /\
    (protocol_terminal_execution (sel_protocol sel) = RIBON_TERMINAL_EXECUTION_FIRMWARE_MANAGED_IMAGE ->
     exists l, sel_terminal_launcher sel = Some l /\ sole_authority d RIBON_SERVICE_KIND_TERMINAL_IMAGE_LAUNCH l);
  selected_format : exists ops, protocol_ops (sel_protocol sel) = Some ops /\
    Z.land (default 0 (protocol_select_image_formats ops)) (RIBON_IMAGE_FORMAT_MASK (format_format (sel_image_format sel))) <> 0;
  selected_support : direct sel ->
    Z.land (format_execution_support (sel_image_format sel)) RIBON_IMAGE_EXECUTION_DIRECT_ENTRY <> 0;
}.

(** Initialising a transaction that succeeds leaves a fresh attempt: the core, the
    architecture, the protocol and the image format are valid and were registered, the
    protocol takes the format and the format supports the protocol's kind of execution,
    and each service is the only authority of its kind in the core's directory. *)
Theorem boot_initialize_selects {W} (out t : RibonBootTransaction W) core arch arch_address protocol protocol_address
    format format_address :
  ribon_boot_transaction_initialize (Some out) core arch arch_address protocol protocol_address format format_address =
    (BOOT_OK, Some t) ->
  exists c registry sel, core = Some c /\ fresh sel t /\ selected_by c sel /\
    ribon_core_context_validate core = Some RIBON_CORE_STATUS_OK /\
    arch = Some (sel_arch sel) /\ ribon_arch_ops_are_valid arch = true /\
    protocol = Some (sel_protocol sel) /\ ribon_boot_protocol_is_valid protocol = true /\
    format = Some (sel_image_format sel) /\ ribon_image_format_ops_are_valid format = true /\
    context_registry c = Some registry /\
    boot_registry_contains_operations registry RIBON_PLUGIN_KIND_ARCHITECTURE arch_address = true /\
    boot_registry_contains_operations registry RIBON_PLUGIN_KIND_BOOT_PROTOCOL protocol_address = true /\
    boot_registry_contains_operations registry RIBON_PLUGIN_KIND_IMAGE_FORMAT format_address = true.
Proof.
  unfold ribon_boot_transaction_initialize. destruct (ribon_core_context_validate core) as [[]|] eqn:Hv; try done.
  destruct core as [c|], arch as [a|], protocol as [p|], format as [f|]; try done.
  match goal with |- (if ?g then _ else _) = _ -> _ => destruct g eqn:G; [done|] end.
  destruct (context_services c) as [d|] eqn:Ed; [|done].
  destruct (boot_service_authority _ RIBON_SERVICE_KIND_BOOT_SOURCE) as [source|] eqn:E1; [|done].
  destruct (boot_service_authority _ RIBON_SERVICE_KIND_MONOTONIC_TIMER) as [timer|] eqn:E2; [|done].
  destruct (boot_service_authority _ RIBON_SERVICE_KIND_PERSISTENT_METADATA) as [metadata|] eqn:E3; [|done].
  destruct (boot_service_authority _ RIBON_SERVICE_KIND_STORAGE_FLUSH) as [flush|] eqn:E4; [|done].
  remember (boot_service_authority (Some d) RIBON_SERVICE_KIND_ENVIRONMENT_QUIESCE) as quiesce eqn:Eq.
  remember (boot_service_authority (Some d) RIBON_SERVICE_KIND_TERMINAL_IMAGE_LAUNCH) as launcher eqn:El.
  match goal with |- (if ?g then _ else _) = _ -> _ => destruct g eqn:Gr; [done|] end.
  intros [= <-]. apply service_authority_sole in E1, E2, E3, E4.
  rewrite !orb_false_iff in G. destruct_and! G.
  destruct (context_registry c) as [registry|] eqn:Er; [|done].
  eexists c, registry, _. split; [done|]. split; [by repeat split|]. split.
  2:{ cbn [sel_arch sel_protocol sel_image_format]. split_and!; try done; by apply negb_false_iff. }
  rewrite orb_false_iff in Gr. destruct Gr as [Gq Gl]. constructor; cbn; [done|..].
  - exists d. split_and!; try done.
    + unfold direct. cbn. intros Hd. rewrite Hd in Gq. cbn in Gq.
      destruct quiesce as [q|]; [|done]. exists q. split; [done|by apply service_authority_sole].
    + intros Hm. rewrite Hm in Gl. cbn in Gl.
      destruct launcher as [l|]; [|done]. exists l. split; [done|by apply service_authority_sole].
  - destruct (protocol_ops p) as [ops|]; [|done]. exists ops. split; [done|]. by apply Z.eqb_neq.
  - unfold direct. cbn. intros Hd. rewrite Hd in *. cbn in *. by apply Z.eqb_neq.
Qed.
