(* ===== verification/BootFixture.v ===== *)
(** * A boot attempt that enters its kernel

    A core with one authority for each role, cooperative providers and the ELF64 image
    of [ImagePlugins.v]: the claims of [BootSafety.v] at work. *)

From S2P Require Import Prelude.
From S2P Require Import Buffer.
From S2P Require Import Wire.
From S2P Require Import Effects.
From S2P Require Import CString.
From S2P Require Import Memory.
From S2P Require Import Plugin.
From S2P Require Import Registry.
From S2P Require Import RegistryProperties.
From S2P Require Import ServiceDirectory.
From S2P Require Import Context.
From S2P Require Import Protocol.
From S2P Require Import PayloadImage.
From S2P Require Import Elf64.
From S2P Require Import PeCoff.
From S2P Require Import ImagePlugins.
From S2P Require Import BootEnvironment.
From S2P Require Import ArchOps.
From S2P Require Import Boot.
From S2P Require Import BootPlacement.
From S2P Require Import BootLogic.
From S2P Require Import BootPrepare.
From S2P Require Import BootLifecycle.
From S2P Require Import BootSafety.

(** ** The machine *)

Definition boot_arch : RibonArchDescriptor :=
  mkArch sizeof_RibonArchDescriptor RIBON_ARCH_OPS_ABI_VERSION RIBON_ARCHITECTURE_X86_64 (Some [120])
    (Some [120]) 64 52 48 62 0x8664 4096 0x200000 4096 4096 4096 1 1.

Definition boot_arch_ops : RibonArchOps unit :=
  mkArchOps sizeof_RibonArchOps RIBON_ARCH_OPS_ABI_VERSION
    (fold_left Z.lor [RIBON_ARCH_CAP_VALIDATE_DIRECT_LOAD; RIBON_ARCH_CAP_HALT; RIBON_ARCH_CAP_ENTRY_BRIDGE] 0)
    (Some boot_arch) (Some ribon_arch_validate_direct_load) 0 0 None None (Some ribon_arch_prepare_entry) 1 1 0 0.

(** ** The core *)

Definition boot_service (id : bytes) (kind size : Z) : RibonServiceDescriptor :=
  mkService RIBON_SERVICE_DESCRIPTOR_MAGIC sizeof_RibonServiceDescriptor RIBON_SERVICE_ABI_VERSION
    kind RIBON_SERVICE_CARDINALITY_AUTHORITY RIBON_SERVICE_LIFETIME_BOOT 0 (Some id) (service_capabilities kind) 1 1 0
    RIBON_MODE_MASK_ALL 1024 4096 512 100 0x1000 size RIBON_SERVICE_ABI_VERSION (Some true).

Definition boot_directory : RibonServiceDirectory :=
  mkDirectory sizeof_RibonServiceDirectory RIBON_SERVICE_DIRECTORY_ABI_VERSION
    (Some [Some (boot_service [97] RIBON_SERVICE_KIND_BOOT_SOURCE 24);
           Some (boot_service [98] RIBON_SERVICE_KIND_MONOTONIC_TIMER 32);
           Some (boot_service [99] RIBON_SERVICE_KIND_PERSISTENT_METADATA 32);
           Some (boot_service [100] RIBON_SERVICE_KIND_STORAGE_FLUSH 24);
           Some (boot_service [101] RIBON_SERVICE_KIND_ENVIRONMENT_QUIESCE 24)]) 5.

Definition boot_product : RibonProductDescriptor :=
  mkProduct RIBON_PRODUCT_DESCRIPTOR_MAGIC sizeof_RibonProductDescriptor RIBON_CORE_ABI_VERSION
    (Some [98; 111; 111; 116]) RIBON_PRODUCT_KIND_BOOTLOADER 1 1 0 RIBON_MODE_MASK_ALL 8
    RIBON_CAP_HANDOFF RIBON_CAP_ALL None 0 None 0 (mode_limits normal_mode).

Definition boot_plugins : list (option RibonPluginDescriptor) :=
  [Some (sample_plugin [97; 114; 99; 104] RIBON_PLUGIN_KIND_ARCHITECTURE 0
           (Z.lor RIBON_CAP_ARCHITECTURE RIBON_CAP_ENTRY_CONTRACT) 0);
   Some (sample_plugin [101; 110; 118] RIBON_PLUGIN_KIND_ENVIRONMENT 0 RIBON_CAP_BOOT_SOURCE_READ 0);
   Some (ribon_elf64_image_plugin_descriptor 0x1000);
   Some (sample_plugin [112; 114; 111; 116; 111] RIBON_PLUGIN_KIND_BOOT_PROTOCOL 0
           (Z.lor RIBON_CAP_HANDOFF RIBON_CAP_BOOT_PROTOCOL) RIBON_CAP_BOOT_SOURCE_READ)].

Definition boot_registry : RibonPluginRegistry :=
  mkRegistry sizeof_RibonPluginRegistry RIBON_CORE_ABI_VERSION (Some boot_plugins) 4.

Definition boot_core : RibonCoreContext :=
  mkContext sizeof_RibonCoreContext RIBON_CORE_ABI_VERSION (Some boot_product) (Some boot_registry)
    (Some boot_directory) (Some normal_mode) (Some sample_arena).

(** A protocol of either kind, for one image format. *)
Definition boot_protocol (execution formats : Z) : RibonBootProtocol :=
  let managed := execution =? RIBON_TERMINAL_EXECUTION_FIRMWARE_MANAGED_IMAGE in
  mkBootProtocol sizeof_RibonBootProtocol 3 (Some [113]) (Some [107]) execution 0 RIBON_MODE_MASK_ALL
    (if managed then None else Some [104]) (if managed then 0 else 1)
    (Some (mkProtocolOps sizeof_RibonBootProtocolOps RIBON_BOOT_PROTOCOL_OPS_ABI_VERSION 1 1 (Some formats)
             (if managed then 0 else 1) 1 (Some (fun _ => RIBON_PROTOCOL_STATUS_OK)))).

(** ** Providers *)

Definition entry_invocation (address : Z) : RibonEntryInvocation :=
  mkEntryInvocation sizeof_RibonEntryInvocation RIBON_ENTRY_INVOCATION_ABI_VERSION address
    RIBON_REGISTER_ABI_X86_64_RDI_RSI_RDX_RCX 1 (0x9000 :: replicate 7 0) RIBON_ENTRY_INTERRUPTS_MASKED
    RIBON_ENTRY_PRIVILEGE_CURRENT_SUPERVISOR RIBON_ENTRY_TRANSLATION_PRESERVE_REACHABLE.

(** A request of the protocol for the plan it is given. *)
Definition boot_request (plan : RibonBootPlan) : RibonTerminalRequest :=
  match bp_kernel_direct_load_plan plan with
  | Some p => mkTerminalRequest sizeof_RibonTerminalRequest RIBON_TERMINAL_REQUEST_ABI_VERSION
      RIBON_TERMINAL_EXECUTION_DIRECT_ENTRY 0 (entry_invocation (plan_entry_load_address p)) (mkManagedImage 0 0 0 0)
  | None => mkTerminalRequest sizeof_RibonTerminalRequest RIBON_TERMINAL_REQUEST_ABI_VERSION
      RIBON_TERMINAL_EXECUTION_FIRMWARE_MANAGED_IMAGE 0 zero_invocation (mkManagedImage 0 0 0 1000)
  end.

(** Providers that do what they are asked, with [image] on the source. *)
Definition boot_providers (image : bytes) : Providers unit :=
  mkProviders
    (fun _ => Some (mkTimer 32 RIBON_SERVICE_ABI_VERSION 1000 (Some (fun w => (w, (0, 5))))))
    (fun _ => Some (mkSourceOps 24 RIBON_SERVICE_ABI_VERSION
       (Some (fun _ offset buffer size _ w => (w, (0, store buffer 0 (slice offset size image)))))))
    (fun _ => Some (mkMetadataOps 32 RIBON_SERVICE_ABI_VERSION 1 (Some (fun _ _ w => (w, 0)))))
    (fun _ => Some (mkFlushOps 24 RIBON_SERVICE_ABI_VERSION (Some (fun _ _ w => (w, 0)))))
    (fun _ => Some (mkQuiesceOps 24 RIBON_SERVICE_ABI_VERSION (Some (fun w => (w, 0)))))
    (fun _ => Some (mkLaunchOps 24 RIBON_SERVICE_ABI_VERSION
       (Some (fun _ _ w => (w, (0, mkLaunchReceipt 32 RIBON_SERVICE_ABI_VERSION 1))))))
    (fun _ => None)
    (fun _ _ _ buffer _ w => (w, (0, (buffer, mkArtifact 16 (Some [104]) 1 1))))
    (fun _ plan _ _ w => (w, (0, boot_request plan))).

Definition boot_environment : RibonBootEnvironment :=
  mkEnvironment sizeof_RibonBootEnvironment RIBON_CORE_ABI_VERSION RIBON_ENVIRONMENT_HOST
    RIBON_ARCHITECTURE_X86_64 (mkMemoryMap None 0) (mkDeviceTree 0 0) 0 zero_media (mkModules None 0)
    (mkCommandLine None 0) 0.

(** What the caller lends. *)
Definition boot_input (size : Z) (plan : option RibonDirectLoadPlan) : RibonBootTransactionInput :=
  let lent {A} (x : A) := match plan with Some _ => Some x | None => None end in
  mkInput (Some boot_environment) (Some (MemoryMap.mkMap [] 0 0))
    (Some (mkBootSource RIBON_BOOT_MEDIA_MEMORY 1 size 1)) 0 size (Some (zeros size)) size (Some [107])
    (Some empty_validated) plan (lent (zeros 64)) (match plan with Some _ => 64 | None => 0 end)
    (lent (mkArtifact 0 None 0 0)) 0 0 0.

(** ** A direct entry *)

Definition elf_providers : Providers unit := boot_providers sample_elf.

Definition elf_initialize : RibonBootStatus * option (RibonBootTransaction unit) :=
  ribon_boot_transaction_initialize (Some zero_transaction) (Some boot_core) (Some boot_arch_ops) 0x1000
    (Some (boot_protocol RIBON_TERMINAL_EXECUTION_DIRECT_ENTRY 2)) 0x1000 (Some elf64_ops) 0x1000.

Definition elf_start : Boot unit := mkBoot tt (default zero_transaction (snd elf_initialize)) [].

Definition elf_prepared : Boot unit :=
  fst (perform elf_providers (Prepare (Some (boot_input 192 (Some (empty_plan 4))))) elf_start).
Definition elf_committed : Boot unit := fst (perform elf_providers Commit elf_prepared).
Definition elf_refreshed : Boot unit := fst (perform elf_providers (Refresh (Some boot_environment)) elf_committed).
Definition elf_quiesced : Boot unit := fst (perform elf_providers Quiesce elf_refreshed).

Definition elf_selection : BootSelection unit :=
  mkSelectionOf boot_core boot_arch_ops (boot_protocol RIBON_TERMINAL_EXECUTION_DIRECT_ENTRY 2) elf64_ops
    (boot_service [97] RIBON_SERVICE_KIND_BOOT_SOURCE 24) (boot_service [98] RIBON_SERVICE_KIND_MONOTONIC_TIMER 32)
    (boot_service [99] RIBON_SERVICE_KIND_PERSISTENT_METADATA 32)
    (boot_service [100] RIBON_SERVICE_KIND_STORAGE_FLUSH 24)
    (Some (boot_service [101] RIBON_SERVICE_KIND_ENVIRONMENT_QUIESCE 24)) None.

Lemma boot_providers_typed image service operations read : octets image ->
  source_operations (boot_providers image) service = Some operations -> source_ops_read operations = Some read ->
  read_typed read.
Proof.
  intros Hi [= <-] [= <-] source offset buffer size deadline w Hb.
  split; [by rewrite len_store|]. apply octets_store; [done|]. by apply octets_slice.
Qed.

Lemma boot_input_typed size plan : word 64 size ->
  (forall p, plan = Some p -> storage_typed p) -> input_typed (boot_input size plan).
Proof.
  intros Hs Hp. split; [|done]. intros b [= <-]. rewrite word64 in Hs. split; [|by rewrite len_zeros by lia].
  by apply octets_zeros.
Qed.

Lemma elf_octets : octets sample_elf.
Proof. apply octetsb_octets. by vm_compute. Qed.

Lemma elf_attempt : attempt elf_providers elf_selection elf_quiesced.
Proof.
  assert (Hi : input_typed (boot_input 192 (Some (empty_plan 4)))).
  { apply boot_input_typed; [by rewrite word64|]. by intros p [= <-]. }
  repeat (apply attempt_call; [|done]). apply attempt_start; [|done]. repeat split; vm_compute; reflexivity.
Qed.

Definition elf_entry : RibonPreparedEntry := mkPrepared (entry_invocation 0x200004) 0.

Lemma elf_entered : ETransfer elf_entry ∈ boot_log (fst (ribon_boot_transaction_transfer elf_quiesced)).
Proof. apply (list_elem_of_lookup_2 _ 16). vm_compute. reflexivity. Qed.

Lemma boot_transfer_safe_witness :
  exists record p,
    entered_log record elf_entry (boot_log (fst (ribon_boot_transaction_transfer elf_quiesced))) /\
    load_u64 record 24 = plan_entry_load_address p /\
    bp_kernel_direct_load_plan (tx_plan (boot_tx elf_quiesced)) = Some p /\ load_plan_safe 192 p.
Proof.
  destruct (boot_transfer_safe elf_providers elf_selection
    (fun service operations read => boot_providers_typed sample_elf service operations read elf_octets)
    (fun service placement E => False_ind _ ltac:(discriminate E)) ltac:(vm_compute; discriminate)
    elf_quiesced elf_entry eq_refl elf_attempt elf_entered) as (record & p & H1 & H2 & _ & H3 & _ & H4 & _).
  exists record, p. split; [exact H1|]. split; [exact H2|]. split; [exact H3|].
  exact H4.
Defined.

Lemma boot_stage_machine_witness :
  tx_stage (boot_tx elf_quiesced) = STAGE_QUIESCE_ENVIRONMENT /\
  wp (perform elf_providers Commit) elf_quiesced (fun _ _ => False)
    (fun _ s' => tx_stage (boot_tx s') = STAGE_FAILED /\ boot_log s' = boot_log elf_quiesced).
Proof.
  assert (Hst : tx_stage (boot_tx elf_quiesced) = STAGE_QUIESCE_ENVIRONMENT) by (vm_compute; reflexivity).
  split; [exact Hst|]. eapply wp_mono; [apply (boot_stage_machine elf_providers elf_selection
    (fun service operations read => boot_providers_typed sample_elf service operations read elf_octets)
    ltac:(vm_compute; discriminate) elf_quiesced Commit elf_attempt I)|..].
  - intros a s' (H & _). rewrite Hst in H. discriminate.
  - intros a s' (H1 & _ & _ & H2). split; [exact H1|]. apply H2. rewrite Hst. discriminate.
Defined.


(** ** A managed image *)

(** A PE32+ image of one section, which may be executed and starts empty. *)
Definition sample_pe : bytes :=
  [77; 90] ++ zeros 58 ++ le_bytes 4 64 ++ [80; 69; 0; 0] ++
  le_bytes 2 0x8664 ++ le_bytes 2 1 ++ zeros 12 ++ le_bytes 2 112 ++ zeros 2 ++
  le_bytes 2 0x20b ++ zeros 14 ++ le_bytes 4 0x1000 ++ zeros 4 ++ le_bytes 8 0x400000 ++ le_bytes 4 0x1000 ++
  zeros 76 ++ zeros 8 ++ le_bytes 4 16 ++ le_bytes 4 0x1000 ++ zeros 20 ++ le_bytes 4 0x60000020.

Definition pe_providers : Providers unit := boot_providers sample_pe.

Definition managed_directory : RibonServiceDirectory :=
  mkDirectory sizeof_RibonServiceDirectory RIBON_SERVICE_DIRECTORY_ABI_VERSION
    (Some [Some (boot_service [97] RIBON_SERVICE_KIND_BOOT_SOURCE 24);
           Some (boot_service [98] RIBON_SERVICE_KIND_MONOTONIC_TIMER 32);
           Some (boot_service [99] RIBON_SERVICE_KIND_PERSISTENT_METADATA 32);
           Some (boot_service [100] RIBON_SERVICE_KIND_STORAGE_FLUSH 24);
           Some (boot_service [101] RIBON_SERVICE_KIND_TERMINAL_IMAGE_LAUNCH 24)]) 5.

Definition managed_core : RibonCoreContext :=
  mkContext sizeof_RibonCoreContext RIBON_CORE_ABI_VERSION (Some boot_product)
    (Some (mkRegistry sizeof_RibonPluginRegistry RIBON_CORE_ABI_VERSION
       (Some (<[2%nat := Some (ribon_pe_coff_image_plugin_descriptor 0x1000)]> boot_plugins)) 4))
    (Some managed_directory) (Some normal_mode) (Some sample_arena).

Definition pe_start : Boot unit :=
  mkBoot tt (default zero_transaction (snd (ribon_boot_transaction_initialize (Some zero_transaction)
    (Some managed_core) (Some boot_arch_ops) 0x1000
    (Some (boot_protocol RIBON_TERMINAL_EXECUTION_FIRMWARE_MANAGED_IMAGE
             (RIBON_IMAGE_FORMAT_MASK RIBON_EXECUTABLE_FORMAT_PE_COFF))) 0x1000 (Some pe_coff_ops) 0x1000))) [].

Definition pe_prepared : Boot unit := fst (perform pe_providers (Prepare (Some (boot_input 240 None))) pe_start).
Definition pe_launched : Boot unit := fst (perform pe_providers Execute (fst (perform pe_providers Commit pe_prepared))).

Definition pe_selection : BootSelection unit :=
  mkSelectionOf managed_core boot_arch_ops (boot_protocol RIBON_TERMINAL_EXECUTION_FIRMWARE_MANAGED_IMAGE
      (RIBON_IMAGE_FORMAT_MASK RIBON_EXECUTABLE_FORMAT_PE_COFF)) pe_coff_ops
    (boot_service [97] RIBON_SERVICE_KIND_BOOT_SOURCE 24) (boot_service [98] RIBON_SERVICE_KIND_MONOTONIC_TIMER 32)
    (boot_service [99] RIBON_SERVICE_KIND_PERSISTENT_METADATA 32)
    (boot_service [100] RIBON_SERVICE_KIND_STORAGE_FLUSH 24) None
    (Some (boot_service [101] RIBON_SERVICE_KIND_TERMINAL_IMAGE_LAUNCH 24)).

Lemma pe_octets : octets sample_pe.
Proof. apply octetsb_octets. by vm_compute. Qed.

Lemma pe_attempt : attempt pe_providers pe_selection pe_launched.
Proof.
  assert (Hi : input_typed (boot_input 240 None)) by (apply boot_input_typed; [by rewrite word64|done]).
  repeat (apply attempt_call; [|done]). apply attempt_start; [|done]. repeat split; vm_compute; reflexivity.
Qed.

Definition pe_request : RibonTerminalImageLaunchRequest :=
  mkLaunchRequest sizeof_RibonTerminalImageLaunchRequest RIBON_SERVICE_ABI_VERSION (Some sample_pe) 240
    (tx_validated_image (boot_tx pe_prepared)) (mkBootSource RIBON_BOOT_MEDIA_MEMORY 1 240 1) (Some [107]) 0 0 0 1000.

Lemma pe_requested : ELaunch pe_request ∈ boot_log pe_launched.
Proof. apply (list_elem_of_lookup_2 _ 10). vm_compute. reflexivity. Qed.

Lemma boot_launch_safe_witness :
  exists before record d after, boot_log pe_launched = before ++ [EWrite 0 record 0; EFlush 0 d 0] ++ after ++
      [ELaunch pe_request] /\
    tx_stage (boot_tx pe_launched) = STAGE_FAILED /\
    validated_machine (launch_validated_image pe_request) = 0x8664.
Proof.
  destruct (boot_launch_safe pe_providers pe_selection
    (fun service operations read => boot_providers_typed sample_pe service operations read pe_octets)
    ltac:(vm_compute; discriminate) pe_launched pe_request pe_attempt pe_requested)
    as (before & record & d & after & name & analyze & v0 & p0 & layout & H1 & _ & _ & H2 & _ & _ & _ & _ & _ & H3 & _).
  exists before, record, d, after. split; [exact H1|]. split; [exact H2|exact H3].
Defined.

(** ** The architecture's check *)

Definition elf_plan : RibonDirectLoadPlan :=
  default (empty_plan 0) (snd (elf64_analyze (Some sample_elf_image) (Some empty_validated) (Some (empty_plan 4)))).
Definition elf_validated : RibonValidatedImage :=
  default empty_validated (snd (fst (elf64_analyze (Some sample_elf_image) (Some empty_validated) (Some (empty_plan 4))))).

Lemma arch_direct_load_sound_witness :
  fst (ribon_arch_validate_direct_load (Some boot_arch) (Some elf_validated) (Some elf_plan)) = ARCH_OK /\
  canonical 48 0x1004 /\ Exists (covers_entry 0x1004) (segments_of elf_plan).
Proof.
  assert (E : ribon_arch_validate_direct_load (Some boot_arch) (Some elf_validated) (Some elf_plan) =
    (ARCH_OK, snd (ribon_arch_validate_direct_load (Some boot_arch) (Some elf_validated) (Some elf_plan))))
    by (vm_compute; reflexivity).
  assert (Hty : Forall segment_typed (segments_of elf_plan)).
  { change (segments_of elf_plan) with ltac:(let l := eval vm_compute in (segments_of elf_plan) in exact l).
    repeat (constructor; [split; split; vm_compute; congruence|]). constructor. }
  split; [rewrite E; reflexivity|].
  destruct (arch_direct_load_sound boot_arch elf_validated elf_plan _ ltac:(cbn; lia) Hty ltac:(split; vm_compute; congruence)
    ltac:(vm_compute; reflexivity) ltac:(vm_compute; reflexivity) E) as (c & _ & _ & _ & H1 & _ & H2 & _).
  split; [exact H1|exact H2].
Defined.

(** ** Initialisation *)

Lemma initialized {W} (r : RibonBootStatus * option (RibonBootTransaction W)) :
  fst r = BOOT_OK -> is_null (snd r) = false -> r = (BOOT_OK, Some (default zero_transaction (snd r))).
Proof. destruct r as [status [t|]]; cbn; [by intros ->|done]. Qed.

Lemma boot_initialize_selects_witness :
  exists c registry sel, Some boot_core = Some c /\ fresh sel (boot_tx elf_start) /\ selected_by c sel /\
    context_registry c = Some registry /\
    boot_registry_contains_operations registry RIBON_PLUGIN_KIND_IMAGE_FORMAT 0x1000 = true.
Proof.
  destruct (boot_initialize_selects zero_transaction (boot_tx elf_start) (Some boot_core) (Some boot_arch_ops) 0x1000
    (Some (boot_protocol RIBON_TERMINAL_EXECUTION_DIRECT_ENTRY 2)) 0x1000 (Some elf64_ops) 0x1000
    (initialized elf_initialize ltac:(vm_compute; reflexivity) ltac:(vm_compute; reflexivity)))
    as (c & registry & sel & H1 & H2 & H3 & _ & _ & _ & _ & _ & _ & _ & H4 & _ & _ & H5).
  exists c, registry, sel. split; [exact H1|]. split; [exact H2|]. split; [exact H3|]. split; [exact H4|exact H5].
Defined.

(** ** What the checks leave open *)

(** An architecture without the entry bridge has neither [prepare_entry] nor
    [transfer_prepared]; the initialisation takes it for a protocol of direct entry,
    whose preparation then calls the NULL pointer. *)
Definition bridgeless_arch_ops : RibonArchOps unit :=
  mkArchOps sizeof_RibonArchOps RIBON_ARCH_OPS_ABI_VERSION
    (Z.lor RIBON_ARCH_CAP_VALIDATE_DIRECT_LOAD RIBON_ARCH_CAP_HALT)
    (Some boot_arch) (Some ribon_arch_validate_direct_load) 0 0 None None None 0 1 0 0.

Lemma initialize_takes_bridgeless :
  fst (ribon_boot_transaction_initialize (Some zero_transaction) (Some boot_core) (Some bridgeless_arch_ops) 0x1000
    (Some (boot_protocol RIBON_TERMINAL_EXECUTION_DIRECT_ENTRY 2)) 0x1000 (Some elf64_ops) 0x1000) = BOOT_OK.
Proof. vm_compute. reflexivity. Qed.

(** An environment with a boot module, which the protocol does not allow. *)
Definition module_environment : RibonBootEnvironment :=
  mkEnvironment sizeof_RibonBootEnvironment RIBON_CORE_ABI_VERSION RIBON_ENVIRONMENT_HOST
    RIBON_ARCHITECTURE_X86_64 (mkMemoryMap None 0) (mkDeviceTree 0 0) 0 zero_media
    (mkModules (Some [mkModule (Some [109]) 0x500000 4096 RIBON_BOOT_MODULE_ROLE_AUXILIARY]) 1)
    (mkCommandLine None 0) RIBON_BOOT_ENV_HAS_BOOT_MODULES.

(** A preparation refuses it.  The refresh after the commit takes it, and hands the
    module to the protocol. *)
Lemma refresh_takes_refused_environment :
  ribon_boot_environment_is_valid (Some module_environment) = true /\
  snd (boot_normalize_environment elf_selection
    (mkInput (Some module_environment) (Some (MemoryMap.mkMap [] 0 0)) None 0 0 None 0 None None None None 0 None 0 0 0)
    elf_start) = inl BOOT_INCOMPLETE_ENVIRONMENT /\
  snd (perform elf_providers (Refresh (Some module_environment)) elf_committed) = inr tt /\
  bp_boot_module_count (tx_plan (boot_tx (fst (perform elf_providers (Refresh (Some module_environment)) elf_committed)))) = 1.
Proof. repeat split; vm_compute; reflexivity. Qed.

(** The budget for the handoff counts the artifact again when it is refreshed: an
    attempt whose one artifact of 3000 bytes fits the limit of 4096 is prepared and
    recorded, and fails when it is refreshed with the environment it was prepared in. *)
Definition tight_product : RibonProductDescriptor :=
  mkProduct RIBON_PRODUCT_DESCRIPTOR_MAGIC sizeof_RibonProductDescriptor RIBON_CORE_ABI_VERSION
    (Some [98; 111; 111; 116]) RIBON_PRODUCT_KIND_BOOTLOADER 1 1 0 RIBON_MODE_MASK_ALL 8
    RIBON_CAP_HANDOFF RIBON_CAP_ALL None 0 None 0 (mkLimits 256 32 32 2 (64 * 1024 * 1024) 4096 (256 * 1024) 30000).

Definition tight_start : Boot unit :=
  mkBoot tt (default zero_transaction (snd (ribon_boot_transaction_initialize (Some zero_transaction)
    (Some (mkContext sizeof_RibonCoreContext RIBON_CORE_ABI_VERSION (Some tight_product) (Some boot_registry)
       (Some boot_directory) (Some normal_mode) (Some sample_arena))) (Some boot_arch_ops) 0x1000
    (Some (boot_protocol RIBON_TERMINAL_EXECUTION_DIRECT_ENTRY 2)) 0x1000 (Some elf64_ops) 0x1000))) [].

Definition large_providers : Providers unit :=
  mkProviders (timer_operations elf_providers) (source_operations elf_providers) (metadata_operations elf_providers)
    (flush_operations elf_providers) (quiesce_operations elf_providers) (launch_operations elf_providers)
    (placement_operations elf_providers)
    (fun _ _ _ buffer _ w => (w, (0, (buffer, mkArtifact 3000 (Some [104]) 1 1)))) (protocol_terminal elf_providers).

Definition large_input : RibonBootTransactionInput :=
  mkInput (Some boot_environment) (Some (MemoryMap.mkMap [] 0 0))
    (Some (mkBootSource RIBON_BOOT_MEDIA_MEMORY 1 192 1)) 0 192 (Some (zeros 192)) 192 (Some [107])
    (Some empty_validated) (Some (empty_plan 4)) (Some (zeros 4096)) 4096 (Some (mkArtifact 0 None 0 0)) 0 0 0.

Lemma refresh_counts_handoff_twice :
  let prepared := perform large_providers (Prepare (Some large_input)) tight_start in
  let recorded := perform large_providers Commit (fst prepared) in
  snd prepared = inr tt /\ snd recorded = inr tt /\
  snd (perform large_providers (Refresh (Some boot_environment)) (fst recorded)) = inl BOOT_BUDGET_EXCEEDED.
Proof. repeat split; vm_compute; reflexivity. Qed.
