(* ===== verification/BlockStorage.v ===== *)
(** * Block devices and partition tables ([src/storage/block.c], [src/storage/gpt.c])

    A read-only block device is a callback behind a descriptor with its geometry.  The state of
    the controller is a world [W] of which nothing is known.

    The parser of a GUID partition table works on a disk in memory: a protective MBR, the primary
    header with its checksum, and the entry array with its own.  It accepts exactly the
    disks that [gpt_acceptable] describes, and returns the used entries in order. *)

From Stdlib Require Import String.
From S2P Require Import Prelude.
From S2P Require Import Buffer.
From S2P Require Import Wire.
From S2P Require Import PayloadImage.

(** ** Block devices *)

Definition RIBON_READ_ONLY_BLOCK_DEVICE_ABI_VERSION : Z := 1.
Definition sizeof_RibonReadOnlyBlockDevice : Z := 40.

Inductive RibonBlockStatus :=
  | BLOCK_OK | BLOCK_BAD_ARGUMENT | BLOCK_OUT_OF_RANGE | BLOCK_IO | BLOCK_SHORT_READ | BLOCK_UNSUPPORTED.

#[global] Instance RibonBlockStatus_eq_dec : EqDecision RibonBlockStatus.
Proof. solve_decision. Defined.

(** The callback gets the first block, the buffer, the number of blocks and a
    deadline; it leaves a status and what the buffer then holds. *)
Definition RibonReadOnlyBlockReadFn (W : Type) : Type :=
  W -> Z -> bytes -> Z -> Z -> W * RibonBlockStatus * bytes.

Record RibonReadOnlyBlockDevice {W : Type} := mkBlockDevice {
  device_size : Z;
  device_abi_version : Z;
  device_logical_block_bytes : Z;
  device_max_read_blocks : Z;
  device_block_count : Z;
  device_context : Z;
  device_read : option (RibonReadOnlyBlockReadFn W);
}.
Arguments RibonReadOnlyBlockDevice : clear implicits.

Definition ribon_read_only_block_device_is_valid {W} (device : option (RibonReadOnlyBlockDevice W)) : bool :=
  match device with
  | None => false
  | Some d =>
    (device_size d =? sizeof_RibonReadOnlyBlockDevice) &&
    (device_abi_version d =? RIBON_READ_ONLY_BLOCK_DEVICE_ABI_VERSION) &&
    (512 <=? device_logical_block_bytes d) && (device_logical_block_bytes d <=? 4096) &&
    power_of_two (device_logical_block_bytes d) &&
    (device_max_read_blocks d !=? 0) && (device_block_count d !=? 0) &&
    (device_context d !=? 0) && negb (is_null (device_read d))
  end.

Definition ribon_block_status_name (status : RibonBlockStatus) : bytes :=
  match status with
  | BLOCK_OK => text "ok"
  | BLOCK_BAD_ARGUMENT => text "bad-argument"
  | BLOCK_OUT_OF_RANGE => text "out-of-range"
  | BLOCK_IO => text "io"
  | BLOCK_SHORT_READ => text "short-read"
  | BLOCK_UNSUPPORTED => text "unsupported"
  end.

(** The fields are what their C types hold. *)
Definition device_typed {W} (d : RibonReadOnlyBlockDevice W) : Prop :=
  word 32 (device_logical_block_bytes d) /\ word 64 (device_block_count d).

(** ** What a device promises

    [content] is what the medium holds, block by block.  A read that returns OK is
    exact: the blocks are in the buffer.  Any other status promises only that the
    buffer keeps its length.  [steady] is an invariant of the controller's state that
    the reads of one block in a range keep: whatever a client establishes for every
    such invariant, it establishes without touching other blocks. *)
Class ExactReads {W} (d : RibonReadOnlyBlockDevice W) (content : Z -> bytes) (first count : Z) (steady : W -> Prop) := {
  exact_block b : first <= b < first + count ->
    len (content b) = device_logical_block_bytes d /\ octets (content b);
  exact_read w b buffer w' status buffer' read :
    device_read d = Some read -> steady w -> first <= b < first + count ->
    device_logical_block_bytes d <= len buffer ->
    read w b buffer 1 0 = (w', status, buffer') ->
    steady w' /\ len buffer' = len buffer /\
    (status = BLOCK_OK -> buffer' = store buffer 0 (content b));
}.

(** A device whose reads in the range succeed. *)
Definition serves {W} (d : RibonReadOnlyBlockDevice W) (first count : Z) (steady : W -> Prop) : Prop :=
  forall w b buffer read, device_read d = Some read -> steady w -> first <= b < first + count ->
    exists w' buffer', read w b buffer 1 0 = (w', BLOCK_OK, buffer').

(** ** A device that works *)

Definition reference_device (block_bytes block_count : Z) (content : Z -> bytes) : RibonReadOnlyBlockDevice unit := {|
  device_size := sizeof_RibonReadOnlyBlockDevice;
  device_abi_version := RIBON_READ_ONLY_BLOCK_DEVICE_ABI_VERSION;
  device_logical_block_bytes := block_bytes;
  device_max_read_blocks := 1;
  device_block_count := block_count;
  device_context := 1;
  device_read := Some (fun w first buffer count _ =>
    if (first <? 0) || (count !=? 1) || (block_count <=? first) then (w, BLOCK_OUT_OF_RANGE, buffer)
    else (w, BLOCK_OK, store buffer 0 (content first)));
|}.

Lemma reference_exact block_bytes block_count content first count :
  (forall b, first <= b < first + count -> len (content b) = block_bytes /\ octets (content b)) ->
  ExactReads (reference_device block_bytes block_count content) content first count (fun _ => True).
Proof.
  intros H. split; [done|]. intros w b buffer w' status buffer' read [= <-] _ Hb Hl.
  destruct (_ || _); intros [= <- <- <-]; [done|]. by rewrite len_store.
Qed.

Lemma reference_serves block_bytes block_count content first count :
  0 <= first -> first + count <= block_count ->
  serves (reference_device block_bytes block_count content) first count (fun _ => True).
Proof.
  intros H1 H2 w b buffer read [= <-] _ Hb. exists w. eexists. compare. done.
Qed.

(** ** GUID partition tables *)

Definition RIBON_GPT_HEADER_MINIMUM_BYTES : Z := 92.
Definition RIBON_GPT_ENTRY_MINIMUM_BYTES : Z := 128.
Definition RIBON_GPT_ENTRY_MAXIMUM_BYTES : Z := 4096.
Definition RIBON_GPT_ENTRY_MAXIMUM_COUNT : Z := 128.

Inductive RibonGptStatus :=
  | GPT_OK | GPT_BAD_ARGUMENT | GPT_TRUNCATED | GPT_BAD_PROTECTIVE_MBR | GPT_BAD_HEADER | GPT_BAD_HEADER_CRC
  | GPT_BAD_ENTRIES_CRC | GPT_OVERFLOW | GPT_OUT_OF_CAPACITY | GPT_OUT_OF_RANGE | GPT_OVERLAP.

Record RibonGptPartition := mkPartition {
  partition_type_guid : bytes;
  partition_unique_guid : bytes;
  partition_first_lba : Z;
  partition_last_lba : Z;
  partition_attributes : Z;
  partition_entry_index : Z;
}.

Record RibonGptTable := mkTable {
  table_partitions : option (list RibonGptPartition);
  table_partition_capacity : Z;
  table_partition_count : Z;
  table_first_usable_lba : Z;
  table_last_usable_lba : Z;
  table_disk_last_lba : Z;
}.

Definition gpt_crc32_bit (crc : Z) : Z :=
  if Z.land crc 1 !=? 0 then Z.lxor (Z.shiftr crc 1) 0xedb88320 else Z.shiftr crc 1.

Definition gpt_crc32_byte (crc x : Z) : Z := Nat.iter 8 gpt_crc32_bit (Z.lxor crc x).

Definition gpt_crc32 (b : bytes) : Z := u32 (Z.lnot (fold_left gpt_crc32_byte b 0xffffffff)).

Definition gpt_header_crc32 (header : bytes) (header_bytes : Z) : Z :=
  u32 (Z.lnot (fold_left (fun crc index =>
    let value := if (16 <=? index) && (index <? 20) then 0 else byte_at header index in
    gpt_crc32_byte crc value) (upto header_bytes) 0xffffffff)).

Definition gpt_guid_is_zero (guid : bytes) : bool := fold_left Z.lor (slice 0 16 guid) 0 =? 0.

Definition gpt_ranges_overlap (first_a last_a first_b last_b : Z) : bool :=
  (first_a <=? last_b) && (first_b <=? last_a).

Definition gpt_validate_protective_mbr (mbr : bytes) : bool :=
  if load_u16 mbr 510 !=? 0xaa55 then false
  else
    match foldE (fun protective_entries index =>
             let entry := 446 + index * 16 in
             if byte_at mbr (entry + 4) =? 0xee then
               if (load_u32 mbr (entry + 8) !=? 1) || (load_u32 mbr (entry + 12) =? 0) then inl tt
               else inr (protective_entries + 1)
             else if byte_at mbr (entry + 4) !=? 0 then inl tt
             else inr protective_entries) (upto 4) 0 with
    | inl _ => false
    | inr protective_entries => protective_entries =? 1
    end.

Definition gpt_copy_partition (entry : bytes) (entry_index : Z) : RibonGptPartition := {|
  partition_type_guid := slice 0 16 entry;
  partition_unique_guid := slice 16 16 entry;
  partition_first_lba := load_u64 entry 32;
  partition_last_lba := load_u64 entry 40;
  partition_attributes := load_u64 entry 48;
  partition_entry_index := entry_index;
|}.

Definition ribon_gpt_status_name (status : RibonGptStatus) : bytes :=
  match status with
  | GPT_OK => text "ok"
  | GPT_BAD_ARGUMENT => text "bad-argument"
  | GPT_TRUNCATED => text "truncated"
  | GPT_BAD_PROTECTIVE_MBR => text "bad-protective-mbr"
  | GPT_BAD_HEADER => text "bad-header"
  | GPT_BAD_HEADER_CRC => text "bad-header-crc"
  | GPT_BAD_ENTRIES_CRC => text "bad-entries-crc"
  | GPT_OVERFLOW => text "overflow"
  | GPT_OUT_OF_CAPACITY => text "out-of-capacity"
  | GPT_OUT_OF_RANGE => text "out-of-range"
  | GPT_OVERLAP => text "overlap"
  end.

(** [out->partition_count = count] *)
Definition with_count (t : RibonGptTable) (count : Z) : RibonGptTable :=
  mkTable (table_partitions t) (table_partition_capacity t) count (table_first_usable_lba t)
    (table_last_usable_lba t) (table_disk_last_lba t).

(** [out->partitions[out->partition_count++] = candidate] *)
Definition push_partition (t : RibonGptTable) (candidate : RibonGptPartition) : RibonGptTable :=
  mkTable (list_insert (Z.to_nat (table_partition_count t)) candidate <$> table_partitions t)
    (table_partition_capacity t) (table_partition_count t + 1) (table_first_usable_lba t)
    (table_last_usable_lba t) (table_disk_last_lba t).

Definition empty_partition : RibonGptPartition := mkPartition [] [] 0 0 0 0.

Definition partition_at (t : RibonGptTable) (i : Z) : RibonGptPartition :=
  nth (Z.to_nat i) (default [] (table_partitions t)) empty_partition.

(** One entry of the array, with the table as it is then. *)
Definition gpt_entry_step (entries : bytes) (entry_bytes first_usable last_usable : Z) (t : RibonGptTable)
    (index : Z) : (RibonGptStatus * RibonGptTable) + RibonGptTable :=
  let entry := slice (index * entry_bytes) entry_bytes entries in
  if gpt_guid_is_zero entry then inr t
  else
    let candidate := gpt_copy_partition entry index in
    if (partition_last_lba candidate <? partition_first_lba candidate) ||
       (partition_first_lba candidate <? first_usable) || (last_usable <? partition_last_lba candidate)
    then inl (GPT_OUT_OF_RANGE, with_count t 0)
    else if existsb (fun previous =>
              gpt_ranges_overlap (partition_first_lba candidate) (partition_last_lba candidate)
                (partition_first_lba (partition_at t previous)) (partition_last_lba (partition_at t previous)))
            (upto (table_partition_count t))
    then inl (GPT_OVERLAP, with_count t 0)
    else if table_partition_count t =? table_partition_capacity t then inl (GPT_OUT_OF_CAPACITY, with_count t 0)
    else inr (push_partition t candidate).

(** The entry array that [header] names, read into an empty table. *)
Definition gpt_parse_entries (disk : bytes) (disk_byte_count logical_block_bytes : Z) (header : bytes)
    (t : RibonGptTable) : RibonGptStatus * option RibonGptTable :=
  let entry_lba := load_u64 header 72 in
  let entry_count := load_u32 header 80 in
  let entry_bytes := load_u32 header 84 in
  let entries_bytes := entry_count * entry_bytes in
  if UINT64_MAX / logical_block_bytes <? entry_lba then (GPT_OVERFLOW, Some t)
  else
    let entries_offset := entry_lba * logical_block_bytes in
    if (disk_byte_count <? entries_offset) || (disk_byte_count - entries_offset <? entries_bytes)
    then (GPT_TRUNCATED, Some t)
    else
      let entries := slice entries_offset entries_bytes disk in
      if gpt_crc32 entries !=? load_u32 header 88 then (GPT_BAD_ENTRIES_CRC, Some t)
      else
        let first_usable := load_u64 header 40 in
        let last_usable := load_u64 header 48 in
        let t := mkTable (table_partitions t) (table_partition_capacity t) (table_partition_count t) first_usable
                   last_usable (disk_byte_count / logical_block_bytes - 1) in
        match foldE (gpt_entry_step entries entry_bytes first_usable last_usable) (upto entry_count) t with
        | inl (status, t) => (status, Some t)
        | inr t => (GPT_OK, Some t)
        end.

(** The status and what [out] then holds. *)
Definition ribon_gpt_parse_bytes (disk_bytes : option bytes) (disk_byte_count logical_block_bytes : Z)
    (out : option RibonGptTable) : RibonGptStatus * option RibonGptTable :=
  let out := (fun t => with_count t 0) <$> out in
  match disk_bytes, out with
  | Some disk, Some t =>
    if is_null (table_partitions t) || (table_partition_capacity t =? 0) ||
       (logical_block_bytes <? 512) || (4096 <? logical_block_bytes) ||
       (Z.land logical_block_bytes (logical_block_bytes - 1) !=? 0) ||
       (disk_byte_count <? logical_block_bytes * 2) ||
       (disk_byte_count mod logical_block_bytes !=? 0) then (GPT_BAD_ARGUMENT, out)
    else
      let disk_last_lba := disk_byte_count / logical_block_bytes - 1 in
      if negb (gpt_validate_protective_mbr disk) then (GPT_BAD_PROTECTIVE_MBR, out)
      else
        let header := slice logical_block_bytes logical_block_bytes disk in
        if (byte_at header 0 !=? 69) || (byte_at header 1 !=? 70) || (byte_at header 2 !=? 73) ||
           (byte_at header 3 !=? 32) || (byte_at header 4 !=? 80) || (byte_at header 5 !=? 65) ||
           (byte_at header 6 !=? 82) || (byte_at header 7 !=? 84) ||
           (load_u32 header 8 !=? 0x00010000) then (GPT_BAD_HEADER, out)
        else
          let header_bytes := load_u32 header 12 in
          if (header_bytes <? RIBON_GPT_HEADER_MINIMUM_BYTES) || (logical_block_bytes <? header_bytes)
          then (GPT_BAD_HEADER, out)
          else if gpt_header_crc32 header header_bytes !=? load_u32 header 16 then (GPT_BAD_HEADER_CRC, out)
          else if load_u64 header 24 !=? 1 then (GPT_BAD_HEADER, out)
          else
            let backup_lba := load_u64 header 32 in
            let first_usable := load_u64 header 40 in
            let last_usable := load_u64 header 48 in
            let entry_lba := load_u64 header 72 in
            let entry_count := load_u32 header 80 in
            let entry_bytes := load_u32 header 84 in
            if (backup_lba =? 0) || (disk_last_lba <? backup_lba) || (last_usable <? first_usable) ||
               (disk_last_lba <? last_usable) || (entry_lba <? 2) || (entry_count =? 0) ||
               (RIBON_GPT_ENTRY_MAXIMUM_COUNT <? entry_count) ||
               (entry_bytes <? RIBON_GPT_ENTRY_MINIMUM_BYTES) ||
               (RIBON_GPT_ENTRY_MAXIMUM_BYTES <? entry_bytes) || (entry_bytes mod 8 !=? 0) ||
               (UINT64_MAX / entry_bytes <? entry_count) then (GPT_BAD_HEADER, out)
            else gpt_parse_entries disk disk_byte_count logical_block_bytes header t
  | _, _ => (GPT_BAD_ARGUMENT, out)
  end.

(** ** Which disks are accepted *)

(** The used entries of an array, in order. *)
Definition used_partitions (entries : list bytes) : list RibonGptPartition :=
  omap id (imap (fun i e => if gpt_guid_is_zero e then None else Some (gpt_copy_partition e (Z.of_nat i))) entries).

Definition entry_list (entries : bytes) (entry_bytes entry_count : Z) : list bytes :=
  (fun i => slice (i * entry_bytes) entry_bytes entries) <$> upto entry_count.

Definition partition_within (first_usable last_usable : Z) (p : RibonGptPartition) : Prop :=
  first_usable <= partition_first_lba p <= partition_last_lba p /\ partition_last_lba p <= last_usable.

Definition partitions_apart (p q : RibonGptPartition) : Prop :=
  partition_last_lba p < partition_first_lba q \/ partition_last_lba q < partition_first_lba p.

(** Partitions that may be returned together. *)
Definition partitions_ok (first_usable last_usable capacity : Z) (ps : list RibonGptPartition) : Prop :=
  Forall (partition_within first_usable last_usable) ps /\ pairwise partitions_apart ps /\ len ps <= capacity.

Lemma used_partitions_snoc l x : used_partitions (l ++ [x]) =
  used_partitions l ++ (if gpt_guid_is_zero x then [] else [gpt_copy_partition x (len l)]).
Proof.
  unfold used_partitions. rewrite imap_app, omap_app. f_equal. cbn. rewrite Nat.add_0_r.
  by destruct (gpt_guid_is_zero x).
Qed.

Section Entries.
Context (array : list RibonGptPartition) (entries : bytes) (entry_bytes capacity first_usable last_usable last : Z).
Context (Hcap : len array = capacity).

Definition filled (l : list bytes) : RibonGptTable :=
  mkTable (Some (list_inserts 0 (used_partitions l) array)) capacity (len (used_partitions l)) first_usable last_usable last.

Lemma partition_at_filled l i : 0 <= i < len (used_partitions l) -> len (used_partitions l) <= capacity ->
  partition_at (filled l) i = nth (Z.to_nat i) (used_partitions l) empty_partition.
Proof.
  intros Hi Hl. unfold partition_at, filled, len in *. cbn.
  destruct (lookup_lt_is_Some_2 (used_partitions l) (Z.to_nat i) ltac:(lia)) as [p Hp].
  rewrite (nth_lookup_Some _ _ _ _ Hp). apply nth_lookup_Some.
  rewrite list_lookup_inserts by lia. by rewrite Nat.sub_0_r.
Qed.

Lemma push_filled l x : gpt_guid_is_zero x = false ->
  push_partition (filled l) (gpt_copy_partition x (len l)) = filled (l ++ [x]).
Proof.
  intros Hx. unfold push_partition, filled. cbn. rewrite used_partitions_snoc, Hx. f_equal.
  - rewrite list_inserts_app_l. cbn. unfold len. by rewrite Nat2Z.id, Nat.add_0_r.
  - rewrite len_app, len_cons, len_nil. lia.
Qed.

(** A candidate that joins partitions that may be returned. *)
Lemma partitions_ok_snoc ps p : partitions_ok first_usable last_usable capacity (ps ++ [p]) <->
  partitions_ok first_usable last_usable capacity ps /\ partition_within first_usable last_usable p /\
  Forall (fun q => partitions_apart q p) ps /\ len ps < capacity.
Proof.
  unfold partitions_ok. rewrite Forall_app, Forall_singleton, pairwise_snoc, len_app, len_cons, len_nil.
  pose proof (len_nonneg ps). intuition lia.
Qed.

Lemma overlap_false p q : gpt_ranges_overlap (partition_first_lba p) (partition_last_lba p) (partition_first_lba q)
  (partition_last_lba q) = false <-> partitions_apart q p.
Proof. unfold gpt_ranges_overlap, partitions_apart. rewrite andb_false_iff, !Z.leb_gt. lia. Qed.

Lemma entry_step_iff l n x t : l !! n = Some x -> x = slice (Z.of_nat n * entry_bytes) entry_bytes entries ->
  partitions_ok first_usable last_usable capacity (used_partitions (take n l)) ->
  gpt_entry_step entries entry_bytes first_usable last_usable (filled (take n l)) (Z.of_nat n) = inr t <->
  partitions_ok first_usable last_usable capacity (used_partitions (take n l ++ [x])) /\ t = filled (take n l ++ [x]).
Proof.
  intros Hn Hx Hok. unfold gpt_entry_step. rewrite <- Hx. pose proof (lookup_lt_Some _ _ _ Hn) as Hlt.
  assert (Hlen : len (take n l) = Z.of_nat n) by (unfold len; rewrite length_take; lia).
  destruct (gpt_guid_is_zero x) eqn:Ez.
  { unfold filled at 1 2. rewrite used_partitions_snoc, Ez, app_nil_r. split; [by intros [= <-]|by intros [_ ->]]. }
  rewrite <- Hlen at 1 2. rewrite <- Hlen, push_filled by done. rewrite used_partitions_snoc, Ez, partitions_ok_snoc.
  set (p := gpt_copy_partition x (len (take n l))). destruct Hok as (H1 & H2 & H3).
  rewrite (existsb_ext _ (fun i => gpt_ranges_overlap (partition_first_lba p) (partition_last_lba p)
    (partition_first_lba (nth (Z.to_nat i) (used_partitions (take n l)) empty_partition))
    (partition_last_lba (nth (Z.to_nat i) (used_partitions (take n l)) empty_partition)))).
  2:{ intros i Hi. apply elem_of_seqZ in Hi. cbn in Hi. by rewrite partition_at_filled by lia. }
  cbn [table_partition_count table_partition_capacity filled].
  pose proof (existsb_upto (fun q => gpt_ranges_overlap (partition_first_lba p) (partition_last_lba p)
    (partition_first_lba q) (partition_last_lba q)) empty_partition (used_partitions (take n l))
    (length (used_partitions (take n l))) ltac:(lia)) as Hex.
  rewrite firstn_all in Hex. fold (len (used_partitions (take n l))) in Hex.
  assert (Hapart : forall ps, Forall (fun q => gpt_ranges_overlap (partition_first_lba p) (partition_last_lba p)
    (partition_first_lba q) (partition_last_lba q) = false) ps <-> Forall (fun q => partitions_apart q p) ps).
  { intros ps. rewrite !Forall_forall. by setoid_rewrite overlap_false. }
  rewrite Hapart in Hex. unfold partitions_ok, partition_within.
  destruct (_ || _) eqn:G.
  { split; [done|]. intros [(_ & Hw & _) _]. rewrite !orb_true_iff in G. destruct G as [[G|G]|G]; bool_to_prop; lia. }
  rewrite !orb_false_iff in G. destruct G as [[G1 G2] G3]. bool_to_prop.
  destruct (existsb _ _).
  { split; [done|]. intros [(_ & _ & Ha & _) _]. by apply Hex in Ha. }
  destruct (Z.eqb_spec (len (used_partitions (take n l))) capacity) as [E|E].
  { split; [done|]. intros [(_ & _ & _ & ?) _]. lia. }
  split; [intros [= <-]|by intros [_ ->]]. split; [|done]. split_and!; try done; try lia. by apply Hex.
Qed.
End Entries.

(** The loop over the entry array. *)
Lemma entries_loop_iff array entries entry_bytes entry_count capacity first_usable last_usable last t :
  len array = capacity -> 0 <= entry_count ->
  foldE (gpt_entry_step entries entry_bytes first_usable last_usable) (upto entry_count)
    (mkTable (Some array) capacity 0 first_usable last_usable last) = inr t <->
  let ps := used_partitions (entry_list entries entry_bytes entry_count) in
  partitions_ok first_usable last_usable capacity ps /\
  t = mkTable (Some (list_inserts 0 ps array)) capacity (len ps) first_usable last_usable last.
Proof.
  intros Hcap Hn. set (l := entry_list entries entry_bytes entry_count).
  assert (Hl : Z.of_nat (length l) = entry_count) by (subst l; unfold entry_list; rewrite length_fmap, length_seqZ; lia).
  rewrite <- Hl.
  apply (foldE_upto_iff _ l _ (fun l => partitions_ok first_usable last_usable capacity (used_partitions l))
    (filled array capacity first_usable last_usable last)).
  - split_and!; [constructor|done|]. rewrite <- Hcap. apply len_nonneg.
  - done.
  - intros n x Hx Hok t'. apply entry_step_iff; try done.
    clear Hok t' Hl. subst l. unfold entry_list in Hx. rewrite list_lookup_fmap in Hx.
    destruct (upto entry_count !! n) as [i|] eqn:Hi; [|done]. injection Hx as <-. apply lookup_seqZ in Hi as [-> _]. done.
  - intros n x _. rewrite used_partitions_snoc. destruct (gpt_guid_is_zero x); [by rewrite app_nil_r|].
    intros Hok. by apply partitions_ok_snoc in Hok as [? _].
Qed.

Lemma entries_loop_fails entries entry_bytes first_usable last_usable l t status t' :
  foldE (gpt_entry_step entries entry_bytes first_usable last_usable) l t = inl (status, t') ->
  status <> GPT_OK /\ table_partition_count t' = 0.
Proof.
  revert t. induction l as [|i l IH]; intros t; [done|]. cbn [foldE].
  destruct (gpt_entry_step _ _ _ _ t i) as [[st t1]|t1] eqn:E; [|apply IH].
  intros [= <- <-]. unfold gpt_entry_step in E.
  repeat match type of E with (if ?g then _ else _) = _ => destruct g end; try done; by injection E as <- <-.
Qed.

(** Exactly one protective entry, and no other partition. *)
Definition protective (mbr : bytes) : Prop :=
  load_u16 mbr 510 = 0xaa55 /\
  exists i, 0 <= i < 4 /\ byte_at mbr (446 + i * 16 + 4) = 0xee /\ load_u32 mbr (446 + i * 16 + 8) = 1 /\
    load_u32 mbr (446 + i * 16 + 12) <> 0 /\ forall j, 0 <= j < 4 -> j <> i -> byte_at mbr (446 + j * 16 + 4) = 0.

Lemma count_loop (f : Z -> Z -> unit + Z) (yes no : Z -> bool) l c n :
  (forall c i, f c i = if yes i then inr (c + 1) else if no i then inr c else inl tt) ->
  foldE f l c = inr n <-> Forall (fun i => yes i || no i = true) l /\ n = c + len (List.filter yes l).
Proof.
  intros Hf. revert c. induction l as [|i l IH]; intros c; cbn [foldE List.filter].
  { change (len []) with 0. split; [intros [= <-]; split; [constructor|lia]|intros [_ ->]; f_equal; lia]. }
  rewrite Hf, Forall_cons. destruct (yes i); [|destruct (no i)]; cbn [orb].
  - rewrite IH, len_cons. intuition lia.
  - rewrite IH. intuition.
  - split; [done|]. by intros [[? _] _].
Qed.

Lemma protective_mbr_iff mbr : gpt_validate_protective_mbr mbr = true <-> protective mbr.
Proof.
  unfold gpt_validate_protective_mbr, protective.
  destruct (Z.eqb_spec (load_u16 mbr 510) 0xaa55) as [Es|Es]; cbn [negb]; [|by intuition].
  set (yes i := (byte_at mbr (446 + i * 16 + 4) =? 0xee) && ((load_u32 mbr (446 + i * 16 + 8) =? 1) &&
    negb (load_u32 mbr (446 + i * 16 + 12) =? 0))).
  set (no i := byte_at mbr (446 + i * 16 + 4) =? 0).
  match goal with |- context [foldE ?g _ _] => set (f := g) end.
  pose proof (count_loop f yes no (upto 4) 0) as Hloop.
  assert (Hf : forall c i, f c i = if yes i then inr (c + 1) else if no i then inr c else inl tt).
  { intros c i. unfold f, yes, no. cbn zeta. destruct (Z.eqb_spec (byte_at mbr (446 + i * 16 + 4)) 0xee) as [E|E]; cbn [andb].
    - rewrite E. by destruct (_ =? 1), (_ =? 0).
    - by destruct (_ =? 0). }
  assert (Hyes : forall i, yes i = true <-> byte_at mbr (446 + i * 16 + 4) = 0xee /\
    load_u32 mbr (446 + i * 16 + 8) = 1 /\ load_u32 mbr (446 + i * 16 + 12) <> 0).
  { intros i. unfold yes. rewrite !andb_true_iff, negb_true_iff, !Z.eqb_eq, Z.eqb_neq. done. }
  assert (Hno : forall i, no i = true <-> byte_at mbr (446 + i * 16 + 4) = 0) by (intros; apply Z.eqb_eq).
  assert (Hmain : (exists n, foldE f (upto 4) 0 = inr n /\ n = 1) <->
    exists i, 0 <= i < 4 /\ yes i = true /\ forall j, 0 <= j < 4 -> j <> i -> no j = true).
  2:{ setoid_rewrite Hyes in Hmain. setoid_rewrite Hno in Hmain.
      trans (exists n, foldE f (upto 4) 0 = inr n /\ n = 1); [|rewrite Hmain; split; [intros (i & Hi & (? & ? & ?) & ?); eauto 10|
        intros (_ & i & Hi & ? & ? & ? & ?); eauto 10]].
      destruct (foldE f _ _) as [|n]; [split; [done|intros (? & ? & _); done]|]. rewrite Z.eqb_eq.
      split; [by exists n|]. by intros (? & [= <-] & ?). }
  assert (Hex : forall i, no i = true -> yes i = false).
  { intros i Hi. apply Hno in Hi. unfold yes. by rewrite Hi. }
  clear Hyes Hno. setoid_rewrite (Hloop _ Hf). clear Hloop Hf. clearbody yes no f. change (upto 4) with [0; 1; 2; 3]. split.
  - intros (n & [Hall ->] & Hone). rewrite !Forall_cons in Hall. destruct Hall as (A0 & A1 & A2 & A3 & _).
    cbn [List.filter] in Hone.
    destruct (yes 0) eqn:Y0, (yes 1) eqn:Y1, (yes 2) eqn:Y2, (yes 3) eqn:Y3; try done;
    [exists 0|exists 1|exists 2|exists 3]; (split; [lia|]); (split; [done|]); intros j Hj Hne;
      assert (j = 0 \/ j = 1 \/ j = 2 \/ j = 3) as [-> | [-> | [-> | ->]]] by lia; done.
  - intros (i & Hi & Hy & Hn). exists 1. split; [|done]. split.
    + rewrite !Forall_cons, Forall_nil.
      assert (H : forall j, 0 <= j < 4 -> yes j || no j = true).
      { intros j Hj. destruct (decide (j = i)) as [->|]; [by rewrite Hy|]. rewrite (Hn j) by done. apply orb_true_r. }
      split_and!; try apply H; done || lia.
    + assert (H : forall j, 0 <= j < 4 -> yes j = (j =? i)).
      { intros j Hj. destruct (Z.eqb_spec j i) as [->|]; [done|]. by apply Hex, Hn. }
      cbn [List.filter]. rewrite !H by lia.
      assert (i = 0 \/ i = 1 \/ i = 2 \/ i = 3) as [-> | [-> | [-> | ->]]] by lia; done.
Qed.

(** ** The whole table *)

(** The primary header is the second block. *)
Definition gpt_header (disk : bytes) (block_bytes : Z) : bytes := slice block_bytes block_bytes disk.

(** The entry array the header names. *)
Definition gpt_entries (disk : bytes) (block_bytes : Z) : bytes :=
  let h := gpt_header disk block_bytes in
  slice (load_u64 h 72 * block_bytes) (load_u32 h 80 * load_u32 h 84) disk.

Definition gpt_partitions (disk : bytes) (block_bytes : Z) : list RibonGptPartition :=
  let h := gpt_header disk block_bytes in
  used_partitions (entry_list (gpt_entries disk block_bytes) (load_u32 h 84) (load_u32 h 80)).

Record header_acceptable (disk h : bytes) (block_bytes : Z) : Prop := {
  gpt_mbr : protective disk;
  gpt_magic : slice 0 8 h = text "EFI PART";
  gpt_revision : load_u32 h 8 = 0x00010000;
  gpt_header_size : RIBON_GPT_HEADER_MINIMUM_BYTES <= load_u32 h 12 <= block_bytes;
  gpt_header_sum : gpt_header_crc32 h (load_u32 h 12) = load_u32 h 16;
  gpt_here : load_u64 h 24 = 1;
  gpt_backup : 0 < load_u64 h 32 < len disk / block_bytes;
  gpt_usable : load_u64 h 40 <= load_u64 h 48 < len disk / block_bytes;
  gpt_array : 2 <= load_u64 h 72;
  gpt_count : 0 < load_u32 h 80 <= RIBON_GPT_ENTRY_MAXIMUM_COUNT;
  gpt_entry_size : RIBON_GPT_ENTRY_MINIMUM_BYTES <= load_u32 h 84 <= RIBON_GPT_ENTRY_MAXIMUM_BYTES /\ load_u32 h 84 mod 8 = 0;
}.

Record entries_acceptable (disk h : bytes) (block_bytes capacity : Z) : Prop := {
  gpt_array_inside : load_u64 h 72 * block_bytes + load_u32 h 80 * load_u32 h 84 <= len disk;
  gpt_array_sum : gpt_crc32 (gpt_entries disk block_bytes) = load_u32 h 88;
  gpt_partitions_ok : partitions_ok (load_u64 h 40) (load_u64 h 48) capacity (gpt_partitions disk block_bytes);
}.

Definition gpt_acceptable (disk : bytes) (block_bytes capacity : Z) : Prop :=
  header_acceptable disk (gpt_header disk block_bytes) block_bytes /\
  entries_acceptable disk (gpt_header disk block_bytes) block_bytes capacity.

(** The output holds the used entries of the array, and room for no more than was lent. *)
Definition gpt_returned (disk : bytes) (block_bytes : Z) (array : list RibonGptPartition) (t : RibonGptTable) : Prop :=
  exists ps, table_partitions t = Some ps /\ length ps = length array /\
    table_partition_count t = len (gpt_partitions disk block_bytes) /\
    take (Z.to_nat (table_partition_count t)) ps = gpt_partitions disk block_bytes /\
    table_first_usable_lba t = load_u64 (gpt_header disk block_bytes) 40 /\
    table_last_usable_lba t = load_u64 (gpt_header disk block_bytes) 48 /\
    table_disk_last_lba t = len disk / block_bytes - 1.

(** A status and an output: accepted, with what is returned, or refused and empty. *)
Definition gpt_outcome (accepted : Prop) (disk : bytes) (block_bytes : Z) (array : list RibonGptPartition)
    (r : RibonGptStatus * option RibonGptTable) : Prop :=
  exists t, snd r = Some t /\
    (fst r = GPT_OK /\ accepted /\ gpt_returned disk block_bytes array t \/
     fst r <> GPT_OK /\ ~ accepted /\ table_partition_count t = 0).

Lemma outcome_refused (accepted : Prop) disk block_bytes array status t :
  status <> GPT_OK -> ~ accepted -> table_partition_count t = 0 ->
  gpt_outcome accepted disk block_bytes array (status, Some t).
Proof. intros H1 H2 H3. exists t. split; [done|]. by right. Qed.

Lemma take_inserts {A} (ps array : list A) : (length ps <= length array)%nat -> take (length ps) (list_inserts 0 ps array) = ps.
Proof.
  intros H. apply list_eq. intros i. destruct (decide (i < length ps)%nat).
  - rewrite lookup_take_lt, list_lookup_inserts by lia. f_equal. lia.
  - rewrite lookup_take_ge, lookup_ge_None_2 by lia. done.
Qed.

Lemma parse_entries_exact disk block_bytes t array : let h := gpt_header disk block_bytes in
  word 64 (len disk) -> 512 <= block_bytes -> 0 <= load_u64 h 72 -> 0 <= load_u32 h 80 -> 0 <= load_u32 h 84 ->
  table_partitions t = Some array -> len array = table_partition_capacity t -> table_partition_count t = 0 ->
  gpt_outcome (entries_acceptable disk h block_bytes (table_partition_capacity t)) disk block_bytes array
    (gpt_parse_entries disk (len disk) block_bytes h t).
Proof.
  intros h Hw Hb H72 H80 H84 Harr Hcap Hc. unfold gpt_parse_entries. cbn zeta. rewrite word64 in Hw.
  destruct (_ <? load_u64 h 72) eqn:G5.
  { apply outcome_refused; [done| |done]. intros A. pose proof (gpt_array_inside _ _ _ _ A) as B. bool_to_prop.
    assert (load_u64 h 72 <= UINT64_MAX / block_bytes) by (apply Z.div_le_lower_bound; nia). lia. }
  destruct (_ || _) eqn:G6.
  { apply outcome_refused; [done| |done]. intros A. pose proof (gpt_array_inside _ _ _ _ A) as B.
    apply orb_true_iff in G6 as [G6|G6]; bool_to_prop; nia. }
  apply orb_false_iff in G6 as [G6 G7]. bool_to_prop.
  change (slice (load_u64 h 72 * block_bytes) (load_u32 h 80 * load_u32 h 84) disk) with (gpt_entries disk block_bytes).
  destruct (_ !=? load_u32 h 88) eqn:G8.
  { apply outcome_refused; [done| |done]. intros A. bool_to_prop. by destruct (G8 (gpt_array_sum _ _ _ _ A)). }
  bool_to_prop. rewrite Harr, Hc.
  destruct (foldE _ _ _) as [[st t1]|t1] eqn:Ef.
  - assert (Ef' := Ef). apply entries_loop_fails in Ef as [Hst Hc1]. apply outcome_refused; [done| |done].
    intros A. pose proof (gpt_partitions_ok _ _ _ _ A) as Hok.
    pose proof (proj2 (entries_loop_iff array (gpt_entries disk block_bytes) (load_u32 h 84) (load_u32 h 80)
      (table_partition_capacity t) (load_u64 h 40) (load_u64 h 48) (len disk / block_bytes - 1) _ Hcap H80) (conj Hok eq_refl)) as E.
    by rewrite E in Ef'.
  - apply entries_loop_iff in Ef as [Hok ->]; [|done..]. eexists. split; [done|]. left. split; [done|].
    change (used_partitions _) with (gpt_partitions disk block_bytes) in *. split; [by split; [lia|..]|].
    eexists. cbn. split; [done|]. rewrite length_inserts. split; [done|]. split; [done|]. split; [|done].
    unfold len. rewrite Nat2Z.id. apply take_inserts. destruct Hok as (_ & _ & Hl). unfold len in *. lia.
Qed.

Lemma magic_iff h : len h >= 8 ->
  (byte_at h 0 !=? 69) || (byte_at h 1 !=? 70) || (byte_at h 2 !=? 73) || (byte_at h 3 !=? 32) || (byte_at h 4 !=? 80) ||
  (byte_at h 5 !=? 65) || (byte_at h 6 !=? 82) || (byte_at h 7 !=? 84) = false <-> slice 0 8 h = text "EFI PART".
Proof.
  intros Hl. rewrite !orb_false_iff, !negb_false_iff, !Z.eqb_eq.
  do 8 (destruct h as [|? h]; [unfold len in Hl; cbn in Hl; lia|]).
  unfold byte_at, slice, text. change (Z.to_nat 8) with 8%nat. change (Z.to_nat 0) with 0%nat.
  change (Z.to_nat 1) with 1%nat. change (Z.to_nat 2) with 2%nat. change (Z.to_nat 3) with 3%nat. change (Z.to_nat 4) with 4%nat.
  change (Z.to_nat 5) with 5%nat. change (Z.to_nat 6) with 6%nat. change (Z.to_nat 7) with 7%nat. cbn. split.
  - by intros [[[[[[[-> ->] ->] ->] ->] ->] ->] ->].
  - by intros [= -> -> -> -> -> -> -> ->].
Qed.

(** C20: The parser accepts exactly the disks that [gpt_acceptable] describes: a protective
    MBR with one protective entry and nothing else, a primary header of the right place,
    size and checksum, usable blocks and a backup header on the disk, an entry array of
    bounded shape inside the disk with its checksum, and used entries that lie within the
    usable blocks, do not overlap each other and fit the caller's array.  Then the table
    holds these entries in order; otherwise it is empty. *)
Theorem gpt_parse_exact disk block_bytes t array :
  octets disk -> word 64 (len disk) -> 512 <= block_bytes <= 4096 -> Z.land block_bytes (block_bytes - 1) = 0 ->
  block_bytes * 2 <= len disk -> len disk mod block_bytes = 0 ->
  table_partitions t = Some array -> len array = table_partition_capacity t -> 0 < table_partition_capacity t ->
  gpt_outcome (gpt_acceptable disk block_bytes (table_partition_capacity t)) disk block_bytes array
    (ribon_gpt_parse_bytes (Some disk) (len disk) block_bytes (Some t)).
Proof.
  intros Hoct Hw Hb Hpow Hsize Hmod Harr Hcap Hpos. unfold ribon_gpt_parse_bytes. cbn [fmap option_fmap option_map].
  cbn [table_partitions with_count table_partition_capacity]. rewrite Harr. cbn [is_null].
  rewrite Hpow, Hmod. compare. unfold gpt_acceptable.
  fold (gpt_header disk block_bytes). set (h := gpt_header disk block_bytes).
  assert (Hh : len h = block_bytes) by (apply len_slice; lia).
  assert (Hho : octets h) by (by apply octets_slice).
  pose proof (load_u32_word h 80 Hho ltac:(lia) ltac:(lia)) as W80. rewrite word32 in W80.
  pose proof (load_u32_word h 84 Hho ltac:(lia) ltac:(lia)) as W84. rewrite word32 in W84.
  pose proof (load_u64_word h 32 Hho ltac:(lia) ltac:(lia)) as W32. rewrite word64 in W32.
  pose proof (load_u64_word h 72 Hho ltac:(lia) ltac:(lia)) as W72. rewrite word64 in W72.
  destruct (gpt_validate_protective_mbr disk) eqn:Gm; cbn [negb].
  2:{ apply outcome_refused; [done| |done]. intros [A _]. apply gpt_mbr, protective_mbr_iff in A. by rewrite Gm in A. }
  destruct (_ || (load_u32 h 8 !=? _)) eqn:G0.
  { apply outcome_refused; [done| |done]. intros [A _]. apply orb_true_iff in G0 as [G0|G0].
    - rewrite (proj2 (magic_iff h ltac:(lia)) (gpt_magic _ _ _ A)) in G0. done.
    - bool_to_prop. by destruct (G0 (gpt_revision _ _ _ A)). }
  apply orb_false_iff in G0 as [Gmagic Grev]. apply magic_iff in Gmagic; [|lia].
  destruct (_ || _) eqn:G1.
  { apply outcome_refused; [done| |done]. intros [A _]. pose proof (gpt_header_size _ _ _ A).
    apply orb_true_iff in G1 as [G1|G1]; bool_to_prop; lia. }
  apply orb_false_iff in G1 as [G1 G1']. bool_to_prop.
  destruct (_ !=? load_u32 h 16) eqn:G2; bool_to_prop.
  { apply outcome_refused; [done| |done]. intros [A _]. by destruct (G2 (gpt_header_sum _ _ _ A)). }
  destruct (_ !=? 1) eqn:G3; bool_to_prop.
  { apply outcome_refused; [done| |done]. intros [A _]. by destruct (G3 (gpt_here _ _ _ A)). }
  destruct (_ || (UINT64_MAX / load_u32 h 84 <? load_u32 h 80)) eqn:G4.
  { apply outcome_refused; [done| |done]. intros [[_ _ _ _ _ _ B1 B2 B3 B4 [B5 B6]] _].
    unfold RIBON_GPT_ENTRY_MAXIMUM_COUNT, RIBON_GPT_ENTRY_MAXIMUM_BYTES, RIBON_GPT_ENTRY_MINIMUM_BYTES in *.
    assert (load_u32 h 80 <= UINT64_MAX / load_u32 h 84) by (apply Z.div_le_lower_bound; unfold UINT64_MAX; nia).
    rewrite !orb_true_iff in G4. decompose [or] G4; bool_to_prop; lia. }
  rewrite !orb_false_iff in G4. destruct_and! G4. bool_to_prop.
  assert (A : header_acceptable disk h block_bytes).
  { split; try done; try lia; try (split; [lia|done]). by apply protective_mbr_iff. }
  destruct (parse_entries_exact disk block_bytes (with_count t 0) array Hw (proj1 Hb) (proj1 W72) (proj1 W80) (proj1 W84)
    Harr Hcap eq_refl) as (t' & E & Hcase).
  exists t'. split; [done|]. destruct Hcase as [(? & ? & ?)|(? & Hno & ?)]; [by left|right].
  split; [done|]. split; [|done]. by intros [_ ?].
Qed.

(** ** A disk with one partition *)

(** The check value of the checksum. *)
Lemma gpt_crc32_check : gpt_crc32 (text "123456789") = 0xcbf43926.
Proof. vm_compute. done. Qed.

Definition sample_gpt_entries : bytes :=
  let b := store (zeros 512) 128 (replicate 16 7) in
  let b := store b 144 (replicate 16 9) in
  store_u64 (store_u64 b 160 4) 168 5.

Definition sample_gpt_header : bytes :=
  let b := store (zeros 512) 0 (text "EFI PART") in
  let b := store_u32 b 8 0x00010000 in
  let b := store_u32 b 12 92 in
  let b := store_u64 b 24 1 in
  let b := store_u64 b 32 7 in
  let b := store_u64 b 40 3 in
  let b := store_u64 b 48 6 in
  let b := store_u64 b 72 2 in
  let b := store_u32 b 80 4 in
  let b := store_u32 b 84 128 in
  let b := store_u32 b 88 (gpt_crc32 sample_gpt_entries) in
  store_u32 b 16 (gpt_header_crc32 b 92).

Definition sample_mbr : bytes :=
  let b := store_u8 (zeros 512) 450 0xee in
  store_u16 (store_u32 (store_u32 b 454 1) 458 7) 510 0xaa55.

Definition sample_gpt_disk : bytes := sample_mbr ++ sample_gpt_header ++ sample_gpt_entries ++ zeros 2560.

Definition sample_gpt_table : RibonGptTable := mkTable (Some [empty_partition; empty_partition]) 2 5 0 0 0.

Lemma sample_gpt_parses : ribon_gpt_parse_bytes (Some sample_gpt_disk) 4096 512 (Some sample_gpt_table) =
  (GPT_OK, Some (mkTable (Some [mkPartition (replicate 16 7) (replicate 16 9) 4 5 0 1; empty_partition]) 2 1 3 6 7)).
Proof. vm_compute. done. Qed.

Lemma gpt_parse_exact_witness :
  gpt_outcome (gpt_acceptable sample_gpt_disk 512 2) sample_gpt_disk 512 [empty_partition; empty_partition]
    (ribon_gpt_parse_bytes (Some sample_gpt_disk) (len sample_gpt_disk) 512 (Some sample_gpt_table)).
Proof.
  apply (gpt_parse_exact sample_gpt_disk 512 sample_gpt_table [empty_partition; empty_partition]).
  - apply octetsb_octets. vm_compute. reflexivity.
  - vm_compute. split; [discriminate|reflexivity].
  - lia.
  - reflexivity.
  - vm_compute. discriminate.
  - vm_compute. reflexivity.
  - reflexivity.
  - reflexivity.
  - reflexivity.
Defined.
