(* ===== verification/Fat32.v ===== *)
(** * The FAT32 reader ([src/filesystems/fat32.c])

    Mounting checks the geometry of a volume; opening walks the directories along an
    absolute path of short names; reading follows the cluster chain of a file and
    copies a range of its bytes.

    The state of an operation is the world of the block device, the bytes of the
    caller's one-sector scratch buffer and, for [ribon_fat32_read], the bytes of the
    caller's output buffer.  An output structure is the result of a call that returns
    OK; where a call fails the code leaves it zero.  [FAT32_FAULT] is the dereference
    of a NULL device, which a mounted volume excludes. *)

From Stdlib Require Import String.
From S2P Require Import Prelude.
From S2P Require Import Effects.
From S2P Require Import Buffer.
From S2P Require Import Wire.
From S2P Require Import CString.
From S2P Require Import PayloadImage.
From S2P Require Import BlockStorage.

Definition RIBON_FAT32_MAX_PATH_COMPONENTS : Z := 8.
Definition RIBON_FAT32_MAX_PATH_COMPONENT_BYTES : Z := 12.
Definition RIBON_FAT32_DIRECTORY_ENTRY_BYTES : Z := 32.
Definition RIBON_FAT32_ENTRY_DELETED : Z := 0xe5.
Definition RIBON_FAT32_ENTRY_END : Z := 0x00.
Definition RIBON_FAT32_ATTRIBUTE_DIRECTORY : Z := 0x10.
Definition RIBON_FAT32_ATTRIBUTE_VOLUME_ID : Z := 0x08.
Definition RIBON_FAT32_ATTRIBUTE_LONG_NAME : Z := 0x0f.
Definition RIBON_FAT32_EOC_MINIMUM : Z := 0x0ffffff8.
Definition RIBON_FAT32_BAD_CLUSTER : Z := 0x0ffffff7.

Inductive RibonFat32Status :=
  | FAT32_OK | FAT32_BAD_ARGUMENT | FAT32_BAD_BPB | FAT32_OUT_OF_RANGE | FAT32_IO | FAT32_BAD_PATH
  | FAT32_NOT_FOUND | FAT32_NOT_REGULAR | FAT32_OUT_OF_CAPACITY | FAT32_CHAIN_CYCLE | FAT32_CORRUPT_CHAIN
  | FAT32_FAULT.

Definition ribon_fat32_status_name (status : RibonFat32Status) : bytes :=
  match status with
  | FAT32_OK => text "ok"
  | FAT32_BAD_ARGUMENT => text "bad-argument"
  | FAT32_BAD_BPB => text "bad-bpb"
  | FAT32_OUT_OF_RANGE => text "out-of-range"
  | FAT32_IO => text "io"
  | FAT32_BAD_PATH => text "bad-path"
  | FAT32_NOT_FOUND => text "not-found"
  | FAT32_NOT_REGULAR => text "not-regular"
  | FAT32_OUT_OF_CAPACITY => text "out-of-capacity"
  | FAT32_CHAIN_CYCLE => text "chain-cycle"
  | FAT32_CORRUPT_CHAIN => text "corrupt-chain"
  | FAT32_FAULT => text "unknown"
  end.

(** The scratch descriptor; the bytes it points to are in the state. *)
Record RibonFat32Scratch := mkScratch {
  scratch_sector_bytes : Z;
  scratch_sector_capacity : Z;
}.

Record RibonFat32Volume {W : Type} := mkVolume {
  volume_device : option (RibonReadOnlyBlockDevice W);
  volume_partition_first_block : Z;
  volume_partition_block_count : Z;
  volume_fat_first_block : Z;
  volume_data_first_block : Z;
  volume_sectors_per_cluster : Z;
  volume_root_cluster : Z;
  volume_cluster_count : Z;
  volume_max_cluster : Z;
}.
Arguments RibonFat32Volume : clear implicits.
Arguments mkVolume {W} _ _ _ _ _ _ _ _ _.

Record RibonFat32File := mkFile {
  file_first_cluster : Z;
  file_size : Z;
}.

Record Media {W : Type} := mkMedia {
  media_world : W;
  media_scratch : bytes;
  media_buffer : bytes;
}.
Arguments Media : clear implicits.
Arguments mkMedia {W} _ _ _.

Section Fat32.
Context {W : Type}.
Implicit Types volume : RibonFat32Volume W.

Abbreviation Fat := (M (Media W) RibonFat32Status).

(** The bytes a read left in the scratch buffer. *)
Definition sector : Fat bytes := fun m => (m, inr (media_scratch m)).

(** A byte range copied to the output buffer. *)
Definition output (offset : Z) (source : bytes) : Fat unit := fun m =>
  (mkMedia (media_world m) (media_scratch m) (store (media_buffer m) offset source), inr tt).

(** [volume->device], as the code dereferences it. *)
Definition the_device volume : Fat (RibonReadOnlyBlockDevice W) :=
  match volume_device volume with None => leave FAT32_FAULT | Some d => mret d end.

(** [device->read(context, block, scratch->sector_bytes, 1, 0)] *)
Definition call_block_read (device : RibonReadOnlyBlockDevice W) (block : Z) : Fat RibonBlockStatus := fun m =>
  match device_read device with
  | None => (m, inl FAT32_FAULT)
  | Some read =>
    let '(w, status, scratch) := read (media_world m) block (media_scratch m) 1 0 in
    (mkMedia w scratch (media_buffer m), inr status)
  end.

(** The callers have checked the pointers to the volume and the scratch descriptor. *)
Definition fat32_read_sector volume (block : Z) (scratch : RibonFat32Scratch) : Fat unit :=
  _ ← leave_if (scratch_sector_bytes scratch =? 0) FAT32_OUT_OF_RANGE;
  device ← the_device volume;
  _ ← leave_if ((scratch_sector_capacity scratch <? device_logical_block_bytes device) ||
                (block <? volume_partition_first_block volume) ||
                (volume_partition_block_count volume <=? block - volume_partition_first_block volume))
               FAT32_OUT_OF_RANGE;
  status ← call_block_read device block;
  leave_if (negb (bool_decide (status = BLOCK_OK))) FAT32_IO.

Definition fat32_cluster_first_block volume (cluster : Z) : RibonFat32Status + Z :=
  if (cluster <? 2) || (volume_max_cluster volume <? cluster) ||
     (UINT64_MAX / volume_sectors_per_cluster volume <? cluster - 2) then inl FAT32_CORRUPT_CHAIN
  else
    let relative := u64 ((cluster - 2) * volume_sectors_per_cluster volume) in
    let partition_end := u64 (volume_partition_first_block volume + volume_partition_block_count volume) in
    let first := u64 (volume_data_first_block volume + relative) in
    if (UINT64_MAX - volume_data_first_block volume <? relative) || (partition_end <? first) ||
       (u64 (partition_end - first) <? volume_sectors_per_cluster volume) then inl FAT32_CORRUPT_CHAIN
    else inr first.

(** The next cluster, and whether the chain ends. *)
Definition fat32_next_cluster volume (cluster : Z) (scratch : RibonFat32Scratch) : Fat (Z * bool) :=
  _ ← leave_if ((cluster <? 2) || (volume_max_cluster volume <? cluster)) FAT32_CORRUPT_CHAIN;
  device ← the_device volume;
  let offset := cluster * 4 in
  let block := u64 (volume_fat_first_block volume + offset / device_logical_block_bytes device) in
  let within := u32 (offset mod device_logical_block_bytes device) in
  _ ← leave_if (u32 (device_logical_block_bytes device - 4) <? within) FAT32_CORRUPT_CHAIN;
  _ ← fat32_read_sector volume block scratch;
  data ← sector;
  let next := Z.land (load_u32 data within) 0x0fffffff in
  let end_of_chain := RIBON_FAT32_EOC_MINIMUM <=? next in
  _ ← leave_if (negb end_of_chain &&
                ((next <? 2) || (volume_max_cluster volume <? next) || (next =? RIBON_FAT32_BAD_CLUSTER)))
               FAT32_CORRUPT_CHAIN;
  mret (next, end_of_chain).

(** ** Short names *)

Definition short_name_byte (byte : Z) : bool :=
  ((65 <=? byte) && (byte <=? 90)) || ((48 <=? byte) && (byte <=? 57)) ||
  (byte =? 95) || (byte =? 45) || (byte =? 36) || (byte =? 126) || (byte =? 33) ||
  (byte =? 35) || (byte =? 37) || (byte =? 38) || (byte =? 39) || (byte =? 40) ||
  (byte =? 41) || (byte =? 64) || (byte =? 94).

(** The position of the only dot, or [size] where there is none. *)
Definition find_dot (component : bytes) : option Z :=
  let size := len component in
  match foldE (fun dot index =>
           if byte_at component index =? 46
           then if dot !=? size then inl tt else inr index
           else inr dot) (upto size) size with
  | inl _ => None
  | inr dot => Some dot
  end.

Definition fat32_make_short_name (component : bytes) : option bytes :=
  let size := len component in
  if (size =? 0) || (RIBON_FAT32_MAX_PATH_COMPONENT_BYTES <? size) then None
  else
    match find_dot component with
    | None => None
    | Some dot =>
      let extension := if dot !=? size then size - dot - 1 else 0 in
      if (dot =? 0) || (8 <? dot) || (3 <? extension) then None
      else
        match foldE (fun out index =>
                 if index =? dot then inr out
                 else
                   let byte := byte_at component index in
                   let byte := if (97 <=? byte) && (byte <=? 122) then byte - 32 else byte in
                   if negb (short_name_byte byte) then inl tt
                   else
                     let destination := if (dot =? size) || (index <? dot) then index else 8 + index - dot - 1 in
                     inr (store_u8 out destination byte))
                (upto size) (replicate 11 32) with
        | inl _ => None
        | inr out => Some out
        end
    end.

(** ** Directories *)

(** One directory entry: the end of the directory, an entry of another name, or
    the entry. *)
Definition scan_entry (wanted data : bytes) (offset : Z) : RibonFat32Status + option bytes :=
  let entry := slice offset RIBON_FAT32_DIRECTORY_ENTRY_BYTES data in
  if byte_at entry 0 =? RIBON_FAT32_ENTRY_END then inl FAT32_NOT_FOUND
  else if (byte_at entry 0 =? RIBON_FAT32_ENTRY_DELETED) ||
          (byte_at entry 11 =? RIBON_FAT32_ATTRIBUTE_LONG_NAME) ||
          (Z.land (byte_at entry 11) RIBON_FAT32_ATTRIBUTE_VOLUME_ID !=? 0) then inr None
  else if bytes_equal (slice 0 11 entry) wanted then inr (Some entry)
  else inr None.

Fixpoint scan_sector (wanted data : bytes) (entries : list Z) : RibonFat32Status + option bytes :=
  match entries with
  | [] => inr None
  | index :: rest =>
    match scan_entry wanted data (index * RIBON_FAT32_DIRECTORY_ENTRY_BYTES) with
    | inr None => scan_sector wanted data rest
    | result => result
    end
  end.

Fixpoint scan_sectors volume (first_block : Z) (wanted : bytes) (scratch : RibonFat32Scratch)
    (sectors : list Z) : Fat (option bytes) :=
  match sectors with
  | [] => mret None
  | index :: rest =>
    _ ← fat32_read_sector volume (u64 (first_block + index)) scratch;
    data ← sector;
    device ← the_device volume;
    result ← lift (scan_sector wanted data
                     (upto (device_logical_block_bytes device / RIBON_FAT32_DIRECTORY_ENTRY_BYTES)));
    match result with
    | Some entry => mret (Some entry)
    | None => scan_sectors volume first_block wanted scratch rest
    end
  end.

(** [chain_steps] clusters of the directory are left to look at. *)
Fixpoint find_in_chain volume (wanted : bytes) (scratch : RibonFat32Scratch) (chain_steps : nat)
    (cluster : Z) : Fat bytes :=
  match chain_steps with
  | O => leave FAT32_CHAIN_CYCLE
  | S steps =>
    first_block ← lift (fat32_cluster_first_block volume cluster);
    found ← scan_sectors volume first_block wanted scratch (upto (volume_sectors_per_cluster volume));
    match found with
    | Some entry => mret entry
    | None =>
      '(next, end_of_chain) ← fat32_next_cluster volume cluster scratch;
      _ ← leave_if end_of_chain FAT32_NOT_FOUND;
      find_in_chain volume wanted scratch steps next
    end
  end.

Definition fat32_find_directory_entry volume (first_cluster : Z) (wanted : bytes)
    (scratch : RibonFat32Scratch) : Fat bytes :=
  find_in_chain volume wanted scratch (Z.to_nat (volume_cluster_count volume)) first_cluster.

(** ** Mounting *)

Definition ribon_fat32_mount (out_null : bool) (device : option (RibonReadOnlyBlockDevice W))
    (partition_first_block partition_block_count : Z) (scratch : option RibonFat32Scratch) :
    Fat (RibonFat32Volume W) :=
  match device, scratch with
  | Some d, Some s =>
    _ ← leave_if (out_null || negb (ribon_read_only_block_device_is_valid device) ||
                  (scratch_sector_bytes s =? 0) ||
                  (scratch_sector_capacity s <? device_logical_block_bytes d) ||
                  (partition_block_count =? 0) || (device_block_count d <=? partition_first_block) ||
                  (device_block_count d - partition_first_block <? partition_block_count))
                 FAT32_BAD_ARGUMENT;
    _ ← fat32_read_sector (mkVolume (Some d) partition_first_block partition_block_count 0 0 0 0 0 0)
          partition_first_block s;
    bpb ← sector;
    let bytes_per_sector := load_u16 bpb 11 in
    let sectors_per_cluster := byte_at bpb 13 in
    let reserved_sectors := load_u16 bpb 14 in
    let fat_count := byte_at bpb 16 in
    let total_sectors := if load_u16 bpb 19 =? 0 then load_u32 bpb 32 else load_u16 bpb 19 in
    let sectors_per_fat := load_u32 bpb 36 in
    let root_cluster := load_u32 bpb 44 in
    _ ← leave_if ((load_u16 bpb 510 !=? 0xaa55) || (bytes_per_sector !=? device_logical_block_bytes d) ||
                  negb (power_of_two bytes_per_sector) || negb (power_of_two sectors_per_cluster) ||
                  (128 <? sectors_per_cluster) || (reserved_sectors =? 0) ||
                  ((fat_count !=? 1) && (fat_count !=? 2)) || (load_u16 bpb 17 !=? 0) ||
                  (sectors_per_fat =? 0) || (total_sectors =? 0) ||
                  (partition_block_count <? total_sectors) || (root_cluster <? 2))
                 FAT32_BAD_BPB;
    let first_data_relative := reserved_sectors + fat_count * sectors_per_fat in
    _ ← leave_if (total_sectors <=? first_data_relative) FAT32_BAD_BPB;
    let data_sectors := total_sectors - first_data_relative in
    _ ← leave_if ((data_sectors / sectors_per_cluster <? 65525) ||
                  (0x0fffffed <? data_sectors / sectors_per_cluster) ||
                  (sectors_per_fat * bytes_per_sector / 4 <? data_sectors / sectors_per_cluster + 2))
                 FAT32_BAD_BPB;
    let cluster_count := u32 (data_sectors / sectors_per_cluster) in
    let max_cluster := u32 (cluster_count + 1) in
    _ ← leave_if (max_cluster <? root_cluster) FAT32_BAD_BPB;
    mret (mkVolume (Some d) partition_first_block total_sectors
            (u64 (partition_first_block + reserved_sectors)) (u64 (partition_first_block + first_data_relative))
            sectors_per_cluster root_cluster cluster_count max_cluster)
  | _, _ => leave FAT32_BAD_ARGUMENT
  end.

(** ** Opening *)

(** The cluster an entry names. *)
Definition entry_first_cluster (entry : bytes) : Z :=
  Z.lor (Z.shiftl (load_u16 entry 20) 16) (load_u16 entry 26).

(** A path component that ends: it is looked up in the directory at [cluster]. *)
Definition open_component volume (scratch : RibonFat32Scratch) (cluster component_count : Z)
    (component : bytes) : Fat bytes :=
  _ ← leave_if ((len component =? 0) || (RIBON_FAT32_MAX_PATH_COMPONENTS <? component_count)) FAT32_BAD_PATH;
  match fat32_make_short_name component with
  | None => leave FAT32_BAD_PATH
  | Some wanted => fat32_find_directory_entry volume cluster wanted scratch
  end.

(** [component] is the part of the path since the last slash, [rest] what follows up
    to the terminating NUL, and [component_count] the number of components before. *)
Fixpoint open_path volume (scratch : RibonFat32Scratch) (cluster component_count : Z)
    (component rest : bytes) : Fat RibonFat32File :=
  match rest with
  | [] =>
    entry ← open_component volume scratch cluster (component_count + 1) component;
    let first_cluster := entry_first_cluster entry in
    let size := load_u32 entry 28 in
    _ ← leave_if (Z.land (byte_at entry 11) RIBON_FAT32_ATTRIBUTE_DIRECTORY !=? 0) FAT32_NOT_REGULAR;
    _ ← leave_if ((size !=? 0) && ((first_cluster <? 2) || (volume_max_cluster volume <? first_cluster)))
                 FAT32_CORRUPT_CHAIN;
    mret (mkFile first_cluster size)
  | terminal :: rest' =>
    if terminal =? 47 then
      entry ← open_component volume scratch cluster (component_count + 1) component;
      let first_cluster := entry_first_cluster entry in
      _ ← leave_if ((Z.land (byte_at entry 11) RIBON_FAT32_ATTRIBUTE_DIRECTORY =? 0) || (first_cluster <? 2) ||
                    (volume_max_cluster volume <? first_cluster)) FAT32_NOT_FOUND;
      open_path volume scratch first_cluster (component_count + 1) [] rest'
    else
      _ ← leave_if ((terminal <? 0x21) || (0x7e <? terminal)) FAT32_BAD_PATH;
      open_path volume scratch cluster component_count (component ++ [terminal]) rest'
  end.

Definition ribon_fat32_open (volume : option (RibonFat32Volume W)) (path : cstring)
    (scratch : option RibonFat32Scratch) (out_null : bool) : Fat RibonFat32File :=
  match volume, path, scratch with
  | Some v, Some (first :: rest), Some s =>
    _ ← leave_if (is_null (volume_device v) || (first !=? 47) || (len rest =? 0) ||
                  (scratch_sector_bytes s =? 0) || out_null) FAT32_BAD_ARGUMENT;
    open_path v s (volume_root_cluster v) 0 [] rest
  | _, _, _ => leave FAT32_BAD_ARGUMENT
  end.

(** ** Reading *)

(** [for (skipped = 0; skipped < skip_clusters; ++skipped)] *)
Fixpoint skip_chain volume (scratch : RibonFat32Scratch) (skip_clusters : nat) (cluster : Z) : Fat Z :=
  match skip_clusters with
  | O => mret cluster
  | S skips =>
    '(next, end_of_chain) ← fat32_next_cluster volume cluster scratch;
    _ ← leave_if end_of_chain FAT32_CORRUPT_CHAIN;
    skip_chain volume scratch skips next
  end.

(** The sectors of one cluster, with the bytes [written] so far and those that
    [remaining] to be skipped. *)
Fixpoint read_cluster volume (scratch : RibonFat32Scratch) (size first_block : Z) (sectors : list Z)
    (written remaining : Z) : Fat (Z * Z) :=
  match sectors with
  | [] => mret (written, remaining)
  | index :: rest =>
    if negb (written <? size) then mret (written, remaining)
    else
      _ ← fat32_read_sector volume (u64 (first_block + index)) scratch;
      data ← sector;
      device ← the_device volume;
      let block_bytes := device_logical_block_bytes device in
      if block_bytes <=? remaining
      then read_cluster volume scratch size first_block rest written (remaining - block_bytes)
      else
        let available := block_bytes - remaining in
        let take := if size - written <? available then size - written else available in
        _ ← output written (slice remaining take data);
        read_cluster volume scratch size first_block rest (written + take) 0
  end.

(** [chain_steps] more clusters may be read. *)
Fixpoint read_chain volume (scratch : RibonFat32Scratch) (size : Z) (chain_steps : nat)
    (cluster written remaining : Z) : Fat unit :=
  match chain_steps with
  | O => leave FAT32_CHAIN_CYCLE
  | S steps =>
    if negb (written <? size) then leave FAT32_CHAIN_CYCLE
    else
      first_block ← lift (fat32_cluster_first_block volume cluster);
      '(written, remaining) ← read_cluster volume scratch size first_block
                                (upto (volume_sectors_per_cluster volume)) written remaining;
      if written =? size then mret tt
      else
        '(next, end_of_chain) ← fat32_next_cluster volume cluster scratch;
        _ ← leave_if end_of_chain FAT32_CORRUPT_CHAIN;
        read_chain volume scratch size steps next written remaining
  end.

(** [buffer_null] says that the pointer to the output buffer is NULL. *)
Definition ribon_fat32_read (volume : option (RibonFat32Volume W)) (file : option RibonFat32File) (offset : Z)
    (buffer_null : bool) (size : Z) (scratch : option RibonFat32Scratch) : Fat unit :=
  match volume, file, scratch with
  | Some v, Some f, Some s =>
    _ ← leave_if ((scratch_sector_bytes s =? 0) || ((size !=? 0) && buffer_null) || (file_size f <? offset) ||
                  (file_size f - offset <? size)) FAT32_BAD_ARGUMENT;
    if size =? 0 then mret tt
    else
      device ← the_device v;
      let cluster_bytes := u64 (volume_sectors_per_cluster v * device_logical_block_bytes device) in
      _ ← leave_if ((cluster_bytes =? 0) || (file_first_cluster f <? 2) ||
                    (volume_max_cluster v <? file_first_cluster f)) FAT32_CORRUPT_CHAIN;
      cluster ← skip_chain v s (Z.to_nat (offset / cluster_bytes)) (file_first_cluster f);
      read_chain v s size (Z.to_nat (volume_cluster_count v)) cluster 0 (offset mod cluster_bytes)
  | _, _, _ => leave FAT32_BAD_ARGUMENT
  end.
End Fat32.
