(* ===== verification/Fat32Volume.v ===== *)
(** * What a FAT32 volume holds, and reading a file ([ribon_fat32_read])

    The files of a volume as functions of the blocks of the medium: the links of
    the allocation table, the bytes of a cluster chain, the entries of a directory.  The
    reader of [Fat32.v] follows the table as specified here, and reads no block outside
    the volume.

    The bytes copied to the caller are the requested range of the file's cluster chain, and
    the call succeeds on a device that works exactly when that chain is long enough. *)

From S2P Require Import Prelude.
From S2P Require Import Effects.
From S2P Require Import Buffer.
From S2P Require Import Wire.
From S2P Require Import PayloadImage.
From S2P Require Import BlockStorage.
From S2P Require Import Fat32.

(** ** Geometry *)

(** What mounting establishes: the allocation table and the data clusters lie in the
    partition one after the other, and the table has an entry for every cluster. *)
Record mounted {W} (d : RibonReadOnlyBlockDevice W) (v : RibonFat32Volume W) : Prop := {
  mounted_device : volume_device v = Some d;
  mounted_read : device_read d <> None;
  mounted_block : exists k, 9 <= k <= 12 /\ device_logical_block_bytes d = 2 ^ k;
  mounted_first : 0 <= volume_partition_first_block v;
  mounted_end : volume_partition_first_block v + volume_partition_block_count v <= device_block_count d;
  mounted_word : word 64 (device_block_count d);
  mounted_fat : volume_partition_first_block v < volume_fat_first_block v;
  mounted_table : forall c, c <= volume_max_cluster v ->
    volume_fat_first_block v + c * 4 / device_logical_block_bytes d < volume_data_first_block v;
  mounted_sectors : 0 < volume_sectors_per_cluster v <= 128;
  mounted_data : volume_data_first_block v + volume_cluster_count v * volume_sectors_per_cluster v <=
    volume_partition_first_block v + volume_partition_block_count v;
  mounted_count : 65525 <= volume_cluster_count v <= 0x0fffffed;
  mounted_max : volume_max_cluster v = volume_cluster_count v + 1;
  mounted_root : 2 <= volume_root_cluster v <= volume_max_cluster v;
}.

(** The scratch buffer holds a sector. *)
Definition scratch_fits {W} (d : RibonReadOnlyBlockDevice W) (s : RibonFat32Scratch) : Prop :=
  scratch_sector_bytes s <> 0 /\ device_logical_block_bytes d <= scratch_sector_capacity s.

(** ** Files *)

Inductive Link := Next (cluster : Z) | End | Corrupt.

Section Volume.
Context {W : Type} (d : RibonReadOnlyBlockDevice W) (v : RibonFat32Volume W) (content : Z -> bytes).

Definition data_cluster (c : Z) : Prop := 2 <= c <= volume_max_cluster v.

Definition table_entry (c : Z) : Z :=
  let offset := c * 4 in
  Z.land (load_u32 (content (volume_fat_first_block v + offset / device_logical_block_bytes d))
            (offset mod device_logical_block_bytes d)) 0x0fffffff.

(** What the allocation table says follows a cluster. *)
Definition link (c : Z) : Link :=
  let next := table_entry c in
  if RIBON_FAT32_EOC_MINIMUM <=? next then End
  else if (2 <=? next) && (next <=? volume_max_cluster v) then Next next
  else Corrupt.

Definition cluster_block (c : Z) : Z :=
  volume_data_first_block v + (c - 2) * volume_sectors_per_cluster v.

Definition blocks_data (first count : Z) : bytes := concat ((fun i => content (first + i)) <$> upto count).

Definition cluster_data (c : Z) : bytes := blocks_data (cluster_block c) (volume_sectors_per_cluster v).

Definition cluster_bytes : Z := volume_sectors_per_cluster v * device_logical_block_bytes d.

(** The cluster [n] links behind [c]. *)
Fixpoint follow (n : nat) (c : Z) : option Z :=
  match n with
  | O => Some c
  | S n => match link c with Next c' => follow n c' | _ => None end
  end.

(** The [n] clusters from [c] on. *)
Fixpoint chain (n : nat) (c : Z) : option (list Z) :=
  match n with
  | O => Some []
  | S O => Some [c]
  | S n => match link c with Next c' => (c ::.) <$> chain n c' | _ => None end
  end.

(** The bytes of a chain. *)
Definition chain_data (l : list Z) : bytes := concat (cluster_data <$> l).

Lemma link_data c c' : link c = Next c' -> data_cluster c'.
Proof. unfold link, data_cluster. destruct (_ <=? _); [done|]. destruct (_ && _) eqn:E; [|done]. intros [= <-]. bool_to_prop. lia. Qed.

Lemma chain_S n c : n <> O -> chain (S n) c = match link c with Next c' => (c ::.) <$> chain n c' | _ => None end.
Proof. by destruct n. Qed.

Lemma chain_follow k n c : n <> O -> chain (k + n) c = match follow k c with
  | Some c' => match chain n c' with Some l => (.++ l) <$> chain k c | None => None end | None => None end.
Proof.
  intros Hn. revert c. induction k as [|k IH]; intros c.
  { cbn [Nat.add follow]. destruct (chain n c); done. }
  cbn [Nat.add]. rewrite chain_S by lia. cbn [follow]. destruct (link c) as [c'| |] eqn:El; [|done..].
  rewrite IH. destruct (follow k c') as [c''|] eqn:Ef; [|done]. destruct (chain n c'') as [l|]; [|done].
  destruct k as [|k]; [done|]. rewrite (chain_S (S k)), El by lia. by destruct (chain (S k) c').
Qed.

Lemma chain_length n c l : chain n c = Some l -> length l = n.
Proof.
  revert c l. induction n as [|n IH]; intros c l; [by intros [= <-]|].
  destruct n as [|n]; [by intros [= <-]|]. rewrite chain_S by done. destruct (link c); [|done..].
  destruct (chain (S n) cluster) as [l'|] eqn:E; [|done]. intros [= <-]. cbn. by rewrite (IH _ _ E).
Qed.

Lemma follow_data k c c' : data_cluster c -> follow k c = Some c' -> data_cluster c'.
Proof.
  revert c. induction k as [|k IH]; intros c Hc; cbn; [by intros [= <-]|].
  destruct (link c) eqn:E; [|done..]. apply IH. by eapply link_data.
Qed.

Lemma chain_data_cluster n c l : data_cluster c -> chain n c = Some l -> Forall data_cluster l.
Proof.
  revert c l. induction n as [|n IH]; intros c l Hc; [intros [= <-]; constructor|].
  destruct n as [|n]; [intros [= <-]; by constructor|]. rewrite chain_S by done. destruct (link c) eqn:E; [|done..].
  destruct (chain (S n) cluster) as [l'|] eqn:E'; [|done]. intros [= <-]. constructor; [done|].
  eapply IH; [|exact E']. by eapply link_data.
Qed.
End Volume.

(** ** Reading sectors *)

Lemma load_u32_prefix b c n o : slice 0 n b = c -> 0 <= o -> o + 4 <= n -> n <= len b -> load_u32 b o = load_u32 c o.
Proof.
  intros <- H1 H2 H3. unfold load_u32. rewrite !byte_at_slice by lia. repeat f_equal; lia.
Qed.

Section Sectors.
Context {W : Type} (d : RibonReadOnlyBlockDevice W) (v : RibonFat32Volume W) (s : RibonFat32Scratch).
Context (content : Z -> bytes) (steady : W -> Prop).
Context `{!ExactReads d content (volume_partition_first_block v) (volume_partition_block_count v) steady}.
Context (Hd : volume_device v = Some d) (Hread : device_read d <> None) (Hs : scratch_fits d s).

Abbreviation block_bytes := (device_logical_block_bytes d).
Abbreviation available := (serves d (volume_partition_first_block v) (volume_partition_block_count v) steady).

(** The state between the calls: the output buffer holds [b]. *)
Definition ready (b : bytes) (m : Media W) : Prop :=
  steady (media_world m) /\ len (media_scratch m) = scratch_sector_capacity s /\ media_buffer m = b.

(** After a block was read. *)
Definition holding (b : bytes) (block : Z) (m : Media W) : Prop :=
  ready b m /\ slice 0 block_bytes (media_scratch m) = content block.

(** After a failure: the device did not do its part, or else [P]. *)
Definition refused (P : Prop) (m : Media W) : Prop := steady (media_world m) /\ (available -> P).

Definition in_partition (block : Z) : Prop :=
  volume_partition_first_block v <= block < volume_partition_first_block v + volume_partition_block_count v.

Lemma read_sector_spec b block :
  triple (ready b) (fat32_read_sector v block s) (fun _ => holding b block)
    (fun _ => refused (~ in_partition block)).
Proof.
  intros m (Hst & Hlen & Hb). unfold fat32_read_sector, the_device. rewrite Hd.
  destruct Hs as [Hs1 Hs2]. compare.
  unfold mbind, M_bind, mret, M_ret, leave_if. cbn.
  destruct (_ <? _) eqn:E1; cbn; [bool_to_prop; lia|].
  destruct (block <? _) eqn:E2; cbn; [unfold refused, in_partition; bool_to_prop; split; [done|lia]|].
  destruct (_ <=? _) eqn:E3; cbn; [unfold refused, in_partition; bool_to_prop; split; [done|lia]|].
  bool_to_prop. unfold call_block_read. destruct (device_read d) as [read|] eqn:Er; [|done].
  destruct (read _ _ _ _ _) as [[w st] buf] eqn:Ec.
  assert (Hin : in_partition block) by (unfold in_partition; lia).
  assert (Hle : block_bytes <= len (media_scratch m)) by lia.
  destruct (exact_read _ _ _ _ _ _ _ Er Hst Hin Hle Ec) as (H1 & H2 & H3).
  case_bool_decide as E; cbn.
  - unfold holding, ready. cbn. rewrite H2. split; [done|]. rewrite (H3 E). destruct (exact_block block Hin) as [Hl _].
    apply slice_store_same; lia.
  - split; [done|]. intros Hav _. destruct (Hav _ _ (media_scratch m) _ Er Hst Hin) as (? & ? & Ec'). rewrite Ec in Ec'.
    by injection Ec'.
Qed.
End Sectors.

Section Table.
Context {W : Type} (d : RibonReadOnlyBlockDevice W) (v : RibonFat32Volume W) (s : RibonFat32Scratch).
Context (content : Z -> bytes) (steady : W -> Prop).
Context `{!ExactReads d content (volume_partition_first_block v) (volume_partition_block_count v) steady}.
Context (Hm : mounted d v) (Hs : scratch_fits d s).

Abbreviation block_bytes := (device_logical_block_bytes d).
Abbreviation ready := (ready s steady).
Abbreviation refused := (refused d v steady).
Abbreviation in_partition := (in_partition v).

(** ** The allocation table *)

Lemma block_bytes_bound : 512 <= block_bytes <= 4096.
Proof.
  destruct (mounted_block _ _ Hm) as (k & [H1 H2] & ->).
  assert (2 ^ 9 <= 2 ^ k <= 2 ^ 12) as [? ?] by (split; apply Z.pow_le_mono_r; lia). cbn in *. lia.
Qed.

Lemma block_bytes_divides q : q ∈ [4; 32] -> (q | block_bytes).
Proof.
  intros Hq. destruct (mounted_block _ _ Hm) as (k & [H1 H2] & ->).
  assert (exists j, 0 <= j <= 5 /\ q = 2 ^ j) as (j & Hj & ->).
  { rewrite !elem_of_cons in Hq. destruct Hq as [->|[->|Hq]]; [by exists 2|by exists 5|by apply not_elem_of_nil in Hq]. }
  exists (2 ^ (k - j)). rewrite <- Z.pow_add_r by lia. f_equal. lia.
Qed.

Lemma cluster_first_block_spec c : data_cluster v c -> fat32_cluster_first_block v c = inr (cluster_block v c).
Proof.
  intros Hc. unfold data_cluster, cluster_block, fat32_cluster_first_block in *.
  pose proof (mounted_sectors _ _ Hm). pose proof (mounted_count _ _ Hm). pose proof (mounted_max _ _ Hm).
  pose proof (mounted_data _ _ Hm). pose proof (mounted_end _ _ Hm). pose proof (mounted_first _ _ Hm).
  pose proof (mounted_word _ _ Hm) as Hw. rewrite word64 in Hw.
  pose proof (mounted_fat _ _ Hm). pose proof (mounted_table _ _ Hm 0 ltac:(lia)) as Ht. rewrite Z.mul_0_l, Z.div_0_l in Ht by (pose proof block_bytes_bound; lia).
  assert (Hd : 2 ^ 56 <= UINT64_MAX / volume_sectors_per_cluster v).
  { apply Z.div_le_lower_bound; unfold UINT64_MAX; nia. }
  assert (Hr : 0 <= (c - 2) * volume_sectors_per_cluster v <= (volume_cluster_count v - 1) * volume_sectors_per_cluster v) by nia.
  rewrite (wrap_small 64 ((c - 2) * _)) by (rewrite word64; nia).
  rewrite (wrap_small 64 (volume_partition_first_block v + _)) by (rewrite word64; nia).
  rewrite (wrap_small 64 (volume_data_first_block v + _)) by (rewrite word64; nia).
  rewrite wrap_small by (rewrite word64; nia).
  compare. reflexivity.
Qed.

Lemma next_cluster_spec b c : data_cluster v c ->
  triple (ready b) (fat32_next_cluster v c s)
    (fun r m => ready b m /\
       match link d v content c with Next n => r = (n, false) | End => snd r = true | Corrupt => False end)
    (fun _ => refused (link d v content c = Corrupt)).
Proof.
  intros Hc m Hr. pose proof block_bytes_bound as HB. unfold data_cluster in Hc.
  pose proof (mounted_count _ _ Hm). pose proof (mounted_max _ _ Hm). pose proof (mounted_first _ _ Hm).
  pose proof (mounted_end _ _ Hm). pose proof (mounted_word _ _ Hm) as Hw. rewrite word64 in Hw.
  pose proof (mounted_fat _ _ Hm). pose proof (mounted_table _ _ Hm c ltac:(lia)) as Ht.
  pose proof (mounted_data _ _ Hm). pose proof (mounted_sectors _ _ Hm).
  pose proof (Z.mod_pos_bound (c * 4) block_bytes ltac:(lia)) as Hmod.
  pose proof (Z.div_pos (c * 4) block_bytes ltac:(lia) ltac:(lia)) as Hdiv.
  assert (Hin : in_partition (volume_fat_first_block v + c * 4 / block_bytes)) by (unfold in_partition; nia).
  assert (Hfit : (c * 4) mod block_bytes <= block_bytes - 4).
  { destruct (block_bytes_divides 4 ltac:(left)) as [q Hq]. rewrite Hq in *. rewrite Z.mul_mod_distr_r by lia.
    pose proof (Z.mod_pos_bound c q ltac:(lia)). nia. }
  unfold fat32_next_cluster, leave_if, the_device. rewrite (mounted_device _ _ Hm). compare.
  unfold mbind, M_bind, mret, M_ret. cbn.
  rewrite (wrap_small 64) by (rewrite word64; unfold in_partition in Hin; lia).
  rewrite !(wrap_small 32) by (rewrite word32; unfold UINT32_MAX; lia). compare.
  pose proof (read_sector_spec d v s content steady (mounted_device _ _ Hm) (mounted_read _ _ Hm) Hs b (volume_fat_first_block v + c * 4 / block_bytes) m Hr) as Hread.
  destruct (fat32_read_sector _ _ _ _) as [m' [st|[]]].
  { destruct Hread as [Hst Hread]. split; [done|]. intros Ha. by destruct (Hread Ha). }
  destruct Hread as [Hr' Hc']. unfold sector. cbn.
  assert (Hsl : block_bytes <= len (media_scratch m')). { destruct Hr' as (_ & -> & _). apply Hs. }
  rewrite (load_u32_prefix _ _ _ _ Hc') by lia. unfold link, table_entry, RIBON_FAT32_BAD_CLUSTER.
  set (next := Z.land _ _). destruct (_ <=? next) eqn:E1; cbn; [done|].
  rewrite (Z.ltb_antisym 2), (Z.ltb_antisym _ (volume_max_cluster v)).
  assert (Hst : steady (media_world m')) by apply Hr'.
  destruct (2 <=? next) eqn:E2, (next <=? _) eqn:E3; cbn; try done. bool_to_prop. by compare.
Qed.
End Table.

(** ** Reading a file *)

Lemma store_nil b o : store b o [] = b.
Proof. reflexivity. Qed.

Lemma slice_none o b : slice o 0 b = [].
Proof. reflexivity. Qed.

Section Read.
Context {W : Type} (d : RibonReadOnlyBlockDevice W) (v : RibonFat32Volume W) (s : RibonFat32Scratch).
Context (content : Z -> bytes) (steady : W -> Prop).
Context `{!ExactReads d content (volume_partition_first_block v) (volume_partition_block_count v) steady}.
Context (Hm : mounted d v) (Hs : scratch_fits d s).

Abbreviation block_bytes := (device_logical_block_bytes d).
Abbreviation available := (serves d (volume_partition_first_block v) (volume_partition_block_count v) steady).
Abbreviation ready := (ready s steady).
Abbreviation refused := (refused d v steady).
Abbreviation link := (link d v content).
Abbreviation follow := (follow d v content).
Abbreviation chain := (chain d v content).
Abbreviation cluster_bytes := (cluster_bytes d v).

Lemma skip_chain_spec b k c : data_cluster v c ->
  triple (ready b) (skip_chain v s k c) (fun c' m => ready b m /\ follow k c = Some c')
    (fun _ => refused (follow k c = None)).
Proof.
  revert c. induction k as [|k IH]; intros c Hc; cbn [skip_chain Fat32Volume.follow].
  { by apply triple_ret. }
  intros m Hr. pose proof (next_cluster_spec d v s content steady Hm Hs b c Hc m Hr) as Hn.
  unfold mbind at 1, M_bind. destruct (fat32_next_cluster v c s m) as [m1 [st|[n e]]].
  { destruct Hn as [Hst Hn]. split; [done|]. intros Ha. by rewrite (Hn Ha). }
  destruct Hn as [Hr1 Hl]. destruct (link c) as [n'| |] eqn:El; cbn in Hl; [|subst e; split; [apply Hr1|done]|done].
  injection Hl as -> ->. apply (IH n' ltac:(by eapply link_data) m1 Hr1).
Qed.

(** ** One cluster *)

(** A block of a data cluster. *)
Lemma cluster_block_in c i : data_cluster v c -> 0 <= i < volume_sectors_per_cluster v ->
  in_partition v (cluster_block v c + i) /\ word 64 (cluster_block v c + i).
Proof.
  unfold data_cluster, cluster_block, in_partition. intros Hc Hi.
  pose proof (mounted_count _ _ Hm). pose proof (mounted_max _ _ Hm). pose proof (mounted_data _ _ Hm).
  pose proof (mounted_first _ _ Hm). pose proof (mounted_end _ _ Hm). pose proof (mounted_fat _ _ Hm).
  pose proof (mounted_word _ _ Hm) as Hw. rewrite word64 in *. pose proof (block_bytes_bound d v Hm).
  pose proof (mounted_table _ _ Hm 0 ltac:(lia)) as Ht. rewrite Z.mul_0_l, Z.div_0_l in Ht by lia.
  nia.
Qed.

Definition sectors_data (c i n : Z) : bytes := concat ((fun j => content (cluster_block v c + j)) <$> seqZ i n).

Lemma sectors_data_cons c i n : 0 < n ->
  sectors_data c i n = content (cluster_block v c + i) ++ sectors_data c (Z.succ i) (Z.pred n).
Proof. intros Hn. unfold sectors_data. rewrite seqZ_cons by lia. done. Qed.

Lemma sectors_data_length c (n : nat) : data_cluster v c -> forall i, 0 <= i -> i + Z.of_nat n <= volume_sectors_per_cluster v ->
  len (sectors_data c i (Z.of_nat n)) = Z.of_nat n * block_bytes.
Proof.
  intros Hc. induction n as [|n IH]; intros i Hi Hn; [done|].
  rewrite sectors_data_cons, len_app by lia. replace (Z.pred (Z.of_nat (S n))) with (Z.of_nat n) by lia.
  rewrite IH by lia. destruct (cluster_block_in c i Hc ltac:(lia)) as [Hin _].
  destruct (exact_block _ Hin) as [-> _]. lia.
Qed.

Lemma cluster_data_length c : data_cluster v c -> len (cluster_data v content c) = cluster_bytes.
Proof.
  intros Hc. pose proof (mounted_sectors _ _ Hm). unfold Fat32Volume.cluster_bytes.
  rewrite <- (Z2Nat.id (volume_sectors_per_cluster v)) by lia.
  rewrite <- (sectors_data_length c (Z.to_nat (volume_sectors_per_cluster v)) Hc 0) by lia.
  by rewrite Z2Nat.id by lia.
Qed.

(** Some sectors of a cluster: of the bytes behind the [r] to be skipped, as many are
    copied as there are, or as are still wanted. *)
Lemma read_cluster_spec c size (n : nat) : data_cluster v c -> forall i b w r,
  0 <= i -> i + Z.of_nat n = volume_sectors_per_cluster v -> 0 <= w <= size -> 0 <= r -> size <= len b ->
  let D := sectors_data c i (Z.of_nat n) in
  let t := Z.min (size - w) (Z.max 0 (len D - r)) in
  triple (ready b) (read_cluster v s size (cluster_block v c) (seqZ i (Z.of_nat n)) w r)
    (fun '(w', r') m => ready (store b w (slice r t D)) m /\ w' = w + t /\ (w' < size -> r' = Z.max 0 (r - len D)))
    (fun _ => refused False).
Proof.
  intros Hc. pose proof (block_bytes_bound d v Hm) as HB.
  induction n as [|n IH]; intros i b w r Hi Hn Hw Hr Hlen; cbn zeta.
  { change (sectors_data c i (Z.of_nat 0)) with (@nil Z). rewrite (@len_nil Z). replace (Z.min _ _) with 0 by lia.
    apply triple_ret. intros m H0. rewrite slice_none, store_nil. split_and!; [done|lia|lia]. }
  pose proof (sectors_data_length c (S n) Hc i Hi ltac:(lia)) as HD.
  pose proof (sectors_data_length c n Hc (i + 1) ltac:(lia) ltac:(lia)) as HD'.
  destruct (cluster_block_in c i Hc ltac:(lia)) as [Hin Hword].
  destruct (exact_block _ Hin) as [HX _].
  rewrite seqZ_cons by lia. rewrite HD in *. rewrite sectors_data_cons by lia.
  replace (Z.pred (Z.of_nat (S n))) with (Z.of_nat n) by lia. rewrite <- Z.add_1_r.
  cbn [read_cluster]. destruct (Z.ltb_spec w size); cbn [negb].
  2:{ apply triple_ret. intros m H0. replace (Z.min _ _) with 0 by lia. rewrite slice_none, store_nil.
      split_and!; [done|lia|lia]. }
  rewrite (wrap_small 64) by done.
  intros m H0. pose proof (read_sector_spec d v s content steady (mounted_device _ _ Hm) (mounted_read _ _ Hm) Hs b (cluster_block v c + i) m H0) as Hread.
  unfold mbind at 1, M_bind. destruct (fat32_read_sector v _ s m) as [m1 [st|[]]].
  { destruct Hread as [Hst Hread]. split; [done|]. intros Ha. by destruct (Hread Ha). }
  destruct Hread as [Hr1 Hdata]. unfold sector, the_device, mbind, M_bind. rewrite (mounted_device _ _ Hm). cbn -[slice].
  destruct (Z.leb_spec block_bytes r) as [Hge|Hlt].
  - specialize (IH (i + 1) b w (r - block_bytes) ltac:(lia) ltac:(lia) Hw ltac:(lia) Hlen m1 Hr1). cbn zeta in IH.
    rewrite HD' in IH. destruct (read_cluster _ _ _ _ _ _ _ m1) as [m2 [st|[w' r']]]; [done|].
    destruct IH as (I1 & I2 & I3). rewrite slice_app_r, HX by lia.
    replace (Z.min (size - w) _) with (Z.min (size - w) (Z.max 0 (Z.of_nat n * block_bytes - (r - block_bytes)))) by lia.
    split_and!; [done|done|]. intros. rewrite I3 by done. lia.
  - set (t := if _ <? _ then _ else _).
    assert (Ht : t = Z.min (size - w) (block_bytes - r)) by (subst t; destruct (Z.ltb_spec (size - w) (block_bytes - r)); lia).
    clearbody t.
    assert (Hout : ready (store b w (slice r t (content (cluster_block v c + i))))
      (mkMedia (media_world m1) (media_scratch m1) (store (media_buffer m1) w (slice r t (media_scratch m1))))).
    { destruct Hr1 as (R1 & R2 & R3). split; [done|]. split; [done|]. cbn. rewrite R3, <- Hdata. f_equal.
      rewrite slice_slice by lia. f_equal. }
    specialize (IH (i + 1) _ (w + t) 0 ltac:(lia) ltac:(lia) ltac:(lia) ltac:(lia) ltac:(by rewrite len_store) _ Hout).
    cbn zeta in IH. rewrite HD' in IH. destruct (read_cluster _ _ _ _ _ _ _ _) as [m2 [st|[w' r']]]; [done|].
    destruct IH as (I1 & I2 & I3). set (t1 := Z.min _ _) in I1, I2.
    replace (Z.min (size - w) _) with (t + t1) by lia. split_and!; [|lia|intros; rewrite I3 by done; lia].
    rewrite slice_split by lia. rewrite slice_app_l by lia.
    destruct (decide (t1 = 0)) as [->|Hne].
    { rewrite slice_none, store_nil in I1. by rewrite slice_none, app_nil_r. }
    rewrite slice_app_r, HX by lia. replace (r + t - block_bytes) with 0 by lia.
    assert (Hl : len (slice r t (content (cluster_block v c + i))) = t) by (rewrite len_slice; lia).
    rewrite <- Hl in I1 at 2. by rewrite store_app in I1 by lia.
Qed.

(** ** The chain *)

(** The clusters that [k] bytes at offset [r] of the first one span. *)
Definition clusters_spanned (r k : Z) : nat := Z.to_nat ((r + k - 1) / cluster_bytes + 1).

Lemma cluster_bytes_pos : 0 < cluster_bytes.
Proof. unfold Fat32Volume.cluster_bytes. pose proof (mounted_sectors _ _ Hm). pose proof (block_bytes_bound d v Hm). nia. Qed.

Lemma spanned_one r k : 0 <= r -> 0 < k -> r + k <= cluster_bytes -> clusters_spanned r k = 1%nat.
Proof. intros. unfold clusters_spanned. rewrite Z.div_small by lia. done. Qed.

Lemma spanned_more r k : 0 <= r -> cluster_bytes < r + k ->
  clusters_spanned r k = S (clusters_spanned 0 (r + k - cluster_bytes)) /\ clusters_spanned 0 (r + k - cluster_bytes) <> O.
Proof.
  intros. pose proof cluster_bytes_pos. unfold clusters_spanned.
  replace (r + k - 1) with (0 + (r + k - cluster_bytes) - 1 + 1 * cluster_bytes) by lia.
  rewrite Z.div_add by lia. pose proof (Z.div_pos (0 + (r + k - cluster_bytes) - 1) cluster_bytes). lia.
Qed.

Lemma chain_data_cons c l : chain_data v content (c :: l) = cluster_data v content c ++ chain_data v content l.
Proof. reflexivity. Qed.

Lemma read_chain_spec size steps c w r b : data_cluster v c ->
  0 <= w < size -> 0 <= r < cluster_bytes -> size <= len b ->
  let n := clusters_spanned r (size - w) in
  triple (ready b) (read_chain v s size steps c w r)
    (fun _ m => (n <= steps)%nat /\ exists l, chain n c = Some l /\
       ready (store b w (slice r (size - w) (chain_data v content l))) m)
    (fun _ => refused (chain n c = None \/ (steps < n)%nat)).
Proof.
  revert c w r b. pose proof cluster_bytes_pos as Hp.
  induction steps as [|steps IH]; intros c w r b Hc Hw Hr Hlen; cbn zeta; cbn [read_chain].
  { intros m H0. split; [apply H0|]. intros _. right. destruct (decide (r + (size - w) <= cluster_bytes)).
    - rewrite spanned_one by lia. lia.
    - destruct (spanned_more r (size - w)) as [-> _]; lia. }
  rewrite (proj2 (Z.ltb_lt w size)) by lia. cbn [negb]. rewrite (cluster_first_block_spec d v Hm c Hc).
  pose proof (mounted_sectors _ _ Hm) as Hsec. intros m H0.
  pose proof (read_cluster_spec c size (Z.to_nat (volume_sectors_per_cluster v)) Hc 0 b w r ltac:(lia) ltac:(lia) ltac:(lia)
    ltac:(lia) Hlen) as Hread.
  cbn zeta in Hread. rewrite Z2Nat.id in Hread by lia. change (sectors_data c 0 _) with (cluster_data v content c) in Hread.
  rewrite (cluster_data_length c Hc) in Hread. specialize (Hread m H0).
  unfold lift, mbind, M_bind. cbn -[slice read_chain]. destruct (read_cluster _ _ _ _ _ _ _ m) as [m1 [st|[w' r']]].
  { destruct Hread as [Hst Hread]. split; [done|]. intros Ha. by destruct (Hread Ha). }
  destruct Hread as (R1 & Ew & Er). set (t := Z.min _ _) in *.
  destruct (Z.eqb_spec w' size) as [Hdone|Hmore].
  - rewrite spanned_one by lia. cbn -[slice]. split; [lia|]. exists [c]. split; [done|].
    rewrite chain_data_cons. cbn [chain_data concat fmap list_fmap]. rewrite app_nil_r. by replace (size - w) with t by lia.
  - destruct (spanned_more r (size - w)) as [En Hne]; [lia..|].
    replace (r + (size - w) - cluster_bytes) with (size - w') in * by lia.
    rewrite En, (chain_S d v content _ c Hne).
    pose proof (next_cluster_spec d v s content steady Hm Hs _ c Hc m1 R1) as Hn.
    destruct (fat32_next_cluster v c s m1) as [m2 [st|[nx e]]].
    { destruct Hn as [Hst Hn]. split; [done|]. intros Ha. left. by rewrite (Hn Ha). }
    destruct Hn as [R2 Hl]. destruct (link c) as [n'| |] eqn:El; cbn in Hl; [|subst e; split; [apply R2|by left]|done].
    injection Hl as -> ->. cbn -[slice read_chain].
    rewrite Er, (Z.max_l 0) by lia.
    assert (Hc' : data_cluster v n') by (by eapply link_data).
    specialize (IH n' w' 0 _ Hc' ltac:(lia) ltac:(lia) ltac:(by rewrite len_store) m2 R2). cbn zeta in IH.
    destruct (read_chain _ _ _ _ _ _ _ m2) as [m3 [st|[]]].
    { destruct IH as [Hst IH]. split; [done|]. intros Ha. destruct (IH Ha) as [-> |]; [by left|right; lia]. }
    destruct IH as (Hs' & l & -> & R3). split; [lia|]. exists (c :: l). split; [done|].
    rewrite chain_data_cons. replace (size - w) with (t + (size - w')) by lia.
    pose proof (cluster_data_length c Hc) as Hcl.
    rewrite slice_split, slice_app_l, slice_app_r by lia. rewrite Hcl. replace (r + t - cluster_bytes) with 0 by lia.
    assert (Hlt : len (slice r t (cluster_data v content c)) = t) by (rewrite len_slice; lia).
    rewrite Ew in R3 at 1. rewrite <- Hlt in R3 at 2. by rewrite store_app in R3 by lia.
Qed.

(** A chain of more clusters than the volume has comes back to one of them. *)
Lemma long_chain_cycle n c l : data_cluster v c -> chain n c = Some l ->
  volume_cluster_count v < Z.of_nat n -> ~ NoDup l.
Proof.
  intros Hc Hl Hn Hnd. pose proof (chain_length _ _ _ _ _ _ Hl) as Hlen.
  pose proof (chain_data_cluster _ _ _ _ _ _ Hc Hl) as Hall. rewrite Forall_forall in Hall.
  assert (Hle : (length l <= length (seqZ 2 (volume_cluster_count v)))%nat).
  { apply submseteq_length, NoDup_submseteq; [done|]. intros x Hx. apply elem_of_seqZ.
    specialize (Hall x Hx). unfold data_cluster in Hall. rewrite (mounted_max _ _ Hm) in Hall. lia. }
  rewrite length_seqZ in Hle. pose proof (mounted_count _ _ Hm). lia.
Qed.

(** Skipping whole clusters of a chain. *)
Lemma chain_skip k n c c' l : data_cluster v c -> n <> O -> follow k c = Some c' -> chain n c' = Some l ->
  exists skipped, chain (k + n) c = Some (skipped ++ l) /\
    len (chain_data v content skipped) = Z.of_nat k * cluster_bytes.
Proof.
  intros Hc Hn Hf Hl. rewrite chain_follow, Hf, Hl by done.
  assert (Hk : forall k c, data_cluster v c -> follow k c <> None -> exists l0, chain k c = Some l0 /\
    len (chain_data v content l0) = Z.of_nat k * cluster_bytes).
  { clear k n c c' l Hc Hn Hf Hl. intros k. induction k as [|k IH]; intros c Hc Hf; [by exists []|]. cbn [Fat32Volume.follow] in Hf.
    destruct (link c) as [c'| |] eqn:El; [|done..]. assert (Hc' : data_cluster v c') by (by eapply link_data).
    destruct (IH c' Hc' Hf) as (l0 & E0 & H0). exists (c :: l0). split.
    - destruct k as [|k]; [by injection E0 as <-|]. rewrite chain_S, El, E0 by done. done.
    - rewrite chain_data_cons, len_app, H0, cluster_data_length by done. lia. }
  destruct (Hk k c Hc ltac:(by rewrite Hf)) as (l0 & -> & H0). by exists l0.
Qed.

(** C10: Reading a range of a file of a mounted volume copies exactly that range of the
    file's cluster chain, as the allocation table links it, to the start of the caller's
    buffer and nothing else.  On a device whose reads succeed the call fails only when the
    chain ends or is corrupt before the range does, or is longer than the volume and so
    runs in a circle.  In every case no block outside the partition is read: an invariant
    of the controller that the reads inside it keep is kept. *)
Theorem fat32_read_exact f offset size b :
  data_cluster v (file_first_cluster f) -> 0 <= offset -> 0 < size -> offset + size <= file_size f -> size <= len b ->
  let n := clusters_spanned 0 (offset + size) in
  triple (ready b) (ribon_fat32_read (Some v) (Some f) offset false size (Some s))
    (fun _ m => exists l, chain n (file_first_cluster f) = Some l /\
       ready (store b 0 (slice offset size (chain_data v content l))) m)
    (fun _ => refused (forall l, chain n (file_first_cluster f) = Some l -> ~ NoDup l)).
Proof.
  intros Hc Ho Hs0 Hf Hlen. cbn zeta. pose proof cluster_bytes_pos as Hp. destruct Hs as [Hs1 _].
  pose proof (mounted_sectors _ _ Hm). pose proof (block_bytes_bound d v Hm) as HB.
  unfold ribon_fat32_read, the_device. rewrite (mounted_device _ _ Hm).
  assert (Hcb : u64 (volume_sectors_per_cluster v * block_bytes) = cluster_bytes).
  { unfold Fat32Volume.cluster_bytes. apply wrap_small. rewrite word64.
    pose proof (Z.mul_le_mono_nonneg (volume_sectors_per_cluster v) 128 block_bytes 4096).
    pose proof (Z.mul_nonneg_nonneg (volume_sectors_per_cluster v) block_bytes). unfold UINT64_MAX. lia. }
  rewrite andb_false_r. compare.
  intros m H0. unfold leave_if at 1, mbind at 1, M_bind. cbn -[skip_chain read_chain].
  unfold mbind at 1, M_bind, mret, M_ret. cbn -[skip_chain read_chain]. rewrite Hcb.
  unfold data_cluster in Hc. compare. unfold mbind, M_bind. cbn -[skip_chain read_chain].
  pose proof (skip_chain_spec b (Z.to_nat (offset / cluster_bytes)) _ Hc m H0) as Hskip.
  pose proof (Z.div_pos offset cluster_bytes Ho Hp) as Hq. pose proof (Z.mod_pos_bound offset cluster_bytes Hp) as Hr.
  pose proof (Z.div_mod offset cluster_bytes ltac:(lia)) as Hdm.
  set (q := offset / cluster_bytes) in *. set (r := offset mod cluster_bytes) in *.
  assert (Hn : clusters_spanned 0 (offset + size) = (Z.to_nat q + clusters_spanned r size)%nat).
  { unfold clusters_spanned. replace (0 + (offset + size) - 1) with (r + size - 1 + q * cluster_bytes) by lia.
    rewrite Z.div_add by lia. pose proof (Z.div_pos (r + size - 1) cluster_bytes). lia. }
  assert (Hne : clusters_spanned r size <> O).
  { unfold clusters_spanned. pose proof (Z.div_pos (r + size - 1) cluster_bytes). lia. }
  rewrite Hn. destruct (skip_chain v s _ _ m) as [m1 [st|c]].
  { destruct Hskip as [Hst Hskip]. split; [done|]. intros Ha l. rewrite chain_follow, (Hskip Ha) by done. done. }
  destruct Hskip as [R1 Ef]. assert (Hc' : data_cluster v c) by (by eapply follow_data).
  pose proof (read_chain_spec size (Z.to_nat (volume_cluster_count v)) c 0 r b Hc' ltac:(lia) ltac:(lia) Hlen m1 R1) as Hread.
  cbn zeta in Hread. rewrite Z.sub_0_r in Hread. destruct (read_chain _ _ _ _ _ _ _ m1) as [m2 [st|[]]].
  - destruct Hread as [Hst Hread]. split; [done|]. intros Ha l Hl. rewrite chain_follow, Ef in Hl by done.
    destruct (Hread Ha) as [E|Hlong]; [by rewrite E in Hl|].
    destruct (chain (clusters_spanned r size) c) as [l'|] eqn:El; [|done].
    destruct (chain (Z.to_nat q) _) as [l0|]; [|done]. injection Hl as <-. intros [_ [_ Hnd]]%NoDup_app.
    pose proof (mounted_count _ _ Hm). eapply (long_chain_cycle _ c); [done|exact El|lia|done].
  - destruct Hread as (_ & l & El & R2). destruct (chain_skip _ _ _ _ _ Hc Hne Ef El) as (l0 & E0 & Hl0).
    exists (l0 ++ l). split; [done|]. unfold chain_data in *. rewrite fmap_app, concat_app.
    rewrite slice_app_r by lia. rewrite Hl0. by replace (offset - _) with r by lia.
Qed.
End Read.
