(* ===== verification/Fat32Open.v ===== *)
(** * Mounting a FAT32 volume and opening a file
      ([ribon_fat32_mount], [ribon_fat32_open], [fat32_make_short_name])

    A path component stands for the eleven bytes of a directory entry: up to eight bytes of
    a base name and up to three of an extension, in upper case and padded with spaces.  A
    volume that mounts has a sound geometry.  A file that is opened is the one the
    directory tree names by the path.

    At the end, a concrete volume: the smallest the format allows, in a partition that starts at
    block 64, with one file in the root directory whose bytes are in the clusters 3 and 5. *)

From Stdlib Require Import String.
From S2P Require Import Prelude.
From S2P Require Import Effects.
From S2P Require Import Buffer.
From S2P Require Import Wire.
From S2P Require Import PayloadImage.
From S2P Require Import BlockStorage.
From S2P Require Import Fat32.
From S2P Require Import Fat32Volume.

(** ** Short names *)

Definition upper (byte : Z) : Z := if (97 <=? byte) && (byte <=? 122) then byte - 32 else byte.

Definition pad (n : nat) (l : bytes) : bytes := l ++ replicate (n - length l) 32.

(** The eleven bytes of [base] and [extension]. *)
Definition short_form (base extension : bytes) : bytes := pad 8 (upper <$> base) ++ pad 3 (upper <$> extension).

(** What may be written of a short name: a base name, or one with an extension. *)
Definition short_parts (component base extension : bytes) : Prop :=
  (component = base /\ extension = [] \/ component = base ++ 46 :: extension) /\
  0 < len base <= 8 /\ len extension <= 3 /\
  forallb (fun x => short_name_byte (upper x)) (base ++ extension) = true.

Lemma foldE_id {E A B} (f : A -> B -> E + A) l a : (forall x, x ∈ l -> f a x = inr a) -> foldE f l a = inr a.
Proof.
  induction l as [|x l IH]; intros H; cbn; [done|]. rewrite H by left. apply IH. intros y Hy. apply H. by right.
Qed.

Lemma foldE_stay {E A B} (f : A -> B -> E + A) l a r :
  (forall x, x ∈ l -> f a x = inr a \/ exists e, f a x = inl e) -> foldE f l a = inr r -> forall x, x ∈ l -> f a x = inr a.
Proof.
  induction l as [|y l IH]; intros H Hr x Hx; [by apply not_elem_of_nil in Hx|]. cbn in Hr.
  destruct (H y ltac:(left)) as [E0|[e E0]]; rewrite E0 in Hr; [|done]. apply elem_of_cons in Hx as [->|Hx]; [done|].
  apply IH; try done. intros z Hz. apply H. by right.
Qed.

(** The byte at an index of a list in parts. *)
Lemma byte_at_middle pre x suf : byte_at (pre ++ x :: suf) (len pre) = x.
Proof. unfold byte_at, len. by rewrite Nat2Z.id, app_nth2, Nat.sub_diag by lia. Qed.

Lemma byte_at_in l i : 0 <= i < len l -> byte_at l i ∈ l.
Proof. intros H. unfold byte_at, len in *. apply list_elem_of_In, nth_In. lia. Qed.

Lemma byte_at_app_l l k i : 0 <= i < len l -> byte_at (l ++ k) i = byte_at l i.
Proof. intros H. unfold byte_at, len in *. apply app_nth1. lia. Qed.

Lemma byte_at_app_r l k i : len l <= i -> byte_at (l ++ k) i = byte_at k (i - len l).
Proof. intros H. unfold byte_at, len in *. rewrite app_nth2 by lia. f_equal. lia. Qed.

(** ** The dot *)

(** A name is without a dot, or it is split at the first one. *)
Lemma first_dot l : 46 ∉ l \/ exists b e, l = b ++ 46 :: e /\ 46 ∉ b.
Proof.
  induction l as [|x l IH]; [left; apply not_elem_of_nil|]. destruct (decide (x = 46)) as [->|Hx].
  { right. exists [], l. split; [done|]. apply not_elem_of_nil. }
  destruct IH as [H|(b & e & -> & H)].
  - left. by apply not_elem_of_cons.
  - right. exists (x :: b), e. split; [done|]. by apply not_elem_of_cons.
Qed.

Lemma find_dot_absent l : 46 ∉ l -> find_dot l = Some (len l).
Proof.
  intros H. unfold find_dot. rewrite foldE_id; [done|]. intros i Hi. apply elem_of_seqZ in Hi.
  destruct (Z.eqb_spec (byte_at l i) 46) as [E|E]; [|done]. destruct H. rewrite <- E. apply byte_at_in. lia.
Qed.

Lemma find_dot_split b e : 46 ∉ b -> find_dot (b ++ 46 :: e) = if bool_decide (46 ∈ e) then None else Some (len b).
Proof.
  intros Hb. unfold find_dot. cbn zeta. set (l := b ++ 46 :: e). pose proof (len_nonneg b). pose proof (len_nonneg e).
  assert (Hl : len l = len b + (1 + len e)) by (subst l; by rewrite len_app, len_cons).
  replace (upto (len l)) with (upto (len b + (1 + len e))) by (by rewrite Hl).
  rewrite seqZ_app, foldE_app by lia. rewrite foldE_id.
  2:{ intros i Hi. apply elem_of_seqZ in Hi. subst l. rewrite byte_at_app_l by lia.
      destruct (Z.eqb_spec (byte_at b i) 46) as [E|E]; [|done]. destruct Hb. rewrite <- E. apply byte_at_in. lia. }
  rewrite Z.add_0_l, seqZ_cons by lia. cbn [foldE]. subst l. rewrite byte_at_middle. compare.
  replace (Z.pred (1 + len e)) with (len e) by lia.
  match goal with |- context [foldE ?g _ _] => set (f := g) in * end.
  assert (Hstep : forall k, 0 <= k < len e -> f (len b) (Z.succ (len b) + k) = if byte_at e k =? 46 then inl tt else inr (len b)).
  { intros k Hk. subst f. cbn beta. rewrite byte_at_app_r by lia. replace (Z.succ (len b) + k - len b) with (1 + k) by lia.
    change (46 :: e) with ([46] ++ e). rewrite byte_at_app_r by (rewrite len_cons, len_nil; lia). rewrite len_cons, len_nil.
    replace (1 + k - (1 + 0)) with k by lia. destruct (_ =? 46); [|done].
    change ([46] ++ e) with (46 :: e). rewrite Hl. by compare. }
  assert (Hsegment : forall i, i ∈ seqZ (Z.succ (len b)) (len e) -> exists k, 0 <= k < len e /\ i = Z.succ (len b) + k).
  { intros i Hi. apply elem_of_seqZ in Hi. exists (i - Z.succ (len b)). lia. }
  case_bool_decide as He.
  - destruct (foldE f _ _) as [|dot] eqn:Ef; [done|exfalso].
    apply list_elem_of_lookup in He as [k Hk]. pose proof (lookup_lt_Some _ _ _ Hk) as Hlt.
    assert (Hin : Z.succ (len b) + Z.of_nat k ∈ seqZ (Z.succ (len b)) (len e)) by (apply elem_of_seqZ; unfold len; lia).
    eapply foldE_stay in Ef; [|intros i (j & Hj & ->)%Hsegment; rewrite Hstep by done; destruct (_ =? 46); eauto|exact Hin].
    rewrite Hstep in Ef by (unfold len; lia). unfold byte_at in Ef. rewrite Nat2Z.id, (nth_lookup_Some _ _ _ _ Hk) in Ef. done.
  - rewrite foldE_id; [done|]. intros i (j & Hj & ->)%Hsegment. rewrite Hstep by done.
    destruct (Z.eqb_spec (byte_at e j) 46) as [E|E]; [|done]. destruct He. rewrite <- E. by apply byte_at_in.
Qed.

(** ** The bytes *)

(** One step of the loop that copies a byte to where it belongs. *)
Lemma copy_segment (f : bytes -> Z -> unit + bytes) l delta pre suf rest out :
  l = pre ++ suf ++ rest -> 0 <= len pre + delta ->
  (forall out i, len pre <= i < len pre + len suf ->
     f out i = if negb (short_name_byte (upper (byte_at l i))) then inl tt
               else inr (store_u8 out (i + delta) (upper (byte_at l i)))) ->
  foldE f (seqZ (len pre) (len suf)) out =
    if forallb (fun x => short_name_byte (upper x)) suf then inr (store out (len pre + delta) (upper <$> suf)) else inl tt.
Proof.
  intros ->. revert pre out. induction suf as [|x suf IH]; intros pre out Hd Hf; [done|].
  rewrite len_cons, seqZ_cons by (pose proof (len_nonneg suf); lia). cbn [foldE forallb fmap list_fmap].
  pose proof (len_nonneg suf). rewrite Hf by (rewrite len_cons; lia). cbn [app]. rewrite byte_at_middle.
  destruct (short_name_byte (upper x)); [|done]. cbn [negb andb].
  replace (Z.pred (1 + len suf)) with (len suf) by lia.
  assert (Hp : Z.succ (len pre) = len (pre ++ [x])) by (rewrite len_app, len_cons, len_nil; lia). rewrite Hp.
  rewrite IH; [|lia|].
  - destruct (forallb _ suf); [|done]. f_equal. rewrite <- Hp.
    replace (Z.succ (len pre) + delta) with (len pre + delta + 1) by lia. by apply store_u8_cons.
  - intros o i Hi. rewrite Hf by (rewrite len_cons; lia). by rewrite <- app_assoc.
Qed.

Lemma pad_store n l : (length l <= n)%nat -> store (replicate n 32) 0 l = pad n l.
Proof.
  intros H. unfold store, pad. change (Z.to_nat 0) with 0%nat. apply list_eq. intros i.
  destruct (decide (i < length l)%nat).
  - rewrite list_lookup_inserts by (rewrite ?length_replicate; lia). rewrite lookup_app_l by lia. f_equal. lia.
  - rewrite list_lookup_inserts_ge by lia. rewrite lookup_app_r by lia. destruct (decide (i < n)%nat).
    + rewrite !lookup_replicate_2 by lia. done.
    + rewrite !lookup_ge_None_2 by (rewrite length_replicate; lia). done.
Qed.

Lemma length_pad n l : (length l <= n)%nat -> length (pad n l) = n.
Proof. intros. unfold pad. rewrite length_app, length_replicate. lia. Qed.

Lemma lookup_pad n l i : (length l <= n)%nat -> (i < n)%nat ->
  pad n l !! i = if bool_decide (i < length l)%nat then l !! i else Some 32.
Proof.
  intros H Hi. unfold pad. case_bool_decide; [by rewrite lookup_app_l|]. rewrite lookup_app_r by lia.
  by rewrite lookup_replicate_2 by lia.
Qed.

Lemma two_pads a b : (length a <= 8)%nat -> (length b <= 3)%nat ->
  store (store (replicate 11 32) 0 a) 8 b = pad 8 a ++ pad 3 b.
Proof.
  intros Ha Hb. rewrite pad_store by lia. unfold store. change (Z.to_nat 8) with 8%nat. apply list_eq. intros i.
  destruct (decide (i < 11)%nat) as [Hi|Hi].
  2:{ rewrite !lookup_ge_None_2; [done|rewrite length_app, !length_pad; lia|rewrite length_inserts, length_pad; lia]. }
  destruct (decide (i < 8)%nat).
  - rewrite list_lookup_inserts_lt by lia. rewrite lookup_app_l by (rewrite length_pad; lia).
    rewrite !lookup_pad by lia. done.
  - rewrite lookup_app_r by (rewrite length_pad; lia). rewrite length_pad, lookup_pad by lia.
    case_bool_decide.
    + rewrite list_lookup_inserts by (rewrite ?length_pad; lia). done.
    + rewrite list_lookup_inserts_ge by lia. rewrite lookup_pad by lia. by rewrite bool_decide_false by lia.
Qed.

(** ** Both forms *)

Lemma make_short_name_plain base : 46 ∉ base ->
  fat32_make_short_name base =
    if (len base =? 0) || (8 <? len base) || negb (forallb (fun x => short_name_byte (upper x)) base)
    then None else Some (short_form base []).
Proof.
  intros Hb. unfold fat32_make_short_name, RIBON_FAT32_MAX_PATH_COMPONENT_BYTES. cbn zeta.
  rewrite find_dot_absent by done. rewrite Z.eqb_refl. cbn [negb].
  destruct (Z.eqb_spec (len base) 0); [done|]. cbn [orb]. destruct (Z.ltb_spec 8 (len base)).
  { cbn [orb]. by destruct (_ <? _). }
  compare. change (upto (len base)) with (seqZ (len (@nil Z)) (len base)).
  rewrite (copy_segment _ base 0 [] base []); [|by rewrite app_nil_r|done|].
  - destruct (forallb _ base) eqn:E; [|done]. cbn [negb]. f_equal. change (len [] + 0) with 0.
    unfold short_form. rewrite <- two_pads; [done|rewrite length_fmap; unfold len in *; lia|cbn; lia].
  - intros out i Hi. rewrite len_nil in Hi. compare. rewrite Z.add_0_r. fold (upper (byte_at base i)). by destruct (short_name_byte _).
Qed.

Lemma make_short_name_dotted base extension : 46 ∉ base ->
  fat32_make_short_name (base ++ 46 :: extension) =
    if (len base =? 0) || (8 <? len base) || (3 <? len extension) || bool_decide (46 ∈ extension) ||
       negb (forallb (fun x => short_name_byte (upper x)) (base ++ extension))
    then None else Some (short_form base extension).
Proof.
  intros Hb. unfold fat32_make_short_name, RIBON_FAT32_MAX_PATH_COMPONENT_BYTES. cbn zeta.
  rewrite find_dot_split by done. pose proof (len_nonneg base). pose proof (len_nonneg extension).
  set (l := base ++ 46 :: extension).
  assert (Hl : len l = len base + (1 + len extension)) by (subst l; by rewrite len_app, len_cons).
  rewrite Hl. compare.
  case_bool_decide as He. { rewrite orb_true_r. cbn. by destruct (_ <? _). }
  compare. replace (len base + (1 + len extension) - len base - 1) with (len extension) by lia.
  destruct (Z.eqb_spec (len base) 0); [by destruct (_ <? _)|].
  destruct (Z.ltb_spec 8 (len base)); [by destruct (12 <? _)|].
  destruct (Z.ltb_spec 3 (len extension)); [by destruct (12 <? _)|]. compare.
  rewrite seqZ_app, foldE_app by lia. change (upto (len base)) with (seqZ (len (@nil Z)) (len base)).
  rewrite (copy_segment _ l 0 [] base (46 :: extension)); [|done|done|].
  2:{ intros out i Hi. rewrite len_nil in Hi. compare. rewrite Z.add_0_r. fold (upper (byte_at l i)). by destruct (short_name_byte _). }
  rewrite forallb_app. destruct (forallb _ base); [|done]. cbn [andb].
  rewrite Z.add_0_l, seqZ_cons by lia. cbn [foldE]. rewrite Z.eqb_refl. replace (Z.pred (1 + len extension)) with (len extension) by lia.
  assert (Hp : Z.succ (len base) = len (base ++ [46])) by (rewrite len_app, len_cons, len_nil; lia). rewrite Hp.
  rewrite (copy_segment _ l (8 - len base - 1) (base ++ [46]) extension []).
  - destruct (forallb _ extension); [|done]. cbn [negb]. f_equal. rewrite <- Hp.
    replace (Z.succ (len base) + (8 - len base - 1)) with 8 by lia. change (len [] + 0) with 0.
    unfold short_form. rewrite <- two_pads; [done|rewrite length_fmap; unfold len in *; lia..].
  - subst l. by rewrite app_nil_r, <- app_assoc.
  - lia.
  - intros out i Hi. rewrite <- Hp in Hi. compare. replace (8 + i - len base - 1) with (i + (8 - len base - 1)) by lia.
    fold (upper (byte_at l i)). by destruct (short_name_byte _).
Qed.

(** The short names are the 8.3 names: a component has one exactly when it can be split
    into a base name and an extension. *)
Lemma make_short_name_exact component name :
  fat32_make_short_name component = Some name <->
  exists base extension, short_parts component base extension /\ name = short_form base extension.
Proof.
  assert (Hnodot : forall l, forallb (fun x => short_name_byte (upper x)) l = true -> 46 ∉ l).
  { intros l H Hin. rewrite forallb_in in H. pose proof (H 46 Hin) as H46. done. }
  unfold short_parts. split.
  - destruct (first_dot component) as [Hd|(base & extension & -> & Hd)].
    + rewrite make_short_name_plain by done. destruct (_ || _) eqn:G; [done|]. intros [= <-]. exists component, [].
      rewrite !orb_false_iff in G. destruct_and! G. bool_to_prop. rewrite app_nil_r, (@len_nil Z).
      pose proof (len_nonneg component). split_and!; try done; try lia. by left.
    + rewrite make_short_name_dotted by done. destruct (_ || _) eqn:G; [done|]. intros [= <-]. exists base, extension.
      rewrite !orb_false_iff in G. destruct_and! G. bool_to_prop. pose proof (len_nonneg base).
      split_and!; try done; try lia. by right.
  - intros (base & extension & (Hc & Hb & He & Hall) & ->). pose proof (Hnodot _ Hall) as Hd.
    rewrite elem_of_app in Hd. apply Decidable.not_or in Hd as [Hd1 Hd2].
    destruct Hc as [[-> ->]| ->].
    + rewrite app_nil_r in Hall. rewrite make_short_name_plain, Hall by done. by compare.
    + rewrite make_short_name_dotted, Hall, bool_decide_false by done. by compare.
Qed.

Lemma short_form_length component base extension : short_parts component base extension -> len (short_form base extension) = 11.
Proof.
  intros (_ & Hb & He & _). unfold short_form, len in *. rewrite length_app, !length_pad by (rewrite length_fmap; lia). done.
Qed.

(** ** Mounting *)

Lemma byte_at_prefix b c n o : slice 0 n b = c -> 0 <= o < n -> byte_at b o = byte_at c o.
Proof. intros <- H. by rewrite byte_at_slice by lia. Qed.

Lemma load_u16_prefix b c n o : slice 0 n b = c -> 0 <= o -> o + 2 <= n -> load_u16 b o = load_u16 c o.
Proof. intros H ??. unfold load_u16. by rewrite !(byte_at_prefix b c n) by (done || lia). Qed.

Lemma valid_device {W} (d : RibonReadOnlyBlockDevice W) : ribon_read_only_block_device_is_valid (Some d) = true ->
  device_read d <> None /\ exists k, 9 <= k <= 12 /\ device_logical_block_bytes d = 2 ^ k.
Proof.
  unfold ribon_read_only_block_device_is_valid. intros H. rewrite !andb_true_iff in H. destruct_and! H.
  split; [by destruct (device_read d)|]. bool_to_prop.
  match goal with H : power_of_two _ = true |- _ => apply power_of_two_true in H as (k & Hk & Ek); [|lia] end.
  exists k. split; [|done]. rewrite Ek in *. split.
  - apply (Z.pow_le_mono_r_iff 2); lia.
  - apply (Z.pow_le_mono_r_iff 2); lia.
Qed.

(** The checks of the boot sector, as arithmetic. *)
Lemma geometry_sound {W} (d : RibonReadOnlyBlockDevice W) first total reserved fats per_fat per_cluster root :
  device_read d <> None -> (exists k, 9 <= k <= 12 /\ device_logical_block_bytes d = 2 ^ k) ->
  word 64 (device_block_count d) -> 0 <= first -> first + total <= device_block_count d ->
  0 < reserved -> 1 <= fats -> 0 <= per_fat -> 0 < per_cluster <= 128 -> 2 <= root ->
  reserved + fats * per_fat < total ->
  let data := total - (reserved + fats * per_fat) in
  65525 <= data / per_cluster <= 0x0fffffed ->
  data / per_cluster + 2 <= per_fat * device_logical_block_bytes d / 4 ->
  root <= u32 (u32 (data / per_cluster) + 1) ->
  mounted d (mkVolume (Some d) first total (u64 (first + reserved)) (u64 (first + (reserved + fats * per_fat)))
    per_cluster root (u32 (data / per_cluster)) (u32 (u32 (data / per_cluster) + 1))).
Proof.
  intros Hr Hk Hw Hf He Hres Hfats Hpf Hpc Hroot Hlt data Hdata Htable.
  assert (HB : 512 <= device_logical_block_bytes d).
  { destruct Hk as (k & [Hk _] & ->). change 512 with (2 ^ 9). apply Z.pow_le_mono_r; lia. }
  assert (Hw' := Hw). rewrite word64 in Hw'.
  rewrite (wrap_small 32 (data / per_cluster)) by (rewrite word32; unfold UINT32_MAX; lia).
  rewrite (wrap_small 32) by (rewrite word32; unfold UINT32_MAX; lia). intros Hmax.
  rewrite !(wrap_small 64) by (rewrite word64; nia).
  assert (H4 : 4 * (data / per_cluster + 2) <= per_fat * device_logical_block_bytes d).
  { pose proof (Z.mul_div_le (per_fat * device_logical_block_bytes d) 4). lia. }
  split; cbn; try done; try lia.
  - intros c Hc. assert (c * 4 / device_logical_block_bytes d < per_fat); [|nia]. apply Z.div_lt_upper_bound; nia.
  - pose proof (Z.mul_div_le data per_cluster ltac:(lia)). lia.
Qed.

Section Mount.
Context {W : Type} (d : RibonReadOnlyBlockDevice W) (s : RibonFat32Scratch).
Context (content : Z -> bytes) (steady : W -> Prop) (first count : Z).
Context `{!ExactReads d content first count steady}.

(** C33: A volume that mounts is well formed.  The volume is a part of the partition it was
    mounted from and of the device; the allocation table and the data clusters follow each
    other in it, the table has an entry for every cluster, every block of every cluster is
    inside, no sum wraps around, and the root directory is one of the clusters.  No block
    outside the partition is read. *)
Theorem fat32_mount_sound b : device_typed d -> 0 <= first -> 0 <= count ->
  triple (ready s steady b) (ribon_fat32_mount false (Some d) first count (Some s))
    (fun v m => mounted d v /\ scratch_fits d s /\ volume_partition_first_block v = first /\
       0 < volume_partition_block_count v <= count /\ ready s steady b m)
    (fun _ m => steady (media_world m)).
Proof.
  intros [_ Hty] Hf Hc m H0. assert (Hst : steady (media_world m)) by apply H0.
  unfold ribon_fat32_mount, leave_if. unfold mbind at 1, M_bind.
  match goal with |- context [if ?g then leave FAT32_BAD_ARGUMENT else _] => destruct g eqn:G; [done|] end.
  rewrite !orb_false_iff in G. destruct G as [[[[[[_ Gd] Gs] Gc] Gn] Gb] Ge]. bool_to_prop.
  apply valid_device in Gd as [Hr Hk]. assert (Hs : scratch_fits d s) by done.
  unfold mbind, M_bind. cbn -[load_u16 load_u32 Z.div fat32_read_sector wrap power_of_two].
  set (v0 := mkVolume _ _ _ _ _ _ _ _ _).
  pose proof (read_sector_spec d v0 s content steady eq_refl Hr Hs b first m H0) as Hread.
  destruct (fat32_read_sector v0 first s m) as [m1 [st|[]]]; [apply Hread|].
  destruct Hread as [R1 Hbpb]. assert (Hst1 : steady (media_world m1)) by apply R1.
  assert (Hin : first <= first < first + count) by lia. destruct (exact_block first Hin) as [Hlen Hoct].
  assert (H512 : 512 <= device_logical_block_bytes d).
  { destruct Hk as (k & [Hk _] & ->). change 512 with (2 ^ 9). apply Z.pow_le_mono_r; lia. }
  assert (Hl1 : device_logical_block_bytes d <= len (media_scratch m1)) by (destruct R1 as (_ & -> & _); lia).
  unfold sector. cbn -[load_u16 load_u32 Z.div wrap power_of_two].
  rewrite !(load_u16_prefix _ _ _ _ Hbpb), !(byte_at_prefix _ _ _ _ Hbpb), !(load_u32_prefix _ _ _ _ Hbpb)
    by lia.
  set (sec := content first) in *. set (total := if load_u16 sec 19 =? 0 then _ else _).
  match goal with |- context [if ?g then leave FAT32_BAD_BPB else _] => destruct g eqn:G1; [done|] end.
  rewrite !orb_false_iff in G1. destruct_and! G1. bool_to_prop.
  match goal with |- context [if ?g then leave FAT32_BAD_BPB else _] => destruct g eqn:G2; [done|] end.
  cbn -[load_u16 load_u32 Z.div wrap].
  match goal with |- context [if ?g then leave FAT32_BAD_BPB else _] => destruct g eqn:G3; [done|] end.
  cbn -[load_u16 load_u32 Z.div wrap].
  match goal with |- context [if ?g then leave FAT32_BAD_BPB else _] => destruct g eqn:G4; [done|] end.
  rewrite !orb_false_iff in G3. destruct G3 as [[G3 G5] G6]. bool_to_prop. cbn -[load_u16 load_u32 Z.div wrap].
  pose proof (load_u16_word sec 14 Hoct ltac:(lia) ltac:(lia)) as W14. rewrite word16 in W14.
  pose proof (load_u32_word sec 36 Hoct ltac:(lia) ltac:(lia)) as W36. rewrite word32 in W36.
  pose proof (byte_at_octet sec 13 Hoct) as W13. rewrite word8 in W13.
  pose proof (byte_at_octet sec 16 Hoct) as W16. rewrite word8 in W16.
  assert (Hfats : 1 <= byte_at sec 16 <= 2).
  { destruct (Z.eqb_spec (byte_at sec 16) 1), (Z.eqb_spec (byte_at sec 16) 2); cbn in *; lia || done. }
  assert (Hpc : byte_at sec 13 <> 0) by (intros E; by rewrite E in *).
  split; [|split; [done|]; split; [done|]; split; [nia|done]].
  apply geometry_sound; try done; try lia. congruence.
Qed.
End Mount.

(** ** Directories *)

Definition entries (data : bytes) : list bytes :=
  (fun i => slice (i * RIBON_FAT32_DIRECTORY_ENTRY_BYTES) RIBON_FAT32_DIRECTORY_ENTRY_BYTES data) <$>
  upto (len data / RIBON_FAT32_DIRECTORY_ENTRY_BYTES).

(** The entries before the end marker. *)
Fixpoint listing (es : list bytes) : list bytes :=
  match es with
  | [] => []
  | e :: es => if byte_at e 0 =? RIBON_FAT32_ENTRY_END then [] else e :: listing es
  end.

(** An entry that is not deleted and is a file or a directory, with this short name. *)
Definition named (name : bytes) (e : bytes) : bool :=
  (byte_at e 0 !=? RIBON_FAT32_ENTRY_DELETED) && (byte_at e 11 !=? RIBON_FAT32_ATTRIBUTE_LONG_NAME) &&
  (Z.land (byte_at e 11) RIBON_FAT32_ATTRIBUTE_VOLUME_ID =? 0) && bool_decide (slice 0 11 e = name).

Definition directory_lookup (name : bytes) (es : list bytes) : option bytes := List.find (named name) (listing es).

(** What a scan of the first entries says about the whole directory. *)
Definition scanned {E} (name : bytes) (es : list bytes) (r : E + option bytes) : Prop :=
  forall more, directory_lookup name (es ++ more) =
    match r with inl _ => None | inr (Some e) => Some e | inr None => directory_lookup name more end.

Lemma scanned_app {E} name es es' (r : E + option bytes) :
  scanned (E:=E) name es (inr None) -> scanned name es' r -> scanned name (es ++ es') r.
Proof. intros H H' more. by rewrite <- app_assoc, H, H'. Qed.

Lemma scanned_stops {E} name es es' (r : E + option bytes) :
  r <> inr None -> scanned name es r -> scanned name (es ++ es') r.
Proof. intros Hr H more. rewrite <- app_assoc, H. by destruct r as [|[]]. Qed.

Lemma scan_entry_spec name data o : len name = 11 -> 0 <= o -> o + 32 <= len data ->
  scanned name [slice o RIBON_FAT32_DIRECTORY_ENTRY_BYTES data] (scan_entry name data o).
Proof.
  intros Hn Ho Hl more. unfold scan_entry, directory_lookup, RIBON_FAT32_DIRECTORY_ENTRY_BYTES. set (e := slice o 32 data).
  assert (He : len e = 32) by (apply len_slice; lia). cbn [app listing].
  destruct (byte_at e 0 =? RIBON_FAT32_ENTRY_END); [done|]. cbn [List.find]. unfold named.
  destruct (byte_at e 0 =? _); [done|]. destruct (byte_at e 11 =? _); [done|].
  destruct (Z.land _ _ =? 0); [|done]. cbn [negb orb andb].
  assert (Hl11 : len (slice 0 11 e) = len name) by (rewrite len_slice; lia).
  destruct (bytes_equal _ _) eqn:Eq; case_bool_decide as E; try done.
  - by apply bytes_equal_true in Eq.
  - by rewrite (proj2 (bytes_equal_true _ _ Hl11) E) in Eq.
Qed.

Lemma scan_sector_spec name data idx : len name = 11 -> Forall (fun i => 0 <= i /\ i * 32 + 32 <= len data) idx ->
  scanned name ((fun i => slice (i * RIBON_FAT32_DIRECTORY_ENTRY_BYTES) RIBON_FAT32_DIRECTORY_ENTRY_BYTES data) <$> idx)
    (scan_sector name data idx).
Proof.
  intros Hn H. induction H as [|i idx [Hi Hl] H IH]; [done|]. cbn [scan_sector fmap list_fmap].
  pose proof (scan_entry_spec name data (i * 32) Hn ltac:(lia) ltac:(lia)) as He.
  change (?x :: ?l) with ([x] ++ l). unfold RIBON_FAT32_DIRECTORY_ENTRY_BYTES in *.
  destruct (scan_entry name data (i * 32)) as [st|[e|]].
  - by apply scanned_stops.
  - by apply scanned_stops.
  - by apply (scanned_app (E:=RibonFat32Status)).
Qed.

Lemma entries_app a b : (32 | len a) -> entries (a ++ b) = entries a ++ entries b.
Proof.
  intros [q Hq]. pose proof (len_nonneg a). pose proof (len_nonneg b) as Hb. unfold entries, RIBON_FAT32_DIRECTORY_ENTRY_BYTES.
  rewrite len_app, Hq. rewrite Z.add_comm, Z.div_add, Z.div_mul by lia.
  pose proof (Z.div_pos (len b) 32 Hb ltac:(lia)). rewrite Z.add_comm, seqZ_app, fmap_app by lia. f_equal.
  - apply list_fmap_ext. intros i x Hx. apply lookup_seqZ in Hx as [-> Hx]. apply slice_app_l; lia.
  - rewrite Z.add_0_l. rewrite <- (Z.add_0_r q) at 1. rewrite <- (fmap_add_seqZ q 0 (len b / 32)), <- list_fmap_compose.
    apply list_fmap_ext. intros i x Hx. apply lookup_seqZ in Hx as [-> Hx]. cbn.
    rewrite slice_app_r by lia. f_equal. lia.
Qed.

Lemma entries_nil : entries [] = [].
Proof. reflexivity. Qed.

Section Open.
Context {W : Type} (d : RibonReadOnlyBlockDevice W) (v : RibonFat32Volume W) (s : RibonFat32Scratch).
Context (content : Z -> bytes) (steady : W -> Prop).
Context `{!ExactReads d content (volume_partition_first_block v) (volume_partition_block_count v) steady}.
Context (Hm : mounted d v) (Hs : scratch_fits d s).

Abbreviation block_bytes := (device_logical_block_bytes d).
Abbreviation ready := (ready s steady).
Abbreviation refused := (refused d v steady).
Abbreviation link := (link d v content).
Abbreviation chain := (chain d v content).

(** A scan, with what it says of the directory. *)
Definition scans (b name : bytes) (es : list bytes) (m : M (Media W) RibonFat32Status (option bytes)) : Prop :=
  triple (ready b) m (fun r m' => ready b m' /\ scanned (E:=unit) name es (inr r))
    (fun _ => refused (scanned (E:=unit) name es (inl tt))).

Lemma scan_sectors_spec b c name (n : nat) : data_cluster v c -> len name = 11 -> forall i,
  0 <= i -> i + Z.of_nat n = volume_sectors_per_cluster v ->
  scans b name (entries (sectors_data v content c i (Z.of_nat n)))
    (scan_sectors v (cluster_block v c) name s (seqZ i (Z.of_nat n))).
Proof.
  intros Hc Hname. pose proof (block_bytes_bound d v Hm) as HB.
  induction n as [|n IH]; intros i Hi Hn; unfold scans.
  { by apply triple_ret. }
  destruct (cluster_block_in d v Hm c i Hc ltac:(lia)) as [Hin Hword]. destruct (exact_block _ Hin) as [HX _].
  rewrite seqZ_cons, sectors_data_cons by lia. replace (Z.pred (Z.of_nat (S n))) with (Z.of_nat n) by lia.
  rewrite <- Z.add_1_r. destruct (block_bytes_divides d v Hm 32 ltac:(right; left)) as [q Hq].
  rewrite entries_app by (exists q; congruence). cbn [scan_sectors]. rewrite (wrap_small 64) by done.
  intros m H0. pose proof (read_sector_spec d v s content steady (mounted_device _ _ Hm) (mounted_read _ _ Hm) Hs b
    (cluster_block v c + i) m H0) as Hread.
  unfold mbind at 1, M_bind. destruct (fat32_read_sector v _ s m) as [m1 [st|[]]].
  { destruct Hread as [Hst Hread]. split; [done|]. intros Ha. by destruct (Hread Ha). }
  destruct Hread as [R1 Hdata]. unfold sector, the_device, lift, mbind, M_bind. rewrite (mounted_device _ _ Hm).
  cbn -[slice scan_sector].
  assert (Hl : block_bytes <= len (media_scratch m1)). { destruct R1 as (_ & -> & _). apply Hs. }
  set (data := media_scratch m1) in *.
  assert (Hscan : scanned name (entries (content (cluster_block v c + i)))
    (scan_sector name data (upto (block_bytes / RIBON_FAT32_DIRECTORY_ENTRY_BYTES)))).
  { unfold entries. rewrite HX, <- Hdata. unfold RIBON_FAT32_DIRECTORY_ENTRY_BYTES. rewrite Hq, Z.div_mul by lia.
    rewrite (list_fmap_ext _ (fun i => slice (i * 32) 32 data) (upto q)); [|intros j x Hx].
    - apply scan_sector_spec; [done|]. apply Forall_forall. intros j Hj. apply elem_of_seqZ in Hj. lia.
    - apply lookup_seqZ in Hx as [-> Hx]. rewrite slice_slice by lia. f_equal. }
  destruct (scan_sector _ _ _) as [st|[e|]].
  - split; [apply R1|]. intros _. apply scanned_stops; [done|]. intros more. apply Hscan.
  - split; [done|]. apply scanned_stops; [done|]. intros more. apply Hscan.
  - specialize (IH (i + 1) ltac:(lia) ltac:(lia) m1 R1).
    destruct (scan_sectors _ _ _ _ _ m1) as [m2 [st|r]].
    + destruct IH as [Hst IH]. split; [done|]. intros Ha. apply scanned_app; [intros more; apply Hscan|by apply IH].
    + destruct IH as [R2 IH]. split; [done|]. apply scanned_app; [intros more; apply Hscan|done].
Qed.

(** The directory that starts at cluster [c] has an entry within its first [steps]
    clusters. *)
Definition finds (steps : nat) (c : Z) (name entry : bytes) : Prop :=
  exists n l, (n <= steps)%nat /\ chain n c = Some l /\
    directory_lookup name (entries (chain_data v content l)) = Some entry.

Lemma cluster_data_divides c : data_cluster v c -> (32 | len (cluster_data v content c)).
Proof.
  intros Hc. rewrite (cluster_data_length d v content steady Hm c Hc). unfold cluster_bytes.
  apply Z.divide_mul_r. apply (block_bytes_divides d v Hm). right. left.
Qed.

Lemma finds_S steps c name e : finds (S steps) c name e ->
  exists l, directory_lookup name (entries (chain_data v content (c :: l))) = Some e /\
    (l = [] \/ exists c' n, (n <= steps)%nat /\ link c = Next c' /\ chain n c' = Some l).
Proof.
  intros (n & l & Hn & Hl & He). destruct n as [|n]; [by injection Hl as <-|].
  destruct n as [|n]; [injection Hl as <-; exists []; auto|]. rewrite chain_S in Hl by done.
  destruct (link c) as [c'| |] eqn:El; [|done..]. destruct (chain (S n) c') as [l'|] eqn:E'; [|done].
  injection Hl as <-. exists l'. split; [done|]. right. exists c', (S n). split_and!; [lia|done..].
Qed.

Lemma find_in_chain_spec b name steps c : data_cluster v c -> len name = 11 ->
  triple (ready b) (find_in_chain v name s steps c)
    (fun e m => ready b m /\ finds steps c name e)
    (fun _ => refused (forall e, ~ finds steps c name e)).
Proof.
  intros Hc Hname. revert c Hc. induction steps as [|steps IH]; intros c Hc; cbn [find_in_chain].
  { intros m H0. split; [apply H0|]. intros _ e (n & l & Hn & Hl & He). replace n with O in Hl by lia.
    injection Hl as <-. done. }
  rewrite (cluster_first_block_spec d v Hm c Hc). pose proof (mounted_sectors _ _ Hm) as Hsec. intros m H0.
  pose proof (scan_sectors_spec b c name (Z.to_nat (volume_sectors_per_cluster v)) Hc Hname 0 ltac:(lia) ltac:(lia)) as Hscan.
  rewrite Z2Nat.id in Hscan by lia. change (sectors_data v content c 0 _) with (cluster_data v content c) in Hscan.
  specialize (Hscan m H0). pose proof (cluster_data_divides c Hc) as Hdiv.
  unfold lift, mbind, M_bind. cbn -[find_in_chain]. destruct (scan_sectors _ _ _ _ _ m) as [m1 [st|[e|]]].
  - destruct Hscan as [Hst Hscan]. split; [done|]. intros Ha e (l & He & _)%finds_S.
    rewrite chain_data_cons, entries_app, (Hscan Ha) in He by done. done.
  - destruct Hscan as [R1 Hscan]. split; [done|]. exists 1%nat, [c]. split; [lia|]. split; [done|].
    rewrite chain_data_cons, entries_app by done. apply Hscan.
  - destruct Hscan as [R1 Hscan].
    assert (Halone : (forall c', link c <> Next c') -> forall e, ~ finds (S steps) c name e).
    { intros Hl e (l & He & [->|(c' & n & _ & Hl' & _)])%finds_S.
      - rewrite chain_data_cons, entries_app, Hscan in He by done. done.
      - by apply Hl in Hl'. }
    pose proof (next_cluster_spec d v s content steady Hm Hs b c Hc m1 R1) as Hn.
    destruct (fat32_next_cluster v c s m1) as [m2 [st|[nx e]]].
    { destruct Hn as [Hst Hn]. split; [done|]. intros Ha. apply Halone. by rewrite (Hn Ha). }
    destruct Hn as [R2 Hl]. destruct (link c) as [n'| |] eqn:El; cbn in Hl; [|subst e; split; [apply R2|by intros _; apply Halone]|done].
    injection Hl as -> ->. cbn -[find_in_chain]. assert (Hc' : data_cluster v n') by (by eapply link_data).
    specialize (IH n' Hc' m2 R2). destruct (find_in_chain _ _ _ _ _ m2) as [m3 [st|e]].
    + destruct IH as [Hst IH]. split; [done|]. intros Ha e (l & He & Hl)%finds_S.
      rewrite chain_data_cons, entries_app, Hscan in He by done. destruct Hl as [->|(c' & n & Hn & Hl & Hch)]; [done|].
      rewrite El in Hl. injection Hl as <-. apply (IH Ha e). by exists n, l.
    + destruct IH as [R3 (n & l & Hn & Hl & He)]. split; [done|]. destruct n as [|n]; [by injection Hl as <-|].
      exists (S (S n)), (c :: l). split; [lia|]. rewrite chain_S, El, Hl by done. split; [done|].
      by rewrite chain_data_cons, entries_app, Hscan.
Qed.

(** The clusters of a chain extend those of a shorter one. *)
Lemma chain_extends k n c l l' : chain n c = Some l -> chain (n + k) c = Some l' -> exists more, l' = l ++ more.
Proof.
  revert c l l'. induction n as [|n IH]; intros c l l'; [intros [= <-]; eauto|]. cbn [Nat.add].
  destruct n as [|n].
  { intros [= <-]. destruct k as [|k]; [intros [= <-]; by exists []|]. cbn [Nat.add]. rewrite chain_S by done.
    destruct (link c) as [c'| |]; [|done..]. destruct (chain (S k) c') as [l0|]; [|done]. intros [= <-]. by exists l0. }
  rewrite !chain_S by done. destruct (link c) as [c'| |]; [|done..].
  destruct (chain (S n) c') as [l0|] eqn:E0; [|done]. intros [= <-]. destruct (chain (S n + k) c') as [l1|] eqn:E1; [|done].
  intros [= <-]. destruct (IH _ _ _ E0 E1) as [more ->]. by exists more.
Qed.

Lemma lookup_extends name es more e : directory_lookup name es = Some e -> directory_lookup name (es ++ more) = Some e.
Proof.
  unfold directory_lookup. induction es as [|x es IH]; [done|]. cbn [listing app].
  destruct (_ =? _); [done|]. cbn [List.find]. by destruct (named name x).
Qed.

Lemma finds_unique steps c name e e' : data_cluster v c -> finds steps c name e -> finds steps c name e' -> e = e'.
Proof.
  intros Hc.
  cut (forall n l n' l' e e', (n <= n')%nat -> chain n c = Some l -> chain n' c = Some l' ->
    directory_lookup name (entries (chain_data v content l)) = Some e ->
    directory_lookup name (entries (chain_data v content l')) = Some e' -> e = e').
  { intros H (n & l & _ & Hl & He) (n' & l' & _ & Hl' & He'). destruct (decide (n <= n')%nat); [by eapply (H n l n' l')|].
    symmetry. eapply (H n' l' n l); try done. lia. }
  clear e e'. intros n l n' l' e e' Hn Hl Hl' He He'. replace n' with (n + (n' - n))%nat in Hl' by lia.
  destruct (chain_extends _ _ _ _ _ Hl Hl') as [more ->].
  assert (Hd : (32 | len (chain_data v content l))).
  { pose proof (chain_data_cluster _ _ _ _ _ _ Hc Hl) as Hall. clear -Hall Hm ExactReads0. induction Hall as [|x l Hx Hall IH]; [by exists 0|].
    rewrite chain_data_cons, len_app. apply Z.divide_add_r; [by apply cluster_data_divides|done]. }
  unfold chain_data in *. rewrite fmap_app, concat_app, entries_app in He' by done.
  rewrite (lookup_extends _ _ _ _ He) in He'. by injection He'.
Qed.

(** ** Paths *)

Abbreviation directory_finds := (finds (Z.to_nat (volume_cluster_count v))).

Definition is_directory (e : bytes) : Prop := Z.land (byte_at e 11) RIBON_FAT32_ATTRIBUTE_DIRECTORY <> 0.

(** The parts of a path between the slashes, [component] being the first so far. *)
Fixpoint components (component rest : bytes) : list bytes :=
  match rest with
  | [] => [component]
  | x :: rest => if x =? 47 then component :: components [] rest else components (component ++ [x]) rest
  end.

(** The file that a path names in the directory at cluster [c]. *)
Inductive resolves : Z -> list bytes -> RibonFat32File -> Prop :=
  | resolves_file c component base extension e :
    short_parts component base extension -> directory_finds c (short_form base extension) e -> ~ is_directory e ->
    (load_u32 e 28 <> 0 -> data_cluster v (entry_first_cluster e)) ->
    resolves c [component] (mkFile (entry_first_cluster e) (load_u32 e 28))
  | resolves_directory c component base extension e rest f :
    short_parts component base extension -> directory_finds c (short_form base extension) e -> is_directory e ->
    data_cluster v (entry_first_cluster e) -> resolves (entry_first_cluster e) rest f ->
    resolves c (component :: rest) f.

(** A path of at most eight components, of printable characters. *)
Definition path_ok (count : Z) (component rest : bytes) : Prop :=
  count + len (components component rest) <= RIBON_FAT32_MAX_PATH_COMPONENTS /\
  Forall (fun x => x = 47 \/ 0x21 <= x <= 0x7e) rest.

Lemma open_component_spec b c count component : data_cluster v c ->
  triple (ready b) (open_component v s c count component)
    (fun e m => ready b m /\ count <= RIBON_FAT32_MAX_PATH_COMPONENTS /\
       exists base extension, short_parts component base extension /\ directory_finds c (short_form base extension) e)
    (fun _ => refused (forall base extension e, count <= RIBON_FAT32_MAX_PATH_COMPONENTS ->
       short_parts component base extension -> ~ directory_finds c (short_form base extension) e)).
Proof.
  intros Hc m H0. assert (Hst : steady (media_world m)) by apply H0. unfold open_component, leave_if.
  destruct (_ || _) eqn:G.
  { split; [done|]. intros _ base extension e Hcount (Hp & Hb & _). apply orb_true_iff in G as [G|G]; bool_to_prop; [|lia].
    destruct component; [|rewrite len_cons in G; pose proof (len_nonneg component); lia].
    destruct Hp as [[<- _]|E]; [cbn in Hb; lia|by apply app_cons_not_nil in E]. }
  bool_to_prop. unfold mbind, M_bind. cbn -[fat32_find_directory_entry].
  destruct (fat32_make_short_name component) as [name|] eqn:En.
  - assert (En' := En). apply make_short_name_exact in En as (base & extension & Hp & ->).
    pose proof (find_in_chain_spec b _ (Z.to_nat (volume_cluster_count v)) c Hc (short_form_length _ _ _ Hp) m H0) as Hf.
    unfold fat32_find_directory_entry. destruct (find_in_chain _ _ _ _ _ m) as [m1 [st|e]].
    + destruct Hf as [Hst1 Hf]. split; [done|]. intros Ha base' extension' e _ Hp'.
      assert (Some (short_form base' extension') = Some (short_form base extension)) as [= ->]; [|by apply Hf].
      rewrite <- En'. symmetry. apply make_short_name_exact. eauto.
    + destruct Hf as [R1 Hf]. split; [done|]. split; [done|]. eauto.
  - split; [done|]. intros _ base extension e _ Hp.
    by rewrite (proj2 (make_short_name_exact component (short_form base extension))) in En by eauto.
Qed.

Lemma resolves_entry c component rest f : resolves c (component :: rest) f ->
  exists base extension e, short_parts component base extension /\ directory_finds c (short_form base extension) e /\
    (rest = [] /\ ~ is_directory e /\ (load_u32 e 28 <> 0 -> data_cluster v (entry_first_cluster e)) \/
     is_directory e /\ data_cluster v (entry_first_cluster e) /\ resolves (entry_first_cluster e) rest f).
Proof. intros H. inversion H; subst; eexists _, _, _; split_and!; eauto. Qed.

(** The entry a component names is the one that was found. *)
Lemma resolves_found c component rest f base extension e : data_cluster v c ->
  short_parts component base extension -> directory_finds c (short_form base extension) e ->
  resolves c (component :: rest) f ->
  rest = [] /\ ~ is_directory e /\ (load_u32 e 28 <> 0 -> data_cluster v (entry_first_cluster e)) \/
  is_directory e /\ data_cluster v (entry_first_cluster e) /\ resolves (entry_first_cluster e) rest f.
Proof.
  intros Hc Hp He (base' & extension' & e' & Hp' & He' & Hcase)%resolves_entry.
  assert (Hsf : Some (short_form base' extension') = Some (short_form base extension)).
  { trans (fat32_make_short_name component); [symmetry|]; apply make_short_name_exact; eauto. }
  injection Hsf as Hsf. rewrite Hsf in He'. by rewrite (finds_unique _ _ _ _ _ Hc He He').
Qed.

Lemma resolves_nil c f : ~ resolves c [] f.
Proof. intros H. inversion H. Qed.

Lemma components_pos component rest : 1 <= len (components component rest).
Proof.
  revert component. induction rest as [|x rest IH]; intros component; cbn; [unfold len; cbn; lia|].
  destruct (x =? 47); [|done]. rewrite len_cons. specialize (IH []). lia.
Qed.

Lemma open_path_spec b rest : forall c count component, data_cluster v c ->
  triple (ready b) (open_path v s c count component rest)
    (fun f m => ready b m /\ path_ok count component rest /\ resolves c (components component rest) f)
    (fun _ => refused (forall f, path_ok count component rest -> ~ resolves c (components component rest) f)).
Proof.
  unfold path_ok. induction rest as [|x rest IH]; intros c count component Hc m H0; cbn [open_path components].
  - pose proof (open_component_spec b c (count + 1) component Hc m H0) as Hcomp.
    unfold mbind at 1, M_bind. destruct (open_component _ _ _ _ _ m) as [m1 [st|e]].
    { destruct Hcomp as [Hst Hcomp]. split; [done|]. intros Ha f [Hn _] (? & ? & ? & Hp & He & _)%resolves_entry.
      change (len [component]) with 1 in Hn. eapply (Hcomp Ha); [|exact Hp|exact He]. lia. }
    destruct Hcomp as (R1 & Hn & base & extension & Hp & He). unfold leave_if, mbind, M_bind.
    assert (Hst1 : steady (media_world m1)) by apply R1.
    destruct (_ !=? 0) eqn:Ed; cbn -[load_u32 load_u16].
    { split; [done|]. intros _ f _ [(_ & Hdir & _)|(_ & _ & [] %resolves_nil)]%(resolves_found c _ _ _ _ _ _ Hc Hp He).
      apply Hdir. by bool_to_prop. }
    destruct (_ && _) eqn:Ec; cbn -[load_u32 load_u16].
    { split; [done|]. intros _ f _ [(_ & _ & Hdata)|(_ & _ & []%resolves_nil)]%(resolves_found c _ _ _ _ _ _ Hc Hp He).
      apply andb_true_iff in Ec as [Ez Ec]. bool_to_prop. specialize (Hdata Ez). unfold data_cluster in Hdata.
      apply orb_true_iff in Ec as [Ec|Ec]; bool_to_prop; lia. }
    split; [done|]. split; [split; [change (len [component]) with 1; lia|constructor]|]. bool_to_prop. apply (resolves_file c component base extension e); try done.
    { intros Hdir. by apply Hdir. }
    intros Hz. apply andb_false_iff in Ec as [Ec|Ec]; [by bool_to_prop|]. bool_to_prop. unfold data_cluster. lia.
  - destruct (Z.eqb_spec x 47) as [->|Hx].
    + pose proof (open_component_spec b c (count + 1) component Hc m H0) as Hcomp. pose proof (components_pos [] rest) as Hpos.
      unfold mbind at 1, M_bind. destruct (open_component _ _ _ _ _ m) as [m1 [st|e]].
      { destruct Hcomp as [Hst Hcomp]. split; [done|]. intros Ha f [Hn _] (? & ? & ? & Hp & He & _)%resolves_entry.
        rewrite len_cons in Hn. eapply (Hcomp Ha); [|exact Hp|exact He]. lia. }
      destruct Hcomp as (R1 & Hn & base & extension & Hp & He). unfold leave_if, mbind, M_bind.
      destruct (_ || _) eqn:Ed; cbn -[load_u32 load_u16].
      { split; [apply R1|]. intros _ f _ [(E & _)|(Hdir & Hdata & _)]%(resolves_found c _ _ _ _ _ _ Hc Hp He).
        { by rewrite E in Hpos. }
        unfold is_directory, data_cluster in *. rewrite !orb_true_iff in Ed. destruct Ed as [[Ed|Ed]|Ed]; bool_to_prop; lia || done. }
      rewrite !orb_false_iff in Ed. destruct Ed as [[Ed1 Ed2] Ed3]. bool_to_prop.
      assert (Hc' : data_cluster v (entry_first_cluster e)) by (unfold data_cluster; lia).
      specialize (IH (entry_first_cluster e) (count + 1) [] Hc' m1 R1).
      destruct (open_path _ _ _ _ _ _ m1) as [m2 [st|f]].
      * destruct IH as [Hst IH]. split; [done|]. intros Ha f [Hn' Hall]
          [(E & _)|(Hdir & Hdata & Hr)]%(resolves_found c _ _ _ _ _ _ Hc Hp He).
        { by rewrite E in Hpos. }
        apply (IH Ha f); [|done]. rewrite len_cons in Hn'. split; [lia|]. by inversion Hall.
      * destruct IH as (R2 & [Hn' Hall] & Hr). split; [done|]. rewrite len_cons. split; [split; [lia|by constructor; [left|]]|].
        by apply (resolves_directory c component base extension e).
    + unfold leave_if, mbind, M_bind. destruct (_ || _) eqn:Ed; cbn.
      { split; [apply H0|]. intros _ f [_ Hall] _. inversion Hall as [|? ? Hx' _]. apply orb_true_iff in Ed as [Ed|Ed]; bool_to_prop; lia. }
      apply orb_false_iff in Ed as [E1 E2]. bool_to_prop.
      specialize (IH c count (component ++ [x]) Hc m H0). destruct (open_path _ _ _ _ _ _ m) as [m2 [st|f]].
      * destruct IH as [Hst IH]. split; [done|]. intros Ha f [Hn' Hall]. apply (IH Ha f). split; [done|]. by inversion Hall.
      * destruct IH as (R2 & [Hn' Hall] & Hr). split; [done|]. split; [|done]. split; [done|]. constructor; [right; lia|done].
Qed.

(** C11: Opening a path finds the file that the directory tree of the volume names by it.
    The components of the path are matched as 8.3 names, without regard to case, against
    the entries of each directory up to its end marker, deleted entries, long names and
    labels aside; every directory on the way is one, and a file that is not empty starts at a
    data cluster.  On a device whose reads succeed, a well-formed path that names a file is
    opened.  No block outside the volume is read. *)
Theorem fat32_open_exact b rest : len rest <> 0 ->
  triple (ready b) (ribon_fat32_open (Some v) (Some (47 :: rest)) (Some s) false)
    (fun f m => ready b m /\ path_ok 0 [] rest /\ resolves (volume_root_cluster v) (components [] rest) f)
    (fun _ => refused (forall f, path_ok 0 [] rest -> ~ resolves (volume_root_cluster v) (components [] rest) f)).
Proof.
  intros Hrest m H0. unfold ribon_fat32_open, leave_if. rewrite (mounted_device _ _ Hm). destruct Hs as [Hs1 _].
  compare. apply (open_path_spec b rest (volume_root_cluster v) 0 [] (mounted_root _ _ Hm) m H0).
Qed.
End Open.

(** ** A concrete volume *)

Definition sample_boot_sector : bytes :=
  let b := store_u16 (zeros 512) 11 512 in
  let b := store_u8 b 13 1 in
  let b := store_u16 b 14 1 in
  let b := store_u8 b 16 1 in
  let b := store_u32 b 32 66038 in
  let b := store_u32 b 36 512 in
  let b := store_u32 b 44 2 in
  store_u16 b 510 0xaa55.

Definition sample_table : bytes :=
  let b := store_u32 (zeros 512) 8 0x0fffffff in
  let b := store_u32 b 12 5 in
  store_u32 b 20 0x0fffffff.

Definition sample_directory : bytes :=
  let b := store (zeros 512) 0 (text "DELETED BIN" : bytes) in
  let b := store_u8 b 0 0xe5 in
  let b := store b 32 (text "KERNEL  BIN") in
  let b := store_u8 b 43 0x20 in
  let b := store_u16 b 58 3 in
  store_u32 b 60 700.

Definition sample_blocks (block : Z) : bytes :=
  if block =? 64 then sample_boot_sector
  else if block =? 65 then sample_table
  else if block =? 577 then sample_directory
  else if block =? 578 then replicate 512 1
  else if block =? 580 then replicate 512 2
  else zeros 512.

Definition sample_device : RibonReadOnlyBlockDevice unit := reference_device 512 70000 sample_blocks.
Definition sample_scratch : RibonFat32Scratch := mkScratch 1 512.
Definition sample_media (buffer : bytes) : Media unit := mkMedia tt (zeros 512) buffer.

Definition sample_volume : RibonFat32Volume unit := mkVolume (Some sample_device) 64 66038 65 577 1 2 65525 65526.
Definition sample_file : RibonFat32File := mkFile 3 700.

(** The volume mounts, the file opens, and its bytes are read across its two clusters. *)
Lemma sample_runs :
  snd (ribon_fat32_mount false (Some sample_device) 64 69000 (Some sample_scratch) (sample_media [])) = inr sample_volume /\
  snd (ribon_fat32_open (Some sample_volume) (Some (text "/kernel.bin")) (Some sample_scratch) false (sample_media [])) =
    inr sample_file /\
  media_buffer (fst (ribon_fat32_read (Some sample_volume) (Some sample_file) 510 false 4 (Some sample_scratch)
    (sample_media (zeros 6)))) = [1; 1; 2; 2; 0; 0].
Proof. vm_compute. done. Qed.

(** A read that fails has already copied the clusters before the damage. *)
Lemma failed_read_leaves_bytes :
  let '(m, r) := ribon_fat32_read (Some sample_volume) (Some (mkFile 5 700)) 510 false 4 (Some sample_scratch)
    (sample_media (zeros 4)) in
  r = inl FAT32_CORRUPT_CHAIN /\ media_buffer m = [2; 2; 0; 0].
Proof. vm_compute. done. Qed.

(** ** The hypotheses of the properties hold *)

Lemma sample_blocks_typed block : len (sample_blocks block) = 512 /\ octets (sample_blocks block).
Proof.
  unfold sample_blocks.
  repeat match goal with |- context [if ?g then _ else _] => destruct g;
    [split; [reflexivity|apply octetsb_octets; reflexivity]|] end.
  split; [reflexivity|apply octetsb_octets; reflexivity].
Qed.

#[global] Instance sample_exact first count : ExactReads sample_device sample_blocks first count (fun _ => True).
Proof. apply reference_exact. intros b _. apply sample_blocks_typed. Qed.

Lemma sample_mounted : mounted sample_device sample_volume.
Proof.
  split; cbn; try done; try lia.
  - by exists 9.
  - intros c Hc. assert (c * 4 / 512 < 512); [|lia]. apply Z.div_lt_upper_bound; lia.
Qed.

Lemma sample_fits : scratch_fits sample_device sample_scratch.
Proof. split; cbn; lia. Qed.

Lemma sample_volume_ready b : ready sample_scratch (fun _ : unit => True) b (sample_media b).
Proof. split; [exact I|]. split; reflexivity. Qed.

Lemma fat32_mount_sound_witness :
  triple (ready sample_scratch (fun _ => True) []) (ribon_fat32_mount false (Some sample_device) 64 69000 (Some sample_scratch))
    (fun v m => mounted sample_device v /\ scratch_fits sample_device sample_scratch /\
       volume_partition_first_block v = 64 /\ 0 < volume_partition_block_count v <= 69000 /\
       ready sample_scratch (fun _ => True) [] m)
    (fun _ _ => True).
Proof.
  apply (fat32_mount_sound sample_device sample_scratch sample_blocks (fun _ => True) 64 69000 []); [|lia..].
  by repeat split.
Defined.

Lemma fat32_open_exact_witness :
  exists m : Media unit, ready sample_scratch (fun _ => True) [] m /\ path_ok 0 [] (text "kernel.bin") /\
    resolves sample_device sample_volume sample_blocks 2 [text "kernel.bin"] sample_file.
Proof.
  assert (E : exists m : Media unit, ribon_fat32_open (Some sample_volume) (Some (47 :: text "kernel.bin")) (Some sample_scratch) false
    (sample_media []) = (m, inr sample_file)) by (eexists; vm_compute; reflexivity).
  destruct E as [m E]. exists m.
  pose proof (fat32_open_exact sample_device sample_volume sample_scratch sample_blocks (fun _ => True)
    sample_mounted sample_fits [] (text "kernel.bin") ltac:(discriminate) (sample_media []) (sample_volume_ready [])) as H.
  rewrite E in H. exact H.
Defined.

Lemma fat32_read_exact_witness :
  exists (m : Media unit) l, chain sample_device sample_volume sample_blocks 2 3 = Some l /\
    ready sample_scratch (fun _ => True)
      (store (zeros 6) 0 (slice 510 4 (chain_data sample_volume sample_blocks l))) m.
Proof.
  assert (E : exists m : Media unit, ribon_fat32_read (Some sample_volume) (Some sample_file) 510 false 4 (Some sample_scratch)
    (sample_media (zeros 6)) = (m, inr tt)) by (eexists; vm_compute; reflexivity).
  destruct E as [m E]. exists m.
  pose proof (fat32_read_exact sample_device sample_volume sample_scratch sample_blocks (fun _ => True)
    sample_mounted sample_fits sample_file 510 4 (zeros 6) ltac:(split; cbn; lia) ltac:(lia) ltac:(lia) ltac:(cbn; lia)
    ltac:(vm_compute; discriminate) (sample_media (zeros 6)) (sample_volume_ready (zeros 6))) as H.
  rewrite E in H. exact H.
Defined.
