(* ===== verification/Tftp.v ===== *)
(** * The TFTP packet guard ([src/common/net/tftp.c])

    The guard accepts one transfer: an option acknowledgement, then the data blocks in
    order, each once, up to a short one that ends it.  The loop that feeds it,
    [snp_fetch_once] of [src/environments/uefi-app/recovery_network.c], copies the payloads
    to the caller's buffer. *)

From Stdlib Require Import String.
From S2P Require Import Prelude.
From S2P Require Import Buffer.
From S2P Require Import Wire.
From S2P Require Import PayloadImage.

Definition RIBON_TFTP_GUARD_ABI_VERSION : Z := 1.
Definition sizeof_RibonTftpGuard : Z := 40.

Inductive RibonTftpGuardStatus :=
  | TFTP_OK | TFTP_DUPLICATE | TFTP_COMPLETE | TFTP_INVALID_ARGUMENT | TFTP_MALFORMED | TFTP_OUT_OF_ORDER
  | TFTP_CAPACITY | TFTP_REMOTE_ERROR | TFTP_UNSUPPORTED_OPTION.

#[global] Instance RibonTftpGuardStatus_eq_dec : EqDecision RibonTftpGuardStatus.
Proof. solve_decision. Defined.

Record RibonTftpGuard := mkGuard {
  guard_size : Z;
  guard_abi_version : Z;
  guard_block_size : Z;
  guard_expected_block : Z;
  guard_packet_count : Z;
  guard_maximum_bytes : Z;
  guard_received_bytes : Z;
  guard_options_complete : Z;
  guard_complete : Z;
}.

Definition load_be16 (b : bytes) (o : Z) : Z := Z.lor (u16 (Z.shiftl (byte_at b o) 8)) (byte_at b (o + 1)).

Definition is_blksize (b : bytes) : bool :=
  let name := text "blksize" in
  (len b =? len name) &&
  forallb (fun index =>
    let value := byte_at b index in
    let value := if (65 <=? value) && (value <=? 90) then value + 32 else value in
    value =? byte_at name index) (upto (len b)).

Definition parse_block_size (b : bytes) : option Z :=
  if (len b =? 0) || (5 <? len b) then None
  else
    match foldE (fun result x =>
             if (x <? 48) || (57 <? x) || ((UINT16_MAX - (x - 48)) / 10 <? result) then inl tt
             else inr (result * 10 + (x - 48))) b 0 with
    | inl _ => None
    | inr result => if (result <? 512) || (1468 <? result) then None else Some result
    end.

(** The new guard, or the status of an invalid argument. *)
Definition ribon_tftp_guard_initialize (guard_null : bool) (requested_block_size maximum_bytes : Z) :
    RibonTftpGuardStatus + RibonTftpGuard :=
  if guard_null || (requested_block_size <? 512) || (1468 <? requested_block_size) || (maximum_bytes =? 0)
  then inl TFTP_INVALID_ARGUMENT
  else inr (mkGuard sizeof_RibonTftpGuard RIBON_TFTP_GUARD_ABI_VERSION requested_block_size 1 0 maximum_bytes 0 0 0).

(** The bytes before the first NUL, and what follows it; [None] where there is none. *)
Fixpoint until_nul (b : bytes) : bytes * option bytes :=
  match b with
  | [] => ([], None)
  | x :: b' => if x =? 0 then ([], Some b') else let '(token, rest) := until_nul b' in (x :: token, rest)
  end.

Definition accept_oack (guard : RibonTftpGuard) (packet : bytes) : RibonTftpGuardStatus * RibonTftpGuard :=
  if (guard_options_complete guard !=? 0) || (guard_expected_block guard !=? 1) || (len packet <? 6)
  then (TFTP_MALFORMED, guard)
  else
    let '(name, after_name) := until_nul (slice 2 (len packet - 2) packet) in
    match after_name with
    | None => (TFTP_UNSUPPORTED_OPTION, guard)
    | Some value_bytes =>
      if (len name =? 0) || negb (is_blksize name) then (TFTP_UNSUPPORTED_OPTION, guard)
      else
        let '(value, after_value) := until_nul value_bytes in
        match after_value with
        | Some [] =>
          if len value =? 0 then (TFTP_MALFORMED, guard)
          else
            match parse_block_size value with
            | None => (TFTP_MALFORMED, guard)
            | Some negotiated =>
              if guard_block_size guard <? negotiated then (TFTP_MALFORMED, guard)
              else (TFTP_OK, mkGuard (guard_size guard) (guard_abi_version guard) negotiated
                     (guard_expected_block guard) (u32 (guard_packet_count guard + 1)) (guard_maximum_bytes guard)
                     (guard_received_bytes guard) 1 (guard_complete guard))
            end
        | _ => (TFTP_MALFORMED, guard)
        end
    end.

(** The status, the guard and the payload span; [outputs_null] says that one of the two
    output pointers is NULL. *)
Definition ribon_tftp_guard_accept (guard : option RibonTftpGuard) (packet : option bytes) (outputs_null : bool) :
    RibonTftpGuardStatus * option RibonTftpGuard * bytes :=
  match guard, packet with
  | Some g, Some p =>
    if outputs_null || (guard_size g !=? sizeof_RibonTftpGuard) ||
       (guard_abi_version g !=? RIBON_TFTP_GUARD_ABI_VERSION) || (guard_complete g !=? 0) ||
       (len p <? 2) || (65535 <=? guard_packet_count g) then (TFTP_INVALID_ARGUMENT, guard, [])
    else
      let opcode := load_be16 p 0 in
      if opcode =? 6 then let '(status, g) := accept_oack g p in (status, Some g, [])
      else if opcode =? 5 then
        ((if 5 <=? len p then TFTP_REMOTE_ERROR else TFTP_MALFORMED), guard, [])
      else if (opcode !=? 3) || (len p <? 4) then (TFTP_MALFORMED, guard, [])
      else
        let block := load_be16 p 2 in
        let data_size := len p - 4 in
        if guard_block_size g <? data_size then (TFTP_MALFORMED, guard, [])
        else if (1 <? guard_expected_block g) && (block =? u16 (guard_expected_block g - 1))
        then (TFTP_DUPLICATE, guard, [])
        else if (block !=? guard_expected_block g) || (guard_expected_block g =? UINT16_MAX)
        then (TFTP_OUT_OF_ORDER, guard, [])
        else if u64 (guard_maximum_bytes g - guard_received_bytes g) <? data_size then (TFTP_CAPACITY, guard, [])
        else
          let complete := data_size <? guard_block_size g in
          let g := mkGuard (guard_size g) (guard_abi_version g) (guard_block_size g)
                     (u16 (guard_expected_block g + 1)) (u32 (guard_packet_count g + 1)) (guard_maximum_bytes g)
                     (u64 (guard_received_bytes g + data_size)) 1 (if complete then 1 else guard_complete g) in
          ((if complete then TFTP_COMPLETE else TFTP_OK), Some g, slice 4 data_size p)
  | _, _ => (TFTP_INVALID_ARGUMENT, guard, [])
  end.

(** ** What a transfer delivers *)

(** A guard fed with the packets that arrive, and the payloads it lends. *)
Fixpoint feed (g : RibonTftpGuard) (packets : list bytes) : RibonTftpGuard * bytes :=
  match packets with
  | [] => (g, [])
  | p :: rest =>
    let '(_, g', payload) := ribon_tftp_guard_accept (Some g) (Some p) false in
    let '(g'', payloads) := feed (default g g') rest in
    (g'', payload ++ payloads)
  end.

(** Block [k] of a file, and the number of blocks: the last one is short. *)
Definition chunk (file : bytes) (block_size k : Z) : bytes := slice ((k - 1) * block_size) block_size file.
Definition block_total (file : bytes) (block_size : Z) : Z := len file / block_size + 1.

(** A packet of a peer that sends [file] in blocks of [block_size]: data packets carry the
    blocks of the file and option acknowledgements this block size.  Nothing is said of
    other packets, and packets may be lost, repeated or out of order. *)
Definition honest (file : bytes) (block_size : Z) (p : bytes) : Prop :=
  (load_be16 p 0 = 3 -> 4 <= len p ->
     1 <= load_be16 p 2 <= block_total file block_size /\
     slice 4 (len p - 4) p = chunk file block_size (load_be16 p 2)) /\
  (load_be16 p 0 = 6 -> forall g g', accept_oack g p = (TFTP_OK, g') -> guard_block_size g' = block_size).

(** A guard before the first block, with the block size agreed. *)
Definition fresh_guard (block_size maximum : Z) (g : RibonTftpGuard) : Prop :=
  guard_size g = sizeof_RibonTftpGuard /\ guard_abi_version g = RIBON_TFTP_GUARD_ABI_VERSION /\
  guard_block_size g = block_size /\ guard_expected_block g = 1 /\ guard_received_bytes g = 0 /\
  guard_complete g = 0 /\ guard_maximum_bytes g = maximum /\ 0 <= guard_packet_count g.

(** The guard has taken the first [guard_received_bytes] bytes of the file. *)
Record underway (file : bytes) (block_size maximum : Z) (g : RibonTftpGuard) : Prop := {
  underway_size : guard_size g = sizeof_RibonTftpGuard;
  underway_abi : guard_abi_version g = RIBON_TFTP_GUARD_ABI_VERSION;
  underway_block : guard_block_size g = block_size;
  underway_maximum : guard_maximum_bytes g = maximum;
  underway_expected : 1 <= guard_expected_block g <= 65535;
  underway_received : guard_received_bytes g = Z.min ((guard_expected_block g - 1) * block_size) (len file);
  underway_bound : guard_received_bytes g <= maximum;
  underway_complete : guard_complete g = 0 /\ guard_expected_block g <= block_total file block_size \/
    guard_complete g = 1 /\ guard_received_bytes g = len file;
}.

Lemma load_be16_word p o : octets p -> word 16 (load_be16 p o).
Proof.
  intros H. unfold load_be16. apply lor_word; [lia|by apply wrap_word|].
  pose proof (byte_at_octet p (o + 1) H) as Hw. rewrite word8 in Hw. rewrite word16. unfold UINT16_MAX. lia.
Qed.

Lemma chunk_length file bs k : 0 < bs -> 1 <= k <= block_total file bs ->
  len (chunk file bs k) = Z.min bs (len file - (k - 1) * bs).
Proof.
  intros Hb Hk. unfold chunk, block_total in *. pose proof (Z.mul_div_le (len file) bs Hb).
  assert (Hq : 0 <= (k - 1) * bs <= len file) by nia. set (q := (k - 1) * bs) in *. clearbody q.
  unfold len, slice in *. rewrite length_take, length_drop. lia.
Qed.

(** The bytes up to a block, and that block. *)
Lemma take_chunk file bs k : 0 < bs -> 1 <= k <= block_total file bs ->
  slice 0 ((k - 1) * bs) file ++ chunk file bs k = slice 0 (Z.min (k * bs) (len file)) file.
Proof.
  intros Hb Hk. pose proof (chunk_length file bs k Hb Hk) as Hl. unfold chunk, block_total in *.
  pose proof (Z.mul_div_le (len file) bs Hb). assert (Hq : 0 <= (k - 1) * bs <= len file) by nia.
  replace (k * bs) with ((k - 1) * bs + bs) by lia. set (q := (k - 1) * bs) in *. clearbody q.
  replace (Z.min (q + bs) (len file)) with (q + Z.min bs (len file - q)) by lia.
  rewrite slice_split by lia. f_equal. rewrite Z.add_0_l. unfold slice.
  rewrite <- (firstn_all (drop (Z.to_nat q) file)) at 1. rewrite firstn_firstn. f_equal.
  rewrite length_drop. unfold len. lia.
Qed.

(** An option acknowledgement changes the block size, or nothing. *)
Lemma accept_oack_frame g p st g' : accept_oack g p = (st, g') ->
  g' = g /\ st <> TFTP_OK \/
  st = TFTP_OK /\ exists n, g' = mkGuard (guard_size g) (guard_abi_version g) n (guard_expected_block g)
    (u32 (guard_packet_count g + 1)) (guard_maximum_bytes g) (guard_received_bytes g) 1 (guard_complete g).
Proof.
  unfold accept_oack. intros H.
  repeat match type of H with
  | (if ?c then _ else _) = _ => destruct c
  | (let '(_, _) := ?c in _) = _ => destruct c
  | match ?c with _ => _ end = _ => destruct c
  end; injection H as <- <-; eauto; left; by split.
Qed.

(** One packet: what was taken is extended by what is delivered. *)
Lemma accept_underway file bs maximum g p : 512 <= bs <= 1468 -> word 64 maximum -> octets p -> honest file bs p ->
  underway file bs maximum g ->
  let '(_, g', payload) := ribon_tftp_guard_accept (Some g) (Some p) false in
  exists g'', g' = Some g'' /\ underway file bs maximum g'' /\
    slice 0 (guard_received_bytes g) file ++ payload = slice 0 (guard_received_bytes g'') file.
Proof.
  intros Hbs Hmax Hoct [Hdata Hoack] [U1 U2 U3 U4 U5 U6 U7 U8]. unfold ribon_tftp_guard_accept. rewrite word64 in Hmax.
  assert (Hsame : exists g'', Some g = Some g'' /\ underway file bs maximum g'' /\
    slice 0 (guard_received_bytes g) file ++ [] = slice 0 (guard_received_bytes g'') file).
  { exists g. split; [done|]. split; [by split|]. apply app_nil_r. }
  destruct (_ || _) eqn:G; [done|]. rewrite !orb_false_iff in G. destruct_and! G. bool_to_prop.
  destruct (load_be16 p 0 =? 6) eqn:O6; bool_to_prop.
  { destruct (accept_oack g p) as [st g'] eqn:Ea. pose proof (accept_oack_frame _ _ _ _ Ea) as [[-> _]|[-> (n & ->)]]; [done|].
    apply (Hoack O6) in Ea. cbn in Ea. subst n. eexists. split; [done|]. split; [by split|]. apply app_nil_r. }
  destruct (load_be16 p 0 =? 5); [done|]. destruct (_ || _) eqn:O3; [done|].
  apply orb_false_iff in O3 as [O3 O4]. bool_to_prop. destruct (Hdata O3 O4) as [Hk Hchunk].
  destruct (guard_block_size g <? _) eqn:G1; [done|]. destruct (_ && _) eqn:G2; [done|].
  destruct (_ || _) eqn:G3; [done|]. apply orb_false_iff in G3 as [G3 G4]. bool_to_prop. rewrite G3 in *.
  pose proof (chunk_length file bs (guard_expected_block g) ltac:(lia) Hk) as Hl.
  pose proof (take_chunk file bs (guard_expected_block g) ltac:(lia) Hk) as Htake.
  assert (Hp : len p - 4 = len (chunk file bs (guard_expected_block g))) by (rewrite <- Hchunk; rewrite len_slice; lia).
  unfold block_total in *. pose proof (Z.mul_div_le (len file) bs ltac:(lia)) as Hdiv. unfold UINT16_MAX in *.
  assert (Hq : 0 <= (guard_expected_block g - 1) * bs <= len file) by nia.
  rewrite Z.min_l in U6 by lia. rewrite (wrap_small 64) by (rewrite word64; lia).
  destruct (_ <? len p - 4) eqn:G5; [done|]. bool_to_prop.
  rewrite Hchunk, U3. eexists. split; [done|].
  rewrite (wrap_small 16) by (rewrite word16; unfold UINT16_MAX; lia).
  rewrite (wrap_small 64) by (rewrite word64; lia).
  assert (Hr : guard_received_bytes g + (len p - 4) = Z.min (guard_expected_block g * bs) (len file)) by lia.
  split; [|cbn [guard_received_bytes]; rewrite Hr, U6; exact Htake].
  split; cbn; try done; try lia.
  destruct (Z.ltb_spec (len p - 4) bs).
  - right. split; [done|]. lia.
  - left. split; [done|]. unfold block_total. assert (guard_expected_block g <= len file / bs); [|lia].
    apply Z.div_le_lower_bound; lia.
Qed.

Lemma fresh_underway file bs maximum g : 0 < bs -> 0 <= maximum -> fresh_guard bs maximum g -> underway file bs maximum g.
Proof.
  intros Hb Hm (F1 & F2 & F3 & F4 & F5 & F6 & F7 & F8). pose proof (len_nonneg file).
  split; try done; rewrite ?F4, ?F5, ?F6; try lia. left. split; [done|]. unfold block_total.
  pose proof (Z.div_pos (len file) bs). lia.
Qed.

Lemma feed_underway file bs maximum packets : 512 <= bs <= 1468 -> word 64 maximum ->
  Forall (fun p => octets p /\ honest file bs p) packets -> forall g, underway file bs maximum g ->
  let '(g', delivered) := feed g packets in
  underway file bs maximum g' /\
  slice 0 (guard_received_bytes g) file ++ delivered = slice 0 (guard_received_bytes g') file.
Proof.
  intros Hbs Hm H. induction H as [|p packets [Ho Hp] H IH]; intros g U; cbn [feed].
  { split; [done|apply app_nil_r]. }
  pose proof (accept_underway file bs maximum g p Hbs Hm Ho Hp U) as Ha.
  destruct (ribon_tftp_guard_accept _ _ _) as [[st g1] payload]. destruct Ha as (g2 & -> & U2 & E). cbn [from_option id].
  specialize (IH g2 U2). destruct (feed g2 packets) as [g3 rest]. destruct IH as [U3 E3]. split; [done|].
  by rewrite app_assoc, E.
Qed.

(** A transfer is exact.  Of a peer that sends a file, over a network that may lose,
    repeat, reorder and inject anything but false blocks, the guard delivers the bytes of
    the file in order, without gap or repetition, never more than the maximum; when it
    reports the transfer complete, the whole file was delivered. *)
Theorem tftp_transfer_exact file bs maximum g packets :
  512 <= bs <= 1468 -> word 64 maximum -> fresh_guard bs maximum g ->
  Forall (fun p => octets p /\ honest file bs p) packets ->
  let '(g', delivered) := feed g packets in
  delivered = slice 0 (guard_received_bytes g') file /\ len delivered = guard_received_bytes g' /\ len delivered <= maximum /\
  (guard_complete g' <> 0 -> delivered = file).
Proof.
  intros Hbs Hm Hg Hp. assert (Hm' := Hm). rewrite word64 in Hm'.
  assert (Hr0 : guard_received_bytes g = 0) by apply Hg.
  apply (fresh_underway file) in Hg; [|lia..].
  pose proof (feed_underway file bs maximum packets Hbs Hm Hp g Hg) as Hf. destruct (feed g packets) as [g' delivered].
  destruct Hf as [U E]. rewrite Hr0 in E. change (slice 0 0 file ++ delivered) with delivered in E. pose proof (underway_received _ _ _ _ U) as Hr.
  pose proof (underway_expected _ _ _ _ U). pose proof (len_nonneg file).
  assert (0 <= guard_received_bytes g' <= len file) by nia.
  split; [done|]. rewrite E. rewrite len_slice by lia. split; [done|]. split; [apply (underway_bound _ _ _ _ U)|].
  intros Hc. destruct (underway_complete _ _ _ _ U) as [[? _]|[_ ->]]; [lia|]. by apply slice_all.
Qed.

(** ** A transfer without losses *)

Definition data_packet (file : bytes) (block_size k : Z) : bytes :=
  [0; 3; Z.shiftr k 8; Z.land k 255] ++ chunk file block_size k.

Lemma data_packet_opcode file bs k : load_be16 (data_packet file bs k) 0 = 3.
Proof. reflexivity. Qed.

Lemma data_packet_block file bs k : word 16 k -> load_be16 (data_packet file bs k) 2 = k.
Proof.
  intros Hk. rewrite word16 in Hk. unfold UINT16_MAX in Hk. unfold load_be16, data_packet.
  change (byte_at _ 2) with (Z.shiftr k 8). change (byte_at _ (2 + 1)) with (Z.land k 255).
  change 255 with (Z.ones 8). rewrite Z.land_ones, Z.shiftr_div_pow2 by lia. change (2 ^ 8) with 256.
  pose proof (Z.div_pos k 256 ltac:(lia) ltac:(lia)). assert (k / 256 < 256) by (apply Z.div_lt_upper_bound; lia).
  pose proof (Z.mod_pos_bound k 256 ltac:(lia)).
  assert (Hs : Z.shiftl (k / 256) 8 = k / 256 * 256) by (rewrite Z.shiftl_mul_pow2 by lia; done).
  rewrite (wrap_small 16) by (rewrite Hs, word16; unfold UINT16_MAX; lia). rewrite Z.lor_comm.
  rewrite lor_shiftl_add; [|lia..]. rewrite (Z.div_mod k 256) at 3 by lia. lia.
Qed.

Lemma data_packet_payload file bs k : slice 4 (len (data_packet file bs k) - 4) (data_packet file bs k) = chunk file bs k.
Proof.
  unfold data_packet. rewrite slice_app_r by (unfold len; cbn; lia). rewrite len_app.
  change (len [0; 3; Z.shiftr k 8; Z.land k 255]) with 4. apply slice_all. lia.
Qed.

Lemma data_packet_typed file bs k : octets file -> word 16 k -> octets (data_packet file bs k).
Proof.
  intros Hf Hk. rewrite word16 in Hk. unfold UINT16_MAX in Hk. unfold data_packet. apply octets_app. split; [|by apply octets_slice].
  repeat constructor; try lia.
  - apply Z.shiftr_nonneg. lia.
  - rewrite Z.shiftr_div_pow2 by lia. apply Z.div_lt_upper_bound; lia.
  - change 255 with (Z.ones 8). rewrite Z.land_ones by lia. by apply Z.mod_pos_bound.
  - change 255 with (Z.ones 8). rewrite Z.land_ones by lia. by apply Z.mod_pos_bound.
Qed.

Lemma data_packet_honest file bs k : word 16 k -> 1 <= k <= block_total file bs -> honest file bs (data_packet file bs k).
Proof.
  intros Hw Hk. split; [|done]. intros _ _. rewrite data_packet_block by done. split; [done|]. apply data_packet_payload.
Qed.

(** The next block is always taken. *)
Lemma accept_next file bs maximum g : 512 <= bs <= 1468 -> word 64 maximum -> len file <= maximum ->
  underway file bs maximum g -> guard_complete g = 0 -> guard_expected_block g <= 65534 -> 0 <= guard_packet_count g < 65535 ->
  let k := guard_expected_block g in
  let '(st, g', _) := ribon_tftp_guard_accept (Some g) (Some (data_packet file bs k)) false in
  exists g'', g' = Some g'' /\ guard_expected_block g'' = k + 1 /\ guard_packet_count g'' = guard_packet_count g + 1 /\
    (k < block_total file bs -> guard_complete g'' = 0) /\
    (st = TFTP_OK /\ guard_complete g'' = 0 \/ st = TFTP_COMPLETE /\ guard_complete g'' = 1).
Proof.
  intros Hbs Hm Hfit [U1 U2 U3 U4 U5 U6 U7 U8] Hc He Hn k. unfold ribon_tftp_guard_accept. rewrite word64 in Hm.
  assert (Hk : 1 <= k <= block_total file bs) by (subst k; lia).
  pose proof (chunk_length file bs k ltac:(lia) Hk) as Hl. pose proof (len_nonneg (chunk file bs k)) as Hl0.
  assert (Hp : len (data_packet file bs k) = 4 + len (chunk file bs k)) by (unfold data_packet; rewrite len_app; done).
  rewrite U1, U2, Hc, data_packet_opcode, data_packet_block by (rewrite word16; unfold UINT16_MAX; lia).
  fold k in U5, U6, He |- *. rewrite Hp, U3, U4. cbn [negb orb].
  rewrite (wrap_small 16 (k - 1)) by (rewrite word16; unfold UINT16_MAX; lia).
  unfold block_total in *. pose proof (Z.mul_div_le (len file) bs ltac:(lia)) as Hdiv.
  assert (Hq : 0 <= (k - 1) * bs <= len file) by nia. rewrite Z.min_l in U6 by lia. rewrite U6.
  rewrite (wrap_small 64) by (rewrite word64; lia). unfold UINT16_MAX. rewrite !Z.eqb_refl. cbn [negb orb andb].
  compare. rewrite andb_false_r. compare. eexists. split; [done|]. cbn.
  rewrite (wrap_small 16) by (rewrite word16; unfold UINT16_MAX; lia).
  rewrite (wrap_small 32) by (rewrite word32; unfold UINT32_MAX; lia). split_and!; try done.
  - intros Hlt. rewrite (proj2 (Z.ltb_ge _ _)); [done|]. nia.
  - destruct (_ <? bs); auto.
Qed.

Lemma feed_completes file bs maximum (n : nat) : 512 <= bs <= 1468 -> word 64 maximum -> octets file -> len file <= maximum ->
  block_total file bs <= 65534 -> forall g, underway file bs maximum g -> guard_complete g = 0 ->
  guard_expected_block g + Z.of_nat n = block_total file bs + 1 -> 0 <= guard_packet_count g ->
  guard_packet_count g + Z.of_nat n <= 65535 ->
  guard_complete (fst (feed g (data_packet file bs <$> seqZ (guard_expected_block g) (Z.of_nat n)))) <> 0.
Proof.
  intros Hbs Hm Hoct Hfit Htotal. induction n as [|n IH]; intros g U Hc He Hn1 Hn2.
  { destruct (underway_complete _ _ _ _ U) as [[_ ?]|[? _]]; lia. }
  rewrite seqZ_cons by lia. cbn [fmap list_fmap feed]. pose proof (underway_expected _ _ _ _ U) as He'.
  assert (Hk : word 16 (guard_expected_block g)) by (rewrite word16; unfold UINT16_MAX; lia).
  pose proof (accept_next file bs maximum g Hbs Hm Hfit U Hc ltac:(lia) ltac:(lia)) as Ha. cbn zeta in Ha.
  pose proof (accept_underway file bs maximum g (data_packet file bs (guard_expected_block g)) Hbs Hm
    (data_packet_typed _ _ _ Hoct Hk) (data_packet_honest file bs _ Hk ltac:(lia)) U) as Hu.
  destruct (ribon_tftp_guard_accept _ _ _) as [[st g1] payload]. destruct Ha as (g2 & -> & E1 & E2 & E3 & _).
  destruct Hu as (g3 & [= <-] & U2 & _). cbn [from_option id].
  replace (Z.succ (guard_expected_block g)) with (guard_expected_block g2) by lia.
  replace (Z.pred (Z.of_nat (S n))) with (Z.of_nat n) by lia.
  destruct n as [|n].
  - change (seqZ _ (Z.of_nat 0)) with (@nil Z). cbn. destruct (underway_complete _ _ _ _ U2) as [[_ ?]|[? _]]; lia.
  - specialize (IH g2 U2 (E3 ltac:(lia)) ltac:(lia) ltac:(lia) ltac:(lia)).
    by destruct (feed g2 _).
Qed.

(** Sent once and in order, a file within the bounds is delivered. *)
Lemma transfer_completes file bs maximum g : 512 <= bs <= 1468 -> word 64 maximum -> octets file -> len file <= maximum ->
  block_total file bs <= 65534 -> fresh_guard bs maximum g -> guard_packet_count g <= 1 ->
  let '(g', delivered) := feed g (data_packet file bs <$> seqZ 1 (block_total file bs)) in
  guard_complete g' <> 0 /\ delivered = file.
Proof.
  intros Hbs Hm Hoct Hfit Htotal Hg Hn. assert (Hm' := Hm). rewrite word64 in Hm'.
  assert (Hg0 := Hg). destruct Hg0 as (_ & _ & _ & F4 & F5 & F6 & _ & F8).
  apply (fresh_underway file) in Hg; [|lia..]. pose proof (len_nonneg file) as Hl0.
  pose proof (Z.div_pos (len file) bs Hl0 ltac:(lia)) as Hdiv. unfold block_total in Htotal.
  pose proof (feed_completes file bs maximum (Z.to_nat (block_total file bs)) Hbs Hm Hoct Hfit Htotal g Hg F6) as Hc.
  rewrite Z2Nat.id in Hc by (unfold block_total; lia). rewrite F4 in Hc.
  specialize (Hc ltac:(lia) ltac:(lia) ltac:(unfold block_total; lia)).
  assert (Hall : Forall (fun p => octets p /\ honest file bs p) (data_packet file bs <$> seqZ 1 (block_total file bs))).
  { apply Forall_fmap, Forall_forall. intros k Hk. apply elem_of_seqZ in Hk. unfold block_total in Hk.
    assert (word 16 k) by (rewrite word16; unfold UINT16_MAX; lia). cbn.
    split; [by apply data_packet_typed|]. apply data_packet_honest; [done|]. unfold block_total. lia. }
  pose proof (feed_underway file bs maximum _ Hbs Hm Hall g Hg) as Hf.
  destruct (feed g _) as [g' delivered]. cbn in Hc. split; [done|]. destruct Hf as [U E].
  rewrite F5 in E. change (slice 0 0 file ++ delivered) with delivered in E.
  destruct (underway_complete _ _ _ _ U) as [[? _]|[_ Hr]]; [done|]. rewrite E, Hr. by apply slice_all.
Qed.

(** ** Examples *)

Definition sample_guard : RibonTftpGuard := mkGuard 40 1 512 1 0 1000 0 0 0.

Definition sample_object : bytes := replicate 512 7 ++ replicate 88 9.

(** Lost, repeated and out-of-order blocks of a file of 600 bytes. *)
Definition sample_transfer : list bytes :=
  [data_packet sample_object 512 2; data_packet sample_object 512 1; data_packet sample_object 512 1;
   data_packet sample_object 512 2].

Lemma sample_transfer_honest : Forall (fun p => octets p /\ honest sample_object 512 p) sample_transfer.
Proof.
  assert (H : forall k, k = 1 \/ k = 2 ->
    octets (data_packet sample_object 512 k) /\ honest sample_object 512 (data_packet sample_object 512 k)).
  { intros k Hk. assert (Hw : word 16 k) by (rewrite word16; unfold UINT16_MAX; lia). split.
    - apply data_packet_typed; [apply octetsb_octets; reflexivity|done].
    - apply data_packet_honest; [done|]. change (block_total sample_object 512) with 2. lia. }
  unfold sample_transfer. repeat apply Forall_cons_2; try (apply H; auto). apply Forall_nil_2.
Qed.

Lemma tftp_transfer_exact_witness :
  snd (feed sample_guard sample_transfer) =
    slice 0 (guard_received_bytes (fst (feed sample_guard sample_transfer))) sample_object /\
  len (snd (feed sample_guard sample_transfer)) <= 1000.
Proof.
  pose proof (tftp_transfer_exact sample_object 512 1000 sample_guard sample_transfer ltac:(lia) ltac:(done)
    ltac:(by repeat split) sample_transfer_honest) as H.
  destruct (feed sample_guard sample_transfer) as [g d]. destruct H as (H1 & _ & H2 & _). split; assumption.
Defined.

(** The whole file was delivered. *)
Lemma sample_transfer_complete : guard_complete (fst (feed sample_guard sample_transfer)) = 1 /\
  snd (feed sample_guard sample_transfer) = sample_object.
Proof. vm_compute. done. Qed.

(** A server that does not know the option answers with blocks of 512 bytes and without an
    acknowledgement.  A guard that asked for more takes the first one for the last. *)
Lemma unacknowledged_option_truncates :
  let file := replicate 2000 7 in
  let '(status, g, payload) :=
    ribon_tftp_guard_accept (Some (mkGuard 40 1 1024 1 0 5000 0 0 0)) (Some (data_packet file 512 1)) false in
  status = TFTP_COMPLETE /\ len payload = 512 /\ len file = 2000.
Proof. vm_compute. done. Qed.
