(* ===== verification/RecoveryNetwork.v ===== *)
(** * The network recovery gate ([src/common/net/recovery.c])

    A product fixes the peer, the paths and the budgets of the three objects that a recovery
    may fetch.  The gate tries a transport provider a bounded number of times and hands
    out an object only with a consistent receipt; what a failed attempt left in the buffer is
    cleared.  The state is the provider's world, the caller's buffer and the list of the
    requests that were made. *)

From Stdlib Require Import String.
From S2P Require Import Prelude.
From S2P Require Import Effects.
From S2P Require Import Buffer.
From S2P Require Import Wire.
From S2P Require Import CString.
From S2P Require Import Plugin.
From S2P Require Import ServiceDirectory.
From S2P Require Import PayloadImage.
From S2P Require Import Tftp.

Definition RIBON_RECOVERY_NETWORK_ABI_VERSION : Z := 1.
Definition RIBON_RECOVERY_NETWORK_OBJECT_COUNT : Z := 3.
Definition RIBON_RECOVERY_NETWORK_PATH_CAPACITY : Z := 96.
Definition RIBON_RECOVERY_NETWORK_MAX_OBJECT_BYTES : Z := 64 * 1024 * 1024.
Definition RIBON_RECOVERY_NETWORK_TRANSPORT_UEFI_BOUNDED_TFTP : Z := 1.
Definition RIBON_RECOVERY_NETWORK_TRANSPORT_REFERENCE : Z := 3.
Definition sizeof_RibonRecoveryNetworkProductBinding : Z := 152.
Definition sizeof_RibonRecoveryNetworkRequest : Z := 64.
Definition sizeof_RibonRecoveryNetworkResult : Z := 24.
Definition sizeof_RibonNetworkTransportServiceOperations : Z := 24.

(** A provider returns any [int]; these are the ones with a meaning. *)
Definition NETWORK_OK : Z := 0.
Definition NETWORK_INVALID_ARGUMENT : Z := -1.
Definition NETWORK_UNSUPPORTED : Z := -2.
Definition NETWORK_CAPACITY : Z := -3.
Definition NETWORK_TIMEOUT : Z := -4.
Definition NETWORK_IO : Z := -5.
Definition NETWORK_MALFORMED : Z := -6.
Definition NETWORK_AMBIGUOUS : Z := -7.
Definition NETWORK_TRUNCATED : Z := -8.

Record RibonRecoveryNetworkObjectBinding := mkObject {
  object_kind : Z;
  object_flags : Z;
  object_path : cstring;
  object_maximum_bytes : Z;
}.

Record RibonRecoveryNetworkProductBinding := mkBinding {
  binding_size : Z;
  binding_abi_version : Z;
  binding_transport_class : Z;
  binding_flags : Z;
  binding_service_id : cstring;
  binding_server_ipv4 : bytes;
  binding_station_ipv4 : bytes;
  binding_subnet_mask_ipv4 : bytes;
  binding_block_size : Z;
  binding_retry_count : Z;
  binding_absolute_deadline_ms : Z;
  binding_objects : list RibonRecoveryNetworkObjectBinding;
  binding_reserved : list Z;
}.

(** The buffer and its capacity are in the state. *)
Record RibonRecoveryNetworkRequest := mkRequest {
  request_size : Z;
  request_abi_version : Z;
  request_object_kind : Z;
  request_attempt_index : Z;
  request_path : cstring;
  request_maximum_bytes : Z;
  request_buffer_capacity : Z;
  request_server_ipv4 : bytes;
  request_block_size : Z;
  request_deadline_ms : Z;
}.

Record RibonRecoveryNetworkResult := mkResult {
  result_size : Z;
  result_abi_version : Z;
  result_object_kind : Z;
  result_attempts_used : Z;
  result_bytes_received : Z;
}.

Definition empty_object : RibonRecoveryNetworkObjectBinding := mkObject 0 0 None 0.

Definition object_at (b : RibonRecoveryNetworkProductBinding) (i : Z) : RibonRecoveryNetworkObjectBinding :=
  nth (Z.to_nat i) (binding_objects b) empty_object.

(** [const char *] equality, either pointer possibly NULL *)
Definition network_streq (left right : cstring) : bool := core_streq left right.

Definition path_byte (character : Z) : bool :=
  ((97 <=? character) && (character <=? 122)) || ((65 <=? character) && (character <=? 90)) ||
  ((48 <=? character) && (character <=? 57)) || (character =? 46) || (character =? 95) || (character =? 45) ||
  (character =? 47).

Definition path_is_canonical (path : cstring) : bool :=
  match path with
  | None => false
  | Some p =>
    if (len p =? 0) || (byte_at p 0 =? 47) then false
    else
      match foldE (fun '(length, previous_dot) character =>
               if negb (path_byte character) || (RIBON_RECOVERY_NETWORK_PATH_CAPACITY <=? length) ||
                  ((character =? 46) && previous_dot) then inl tt
               else inr (length + 1, character =? 46)) p (0, false) with
      | inl _ => false
      | inr (length, _) => (length !=? 0) && (byte_at p (length - 1) !=? 47)
      end
  end.

Definition bytes_are_zero (words : list Z) : bool := forallb (fun x => x =? 0) words.

Record RibonNetworkTransportServiceOperations (W : Type) := mkTransportOps {
  transport_ops_size : Z;
  transport_ops_abi_version : Z;
  (** request, result and buffer: the status, and what result and buffer then hold *)
  transport_ops_fetch : option (RibonRecoveryNetworkRequest -> RibonRecoveryNetworkResult -> bytes -> W ->
    W * (Z * RibonRecoveryNetworkResult * bytes));
}.
Arguments mkTransportOps {W}.
Arguments transport_ops_size {W}.
Arguments transport_ops_abi_version {W}.
Arguments transport_ops_fetch {W}.

(** [operations] is what [descriptor->operations] points to. *)
Definition ribon_network_transport_service_operations_are_valid {W} (descriptor : option RibonServiceDescriptor)
    (operations : option (RibonNetworkTransportServiceOperations W)) : bool :=
  match descriptor with
  | None => false
  | Some d =>
    if (service_kind d !=? RIBON_SERVICE_KIND_NETWORK_TRANSPORT) ||
       (service_provides d !=? RIBON_CAP_NETWORK_TRANSPORT) ||
       (service_operations_size d !=? sizeof_RibonNetworkTransportServiceOperations) ||
       (service_operations_abi d !=? RIBON_SERVICE_ABI_VERSION) then false
    else
      match operations with
      | None => false
      | Some o =>
        (transport_ops_size o =? sizeof_RibonNetworkTransportServiceOperations) &&
        (transport_ops_abi_version o =? RIBON_SERVICE_ABI_VERSION) && negb (is_null (transport_ops_fetch o))
      end
  end.

Definition ribon_recovery_network_binding_validate (binding : option RibonRecoveryNetworkProductBinding) : Z :=
  match binding with
  | None => NETWORK_INVALID_ARGUMENT
  | Some b =>
    if (binding_size b !=? sizeof_RibonRecoveryNetworkProductBinding) ||
       (binding_abi_version b !=? RIBON_RECOVERY_NETWORK_ABI_VERSION) ||
       (binding_transport_class b <? RIBON_RECOVERY_NETWORK_TRANSPORT_UEFI_BOUNDED_TFTP) ||
       (RIBON_RECOVERY_NETWORK_TRANSPORT_REFERENCE <? binding_transport_class b) ||
       (binding_flags b !=? 0) || cstring_empty (binding_service_id b) ||
       (byte_at (binding_server_ipv4 b) 0 =? 0) || (224 <=? byte_at (binding_server_ipv4 b) 0) ||
       (byte_at (binding_station_ipv4 b) 0 =? 0) || (224 <=? byte_at (binding_station_ipv4 b) 0) ||
       (byte_at (binding_subnet_mask_ipv4 b) 0 =? 0) ||
       (binding_block_size b <? 512) || (1468 <? binding_block_size b) || (3 <? binding_retry_count b) ||
       (binding_absolute_deadline_ms b <=? binding_retry_count b) ||
       (30000 <? binding_absolute_deadline_ms b) || negb (bytes_are_zero (binding_reserved b))
    then NETWORK_INVALID_ARGUMENT
    else if existsb (fun index =>
              let object := object_at b index in
              (object_kind object !=? index + 1) || (object_flags object !=? 0) ||
              negb (path_is_canonical (object_path object)) || (object_maximum_bytes object =? 0) ||
              (RIBON_RECOVERY_NETWORK_MAX_OBJECT_BYTES <? object_maximum_bytes object) ||
              ((UINT16_MAX - 1) * binding_block_size b <=? object_maximum_bytes object))
            (upto RIBON_RECOVERY_NETWORK_OBJECT_COUNT)
    then NETWORK_INVALID_ARGUMENT
    else NETWORK_OK
  end.

Definition find_object (binding : RibonRecoveryNetworkProductBinding) (kind : Z) :
    option RibonRecoveryNetworkObjectBinding :=
  List.find (fun object => object_kind object =? kind)
    (object_at binding <$> upto RIBON_RECOVERY_NETWORK_OBJECT_COUNT).

Record Network {W : Type} := mkNetwork {
  network_world : W;
  network_buffer : bytes;
  network_requests : list RibonRecoveryNetworkRequest;
}.
Arguments Network : clear implicits.
Arguments mkNetwork {W} _ _ _.

Section Fetch.
Context {W : Type}.
Abbreviation Net := (M (Network W) Z).

(** [memset(buffer, 0, size)] *)
Definition clear_buffer (size : Z) : Net unit := fun n =>
  (mkNetwork (network_world n) (store (network_buffer n) 0 (zeros size)) (network_requests n), inr tt).

(** [operations->fetch(operations->context, &request, &attempt_result)] *)
Definition call_fetch (operations : RibonNetworkTransportServiceOperations W) (request : RibonRecoveryNetworkRequest)
    (result : RibonRecoveryNetworkResult) : Net (Z * RibonRecoveryNetworkResult) := fun n =>
  match transport_ops_fetch operations with
  | None => (n, inl NETWORK_INVALID_ARGUMENT)
  | Some fetch =>
    let '(w, (status, result, buffer)) := fetch request result (network_buffer n) (network_world n) in
    (mkNetwork w buffer (network_requests n ++ [request]), inr (status, result))
  end.

Definition attempt_request (binding : RibonRecoveryNetworkProductBinding) (object : RibonRecoveryNetworkObjectBinding)
    (kind buffer_capacity attempt : Z) : RibonRecoveryNetworkRequest := {|
  request_size := sizeof_RibonRecoveryNetworkRequest;
  request_abi_version := RIBON_RECOVERY_NETWORK_ABI_VERSION;
  request_object_kind := kind;
  request_attempt_index := attempt;
  request_path := object_path object;
  request_maximum_bytes := object_maximum_bytes object;
  request_buffer_capacity := buffer_capacity;
  request_server_ipv4 := binding_server_ipv4 binding;
  request_block_size := binding_block_size binding;
  request_deadline_ms := binding_absolute_deadline_ms binding / (binding_retry_count binding + 1);
|}.

(** The attempts from [attempt] on, of which [remaining] may still be made. *)
Fixpoint fetch_attempts (binding : RibonRecoveryNetworkProductBinding) (object : RibonRecoveryNetworkObjectBinding)
    (operations : RibonNetworkTransportServiceOperations W) (kind buffer_capacity : Z) (remaining : nat)
    (attempt status : Z) : Net RibonRecoveryNetworkResult :=
  match remaining with
  | O => _ ← clear_buffer (object_maximum_bytes object); leave status
  | S remaining =>
    _ ← clear_buffer (object_maximum_bytes object);
    '(status, result) ← call_fetch operations (attempt_request binding object kind buffer_capacity attempt)
      (mkResult sizeof_RibonRecoveryNetworkResult RIBON_RECOVERY_NETWORK_ABI_VERSION kind 0 0);
    if status =? NETWORK_OK then
      if (result_size result !=? sizeof_RibonRecoveryNetworkResult) ||
         (result_abi_version result !=? RIBON_RECOVERY_NETWORK_ABI_VERSION) ||
         (result_object_kind result !=? kind) || (result_bytes_received result =? 0) ||
         (object_maximum_bytes object <? result_bytes_received result) ||
         (buffer_capacity <? result_bytes_received result)
      then _ ← clear_buffer (object_maximum_bytes object); leave NETWORK_MALFORMED
      else mret (mkResult (result_size result) (result_abi_version result) (result_object_kind result) (attempt + 1)
                   (result_bytes_received result))
    else if (status !=? NETWORK_TIMEOUT) && (status !=? NETWORK_IO)
    then _ ← clear_buffer (object_maximum_bytes object); leave status
    else fetch_attempts binding object operations kind buffer_capacity remaining (attempt + 1) status
  end.

(** [outputs_null]: the buffer or the result pointer is NULL. *)
Definition ribon_recovery_network_fetch (binding : option RibonRecoveryNetworkProductBinding)
    (service : option RibonServiceDescriptor) (operations : option (RibonNetworkTransportServiceOperations W))
    (kind : Z) (outputs_null : bool) (buffer_capacity : Z) : Net RibonRecoveryNetworkResult :=
  match binding, service, operations with
  | Some b, Some s, Some o =>
    _ ← leave_if ((ribon_recovery_network_binding_validate binding !=? NETWORK_OK) || outputs_null ||
                  (buffer_capacity =? 0) || (service_kind s !=? RIBON_SERVICE_KIND_NETWORK_TRANSPORT) ||
                  negb (network_streq (service_id s) (binding_service_id b)) ||
                  negb (ribon_network_transport_service_operations_are_valid service operations))
                 NETWORK_INVALID_ARGUMENT;
    match find_object b kind with
    | None => leave NETWORK_CAPACITY
    | Some object =>
      _ ← leave_if ((buffer_capacity <? object_maximum_bytes object) ||
                    (service_output_budget s <? object_maximum_bytes object)) NETWORK_CAPACITY;
      fetch_attempts b object o kind buffer_capacity (Z.to_nat (binding_retry_count b + 1)) 0 NETWORK_OK
    end
  | _, _, _ => leave NETWORK_INVALID_ARGUMENT
  end.
End Fetch.

Definition ribon_recovery_network_status_name (status : Z) : bytes :=
  if status =? NETWORK_OK then text "ok"
  else if status =? NETWORK_INVALID_ARGUMENT then text "invalid-argument"
  else if status =? NETWORK_UNSUPPORTED then text "unsupported"
  else if status =? NETWORK_CAPACITY then text "capacity"
  else if status =? NETWORK_TIMEOUT then text "timeout"
  else if status =? NETWORK_IO then text "io"
  else if status =? NETWORK_MALFORMED then text "malformed"
  else if status =? NETWORK_AMBIGUOUS then text "ambiguous"
  else if status =? NETWORK_TRUNCATED then text "truncated"
  else text "unknown".

(** ** What a client does with the datagrams it sees

    A specification of the receive loop of the simple network transport, apart from the frames and
    the driver: an event is what one turn of the loop received, with the status of
    sending the acknowledgement.  [SnpTransport.v] shows that the loop refines it. *)
Inductive SnpEvent :=
  | ReceiveFailed (status : Z)
  | FrameIgnored
  | FrameBad (status : Z)
  | Datagram (packet : bytes) (source_port : Z) (ack_status : Z).

(** How it ends: a status, with the bytes received where it is OK, or still waiting. *)
Inductive SnpOutcome := SnpWaiting | SnpFailed (status : Z) | SnpReceived (bytes_received : Z).

Fixpoint snp_receive_loop (buffer_capacity client_port : Z) (guard : RibonTftpGuard) (server_port : Z)
    (buffer : bytes) (events : list SnpEvent) : SnpOutcome * bytes :=
  match events with
  | [] => (SnpWaiting, buffer)
  | ReceiveFailed status :: _ => (SnpFailed status, buffer)
  | FrameIgnored :: rest => snp_receive_loop buffer_capacity client_port guard server_port buffer rest
  | FrameBad status :: _ => (SnpFailed status, buffer)
  | Datagram packet actual_server_port ack_status :: rest =>
    let destination_offset := guard_received_bytes guard in
    if len packet <? 2 then (SnpFailed NETWORK_MALFORMED, buffer)
    else if (server_port =? 0) && ((actual_server_port =? 0) || (actual_server_port =? client_port))
    then (SnpFailed NETWORK_MALFORMED, buffer)
    else
      let server_port := if server_port =? 0 then actual_server_port else server_port in
      let opcode := load_be16 packet 0 in
      let '(guard_status, guard', payload) := ribon_tftp_guard_accept (Some guard) (Some packet) false in
      let guard := default guard guard' in
      if bool_decide (guard_status = TFTP_DUPLICATE) then
        if ack_status !=? NETWORK_OK then (SnpFailed ack_status, buffer)
        else snp_receive_loop buffer_capacity client_port guard server_port buffer rest
      else if negb (bool_decide (guard_status = TFTP_OK)) && negb (bool_decide (guard_status = TFTP_COMPLETE)) then
        (SnpFailed (if bool_decide (guard_status = TFTP_CAPACITY) then NETWORK_CAPACITY else NETWORK_MALFORMED), buffer)
      else if (opcode !=? 6) && (opcode !=? 3) then (SnpFailed NETWORK_MALFORMED, buffer)
      else if (opcode =? 3) && ((buffer_capacity <? destination_offset) ||
                                (buffer_capacity - destination_offset <? len payload))
      then (SnpFailed NETWORK_CAPACITY, buffer)
      else
        let buffer := if opcode =? 3 then store buffer destination_offset payload else buffer in
        if ack_status !=? NETWORK_OK then (SnpFailed ack_status, buffer)
        else if bool_decide (guard_status = TFTP_COMPLETE) then
          if guard_received_bytes guard =? 0 then (SnpFailed NETWORK_TRUNCATED, buffer)
          else (SnpReceived (guard_received_bytes guard), buffer)
        else snp_receive_loop buffer_capacity client_port guard server_port buffer rest
  end.

(** ** What a recovery promises *)

(** ** The gate *)

Section Gate.
Context {W : Type} (operations : RibonNetworkTransportServiceOperations W).

(** A provider writes inside the buffer, and its receipt holds unsigned numbers. *)
Definition transport_typed : Prop := forall fetch request result buffer w w' status result' buffer',
  transport_ops_fetch operations = Some fetch ->
  fetch request result buffer w = (w', (status, result', buffer')) ->
  len buffer' = len buffer /\ word 64 (result_bytes_received result').

Context (Htyped : transport_typed).

Lemma call_fetch_spec request result (buffer_length : Z) requests :
  triple (fun n => len (network_buffer n) = buffer_length /\ network_requests n = requests)
    (call_fetch operations request result)
    (fun '(status, r) n => len (network_buffer n) = buffer_length /\ network_requests n = requests ++ [request] /\
       word 64 (result_bytes_received r))
    (fun _ _ => transport_ops_fetch operations = None).
Proof.
  intros n [Hl Hr]. unfold call_fetch. destruct (transport_ops_fetch operations) as [fetch|] eqn:E; [|done].
  destruct (fetch _ _ _ _) as [w [[status r] buffer]] eqn:Ef. destruct (Htyped _ _ _ _ _ _ _ _ _ E Ef) as [H1 H2].
  cbn. rewrite H1, Hr. done.
Qed.

Context (binding : RibonRecoveryNetworkProductBinding) (object : RibonRecoveryNetworkObjectBinding) (kind capacity : Z).

(** The requests of the first [n] attempts. *)
Definition attempts (n : Z) : list RibonRecoveryNetworkRequest :=
  attempt_request binding object kind capacity <$> upto n.

Definition cleared (n : Network W) : Prop :=
  slice 0 (object_maximum_bytes object) (network_buffer n) = zeros (object_maximum_bytes object).

(** Whatever happened, the requests made are the first attempts, and no more than allowed. *)
Definition attempted (limit : Z) (n : Network W) : Prop :=
  len (network_buffer n) = capacity /\ exists k, 0 <= k <= limit /\ network_requests n = attempts k.

Lemma attempts_snoc n : 0 <= n -> attempts (n + 1) = attempts n ++ [attempt_request binding object kind capacity n].
Proof. intros Hn. unfold attempts. rewrite seqZ_app by lia. rewrite fmap_app. done. Qed.

(** A receipt that is handed out. *)
Definition receipt (n : Network W) (r : RibonRecoveryNetworkResult) : Prop :=
  result_object_kind r = kind /\ 0 < result_bytes_received r <= object_maximum_bytes object /\
  result_attempts_used r = len (network_requests n).

Lemma fetch_attempts_spec (remaining : nat) attempt status :
  transport_ops_fetch operations <> None -> 0 <= object_maximum_bytes object <= capacity -> 0 <= attempt ->
  triple (fun n => len (network_buffer n) = capacity /\ network_requests n = attempts attempt)
    (fetch_attempts binding object operations kind capacity remaining attempt status)
    (fun r n => attempted (attempt + Z.of_nat remaining) n /\ receipt n r)
    (fun _ n => attempted (attempt + Z.of_nat remaining) n /\ cleared n).
Proof.
  intros Hf Hmax. revert attempt status. induction remaining as [|remaining IH]; intros attempt status Ha n [Hl Hr].
  - unfold attempted, cleared. cbn [fetch_attempts]. unfold mbind, M_bind, clear_buffer, leave. cbn. split.
    + split; [by rewrite len_store|]. exists attempt. split; [lia|done].
    + apply slice_store_same; rewrite ?len_zeros; lia.
  - cbn [fetch_attempts]. unfold mbind at 1, M_bind, clear_buffer. set (n1 := mkNetwork _ _ _).
    assert (Hl1 : len (network_buffer n1) = capacity) by (subst n1; cbn; by rewrite len_store).
    pose proof (call_fetch_spec (attempt_request binding object kind capacity attempt)
      (mkResult sizeof_RibonRecoveryNetworkResult RIBON_RECOVERY_NETWORK_ABI_VERSION kind 0 0) capacity (attempts attempt) n1
      (conj Hl1 Hr)) as Hcall.
    unfold mbind at 1, M_bind. destruct (call_fetch _ _ _ n1) as [n2 [st|[st r]]]; [done|].
    destruct Hcall as (Hl2 & Hr2 & Hw). rewrite <- attempts_snoc in Hr2 by done. rewrite word64 in Hw.
    assert (Hclear : attempted (attempt + Z.of_nat (S remaining))
      (mkNetwork (network_world n2) (store (network_buffer n2) 0 (zeros (object_maximum_bytes object))) (network_requests n2)) /\
      cleared (mkNetwork (network_world n2) (store (network_buffer n2) 0 (zeros (object_maximum_bytes object))) (network_requests n2))).
    { unfold attempted, cleared. cbn. split; [split; [by rewrite len_store|]|].
      - exists (attempt + 1). split; [lia|done].
      - apply slice_store_same; rewrite ?len_zeros; lia. }
    destruct (st =? NETWORK_OK).
    + destruct (_ || _) eqn:G; [done|]. rewrite !orb_false_iff in G. destruct_and! G. bool_to_prop. cbn.
      split; [split; [done|]; exists (attempt + 1); split; [lia|done]|].
      split; [done|]. split; [cbn; lia|]. cbn. rewrite Hr2. unfold attempts, len. rewrite length_fmap, length_seqZ. lia.
    + destruct (_ && _); [done|]. replace (attempt + Z.of_nat (S remaining)) with (attempt + 1 + Z.of_nat remaining) by lia.
      apply (IH (attempt + 1) st ltac:(lia) n2). done.
Qed.
End Gate.

Definition total_deadline (requests : list RibonRecoveryNetworkRequest) : Z :=
  foldr (fun r total => request_deadline_ms r + total) 0 requests.

Lemma total_deadline_attempts binding object kind capacity k :
  0 <= k <= binding_retry_count binding + 1 -> 0 <= binding_absolute_deadline_ms binding ->
  total_deadline (attempts binding object kind capacity k) <= binding_absolute_deadline_ms binding.
Proof.
  intros Hk Hd. set (d := binding_absolute_deadline_ms binding / (binding_retry_count binding + 1)).
  assert (E : forall l, total_deadline (attempt_request binding object kind capacity <$> l) = len l * d).
  { induction l as [|i l IH]; [done|]. rewrite len_cons. change (d + total_deadline (attempt_request binding object kind capacity <$> l) =
      (1 + len l) * d). lia. }
  unfold attempts. rewrite E. unfold len. rewrite length_seqZ.
  destruct (decide (binding_retry_count binding + 1 = 0)) as [E0|E0]; [replace (Z.to_nat k) with O by lia; lia|].
  pose proof (Z.mul_div_le (binding_absolute_deadline_ms binding) (binding_retry_count binding + 1) ltac:(lia)).
  assert (0 <= d) by (apply Z.div_pos; lia). nia.
Qed.

Lemma find_object_in binding kind object : find_object binding kind = Some object ->
  exists i, 0 <= i < 3 /\ object = object_at binding i /\ object_kind object = kind.
Proof.
  unfold find_object. intros H. apply List.find_some in H as [Hin Hk]. apply list_elem_of_In, list_elem_of_fmap in Hin as (i & -> & Hi).
  apply elem_of_seqZ in Hi. exists i. unfold RIBON_RECOVERY_NETWORK_OBJECT_COUNT in Hi. split; [lia|]. split; [done|]. by apply Z.eqb_eq.
Qed.

(** What a validated binding says of its objects. *)
Lemma binding_valid binding : ribon_recovery_network_binding_validate (Some binding) = NETWORK_OK ->
  512 <= binding_block_size binding <= 1468 /\ binding_retry_count binding <= 3 /\
  binding_retry_count binding < binding_absolute_deadline_ms binding <= 30000 /\
  forall i, 0 <= i < 3 -> object_kind (object_at binding i) = i + 1 /\ path_is_canonical (object_path (object_at binding i)) = true /\
    object_maximum_bytes (object_at binding i) <> 0 /\
    object_maximum_bytes (object_at binding i) <= RIBON_RECOVERY_NETWORK_MAX_OBJECT_BYTES /\
    object_maximum_bytes (object_at binding i) < (UINT16_MAX - 1) * binding_block_size binding.
Proof.
  unfold ribon_recovery_network_binding_validate. destruct (_ || _) eqn:G; [done|]. destruct (existsb _ _) eqn:Ge; [done|].
  intros _. rewrite !orb_false_iff in G. destruct_and! G. bool_to_prop. split; [lia|]. split; [lia|]. split; [lia|].
  intros i Hi. rewrite existsb_false in Ge. specialize (Ge i ltac:(apply elem_of_seqZ; unfold RIBON_RECOVERY_NETWORK_OBJECT_COUNT; lia)).
  cbn zeta in Ge. rewrite !orb_false_iff in Ge. destruct_and! Ge. bool_to_prop. split_and!; lia || done.
Qed.

(** The fields are what their C types hold. *)
Definition binding_typed (b : RibonRecoveryNetworkProductBinding) : Prop :=
  word 16 (binding_retry_count b) /\ word 32 (binding_absolute_deadline_ms b) /\
  Forall (fun o => word 64 (object_maximum_bytes o)) (binding_objects b).

Lemma object_at_typed b i : binding_typed b -> word 64 (object_maximum_bytes (object_at b i)).
Proof.
  intros (_ & _ & H). unfold object_at. destruct (decide (Z.to_nat i < length (binding_objects b))%nat).
  - rewrite Forall_forall in H. apply H, list_elem_of_In, nth_In. lia.
  - rewrite nth_overflow by lia. done.
Qed.

(** C23: A fetch is bounded and leaves no residue.  The provider is asked at most once more
    than the product's retry count, always for the product's path, peer and maximum, and the
    deadlines of all attempts add up to at most the product's.  A receipt is handed out only
    for the object that was asked for, with a size between one and the object's maximum, which
    fits the buffer and the provider's budget.  A fetch that fails has cleared what the
    attempts left in the buffer. *)
Theorem recovery_fetch_bounded {W} (operations : RibonNetworkTransportServiceOperations W) binding service kind n :
  transport_typed operations -> binding_typed binding -> network_requests n = [] ->
  let capacity := len (network_buffer n) in
  let '(n', r) := ribon_recovery_network_fetch (Some binding) (Some service) (Some operations) kind false capacity n in
  total_deadline (network_requests n') <= binding_absolute_deadline_ms binding /\
  match r with
  | inr receipt => exists object, find_object binding kind = Some object /\
      attempted binding object kind capacity (binding_retry_count binding + 1) n' /\
      result_object_kind receipt = kind /\ 0 < result_bytes_received receipt <= object_maximum_bytes object /\
      object_maximum_bytes object <= capacity /\ object_maximum_bytes object <= service_output_budget service /\
      result_attempts_used receipt = len (network_requests n')
  | inl _ => network_requests n' = [] \/
      exists object, find_object binding kind = Some object /\
        attempted binding object kind capacity (binding_retry_count binding + 1) n' /\ cleared object n'
  end.
Proof.
  intros Hty Hb Hn. cbn zeta. set (capacity := len (network_buffer n)).
  assert (Hb' := Hb). destruct Hb' as (Hb1 & Hb2 & _). rewrite word16 in Hb1. rewrite word32 in Hb2.
  assert (Hnone : total_deadline (network_requests n) <= binding_absolute_deadline_ms binding) by (rewrite Hn; cbn; lia).
  unfold ribon_recovery_network_fetch, leave_if. unfold mbind at 1, M_bind.
  match goal with |- context [if ?g then leave NETWORK_INVALID_ARGUMENT else _] => destruct g eqn:G; [by cbn; auto|] end.
  cbn -[fetch_attempts].
  destruct (find_object binding kind) as [object|] eqn:Eo; [|by cbn; auto].
  unfold mbind at 1, M_bind.
  match goal with |- context [if ?g then leave NETWORK_CAPACITY else _] => destruct g eqn:G2; [by cbn; auto|] end.
  cbn -[fetch_attempts].
  apply orb_false_iff in G as [_ Go], G2 as [G3 G4]. bool_to_prop.
  destruct (find_object_in _ _ _ Eo) as (i & Hi & Ei & _).
  assert (Hmax : word 64 (object_maximum_bytes object)) by (rewrite Ei; by apply object_at_typed). rewrite word64 in Hmax.
  assert (Hf : transport_ops_fetch operations <> None).
  { unfold ribon_network_transport_service_operations_are_valid in Go. destruct (_ || _); [done|]. by destruct (transport_ops_fetch _); [|rewrite andb_false_r in Go]. }
  pose proof (fetch_attempts_spec operations Hty binding object kind capacity (Z.to_nat (binding_retry_count binding + 1)) 0
    NETWORK_OK Hf ltac:(lia) ltac:(lia) n (conj eq_refl Hn)) as Hspec.
  rewrite Z.add_0_l, Z2Nat.id in Hspec by lia.
  destruct (fetch_attempts _ _ _ _ _ _ _ _ n) as [n' [st|r]].
  - destruct Hspec as [(Hl & k & Hk & Hr) Hc]. split; [rewrite Hr; apply total_deadline_attempts; lia|]. right. exists object. split; [done|]. split; [|done].
    split; [done|]. by exists k.
  - destruct Hspec as [(Hl & k & Hk & Hr) (R1 & R2 & R3)]. split; [rewrite Hr; apply total_deadline_attempts; lia|]. exists object.
    split; [done|]. split; [split; [done|]; by exists k|]. split_and!; done || lia.
Qed.

(** ** The receive loop *)

Definition event_honest (file : bytes) (block_size : Z) (e : SnpEvent) : Prop :=
  match e with Datagram packet _ _ => octets packet /\ honest file block_size packet | _ => True end.

(** What the statuses of the guard say of its state and its payload. *)
Lemma accept_shape g p st g' payload : ribon_tftp_guard_accept (Some g) (Some p) false = (st, g', payload) ->
  (st = TFTP_DUPLICATE -> g' = Some g) /\
  (st = TFTP_COMPLETE -> exists g'', g' = Some g'' /\ guard_complete g'' = 1) /\
  (load_be16 p 0 <> 3 -> payload = []).
Proof.
  unfold ribon_tftp_guard_accept. intros H.
  destruct (accept_oack g p) as [st1 g1] eqn:Ea.
  assert (Hoack : st1 <> TFTP_COMPLETE /\ st1 <> TFTP_DUPLICATE).
  { unfold accept_oack in Ea. repeat match type of Ea with
    | (if ?c then _ else _) = _ => destruct c
    | (let '(_, _) := ?c in _) = _ => destruct c
    | match ?c with _ => _ end = _ => destruct c
    end; by injection Ea as <- <-. }
  destruct (_ || _); [injection H as <- <- <-; done|].
  destruct (load_be16 p 0 =? 6); [injection H as <- <- <-; by split_and!; intros; try done; destruct Hoack|].
  destruct (load_be16 p 0 =? 5); [injection H as <- <- <-; by destruct (_ <=? _)|].
  destruct (_ || _) eqn:G; [injection H as <- <- <-; done|]. apply orb_false_iff in G as [G _]. bool_to_prop.
  repeat match type of H with (if ?c then _ else _) = _ => destruct c; [injection H as <- <- <-; done|] end.
  injection H as <- <- <-. split; [by destruct (_ <? guard_block_size g)|]. split; [|by intros []].
  destruct (_ <? guard_block_size g); [|done]. intros _. eexists. split; [done|]. done.
Qed.

Lemma underway_range file bs maximum g : 0 <= bs -> underway file bs maximum g ->
  0 <= guard_received_bytes g <= Z.min maximum (len file).
Proof.
  intros Hb U. pose proof (underway_received _ _ _ _ U). pose proof (underway_expected _ _ _ _ U). pose proof (underway_bound _ _ _ _ U).
  pose proof (len_nonneg file). pose proof (Z.mul_nonneg_nonneg (guard_expected_block g - 1) bs). lia.
Qed.

Lemma store_prefix_extends buffer file r r' payload : 0 <= r <= len file ->
  slice 0 r file ++ payload = slice 0 r' file ->
  store (store buffer 0 (slice 0 r file)) r payload = store buffer 0 (slice 0 r' file).
Proof.
  intros Hr <-. rewrite <- store_app by lia. f_equal. rewrite len_slice by lia. lia.
Qed.

Lemma snp_receive_spec file bs maximum capacity client events : 512 <= bs <= 1468 -> word 64 maximum ->
  Forall (event_honest file bs) events -> forall buffer g port, underway file bs maximum g ->
  let '(o, buffer') := snp_receive_loop capacity client g port (store buffer 0 (slice 0 (guard_received_bytes g) file)) events in
  (exists k, 0 <= k <= Z.min maximum (len file) /\ buffer' = store buffer 0 (slice 0 k file)) /\
  forall n, o = SnpReceived n -> n = len file /\ buffer' = store buffer 0 file.
Proof.
  intros Hbs Hmax Hall. induction Hall as [|e events He Hall IH]; intros buffer g port U; cbn [snp_receive_loop];
    pose proof (underway_range file bs maximum g ltac:(lia) U) as Hr'.
  { split; [by eexists|done]. }
  destruct e as [st| |st|p sp ack]; [split; [by eexists|done]|apply IH; done|split; [by eexists|done]|].
  destruct (len p <? 2); [split; [by eexists|done]|]. destruct (_ && _); [split; [by eexists|done]|].
  destruct He as [Hoct Hh]. pose proof (accept_underway file bs maximum g p Hbs Hmax Hoct Hh U) as Ha.
  destruct (ribon_tftp_guard_accept _ _ _) as [[st g1] payload] eqn:Eacc. destruct Ha as (g2 & -> & U2 & E).
  destruct (accept_shape _ _ _ _ _ Eacc) as (S1 & S2 & S3). cbn [from_option id].
  case_bool_decide as Ed.
  { injection (S1 Ed) as <-. destruct (_ !=? _); [split; [by eexists|done]|]. by apply IH. }
  destruct (_ && _); [split; [by eexists|done]|].
  destruct (_ && _); [split; [by eexists|done]|]. destruct (_ && (_ || _)); [split; [by eexists|done]|].
  assert (Hbuf : (if load_be16 p 0 =? 3 then store (store buffer 0 (slice 0 (guard_received_bytes g) file)) (guard_received_bytes g) payload
    else store buffer 0 (slice 0 (guard_received_bytes g) file)) = store buffer 0 (slice 0 (guard_received_bytes g2) file)).
  { destruct (Z.eqb_spec (load_be16 p 0) 3) as [_|E3]; [apply store_prefix_extends; [lia|done]|].
    rewrite (S3 E3), app_nil_r in E. by rewrite E. }
  rewrite Hbuf. pose proof (underway_range file bs maximum g2 ltac:(lia) U2) as Hr2.
  destruct (_ !=? _); [split; [by eexists|done]|]. case_bool_decide as Ec; [|by apply IH].
  destruct (S2 Ec) as (g3 & [= <-] & Hc). destruct (underway_complete _ _ _ _ U2) as [[? _]|[_ Hlen]]; [lia|].
  destruct (_ =? 0); [split; [by eexists|done]|]. rewrite Hlen. split; [by exists (len file); split; [lia|]|].
  intros n [= <-]. split; [done|]. by rewrite slice_all.
Qed.

(** The packets of a file, each once and in order, from [k] on. *)
Definition lossless (file : bytes) (bs port k n : Z) : list SnpEvent :=
  (fun k => Datagram (data_packet file bs k) port NETWORK_OK) <$> seqZ k n.

Lemma payload_length file r r' payload : 0 <= r <= len file -> 0 <= r' <= len file ->
  slice 0 r file ++ payload = slice 0 r' file -> len payload = r' - r.
Proof. intros Hr Hr' E. apply (f_equal len) in E. rewrite len_app, !len_slice in E by lia. lia. Qed.

(** The next block of a file: the loop is done, or goes on with it. *)
Lemma snp_receive_next file bs maximum capacity client port g buffer sp rest : 512 <= bs <= 1468 -> word 64 maximum ->
  octets file -> 0 < len file <= maximum -> maximum <= capacity -> port <> 0 -> port <> client ->
  underway file bs maximum g -> guard_complete g = 0 -> guard_expected_block g <= 65534 -> 0 <= guard_packet_count g < 65535 ->
  sp = 0 \/ sp = port ->
  exists g' buffer', underway file bs maximum g' /\ guard_expected_block g' = guard_expected_block g + 1 /\
    guard_packet_count g' = guard_packet_count g + 1 /\
    snp_receive_loop capacity client g sp buffer (Datagram (data_packet file bs (guard_expected_block g)) port NETWORK_OK :: rest) =
    if guard_complete g' =? 0 then snp_receive_loop capacity client g' port buffer' rest
    else (SnpReceived (len file), buffer').
Proof.
  intros Hbs Hm Hoct Hfit Hcap Hp1 Hp2 U Hc He Hn Hsp. cbn [snp_receive_loop].
  set (p := data_packet file bs (guard_expected_block g)). pose proof (underway_expected _ _ _ _ U) as Hx.
  assert (Hk : word 16 (guard_expected_block g)) by (rewrite word16; unfold UINT16_MAX; lia).
  assert (Hkt : 1 <= guard_expected_block g <= block_total file bs).
  { destruct (underway_complete _ _ _ _ U) as [[_ ?]|[? _]]; lia. }
  pose proof (accept_next file bs maximum g Hbs Hm ltac:(lia) U Hc He Hn) as Ha. cbn zeta in Ha. fold p in Ha.
  pose proof (accept_underway file bs maximum g p Hbs Hm (data_packet_typed _ _ _ Hoct Hk) (data_packet_honest file bs _ Hk Hkt) U) as Hu.
  assert (Hlp : 4 <= len p) by (unfold p, data_packet; rewrite len_app; pose proof (len_nonneg (chunk file bs (guard_expected_block g))); change (len [_; _; _; _]) with 4; lia).
  assert (Hop : load_be16 p 0 = 3) by apply data_packet_opcode.
  destruct (ribon_tftp_guard_accept _ _ _) as [[st g1] payload].
  destruct Ha as (g2 & -> & E1 & E2 & _ & Hst). destruct Hu as (g3 & [= <-] & U2 & E). cbn [from_option id].
  pose proof (underway_range file bs maximum g ltac:(lia) U) as Hr. pose proof (underway_range file bs maximum g2 ltac:(lia) U2) as Hr2.
  pose proof (payload_length file (guard_received_bytes g) (guard_received_bytes g2) payload ltac:(lia) ltac:(lia) E) as Hpl.
  exists g2. eexists. split; [done|]. split; [done|]. split; [done|].
  rewrite Hop. cbn [negb andb Z.eqb Pos.eqb]. compare.
  cbn [orb]. rewrite andb_false_r.
  replace (if sp =? 0 then port else sp) with port by (destruct Hsp as [-> | ->]; [done|by compare]).
  destruct Hst as [[-> Hc2]|[-> Hc2]]; rewrite Hc2; cbn -[snp_receive_loop]; compare.
  - reflexivity.
  - destruct (underway_complete _ _ _ _ U2) as [[? _]|[_ Hl]]; [lia|]. rewrite Hl. compare. reflexivity.
Qed.

Lemma snp_receive_lossless file bs maximum capacity client port (n : nat) : 512 <= bs <= 1468 -> word 64 maximum ->
  octets file -> 0 < len file <= maximum -> maximum <= capacity -> block_total file bs <= 65534 -> port <> 0 -> port <> client ->
  forall g buffer sp, underway file bs maximum g -> guard_complete g = 0 ->
  guard_expected_block g + Z.of_nat n = block_total file bs + 1 -> 0 <= guard_packet_count g ->
  guard_packet_count g + Z.of_nat n <= 65535 -> sp = 0 \/ sp = port ->
  fst (snp_receive_loop capacity client g sp buffer (lossless file bs port (guard_expected_block g) (Z.of_nat n))) =
    SnpReceived (len file).
Proof.
  intros Hbs Hm Hoct Hfit Hcap Htotal Hp1 Hp2. induction n as [|n IH]; intros g buffer sp U Hc He Hn1 Hn2 Hsp.
  { destruct (underway_complete _ _ _ _ U) as [[_ ?]|[? _]]; lia. }
  unfold lossless. rewrite seqZ_cons by lia. cbn [fmap list_fmap].
  destruct (snp_receive_next file bs maximum capacity client port g buffer sp
    ((fun k => Datagram (data_packet file bs k) port NETWORK_OK) <$> seqZ (Z.succ (guard_expected_block g)) (Z.pred (Z.of_nat (S n)))))
    as (g' & buffer' & U' & E1 & E2 & ->); try done; try lia.
  destruct (Z.eqb_spec (guard_complete g') 0) as [Hc'|]; [|done].
  replace (Z.succ (guard_expected_block g)) with (guard_expected_block g') by lia.
  replace (Z.pred (Z.of_nat (S n))) with (Z.of_nat n) by lia. apply IH; try done; try lia.
Qed.

(** The blocks of a file that fits are received, from a guard before the first block. *)
Lemma lossless_received file bs maximum capacity client port sp buffer g : 512 <= bs <= 1468 -> word 64 maximum ->
  maximum < (UINT16_MAX - 1) * bs -> octets file -> 0 < len file <= maximum -> maximum <= capacity -> port <> 0 -> port <> client ->
  fresh_guard bs maximum g -> guard_packet_count g <= 1 -> sp = 0 \/ sp = port ->
  snp_receive_loop capacity client g sp buffer (lossless file bs port 1 (block_total file bs)) =
    (SnpReceived (len file), store buffer 0 file).
Proof.
  intros Hbs Hm Hmax Hoct Hlen Hcap Hp1 Hp2 Hg Hcount Hsp.
  assert (Hdiv : len file / bs < 65534) by (apply Z.div_lt_upper_bound; unfold UINT16_MAX in Hmax; lia).
  pose proof (Z.div_pos (len file) bs ltac:(lia) ltac:(lia)) as Hdiv0.
  assert (Hg0 := Hg). destruct Hg0 as (_ & _ & _ & F4 & F5 & F6 & _ & F8). assert (Hm' := Hm). rewrite word64 in Hm'.
  apply (fresh_underway file) in Hg; [|lia..].
  pose proof (snp_receive_lossless file bs maximum capacity client port (Z.to_nat (block_total file bs)) Hbs Hm Hoct Hlen
    Hcap ltac:(unfold block_total; lia) Hp1 Hp2 g buffer sp Hg F6) as Hl.
  rewrite Z2Nat.id, F4 in Hl by (unfold block_total; lia).
  specialize (Hl ltac:(lia) ltac:(lia) ltac:(unfold block_total; lia) Hsp).
  assert (Hall : Forall (event_honest file bs) (lossless file bs port 1 (block_total file bs))).
  { apply Forall_fmap, Forall_forall. intros k Hk. apply elem_of_seqZ in Hk. unfold block_total in Hk.
    assert (word 16 k) by (rewrite word16; unfold UINT16_MAX; lia). cbn.
    split; [by apply data_packet_typed|]. apply data_packet_honest; [done|]. unfold block_total. lia. }
  pose proof (snp_receive_spec file bs maximum capacity client _ Hbs Hm Hall buffer g sp Hg) as Hspec.
  rewrite F5 in Hspec. change (store buffer 0 (slice 0 0 file)) with buffer in Hspec.
  destruct (snp_receive_loop _ _ _ _ _ _) as [o buffer']. cbn in Hl. subst o. destruct Hspec as [_ Hspec].
  by destruct (Hspec _ eq_refl) as [_ ->].
Qed.

(** ** A product with its peer *)

Definition recovery_binding : RibonRecoveryNetworkProductBinding :=
  mkBinding sizeof_RibonRecoveryNetworkProductBinding RIBON_RECOVERY_NETWORK_ABI_VERSION
    RIBON_RECOVERY_NETWORK_TRANSPORT_UEFI_BOUNDED_TFTP 0 (Some (text "net")) [10; 0; 2; 2] [10; 0; 2; 15] [255; 255; 255; 0]
    512 2 9000
    [mkObject 1 0 (Some (text "recovery/manifest.bin")) 1000; mkObject 2 0 (Some (text "recovery/image.bin")) 4096;
     mkObject 3 0 (Some (text "recovery/bundle.bin")) 4096] [0; 0; 0; 0].

Definition recovery_service : RibonServiceDescriptor :=
  mkService RIBON_SERVICE_DESCRIPTOR_MAGIC sizeof_RibonServiceDescriptor RIBON_SERVICE_ABI_VERSION
    RIBON_SERVICE_KIND_NETWORK_TRANSPORT RIBON_SERVICE_CARDINALITY_AUTHORITY RIBON_SERVICE_LIFETIME_BOOT 0 (Some (text "net"))
    RIBON_CAP_NETWORK_TRANSPORT 1 1 0 0 1024 4096 65536 100 0x1000 sizeof_RibonNetworkTransportServiceOperations
    RIBON_SERVICE_ABI_VERSION (Some true).

(** A provider that times out once, leaving bytes behind, and delivers 600 bytes the second time. *)
Definition recovery_provider : RibonNetworkTransportServiceOperations nat :=
  mkTransportOps sizeof_RibonNetworkTransportServiceOperations RIBON_SERVICE_ABI_VERSION
    (Some (fun request result buffer w =>
       match w with
       | O => (S w, (NETWORK_TIMEOUT, mkResult 0 0 0 0 0, store buffer 0 [1; 2; 3]))
       | _ => (S w, (NETWORK_OK, mkResult (result_size result) (result_abi_version result) (result_object_kind result) 0 600,
                store buffer 0 sample_object))
       end)).

Definition recovery_network : Network nat := mkNetwork 0%nat (zeros 1000) [].

Lemma recovery_provider_typed : transport_typed recovery_provider.
Proof.
  intros fetch request result buffer w w' status result' buffer' [= <-]. destruct w; intros [= <- <- <- <-];
    (split; [apply len_store|done]).
Qed.

Lemma recovery_binding_typed : binding_typed recovery_binding.
Proof. split; [done|]. split; [done|]. repeat constructor; done. Qed.

Lemma recovery_fetch_bounded_witness :
  total_deadline (network_requests (fst (ribon_recovery_network_fetch (Some recovery_binding) (Some recovery_service)
    (Some recovery_provider) 1 false 1000 recovery_network))) <= 9000.
Proof.
  pose proof (recovery_fetch_bounded recovery_provider recovery_binding recovery_service 1 recovery_network
    recovery_provider_typed recovery_binding_typed eq_refl) as H. cbn zeta in H.
  change (len (network_buffer recovery_network)) with 1000 in H.
  destruct (ribon_recovery_network_fetch _ _ _ _ _ _ _) as [n r]. exact (proj1 H).
Defined.

(** The second attempt succeeds, and nothing of the first is left. *)
Lemma recovery_fetch_runs :
  let '(n, r) := ribon_recovery_network_fetch (Some recovery_binding) (Some recovery_service)
    (Some recovery_provider) 1 false 1000 recovery_network in
  r = inr (mkResult sizeof_RibonRecoveryNetworkResult 1 1 2 600) /\
  network_buffer n = sample_object ++ zeros 400 /\ len (network_requests n) = 2.
Proof. vm_compute. done. Qed.
