(* ===== verification/SnpTransport.v ===== *)
(** * The simple network transport ([src/environments/uefi-app/recovery_network.c])

    A minimal stack over a firmware network driver: ARP for the address of the server, UDP in
    IPv4 frames, and the TFTP client of a recovery.  The driver is an argument: what
    [Transmit], [GetStatus], [Receive] and [Stall] do to a world [W] of which nothing is
    known.  The state is the world with the fields of the context that change, the remaining
    ticks of the deadline and the caller's buffer. *)

From Stdlib Require Import String.
From S2P Require Import Prelude.
From S2P Require Import Effects.
From S2P Require Import Buffer.
From S2P Require Import Wire.
From S2P Require Import CString.
From S2P Require Import ServiceDirectory.
From S2P Require Import PayloadImage.
From S2P Require Import Tftp.
From S2P Require Import RecoveryNetwork.

Definition RIBON_UEFI_SNP_FRAME_CAPACITY : Z := 1536.
Definition RIBON_ETHERNET_HEADER_SIZE : Z := 14.
Definition RIBON_IPV4_HEADER_SIZE : Z := 20.
Definition RIBON_UDP_HEADER_SIZE : Z := 8.

(** The UEFI status codes of a 64-bit platform. *)
Definition EFI_SUCCESS : Z := 0.
Definition efi_error_code (n : Z) : Z := 2 ^ 63 + n.
Definition EFI_UNSUPPORTED : Z := efi_error_code 3.
Definition EFI_BAD_BUFFER_SIZE : Z := efi_error_code 4.
Definition EFI_BUFFER_TOO_SMALL : Z := efi_error_code 5.
Definition EFI_NOT_READY : Z := efi_error_code 6.
Definition EFI_NO_RESPONSE : Z := efi_error_code 16.
Definition EFI_TIMEOUT : Z := efi_error_code 18.
Definition EFI_ERROR (status : Z) : bool := 2 ^ 63 <=? status.

Definition fetch_status (status : Z) : Z :=
  if (status =? EFI_TIMEOUT) || (status =? EFI_NO_RESPONSE) || (status =? EFI_NOT_READY) then NETWORK_TIMEOUT
  else if (status =? EFI_BUFFER_TOO_SMALL) || (status =? EFI_BAD_BUFFER_SIZE) then NETWORK_CAPACITY
  else if status =? EFI_UNSUPPORTED then NETWORK_UNSUPPORTED
  else NETWORK_IO.

(** ** Frames *)

(** [store_be16(bytes + o, value)] *)
Definition store_be16 (b : bytes) (o value : Z) : bytes := store b o [u8 (Z.shiftr value 8); u8 value].

Definition fold_carry (sum : Z) : Z := Z.land sum 0xffff + Z.shiftr sum 16.

(** [while ((sum >> 16) != 0) sum = fold(sum)], for at most [fuel] turns *)
Fixpoint fold_carries (fuel : nat) (sum : Z) : Z :=
  match fuel with
  | O => sum
  | S fuel => if Z.shiftr sum 16 !=? 0 then fold_carries fuel (fold_carry sum) else sum
  end.

Definition ipv4_checksum (b : bytes) : Z :=
  let sum := fold_left (fun sum index => fold_carry (u32 (sum + load_be16 b (2 * index)))) (upto (len b / 2)) 0 in
  let sum := if Z.land (len b) 1 !=? 0 then u32 (sum + Z.shiftl (byte_at b (len b - 1)) 8) else sum in
  u16 (Z.lnot (fold_carries 32 sum)).

(** The addresses of one end: its own and the one of its peer. *)
Record Endpoint := mkEndpoint {
  local_mac : bytes;
  peer_mac : bytes;
  local_ipv4 : bytes;
  peer_ipv4 : bytes;
}.

Definition build_ethernet_header (frame source destination : bytes) (ether_type : Z) : bytes :=
  store_be16 (store (store frame 0 (slice 0 6 destination)) 6 (slice 0 6 source)) 12 ether_type.

(** The frame that [transmit_udp] writes over the transmit buffer. *)
Definition udp_frame (e : Endpoint) (identification source_port destination_port : Z) (frame payload : bytes) : bytes :=
  let ip := RIBON_ETHERNET_HEADER_SIZE in
  let udp := ip + RIBON_IPV4_HEADER_SIZE in
  let f := store frame 0 (zeros (RIBON_ETHERNET_HEADER_SIZE + RIBON_IPV4_HEADER_SIZE + RIBON_UDP_HEADER_SIZE + len payload)) in
  let f := build_ethernet_header f (local_mac e) (peer_mac e) 0x0800 in
  let f := store_u8 f ip 0x45 in
  let f := store_be16 f (ip + 2) (u16 (RIBON_IPV4_HEADER_SIZE + RIBON_UDP_HEADER_SIZE + len payload)) in
  let f := store_be16 f (ip + 4) identification in
  let f := store_u8 f (ip + 8) 64 in
  let f := store_u8 f (ip + 9) 17 in
  let f := store f (ip + 12) (slice 0 4 (local_ipv4 e)) in
  let f := store f (ip + 16) (slice 0 4 (peer_ipv4 e)) in
  let f := store_be16 f (ip + 10) (ipv4_checksum (slice ip RIBON_IPV4_HEADER_SIZE f)) in
  let f := store_be16 f udp source_port in
  let f := store_be16 f (udp + 2) destination_port in
  let f := store_be16 f (udp + 4) (u16 (RIBON_UDP_HEADER_SIZE + len payload)) in
  store f (udp + RIBON_UDP_HEADER_SIZE) payload.

(** The payload and the port it came from, or the status. *)
Definition parse_udp (e : Endpoint) (frame : bytes) (frame_size client_port server_port : Z) : Z + (bytes * Z) :=
  if (frame_size <? RIBON_ETHERNET_HEADER_SIZE + RIBON_IPV4_HEADER_SIZE + RIBON_UDP_HEADER_SIZE) ||
     (load_be16 frame 12 !=? 0x0800) || negb (bytes_equal (slice 6 6 frame) (peer_mac e)) then inl NETWORK_UNSUPPORTED
  else
    let ip := RIBON_ETHERNET_HEADER_SIZE in
    let ip_header_size := Z.land (byte_at frame ip) 0x0f * 4 in
    if (Z.shiftr (byte_at frame ip) 4 !=? 4) || (ip_header_size <? RIBON_IPV4_HEADER_SIZE) ||
       (frame_size <? RIBON_ETHERNET_HEADER_SIZE + ip_header_size + RIBON_UDP_HEADER_SIZE) ||
       (byte_at frame (ip + 9) !=? 17) || (Z.land (load_be16 frame (ip + 6)) 0x3fff !=? 0) ||
       (ipv4_checksum (slice ip ip_header_size frame) !=? 0) ||
       negb (bytes_equal (slice (ip + 12) 4 frame) (peer_ipv4 e)) ||
       negb (bytes_equal (slice (ip + 16) 4 frame) (local_ipv4 e)) then inl NETWORK_UNSUPPORTED
    else
      let ip_size := load_be16 frame (ip + 2) in
      if (ip_size <? ip_header_size + RIBON_UDP_HEADER_SIZE) || (frame_size - RIBON_ETHERNET_HEADER_SIZE <? ip_size)
      then inl NETWORK_MALFORMED
      else
        let udp := ip + ip_header_size in
        let udp_size := load_be16 frame (udp + 4) in
        if (load_be16 frame (udp + 2) !=? client_port) ||
           ((server_port !=? 0) && (load_be16 frame udp !=? server_port)) ||
           (udp_size <? RIBON_UDP_HEADER_SIZE) || (udp_size !=? ip_size - ip_header_size) then inl NETWORK_UNSUPPORTED
        else inr (slice (udp + RIBON_UDP_HEADER_SIZE) (udp_size - RIBON_UDP_HEADER_SIZE) frame, load_be16 frame udp).

(** ** Requests *)

Fixpoint decimal_digits (fuel : nat) (value : Z) (digits : bytes) : bytes :=
  match fuel with
  | O => digits
  | S fuel =>
    let digits := u8 (48 + value mod 10) :: digits in
    if value / 10 =? 0 then digits else decimal_digits fuel (value / 10) digits
  end.

(** A 16-bit value has at most five digits. *)
Definition append_decimal (value : Z) : bytes := decimal_digits 5 value [].

(** The bytes written, or the status; a string constant is stored with its NUL. *)
Definition build_rrq (request : RibonRecoveryNetworkRequest) (path : bytes) (capacity : Z) : Z + bytes :=
  let mode := text "octet" ++ [0] in
  let option := text "blksize" ++ [0] in
  if (len path =? 0) || (RIBON_RECOVERY_NETWORK_PATH_CAPACITY <? len path) ||
     (capacity <? 2 + len path + 1 + len mode + len option + 6) then inl NETWORK_INVALID_ARGUMENT
  else inr ([0; 1] ++ (path ++ [0]) ++ mode ++ option ++ append_decimal (request_block_size request) ++ [0]).

(** ** The driver *)

Record SnpDriver {W : Type} := mkDriver {
  (** [snp->Transmit] of a frame: the status *)
  driver_transmit : bytes -> W -> W * Z;
  (** [snp->GetStatus]: the status, and whether the transmit buffer was given back *)
  driver_get_status : W -> W * (Z * bool);
  (** [snp->Receive] into a buffer: the status, the size and the buffer *)
  driver_receive : bytes -> W -> W * (Z * Z * bytes);
  (** [boot_services->Stall] of a millisecond: the status *)
  driver_stall : option (W -> W * Z);
}.
Arguments SnpDriver : clear implicits.
Arguments mkDriver {W} _ _ _ _.

Record Snp {W : Type} := mkSnp {
  snp_world : W;
  snp_remaining_ticks : Z;
  snp_ipv4_identification : Z;
  snp_server_mac_known : Z;
  snp_server_mac : bytes;
  snp_transmit_frame : bytes;
  snp_receive_frame : bytes;
  snp_buffer : bytes;
}.
Arguments Snp : clear implicits.
Arguments mkSnp {W} _ _ _ _ _ _ _ _.

(** [pxe->Mtftp] of a path: the size of a file; a file of at most a size read to a buffer. *)
Record PxeDriver {W : Type} := mkPxe {
  pxe_get_file_size : bytes -> W -> W * (Z * Z);
  pxe_read_file : bytes -> Z -> bytes -> W -> W * (Z * Z * bytes);
}.
Arguments PxeDriver : clear implicits.
Arguments mkPxe {W} _ _.

(** An operation returns a status that is not OK, or has not returned yet. *)
Inductive SnpStop := SnpLeft (status : Z) | SnpUnfinished.

Section Stack.
Context {W : Type} (driver : SnpDriver W) (binding : RibonRecoveryNetworkProductBinding).
(** [snp->Mode->CurrentAddress] *)
Context (current_address : bytes).

Abbreviation Stack := (M (Snp W) SnpStop).

Definition set_world (w : W) (s : Snp W) : Snp W :=
  mkSnp w (snp_remaining_ticks s) (snp_ipv4_identification s) (snp_server_mac_known s) (snp_server_mac s)
    (snp_transmit_frame s) (snp_receive_frame s) (snp_buffer s).
Definition set_ticks (ticks : Z) (s : Snp W) : Snp W :=
  mkSnp (snp_world s) ticks (snp_ipv4_identification s) (snp_server_mac_known s) (snp_server_mac s)
    (snp_transmit_frame s) (snp_receive_frame s) (snp_buffer s).
Definition set_mac (mac : bytes) (s : Snp W) : Snp W :=
  mkSnp (snp_world s) (snp_remaining_ticks s) (snp_ipv4_identification s) 1 mac
    (snp_transmit_frame s) (snp_receive_frame s) (snp_buffer s).
Definition set_transmit (identification : Z) (frame : bytes) (s : Snp W) : Snp W :=
  mkSnp (snp_world s) (snp_remaining_ticks s) identification (snp_server_mac_known s) (snp_server_mac s)
    frame (snp_receive_frame s) (snp_buffer s).
Definition set_receive (frame : bytes) (s : Snp W) : Snp W :=
  mkSnp (snp_world s) (snp_remaining_ticks s) (snp_ipv4_identification s) (snp_server_mac_known s) (snp_server_mac s)
    (snp_transmit_frame s) frame (snp_buffer s).
Definition set_buffer (buffer : bytes) (s : Snp W) : Snp W :=
  mkSnp (snp_world s) (snp_remaining_ticks s) (snp_ipv4_identification s) (snp_server_mac_known s) (snp_server_mac s)
    (snp_transmit_frame s) (snp_receive_frame s) buffer.

Definition get {A} (f : Snp W -> A) : Stack A := fun s => (s, inr (f s)).
Definition modify (f : Snp W -> Snp W) : Stack unit := fun s => (f s, inr tt).

Definition call_transmit (frame_size : Z) : Stack Z := fun s =>
  let '(w, status) := driver_transmit driver (slice 0 frame_size (snp_transmit_frame s)) (snp_world s) in
  (set_world w s, inr status).
Definition call_get_status : Stack (Z * bool) := fun s =>
  let '(w, r) := driver_get_status driver (snp_world s) in (set_world w s, inr r).
Definition call_receive : Stack (Z * Z) := fun s =>
  let '(w, (status, size, frame)) := driver_receive driver (snp_receive_frame s) (snp_world s) in
  (set_receive frame (set_world w s), inr (status, size)).

Definition poll_stall : Stack Z := fun s =>
  match driver_stall driver with
  | None => (s, inr NETWORK_TIMEOUT)
  | Some stall =>
    if snp_remaining_ticks s =? 0 then (s, inr NETWORK_TIMEOUT)
    else
      let '(w, status) := stall (snp_world s) in
      (set_ticks (snp_remaining_ticks s - 1) (set_world w s), inr (if EFI_ERROR status then NETWORK_IO else NETWORK_OK))
  end.

(** [if (poll_stall(...) != OK) return TIMEOUT;] *)
Definition poll_or_timeout : Stack unit :=
  status ← poll_stall; leave_if (status !=? NETWORK_OK) (SnpLeft NETWORK_TIMEOUT).

(** A turn of these loops ends them or takes a tick: the ticks and one more turn are enough. *)
Definition tick_fuel : Stack nat := get (fun s => S (Z.to_nat (snp_remaining_ticks s))).

Fixpoint transmit_loop (fuel : nat) (frame_size : Z) : Stack Z :=
  match fuel with
  | O => leave SnpUnfinished
  | S fuel =>
    status ← call_transmit frame_size;
    if status !=? EFI_NOT_READY then mret status
    else
      _ ← poll_or_timeout;
      _ ← call_get_status;
      transmit_loop fuel frame_size
  end.

Fixpoint recycle_loop (fuel : nat) : Stack unit :=
  match fuel with
  | O => leave SnpUnfinished
  | S fuel =>
    '(status, recycled) ← call_get_status;
    _ ← leave_if (EFI_ERROR status) (SnpLeft (fetch_status status));
    if recycled : bool then mret tt
    else
      _ ← poll_or_timeout;
      ticks ← get snp_remaining_ticks;
      if ticks !=? 0 then recycle_loop fuel else leave (SnpLeft NETWORK_TIMEOUT)
  end.

Definition snp_transmit (frame_size : Z) : Stack unit :=
  _ ← leave_if ((frame_size <? RIBON_ETHERNET_HEADER_SIZE) || (RIBON_UEFI_SNP_FRAME_CAPACITY <? frame_size))
               (SnpLeft NETWORK_INVALID_ARGUMENT);
  fuel ← tick_fuel;
  status ← transmit_loop fuel frame_size;
  _ ← leave_if (EFI_ERROR status) (SnpLeft (fetch_status status));
  fuel ← tick_fuel;
  recycle_loop fuel.

Fixpoint receive_loop (fuel : nat) : Stack Z :=
  match fuel with
  | O => leave SnpUnfinished
  | S fuel =>
    '(status, size) ← call_receive;
    if status =? EFI_SUCCESS then
      _ ← leave_if ((size <? RIBON_ETHERNET_HEADER_SIZE) || (RIBON_UEFI_SNP_FRAME_CAPACITY <? size))
                   (SnpLeft NETWORK_MALFORMED);
      mret size
    else if status !=? EFI_NOT_READY then leave (SnpLeft (fetch_status status))
    else
      _ ← poll_or_timeout;
      receive_loop fuel
  end.

Definition snp_receive : Stack Z := fuel ← tick_fuel; receive_loop fuel.

(** ** The address of the server *)

Definition arp_request (frame : bytes) : bytes :=
  let arp := RIBON_ETHERNET_HEADER_SIZE in
  let f := build_ethernet_header (store frame 0 (zeros 42)) current_address (replicate 6 0xff) 0x0806 in
  let f := store_be16 f arp 1 in
  let f := store_be16 f (arp + 2) 0x0800 in
  let f := store_u8 f (arp + 4) 6 in
  let f := store_u8 f (arp + 5) 4 in
  let f := store_be16 f (arp + 6) 1 in
  let f := store f (arp + 8) (slice 0 6 current_address) in
  let f := store f (arp + 14) (slice 0 4 (binding_station_ipv4 binding)) in
  store f (arp + 24) (slice 0 4 (binding_server_ipv4 binding)).

Definition arp_reply_matches (frame : bytes) (frame_size : Z) : bool :=
  let reply := RIBON_ETHERNET_HEADER_SIZE in
  negb ((frame_size <? 42) || (load_be16 frame 12 !=? 0x0806)) &&
  negb ((load_be16 frame reply !=? 1) || (load_be16 frame (reply + 2) !=? 0x0800) ||
        (byte_at frame (reply + 4) !=? 6) || (byte_at frame (reply + 5) !=? 4) ||
        (load_be16 frame (reply + 6) !=? 2) ||
        negb (bytes_equal (slice (reply + 14) 4 frame) (slice 0 4 (binding_server_ipv4 binding))) ||
        negb (bytes_equal (slice (reply + 24) 4 frame) (slice 0 4 (binding_station_ipv4 binding))) ||
        negb (bytes_equal (slice (reply + 18) 6 frame) (slice 0 6 current_address))).

(** [turns] more frames may be looked at. *)
Fixpoint arp_loop (turns : nat) : Stack unit :=
  match turns with
  | O => leave SnpUnfinished
  | S turns =>
    frame_size ← snp_receive;
    frame ← get snp_receive_frame;
    if negb (arp_reply_matches frame frame_size) then arp_loop turns
    else modify (set_mac (slice (RIBON_ETHERNET_HEADER_SIZE + 8) 6 frame))
  end.

Definition resolve_server_mac (turns : nat) : Stack unit :=
  known ← get snp_server_mac_known;
  if known !=? 0 then mret tt
  else
    _ ← modify (fun s => set_transmit (snp_ipv4_identification s) (arp_request (snp_transmit_frame s)) s);
    _ ← snp_transmit 42;
    arp_loop turns.

(** ** Datagrams *)

Definition endpoint (server_mac : bytes) : Endpoint :=
  mkEndpoint current_address server_mac (binding_station_ipv4 binding) (binding_server_ipv4 binding).

Definition transmit_udp (source_port destination_port : Z) (payload : bytes) : Stack unit :=
  let frame_size := RIBON_ETHERNET_HEADER_SIZE + RIBON_IPV4_HEADER_SIZE + RIBON_UDP_HEADER_SIZE + len payload in
  _ ← leave_if ((RIBON_UEFI_SNP_FRAME_CAPACITY <? frame_size) ||
                (UINT16_MAX - RIBON_IPV4_HEADER_SIZE - RIBON_UDP_HEADER_SIZE <? len payload))
               (SnpLeft NETWORK_INVALID_ARGUMENT);
  _ ← modify (fun s =>
        let identification := u16 (snp_ipv4_identification s + 1) in
        set_transmit identification
          (udp_frame (endpoint (snp_server_mac s)) identification source_port destination_port (snp_transmit_frame s) payload) s);
  snp_transmit frame_size.

Definition transmit_tftp_ack (client_port server_port block : Z) : Stack unit :=
  transmit_udp client_port server_port (store_be16 (store_be16 (zeros 4) 0 4) 2 block).

(** The receive loop of [snp_fetch_once], for at most [turns] frames. *)
Fixpoint snp_transfer (turns : nat) (buffer_capacity client_port : Z) (guard : RibonTftpGuard) (server_port : Z) : Stack Z :=
  match turns with
  | O => leave SnpUnfinished
  | S turns =>
    let destination_offset := guard_received_bytes guard in
    frame_size ← snp_receive;
    s ← get id;
    match parse_udp (endpoint (snp_server_mac s)) (snp_receive_frame s) frame_size client_port server_port with
    | inl status =>
      if status =? NETWORK_UNSUPPORTED then snp_transfer turns buffer_capacity client_port guard server_port
      else leave (SnpLeft status)
    | inr (packet, actual_server_port) =>
      _ ← leave_if (len packet <? 2) (SnpLeft NETWORK_MALFORMED);
      _ ← leave_if ((server_port =? 0) && ((actual_server_port =? 0) || (actual_server_port =? client_port)))
                   (SnpLeft NETWORK_MALFORMED);
      let server_port := if server_port =? 0 then actual_server_port else server_port in
      let opcode := load_be16 packet 0 in
      let block := if 4 <=? len packet then load_be16 packet 2 else 0 in
      let '(guard_status, guard', payload) := ribon_tftp_guard_accept (Some guard) (Some packet) false in
      let guard := default guard guard' in
      if bool_decide (guard_status = TFTP_DUPLICATE) then
        _ ← transmit_tftp_ack client_port server_port block;
        snp_transfer turns buffer_capacity client_port guard server_port
      else
        _ ← leave_if (negb (bool_decide (guard_status = TFTP_OK)) && negb (bool_decide (guard_status = TFTP_COMPLETE)))
                     (SnpLeft (if bool_decide (guard_status = TFTP_CAPACITY) then NETWORK_CAPACITY else NETWORK_MALFORMED));
        _ ← (if opcode =? 6 then transmit_tftp_ack client_port server_port 0
             else if opcode =? 3 then
               _ ← leave_if ((buffer_capacity <? destination_offset) ||
                             (buffer_capacity - destination_offset <? len payload)) (SnpLeft NETWORK_CAPACITY);
               _ ← modify (fun s => set_buffer (store (snp_buffer s) destination_offset payload) s);
               transmit_tftp_ack client_port server_port block
             else leave (SnpLeft NETWORK_MALFORMED));
        if bool_decide (guard_status = TFTP_COMPLETE) then
          _ ← leave_if (guard_received_bytes guard =? 0) (SnpLeft NETWORK_TRUNCATED);
          mret (guard_received_bytes guard)
        else snp_transfer turns buffer_capacity client_port guard server_port
    end
  end.

(** [path] is the string that [request->path] points to. *)
Definition snp_fetch_once (turns : nat) (request : RibonRecoveryNetworkRequest) (path : bytes) : Stack Z :=
  let client_port := u16 (40000 + u16 (request_object_kind request)) in
  _ ← modify (set_ticks (request_deadline_ms request));
  _ ← resolve_server_mac turns;
  match build_rrq request path 128 with
  | inl status => leave (SnpLeft status)
  | inr rrq =>
    match ribon_tftp_guard_initialize false (request_block_size request) (request_maximum_bytes request) with
    | inl _ => leave (SnpLeft NETWORK_INVALID_ARGUMENT)
    | inr guard =>
      _ ← transmit_udp client_port 69 rrq;
      snp_transfer turns (request_buffer_capacity request) client_port guard 0
    end
  end.

(** ** The service *)

Definition RIBON_UEFI_PXE_OPERATION_DEADLINE_MS : Z := 10000.
Definition BACKEND_PXE_BASE_CODE : Z := 1.
Definition BACKEND_SIMPLE_NETWORK : Z := 2.

Context (pxe : PxeDriver W).

Definition call_get_file_size (path : bytes) : Stack (Z * Z) := fun s =>
  let '(w, r) := pxe_get_file_size pxe path (snp_world s) in (set_world w s, inr r).
Definition call_read_file (path : bytes) (size : Z) : Stack (Z * Z) := fun s =>
  let '(w, (status, read_size, buffer)) := pxe_read_file pxe path size (snp_buffer s) (snp_world s) in
  (set_buffer buffer (set_world w s), inr (status, read_size)).

Definition pxe_fetch_once (request : RibonRecoveryNetworkRequest) (path : bytes) : Stack Z :=
  '(status, probed_size) ← call_get_file_size path;
  '(size_known, read_size) ←
    (if status =? EFI_SUCCESS then
       _ ← leave_if ((probed_size =? 0) || (request_maximum_bytes request <? probed_size) ||
                     (request_buffer_capacity request <? probed_size)) (SnpLeft NETWORK_CAPACITY);
       mret (true, probed_size)
     else if status =? EFI_UNSUPPORTED then mret (false, request_maximum_bytes request)
     else leave (SnpLeft (fetch_status status)));
  '(status, read_size) ← call_read_file path read_size;
  _ ← leave_if (EFI_ERROR status) (SnpLeft (fetch_status status));
  _ ← leave_if ((read_size =? 0) || (request_maximum_bytes request <? read_size) ||
                (request_buffer_capacity request <? read_size) || (size_known && (read_size !=? probed_size)))
               (SnpLeft NETWORK_TRUNCATED);
  mret read_size.

(** [opened] and [backend] are fields of the context.  A context that was opened has its binding, and
    the buffer of a request is in the state. *)
Definition recovery_fetch_once (turns : nat) (opened backend : Z) (request : RibonRecoveryNetworkRequest)
    (result : RibonRecoveryNetworkResult) : Stack Z :=
  match request_path request with
  | None => leave (SnpLeft NETWORK_INVALID_ARGUMENT)
  | Some path =>
    _ ← leave_if ((opened =? 0) || (request_size request !=? sizeof_RibonRecoveryNetworkRequest) ||
                  (request_abi_version request !=? RIBON_RECOVERY_NETWORK_ABI_VERSION) ||
                  (result_size result !=? sizeof_RibonRecoveryNetworkResult) ||
                  (result_abi_version result !=? RIBON_RECOVERY_NETWORK_ABI_VERSION) ||
                  (request_object_kind request !=? result_object_kind result) ||
                  (request_maximum_bytes request =? 0) ||
                  (request_buffer_capacity request <? request_maximum_bytes request) ||
                  (request_deadline_ms request =? 0) || (30000 <? request_deadline_ms request) ||
                  (request_block_size request <? 512) || (1468 <? request_block_size request))
                 (SnpLeft NETWORK_INVALID_ARGUMENT);
    if backend =? BACKEND_PXE_BASE_CODE then
      _ ← leave_if (request_deadline_ms request <? 2 * RIBON_UEFI_PXE_OPERATION_DEADLINE_MS) (SnpLeft NETWORK_INVALID_ARGUMENT);
      pxe_fetch_once request path
    else if backend =? BACKEND_SIMPLE_NETWORK then snp_fetch_once turns request path
    else leave (SnpLeft NETWORK_UNSUPPORTED)
  end.

(** An attempt that has not returned has no status of the code. *)
Definition STILL_RUNNING : Z := 1.

(** The operation table of the service: the context, but for the buffer, is the world of the
    transport. *)
Definition network_operations (turns : nat) (opened backend : Z) : RibonNetworkTransportServiceOperations (Snp W) :=
  mkTransportOps sizeof_RibonNetworkTransportServiceOperations RIBON_SERVICE_ABI_VERSION
    (Some (fun request result buffer s =>
       let '(s, r) := recovery_fetch_once turns opened backend request result (set_buffer buffer s) in
       match r with
       | inr bytes_received =>
         (s, (NETWORK_OK, mkResult (result_size result) (result_abi_version result) (result_object_kind result)
                            (result_attempts_used result) bytes_received, snp_buffer s))
       | inl (SnpLeft status) => (s, (status, result, snp_buffer s))
       | inl SnpUnfinished => (s, (STILL_RUNNING, result, snp_buffer s))
       end)).
End Stack.

(** ** The checksum *)

(** The 16-bit words of a header, summed up. *)
Definition word_total (b : bytes) : Z := foldr (fun index total => load_be16 b (2 * index) + total) 0 (upto (len b / 2)).

Lemma fold_carry_spec s : 0 <= s <= 0x1fffe ->
  0 <= fold_carry s <= 65535 /\ fold_carry s mod 65535 = s mod 65535 /\ (0 < s -> 0 < fold_carry s).
Proof.
  intros Hs. unfold fold_carry. change (Z.land s 0xffff) with (Z.land s (Z.ones 16)). rewrite Z.land_ones, Z.shiftr_div_pow2 by lia.
  change (2 ^ 16) with 65536. pose proof (Z.div_mod s 65536 ltac:(lia)) as E. pose proof (Z.mod_pos_bound s 65536 ltac:(lia)).
  pose proof (Z.div_pos s 65536 ltac:(lia) ltac:(lia)). split; [lia|]. split; [|lia].
  rewrite E at 3. replace (65536 * (s / 65536) + s mod 65536) with (s mod 65536 + s / 65536 + s / 65536 * 65535) by lia.
  by rewrite Z.mod_add by lia.
Qed.

Lemma checksum_fold b l s : octets b -> 0 <= s <= 65535 ->
  let t := foldr (fun index total => load_be16 b (2 * index) + total) 0 l in
  let r := fold_left (fun sum index => fold_carry (u32 (sum + load_be16 b (2 * index)))) l s in
  0 <= t /\ 0 <= r <= 65535 /\ r mod 65535 = (s + t) mod 65535 /\ (0 < s + t -> 0 < r).
Proof.
  intros Hb. revert s. induction l as [|i l IH]; intros s Hs; cbn [foldr fold_left].
  { rewrite Z.add_0_r. done. }
  pose proof (load_be16_word b (2 * i) Hb) as Hw. rewrite word16 in Hw. unfold UINT16_MAX in Hw.
  rewrite (wrap_small 32) by (rewrite word32; unfold UINT32_MAX; lia).
  destruct (fold_carry_spec (s + load_be16 b (2 * i)) ltac:(lia)) as (F1 & F2 & F3).
  destruct (IH (fold_carry (s + load_be16 b (2 * i))) F1) as (I1 & I2 & I3 & I4). split; [lia|]. split; [done|]. split; [|lia].
  rewrite I3, Z.add_mod, F2, <- Z.add_mod by lia. f_equal. lia.
Qed.

Lemma ipv4_checksum_even b : octets b -> Z.even (len b) = true -> exists s,
  ipv4_checksum b = 65535 - s /\ 0 <= s <= 65535 /\ s mod 65535 = word_total b mod 65535 /\ (0 < word_total b -> 0 < s).
Proof.
  intros Hb He. unfold ipv4_checksum. destruct (checksum_fold b (upto (len b / 2)) 0 Hb ltac:(lia)) as (_ & H1 & H2 & H3).
  cbn zeta in H1, H2, H3. set (s := fold_left _ _ 0) in *. exists s. rewrite Z.add_0_l in H2, H3. fold (word_total b) in H2, H3.
  change (Z.land (len b) 1) with (Z.land (len b) (Z.ones 1)). rewrite Z.land_ones, Zmod_even, He by lia. cbn [negb Z.eqb].
  assert (E : Z.shiftr s 16 = 0) by (rewrite Z.shiftr_div_pow2 by lia; apply Z.div_small; lia).
  cbn [fold_carries]. rewrite E. cbn [negb Z.eqb]. rewrite lnot_word; [|lia|rewrite word16; unfold UINT16_MAX; lia]. done.
Qed.

(** A header with its checksum sums up to zero. *)
Lemma checksum_closes h h' : octets h -> octets h' -> Z.even (len h) = true -> len h' = len h -> 0 < word_total h ->
  word_total h' = word_total h + ipv4_checksum h -> ipv4_checksum h' = 0.
Proof.
  intros Hh Hh' He Hl Hpos Ht. destruct (ipv4_checksum_even h Hh He) as (s & E & B & C & P).
  destruct (ipv4_checksum_even h' Hh' ltac:(by rewrite Hl)) as (s' & E' & B' & C' & P').
  rewrite E'. rewrite Ht, E in C', P'.
  replace (word_total h + (65535 - s)) with (word_total h - s + 1 * 65535) in C' by lia. rewrite Z.mod_add in C' by lia.
  rewrite Zminus_mod, <- C, <- Zminus_mod, Z.sub_diag in C'.
  assert (Hs : s' <> 0 -> s' = 65535).
  { intros Hn. destruct (decide (s' = 65535)); [done|]. rewrite Z.mod_small in C' by lia. done. }
  lia.
Qed.

(** ** Frames as byte sequences *)

Definition be16 (v : Z) : bytes := [u8 (Z.shiftr v 8); u8 v].

Lemma be16_octets v : octets (be16 v).
Proof. repeat constructor; apply wrap_word; lia. Qed.

Lemma load_be16_slice b o : 0 <= o -> load_be16 b o = load_be16 (slice o 2 b) 0.
Proof. intros Ho. unfold load_be16. rewrite !byte_at_slice by lia. by rewrite Z.add_0_r. Qed.

Lemma byte_at_head b o : 0 <= o -> byte_at b o = byte_at (slice o 1 b) 0.
Proof. intros Ho. rewrite byte_at_slice by lia. by rewrite Z.add_0_r. Qed.

Lemma load_be16_be16 v : word 16 v -> load_be16 (be16 v) 0 = v.
Proof.
  intros Hv. rewrite word16 in Hv. unfold UINT16_MAX in Hv. unfold load_be16, be16. change (0 + 1) with 1.
  change (byte_at _ 0) with (u8 (Z.shiftr v 8)). change (byte_at _ 1) with (u8 v).
  rewrite Z.shiftr_div_pow2 by lia. change (2 ^ 8) with 256.
  pose proof (Z.div_pos v 256 ltac:(lia) ltac:(lia)). assert (v / 256 < 256) by (apply Z.div_lt_upper_bound; lia).
  pose proof (Z.mod_pos_bound v 256 ltac:(lia)).
  rewrite (wrap_small 8 (v / 256)) by (rewrite word8; lia).
  assert (Hs : Z.shiftl (v / 256) 8 = v / 256 * 256) by (rewrite Z.shiftl_mul_pow2 by lia; done).
  rewrite (wrap_small 16) by (rewrite Hs, word16; unfold UINT16_MAX; lia). unfold wrap. change (2 ^ 8) with 256. rewrite Z.lor_comm.
  rewrite lor_shiftl_add; [|lia..]. rewrite (Z.div_mod v 256) at 3 by lia. lia.
Qed.

Record endpoint_typed (e : Endpoint) : Prop := {
  local_mac_typed : octets (local_mac e) /\ len (local_mac e) = 6;
  peer_mac_typed : octets (peer_mac e) /\ len (peer_mac e) = 6;
  local_ipv4_typed : octets (local_ipv4 e) /\ len (local_ipv4 e) = 4;
  peer_ipv4_typed : octets (peer_ipv4 e) /\ len (peer_ipv4 e) = 4;
}.

(** The other end. *)
Definition reverse (e : Endpoint) : Endpoint := mkEndpoint (peer_mac e) (local_mac e) (peer_ipv4 e) (local_ipv4 e).

Definition ip_header (e : Endpoint) (identification total checksum : Z) : bytes :=
  [0x45; 0] ++ be16 total ++ be16 identification ++ [0; 0; 64; 17] ++ be16 checksum ++ local_ipv4 e ++ peer_ipv4 e.

Definition datagram (e : Endpoint) (identification source_port destination_port : Z) (payload : bytes) : bytes :=
  let total := 28 + len payload in
  peer_mac e ++ local_mac e ++ be16 0x0800 ++
  ip_header e identification total (ipv4_checksum (ip_header e identification total 0)) ++
  be16 source_port ++ be16 destination_port ++ be16 (8 + len payload) ++ [0; 0] ++ payload.

Lemma ip_header_typed e i t c : endpoint_typed e -> octets (ip_header e i t c) /\ len (ip_header e i t c) = 20.
Proof.
  intros [_ _ [H1 H2] [H3 H4]]. unfold ip_header. split.
  - rewrite !octets_app. repeat split; try apply be16_octets; try done; apply octetsb_octets; reflexivity.
  - rewrite !len_app, H2, H4. done.
Qed.

Lemma datagram_typed e i s d p : endpoint_typed e -> octets p ->
  octets (datagram e i s d p) /\ len (datagram e i s d p) = 42 + len p.
Proof.
  intros He Hp. pose proof (fun t c => ip_header_typed e i t c He) as Hip. destruct He as [[H1 H2] [H3 H4] _ _].
  unfold datagram. split.
  - rewrite !octets_app. repeat split; try apply be16_octets; try done; try apply Hip. apply octetsb_octets; reflexivity.
  - rewrite !len_app, H2, H4, (proj2 (Hip _ _)). change (len (be16 _)) with 2. change (len [0; 0]) with 2. lia.
Qed.

Lemma four_bytes (b : bytes) : len b = 4 -> exists x y z w, b = [x; y; z; w].
Proof.
  intros H. destruct b as [|x [|y [|z [|w [|v r]]]]]; try (autorewrite with len in H; lia); [by eauto|].
  pose proof (len_nonneg r). autorewrite with len in H. lia.
Qed.

(** The checksum field adds to the total of the header. *)
Lemma ip_header_total e i t c : endpoint_typed e -> word 16 c ->
  word_total (ip_header e i t c) = word_total (ip_header e i t 0) + c /\ 0 < word_total (ip_header e i t 0).
Proof.
  intros He Hc. unfold word_total. rewrite !(proj2 (ip_header_typed e i t _ He)). change (upto (20 / 2)) with [0; 1; 2; 3; 4; 5; 6; 7; 8; 9].
  pose proof (fun k => load_be16_word (ip_header e i t 0) k (proj1 (ip_header_typed e i t 0 He))) as Hpos. setoid_rewrite word16 in Hpos.
  destruct He as [_ _ [_ H2] [_ H4]]. apply four_bytes in H2 as (a1 & a2 & a3 & a4 & E2), H4 as (b1 & b2 & b3 & b4 & E4).
  assert (Hsame : forall k, k ∈ [0; 1; 2; 3; 4; 6; 7; 8; 9] -> load_be16 (ip_header e i t c) (2 * k) = load_be16 (ip_header e i t 0) (2 * k)).
  { unfold ip_header. rewrite E2, E4. intros k Hk. rewrite !elem_of_cons in Hk. destruct_or? Hk; subst; try reflexivity. by apply elem_of_nil in Hk. }
  assert (H5 : load_be16 (ip_header e i t c) (2 * 5) = c) by (rewrite <- (load_be16_be16 c Hc) at 2; unfold ip_header; rewrite E2, E4; reflexivity).
  assert (H5' : load_be16 (ip_header e i t 0) (2 * 5) = 0) by (unfold ip_header; rewrite E2, E4; reflexivity).
  assert (H0 : load_be16 (ip_header e i t 0) (2 * 0) = 0x4500) by reflexivity.
  cbn [foldr]. rewrite H5, H5', !Hsame by (rewrite !elem_of_cons; tauto). rewrite !H0.
  pose proof (Hpos (2 * 1)). pose proof (Hpos (2 * 2)). pose proof (Hpos (2 * 3)). pose proof (Hpos (2 * 4)). pose proof (Hpos (2 * 6)).
  pose proof (Hpos (2 * 7)). pose proof (Hpos (2 * 8)). pose proof (Hpos (2 * 9)). lia.
Qed.

Lemma ip_header_verifies e i t : endpoint_typed e -> ipv4_checksum (ip_header e i t (ipv4_checksum (ip_header e i t 0))) = 0.
Proof.
  intros He. set (c := ipv4_checksum (ip_header e i t 0)).
  assert (Hc : word 16 c) by (apply wrap_word; lia). destruct (ip_header_total e i t c He Hc) as [E P].
  destruct (ip_header_typed e i t 0 He) as [O1 L1], (ip_header_typed e i t c He) as [O2 L2].
  apply (checksum_closes (ip_header e i t 0)); try done; rewrite ?L1, ?L2; done.
Qed.

Lemma slice_frame n f : 0 <= n ->
  slice 0 (42 + n) f = slice 0 6 f ++ slice 6 6 f ++ slice 12 2 f ++ slice 14 20 f ++ slice 34 2 f ++ slice 36 2 f ++
    slice 38 2 f ++ slice 40 2 f ++ slice 42 n f.
Proof.
  intros Hn. replace (42 + n) with (6 + (6 + (2 + (20 + (2 + (2 + (2 + (2 + n)))))))) by lia.
  rewrite !slice_split by lia. done.
Qed.

Lemma slice_ip_header f :
  slice 14 20 f = slice 14 1 f ++ slice 15 1 f ++ slice 16 2 f ++ slice 18 2 f ++ slice 20 2 f ++ slice 22 1 f ++ slice 23 1 f ++
    slice 24 2 f ++ slice 26 4 f ++ slice 30 4 f.
Proof.
  change 20 with (1 + (1 + (2 + (2 + (2 + (1 + (1 + (2 + (4 + 4))))))))) at 1. rewrite !slice_split by lia. done.
Qed.

Lemma slice_store_within b off src o n : 0 <= off <= o -> 0 <= n -> o + n <= off + len src -> off + len src <= len b ->
  slice o n (store b off src) = slice (o - off) n src.
Proof.
  intros Ho Hn Hs Hb. pose proof (len_nonneg src). rewrite <- (slice_store_same b off src (len src)) at 2 by lia.
  rewrite slice_slice by lia. f_equal. lia.
Qed.

Ltac frame_piece := buf; rewrite ?slice_store_within by len_lia; buf; reflexivity.

(** The stores of [transmit_udp] make that sequence. *)
Lemma udp_frame_datagram e i s d frame p : endpoint_typed e -> 42 + len p <= len frame -> len p <= 65507 ->
  slice 0 (42 + len p) (udp_frame e i s d frame p) = datagram e i s d p /\ len (udp_frame e i s d frame p) = len frame.
Proof.
  intros [[_ L1] [_ L2] [_ L3] [_ L4]] Hf Hp. pose proof (len_nonneg p) as Hp0.
  unfold udp_frame, build_ethernet_header, store_be16, store_u8.
  unfold RIBON_ETHERNET_HEADER_SIZE, RIBON_IPV4_HEADER_SIZE, RIBON_UDP_HEADER_SIZE.
  rewrite !(slice_all (local_mac e)), !(slice_all (peer_mac e)), !(slice_all (local_ipv4 e)), !(slice_all (peer_ipv4 e)) by done.
  rewrite !(wrap_small 16) by (rewrite word16; unfold UINT16_MAX; lia).
  replace (14 + 20 + 8 + len p) with (42 + len p) by lia. replace (20 + 8 + len p) with (28 + len p) by lia.
  change (14 + 2) with 16. change (14 + 4) with 18. change (14 + 8) with 22. change (14 + 9) with 23. change (14 + 12) with 26.
  change (14 + 16) with 30. change (14 + 10) with 24. change (14 + 20) with 34. change (34 + 2) with 36. change (34 + 4) with 38.
  change (34 + 8) with 42.
  match goal with |- context [ipv4_checksum (slice 14 20 ?f)] => set (f0 := f) end.
  assert (E0 : slice 14 20 f0 = ip_header e i (28 + len p) 0).
  { rewrite slice_ip_header. subst f0.
    transitivity ([69] ++ [0] ++ be16 (28 + len p) ++ be16 i ++ [0; 0] ++ [64] ++ [17] ++ [0; 0] ++ local_ipv4 e ++ peer_ipv4 e); [|done].
    do 9 (apply f_equal2; [frame_piece|]). frame_piece. }
  rewrite E0. split; [|subst f0; by rewrite !len_store]. rewrite slice_frame by lia. unfold datagram. cbn zeta.
  generalize (ipv4_checksum (ip_header e i (28 + len p) 0)). intros c. clear E0. subst f0.
  do 3 (apply f_equal2; [frame_piece|]). apply f_equal2; [|do 4 (apply f_equal2; [frame_piece|]); frame_piece].
  rewrite slice_ip_header.
  transitivity ([69] ++ [0] ++ be16 (28 + len p) ++ be16 i ++ [0; 0] ++ [64] ++ [17] ++ be16 c ++ local_ipv4 e ++ peer_ipv4 e); [|done].
  do 9 (apply f_equal2; [frame_piece|]). frame_piece.
Qed.

Lemma frame_pieces e i s d p f : endpoint_typed e -> 42 + len p <= len f -> slice 0 (42 + len p) f = datagram e i s d p ->
  slice 6 6 f = local_mac e /\ slice 12 2 f = be16 0x0800 /\
  slice 14 20 f = ip_header e i (28 + len p) (ipv4_checksum (ip_header e i (28 + len p) 0)) /\
  slice 34 2 f = be16 s /\ slice 36 2 f = be16 d /\ slice 38 2 f = be16 (8 + len p) /\ slice 42 (len p) f = p.
Proof.
  intros He Hf. pose proof (len_nonneg p). rewrite slice_frame by lia. unfold datagram. cbn zeta.
  pose proof (proj2 (ip_header_typed e i (28 + len p) (ipv4_checksum (ip_header e i (28 + len p) 0)) He)) as L0.
  destruct He as [[_ L1] [_ L2] _ _].
  assert (inj : forall a b c q : bytes, a ++ b = c ++ q -> len a = len c -> a = c /\ b = q).
  { intros a b c q E L. apply app_inj_1; [unfold len in L; lia|done]. }
  intros E.
  apply inj in E as [_ E]; [|rewrite len_slice; lia]. apply inj in E as [E2 E]; [|rewrite len_slice; lia].
  apply inj in E as [E3 E]; [|by rewrite len_slice by lia]. apply inj in E as [E4 E]; [|rewrite len_slice; lia].
  apply inj in E as [E5 E]; [|by rewrite len_slice by lia]. apply inj in E as [E6 E]; [|by rewrite len_slice by lia].
  apply inj in E as [E7 E]; [|by rewrite len_slice by lia]. apply inj in E as [_ E9]; [|by rewrite len_slice by lia].
  split_and!; assumption.
Qed.

Lemma load_be16_in b o n k : 0 <= o -> 0 <= k -> k + 2 <= n -> load_be16 b (o + k) = load_be16 (slice o n b) k.
Proof. intros Ho Hk Hn. unfold load_be16. rewrite !byte_at_slice by lia. by rewrite Z.add_assoc. Qed.

Lemma ip_header_fields e i t c : endpoint_typed e ->
  byte_at (ip_header e i t c) 0 = 0x45 /\ load_be16 (ip_header e i t c) 2 = load_be16 (be16 t) 0 /\
  load_be16 (ip_header e i t c) 6 = 0 /\ byte_at (ip_header e i t c) 9 = 17 /\
  slice 12 4 (ip_header e i t c) = local_ipv4 e /\ slice 16 4 (ip_header e i t c) = peer_ipv4 e.
Proof.
  intros [_ _ [_ L3] [_ L4]]. unfold ip_header.
  apply four_bytes in L3 as (a1 & a2 & a3 & a4 & ->), L4 as (b1 & b2 & b3 & b4 & ->). by split_and!.
Qed.

(** A frame that one end has built is taken by the other. *)
Lemma parse_datagram e i s d p f port : endpoint_typed e -> 42 + len p <= len f -> len p <= 65507 ->
  word 16 s -> word 16 d -> port = 0 \/ port = s -> slice 0 (42 + len p) f = datagram e i s d p ->
  parse_udp (reverse e) f (42 + len p) d port = inr (p, s).
Proof.
  intros He Hf Hp Hs Hd Hport E. pose proof (len_nonneg p).
  destruct (frame_pieces e i s d p f He Hf E) as (E2 & E3 & E4 & E5 & E6 & E7 & E9).
  set (c := ipv4_checksum (ip_header e i (28 + len p) 0)) in *.
  destruct (ip_header_fields e i (28 + len p) c He) as (F1 & F2 & F3 & F4 & F5 & F6).
  assert (B14 : byte_at f 14 = 0x45) by (rewrite <- F1, <- E4, byte_at_slice by lia; done).
  assert (B23 : byte_at f 23 = 17) by (rewrite <- F4, <- E4, byte_at_slice by lia; done).
  assert (W16 : load_be16 f 16 = 28 + len p).
  { change 16 with (14 + 2). rewrite (load_be16_in f 14 20 2), E4, F2 by lia. apply load_be16_be16. rewrite word16. unfold UINT16_MAX. lia. }
  assert (W20 : load_be16 f 20 = 0) by (change 20 with (14 + 6); rewrite (load_be16_in f 14 20 6), E4 by lia; done).
  assert (S26 : slice 26 4 f = local_ipv4 e) by (rewrite <- F5, <- E4, slice_slice by lia; done).
  assert (S30 : slice 30 4 f = peer_ipv4 e) by (rewrite <- F6, <- E4, slice_slice by lia; done).
  assert (W12 : load_be16 f 12 = 0x0800) by (rewrite load_be16_slice, E3 by lia; done).
  assert (W34 : load_be16 f 34 = s) by (rewrite load_be16_slice, E5 by lia; by apply load_be16_be16).
  assert (W36 : load_be16 f 36 = d) by (rewrite load_be16_slice, E6 by lia; by apply load_be16_be16).
  assert (W38 : load_be16 f 38 = 8 + len p).
  { rewrite load_be16_slice, E7 by lia. apply load_be16_be16. rewrite word16. unfold UINT16_MAX. lia. }
  unfold parse_udp. unfold RIBON_ETHERNET_HEADER_SIZE, RIBON_IPV4_HEADER_SIZE, RIBON_UDP_HEADER_SIZE.
  cbn [local_mac peer_mac local_ipv4 peer_ipv4 reverse].
  rewrite W12, E2, bytes_equal_refl. rewrite B14. change (Z.land 69 15 * 4) with 20. change (Z.shiftr 69 4) with 4.
  change (14 + 9) with 23. change (14 + 6) with 20. change (14 + 12) with 26. change (14 + 16) with 30. change (14 + 2) with 16.
  change (14 + 20) with 34. change (34 + 4) with 38. change (34 + 2) with 36. change (34 + 8) with 42.
  pose proof (ip_header_verifies e i (28 + len p) He) as Hv. fold c in Hv.
  rewrite B23, W20, E4, Hv, S26, S30, !bytes_equal_refl, W16, W38, W36, W34.
  compare. rewrite !Z.eqb_refl. cbn [negb orb andb].
  replace ((port !=? 0) && (s !=? port)) with false by (destruct Hport as [-> | ->]; [done|by rewrite Z.eqb_refl, andb_false_r]).
  cbn [orb]. replace (8 + len p - 8) with (len p) by lia. rewrite E9. 
  replace (28 + len p - 20) with (8 + len p) by lia. rewrite ?Z.eqb_refl. done.
Qed.

(** C22: A datagram reaches the other end unchanged.  What [transmit_udp] hands to the driver
    is, received into any frame buffer, taken by [parse_udp] of the peer, and gives
    the payload and the port it was sent from: the header checksum, the lengths and the
    addresses that one end writes are the ones that the other requires. *)
Theorem udp_frame_roundtrip e i s d frame p received port : endpoint_typed e ->
  42 + len p <= RIBON_UEFI_SNP_FRAME_CAPACITY -> len frame = RIBON_UEFI_SNP_FRAME_CAPACITY ->
  len received = RIBON_UEFI_SNP_FRAME_CAPACITY -> word 16 s -> word 16 d -> port = 0 \/ port = s ->
  parse_udp (reverse e) (store received 0 (slice 0 (42 + len p) (udp_frame e i s d frame p))) (42 + len p) d port = inr (p, s).
Proof.
  unfold RIBON_UEFI_SNP_FRAME_CAPACITY. intros He Hp Hf Hr Hs Hd Hport. pose proof (len_nonneg p).
  destruct (udp_frame_datagram e i s d frame p He ltac:(lia) ltac:(lia)) as [E Hl].
  apply (parse_datagram e i); rewrite ?len_store; try done; try lia.
  rewrite slice_store_same; [exact E|lia| |lia]. rewrite len_slice; lia.
Qed.

(** ** What the driver may do

    The driver writes inside the buffer, and keeps a property of its world.  The frames it
    delivers for the client's port carry packets of a peer that sends [file]; it may lose,
    repeat and reorder them, fail, and deliver anything else. *)
Class HonestNetwork {W} (driver : SnpDriver W) (binding : RibonRecoveryNetworkProductBinding) (current_address : bytes)
    (client_port : Z) (file : bytes) (block_size : Z) (steady : W -> Prop) := {
  transmit_steady : forall frame w w' status, steady w -> driver_transmit driver frame w = (w', status) -> steady w';
  status_steady : forall w w' r, steady w -> driver_get_status driver w = (w', r) -> steady w';
  stall_steady : forall stall w w' status, driver_stall driver = Some stall -> steady w -> stall w = (w', status) -> steady w';
  receive_honest : forall frame w w' status size frame', steady w -> octets frame -> len frame = RIBON_UEFI_SNP_FRAME_CAPACITY ->
    driver_receive driver frame w = (w', (status, size, frame')) ->
    steady w' /\ octets frame' /\ len frame' = len frame /\
    (status = EFI_SUCCESS -> forall mac server_port payload port,
       parse_udp (endpoint binding current_address mac) frame' size client_port server_port = inr (payload, port) ->
       honest file block_size payload);
}.

Section Frames.
Context {W : Type} (driver : SnpDriver W) (binding : RibonRecoveryNetworkProductBinding) (current_address : bytes).
Context (client_port : Z) (file : bytes) (block_size : Z) (steady : W -> Prop).
Context `{!HonestNetwork driver binding current_address client_port file block_size steady}.

(** The driver's state is steady, and the receive buffer is one. *)
Definition sound (s : Snp W) : Prop :=
  steady (snp_world s) /\ octets (snp_receive_frame s) /\ len (snp_receive_frame s) = RIBON_UEFI_SNP_FRAME_CAPACITY.

(** Only the driver's state, the frames and the ticks have changed since [s0]. *)
Record near (s0 s : Snp W) : Prop := {
  near_sound : sound s;
  near_buffer : snp_buffer s = snp_buffer s0;
  near_mac : snp_server_mac s = snp_server_mac s0;
  near_ticks : 0 <= snp_remaining_ticks s <= snp_remaining_ticks s0;
}.

(** An operation that did not succeed returned a status. *)
Definition stopped (s0 : Snp W) (stop : SnpStop) (s : Snp W) : Prop :=
  near s0 s /\ exists status, stop = SnpLeft status /\ status <> NETWORK_OK.

Lemma fetch_status_bad status : fetch_status status <> NETWORK_OK.
Proof. unfold fetch_status. by repeat destruct (_ || _); destruct (status =? EFI_UNSUPPORTED). Qed.

Lemma stopped_left s0 s status : near s0 s -> status <> NETWORK_OK -> stopped s0 (SnpLeft status) s.
Proof. intros H Hs. split; [done|]. by exists status. Qed.

Lemma poll_spec s0 n : triple (fun s => near s0 s /\ snp_remaining_ticks s < n) (poll_or_timeout driver)
  (fun _ s => near s0 s /\ snp_remaining_ticks s < n - 1) (stopped s0).
Proof.
  intros s [[[N1 NF] N2 N3 N4] Hn]. unfold poll_or_timeout, poll_stall, mbind, M_bind, leave_if, leave.
  assert (Hsame : near s0 s) by by split.
  destruct (driver_stall driver) as [stall|] eqn:Es; [|cbn; by apply stopped_left].
  destruct (Z.eqb_spec (snp_remaining_ticks s) 0); [cbn; by apply stopped_left|].
  destruct (stall (snp_world s)) as [w st] eqn:Ew. pose proof (stall_steady _ _ _ _ Es N1 Ew) as Hw.
  assert (Hnear : near s0 (set_ticks (snp_remaining_ticks s - 1) (set_world w s))) by (split; cbn; try done; lia).
  destruct (EFI_ERROR st); cbn; [by apply stopped_left|]. split; [done|]. cbn. lia.
Qed.

Lemma call_transmit_spec s0 n k : triple (fun s => near s0 s /\ snp_remaining_ticks s < n) (call_transmit driver k)
  (fun _ s => near s0 s /\ snp_remaining_ticks s < n) (stopped s0).
Proof.
  intros s [[[N1 NF] N2 N3 N4] Hn]. unfold call_transmit. destruct (driver_transmit _ _ _) as [w st] eqn:Ew.
  split; [|done]. split; cbn; try done. split; [by eapply transmit_steady|done].
Qed.

Lemma call_get_status_spec s0 n : triple (fun s => near s0 s /\ snp_remaining_ticks s < n) (call_get_status driver)
  (fun _ s => near s0 s /\ snp_remaining_ticks s < n) (stopped s0).
Proof.
  intros s [[[N1 NF] N2 N3 N4] Hn]. unfold call_get_status. destruct (driver_get_status _ _) as [w r] eqn:Ew.
  split; [|done]. split; cbn; try done. split; [by eapply status_steady|done].
Qed.

Lemma transmit_loop_spec s0 (fuel : nat) k : triple (fun s => near s0 s /\ snp_remaining_ticks s < Z.of_nat fuel)
  (transmit_loop driver fuel k) (fun _ s => near s0 s) (stopped s0).
Proof.
  induction fuel as [|fuel IH]; cbn [transmit_loop].
  { intros s [N H]. pose proof (near_ticks _ _ N). lia. }
  eapply triple_bind; [apply call_transmit_spec|]. intros st. destruct (st !=? EFI_NOT_READY); [apply triple_ret; tauto|].
  eapply triple_bind; [apply poll_spec|]. intros []. eapply triple_bind; [apply call_get_status_spec|]. intros ?.
  eapply triple_pre; [|exact IH]. intros s [N H]. split; [done|lia].
Qed.

Lemma recycle_loop_spec s0 (fuel : nat) : triple (fun s => near s0 s /\ snp_remaining_ticks s < Z.of_nat fuel)
  (recycle_loop driver fuel) (fun _ s => near s0 s) (stopped s0).
Proof.
  induction fuel as [|fuel IH]; cbn [recycle_loop].
  { intros s [N H]. pose proof (near_ticks _ _ N). lia. }
  eapply triple_bind; [apply call_get_status_spec|]. intros [st recycled].
  eapply triple_bind; [eapply triple_leave_if; [intros s H _; exact H|intros s [N _] _; apply stopped_left; [done|apply fetch_status_bad]]|].
  intros ?. destruct recycled; [apply triple_ret; tauto|].
  eapply triple_bind; [apply poll_spec|]. intros [] s [N H]. unfold mbind, M_bind, get.
  destruct (_ !=? 0); [apply IH; split; [done|lia]|by apply stopped_left].
Qed.

Lemma tick_fuel_enough {A} s0 (f : nat -> M (Snp W) SnpStop A) Q F :
  (forall fuel, triple (fun s => near s0 s /\ snp_remaining_ticks s < Z.of_nat fuel) (f fuel) Q F) ->
  triple (near s0) (tick_fuel ≫= f) Q F.
Proof.
  intros H s N. unfold mbind, M_bind, tick_fuel, get. apply H. split; [done|]. pose proof (near_ticks _ _ N). lia.
Qed.

Lemma snp_transmit_spec s0 n : triple (near s0) (snp_transmit driver n) (fun _ => near s0) (stopped s0).
Proof.
  unfold snp_transmit.
  eapply triple_bind; [eapply triple_leave_if; [intros s H _; exact H|intros s N _; by apply stopped_left]|]. intros ?.
  apply tick_fuel_enough. intros fuel. eapply triple_bind; [apply transmit_loop_spec|]. intros st.
  eapply triple_bind; [eapply triple_leave_if; [intros s H _; exact H|intros s N _; apply stopped_left; [done|apply fetch_status_bad]]|].
  intros ?. apply tick_fuel_enough. intros fuel'. apply recycle_loop_spec.
Qed.

(** The frame that was received. *)
Definition delivered (size : Z) (s : Snp W) : Prop :=
  forall mac server_port payload port,
    parse_udp (endpoint binding current_address mac) (snp_receive_frame s) size client_port server_port = inr (payload, port) ->
    honest file block_size payload.

Lemma receive_loop_spec s0 (fuel : nat) : triple (fun s => near s0 s /\ snp_remaining_ticks s < Z.of_nat fuel)
  (receive_loop driver fuel) (fun size s => near s0 s /\ delivered size s) (stopped s0).
Proof.
  induction fuel as [|fuel IH]; cbn [receive_loop].
  { intros s [N H]. pose proof (near_ticks _ _ N). lia. }
  intros s [[[N1 [NF NL]] N2 N3 N4] Hn]. unfold mbind at 1, M_bind at 1, call_receive.
  destruct (driver_receive _ _ _) as [w [[st size] frame]] eqn:Ew.
  destruct (receive_honest _ _ _ _ _ _ N1 NF NL Ew) as (Hw & Hoct & Hlen & Hh). cbn zeta.
  assert (Hnear : near s0 (set_receive frame (set_world w s))).
  { split; try done. split; [done|]. split; [done|]. cbn. by rewrite Hlen. }
  destruct (Z.eqb_spec st EFI_SUCCESS) as [E|_].
  - unfold mbind, M_bind, leave_if. destruct (_ || _); cbn; [by apply stopped_left|].
    split; [done|exact (Hh E)].
  - destruct (st !=? EFI_NOT_READY); [cbn; apply stopped_left; [done|apply fetch_status_bad]|].
    assert (Ht : triple (fun s => near s0 s /\ snp_remaining_ticks s < Z.of_nat (S fuel))
      (poll_or_timeout driver ≫= fun _ => receive_loop driver fuel) (fun size s => near s0 s /\ delivered size s) (stopped s0)).
    { eapply triple_bind; [apply poll_spec|]. intros []. eapply triple_pre; [|exact IH]. intros s' [N H]. split; [done|lia]. }
    apply (Ht (set_receive frame (set_world w s))). done.
Qed.

Lemma snp_receive_poll s0 : triple (near s0) (snp_receive driver) (fun size s => near s0 s /\ delivered size s) (stopped s0).
Proof. apply tick_fuel_enough. intros fuel. apply receive_loop_spec. Qed.

Lemma transmit_udp_spec s0 source destination payload : triple (near s0)
  (transmit_udp driver binding current_address source destination payload) (fun _ => near s0) (stopped s0).
Proof.
  unfold transmit_udp.
  eapply triple_bind; [eapply triple_leave_if; [intros s H _; exact H|intros s N _; by apply stopped_left]|]. intros ?.
  eapply triple_bind; [|intros ?; apply snp_transmit_spec]. intros s [N1 N2 N3 N4]. by split.
Qed.

Lemma near_refl s : sound s -> 0 <= snp_remaining_ticks s -> near s s.
Proof. intros H1 H2. split; done || lia. Qed.

(** The buffer is as it was, whatever became of the rest. *)
Definition untouched (s0 s : Snp W) : Prop :=
  sound s /\ snp_buffer s = snp_buffer s0 /\ 0 <= snp_remaining_ticks s.

Lemma near_untouched s0 s : near s0 s -> untouched s0 s.
Proof. intros [N1 N2 N3 N4]. split_and!; done || lia. Qed.

Definition gave_up (s0 : Snp W) (stop : SnpStop) (s : Snp W) : Prop := untouched s0 s /\ stop <> SnpLeft NETWORK_OK.

Lemma stopped_gave_up s0 s stop : stopped s0 stop s -> gave_up s0 stop s.
Proof. intros [N (z & -> & Hz)]. split; [by apply near_untouched|]. congruence. Qed.

Lemma arp_loop_spec s0 turns : triple (near s0) (arp_loop driver binding current_address turns)
  (fun _ => untouched s0) (gave_up s0).
Proof.
  induction turns as [|turns IH]; intros s N; cbn [arp_loop].
  { split; [by apply near_untouched|done]. }
  unfold mbind at 1, M_bind at 1. pose proof (snp_receive_poll s0 s N) as Hr.
  destruct (snp_receive driver s) as [s1 [stop|size]]; [by apply stopped_gave_up|]. destruct Hr as [N1 _].
  unfold mbind, M_bind, get. destruct (negb _); [by apply IH|]. apply near_untouched in N1. done.
Qed.

Lemma resolve_server_mac_spec s0 turns : triple (near s0) (resolve_server_mac driver binding current_address turns)
  (fun _ => untouched s0) (gave_up s0).
Proof.
  intros s N. unfold resolve_server_mac. unfold mbind at 1, M_bind at 1, get.
  destruct (_ !=? 0); [by apply near_untouched|]. unfold mbind at 1, M_bind at 1, modify.
  set (s1 := set_transmit _ _ s). assert (N1 : near s0 s1) by (destruct N; by split).
  unfold mbind, M_bind. pose proof (snp_transmit_spec s0 42 s1 N1) as Ht.
  destruct (snp_transmit driver 42 s1) as [s2 [stop|]]; [by apply stopped_gave_up|]. by apply arp_loop_spec.
Qed.

(** ** The loop and the datagrams it sees *)

Definition outcome (r : SnpStop + Z) : SnpOutcome :=
  match r with
  | inl SnpUnfinished => SnpWaiting
  | inl (SnpLeft status) => SnpFailed status
  | inr n => SnpReceived n
  end.

Lemma parse_udp_octets e f n c p payload port : octets f -> parse_udp e f n c p = inr (payload, port) -> octets payload.
Proof.
  intros Hf. unfold parse_udp. repeat (destruct (_ || _); [done|]). intros [= <- <-]. by apply octets_slice.
Qed.

Lemma parse_udp_status e f n c p status : parse_udp e f n c p = inl status -> status <> NETWORK_OK.
Proof. unfold parse_udp. by repeat (destruct (_ || _); [by intros [= <-]|]). Qed.

(** An acknowledgement leaves the buffer alone; the event records how it ended. *)
Lemma ack_spec s block port : sound s -> 0 <= snp_remaining_ticks s ->
  let '(s', r) := transmit_tftp_ack driver binding current_address client_port port block s in
  snp_buffer s' = snp_buffer s /\ sound s' /\ 0 <= snp_remaining_ticks s' /\
  match r with inl stop => exists status, stop = SnpLeft status /\ status <> NETWORK_OK | inr _ => True end.
Proof.
  intros Hw Ht. pose proof (transmit_udp_spec s client_port port
    (store_be16 (store_be16 (zeros 4) 0 4) 2 block) s (near_refl s Hw Ht)) as H.
  unfold transmit_tftp_ack. destruct (transmit_udp _ _ _ _ _ _ s) as [s' [stop|[]]]; [destruct H as [[N1 N2 N3 N4] H]|destruct H as [N1 N2 N3 N4]];
    split_and!; done || lia.
Qed.

(** What [snp_receive_loop] does with a datagram that the guard answered. *)
Lemma datagram_step capacity client port guard buffer packet actual st g' payload ack rest :
  (len packet <? 2) = false -> (port =? 0) && ((actual =? 0) || (actual =? client)) = false ->
  ribon_tftp_guard_accept (Some guard) (Some packet) false = (st, g', payload) ->
  let g2 := default guard g' in
  let port' := if port =? 0 then actual else port in
  let opcode := load_be16 packet 0 in
  snp_receive_loop capacity client guard port buffer (Datagram packet actual ack :: rest) =
    if bool_decide (st = TFTP_DUPLICATE) then
      if ack !=? NETWORK_OK then (SnpFailed ack, buffer) else snp_receive_loop capacity client g2 port' buffer rest
    else if negb (bool_decide (st = TFTP_OK)) && negb (bool_decide (st = TFTP_COMPLETE)) then
      (SnpFailed (if bool_decide (st = TFTP_CAPACITY) then NETWORK_CAPACITY else NETWORK_MALFORMED), buffer)
    else if (opcode !=? 6) && (opcode !=? 3) then (SnpFailed NETWORK_MALFORMED, buffer)
    else if (opcode =? 3) && ((capacity <? guard_received_bytes guard) || (capacity - guard_received_bytes guard <? len payload))
    then (SnpFailed NETWORK_CAPACITY, buffer)
    else
      let buffer := if opcode =? 3 then store buffer (guard_received_bytes guard) payload else buffer in
      if ack !=? NETWORK_OK then (SnpFailed ack, buffer)
      else if bool_decide (st = TFTP_COMPLETE) then
        if guard_received_bytes g2 =? 0 then (SnpFailed NETWORK_TRUNCATED, buffer) else (SnpReceived (guard_received_bytes g2), buffer)
      else snp_receive_loop capacity client g2 port' buffer rest.
Proof. intros G1 G2 Ea. cbn [snp_receive_loop]. by rewrite G1, G2, Ea. Qed.

Abbreviation transfer := (snp_transfer driver binding current_address).
Abbreviation acknowledge := (transmit_tftp_ack driver binding current_address client_port).

(** [r] in [s'] is how the events that follow end. *)
Definition explained (capacity : Z) (guard : RibonTftpGuard) (port : Z) (buffer : bytes) (s' : Snp W) (r : SnpStop + Z) : Prop :=
  sound s' /\ r <> inl (SnpLeft NETWORK_OK) /\ exists events, Forall (event_honest file block_size) events /\
    snp_receive_loop capacity client_port guard port buffer events = (outcome r, snp_buffer s').

Lemma explained_one capacity guard port buffer s' r e : sound s' -> r <> inl (SnpLeft NETWORK_OK) -> event_honest file block_size e ->
  snp_receive_loop capacity client_port guard port buffer [e] = (outcome r, snp_buffer s') -> explained capacity guard port buffer s' r.
Proof. intros H1 H2 H3 H4. split; [done|]. split; [done|]. exists [e]. split; [by apply Forall_singleton|done]. Qed.

(** The acknowledgement of a datagram, and what follows it. *)
Lemma acknowledged capacity guard port buffer packet actual port' block s (next : M (Snp W) SnpStop Z) (K : list SnpEvent -> SnpOutcome * bytes) :
  sound s -> 0 <= snp_remaining_ticks s -> (forall ack, event_honest file block_size (Datagram packet actual ack)) ->
  (forall ack rest, snp_receive_loop capacity client_port guard port buffer (Datagram packet actual ack :: rest) =
     if ack !=? NETWORK_OK then (SnpFailed ack, snp_buffer s) else K rest) ->
  (forall s1, snp_buffer s1 = snp_buffer s -> sound s1 -> 0 <= snp_remaining_ticks s1 ->
     let '(s', r) := next s1 in
     sound s' /\ r <> inl (SnpLeft NETWORK_OK) /\ exists rest, Forall (event_honest file block_size) rest /\ K rest = (outcome r, snp_buffer s')) ->
  let '(s', r) := (acknowledge port' block ≫= fun _ => next) s in explained capacity guard port buffer s' r.
Proof.
  intros Hw Ht Hev Hloop Hnext. unfold mbind, M_bind. pose proof (ack_spec s block port' Hw Ht) as Hack.
  destruct (acknowledge port' block s) as [s1 [stop|[]]]; destruct Hack as (A1 & A2 & A3 & A4).
  - destruct A4 as (z & -> & Hz). apply (explained_one _ _ _ _ _ _ (Datagram packet actual z)); [done|congruence|done|]. rewrite Hloop. compare. by rewrite A1.
  - specialize (Hnext s1 A1 A2 A3). destruct (next s1) as [s' r]. destruct Hnext as (Hw' & Hn & rest & Hall & E).
    split; [done|]. split; [done|]. exists (Datagram packet actual NETWORK_OK :: rest). split; [by constructor|]. by rewrite Hloop.
Qed.

(** The frames that the loop receives are a sequence of events, and it does with them
    what [snp_receive_loop] does. *)
Lemma snp_transfer_events turns capacity : forall guard port s, sound s -> 0 <= snp_remaining_ticks s ->
  let '(s', r) := transfer turns capacity client_port guard port s in explained capacity guard port (snp_buffer s) s' r.
Proof.
  induction turns as [|turns IH]; intros guard port s Hw Ht; cbn [snp_transfer].
  { split; [done|]. split; [done|]. exists []. split; [apply Forall_nil_2|done]. }
  unfold mbind at 1, M_bind at 1. pose proof (snp_receive_poll s s (near_refl s Hw Ht)) as Hr.
  destruct (snp_receive driver s) as [s1 [stop|size]].
  { destruct Hr as [N (z & -> & Hz)]. apply (explained_one _ _ _ _ _ _ (ReceiveFailed z)); [apply N|congruence|done|]. by rewrite <- (near_buffer _ _ N). }
  destruct Hr as [N Hdel]. destruct N as [N1 N2 N3 N4]. assert (Hoct : octets (snp_receive_frame s1)) by apply N1. rewrite <- N2. clear Hw Ht N2 N3.
  unfold mbind at 1, M_bind at 1, get. cbn [id].
  destruct (parse_udp _ _ size client_port port) as [st|[packet actual]] eqn:Ep.
  { destruct (st =? NETWORK_UNSUPPORTED); [|apply (explained_one _ _ _ _ _ _ (FrameBad st)); try done; apply parse_udp_status in Ep; congruence].
    specialize (IH guard port s1 N1 ltac:(lia)). destruct (transfer _ _ _ _ _ _) as [s' r].
    destruct IH as (Hw & Hn & events & Hall & E). split; [done|]. split; [done|]. exists (FrameIgnored :: events). split; [by constructor|]. exact E. }
  assert (Hev : forall ack, event_honest file block_size (Datagram packet actual ack)).
  { intros ack. split; [by eapply parse_udp_octets|by eapply Hdel]. }
  clear Hdel Ep. unfold leave_if.
  destruct (len packet <? 2) eqn:G1; [apply (explained_one _ _ _ _ _ _ (Datagram packet actual 0)); try done; cbn; by rewrite G1|].
  unfold mbind at 1, M_bind at 1. cbn [mret M_ret].
  destruct ((port =? 0) && _) eqn:G2; [apply (explained_one _ _ _ _ _ _ (Datagram packet actual 0)); try done; cbn; by rewrite G1, G2|].
  unfold mbind at 1, M_bind at 1. cbn [mret M_ret].
  destruct (ribon_tftp_guard_accept (Some guard) (Some packet) false) as [[st g'] payload] eqn:Ea.
  pose proof (fun ack rest => datagram_step capacity client_port port guard (snp_buffer s1) packet actual st g' payload ack rest G1 G2 Ea) as Hstep.
  cbn zeta in Hstep. clear G1 G2 Ea. set (g2 := default guard g') in *. set (port' := if port =? 0 then actual else port) in *.
  set (opcode := load_be16 packet 0) in *.
  destruct (bool_decide (st = TFTP_DUPLICATE)).
  { eapply acknowledged; [done|lia|done|exact Hstep|]. intros s2 B2 W2 T2. cbn beta. rewrite <- B2. by apply IH. }
  destruct (negb (bool_decide (st = TFTP_OK)) && _).
  { apply (explained_one _ _ _ _ _ _ (Datagram packet actual 0)); [done|by destruct (bool_decide _)|done|by rewrite Hstep]. }
  unfold mbind at 1, M_bind at 1. cbn [mret M_ret].
  set (final := if bool_decide (st = TFTP_COMPLETE) then _ else _).
  (* the end of a turn, from a state whose buffer is [b] *)
  assert (Hfinal : forall s1, sound s1 -> 0 <= snp_remaining_ticks s1 ->
    let '(s', r) := final s1 in sound s' /\ r <> inl (SnpLeft NETWORK_OK) /\ exists rest, Forall (event_honest file block_size) rest /\
      (if bool_decide (st = TFTP_COMPLETE) then
         if guard_received_bytes g2 =? 0 then (SnpFailed NETWORK_TRUNCATED, snp_buffer s1)
         else (SnpReceived (guard_received_bytes g2), snp_buffer s1)
       else snp_receive_loop capacity client_port g2 port' (snp_buffer s1) rest) = (outcome r, snp_buffer s')).
  { intros s2 W2 T2. subst final. destruct (bool_decide (st = TFTP_COMPLETE)); [|by apply IH].
    unfold mbind, M_bind. destruct (guard_received_bytes g2 =? 0); (split; [done|]); (split; [done|]); exists []; (split; [apply Forall_nil_2|done]). }
  clearbody final. clear IH. destruct (opcode =? 6) eqn:E6.
  { eapply acknowledged; [done|lia|done| |].
    - intros ack rest. rewrite Hstep. replace (opcode =? 3) with false by (bool_to_prop; by rewrite E6). done.
    - intros s2 B2 W2 T2. cbn beta. rewrite <- B2. by apply Hfinal. }
  destruct (opcode =? 3) eqn:E3; [|apply (explained_one _ _ _ _ _ _ (Datagram packet actual 0)); try done; by rewrite Hstep].
  destruct (_ || (_ <? len payload)) eqn:G4; [apply (explained_one _ _ _ _ _ _ (Datagram packet actual 0)); try done; by rewrite Hstep|].
  change ((_ ≫= fun _ => final) s1) with
    ((acknowledge port' (if 4 <=? len packet then load_be16 packet 2 else 0) ≫= fun _ => final)
       (set_buffer (store (snp_buffer s1) (guard_received_bytes guard) payload) s1)).
  eapply acknowledged; [done|cbn; lia|done| |].
  - intros ack rest. rewrite Hstep. done.
  - intros s2 B2 W2 T2. cbn in B2. cbn beta. rewrite <- B2. by apply Hfinal.
Qed.
End Frames.

(** ** A recovery from end to end *)

(** A store at the front of a buffer. *)
Lemma store_front b src : len src <= len b -> store b 0 src = src ++ drop (length src) b.
Proof.
  intros H. pose proof (len_nonneg src). rewrite <- (slice_all (store b 0 src) (len src + (len b - len src))) by (rewrite len_store; lia).
  rewrite slice_split, slice_store_same, slice_store_after by lia. f_equal.
  unfold slice, len. replace (Z.to_nat (0 + Z.of_nat (length src))) with (length src) by lia. apply take_ge. rewrite length_drop. lia.
Qed.

Lemma store_over b x y : len x <= len y -> len y <= len b -> store (store b 0 x) 0 y = store b 0 y.
Proof.
  intros Hx Hy. rewrite !store_front by (rewrite ?len_store; lia). f_equal. unfold len in *.
  rewrite drop_app_ge by lia. rewrite drop_drop. f_equal. lia.
Qed.

(** A file stored in a buffer that was cleared up to a maximum. *)
Lemma store_object b file maximum : 0 <= maximum <= len b -> len file <= maximum ->
  store (store b 0 (zeros maximum)) 0 file = file ++ zeros (maximum - len file) ++ drop (Z.to_nat maximum) b.
Proof.
  intros Hb Hf. assert (Hz : len (zeros maximum) = maximum) by (apply len_zeros; lia).
  rewrite (store_front b) by lia.
  rewrite store_front by (rewrite len_app, Hz; pose proof (len_nonneg (drop (length (zeros maximum)) b)); lia).
  rewrite drop_app_le by (unfold len in Hf, Hz; lia). unfold zeros at 1 2. rewrite drop_replicate, length_replicate.
  unfold zeros, len. do 3 f_equal. lia.
Qed.

(** The port that a request for an object of a kind is sent from. *)
Definition client_port_of (kind : Z) : Z := u16 (40000 + u16 kind).

Lemma initialized_fresh bs maximum g : ribon_tftp_guard_initialize false bs maximum = inr g ->
  fresh_guard bs maximum g /\ guard_packet_count g = 0.
Proof. unfold ribon_tftp_guard_initialize. destruct (_ || _); [done|]. intros [= <-]. by repeat split. Qed.

Lemma build_rrq_status request path capacity status : build_rrq request path capacity = inl status -> status <> NETWORK_OK.
Proof. unfold build_rrq. destruct (_ || _); [by intros [= <-]|done]. Qed.

Section Recovery.
Context {W : Type} (driver : SnpDriver W) (pxe : PxeDriver W) (binding : RibonRecoveryNetworkProductBinding) (current_address : bytes).
Context (kind : Z) (file : bytes) (steady : W -> Prop).
Context `{!HonestNetwork driver binding current_address (client_port_of kind) file (binding_block_size binding) steady}.

(** The buffer holds the first bytes of the file, and all of it after a success. *)
Definition received (maximum : Z) (buffer : bytes) (s' : Snp W) (r : SnpStop + Z) : Prop :=
  sound steady s' /\ r <> inl (SnpLeft NETWORK_OK) /\
  (exists k, 0 <= k <= Z.min maximum (len file) /\ snp_buffer s' = store buffer 0 (slice 0 k file)) /\
  forall n, r = inr n -> n = len file /\ snp_buffer s' = store buffer 0 file.

Lemma received_nothing maximum (s0 s : Snp W) stop : 0 <= maximum -> stop <> SnpLeft NETWORK_OK -> sound steady s -> snp_buffer s = snp_buffer s0 ->
  received maximum (snp_buffer s0) s (inl stop).
Proof.
  intros Hm Hst Hw Hb. split; [done|]. split; [congruence|]. split; [|done]. exists 0. pose proof (len_nonneg file). split; [lia|]. rewrite Hb. done.
Qed.

Lemma snp_fetch_once_spec turns request path s : sound steady s -> 0 <= request_deadline_ms request ->
  request_object_kind request = kind -> request_block_size request = binding_block_size binding ->
  512 <= binding_block_size binding <= 1468 -> word 64 (request_maximum_bytes request) ->
  let '(s', r) := snp_fetch_once driver binding current_address turns request path s in
  received (request_maximum_bytes request) (snp_buffer s) s' r.
Proof.
  intros Hw Hd Hk Hb Hbs Hm. unfold snp_fetch_once. rewrite Hk. fold (client_port_of kind). rewrite Hb.
  assert (Hm' := Hm). rewrite word64 in Hm'.
  unfold mbind at 1, M_bind at 1, modify. set (s1 := set_ticks (request_deadline_ms request) s).
  assert (N1 : near steady s1 s1) by (by apply near_refl).
  change (snp_buffer s) with (snp_buffer s1). clearbody s1. clear s Hw Hd.
  unfold mbind at 1, M_bind at 1.
  pose proof (resolve_server_mac_spec driver binding current_address (client_port_of kind) file (binding_block_size binding) steady s1 turns s1 N1) as Hres.
  destruct (resolve_server_mac _ _ _ _ s1) as [s2 [stop|[]]]; [destruct Hres as [(U1 & U2 & U3) Hst]; by apply received_nothing; [lia|..]|].
  destruct Hres as (U1 & U2 & U3). rewrite <- U2. destruct (build_rrq _ _ _) as [st|rrq] eqn:Er; [apply received_nothing; [lia| |done..]; apply build_rrq_status in Er; congruence|].
  destruct (ribon_tftp_guard_initialize _ _ _) as [st|g] eqn:Eg; [by apply received_nothing; [lia|..]|].
  destruct (initialized_fresh _ _ _ Eg) as [Hg _]. unfold mbind at 1, M_bind at 1.
  pose proof (transmit_udp_spec driver binding current_address (client_port_of kind) file (binding_block_size binding) steady s2
    (client_port_of kind) 69 rrq s2 (near_refl steady s2 U1 U3)) as Ht.
  destruct (transmit_udp _ _ _ _ _ _ s2) as [s3 [stop|[]]].
  { destruct Ht as [[N2 N3 N4 N5] (z & -> & Hz)]. apply received_nothing; [lia|congruence|done..]. }
  destruct Ht as [N2 N3 N4 N5]. rewrite <- N3.
  pose proof (snp_transfer_events driver binding current_address (client_port_of kind) file (binding_block_size binding) steady turns
    (request_buffer_capacity request) g 0 s3 N2 ltac:(lia)) as He.
  destruct (snp_transfer _ _ _ _ _ _ _ _ s3) as [s4 r]. destruct He as (W4 & Hok & events & Hall & E).
  assert (Hrb : guard_received_bytes g = 0) by apply Hg. apply (fresh_underway file) in Hg; [|lia..].
  pose proof (snp_receive_spec file (binding_block_size binding) (request_maximum_bytes request) (request_buffer_capacity request)
    (client_port_of kind) events Hbs Hm Hall (snp_buffer s3) g 0 Hg) as Hs. rewrite Hrb in Hs.
  change (store (snp_buffer s3) 0 (slice 0 0 file)) with (snp_buffer s3) in Hs. rewrite E in Hs. destruct Hs as [Hs1 Hs2].
  split; [done|]. split; [done|]. split; [done|]. intros n ->. by apply Hs2.
Qed.

Context (object : RibonRecoveryNetworkObjectBinding) (turns : nat) (opened : Z).
Context (Hty : binding_typed binding) (Hbs : 512 <= binding_block_size binding <= 1468) (Hmax : word 64 (object_maximum_bytes object)).
Abbreviation maximum := (object_maximum_bytes object).
Abbreviation operations := (network_operations driver binding current_address pxe turns opened BACKEND_SIMPLE_NETWORK).

(** One attempt of the gate. *)
Lemma call_fetch_received attempt capacity result n : sound steady (network_world n) ->
  let '(n', r) := call_fetch operations (attempt_request binding object kind capacity attempt) result n in
  sound steady (network_world n') /\
  (exists k, 0 <= k <= Z.min maximum (len file) /\ network_buffer n' = store (network_buffer n) 0 (slice 0 k file)) /\
  forall status result', r = inr (status, result') -> status = NETWORK_OK ->
    result_bytes_received result' = len file /\ network_buffer n' = store (network_buffer n) 0 file.
Proof.
  intros Hw. assert (Hm := Hmax). rewrite word64 in Hm. cbn [call_fetch network_operations transport_ops_fetch].
  set (request := attempt_request binding object kind capacity attempt). set (s := set_buffer (network_buffer n) (network_world n)).
  assert (Hs : let '(s', r) := recovery_fetch_once driver binding current_address pxe turns opened BACKEND_SIMPLE_NETWORK request result s in
    received maximum (snp_buffer s) s' r).
  { unfold recovery_fetch_once. destruct (request_path request) as [path|]; [|by apply received_nothing; [lia|..]].
    unfold mbind at 1, M_bind at 1, leave_if. match goal with |- context [if ?g then leave _ else mret tt] => destruct g eqn:G end;
      [by apply received_nothing; [lia|..]|]. cbn [mret M_ret].
    rewrite !orb_false_iff in G. destruct_and! G. change (BACKEND_SIMPLE_NETWORK =? BACKEND_PXE_BASE_CODE) with false. rewrite Z.eqb_refl.
    apply snp_fetch_once_spec; try done. destruct Hty as (T1 & T2 & _). rewrite word16 in T1. rewrite word32 in T2. apply Z.div_pos; lia. }
  change (snp_buffer s) with (network_buffer n) in Hs.
  destruct (recovery_fetch_once _ _ _ _ _ _ _ _ _ s) as [s' r]. destruct Hs as (Hw' & Hok & Hk & Hn).
  destruct r as [[st|]|bytes]; (split; [done|]); (split; [done|]); intros status result' [= <- <-] E; try done.
  - congruence.
  - by apply Hn.
Qed.

(** The attempts start over from the cleared buffer [b]. *)
Lemma fetch_attempts_received b capacity (remaining : nat) : len b = capacity -> maximum <= capacity ->
  store b 0 (zeros maximum) = b -> forall attempt status n, sound steady (network_world n) ->
  store (network_buffer n) 0 (zeros maximum) = b ->
  let '(n', r) := fetch_attempts binding object operations kind capacity remaining attempt status n in
  forall receipt, r = inr receipt ->
    result_bytes_received receipt = len file /\ len file <= maximum /\ network_buffer n' = store b 0 file.
Proof.
  intros Hb Hcap Hclear. assert (Hm := Hmax). rewrite word64 in Hm.
  induction remaining as [|remaining IH]; intros attempt status n Hw Hn; cbn [fetch_attempts]; [done|].
  unfold mbind at 1, M_bind at 1, clear_buffer at 1. rewrite Hn. set (n1 := mkNetwork _ b _).
  unfold mbind at 1, M_bind at 1.
  pose proof (call_fetch_received attempt capacity
    (mkResult sizeof_RibonRecoveryNetworkResult RIBON_RECOVERY_NETWORK_ABI_VERSION kind 0 0) n1 Hw) as Hc.
  destruct (call_fetch _ _ _ n1) as [n2 [st|[st r]]]; [done|]. destruct Hc as (Hw2 & (k & Hk & Hb2) & Hok).
  change (network_buffer n1) with b in Hb2, Hok. destruct (Z.eqb_spec st NETWORK_OK) as [E|_].
  - destruct (_ || _) eqn:G; [done|]. rewrite !orb_false_iff in G. destruct_and! G. bool_to_prop.
    intros receipt [= <-]. cbn. destruct (Hok st r eq_refl E) as [E1 E2]. split; [done|]. split; [lia|done].
  - destruct (_ && _); [done|]. apply IH; [done|]. rewrite Hb2, store_over; [done| |].
    + rewrite len_slice, len_zeros by lia. lia.
    + rewrite len_zeros; lia.
Qed.
End Recovery.


(** ** A network that works

    The driver delivers a list of frames and takes everything that is sent. *)
Definition scripted : SnpDriver (list bytes) :=
  mkDriver (fun _ w => (w, EFI_SUCCESS)) (fun w => (w, (EFI_SUCCESS, true)))
    (fun frame w =>
       match w with
       | [] => ([], (EFI_NOT_READY, 0, frame))
       | f :: rest => (rest, (EFI_SUCCESS, len f, store frame 0 f))
       end)
    (Some (fun w => (w, EFI_SUCCESS))).

(** The option acknowledgement of a server that takes the requested block size. *)
Definition oack_packet (block_size : Z) : bytes := [0; 6] ++ text "blksize" ++ [0] ++ append_decimal block_size ++ [0].

Lemma decimal_block_size bs : 512 <= bs <= 1468 ->
  Forall (fun x => x <> 0) (append_decimal bs) /\ 3 <= len (append_decimal bs) <= 5 /\ parse_block_size (append_decimal bs) = Some bs.
Proof.
  intros Hbs.
  assert (H : forallb (fun bs => forallb (fun x => x !=? 0) (append_decimal bs) && (3 <=? len (append_decimal bs)) &&
    (len (append_decimal bs) <=? 5) &&
    bool_decide (parse_block_size (append_decimal bs) = Some bs)) (seqZ 512 957) = true) by (vm_compute; done).
  rewrite forallb_in in H. specialize (H bs ltac:(apply elem_of_seqZ; lia)). rewrite !andb_true_iff in H. destruct_and! H.
  rewrite bool_decide_eq_true in *. split; [|split; [bool_to_prop; lia|done]].
  apply Forall_forall. intros x Hx. rewrite forallb_in in *. match goal with H : forall y, _ |- _ => specialize (H x Hx) end.
  bool_to_prop. done.
Qed.

Lemma until_nul_end b : Forall (fun x => x <> 0) b -> until_nul (b ++ [0]) = (b, Some []).
Proof.
  induction 1 as [|x b Hx Hb IH]; [done|]. cbn [app until_nul]. compare. by rewrite IH.
Qed.

(** The guard reads back the block size that the request has named. *)
Lemma oack_read g bs : 512 <= bs <= 1468 -> accept_oack g (oack_packet bs) =
  if (guard_options_complete g !=? 0) || (guard_expected_block g !=? 1) || (guard_block_size g <? bs) then (TFTP_MALFORMED, g)
  else (TFTP_OK, mkGuard (guard_size g) (guard_abi_version g) bs (guard_expected_block g) (u32 (guard_packet_count g + 1))
    (guard_maximum_bytes g) (guard_received_bytes g) 1 (guard_complete g)).
Proof.
  intros Hbs. destruct (decimal_block_size bs Hbs) as (D1 & D2 & D3). unfold accept_oack.
  assert (Hl : len (oack_packet bs) = 11 + len (append_decimal bs)) by (unfold oack_packet; rewrite !len_app; change (len [0; 6]) with 2; change (len (text "blksize")) with 7; change (len [0]) with 1; lia).
  rewrite Hl. compare.
  assert (Hs : slice 2 (11 + len (append_decimal bs) - 2) (oack_packet bs) = text "blksize" ++ 0 :: (append_decimal bs ++ [0])).
  { unfold oack_packet. rewrite slice_app_r by (change (len [0; 6]) with 2; lia). apply slice_all.
    change (0 :: (append_decimal bs ++ [0])) with ([0] ++ append_decimal bs ++ [0]). rewrite !len_app; change (len (text "blksize")) with 7;
      change (len [0]) with 1; lia. }
  rewrite Hs. change (until_nul (text "blksize" ++ 0 :: (append_decimal bs ++ [0]))) with (text "blksize", Some (append_decimal bs ++ [0])).
  cbn iota beta. change ((len (text "blksize") =? 0) || negb (is_blksize (text "blksize"))) with false. cbn iota.
  rewrite until_nul_end by done. compare. rewrite D3, orb_false_r. by destruct (_ || _).
Qed.

Section Delivery.
Context (binding : RibonRecoveryNetworkProductBinding) (current_address server_mac : bytes).
Abbreviation client := (endpoint binding current_address server_mac).
Abbreviation State := (Snp (list bytes)).
Context (Hends : endpoint_typed client).

(** The frame of a packet that the server sends. *)
Definition server_frame (identification port client_port : Z) (packet : bytes) : bytes :=
  datagram (reverse client) identification port client_port packet.

Definition arp_reply : bytes :=
  current_address ++ server_mac ++ be16 0x0806 ++ be16 1 ++ be16 0x0800 ++ [6; 4] ++ be16 2 ++
  server_mac ++ binding_server_ipv4 binding ++ current_address ++ binding_station_ipv4 binding.

Lemma scripted_transmit n (s : State) : 14 <= n <= 1536 -> snp_transmit scripted n s = (s, inr tt).
Proof.
  intros Hn. unfold snp_transmit, RIBON_ETHERNET_HEADER_SIZE, RIBON_UEFI_SNP_FRAME_CAPACITY. compare. by destruct s.
Qed.

Lemma scripted_receive f rest (s : State) : snp_world s = f :: rest -> 14 <= len f <= 1536 ->
  snp_receive scripted s = (set_receive (store (snp_receive_frame s) 0 f) (set_world rest s), inr (len f)).
Proof.
  intros Hw Hf. unfold snp_receive, tick_fuel, get. unfold mbind, M_bind. cbn [receive_loop]. unfold mbind, M_bind, call_receive.
  rewrite Hw. cbn [driver_receive scripted]. rewrite Z.eqb_refl. unfold leave_if, RIBON_ETHERNET_HEADER_SIZE, RIBON_UEFI_SNP_FRAME_CAPACITY.
  compare. done.
Qed.

(** What is sent changes nothing but the transmit buffer and the identification. *)
Lemma scripted_transmit_udp source destination payload (s : State) : len payload <= 1494 ->
  exists identification frame, transmit_udp scripted binding current_address source destination payload s =
    (set_transmit identification frame s, inr tt).
Proof.
  intros Hp. pose proof (len_nonneg payload). unfold transmit_udp. cbn zeta. unfold RIBON_ETHERNET_HEADER_SIZE, RIBON_IPV4_HEADER_SIZE,
    RIBON_UDP_HEADER_SIZE, RIBON_UEFI_SNP_FRAME_CAPACITY, UINT16_MAX. unfold mbind at 1, M_bind at 1, leave_if. compare. cbn [mret M_ret orb].
  unfold mbind, M_bind, modify. rewrite scripted_transmit by lia. eauto.
Qed.

Lemma reverse_typed e : endpoint_typed e -> endpoint_typed (reverse e).
Proof. intros [H1 H2 H3 H4]. by split. Qed.

Lemma server_frame_length i port cp packet : octets packet -> len (server_frame i port cp packet) = 42 + len packet.
Proof. intros Hp. by apply datagram_typed; [apply reverse_typed|]. Qed.

Lemma server_frame_parsed i port cp packet frame sp : octets packet -> len packet <= 1494 -> len frame = 1536 ->
  word 16 port -> word 16 cp -> sp = 0 \/ sp = port ->
  parse_udp client (store frame 0 (server_frame i port cp packet)) (len (server_frame i port cp packet)) cp sp = inr (packet, port).
Proof.
  intros Ho Hp Hf Hport Hcp Hsp. pose proof (len_nonneg packet). pose proof (server_frame_length i port cp packet Ho) as Hl. rewrite Hl.
  change client with (reverse (reverse client)). apply (parse_datagram _ i); try done; try lia.
  - by apply reverse_typed.
  - rewrite len_store. lia.
  - by rewrite slice_store_same by lia.
Qed.

(** What the loop does with the frames of the server is what [snp_receive_loop] does with its packets. *)
Lemma scripted_transfer capacity port cp (identification : bytes -> Z) : word 16 port -> word 16 cp ->
  forall packets turns guard sp (s : State) o b,
  snp_world s = (fun p => server_frame (identification p) port cp p) <$> packets -> snp_server_mac s = server_mac ->
  len (snp_receive_frame s) = 1536 -> Forall (fun p => octets p /\ len p <= 1494) packets -> (length packets <= turns)%nat ->
  sp = 0 \/ sp = port ->
  snp_receive_loop capacity cp guard sp (snp_buffer s) ((fun p => Datagram p port NETWORK_OK) <$> packets) = (o, b) -> o <> SnpWaiting ->
  exists s' r, snp_transfer scripted binding current_address turns capacity cp guard sp s = (s', r) /\ outcome r = o /\ snp_buffer s' = b.
Proof.
  intros Hport Hcp. induction packets as [|p packets IH]; intros turns guard sp s o b Hw Hmac Hrf Hall Hturns Hsp Hloop Ho.
  { cbn in Hloop. congruence. }
  destruct turns as [|turns]; [cbn in Hturns; lia|]. apply Forall_cons in Hall as [[Hp1 Hp2] Hall]. cbn in Hturns.
  pose proof (len_nonneg p). pose proof (server_frame_length (identification p) port cp p Hp1) as Hl.
  cbn [fmap list_fmap] in Hw, Hloop. cbn [snp_transfer]. unfold mbind at 1, M_bind at 1. rewrite (scripted_receive _ _ _ Hw) by lia.
  unfold mbind at 1, M_bind at 1, get. cbn [id]. set (s1 := set_receive _ _).
  change (snp_server_mac s1) with (snp_server_mac s). rewrite Hmac.
  change (snp_receive_frame s1) with (store (snp_receive_frame s) 0 (server_frame (identification p) port cp p)).
  rewrite server_frame_parsed by done. change (snp_buffer s) with (snp_buffer s1) in Hloop.
  assert (Hw1 : snp_world s1 = (fun p => server_frame (identification p) port cp p) <$> packets) by done.
  assert (Hm1 : snp_server_mac s1 = server_mac) by done. assert (Hr1 : len (snp_receive_frame s1) = 1536) by (unfold s1; cbn [snp_receive_frame set_receive]; by rewrite len_store).
  clearbody s1. clear s Hw Hmac Hrf Hl. cbn [snp_receive_loop] in Hloop. unfold leave_if.
  destruct (len p <? 2); [injection Hloop as <- <-; by eexists _, _|]. unfold mbind at 1, M_bind at 1. cbn [mret M_ret].
  destruct ((sp =? 0) && _); [injection Hloop as <- <-; by eexists _, _|]. unfold mbind at 1, M_bind at 1. cbn [mret M_ret].
  destruct (ribon_tftp_guard_accept _ _ _) as [[st g'] payload]. set (g2 := default guard g') in *.
  replace (if sp =? 0 then port else sp) with port in * by (destruct Hsp as [-> | ->]; [done|by destruct (port =? 0)]).
  (* the rest of the transfer, from the state after an acknowledgement *)
  assert (Hrest : forall buffer i frame o' b', snp_receive_loop capacity cp g2 port buffer ((fun p => Datagram p port NETWORK_OK) <$> packets) = (o', b') ->
    o' <> SnpWaiting -> exists s' r, snp_transfer scripted binding current_address turns capacity cp g2 port
      (set_transmit i frame (set_buffer buffer s1)) = (s', r) /\ outcome r = o' /\ snp_buffer s' = b').
  { intros buffer i frame o' b' Hl Ho'. apply IH; try done; [lia|by right]. }
  assert (Hack : forall block s2, exists i frame, transmit_tftp_ack scripted binding current_address cp port block s2 = (set_transmit i frame s2, inr tt)).
  { intros block s2. apply scripted_transmit_udp. done. }
  assert (Hsb : set_buffer (snp_buffer s1) s1 = s1) by (by destruct s1).
  destruct (bool_decide (st = TFTP_DUPLICATE)).
  { unfold mbind, M_bind. destruct (Hack (if 4 <=? len p then load_be16 p 2 else 0) s1) as (i & frame & ->).
    rewrite <- Hsb. by apply Hrest. }
  destruct (negb (bool_decide (st = TFTP_OK)) && _); [injection Hloop as <- <-; by eexists _, _|].
  unfold mbind at 1, M_bind at 1. cbn [mret M_ret].
  set (final := fun _ : unit => if bool_decide (st = TFTP_COMPLETE) then _ else _).
  assert (Hfinal : forall buffer i frame,
    (if bool_decide (st = TFTP_COMPLETE) then
       if guard_received_bytes g2 =? 0 then (SnpFailed NETWORK_TRUNCATED, buffer) else (SnpReceived (guard_received_bytes g2), buffer)
     else snp_receive_loop capacity cp g2 port buffer ((fun p => Datagram p port NETWORK_OK) <$> packets)) = (o, b) ->
    exists s' r, final tt (set_transmit i frame (set_buffer buffer s1)) = (s', r) /\ outcome r = o /\ snp_buffer s' = b).
  { intros buffer i frame Hl. unfold final. destruct (bool_decide (st = TFTP_COMPLETE)); [|by apply Hrest].
    unfold mbind, M_bind. destruct (guard_received_bytes g2 =? 0); injection Hl as <- <-; by eexists _, _. }
  clearbody final. destruct (load_be16 p 0 =? 6) eqn:E6.
  - replace (load_be16 p 0 =? 3) with false in Hloop by (bool_to_prop; by rewrite E6).
    unfold mbind, M_bind. destruct (Hack 0 s1) as (i & frame & ->). rewrite <- Hsb. by apply Hfinal.
  - destruct (load_be16 p 0 =? 3); [|injection Hloop as <- <-; by eexists _, _].
    cbn [negb andb] in Hloop. unfold mbind, M_bind, modify. destruct (_ || (_ <? len payload)); [injection Hloop as <- <-; by eexists _, _|].
    cbn [mret M_ret].
    destruct (Hack (if 4 <=? len p then load_be16 p 2 else 0) (set_buffer (store (snp_buffer s1) (guard_received_bytes guard) payload) s1))
      as (i & frame & ->). by apply Hfinal.
Qed.

Lemma six_bytes (b : bytes) : len b = 6 -> exists x y z w v u, b = [x; y; z; w; v; u].
Proof.
  intros H. destruct b as [|x [|y [|z [|w [|v [|u [|t r]]]]]]]; try (autorewrite with len in H; lia); [by repeat eexists|].
  pose proof (len_nonneg r). autorewrite with len in H. lia.
Qed.

(** The reply of the server is taken, and names its address. *)
Lemma arp_reply_taken frame : len frame = 1536 ->
  let f := store frame 0 arp_reply in
  len arp_reply = 42 /\ arp_reply_matches binding current_address f 42 = true /\ slice 22 6 f = server_mac.
Proof.
  intros Hf f. destruct Hends as [[_ L1] [_ L2] [_ L3] [_ L4]]. cbn in L1, L2, L3, L4.
  assert (Hl : len arp_reply = 42) by (unfold arp_reply; rewrite !len_app, L1, L2, L3, L4; done). split; [done|].
  assert (Hs : forall o n, 0 <= o -> 0 <= n -> o + n <= 42 -> slice o n f = slice o n arp_reply).
  { intros o n Ho Hn Hon. unfold f. rewrite slice_store_within by lia. f_equal. lia. }
  unfold arp_reply_matches, RIBON_ETHERNET_HEADER_SIZE. rewrite !(load_be16_slice f), !(byte_at_head f), !Hs by lia.
  apply six_bytes in L1 as (a1 & a2 & a3 & a4 & a5 & a6 & E1), L2 as (b1 & b2 & b3 & b4 & b5 & b6 & E2).
  apply four_bytes in L3 as (c1 & c2 & c3 & c4 & E3), L4 as (d1 & d2 & d3 & d4 & E4).
  unfold arp_reply. rewrite E1, E2, E3, E4. split; [|reflexivity].
  change (slice (14 + 14) 4 _) with [d1; d2; d3; d4]. change (slice (14 + 24) 4 _) with [c1; c2; c3; c4].
  change (slice (14 + 18) 6 _) with [a1; a2; a3; a4; a5; a6]. change (slice 0 4 [d1; d2; d3; d4]) with [d1; d2; d3; d4].
  change (slice 0 4 [c1; c2; c3; c4]) with [c1; c2; c3; c4]. change (slice 0 6 [a1; a2; a3; a4; a5; a6]) with [a1; a2; a3; a4; a5; a6].
  rewrite !bytes_equal_refl. reflexivity.
Qed.

Lemma scripted_resolve turns rest (s : State) : snp_server_mac_known s = 0 -> snp_world s = arp_reply :: rest ->
  len (snp_receive_frame s) = 1536 -> (0 < turns)%nat ->
  exists s', resolve_server_mac scripted binding current_address turns s = (s', inr tt) /\ snp_world s' = rest /\
    snp_server_mac s' = server_mac /\ len (snp_receive_frame s') = 1536 /\ snp_buffer s' = snp_buffer s.
Proof.
  intros Hk Hw Hf Ht. destruct turns as [|turns]; [lia|]. destruct (arp_reply_taken _ Hf) as (A1 & A2 & A3).
  unfold resolve_server_mac, get. unfold mbind at 1, M_bind at 1. rewrite Hk. cbn [negb Z.eqb]. unfold mbind, M_bind, modify.
  rewrite scripted_transmit by lia. set (s1 := set_transmit _ _ s). cbn [arp_loop]. unfold mbind, M_bind, get.
  rewrite (scripted_receive arp_reply rest s1) by (done || lia). cbn [snp_receive_frame set_receive]. 
  change (snp_receive_frame s1) with (snp_receive_frame s). rewrite A1, A2. cbn [negb]. eexists. split; [done|]. cbn. 
  split_and!; try done. by rewrite len_store.
Qed.
End Delivery.

(** A path that a validated binding may name fits a request. *)
Lemma canonical_path path : path_is_canonical (Some path) = true -> 0 < len path <= 96.
Proof.
  unfold path_is_canonical. destruct (_ || _) eqn:G; [done|]. apply orb_false_iff in G as [G _]. bool_to_prop. pose proof (len_nonneg path) as H0.
  set (step := fun '(length, previous_dot) character => if _ || _ then inl tt else inr (length + 1, character =? 46)).
  assert (H : forall p n d m d', foldE step p (n, d) = inr (m, d') -> n <= 96 -> m = n + len p /\ m <= 96).
  { induction p as [|x p IH]; intros n d m d' E Hn; cbn [foldE] in E.
    - injection E as <- <-. rewrite len_nil. lia.
    - unfold step at 1 in E. destruct (_ || _) eqn:G1; [done|]. rewrite !orb_false_iff in G1. destruct_and! G1.
      unfold RIBON_RECOVERY_NETWORK_PATH_CAPACITY in *. bool_to_prop. apply IH in E; [|lia]. rewrite len_cons. lia. }
  destruct (foldE step path (0, false)) as [|[m d]] eqn:E; [done|]. intros _. apply H in E; lia.
Qed.

Lemma decimal_octets bs : octets (append_decimal bs).
Proof.
  unfold append_decimal. assert (H : forall fuel v d, octets d -> octets (decimal_digits fuel v d)); [|by apply H, Forall_nil_2].
  induction fuel as [|fuel IH]; intros v d Hd; cbn [decimal_digits]; [done|].
  assert (octets (u8 (48 + v mod 10) :: d)) by (apply Forall_cons_2; [apply wrap_word; lia|done]). destruct (_ =? 0); [done|by apply IH].
Qed.

(** The packets of a server that acknowledges the option, or does not. *)
Definition server_packets (acknowledges : bool) (file : bytes) (block_size : Z) : list bytes :=
  (if acknowledges then [oack_packet block_size] else []) ++ (data_packet file block_size <$> seqZ 1 (block_total file block_size)).

Lemma server_packets_typed acknowledges file bs : 512 <= bs <= 1468 -> octets file -> len file < (UINT16_MAX - 1) * bs ->
  Forall (fun p => octets p /\ len p <= 1494) (server_packets acknowledges file bs).
Proof.
  intros Hbs Hf Hl. unfold server_packets. apply Forall_app. split.
  - destruct acknowledges; [|apply Forall_nil_2]. apply Forall_singleton. destruct (decimal_block_size bs Hbs) as (_ & D & _). unfold oack_packet. split.
    + rewrite !octets_app. repeat split; try (apply octetsb_octets; reflexivity). apply decimal_octets.
    + rewrite !len_app. change (len [0; 6]) with 2. change (len (text "blksize")) with 7. change (len [0]) with 1. lia.
  - apply Forall_fmap, Forall_forall. intros k Hk. apply elem_of_seqZ in Hk. unfold block_total in Hk.
    change (octets (data_packet file bs k) /\ len (data_packet file bs k) <= 1494).
    assert (Hd : len file / bs < 65534) by (apply Z.div_lt_upper_bound; unfold UINT16_MAX in Hl; lia).
    assert (Hw : word 16 k) by (rewrite word16; unfold UINT16_MAX; lia). split; [by apply data_packet_typed|].
    unfold data_packet. rewrite len_app, chunk_length; [|lia|unfold block_total; lia]. change (len [_; _; _; _]) with 4. lia.
Qed.

Lemma server_packets_received acknowledges file bs maximum capacity client port buffer g : 512 <= bs <= 1468 -> word 64 maximum ->
  maximum < (UINT16_MAX - 1) * bs -> octets file -> 0 < len file <= maximum -> maximum <= capacity -> port <> 0 -> port <> client ->
  ribon_tftp_guard_initialize false bs maximum = inr g ->
  snp_receive_loop capacity client g 0 buffer ((fun p => Datagram p port NETWORK_OK) <$> server_packets acknowledges file bs) =
    (SnpReceived (len file), store buffer 0 file).
Proof.
  intros Hbs Hm Hmax Hoct Hlen Hcap Hp1 Hp2 Hinit. destruct (initialized_fresh _ _ _ Hinit) as [Hg Hc].
  unfold server_packets. rewrite fmap_app, <- list_fmap_compose. fold (lossless file bs port 1 (block_total file bs)).
  destruct acknowledges; [|apply (lossless_received file bs maximum); try done; lia || by left].
  assert (Hg0 := Hg). destruct Hg0 as (F1 & F2 & F3 & F4 & F5 & F6 & F7 & F8).
  assert (Hopt : guard_options_complete g = 0).
  { unfold ribon_tftp_guard_initialize in Hinit. destruct (_ || _); [done|]. by injection Hinit as <-. }
  cbn [fmap list_fmap app]. destruct (decimal_block_size bs Hbs) as (_ & D & _).
  assert (Hl : 2 <= len (oack_packet bs)).
  { unfold oack_packet. rewrite !len_app. change (len [0; 6]) with 2. change (len (text "blksize")) with 7. change (len [0]) with 1. lia. }
  cbn [snp_receive_loop]. unfold ribon_tftp_guard_accept. rewrite F1, F2, F6, Hc, oack_read by done. rewrite Hopt, F4, F3.
  change (load_be16 (oack_packet bs) 0) with 6. compare. cbn -[snp_receive_loop lossless oack_packet]. compare.
  change (bool_decide (TFTP_OK = TFTP_DUPLICATE)) with false. change (bool_decide (TFTP_OK = TFTP_OK)) with true.
  change (bool_decide (TFTP_OK = TFTP_COMPLETE)) with false. cbn [negb andb].
  apply (lossless_received file bs maximum); try done; [|cbn; rewrite Hc; done|by right].
  unfold fresh_guard. cbn. rewrite Hc. split_and!; done.
Qed.

(** One attempt on a network that works. *)
Lemma snp_fetch_completes binding current_address server_mac port identification acknowledges file turns request path (s : Snp (list bytes)) :
  let bs := request_block_size request in
  let maximum := request_maximum_bytes request in
  let client := client_port_of (request_object_kind request) in
  endpoint_typed (endpoint binding current_address server_mac) -> 512 <= bs <= 1468 -> word 64 maximum -> maximum < (UINT16_MAX - 1) * bs ->
  0 < len path <= 96 -> octets file -> 0 < len file <= maximum -> maximum <= request_buffer_capacity request ->
  word 16 port -> port <> 0 -> port <> client -> snp_server_mac_known s = 0 -> len (snp_receive_frame s) = 1536 ->
  snp_world s = arp_reply binding current_address server_mac ::
    ((fun p => server_frame binding current_address server_mac (identification p) port client p) <$> server_packets acknowledges file bs) ->
  (length (server_packets acknowledges file bs) <= turns)%nat ->
  exists s', snp_fetch_once scripted binding current_address turns request path s = (s', inr (len file)) /\
    snp_buffer s' = store (snp_buffer s) 0 file.
Proof.
  intros bs maximum client Hends Hbs Hm Hmax Hpath Hoct Hlen Hcap Hport Hp1 Hp2 Hk Hf Hw Ht.
  assert (Ht0 : (0 < turns)%nat).
  { unfold server_packets, block_total in Ht. rewrite length_app, length_fmap, length_seqZ in Ht.
    pose proof (Z.div_pos (len file) bs ltac:(lia) ltac:(lia)). lia. }
  unfold snp_fetch_once. cbn zeta. fold (client_port_of (request_object_kind request)). fold client bs maximum.
  unfold mbind at 1, M_bind at 1, modify. set (s0 := set_ticks _ s). unfold mbind at 1, M_bind at 1.
  destruct (scripted_resolve binding current_address server_mac Hends turns _ s0 Hk Hw Hf Ht0) as (s1 & -> & W1 & M1 & F1 & B1).
  change (snp_buffer s0) with (snp_buffer s) in B1.
  destruct (decimal_block_size bs Hbs) as (_ & D & _).
  destruct (build_rrq request path 128) as [|rrq] eqn:Er.
  { unfold build_rrq in Er. change (len (text "octet" ++ [0])) with 6 in Er. change (len (text "blksize" ++ [0])) with 8 in Er.
    unfold RIBON_RECOVERY_NETWORK_PATH_CAPACITY in Er. revert Er. compare. done. }
  assert (Hrrq : len rrq <= 1494).
  { unfold build_rrq in Er. destruct (_ || _); [done|].
    apply (f_equal (fun r => match r with inr x => len x | inl _ => 0 end)) in Er. cbn beta iota in Er. fold bs in Er. rewrite <- Er, !len_app.
    change (len (text "octet")) with 5. change (len (text "blksize")) with 7. change (len [0; 1]) with 2. change (len [0]) with 1. lia. }
  destruct (ribon_tftp_guard_initialize false bs maximum) as [|g] eqn:Eg.
  { unfold ribon_tftp_guard_initialize in Eg. revert Eg. compare. done. }
  unfold mbind at 1, M_bind at 1.
  destruct (scripted_transmit_udp binding current_address client 69 rrq s1 Hrrq) as (i & frame & ->).
  pose proof (server_packets_received acknowledges file bs maximum (request_buffer_capacity request) client port (snp_buffer s) g
    Hbs Hm Hmax Hoct Hlen Hcap Hp1 Hp2 Eg) as Hloop.
  assert (Hcp : word 16 client) by (apply wrap_word; lia).
  destruct (scripted_transfer binding current_address server_mac Hends (request_buffer_capacity request) port client identification Hport Hcp
    (server_packets acknowledges file bs) turns g 0 (set_transmit i frame s1) (SnpReceived (len file)) (store (snp_buffer s) 0 file))
    as (s' & r & -> & Hr & Hb); try done; [apply server_packets_typed; lia || done|by left|cbn; by rewrite B1|].
  exists s'. split; [|done]. destruct r as [[]|]; [done..|]. by injection Hr as ->.
Qed.


(** ** The deadline

    A driver that always has a frame, none of them for the client.  However long the loop
    runs, it does not take a tick of the deadline. *)
Definition flooded : SnpDriver unit :=
  mkDriver (fun _ w => (w, EFI_SUCCESS)) (fun w => (w, (EFI_SUCCESS, true)))
    (fun frame w => (w, (EFI_SUCCESS, 60, frame))) (Some (fun w => (w, EFI_SUCCESS))).

Lemma flood_never_times_out binding current_address turns (s : Snp unit) : snp_receive_frame s = zeros 1536 ->
  arp_loop flooded binding current_address turns s = (s, inl SnpUnfinished).
Proof.
  intros Hf. assert (Hr : snp_receive flooded s = (s, inr 60)).
  { unfold snp_receive, tick_fuel, get, mbind, M_bind. cbn [receive_loop]. unfold mbind, M_bind, call_receive. by destruct s as [[]]. }
  induction turns as [|turns IH]; [done|]. cbn [arp_loop]. unfold mbind, M_bind, get. rewrite Hr, Hf. exact IH.
Qed.

(** ** The network that works is an honest one *)

(** Whatever a client makes of the frame, it is the packet that was sent. *)
Lemma parse_datagram_only e e' i s d p f cp port payload actual : endpoint_typed e -> 42 + len p <= len f -> len p <= 65507 ->
  slice 0 (42 + len p) f = datagram e i s d p -> parse_udp e' f (42 + len p) cp port = inr (payload, actual) -> payload = p.
Proof.
  intros He Hf Hp E. destruct (frame_pieces e i s d p f He Hf E) as (_ & _ & E4 & _ & _ & E7 & E9).
  set (c := ipv4_checksum (ip_header e i (28 + len p) 0)) in *.
  destruct (ip_header_fields e i (28 + len p) c He) as (F1 & _). pose proof (len_nonneg p).
  assert (B14 : byte_at f 14 = 0x45) by (rewrite <- F1, <- E4, byte_at_slice by lia; done).
  assert (W38 : load_be16 f 38 = 8 + len p).
  { rewrite load_be16_slice, E7 by lia. apply load_be16_be16. rewrite word16. unfold UINT16_MAX. lia. }
  unfold parse_udp. unfold RIBON_ETHERNET_HEADER_SIZE, RIBON_IPV4_HEADER_SIZE, RIBON_UDP_HEADER_SIZE. rewrite B14.
  change (14 + Z.land 69 15 * 4) with 34. change (34 + 4) with 38. change (34 + 8) with 42. rewrite W38.
  replace (8 + len p - 8) with (len p) by lia. rewrite E9.
  repeat (destruct (_ || _); [done|]). by intros [= <- _].
Qed.

Section Honest.
Context (binding : RibonRecoveryNetworkProductBinding) (current_address server_mac : bytes) (client_port : Z) (file : bytes) (block_size : Z).
Context (Hends : endpoint_typed (endpoint binding current_address server_mac)).

(** The frames of a server that sends [file], and its answer to the address query. *)
Definition honest_frame (f : bytes) : Prop :=
  f = arp_reply binding current_address server_mac \/
  exists i port p, f = server_frame binding current_address server_mac i port client_port p /\
    octets p /\ len p <= 1494 /\ honest file block_size p.

Lemma honest_frame_typed f : honest_frame f -> octets f /\ len f <= 1536.
Proof.
  destruct Hends as [[M1 L1] [M2 L2] [M3 L3] [M4 L4]]. cbn in *. intros [-> | (i & port & p & -> & Hp & Hl & _)].
  - unfold arp_reply. split.
    + rewrite !octets_app. repeat split; try apply be16_octets; try done; apply octetsb_octets; reflexivity.
    + rewrite !len_app, L1, L2, L3, L4. done.
  - split; [by apply datagram_typed; [apply reverse_typed|]|]. rewrite server_frame_length by done. lia.
Qed.

#[export] Instance scripted_honest : HonestNetwork scripted binding current_address client_port file block_size (Forall honest_frame).
Proof.
  split.
  - by intros frame w w' status Hw [= <- <-].
  - by intros w w' r Hw [= <- <-].
  - by intros stall w w' status [= <-] Hw [= <- <-].
  - intros frame w w' status size frame' Hw Ho Hl E. unfold RIBON_UEFI_SNP_FRAME_CAPACITY in Hl.
    destruct w as [|f w]; cbn in E; injection E as <- <- <- <-; [done|].
    apply Forall_cons in Hw as [Hf Hw]. destruct (honest_frame_typed f Hf) as [Hf1 Hf2]. split; [done|]. split; [by apply octets_store|].
    split; [apply len_store|]. intros _ mac server_port payload port Hparse.
    destruct Hf as [-> | (i & sport & p & -> & Hp & Hlp & Hh)].
    + destruct (arp_reply_taken _ _ _ Hends frame Hl) as (A1 & A2 & _). rewrite A1 in Hparse. unfold arp_reply_matches in A2.
      rewrite andb_true_iff, !negb_true_iff, !orb_false_iff in A2. destruct A2 as [[_ A2] _]. bool_to_prop.
      unfold parse_udp in Hparse. by rewrite A2, orb_true_r in Hparse.
    + rewrite server_frame_length in Hparse by done. pose proof (len_nonneg p).
      assert (payload = p) as ->; [|done]. eapply (parse_datagram_only _ _ i sport client_port p); [by apply reverse_typed| | | |exact Hparse].
      * rewrite len_store. lia.
      * lia.
      * rewrite slice_store_same; [done|lia| |rewrite Hl; lia]. by apply server_frame_length.
Qed.
End Honest.

Lemma server_packets_honest acknowledges file bs : 512 <= bs <= 1468 -> len file < (UINT16_MAX - 1) * bs ->
  Forall (honest file bs) (server_packets acknowledges file bs).
Proof.
  intros Hbs Hl. apply Forall_app. split.
  - destruct acknowledges; [|apply Forall_nil_2]. apply Forall_singleton. split; [done|]. intros _ g g' E. rewrite oack_read in E by done.
    destruct (_ || _); [done|]. by injection E as <-.
  - apply Forall_fmap, Forall_forall. intros k Hk. apply elem_of_seqZ in Hk. apply data_packet_honest; [|lia].
    assert (len file / bs < 65534) by (apply Z.div_lt_upper_bound; unfold UINT16_MAX in Hl; lia). unfold block_total in Hk.
    rewrite word16. unfold UINT16_MAX. lia.
Qed.

(** ** The hypotheses hold *)

Definition station_mac : bytes := [2; 0; 0; 0; 0; 1].
Definition gateway_mac : bytes := [2; 0; 0; 0; 0; 2].

Definition sample_endpoint : Endpoint := endpoint recovery_binding station_mac gateway_mac.

Lemma sample_endpoint_typed : endpoint_typed sample_endpoint.
Proof. split; (split; [apply octetsb_octets; reflexivity|reflexivity]). Qed.

Lemma udp_frame_roundtrip_witness :
  parse_udp (reverse sample_endpoint) (store (zeros 1536) 0 (slice 0 45 (udp_frame sample_endpoint 7 40001 69 (zeros 1536) [1; 2; 3])))
    45 69 0 = inr ([1; 2; 3], 40001).
Proof.
  exact (udp_frame_roundtrip sample_endpoint 7 40001 69 (zeros 1536) [1; 2; 3] (zeros 1536) 0 sample_endpoint_typed
    ltac:(vm_compute; done) ltac:(vm_compute; done) ltac:(vm_compute; done) ltac:(done) ltac:(done) ltac:(by left)).
Defined.

Definition sample_frames : list bytes :=
  arp_reply recovery_binding station_mac gateway_mac ::
  ((fun p => server_frame recovery_binding station_mac gateway_mac 0 1069 (client_port_of 1) p) <$> server_packets true sample_object 512).

Definition sample_stack : Snp (list bytes) := mkSnp sample_frames 0 0 0 (zeros 6) (zeros 1536) (zeros 1536) [].

Definition no_pxe {W} : PxeDriver W := mkPxe (fun _ w => (w, (EFI_UNSUPPORTED, 0))) (fun _ _ buffer w => (w, (EFI_UNSUPPORTED, 0, buffer))).

Definition sample_operations : RibonNetworkTransportServiceOperations (Snp (list bytes)) :=
  network_operations scripted recovery_binding station_mac no_pxe 8 1 BACKEND_SIMPLE_NETWORK.


Lemma sample_stack_sound :
  sound (Forall (honest_frame recovery_binding station_mac gateway_mac (client_port_of 1) sample_object 512)) sample_stack.
Proof.
  split; [|split; [apply octets_zeros|reflexivity]]. apply Forall_cons_2; [by left|]. apply Forall_fmap.
  assert (H1 : octets sample_object) by (apply octetsb_octets; reflexivity).
  pose proof (server_packets_typed true sample_object 512 ltac:(lia) H1 ltac:(vm_compute; done)) as H2.
  pose proof (server_packets_honest true sample_object 512 ltac:(lia) ltac:(vm_compute; done)) as H3.
  rewrite Forall_forall in H2, H3. apply Forall_forall. intros p Hp. right. destruct (H2 p Hp). by exists 0, 1069, p; auto.
Qed.

Lemma sample_recovery_succeeds : snd (ribon_recovery_network_fetch (Some recovery_binding) (Some recovery_service) (Some sample_operations) 1 false 1000
  (mkNetwork sample_stack (zeros 1000) [])) =
  inr (mkResult sizeof_RibonRecoveryNetworkResult RIBON_RECOVERY_NETWORK_ABI_VERSION 1 1 600).
Proof. vm_compute. done. Qed.

